(* ===== verification/_CoqProject ===== *)
-Q . S2P
Prelude.v
Float64.v
Bitcoin.v
Messages.v
Contract.v
Errors.v
SwapCoin.v
ScriptEval.v
TaprootLib.v
Taproot.v
TapScript.v
TakerTracker.v
TakerState.v
Payment.v
LegacyVerification.v
TaprootVerification.v
MakerHandlers.v
LegacyHandlers.v
TaprootHandlers.v
WalletStore.v
MakerApi.v
MakerSwaps.v
MakerFunding.v
ServerInvariant.v
MakerReservation.v
WatchRegistry.v
Watcher.v
WatcherInvariant.v
WatchQueries.v
WatchRebuild.v
WatchLiveness.v
MakerTracker.v
Fidelity.v
ChainWait.v
WalletRecovery.v
RecoverySafety.v
SweepSafety.v
MakerRecovery.v
MakerRecoverySafety.v
Framing.v
ConnectionLimiter.v
Connection.v
ConnectionSafety.v
TakerApi.v
TakerFunding.v
TakerLegacy.v
TakerTaproot.v
TakerSwap.v
TakerSteps.v
TakerLegacySafety.v
TakerExchange.v
TakerCoins.v
TakerRecovery.v
TakerRecoverySafety.v
TakerScenario.v
OfferBook.v
OfferBookSafety.v
TakerPrepare.v
TakerPrepareSafety.v
Float32.v
WalletUtxo.v
CoinSelect.v
CoinSelectSafety.v
WalletSpend.v
WalletSpendSafety.v
Deniability.v
AtRest.v
AtRestSafety.v
Electrum.v
ElectrumSafety.v
Descriptor.v
Config.v
