(* ===== verification/Prelude.v ===== *)
(** * OpenSwap: a verification of the coin-swap protocol implementation

    The program is a Bitcoin coin-swap client and server.  A *taker* routes a
    swap through several *makers*.  On every hop the sender locks coins in a
    2-of-2 multisig whose spending *contract transaction* pays to a
    hash-time-locked script; the parties exchange signatures on the contracts
    before any funding is broadcast, and at the end hand over their multisig
    keys so that no contract ever appears on chain.  What has to be right:
    the contract script gives the coin to whoever knows the preimage, or back
    to the sender after a relative locktime; a party broadcasts its funding only
    when its refund is signed, watched and saved; a party releases its keys only
    against verified keys of the other side; amounts and fees add up.

    ** Parts and files

    - [Prelude]: results with errors and panics ([outcome]), operations with a
      mutable receiver ([stateful]), machine integers, loops, the shared lemmas,
      tactics and hint databases.
    - [Float64]: the IEEE double operations of the fee formulas
      (src/protocol/contract.rs [calculate_swap_fee], src/utill.rs
      [calculate_fee_sats]).
    - [Bitcoin]: keys, scripts, transactions and signatures of the bitcoin and
      secp256k1 crates.  Those crates are not part of the repository: what the
      code calls is the class [BitcoinLib], what it relies on is the class
      [BitcoinLaws], and [Reference] is a concrete instance that shows the laws
      can hold.  Script builders and [instructions] are executable byte-level
      definitions.
    - [Messages]: src/protocol/common_messages.rs, legacy_messages.rs,
      taproot_messages.rs, the protocol error enum.
    - [Contract]: src/protocol/contract.rs, with the fee helpers of src/utill.rs.
    - [Errors]: the error enums of src/wallet, src/maker and src/taker.
    - [SwapCoin]: src/wallet/swapcoin.rs, legacy protocol.
    - [ScriptEval]: an interpreter for the Bitcoin Script opcodes the contract
      and multisig scripts use; it is the abstract specification against which
      the scripts and the signed transactions are judged.
    - [TakerTracker]: src/taker/swap_tracker.rs, with the file system as a
      parameter of its own.
    - [TakerState]: the swap parameters, maker connections and ongoing-swap
      state of src/taker/api.rs with the offer checks and refund offsets.
    - [Payment]: src/taker/payment.rs and [expected_amount_for_hop].
    - [LegacyVerification]: src/maker/legacy_verification.rs and
      src/taker/legacy_verification.rs.
    - [MakerHandlers]: src/maker/handlers.rs.  The trait [Maker] of the source
      is the class [Maker W] over an arbitrary world [W]; a handler is a
      stateful operation on the connection state, the world and a trace of the
      effects it asked for, each with its success, and of the answers it decides
      on (the watchtower, the height, the confirmations).
    - [LegacyHandlers]: src/maker/legacy_handlers.rs on top of that class.
    - [WalletStore]: the records of src/wallet/storage.rs and the operations of
      src/wallet/api.rs on them that need no node.
    - [MakerApi]: src/maker/api.rs, the server that implements [Maker];
      [MakerSwaps], [MakerFunding], [MakerReservation]: its table of swaps, its
      verification of a proof of funding, the outpoints it reserves.
    - [ServerInvariant]: a step relation for the server (messages on any number
      of connections, background work) and its invariant.
    - [TaprootLib]: the taproot and MuSig2 parts of the crates, again with laws
      and a concrete instance; [Taproot]: src/protocol/contract2.rs, musig2.rs,
      musig_interface.rs and the taproot spends of src/wallet/swapcoin.rs;
      [TapScript]: a specification of taproot spends; [TaprootVerification],
      [TaprootHandlers]: both sides' checks and the maker's handlers
      (src/maker/taproot_*.rs, src/taker/taproot_verification.rs).
    - [WatchRegistry], [Watcher]: src/watch_tower (registry, scanner, thread and
      service); [WatcherInvariant], [WatchQueries], [WatchRebuild],
      [WatchLiveness]: what they promise.
    - [MakerTracker]: src/maker/swap_tracker.rs.
    - [Fidelity]: src/wallet/fidelity.rs and the maker's bond setup.
    - [ChainWait], [WalletRecovery]: waiting for confirmations, the sweep of
      incoming coins and the refund of outgoing ones (src/wallet/api.rs);
      [RecoverySafety], [SweepSafety]: when they may forget a coin.
    - [MakerRecovery], [MakerRecoverySafety]: the recovery threads of
      src/maker/server.rs.
    - [Framing], [ConnectionLimiter], [Connection], [ConnectionSafety]: message
      framing, admission and the life of a connection (src/maker/server.rs,
      src/utill.rs).
    - [TakerApi], [TakerFunding], [TakerLegacy], [TakerTaproot], [TakerSwap]: the
      taker: connections, persistence, negotiation and finalisation
      (src/taker/api.rs), its own funding, the two drivers
      (src/taker/legacy_swap.rs, taproot_swap.rs) and [start_swap];
      [TakerSteps], [TakerLegacySafety], [TakerExchange], [TakerCoins],
      [TakerScenario]: what a run may do, and concrete runs.
    - [TakerRecovery], [TakerRecoverySafety]: the recovery loop of
      src/taker/background_services.rs and the start-up recovery.
    - [OfferBook], [OfferBookSafety]: src/taker/offers.rs as a step relation of
      workers, service and user.
    - [TakerPrepare], [TakerPrepareSafety]: [prepare_swap] and [discover_makers]
      of src/taker/api.rs.
    - [WalletUtxo]: the classification of unspent outputs, the cache of a
      synchronisation and the locks (src/wallet/api.rs, with the descriptor
      reader of src/utill.rs); [CoinSelect], [CoinSelectSafety]: [coin_select] of
      src/wallet/api.rs; [Float32]: the [f32] arithmetic it uses.
    - [WalletSpend], [WalletSpendSafety]: src/wallet/spend.rs,
      src/wallet/funding.rs and [sign_transaction] of src/wallet/api.rs.
    - [Deniability]: src/wallet/deniability.rs.
    - [AtRest], [AtRestSafety]: src/security.rs, src/wallet/storage.rs,
      src/wallet/backup.rs and the creation and opening of a wallet of
      src/wallet/api.rs.
    - [Electrum], [ElectrumSafety]: src/wallet/blockchain/electrum.rs, with the
      chain names and the trait's defaults of src/wallet/blockchain/mod.rs.
    - [Descriptor]: [compute_checksum] of src/utill.rs.
    - [Config]: [parse_toml] and [parse_field] of src/utill.rs,
      src/taker/config.rs and the file of [MakerServerConfig] of
      src/maker/api.rs.


    Data flows as in the code: the handlers call the verifications and the
    operations of [Maker], which [MakerApi] implements on the wallet; the drivers
    of the taker use the same verifications, wallet and tracker; both recoveries
    run on [WalletRecovery]; the route of a swap comes from [OfferBook] through
    [TakerPrepare].

    ** What the theorems show

    - Scripts ([ScriptEval], [Contract]): the contract output can be spent
      exactly with the preimage and the hashlock key, without a delay, or with
      the timelock key once the relative locktime has passed; the hashlock, timelock and
      cooperative spends that the wallet signs are accepted by the interpreter;
      what is built is read back, and template checks make the readers total.
    - Verification ([LegacyVerification]): the exact condition under which a
      maker signs for a taker; an accepted signature completes its contract to a
      transaction that spends the funding; accepted handover keys make every
      incoming coin spendable; what the taker's checks bind, and what they miss.
    - Handlers ([LegacyHandlers]): the order of effects around the funding
      broadcast and the key release, that no contract is left without its signature,
      the balance of incoming and outgoing value,
      an invariant of the connection state on every outcome of every message,
      and that a refused swap has no effect.
    - Maker server ([MakerFunding], [ServerInvariant], [MakerReservation]): an
      accepted proof of funding can be claimed; in every reachable state of the
      server the connection state and the stored swaps agree with what was
      broadcast; reserved outpoints are withheld from other swaps.
    - Taproot ([TapScript], [TaprootVerification], [TaprootHandlers]): the exact
      acceptance condition of the maker, that what it accepts can be claimed, and
      that its funding goes out only when protected.
    - Watchtower ([WatcherInvariant], [WatchQueries], [WatchRebuild],
      [WatchLiveness]): every watch is armed or queued for a retry, a restart
      finds the spends it missed of the contracts whose height the node answers, a
      query is answered in a fair run.
    - Recovery ([ChainWait], [RecoverySafety], [SweepSafety],
      [MakerRecoverySafety], [TakerRecoverySafety]): the record of a coin is
      dropped only for a stated reason, in runs of any length and on every failure:
      it was refunded or swept, the node reported it spent or not fundable, or, by a
      maker, its tracker has it as never funded or another coin of the swap was
      swept.
    - Connections ([Framing], [ConnectionLimiter], [ConnectionSafety]): frames
      survive any chopping, slow peers are cut off, permits are counted, and a
      turn of a connection is a sequence of steps of the server.
    - Taker ([TakerLegacySafety], [TakerExchange], [TakerCoins],
      [TakerPrepareSafety]): preparing a swap commits nothing and yields distinct
      makers that agreed; a prepared payment pays in full; funding goes out only
      when it can be refunded; the loops end; the coins left at the end are
      backed.
    - Market ([Fidelity], [OfferBookSafety]): accepted bonds are locked, created
      bonds are accepted, and only vetted makers are offered for swaps.
    - Spending ([CoinSelectSafety], [WalletSpendSafety]): a selection holds free
      coins of one kind that the node listed; a transaction of the wallet spends
      them, balances and is signed as the chain demands; funding pays the amount
      of a swap exactly and spends no coin twice.  The instance
      [wallet_world_laws] shows that the builder is what [Fidelity] assumes of it.
    - Deniability ([Deniability]): a proof of the wallet is accepted, and an
      accepted proof is about a contract output whose keys signed for it.
    - Secrets at rest ([AtRestSafety]): a save replaces the wallet file whole or
      not at all and only by sealed data, a wallet opens again with its passphrase
      and no other, a restore overwrites nothing and gives back the master key.
    - The Electrum backend ([ElectrumSafety]): it implements the interface
      [ArmedBackend] the watcher's invariant is proved against, however often its
      connection is replaced, and no transaction of a watched script is lost
      between the server's history and the events: every subscribed script has its
      turn in a poll, and what a turn could not read or fetch is flagged for a later
      one, within the configured retries.
    - Descriptors and configuration ([Descriptor], [Config]): a checksum exists for
      every text over the alphabet and changes with any single character
      ([checksum_detects_one_error]); a saved configuration is loaded again
      ([taker_config_round_trip], [maker_config_round_trip]) and a maker's settings
      are in range whatever its file says ([loaded_maker_settings_are_valid]).
    - Payments ([Payment]): the search for a hop's gross amount terminates and
      is exact and tight; the backward solution of a route nets exactly what is
      asked, hop by hop, and its consistency check never fires.
    - Persistence ([TakerTracker]): restart cleanup treats each record by its
      phase; a save replaces the file wholly or not at all.

    ** Bounds and fuel

    Loops over lists are structural.  Two loops of src/taker/payment.rs are not:
    [double_hi] doubles a 64-bit amount and stops at the 21M-coin cap, so 64
    rounds are enough; [bisect] halves an interval of 64-bit amounts, so 65
    rounds are enough.  Both facts are part of the proof that the search
    returns.  Amounts, heights and locktimes are integers with the width of the
    Rust type: [wrap w] where Rust wraps, [checked_*] where it checks, [Panic]
    where [Amount] arithmetic would.

    Other loops that are not structural carry fuel.  Waiting for a confirmation
    has [WAIT_ROUNDS] rounds, enough because the pauses grow to the timeout
    ([ChainWait]).  The taker's loops have one turn per maker and spare, which
    [taker_loops_end] shows to be enough.  Reading a frame takes one arrival per
    unit of fuel, and a connection or a recovery one turn or pass: there the fuel
    is how long the thread has run, and the theorems hold for every fuel.  The
    split of a funding amount is drawn at most [FRACTION_ATTEMPTS] times, as in
    the code.

    ** What is not modelled

    Log lines, the integration-test behaviours behind [cfg(feature =
    "integration-test")], wall-clock time other than as an input, and the text of
    formatted error messages (a message is its format string).  Networking,
    threads, RPC to Bitcoin Core, the Electrum client, encryption and
    serialisation are library calls and enter as the operations of a class over a
    world.  The Bitcoin Core backend (src/wallet/blockchain/corerpc.rs), which
    forwards such operations to the node, and the dispatch between the backends
    are not translated, nor are the command-line programs, the control socket of
    the maker (src/maker/rpc), nostr discovery, fee services
    and reports; of the wallet's synchronisation only the update of the cache is,
    and the poisoning of the locks of the Electrum backend is left out.
    So is the thread of discovery that the watcher starts, with the error its
    [run] returns when the connection of that thread cannot be made. *)
From stdpp Require Export base list gmap strings.
From Stdlib Require Export ZArith Lia.

#[export] Set Default Goal Selector "!".
#[global] Open Scope Z_scope.

(** ** Outcomes

    A Rust function returning [Result<A, E>] either returns [Ok], returns
    [Err], or panics (slice index out of range, [expect] on [None], checked
    [Amount] arithmetic).  The three are distinct outcomes of the model. *)
Inductive outcome (E A : Type) : Type :=
| Ok (a : A)
| Err (e : E)
| Panic.
Arguments Ok {E A} a.
Arguments Err {E A} e.
Arguments Panic {E A}.

#[global] Instance outcome_ret E : MRet (outcome E) := fun A a => Ok a.
#[global] Instance outcome_bind E : MBind (outcome E) := fun A B f m =>
  match m with
  | Ok a => f a
  | Err e => Err e
  | Panic => Panic
  end.

Definition is_ok {E A} (m : outcome E A) : bool :=
  match m with Ok _ => true | _ => false end.

(** [Result::map_err]. *)
Definition map_err {E E' A} (f : E -> E') (m : outcome E A) : outcome E' A :=
  match m with
  | Ok a => Ok a
  | Err e => Err (f e)
  | Panic => Panic
  end.

(** [Option::ok_or]. *)
Definition ok_or {E A} (o : option A) (e : E) : outcome E A :=
  match o with Some a => Ok a | None => Err e end.

(** [Option::expect] and slice indexing: [None] panics. *)
Definition expect {E A} (o : option A) : outcome E A :=
  match o with Some a => Ok a | None => Panic end.

(** [if bad { return Err(e) }]. *)
Definition reject {E} (bad : bool) (e : E) : outcome E () :=
  if bad then Err e else Ok ().

(** [for (i, x) in xs.iter().enumerate() { body?; }], counting from [i]. *)
Fixpoint for_each_from {E A} (body : nat -> A -> outcome E ()) (i : nat) (xs : list A)
  : outcome E () :=
  match xs with
  | [] => Ok ()
  | x :: rest => body i x ≫= fun _ => for_each_from body (S i) rest
  end.

Abbreviation for_each body xs := (for_each_from (fun _ x => body x) 0 xs).
Abbreviation for_each_i body xs := (for_each_from body 0 xs).

(** [iter().map(f).collect::<Result<Vec<_>, _>>()]. *)
Fixpoint try_map {E A B} (f : A -> outcome E B) (xs : list A) : outcome E (list B) :=
  match xs with
  | [] => Ok []
  | x :: rest => f x ≫= fun y => try_map f rest ≫= fun ys => Ok (y :: ys)
  end.

(** A [for] loop that threads an accumulator. *)
Fixpoint try_fold {E A S} (f : S -> A -> outcome E S) (s : S) (xs : list A) : outcome E S :=
  match xs with
  | [] => Ok s
  | x :: rest => f s x ≫= fun s' => try_fold f s' rest
  end.

(** ** Stateful operations

    A method with [&mut self] that returns a [Result]: the state after the call
    is part of the result also when the call fails. *)
Definition stateful (S E A : Type) : Type := S -> outcome E A * S.

#[global] Instance stateful_ret S E : MRet (stateful S E) := fun A a s => (Ok a, s).
#[global] Instance stateful_bind S E : MBind (stateful S E) := fun A B f m s =>
  match m s with
  | (Ok a, s') => f a s'
  | (Err e, s') => (Err e, s')
  | (Panic, s') => (Panic, s')
  end.

Definition lift {S E A} (m : outcome E A) : stateful S E A := fun s => (m, s).
Definition gets {S E A} (f : S -> A) : stateful S E A := fun s => (Ok (f s), s).
Definition modify {S E} (f : S -> S) : stateful S E () := fun s => (Ok (), f s).

(** [match m { Ok(a) => .., Err(e) => .. }]: an error becomes a value, a panic
    stays one. *)
Definition attempt {S E E' A} (m : stateful S E A) : stateful S E' (A + E) := fun s =>
  match m s with
  | (Ok a, s') => (Ok (inl a), s')
  | (Err e, s') => (Ok (inr e), s')
  | (Panic, s') => (Panic, s')
  end.

(** A [for] loop of stateful steps. *)
Fixpoint st_for_each {S E A} (body : A -> stateful S E ()) (xs : list A) : stateful S E () :=
  match xs with
  | [] => mret ()
  | x :: rest => body x ≫= fun _ => st_for_each body rest
  end.

(** A [for] loop over effectful steps that also threads an accumulator. *)
Fixpoint st_fold {S E A B} (f : B -> A -> stateful S E B) (acc : B) (xs : list A) : stateful S E B :=
  match xs with
  | [] => mret acc
  | x :: rest => f acc x ≫= fun acc' => st_fold f acc' rest
  end.
Fixpoint st_map {S E A B} (f : A -> stateful S E B) (xs : list A) : stateful S E (list B) :=
  match xs with
  | [] => mret []
  | x :: rest => f x ≫= fun y => st_map f rest ≫= fun ys => mret (y :: ys)
  end.

(** ** Machine integers *)

Definition in_width (w z : Z) : Prop := 0 <= z < 2 ^ w.
Abbreviation is_u8 := (in_width 8).
Abbreviation is_u16 := (in_width 16).
Abbreviation is_u32 := (in_width 32).
Abbreviation is_u64 := (in_width 64).

Definition U16_MAX : Z := 65535.
Definition U32_MAX : Z := 4294967295.
Definition U64_MAX : Z := 18446744073709551615.

(** [uN::checked_add], [checked_sub], [checked_mul] and their saturating and
    wrapping variants. *)
Definition checked_add (w a b : Z) : option Z :=
  if a + b <? 2 ^ w then Some (a + b) else None.
Definition checked_sub (a b : Z) : option Z :=
  if b <=? a then Some (a - b) else None.
Definition checked_mul (w a b : Z) : option Z :=
  if a * b <? 2 ^ w then Some (a * b) else None.
Definition saturating_add (w a b : Z) : Z := Z.min (a + b) (2 ^ w - 1).
Definition saturating_sub (a b : Z) : Z := Z.max 0 (a - b).
Definition saturating_mul (w a b : Z) : Z := Z.min (a * b) (2 ^ w - 1).
Definition wrap (w a : Z) : Z := a mod 2 ^ w.

(** Length of a slice as an integer. *)
Definition zlen {A} (l : list A) : Z := Z.of_nat (length l).

(** [&bytes[lo..hi]]: [None] where Rust panics. *)
Definition slice {A} (lo hi : nat) (l : list A) : option (list A) :=
  if (lo <=? hi)%nat && (hi <=? length l)%nat
  then Some (take (hi - lo) (drop lo l)) else None.

(** Byte-wise lexicographic [<] on slices, as Rust compares [[u8]]. *)
Fixpoint bytes_lt (a b : list Z) : bool :=
  match a, b with
  | [], [] => false
  | [], _ :: _ => true
  | _ :: _, [] => false
  | x :: a', y :: b' => if x <? y then true else if y <? x then false else bytes_lt a' b'
  end.

(** ** Lemmas *)

Section outcome_lemmas.
Context {E A B : Type}.

Lemma bind_Ok (m : outcome E A) (f : A -> outcome E B) b :
  m ≫= f = Ok b <-> exists a, m = Ok a /\ f a = Ok b.
Proof.
  destruct m; simpl; split; [eauto | | | | |]; try naive_solver.
Qed.

Lemma bind_Ok_eq (a : A) (f : A -> outcome E B) : Ok a ≫= f = f a.
Proof. done. Qed.

Lemma bind_no_panic (m : outcome E A) (f : A -> outcome E B) :
  m <> Panic -> (forall a, m = Ok a -> f a <> Panic) -> m ≫= f <> Panic.
Proof. destruct m; simpl; naive_solver. Qed.

Lemma ok_or_Ok (o : option A) (e : E) a : ok_or o e = Ok a <-> o = Some a.
Proof. destruct o; simpl; naive_solver. Qed.

Lemma ok_or_no_panic (o : option A) (e : E) : ok_or o e <> Panic.
Proof. by destruct o. Qed.

Lemma expect_Ok (o : option A) a : expect (E := E) o = Ok a <-> o = Some a.
Proof. destruct o; simpl; naive_solver. Qed.

Lemma reject_Ok (b : bool) (e : E) u : reject b e = Ok u <-> b = false.
Proof. destruct b, u; simpl; naive_solver. Qed.

Lemma reject_no_panic (b : bool) (e : E) : reject b e <> Panic.
Proof. by destruct b. Qed.

Lemma map_err_Ok {E'} (g : E -> E') (m : outcome E A) a :
  map_err g m = Ok a <-> m = Ok a.
Proof. destruct m; simpl; naive_solver. Qed.

Lemma map_err_no_panic {E'} (g : E -> E') (m : outcome E A) :
  map_err g m <> Panic <-> m <> Panic.
Proof. destruct m; simpl; naive_solver. Qed.
End outcome_lemmas.

Lemma st_bind_Ok {S E A B} (m : stateful S E A) (f : A -> stateful S E B) s b s' :
  (m ≫= f) s = (Ok b, s') <-> exists a s1, m s = (Ok a, s1) /\ f a s1 = (Ok b, s').
Proof.
  unfold mbind, stateful_bind. destruct (m s) as [[a|e|] s1]; naive_solver.
Qed.

Lemma st_bind_step {S E A B} (m : stateful S E A) (f : A -> stateful S E B) s a s1 :
  m s = (Ok a, s1) -> (m ≫= f) s = f a s1.
Proof. unfold mbind, stateful_bind. by intros ->. Qed.

Lemma lift_Ok {S E A} (m : outcome E A) (s s' : S) a : lift m s = (Ok a, s') <-> m = Ok a /\ s' = s.
Proof. unfold lift. naive_solver. Qed.

Lemma for_each_from_Ok {E A} (body : nat -> A -> outcome E ()) i xs u :
  for_each_from body i xs = Ok u <->
  forall k x, xs !! k = Some x -> body (i + k)%nat x = Ok ().
Proof.
  destruct u. revert i. induction xs as [|x xs IH]; intros i; simpl.
  - split; [intros _ k y Hk; by rewrite lookup_nil in Hk | done].
  - rewrite bind_Ok. split.
    + intros ([] & Hx & Hrest) [|k] y Hk; simplify_eq/=.
      * by rewrite Nat.add_0_r.
      * rewrite Nat.add_succ_r. by eapply (proj1 (IH (S i)) Hrest).
    + intros H. exists (). split.
      * rewrite <- (Nat.add_0_r i). by apply H.
      * apply IH. intros k y Hk. rewrite Nat.add_succ_l, <- Nat.add_succ_r. by apply H.
Qed.

Lemma for_each_Ok {E A} (body : A -> outcome E ()) xs u :
  for_each body xs = Ok u <-> Forall (fun x => body x = Ok ()) xs.
Proof. rewrite for_each_from_Ok, Forall_lookup. done. Qed.

Lemma for_each_from_no_panic {E A} (body : nat -> A -> outcome E ()) i xs :
  (forall k x, xs !! k = Some x -> body (i + k)%nat x <> Panic) ->
  for_each_from body i xs <> Panic.
Proof.
  revert i. induction xs as [|x xs IH]; intros i H; simpl; [done|].
  apply bind_no_panic.
  - rewrite <- (Nat.add_0_r i). by apply H.
  - intros _ _. apply IH. intros k y Hk.
    rewrite Nat.add_succ_l, <- Nat.add_succ_r. by apply H.
Qed.

Lemma try_map_Ok {E A B} (f : A -> outcome E B) xs ys :
  try_map f xs = Ok ys <-> Forall2 (fun x y => f x = Ok y) xs ys.
Proof.
  revert ys. induction xs as [|x xs IH]; intros ys; simpl.
  - split; [intros [= <-]; constructor | by inversion 1].
  - rewrite bind_Ok. setoid_rewrite bind_Ok. split.
    + intros (y & Hy & zs & Hzs%IH & [= <-]). by constructor.
    + inversion 1; subst. eexists. split; [done|]. eexists. split; [by apply IH|done].
Qed.

Lemma try_map_no_panic {E A B} (f : A -> outcome E B) xs :
  Forall (fun x => f x <> Panic) xs -> try_map f xs <> Panic.
Proof.
  induction 1 as [|x xs Hx _ IH]; simpl; [done|].
  apply bind_no_panic; [done|]. intros y _. by apply bind_no_panic.
Qed.

Lemma checked_add_Some w a b c :
  checked_add w a b = Some c <-> a + b < 2 ^ w /\ c = a + b.
Proof. unfold checked_add. case_match; naive_solver lia. Qed.

Lemma checked_sub_Some a b c : checked_sub a b = Some c <-> b <= a /\ c = a - b.
Proof. unfold checked_sub. case_match; naive_solver lia. Qed.

Lemma wrap_small w a : in_width w a -> wrap w a = a.
Proof. intros H. by apply Z.mod_small. Qed.

Lemma wrap_range w a : 0 <= w -> in_width w (wrap w a).
Proof. intros H. apply Z.mod_pos_bound. by apply Z.pow_pos_nonneg. Qed.

Lemma zlen_nonneg {A} (l : list A) : 0 <= zlen l.
Proof. unfold zlen. lia. Qed.

Lemma zlen_cons {A} (x : A) l : zlen (x :: l) = 1 + zlen l.
Proof. unfold zlen. simpl. lia. Qed.

Lemma zlen_app {A} (l k : list A) : zlen (l ++ k) = zlen l + zlen k.
Proof. unfold zlen. rewrite length_app. lia. Qed.

Lemma slice_Some {A} lo hi (l r : list A) :
  slice lo hi l = Some r <->
  (lo <= hi <= length l)%nat /\ r = take (hi - lo) (drop lo l).
Proof.
  unfold slice. destruct (Nat.leb_spec lo hi), (Nat.leb_spec hi (length l)); simpl; naive_solver lia.
Qed.

(** A slice that falls on the middle part of a concatenation is that part. *)
Lemma slice_middle {A} (pre mid post : list A) lo hi :
  lo = length pre -> hi = (length pre + length mid)%nat ->
  slice lo hi (pre ++ mid ++ post) = Some mid.
Proof.
  intros -> ->. apply slice_Some. rewrite !length_app. split; [lia|].
  rewrite drop_app_length.
  replace (length pre + length mid - length pre)%nat with (length mid) by lia.
  by rewrite take_app_length.
Qed.

Lemma bool_decide_ne_refl {A} `{EqDecision A} (x : A) : bool_decide (x <> x) = false.
Proof. apply bool_decide_eq_false_2. tauto. Qed.

Lemma bytes_lt_irrefl a : bytes_lt a a = false.
Proof. induction a as [|x a IH]; simpl; [done|]. by rewrite Z.ltb_irrefl. Qed.

Lemma bytes_lt_asym a b : bytes_lt a b = true -> bytes_lt b a = false.
Proof.
  revert b. induction a as [|x a IH]; intros [|y b]; simpl; try done.
  destruct (Z.ltb_spec x y), (Z.ltb_spec y x); try done; [lia|]. auto.
Qed.

Lemma bytes_lt_total a b :
  length a = length b -> a <> b -> bytes_lt a b = false -> bytes_lt b a = true.
Proof.
  revert b. induction a as [|x a IH]; intros [|y b]; simpl; try done.
  intros [= Hlen] Hne. destruct (Z.ltb_spec x y), (Z.ltb_spec y x); try done; try lia.
  intros Hlt. apply IH; [done| |done]. intros ->. apply Hne. f_equal. lia.
Qed.

(** ** Automation *)

Create HintDb outcome.
#[export] Hint Resolve ok_or_no_panic reject_no_panic : outcome.


(** Splits a hypothesis [H : m = Ok a] about a chain of binds into the facts
    each step establishes. *)
Ltac inv_ok_step H :=
  lazymatch type of H with
  | _ ≫= _ = Ok _ =>
      apply bind_Ok in H;
      let a := fresh "v" in let Hl := fresh "Hs" in
      destruct H as (a & Hl & H); try inv_ok_step Hl; try inv_ok_step H
  | mbind _ _ = Ok _ =>
      apply bind_Ok in H;
      let a := fresh "v" in let Hl := fresh "Hs" in
      destruct H as (a & Hl & H); try inv_ok_step Hl; try inv_ok_step H
  | ok_or _ _ = Ok _ => apply ok_or_Ok in H
  | expect _ = Ok _ => apply expect_Ok in H
  | reject _ _ = Ok _ => apply reject_Ok in H
  | map_err _ _ = Ok _ => apply map_err_Ok in H; try inv_ok_step H
  | Ok _ = Ok _ => injection H as H; subst
  | mret _ = Ok _ => injection H as H; subst
  end.
Tactic Notation "inv_ok" hyp(H) := repeat inv_ok_step H.

(** Turns boolean tests into propositions in the whole context. *)
Ltac to_prop :=
  repeat match goal with
  | H : orb _ _ = false |- _ => apply orb_false_iff in H as [? ?]
  | H : orb _ _ = true |- _ => apply orb_true_iff in H
  | H : andb _ _ = true |- _ => apply andb_true_iff in H as [? ?]
  | H : negb _ = true |- _ => apply negb_true_iff in H
  | H : negb _ = false |- _ => apply negb_false_iff in H
  | H : Z.ltb _ _ = true |- _ => apply Z.ltb_lt in H
  | H : Z.ltb _ _ = false |- _ => apply Z.ltb_ge in H
  | H : Z.leb _ _ = true |- _ => apply Z.leb_le in H
  | H : Z.leb _ _ = false |- _ => apply Z.leb_gt in H
  | H : Z.eqb _ _ = true |- _ => apply Z.eqb_eq in H
  | H : Z.eqb _ _ = false |- _ => apply Z.eqb_neq in H
  | H : Nat.eqb _ _ = true |- _ => apply Nat.eqb_eq in H
  | H : Nat.eqb _ _ = false |- _ => apply Nat.eqb_neq in H
  | H : Nat.ltb _ _ = true |- _ => apply Nat.ltb_lt in H
  | H : Nat.ltb _ _ = false |- _ => apply Nat.ltb_ge in H
  | H : bool_decide _ = true |- _ => apply bool_decide_eq_true in H
  | H : bool_decide _ = false |- _ => apply bool_decide_eq_false in H
  end.

(** Walks a chain of binds, maps of errors and case distinctions to show that
    it cannot panic; the calls it makes are discharged from the hint database. *)
Ltac no_panic :=
  repeat first
    [ done
    | solve [auto with outcome]
    | apply bind_no_panic; [|intros ? ?]
    | apply map_err_no_panic
    | case_match ].
