(* ===== verification/Float64.v ===== *)
(** IEEE-754 binary64 as the Rust code uses it.

    The fee schedules of the program are computed in [f64].  A float is a
    [spec_float] of the Standard Library at precision 53 and maximal exponent
    1024, whose operations round to nearest, ties to even, as Rust's do.  The
    conversions ([u64 as f64], [f64 as u64]) and [f64::ceil] are written out
    here: the cast back saturates and sends NaN to 0. *)
From Stdlib Require Import SpecFloat.
From S2P Require Import Prelude.

Abbreviation f64 := spec_float.

Definition f64_add : f64 -> f64 -> f64 := SFadd 53 1024.
Definition f64_mul : f64 -> f64 -> f64 := SFmul 53 1024.
Definition f64_div : f64 -> f64 -> f64 := SFdiv 53 1024.
Definition f64_ltb : f64 -> f64 -> bool := SFltb.
Definition f64_leb : f64 -> f64 -> bool := SFleb.

Definition f64_is_nan (x : f64) : bool :=
  match x with S754_nan => true | _ => false end.
Definition f64_is_infinite (x : f64) : bool :=
  match x with S754_infinity _ => true | _ => false end.

(** [z as f64] for an integer [z]: round to nearest even. *)
Definition f64_of_Z (z : Z) : f64 := binary_normalize 53 1024 z 0 false.

(** The literal [n / 10^k] as the compiler reads it, for the few literals the
    code has: [n] and [10^k] are exact in binary64. *)
Definition f64_lit (n d : Z) : f64 := f64_div (f64_of_Z n) (f64_of_Z d).

(** Integer part of a finite magnitude [m * 2^e], rounded down or up. *)
Definition mag_floor (m : positive) (e : Z) : Z :=
  if 0 <=? e then Zpos m * 2 ^ e else Zpos m / 2 ^ (- e).
Definition mag_ceil (m : positive) (e : Z) : Z :=
  if 0 <=? e then Zpos m * 2 ^ e else - ((- Zpos m) / 2 ^ (- e)).

(** [f64::ceil]. *)
Definition f64_ceil (x : f64) : f64 :=
  match x with
  | S754_finite s m e =>
      if 0 <=? e then x
      else
        let z := if s then - mag_floor m e else mag_ceil m e in
        if z =? 0 then S754_zero s else binary_normalize 53 1024 z 0 s
  | _ => x
  end.

(** [x as u64]: truncation, saturating at both ends, NaN to 0. *)
Definition f64_to_u64 (x : f64) : Z :=
  match x with
  | S754_finite false m e => Z.min (mag_floor m e) U64_MAX
  | S754_infinity false => U64_MAX
  | _ => 0
  end.

Lemma f64_to_u64_range x : is_u64 (f64_to_u64 x).
Proof.
  unfold in_width. change (2 ^ 64) with (U64_MAX + 1).
  assert (0 < U64_MAX) by reflexivity.
  destruct x as [s|s| |s m e]; try destruct s; simpl; try lia.
  enough (0 <= mag_floor m e) by lia. unfold mag_floor.
  destruct (Z.leb_spec 0 e).
  - apply Z.mul_nonneg_nonneg; [lia|]. by apply Z.pow_nonneg.
  - apply Z.div_pos; [lia|]. apply Z.pow_pos_nonneg; lia.
Qed.

Example f64_ceil_of_fee :
  f64_to_u64 (f64_ceil (f64_div (f64_mul (f64_of_Z 100001) (f64_lit 25 10)) (f64_of_Z 100)))
  = 2501.
Proof. reflexivity. Qed.

Example f64_of_Z_rounds : f64_to_u64 (f64_of_Z (2 ^ 53 + 1)) = 2 ^ 53.
Proof. reflexivity. Qed.

Example f64_cast_saturates : f64_to_u64 (f64_of_Z (2 ^ 70)) = U64_MAX.
Proof. reflexivity. Qed.
