(* ===== verification/Bitcoin.v ===== *)
(** The interface of the [bitcoin] and [secp256k1] crates.

    The program's own code under src/ calls these crates; their sources are not
    part of the repository.  Their data (outpoints, transactions, keys) are
    records with the crates' field names; their functions are the fields of the
    class [BitcoinLib]; what the program relies on of their documented
    behaviour are the fields of [BitcoinLaws].  Every theorem about the
    program's code is proved for an arbitrary instance.  [Reference] at the end
    of the file is a concrete, executable instance for which every law holds:
    its script encoding is the consensus encoding, its hashes and curve are
    small stand-ins. *)
From S2P Require Import Prelude.

Abbreviation bytes := (list Z).

(** A curve point is represented by its 33-byte compressed encoding, a secret
    key by its scalar, a transaction id and a digest by their 256-bit value. *)
Abbreviation Point := (list Z).
Abbreviation SecretKey := Z.
Abbreviation Txid := Z.
Abbreviation Amount := Z.
Abbreviation Script := (list Z).

Record PublicKey := { compressed : bool; inner : Point }.
Record OutPoint := { op_txid : Txid; op_vout : Z }.
Record TxIn := { previous_output : OutPoint; script_sig : Script; sequence : Z; witness : list bytes }.
Record TxOut := { value : Amount; script_pubkey : Script }.
Record Transaction := { version : Z; lock_time : Z; input : list TxIn; output : list TxOut }.
Record Signature := { sig_bytes : bytes; sighash_type : Z }.
Record WitnessProgram := { wp_version : Z; wp_program : bytes }.

#[global] Instance PublicKey_eq_dec : EqDecision PublicKey.
Proof. solve_decision. Defined.
#[global] Instance OutPoint_eq_dec : EqDecision OutPoint.
Proof. solve_decision. Defined.
#[global] Instance TxIn_eq_dec : EqDecision TxIn.
Proof. solve_decision. Defined.
#[global] Instance TxOut_eq_dec : EqDecision TxOut.
Proof. solve_decision. Defined.
#[global] Instance Transaction_eq_dec : EqDecision Transaction.
Proof. solve_decision. Defined.
#[global] Instance OutPoint_countable : Countable OutPoint.
Proof.
  refine (inj_countable' (fun o => (op_txid o, op_vout o))
            (fun p => {| op_txid := p.1; op_vout := p.2 |}) _).
  by intros [].
Defined.

(** One item of [Script::instructions()]: [None] stands for a script error. *)
Inductive Instruction :=
| PushBytes (d : bytes)
| Op (opcode : Z).

(** Documented constants of the crate. *)
Definition MAX_MONEY : Amount := 2100000000000000.
Definition SIGHASH_ALL : Z := 1.
Definition OP_PUSHNUM_2 : Z := 82.
Definition OP_IF : Z := 99.
Definition OP_ELSE : Z := 103.
Definition OP_ENDIF : Z := 104.
Definition OP_RETURN : Z := 106.
Definition OP_DROP : Z := 117.
Definition OP_ROT : Z := 123.
Definition OP_SWAP : Z := 124.
Definition OP_SIZE : Z := 130.
Definition OP_EQUAL : Z := 135.
Definition OP_EQUALVERIFY : Z := 136.
Definition OP_SHA256 : Z := 168.
Definition OP_HASH160 : Z := 169.
Definition OP_CHECKSIG : Z := 172.
Definition OP_CHECKMULTISIG : Z := 174.
Definition OP_CLTV : Z := 177.
Definition OP_CSV : Z := 178.

(** [Amount - Amount] panics on underflow, [Amount + Amount] on overflow. *)
Definition amount_sub {E} (a b : Amount) : outcome E Amount := expect (checked_sub a b).
Definition amount_add {E} (a b : Amount) : outcome E Amount := expect (checked_add 64 a b).

(** Script numbers: minimal little-endian sign-magnitude encoding. *)
Fixpoint le_bytes (fuel : nat) (n : Z) : bytes :=
  match fuel with
  | O => []
  | S fuel => if n <=? 0 then [] else n mod 256 :: le_bytes fuel (n / 256)
  end.
Definition script_int (n : Z) : bytes :=
  let bs := le_bytes 8 n in
  match last bs with
  | Some top => if 128 <=? top then bs ++ [0] else bs
  | None => []
  end.

Class BitcoinLib := {
  (* secp256k1 keys *)
  valid_point : Point -> bool;
  pubkey_from_slice : bytes -> option PublicKey;
  serialize_uncompressed : Point -> bytes;
  point_combine : Point -> Point -> option Point;
  point_from_secret_key : SecretKey -> Point;
  secret_add_tweak : SecretKey -> Z -> option SecretKey;
  (* ECDSA over a 32-byte digest *)
  ecdsa_sign : Z -> SecretKey -> bytes;
  ecdsa_verify : Z -> bytes -> Point -> bool;
  (* hashes *)
  hash160 : bytes -> bytes;
  sha256 : bytes -> bytes;
  wscript_hash : Script -> bytes;
  compute_txid : Transaction -> Txid;
  p2wsh_signature_hash : Transaction -> nat -> Script -> Amount -> Z -> option Z;
  (* script builder: each appends to the script built so far *)
  push_opcode : Z -> Script -> Script;
  push_slice : bytes -> Script -> Script;
  push_int : Z -> Script -> Script;
  push_key : PublicKey -> Script -> Script;
  (* script reader *)
  instructions : Script -> list (option Instruction);
  classify_pushnum : Z -> option Z;
  (* witness programs *)
  witness_program_new : Z -> bytes -> option WitnessProgram;
  new_witness_program : WitnessProgram -> Script;
  (* fee rates, in the crate's own unit *)
  fee_rate_from_sat_per_vb : Z -> option Z;
  fee_vb : Z -> Z -> option Amount;
}.

(** A transaction without its witnesses. *)
Definition strip_witness (tx : Transaction) : Transaction :=
  {| tx with input := map (fun i => {| i with witness := [] |}) (input tx) |}.

(** Opcodes that push no data: everything above the data-push range. *)
Definition is_plain_opcode (op : Z) : Prop := 79 <= op <= 255.

Class BitcoinLaws (lib : BitcoinLib) : Prop := {
  valid_point_length p : valid_point p = true -> length p = 33%nat;
  pubkey_from_slice_compressed p :
    valid_point p = true -> pubkey_from_slice p = Some {| compressed := true; inner := p |};
  pubkey_from_slice_33 bs k :
    length bs = 33%nat -> pubkey_from_slice bs = Some k ->
    k = {| compressed := true; inner := bs |} /\ valid_point bs = true;
  point_from_secret_key_valid k : valid_point (point_from_secret_key k) = true;
  point_combine_valid p q r : point_combine p q = Some r -> valid_point r = true;
  secret_add_tweak_point k t k' :
    secret_add_tweak k t = Some k' ->
    point_combine (point_from_secret_key k) (point_from_secret_key t) =
      Some (point_from_secret_key k');
  ecdsa_sign_verify d k : ecdsa_verify d (ecdsa_sign d k) (point_from_secret_key k) = true;
  hash160_length bs : length (hash160 bs) = 20%nat;
  sha256_length bs : length (sha256 bs) = 32%nat;
  wscript_hash_length s : length (wscript_hash s) = 32%nat;
  (* BIP143 commits to no witness, and fails only on a missing input *)
  sighash_ignores_witness tx i rs amt ty :
    p2wsh_signature_hash tx i rs amt ty = p2wsh_signature_hash (strip_witness tx) i rs amt ty;
  sighash_defined tx i rs amt ty :
    (i < length (input tx))%nat -> is_Some (p2wsh_signature_hash tx i rs amt ty);
  (* the placeholder point 0x02 * 33 of the multisig template is on the curve *)
  placeholder_valid : valid_point (replicate 33 2) = true;
  push_opcode_spec op s : push_opcode op s = s ++ [op];
  push_slice_spec d s : (length d <= 75)%nat -> push_slice d s = s ++ zlen d :: d;
  push_int_zero s : push_int 0 s = s ++ [0];
  push_int_small n s : 1 <= n <= 16 -> push_int n s = s ++ [80 + n];
  push_int_large n s : 17 <= n < 2 ^ 31 -> push_int n s = push_slice (script_int n) s;
  push_key_compressed k s : compressed k = true -> push_key k s = push_slice (inner k) s;
  push_key_uncompressed k s :
    compressed k = false -> push_key k s = push_slice (serialize_uncompressed (inner k)) s;
  serialize_uncompressed_length p : valid_point p = true -> length (serialize_uncompressed p) = 65%nat;
  instructions_nil : instructions [] = [];
  instructions_opcode op s :
    is_plain_opcode op -> instructions (op :: s) = Some (Op op) :: instructions s;
  instructions_push d s :
    (length d <= 75)%nat ->
    instructions (zlen d :: d ++ s) = Some (PushBytes d) :: instructions s;
  classify_pushnum_small n : 1 <= n <= 16 -> classify_pushnum (80 + n) = Some n;
  classify_pushnum_Some op n : classify_pushnum op = Some n -> 0 < n -> op = 80 + n /\ n <= 16;
  witness_program_v0 h :
    length h = 32%nat -> witness_program_new 0 h = Some {| wp_version := 0; wp_program := h |};
  new_witness_program_v0 h :
    length h = 32%nat ->
    new_witness_program {| wp_version := 0; wp_program := h |} = 0 :: 32 :: h;
  fee_rate_exact r v :
    0 <= r < 2 ^ 16 -> 0 <= v < 2 ^ 32 ->
    exists fr, fee_rate_from_sat_per_vb r = Some fr /\ fee_vb fr v = Some (r * v);
}.

(** The pushes with their data in front, the shape the reader lemmas consume. *)
Lemma instructions_push_small `{BitcoinLaws} n d s :
  n = zlen d -> (length d <= 75)%nat ->
  instructions (n :: d ++ s) = Some (PushBytes d) :: instructions s.
Proof. intros -> Hd. by apply instructions_push. Qed.

(** Values of a contract locktime: [push_int] of a [u16] and what the reader
    sees of it. *)
Lemma script_int_u16 n :
  17 <= n <= U16_MAX ->
  script_int n =
    if n <? 128 then [n]
    else if n <? 32768 then [n mod 256; n / 256]
    else [n mod 256; n / 256; 0].
Proof.
  unfold U16_MAX, script_int. intros Hn. cbn [le_bytes].
  destruct (Z.leb_spec n 0); [lia|].
  destruct (Z.ltb_spec n 256) as [Hlt|Hge].
  - rewrite (Z.div_small n 256) by lia. rewrite (Z.mod_small n 256) by lia. cbn [last].
    change (0 <=? 0) with true. cbv iota. cbn [last].
    destruct (Z.ltb_spec n 128), (Z.leb_spec 128 n); try lia; [done|].
    by destruct (Z.ltb_spec n 32768); [|lia].
  - assert (1 <= n / 256 <= 255) as Hd.
    { split; [apply Z.div_le_lower_bound|apply Z.lt_succ_r, Z.div_lt_upper_bound]; lia. }
    destruct (Z.leb_spec (n / 256) 0); [lia|].
    rewrite (Z.div_small (n / 256) 256), (Z.mod_small (n / 256) 256) by lia.
    change (0 <=? 0) with true. cbv iota. cbn [last].
    destruct (Z.ltb_spec n 128); [lia|].
    destruct (Z.ltb_spec n 32768), (Z.leb_spec 128 (n / 256)); try done; exfalso.
    + assert (n / 256 < 128) by (apply Z.div_lt_upper_bound; lia). lia.
    + assert (128 <= n / 256) by (apply Z.div_le_lower_bound; lia). lia.
Qed.

(** ** A reference instance *)
Module Reference.
(** [n] little-endian bytes of [z], zero padded. *)
Fixpoint le_fixed (n : nat) (z : Z) : bytes :=
  match n with O => [] | S n => z mod 256 :: le_fixed n (z / 256) end.

Lemma le_fixed_length n z : length (le_fixed n z) = n.
Proof. revert z. induction n; intros z; simpl; auto. Qed.

Lemma le_fixed_bytes n z : forallb (fun b => (0 <=? b) && (b <? 256)) (le_fixed n z) = true.
Proof.
  revert z. induction n as [|n IH]; intros z; simpl; [done|]. rewrite IH.
  pose proof (Z.mod_pos_bound z 256 eq_refl) as [].
  destruct (Z.leb_spec 0 (z mod 256)), (Z.ltb_spec (z mod 256) 256); try lia; done.
Qed.

(** A 64-bit polynomial stand-in for the hash functions. *)
Definition mix (bs : bytes) : Z :=
  fold_left (fun acc b => Z.land (acc * 1000003 + b + 1) 18446744073709551615) bs 7.

Definition valid_point (p : Point) : bool :=
  match p with
  | h :: t =>
      ((h =? 2) || (h =? 3)) && (length t =? 32)%nat
      && forallb (fun b => (0 <=? b) && (b <? 256)) t
  | [] => false
  end.

Definition pubkey_from_slice (bs : bytes) : option PublicKey :=
  if valid_point bs then Some {| compressed := true; inner := bs |} else None.

Fixpoint le_value (bs : bytes) : Z :=
  match bs with [] => 0 | b :: t => b + 256 * le_value t end.

Definition point_from_secret_key (k : SecretKey) : Point := 2 :: le_fixed 32 k.
Definition point_combine (p q : Point) : option Point :=
  if valid_point p && valid_point q
  then Some (2 :: le_fixed 32 (le_value (tail p) + le_value (tail q))) else None.

Definition sign (d : Z) (k : SecretKey) : bytes := d :: point_from_secret_key k.
Definition verify (d : Z) (s : bytes) (p : Point) : bool := bool_decide (s = d :: p).

Definition outpoint_bytes (o : OutPoint) : bytes := [op_txid o; op_vout o].
Definition tx_bytes (tx : Transaction) : bytes :=
  version tx :: lock_time tx :: zlen (input tx)
    :: flat_map (fun i => outpoint_bytes (previous_output i) ++ [sequence i]) (input tx)
    ++ flat_map (fun o => value o :: zlen (script_pubkey o) :: script_pubkey o) (output tx).

(** Reader of the consensus script encoding; one unit of fuel per item. *)
Fixpoint instructions_fuel (fuel : nat) (s : Script) : list (option Instruction) :=
  match fuel, s with
  | O, _ | _, [] => []
  | S fuel, b :: rest =>
      let push n rest :=
        if (length rest <? n)%nat then [None]
        else Some (PushBytes (take n rest)) :: instructions_fuel fuel (drop n rest) in
      if b <=? 75 then push (Z.to_nat b) rest
      else if b =? 76 then
        if (length rest <? 1)%nat then [None]
        else push (Z.to_nat (le_value (take 1 rest))) (drop 1 rest)
      else if b =? 77 then
        if (length rest <? 2)%nat then [None]
        else push (Z.to_nat (le_value (take 2 rest))) (drop 2 rest)
      else if b =? 78 then
        if (length rest <? 4)%nat then [None]
        else push (Z.to_nat (le_value (take 4 rest))) (drop 4 rest)
      else Some (Op b) :: instructions_fuel fuel rest
  end.

Definition push_slice (d : bytes) (s : Script) : Script :=
  if (length d <=? 75)%nat then s ++ zlen d :: d
  else if (length d <=? 255)%nat then s ++ 76 :: zlen d :: d
  else s ++ 77 :: le_fixed 2 (zlen d) ++ d.

Definition push_int (n : Z) (s : Script) : Script :=
  if n =? 0 then s ++ [0]
  else if (n =? -1) || ((1 <=? n) && (n <=? 16)) then s ++ [80 + n]
  else push_slice (script_int n) s.

#[export] Instance lib : BitcoinLib := {|
  Bitcoin.valid_point := valid_point;
  Bitcoin.pubkey_from_slice := pubkey_from_slice;
  serialize_uncompressed p := 4 :: tail p ++ le_fixed 32 (mix p);
  Bitcoin.point_combine := point_combine;
  Bitcoin.point_from_secret_key := point_from_secret_key;
  secret_add_tweak k t := Some ((k + t) mod 2 ^ 256);
  ecdsa_sign := sign;
  ecdsa_verify := verify;
  hash160 bs := le_fixed 20 (mix (1 :: bs));
  sha256 bs := le_fixed 32 (mix (2 :: bs));
  wscript_hash s := le_fixed 32 (mix (3 :: s));
  compute_txid tx := mix (4 :: tx_bytes tx);
  p2wsh_signature_hash tx i rs amt ty :=
    if (i <? length (input tx))%nat
    then Some (mix (5 :: tx_bytes tx ++ [Z.of_nat i; amt; ty] ++ rs)) else None;
  push_opcode op s := s ++ [op];
  Bitcoin.push_slice := push_slice;
  Bitcoin.push_int := push_int;
  push_key k s :=
    push_slice (if compressed k then inner k
                else 4 :: tail (inner k) ++ le_fixed 32 (mix (inner k))) s;
  instructions s := instructions_fuel (length s) s;
  classify_pushnum op := if (79 =? op) || ((81 <=? op) && (op <=? 96)) then Some (op - 80) else None;
  witness_program_new v h :=
    if (v =? 0) && negb ((length h =? 20)%nat || (length h =? 32)%nat) then None
    else Some {| wp_version := v; wp_program := h |};
  new_witness_program w :=
    (if wp_version w =? 0 then 0 else 80 + wp_version w) :: zlen (wp_program w) :: wp_program w;
  fee_rate_from_sat_per_vb r := checked_mul 64 r 250;
  fee_vb fr v := if fr * (4 * v) + 999 <? 2 ^ 64 then Some ((fr * (4 * v) + 999) / 1000) else None;
|}.

Lemma instructions_fuel_enough f s :
  (length s <= f)%nat -> instructions_fuel f s = instructions_fuel (length s) s.
Proof.
  remember (length s) as n eqn:Hn. revert f s Hn.
  induction n as [n IH] using lt_wf_ind. intros f s -> Hf.
  destruct s as [|b rest]; [by destruct f|]. destruct f as [|f]; simpl in Hf; [lia|].
  assert (forall r, (length r <= length rest)%nat ->
            instructions_fuel f r = instructions_fuel (length rest) r) as Heq.
  { intros r Hr. transitivity (instructions_fuel (length r) r).
    - apply (IH (length r)); simpl; lia.
    - symmetry. apply (IH (length r)); simpl; lia. }
  cbn [instructions_fuel length].
  repeat case_match; try done; f_equal; apply Heq; rewrite ?length_drop; lia.
Qed.

Lemma tx_bytes_strip tx : tx_bytes (strip_witness tx) = tx_bytes tx.
Proof.
  unfold tx_bytes, strip_witness, zlen. cbn [input output version lock_time].
  rewrite length_map. do 4 f_equal.
  induction (input tx) as [|i l IH]; [done|]. cbn [map flat_map]. by rewrite IH.
Qed.

Lemma point_valid z : valid_point (2 :: le_fixed 32 z) = true.
Proof. cbn [valid_point]. by rewrite le_fixed_length, le_fixed_bytes. Qed.

Lemma le_value_fixed n z : le_value (le_fixed n z) = z mod 256 ^ Z.of_nat n.
Proof.
  revert z. induction n as [|n IH]; intros z; cbn [le_fixed le_value].
  { symmetry. apply Z.mod_1_r. }
  rewrite IH, Nat2Z.inj_succ, Z.pow_succ_r by lia.
  rewrite Z.rem_mul_r; [done|lia|apply Z.pow_pos_nonneg; lia].
Qed.

Lemma le_fixed_inj n a b :
  a mod 256 ^ Z.of_nat n = b mod 256 ^ Z.of_nat n -> le_fixed n a = le_fixed n b.
Proof.
  revert a b. induction n as [|n IH]; intros a b Hab; cbn [le_fixed]; [done|].
  rewrite Nat2Z.inj_succ, Z.pow_succ_r in Hab by lia.
  assert (0 < 256 ^ Z.of_nat n) by (apply Z.pow_pos_nonneg; lia).
  rewrite !Z.rem_mul_r in Hab by lia.
  pose proof (Z.mod_pos_bound a 256 eq_refl). pose proof (Z.mod_pos_bound b 256 eq_refl).
  f_equal; [|apply IH]; lia.
Qed.

Lemma combine_points a b :
  point_combine (point_from_secret_key a) (point_from_secret_key b) =
    Some (point_from_secret_key ((a + b) mod 2 ^ 256)).
Proof.
  unfold point_combine, point_from_secret_key. rewrite !point_valid. cbn [andb tail].
  rewrite !le_value_fixed. change (256 ^ Z.of_nat 32) with (2 ^ 256).
  do 2 f_equal. apply le_fixed_inj. change (256 ^ Z.of_nat 32) with (2 ^ 256).
  by rewrite <- Z.add_mod, Z.mod_mod by lia.
Qed.

Lemma valid_point_inv p : valid_point p = true -> length p = 33%nat.
Proof.
  destruct p as [|h t]; simpl; [done|]. intros Hv. to_prop. lia.
Qed.

#[export] Instance laws : BitcoinLaws lib.
Proof.
  constructor;
    cbv delta [Bitcoin.valid_point Bitcoin.pubkey_from_slice Bitcoin.point_combine
      Bitcoin.point_from_secret_key secret_add_tweak ecdsa_verify ecdsa_sign hash160 sha256 wscript_hash
      p2wsh_signature_hash push_opcode Bitcoin.push_slice Bitcoin.push_int push_key instructions classify_pushnum
      witness_program_new new_witness_program fee_rate_from_sat_per_vb fee_vb lib];
    cbv beta iota.
  - apply valid_point_inv.
  - intros p Hp. unfold pubkey_from_slice. by rewrite Hp.
  - unfold pubkey_from_slice. intros bs k _. case_match; naive_solver.
  - intros k. apply point_valid.
  - unfold point_combine. intros p q r. case_match; [|done].
    intros Hr. apply (inj Some) in Hr. subst r. apply point_valid.
  - intros k t k' Hk. apply (inj Some) in Hk. subst k'. apply combine_points.
  - intros d k. by apply bool_decide_eq_true.
  - intros. apply le_fixed_length.
  - intros. apply le_fixed_length.
  - intros. apply le_fixed_length.
  - intros tx i rs amt ty. rewrite tx_bytes_strip. unfold strip_witness. cbn [input].
    by rewrite length_map.
  - intros tx i rs amt ty Hi. destruct (Nat.ltb_spec i (length (input tx))); [done|lia].
  - reflexivity.
  - done.
  - unfold push_slice. intros d s Hd. by destruct (Nat.leb_spec (length d) 75); [|lia].
  - done.
  - unfold push_int. intros n s Hn.
    destruct (Z.eqb_spec n 0), (Z.leb_spec 1 n), (Z.leb_spec n 16); try lia.
    by rewrite orb_true_r.
  - unfold push_int. intros n s Hn.
    by destruct (Z.eqb_spec n 0), (Z.eqb_spec n (-1)), (Z.leb_spec 1 n), (Z.leb_spec n 16); try lia.
  - intros k s ->. done.
  - intros k s ->. done.
  - intros [|h t] Hp; [done|]. apply valid_point_inv in Hp. cbn in Hp.
    unfold serialize_uncompressed. cbn [length tail]. rewrite length_app, le_fixed_length. lia.
  - done.
  - unfold is_plain_opcode. intros op s Hop. cbn [instructions_fuel length].
    by destruct (Z.leb_spec op 75), (Z.eqb_spec op 76), (Z.eqb_spec op 77), (Z.eqb_spec op 78); try lia.
  - intros d s Hd. cbn [instructions_fuel length]. unfold zlen.
    destruct (Z.leb_spec (Z.of_nat (length d)) 75); [|lia]. cbv zeta.
    rewrite Nat2Z.id, length_app.
    destruct (Nat.ltb_spec (length d + length s) (length d)); [lia|].
    rewrite take_app_length, drop_app_length. f_equal. apply instructions_fuel_enough. lia.
  - intros n Hn. destruct (Z.leb_spec 81 (80 + n)), (Z.leb_spec (80 + n) 96); try lia.
    rewrite orb_true_r. f_equal. lia.
  - intros op n. destruct (_ || _) eqn:E; [|done]. intros [= <-] Hn.
    destruct (Z.eqb_spec 79 op), (Z.leb_spec 81 op), (Z.leb_spec op 96); try lia; done.
  - intros h ->. done.
  - intros h Hh. cbn [wp_version wp_program]. unfold zlen. by rewrite Hh.
  - intros r v Hr Hv. exists (r * 250). unfold checked_mul. split.
    + case_match; [done|]. to_prop. nia.
    + replace (r * 250 * (4 * v) + 999) with (999 + (r * v) * 1000) by ring.
      rewrite Z.div_add by lia. change (999 / 1000) with 0.
      case_match; [by f_equal|]. to_prop. nia.
Qed.

(** Keys for concrete evaluations. *)
Definition key (n : Z) : PublicKey :=
  {| compressed := true; inner := point_from_secret_key n |}.
End Reference.
