(* ===== verification/Messages.v ===== *)
(** The protocol messages of src/protocol/common_messages.rs,
    legacy_messages.rs and taproot_messages.rs, the fidelity bond they carry,
    and the protocol errors of src/protocol/error.rs.

    Records keep the struct's fields in order, each field prefixed with the
    initials of its struct; enums keep the source's constructors.  An error
    message built by [format!] is the template text: the interpolated values
    are not carried. *)
From S2P Require Import Prelude Float64 Bitcoin.

Abbreviation XOnlyPublicKey := (list Z).
Abbreviation Preimage := (list Z).
Abbreviation Hash160 := (list Z).

(** ** Errors of src/protocol/error.rs *)
Inductive ProtocolError :=
| PE_Secp
| PE_Script
| PE_Hash
| PE_Key
| PE_Sighash
| PE_WrongMessage (expected received : string)
| PE_WrongNumOfSigs (expected received : Z)
| PE_WrongNumOfContractTxs (expected received : Z)
| PE_WrongNumOfPrivkeys (expected received : Z)
| PE_IncorrectFundingAmount (expected found : Amount)
| PE_ScriptPubkey
| PE_ScalarOutOfRange
| PE_General (msg : string)
| PE_TaprootSecp
| PE_TaprootScript
| PE_TaprootBuilder
| PE_MusigTweak
| PE_TaprootSigSlice
| PE_TaprootSighash.

(** ** Fidelity bonds *)
Record FidelityBond := {
  fb_outpoint : OutPoint;
  fb_amount : Amount;
  fb_lock_time : Z;
  fb_pubkey : PublicKey;
  fb_conf_height : option Z;
  fb_is_spent : bool;
  fb_bond_index : Z;
  fb_tx : option Transaction;
}.

Record FidelityProof := {
  fp_bond : FidelityBond;
  fp_cert_hash : Z;
  fp_cert_sig : bytes;
}.

(** ** Common messages *)
Definition OPENSWAP_PORT : Z := 21.

Inductive ProtocolVersion := Legacy | Taproot.
#[global] Instance ProtocolVersion_eq_dec : EqDecision ProtocolVersion.
Proof. solve_decision. Defined.

Record MakerHello := { mh_supported_protocols : list ProtocolVersion }.

Record Offer := {
  of_base_fee : Z;
  of_amount_relative_fee_pct : f64;
  of_time_relative_fee_pct : f64;
  of_required_confirms : Z;
  of_minimum_locktime : Z;
  of_max_size : Z;
  of_min_size : Z;
  of_tweakable_point : PublicKey;
  of_fidelity : FidelityProof;
  of_tweak_chain_code : bytes;
}.

Record SwapDetails := {
  sd_id : string;
  sd_protocol_version : ProtocolVersion;
  sd_amount : Amount;
  sd_tx_count : Z;
  sd_timelock : Z;
  sd_refund_locktime_offset : Z;
}.

Record AckSwapDetails := { ack_tweakable_point : option PublicKey }.
Definition AckSwapDetails_accept (p : PublicKey) : AckSwapDetails := {| ack_tweakable_point := Some p |}.
Definition AckSwapDetails_reject : AckSwapDetails := {| ack_tweakable_point := None |}.

Record SwapPrivkey := { sp_identifier : Script; sp_key : SecretKey }.
Record PrivateKeyHandover := { pkh_id : string; pkh_privkeys : list SwapPrivkey }.

(** ** Legacy messages *)
Record ContractTxInfoForSender := {
  cts_multisig_nonce : SecretKey;
  cts_hashlock_nonce : SecretKey;
  cts_timelock_pubkey : PublicKey;
  cts_senders_contract_tx : Transaction;
  cts_multisig_redeemscript : Script;
  cts_funding_input_value : Amount;
}.

Record ReqContractSigsForSender := {
  rss_id : string;
  rss_txs_info : list ContractTxInfoForSender;
  rss_hashvalue : Hash160;
  rss_locktime : Z;
}.

Record RespContractSigsForSender := { psr_id : string; psr_sigs : list Signature }.

Record FundingTxInfo := {
  fti_funding_tx : Transaction;
  fti_multisig_redeemscript : Script;
  fti_multisig_nonce : SecretKey;
  fti_contract_redeemscript : Script;
  fti_hashlock_nonce : SecretKey;
}.

Record NextHopInfo := {
  nhi_next_multisig_pubkey : PublicKey;
  nhi_next_hashlock_pubkey : PublicKey;
  nhi_next_multisig_nonce : SecretKey;
  nhi_next_hashlock_nonce : SecretKey;
}.

Record ProofOfFunding := {
  pof_id : string;
  pof_confirmed_funding_txes : list FundingTxInfo;
  pof_next_openswap_info : list NextHopInfo;
  pof_refund_locktime : Z;
  pof_contract_feerate : f64;
}.

Record SenderContractTxInfo := {
  sct_funding_tx : Transaction;
  sct_contract_tx : Transaction;
  sct_timelock_pubkey : PublicKey;
  sct_multisig_redeemscript : Script;
  sct_contract_redeemscript : Script;
  sct_funding_amount : Amount;
  sct_multisig_nonce : SecretKey;
  sct_hashlock_nonce : SecretKey;
}.

Record ReqContractSigsAsRecvrAndSender := {
  rrs_receivers_contract_txs : list Transaction;
  rrs_senders_contract_txs_info : list SenderContractTxInfo;
}.

Record RespContractSigsForRecvrAndSender := {
  prs_id : string;
  prs_receivers_sigs : list Signature;
  prs_senders_sigs : list Signature;
}.

Record ContractTxInfoForRecvr := {
  ctr_multisig_redeemscript : Script;
  ctr_contract_tx : Transaction;
}.

Record ReqContractSigsForRecvr := { rsr_id : string; rsr_txs : list ContractTxInfoForRecvr }.
Record RespContractSigsForRecvr := { prr_id : string; prr_sigs : list Signature }.

Inductive LegacyTakerMessage :=
| LTM_ReqContractSigsForSender (req : ReqContractSigsForSender)
| LTM_ProofOfFunding (pof : ProofOfFunding)
| LTM_RespContractSigsForRecvrAndSender (resp : RespContractSigsForRecvrAndSender)
| LTM_ReqContractSigsForRecvr (req : ReqContractSigsForRecvr)
| LTM_PrivateKeyHandover (handover : PrivateKeyHandover).

(** ** Taproot messages *)
Record TaprootContractData := {
  tcd_id : string;
  tcd_pubkeys : list PublicKey;
  tcd_next_hop_point : PublicKey;
  tcd_internal_keys : list XOnlyPublicKey;
  tcd_tap_tweaks : list bytes;
  tcd_hashlock_script : Script;
  tcd_timelock_scripts : list Script;
  tcd_contract_txs : list Transaction;
  tcd_amounts : list Amount;
  tcd_hashlock_nonce : option SecretKey;
  tcd_next_hashlock_nonce : option SecretKey;
}.

Inductive TaprootTakerMessage :=
| TTM_ContractData (data : TaprootContractData)
| TTM_PrivateKeyHandover (handover : PrivateKeyHandover).

(** ** Top-level message enums *)
Inductive TakerToMakerMessage :=
| TM_TakerHello
| TM_GetOffer
| TM_SwapDetails (d : SwapDetails)
| TM_ReqContractSigsForSender (r : ReqContractSigsForSender)
| TM_ProofOfFunding (p : ProofOfFunding)
| TM_RespContractSigsForRecvrAndSender (r : RespContractSigsForRecvrAndSender)
| TM_ReqContractSigsForRecvr (r : ReqContractSigsForRecvr)
| TM_LegacyPrivateKeyHandover (h : PrivateKeyHandover)
| TM_TaprootContractData (d : TaprootContractData)
| TM_TaprootPrivateKeyHandover (h : PrivateKeyHandover)
| TM_WaitingFundingConfirmation (id : string).

Inductive MakerToTakerMessage :=
| MT_MakerHello (h : MakerHello)
| MT_Offer (o : Offer)
| MT_AckSwapDetails (a : AckSwapDetails)
| MT_RespContractSigsForSender (r : RespContractSigsForSender)
| MT_ReqContractSigsAsRecvrAndSender (r : ReqContractSigsAsRecvrAndSender)
| MT_RespContractSigsForRecvr (r : RespContractSigsForRecvr)
| MT_LegacyPrivateKeyHandover (h : PrivateKeyHandover)
| MT_TaprootContractData (d : TaprootContractData)
| MT_TaprootPrivateKeyHandover (h : PrivateKeyHandover).

(** [LegacyTakerMessage::swap_id] and [TaprootTakerMessage::swap_id]. *)
Definition legacy_swap_id (m : LegacyTakerMessage) : string :=
  match m with
  | LTM_ReqContractSigsForSender req => rss_id req
  | LTM_ProofOfFunding pof => pof_id pof
  | LTM_RespContractSigsForRecvrAndSender resp => prs_id resp
  | LTM_ReqContractSigsForRecvr req => rsr_id req
  | LTM_PrivateKeyHandover handover => pkh_id handover
  end.

Definition taproot_swap_id (m : TaprootTakerMessage) : string :=
  match m with
  | TTM_ContractData data => tcd_id data
  | TTM_PrivateKeyHandover handover => pkh_id handover
  end.
