(* ===== verification/Contract.v ===== *)
(** The contract transaction of a legacy swap: src/protocol/contract.rs, with
    the fee helpers and [redeemscript_to_scriptpubkey] of src/utill.rs.

    A hop of a legacy swap is funded by a 2-of-2 multisig output; the contract
    transaction spends it to a hash-and-time-locked P2WSH output.  The module
    builds both scripts, reads their fields back, and checks what a peer sent. *)
From S2P Require Import Prelude Float64 Bitcoin Messages.
#[local] Open Scope string_scope.
#[local] Open Scope list_scope.
#[local] Open Scope Z_scope.

Definition MIN_HASHV_LEN : Z := 25.
Definition PUBKEY_LENGTH : nat := 33.
Definition PUBKEY1_OFFSET : nat := 2.
Definition PUBKEY2_OFFSET : nat := PUBKEY1_OFFSET + PUBKEY_LENGTH + 1.
Definition CONTRACT_TX_VSIZE : Z := 150.
Definition MIN_FEE_RATE : Z := 2.
Definition SEQUENCE_ZERO : Z := 0.
Definition PUB_PLACEHOLDER : bytes := replicate 33 2.

(** [Vec::splice(lo..hi, r)] of a vector at least [hi] long. *)
Definition splice {A} (lo hi : nat) (r l : list A) : list A := take lo l ++ r ++ drop hi l.

Definition calculate_swap_fee (swap_amount refund_locktime base_fee : Z)
    (amt_rel_fee_pct time_rel_fee_pct : f64) : Z :=
  let total_fee :=
    f64_add
      (f64_add (f64_of_Z base_fee)
         (f64_div (f64_mul (f64_of_Z swap_amount) amt_rel_fee_pct) (f64_of_Z 100)))
      (f64_div
         (f64_mul (f64_mul (f64_of_Z swap_amount) (f64_of_Z refund_locktime)) time_rel_fee_pct)
         (f64_of_Z 100)) in
  f64_to_u64 (f64_ceil total_fee).

(** [Signature::to_vec]: the DER bytes followed by the sighash type. *)
Definition sig_to_vec (s : Signature) : bytes := sig_bytes s ++ [sighash_type s].

Definition apply_two_signatures_to_2of2_multisig_spend (key1 key2 : PublicKey)
    (sig1 sig2 : Signature) (inp : TxIn) (redeemscript : Script) : TxIn :=
  let '(sig_first, sig_second) :=
    if bytes_lt (inner key1) (inner key2) then (sig1, sig2) else (sig2, sig1) in
  {| previous_output := previous_output inp;
     script_sig := script_sig inp;
     sequence := sequence inp;
     witness := witness inp ++ [[]; sig_to_vec sig_first; sig_to_vec sig_second; redeemscript] |}.

Definition sum_claimed_amounts (amounts : list Amount) : outcome Amount Amount :=
  try_fold (fun total amount =>
    if MAX_MONEY <? amount then Err amount
    else
      match checked_add 64 total amount with
      | Some t => if t <=? MAX_MONEY then Ok t else Err amount
      | None => Err amount
      end) 0 amounts.

Section contract.
Context {lib : BitcoinLib}.

(** *** src/utill.rs *)
Definition get_min_fee_rate : option Z := fee_rate_from_sat_per_vb MIN_FEE_RATE.

Definition calculate_fee_sats {E} (vbytes : Z) : outcome E Z :=
  fee_rate ← expect get_min_fee_rate;
  expect (fee_vb fee_rate vbytes).

Definition estimate_funding_tx_fee_sats {E} : outcome E Z :=
  calculate_fee_sats ((11 + 68 + 31 + 43) + (11 + 68 + 43)).

Definition redeemscript_to_scriptpubkey (redeemscript : Script) : outcome ProtocolError Script :=
  wp ← ok_or (witness_program_new 0 (wscript_hash redeemscript)) PE_ScriptPubkey;
  Ok (new_witness_program wp).

(** *** Scripts *)
Definition create_multisig_redeemscript (key1 key2 : PublicKey) : Script :=
  let b := push_opcode OP_PUSHNUM_2 [] in
  let b :=
    if bytes_lt (inner key1) (inner key2)
    then push_key key2 (push_key key1 b)
    else push_key key1 (push_key key2 b) in
  push_opcode OP_CHECKMULTISIG (push_opcode OP_PUSHNUM_2 b).

(** The lock of the hashlock branch is the 0 the code pushes; the source's comment and
    its stack table speak of 1 OP_CSV there. *)
Definition create_contract_redeemscript (pub_hashlock pub_timelock : PublicKey)
    (hashvalue : Hash160) (locktime : Z) : Script :=
  let b := push_opcode OP_SIZE [] in
  let b := push_opcode OP_SWAP b in
  let b := push_opcode OP_HASH160 b in
  let b := push_slice hashvalue b in
  let b := push_opcode OP_EQUAL b in
  let b := push_opcode OP_IF b in
  let b := push_key pub_hashlock b in
  let b := push_int 32 b in
  let b := push_int 0 b in
  let b := push_opcode OP_ELSE b in
  let b := push_key pub_timelock b in
  let b := push_int 0 b in
  let b := push_int locktime b in
  let b := push_opcode OP_ENDIF b in
  let b := push_opcode OP_CSV b in
  let b := push_opcode OP_DROP b in
  let b := push_opcode OP_ROT b in
  let b := push_opcode OP_EQUALVERIFY b in
  push_opcode OP_CHECKSIG b.

Definition read_hashvalue_from_contract (redeemscript : Script) : outcome ProtocolError Hash160 :=
  _ ← reject (zlen redeemscript <? MIN_HASHV_LEN) (PE_General "Contract redeemscript too short!");
  let instrs := drop 2 (instructions redeemscript) in
  i0 ← ok_or (instrs !! 0%nat) (PE_General "contract redeemscript too short");
  i0 ← ok_or i0 PE_Script;
  match i0 with
  | Op op =>
      if op =? OP_HASH160 then
        i1 ← ok_or (instrs !! 1%nat) (PE_General "contract redeemscript too short");
        i1 ← ok_or i1 PE_Script;
        match i1 with
        | PushBytes hash_b => if (length hash_b =? 20)%nat then Ok hash_b else Err PE_Hash
        | Op _ => Err (PE_General "Invalid script!")
        end
      else Err (PE_General "Hash is not present!")
  | PushBytes _ => Err (PE_General "Hash is not present!")
  end.

Definition LOCKTIME_UNREADABLE : ProtocolError :=
  PE_General "Can't read locktime value from contract redeemscript".

Definition read_contract_locktime (redeemscript : Script) : outcome ProtocolError Z :=
  i ← ok_or (instructions redeemscript !! 12%nat) (PE_General "contract redeemscript too short");
  i ← ok_or i PE_Script;
  match i with
  | PushBytes locktime_bytes =>
      match locktime_bytes with
      | [b] => Ok b
      | b0 :: b1 :: rest =>
          if (length rest <=? 1)%nat then
            if existsb (fun b => negb (b =? 0)) rest then Err LOCKTIME_UNREADABLE
            else Ok (b0 + 256 * b1)
          else Err LOCKTIME_UNREADABLE
      | [] => Err LOCKTIME_UNREADABLE
      end
  | Op opcode =>
      match classify_pushnum opcode with
      | Some n => if (0 <=? n) && (n <=? U16_MAX) then Ok n else Err LOCKTIME_UNREADABLE
      | None => Err LOCKTIME_UNREADABLE
      end
  end.

Definition read_hashlock_pubkey_from_contract (redeemscript : Script)
    : outcome ProtocolError PublicKey :=
  _ ← reject (zlen redeemscript <? 61) (PE_General "Contract redeemscript too short");
  s ← expect (slice 27 60 redeemscript);
  ok_or (pubkey_from_slice s) PE_Key.

Definition read_pubkeys_from_multisig_redeemscript (redeemscript : Script)
    : outcome ProtocolError (PublicKey * PublicKey) :=
  s1 ← expect (slice PUBKEY1_OFFSET (PUBKEY1_OFFSET + PUBKEY_LENGTH) redeemscript);
  pubkey1 ← ok_or (pubkey_from_slice s1) PE_Key;
  s2 ← expect (slice PUBKEY2_OFFSET (PUBKEY2_OFFSET + PUBKEY_LENGTH) redeemscript);
  pubkey2 ← ok_or (pubkey_from_slice s2) PE_Key;
  Ok (pubkey1, pubkey2).

(** *** Keys *)
Definition calculate_pubkey_from_nonce (tweakable_point : PublicKey) (nonce : SecretKey)
    : outcome ProtocolError PublicKey :=
  let nonce_point := point_from_secret_key nonce in
  p ← ok_or (point_combine (inner tweakable_point) nonce_point) PE_Secp;
  Ok {| compressed := true; inner := p |}.

(** *** Checks on a peer's scripts and transactions *)
Definition find_funding_output_index (info : FundingTxInfo) : outcome ProtocolError Z :=
  multisig_spk ← redeemscript_to_scriptpubkey (fti_multisig_redeemscript info);
  match list_find (fun o => script_pubkey o = multisig_spk) (output (fti_funding_tx info)) with
  | Some (index, _) => Ok (wrap 32 (Z.of_nat index))
  | None => Err (PE_General "Funding output doesn't match with multisig redeem script")
  end.

Definition check_reedemscript_is_multisig (redeemscript : Script) : outcome ProtocolError () :=
  pubkey_placeholder ← ok_or (pubkey_from_slice PUB_PLACEHOLDER) PE_Key;
  let template_ms_rs := create_multisig_redeemscript pubkey_placeholder pubkey_placeholder in
  if negb (length redeemscript =? length template_ms_rs)%nat
  then Err (PE_General "Wrong multisig_redeemscript length")
  else
    let ms_rs_bytes := splice 2 35 PUB_PLACEHOLDER redeemscript in
    let ms_rs_bytes := splice 36 69 PUB_PLACEHOLDER ms_rs_bytes in
    if bool_decide (ms_rs_bytes = template_ms_rs) then Ok ()
    else Err (PE_General "Redeemscript not matching multisig template").

Definition check_multisig_has_pubkey (redeemscript : Script) (tweakable_point : PublicKey)
    (nonce : SecretKey) : outcome ProtocolError () :=
  '(pubkey1, pubkey2) ← read_pubkeys_from_multisig_redeemscript redeemscript;
  my_pubkey ← calculate_pubkey_from_nonce tweakable_point nonce;
  if bool_decide (pubkey1 <> my_pubkey) && bool_decide (pubkey2 <> my_pubkey)
  then Err (PE_General "Wrong pubkeys in multisig_redeemscript") else Ok ().

Definition check_hashlock_has_pubkey (contract_redeemscript : Script)
    (tweakable_point : PublicKey) (nonce : SecretKey) : outcome ProtocolError () :=
  contract_hashlock_pubkey ← read_hashlock_pubkey_from_contract contract_redeemscript;
  derived_hashlock_pubkey ← calculate_pubkey_from_nonce tweakable_point nonce;
  if bool_decide (contract_hashlock_pubkey <> derived_hashlock_pubkey)
  then Err (PE_General "Contract hashlock pubkey doesn't match with key derived from nonce")
  else Ok ().

Definition check_hashvalues_are_equal (message : ProofOfFunding) : outcome ProtocolError Hash160 :=
  hashvalues ← try_map (fun info => read_hashvalue_from_contract (fti_contract_redeemscript info))
                 (pof_confirmed_funding_txes message);
  if forallb (fun v => bool_decide (hashvalues !! 0%nat = Some v)) hashvalues
  then expect (hashvalues !! 0%nat)
  else Err (PE_General "Contract redeemscript doesn't have equal hashvalues").

Definition create_senders_contract_tx (inp : OutPoint) (input_value : Amount)
    (contract_redeemscript : Script) : outcome ProtocolError Transaction :=
  fee_amount ← calculate_fee_sats CONTRACT_TX_VSIZE;
  spk ← redeemscript_to_scriptpubkey contract_redeemscript;
  v ← amount_sub input_value fee_amount;
  Ok {| version := 2; lock_time := 0;
        input := [{| previous_output := inp; script_sig := [];
                     sequence := SEQUENCE_ZERO; witness := [] |}];
        output := [{| value := v; script_pubkey := spk |}] |}.

Definition create_receivers_contract_tx := create_senders_contract_tx.

Definition is_contract_out_valid (contract_output : TxOut) (hashlock_pubkey timelock_pubkey : PublicKey)
    (hashvalue : Hash160) (locktime minimum_locktime : Z) : outcome ProtocolError () :=
  _ ← reject (locktime <? minimum_locktime) (PE_General "Locktime too short");
  let redeemscript_from_request :=
    create_contract_redeemscript hashlock_pubkey timelock_pubkey hashvalue locktime in
  contract_spk_from_request ← redeemscript_to_scriptpubkey redeemscript_from_request;
  reject (bool_decide (script_pubkey contract_output <> contract_spk_from_request))
    (PE_General "Given transaction does not pay to requested contract").

Definition validate_contract_tx (receivers_contract_tx : Transaction)
    (funding_outpoint : option OutPoint) (contract_redeemscript : Script)
    : outcome ProtocolError () :=
  match input receivers_contract_tx, output receivers_contract_tx with
  | [i], [o] =>
      _ ← match funding_outpoint with
          | Some op =>
              reject (bool_decide (previous_output i <> op))
                (PE_General "Not spending the funding outpoint")
          | None => Ok ()
          end;
      spk ← redeemscript_to_scriptpubkey contract_redeemscript;
      reject (bool_decide (script_pubkey o <> spk)) (PE_General "Doesn't pay to requested contract")
  | _, _ => Err (PE_General "Invalid number of inputs or outputs")
  end.

Definition sign_contract_tx (contract_tx : Transaction) (multisig_redeemscript : Script)
    (funding_amount : Amount) (privkey : SecretKey) : outcome ProtocolError Signature :=
  sighash ← ok_or (p2wsh_signature_hash contract_tx 0 multisig_redeemscript funding_amount SIGHASH_ALL)
              PE_Sighash;
  Ok {| sig_bytes := ecdsa_sign sighash privkey; sighash_type := SIGHASH_ALL |}.

Definition verify_contract_tx_sig (contract_tx : Transaction) (multisig_redeemscript : Script)
    (funding_amount : Amount) (pubkey : PublicKey) (sig : bytes) : outcome ProtocolError () :=
  sighash ← ok_or (p2wsh_signature_hash contract_tx 0 multisig_redeemscript funding_amount SIGHASH_ALL)
              PE_Sighash;
  if ecdsa_verify sighash sig (inner pubkey) then Ok () else Err PE_Secp.
End contract.

(** ** Script shapes *)

(** A public key as the protocol uses it: compressed, 33 bytes, on the curve. *)
Definition wf_pubkey `{BitcoinLib} (k : PublicKey) : Prop :=
  compressed k = true /\ valid_point (inner k) = true.

(** A key as a peer may send it, compressed or not, and its serialization. *)
Definition sent_pubkey `{BitcoinLib} (k : PublicKey) : Prop := valid_point (inner k) = true.
Definition key_bytes `{BitcoinLib} (k : PublicKey) : bytes :=
  if compressed k then inner k else serialize_uncompressed (inner k).

(** The bytes [push_int] emits for a [u16]. *)
Definition locktime_push (l : Z) : bytes :=
  if l =? 0 then [0]
  else if l <=? 16 then [80 + l]
  else zlen (script_int l) :: script_int l.

Section contract_lemmas.
Context {lib : BitcoinLib} {laws : BitcoinLaws lib}.

Lemma wf_pubkey_length k : wf_pubkey k -> length (inner k) = 33%nat.
Proof. intros [_ Hv]. by apply valid_point_length. Qed.

Lemma wf_pubkey_eta k : wf_pubkey k -> {| compressed := true; inner := inner k |} = k.
Proof. destruct k as [c p]. by intros [[= ->] _]. Qed.

Lemma push_key_wf k s : wf_pubkey k -> push_key k s = s ++ 33 :: inner k.
Proof.
  intros Hk. pose proof (wf_pubkey_length _ Hk) as Hl. destruct Hk as [Hc _].
  rewrite push_key_compressed, push_slice_spec by (done || lia).
  unfold zlen. by rewrite Hl.
Qed.

Lemma wf_sent k : wf_pubkey k -> sent_pubkey k.
Proof. by intros [_ ?]. Qed.

Lemma key_bytes_wf k : wf_pubkey k -> key_bytes k = inner k.
Proof. intros [Hc _]. unfold key_bytes. by rewrite Hc. Qed.

Lemma key_bytes_length k : sent_pubkey k -> (length (key_bytes k) <= 65)%nat.
Proof.
  unfold sent_pubkey, key_bytes. intros Hv. destruct (compressed k).
  - rewrite valid_point_length by done. lia.
  - by rewrite serialize_uncompressed_length.
Qed.

Lemma push_key_sent k s : sent_pubkey k -> push_key k s = s ++ zlen (key_bytes k) :: key_bytes k.
Proof.
  intros Hk. pose proof (key_bytes_length _ Hk) as Hl. rewrite <- push_slice_spec by lia.
  unfold key_bytes. destruct (compressed k) eqn:Hc;
    [by apply push_key_compressed|by apply push_key_uncompressed].
Qed.

Lemma script_int_length l : 17 <= l <= U16_MAX -> (length (script_int l) <= 3)%nat.
Proof.
  intros Hl. rewrite script_int_u16 by done. repeat case_match; simpl; lia.
Qed.

Lemma push_int_u16 l s : 0 <= l <= U16_MAX -> push_int l s = s ++ locktime_push l.
Proof.
  unfold U16_MAX, locktime_push. intros Hl.
  destruct (Z.eqb_spec l 0) as [->|]; [apply push_int_zero|].
  destruct (Z.leb_spec l 16); [apply push_int_small; lia|].
  rewrite push_int_large by lia. apply push_slice_spec.
  pose proof (script_int_length l). unfold U16_MAX in *. lia.
Qed.

Lemma multisig_shape k1 k2 :
  wf_pubkey k1 -> wf_pubkey k2 ->
  create_multisig_redeemscript k1 k2 =
    let '(a, b) := if bytes_lt (inner k1) (inner k2) then (k1, k2) else (k2, k1) in
    82 :: 33 :: inner a ++ 33 :: inner b ++ [82; 174].
Proof.
  intros H1 H2. unfold create_multisig_redeemscript.
  rewrite !push_opcode_spec.
  destruct (bytes_lt _ _); rewrite !push_key_wf, <- !app_assoc by done; done.
Qed.

Lemma multisig_length k1 k2 :
  wf_pubkey k1 -> wf_pubkey k2 -> length (create_multisig_redeemscript k1 k2) = 71%nat.
Proof.
  intros H1 H2. rewrite multisig_shape by done.
  apply wf_pubkey_length in H1, H2.
  destruct (bytes_lt _ _); cbn [length]; rewrite length_app; cbn [length];
    rewrite length_app; cbn [length]; lia.
Qed.

Lemma contract_shape ph pt h l :
  wf_pubkey ph -> sent_pubkey pt -> length h = 20%nat -> is_u16 l ->
  create_contract_redeemscript ph pt h l =
    130 :: 124 :: 169 :: 20 :: h ++
    135 :: 99 :: 33 :: inner ph ++
    1 :: [32] ++
    0 :: [] ++
    103 :: zlen (key_bytes pt) :: key_bytes pt ++
    0 :: [] ++
    locktime_push l ++ [104; 178; 117; 123; 136; 172].
Proof.
  intros Hph Hpt Hh Hl. unfold create_contract_redeemscript. cbv zeta.
  assert (0 <= l <= U16_MAX) by (unfold in_width, U16_MAX in *; lia).
  rewrite !push_opcode_spec, !(push_int_u16 _ _) by (done || (unfold U16_MAX; lia)).
  rewrite push_key_sent, push_key_wf by done. rewrite push_slice_spec by lia.
  unfold zlen. rewrite Hh. rewrite <- !app_assoc. done.
Qed.
End contract_lemmas.

(** ** Properties *)
Section contract_properties.
Context {lib : BitcoinLib} {laws : BitcoinLaws lib}.

Lemma plain_opcode op : (79 <=? op) && (op <=? 255) = true -> is_plain_opcode op.
Proof. unfold is_plain_opcode. intros H. to_prop. lia. Qed.

(** The instruction stream of a contract script, up to its locktime. *)
Lemma contract_instructions ph pt h l :
  wf_pubkey ph -> sent_pubkey pt -> length h = 20%nat -> is_u16 l ->
  instructions (create_contract_redeemscript ph pt h l) =
    map Some [Op 130; Op 124; Op 169; PushBytes h; Op 135; Op 99;
              PushBytes (inner ph); PushBytes [32]; PushBytes []; Op 103;
              PushBytes (key_bytes pt); PushBytes []] ++
    instructions (locktime_push l ++ [104; 178; 117; 123; 136; 172]).
Proof.
  intros Hph Hpt Hh Hl. rewrite contract_shape by done.
  assert (33 = zlen (inner ph)) as H33 by (unfold zlen; by rewrite wf_pubkey_length).
  pose proof (wf_pubkey_length _ Hph). pose proof (key_bytes_length _ Hpt).
  do 3 rewrite instructions_opcode by (apply plain_opcode; reflexivity).
  rewrite (instructions_push_small 20 h) by (unfold zlen; lia).
  do 2 rewrite instructions_opcode by (apply plain_opcode; reflexivity).
  rewrite (instructions_push_small 33 (inner ph)) by (done || lia).
  rewrite (instructions_push_small 1 [32]) by (reflexivity || (simpl; lia)).
  rewrite (instructions_push_small 0 []) by (reflexivity || (simpl; lia)).
  rewrite instructions_opcode by (apply plain_opcode; reflexivity).
  rewrite (instructions_push_small (zlen (key_bytes pt)) (key_bytes pt)) by (done || lia).
  rewrite (instructions_push_small 0 []) by (reflexivity || (simpl; lia)).
  done.
Qed.

Lemma read_contract_locktime_shape ph pt h l :
  wf_pubkey ph -> sent_pubkey pt -> length h = 20%nat -> is_u16 l ->
  read_contract_locktime (create_contract_redeemscript ph pt h l) =
    if l =? 0 then Err LOCKTIME_UNREADABLE else Ok l.
Proof.
  intros Hph Hpt Hh Hl. unfold read_contract_locktime.
  rewrite contract_instructions by done.
  rewrite lookup_app_r by (simpl; lia). cbn [length map Nat.sub].
  unfold locktime_push. unfold in_width in Hl. change (2 ^ 16) with 65536 in Hl.
  destruct (Z.eqb_spec l 0) as [->|].
  { change ([0] ++ [104; 178; 117; 123; 136; 172]) with (0 :: [] ++ [104; 178; 117; 123; 136; 172]).
    rewrite (instructions_push_small 0 []) by (reflexivity || (simpl; lia)). reflexivity. }
  destruct (Z.leb_spec l 16).
  { cbn [app]. rewrite instructions_opcode by (unfold is_plain_opcode; lia). cbn.
    rewrite classify_pushnum_small by lia. unfold U16_MAX.
    destruct (Z.leb_spec 0 l), (Z.leb_spec l 65535); try lia. done. }
  rewrite <- app_comm_cons.
  assert (17 <= l <= U16_MAX) as Hl17 by (unfold U16_MAX; lia).
  pose proof (script_int_length l Hl17).
  rewrite instructions_push_small by (done || lia). cbn [lookup list_lookup ok_or mbind outcome_bind].
  rewrite script_int_u16 by done.
  pose proof (Z.div_mod l 256 ltac:(lia)) as Hdm.
  destruct (Z.ltb_spec l 128); [done|].
  destruct (Z.ltb_spec l 32768); cbn; f_equal; lia.
Qed.

Lemma contract_redeemscript_reads (ph pt : PublicKey) (h : Hash160) (l : Z)
    (Hph : wf_pubkey ph) (Hpt : sent_pubkey pt) (Hh : length h = 20%nat) (Hl : is_u16 l) :
  read_hashvalue_from_contract (create_contract_redeemscript ph pt h l) = Ok h /\
  read_hashlock_pubkey_from_contract (create_contract_redeemscript ph pt h l) = Ok ph /\
  read_contract_locktime (create_contract_redeemscript ph pt h l) =
    (if l =? 0 then Err LOCKTIME_UNREADABLE else Ok l).
Proof.
  assert (61 <= zlen (create_contract_redeemscript ph pt h l)) as Hlen.
  { rewrite contract_shape by done. rewrite !zlen_cons, zlen_app, !zlen_cons, zlen_app, !zlen_cons.
    pose proof (zlen_nonneg (key_bytes pt ++ 0 :: locktime_push l ++ [104; 178; 117; 123; 136; 172])) as Hnn.
    cbn [app]. rewrite !zlen_cons. unfold zlen in *.
    rewrite wf_pubkey_length by done. lia. }
  split; [|split].
  - unfold read_hashvalue_from_contract, MIN_HASHV_LEN.
    destruct (Z.ltb_spec (zlen (create_contract_redeemscript ph pt h l)) 25); [lia|].
    rewrite contract_instructions by done. cbn. by rewrite Hh.
  - unfold read_hashlock_pubkey_from_contract.
    destruct (Z.ltb_spec (zlen (create_contract_redeemscript ph pt h l)) 61); [lia|].
    cbn [reject mbind outcome_bind]. rewrite contract_shape by done.
    set (post := 1 :: [32] ++ _).
    replace (130 :: 124 :: 169 :: 20 :: h ++ 135 :: 99 :: 33 :: inner ph ++ post)
      with (([130; 124; 169; 20] ++ h ++ [135; 99; 33]) ++ inner ph ++ post)
      by (rewrite <- !app_assoc; done).
    rewrite slice_middle by (rewrite ?length_app, ?wf_pubkey_length by done; simpl; lia).
    cbn. rewrite pubkey_from_slice_compressed by apply Hph. cbn. by rewrite wf_pubkey_eta.
  - by apply read_contract_locktime_shape.
Qed.

(** the reader functions recover every field the contract redeemscript
    was built from: the hash value, the hashlock key and any locktime in
    1..65535, whichever serialization the timelock key uses; the one locktime the reader rejects is 0. *)
Lemma contract_redeemscript_roundtrip (ph pt : PublicKey) (h : Hash160) (l : Z)
    (Hph : wf_pubkey ph) (Hpt : sent_pubkey pt) (Hh : length h = 20%nat) (Hl : is_u16 l) :
  read_hashvalue_from_contract (create_contract_redeemscript ph pt h l) = Ok h /\
  read_hashlock_pubkey_from_contract (create_contract_redeemscript ph pt h l) = Ok ph /\
  read_contract_locktime (create_contract_redeemscript ph pt h l) =
    (if l =? 0 then Err LOCKTIME_UNREADABLE else Ok l).
Proof. exact (contract_redeemscript_reads ph pt h l Hph Hpt Hh Hl). Qed.

(** The multisig script's keys in script order. *)
Definition multisig_order (k1 k2 : PublicKey) : PublicKey * PublicKey :=
  if bytes_lt (inner k1) (inner k2) then (k1, k2) else (k2, k1).

Lemma multisig_shape_order k1 k2 :
  wf_pubkey k1 -> wf_pubkey k2 ->
  create_multisig_redeemscript k1 k2 =
    82 :: 33 :: inner (multisig_order k1 k2).1 ++ 33 :: inner (multisig_order k1 k2).2 ++ [82; 174].
Proof.
  intros H1 H2. rewrite multisig_shape by done. unfold multisig_order. by destruct (bytes_lt _ _).
Qed.

Lemma multisig_order_wf k1 k2 :
  wf_pubkey k1 -> wf_pubkey k2 ->
  wf_pubkey (multisig_order k1 k2).1 /\ wf_pubkey (multisig_order k1 k2).2.
Proof. unfold multisig_order. by destruct (bytes_lt _ _). Qed.

Lemma multisig_order_comm k1 k2 :
  wf_pubkey k1 -> wf_pubkey k2 -> multisig_order k1 k2 = multisig_order k2 k1.
Proof.
  intros H1 H2. unfold multisig_order.
  destruct (bytes_lt (inner k1) (inner k2)) eqn:Hlt.
  - by rewrite bytes_lt_asym.
  - destruct (decide (inner k1 = inner k2)) as [Heq|Hne].
    + rewrite Heq, bytes_lt_irrefl. rewrite <- (wf_pubkey_eta k1), <- (wf_pubkey_eta k2) by done.
      by rewrite Heq.
    + rewrite bytes_lt_total; [done| |done|done]. by rewrite !wf_pubkey_length.
Qed.

Lemma placeholder_wf : wf_pubkey {| compressed := true; inner := PUB_PLACEHOLDER |}.
Proof. split; [done|]. apply placeholder_valid. Qed.

(** The scripts the template check accepts are exactly the 71-byte 2-of-2
    multisig scripts, whatever 33 bytes stand where the keys are. *)
Lemma check_is_multisig_iff rs :
  check_reedemscript_is_multisig rs = Ok () <->
  exists p1 p2, length p1 = 33%nat /\ length p2 = 33%nat /\
    rs = 82 :: 33 :: p1 ++ 33 :: p2 ++ [82; 174].
Proof.
  unfold check_reedemscript_is_multisig.
  rewrite pubkey_from_slice_compressed by apply placeholder_valid. cbn [ok_or mbind outcome_bind].
  pose proof (multisig_length _ _ placeholder_wf placeholder_wf) as HT.
  rewrite (multisig_shape_order _ _ placeholder_wf placeholder_wf) in *.
  unfold multisig_order in *. rewrite bytes_lt_irrefl in *. cbn [fst snd inner] in *. rewrite HT.
  destruct (Nat.eqb_spec (length rs) 71) as [Hlen|Hlen]; cbn [negb].
  - case_bool_decide as Heq; (split; [|intros (p1 & p2 & H1 & H2 & Hrs)]); try done.
    + intros _. exists (take 33 (drop 2 rs)), (take 33 (drop 36 rs)). revert Heq.
      do 71 (destruct rs as [|? rs]; [simpl in Hlen; lia|]).
      destruct rs; [|simpl in Hlen; lia]. unfold splice, PUB_PLACEHOLDER. cbn. intros Heq.
      by simplify_eq.
    + exfalso. apply Heq. subst rs. unfold splice.
      do 33 (destruct p1 as [|? p1]; [simpl in H1; lia|]). destruct p1; [|simpl in H1; lia].
      do 33 (destruct p2 as [|? p2]; [simpl in H2; lia|]). destruct p2; [|simpl in H2; lia].
      reflexivity.
  - split; [done|]. intros (p1 & p2 & H1 & H2 & ->). exfalso. apply Hlen.
    cbn [length]. rewrite length_app. cbn [length]. rewrite length_app. cbn [length]. lia.
Qed.

Lemma read_pubkeys_shape p1 p2 :
  length p1 = 33%nat -> length p2 = 33%nat ->
  read_pubkeys_from_multisig_redeemscript (82 :: 33 :: p1 ++ 33 :: p2 ++ [82; 174]) =
    match pubkey_from_slice p1, pubkey_from_slice p2 with
    | Some k1, Some k2 => Ok (k1, k2)
    | _, _ => Err PE_Key
    end.
Proof.
  intros H1 H2. unfold read_pubkeys_from_multisig_redeemscript.
  unfold PUBKEY2_OFFSET, PUBKEY1_OFFSET, PUBKEY_LENGTH. cbn [Nat.add].
  assert (slice 2 35 (82 :: 33 :: p1 ++ 33 :: p2 ++ [82; 174]) = Some p1) as ->.
  { apply (slice_middle [82; 33] p1); simpl; lia. }
  assert (slice 36 69 (82 :: 33 :: p1 ++ 33 :: p2 ++ [82; 174]) = Some p2) as ->.
  { replace (82 :: 33 :: p1 ++ 33 :: p2 ++ [82; 174])
      with ((82 :: 33 :: p1 ++ [33]) ++ p2 ++ [82; 174]) by (cbn [app]; by rewrite <- app_assoc).
    apply slice_middle; cbn [length]; rewrite length_app; simpl; lia. }
  cbn. destruct (pubkey_from_slice p1); [|done]. cbn. by destruct (pubkey_from_slice p2).
Qed.

(** A 2-of-2 script built from two keys passes the template check, its
    reader returns the two keys in script order, and the order of the
    arguments does not matter. *)
Lemma multisig_redeemscript_roundtrip (k1 k2 : PublicKey)
    (H1 : wf_pubkey k1) (H2 : wf_pubkey k2) :
  check_reedemscript_is_multisig (create_multisig_redeemscript k1 k2) = Ok () /\
  read_pubkeys_from_multisig_redeemscript (create_multisig_redeemscript k1 k2) =
    Ok (multisig_order k1 k2) /\
  create_multisig_redeemscript k1 k2 = create_multisig_redeemscript k2 k1.
Proof.
  destruct (multisig_order_wf k1 k2 H1 H2) as [Ha Hb].
  rewrite (multisig_shape_order k2 k1), <- (multisig_order_comm k1 k2) by done.
  rewrite multisig_shape_order by done. split; [|split].
  - apply check_is_multisig_iff. do 2 eexists. split; [|split; [|reflexivity]]; by apply wf_pubkey_length.
  - rewrite read_pubkeys_shape by (by apply wf_pubkey_length).
    rewrite !pubkey_from_slice_compressed by (apply Ha || apply Hb).
    rewrite !wf_pubkey_eta by done. by destruct (multisig_order k1 k2).
  - done.
Qed.

(** A script that passes the template check can be read without a
    panic, and the reader then either rejects a key or returns two
    well-formed keys from which the very same script is rebuilt, when they
    are in script order. *)
Lemma checked_multisig_is_readable (rs : Script)
    (Hc : check_reedemscript_is_multisig rs = Ok ()) :
  match read_pubkeys_from_multisig_redeemscript rs with
  | Ok (k1, k2) =>
      wf_pubkey k1 /\ wf_pubkey k2 /\
      (multisig_order k1 k2 = (k1, k2) -> create_multisig_redeemscript k1 k2 = rs)
  | Err e => e = PE_Key
  | Panic => False
  end.
Proof.
  apply check_is_multisig_iff in Hc as (p1 & p2 & H1 & H2 & ->).
  rewrite read_pubkeys_shape by done.
  destruct (pubkey_from_slice p1) as [k1|] eqn:E1; [|done].
  destruct (pubkey_from_slice p2) as [k2|] eqn:E2; [|done].
  apply pubkey_from_slice_33 in E1 as [-> V1], E2 as [-> V2]; try done.
  split; [done|split; [done|]]. intros Ho. rewrite multisig_shape_order by done. by rewrite Ho.
Qed.

(** The witness of a 2-of-2 spend carries, after the dummy element, the
    signature of the key the redeemscript lists first and then that of the
    key it lists second, whichever way round the caller passes them. *)
Lemma two_signatures_follow_key_order (k1 k2 : PublicKey) (s1 s2 : Signature) (inp : TxIn)
    (rs : Script) (H1 : wf_pubkey k1) (H2 : wf_pubkey k2)
    (sig_of : PublicKey -> Signature) (Hs1 : sig_of k1 = s1) (Hs2 : sig_of k2 = s2)
    (Hrs : rs = create_multisig_redeemscript k1 k2) :
  exists a b,
    read_pubkeys_from_multisig_redeemscript rs = Ok (a, b) /\
    witness (apply_two_signatures_to_2of2_multisig_spend k1 k2 s1 s2 inp rs) =
      witness inp ++ [[]; sig_to_vec (sig_of a); sig_to_vec (sig_of b); rs].
Proof.
  exists (multisig_order k1 k2).1, (multisig_order k1 k2).2. split.
  - destruct (multisig_order_wf k1 k2 H1 H2) as [Ha Hb]. subst rs.
    rewrite multisig_shape_order, read_pubkeys_shape by (done || by apply wf_pubkey_length).
    rewrite !pubkey_from_slice_compressed by (apply Ha || apply Hb).
    by rewrite !wf_pubkey_eta.
  - unfold apply_two_signatures_to_2of2_multisig_spend, multisig_order. subst s1 s2.
    by destruct (bytes_lt _ _).
Qed.
Lemma redeemscript_to_scriptpubkey_Ok rs :
  redeemscript_to_scriptpubkey rs = Ok (0 :: 32 :: wscript_hash rs).
Proof.
  unfold redeemscript_to_scriptpubkey.
  pose proof (wscript_hash_length rs). rewrite witness_program_v0 by done.
  cbn. by rewrite new_witness_program_v0.
Qed.

Lemma calculate_fee_sats_Ok {E} v :
  0 <= v < 2 ^ 32 -> calculate_fee_sats (E := E) v = Ok (2 * v).
Proof.
  intros Hv. unfold calculate_fee_sats, get_min_fee_rate.
  destruct (fee_rate_exact MIN_FEE_RATE v) as (fr & -> & Hf); [unfold MIN_FEE_RATE; lia|done|].
  cbn. by rewrite Hf.
Qed.

Lemma estimate_funding_tx_fee_sats_Ok {E} :
  estimate_funding_tx_fee_sats (E := E) = Ok 550.
Proof. apply calculate_fee_sats_Ok. lia. Qed.

Lemma create_senders_contract_tx_eq inp v rs :
  create_senders_contract_tx inp v rs =
    if v <? 300 then Panic
    else Ok {| version := 2; lock_time := 0;
               input := [{| previous_output := inp; script_sig := [];
                            sequence := SEQUENCE_ZERO; witness := [] |}];
               output := [{| value := v - 300; script_pubkey := 0 :: 32 :: wscript_hash rs |}] |}.
Proof.
  unfold create_senders_contract_tx, CONTRACT_TX_VSIZE.
  rewrite calculate_fee_sats_Ok by lia. cbn [mbind outcome_bind].
  rewrite redeemscript_to_scriptpubkey_Ok. cbn [mbind outcome_bind].
  unfold amount_sub, checked_sub. change (2 * 150) with 300.
  destruct (Z.leb_spec 300 v), (Z.ltb_spec v 300); try lia; done.
Qed.

(** The contract transaction a hop builds for a funding output of at
    least the 300 sat contract fee spends exactly that outpoint, pays
    everything but the fee to the P2WSH of the contract script, and passes
    the validation the peer runs; below the fee the subtraction panics. *)
Lemma contract_tx_creation_validates (inp : OutPoint) (v : Amount) (rs : Script) :
  (v < 300 /\ create_senders_contract_tx inp v rs = Panic) \/
  (300 <= v /\ exists tx,
     create_senders_contract_tx inp v rs = Ok tx /\
     create_receivers_contract_tx inp v rs = Ok tx /\
     map previous_output (input tx) = [inp] /\
     map value (output tx) = [v - 300] /\
     validate_contract_tx tx (Some inp) rs = Ok ()).
Proof.
  unfold create_receivers_contract_tx. rewrite create_senders_contract_tx_eq.
  destruct (Z.ltb_spec v 300); [left; done|right]. split; [done|].
  eexists. split; [done|]. split; [done|]. split; [done|]. split; [done|].
  unfold validate_contract_tx. cbn. rewrite redeemscript_to_scriptpubkey_Ok. cbn.
  by rewrite !bool_decide_eq_false_2 by naive_solver.
Qed.

Lemma validate_contract_tx_iff tx op rs :
  validate_contract_tx tx op rs = Ok () <->
  exists i o, input tx = [i] /\ output tx = [o] /\
    script_pubkey o = 0 :: 32 :: wscript_hash rs /\
    (forall f, op = Some f -> previous_output i = f).
Proof.
  unfold validate_contract_tx.
  destruct (input tx) as [|i [|]]; [naive_solver| |naive_solver].
  destruct (output tx) as [|o [|]]; [naive_solver| |naive_solver].
  rewrite redeemscript_to_scriptpubkey_Ok. rewrite bind_Ok. split.
  - intros (u & Hop & Hspk). cbn in Hspk. inv_ok Hspk. apply bool_decide_eq_false in Hspk.
    exists i, o. do 2 (split; [done|]). split; [by apply dec_stable|].
    intros f ->. inv_ok Hop. apply bool_decide_eq_false in Hop. by apply dec_stable.
  - intros (i' & o' & [= <-] & [= <-] & Hspk & Hop). exists (). split.
    + destruct op as [f|]; [|done]. apply reject_Ok, bool_decide_eq_false. naive_solver.
    + cbn. apply reject_Ok, bool_decide_eq_false. naive_solver.
Qed.

Lemma is_contract_out_valid_Ok (o : TxOut) (ph pt : PublicKey) (h : Hash160) (l lmin : Z) :
  is_contract_out_valid o ph pt h l lmin = Ok () <->
  lmin <= l /\
  script_pubkey o = 0 :: 32 :: wscript_hash (create_contract_redeemscript ph pt h l).
Proof.
  unfold is_contract_out_valid. rewrite bind_Ok, redeemscript_to_scriptpubkey_Ok. split.
  - intros ([] & Hl & H). inv_ok Hl. cbn in H. inv_ok H. to_prop.
    split; [done|]. by apply dec_stable.
  - intros [Hl Hs]. exists (). split; [apply reject_Ok, Z.ltb_ge; lia|].
    cbn. apply reject_Ok, bool_decide_eq_false. naive_solver.
Qed.

(** A contract output is accepted exactly when the locktime is at least
    the minimum and the output pays to the P2WSH of the contract script
    rebuilt from the requested keys, hash value and locktime. *)
Lemma contract_out_valid_iff (o : TxOut) (ph pt : PublicKey) (h : Hash160) (l lmin : Z) :
  is_contract_out_valid o ph pt h l lmin = Ok () <->
  lmin <= l /\
  script_pubkey o = 0 :: 32 :: wscript_hash (create_contract_redeemscript ph pt h l).
Proof. exact (is_contract_out_valid_Ok o ph pt h l lmin). Qed.

(** A signature made with a private key over a contract transaction
    verifies against the public key of that private key, for the same
    redeemscript and amount; both fail the same way when the transaction has
    no signature hash. *)
Lemma contract_signature_verifies (tx : Transaction) (rs : Script) (amt : Amount) (k : SecretKey) :
  match sign_contract_tx tx rs amt k with
  | Ok s =>
      sighash_type s = SIGHASH_ALL /\
      verify_contract_tx_sig tx rs amt
        {| compressed := true; inner := point_from_secret_key k |} (sig_bytes s) = Ok ()
  | Err e => forall pk s, verify_contract_tx_sig tx rs amt pk s = Err e
  | Panic => False
  end.
Proof.
  unfold sign_contract_tx, verify_contract_tx_sig.
  destruct (p2wsh_signature_hash tx 0 rs amt SIGHASH_ALL) as [d|]; cbn; [|done].
  split; [done|]. by rewrite ecdsa_sign_verify.
Qed.

(** The hash value common to all contracts of a proof of funding is
    returned exactly when the message has at least one funding transaction
    and every one of its contract scripts reads to that value; a message
    with none makes the function panic. *)
Lemma hashvalues_equal_iff (m : ProofOfFunding) (h : Hash160) :
  (check_hashvalues_are_equal m = Ok h <->
   pof_confirmed_funding_txes m <> [] /\
   Forall (fun i => read_hashvalue_from_contract (fti_contract_redeemscript i) = Ok h)
     (pof_confirmed_funding_txes m)) /\
  (pof_confirmed_funding_txes m = [] -> check_hashvalues_are_equal m = Panic).
Proof.
  unfold check_hashvalues_are_equal. split; [|by intros ->].
  rewrite bind_Ok. setoid_rewrite try_map_Ok.
  destruct (pof_confirmed_funding_txes m) as [|i l].
  - split; [|naive_solver]. intros (hs & H & H'). by inversion H; subst.
  - split.
    + intros (hs & H & H'). split; [done|].
      case_match eqn:Hall; [|done]. rewrite expect_Ok in H'. rewrite H' in Hall.
      apply Forall_lookup. intros k x Hx.
      destruct (Forall2_lookup_l _ _ _ _ _ H Hx) as (y & Hy & Hr).
      rewrite forallb_forall in Hall.
      specialize (Hall y (proj1 (list_elem_of_In _ _) (list_elem_of_lookup_2 _ _ _ Hy))).
      apply bool_decide_eq_true in Hall. congruence.
    + intros [_ Hall]. exists (replicate (length (i :: l)) h). split.
      * by apply Forall2_replicate_r.
      * cbn [replicate length lookup list_lookup].
        replace (forallb _ _) with true; [done|]. symmetry. apply forallb_forall.
        intros x Hx%list_elem_of_In. apply bool_decide_eq_true.
        apply elem_of_cons in Hx as [->|[-> _]%elem_of_replicate]; done.
Qed.
End contract_properties.

Lemma sum_claimed_amounts_cases (amounts : list Amount)
    (Hr : Forall (fun a => is_u64 a) amounts) :
  match sum_claimed_amounts amounts with
  | Ok t => t = foldr Z.add 0 amounts /\ t <= MAX_MONEY
  | Err a => In a amounts /\ (MAX_MONEY < a \/ MAX_MONEY < foldr Z.add 0 amounts)
  | Panic => False
  end.
Proof.
  unfold sum_claimed_amounts.
  enough (forall acc, 0 <= acc <= MAX_MONEY ->
    match try_fold (fun total amount =>
        if MAX_MONEY <? amount then Err amount
        else match checked_add 64 total amount with
             | Some t => if t <=? MAX_MONEY then Ok t else Err amount
             | None => Err amount
             end) acc amounts with
    | Ok t => t = acc + foldr Z.add 0 amounts /\ t <= MAX_MONEY
    | Err a => In a amounts /\ (MAX_MONEY < a \/ MAX_MONEY < acc + foldr Z.add 0 amounts)
    | Panic => False
    end) as H by (apply (H 0); unfold MAX_MONEY; lia).
  induction Hr as [|a l Ha Hl IH]; intros acc Hacc; cbn [try_fold foldr].
  { split; lia. }
  assert (0 <= foldr Z.add 0 l) as Hs.
  { clear IH. induction Hl as [|b l Hb _ IH]; simpl; unfold in_width in *; lia. }
  unfold in_width, MAX_MONEY in *. change (2 ^ 64) with 18446744073709551616 in *.
  unfold checked_add. change (2 ^ 64) with 18446744073709551616.
  destruct (Z.ltb_spec 2100000000000000 a); [cbn; split; [by left|lia]|].
  destruct (Z.ltb_spec (acc + a) 18446744073709551616); [|lia].
  destruct (Z.leb_spec (acc + a) 2100000000000000); cbn [mbind outcome_bind].
  - specialize (IH (acc + a) ltac:(lia)).
    destruct (try_fold _ (acc + a) l); [lia| |done].
    destruct IH as [Hin Hor]. split; [by right|lia].
  - split; [by left|lia].
Qed.

(** Summing the amounts a peer claims never overflows: it succeeds exactly
    when every amount and the total stay within the 21M coin cap, and then
    returns the total. *)
Lemma sum_claimed_amounts_spec (amounts : list Amount)
    (Hr : Forall (fun a => is_u64 a) amounts) :
  match sum_claimed_amounts amounts with
  | Ok t => t = foldr Z.add 0 amounts /\ t <= MAX_MONEY
  | Err a => In a amounts /\ (MAX_MONEY < a \/ MAX_MONEY < foldr Z.add 0 amounts)
  | Panic => False
  end.
Proof. exact (sum_claimed_amounts_cases amounts Hr). Qed.

(** ** Witnesses: the properties at concrete inputs of the reference instance *)
#[local] Existing Instance Reference.lib.
#[local] Existing Instance Reference.laws.

Lemma contract_redeemscript_roundtrip_witness :
  read_contract_locktime
    (create_contract_redeemscript (Reference.key 5) (Reference.key 9) (replicate 20 7) 40000)
  = Ok 40000.
Proof.
  apply (contract_redeemscript_roundtrip (Reference.key 5) (Reference.key 9) (replicate 20 7) 40000).
  - by split.
  - by split.
  - done.
  - unfold in_width. lia.
Defined.

Lemma multisig_redeemscript_roundtrip_witness :
  read_pubkeys_from_multisig_redeemscript
    (create_multisig_redeemscript (Reference.key 9) (Reference.key 5))
  = Ok (Reference.key 5, Reference.key 9).
Proof.
  apply (multisig_redeemscript_roundtrip (Reference.key 9) (Reference.key 5)); by split.
Defined.

Lemma checked_multisig_is_readable_witness :
  match read_pubkeys_from_multisig_redeemscript (82 :: 33 :: replicate 33 3 ++ 33 :: replicate 33 2 ++ [82; 174]) with
  | Ok (k1, k2) =>
      wf_pubkey k1 /\ wf_pubkey k2 /\
      (multisig_order k1 k2 = (k1, k2) ->
       create_multisig_redeemscript k1 k2 = 82 :: 33 :: replicate 33 3 ++ 33 :: replicate 33 2 ++ [82; 174])
  | Err e => e = PE_Key
  | Panic => False
  end.
Proof.
  apply (checked_multisig_is_readable (82 :: 33 :: replicate 33 3 ++ 33 :: replicate 33 2 ++ [82; 174])).
  vm_compute. reflexivity.
Defined.

Definition sample_sig (n : Z) : Signature := {| sig_bytes := [n]; sighash_type := SIGHASH_ALL |}.
Definition sample_outpoint : OutPoint := {| op_txid := 77; op_vout := 1 |}.
Definition sample_txin : TxIn :=
  {| previous_output := sample_outpoint; script_sig := []; sequence := 0; witness := [] |}.

Lemma two_signatures_follow_key_order_witness :
  exists a b,
    read_pubkeys_from_multisig_redeemscript
      (create_multisig_redeemscript (Reference.key 9) (Reference.key 5)) = Ok (a, b) /\
    witness (apply_two_signatures_to_2of2_multisig_spend (Reference.key 9) (Reference.key 5)
               (sample_sig 9) (sample_sig 5) sample_txin
               (create_multisig_redeemscript (Reference.key 9) (Reference.key 5))) =
      [] ++ [[]; sig_to_vec (sample_sig (nth 1 (inner a) 0)); sig_to_vec (sample_sig (nth 1 (inner b) 0));
             create_multisig_redeemscript (Reference.key 9) (Reference.key 5)].
Proof.
  apply (two_signatures_follow_key_order (Reference.key 9) (Reference.key 5)
           (sample_sig 9) (sample_sig 5) sample_txin
           (create_multisig_redeemscript (Reference.key 9) (Reference.key 5)))
    with (sig_of := fun k => sample_sig (nth 1 (inner k) 0)); by try split.
Defined.

Lemma contract_tx_creation_validates_witness :
  exists tx, create_senders_contract_tx sample_outpoint 1000 [1; 2] = Ok tx /\
             validate_contract_tx tx (Some sample_outpoint) [1; 2] = Ok ().
Proof.
  destruct (contract_tx_creation_validates sample_outpoint 1000 [1; 2])
    as [[H _]|(_ & tx & H1 & _ & _ & _ & H2)]; [lia|].
  exists tx. by split.
Defined.

Lemma contract_out_valid_iff_witness :
  is_contract_out_valid
    {| value := 5;
       script_pubkey := 0 :: 32 :: wscript_hash (create_contract_redeemscript (Reference.key 5)
                                     (Reference.key 9) (replicate 20 7) 60) |}
    (Reference.key 5) (Reference.key 9) (replicate 20 7) 60 20 = Ok ().
Proof. apply contract_out_valid_iff. split; [lia|done]. Defined.

Lemma contract_signature_verifies_witness :
  let tx := {| version := 2; lock_time := 0; input := [sample_txin]; output := [] |} in
  match sign_contract_tx tx [1] 500 42 with
  | Ok s =>
      sighash_type s = SIGHASH_ALL /\
      verify_contract_tx_sig tx [1] 500
        {| compressed := true; inner := point_from_secret_key 42 |} (sig_bytes s) = Ok ()
  | Err e => forall pk s, verify_contract_tx_sig tx [1] 500 pk s = Err e
  | Panic => False
  end.
Proof. intros tx. apply (contract_signature_verifies tx [1] 500 42). Defined.

Definition sample_funding (h : Hash160) : FundingTxInfo :=
  {| fti_funding_tx := {| version := 2; lock_time := 0; input := []; output := [] |};
     fti_multisig_redeemscript := [];
     fti_multisig_nonce := 1;
     fti_contract_redeemscript :=
       create_contract_redeemscript (Reference.key 5) (Reference.key 9) h 60;
     fti_hashlock_nonce := 2 |}.

Lemma hashvalues_equal_iff_witness :
  check_hashvalues_are_equal
    {| pof_id := "s"; pof_confirmed_funding_txes := replicate 2 (sample_funding (replicate 20 7));
       pof_next_openswap_info := []; pof_refund_locktime := 60; pof_contract_feerate := f64_of_Z 2 |}
  = Ok (replicate 20 7).
Proof.
  apply hashvalues_equal_iff. split; [done|]. cbn [pof_confirmed_funding_txes].
  repeat constructor; vm_compute; reflexivity.
Defined.

Lemma sum_claimed_amounts_spec_witness :
  match sum_claimed_amounts [50000; MAX_MONEY] with
  | Ok t => t = foldr Z.add 0 [50000; MAX_MONEY] /\ t <= MAX_MONEY
  | Err a => In a [50000; MAX_MONEY] /\
             (MAX_MONEY < a \/ MAX_MONEY < foldr Z.add 0 [50000; MAX_MONEY])
  | Panic => False
  end.
Proof.
  apply sum_claimed_amounts_spec.
  repeat constructor; unfold MAX_MONEY; lia.
Defined.
