(* ===== verification/Errors.v ===== *)
(** The error enums of the crate: src/error.rs, src/wallet/error.rs,
    src/wallet/fidelity.rs, src/watch_tower/watcher_error.rs,
    src/maker/error.rs and src/taker/error.rs.

    A payload that is an error value of another crate is carried as its text;
    the RPC error keeps the code and message the maker inspects. *)
From S2P Require Import Prelude Bitcoin Messages.

Inductive NetError :=
| NE_IO (e : string)
| NE_ReachedEOF
| NE_ConnectionTimedOut
| NE_MessageTooLarge
| NE_InvalidNetworkAddress
| NE_Cbor (e : string)
| NE_InvalidAppNetwork.

Inductive FidelityError :=
| FE_WrongScriptType
| FE_BondDoesNotExist
| FE_BondAlreadyRedeemed
| FE_BondLocktimeExpired
| FE_InvalidCertHash
| FE_InvalidConfirmationHeight (claimed : option Z) (actual : Z)
| FE_General (msg : string)
| FE_InvalidBondLocktime
| FE_BondUncomfirmed
| FE_BondTransactionMissing (index : Z).

(** [bitcoincore_rpc::Error]: a JSON-RPC error answered by the node, or any
    other failure of the client. *)
Inductive RpcError :=
| RPC_JsonRpc (code : Z) (message : string)
| RPC_Other (e : string).

Inductive WalletError :=
| WE_IO (e : string)
| WE_Cbor (e : string)
| WE_Json (e : string)
| WE_Security (e : string)
| WE_Rpc (e : RpcError)
| WE_Electrum (e : string)
| WE_ElectrumUnreachable (attempts : Z) (last : string)
| WE_Zmq (e : string)
| WE_BIP32 (e : string)
| WE_BIP39 (e : string)
| WE_General (msg : string)
| WE_TxConfirmationTimeout (msg : string)
| WE_Interrupted (msg : string)
| WE_Protocol (e : ProtocolError)
| WE_Fidelity (e : FidelityError)
| WE_Locktime
| WE_Secp
| WE_Consensus (msg : string)
| WE_InsufficientFund (available required : Amount)
| WE_Selection (e : string)
| WE_InvalidAddress (e : string).

Inductive WatcherError :=
| WatchE_ServerError
| WatchE_MempoolIndexerError
| WatchE_Shutdown
| WatchE_ParsingError
| WatchE_SendError
| WatchE_IOError (e : string)
| WatchE_RPCError (e : RpcError)
| WatchE_WebSocket (e : string)
| WatchE_NostrParsingError (e : string)
| WatchE_Wallet (e : WalletError)
| WatchE_MutexPoison
| WatchE_General (msg : string).

Inductive MakerError :=
| ME_IO (e : string)
| ME_UnexpectedMessage (expected got : string)
| ME_General (msg : string)
| ME_InsufficientLiquidity (available reserved requested : Amount)
| ME_TooManySwaps
| ME_SwapParamMismatch
| ME_MutexPossion
| ME_Secp
| ME_Wallet (e : WalletError)
| ME_Net (e : NetError)
| ME_Protocol (e : ProtocolError)
| ME_TorError (e : string)
| ME_Watcher (e : WatcherError).

Inductive TakerError :=
| TE_IO (e : string)
| TE_ContractsBroadcasted (txids : list Txid)
| TE_NotEnoughMakersInOfferBook
| TE_Wallet (e : WalletError)
| TE_Net (e : NetError)
| TE_SendAmountNotSet
| TE_Deserialize (msg : string)
| TE_MPSC (msg : string)
| TE_TorError (e : string)
| TE_AddressParseError (e : string)
| TE_General (msg : string)
| TE_Watcher (e : WatcherError).

Definition breach_or_wallet_error (error : WalletError) : TakerError :=
  match error with
  | WE_Interrupted _ => TE_ContractsBroadcasted []
  | other => TE_Wallet other
  end.
