(* ===== verification/SwapCoin.v ===== *)
(** Swap coins: src/wallet/swapcoin.rs.

    A swap coin holds one side's view of a hop: the keys, the contract
    transaction, the counterparty's signature and, once revealed, the
    counterparty's key or the preimage.  Modelled here: both record types with
    their constructors and setters, the timelock and output readers, the fully
    signed contract transaction, and the legacy spends (cooperative 2-of-2,
    hashlock, timelock recovery).  The spends of the taproot variant are in
    [Taproot].  An address is the script it pays to. *)
From S2P Require Import Prelude Float64 Bitcoin Messages Contract Errors.
#[local] Open Scope string_scope.
#[local] Open Scope list_scope.
#[local] Open Scope Z_scope.

Record PaymentTarget := { pt_script_pubkey : Script; pt_amount : Amount }.

Record IncomingSwapCoin := {
  isc_protocol : ProtocolVersion;
  isc_my_privkey : option SecretKey;
  isc_my_pubkey : option PublicKey;
  isc_other_pubkey : option PublicKey;
  isc_other_privkey : option SecretKey;
  isc_contract_tx : Transaction;
  isc_contract_txid : option Txid;
  isc_hashlock_privkey : SecretKey;
  isc_funding_amount : Amount;
  isc_hash_preimage : option Preimage;
  isc_swap_id : option string;
  isc_contract_redeemscript : option Script;
  isc_multisig_redeemscript : option Script;
  isc_hashlock_script : option Script;
  isc_timelock_script : option Script;
  isc_others_contract_sig : option Signature;
  isc_tap_tweak : option bytes;
  isc_internal_key : option XOnlyPublicKey;
  isc_spending_tx : option Transaction;
  isc_payment_target : option PaymentTarget;
}.

Record OutgoingSwapCoin := {
  osc_protocol : ProtocolVersion;
  osc_my_privkey : option SecretKey;
  osc_my_pubkey : option PublicKey;
  osc_other_pubkey : option PublicKey;
  osc_other_privkey : option SecretKey;
  osc_funding_tx : option Transaction;
  osc_contract_tx : Transaction;
  osc_timelock_privkey : SecretKey;
  osc_funding_amount : Amount;
  osc_hash_preimage : option Preimage;
  osc_swap_id : option string;
  osc_contract_redeemscript : option Script;
  osc_hashlock_script : option Script;
  osc_timelock_script : option Script;
  osc_others_contract_sig : option Signature;
  osc_tap_tweak : option bytes;
  osc_internal_key : option XOnlyPublicKey;
  osc_recovery_address : option Script;
}.

(** Spend kinds and sizes of src/wallet/api.rs. *)
Inductive SpendKind := ContractSpend (cooperative : bool) | Timelock.

Definition LEGACY_CONTRACT_SPEND_VSIZE : Z := 150.
Definition TAPROOT_KEYPATH_VSIZE : Z := 112.
Definition TAPROOT_SCRIPTPATH_VSIZE : Z := 155.
Definition LEGACY_TIMELOCK_VSIZE : Z := 142.
Definition TAPROOT_TIMELOCK_VSIZE : Z := 140.

Definition contract_and_timelock_vsize (protocol : ProtocolVersion) (kind : SpendKind) : Z :=
  match protocol, kind with
  | Legacy, ContractSpend _ => LEGACY_CONTRACT_SPEND_VSIZE
  | Taproot, ContractSpend true => TAPROOT_KEYPATH_VSIZE
  | Taproot, ContractSpend false => TAPROOT_SCRIPTPATH_VSIZE
  | Legacy, Timelock => LEGACY_TIMELOCK_VSIZE
  | Taproot, Timelock => TAPROOT_TIMELOCK_VSIZE
  end.

(** First index whose output carries the funding amount. *)
Definition contract_output_vout (protocol : ProtocolVersion) (tx : Transaction) (amt : Amount) : Z :=
  if bool_decide (protocol = Taproot) && (1 <? length (output tx))%nat then
    match list_find (fun o => value o = amt) (output tx) with
    | Some (i, _) => wrap 32 (Z.of_nat i)
    | None => 0
    end
  else 0.

Definition isc_get_contract_output_vout (c : IncomingSwapCoin) : Z :=
  contract_output_vout (isc_protocol c) (isc_contract_tx c) (isc_funding_amount c).
Definition osc_get_contract_output_vout (c : OutgoingSwapCoin) : Z :=
  contract_output_vout (osc_protocol c) (osc_contract_tx c) (osc_funding_amount c).

Definition isc_is_preimage_known (c : IncomingSwapCoin) : bool :=
  match isc_hash_preimage c with Some _ => true | None => false end.
Definition isc_set_preimage (c : IncomingSwapCoin) (p : Preimage) : IncomingSwapCoin :=
  {| c with isc_hash_preimage := Some p |}.
Definition isc_set_other_privkey (c : IncomingSwapCoin) (k : SecretKey) : IncomingSwapCoin :=
  {| c with isc_other_privkey := Some k |}.
Definition isc_set_taproot_params (c : IncomingSwapCoin) (my_privkey : SecretKey)
    (my_pubkey other_pubkey : PublicKey) (internal_key : XOnlyPublicKey) (tap_tweak : bytes) :=
  {| c with
     isc_my_privkey := Some my_privkey;
     isc_my_pubkey := Some my_pubkey;
     isc_other_pubkey := Some other_pubkey;
     isc_internal_key := Some internal_key;
     isc_tap_tweak := Some tap_tweak |}.

Definition osc_set_preimage (c : OutgoingSwapCoin) (p : Preimage) : OutgoingSwapCoin :=
  {| c with osc_hash_preimage := Some p |}.
Definition osc_set_other_privkey (c : OutgoingSwapCoin) (k : SecretKey) : OutgoingSwapCoin :=
  {| c with osc_other_privkey := Some k |}.
Definition osc_set_taproot_params (c : OutgoingSwapCoin) (my_privkey : SecretKey)
    (my_pubkey other_pubkey : PublicKey) (internal_key : XOnlyPublicKey) (tap_tweak : bytes) :=
  {| c with
     osc_my_privkey := Some my_privkey;
     osc_my_pubkey := Some my_pubkey;
     osc_other_pubkey := Some other_pubkey;
     osc_internal_key := Some internal_key;
     osc_tap_tweak := Some tap_tweak |}.

Definition isc_new_taproot (hashlock_privkey : SecretKey) (hashlock_script timelock_script : Script)
    (contract_tx : Transaction) (funding_amount : Amount) : IncomingSwapCoin :=
  {| isc_protocol := Taproot;
     isc_my_privkey := None;
     isc_my_pubkey := None;
     isc_other_pubkey := None;
     isc_other_privkey := None;
     isc_contract_tx := contract_tx;
     isc_contract_txid := None;
     isc_hashlock_privkey := hashlock_privkey;
     isc_funding_amount := funding_amount;
     isc_hash_preimage := None;
     isc_swap_id := None;
     isc_contract_redeemscript := None;
     isc_multisig_redeemscript := None;
     isc_hashlock_script := Some hashlock_script;
     isc_timelock_script := Some timelock_script;
     isc_others_contract_sig := None;
     isc_tap_tweak := None;
     isc_internal_key := None;
     isc_spending_tx := None;
     isc_payment_target := None |}.

Definition osc_new_taproot (timelock_privkey : SecretKey) (hashlock_script timelock_script : Script)
    (contract_tx : Transaction) (funding_amount : Amount) : OutgoingSwapCoin :=
  {| osc_protocol := Taproot;
     osc_my_privkey := None;
     osc_my_pubkey := None;
     osc_other_pubkey := None;
     osc_other_privkey := None;
     osc_funding_tx := None;
     osc_contract_tx := contract_tx;
     osc_timelock_privkey := timelock_privkey;
     osc_funding_amount := funding_amount;
     osc_hash_preimage := None;
     osc_swap_id := None;
     osc_contract_redeemscript := None;
     osc_hashlock_script := Some hashlock_script;
     osc_timelock_script := Some timelock_script;
     osc_others_contract_sig := None;
     osc_tap_tweak := None;
     osc_internal_key := None;
     osc_recovery_address := None |}.

(** [input.get_mut(0)] followed by an update. *)
Definition update_first_input (f : TxIn -> TxIn) (tx : Transaction) : Transaction :=
  match input tx with
  | i :: rest => {| tx with input := f i :: rest |}
  | [] => tx
  end.

Section swapcoin.
Context {lib : BitcoinLib}.

Definition pubkey_of (k : SecretKey) : PublicKey :=
  {| compressed := true; inner := point_from_secret_key k |}.

Definition isc_new_legacy (my_privkey : SecretKey) (other_pubkey : PublicKey)
    (contract_tx : Transaction) (contract_redeemscript : Script) (hashlock_privkey : SecretKey)
    (funding_amount : Amount) : IncomingSwapCoin :=
  let my_pubkey := pubkey_of my_privkey in
  let multisig_redeemscript := create_multisig_redeemscript my_pubkey other_pubkey in
  {| isc_protocol := Legacy;
     isc_my_privkey := Some my_privkey;
     isc_my_pubkey := Some my_pubkey;
     isc_other_pubkey := Some other_pubkey;
     isc_other_privkey := None;
     isc_contract_tx := contract_tx;
     isc_contract_txid := None;
     isc_hashlock_privkey := hashlock_privkey;
     isc_funding_amount := funding_amount;
     isc_hash_preimage := None;
     isc_swap_id := None;
     isc_contract_redeemscript := Some contract_redeemscript;
     isc_multisig_redeemscript := Some multisig_redeemscript;
     isc_hashlock_script := None;
     isc_timelock_script := None;
     isc_others_contract_sig := None;
     isc_tap_tweak := None;
     isc_internal_key := None;
     isc_spending_tx := None;
     isc_payment_target := None |}.

Definition osc_new_legacy (my_privkey : SecretKey) (other_pubkey : PublicKey)
    (contract_tx : Transaction) (contract_redeemscript : Script) (timelock_privkey : SecretKey)
    (funding_amount : Amount) : OutgoingSwapCoin :=
  let my_pubkey := pubkey_of my_privkey in
  {| osc_protocol := Legacy;
     osc_my_privkey := Some my_privkey;
     osc_my_pubkey := Some my_pubkey;
     osc_other_pubkey := Some other_pubkey;
     osc_other_privkey := None;
     osc_funding_tx := None;
     osc_contract_tx := contract_tx;
     osc_timelock_privkey := timelock_privkey;
     osc_funding_amount := funding_amount;
     osc_hash_preimage := None;
     osc_swap_id := None;
     osc_contract_redeemscript := Some contract_redeemscript;
     osc_hashlock_script := None;
     osc_timelock_script := None;
     osc_others_contract_sig := None;
     osc_tap_tweak := None;
     osc_internal_key := None;
     osc_recovery_address := None |}.

(** [locktime |= byte << (i * 8)] on a [u32]: the shift amount is taken modulo
    32, as a release build does. *)
Fixpoint taproot_locktime_bytes (i : Z) (bs : bytes) (acc : Z) : Z :=
  match bs with
  | [] => acc
  | b :: rest =>
      taproot_locktime_bytes (i + 1) rest (Z.lor acc (wrap 32 (Z.shiftl b ((i * 8) mod 32))))
  end.

Definition osc_get_timelock (c : OutgoingSwapCoin) : option Z :=
  if bool_decide (osc_protocol c = Taproot) then
    match osc_timelock_script c with
    | None => None
    | Some script_bytes =>
        if (length script_bytes <? 6)%nat then None
        else
          match script_bytes with
          | [] => None
          | locktime_len :: rest =>
              if (locktime_len =? 0) || (5 <? locktime_len) || (zlen script_bytes <? locktime_len + 1)
              then None
              else Some (taproot_locktime_bytes 0 (take (Z.to_nat locktime_len) rest) 0)
          end
    end
  else
    match osc_contract_redeemscript c with
    | None => None
    | Some redeemscript =>
        match read_contract_locktime redeemscript with
        | Ok t => Some t
        | _ => None
        end
    end.

(** The witness of a contract transaction: our signature and the peer's over
    the 2-of-2 funding output. *)
Definition signed_contract_tx (protocol : ProtocolVersion) (contract_tx : Transaction)
    (my_privkey : option SecretKey) (my_pubkey other_pubkey : option PublicKey)
    (others_sig : option Signature) (funding_amount : Amount) : outcome WalletError Transaction :=
  match protocol with
  | Legacy =>
      my_privkey ← ok_or my_privkey (WE_General "Missing my_privkey for contract tx signing");
      my_pubkey ← ok_or my_pubkey (WE_General "Missing my_pubkey for contract tx signing");
      other_pubkey ← ok_or other_pubkey (WE_General "Missing other_pubkey for contract tx signing");
      others_sig ← ok_or others_sig (WE_General "Missing others_contract_sig for contract tx signing");
      let multisig_redeemscript := create_multisig_redeemscript my_pubkey other_pubkey in
      my_sig ← map_err (fun _ => WE_General "Failed to sign contract tx: {:?}")
                 (sign_contract_tx contract_tx multisig_redeemscript funding_amount my_privkey);
      Ok (update_first_input (fun i =>
            apply_two_signatures_to_2of2_multisig_spend my_pubkey other_pubkey my_sig others_sig i
              multisig_redeemscript) contract_tx)
  | Taproot => Ok contract_tx
  end.

Definition isc_create_signed_contract_tx (c : IncomingSwapCoin) : outcome WalletError Transaction :=
  signed_contract_tx (isc_protocol c) (isc_contract_tx c) (isc_my_privkey c) (isc_my_pubkey c)
    (isc_other_pubkey c) (isc_others_contract_sig c) (isc_funding_amount c).
Definition osc_create_signed_contract_tx (c : OutgoingSwapCoin) : outcome WalletError Transaction :=
  signed_contract_tx (osc_protocol c) (osc_contract_tx c) (osc_my_privkey c) (osc_my_pubkey c)
    (osc_other_pubkey c) (osc_others_contract_sig c) (osc_funding_amount c).

Definition sign_legacy_spend (c : IncomingSwapCoin) (spend_tx : Transaction)
    : outcome WalletError Transaction :=
  match isc_other_privkey c with
  | Some other_privkey =>
      my_privkey ← ok_or (isc_my_privkey c) (WE_General "Missing my_privkey for cooperative spend");
      my_pubkey ← ok_or (isc_my_pubkey c) (WE_General "Missing my_pubkey for cooperative spend");
      other_pubkey ← ok_or (isc_other_pubkey c) (WE_General "Missing other_pubkey for cooperative spend");
      multisig_redeemscript ← ok_or (isc_multisig_redeemscript c)
                                (WE_General "Missing multisig_redeemscript for cooperative spend");
      sighash ← ok_or (p2wsh_signature_hash spend_tx 0 multisig_redeemscript (isc_funding_amount c)
                         SIGHASH_ALL) (WE_General "Sighash error: {:?}");
      let sig_mine := {| sig_bytes := ecdsa_sign sighash my_privkey; sighash_type := SIGHASH_ALL |} in
      let sig_other := {| sig_bytes := ecdsa_sign sighash other_privkey; sighash_type := SIGHASH_ALL |} in
      Ok (update_first_input (fun i =>
            apply_two_signatures_to_2of2_multisig_spend my_pubkey other_pubkey sig_mine sig_other i
              multisig_redeemscript) spend_tx)
  | None =>
      match isc_hash_preimage c with
      | Some preimage =>
          contract_redeemscript ← ok_or (isc_contract_redeemscript c)
                                    (WE_General "Missing contract_redeemscript for hashlock spend");
          o ← ok_or (output (isc_contract_tx c) !! 0%nat)
                (WE_General "Contract tx has no output for hashlock spend");
          sighash ← ok_or (p2wsh_signature_hash spend_tx 0 contract_redeemscript (value o) SIGHASH_ALL)
                      (WE_General "Sighash error: {:?}");
          let sig := {| sig_bytes := ecdsa_sign sighash (isc_hashlock_privkey c);
                        sighash_type := SIGHASH_ALL |} in
          Ok (update_first_input (fun i =>
                {| i with witness := witness i ++ [sig_to_vec sig; preimage; contract_redeemscript] |})
              spend_tx)
      | None => Err (WE_General "Cannot spend: need either other_privkey or preimage")
      end
  end.

Definition SEQUENCE_ENABLE_RBF_NO_LOCKTIME : Z := 4294967293.

(** [sign_spend_transaction_with_output_value]; [sign_taproot_spend] is the
    taproot signer, a parameter. *)
Definition sign_spend_transaction_with_output_value
    (sign_taproot_spend : IncomingSwapCoin -> Transaction -> outcome WalletError Transaction)
    (c : IncomingSwapCoin) (input_value output_value : Amount) (output_script : Script)
    : outcome WalletError Transaction :=
  _ ← reject (input_value <=? output_value)
        (WE_General "Spend output {output_value} leaves no fee from input {input_value}");
  prev ← match isc_protocol c with
         | Legacy =>
             match isc_other_privkey c with
             | Some _ =>
                 i ← ok_or (input (isc_contract_tx c) !! 0%nat)
                       (WE_General "Contract tx has no input (funding outpoint)");
                 Ok (previous_output i)
             | None => Ok {| op_txid := compute_txid (isc_contract_tx c); op_vout := 0 |}
             end
         | Taproot =>
             let vout := match list_find (fun o => value o = isc_funding_amount c)
                                 (output (isc_contract_tx c)) with
                         | Some (i, _) => wrap 32 (Z.of_nat i)
                         | None => 0
                         end in
             Ok {| op_txid := compute_txid (isc_contract_tx c); op_vout := vout |}
         end;
  let seq := match isc_other_privkey c with
             | Some _ => SEQUENCE_ENABLE_RBF_NO_LOCKTIME
             | None => SEQUENCE_ZERO
             end in
  let spend_tx :=
    {| version := 2; lock_time := 0;
       input := [{| previous_output := prev; script_sig := []; sequence := seq; witness := [] |}];
       output := [{| value := output_value; script_pubkey := output_script |}] |} in
  match isc_protocol c with
  | Legacy => sign_legacy_spend c spend_tx
  | Taproot => sign_taproot_spend c spend_tx
  end.

Definition sign_spend_transaction
    (sign_taproot_spend : IncomingSwapCoin -> Transaction -> outcome WalletError Transaction)
    (c : IncomingSwapCoin) (input_value : Amount) (output_script : Script) (feerate : f64)
    : outcome WalletError Transaction :=
  let cooperative := match isc_other_privkey c with Some _ => true | None => false end in
  let vsize := contract_and_timelock_vsize (isc_protocol c) (ContractSpend cooperative) in
  let fee := f64_to_u64 (f64_mul feerate (f64_of_Z vsize)) in
  output_value ← ok_or (checked_sub input_value fee) (WE_General "Fee exceeds input value");
  sign_spend_transaction_with_output_value sign_taproot_spend c input_value output_value output_script.

(** The legacy branch of [sign_timelock_recovery]. *)
Definition sign_timelock_recovery_legacy (c : OutgoingSwapCoin) (tx : Transaction)
    : outcome WalletError Transaction :=
  contract_output ← ok_or (output (osc_contract_tx c) !! Z.to_nat (osc_get_contract_output_vout c))
                      (WE_General "No output in contract tx");
  redeemscript ← ok_or (osc_contract_redeemscript c) (WE_General "No redeemscript for Legacy swapcoin");
  sighash ← ok_or (p2wsh_signature_hash tx 0 redeemscript (value contract_output) SIGHASH_ALL)
              (WE_General "Sighash error: {:?}");
  let ecdsa_sig := {| sig_bytes := ecdsa_sign sighash (osc_timelock_privkey c);
                      sighash_type := SIGHASH_ALL |} in
  match input tx with
  | i :: rest =>
      Ok {| tx with input := {| i with witness := [sig_to_vec ecdsa_sig; []; redeemscript] |} :: rest |}
  | [] => Panic
  end.
End swapcoin.
