(* ===== verification/ScriptEval.v ===== *)
(** What the contract scripts mean when they are spent.

    The stack effects of the opcodes the program's scripts use, as Bitcoin
    documents them (the table in the body of [create_contract_redeemscript] is
    the same reading), and with them the spending conditions of the contract
    and multisig outputs.  The evaluator is a specification, not a translation
    of source code: the theorems relate the witnesses that src/wallet/swapcoin.rs
    builds to the scripts that src/protocol/contract.rs builds. *)
From S2P Require Import Prelude Bitcoin Messages Contract Errors SwapCoin.
#[local] Open Scope string_scope.
#[local] Open Scope list_scope.
#[local] Open Scope Z_scope.

Fixpoint le_value (bs : bytes) : Z :=
  match bs with [] => 0 | b :: t => b + 256 * le_value t end.

(** Sign-magnitude value of a stack element. *)
Definition scriptnum (bs : bytes) : Z :=
  match last bs with
  | Some top =>
      if 128 <=? top then - (le_value bs - 128 * 256 ^ (zlen bs - 1)) else le_value bs
  | None => 0
  end.

Definition truthy (x : bytes) : bool := existsb (fun b => negb (b =? 0)) x.
Definition bool_item (b : bool) : bytes := if b then [1] else [].

(** OP_CHECKSEQUENCEVERIFY against the sequence of the spending input. *)
Definition csv_ok (tx_version seq n : Z) : bool :=
  (0 <=? n) &&
  (Z.testbit n 31 ||
   ((2 <=? tx_version) && negb (Z.testbit seq 31) &&
    (Z.land n (2 ^ 22) =? Z.land seq (2 ^ 22)) && (Z.land n 65535 <=? Z.land seq 65535))).

(** The spend being checked: the transaction, its input 0, the value and the
    script of the output it spends. *)
Record SpendCtx := { cx_tx : Transaction; cx_sequence : Z; cx_amount : Amount; cx_script : Script }.

Section eval.
Context {lib : BitcoinLib}.

Definition checksig (cx : SpendCtx) (sig pk : bytes) : bool :=
  match rev sig with
  | ty :: der_rev =>
      match p2wsh_signature_hash (cx_tx cx) 0 (cx_script cx) (cx_amount cx) ty with
      | Some digest => ecdsa_verify digest (rev der_rev) pk
      | None => false
      end
  | [] => false
  end.

(** Signatures must match keys in order; a key that does not match is skipped. *)
Fixpoint multisig_match (cx : SpendCtx) (sigs keys : list bytes) : bool :=
  match sigs with
  | [] => true
  | s :: sigs' =>
      (fix try_keys keys :=
         match keys with
         | [] => false
         | k :: keys' => if checksig cx s k then multisig_match cx sigs' keys' else try_keys keys'
         end) keys
  end.

Definition step_opcode (cx : SpendCtx) (op : Z) (st : list bytes) : option (list bytes) :=
  if (81 <=? op) && (op <=? 96) then Some ([op - 80] :: st)
  else if op =? OP_SIZE then
    match st with x :: _ => Some (script_int (zlen x) :: st) | _ => None end
  else if op =? OP_SWAP then
    match st with a :: b :: r => Some (b :: a :: r) | _ => None end
  else if op =? OP_DROP then
    match st with _ :: r => Some r | _ => None end
  else if op =? OP_ROT then
    match st with c :: b :: a :: r => Some (a :: c :: b :: r) | _ => None end
  else if op =? OP_HASH160 then
    match st with a :: r => Some (hash160 a :: r) | _ => None end
  else if op =? OP_EQUAL then
    match st with a :: b :: r => Some (bool_item (bool_decide (a = b)) :: r) | _ => None end
  else if op =? OP_EQUALVERIFY then
    match st with a :: b :: r => if bool_decide (a = b) then Some r else None | _ => None end
  else if op =? OP_CSV then
    match st with
    | a :: _ => if csv_ok (version (cx_tx cx)) (cx_sequence cx) (scriptnum a) then Some st else None
    | _ => None
    end
  else if op =? OP_CHECKSIG then
    match st with pk :: sig :: r => Some (bool_item (checksig cx sig pk) :: r) | _ => None end
  else if op =? OP_CHECKMULTISIG then
    match st with
    | n :: st1 =>
        let n := Z.to_nat (scriptnum n) in
        match drop n st1 with
        | m :: st2 =>
            let m := Z.to_nat (scriptnum m) in
            match drop m st2 with
            | _ :: r => Some (bool_item (multisig_match cx (take m st2) (take n st1)) :: r)
            | [] => None
            end
        | [] => None
        end
    | [] => None
    end
  else None.

Fixpoint exec (cx : SpendCtx) (instrs : list (option Instruction)) (cond : list bool)
    (st : list bytes) : option (list bytes) :=
  match instrs with
  | [] => match cond with [] => Some st | _ => None end
  | None :: _ => None
  | Some (PushBytes d) :: rest =>
      if forallb id cond then exec cx rest cond (d :: st) else exec cx rest cond st
  | Some (Op op) :: rest =>
      if op =? OP_IF then
        if forallb id cond then
          match st with
          | c :: st' => exec cx rest (truthy c :: cond) st'
          | [] => None
          end
        else exec cx rest (false :: cond) st
      else if op =? OP_ELSE then
        match cond with b :: cond' => exec cx rest (negb b :: cond') st | [] => None end
      else if op =? OP_ENDIF then
        match cond with _ :: cond' => exec cx rest cond' st | [] => None end
      else if forallb id cond then
        match step_opcode cx op st with
        | Some st' => exec cx rest cond st'
        | None => None
        end
      else exec cx rest cond st
  end.

(** A P2WSH spend: the last witness element is the script, the others are the
    initial stack, last on top; one true element must remain. *)
Definition p2wsh_spendable (tx : Transaction) (prevout : TxOut) : bool :=
  match input tx with
  | i :: _ =>
      match rev (witness i) with
      | script :: items =>
          let cx := {| cx_tx := tx; cx_sequence := sequence i;
                       cx_amount := value prevout; cx_script := script |} in
          bool_decide (script_pubkey prevout = 0 :: 32 :: wscript_hash script) &&
          match exec cx (instructions script) [] items with
          | Some [x] => truthy x
          | _ => false
          end
      | [] => false
      end
  | [] => false
  end.
End eval.

(** The stack element a contract locktime leaves. *)
Definition locktime_item (l : Z) : bytes :=
  if l =? 0 then [] else if l <=? 16 then [l] else script_int l.

Lemma scriptnum_locktime l : is_u16 l -> scriptnum (locktime_item l) = l.
Proof.
  unfold in_width, locktime_item. change (2 ^ 16) with 65536. intros Hl.
  destruct (Z.eqb_spec l 0) as [->|]; [done|].
  destruct (Z.leb_spec l 16).
  { unfold scriptnum. cbn. destruct (Z.leb_spec 128 l); lia. }
  rewrite script_int_u16 by (unfold U16_MAX; lia).
  pose proof (Z.div_mod l 256 ltac:(lia)). pose proof (Z.mod_pos_bound l 256 ltac:(lia)).
  assert (0 <= l / 256 < 256) by (split; [apply Z.div_pos|apply Z.div_lt_upper_bound]; lia).
  destruct (Z.ltb_spec l 128).
  { unfold scriptnum. cbn. destruct (Z.leb_spec 128 l); lia. }
  destruct (Z.ltb_spec l 32768); unfold scriptnum; cbn [last le_value].
  - assert (l / 256 < 128) by (apply Z.div_lt_upper_bound; lia).
    destruct (Z.leb_spec 128 (l / 256)); lia.
  - change (128 <=? 0) with false. cbv iota. lia.
Qed.

Lemma script_int_eq_32 n : 0 <= n -> script_int n = [32] <-> n = 32.
Proof.
  intros Hn. split; [|by intros ->]. unfold script_int. cbn [le_bytes].
  destruct (Z.leb_spec n 0); [done|].
  destruct (Z.leb_spec (n / 256) 0) as [H0|H0].
  - assert (n < 256) by (apply Z.div_small_iff in H0 || (pose proof (Z.div_mod n 256 ltac:(lia)); pose proof (Z.mod_pos_bound n 256 ltac:(lia)); lia); lia).
    rewrite Z.mod_small by lia. cbn [last]. case_match; [done|]. naive_solver.
  - intros Heq. exfalso. revert Heq. repeat case_match; cbn; discriminate.
Qed.

Lemma script_int_eq_nil n : 0 <= n -> script_int n = [] <-> n = 0.
Proof.
  intros Hn. split; [|by intros ->]. unfold script_int. cbn [le_bytes].
  destruct (Z.leb_spec n 0); [lia|]. intros Heq. exfalso. revert Heq.
  destruct (Z.leb_spec (n / 256) 0); cbn [last]; [repeat case_match; done|].
  repeat case_match; cbn; try discriminate; done.
Qed.

Section spending.
Context {lib : BitcoinLib} {laws : BitcoinLaws lib}.

(** What the instruction stream holds where the locktime was pushed. *)
Definition locktime_instr (l : Z) : Instruction :=
  if l =? 0 then PushBytes [] else if l <=? 16 then Op (80 + l) else PushBytes (script_int l).

Lemma instructions_locktime_push l s :
  is_u16 l -> instructions (locktime_push l ++ s) = Some (locktime_instr l) :: instructions s.
Proof.
  unfold in_width, locktime_push, locktime_instr. change (2 ^ 16) with 65536. intros Hl.
  destruct (Z.eqb_spec l 0).
  { change ([0] ++ s) with (0 :: [] ++ s). apply instructions_push_small; [done|simpl; lia]. }
  destruct (Z.leb_spec l 16).
  { cbn [app]. apply instructions_opcode. unfold is_plain_opcode. lia. }
  rewrite <- app_comm_cons. apply instructions_push_small; [done|].
  pose proof (script_int_length l). unfold U16_MAX in *. lia.
Qed.

Lemma exec_locktime_instr cx l rest cond st :
  is_u16 l -> forallb id cond = true ->
  exec cx (Some (locktime_instr l) :: rest) cond st = exec cx rest cond (locktime_item l :: st).
Proof.
  unfold in_width, locktime_instr, locktime_item. change (2 ^ 16) with 65536. intros Hl Hc.
  destruct (Z.eqb_spec l 0); [cbn [exec]; by rewrite Hc|].
  destruct (Z.leb_spec l 16); [|cbn [exec]; by rewrite Hc].
  cbn [exec]. unfold OP_IF, OP_ELSE, OP_ENDIF.
  destruct (Z.eqb_spec (80 + l) 99), (Z.eqb_spec (80 + l) 103), (Z.eqb_spec (80 + l) 104); try lia.
  rewrite Hc. unfold step_opcode.
  destruct (Z.leb_spec 81 (80 + l)), (Z.leb_spec (80 + l) 96); try lia. cbn [andb].
  by replace (80 + l - 80) with l by lia.
Qed.

Lemma exec_skip_locktime_instr cx l rest cond st :
  is_u16 l -> forallb id cond = false ->
  exec cx (Some (locktime_instr l) :: rest) cond st = exec cx rest cond st.
Proof.
  unfold in_width, locktime_instr. change (2 ^ 16) with 65536. intros Hl Hc.
  destruct (Z.eqb_spec l 0); [cbn [exec]; by rewrite Hc|].
  destruct (Z.leb_spec l 16); [|cbn [exec]; by rewrite Hc].
  cbn [exec]. unfold OP_IF, OP_ELSE, OP_ENDIF.
  destruct (Z.eqb_spec (80 + l) 99), (Z.eqb_spec (80 + l) 103), (Z.eqb_spec (80 + l) 104); try lia.
  by rewrite Hc.
Qed.

Lemma contract_tail_instructions :
  instructions [104; 178; 117; 123; 136; 172] =
    map Some [Op 104; Op 178; Op 117; Op 123; Op 136; Op 172].
Proof.
  do 6 rewrite instructions_opcode by (apply plain_opcode; reflexivity).
  by rewrite instructions_nil.
Qed.

Lemma exec_push cx d rest cond st :
  forallb id cond = true ->
  exec cx (Some (PushBytes d) :: rest) cond st = exec cx rest cond (d :: st).
Proof. intros Hc. cbn [exec]. by rewrite Hc. Qed.

Lemma exec_push_skip cx d rest cond st :
  forallb id cond = false -> exec cx (Some (PushBytes d) :: rest) cond st = exec cx rest cond st.
Proof. intros Hc. cbn [exec]. by rewrite Hc. Qed.

Lemma exec_op cx op rest cond st :
  (op =? OP_IF) || (op =? OP_ELSE) || (op =? OP_ENDIF) = false -> forallb id cond = true ->
  exec cx (Some (Op op) :: rest) cond st =
    match step_opcode cx op st with Some st' => exec cx rest cond st' | None => None end.
Proof.
  intros [[H1 H2]%orb_false_iff H3]%orb_false_iff Hc. cbn [exec]. by rewrite H1, H2, H3, Hc.
Qed.

Lemma exec_if cx rest cond c st :
  forallb id cond = true ->
  exec cx (Some (Op OP_IF) :: rest) cond (c :: st) = exec cx rest (truthy c :: cond) st.
Proof. intros Hc. cbn [exec]. by rewrite Hc. Qed.

Lemma exec_else cx rest b cond st :
  exec cx (Some (Op OP_ELSE) :: rest) (b :: cond) st = exec cx rest (negb b :: cond) st.
Proof. done. Qed.

Lemma exec_endif cx rest b cond st :
  exec cx (Some (Op OP_ENDIF) :: rest) (b :: cond) st = exec cx rest cond st.
Proof. done. Qed.

(** Stack effects of the opcodes the scripts use, in script order. *)
Lemma step_size cx x st : step_opcode cx 130 (x :: st) = Some (script_int (zlen x) :: x :: st).
Proof. done. Qed.
Lemma step_swap cx a b st : step_opcode cx 124 (a :: b :: st) = Some (b :: a :: st).
Proof. done. Qed.
Lemma step_hash160 cx a st : step_opcode cx 169 (a :: st) = Some (hash160 a :: st).
Proof. done. Qed.
Lemma step_equal cx a b st :
  step_opcode cx 135 (a :: b :: st) = Some (bool_item (bool_decide (a = b)) :: st).
Proof. done. Qed.
Lemma step_csv cx a st :
  step_opcode cx 178 (a :: st) =
    if csv_ok (version (cx_tx cx)) (cx_sequence cx) (scriptnum a) then Some (a :: st) else None.
Proof. done. Qed.
Lemma step_drop cx a st : step_opcode cx 117 (a :: st) = Some st.
Proof. done. Qed.
Lemma step_rot cx a b c st : step_opcode cx 123 (c :: b :: a :: st) = Some (a :: c :: b :: st).
Proof. done. Qed.
Lemma step_equalverify cx a b st :
  step_opcode cx 136 (a :: b :: st) = if bool_decide (a = b) then Some st else None.
Proof. done. Qed.
Lemma step_checksig cx pk sig st :
  step_opcode cx 172 (pk :: sig :: st) = Some (bool_item (checksig cx sig pk) :: st).
Proof. done. Qed.

End spending.

(** Runs the straight-line part of a script. *)
Ltac run_script :=
  repeat first
    [ rewrite exec_push by reflexivity
    | rewrite exec_push_skip by reflexivity
    | rewrite exec_op by reflexivity;
      rewrite ?step_size, ?step_swap, ?step_hash160, ?step_equal, ?step_drop, ?step_rot,
        ?step_checksig
    | rewrite exec_if by reflexivity
    | rewrite exec_else
    | rewrite exec_endif ].

Section spends.
Context {lib : BitcoinLib} {laws : BitcoinLaws lib}.

(** The first half of the contract script: what the OP_IF sees. *)
Lemma contract_exec_prefix cx h rest preimage sig :
  exec cx (map Some [Op 130; Op 124; Op 169; PushBytes h; Op 135; Op 99] ++ rest) [] [preimage; sig] =
    exec cx rest [bool_decide (h = hash160 preimage)] [script_int (zlen preimage); sig].
Proof.
  cbn [map app]. change 99 with OP_IF. run_script.
  by destruct (bool_decide (h = hash160 preimage)).
Qed.

(** The second half, after OP_ENDIF. *)
Lemma contract_exec_suffix cx lock want key size sig :
  exec cx (map Some [Op 178; Op 117; Op 123; Op 136; Op 172]) [] [lock; want; key; size; sig] =
    if csv_ok (version (cx_tx cx)) (cx_sequence cx) (scriptnum lock) then
      if bool_decide (size = want) then Some [bool_item (checksig cx sig key)] else None
    else None.
Proof.
  cbn [map]. rewrite exec_op, step_csv by reflexivity.
  destruct (csv_ok _ _ _); [|done]. run_script. rewrite step_equalverify.
  case_bool_decide; [|done]. by run_script.
Qed.

(** One run of the contract script on a signature and a preimage. *)
Lemma contract_exec cx ph pt h l preimage sig :
  wf_pubkey ph -> sent_pubkey pt -> length h = 20%nat -> is_u16 l ->
  exec cx (instructions (create_contract_redeemscript ph pt h l)) [] [preimage; sig] =
    let hash_ok := bool_decide (h = hash160 preimage) in
    let key := if hash_ok then inner ph else key_bytes pt in
    let lock := if hash_ok then 0 else l in
    let want := if hash_ok then [32] else [] in
    if csv_ok (version (cx_tx cx)) (cx_sequence cx) lock then
      if bool_decide (script_int (zlen preimage) = want)
      then Some [bool_item (checksig cx sig key)] else None
    else None.
Proof.
  intros Hph Hpt Hh Hl. rewrite contract_instructions by done.
  rewrite instructions_locktime_push, contract_tail_instructions by done.
  change (map Some [Op 130; Op 124; Op 169; PushBytes h; Op 135; Op 99; PushBytes (inner ph);
                    PushBytes [32]; PushBytes []; Op 103; PushBytes (key_bytes pt); PushBytes []])
    with (map Some [Op 130; Op 124; Op 169; PushBytes h; Op 135; Op 99] ++
          map Some [PushBytes (inner ph); PushBytes [32]; PushBytes []; Op OP_ELSE;
                    PushBytes (key_bytes pt); PushBytes []]).
  rewrite <- app_assoc, contract_exec_prefix. cbv zeta. cbn [map app]. change 104 with OP_ENDIF.
  destruct (bool_decide (h = hash160 preimage)); run_script.
  - rewrite exec_skip_locktime_instr by done. rewrite exec_endif.
    by rewrite contract_exec_suffix.
  - rewrite exec_locktime_instr by done. rewrite exec_endif.
    by rewrite contract_exec_suffix, scriptnum_locktime.
Qed.

Definition pays_to (o : TxOut) (rs : Script) : Prop :=
  script_pubkey o = 0 :: 32 :: wscript_hash rs.

Lemma p2wsh_spendable_eq tx i rest items rs o :
  input tx = i :: rest -> witness i = items ++ [rs] -> pays_to o rs ->
  p2wsh_spendable tx o =
    match exec {| cx_tx := tx; cx_sequence := sequence i; cx_amount := value o; cx_script := rs |}
            (instructions rs) [] (rev items) with
    | Some [x] => truthy x
    | _ => false
    end.
Proof.
  intros Hi Hw Ho. unfold p2wsh_spendable. rewrite Hi, Hw, rev_app_distr. cbn [rev app].
  by rewrite bool_decide_eq_true_2.
Qed.

Lemma contract_spendable_iff
    (tx : Transaction) (i : TxIn) (rest : list TxIn) (o : TxOut) (sig preimage : bytes)
    (ph pt : PublicKey) (h : Hash160) (l : Z)
    (Hph : wf_pubkey ph) (Hpt : sent_pubkey pt) (Hh : length h = 20%nat) (Hl : is_u16 l)
    (Hin : input tx = i :: rest)
    (Hw : witness i = [sig; preimage; create_contract_redeemscript ph pt h l])
    (Ho : pays_to o (create_contract_redeemscript ph pt h l)) :
  let cx := {| cx_tx := tx; cx_sequence := sequence i; cx_amount := value o;
               cx_script := create_contract_redeemscript ph pt h l |} in
  p2wsh_spendable tx o = true <->
    (hash160 preimage = h /\ length preimage = 32%nat /\
       csv_ok (version tx) (sequence i) 0 = true /\ checksig cx sig (inner ph) = true) \/
    (hash160 preimage <> h /\ preimage = [] /\
       csv_ok (version tx) (sequence i) l = true /\ checksig cx sig (key_bytes pt) = true).
Proof.
  cbv zeta. rewrite (p2wsh_spendable_eq tx i rest [sig; preimage] (create_contract_redeemscript ph pt h l))
    by done.
  change (rev [sig; preimage]) with [preimage; sig].
  rewrite contract_exec by done. cbn [cx_tx cx_sequence cx_amount cx_script]. cbv zeta.
  pose proof (script_int_eq_32 (zlen preimage) (zlen_nonneg _)) as H32.
  pose proof (script_int_eq_nil (zlen preimage) (zlen_nonneg _)) as H0.
  assert (zlen preimage = 32 <-> length preimage = 32%nat) as L32 by (unfold zlen; lia).
  assert (zlen preimage = 0 <-> preimage = []) as L0.
  { unfold zlen. split; [|by intros ->]. intros Hz. apply nil_length_inv. lia. }
  assert (forall b, truthy (bool_item b) = b) as Ht by (by intros []).
  case_bool_decide as Hhash; (destruct (csv_ok _ _ _) eqn:Hc; [|naive_solver]);
    (case_bool_decide as Hs; [|naive_solver]); rewrite Ht; naive_solver.
Qed.

(** C1: the contract output is spendable with a signature and a second
    element in exactly two ways: with a 32-byte preimage of the hash value and
    the hashlock key's signature, where the relative lock is 0 blocks and so
    delays nothing; or with an empty element and the timelock key's signature,
    once the input's sequence satisfies the relative locktime.  The comments
    above the code want the hashlock case locked with 1 OP_CSV, against pinning;
    the code pushes 0, and that is what is proved here. *)
Theorem contract_output_spending_conditions
    (tx : Transaction) (i : TxIn) (rest : list TxIn) (o : TxOut) (sig preimage : bytes)
    (ph pt : PublicKey) (h : Hash160) (l : Z)
    (Hph : wf_pubkey ph) (Hpt : sent_pubkey pt) (Hh : length h = 20%nat) (Hl : is_u16 l)
    (Hin : input tx = i :: rest)
    (Hw : witness i = [sig; preimage; create_contract_redeemscript ph pt h l])
    (Ho : pays_to o (create_contract_redeemscript ph pt h l)) :
  let cx := {| cx_tx := tx; cx_sequence := sequence i; cx_amount := value o;
               cx_script := create_contract_redeemscript ph pt h l |} in
  p2wsh_spendable tx o = true <->
    (hash160 preimage = h /\ length preimage = 32%nat /\
       csv_ok (version tx) (sequence i) 0 = true /\ checksig cx sig (inner ph) = true) \/
    (hash160 preimage <> h /\ preimage = [] /\
       csv_ok (version tx) (sequence i) l = true /\ checksig cx sig (key_bytes pt) = true).
Proof. exact (contract_spendable_iff tx i rest o sig preimage ph pt h l Hph Hpt Hh Hl Hin Hw Ho). Qed.

(** A signature over the stripped transaction satisfies the checks on the
    transaction that carries it. *)
Lemma checksig_own cx d k :
  p2wsh_signature_hash (strip_witness (cx_tx cx)) 0 (cx_script cx) (cx_amount cx) SIGHASH_ALL = Some d ->
  checksig cx (sig_to_vec {| sig_bytes := ecdsa_sign d k; sighash_type := SIGHASH_ALL |})
    (point_from_secret_key k) = true.
Proof.
  intros Hd. unfold checksig, sig_to_vec. cbn [sig_bytes sighash_type].
  rewrite rev_app_distr. cbn [rev app]. rewrite sighash_ignores_witness, Hd, rev_involutive.
  apply ecdsa_sign_verify.
Qed.

Lemma csv_ok_zero seq : Z.testbit seq 31 = false -> Z.land seq (2 ^ 22) = 0 -> csv_ok 2 seq 0 = true.
Proof.
  intros H1 H2. unfold csv_ok. rewrite H1, H2. cbn.
  apply Z.leb_le, Z.land_nonneg. right. lia.
Qed.

Lemma hashlock_spend_accepted
    (signer : IncomingSwapCoin -> Transaction -> outcome WalletError Transaction)
    (c : IncomingSwapCoin) (o : TxOut) (outs : list TxOut) (preimage : Preimage)
    (pt : PublicKey) (l : Z) (out_value : Amount) (out_script : Script)
    (Hproto : isc_protocol c = Legacy) (Hcoop : isc_other_privkey c = None)
    (Hpre : isc_hash_preimage c = Some preimage) (Hlen : length preimage = 32%nat)
    (Hpt : sent_pubkey pt) (Hl : is_u16 l)
    (Hrs : isc_contract_redeemscript c =
           Some (create_contract_redeemscript (pubkey_of (isc_hashlock_privkey c)) pt (hash160 preimage) l))
    (Hout : output (isc_contract_tx c) = o :: outs)
    (Ho : pays_to o (create_contract_redeemscript (pubkey_of (isc_hashlock_privkey c)) pt
                       (hash160 preimage) l))
    (Hv : out_value < value o) :
  exists tx,
    sign_spend_transaction_with_output_value signer c (value o) out_value out_script = Ok tx /\
    map previous_output (input tx) = [{| op_txid := compute_txid (isc_contract_tx c); op_vout := 0 |}] /\
    output tx = [{| value := out_value; script_pubkey := out_script |}] /\
    p2wsh_spendable tx o = true.
Proof.
  assert (wf_pubkey (pubkey_of (isc_hashlock_privkey c))) as Hph
    by (split; [done|apply point_from_secret_key_valid]).
  unfold sign_spend_transaction_with_output_value.
  destruct (Z.leb_spec (value o) out_value); [lia|].
  rewrite Hproto, Hcoop. cbn [reject mbind outcome_bind].
  set (spend := {| version := 2 |}).
  unfold sign_legacy_spend. rewrite Hcoop, Hpre, Hrs, Hout. cbn [ok_or lookup list_lookup mbind outcome_bind].
  destruct (sighash_defined spend 0
              (create_contract_redeemscript (pubkey_of (isc_hashlock_privkey c)) pt (hash160 preimage) l)
              (value o) SIGHASH_ALL) as [d Hd]; [cbn; lia|]. rewrite Hd. cbn [ok_or mbind outcome_bind].
  unfold update_first_input, spend. cbn [input witness app].
  eexists. split; [done|]. split; [done|]. split; [done|].
  eapply (contract_spendable_iff _ _ [] o _ preimage _ pt (hash160 preimage) l
            Hph Hpt (hash160_length _) Hl); [reflexivity|reflexivity|exact Ho|].
  left. split; [done|]. split; [done|]. split; [by apply csv_ok_zero|].
  apply checksig_own. done.
Qed.

(** an incoming legacy swap coin that knows the preimage of its contract's
    hash value, and whose hashlock key the contract names, produces a spend of
    the contract output that the contract script accepts. *)
Lemma hashlock_spend_is_accepted
    (signer : IncomingSwapCoin -> Transaction -> outcome WalletError Transaction)
    (c : IncomingSwapCoin) (o : TxOut) (outs : list TxOut) (preimage : Preimage)
    (pt : PublicKey) (l : Z) (out_value : Amount) (out_script : Script)
    (Hproto : isc_protocol c = Legacy) (Hcoop : isc_other_privkey c = None)
    (Hpre : isc_hash_preimage c = Some preimage) (Hlen : length preimage = 32%nat)
    (Hpt : sent_pubkey pt) (Hl : is_u16 l)
    (Hrs : isc_contract_redeemscript c =
           Some (create_contract_redeemscript (pubkey_of (isc_hashlock_privkey c)) pt (hash160 preimage) l))
    (Hout : output (isc_contract_tx c) = o :: outs)
    (Ho : pays_to o (create_contract_redeemscript (pubkey_of (isc_hashlock_privkey c)) pt
                       (hash160 preimage) l))
    (Hv : out_value < value o) :
  exists tx,
    sign_spend_transaction_with_output_value signer c (value o) out_value out_script = Ok tx /\
    map previous_output (input tx) = [{| op_txid := compute_txid (isc_contract_tx c); op_vout := 0 |}] /\
    output tx = [{| value := out_value; script_pubkey := out_script |}] /\
    p2wsh_spendable tx o = true.
Proof.
  exact (hashlock_spend_accepted signer c o outs preimage pt l out_value out_script
           Hproto Hcoop Hpre Hlen Hpt Hl Hrs Hout Ho Hv).
Qed.

Lemma strip_witness_set tx i rest w :
  input tx = i :: rest ->
  strip_witness {| tx with input := {| i with witness := w |} :: rest |} = strip_witness tx.
Proof. intros Hin. unfold strip_witness. cbn. by rewrite Hin. Qed.

Lemma timelock_recovery_accepted_iff
    (c : OutgoingSwapCoin) (tx : Transaction) (i : TxIn) (rest : list TxIn)
    (o : TxOut) (outs : list TxOut) (ph : PublicKey) (h : Hash160) (l : Z)
    (Hproto : osc_protocol c = Legacy) (Hph : wf_pubkey ph) (Hl : is_u16 l)
    (Hh : length h = 20%nat) (Hne : hash160 [] <> h)
    (Hrs : osc_contract_redeemscript c =
           Some (create_contract_redeemscript ph (pubkey_of (osc_timelock_privkey c)) h l))
    (Hout : output (osc_contract_tx c) = o :: outs)
    (Ho : pays_to o (create_contract_redeemscript ph (pubkey_of (osc_timelock_privkey c)) h l))
    (Hin : input tx = i :: rest) :
  exists tx',
    sign_timelock_recovery_legacy c tx = Ok tx' /\
    output tx' = output tx /\
    (p2wsh_spendable tx' o = true <-> csv_ok (version tx) (sequence i) l = true).
Proof.
  assert (sent_pubkey (pubkey_of (osc_timelock_privkey c))) as Hpt by apply point_from_secret_key_valid.
  unfold sign_timelock_recovery_legacy, osc_get_contract_output_vout, contract_output_vout.
  rewrite Hproto, Hout, Hrs, bool_decide_eq_false_2 by done. cbn [andb]. change (Z.to_nat 0) with 0%nat.
  cbn [ok_or lookup list_lookup mbind outcome_bind].
  destruct (sighash_defined tx 0 (create_contract_redeemscript ph (pubkey_of (osc_timelock_privkey c)) h l)
              (value o) SIGHASH_ALL) as [d Hd]; [rewrite Hin; simpl; lia|].
  rewrite Hd. cbn [ok_or mbind outcome_bind]. rewrite Hin. eexists. split; [done|]. split; [done|].
  etransitivity; [eapply (contract_spendable_iff _ _ rest o _ [] ph _ h l Hph Hpt Hh Hl);
                  [reflexivity|reflexivity|exact Ho]|]. cbn [version sequence].
  assert (checksig {| cx_tx := {| tx with input := {| i with witness :=
              [sig_to_vec {| sig_bytes := ecdsa_sign d (osc_timelock_privkey c); sighash_type := SIGHASH_ALL |};
               []; create_contract_redeemscript ph (pubkey_of (osc_timelock_privkey c)) h l] |} :: rest |};
              cx_sequence := sequence i; cx_amount := value o;
              cx_script := create_contract_redeemscript ph (pubkey_of (osc_timelock_privkey c)) h l |}
            (sig_to_vec {| sig_bytes := ecdsa_sign d (osc_timelock_privkey c); sighash_type := SIGHASH_ALL |})
            (point_from_secret_key (osc_timelock_privkey c)) = true) as Hsig.
  { apply checksig_own. cbn [cx_tx cx_script cx_amount].
    rewrite (strip_witness_set tx i rest) by done. by rewrite <- sighash_ignores_witness. }
  naive_solver.
Qed.

(** an outgoing legacy swap coin recovers its contract output through the
    timelock branch with any version-2 transaction whose first input has
    reached the contract's relative locktime, and with none that has not. *)
Lemma timelock_recovery_is_accepted_iff
    (c : OutgoingSwapCoin) (tx : Transaction) (i : TxIn) (rest : list TxIn)
    (o : TxOut) (outs : list TxOut) (ph : PublicKey) (h : Hash160) (l : Z)
    (Hproto : osc_protocol c = Legacy) (Hph : wf_pubkey ph) (Hl : is_u16 l)
    (Hh : length h = 20%nat) (Hne : hash160 [] <> h)
    (Hrs : osc_contract_redeemscript c =
           Some (create_contract_redeemscript ph (pubkey_of (osc_timelock_privkey c)) h l))
    (Hout : output (osc_contract_tx c) = o :: outs)
    (Ho : pays_to o (create_contract_redeemscript ph (pubkey_of (osc_timelock_privkey c)) h l))
    (Hin : input tx = i :: rest) :
  exists tx',
    sign_timelock_recovery_legacy c tx = Ok tx' /\
    output tx' = output tx /\
    (p2wsh_spendable tx' o = true <-> csv_ok (version tx) (sequence i) l = true).
Proof.
  exact (timelock_recovery_accepted_iff c tx i rest o outs ph h l Hproto Hph Hl Hh Hne Hrs Hout Ho Hin).
Qed.

Lemma multisig_instructions k1 k2 :
  wf_pubkey k1 -> wf_pubkey k2 ->
  instructions (create_multisig_redeemscript k1 k2) =
    map Some [Op 82; PushBytes (inner (multisig_order k1 k2).1);
              PushBytes (inner (multisig_order k1 k2).2); Op 82; Op 174].
Proof.
  intros H1 H2. rewrite multisig_shape_order by done.
  destruct (multisig_order_wf k1 k2 H1 H2) as [Ha Hb].
  pose proof (wf_pubkey_length _ Ha) as La. pose proof (wf_pubkey_length _ Hb) as Lb.
  rewrite instructions_opcode by (apply plain_opcode; reflexivity).
  rewrite instructions_push_small by (unfold zlen; lia).
  rewrite instructions_push_small by (unfold zlen; lia).
  do 2 rewrite instructions_opcode by (apply plain_opcode; reflexivity).
  by rewrite instructions_nil.
Qed.

Lemma multisig_exec cx ka kb sa sb :
  checksig cx sa ka = true -> checksig cx sb kb = true ->
  exec cx (map Some [Op 82; PushBytes ka; PushBytes kb; Op 82; Op 174]) [] [sb; sa; []] =
    Some [bool_item true].
Proof.
  intros Ha Hb. cbn [map]. rewrite exec_op by reflexivity.
  change (step_opcode cx 82 [sb; sa; []]) with (Some [[2]; sb; sa; []]). cbv iota.
  rewrite !exec_push, exec_op by reflexivity.
  change (step_opcode cx 82 ?st) with (Some ([2] :: st)). cbv iota.
  rewrite exec_op by reflexivity.
  change (step_opcode cx 174 [[2]; kb; ka; [2]; sb; sa; []])
    with (Some [bool_item (multisig_match cx [sb; sa] [kb; ka])]).
  cbn [multisig_match]. by rewrite Hb, Ha.
Qed.

Lemma cooperative_spend_accepted
    (signer : IncomingSwapCoin -> Transaction -> outcome WalletError Transaction)
    (c : IncomingSwapCoin) (my other : SecretKey) (fund : TxIn) (ins : list TxIn)
    (o : TxOut) (out_value : Amount) (out_script : Script)
    (Hproto : isc_protocol c = Legacy)
    (Hmy : isc_my_privkey c = Some my) (Hmyp : isc_my_pubkey c = Some (pubkey_of my))
    (Hoth : isc_other_privkey c = Some other) (Hothp : isc_other_pubkey c = Some (pubkey_of other))
    (Hrs : isc_multisig_redeemscript c =
           Some (create_multisig_redeemscript (pubkey_of my) (pubkey_of other)))
    (Hfund : input (isc_contract_tx c) = fund :: ins)
    (Ho : pays_to o (create_multisig_redeemscript (pubkey_of my) (pubkey_of other)))
    (Hamt : isc_funding_amount c = value o)
    (Hv : out_value < value o) :
  exists tx,
    sign_spend_transaction_with_output_value signer c (value o) out_value out_script = Ok tx /\
    map previous_output (input tx) = [previous_output fund] /\
    p2wsh_spendable tx o = true.
Proof.
  assert (forall k, wf_pubkey (pubkey_of k)) as Hwf
    by (intros k; split; [done|apply point_from_secret_key_valid]).
  unfold sign_spend_transaction_with_output_value.
  destruct (Z.leb_spec (value o) out_value); [lia|].
  rewrite Hproto, Hoth, Hfund. cbn [reject mbind outcome_bind ok_or lookup list_lookup].
  set (spend := {| version := 2 |}). unfold sign_legacy_spend.
  rewrite Hoth, Hmy, Hmyp, Hothp, Hrs, Hamt. cbn [ok_or mbind outcome_bind].
  destruct (sighash_defined spend 0 (create_multisig_redeemscript (pubkey_of my) (pubkey_of other))
              (value o) SIGHASH_ALL) as [d Hd]; [cbn; lia|]. rewrite Hd. cbn [ok_or mbind outcome_bind].
  unfold update_first_input, spend. cbn [input].
  eexists. split; [done|].
  unfold apply_two_signatures_to_2of2_multisig_spend. cbn [inner pubkey_of].
  assert (multisig_order (pubkey_of my) (pubkey_of other) =
          if bytes_lt (point_from_secret_key my) (point_from_secret_key other)
          then (pubkey_of my, pubkey_of other) else (pubkey_of other, pubkey_of my)) as Hord by done.
  destruct (bytes_lt _ _); (split; [done|]).
  all: erewrite (p2wsh_spendable_eq _ _ [] [[]; _; _]); [|reflexivity|reflexivity|exact Ho].
  all: change (rev [[]; ?a; ?b]) with [b; a; []].
  all: rewrite multisig_instructions, Hord by done.
  all: rewrite multisig_exec; [done|apply checksig_own; exact Hd|apply checksig_own; exact Hd].
Qed.

(** once a legacy incoming swap coin has received the counterparty's
    private key, the cooperative spend it signs satisfies the 2-of-2 funding
    output, whichever of the two keys sorts first. *)
Lemma cooperative_spend_is_accepted
    (signer : IncomingSwapCoin -> Transaction -> outcome WalletError Transaction)
    (c : IncomingSwapCoin) (my other : SecretKey) (fund : TxIn) (ins : list TxIn)
    (o : TxOut) (out_value : Amount) (out_script : Script)
    (Hproto : isc_protocol c = Legacy)
    (Hmy : isc_my_privkey c = Some my) (Hmyp : isc_my_pubkey c = Some (pubkey_of my))
    (Hoth : isc_other_privkey c = Some other) (Hothp : isc_other_pubkey c = Some (pubkey_of other))
    (Hrs : isc_multisig_redeemscript c =
           Some (create_multisig_redeemscript (pubkey_of my) (pubkey_of other)))
    (Hfund : input (isc_contract_tx c) = fund :: ins)
    (Ho : pays_to o (create_multisig_redeemscript (pubkey_of my) (pubkey_of other)))
    (Hamt : isc_funding_amount c = value o)
    (Hv : out_value < value o) :
  exists tx,
    sign_spend_transaction_with_output_value signer c (value o) out_value out_script = Ok tx /\
    map previous_output (input tx) = [previous_output fund] /\
    p2wsh_spendable tx o = true.
Proof.
  exact (cooperative_spend_accepted signer c my other fund ins o out_value out_script
           Hproto Hmy Hmyp Hoth Hothp Hrs Hfund Ho Hamt Hv).
Qed.
End spends.

(** ** Witnesses *)
#[local] Existing Instance Reference.lib.
#[local] Existing Instance Reference.laws.

Definition ex_preimage : Preimage := replicate 32 7.
Definition ex_script (l : Z) : Script :=
  create_contract_redeemscript (pubkey_of 11) (pubkey_of 12) (hash160 ex_preimage) l.
Definition ex_out (rs : Script) : TxOut :=
  {| value := 5000; script_pubkey := 0 :: 32 :: wscript_hash rs |}.
Definition ex_txin (seq : Z) (w : list bytes) : TxIn :=
  {| previous_output := sample_outpoint; script_sig := []; sequence := seq; witness := w |}.
Definition ex_tx (i : TxIn) (os : list TxOut) : Transaction :=
  {| version := 2; lock_time := 0; input := [i]; output := os |}.
Definition ex_incoming : IncomingSwapCoin :=
  isc_set_preimage
    (isc_new_legacy 21 (pubkey_of 22) (ex_tx (ex_txin 0 []) [ex_out (ex_script 60)]) (ex_script 60) 11
       5000) ex_preimage.
Definition ex_outgoing : OutgoingSwapCoin :=
  osc_new_legacy 21 (pubkey_of 22) (ex_tx (ex_txin 0 []) [ex_out (ex_script 60)]) (ex_script 60) 12 5000.
Definition no_taproot (c : IncomingSwapCoin) (tx : Transaction) : outcome WalletError Transaction :=
  Err (WE_General "no taproot signer").

Ltac concrete :=
  first [ match goal with |- sent_pubkey _ => vm_compute; reflexivity end
        | reflexivity | split; reflexivity | unfold in_width; lia | cbn [value ex_out]; lia
        | intros Habs; vm_compute in Habs; discriminate Habs ].

(** A spend that presents the empty element but no valid signature. *)
Lemma contract_output_spending_conditions_witness :
  p2wsh_spendable (ex_tx (ex_txin 60 [[1]; []; ex_script 60]) []) (ex_out (ex_script 60)) = false.
Proof.
  apply not_true_iff_false. intros Hs.
  destruct (contract_output_spending_conditions (ex_tx (ex_txin 60 [[1]; []; ex_script 60]) [])
           (ex_txin 60 [[1]; []; ex_script 60]) [] (ex_out (ex_script 60)) [1] []
           (pubkey_of 11) (pubkey_of 12) (hash160 ex_preimage) 60) as [Hiff _]; [concrete..|].
  destruct (Hiff Hs) as [(_ & H & _)|(_ & _ & _ & H)]; [discriminate H|]. vm_compute in H. discriminate H.
Defined.

Lemma hashlock_spend_is_accepted_witness :
  exists tx,
    sign_spend_transaction_with_output_value no_taproot ex_incoming 5000 4700 [7] = Ok tx /\
    p2wsh_spendable tx (ex_out (ex_script 60)) = true.
Proof.
  destruct (hashlock_spend_is_accepted no_taproot ex_incoming (ex_out (ex_script 60)) [] ex_preimage
              (pubkey_of 12) 60 4700 [7]) as (tx & H1 & _ & _ & H2); [concrete..|].
  exists tx. split; [exact H1|exact H2].
Defined.

Lemma timelock_recovery_is_accepted_iff_witness :
  exists tx,
    sign_timelock_recovery_legacy ex_outgoing (ex_tx (ex_txin 60 []) []) = Ok tx /\
    p2wsh_spendable tx (ex_out (ex_script 60)) = true.
Proof.
  destruct (timelock_recovery_is_accepted_iff ex_outgoing (ex_tx (ex_txin 60 []) []) (ex_txin 60 [])
              [] (ex_out (ex_script 60)) [] (pubkey_of 11) (hash160 ex_preimage) 60)
    as (tx & H1 & _ & H2); [concrete..|].
  exists tx. split; [exact H1|]. apply H2. reflexivity.
Defined.

Definition ex_multisig : Script := create_multisig_redeemscript (pubkey_of 21) (pubkey_of 22).

Lemma cooperative_spend_is_accepted_witness :
  exists tx,
    sign_spend_transaction_with_output_value no_taproot (isc_set_other_privkey ex_incoming 22) 5000 4700 [7]
      = Ok tx /\
    p2wsh_spendable tx (ex_out ex_multisig) = true.
Proof.
  destruct (cooperative_spend_is_accepted no_taproot (isc_set_other_privkey ex_incoming 22) 21 22
              (ex_txin 0 []) [] (ex_out ex_multisig) 4700 [7]) as (tx & H1 & _ & H2); [concrete..|].
  exists tx. split; [exact H1|exact H2].
Defined.
