(* ===== verification/TaprootLib.v ===== *)
(** The taproot and MuSig2 parts of the [bitcoin] and [secp256k1] crates.

    As in [Bitcoin], the crates' functions are the fields of a class
    ([TaprootLib]), their documented behaviour the fields of another
    ([TaprootLaws]), and [TapReference] is an executable instance for which the
    laws hold.  The data that the crates keep opaque (the tree builder, the key
    aggregation cache, a signing session) is represented by what went into it. *)
From S2P Require Import Prelude Bitcoin Messages.

Abbreviation Scalar := (list Z).

(** [TaprootSpendInfo]: what its accessors return, and the scripts of its leaves. *)
Record TaprootSpendInfo := {
  tsi_internal_key : XOnlyPublicKey;
  tsi_merkle_root : option Z;
  tsi_output_key : XOnlyPublicKey;
  tsi_tap_tweak : Scalar;
  tsi_leaves : list Script;
}.

(** [TaprootBuilder]: the leaves added so far, with their depths. *)
Abbreviation TaprootBuilder := (list (Z * Script)).

(** [KeyAggCache]: the keys in the order given and the tweaks applied. *)
Record KeyAggCache := { kac_keys : list Point; kac_tweaks : list Scalar }.
Record Session := { ses_cache : KeyAggCache; ses_nonce : bytes; ses_msg : Z }.

(** [TapSighashType]. *)
Definition TAP_SIGHASH_DEFAULT : Z := 0.
Definition TAP_SIGHASH_ALL : Z := 1.
(** Locktimes below this are block heights. *)
Definition LOCK_TIME_THRESHOLD : Z := 500000000.

Class TaprootLib := {
  x_only_public_key : Point -> XOnlyPublicKey;
  xonly_from_slice : bytes -> option XOnlyPublicKey;
  push_x_only_key : XOnlyPublicKey -> Script -> Script;
  push_lock_time : Z -> Script -> Script;
  lock_time_from_height : Z -> option Z;
  scalar_from_be_bytes : bytes -> option Scalar;
  (* the script tree *)
  add_leaf : Z -> Script -> TaprootBuilder -> option TaprootBuilder;
  finalize : XOnlyPublicKey -> TaprootBuilder -> option TaprootSpendInfo;
  control_block : TaprootSpendInfo -> Script -> option bytes;
  verify_taproot_commitment : bytes -> XOnlyPublicKey -> Script -> bool;
  new_p2tr : XOnlyPublicKey -> option Z -> Script;
  new_p2tr_tweaked : XOnlyPublicKey -> Script;
  (* Schnorr signatures and BIP341 digests *)
  sign_schnorr : Z -> SecretKey -> bytes;
  verify_schnorr : Z -> bytes -> XOnlyPublicKey -> bool;
  tap_leaf_hash : Script -> Z;
  taproot_key_spend_signature_hash : Transaction -> nat -> list TxOut -> Z -> option Z;
  taproot_script_spend_signature_hash : Transaction -> nat -> list TxOut -> Z -> Z -> option Z;
  (* MuSig2 *)
  agg_pk : KeyAggCache -> XOnlyPublicKey;
  pubkey_xonly_tweak_add : Scalar -> KeyAggCache -> option KeyAggCache;
  new_nonce_pair : Z -> Point -> bytes * bytes;
  aggregated_nonce : list bytes -> bytes;
  partial_sign : Session -> bytes -> SecretKey -> bytes;
  partial_sig_agg : Session -> list bytes -> bytes;
}.

(** [KeyAggCache::new]. *)
Definition KeyAggCache_new (pubkeys : list Point) : KeyAggCache := {| kac_keys := pubkeys; kac_tweaks := [] |}.

(** The tree with two leaves of depth 1 that every contract uses. *)
Definition two_leaf_tree `{TaprootLib} (h t : Script) (ik : XOnlyPublicKey) : option TaprootSpendInfo :=
  b ← add_leaf 1 h [];
  b ← add_leaf 1 t b;
  finalize ik b.

Class TaprootLaws (lib : BitcoinLib) (tap : TaprootLib) : Prop := {
  x_only_length p : valid_point p = true -> length (x_only_public_key p) = 32%nat;
  xonly_from_slice_x_only p :
    valid_point p = true -> xonly_from_slice (x_only_public_key p) = Some (x_only_public_key p);
  xonly_from_slice_Some bs k : xonly_from_slice bs = Some k -> k = bs /\ length bs = 32%nat;
  push_x_only_key_spec k s : push_x_only_key k s = push_slice k s;
  push_lock_time_spec n s : push_lock_time n s = push_int n s;
  lock_time_from_height_spec n :
    lock_time_from_height n = if n <? LOCK_TIME_THRESHOLD then Some n else None;
  scalar_from_be_bytes_Some bs t : scalar_from_be_bytes bs = Some t -> t = bs;
  (* two leaves of depth 1 make a complete tree *)
  add_leaf_first h : add_leaf 1 h [] = Some [(1, h)];
  add_leaf_second h t : add_leaf 1 t [(1, h)] = Some [(1, h); (1, t)];
  finalize_two h t ik : exists info,
    finalize ik [(1, h); (1, t)] = Some info /\ tsi_internal_key info = ik /\
    new_p2tr ik (tsi_merkle_root info) = new_p2tr_tweaked (tsi_output_key info) /\
    scalar_from_be_bytes (tsi_tap_tweak info) = Some (tsi_tap_tweak info) /\
    length (tsi_tap_tweak info) = 32%nat /\
    forall s, s = h \/ s = t -> exists cb,
      control_block info s = Some cb /\ verify_taproot_commitment cb (tsi_output_key info) s = true;
  output_key_length h t ik info :
    finalize ik [(1, h); (1, t)] = Some info -> length (tsi_output_key info) = 32%nat;
  (* OP_1 and a 32-byte push *)
  new_p2tr_tweaked_spec k : length k = 32%nat -> new_p2tr_tweaked k = 81 :: 32 :: k;
  sign_schnorr_length d k : length (sign_schnorr d k) = 64%nat;
  sign_schnorr_verify d k :
    verify_schnorr d (sign_schnorr d k) (x_only_public_key (point_from_secret_key k)) = true;
  (* BIP341 commits to no witness, and needs one spent output per input *)
  key_sighash_ignores_witness tx i prev ty :
    taproot_key_spend_signature_hash tx i prev ty =
      taproot_key_spend_signature_hash (strip_witness tx) i prev ty;
  key_sighash_defined tx i prev ty :
    (i < length (input tx))%nat -> length prev = length (input tx) ->
    is_Some (taproot_key_spend_signature_hash tx i prev ty);
  script_sighash_ignores_witness tx i prev leaf ty :
    taproot_script_spend_signature_hash tx i prev leaf ty =
      taproot_script_spend_signature_hash (strip_witness tx) i prev leaf ty;
  script_sighash_defined tx i prev leaf ty :
    (i < length (input tx))%nat -> length prev = length (input tx) ->
    is_Some (taproot_script_spend_signature_hash tx i prev leaf ty);
  (* MuSig2: aggregation, tweaking and a complete two-party session *)
  agg_pk_valid keys : xonly_from_slice (agg_pk (KeyAggCache_new keys)) = Some (agg_pk (KeyAggCache_new keys));
  tweaked_agg_pk keys h t info :
    finalize (agg_pk (KeyAggCache_new keys)) [(1, h); (1, t)] = Some info ->
    exists cache, pubkey_xonly_tweak_add (tsi_tap_tweak info) (KeyAggCache_new keys) = Some cache /\
      agg_pk cache = tsi_output_key info;
  two_party_session k1 k2 tweak cache r1 r2 m :
    let p1 := point_from_secret_key k1 in
    let p2 := point_from_secret_key k2 in
    pubkey_xonly_tweak_add tweak (KeyAggCache_new [p1; p2]) = Some cache ->
    let n1 := new_nonce_pair r1 p1 in
    let n2 := new_nonce_pair r2 p2 in
    let session := {| ses_cache := cache; ses_nonce := aggregated_nonce [n1.2; n2.2]; ses_msg := m |} in
    let sig := partial_sig_agg session [partial_sign session n1.1 k1; partial_sign session n2.1 k2] in
    verify_schnorr m sig (agg_pk cache) = true /\ length sig = 64%nat;
}.

Lemma two_leaf_tree_eq `{TaprootLaws} h t ik : two_leaf_tree h t ik = finalize ik [(1, h); (1, t)].
Proof. unfold two_leaf_tree. rewrite add_leaf_first. cbn. by rewrite add_leaf_second. Qed.

(** ** A reference instance *)
Module TapReference.
Import Reference.

Definition leaf (s : Script) : Z := mix (10 :: s).
Definition branch (a b : Z) : Z := mix [9; Z.min a b; Z.max a b].
Definition tweak_of (ik : XOnlyPublicKey) (root : Z) : Scalar := le_fixed 32 (mix (8 :: root :: ik)).
Definition tweaked (ik : XOnlyPublicKey) (t : Scalar) : XOnlyPublicKey := le_fixed 32 (mix (7 :: ik ++ t)).

Definition is_xonly (bs : bytes) : bool :=
  (length bs =? 32)%nat && forallb (fun b => (0 <=? b) && (b <? 256)) bs.

Definition aggregate (keys : list Point) : XOnlyPublicKey := le_fixed 32 (mix (6 :: concat keys)).
Definition cache_key (c : KeyAggCache) : XOnlyPublicKey := fold_left tweaked (kac_tweaks c) (aggregate (kac_keys c)).

Definition schnorr (d : Z) (key : XOnlyPublicKey) : bytes := le_fixed 32 d ++ key.

#[export] Instance tap : TaprootLib := {|
  x_only_public_key p := tail p;
  xonly_from_slice bs := if is_xonly bs then Some bs else None;
  push_x_only_key k s := push_slice k s;
  push_lock_time n s := push_int n s;
  lock_time_from_height n := if n <? LOCK_TIME_THRESHOLD then Some n else None;
  scalar_from_be_bytes bs := if is_xonly bs then Some bs else None;
  add_leaf d s b := if (length b <? 2)%nat then Some (b ++ [(d, s)]) else None;
  finalize ik b :=
    match b with
    | [(1, h); (1, t)] =>
        let root := branch (leaf h) (leaf t) in
        Some {| tsi_internal_key := ik; tsi_merkle_root := Some root;
                tsi_output_key := tweaked ik (tweak_of ik root); tsi_tap_tweak := tweak_of ik root;
                tsi_leaves := [h; t] |}
    | _ => None
    end;
  control_block info s :=
    match tsi_leaves info with
    | [h; t] =>
        if bool_decide (s = h) then Some (leaf t :: tsi_internal_key info)
        else if bool_decide (s = t) then Some (leaf h :: tsi_internal_key info) else None
    | _ => None
    end;
  verify_taproot_commitment cb key s :=
    match cb with
    | sibling :: ik =>
        bool_decide (key = tweaked ik (tweak_of ik (branch (leaf s) sibling)))
    | [] => false
    end;
  new_p2tr ik root :=
    81 :: 32 :: match root with Some r => tweaked ik (tweak_of ik r) | None => tweaked ik [] end;
  new_p2tr_tweaked k := 81 :: 32 :: k;
  sign_schnorr d k := schnorr d (tail (point_from_secret_key k));
  verify_schnorr d s key := bool_decide (s = schnorr d key);
  tap_leaf_hash := leaf;
  taproot_key_spend_signature_hash tx i prev ty :=
    if (i <? length (input tx))%nat && (length prev =? length (input tx))%nat
    then Some (mix (11 :: ty :: Z.of_nat i :: tx_bytes tx ++
                    flat_map (fun o => value o :: zlen (script_pubkey o) :: script_pubkey o) prev)) else None;
  taproot_script_spend_signature_hash tx i prev l ty :=
    if (i <? length (input tx))%nat && (length prev =? length (input tx))%nat
    then Some (mix (12 :: ty :: l :: Z.of_nat i :: tx_bytes tx ++
                    flat_map (fun o => value o :: zlen (script_pubkey o) :: script_pubkey o) prev)) else None;
  agg_pk := cache_key;
  pubkey_xonly_tweak_add t c := Some {| c with kac_tweaks := kac_tweaks c ++ [t] |};
  new_nonce_pair r p := (r :: p, mix [13; r] :: p);
  aggregated_nonce ns := concat ns;
  partial_sign ses _ k := ses_msg ses :: point_from_secret_key k;
  partial_sig_agg ses sigs :=
    if bool_decide (sigs = map (fun p => ses_msg ses :: p) (kac_keys (ses_cache ses)))
    then schnorr (ses_msg ses) (cache_key (ses_cache ses)) else replicate 64 0;
|}.

Lemma branch_comm a b : branch a b = branch b a.
Proof. unfold branch. by rewrite Z.min_comm, Z.max_comm. Qed.

Lemma is_xonly_fixed z : is_xonly (le_fixed 32 z) = true.
Proof. unfold is_xonly. by rewrite le_fixed_length, le_fixed_bytes. Qed.

Lemma point_x_only p : Reference.valid_point p = true -> is_xonly (tail p) = true.
Proof.
  destruct p as [|h t]; cbn [Reference.valid_point tail]; [done|]. intros Hv. to_prop. unfold is_xonly.
  apply andb_true_iff. split; [|done]. apply Nat.eqb_eq. lia.
Qed.

Lemma cache_key_length c : length (cache_key c) = 32%nat.
Proof.
  unfold cache_key. assert (length (aggregate (kac_keys c)) = 32%nat) as H by apply le_fixed_length.
  revert H. generalize (aggregate (kac_keys c)). induction (kac_tweaks c) as [|t ts IH]; intros k Hk; [done|].
  cbn [fold_left]. apply IH. apply le_fixed_length.
Qed.

#[export] Instance tap_laws : TaprootLaws lib tap.
Proof.
  constructor;
    cbv delta [Bitcoin.valid_point Bitcoin.point_from_secret_key Bitcoin.push_slice Bitcoin.push_int
      x_only_public_key xonly_from_slice push_x_only_key push_lock_time lock_time_from_height scalar_from_be_bytes
      add_leaf finalize control_block verify_taproot_commitment new_p2tr new_p2tr_tweaked sign_schnorr
      verify_schnorr taproot_key_spend_signature_hash taproot_script_spend_signature_hash agg_pk
      pubkey_xonly_tweak_add new_nonce_pair aggregated_nonce partial_sign partial_sig_agg tap lib];
    cbv beta iota.
  - intros p Hp%point_x_only. unfold is_xonly in Hp. to_prop. done.
  - intros p Hp%point_x_only. by rewrite Hp.
  - intros bs k. destruct (is_xonly bs) eqn:E; [|done]. intros [= <-]. unfold is_xonly in E. to_prop. done.
  - done.
  - done.
  - done.
  - intros bs t. case_match; [|done]. by intros [= <-].
  - done.
  - done.
  - intros h t ik. eexists. split; [done|]. cbn [tsi_internal_key tsi_merkle_root tsi_output_key tsi_tap_tweak tsi_leaves].
    split; [done|]. split; [done|]. split; [unfold tweak_of; by rewrite is_xonly_fixed|].
    split; [apply le_fixed_length|].
    intros s [->| ->].
    + rewrite bool_decide_eq_true_2 by done. eexists. split; [done|]. by apply bool_decide_eq_true_2.
    + case_bool_decide as E.
      { subst. eexists. split; [done|]. by apply bool_decide_eq_true_2. }
      rewrite bool_decide_eq_true_2 by done. eexists. split; [done|]. apply bool_decide_eq_true_2.
      by rewrite (branch_comm (leaf t)).
  - intros h t ik info [= <-]. apply le_fixed_length.
  - done.
  - intros d k. unfold schnorr. rewrite length_app, le_fixed_length. cbn [Reference.point_from_secret_key tail].
    by rewrite le_fixed_length.
  - intros d k. by apply bool_decide_eq_true_2.
  - intros tx i prev ty. rewrite tx_bytes_strip. unfold strip_witness. cbn [input]. by rewrite length_map.
  - intros tx i prev ty Hi Hp. rewrite Hp, Nat.eqb_refl.
    by destruct (Nat.ltb_spec i (length (input tx))); [|lia].
  - intros tx i prev l ty. rewrite tx_bytes_strip. unfold strip_witness. cbn [input]. by rewrite length_map.
  - intros tx i prev l ty Hi Hp. rewrite Hp, Nat.eqb_refl.
    by destruct (Nat.ltb_spec i (length (input tx))); [|lia].
  - intros keys. unfold cache_key. cbn [kac_tweaks kac_keys KeyAggCache_new fold_left]. unfold aggregate.
    by rewrite is_xonly_fixed.
  - intros keys h t info [= <-]. eexists. split; [done|]. done.
  - intros k1 k2 tweak cache r1 r2 m p1 p2 [= <-] n1 n2 session sig.
    subst sig session n1 n2 p1 p2. cbn [fst snd ses_msg ses_cache kac_keys KeyAggCache_new map].
    generalize [m :: Reference.point_from_secret_key k1; m :: Reference.point_from_secret_key k2]. intros sigs.
    rewrite (bool_decide_eq_true_2 (sigs = sigs)) by done. split; [by apply bool_decide_eq_true_2|].
    unfold schnorr. by rewrite length_app, le_fixed_length, cache_key_length.
Qed.
End TapReference.
