(* ===== verification/Taproot.v ===== *)
(** The taproot contract: src/protocol/contract2.rs, musig2.rs,
    musig_interface.rs, the scalar of taproot_messages.rs, and the taproot
    spends of src/wallet/swapcoin.rs.

    The program uses two versions of the secp256k1 crate; a value moves between
    them through its serialised bytes, which is the identity on the
    representation used here, with the parse as a check.  The randomness of a
    nonce is an argument. *)
From S2P Require Import Prelude Float64 Bitcoin Messages Contract Errors SwapCoin TaprootLib.
#[local] Open Scope string_scope.
#[local] Open Scope list_scope.
#[local] Open Scope Z_scope.

Section taproot.
Context {lib : BitcoinLib} {tap : TaprootLib}.

(** ** Scalars of messages *)
Definition scalar_try_from (bs : bytes) : outcome ProtocolError Scalar :=
  _ ← reject (negb (length bs =? 32)%nat) (PE_General "invalid scalar length");
  ok_or (scalar_from_be_bytes bs) (PE_General "invalid scalar value: out of range").

Definition tap_tweak_scalar (data : TaprootContractData) (i : nat) : outcome ProtocolError Scalar :=
  t ← expect (tcd_tap_tweaks data !! i);
  scalar_try_from t.

(** ** Scripts *)
Definition create_hashlock_script (hash : bytes) (pubkey : XOnlyPublicKey) : Script :=
  push_opcode OP_CHECKSIG (push_x_only_key pubkey (push_opcode OP_EQUALVERIFY
    (push_slice hash (push_opcode OP_SHA256 [])))).

Definition extract_hash_from_hashlock (script : Script) : outcome ProtocolError bytes :=
  let instrs := instructions script in
  _ ← reject (length instrs <? 5)%nat (PE_General "Invalid hashlock script format");
  match instrs !! 1%nat with
  | Some (Some (PushBytes hash_bytes)) =>
      if (length hash_bytes =? 32)%nat then Ok hash_bytes
      else Err (PE_General "Failed to extract hash from hashlock script")
  | _ => Err (PE_General "Failed to extract hash from hashlock script")
  end.

Definition check_taproot_hashlock_has_pubkey (hashlock_script : Script) (tweakable_point : PublicKey)
    (nonce : SecretKey) : outcome ProtocolError () :=
  expected ← calculate_pubkey_from_nonce tweakable_point nonce;
  let expected_xonly := x_only_public_key (inner expected) in
  let mismatch := Err (PE_General "Taproot hashlock pubkey doesn't match nonce-derived key") in
  match instructions hashlock_script !! 3%nat with
  | Some (Some (PushBytes pk_bytes)) =>
      match xonly_from_slice pk_bytes with
      | Some script_xonly => if bool_decide (script_xonly = expected_xonly) then Ok () else mismatch
      | None => mismatch
      end
  | _ => mismatch
  end.

Definition create_timelock_script (locktime : Z) (pubkey : XOnlyPublicKey) : Script :=
  push_opcode OP_CHECKSIG (push_x_only_key pubkey (push_opcode OP_DROP (push_opcode OP_CLTV
    (push_lock_time locktime [])))).

Definition create_taproot_script (hashlock_script timelock_script : Script) (internal_pubkey : XOnlyPublicKey)
    : outcome ProtocolError (Script * TaprootSpendInfo) :=
  b ← ok_or (add_leaf 1 hashlock_script []) PE_TaprootScript;
  b ← ok_or (add_leaf 1 timelock_script b) PE_TaprootScript;
  info ← ok_or (finalize internal_pubkey b) PE_TaprootBuilder;
  Ok (new_p2tr (tsi_internal_key info) (tsi_merkle_root info), info).

Definition calculate_contract_sighash (spending_tx : Transaction) (contract_amount : Amount)
    (hashlock_script timelock_script : Script) (internal_key : XOnlyPublicKey) : outcome ProtocolError Z :=
  '(contract_script, _) ← create_taproot_script hashlock_script timelock_script internal_key;
  let prevout := {| value := contract_amount; script_pubkey := contract_script |} in
  ok_or (taproot_key_spend_signature_hash spending_tx 0 [prevout] TAP_SIGHASH_DEFAULT) PE_TaprootSighash.

(** ** MuSig2 *)

(** [sort_by_key] of two keys: a stable sort. *)
Definition sort2 {A} (key : A -> bytes) (a b : A) : A * A :=
  if bytes_lt (key b) (key a) then (b, a) else (a, b).

Definition get_aggregated_pubkey (pubkey1 pubkey2 : Point) : XOnlyPublicKey :=
  let '(a, b) := sort2 id pubkey1 pubkey2 in
  agg_pk (KeyAggCache_new [a; b]).

Definition btc_pubkey_to_secp (pk : Point) : outcome ProtocolError Point :=
  if valid_point pk then Ok pk else Err PE_TaprootSecp.
Definition btc_scalar_to_secp (s : Scalar) : outcome ProtocolError Scalar :=
  ok_or (scalar_from_be_bytes s) PE_ScalarOutOfRange.

Definition get_aggregated_pubkey_compat (pubkey1 pubkey2 : Point) : outcome ProtocolError XOnlyPublicKey :=
  pubkey1 ← btc_pubkey_to_secp pubkey1;
  pubkey2 ← btc_pubkey_to_secp pubkey2;
  ok_or (xonly_from_slice (get_aggregated_pubkey pubkey1 pubkey2)) PE_Secp.

Definition generate_new_nonce_pair_compat (r : Z) (nonce_pubkey : Point) : outcome ProtocolError (bytes * bytes) :=
  nonce_pubkey ← btc_pubkey_to_secp nonce_pubkey;
  Ok (new_nonce_pair r nonce_pubkey).

Definition generate_partial_signature (message : Z) (agg_nonce sec_nonce : bytes) (keypair : SecretKey)
    (tap_tweak : Scalar) (pubkeys : list Point) : outcome ProtocolError bytes :=
  cache ← ok_or (pubkey_xonly_tweak_add tap_tweak (KeyAggCache_new pubkeys)) PE_MusigTweak;
  let session := {| ses_cache := cache; ses_nonce := agg_nonce; ses_msg := message |} in
  Ok (partial_sign session sec_nonce keypair).

Definition aggregate_partial_signatures (message : Z) (agg_nonce : bytes) (tap_tweak : Scalar)
    (partial_sigs : list bytes) (pubkeys : list Point) : outcome ProtocolError bytes :=
  cache ← ok_or (pubkey_xonly_tweak_add tap_tweak (KeyAggCache_new pubkeys)) PE_MusigTweak;
  let session := {| ses_cache := cache; ses_nonce := agg_nonce; ses_msg := message |} in
  Ok (partial_sig_agg session partial_sigs).

Definition generate_partial_signature_compat (message : Z) (agg_nonce sec_nonce : bytes) (keypair : SecretKey)
    (tap_tweak : Scalar) (pubkey1 pubkey2 : Point) : outcome ProtocolError bytes :=
  tap_tweak ← btc_scalar_to_secp tap_tweak;
  pubkey1 ← btc_pubkey_to_secp pubkey1;
  pubkey2 ← btc_pubkey_to_secp pubkey2;
  generate_partial_signature message agg_nonce sec_nonce keypair tap_tweak [pubkey1; pubkey2].

Definition aggregate_partial_signatures_compat (message : Z) (agg_nonce : bytes) (tap_tweak : Scalar)
    (partial_sigs : list bytes) (pubkey1 pubkey2 : Point) : outcome ProtocolError bytes :=
  tap_tweak ← btc_scalar_to_secp tap_tweak;
  pubkey1 ← btc_pubkey_to_secp pubkey1;
  pubkey2 ← btc_pubkey_to_secp pubkey2;
  aggregate_partial_signatures message agg_nonce tap_tweak partial_sigs [pubkey1; pubkey2].

(** ** Spending a taproot contract *)

(** [taproot::Signature::to_vec] and [from_slice]: the default sighash type is
    not written. *)
Definition tap_sig_to_vec (sig : bytes) (ty : Z) : bytes :=
  if ty =? TAP_SIGHASH_DEFAULT then sig else sig ++ [ty].
Definition tap_sig_from_slice (bs : bytes) : option (bytes * Z) :=
  if (length bs =? 64)%nat then Some (bs, TAP_SIGHASH_DEFAULT)
  else if (length bs =? 65)%nat then
    match bs !! 64%nat with
    | Some ty => Some (take 64 bs, ty)
    | None => None
    end
  else None.

(** Replaces the witness of input 0; the caller has computed a digest for it, so
    the input exists. *)
Definition set_witness (w : list bytes) (tx : Transaction) : Transaction :=
  update_first_input (fun i => {| i with witness := w |}) tx.

Definition sign_taproot_hashlock (c : IncomingSwapCoin) (preimage : Preimage) (spend_tx : Transaction)
    : outcome WalletError Transaction :=
  hashlock_script ← ok_or (isc_hashlock_script c) (WE_General "Missing hashlock_script for taproot hashlock spend");
  timelock_script ← ok_or (isc_timelock_script c) (WE_General "Missing timelock_script for taproot hashlock spend");
  internal_key ← ok_or (isc_internal_key c) (WE_General "Missing internal_key for taproot hashlock spend");
  '(_, taproot_spendinfo) ← map_err WE_Protocol (create_taproot_script hashlock_script timelock_script internal_key);
  cb ← ok_or (control_block taproot_spendinfo hashlock_script)
         (WE_General "Failed to get control block for hashlock script");
  o ← expect (output (isc_contract_tx c) !! Z.to_nat (isc_get_contract_output_vout c));
  let contract_output := {| value := isc_funding_amount c; script_pubkey := script_pubkey o |} in
  sighash ← ok_or (taproot_script_spend_signature_hash spend_tx 0 [contract_output]
                     (tap_leaf_hash hashlock_script) TAP_SIGHASH_ALL) (WE_General "Sighash error: {:?}");
  let signature := sign_schnorr sighash (isc_hashlock_privkey c) in
  Ok (set_witness [tap_sig_to_vec signature TAP_SIGHASH_ALL; preimage; hashlock_script; cb] spend_tx).

(** The cooperative key-path spend; [r1] and [r2] are the randomness of the two
    nonces. *)
Definition sign_taproot_cooperative (r1 r2 : Z) (c : IncomingSwapCoin) (other_privkey : SecretKey)
    (spend_tx : Transaction) : outcome WalletError Transaction :=
  my_privkey ← ok_or (isc_my_privkey c) (WE_General "Missing my_privkey");
  let my_public_key := point_from_secret_key my_privkey in
  let other_public_key := point_from_secret_key other_privkey in
  tap_tweak ← ok_or (isc_tap_tweak c) (WE_General "Missing tap_tweak");
  internal_key ← ok_or (isc_internal_key c) (WE_General "Missing internal_key");
  hashlock_script ← ok_or (isc_hashlock_script c) (WE_General "Missing hashlock_script");
  timelock_script ← ok_or (isc_timelock_script c) (WE_General "Missing timelock_script");
  '(my_sec_nonce, my_pub_nonce) ← map_err (fun _ => WE_General "Failed to generate my nonce pair: {:?}")
      (generate_new_nonce_pair_compat r1 my_public_key);
  '(other_sec_nonce, other_pub_nonce) ← map_err (fun _ => WE_General "Failed to generate other nonce pair: {:?}")
      (generate_new_nonce_pair_compat r2 other_public_key);
  message ← map_err (fun _ => WE_General "Failed to calculate sighash: {:?}")
      (calculate_contract_sighash spend_tx (isc_funding_amount c) hashlock_script timelock_script internal_key);
  let '(key0, key1) := sort2 id my_public_key other_public_key in
  let mine_first := bool_decide (key0 = my_public_key) in
  let aggregated_nonce :=
    aggregated_nonce (if mine_first then [my_pub_nonce; other_pub_nonce] else [other_pub_nonce; my_pub_nonce]) in
  my_partial_sig ← map_err (fun _ => WE_General "Failed to generate my partial sig: {:?}")
      (generate_partial_signature_compat message aggregated_nonce my_sec_nonce my_privkey tap_tweak key0 key1);
  other_partial_sig ← map_err (fun _ => WE_General "Failed to generate other partial sig: {:?}")
      (generate_partial_signature_compat message aggregated_nonce other_sec_nonce other_privkey tap_tweak key0 key1);
  let partial_sigs :=
    if mine_first then [my_partial_sig; other_partial_sig] else [other_partial_sig; my_partial_sig] in
  aggregated_sig ← map_err (fun _ => WE_General "Failed to aggregate signatures: {:?}")
      (aggregate_partial_signatures_compat message aggregated_nonce tap_tweak partial_sigs key0 key1);
  '(sig, ty) ← ok_or (tap_sig_from_slice aggregated_sig) (WE_General "Invalid taproot signature: {:?}");
  _ ← ok_or (input spend_tx !! 0%nat) (WE_General "Failed to access witness");
  Ok (set_witness [tap_sig_to_vec sig ty] spend_tx).

Definition sign_taproot_spend (r1 r2 : Z) (c : IncomingSwapCoin) (spend_tx : Transaction)
    : outcome WalletError Transaction :=
  match isc_other_privkey c with
  | None =>
      match isc_hash_preimage c with
      | Some preimage => sign_taproot_hashlock c preimage spend_tx
      | None => Err (WE_General "Cannot spend: need other_privkey for cooperative spend or preimage for hashlock")
      end
  | Some other_privkey => sign_taproot_cooperative r1 r2 c other_privkey spend_tx
  end.

(** The taproot branch of [sign_timelock_recovery]. *)
Definition sign_timelock_recovery_taproot (c : OutgoingSwapCoin) (tx : Transaction)
    : outcome WalletError Transaction :=
  contract_output ← ok_or (output (osc_contract_tx c) !! Z.to_nat (osc_get_contract_output_vout c))
                      (WE_General "No output in contract tx");
  timelock_script ← ok_or (osc_timelock_script c) (WE_General "No timelock script for Taproot swapcoin");
  internal_key ← ok_or (osc_internal_key c) (WE_General "No internal key for Taproot swapcoin");
  _ ← ok_or (osc_tap_tweak c) (WE_General "No tap tweak for Taproot swapcoin");
  hashlock_script ← ok_or (osc_hashlock_script c) (WE_General "No hashlock script for Taproot swapcoin");
  sighash ← ok_or (taproot_script_spend_signature_hash tx 0 [contract_output]
                     (tap_leaf_hash timelock_script) TAP_SIGHASH_DEFAULT) (WE_General "Sighash error: {:?}");
  let sig := sign_schnorr sighash (osc_timelock_privkey c) in
  b ← ok_or (add_leaf 1 hashlock_script []) (WE_General "TaprootBuilder error: {:?}");
  b ← ok_or (add_leaf 1 timelock_script b) (WE_General "TaprootBuilder error: {:?}");
  spend_info ← ok_or (finalize internal_key b) (WE_General "Failed to finalize TaprootBuilder");
  cb ← ok_or (control_block spend_info timelock_script)
         (WE_General "Failed to get control block for timelock script");
  _ ← expect (input tx !! 0%nat);
  Ok (set_witness [tap_sig_to_vec sig TAP_SIGHASH_DEFAULT; timelock_script; cb] tx).

Definition sign_timelock_recovery (c : OutgoingSwapCoin) (tx : Transaction) : outcome WalletError Transaction :=
  match osc_protocol c with
  | Taproot => sign_timelock_recovery_taproot c tx
  | Legacy => sign_timelock_recovery_legacy c tx
  end.
End taproot.
