(* ===== verification/TapScript.v ===== *)
(** What the taproot contract means when it is spent.

    A specification of BIP341/BIP342 spends for the opcodes the two leaf scripts
    use (a key-path signature, or a script with its control block), against
    which the spends that src/wallet/swapcoin.rs signs are judged.  The annex,
    which the program never writes, is left out. *)
From S2P Require Import Prelude Float64 Bitcoin Messages Contract Errors SwapCoin ScriptEval TaprootLib Taproot.
#[local] Open Scope string_scope.
#[local] Open Scope list_scope.
#[local] Open Scope Z_scope.

(** OP_CHECKLOCKTIMEVERIFY: the transaction's locktime is of the same kind as
    the operand and not below it, and the input is not final. *)
Definition cltv_ok (tx_lock_time seq n : Z) : bool :=
  (0 <=? n) && Bool.eqb (n <? LOCK_TIME_THRESHOLD) (tx_lock_time <? LOCK_TIME_THRESHOLD)
  && (n <=? tx_lock_time) && negb (seq =? 4294967295).

Record TapCtx := { tcx_tx : Transaction; tcx_sequence : Z; tcx_prevout : TxOut; tcx_script : Script }.

Section eval.
Context {lib : BitcoinLib} {tap : TaprootLib}.

Definition tap_checksig (cx : TapCtx) (sig pk : bytes) : bool :=
  match tap_sig_from_slice sig with
  | Some (s, ty) =>
      match taproot_script_spend_signature_hash (tcx_tx cx) 0 [tcx_prevout cx] (tap_leaf_hash (tcx_script cx)) ty with
      | Some digest => verify_schnorr digest s pk
      | None => false
      end
  | None => false
  end.

Definition tap_step (cx : TapCtx) (op : Z) (st : list bytes) : option (list bytes) :=
  if (81 <=? op) && (op <=? 96) then Some ([op - 80] :: st)
  else if op =? OP_DROP then
    match st with _ :: r => Some r | _ => None end
  else if op =? OP_SHA256 then
    match st with a :: r => Some (sha256 a :: r) | _ => None end
  else if op =? OP_EQUALVERIFY then
    match st with a :: b :: r => if bool_decide (a = b) then Some r else None | _ => None end
  else if op =? OP_CLTV then
    match st with
    | a :: _ => if cltv_ok (lock_time (tcx_tx cx)) (tcx_sequence cx) (scriptnum a) then Some st else None
    | _ => None
    end
  else if op =? OP_CHECKSIG then
    match st with pk :: sig :: r => Some (bool_item (tap_checksig cx sig pk) :: r) | _ => None end
  else None.

Fixpoint tap_exec (cx : TapCtx) (instrs : list (option Instruction)) (st : list bytes) : option (list bytes) :=
  match instrs with
  | [] => Some st
  | None :: _ => None
  | Some (PushBytes d) :: rest => tap_exec cx rest (d :: st)
  | Some (Op op) :: rest =>
      match tap_step cx op st with
      | Some st' => tap_exec cx rest st'
      | None => None
      end
  end.

(** A spend of a P2TR output by a transaction with one input. *)
Definition p2tr_spendable (tx : Transaction) (prevout : TxOut) : bool :=
  match input tx, script_pubkey prevout with
  | [i], 81 :: 32 :: key =>
      match rev (witness i) with
      | [] => false
      | [sig] =>
          match tap_sig_from_slice sig with
          | Some (s, ty) =>
              match taproot_key_spend_signature_hash tx 0 [prevout] ty with
              | Some digest => verify_schnorr digest s key
              | None => false
              end
          | None => false
          end
      | cb :: script :: items =>
          let cx := {| tcx_tx := tx; tcx_sequence := sequence i; tcx_prevout := prevout; tcx_script := script |} in
          verify_taproot_commitment cb key script &&
          match tap_exec cx (instructions script) items with
          | Some [x] => truthy x
          | _ => false
          end
      end
  | _, _ => false
  end.

(** The shapes of the two leaves, as the verifiers read them. *)
Definition hashlock_leaf (script : Script) (hash pk : bytes) : Prop :=
  instructions script =
    map Some [Op OP_SHA256; PushBytes hash; Op OP_EQUALVERIFY; PushBytes pk; Op OP_CHECKSIG].
Definition timelock_leaf (script : Script) (first : Instruction) (pk : bytes) : Prop :=
  instructions script = map Some [first; Op OP_CLTV; Op OP_DROP; PushBytes pk; Op OP_CHECKSIG].

(** The contract output of a tree with these two leaves and this internal key. *)
Definition contract_output (hs ts : Script) (ik : XOnlyPublicKey) (info : TaprootSpendInfo) (o : TxOut) : Prop :=
  two_leaf_tree hs ts ik = Some info /\ script_pubkey o = new_p2tr_tweaked (tsi_output_key info).
End eval.

Section spends.
Context {lib : BitcoinLib} {laws : BitcoinLaws lib} {tap : TaprootLib} {tlaws : TaprootLaws lib tap}.

Lemma hashlock_script_leaf hash pk :
  length hash = 32%nat -> length pk = 32%nat -> hashlock_leaf (create_hashlock_script hash pk) hash pk.
Proof.
  intros Hh Hp. unfold hashlock_leaf, create_hashlock_script.
  rewrite push_x_only_key_spec, !push_opcode_spec.
  rewrite (push_slice_spec hash) by lia. rewrite (push_slice_spec pk) by lia.
  rewrite <- ?app_assoc. cbn [app]. rewrite <- ?app_assoc. cbn [app].
  rewrite instructions_opcode by (apply plain_opcode; reflexivity).
  rewrite (instructions_push_small _ hash) by (done || lia).
  rewrite instructions_opcode by (apply plain_opcode; reflexivity).
  rewrite (instructions_push_small _ pk) by (done || lia).
  rewrite instructions_opcode by (apply plain_opcode; reflexivity). by rewrite instructions_nil.
Qed.

(** What is left on the stack by the hashlock leaf. *)
Lemma hashlock_exec cx hash pk preimage sig :
  tap_exec cx (map Some [Op OP_SHA256; PushBytes hash; Op OP_EQUALVERIFY; PushBytes pk; Op OP_CHECKSIG])
    [preimage; sig] =
  if bool_decide (hash = sha256 preimage) then Some [bool_item (tap_checksig cx sig pk)] else None.
Proof.
  cbn [map tap_exec]. change (tap_step cx OP_SHA256 [preimage; sig]) with (Some [sha256 preimage; sig]). cbv iota.
  change (tap_step cx OP_EQUALVERIFY [hash; sha256 preimage; sig])
    with (if bool_decide (hash = sha256 preimage) then Some [sig] else None).
  by case_bool_decide.
Qed.

(** The operand the first instruction of the timelock leaf leaves. *)
Definition locktime_operand (first : Instruction) : option bytes :=
  match first with
  | PushBytes d => Some d
  | Op op => if (81 <=? op) && (op <=? 96) then Some [op - 80] else None
  end.

Lemma exec_operand cx first d rest st :
  locktime_operand first = Some d -> tap_exec cx (Some first :: rest) st = tap_exec cx rest (d :: st).
Proof.
  destruct first as [d'|op]; cbn [locktime_operand]; [by intros [= ->]|]. intros Hd. cbn [tap_exec]. unfold tap_step.
  destruct ((81 <=? op) && (op <=? 96)); [by injection Hd as ->|done].
Qed.

Lemma timelock_exec cx first d pk sig :
  locktime_operand first = Some d ->
  tap_exec cx (map Some [first; Op OP_CLTV; Op OP_DROP; PushBytes pk; Op OP_CHECKSIG]) [sig] =
  if cltv_ok (lock_time (tcx_tx cx)) (tcx_sequence cx) (scriptnum d)
  then Some [bool_item (tap_checksig cx sig pk)] else None.
Proof.
  intros Hd. cbn [map]. rewrite (exec_operand _ _ d) by done.
  cbn [tap_exec].
  change (tap_step cx OP_CLTV [d; sig])
    with (if cltv_ok (lock_time (tcx_tx cx)) (tcx_sequence cx) (scriptnum d) then Some [d; sig] else None).
  by destruct (cltv_ok _ _ _).
Qed.

Lemma tree_facts hs ts ik info :
  two_leaf_tree hs ts ik = Some info ->
  tsi_internal_key info = ik /\
  new_p2tr ik (tsi_merkle_root info) = new_p2tr_tweaked (tsi_output_key info) /\
  length (tsi_output_key info) = 32%nat /\
  scalar_from_be_bytes (tsi_tap_tweak info) = Some (tsi_tap_tweak info) /\ length (tsi_tap_tweak info) = 32%nat /\
  forall s, s = hs \/ s = ts -> exists cb,
    control_block info s = Some cb /\ verify_taproot_commitment cb (tsi_output_key info) s = true.
Proof.
  rewrite two_leaf_tree_eq. intros Hf. destruct (finalize_two hs ts ik) as (info' & Hf' & H1 & H2 & H3 & H4 & H5).
  rewrite Hf in Hf'. injection Hf' as <-. pose proof (output_key_length _ _ _ _ Hf). eauto 10.
Qed.

Lemma two_leaf_tree_total hs ts ik : exists info, two_leaf_tree hs ts ik = Some info.
Proof. rewrite two_leaf_tree_eq. destruct (finalize_two hs ts ik) as (info & H & _). eauto. Qed.

Lemma create_taproot_script_Ok hs ts ik info :
  two_leaf_tree hs ts ik = Some info ->
  create_taproot_script hs ts ik = Ok (new_p2tr_tweaked (tsi_output_key info), info).
Proof.
  intros Hf. destruct (tree_facts _ _ _ _ Hf) as (Hik & Hp & _). rewrite two_leaf_tree_eq in Hf.
  unfold create_taproot_script. rewrite add_leaf_first. cbn. rewrite add_leaf_second. cbn. rewrite Hf. cbn.
  by rewrite Hik, Hp.
Qed.

Lemma strip_set_witness w tx : strip_witness (set_witness w tx) = strip_witness tx.
Proof. unfold set_witness, update_first_input, strip_witness. by destruct (input tx) as [|i l] eqn:E; cbn; rewrite ?E. Qed.

Lemma key_sighash_set_witness w tx i prev ty :
  taproot_key_spend_signature_hash (set_witness w tx) i prev ty = taproot_key_spend_signature_hash tx i prev ty.
Proof.
  rewrite (key_sighash_ignores_witness (set_witness w tx)), (key_sighash_ignores_witness tx).
  by rewrite strip_set_witness.
Qed.
Lemma script_sighash_set_witness w tx i prev l ty :
  taproot_script_spend_signature_hash (set_witness w tx) i prev l ty =
    taproot_script_spend_signature_hash tx i prev l ty.
Proof.
  rewrite (script_sighash_ignores_witness (set_witness w tx)), (script_sighash_ignores_witness tx).
  by rewrite strip_set_witness.
Qed.

Lemma tap_sig_roundtrip sig ty :
  length sig = 64%nat -> tap_sig_from_slice (tap_sig_to_vec sig ty) = Some (sig, ty).
Proof.
  intros Hl. unfold tap_sig_from_slice, tap_sig_to_vec. destruct (Z.eqb_spec ty TAP_SIGHASH_DEFAULT) as [->|].
  { by rewrite Hl. }
  rewrite length_app, Hl. cbn [length Nat.add Nat.eqb]. rewrite lookup_app_r by lia. rewrite Hl. cbn.
  by rewrite take_app_length' by done.
Qed.

(** One input with a new witness, spending an output of the tree. *)
Lemma script_spend_accepted tx i hs ts ik info o script cb items :
  input tx = [i] -> contract_output hs ts ik info o -> (script = hs \/ script = ts) ->
  control_block info script = Some cb ->
  (exists x, tap_exec {| tcx_tx := set_witness (rev items ++ [script; cb]) tx; tcx_sequence := sequence i;
                         tcx_prevout := o; tcx_script := script |} (instructions script) items = Some [x] /\
             truthy x = true) ->
  p2tr_spendable (set_witness (rev items ++ [script; cb]) tx) o = true.
Proof.
  intros Hi [Ht Hspk] Hs Hcb (x & Hx & Htr). pose proof (tree_facts _ _ _ _ Ht) as (_ & _ & Hl & _ & _ & Hcbs).
  destruct (Hcbs _ Hs) as (cb' & Hcb' & Hv). rewrite Hcb in Hcb'. injection Hcb' as <-.
  unfold p2tr_spendable. rewrite Hspk, new_p2tr_tweaked_spec by done.
  assert (input (set_witness (rev items ++ [script; cb]) tx) = [{| i with witness := rev items ++ [script; cb] |}])
    as -> by (unfold set_witness, update_first_input; by rewrite Hi).
  cbn [witness sequence]. rewrite rev_app_distr, rev_involutive. cbn [rev app].
  rewrite Hv, Hx. cbn. done.
Qed.

(** The hashlock spend of a coin whose script and key fit its contract output
    is accepted. *)
Lemma hashlock_accepted c preimage hs ts ik info o tx i :
  isc_hashlock_script c = Some hs -> isc_timelock_script c = Some ts -> isc_internal_key c = Some ik ->
  contract_output hs ts ik info o ->
  output (isc_contract_tx c) !! Z.to_nat (isc_get_contract_output_vout c) = Some o ->
  value o = isc_funding_amount c ->
  hashlock_leaf hs (sha256 preimage) (x_only_public_key (point_from_secret_key (isc_hashlock_privkey c))) ->
  input tx = [i] ->
  exists tx', sign_taproot_hashlock c preimage tx = Ok tx' /\ p2tr_spendable tx' o = true /\
    strip_witness tx' = strip_witness tx.
Proof.
  intros Ehs Ets Eik Ho Hout Hval Hleaf Hi. pose proof Ho as [Ht _].
  pose proof (tree_facts _ _ _ _ Ht) as (_ & _ & _ & _ & _ & Hcbs).
  destruct (Hcbs hs (or_introl eq_refl)) as (cb & Hcb & _).
  unfold sign_taproot_hashlock. rewrite Ehs, Ets, Eik. cbn [ok_or mbind outcome_bind].
  rewrite (create_taproot_script_Ok _ _ _ _ Ht). cbn [map_err mbind outcome_bind].
  rewrite Hcb. cbn [ok_or mbind outcome_bind]. rewrite Hout. cbn [expect mbind outcome_bind].
  assert ({| value := isc_funding_amount c; script_pubkey := script_pubkey o |} = o) as ->
    by (rewrite <- Hval; by destruct o).
  destruct (script_sighash_defined tx 0 [o] (tap_leaf_hash hs) TAP_SIGHASH_ALL) as [d Hd];
    [rewrite Hi; cbn; lia|by rewrite Hi|].
  rewrite Hd. cbn [ok_or mbind outcome_bind]. eexists. split; [done|]. split; [|apply strip_set_witness].
  set (sig := sign_schnorr d (isc_hashlock_privkey c)).
  apply (script_spend_accepted tx i hs ts ik info o hs cb [preimage; tap_sig_to_vec sig TAP_SIGHASH_ALL]);
    [done|done|by left|done|].
  exists (bool_item true). split; [|done]. rewrite Hleaf, hashlock_exec, bool_decide_eq_true_2 by done.
  do 3 f_equal. unfold tap_checksig. cbn [tcx_tx tcx_prevout tcx_script].
  rewrite tap_sig_roundtrip by apply sign_schnorr_length. rewrite script_sighash_set_witness, Hd.
  apply sign_schnorr_verify.
Qed.

(** The timelock spend is accepted once the transaction's locktime has reached
    the operand of the script. *)
Lemma timelock_accepted c hs ts ik info o tx i first d :
  osc_hashlock_script c = Some hs -> osc_timelock_script c = Some ts -> osc_internal_key c = Some ik ->
  osc_tap_tweak c <> None -> contract_output hs ts ik info o ->
  output (osc_contract_tx c) !! Z.to_nat (osc_get_contract_output_vout c) = Some o ->
  timelock_leaf ts first (x_only_public_key (point_from_secret_key (osc_timelock_privkey c))) ->
  locktime_operand first = Some d -> input tx = [i] ->
  cltv_ok (lock_time tx) (sequence i) (scriptnum d) = true ->
  exists tx', sign_timelock_recovery_taproot c tx = Ok tx' /\ p2tr_spendable tx' o = true /\
    strip_witness tx' = strip_witness tx.
Proof.
  intros Ehs Ets Eik Etw Ho Hout Hleaf Hop Hi Hlock. pose proof Ho as [Ht _].
  pose proof (tree_facts _ _ _ _ Ht) as (_ & _ & _ & _ & _ & Hcbs).
  destruct (Hcbs ts (or_intror eq_refl)) as (cb & Hcb & _).
  unfold sign_timelock_recovery_taproot. rewrite Hout, Ehs, Ets, Eik. cbn [ok_or mbind outcome_bind].
  destruct (osc_tap_tweak c) as [tw|]; [|done]. cbn [ok_or mbind outcome_bind].
  destruct (script_sighash_defined tx 0 [o] (tap_leaf_hash ts) TAP_SIGHASH_DEFAULT) as [dg Hd];
    [rewrite Hi; cbn; lia|by rewrite Hi|].
  rewrite Hd. cbn [ok_or mbind outcome_bind]. rewrite add_leaf_first. cbn [ok_or mbind outcome_bind].
  rewrite add_leaf_second. cbn [ok_or mbind outcome_bind]. rewrite two_leaf_tree_eq in Ht. rewrite Ht.
  cbn [ok_or mbind outcome_bind]. rewrite Hcb. cbn [ok_or mbind outcome_bind]. rewrite Hi. cbn [lookup list_lookup expect mbind outcome_bind].
  eexists. split; [done|]. split; [|apply strip_set_witness].
  set (sig := sign_schnorr dg (osc_timelock_privkey c)).
  apply (script_spend_accepted tx i hs ts ik info o ts cb [tap_sig_to_vec sig TAP_SIGHASH_DEFAULT]);
    [done|done|by right|done|].
  exists (bool_item true). split; [|done]. rewrite Hleaf, (timelock_exec _ _ d) by done.
  cbn [tcx_tx tcx_sequence].
  assert (forall w, lock_time (set_witness w tx) = lock_time tx) as ->
    by (intros w; unfold set_witness, update_first_input; by rewrite Hi).
  rewrite Hlock. do 3 f_equal. unfold tap_checksig. cbn [tcx_tx tcx_prevout tcx_script].
  rewrite tap_sig_roundtrip by apply sign_schnorr_length. rewrite script_sighash_set_witness, Hd.
  apply sign_schnorr_verify.
Qed.

(** ** The key path *)
Lemma sort2_comm (a b : bytes) : length a = length b -> sort2 id a b = sort2 id b a.
Proof.
  intros Hl. unfold sort2, id. destruct (bytes_lt b a) eqn:E1, (bytes_lt a b) eqn:E2; try done.
  - apply bytes_lt_asym in E1. congruence.
  - destruct (decide (a = b)) as [->|Hne]; [done|]. apply bytes_lt_total in E2; congruence.
Qed.

Lemma get_aggregated_pubkey_compat_Ok p q :
  valid_point p = true -> valid_point q = true ->
  get_aggregated_pubkey_compat p q = Ok (let '(a, b) := sort2 id p q in agg_pk (KeyAggCache_new [a; b])).
Proof.
  intros Hp Hq. unfold get_aggregated_pubkey_compat, btc_pubkey_to_secp, get_aggregated_pubkey. rewrite Hp, Hq.
  cbn [mbind outcome_bind]. destruct (sort2 id p q) as [a b]. by rewrite agg_pk_valid.
Qed.

(** The two-party session of the program, whoever's key sorts first, gives a
    signature under the tweaked aggregate. *)
Lemma session_signs k1 k2 tweak cache r1 r2 m :
  scalar_from_be_bytes tweak = Some tweak ->
  pubkey_xonly_tweak_add tweak (KeyAggCache_new [point_from_secret_key k1; point_from_secret_key k2]) = Some cache ->
  let n1 := new_nonce_pair r1 (point_from_secret_key k1) in
  let n2 := new_nonce_pair r2 (point_from_secret_key k2) in
  let agg := aggregated_nonce [n1.2; n2.2] in
  exists s1 s2 sig,
    generate_partial_signature_compat m agg n1.1 k1 tweak (point_from_secret_key k1) (point_from_secret_key k2) = Ok s1 /\
    generate_partial_signature_compat m agg n2.1 k2 tweak (point_from_secret_key k1) (point_from_secret_key k2) = Ok s2 /\
    aggregate_partial_signatures_compat m agg tweak [s1; s2] (point_from_secret_key k1) (point_from_secret_key k2) = Ok sig /\
    verify_schnorr m sig (agg_pk cache) = true /\ length sig = 64%nat.
Proof.
  intros Hs Hc n1 n2 agg.
  pose proof (two_party_session k1 k2 tweak cache r1 r2 m Hc) as [Hv Hl].
  unfold generate_partial_signature_compat, aggregate_partial_signatures_compat, btc_scalar_to_secp, btc_pubkey_to_secp,
    generate_partial_signature, aggregate_partial_signatures.
  rewrite Hs, !point_from_secret_key_valid. cbn [ok_or mbind outcome_bind]. rewrite Hc. cbn [ok_or mbind outcome_bind].
  do 3 eexists. do 3 (split; [done|]). done.
Qed.

Lemma cooperative_accepted r1 r2 c k k' hs ts ik info o tx i :
  isc_hashlock_script c = Some hs -> isc_timelock_script c = Some ts -> isc_internal_key c = Some ik ->
  isc_tap_tweak c = Some (tsi_tap_tweak info) -> isc_my_privkey c = Some k ->
  get_aggregated_pubkey_compat (point_from_secret_key k) (point_from_secret_key k') = Ok ik ->
  contract_output hs ts ik info o -> value o = isc_funding_amount c -> input tx = [i] ->
  exists tx', sign_taproot_cooperative r1 r2 c k' tx = Ok tx' /\ p2tr_spendable tx' o = true /\
    strip_witness tx' = strip_witness tx.
Proof.
  intros Ehs Ets Eik Etw Ek Hagg [Ht Hspk] Hval Hi.
  pose proof (tree_facts _ _ _ _ Ht) as (_ & _ & Hl & Hsc & _ & _).
  rewrite get_aggregated_pubkey_compat_Ok in Hagg by apply point_from_secret_key_valid.
  unfold sign_taproot_cooperative. rewrite Ehs, Ets, Eik, Etw, Ek. cbn [ok_or mbind outcome_bind].
  unfold generate_new_nonce_pair_compat, btc_pubkey_to_secp. rewrite !point_from_secret_key_valid.
  cbn [map_err mbind outcome_bind].
  destruct (new_nonce_pair r1 (point_from_secret_key k)) as [s1 n1] eqn:E1.
  destruct (new_nonce_pair r2 (point_from_secret_key k')) as [s2 n2] eqn:E2.
  unfold calculate_contract_sighash. rewrite (create_taproot_script_Ok _ _ _ _ Ht). cbn [mbind outcome_bind].
  assert ({| value := isc_funding_amount c; script_pubkey := new_p2tr_tweaked (tsi_output_key info) |} = o) as ->
    by (rewrite <- Hval, <- Hspk; by destruct o).
  destruct (key_sighash_defined tx 0 [o] TAP_SIGHASH_DEFAULT) as [m Hm]; [rewrite Hi; cbn; lia|by rewrite Hi|].
  rewrite Hm. cbn [ok_or map_err mbind outcome_bind].
  assert (forall sig, verify_schnorr m sig (tsi_output_key info) = true -> length sig = 64%nat ->
            p2tr_spendable (set_witness [tap_sig_to_vec sig TAP_SIGHASH_DEFAULT] tx) o = true) as Hdone.
  { intros sig Hv Hsl. unfold p2tr_spendable. rewrite Hspk, new_p2tr_tweaked_spec by done.
    assert (forall w, input (set_witness w tx) = [{| i with witness := w |}]) as ->
      by (intros w; unfold set_witness, update_first_input; by rewrite Hi).
    cbn [witness rev app]. rewrite tap_sig_roundtrip by done. by rewrite key_sighash_set_witness, Hm. }
  assert (forall ka kb ra rb, sort2 id (point_from_secret_key k) (point_from_secret_key k') =
            (point_from_secret_key ka, point_from_secret_key kb) ->
          let na := new_nonce_pair ra (point_from_secret_key ka) in
          let nb := new_nonce_pair rb (point_from_secret_key kb) in
          let agg := aggregated_nonce [na.2; nb.2] in
          exists p q sig,
            generate_partial_signature_compat m agg na.1 ka (tsi_tap_tweak info) (point_from_secret_key ka) (point_from_secret_key kb) = Ok p /\
            generate_partial_signature_compat m agg nb.1 kb (tsi_tap_tweak info) (point_from_secret_key ka) (point_from_secret_key kb) = Ok q /\
            aggregate_partial_signatures_compat m agg (tsi_tap_tweak info) [p; q] (point_from_secret_key ka) (point_from_secret_key kb) = Ok sig /\
            verify_schnorr m sig (tsi_output_key info) = true /\ length sig = 64%nat) as Hsession.
  { intros ka kb ra rb Hs. rewrite Hs in Hagg. injection Hagg as <-. rewrite two_leaf_tree_eq in Ht.
    destruct (tweaked_agg_pk _ _ _ _ Ht) as (cache & Hc & Hk). rewrite <- Hk. by apply session_signs. }
  destruct (sort2 id (point_from_secret_key k) (point_from_secret_key k')) as [key0 key1] eqn:Es.
  assert ((key0 = point_from_secret_key k /\ key1 = point_from_secret_key k') \/
          (key0 = point_from_secret_key k' /\ key1 = point_from_secret_key k /\ key0 <> point_from_secret_key k))
    as [[-> ->]|(-> & -> & Hne)].
  { unfold sort2, id in Es. destruct (bytes_lt (point_from_secret_key k') (point_from_secret_key k)) eqn:Elt;
      injection Es as <- <-; [|by left]. right. split; [done|]. split; [done|].
    intros Heq. rewrite Heq, bytes_lt_irrefl in Elt. done. }
  - rewrite (bool_decide_eq_true_2 (point_from_secret_key k = _)) by done.
    destruct (Hsession k k' r1 r2 eq_refl) as (p & q & sig & H1 & H2 & H3 & Hv & Hsl).
    rewrite E1, E2 in H1, H2, H3. cbn [fst snd] in *. rewrite H1. cbn [map_err mbind outcome_bind].
    rewrite H2. cbn [map_err mbind outcome_bind]. rewrite H3. cbn [map_err mbind outcome_bind].
    unfold tap_sig_from_slice. rewrite Hsl, Hi. cbn.
    eexists. split; [done|]. split; [by apply Hdone|apply strip_set_witness].
  - rewrite (bool_decide_eq_false_2 (point_from_secret_key k' = _)) by done.
    destruct (Hsession k' k r2 r1 eq_refl) as (p & q & sig & H1 & H2 & H3 & Hv & Hsl).
    rewrite E1, E2 in H1, H2, H3. cbn [fst snd] in *. rewrite H2. cbn [map_err mbind outcome_bind].
    rewrite H1. cbn [map_err mbind outcome_bind]. rewrite H3. cbn [map_err mbind outcome_bind].
    unfold tap_sig_from_slice. rewrite Hsl, Hi. cbn.
    eexists. split; [done|]. split; [by apply Hdone|apply strip_set_witness].
Qed.
End spends.
