(* ===== verification/TakerTracker.v ===== *)
(** The taker's swap tracker: src/taker/swap_tracker.rs.

    The tracker is a hash map of swap records mirrored to one CBOR file.
    [flush] writes a temporary file and renames it over the original; the file
    system is the record [Disk] and may refuse any of the four steps.  A
    [HashMap] is a [gmap]; the order in which it is iterated is a parameter,
    constrained only to be an enumeration of the map. *)
From S2P Require Import Prelude Bitcoin Messages Errors.
#[local] Open Scope string_scope.
#[local] Open Scope list_scope.
#[local] Open Scope Z_scope.

(** ** Data *)
Inductive SwapPhase :=
| MakersDiscovered
| Negotiated
| FundingCreated
| FundsBroadcast
| ContractsExchanged
| Finalizing
| PrivkeysForwarded
| Completed
| Failed.
#[global] Instance SwapPhase_eq_dec : EqDecision SwapPhase.
Proof. solve_decision. Defined.

(** The derived [Ord] compares the position of the variants. *)
Definition SwapPhase_rank (p : SwapPhase) : Z :=
  match p with
  | MakersDiscovered => 0 | Negotiated => 1 | FundingCreated => 2 | FundsBroadcast => 3
  | ContractsExchanged => 4 | Finalizing => 5 | PrivkeysForwarded => 6 | Completed => 7
  | Failed => 8
  end.

Definition SwapPhase_fmt (p : SwapPhase) : string :=
  match p with
  | MakersDiscovered => "MakersDiscovered"
  | Negotiated => "Negotiated"
  | FundingCreated => "FundingCreated"
  | FundsBroadcast => "FundsBroadcast"
  | ContractsExchanged => "ContractsExchanged"
  | Finalizing => "Finalizing"
  | PrivkeysForwarded => "PrivkeysForwarded"
  | Completed => "Completed"
  | Failed => "Failed"
  end.

Record LegacyExchangeProgress := {
  lep_connected : bool;
  lep_sender_sigs_requested : bool;
  lep_sender_sigs_received : bool;
  lep_prev_funding_broadcast : bool;
  lep_prev_funding_confirmed : bool;
  lep_proof_of_funding_sent : bool;
  lep_maker_contracts_received : bool;
  lep_next_maker_sigs_obtained : bool;
  lep_prev_maker_sigs_obtained : bool;
  lep_combined_sigs_sent : bool;
  lep_maker_funding_confirmed : bool;
  lep_watchonly_created : bool;
}.

Record TaprootExchangeProgress := {
  tep_connected : bool;
  tep_contract_data_sent : bool;
  tep_maker_contract_received : bool;
  tep_swapcoins_created : bool;
  tep_maker_funding_confirmed : bool;
}.

Inductive ExchangeProgress :=
| EP_Legacy (l : LegacyExchangeProgress)
| EP_Taproot (t : TaprootExchangeProgress).

Record FinalizationProgress := { fin_privkey_received : bool; fin_privkey_forwarded : bool }.

Record MakerProgress := {
  mp_address : string;
  mp_negotiated : bool;
  mp_exchange : ExchangeProgress;
  mp_finalization : FinalizationProgress;
}.

Inductive ContractResolution := CR_Hashlock | CR_Timelock | CR_KeyPath | CR_Discarded | CR_Unresolved.

Record ContractOutcome := {
  co_contract_txid : Txid;
  co_resolution : ContractResolution;
  co_spending_txid : option Txid;
}.

Inductive RecoveryPhase :=
| NotStarted | PreimageStamped | SwapcoinsPersisted | IncomingRecovered | OutgoingRecovered | CleanedUp.
#[global] Instance RecoveryPhase_eq_dec : EqDecision RecoveryPhase.
Proof. solve_decision. Defined.

Definition RecoveryPhase_rank (p : RecoveryPhase) : Z :=
  match p with
  | NotStarted => 0 | PreimageStamped => 1 | SwapcoinsPersisted => 2
  | IncomingRecovered => 3 | OutgoingRecovered => 4 | CleanedUp => 5
  end.

Record RecoveryState := {
  rs_phase : RecoveryPhase;
  rs_incoming : list ContractOutcome;
  rs_outgoing : list ContractOutcome;
  rs_watchonly : list ContractOutcome;
}.

Record SwapRecord := {
  sr_swap_id : string;
  sr_preimage : Preimage;
  sr_protocol : ProtocolVersion;
  sr_send_amount_sat : Z;
  sr_maker_count : Z;
  sr_phase : SwapPhase;
  sr_failed_at_phase : option SwapPhase;
  sr_failure_reason : option string;
  sr_makers : list MakerProgress;
  sr_outgoing_contract_txids : list Txid;
  sr_incoming_contract_txids : list Txid;
  sr_watchonly_contract_txids : list Txid;
  sr_recovery : RecoveryState;
  sr_multisig_nonces : list SecretKey;
  sr_hashlock_nonces : list SecretKey;
  sr_payment_address : option string;
  sr_payment_amount_sat : option Z;
  sr_created_at : Z;
  sr_updated_at : Z;
}.

(** ** The compact per-maker line of the log *)
Definition flag (f : string * bool) : string := if f.2 then f.1 else "-".

Definition exchange_str (e : ExchangeProgress) : string :=
  match e with
  | EP_Legacy l =>
      String.concat "" (map flag
        [("c", lep_connected l); ("q", lep_sender_sigs_requested l);
         ("Q", lep_sender_sigs_received l); ("b", lep_prev_funding_broadcast l);
         ("B", lep_prev_funding_confirmed l); ("p", lep_proof_of_funding_sent l);
         ("M", lep_maker_contracts_received l); ("n", lep_next_maker_sigs_obtained l);
         ("r", lep_prev_maker_sigs_obtained l); ("S", lep_combined_sigs_sent l);
         ("m", lep_maker_funding_confirmed l); ("w", lep_watchonly_created l)])
  | EP_Taproot t =>
      String.concat "" (map flag
        [("c", tep_connected t); ("s", tep_contract_data_sent t);
         ("r", tep_maker_contract_received t); ("w", tep_swapcoins_created t);
         ("m", tep_maker_funding_confirmed t)])
  end.

Definition MakerProgress_fmt (m : MakerProgress) : string :=
  let neg := if mp_negotiated m then "N" else "-" in
  let fin_str := String.concat "" (map flag
    [("K", fin_privkey_received (mp_finalization m)); ("F", fin_privkey_forwarded (mp_finalization m))]) in
  String.concat "" [mp_address m; "["; neg; "|"; exchange_str (mp_exchange m); "|"; fin_str; "]"].

(** ** The tracker and its file *)
Abbreviation SwapTrackerData := (gmap string SwapRecord).

(** The step of [flush] the operating system refuses, if any. *)
Inductive FlushFault := CreateDirFails (e : string) | SerializeFails (e : string)
  | WriteFails (e : string) | RenameFails (e : string).

(** [disk_file] is the tracker file, [disk_tmp] the temporary one; [None] is an
    absent file, and for [disk_tmp] also a partial one. *)
Record Disk := { disk_file : option SwapTrackerData; disk_tmp : option SwapTrackerData }.

(** [faults n] is what happens to the [n]-th flush, [flushes] counts them. *)
Record SwapTracker := { st_data : SwapTrackerData; st_disk : Disk; st_flushes : nat }.

Section tracker.
Context (faults : nat -> option FlushFault) (now_secs : Z).
Context (hash_iter : SwapTrackerData -> list (string * SwapRecord)).

(** A file that cannot be read back counts as an empty tracker. *)
Definition load_or_create (disk : Disk) (readable : bool) : SwapTracker :=
  {| st_data := match disk_file disk with
                | Some data => if readable then data else ∅
                | None => ∅
                end;
     st_disk := disk; st_flushes := 0 |}.

Definition flush (t : SwapTracker) : outcome TakerError () * SwapTracker :=
  let t' := {| t with st_flushes := S (st_flushes t) |} in
  match faults (st_flushes t) with
  | Some (CreateDirFails e) => (Err (TE_IO e), t')
  | Some (SerializeFails _) => (Err (TE_General "Failed to serialize swap tracker: {}"), t')
  | Some (WriteFails e) => (Err (TE_IO e), {| t' with st_disk := {| (st_disk t) with disk_tmp := None |} |})
  | Some (RenameFails e) =>
      (Err (TE_IO e), {| t' with st_disk := {| (st_disk t) with disk_tmp := Some (st_data t) |} |})
  | None => (Ok (), {| t' with st_disk := {| disk_file := Some (st_data t); disk_tmp := None |} |})
  end.

Definition save_record (record : SwapRecord) (t : SwapTracker) : outcome TakerError () * SwapTracker :=
  flush {| t with st_data := <[sr_swap_id record := record]> (st_data t) |}.

Definition remove_record (swap_id : string) (t : SwapTracker) : outcome TakerError () * SwapTracker :=
  flush {| t with st_data := delete swap_id (st_data t) |}.

Definition is_incomplete (r : SwapRecord) : bool :=
  bool_decide (sr_phase r <> Completed) &&
  negb (bool_decide (sr_phase r = Failed) &&
        (RecoveryPhase_rank CleanedUp <=? RecoveryPhase_rank (rs_phase (sr_recovery r)))).

Definition incomplete_swaps (t : SwapTracker) : list SwapRecord :=
  filter (fun r => is_incomplete r = true) (map snd (hash_iter (st_data t))).

Definition get_record (swap_id : string) (t : SwapTracker) : option SwapRecord := st_data t !! swap_id.

(** [f] runs on the stored record before the flush, so a failed flush leaves
    the update in memory.  The clone is saved under the record's own id. *)
Definition update_and_save (swap_id : string) (f : SwapRecord -> SwapRecord) (t : SwapTracker)
    : outcome TakerError bool * SwapTracker :=
  match st_data t !! swap_id with
  | None => (Ok false, t)
  | Some record =>
      let record := {| (f record) with sr_updated_at := now_secs |} in
      let '(r, t) := save_record record {| t with st_data := <[swap_id := record]> (st_data t) |} in
      ((_ ← r; Ok true), t)
  end.

Definition cleanup_one (t : SwapTracker) (swap_id : string) : SwapTracker :=
  match get_record swap_id t with
  | None => t
  | Some r =>
      match sr_phase r with
      | MakersDiscovered | Negotiated | FundingCreated => (remove_record swap_id t).2
      | Completed => t
      | _ => (update_and_save swap_id (fun record => {| record with sr_phase := Failed |}) t).2
      end
  end.

Definition cleanup_incomplete (t : SwapTracker) : SwapTracker :=
  let incomplete_ids := map sr_swap_id (incomplete_swaps t) in
  fold_left cleanup_one incomplete_ids t.
End tracker.

(** ** Properties *)

(** The tracker's invariant: every record is stored under its own id. *)
Definition keyed (m : SwapTrackerData) : Prop :=
  forall id r, m !! id = Some r -> sr_swap_id r = id.

(** What [cleanup_incomplete] means for one record. *)
Definition cleaned (now_secs : Z) (r : SwapRecord) : option SwapRecord :=
  if is_incomplete r then
    if SwapPhase_rank (sr_phase r) <? SwapPhase_rank FundsBroadcast then None
    else Some {| r with sr_phase := Failed; sr_updated_at := now_secs |}
  else Some r.

Section tracker_lemmas.
Context (faults : nat -> option FlushFault) (now_secs : Z).
Context (hash_iter : SwapTrackerData -> list (string * SwapRecord)).

Lemma flush_data t : st_data (flush faults t).2 = st_data t.
Proof. unfold flush. by repeat case_match. Qed.

Lemma flush_file t :
  ((flush faults t).1 = Ok () /\ faults (st_flushes t) = None /\
     disk_file (st_disk (flush faults t).2) = Some (st_data t)) \/
  ((exists e, (flush faults t).1 = Err e) /\ is_Some (faults (st_flushes t)) /\
     disk_file (st_disk (flush faults t).2) = disk_file (st_disk t)).
Proof. unfold flush. repeat case_match; cbn; eauto 10. Qed.

Lemma save_record_data r t :
  st_data (save_record faults r t).2 = <[sr_swap_id r := r]> (st_data t).
Proof. unfold save_record. by rewrite flush_data. Qed.

Lemma remove_record_data id t : st_data (remove_record faults id t).2 = delete id (st_data t).
Proof. unfold remove_record. by rewrite flush_data. Qed.

Lemma update_and_save_data id f t r :
  st_data t !! id = Some r -> sr_swap_id (f r) = id ->
  st_data (update_and_save faults now_secs id f t).2 =
    <[id := {| (f r) with sr_updated_at := now_secs |}]> (st_data t).
Proof.
  intros Hr Hid. unfold update_and_save. rewrite Hr.
  destruct (save_record _ _ _) as [o t'] eqn:Hs. cbn [snd].
  apply (f_equal snd) in Hs. apply (f_equal st_data) in Hs. rewrite save_record_data in Hs.
  cbn [snd st_data sr_swap_id] in Hs. rewrite <- Hs, Hid. apply insert_insert_eq.
Qed.

Lemma save_record_keyed r t : keyed (st_data t) -> keyed (st_data (save_record faults r t).2).
Proof.
  intros Hk id r'. rewrite save_record_data, lookup_insert_Some. naive_solver.
Qed.

Lemma remove_record_keyed id t : keyed (st_data t) -> keyed (st_data (remove_record faults id t).2).
Proof. intros Hk id' r'. rewrite remove_record_data, lookup_delete_Some. naive_solver. Qed.

Lemma cleanup_one_data t id j :
  keyed (st_data t) ->
  st_data (cleanup_one faults now_secs t id) !! j =
    if decide (j = id) then
      r ← st_data t !! id;
      match sr_phase r with
      | MakersDiscovered | Negotiated | FundingCreated => None
      | Completed => Some r
      | _ => Some {| r with sr_phase := Failed; sr_updated_at := now_secs |}
      end
    else st_data t !! j.
Proof.
  intros Hk. unfold cleanup_one, get_record.
  destruct (st_data t !! id) as [r|] eqn:Hr; cbn.
  2:{ destruct (decide (j = id)) as [->|]; [by rewrite Hr|done]. }
  destruct (sr_phase r) eqn:Hp;
    rewrite ?remove_record_data, ?(update_and_save_data _ _ _ r) by first [exact Hr | exact (Hk _ _ Hr)];
    destruct (decide (j = id)) as [->|];
    first [ by rewrite lookup_delete_eq | by rewrite lookup_insert_eq | by rewrite lookup_delete_ne | by rewrite lookup_insert_ne | done ].
Qed.

Lemma cleanup_one_keyed t id :
  keyed (st_data t) -> keyed (st_data (cleanup_one faults now_secs t id)).
Proof.
  intros Hk j r. rewrite cleanup_one_data by done.
  destruct (decide (j = id)) as [->|]; [|apply Hk].
  destruct (st_data t !! id) as [r0|] eqn:Hr; cbn; [|done]. apply Hk in Hr.
  destruct (sr_phase r0); naive_solver.
Qed.

Lemma cleanup_fold ids t j :
  keyed (st_data t) -> NoDup ids ->
  st_data (fold_left (cleanup_one faults now_secs) ids t) !! j =
    if decide (j ∈ ids) then st_data (cleanup_one faults now_secs t j) !! j else st_data t !! j.
Proof.
  intros Hk Hnd. revert t Hk. induction Hnd as [|id ids Hni Hnd IH]; intros t Hk; cbn [fold_left].
  { by destruct (decide (j ∈ [])) as [Hin%not_elem_of_nil|]. }
  rewrite IH by by apply cleanup_one_keyed.
  destruct (decide (j = id)) as [->|Hne].
  - rewrite decide_False by done. by rewrite decide_True by apply list_elem_of_here.
  - rewrite (decide_ext (j ∈ id :: ids) (j ∈ ids)) by (rewrite elem_of_cons; tauto).
    assert (st_data (cleanup_one faults now_secs t id) !! j = st_data t !! j) as Hother
      by by rewrite cleanup_one_data, decide_False.
    destruct (decide (j ∈ ids)); [|done].
    rewrite (cleanup_one_data (cleanup_one _ _ t id)) by by apply cleanup_one_keyed.
    by rewrite (cleanup_one_data t j), Hother by done.
Qed.

Context (Hiter : forall m, hash_iter m ≡ₚ map_to_list m).

Lemma incomplete_ids_spec t :
  keyed (st_data t) ->
  NoDup (map sr_swap_id (incomplete_swaps hash_iter t)) /\
  (forall id, id ∈ map sr_swap_id (incomplete_swaps hash_iter t) <->
      exists r, st_data t !! id = Some r /\ is_incomplete r = true).
Proof.
  intros Hk. unfold incomplete_swaps. split.
  - assert (map sr_swap_id (map snd (hash_iter (st_data t))) = map fst (hash_iter (st_data t))) as Hfst.
    { rewrite map_map. apply map_ext_in. intros [id r] Hin. cbn.
      apply Hk, elem_of_map_to_list. rewrite <- Hiter. by apply list_elem_of_In. }
    assert (NoDup (map sr_swap_id (map snd (hash_iter (st_data t))))) as Hnd.
    { rewrite Hfst, Hiter. apply NoDup_fst_map_to_list. }
    eapply sublist_NoDup; [exact Hnd|]. apply fmap_sublist, sublist_filter.
  - intros id. rewrite list_elem_of_fmap. split.
    + intros (r & -> & [Hinc (p & -> & Hp)%list_elem_of_fmap]%list_elem_of_filter).
      rewrite Hiter in Hp. destruct p as [id r]. apply elem_of_map_to_list in Hp. cbn.
      exists r. rewrite (Hk _ _ Hp). done.
    + intros (r & Hr & Hinc). exists r. split; [symmetry; by apply Hk|].
      apply list_elem_of_filter. split; [done|]. apply list_elem_of_fmap. exists (id, r).
      split; [done|]. rewrite Hiter. by apply elem_of_map_to_list.
Qed.

Lemma cleaned_spec r :
  is_incomplete r = true ->
  match sr_phase r with
  | MakersDiscovered | Negotiated | FundingCreated => None
  | Completed => Some r
  | _ => Some {| r with sr_phase := Failed; sr_updated_at := now_secs |}
  end = cleaned now_secs r.
Proof.
  intros Hi. unfold cleaned. rewrite Hi. unfold is_incomplete in Hi. to_prop.
  destruct (sr_phase r); done.
Qed.

(** restarting cleans up every record independently of hash order and of
    failing writes: swaps that stopped before their funding was broadcast are
    dropped, later unfinished ones are kept and marked failed for wallet
    recovery, finished ones are untouched. *)
Lemma cleanup_incomplete_spec (t : SwapTracker) (Hk : keyed (st_data t)) (id : string) :
  st_data (cleanup_incomplete faults now_secs hash_iter t) !! id =
    (r ← st_data t !! id; cleaned now_secs r).
Proof.
  unfold cleanup_incomplete. destruct (incomplete_ids_spec t Hk) as [Hnd Hin].
  rewrite cleanup_fold by done. destruct (decide _) as [Hid|Hid].
  - apply Hin in Hid as (r & Hr & Hinc). rewrite cleanup_one_data, decide_True, Hr by done. cbn.
    by apply cleaned_spec.
  - destruct (st_data t !! id) as [r|] eqn:Hr; [|done]. cbn. unfold cleaned.
    destruct (is_incomplete r) eqn:Hinc; [|done]. exfalso. apply Hid, Hin. eauto.
Qed.

(** Saving a record replaces the tracker file as a whole or not at all: on
    success a reload finds the record and every other one, on a fault the file
    still holds its previous content and the update stays in memory. *)
Lemma save_record_atomic (r : SwapRecord) (t : SwapTracker) :
  let '(res, t') := save_record faults r t in
  st_data t' = <[sr_swap_id r := r]> (st_data t) /\
  (res = Ok () -> st_data (load_or_create (st_disk t') true) = st_data t') /\
  (res <> Ok () -> disk_file (st_disk t') = disk_file (st_disk t)) /\
  (res = Ok () <-> faults (st_flushes t) = None).
Proof.
  destruct (save_record faults r t) as [res t'] eqn:Hs.
  pose proof (save_record_data r t) as Hd. rewrite Hs in Hd. cbn [snd] in Hd.
  unfold save_record in Hs.
  set (t0 := {| t with st_data := <[sr_swap_id r := r]> (st_data t) |}) in *.
  pose proof (flush_file t0) as Hf. rewrite Hs in Hf. cbn [fst snd] in Hf.
  unfold load_or_create. cbn [st_data].
  destruct Hf as [(-> & Hn & ->)|((e & ->) & [f Hn] & ->)].
  - rewrite Hd. naive_solver.
  - change (st_flushes t0) with (st_flushes t) in Hn. rewrite Hn. naive_solver.
Qed.
End tracker_lemmas.

(** ** Witnesses *)
Definition sample_record (id : string) (p : SwapPhase) : SwapRecord :=
  {| sr_swap_id := id; sr_preimage := replicate 32 0; sr_protocol := Legacy; sr_send_amount_sat := 500000;
     sr_maker_count := 2; sr_phase := p; sr_failed_at_phase := None; sr_failure_reason := None;
     sr_makers := []; sr_outgoing_contract_txids := []; sr_incoming_contract_txids := [];
     sr_watchonly_contract_txids := [];
     sr_recovery := {| rs_phase := NotStarted; rs_incoming := []; rs_outgoing := []; rs_watchonly := [] |};
     sr_multisig_nonces := []; sr_hashlock_nonces := []; sr_payment_address := None;
     sr_payment_amount_sat := None; sr_created_at := 1; sr_updated_at := 1 |}.

Definition sample_tracker : SwapTracker :=
  {| st_data := {[ "a" := sample_record "a" Negotiated; "b" := sample_record "b" Finalizing ]};
     st_disk := {| disk_file := None; disk_tmp := None |}; st_flushes := 0 |}.

Lemma sample_tracker_keyed : keyed (st_data sample_tracker).
Proof.
  intros id r Hr. cbn in Hr. apply lookup_insert_Some in Hr as [[<- <-]|[_ Hr]]; [done|].
  by apply lookup_singleton_Some in Hr as [<- <-].
Qed.

Lemma cleanup_incomplete_spec_witness :
  st_data (cleanup_incomplete (fun _ => None) 9 map_to_list sample_tracker) !! "a" = None /\
  st_data (cleanup_incomplete (fun _ => None) 9 map_to_list sample_tracker) !! "b" =
    Some {| (sample_record "b" Failed) with sr_updated_at := 9 |}.
Proof.
  split.
  - rewrite (cleanup_incomplete_spec (fun _ => None) 9 map_to_list (fun m => Permutation_refl _)
               sample_tracker sample_tracker_keyed). vm_compute. reflexivity.
  - rewrite (cleanup_incomplete_spec (fun _ => None) 9 map_to_list (fun m => Permutation_refl _)
               sample_tracker sample_tracker_keyed). vm_compute. reflexivity.
Defined.
