(* ===== verification/TakerState.v ===== *)
(** The taker's state: the data types of src/taker/api.rs, the watch-only swap
    coin of src/wallet/swapcoin.rs and the offer sanity check.

    The field [ongoing_swap] of the taker is the state threaded through its
    methods; [swap_state] and [swap_state_mut] are the access to it. *)
From S2P Require Import Prelude Float64 Bitcoin Messages Contract Errors SwapCoin TakerTracker.
#[local] Open Scope string_scope.
#[local] Open Scope list_scope.
#[local] Open Scope Z_scope.

Definition REFUND_LOCKTIME_BASE : Z := 20.
Definition REFUND_LOCKTIME_STEP : Z := 20.
Definition FUNDING_FEE_BUFFER : Amount := 10000.
Definition CONFIRMATION_HEIGHT_TOLERANCE : Z := 6.

Record WatchOnlySwapCoin := {
  wsc_protocol : ProtocolVersion;
  wsc_sender_pubkey : PublicKey;
  wsc_receiver_pubkey : PublicKey;
  wsc_contract_tx : Transaction;
  wsc_contract_redeemscript : Script;
  wsc_hashlock_script : option Script;
  wsc_timelock_script : option Script;
  wsc_funding_amount : Amount;
}.

Definition wsc_new_legacy (sender_pubkey receiver_pubkey : PublicKey) (contract_tx : Transaction)
    (contract_redeemscript : Script) (funding_amount : Amount) : WatchOnlySwapCoin :=
  {| wsc_protocol := Legacy; wsc_sender_pubkey := sender_pubkey; wsc_receiver_pubkey := receiver_pubkey;
     wsc_contract_tx := contract_tx; wsc_contract_redeemscript := contract_redeemscript;
     wsc_hashlock_script := None; wsc_timelock_script := None; wsc_funding_amount := funding_amount |}.

Definition wsc_new_taproot (sender_pubkey receiver_pubkey : PublicKey) (contract_tx : Transaction)
    (hashlock_script timelock_script : Script) (funding_amount : Amount) : WatchOnlySwapCoin :=
  {| wsc_protocol := Taproot; wsc_sender_pubkey := sender_pubkey; wsc_receiver_pubkey := receiver_pubkey;
     wsc_contract_tx := contract_tx; wsc_contract_redeemscript := [];
     wsc_hashlock_script := Some hashlock_script; wsc_timelock_script := Some timelock_script;
     wsc_funding_amount := funding_amount |}.

(** An address is its text; network check and script are the bitcoin crate's. *)
Abbreviation Address := string.

Record SwapParams := {
  swp_protocol : ProtocolVersion;
  swp_send_amount : Amount;
  swp_maker_count : Z;
  swp_tx_count : Z;
  swp_required_confirms : Z;
  swp_manually_selected_outpoints : option (list OutPoint);
  swp_preferred_makers : option (list string);
  swp_payment_address : option Address;
}.

Definition SwapParams_new (protocol : ProtocolVersion) (send_amount : Amount) (maker_count : Z) : SwapParams :=
  {| swp_protocol := protocol; swp_send_amount := send_amount; swp_maker_count := maker_count;
     swp_tx_count := 1; swp_required_confirms := 1; swp_manually_selected_outpoints := None;
     swp_preferred_makers := None; swp_payment_address := None |}.

Definition with_tx_count (p : SwapParams) (n : Z) : SwapParams := {| p with swp_tx_count := n |}.
Definition with_required_confirms (p : SwapParams) (n : Z) : SwapParams :=
  {| p with swp_required_confirms := n |}.
Definition with_payment_address (p : SwapParams) (a : Address) : SwapParams :=
  {| p with swp_payment_address := Some a |}.

Record PaymentQuote := {
  pq_address : Address;
  pq_amount : Amount;
  pq_settlement_budget : Amount;
  pq_taker_funding_fee_estimate : Amount;
}.

Record MakerConnection := {
  mc_address : string;
  mc_protocol : ProtocolVersion;
  mc_tweakable_point : option PublicKey;
  mc_offer : option Offer;
  mc_negotiated_timelock : Z;
  mc_exchange : ExchangeProgress;
  mc_finalization : FinalizationProgress;
}.

Definition legacy_exchange_mut (m : MakerConnection) : outcome TakerError LegacyExchangeProgress :=
  match mc_exchange m with
  | EP_Legacy l => Ok l
  | _ => Err (TE_General "Expected Legacy exchange progress")
  end.

Definition taproot_exchange_mut (m : MakerConnection) : outcome TakerError TaprootExchangeProgress :=
  match mc_exchange m with
  | EP_Taproot t => Ok t
  | _ => Err (TE_General "Expected Taproot exchange progress")
  end.

Record OngoingSwapState := {
  os_id : string;
  os_preimage : Preimage;
  os_params : SwapParams;
  os_makers : list MakerConnection;
  os_outgoing_swapcoins : list OutgoingSwapCoin;
  os_incoming_swapcoins : list IncomingSwapCoin;
  os_watchonly_swapcoins : list WatchOnlySwapCoin;
  os_multisig_nonces : list SecretKey;
  os_hashlock_nonces : list SecretKey;
  os_spare_makers : list string;
  os_phase : SwapPhase;
  os_reference_height : option Z;
  os_payment : option PaymentQuote;
}.

(** The part of [Taker] the modelled methods read and write. *)
Abbreviation TakerSt := (option OngoingSwapState).

Definition swap_state {A} (k : OngoingSwapState -> stateful TakerSt TakerError A)
    : stateful TakerSt TakerError A := fun s =>
  match s with Some swap => k swap s | None => (Err (TE_General "No active swap"), s) end.

Definition swap_state_mut (f : OngoingSwapState -> OngoingSwapState) : stateful TakerSt TakerError () :=
  swap_state (fun swap => modify (fun _ => Some (f swap))).

(** The locktime of hop [i] in a route of [maker_count] makers: [u16]
    arithmetic. *)
Definition refund_locktime_offset (maker_count i : Z) : Z :=
  wrap 16 (REFUND_LOCKTIME_BASE + wrap 16 (REFUND_LOCKTIME_STEP * wrap 16 (maker_count - i - 1))).

Definition bad_fee_pct (x : f64) : bool :=
  f64_is_nan x || f64_is_infinite x || f64_ltb x (f64_of_Z 0) || f64_leb (f64_of_Z 100) x.

(** [maker_idx] only appears in the error texts. *)
Definition validate_offer (offer : Offer) (send_amount : Amount) : outcome TakerError () :=
  _ ← reject (bad_fee_pct (of_amount_relative_fee_pct offer))
        (TE_General "Maker {} offer has invalid amount_relative_fee_pct: {}");
  _ ← reject (bad_fee_pct (of_time_relative_fee_pct offer))
        (TE_General "Maker {} offer has invalid time_relative_fee_pct: {}");
  _ ← reject (send_amount <? of_base_fee offer)
        (TE_General "Maker {} offer base_fee ({} sats) exceeds send amount ({} sats)");
  _ ← reject (of_max_size offer <? of_min_size offer)
        (TE_General "Maker {} offer has min_size ({}) > max_size ({})");
  _ ← reject (send_amount <? of_min_size offer)
        (TE_General "Send amount ({} sats) is below maker {} min_size ({} sats)");
  _ ← reject (of_max_size offer <? send_amount)
        (TE_General "Send amount ({} sats) exceeds maker {} max_size ({} sats)");
  Ok ().

(** The hops of a short route get strictly decreasing locktimes, a refund step
    apart, ending at the base. *)
Lemma refund_locktime_offset_short n i :
  0 <= i < n -> n <= 3275 ->
  refund_locktime_offset n i = REFUND_LOCKTIME_BASE + REFUND_LOCKTIME_STEP * (n - i - 1).
Proof.
  intros Hi Hn. unfold refund_locktime_offset, REFUND_LOCKTIME_BASE, REFUND_LOCKTIME_STEP.
  assert (forall z, 0 <= z < 65536 -> wrap 16 z = z) as Hw by (intros z Hz; by apply wrap_small).
  rewrite (Hw (n - i - 1)), (Hw (20 * _)), Hw by lia. done.
Qed.
