(* ===== verification/Payment.v ===== *)
(** PaySwap: src/taker/payment.rs and [Taker::expected_amount_for_hop].

    A payment swap fixes the amount the receiver must get and solves the fee
    schedule of the route backward, hop by hop, to the amount entering the
    first hop.  The solver is a doubling search followed by a binary search;
    both loops carry fuel, and running out of it is [Panic], which the theorems
    exclude. *)
From S2P Require Import Prelude Float64 Bitcoin Messages Contract Errors SwapCoin TakerTracker TakerState.
#[local] Open Scope string_scope.
#[local] Open Scope list_scope.
#[local] Open Scope Z_scope.

Definition MIN_PAYMENT_OUTPUT_SATS : Z := 546.

Record HopFeeTerms := {
  hft_base_fee : Z;
  hft_amount_relative_fee_pct : f64;
  hft_time_relative_fee_pct : f64;
  hft_locktime : Z;
}.

Definition from_offer (offer : Offer) (locktime : Z) : HopFeeTerms :=
  {| hft_base_fee := of_base_fee offer;
     hft_amount_relative_fee_pct := of_amount_relative_fee_pct offer;
     hft_time_relative_fee_pct := of_time_relative_fee_pct offer;
     hft_locktime := locktime |}.

Definition hop_net_sats (terms : HopFeeTerms) (per_hop_mining_fee gross_sats : Z) : Z :=
  let fee :=
    f64_to_u64 (f64_ceil
      (f64_add
         (f64_add (f64_of_Z (hft_base_fee terms))
            (f64_div (f64_mul (f64_of_Z gross_sats) (hft_amount_relative_fee_pct terms)) (f64_of_Z 100)))
         (f64_div
            (f64_mul (f64_mul (f64_of_Z gross_sats) (f64_of_Z (hft_locktime terms)))
               (hft_time_relative_fee_pct terms))
            (f64_of_Z 100)))) in
  saturating_sub gross_sats (wrap 64 (fee + per_hop_mining_fee)).

(** [while hop_net_sats(hi) < net { hi = 2 * hi; ... }]: at most 51 doublings
    stay below the cap. *)
Fixpoint double_hi (fuel : nat) (net : Z -> Z) (net_sats hi : Z) : outcome TakerError Z :=
  match fuel with
  | O => Panic
  | S fuel =>
      if net hi <? net_sats then
        let hi := saturating_mul 64 hi 2 in
        if MAX_MONEY <? hi
        then Err (TE_General "Maker fee schedule cannot net {net_sats} sats at any fundable amount")
        else double_hi fuel net net_sats hi
      else Ok hi
  end.

(** [while lo < hi { ... }]: the distance at least halves. *)
Fixpoint bisect (fuel : nat) (net : Z -> Z) (net_sats lo hi : Z) : outcome TakerError Z :=
  match fuel with
  | O => Panic
  | S fuel =>
      if lo <? hi then
        let mid := lo + (hi - lo) / 2 in
        if net_sats <=? net mid then bisect fuel net net_sats lo mid
        else bisect fuel net net_sats (mid + 1) hi
      else Ok lo
  end.

Definition hop_gross_for_net (terms : HopFeeTerms) (per_hop_mining_fee net_sats : Z)
    : outcome TakerError Z :=
  let net := hop_net_sats terms per_hop_mining_fee in
  hi ← double_hi 64 net net_sats (Z.max net_sats 1);
  lo ← bisect 65 net net_sats net_sats hi;
  _ ← reject (negb (net lo =? net_sats))
        (TE_General "Maker fee schedule skips over an exact net of {net_sats} sats");
  Ok lo.

Definition forward_sats (per_hop_mining_fee : Z) (hops : list HopFeeTerms) (gross : Z) : Z :=
  fold_left (fun forward terms => hop_net_sats terms per_hop_mining_fee forward) hops gross.

Definition solve_route_gross_sats (hops : list HopFeeTerms) (per_hop_mining_fee final_net_sats : Z)
    : outcome TakerError Z :=
  required ← try_fold (fun required terms => hop_gross_for_net terms per_hop_mining_fee required)
               final_net_sats (rev hops);
  let forward := forward_sats per_hop_mining_fee hops required in
  _ ← reject (negb (forward =? final_net_sats))
        (TE_General
           "Payment route solve is inconsistent: gross {required} nets {forward}, expected {final_net_sats}");
  Ok required.

Section payment.
Context {lib : BitcoinLib}.

(** Src/wallet/api.rs. *)
Definition payment_settlement_budget_sats {E} (protocol : ProtocolVersion) : outcome E Z :=
  match protocol with
  | Legacy =>
      a ← calculate_fee_sats CONTRACT_TX_VSIZE;
      b ← calculate_fee_sats LEGACY_CONTRACT_SPEND_VSIZE;
      Ok (wrap 64 (a + b))
  | Taproot => calculate_fee_sats TAPROOT_SCRIPTPATH_VSIZE
  end.

(** The locktime hop [i] is priced on. *)
Definition hop_locktime (maker_count i : Z) (maker : MakerConnection) : Z :=
  match mc_protocol maker with
  | Legacy => mc_negotiated_timelock maker
  | Taproot => refund_locktime_offset maker_count i
  end.

(** The loop over [0..=maker_idx]; a missing maker is an index out of range. *)
Fixpoint expected_hops (makers : list MakerConnection) (maker_count per_hop_mining_fee : Z)
    (i : Z) (count : nat) (amount_sats : Z) : outcome () Z :=
  match count with
  | O => Ok amount_sats
  | S count =>
      maker ← expect (makers !! Z.to_nat i);
      offer ← ok_or (mc_offer maker) ();
      expected_hops makers maker_count per_hop_mining_fee (i + 1) count
        (hop_net_sats (from_offer offer (hop_locktime maker_count i maker)) per_hop_mining_fee amount_sats)
  end.

(** [None] is [Err ()]. *)
Definition expected_amount_for_hop (s : TakerSt) (maker_idx : nat) : outcome () Amount :=
  swap ← ok_or s ();
  fee ← estimate_funding_tx_fee_sats;
  let per_hop_mining_fee := wrap 64 (fee * swp_tx_count (os_params swap)) in
  expected_hops (os_makers swap) (zlen (os_makers swap)) per_hop_mining_fee 0 (S maker_idx)
    (swp_send_amount (os_params swap)).

(** [require_network] is the address check of the bitcoin crate against the
    wallet's network. *)
Definition payment_validate_params (require_network : Address -> option Address) (params : SwapParams)
    : outcome TakerError (option Address) :=
  match swp_payment_address params with
  | None => Ok None
  | Some unchecked_address =>
      address ← ok_or (require_network unchecked_address)
        (TE_General "Receiver address is not valid for the wallet network {network}: {e}");
      let tx_count := swp_tx_count params in
      _ ← reject (tx_count =? 0) (TE_General "A payment swap needs at least one transaction split");
      _ ← reject (swp_send_amount params <? wrap 64 (MIN_PAYMENT_OUTPUT_SATS * tx_count))
            (TE_General "Payment amount {} is below the {} sat minimum for {} settlement outputs");
      Ok (Some address)
  end.

(** [makers[i].offer = Some(offer)]. *)
Definition set_maker_offer (i : nat) (offer : Offer) (swap : OngoingSwapState) : OngoingSwapState :=
  {| swap with os_makers := alter (fun m => {| m with mc_offer := Some offer |}) i (os_makers swap) |}.

Section prepare.
(** [poll_maker] asks a maker for its offer over the network;
    [spendable] is the wallet's spendable balance. *)
Context (poll_maker : string -> outcome TakerError (option Offer)).
Context (spendable : outcome TakerError Amount).

Definition price_hop (receiver_amount : Amount) (maker_count : Z) (i : nat)
    : stateful TakerSt TakerError HopFeeTerms :=
  swap_state (fun swap =>
    maker ← lift (expect (os_makers swap !! i));
    offer ← match mc_offer maker with
            | Some offer => mret offer
            | None =>
                polled ← lift (poll_maker (mc_address maker));
                lift (ok_or polled
                        (TE_General "Maker {maker_address} has no offer to price the payment route"))
            end;
    _ ← lift (validate_offer offer receiver_amount);
    let locktime := refund_locktime_offset maker_count (Z.of_nat i) in
    _ ← swap_state_mut (set_maker_offer i offer);
    mret (from_offer offer locktime)).

Definition payment_prepare_route (address : Address) : stateful TakerSt TakerError () :=
  swap_state (fun swap =>
    let receiver_amount := swp_send_amount (os_params swap) in
    let tx_count := swp_tx_count (os_params swap) in
    let protocol := swp_protocol (os_params swap) in
    let maker_count := length (os_makers swap) in
    hops ← st_map (price_hop receiver_amount (Z.of_nat maker_count)) (seq 0 maker_count);
    budget ← lift (payment_settlement_budget_sats protocol);
    let settlement_budget := wrap 64 (budget * tx_count) in
    let final_net := wrap 64 (receiver_amount + settlement_budget) in
    fee ← lift estimate_funding_tx_fee_sats;
    let per_hop_mining_fee := wrap 64 (fee * tx_count) in
    gross ← lift (solve_route_gross_sats hops per_hop_mining_fee final_net);
    _ ← swap_state (fun swap =>
          lift (for_each (fun maker =>
                  match mc_offer maker with
                  | Some offer => validate_offer offer gross
                  | None => Ok ()
                  end) (os_makers swap)));
    available ← lift spendable;
    required ← lift (amount_add gross FUNDING_FEE_BUFFER);
    _ ← lift (reject (available <? required)
          (TE_General
             "Insufficient balance for the payment route: available={available}, required={required}"));
    swap_state_mut (fun swap =>
      {| swap with
         os_params := {| (os_params swap) with swp_send_amount := gross |};
         os_payment := Some {| pq_address := address; pq_amount := receiver_amount;
                               pq_settlement_budget := settlement_budget;
                               pq_taker_funding_fee_estimate := per_hop_mining_fee |} |})).
End prepare.

(** The loop over the incoming swap coins: on a failing coin the ones before it
    are already stamped. *)
Fixpoint stamp_coins (script_pubkey : Script) (per_coin_budget total : Z) (coins : list IncomingSwapCoin)
    : outcome TakerError Z * list IncomingSwapCoin :=
  match coins with
  | [] => (Ok total, [])
  | c :: rest =>
      match checked_sub (isc_funding_amount c) per_coin_budget with
      | Some output_sats =>
          if MIN_PAYMENT_OUTPUT_SATS <=? output_sats then
            let c := {| c with isc_payment_target :=
                          Some {| pt_script_pubkey := script_pubkey; pt_amount := output_sats |} |} in
            let '(r, rest) := stamp_coins script_pubkey per_coin_budget (wrap 64 (total + output_sats)) rest in
            (r, c :: rest)
          else (Err (TE_General "Incoming swapcoin funding {} cannot carry a settlement output above dust after the {per_coin_budget} sat fee budget"), c :: rest)
      | None => (Err (TE_General "Incoming swapcoin funding {} cannot carry a settlement output above dust after the {per_coin_budget} sat fee budget"), c :: rest)
      end
  end.

Definition payment_stamp_targets (address_script_pubkey : Address -> Script)
    : stateful TakerSt TakerError () :=
  swap_state (fun swap =>
    match os_payment swap with
    | None => mret ()
    | Some payment =>
        let coin_count := zlen (os_incoming_swapcoins swap) in
        _ ← lift (reject (coin_count =? 0)
              (TE_General "Payment swap produced no incoming swapcoins to settle"));
        let budget := pq_settlement_budget payment in
        _ ← lift (reject (negb (budget mod coin_count =? 0))
              (TE_General "Settlement budget {budget} sats does not divide across {coin_count} swapcoins"));
        let '(r, coins) := stamp_coins (address_script_pubkey (pq_address payment))
                             (budget / coin_count) 0 (os_incoming_swapcoins swap) in
        _ ← swap_state_mut (fun swap => {| swap with os_incoming_swapcoins := coins |});
        total ← lift r;
        lift (reject (negb (total =? pq_amount payment))
                (TE_General "Settlement outputs total {total} sats, expected exactly {}"))
    end).
End payment.

(** ** The solver *)

Lemma hop_net_range terms fee g : 0 <= g -> 0 <= hop_net_sats terms fee g <= g.
Proof.
  intros Hg. unfold hop_net_sats, saturating_sub. set (x := wrap 64 _).
  assert (0 <= x) by (apply (wrap_range 64); lia). lia.
Qed.

Section solver.
Context (net : Z -> Z).

Lemma double_step hi :
  1 <= hi ->
  (MAX_MONEY < 2 * hi /\ MAX_MONEY < saturating_mul 64 hi 2) \/
  (2 * hi <= MAX_MONEY /\ saturating_mul 64 hi 2 = 2 * hi).
Proof. unfold saturating_mul, MAX_MONEY. change (2 ^ 64) with 18446744073709551616. lia. Qed.

Lemma double_hi_total n fuel : forall hi,
  1 <= hi -> MAX_MONEY < hi * 2 ^ Z.of_nat fuel -> double_hi (S fuel) net n hi <> Panic.
Proof.
  induction fuel as [|fuel IH]; intros hi Hhi Hcap; cbn [double_hi];
    (destruct (net hi <? n); [|done]); destruct (double_step hi Hhi) as [[H1 H2]|[H1 ->]].
  - by destruct (Z.ltb_spec MAX_MONEY (saturating_mul 64 hi 2)); [|lia].
  - rewrite Z.mul_1_r in Hcap. lia.
  - by destruct (Z.ltb_spec MAX_MONEY (saturating_mul 64 hi 2)); [|lia].
  - destruct (Z.ltb_spec MAX_MONEY (2 * hi)); [lia|]. apply IH; [lia|].
    rewrite Nat2Z.inj_succ, Z.pow_succ_r in Hcap by lia. lia.
Qed.

Lemma double_hi_Ok n fuel : forall hi h,
  1 <= hi -> double_hi fuel net n hi = Ok h -> n <= net h /\ hi <= h <= Z.max hi MAX_MONEY.
Proof.
  induction fuel as [|fuel IH]; intros hi h Hhi; cbn [double_hi]; [done|].
  destruct (Z.ltb_spec (net hi) n).
  - destruct (double_step hi Hhi) as [[H1 H2]|[H1 ->]].
    + by destruct (Z.ltb_spec MAX_MONEY (saturating_mul 64 hi 2)); [|lia].
    + destruct (Z.ltb_spec MAX_MONEY (2 * hi)); [done|]. intros Hd. apply IH in Hd; lia.
  - intros [= <-]. lia.
Qed.

(** With a monotone net function the doubling only fails beyond half the cap. *)
Lemma double_hi_no_error n g fuel : forall hi e,
  1 <= hi -> n <= net g -> (hi <= g \/ n <= net hi) ->
  (forall a, g <= a <= 2 * g -> n <= net a) -> 2 * g <= MAX_MONEY ->
  double_hi fuel net n hi <> Err e.
Proof.
  induction fuel as [|fuel IH]; intros hi e Hhi Hg Hle Hmono Hcap; cbn [double_hi]; [done|].
  destruct (Z.ltb_spec (net hi) n) as [Hlt|]; [|done].
  assert (hi < g) by (destruct Hle; [destruct (decide (hi = g)) as [->|]; lia|lia]).
  destruct (double_step hi Hhi) as [[H1 H2]|[H1 ->]]; [lia|].
  destruct (Z.ltb_spec MAX_MONEY (2 * hi)); [lia|]. apply IH; try done; [lia|].
  destruct (decide (2 * hi <= g)); [by left|right]. apply Hmono. lia.
Qed.

Lemma double_hi_bound n g fuel : forall hi h,
  1 <= hi <= 2 * g -> (forall a, g <= a <= 2 * g -> n <= net a) ->
  double_hi fuel net n hi = Ok h -> h <= 2 * g.
Proof.
  induction fuel as [|fuel IH]; intros hi h Hhi Hmono; cbn [double_hi]; [done|].
  destruct (Z.ltb_spec (net hi) n) as [Hlt|]; [|intros [= <-]; lia].
  assert (hi < g) by (destruct (decide (g <= hi)); [specialize (Hmono hi); lia|lia]).
  destruct (double_step hi) as [[H1 H2]|[H1 ->]]; [lia| |].
  - by destruct (Z.ltb_spec MAX_MONEY (saturating_mul 64 hi 2)); [|lia].
  - destruct (MAX_MONEY <? 2 * hi); [done|]. apply IH; [lia|done].
Qed.

Lemma bisect_spec n fuel : forall lo hi,
  lo <= hi -> hi - lo < 2 ^ Z.of_nat fuel ->
  exists m, bisect (S fuel) net n lo hi = Ok m /\ lo <= m <= hi /\
    (m = hi \/ n <= net m) /\ (m = lo \/ net (m - 1) < n).
Proof.
  induction fuel as [|fuel IH]; intros lo hi Hle Hd; cbn [bisect].
  { change (2 ^ Z.of_nat 0) with 1 in Hd. destruct (Z.ltb_spec lo hi); [lia|].
    exists lo. split; [done|]. lia. }
  destruct (Z.ltb_spec lo hi); [|exists lo; split; [done|]; lia]. cbv zeta.
  rewrite Nat2Z.inj_succ, Z.pow_succ_r in Hd by lia.
  pose proof (Z.div_mod (hi - lo) 2 ltac:(lia)). pose proof (Z.mod_pos_bound (hi - lo) 2 ltac:(lia)).
  set (mid := lo + (hi - lo) / 2) in *.
  destruct (Z.leb_spec n (net mid)) as [Hn|Hn].
  - destruct (IH lo mid) as (m & Hm & Hr & Hhi & Hlo); [lia|lia|].
    exists m. split; [exact Hm|]. split; [lia|]. split; [|done].
    right. destruct Hhi as [->|]; [done|lia].
  - destruct (IH (mid + 1) hi) as (m & Hm & Hr & Hhi & Hlo); [lia|lia|].
    exists m. split; [exact Hm|]. split; [lia|]. split; [done|].
    right. destruct Hlo as [->|]; [|done]. by replace (mid + 1 - 1) with mid by lia.
Qed.
End solver.

(** What a solved hop satisfies, and that both loops end within their fuel. *)
Lemma hop_gross_spec terms fee n :
  is_u64 n ->
  hop_gross_for_net terms fee n <> Panic /\
  (forall g, hop_gross_for_net terms fee n = Ok g ->
     n <= g <= Z.max (Z.max n 1) MAX_MONEY /\ hop_net_sats terms fee g = n /\
     (g = n \/ hop_net_sats terms fee (g - 1) < n)).
Proof.
  intros [Hn0 Hn1]. unfold hop_gross_for_net. cbv zeta. set (net := hop_net_sats terms fee).
  assert (double_hi 64 net n (Z.max n 1) <> Panic) as Hd.
  { apply double_hi_total; [lia|]. change (2 ^ Z.of_nat 63) with 9223372036854775808.
    unfold MAX_MONEY. lia. }
  destruct (double_hi 64 net n (Z.max n 1)) as [hi|e|] eqn:Hhi; [|split; [done|]; by intros g Hg|done].
  apply double_hi_Ok in Hhi as [Hnet Hr]; [|lia].
  assert (Z.max (Z.max n 1) MAX_MONEY < 2 ^ 64) by (unfold MAX_MONEY; lia).
  destruct (bisect_spec net n 64 n hi) as (m & Hm & Hmr & Hmhi & Hmlo); [lia|lia|].
  rewrite bind_Ok_eq, Hm, bind_Ok_eq.
  split; [destruct (net m =? n); done|].
  intros g Hg. inv_ok Hg. to_prop. split; [lia|]. split; [done|]. destruct Hmlo; [by left|by right].
Qed.

Lemma try_fold_app {E A S} (f : S -> A -> outcome E S) s xs ys :
  try_fold f s (xs ++ ys) = try_fold f s xs ≫= fun s' => try_fold f s' ys.
Proof.
  revert s. induction xs as [|x xs IH]; intros s; cbn [try_fold app]; [done|].
  destruct (f s x) as [s'|e|]; cbn; [apply IH|done|done].
Qed.

Lemma backward_pass fee final hops :
  is_u64 final ->
  try_fold (fun r terms => hop_gross_for_net terms fee r) final (rev hops) <> Panic /\
  (forall g, try_fold (fun r terms => hop_gross_for_net terms fee r) final (rev hops) = Ok g ->
     is_u64 g /\ final <= g /\ forward_sats fee hops g = final).
Proof.
  intros Hf. induction hops as [|t hops [IHp IH]]; cbn [rev].
  { cbn. split; [done|]. intros g [= <-]. split; [done|]. split; [lia|done]. }
  rewrite try_fold_app.
  destruct (try_fold _ final (rev hops)) as [r|e|]; [|split; [done|]; by intros g Hg|done].
  destruct (IH r eq_refl) as (Hr & Hle & Hfw). rewrite bind_Ok_eq. cbn [try_fold].
  destruct (hop_gross_spec t fee r Hr) as [Hp Hg].
  destruct (hop_gross_for_net t fee r) as [g|e|]; [|split; [done|]; by intros g Hg'|done].
  destruct (Hg g eq_refl) as (Hgr & Hnet & _). rewrite bind_Ok_eq. split; [done|].
  intros g' [= <-]. split; [|split; [lia|]].
  - destruct Hr. unfold in_width in *. assert (MAX_MONEY < 2 ^ 64) by reflexivity. lia.
  - unfold forward_sats in *. cbn [fold_left]. by rewrite Hnet.
Qed.

(** solving one hop always ends; a solution is an amount of which the
    maker forwards exactly the required net, and one satoshi less is not
    enough. *)
Lemma hop_gross_is_exact_and_tight (terms : HopFeeTerms) (fee n : Z) (Hn : is_u64 n) :
  match hop_gross_for_net terms fee n with
  | Ok g => n <= g /\ hop_net_sats terms fee g = n /\ (g = n \/ hop_net_sats terms fee (g - 1) < n)
  | Err _ => True
  | Panic => False
  end.
Proof.
  destruct (hop_gross_spec terms fee n Hn) as [Hp Hg].
  destruct (hop_gross_for_net terms fee n) as [g|e|]; [|done|done].
  destruct (Hg g eq_refl) as (Hr & Hnet & Ht). split; [lia|done].
Qed.

(** The solver is complete: where the maker's net amount does not decrease
    as the gross grows, every net that some gross below half of the money cap
    yields is solved, with the least such gross. *)
Lemma hop_gross_is_complete (terms : HopFeeTerms) (fee n g : Z)
    (Hn : 1 <= n) (Hg : n <= g) (Hcap : 2 * g <= MAX_MONEY)
    (Hnet : hop_net_sats terms fee g = n)
    (Hmono : forall a b, n <= a <= b -> b <= 2 * g -> hop_net_sats terms fee a <= hop_net_sats terms fee b) :
  exists g', hop_gross_for_net terms fee n = Ok g' /\ g' <= g /\ hop_net_sats terms fee g' = n.
Proof.
  assert (is_u64 n) as Hu by (unfold in_width, MAX_MONEY in *; lia).
  unfold hop_gross_for_net. cbv zeta. set (net := hop_net_sats terms fee) in *.
  rewrite Z.max_l by lia.
  destruct (double_hi 64 net n n) as [hi|e|] eqn:Hhi.
  - assert (hi <= 2 * g) as Hb.
    { apply (double_hi_bound net n g 64 n hi); [lia| |exact Hhi]. intros a Ha. rewrite <- Hnet. apply Hmono; lia. }
    apply double_hi_Ok in Hhi as [Hnh Hr]; [|lia].
    destruct (bisect_spec net n 64 n hi) as (m & Hm & Hmr & Hmhi & Hmlo);
      [lia|unfold MAX_MONEY in *; lia|].
    rewrite bind_Ok_eq, Hm, bind_Ok_eq.
    assert (m <= g) as Hmg.
    { destruct Hmlo as [->|Hmlo]; [done|]. destruct (decide (m <= g)); [done|].
      specialize (Hmono g (m - 1)). lia. }
    assert (net m = n) as Hmn.
    { assert (n <= net m) by (destruct Hmhi as [->|]; done).
      pose proof (Hmono m g ltac:(lia) ltac:(lia)). lia. }
    exists m. rewrite Hmn, Z.eqb_refl. done.
  - exfalso. apply (double_hi_no_error net n g 64 n e); [lia|lia|by left| |done|done].
    intros a Ha. rewrite <- Hnet. apply Hmono; lia.
  - exfalso. apply (double_hi_total net n 63 n); [lia| |exact Hhi].
    change (2 ^ Z.of_nat 63) with 9223372036854775808. unfold MAX_MONEY. lia.
Qed.

(** C39: a solved route, replayed forward, nets exactly the requested amount at
    its last hop; the solver's own consistency check never rejects, and solving
    never runs out of its loop bounds. *)
Theorem solved_route_nets_exactly (hops : list HopFeeTerms) (fee final : Z) (Hf : is_u64 final) :
  solve_route_gross_sats hops fee final =
    try_fold (fun r terms => hop_gross_for_net terms fee r) final (rev hops) /\
  match solve_route_gross_sats hops fee final with
  | Ok gross => final <= gross /\ forward_sats fee hops gross = final
  | Err _ => True
  | Panic => False
  end.
Proof.
  unfold solve_route_gross_sats. destruct (backward_pass fee final hops Hf) as [Hp Hb].
  destruct (try_fold _ final (rev hops)) as [g|e|]; [|done|done].
  destruct (Hb g eq_refl) as (_ & Hle & Hfw). rewrite bind_Ok_eq. cbv zeta.
  by rewrite Hfw, Z.eqb_refl.
Qed.

(** ** The route of a payment swap *)
Section route.
Context {lib : BitcoinLib} {laws : BitcoinLaws lib}.
Context (poll_maker : string -> outcome TakerError (option Offer)).
Context (spendable : outcome TakerError Amount).

Lemma price_hop_Ok amt n i swap t s' :
  price_hop poll_maker amt n i (Some swap) = (Ok t, s') ->
  exists offer, s' = Some (set_maker_offer i offer swap) /\ (i < length (os_makers swap))%nat /\
    t = from_offer offer (refund_locktime_offset n (Z.of_nat i)).
Proof.
  unfold price_hop, swap_state. rewrite st_bind_Ok. intros (m & s1 & [Hm ->]%lift_Ok & Hk).
  apply expect_Ok in Hm. apply st_bind_Ok in Hk as (offer & s2 & Hoff & Hk).
  assert (s2 = Some swap) as ->.
  { destruct (mc_offer m); [by injection Hoff as <-|].
    apply st_bind_Ok in Hoff as (o & s3 & [_ ->]%lift_Ok & [_ ->]%lift_Ok). done. }
  apply st_bind_Ok in Hk as ([] & s3 & [_ ->]%lift_Ok & Hk). cbn in Hk.
  injection Hk as <- <-. exists offer. split; [done|]. split; [|done]. by eapply lookup_lt_Some.
Qed.

(** The state after pricing the hops [k .. k + m - 1]. *)
Lemma price_hops_Ok amt n m : forall k swap hops s',
  st_map (price_hop poll_maker amt n) (seq k m) (Some swap) = (Ok hops, s') ->
  exists swap', s' = Some swap' /\ os_params swap' = os_params swap /\ length hops = m /\
    length (os_makers swap') = length (os_makers swap) /\
    (forall i, (i < k)%nat -> os_makers swap' !! i = os_makers swap !! i) /\
    (forall j t, hops !! j = Some t -> exists offer,
       (mc_offer <$> os_makers swap' !! (k + j)%nat) = Some (Some offer) /\
       t = from_offer offer (refund_locktime_offset n (Z.of_nat (k + j)))).
Proof.
  induction m as [|m IH]; intros k swap hops s'; cbn [seq st_map].
  { intros [= <- <-]. exists swap. do 5 (split; [done|]). intros j t Hj. by rewrite lookup_nil in Hj. }
  rewrite st_bind_Ok. intros (t0 & s1 & (offer & -> & Hlt & ->)%price_hop_Ok & Hk).
  apply st_bind_Ok in Hk as (ts & s2 & Hrest & Hk). injection Hk as <- <-.
  apply IH in Hrest as (swap' & -> & Hp & Hlen & Hml & Hlow & Hhops).
  exists swap'. split; [done|]. split; [exact Hp|]. split; [cbn [length]; by rewrite Hlen|].
  cbn [set_maker_offer os_makers] in Hml, Hlow. rewrite length_alter in Hml.
  split; [exact Hml|]. split.
  { intros i Hi. rewrite Hlow by lia. apply list_lookup_alter_ne. lia. }
  intros [|j] t Hj.
  - injection Hj as <-. exists offer. rewrite Nat.add_0_r. split; [|done].
    rewrite Hlow by lia. apply lookup_lt_is_Some_2 in Hlt as [mk Hmk].
    by rewrite list_lookup_alter_eq, Hmk.
  - cbn in Hj. destruct (Hhops j t Hj) as (o & H1 & H2). exists o.
    replace (k + S j)%nat with (S k + j)%nat by lia. done.
Qed.

Lemma expected_hops_forward makers n fee hops : forall i a,
  (forall j t, hops !! j = Some t -> exists m offer,
     makers !! (i + j)%nat = Some m /\ mc_offer m = Some offer /\
     t = from_offer offer (hop_locktime n (Z.of_nat (i + j)) m)) ->
  expected_hops makers n fee (Z.of_nat i) (length hops) a = Ok (forward_sats fee hops a).
Proof.
  induction hops as [|t hops IH]; intros i a Hh; cbn [length expected_hops]; [done|].
  destruct (Hh 0%nat t eq_refl) as (m & offer & Hm & Ho & ->). rewrite Nat.add_0_r in *.
  rewrite Nat2Z.id, Hm. cbn [expect]. rewrite bind_Ok_eq, Ho. cbn [ok_or]. rewrite bind_Ok_eq.
  replace (Z.of_nat i + 1) with (Z.of_nat (S i)) by lia. rewrite IH; [done|].
  intros j t Hj. destruct (Hh (S j) t Hj) as (m' & o' & H1 & H2 & H3). exists m', o'.
  by replace (S i + j)%nat with (i + S j)%nat by lia.
Qed.

Lemma settlement_budget_Ok {E} p :
  payment_settlement_budget_sats (E := E) p = Ok (match p with Legacy => 600 | Taproot => 310 end).
Proof.
  destruct p; unfold payment_settlement_budget_sats; rewrite !calculate_fee_sats_Ok by done; done.
Qed.

(** What preparing a payment route leaves behind. *)
Lemma payment_prepare_Ok address swap s' :
  payment_prepare_route poll_maker spendable address (Some swap) = (Ok (), s') ->
  let n := length (os_makers swap) in
  let budget := wrap 64 ((match swp_protocol (os_params swap) with Legacy => 600 | Taproot => 310 end)
                         * swp_tx_count (os_params swap)) in
  let fee := wrap 64 (550 * swp_tx_count (os_params swap)) in
  exists swap' hops gross,
    s' = Some swap' /\
    os_params swap' = {| (os_params swap) with swp_send_amount := gross |} /\
    os_payment swap' = Some {| pq_address := address; pq_amount := swp_send_amount (os_params swap);
                               pq_settlement_budget := budget; pq_taker_funding_fee_estimate := fee |} /\
    solve_route_gross_sats hops fee (wrap 64 (swp_send_amount (os_params swap) + budget)) = Ok gross /\
    length (os_makers swap') = n /\ length hops = n /\
    (forall j t, hops !! j = Some t -> exists offer,
       (mc_offer <$> os_makers swap' !! j) = Some (Some offer) /\
       t = from_offer offer (refund_locktime_offset (Z.of_nat n) (Z.of_nat j))).
Proof.
  unfold payment_prepare_route. unfold swap_state at 1. rewrite st_bind_Ok.
  intros (hops & s1 & (swap1 & -> & Hp & Hlen & Hml & _ & Hhops)%price_hops_Ok & Hk). cbv zeta.
  rewrite settlement_budget_Ok, estimate_funding_tx_fee_sats_Ok in Hk.
  apply st_bind_Ok in Hk as (b & s2 & [Hb ->]%lift_Ok & Hk). injection Hb as <-.
  apply st_bind_Ok in Hk as (f & s2 & [Hf ->]%lift_Ok & Hk). injection Hf as <-.
  apply st_bind_Ok in Hk as (gross & s2 & [Hg ->]%lift_Ok & Hk).
  apply st_bind_Ok in Hk as ([] & s2 & [_ ->]%lift_Ok & Hk).
  apply st_bind_Ok in Hk as (av & s2 & [_ ->]%lift_Ok & Hk).
  apply st_bind_Ok in Hk as (rq & s2 & [_ ->]%lift_Ok & Hk).
  apply st_bind_Ok in Hk as ([] & s2 & [_ ->]%lift_Ok & Hk).
  injection Hk as <-. eexists _, hops, gross. split; [done|]. cbn [os_params os_payment os_makers].
  rewrite Hp. repeat (split; [done|]). exact Hhops.
Qed.

(** A route whose hops are those the gross amount was solved for funds the last
    hop with the receiver's amount and the whole settlement budget. *)
Lemma expected_amount_of_hops (swap swap2 : OngoingSwapState) hops gross :
  let p := os_params swap in
  let c := match swp_protocol p with Legacy => 600 | Taproot => 310 end in
  0 <= swp_send_amount p <= MAX_MONEY -> is_u32 (swp_tx_count p) -> os_makers swap <> [] ->
  solve_route_gross_sats hops (wrap 64 (550 * swp_tx_count p))
    (wrap 64 (swp_send_amount p + wrap 64 (c * swp_tx_count p))) = Ok gross ->
  os_params swap2 = {| p with swp_send_amount := gross |} ->
  length (os_makers swap2) = length (os_makers swap) -> length hops = length (os_makers swap) ->
  (forall j t, hops !! j = Some t -> exists m offer,
     os_makers swap2 !! j = Some m /\ mc_offer m = Some offer /\
     t = from_offer offer (hop_locktime (zlen (os_makers swap2)) (Z.of_nat j) m)) ->
  expected_amount_for_hop (Some swap2) (length (os_makers swap) - 1) =
    Ok (swp_send_amount p + c * swp_tx_count p).
Proof.
  intros p c Hamt Htx Hne Hsolve Hpar Hl2 Hlen Hhops.
  assert (0 <= c <= 600) by (unfold c; destruct (swp_protocol _); lia).
  unfold in_width, MAX_MONEY in *. change (2 ^ 32) with 4294967296 in Htx.
  assert (forall z, 0 <= z < 2 ^ 64 -> wrap 64 z = z) as Hw by (intros z Hz; by apply wrap_small).
  rewrite !(Hw (c * _)), (Hw (swp_send_amount _ + _)) in Hsolve by nia.
  set (final := swp_send_amount p + c * _) in *.
  assert (is_u64 final) as Hfin by (unfold in_width, final; nia).
  unfold expected_amount_for_hop. cbn [ok_or]. rewrite bind_Ok_eq, estimate_funding_tx_fee_sats_Ok, bind_Ok_eq.
  rewrite Hpar. cbn [swp_tx_count swp_send_amount]. cbv zeta.
  replace (S (length (os_makers swap) - 1)) with (length hops)
    by (destruct (os_makers swap); [done|]; cbn [length] in *; lia).
  rewrite (expected_hops_forward _ _ _ hops 0 _ Hhops).
  f_equal. unfold solve_route_gross_sats in Hsolve. inv_ok Hsolve. to_prop. done.
Qed.

(** once a payment route is prepared, the amount the taker will demand of
    the last maker is the receiver's amount plus the whole settlement budget,
    whatever the fee schedules, as long as negotiation keeps the quoted offers
    and locktimes. *)
Lemma payment_route_funds_final_hop (address : Address) (swap swap2 : OngoingSwapState) (s' : TakerSt)
    (Hrun : payment_prepare_route poll_maker spendable address (Some swap) = (Ok (), s'))
    (Hamt : 0 <= swp_send_amount (os_params swap) <= MAX_MONEY)
    (Htx : is_u32 (swp_tx_count (os_params swap)))
    (Hne : os_makers swap <> [])
    (Hkeep : exists swap', s' = Some swap' /\ os_params swap2 = os_params swap' /\
               map mc_offer (os_makers swap2) = map mc_offer (os_makers swap'))
    (Hlock : forall i m, os_makers swap2 !! i = Some m ->
               hop_locktime (zlen (os_makers swap)) (Z.of_nat i) m =
               refund_locktime_offset (zlen (os_makers swap)) (Z.of_nat i)) :
  expected_amount_for_hop (Some swap2) (length (os_makers swap) - 1) =
    Ok (swp_send_amount (os_params swap) +
        (match swp_protocol (os_params swap) with Legacy => 600 | Taproot => 310 end)
          * swp_tx_count (os_params swap)).
Proof.
  destruct Hkeep as (swap' & -> & Hpar & Hoff).
  apply payment_prepare_Ok in Hrun as (? & hops & gross & [= <-] & Hp' & _ & Hsolve & Hml & Hlen & Hhops).
  assert (length (os_makers swap2) = length (os_makers swap)) as Hl2.
  { rewrite <- Hml, <- (length_map mc_offer), Hoff. apply length_map. }
  apply (expected_amount_of_hops swap swap2 hops gross); try done; [by rewrite Hpar|].
  intros j t Hj. destruct (Hhops j t Hj) as (offer & Hm & ->).
  rewrite <- list_lookup_fmap in Hm. change (fmap mc_offer) with (map mc_offer) in Hm.
  rewrite <- Hoff in Hm. change (map mc_offer) with (fmap (M := list) mc_offer) in Hm.
  rewrite list_lookup_fmap in Hm. destruct (os_makers swap2 !! j) as [m|] eqn:Hm2; [|done].
  injection Hm as Hm. exists m, offer. unfold zlen in *. by rewrite Hl2, (Hlock _ _ Hm2).
Qed.
End route.

(** ** Settlement targets *)
Definition sum_sats : list Z -> Z := foldr Z.add 0.

Definition target_of (script : Script) (share : Z) (c : IncomingSwapCoin) : IncomingSwapCoin :=
  {| c with isc_payment_target :=
       Some {| pt_script_pubkey := script; pt_amount := isc_funding_amount c - share |} |}.

Lemma stamp_coins_Ok script share coins : forall total r coins',
  0 <= share -> stamp_coins script share total coins = (Ok r, coins') ->
  coins' = map (target_of script share) coins /\
  Forall (fun c => MIN_PAYMENT_OUTPUT_SATS <= isc_funding_amount c - share) coins /\
  (0 <= total -> total + sum_sats (map isc_funding_amount coins) < 2 ^ 64 ->
   r = total + sum_sats (map isc_funding_amount coins) - zlen coins * share).
Proof.
  induction coins as [|c coins IH]; intros total r coins' Hs; cbn [stamp_coins].
  { intros [= <- <-]. split; [done|]. split; [constructor|]. unfold zlen. cbn. intros. lia. }
  destruct (checked_sub (isc_funding_amount c) share) as [o|] eqn:Ho; [|done].
  apply checked_sub_Some in Ho as [Hle ->].
  destruct (Z.leb_spec MIN_PAYMENT_OUTPUT_SATS (isc_funding_amount c - share)) as [Hmin|]; [|done].
  destruct (stamp_coins _ _ _ coins) as [r1 coins1] eqn:Hr. intros [= -> <-].
  apply IH in Hr as (-> & Hall & Htot); [|done]. split; [done|].
  split; [constructor; done|]. intros H0 Hlt. cbn [map sum_sats foldr] in *.
  assert (0 <= sum_sats (map isc_funding_amount coins)) as Hpos.
  { clear - Hall Hs. unfold sum_sats. induction Hall as [|c cs Hc _ IH]; cbn; [lia|].
    unfold MIN_PAYMENT_OUTPUT_SATS in *. lia. }
  unfold sum_sats, MIN_PAYMENT_OUTPUT_SATS in *.
  rewrite wrap_small in Htot by (unfold in_width; lia). rewrite zlen_cons. rewrite Htot; lia.
Qed.

(** When the settlement targets are stamped, every final incoming coin
    pays the receiver's script its funding less an equal share of the budget,
    above the dust floor, and together they pay the receiver exactly the
    quoted amount; a coin count the budget does not divide over, a coin too
    small or a wrong total is rejected. *)
Lemma stamped_targets_pay_exactly (spk : Address -> Script) (swap : OngoingSwapState) (q : PaymentQuote)
    (Hq : os_payment swap = Some q) (Hb : 0 <= pq_settlement_budget q)
    (Hsum : sum_sats (map isc_funding_amount (os_incoming_swapcoins swap)) < 2 ^ 64) :
  forall s', payment_stamp_targets spk (Some swap) = (Ok (), s') ->
  let n := zlen (os_incoming_swapcoins swap) in
  let share := pq_settlement_budget q / n in
  0 < n /\ n * share = pq_settlement_budget q /\
  s' = Some {| swap with os_incoming_swapcoins :=
                 map (target_of (spk (pq_address q)) share) (os_incoming_swapcoins swap) |} /\
  Forall (fun c => MIN_PAYMENT_OUTPUT_SATS <= isc_funding_amount c - share) (os_incoming_swapcoins swap) /\
  sum_sats (map (fun c => isc_funding_amount c - share) (os_incoming_swapcoins swap)) = pq_amount q.
Proof.
  intros s'. unfold payment_stamp_targets, swap_state. rewrite Hq, st_bind_Ok.
  set (n := zlen (os_incoming_swapcoins swap)).
  assert (0 <= n) by apply zlen_nonneg.
  intros ([] & s1 & [Hn ->]%lift_Ok & Hk). apply reject_Ok in Hn. to_prop.
  apply st_bind_Ok in Hk as ([] & s1 & [Hdiv ->]%lift_Ok & Hk). apply reject_Ok in Hdiv. to_prop.
  pose proof (Z.div_mod (pq_settlement_budget q) n ltac:(lia)) as Hdm.
  destruct (stamp_coins _ _ 0 _) as [r coins] eqn:Hst.
  apply st_bind_Ok in Hk as ([] & s1 & [= <-] & Hk).
  apply st_bind_Ok in Hk as (total & s2 & [-> ->]%lift_Ok & [Ht ->]%lift_Ok).
  apply reject_Ok in Ht. to_prop.
  apply stamp_coins_Ok in Hst as (-> & Hall & Htot); [|apply Z.div_pos; lia]. fold n in Htot.
  cbv zeta. split; [lia|]. split; [lia|]. split; [by rewrite Hq|]. split; [done|].
  rewrite <- Ht, (Htot ltac:(lia) ltac:(lia)). cbn [Z.add]. unfold n. generalize (pq_settlement_budget q / zlen (os_incoming_swapcoins swap)).
  intros share. clear. induction (os_incoming_swapcoins swap) as [|c cs IH]; [done|].
  rewrite zlen_cons. unfold sum_sats in *. cbn [map foldr]. lia.
Qed.

(** ** Witnesses *)
#[local] Existing Instance Reference.lib.
#[local] Existing Instance Reference.laws.

Definition sample_terms (base : Z) : HopFeeTerms :=
  {| hft_base_fee := base; hft_amount_relative_fee_pct := f64_lit 25 10;
     hft_time_relative_fee_pct := f64_lit 1 100; hft_locktime := 40 |}.

Lemma hop_gross_is_exact_and_tight_witness :
  hop_gross_for_net (sample_terms 1000) 550 100000 = Ok 104583 /\
  hop_net_sats (sample_terms 1000) 550 104583 = 100000.
Proof.
  pose proof (hop_gross_is_exact_and_tight (sample_terms 1000) 550 100000 ltac:(by split)) as H.
  assert (hop_gross_for_net (sample_terms 1000) 550 100000 = Ok 104583) as E by (vm_compute; reflexivity).
  rewrite E in H. split; [exact E|exact (proj1 (proj2 H))].
Defined.

Lemma forall_below (n : nat) (P : Z -> bool) :
  forallb (fun k => P (Z.of_nat k)) (seq 0 n) = true -> forall z, 0 <= z < Z.of_nat n -> P z = true.
Proof.
  rewrite forallb_forall. intros H z Hz. specialize (H (Z.to_nat z)).
  rewrite Z2Nat.id in H by lia. apply H, in_seq. lia.
Qed.

Lemma monotone_from_steps (f : Z -> Z) (n : nat) :
  forallb (fun k => f (Z.of_nat k) <=? f (Z.of_nat k + 1)) (seq 0 n) = true ->
  forall a b, 0 <= a <= b -> b <= Z.of_nat n -> f a <= f b.
Proof.
  intros H a b Hab Hb. pose proof (forall_below n (fun z => f z <=? f (z + 1)) H) as Hs.
  replace b with (a + Z.of_nat (Z.to_nat (b - a))) in * by lia.
  induction (Z.to_nat (b - a)) as [|d IH]; [rewrite Z.add_0_r; lia|].
  specialize (IH ltac:(lia) ltac:(lia)). specialize (Hs (a + Z.of_nat d) ltac:(lia)).
  cbv beta in Hs. to_prop. replace (a + Z.of_nat (S d)) with (a + Z.of_nat d + 1) by lia. lia.
Qed.

Lemma hop_gross_is_complete_witness :
  exists g, hop_gross_for_net (sample_terms 9) 1 20 = Ok g /\ g <= 31.
Proof.
  destruct (hop_gross_is_complete (sample_terms 9) 1 20 31) as (g & H1 & H2 & _);
    [lia|lia|unfold MAX_MONEY; lia|vm_compute; reflexivity| |].
  - intros a b Ha Hb. apply (monotone_from_steps (hop_net_sats (sample_terms 9) 1) 62); [|lia|lia].
    vm_compute. reflexivity.
  - exists g. split; [exact H1|exact H2].
Defined.

Lemma solved_route_nets_exactly_witness :
  exists gross, solve_route_gross_sats [sample_terms 1000; sample_terms 700] 550 100000 = Ok gross /\
    forward_sats 550 [sample_terms 1000; sample_terms 700] gross = 100000.
Proof.
  pose proof (solved_route_nets_exactly [sample_terms 1000; sample_terms 700] 550 100000 ltac:(by split)) as [_ H].
  destruct (solve_route_gross_sats [sample_terms 1000; sample_terms 700] 550 100000) as [g|e|] eqn:E.
  - exists g. split; [reflexivity|exact (proj2 H)].
  - vm_compute in E. discriminate E.
  - destruct H.
Defined.

Definition sample_offer : Offer :=
  {| of_base_fee := 1000; of_amount_relative_fee_pct := f64_lit 25 10; of_time_relative_fee_pct := f64_lit 1 100;
     of_required_confirms := 1; of_minimum_locktime := 20; of_max_size := 10000000; of_min_size := 10000;
     of_tweakable_point := Reference.key 5;
     of_fidelity := {| fp_bond := {| fb_outpoint := sample_outpoint; fb_amount := 50000; fb_lock_time := 900000;
                         fb_pubkey := Reference.key 6; fb_conf_height := None; fb_is_spent := false;
                         fb_bond_index := 0; fb_tx := None |};
                       fp_cert_hash := 1; fp_cert_sig := [] |};
     of_tweak_chain_code := [] |}.

Definition sample_maker (offer : option Offer) : MakerConnection :=
  {| mc_address := "maker"; mc_protocol := Taproot; mc_tweakable_point := None; mc_offer := offer;
     mc_negotiated_timelock := 0;
     mc_exchange := EP_Taproot {| tep_connected := false; tep_contract_data_sent := false;
       tep_maker_contract_received := false; tep_swapcoins_created := false;
       tep_maker_funding_confirmed := false |};
     mc_finalization := {| fin_privkey_received := false; fin_privkey_forwarded := false |} |}.

Definition sample_swap (makers : list MakerConnection) (coins : list IncomingSwapCoin)
    (payment : option PaymentQuote) : OngoingSwapState :=
  {| os_id := "s"; os_preimage := replicate 32 7; os_params := SwapParams_new Taproot 500000 2;
     os_makers := makers; os_outgoing_swapcoins := []; os_incoming_swapcoins := coins;
     os_watchonly_swapcoins := []; os_multisig_nonces := []; os_hashlock_nonces := []; os_spare_makers := [];
     os_phase := MakersDiscovered; os_reference_height := None; os_payment := payment |}.

Definition route_swap : OngoingSwapState := sample_swap [sample_maker (Some sample_offer); sample_maker None] [] None.
Definition route_after : TakerSt :=
  Eval vm_compute in
    (payment_prepare_route (fun _ => Ok (Some sample_offer)) (Ok 2000000) "addr" (Some route_swap)).2.

Lemma payment_route_funds_final_hop_witness :
  exists swap', route_after = Some swap' /\
    swp_send_amount (os_params swap') = 532788 /\
    expected_amount_for_hop (Some swap') 1 = Ok 500310.
Proof.
  eexists. split; [reflexivity|]. split; [reflexivity|].
  eapply (payment_route_funds_final_hop (fun _ => Ok (Some sample_offer)) (Ok 2000000) "addr" route_swap _
           route_after).
  - vm_compute. reflexivity.
  - split; discriminate.
  - split; reflexivity || discriminate.
  - discriminate.
  - eexists. split; [reflexivity|]. split; reflexivity.
  - intros [|[|i]] m Hm; [injection Hm as <-; reflexivity..|discriminate Hm].
Defined.

Definition sample_coin (amt : Amount) : IncomingSwapCoin :=
  isc_new_taproot 3 [] [] {| version := 2; lock_time := 0; input := []; output := [] |} amt.
Definition sample_quote : PaymentQuote :=
  {| pq_address := "addr"; pq_amount := 3000; pq_settlement_budget := 620;
     pq_taker_funding_fee_estimate := 1100 |}.
Definition stamp_swap : OngoingSwapState :=
  sample_swap [] [sample_coin 2000; sample_coin 1620] (Some sample_quote).

Lemma stamped_targets_pay_exactly_witness :
  map isc_payment_target
    (map (target_of [9] 310) [sample_coin 2000; sample_coin 1620]) =
    [Some {| pt_script_pubkey := [9]; pt_amount := 1690 |}; Some {| pt_script_pubkey := [9]; pt_amount := 1310 |}] /\
  sum_sats (map (fun c => isc_funding_amount c - 310) (os_incoming_swapcoins stamp_swap)) = 3000.
Proof.
  split; [reflexivity|].
  refine (proj2 (proj2 (proj2 (proj2 (stamped_targets_pay_exactly (fun _ => [9]) stamp_swap sample_quote
             eq_refl _ _ _ _))))); [discriminate|reflexivity|].
  vm_compute. reflexivity.
Defined.
