(* ===== verification/LegacyVerification.v ===== *)
(** Verification of the peer's legacy messages: src/maker/legacy_verification.rs
    and src/taker/legacy_verification.rs.

    The maker's functions decide whether to sign, to broadcast and to hand over
    keys; the taker's whether to go on with a hop.  Log lines and the port
    number they carry are left out. *)
From S2P Require Import Prelude Float64 Bitcoin Messages Contract Errors SwapCoin ScriptEval TakerTracker TakerState.
#[local] Open Scope string_scope.
#[local] Open Scope list_scope.
#[local] Open Scope Z_scope.

(** [From<ProtocolError> for TakerError]. *)
Definition taker_protocol {A} (m : outcome ProtocolError A) : outcome TakerError A :=
  map_err (fun e => TE_Wallet (WE_Protocol e)) m.

Section verification.
Context {lib : BitcoinLib}.

(** ** Maker *)
Definition verify_sender_txinfo (tweakable_pubkey : PublicKey) (hashvalue : Hash160) (taker_locktime : Z)
    (txinfo : ContractTxInfoForSender) : outcome MakerError () :=
  _ ← map_err (fun _ => ME_General "Sender contract {} invalid multisig redeemscript: {:?}")
        (check_reedemscript_is_multisig (cts_multisig_redeemscript txinfo));
  _ ← map_err (fun _ => ME_General "Sender contract {} multisig doesn't contain maker's pubkey: {:?}")
        (check_multisig_has_pubkey (cts_multisig_redeemscript txinfo) tweakable_pubkey
           (cts_multisig_nonce txinfo));
  _ ← reject (negb (length (input (cts_senders_contract_tx txinfo)) =? 1)%nat
              || negb (length (output (cts_senders_contract_tx txinfo)) =? 1)%nat)
        (ME_General "Sender contract tx {} has invalid structure: {} inputs, {} outputs");
  hashlock_pubkey ← map_err (fun _ => ME_General "Sender contract {} hashlock key derivation failed")
        (calculate_pubkey_from_nonce tweakable_pubkey (cts_hashlock_nonce txinfo));
  o ← expect (output (cts_senders_contract_tx txinfo) !! 0%nat);
  map_err (fun _ => ME_General "Sender contract {} output invalid: {:?}")
    (is_contract_out_valid o hashlock_pubkey (cts_timelock_pubkey txinfo) hashvalue taker_locktime 0).

Definition verify_req_contract_sigs_for_sender (txs_info : list ContractTxInfoForSender)
    (tweakable_pubkey : PublicKey) (hashvalue : Hash160) (locktime : Z) : outcome MakerError () :=
  _ ← reject (bool_decide (txs_info = [])) (ME_General "Empty sender contract txs info from taker");
  taker_locktime ← ok_or (checked_add 16 locktime REFUND_LOCKTIME_STEP)
        (ME_General "Sender contract locktime overflows the refund step");
  for_each (verify_sender_txinfo tweakable_pubkey hashvalue taker_locktime) txs_info.

(** The signature of the other side over the contract of one swap coin. *)
Definition verify_incoming_sig (p : Signature * IncomingSwapCoin) : outcome MakerError () :=
  let '(sig, incoming) := p in
  other_pubkey ← ok_or (isc_other_pubkey incoming)
    (ME_General "Incoming swapcoin missing other_pubkey for signature verification");
  my_pubkey ← ok_or (isc_my_pubkey incoming) (ME_General "Incoming swapcoin missing my_pubkey");
  map_err (fun _ => ME_General "Receiver signature {} verification failed: {:?}")
    (verify_contract_tx_sig (isc_contract_tx incoming) (create_multisig_redeemscript my_pubkey other_pubkey)
       (isc_funding_amount incoming) other_pubkey (sig_bytes sig)).

Definition verify_outgoing_sig (p : Signature * OutgoingSwapCoin) : outcome MakerError () :=
  let '(sig, outgoing) := p in
  other_pubkey ← ok_or (osc_other_pubkey outgoing)
    (ME_General "Outgoing swapcoin missing other_pubkey for signature verification");
  my_pubkey ← ok_or (osc_my_pubkey outgoing) (ME_General "Outgoing swapcoin missing my_pubkey");
  map_err (fun _ => ME_General "Sender signature {} verification failed: {:?}")
    (verify_contract_tx_sig (osc_contract_tx outgoing) (create_multisig_redeemscript my_pubkey other_pubkey)
       (osc_funding_amount outgoing) other_pubkey (sig_bytes sig)).

Definition verify_contract_sigs (receivers_sigs senders_sigs : list Signature)
    (incoming_swapcoins : list IncomingSwapCoin) (outgoing_swapcoins : list OutgoingSwapCoin)
    : outcome MakerError () :=
  _ ← for_each verify_incoming_sig (zip receivers_sigs incoming_swapcoins);
  for_each verify_outgoing_sig (zip senders_sigs outgoing_swapcoins).

Definition verify_handover_key (p : SwapPrivkey * IncomingSwapCoin) : outcome MakerError () :=
  let '(privkey_info, incoming) := p in
  let derived_pubkey := {| compressed := true; inner := point_from_secret_key (sp_key privkey_info) |} in
  expected_pubkey ← ok_or (isc_other_pubkey incoming)
    (ME_General "Missing other_pubkey on incoming swapcoin during handover verification");
  reject (bool_decide (derived_pubkey <> expected_pubkey))
    (ME_General "Privkey derives pubkey that doesn't match expected other_pubkey").

Definition verify_legacy_privkey_handover (privkeys : list SwapPrivkey)
    (incoming_swapcoins : list IncomingSwapCoin) : outcome MakerError () :=
  _ ← reject (negb (length privkeys =? length incoming_swapcoins)%nat)
        (ME_General "Privkey count {} doesn't match incoming swapcoin count {}");
  for_each verify_handover_key (zip privkeys incoming_swapcoins).

(** ** Taker *)
Definition verify_sender_sig (p : Signature * OutgoingSwapCoin) : outcome TakerError () :=
  let '(sig, swapcoin) := p in
  other_pubkey ← ok_or (osc_other_pubkey swapcoin)
    (TE_General "Outgoing swapcoin {} missing other_pubkey for sig verification");
  my_pubkey ← ok_or (osc_my_pubkey swapcoin)
    (TE_General "Outgoing swapcoin {} missing my_pubkey for sig verification");
  map_err (fun _ => TE_General "Invalid sender contract signature {} from maker: {:?}")
    (verify_contract_tx_sig (osc_contract_tx swapcoin) (create_multisig_redeemscript my_pubkey other_pubkey)
       (osc_funding_amount swapcoin) other_pubkey (sig_bytes sig)).

Definition verify_sender_sigs (s : TakerSt) (sigs : list Signature) : outcome TakerError () :=
  swap ← ok_or s (TE_General "No active swap");
  for_each verify_sender_sig (zip sigs (os_outgoing_swapcoins swap)).

(** [verify(tx, pubkey1).is_ok() || verify(tx, pubkey2).is_ok()]. *)
Definition signed_by_either (tx : Transaction) (info : SenderContractTxInfo) (sig : Signature)
    (bad : TakerError) : outcome TakerError () :=
  '(pubkey1, pubkey2) ← taker_protocol
      (read_pubkeys_from_multisig_redeemscript (sct_multisig_redeemscript info));
  let verify pk := is_ok (verify_contract_tx_sig tx (sct_multisig_redeemscript info)
                            (sct_funding_amount info) pk (sig_bytes sig)) in
  reject (negb (verify pubkey1 || verify pubkey2)) bad.

Definition verify_sender_sigs_from_info (sigs : list Signature) (senders_info : list SenderContractTxInfo)
    : outcome TakerError () :=
  for_each (fun '(sig, info) =>
      signed_by_either (sct_contract_tx info) info sig
        (TE_General "Invalid forwarded sender contract signature {} from maker"))
    (zip sigs senders_info).

Definition verify_receiver_sigs (sigs : list Signature) (receivers_txs : list Transaction)
    (prev_senders_info : list SenderContractTxInfo) : outcome TakerError () :=
  _ ← reject (negb (length sigs =? length receivers_txs)%nat
              || negb (length sigs =? length prev_senders_info)%nat)
        (TE_General "Wrong number of receiver signatures: expected {}, got {}");
  for_each (fun '(sig, tx, info) =>
      signed_by_either tx info sig (TE_General "Invalid receiver contract signature {} from maker"))
    (zip (zip sigs receivers_txs) prev_senders_info).

(** The contract spends the output of the funding transaction that pays the
    advertised 2-of-2, and all of it. *)
Definition check_funding_binding (info : SenderContractTxInfo) : outcome TakerError () :=
  inp ← ok_or (input (sct_contract_tx info) !! 0%nat)
          (TE_General "Sender contract {} contract_tx has no inputs");
  _ ← reject (negb (op_txid (previous_output inp) =? compute_txid (sct_funding_tx info)))
        (TE_General "Sender contract {} contract_tx references wrong funding tx: expected {}, got {}");
  funding_output ← ok_or (output (sct_funding_tx info) !! Z.to_nat (op_vout (previous_output inp)))
        (TE_General "Sender contract {} references missing funding output {}");
  expected_multisig_spk ← taker_protocol (redeemscript_to_scriptpubkey (sct_multisig_redeemscript info));
  _ ← reject (bool_decide (script_pubkey funding_output <> expected_multisig_spk))
        (TE_General "Sender contract {} funding output does not pay to advertised multisig");
  reject (negb (value funding_output =? sct_funding_amount info))
    (TE_General "Sender contract {} funding output value {} does not match advertised amount {}").

(** What the taker reads out of the contract redeemscript. *)
Definition check_contract_terms (expected_hashvalue : Hash160) (refund_locktime : Z)
    (info : SenderContractTxInfo) : outcome TakerError () :=
  _ ← map_err (fun _ => TE_General "Sender contract {} has invalid contract tx: {:?}")
        (validate_contract_tx (sct_contract_tx info) None (sct_contract_redeemscript info));
  hashvalue ← map_err (fun _ => TE_General "Sender contract {} has unreadable hashvalue: {:?}")
        (read_hashvalue_from_contract (sct_contract_redeemscript info));
  _ ← reject (bool_decide (hashvalue <> expected_hashvalue))
        (TE_General "Sender contract {} has wrong hashvalue: expected {:?}, got {:?}");
  locktime ← map_err (fun _ => TE_General "Sender contract {} has unreadable locktime: {:?}")
        (read_contract_locktime (sct_contract_redeemscript info));
  _ ← reject (locktime =? 0) (TE_General "Sender contract {} has zero locktime");
  reject (negb (locktime =? refund_locktime))
    (TE_General "Sender contract {} locktime {} does not match requested refund locktime {}").

(** [keys[i % keys.len()]]. *)
Definition cyclic {A} (keys : list A) (i : nat) : option A := keys !! (i mod length keys)%nat.

Definition check_next_hop_keys (next_multisig_pubkeys next_hashlock_pubkeys : list PublicKey) (i : nat)
    (info : SenderContractTxInfo) : outcome TakerError () :=
  _ ← (if bool_decide (next_multisig_pubkeys = []) then Ok ()
       else
         expected_pubkey ← expect (cyclic next_multisig_pubkeys i);
         '(pubkey1, pubkey2) ← taker_protocol
             (read_pubkeys_from_multisig_redeemscript (sct_multisig_redeemscript info));
         reject (bool_decide (pubkey1 <> expected_pubkey) && bool_decide (pubkey2 <> expected_pubkey))
           (TE_General "Sender contract {} multisig does not contain expected next-hop pubkey"));
  (if bool_decide (next_hashlock_pubkeys = []) then Ok ()
   else
     expected_hashlock ← expect (cyclic next_hashlock_pubkeys i);
     contract_hashlock ← map_err (fun _ => TE_General "Sender contract {} has unreadable hashlock pubkey: {:?}")
         (read_hashlock_pubkey_from_contract (sct_contract_redeemscript info));
     reject (bool_decide (contract_hashlock <> expected_hashlock))
       (TE_General "Sender contract {} hashlock pubkey does not match expected next-hop key")).

Definition verify_maker_sender_contracts (s : TakerSt) (senders_info : list SenderContractTxInfo)
    (next_multisig_pubkeys next_hashlock_pubkeys : list PublicKey) (refund_locktime : Z)
    (expected_amount : option Amount) : outcome TakerError () :=
  swap ← ok_or s (TE_General "No active swap");
  _ ← reject (negb (zlen senders_info =? swp_tx_count (os_params swap)))
        (TE_General "Wrong number of maker sender contracts: expected {}, got {}");
  let expected_hashvalue := hash160 (os_preimage swap) in
  _ ← for_each_i (fun i info =>
        _ ← map_err (fun _ => TE_General "Sender contract {} has invalid multisig redeemscript: {:?}")
              (check_reedemscript_is_multisig (sct_multisig_redeemscript info));
        _ ← check_funding_binding info;
        _ ← check_contract_terms expected_hashvalue refund_locktime info;
        check_next_hop_keys next_multisig_pubkeys next_hashlock_pubkeys i info) senders_info;
  match expected_amount with
  | Some expected =>
      total_funding ← map_err (fun _ => TE_General "Maker sender contract claims {} above the 21M cap")
            (sum_claimed_amounts (map sct_funding_amount senders_info));
      reject (negb (total_funding =? expected))
        (TE_General "Maker sender contracts total funding {} does not match expected {} (based on maker's advertised fee schedule)")
  | None => Ok ()
  end.

Definition verify_maker_receiver_contracts (receivers_contract_txs funding_txs : list Transaction)
    (contract_redeemscripts : list Script) : outcome TakerError () :=
  let funding_txids := map compute_txid funding_txs in
  for_each_i (fun i tx =>
      match input tx, output tx with
      | [inp], [_] =>
          _ ← reject (bool_decide (op_txid (previous_output inp) ∉ funding_txids))
                (TE_General "Receiver contract tx {} does not spend from expected funding tx (spends from {})");
          match contract_redeemscripts !! i with
          | Some expected_rs =>
              map_err (fun _ => TE_General "Receiver contract tx {} output does not pay to expected P2WSH: {:?}")
                (validate_contract_tx tx None expected_rs)
          | None => Ok ()
          end
      | _, _ => Err (TE_General "Receiver contract tx {} has invalid input/output count: {} inputs, {} outputs")
      end) receivers_contract_txs.
End verification.

(** ** What the checks mean *)
Section meaning.
Context {lib : BitcoinLib} {laws : BitcoinLaws lib}.

(** The 2-of-2 script a peer announced, with its keys in script order. *)
Definition multisig_of (rs : Script) (k1 k2 : PublicKey) : Prop :=
  wf_pubkey k1 /\ wf_pubkey k2 /\ rs = 82 :: 33 :: inner k1 ++ 33 :: inner k2 ++ [82; 174].

Lemma read_checked_multisig rs :
  check_reedemscript_is_multisig rs = Ok () ->
  read_pubkeys_from_multisig_redeemscript rs <> Panic /\
  (forall k1 k2, read_pubkeys_from_multisig_redeemscript rs = Ok (k1, k2) -> multisig_of rs k1 k2).
Proof.
  intros (p1 & p2 & H1 & H2 & ->)%check_is_multisig_iff. rewrite read_pubkeys_shape by done.
  destruct (pubkey_from_slice p1) as [q1|] eqn:E1; [|by split].
  destruct (pubkey_from_slice p2) as [q2|] eqn:E2; [|by split].
  apply pubkey_from_slice_33 in E1 as [-> V1]; [|done]. apply pubkey_from_slice_33 in E2 as [-> V2]; [|done].
  split; [done|]. by intros k1 k2 [= <- <-].
Qed.

Lemma multisig_of_reads rs k1 k2 :
  multisig_of rs k1 k2 ->
  check_reedemscript_is_multisig rs = Ok () /\ read_pubkeys_from_multisig_redeemscript rs = Ok (k1, k2).
Proof.
  intros (W1 & W2 & ->). pose proof (wf_pubkey_length _ W1). pose proof (wf_pubkey_length _ W2). split.
  - apply check_is_multisig_iff. eauto.
  - rewrite read_pubkeys_shape, !pubkey_from_slice_compressed by (done || apply W1 || apply W2).
    by rewrite !wf_pubkey_eta.
Qed.

Lemma calculate_pubkey_no_panic tw n : calculate_pubkey_from_nonce tw n <> Panic.
Proof. unfold calculate_pubkey_from_nonce. by destruct (point_combine _ _). Qed.

Lemma has_pubkey_Ok rs tw n k1 k2 :
  multisig_of rs k1 k2 ->
  check_multisig_has_pubkey rs tw n = Ok () <->
  exists mine, calculate_pubkey_from_nonce tw n = Ok mine /\ (mine = k1 \/ mine = k2).
Proof.
  intros [_ Hr]%multisig_of_reads. unfold check_multisig_has_pubkey. rewrite Hr. cbn.
  destruct (calculate_pubkey_from_nonce tw n) as [m|e|]; cbn; [|naive_solver|naive_solver].
  destruct (decide (k1 = m)), (decide (k2 = m)); case_bool_decide; try done; cbn;
    try (case_bool_decide; try done; cbn); split; naive_solver.
Qed.

(** What the maker requires of one sender contract. *)
Definition sender_info_ok (tw : PublicKey) (h : Hash160) (l : Z) (info : ContractTxInfoForSender) : Prop :=
  exists k1 k2 mine hashlock inp o,
    multisig_of (cts_multisig_redeemscript info) k1 k2 /\
    calculate_pubkey_from_nonce tw (cts_multisig_nonce info) = Ok mine /\ (mine = k1 \/ mine = k2) /\
    input (cts_senders_contract_tx info) = [inp] /\ output (cts_senders_contract_tx info) = [o] /\
    calculate_pubkey_from_nonce tw (cts_hashlock_nonce info) = Ok hashlock /\
    script_pubkey o =
      0 :: 32 :: wscript_hash (create_contract_redeemscript hashlock (cts_timelock_pubkey info) h l).

Lemma list_one {A} (l : list A) : length l = 1%nat <-> exists x, l = [x].
Proof. destruct l as [|x [|]]; naive_solver. Qed.

Lemma verify_sender_txinfo_Ok tw h l info :
  0 <= l -> verify_sender_txinfo tw h l info = Ok () <-> sender_info_ok tw h l info.
Proof.
  intros Hl. unfold verify_sender_txinfo, sender_info_ok. split.
  - intros H. inv_ok H. repeat match goal with u : () |- _ => destruct u end.
    destruct (check_multisig_has_pubkey _ _ _) as [[]| |] eqn:Hhas; [|done|done].
    assert (exists k1 k2, multisig_of (cts_multisig_redeemscript info) k1 k2) as (k1 & k2 & Hms).
    { unfold check_multisig_has_pubkey in Hhas. inv_ok Hhas.
      match goal with v : (PublicKey * PublicKey)%type |- _ => destruct v as [k1 k2] end.
      exists k1, k2. by apply read_checked_multisig. }
    apply (has_pubkey_Ok _ _ _ k1 k2 Hms) in Hhas as (mine & Hm & Hk).
    apply is_contract_out_valid_Ok in H as [_ Hspk]. to_prop.
    match goal with H : length (input _) = _ |- _ => apply list_one in H as [inp Hi] end.
    match goal with H : length (output _) = _ |- _ => apply list_one in H as [o Ho] end.
    match goal with H : output _ !! 0%nat = Some _ |- _ => rewrite Ho in H; injection H as <- end.
    do 6 eexists. eauto 10.
  - intros (k1 & k2 & mine & hk & inp & o & Hms & Hm & Hk & Hi & Ho & Hhk & Hspk).
    pose proof (multisig_of_reads _ _ _ Hms) as [-> _].
    assert (check_multisig_has_pubkey (cts_multisig_redeemscript info) tw (cts_multisig_nonce info) = Ok ())
      as -> by (apply (has_pubkey_Ok _ _ _ k1 k2 Hms); eauto).
    rewrite Hi, Ho, Hhk. cbn [map_err]. cbn. apply map_err_Ok, is_contract_out_valid_Ok. done.
Qed.

Lemma verify_sender_txinfo_no_panic tw h l info : verify_sender_txinfo tw h l info <> Panic.
Proof.
  unfold verify_sender_txinfo.
  apply bind_no_panic.
  { apply map_err_no_panic. unfold check_reedemscript_is_multisig.
    rewrite pubkey_from_slice_compressed by apply placeholder_valid. cbn. by repeat case_match. }
  intros [] Hc%map_err_Ok. apply bind_no_panic.
  { apply map_err_no_panic, bind_no_panic; [by apply read_checked_multisig|].
    intros [k1 k2] _. apply bind_no_panic; [apply calculate_pubkey_no_panic|].
    intros m _. by case_match. }
  intros _ _. apply bind_no_panic; [auto with outcome|]. intros [] Hone. inv_ok Hone. to_prop.
  apply bind_no_panic; [apply map_err_no_panic, calculate_pubkey_no_panic|]. intros hk _.
  match goal with H : length (output _) = _ |- _ => apply list_one in H as [o ->] end.
  cbn. apply map_err_no_panic. unfold is_contract_out_valid. apply bind_no_panic; [auto with outcome|].
  intros _ _. rewrite redeemscript_to_scriptpubkey_Ok. cbn. auto with outcome.
Qed.

Lemma verify_req_contract_sigs_Ok (txs : list ContractTxInfoForSender) (tw : PublicKey) (h : Hash160) (l : Z) :
  is_u16 l ->
  verify_req_contract_sigs_for_sender txs tw h l = Ok () <->
  txs <> [] /\ l + REFUND_LOCKTIME_STEP <= U16_MAX /\
  Forall (sender_info_ok tw h (l + REFUND_LOCKTIME_STEP)) txs.
Proof.
  intros [Hl0 Hl1]. assert (0 <= l + REFUND_LOCKTIME_STEP) as Hpos by (unfold REFUND_LOCKTIME_STEP; lia).
  unfold verify_req_contract_sigs_for_sender. split.
  - intros H. inv_ok H. to_prop. apply checked_add_Some in Hs0 as [Hlt ->].
    apply for_each_Ok in H. split; [done|]. split; [unfold U16_MAX; lia|].
    eapply Forall_impl; [exact H|]. intros info Hi. cbv beta in Hi. by apply verify_sender_txinfo_Ok in Hi.
  - intros (Hne & Hmax & Hall). rewrite bool_decide_eq_false_2 by done. cbn.
    unfold checked_add. destruct (Z.ltb_spec (l + REFUND_LOCKTIME_STEP) (2 ^ 16)); [|unfold U16_MAX in *; lia].
    cbn. apply for_each_Ok. eapply Forall_impl; [exact Hall|]. intros info Hi. by apply verify_sender_txinfo_Ok.
Qed.

(** the maker signs the taker's contracts only when there is at least one,
    the refund step does not overflow the locktime, and every contract spends a
    2-of-2 that includes the maker's derived key and pays, in its only output,
    to the contract for the derived hashlock key, the common hash and the
    locktime one step above the maker's own; nothing a peer sends makes the
    check panic. *)
Lemma sender_request_accepted_iff (txs : list ContractTxInfoForSender) (tw : PublicKey) (h : Hash160) (l : Z)
    (Hl : is_u16 l) :
  (verify_req_contract_sigs_for_sender txs tw h l = Ok () <->
     txs <> [] /\ l + REFUND_LOCKTIME_STEP <= U16_MAX /\
     Forall (sender_info_ok tw h (l + REFUND_LOCKTIME_STEP)) txs) /\
  verify_req_contract_sigs_for_sender txs tw h l <> Panic.
Proof.
  split; [by apply verify_req_contract_sigs_Ok|]. unfold verify_req_contract_sigs_for_sender.
  apply bind_no_panic; [auto with outcome|]. intros _ _. apply bind_no_panic; [auto with outcome|].
  intros tl _. apply for_each_from_no_panic. intros. apply verify_sender_txinfo_no_panic.
Qed.

(** ** Accepted signatures *)

Lemma verify_contract_tx_sig_Ok tx rs amt pk sig :
  verify_contract_tx_sig tx rs amt pk sig = Ok () <->
  exists d, p2wsh_signature_hash tx 0 rs amt SIGHASH_ALL = Some d /\ ecdsa_verify d sig (inner pk) = true.
Proof.
  unfold verify_contract_tx_sig. destruct (p2wsh_signature_hash _ _ _ _ _) as [d|]; cbn.
  - split; [|by intros (? & [= <-] & ->)].
    destruct (ecdsa_verify d sig (inner pk)) eqn:E; [|done]. intros _. by exists d.
  - split; [done|]. by intros (? & ? & _).
Qed.

(** A contract transaction that carries both signatures, the peer's with the
    SIGHASH_ALL flag, spends the 2-of-2 output. *)
Lemma signed_contract_tx_spendable ctx i rest my other osig amt d o :
  wf_pubkey other -> input ctx = i :: rest -> witness i = [] ->
  p2wsh_signature_hash ctx 0 (create_multisig_redeemscript (pubkey_of my) other) amt SIGHASH_ALL = Some d ->
  ecdsa_verify d (sig_bytes osig) (inner other) = true -> sighash_type osig = SIGHASH_ALL ->
  pays_to o (create_multisig_redeemscript (pubkey_of my) other) -> value o = amt ->
  exists tx,
    signed_contract_tx Legacy ctx (Some my) (Some (pubkey_of my)) (Some other) (Some osig) amt = Ok tx /\
    output tx = output ctx /\ map previous_output (input tx) = map previous_output (input ctx) /\
    p2wsh_spendable tx o = true.
Proof.
  intros Hwo Hin Hw Hd Hv Hall Ho <-.
  assert (wf_pubkey (pubkey_of my)) as Hwm by (split; [done|apply point_from_secret_key_valid]).
  unfold signed_contract_tx, sign_contract_tx, update_first_input. cbn [ok_or mbind outcome_bind].
  rewrite Hd. cbn [ok_or mbind outcome_bind map_err]. rewrite Hin.
  eexists. split; [reflexivity|]. split; [done|].
  unfold apply_two_signatures_to_2of2_multisig_spend.
  assert (forall w, checksig {| cx_tx := {| ctx with input := {| i with witness := w |} :: rest |};
            cx_sequence := sequence i; cx_amount := value o;
            cx_script := create_multisig_redeemscript (pubkey_of my) other |} (sig_to_vec osig) (inner other) = true)
    as Hother.
  { intros w. unfold checksig, sig_to_vec. rewrite rev_app_distr, Hall. cbn [rev app cx_tx cx_script cx_amount].
    rewrite sighash_ignores_witness, (strip_witness_set ctx i rest), <- sighash_ignores_witness, Hd by done.
    by rewrite rev_involutive. }
  assert (forall w, checksig {| cx_tx := {| ctx with input := {| i with witness := w |} :: rest |};
            cx_sequence := sequence i; cx_amount := value o;
            cx_script := create_multisig_redeemscript (pubkey_of my) other |}
            (sig_to_vec {| sig_bytes := ecdsa_sign d my; sighash_type := SIGHASH_ALL |})
            (inner (pubkey_of my)) = true) as Hmine.
  { intros w. apply checksig_own. cbn [cx_tx cx_script cx_amount].
    by rewrite (strip_witness_set ctx i rest), <- sighash_ignores_witness by done. }
  assert (multisig_order (pubkey_of my) other =
          if bytes_lt (inner (pubkey_of my)) (inner other) then (pubkey_of my, other) else (other, pubkey_of my))
    as Hord by done.
  destruct (bytes_lt _ _); cbn [fst snd]; (split; [done|]).
  all: erewrite (p2wsh_spendable_eq _ _ rest [[]; _; _]); [|reflexivity|rewrite Hw; reflexivity|exact Ho].
  all: change (rev [[]; ?a; ?b]) with [b; a; []].
  all: rewrite multisig_instructions, Hord by done.
  all: cbn [sequence]; rewrite multisig_exec; [done|apply Hother || apply Hmine|apply Hmine || apply Hother].
Qed.

(** A legacy coin with the owner's keys in place and a contract transaction
    that spends one funding input. *)
Definition owns_contract (protocol : ProtocolVersion) (my_privkey : option SecretKey)
    (my_pubkey other_pubkey : option PublicKey) (contract_tx : Transaction) (my : SecretKey)
    (other : PublicKey) : Prop :=
  protocol = Legacy /\ my_privkey = Some my /\ my_pubkey = Some (pubkey_of my) /\
  other_pubkey = Some other /\ wf_pubkey other /\ (exists i, input contract_tx = [i] /\ witness i = []).

(** Each signature the maker accepted, when it carries the SIGHASH_ALL flag,
    completes the contract transaction of the coin at its position to one that
    spends that coin's 2-of-2 funding output. *)
Lemma accepted_signatures_complete_contracts
    (rsigs ssigs : list Signature) (inc : list IncomingSwapCoin) (out : list OutgoingSwapCoin)
    (Hver : verify_contract_sigs rsigs ssigs inc out = Ok ())
    (Hall : Forall (fun s => sighash_type s = SIGHASH_ALL) (rsigs ++ ssigs)) :
  (forall n s c my other o, rsigs !! n = Some s -> inc !! n = Some c ->
     owns_contract (isc_protocol c) (isc_my_privkey c) (isc_my_pubkey c) (isc_other_pubkey c)
       (isc_contract_tx c) my other ->
     pays_to o (create_multisig_redeemscript (pubkey_of my) other) -> value o = isc_funding_amount c ->
     exists tx, isc_create_signed_contract_tx {| c with isc_others_contract_sig := Some s |} = Ok tx /\
       output tx = output (isc_contract_tx c) /\ p2wsh_spendable tx o = true) /\
  (forall n s c my other o, ssigs !! n = Some s -> out !! n = Some c ->
     owns_contract (osc_protocol c) (osc_my_privkey c) (osc_my_pubkey c) (osc_other_pubkey c)
       (osc_contract_tx c) my other ->
     pays_to o (create_multisig_redeemscript (pubkey_of my) other) -> value o = osc_funding_amount c ->
     exists tx, osc_create_signed_contract_tx {| c with osc_others_contract_sig := Some s |} = Ok tx /\
       output tx = output (osc_contract_tx c) /\ p2wsh_spendable tx o = true).
Proof.
  unfold verify_contract_sigs in Hver. inv_ok Hver. destruct v.
  apply for_each_Ok in Hs, Hver. rewrite Forall_lookup in Hs. rewrite Forall_lookup in Hver.
  apply Forall_app in Hall as [Hr Hss]. rewrite Forall_lookup in Hr. rewrite Forall_lookup in Hss.
  split; intros n s c my other o Hsn Hcn (Hp & Hk & Hpk & Ho & Hwf & i & Hi & Hw) Hpay Hval.
  - specialize (Hs n (s, c)). rewrite lookup_zip_with, Hsn, Hcn in Hs. specialize (Hs eq_refl).
    unfold verify_incoming_sig in Hs. rewrite Ho, Hpk in Hs. cbn in Hs. apply map_err_Ok in Hs.
    apply verify_contract_tx_sig_Ok in Hs as (d & Hd & Hv).
    unfold isc_create_signed_contract_tx. cbn. rewrite Hp, Hk, Hpk, Ho.
    destruct (signed_contract_tx_spendable _ _ _ _ _ _ _ _ o Hwf Hi Hw Hd Hv (Hr _ _ Hsn) Hpay Hval)
      as (tx & H1 & H2 & _ & H3). eauto.
  - specialize (Hver n (s, c)). rewrite lookup_zip_with, Hsn, Hcn in Hver. specialize (Hver eq_refl).
    unfold verify_outgoing_sig in Hver. rewrite Ho, Hpk in Hver. cbn in Hver. apply map_err_Ok in Hver.
    apply verify_contract_tx_sig_Ok in Hver as (d & Hd & Hv).
    unfold osc_create_signed_contract_tx. cbn. rewrite Hp, Hk, Hpk, Ho.
    destruct (signed_contract_tx_spendable _ _ _ _ _ _ _ _ o Hwf Hi Hw Hd Hv (Hss _ _ Hsn) Hpay Hval)
      as (tx & H1 & H2 & _ & H3). eauto.
Qed.


(** ** The taker's acceptance of a hop *)
Definition sender_contract_bound (swap : OngoingSwapState) (nm nh : list PublicKey) (l : Z) (i : nat)
    (info : SenderContractTxInfo) : Prop :=
  exists inp o fo,
    input (sct_contract_tx info) = [inp] /\ output (sct_contract_tx info) = [o] /\
    op_txid (previous_output inp) = compute_txid (sct_funding_tx info) /\
    output (sct_funding_tx info) !! Z.to_nat (op_vout (previous_output inp)) = Some fo /\
    pays_to fo (sct_multisig_redeemscript info) /\ value fo = sct_funding_amount info /\
    pays_to o (sct_contract_redeemscript info) /\
    read_hashvalue_from_contract (sct_contract_redeemscript info) = Ok (hash160 (os_preimage swap)) /\
    read_contract_locktime (sct_contract_redeemscript info) = Ok l /\ l <> 0 /\
    check_reedemscript_is_multisig (sct_multisig_redeemscript info) = Ok () /\
    (nm <> [] -> exists k k1 k2, cyclic nm i = Some k /\
       multisig_of (sct_multisig_redeemscript info) k1 k2 /\ (k = k1 \/ k = k2)) /\
    (nh <> [] -> exists k, cyclic nh i = Some k /\
       read_hashlock_pubkey_from_contract (sct_contract_redeemscript info) = Ok k).

Lemma check_funding_binding_Ok info :
  check_funding_binding info = Ok () ->
  exists inp fo, input (sct_contract_tx info) !! 0%nat = Some inp /\
    op_txid (previous_output inp) = compute_txid (sct_funding_tx info) /\
    output (sct_funding_tx info) !! Z.to_nat (op_vout (previous_output inp)) = Some fo /\
    pays_to fo (sct_multisig_redeemscript info) /\ value fo = sct_funding_amount info.
Proof.
  unfold check_funding_binding, taker_protocol. rewrite redeemscript_to_scriptpubkey_Ok.
  intros H. inv_ok H. to_prop.
  match goal with H : ¬ (_ <> _) |- _ => apply dec_stable in H end.
  do 2 eexists. eauto 10.
Qed.

Lemma check_contract_terms_Ok h l info :
  check_contract_terms h l info = Ok () ->
  (exists inp o, input (sct_contract_tx info) = [inp] /\ output (sct_contract_tx info) = [o] /\
     pays_to o (sct_contract_redeemscript info)) /\
  read_hashvalue_from_contract (sct_contract_redeemscript info) = Ok h /\
  read_contract_locktime (sct_contract_redeemscript info) = Ok l /\ l <> 0.
Proof.
  unfold check_contract_terms. intros H. inv_ok H. to_prop.
  match goal with H : ¬ (_ <> _) |- _ => apply dec_stable in H end. subst.
  match goal with H : validate_contract_tx _ _ _ = Ok ?u |- _ =>
    destruct u; apply validate_contract_tx_iff in H as (i & o & Hi & Ho & Hp & _) end.
  split; [by exists i, o|]. done.
Qed.

Lemma check_next_hop_keys_Ok nm nh i info :
  check_reedemscript_is_multisig (sct_multisig_redeemscript info) = Ok () ->
  check_next_hop_keys nm nh i info = Ok () ->
  (nm <> [] -> exists k k1 k2, cyclic nm i = Some k /\
     multisig_of (sct_multisig_redeemscript info) k1 k2 /\ (k = k1 \/ k = k2)) /\
  (nh <> [] -> exists k, cyclic nh i = Some k /\
     read_hashlock_pubkey_from_contract (sct_contract_redeemscript info) = Ok k).
Proof.
  intros Hms. unfold check_next_hop_keys, taker_protocol. intros H. apply bind_Ok in H as ([] & Ha & Hb). split.
  - intros Hne. rewrite bool_decide_eq_false_2 in Ha by done. inv_ok Ha.
    match goal with v : (PublicKey * PublicKey)%type |- _ => destruct v as [k1 k2] end.
    inv_ok Ha. apply andb_false_iff in Ha.
    match goal with H : read_pubkeys_from_multisig_redeemscript _ = Ok _ |- _ =>
      apply (proj2 (read_checked_multisig _ Hms)) in H end.
    do 3 eexists. split; [done|]. split; [done|].
    destruct Ha as [Ha|Ha]; apply bool_decide_eq_false, dec_stable in Ha; auto.
  - intros Hne. rewrite bool_decide_eq_false_2 in Hb by done. inv_ok Hb. to_prop. apply dec_stable in Hb. subst.
    eauto.
Qed.

Lemma cyclic_nonempty {A} (keys : list A) i : keys <> [] -> is_Some (cyclic keys i).
Proof.
  intros Hne. apply lookup_lt_is_Some. apply Nat.mod_upper_bound. by destruct keys.
Qed.

Lemma read_hashlock_no_panic rs : read_hashlock_pubkey_from_contract rs <> Panic.
Proof.
  unfold read_hashlock_pubkey_from_contract. destruct (Z.ltb_spec (zlen rs) 61); [done|].
  unfold zlen in *. cbn [reject]. rewrite bind_Ok_eq. unfold slice.
  destruct (Nat.leb_spec 60 (length rs)); [|lia]. cbn. auto with outcome.
Qed.

Lemma check_next_hop_keys_no_panic nm nh i info :
  check_reedemscript_is_multisig (sct_multisig_redeemscript info) = Ok () ->
  check_next_hop_keys nm nh i info <> Panic.
Proof.
  intros Hms. unfold check_next_hop_keys. apply bind_no_panic.
  - case_bool_decide as Hne; [done|]. destruct (cyclic_nonempty nm i Hne) as [k ->]. cbn [expect].
    rewrite bind_Ok_eq. apply bind_no_panic; [apply map_err_no_panic, read_checked_multisig, Hms|].
    intros [k1 k2] _. auto with outcome.
  - intros _ _. case_bool_decide as Hne; [done|]. destruct (cyclic_nonempty nh i Hne) as [k ->]. cbn [expect].
    rewrite bind_Ok_eq. apply bind_no_panic; [apply map_err_no_panic, read_hashlock_no_panic|].
    auto with outcome.
Qed.

Lemma read_hashvalue_no_panic rs : read_hashvalue_from_contract rs <> Panic.
Proof. unfold read_hashvalue_from_contract. no_panic. Qed.

Lemma read_locktime_no_panic rs : read_contract_locktime rs <> Panic.
Proof. unfold read_contract_locktime. no_panic. Qed.

Lemma to_scriptpubkey_no_panic rs : redeemscript_to_scriptpubkey rs <> Panic.
Proof. by rewrite redeemscript_to_scriptpubkey_Ok. Qed.

Lemma validate_contract_tx_no_panic tx op rs : validate_contract_tx tx op rs <> Panic.
Proof.
  pose proof to_scriptpubkey_no_panic. unfold validate_contract_tx. no_panic.
Qed.

Lemma check_multisig_no_panic rs : check_reedemscript_is_multisig rs <> Panic.
Proof.
  unfold check_reedemscript_is_multisig.
  rewrite pubkey_from_slice_compressed by apply placeholder_valid. cbn. no_panic.
Qed.
#[local] Hint Resolve read_hashvalue_no_panic read_locktime_no_panic to_scriptpubkey_no_panic
  validate_contract_tx_no_panic check_multisig_no_panic check_next_hop_keys_no_panic : outcome.

Lemma sum_claimed_no_panic amounts : sum_claimed_amounts amounts <> Panic.
Proof.
  unfold sum_claimed_amounts. generalize 0. induction amounts as [|a l IH]; intros acc; cbn [try_fold]; [done|].
  no_panic.
Qed.

(** What an accepted answer of a maker is bound to, contract by contract. *)
Lemma maker_sender_contracts_Ok (s : TakerSt) (infos : list SenderContractTxInfo)
    (nm nh : list PublicKey) (l : Z) (expected : option Amount) :
  verify_maker_sender_contracts s infos nm nh l expected = Ok () ->
  exists swap, s = Some swap /\ zlen infos = swp_tx_count (os_params swap) /\
    (forall i info, infos !! i = Some info -> sender_contract_bound swap nm nh l i info).
Proof.
  unfold verify_maker_sender_contracts. intros H. apply bind_Ok in H as (swap & [= ->]%ok_or_Ok & H).
  apply bind_Ok in H as (u & Hlen & H). inv_ok Hlen. to_prop.
  apply bind_Ok in H as ([] & Hall & _). exists swap. split; [done|]. split; [done|].
  intros i info Hi. apply (proj1 (for_each_from_Ok _ _ _ _) Hall) in Hi. cbn [Nat.add] in Hi.
  apply bind_Ok in Hi as ([] & Hms%map_err_Ok & Hi).
  apply bind_Ok in Hi as ([] & (inp & fo & Hin & Htx & Hfo & Hpay & Hval)%check_funding_binding_Ok & Hi).
  apply bind_Ok in Hi as ([] & ((inp' & o & Hin' & Ho & Hpo) & Hh & Hl & Hl0)%check_contract_terms_Ok & Hi).
  apply check_next_hop_keys_Ok in Hi as [Hk1 Hk2]; [|done].
  rewrite Hin' in Hin. injection Hin as ->. exists inp, o, fo. by repeat (split; [done|]).
Qed.

(** the taker accepts a maker's sender contracts only if there are as many
    as agreed, each contract transaction has one input, which spends the output
    of the shown funding transaction that pays the advertised amount to the
    advertised 2-of-2, and one output, which pays to the shown contract script;
    that script reads to the swap's hash value and to exactly the requested
    locktime, the next hop's keys are the expected ones, and the amounts add up
    to the expected total.  No message makes the check panic. *)
Lemma accepted_sender_contracts_are_bound (s : TakerSt) (infos : list SenderContractTxInfo)
    (nm nh : list PublicKey) (l : Z) (expected : option Amount)
    (Hu : Forall (fun i => is_u64 (sct_funding_amount i)) infos) :
  verify_maker_sender_contracts s infos nm nh l expected <> Panic /\
  (verify_maker_sender_contracts s infos nm nh l expected = Ok () ->
   exists swap, s = Some swap /\ zlen infos = swp_tx_count (os_params swap) /\
     (forall i info, infos !! i = Some info -> sender_contract_bound swap nm nh l i info) /\
     (forall total, expected = Some total ->
        foldr Z.add 0 (map sct_funding_amount infos) = total /\ total <= MAX_MONEY)).
Proof.
  split.
  - unfold verify_maker_sender_contracts. apply bind_no_panic; [auto with outcome|]. intros swap _. apply bind_no_panic; [auto with outcome|].
    intros _ _. apply bind_no_panic.
    + apply for_each_from_no_panic. intros k info _.
      apply bind_no_panic; [no_panic|]. intros [] Hms%map_err_Ok.
      apply bind_no_panic; [unfold check_funding_binding, taker_protocol; no_panic|]. intros _ _.
      apply bind_no_panic; [unfold check_contract_terms; no_panic|]. auto with outcome.
    + intros _ _. pose proof sum_claimed_no_panic. no_panic.
  - intros H. destruct (maker_sender_contracts_Ok s infos nm nh l expected H) as (swap & -> & Hlen & Hall).
    exists swap. split; [done|]. split; [done|]. split; [done|].
    unfold verify_maker_sender_contracts in H. cbn in H.
    apply bind_Ok in H as (u & _ & H). apply bind_Ok in H as ([] & _ & Htot).
    intros total ->. inv_ok Htot. to_prop. subst.
    pose proof (sum_claimed_amounts_cases (map sct_funding_amount infos)) as Hc.
    match goal with H : sum_claimed_amounts _ = Ok _ |- _ => rewrite H in Hc end.
    destruct Hc as [<- Hm]; [by apply Forall_map|done].
Qed.
End meaning.

(** ** Two gaps in the checks *)
#[local] Existing Instance Reference.lib.
#[local] Existing Instance Reference.laws.

(** A contract script in which the hashlock branch asks for a 33-byte preimage;
    everything the taker reads out of it is as in the genuine contract. *)
Definition skewed_contract (ph pt : PublicKey) (h : Hash160) (l : Z) : Script :=
  130 :: 124 :: 169 :: 20 :: h ++ 135 :: 99 :: 33 :: inner ph ++ 1 :: [33] ++ 0 :: [] ++
  103 :: 33 :: inner pt ++ 0 :: [] ++ locktime_push l ++ [104; 178; 117; 123; 136; 172].

Definition gap_script : Script := skewed_contract (pubkey_of 11) (pubkey_of 12) (hash160 ex_preimage) 60.
Definition gap_multisig : Script := create_multisig_redeemscript (pubkey_of 21) (pubkey_of 22).
Definition gap_funding : Transaction := ex_tx (ex_txin 0 []) [ex_out gap_multisig].
Definition gap_info (rs : Script) : SenderContractTxInfo :=
  {| sct_funding_tx := gap_funding;
     sct_contract_tx :=
       {| version := 2; lock_time := 0;
          input := [{| previous_output := {| op_txid := compute_txid gap_funding; op_vout := 0 |};
                       script_sig := []; sequence := 0; witness := [] |}];
          output := [{| value := 4700; script_pubkey := 0 :: 32 :: wscript_hash rs |}] |};
     sct_timelock_pubkey := pubkey_of 12; sct_multisig_redeemscript := gap_multisig;
     sct_contract_redeemscript := rs; sct_funding_amount := 5000;
     sct_multisig_nonce := 1; sct_hashlock_nonce := 2 |}.
Definition gap_state : TakerSt :=
  Some {| os_id := "s"; os_preimage := ex_preimage; os_params := SwapParams_new Legacy 5000 1; os_makers := [];
          os_outgoing_swapcoins := []; os_incoming_swapcoins := []; os_watchonly_swapcoins := [];
          os_multisig_nonces := []; os_hashlock_nonces := []; os_spare_makers := [];
          os_phase := FundsBroadcast; os_reference_height := None; os_payment := None |}.
Definition gap_out : TxOut := {| value := 4700; script_pubkey := 0 :: 32 :: wscript_hash gap_script |}.
Definition gap_spend (seq : Z) (items : list bytes) : Transaction :=
  ex_tx (ex_txin seq (items ++ [gap_script])) [].

Lemma gap_instructions :
  instructions gap_script =
    map Some [Op 130; Op 124; Op 169; PushBytes (hash160 ex_preimage); Op 135; Op 99] ++
    map Some [PushBytes (inner (pubkey_of 11)); PushBytes [33]; PushBytes []; Op OP_ELSE;
              PushBytes (inner (pubkey_of 12)); PushBytes []; PushBytes [60]; Op OP_ENDIF] ++
    map Some [Op 178; Op 117; Op 123; Op 136; Op 172].
Proof. vm_compute. reflexivity. Qed.

(** The taker's check admits a contract script other than the contract
    template: a sender contract whose hashlock branch no signature can satisfy
    with the swap's preimage passes every check, while the timelock branch stays
    open to the maker that made it. *)
Lemma sender_check_admits_unclaimable_contract :
  verify_maker_sender_contracts gap_state [gap_info gap_script] [pubkey_of 21] [pubkey_of 11] 60 (Some 5000)
    = Ok () /\
  (forall seq sig, p2wsh_spendable (gap_spend seq [sig; ex_preimage]) gap_out = false) /\
  (exists sig, p2wsh_spendable (gap_spend 60 [sig; []]) gap_out = true).
Proof.
  split; [vm_compute; reflexivity|]. split.
  - intros seq sig.
    rewrite (p2wsh_spendable_eq _ (ex_txin seq [sig; ex_preimage; gap_script]) [] [sig; ex_preimage] gap_script)
      by reflexivity.
    change (rev [sig; ex_preimage]) with [ex_preimage; sig].
    rewrite gap_instructions, contract_exec_prefix, bool_decide_eq_true_2 by reflexivity.
    pose proof (contract_exec_suffix (lib := Reference.lib)) as Hsuffix.
    revert Hsuffix. generalize (map Some [Op 178; Op 117; Op 123; Op 136; Op 172]). intros suffix Hsuffix.
    cbn [map app]. run_script. rewrite Hsuffix.
    destruct (csv_ok _ _ _); [|reflexivity].
    by rewrite bool_decide_eq_false_2 by discriminate.
  - exists (match p2wsh_signature_hash (gap_spend 60 []) 0 gap_script 4700 SIGHASH_ALL with
            | Some d => sig_to_vec {| sig_bytes := ecdsa_sign d 12; sighash_type := SIGHASH_ALL |}
            | None => [] end).
    vm_compute. reflexivity.
Qed.

Definition flag_coin : IncomingSwapCoin :=
  isc_new_legacy 21 (pubkey_of 22) (sct_contract_tx (gap_info (ex_script 60))) (ex_script 60) 11 5000.
(** The counterparty's genuine signature over the contract, under a given
    sighash flag. *)
Definition flag_sig (flag : Z) : Signature :=
  {| sig_bytes := match sign_contract_tx (isc_contract_tx flag_coin) gap_multisig 5000 22 with
                  | Ok s => sig_bytes s | _ => [] end;
     sighash_type := flag |}.

(** The signature checks ignore the sighash flag that travels with a
    signature: a genuine signature re-labelled SIGHASH_NONE is accepted, yet the
    contract transaction completed with it does not satisfy the funding output,
    whereas with the SIGHASH_ALL label it does. *)
Lemma accepted_signature_may_be_unusable :
  verify_contract_sigs [flag_sig 2] [] [flag_coin] [] = Ok () /\
  (exists tx, isc_create_signed_contract_tx {| flag_coin with isc_others_contract_sig := Some (flag_sig 2) |}
                = Ok tx /\ p2wsh_spendable tx (ex_out gap_multisig) = false) /\
  (exists tx, isc_create_signed_contract_tx {| flag_coin with isc_others_contract_sig := Some (flag_sig 1) |}
                = Ok tx /\ p2wsh_spendable tx (ex_out gap_multisig) = true).
Proof.
  split; [vm_compute; reflexivity|].
  split; (eexists; split; [vm_compute; reflexivity|vm_compute; reflexivity]).
Qed.

(** ** Witnesses *)
Definition ok_txinfo : ContractTxInfoForSender :=
  {| cts_multisig_nonce := 2; cts_hashlock_nonce := 3; cts_timelock_pubkey := pubkey_of 12;
     cts_senders_contract_tx :=
       {| version := 2; lock_time := 0; input := [ex_txin 0 []];
          output := [ex_out (create_contract_redeemscript (pubkey_of 103) (pubkey_of 12) (hash160 ex_preimage) 60)] |};
     cts_multisig_redeemscript := create_multisig_redeemscript (pubkey_of 102) (pubkey_of 22);
     cts_funding_input_value := 5000 |}.

Lemma sender_request_accepted_iff_witness :
  verify_req_contract_sigs_for_sender [ok_txinfo] (pubkey_of 100) (hash160 ex_preimage) 40 = Ok () /\
  Forall (sender_info_ok (pubkey_of 100) (hash160 ex_preimage) 60) [ok_txinfo].
Proof.
  assert (verify_req_contract_sigs_for_sender [ok_txinfo] (pubkey_of 100) (hash160 ex_preimage) 40 = Ok ())
    as H by (vm_compute; reflexivity).
  split; [exact H|].
  exact (proj2 (proj2 (proj1 (proj1 (sender_request_accepted_iff [ok_txinfo] (pubkey_of 100)
           (hash160 ex_preimage) 40 ltac:(unfold in_width; lia))) H))).
Defined.


Lemma accepted_sender_contracts_are_bound_witness :
  verify_maker_sender_contracts gap_state [gap_info (ex_script 60)] [pubkey_of 21] [pubkey_of 11] 60 (Some 5000) = Ok () /\
  exists swap, gap_state = Some swap /\
    sender_contract_bound swap [pubkey_of 21] [pubkey_of 11] 60 0 (gap_info (ex_script 60)).
Proof.
  assert (verify_maker_sender_contracts gap_state [gap_info (ex_script 60)] [pubkey_of 21] [pubkey_of 11] 60
            (Some 5000) = Ok ()) as H by (vm_compute; reflexivity).
  split; [exact H|].
  destruct (accepted_sender_contracts_are_bound gap_state [gap_info (ex_script 60)] [pubkey_of 21] [pubkey_of 11]
              60 (Some 5000)) as [_ Hb].
  { constructor; [split; reflexivity || discriminate|constructor]. }
  destruct (Hb H) as (swap & Hs & _ & Hi & _). exists swap. split; [exact Hs|].
  exact (Hi 0%nat (gap_info (ex_script 60)) eq_refl).
Defined.
