(* ===== verification/TaprootVerification.v ===== *)
(** Verification of the peer's taproot messages: src/maker/taproot_verification.rs
    and src/taker/taproot_verification.rs.

    In the taproot protocol the funding output is the contract: what the checks
    accept is what a party will have to spend.  Log lines and the port number
    they carry are left out. *)
From S2P Require Import Prelude Float64 Bitcoin Messages Contract Errors SwapCoin ScriptEval TaprootLib Taproot TapScript TakerTracker TakerState LegacyVerification.
#[local] Open Scope string_scope.
#[local] Open Scope list_scope.
#[local] Open Scope Z_scope.

Section verification.
Context {lib : BitcoinLib} {tap : TaprootLib}.

(** [script.instructions().collect::<Result<Vec<_>, _>>()]. *)
Definition collect_instructions (script : Script) : option (list Instruction) :=
  mapM id (instructions script).

(** The [matches!] templates. *)
Definition is_hashlock_template (hash_ok : bytes -> bool) (instrs : list Instruction) : bool :=
  match instrs with
  | [Op op1; PushBytes hash; Op op2; PushBytes pubkey; Op op3] =>
      (op1 =? OP_SHA256) && (op2 =? OP_EQUALVERIFY) && (op3 =? OP_CHECKSIG)
      && hash_ok hash && (length pubkey =? 32)%nat
  | _ => false
  end.
Definition is_timelock_template (instrs : list Instruction) : bool :=
  match instrs with
  | [_; Op op1; Op op2; PushBytes pubkey; Op op3] =>
      (op1 =? OP_CLTV) && (op2 =? OP_DROP) && (op3 =? OP_CHECKSIG) && (length pubkey =? 32)%nat
  | _ => false
  end.

(** The locktime of the first instruction, with the caller's errors. *)
Definition locktime_value {E} (empty bad_length non_positive no_locktime : E) (first : Instruction) : outcome E Z :=
  match first with
  | PushBytes bs =>
      _ ← reject (bool_decide (bs = [])) empty;
      match length bs with
      | 1%nat | 2%nat | 3%nat | 4%nat => Ok (le_value bs)
      | _ => Err bad_length
      end
  | Op opcode =>
      match classify_pushnum opcode with
      | Some n => if n <=? 0 then Err non_positive else Ok n
      | None => Err no_locktime
      end
  end.

(** ** Maker *)
Definition maker_locktime_val (timelock_instructions : list Instruction) : outcome MakerError Z :=
  match timelock_instructions !! 0%nat with
  | Some first =>
      locktime_value (ME_General "Taproot timelock script has empty locktime")
        (ME_General "Taproot timelock has unexpected byte length {}")
        (ME_General "Taproot timelock value is non-positive ({})")
        (ME_General "Taproot timelock script doesn't start with a locktime") first
  | None => Err (ME_General "Taproot timelock script is empty")
  end.

Definition no_duplicate_outpoints (contract_txs : list Transaction) : outcome MakerError (list OutPoint) :=
  try_fold (fun seen tx =>
      let contract_outpoint := {| op_txid := compute_txid tx; op_vout := 0 |} in
      if bool_decide (contract_outpoint ∈ seen) then Err (ME_General "Duplicate Taproot contract outpoint")
      else Ok (contract_outpoint :: seen)) [] contract_txs.

Definition check_hashlock_template (hashlock_script : Script) : outcome MakerError () :=
  _ ← map_err (fun _ => ME_General "Taproot hashlock script is invalid: {:?}")
        (extract_hash_from_hashlock hashlock_script);
  hashlock_instructions ← ok_or (collect_instructions hashlock_script)
        (ME_General "Taproot hashlock script parse error: {:?}");
  _ ← reject (negb (length hashlock_instructions =? 5)%nat)
        (ME_General "Taproot hashlock script has {} instructions, expected 5");
  reject (negb (is_hashlock_template (fun hash => (length hash =? 32)%nat) hashlock_instructions))
    (ME_General "Taproot hashlock script has unexpected template").

(** The timelock leaf: its template and its value. *)
Definition check_timelock_script (expected_taker_locktime : Z) (timelock_script : Script) : outcome MakerError () :=
  timelock_instructions ← ok_or (collect_instructions timelock_script)
        (ME_General "Taproot timelock script parse error: {:?}");
  _ ← reject (negb (length timelock_instructions =? 5)%nat)
        (ME_General "Taproot timelock script {} has {} instructions, expected 5");
  _ ← reject (negb (is_timelock_template timelock_instructions))
        (ME_General "Taproot timelock script has unexpected template");
  locktime ← maker_locktime_val timelock_instructions;
  _ ← reject (locktime =? 0) (ME_General "Taproot timelock value is zero");
  reject (negb (locktime =? expected_taker_locktime))
    (ME_General "Taproot timelock value {} does not match expected taker locktime {}").

Definition maker_tap_info (hashlock_script timelock_script : Script) (internal_key : XOnlyPublicKey)
    : outcome MakerError TaprootSpendInfo :=
  b ← ok_or (add_leaf 1 hashlock_script []) (ME_General "Taproot tree build failed (hashlock leaf): {:?}");
  b ← ok_or (add_leaf 1 timelock_script b) (ME_General "Taproot tree build failed (timelock leaf): {:?}");
  ok_or (finalize internal_key b) (ME_General "Taproot tree finalization failed: {:?}").

Definition verify_taproot_contract_tx (data : TaprootContractData) (maker_pubkey : PublicKey)
    (expected_taker_locktime : Z) (i : nat) (tx : Transaction) : outcome MakerError () :=
  timelock_script ← expect (tcd_timelock_scripts data !! i);
  pubkey ← expect (tcd_pubkeys data !! i);
  let '(key0, key1) := sort2 inner pubkey maker_pubkey in
  expected_internal_key ← map_err (fun _ => ME_General "Taproot internal key {} aggregation failed: {:?}")
        (get_aggregated_pubkey_compat (inner key0) (inner key1));
  internal_key ← expect (tcd_internal_keys data !! i);
  _ ← reject (bool_decide (internal_key <> expected_internal_key))
        (ME_General "Taproot internal key does not match the expected MuSig2 aggregate");
  _ ← check_timelock_script expected_taker_locktime timelock_script;
  info ← maker_tap_info (tcd_hashlock_script data) timelock_script internal_key;
  tap_tweak ← map_err ME_Protocol (tap_tweak_scalar data i);
  _ ← reject (bool_decide (tap_tweak <> tsi_tap_tweak info))
        (ME_General "Taproot tap tweak does not match internal key and script tree");
  _ ← reject (bool_decide (input tx = [])) (ME_General "Taproot contract tx {} has no inputs");
  _ ← reject (bool_decide (output tx = [])) (ME_General "Taproot contract tx {} has no outputs");
  amount ← expect (tcd_amounts data !! i);
  o ← expect (output tx !! 0%nat);
  _ ← reject (negb (amount =? value o))
        (ME_General "Taproot contract tx {} amount {} does not match output value {}");
  reject (bool_decide (script_pubkey o <> new_p2tr_tweaked (tsi_output_key info)))
    (ME_General "Taproot contract tx {} output scriptpubkey does not match expected P2TR address derived from (internal_key, script_tree)").

Definition verify_taproot_contract_data (data : TaprootContractData) (maker_pubkey : PublicKey)
    (maker_timelock : Z) : outcome MakerError () :=
  let n := length (tcd_contract_txs data) in
  _ ← reject (bool_decide (tcd_contract_txs data = []))
        (ME_General "Taker sent empty Taproot contract data (no contract txs)");
  _ ← reject (negb (n =? length (tcd_amounts data))%nat)
        (ME_General "Taproot contract_txs count ({}) doesn't match amounts count ({})");
  _ ← check_hashlock_template (tcd_hashlock_script data);
  _ ← reject (negb (length (tcd_timelock_scripts data) =? n)%nat || negb (length (tcd_internal_keys data) =? n)%nat
              || negb (length (tcd_tap_tweaks data) =? n)%nat || negb (length (tcd_pubkeys data) =? n)%nat)
        (ME_General "Taproot per-contract vectors have inconsistent lengths");
  _ ← no_duplicate_outpoints (tcd_contract_txs data);
  let expected_taker_locktime := maker_timelock + REFUND_LOCKTIME_STEP in
  for_each_i (verify_taproot_contract_tx data maker_pubkey expected_taker_locktime) (tcd_contract_txs data).

Definition verify_taproot_handover_key (p : SwapPrivkey * IncomingSwapCoin) : outcome MakerError () :=
  let '(privkey_info, incoming) := p in
  let derived_pubkey := {| compressed := true; inner := point_from_secret_key (sp_key privkey_info) |} in
  expected_pubkey ← ok_or (isc_other_pubkey incoming)
    (ME_General "Missing other_pubkey on incoming swapcoin during Taproot handover verification");
  reject (bool_decide (derived_pubkey <> expected_pubkey))
    (ME_General "Taproot privkey derives pubkey that doesn't match expected other_pubkey").

Definition verify_taproot_privkey_handover (privkeys : list SwapPrivkey)
    (incoming_swapcoins : list IncomingSwapCoin) : outcome MakerError () :=
  _ ← reject (negb (length privkeys =? length incoming_swapcoins)%nat)
        (ME_General "Taproot privkey count {} doesn't match incoming swapcoin count {}");
  for_each verify_taproot_handover_key (zip privkeys incoming_swapcoins).

(** ** Taker *)
Definition verify_internal_key (claimed : XOnlyPublicKey) (maker_pubkey next_hop_pubkey : PublicKey)
    : outcome TakerError () :=
  let '(key0, key1) := sort2 inner maker_pubkey next_hop_pubkey in
  expected ← map_err (fun _ => TE_General "Maker {} Taproot internal key {} aggregation failed: {:?}")
        (get_aggregated_pubkey_compat (inner key0) (inner key1));
  reject (bool_decide (claimed <> expected))
    (TE_General "Maker {} Taproot internal key {} does not match the expected MuSig2 aggregate").

Definition taker_locktime_val (timelock_script : Script) : outcome TakerError Z :=
  match instructions timelock_script !! 0%nat with
  | Some first =>
      first ← ok_or first (TE_General "Maker {} Taproot timelock script {} parse error: {:?}");
      locktime_value (TE_General "Maker {} Taproot timelock script {} has empty locktime")
        (TE_General "Maker {} Taproot timelock {} has unexpected byte length {}")
        (TE_General "Maker {} Taproot timelock {} value is non-positive ({})")
        (TE_General "Maker {} Taproot timelock script {} doesn't start with a locktime") first
  | None => Err (TE_General "Maker {} Taproot timelock script {} is empty")
  end.

Definition taker_check_hashlock (expected_hash : bytes) (hashlock_script : Script) : outcome TakerError () :=
  actual_hash ← map_err (fun _ => TE_General "Maker {} Taproot hashlock script is invalid: {:?}")
        (extract_hash_from_hashlock hashlock_script);
  _ ← reject (bool_decide (actual_hash <> expected_hash))
        (TE_General "Maker {} Taproot hashlock script has wrong hash");
  _ ← reject (negb (length (instructions hashlock_script) =? 5)%nat)
        (TE_General "Maker {} Taproot hashlock script has {} instructions, expected 5");
  hashlock_instructions ← ok_or (collect_instructions hashlock_script)
        (TE_General "Maker {} Taproot hashlock script parse error: {:?}");
  reject (negb (is_hashlock_template (fun hash => bool_decide (hash = expected_hash)) hashlock_instructions))
    (TE_General "Maker {} Taproot hashlock script has invalid template").

Definition taker_check_timelock (expected_locktime : Z) (timelock_script : Script) : outcome TakerError () :=
  _ ← reject (negb (length (instructions timelock_script) =? 5)%nat)
        (TE_General "Maker {} Taproot timelock script {} has {} instructions, expected 5");
  timelock_instructions ← ok_or (collect_instructions timelock_script)
        (TE_General "Maker {} Taproot timelock script {} parse error: {:?}");
  _ ← reject (negb (is_timelock_template timelock_instructions))
        (TE_General "Maker {} Taproot timelock script {} has invalid template");
  locktime ← taker_locktime_val timelock_script;
  _ ← reject (locktime =? 0) (TE_General "Maker {} Taproot timelock {} value is zero");
  reject (negb (locktime =? expected_locktime))
    (TE_General "Maker {} Taproot timelock {} value {} does not match expected {}").

Definition verify_maker_taproot_tx (contract : TaprootContractData) (expected_next_hop_pubkey : PublicKey)
    (expected_locktime : Z) (i : nat) (tx : Transaction) : outcome TakerError () :=
  timelock_script ← expect (tcd_timelock_scripts contract !! i);
  internal_key ← expect (tcd_internal_keys contract !! i);
  pubkey ← expect (tcd_pubkeys contract !! i);
  _ ← verify_internal_key internal_key pubkey expected_next_hop_pubkey;
  _ ← taker_check_timelock expected_locktime timelock_script;
  b ← ok_or (add_leaf 1 (tcd_hashlock_script contract) [])
        (TE_General "Maker {} Taproot tree build failed (hashlock leaf): {:?}");
  b ← ok_or (add_leaf 1 timelock_script b)
        (TE_General "Maker {} Taproot tree build failed (timelock leaf): {:?}");
  info ← ok_or (finalize internal_key b) (TE_General "Maker {} Taproot tree finalization failed: {:?}");
  claimed_tweak ← map_err (fun _ => TE_General "Maker {} Taproot tweak {} is invalid: {:?}")
        (tap_tweak_scalar contract i);
  _ ← reject (bool_decide (claimed_tweak <> tsi_tap_tweak info))
        (TE_General "Maker {} Taproot tweak {} does not match internal key and script tree");
  _ ← reject (bool_decide (input tx = [])) (TE_General "Maker {} Taproot contract tx {} has no inputs");
  _ ← reject (bool_decide (output tx = [])) (TE_General "Maker {} Taproot contract tx {} has no outputs");
  o ← expect (output tx !! 0%nat);
  _ ← reject (bool_decide (script_pubkey o <> new_p2tr_tweaked (tsi_output_key info)))
        (TE_General "Maker {} Taproot contract tx {} output scriptpubkey does not match expected P2TR address derived from (internal_key, script_tree)");
  amount ← expect (tcd_amounts contract !! i);
  reject (negb (value o =? amount))
    (TE_General "Maker {} Taproot claimed amount {} for contract tx {} does not match output value {}").

Definition verify_maker_taproot_contract (s : TakerSt) (contract : TaprootContractData)
    (expected_next_hop_pubkey : PublicKey) (expected_locktime : Z) (expected_amount : option Amount)
    : outcome TakerError () :=
  let n := length (tcd_contract_txs contract) in
  _ ← reject (bool_decide (tcd_contract_txs contract = []))
        (TE_General "Maker {} sent empty Taproot contract data (no contract txs)");
  _ ← reject (negb (n =? length (tcd_amounts contract))%nat)
        (TE_General "Maker {} Taproot contract_txs count ({}) doesn't match amounts count ({})");
  _ ← for_each (fun amount => reject (amount =? 0) (TE_General "Maker {} Taproot contract amount {} is zero"))
        (tcd_amounts contract);
  swap ← ok_or s (TE_General "No active swap");
  _ ← taker_check_hashlock (sha256 (os_preimage swap)) (tcd_hashlock_script contract);
  _ ← reject (negb (length (tcd_timelock_scripts contract) =? n)%nat || negb (length (tcd_pubkeys contract) =? n)%nat
              || negb (length (tcd_internal_keys contract) =? n)%nat || negb (length (tcd_tap_tweaks contract) =? n)%nat)
        (TE_General "Maker {} Taproot per-contract vectors have inconsistent lengths");
  _ ← for_each_i (verify_maker_taproot_tx contract expected_next_hop_pubkey expected_locktime)
        (tcd_contract_txs contract);
  match expected_amount with
  | Some expected =>
      total_amount ← map_err (fun _ => TE_General "Maker {} Taproot contract claims {} above the 21M cap")
            (sum_claimed_amounts (tcd_amounts contract));
      reject (negb (total_amount =? expected))
        (TE_General "Maker {} Taproot contract total amount {} does not match expected {} (based on maker's advertised fee schedule)")
  | None => Ok ()
  end.
End verification.

(** ** What the checks mean *)
Section meaning.
Context {lib : BitcoinLib} {laws : BitcoinLaws lib} {tap : TaprootLib} {tlaws : TaprootLaws lib tap}.

Lemma collect_instructions_Some script l :
  collect_instructions script = Some l <-> instructions script = map Some l.
Proof.
  unfold collect_instructions. generalize (instructions script). intros os. revert l.
  induction os as [|o os IH]; intros l; cbn.
  - split; [by intros [= <-]|]. by destruct l.
  - destruct o as [x|]; cbn; [|split; [done|by destruct l]].
    destruct (mapM id os) as [l'|]; cbn.
    + split; [intros [= <-]; cbn; f_equal; by apply IH|]. destruct l as [|y l]; [done|]. intros [= -> Hl].
      do 2 f_equal. apply IH in Hl. congruence.
    + split; [done|]. destruct l as [|y l]; [done|]. intros [= -> Hl]. by apply IH in Hl.
Qed.

Lemma hashlock_template_iff ok instrs :
  is_hashlock_template ok instrs = true <->
  exists hash pk, instrs = [Op OP_SHA256; PushBytes hash; Op OP_EQUALVERIFY; PushBytes pk; Op OP_CHECKSIG] /\
    ok hash = true /\ length pk = 32%nat.
Proof.
  split.
  - unfold is_hashlock_template. repeat case_match; try done. intros Hb. to_prop. subst. eauto.
  - intros (hash & pk & -> & Hok & Hl). cbn. by rewrite Hok, Hl.
Qed.

Lemma timelock_template_iff instrs :
  is_timelock_template instrs = true <->
  exists first pk, instrs = [first; Op OP_CLTV; Op OP_DROP; PushBytes pk; Op OP_CHECKSIG] /\ length pk = 32%nat.
Proof.
  split.
  - unfold is_timelock_template. repeat case_match; try done; intros Hb; to_prop; subst; eauto.
  - intros (first & pk & -> & Hl). cbn. by rewrite Hl.
Qed.

(** The operand of an accepted timelock leaf: one to four bytes that read as the
    locktime when taken as unsigned. *)
Definition reads_as (first : Instruction) (lt : Z) : Prop :=
  exists d, locktime_operand first = Some d /\ le_value d = lt /\ (1 <= length d <= 4)%nat.

Lemma locktime_value_Ok {E} (e1 e2 e3 e4 : E) first lt :
  0 < lt -> locktime_value e1 e2 e3 e4 first = Ok lt <-> reads_as first lt.
Proof.
  intros Hlt. unfold reads_as. destruct first as [bs|op]; cbn [locktime_value locktime_operand].
  - split.
    + intros H. inv_ok H. destruct bs as [|a [|b [|c [|d [|]]]]]; cbn in *; try done; injection H as <-;
        eexists; (split; [done|]); split; [done|cbn; lia|done|cbn; lia|done|cbn; lia|done|cbn; lia].
    + intros (d & [= ->] & Hv & Hl). destruct d as [|a [|b [|c [|d [|]]]]]; cbn in Hl; try lia; cbn in *; by rewrite Hv.
  - split.
    + destruct (classify_pushnum op) as [n|] eqn:Ec; [|done]. destruct (Z.leb_spec n 0); [done|]. intros [= ->].
      apply classify_pushnum_Some in Ec as [-> Hn]; [|lia].
      exists [lt]. destruct (Z.leb_spec 81 (80 + lt)), (Z.leb_spec (80 + lt) 96); try lia. cbn.
      split; [do 2 f_equal; lia|]. split; lia.
    + intros (d & Hd & Hv & _). destruct (Z.leb_spec 81 op), (Z.leb_spec op 96); cbn in Hd; try done.
      injection Hd as <-. cbn in Hv. assert (op = 80 + lt) as -> by lia. rewrite classify_pushnum_small by lia.
      by destruct (Z.leb_spec lt 0); [lia|].
Qed.

Lemma locktime_value_no_panic {E} (e1 e2 e3 e4 : E) first : locktime_value e1 e2 e3 e4 first <> Panic.
Proof. unfold locktime_value. destruct first; no_panic. Qed.

Lemma maker_tap_info_Ok hs ts ik info : maker_tap_info hs ts ik = Ok info <-> two_leaf_tree hs ts ik = Some info.
Proof.
  unfold maker_tap_info. rewrite two_leaf_tree_eq, add_leaf_first. cbn. rewrite add_leaf_second. cbn.
  apply ok_or_Ok.
Qed.

Lemma check_timelock_script_Ok lt script :
  0 < lt ->
  check_timelock_script lt script = Ok () <->
  exists first pk, timelock_leaf script first pk /\ length pk = 32%nat /\ reads_as first lt.
Proof.
  intros Hlt. unfold check_timelock_script, timelock_leaf. split.
  - intros H. inv_ok H. to_prop. apply collect_instructions_Some in Hs.
    apply timelock_template_iff in Hs1 as (first & pk & -> & Hpk).
    cbn in Hs2. subst. exists first, pk. split; [done|]. split; [done|].
    by apply locktime_value_Ok in Hs2.
  - intros (first & pk & Hi & Hpk & Hr). apply collect_instructions_Some in Hi. rewrite Hi. cbn.
    rewrite Hpk. cbn.
    rewrite (proj2 (locktime_value_Ok _ _ _ _ first lt Hlt) Hr). cbn.
    destruct (Z.eqb_spec lt 0); [lia|]. by rewrite Z.eqb_refl.
Qed.

(** What the maker requires of contract [i]. *)
Definition tap_contract_ok (data : TaprootContractData) (maker_pubkey : PublicKey) (lt : Z) (i : nat)
    (tx : Transaction) : Prop :=
  exists ts first lpk pubkey ik info o outs,
    tcd_timelock_scripts data !! i = Some ts /\ timelock_leaf ts first lpk /\ length lpk = 32%nat /\
    reads_as first lt /\
    tcd_pubkeys data !! i = Some pubkey /\ tcd_internal_keys data !! i = Some ik /\
    get_aggregated_pubkey_compat (inner pubkey) (inner maker_pubkey) = Ok ik /\
    contract_output (tcd_hashlock_script data) ts ik info o /\
    tcd_tap_tweaks data !! i = Some (tsi_tap_tweak info) /\
    input tx <> [] /\ output tx = o :: outs /\ tcd_amounts data !! i = Some (value o).

Lemma aggregate_sorted p q :
  (let '(a, b) := sort2 inner p q in get_aggregated_pubkey_compat (inner a) (inner b)) =
  get_aggregated_pubkey_compat (inner p) (inner q).
Proof.
  unfold sort2. destruct (bytes_lt (inner q) (inner p)) eqn:E; [|done].
  unfold get_aggregated_pubkey_compat, btc_pubkey_to_secp.
  destruct (valid_point (inner p)) eqn:Ep, (valid_point (inner q)) eqn:Eq; cbn; try done.
  unfold get_aggregated_pubkey. rewrite (sort2_comm (inner q) (inner p)); [done|].
  apply valid_point_length in Ep, Eq. congruence.
Qed.

Lemma tweak_scalar_Ok data i t :
  tap_tweak_scalar data i = Ok t -> tcd_tap_tweaks data !! i = Some t.
Proof.
  unfold tap_tweak_scalar, scalar_try_from. intros H. inv_ok H. apply scalar_from_be_bytes_Some in H. by subst.
Qed.

Lemma verify_taproot_contract_tx_Ok data mk lt i tx :
  0 < lt -> verify_taproot_contract_tx data mk lt i tx = Ok () <-> tap_contract_ok data mk lt i tx.
Proof.
  intros Hlt. unfold verify_taproot_contract_tx, tap_contract_ok. split.
  - intros H. inv_ok H. destruct (sort2 inner v0 mk) as [a b] eqn:Esort. inv_ok H. to_prop.
    repeat match goal with u : () |- _ => destruct u end.
    match goal with H : check_timelock_script _ _ = _ |- _ => apply check_timelock_script_Ok in H as (first & lpk & Hleaf & Hlpk & Hr); [|done] end.
    match goal with H : maker_tap_info _ _ _ = _ |- _ => apply maker_tap_info_Ok in H end.
    match goal with H : tap_tweak_scalar _ _ = _ |- _ => apply tweak_scalar_Ok in H end.
    pose proof (aggregate_sorted v0 mk) as Hagg. rewrite Esort in Hagg.
    destruct (output tx) as [|o outs] eqn:Eo; [done|].
    match goal with H : (o :: outs) !! 0%nat = Some _ |- _ => injection H as <- end.
    repeat match goal with H : ~ (_ <> _) |- _ => apply dec_stable in H end. subst.
    do 8 eexists. split; [eassumption|]. do 3 (split; [eassumption|]). split; [eassumption|]. split; [eassumption|].
    split; [by rewrite <- Hagg|]. split; [by split|]. split; [congruence|]. split; [done|]. split; [done|]. congruence.
  - intros (ts & first & lpk & pk & ik & info & o & outs & Hts & Hleaf & Hlpk & Hr & Hpk & Hik & Hagg & [Ht Hspk] & Htw & Hin & Hout & Ham).
    rewrite Hts. cbn. rewrite Hpk. cbn. pose proof (aggregate_sorted pk mk) as Ha.
    destruct (sort2 inner pk mk) as [a b]. rewrite Ha, Hagg. cbn. rewrite Hik. cbn.
    rewrite bool_decide_ne_refl. cbn.
    rewrite (proj2 (check_timelock_script_Ok lt ts Hlt)) by eauto. cbn.
    rewrite (proj2 (maker_tap_info_Ok _ _ _ _) Ht). cbn.
    destruct (tree_facts _ _ _ _ Ht) as (_ & _ & _ & Hsc & Hl & _).
    unfold tap_tweak_scalar, scalar_try_from. rewrite Htw. cbn. rewrite Hl. cbn. rewrite Hsc. cbn.
    rewrite bool_decide_ne_refl. destruct (input tx) as [|inp ins]; [done|]. cbn.
    rewrite Hout. cbn. rewrite Ham. cbn. rewrite Z.eqb_refl. cbn.
    rewrite Hspk. by rewrite bool_decide_ne_refl.
Qed.

Lemma extract_hash_leaf script hash pk :
  hashlock_leaf script hash pk -> length hash = 32%nat -> extract_hash_from_hashlock script = Ok hash.
Proof. unfold hashlock_leaf, extract_hash_from_hashlock. intros -> Hl. cbn. by rewrite Hl. Qed.

Lemma check_hashlock_template_Ok script :
  check_hashlock_template script = Ok () <->
  exists hash pk, hashlock_leaf script hash pk /\ length hash = 32%nat /\ length pk = 32%nat.
Proof.
  unfold check_hashlock_template, hashlock_leaf. split.
  - intros H. inv_ok H. to_prop. apply collect_instructions_Some in Hs0.
    apply hashlock_template_iff in H as (hash & pk & -> & Hh & Hp). to_prop. eauto.
  - intros (hash & pk & Hi & Hh & Hp). rewrite (extract_hash_leaf script hash pk) by done. cbn.
    apply collect_instructions_Some in Hi. rewrite Hi. cbn. by rewrite Hh, Hp.
Qed.

Lemma no_duplicates_Ok txs : forall seen,
  (exists r, try_fold (fun seen tx =>
      let contract_outpoint := {| op_txid := compute_txid tx; op_vout := 0 |} in
      if bool_decide (contract_outpoint ∈ seen) then Err (ME_General "Duplicate Taproot contract outpoint")
      else Ok (contract_outpoint :: seen)) seen txs = Ok r) <->
  NoDup (map compute_txid txs) /\ forall tx, tx ∈ txs -> {| op_txid := compute_txid tx; op_vout := 0 |} ∉ seen.
Proof.
  induction txs as [|tx txs IH]; intros seen; cbn.
  { split; [|eauto]. intros _. split; [constructor|]. intros tx Htx. by apply elem_of_nil in Htx. }
  case_bool_decide as Hin; cbn.
  { split; [naive_solver|]. intros [_ H]. exfalso. by apply (H tx); [constructor|]. }
  rewrite IH. rewrite NoDup_cons. split.
  - intros [Hnd Hs]. split; [split; [|done]|].
    + intros (t & Ht & Htx)%list_elem_of_fmap. apply (Hs t Htx). rewrite <- Ht. constructor.
    + intros t [->|Ht]%elem_of_cons; [done|]. intros Hc. apply (Hs t Ht). by constructor.
  - intros [[Hn Hnd] Hs]. split; [done|]. intros t Ht [Heq|Hc]%elem_of_cons.
    + injection Heq as Heq. apply Hn. rewrite <- Heq. by apply list_elem_of_fmap_2.
    + by apply (Hs t); [constructor|].
Qed.

Lemma no_duplicate_outpoints_Ok txs :
  is_ok (no_duplicate_outpoints txs) = true <-> NoDup (map compute_txid txs).
Proof.
  pose proof (no_duplicates_Ok txs []) as H. unfold no_duplicate_outpoints.
  destruct (try_fold _ [] txs) as [r|e|]; cbn; split; intros Hx; try done.
  - apply H. eauto.
  - destruct (proj2 H) as [r Hr]; [|done]. split; [done|]. intros t _ Ht. by apply elem_of_nil in Ht.
  - destruct (proj2 H) as [r Hr]; [|done]. split; [done|]. intros t _ Ht. by apply elem_of_nil in Ht.
Qed.

(** What the maker requires of the whole message. *)
Definition tap_data_ok (data : TaprootContractData) (maker_pubkey : PublicKey) (maker_timelock : Z) : Prop :=
  tcd_contract_txs data <> [] /\
  length (tcd_amounts data) = length (tcd_contract_txs data) /\
  length (tcd_timelock_scripts data) = length (tcd_contract_txs data) /\
  length (tcd_internal_keys data) = length (tcd_contract_txs data) /\
  length (tcd_tap_tweaks data) = length (tcd_contract_txs data) /\
  length (tcd_pubkeys data) = length (tcd_contract_txs data) /\
  (exists hash pk, hashlock_leaf (tcd_hashlock_script data) hash pk /\ length hash = 32%nat /\ length pk = 32%nat) /\
  NoDup (map compute_txid (tcd_contract_txs data)) /\
  forall i tx, tcd_contract_txs data !! i = Some tx ->
    tap_contract_ok data maker_pubkey (maker_timelock + REFUND_LOCKTIME_STEP) i tx.

Lemma verify_taproot_contract_data_Ok data mk tl :
  is_u32 tl -> verify_taproot_contract_data data mk tl = Ok () <-> tap_data_ok data mk tl.
Proof.
  intros [Htl _]. assert (0 < tl + REFUND_LOCKTIME_STEP) as Hlt by (unfold REFUND_LOCKTIME_STEP; lia).
  unfold verify_taproot_contract_data, tap_data_ok. cbv zeta. split.
  - intros H. inv_ok H. to_prop. repeat match goal with u : () |- _ => destruct u end.
    assert (is_ok (no_duplicate_outpoints (tcd_contract_txs data)) = true) as Hnd by (by rewrite Hs3).
    apply no_duplicate_outpoints_Ok in Hnd.
    match goal with H : check_hashlock_template _ = _ |- _ => apply check_hashlock_template_Ok in H end.
    do 8 (split; [congruence || done|]). intros i tx Htx. apply (proj1 (for_each_from_Ok _ _ _ ()) H) in Htx.
    by apply verify_taproot_contract_tx_Ok in Htx.
  - intros (Hne & Ha & Hts & Hik & Htw & Hpk & Hh & Hnd & Hall).
    destruct (tcd_contract_txs data) as [|t0 txs] eqn:E; [done|]. rewrite <- E in *.
    rewrite (bool_decide_eq_false_2 (tcd_contract_txs data = [])) by (by rewrite E). cbn [reject mbind outcome_bind].
    rewrite Ha, Nat.eqb_refl. cbn [negb reject mbind outcome_bind].
    rewrite (proj2 (check_hashlock_template_Ok _) Hh). cbn [mbind outcome_bind].
    rewrite Hts, Hik, Htw, Hpk, Nat.eqb_refl. cbn [negb orb reject mbind outcome_bind].
    apply no_duplicate_outpoints_Ok in Hnd. destruct (no_duplicate_outpoints _); [|done|done].
    cbn [mbind outcome_bind]. apply for_each_from_Ok. intros k x Hk. apply verify_taproot_contract_tx_Ok; [done|].
    by apply Hall.
Qed.

Lemma check_hashlock_template_no_panic script : check_hashlock_template script <> Panic.
Proof.
  unfold check_hashlock_template. apply bind_no_panic; [|intros ? ?; no_panic].
  apply map_err_no_panic. unfold extract_hash_from_hashlock. cbv zeta. no_panic.
Qed.

Lemma check_timelock_script_no_panic lt script : check_timelock_script lt script <> Panic.
Proof.
  unfold check_timelock_script, maker_locktime_val.
  repeat (apply bind_no_panic; [no_panic|intros ? ?]); no_panic. apply locktime_value_no_panic.
Qed.

Lemma aggregate_no_panic p q : get_aggregated_pubkey_compat p q <> Panic.
Proof. unfold get_aggregated_pubkey_compat, btc_pubkey_to_secp. no_panic. Qed.

Lemma expect_no_panic {E A} (l : list A) i : (i < length l)%nat -> expect (E := E) (l !! i) <> Panic.
Proof. intros [x ->]%lookup_lt_is_Some_2. done. Qed.

Lemma verify_taproot_contract_tx_no_panic data mk lt i tx :
  (i < length (tcd_timelock_scripts data))%nat -> (i < length (tcd_pubkeys data))%nat ->
  (i < length (tcd_internal_keys data))%nat -> (i < length (tcd_tap_tweaks data))%nat ->
  (i < length (tcd_amounts data))%nat ->
  verify_taproot_contract_tx data mk lt i tx <> Panic.
Proof.
  intros H1 H2 H3 H4 H5. unfold verify_taproot_contract_tx.
  apply bind_no_panic; [by apply expect_no_panic|intros ts _].
  apply bind_no_panic; [by apply expect_no_panic|intros pk _]. destruct (sort2 inner pk mk) as [a b].
  apply bind_no_panic; [apply map_err_no_panic, aggregate_no_panic|intros ik' _].
  apply bind_no_panic; [by apply expect_no_panic|intros ik _].
  apply bind_no_panic; [no_panic|intros _ _].
  apply bind_no_panic; [apply check_timelock_script_no_panic|intros _ _].
  apply bind_no_panic; [unfold maker_tap_info; no_panic|intros info _].
  apply bind_no_panic.
  { apply map_err_no_panic. unfold tap_tweak_scalar, scalar_try_from.
    apply bind_no_panic; [by apply expect_no_panic|intros t _; no_panic]. }
  intros tw _. do 2 (apply bind_no_panic; [no_panic|intros _ _]).
  apply bind_no_panic; [no_panic|intros u Ho]. inv_ok Ho. to_prop.
  apply bind_no_panic; [by apply expect_no_panic|intros am _].
  apply bind_no_panic; [apply expect_no_panic; destruct (output tx); [done|cbn; lia]|intros o _].
  no_panic.
Qed.

Lemma no_duplicate_outpoints_no_panic txs : no_duplicate_outpoints txs <> Panic.
Proof.
  unfold no_duplicate_outpoints. generalize (@nil OutPoint).
  induction txs as [|tx txs IH]; intros seen; cbn; [done|]. case_bool_decide; cbn; [done|apply IH].
Qed.

Lemma verify_taproot_contract_data_no_panic data mk tl : verify_taproot_contract_data data mk tl <> Panic.
Proof.
  unfold verify_taproot_contract_data. cbv zeta.
  apply bind_no_panic; [no_panic|intros _ _].
  apply bind_no_panic; [no_panic|intros u1 Ha]. apply bind_no_panic; [apply check_hashlock_template_no_panic|intros _ _].
  apply bind_no_panic; [no_panic|intros u2 Hl]. inv_ok Ha. inv_ok Hl. to_prop.
  apply bind_no_panic.
  { apply no_duplicate_outpoints_no_panic. }
  intros _ _. apply for_each_from_no_panic. intros k tx Hk. apply lookup_lt_Some in Hk.
  apply verify_taproot_contract_tx_no_panic; lia.
Qed.

(** the maker accepts a taker's taproot contracts exactly when there is at
    least one, the per-contract vectors line up, the hashlock leaf has its
    template, no contract is counted twice, and every contract pays in its first
    output the stated amount to the taproot output of the aggregated key and the
    two leaves, with the matching tweak and a timelock one step above the
    maker's own; no message makes the check panic. *)
Lemma maker_accepts_taproot_contracts_iff (data : TaprootContractData) (mk : PublicKey) (tl : Z)
    (Htl : is_u32 tl) :
  verify_taproot_contract_data data mk tl <> Panic /\
  (verify_taproot_contract_data data mk tl = Ok () <-> tap_data_ok data mk tl).
Proof.
  split; [apply verify_taproot_contract_data_no_panic|by apply verify_taproot_contract_data_Ok].
Qed.

(** ** When the taker's refund opens *)

(** The locktimes whose unsigned reading is also a negative zero. *)
Definition negative_zero_locktimes : list Z := [128; 32768; 8388608; 2147483648].

Lemma scriptnum_of_reading d :
  Forall (fun b => is_u8 b) d -> (1 <= length d <= 4)%nat ->
  le_value d ∉ negative_zero_locktimes -> scriptnum d = le_value d \/ scriptnum d < 0.
Proof.
  intros Hb Hl Hn. unfold scriptnum, negative_zero_locktimes in *.
  destruct d as [|a [|b [|c [|e [|]]]]]; cbn in Hl; try lia;
    repeat match goal with H : Forall _ (_ :: _) |- _ => apply Forall_cons in H as [[? ?] H] end;
    cbn [last le_value] in *; case_match; try (by left); to_prop; right;
    unfold zlen; cbn; repeat rewrite not_elem_of_cons in Hn; lia.
Qed.

Lemma exec_reaches_cltv cx ts first pk d items st :
  timelock_leaf ts first pk -> locktime_operand first = Some d ->
  tap_exec cx (instructions ts) items = Some st ->
  cltv_ok (lock_time (tcx_tx cx)) (tcx_sequence cx) (scriptnum d) = true.
Proof.
  intros Hleaf Hd. rewrite Hleaf. cbn [map]. rewrite (exec_operand _ _ d) by done. cbn [tap_exec].
  change (tap_step cx OP_CLTV (d :: items))
    with (if cltv_ok (lock_time (tcx_tx cx)) (tcx_sequence cx) (scriptnum d) then Some (d :: items) else None).
  by destruct (cltv_ok _ _ _).
Qed.

(** in a contract the maker accepted, the taker's timelock leaf cannot be
    executed by any transaction whose locktime is below the maker's own locktime
    plus the refund step, whatever else the witness holds, except where that
    height is one of the four numbers whose bytes also read as a negative zero. *)
Lemma accepted_taproot_refund_waits (data : TaprootContractData) (mk : PublicKey) (tl : Z) (i : nat)
    (ts : Script) (cx : TapCtx) (items st : list bytes)
    (Htl : is_u32 tl) (Hok : verify_taproot_contract_data data mk tl = Ok ())
    (Hts : tcd_timelock_scripts data !! i = Some ts)
    (Hbytes : forall d, PushBytes d ∈ omap id (instructions ts) -> Forall (fun b => is_u8 b) d)
    (Hzero : tl + REFUND_LOCKTIME_STEP ∉ negative_zero_locktimes)
    (Hrun : tap_exec cx (instructions ts) items = Some st) :
  tl + REFUND_LOCKTIME_STEP <= lock_time (tcx_tx cx).
Proof.
  apply verify_taproot_contract_data_Ok in Hok; [|done].
  destruct Hok as (_ & _ & Hlt & _ & _ & _ & _ & _ & Hall).
  destruct (lookup_lt_is_Some_2 (tcd_contract_txs data) i) as [tx Htx].
  { apply lookup_lt_Some in Hts. lia. }
  destruct (Hall i tx Htx) as (ts' & first & lpk & pk & ik & info & o & outs & Hts' & Hleaf & _ & (d & Hd & Hv & Hl) & _).
  rewrite Hts in Hts'. injection Hts' as <-.
  pose proof (exec_reaches_cltv _ _ _ _ _ _ _ Hleaf Hd Hrun) as Hc. unfold cltv_ok in Hc. to_prop.
  assert (scriptnum d = le_value d \/ scriptnum d < 0) as [Hs|Hs]; [|lia|lia].
  apply scriptnum_of_reading; [|done|by rewrite Hv].
  destruct first as [bs|op]; cbn in Hd.
  - injection Hd as ->. apply Hbytes. rewrite Hleaf. cbn. constructor.
  - destruct (Z.leb_spec 81 op), (Z.leb_spec op 96); cbn in Hd; try done. injection Hd as <-.
    apply Forall_singleton. split; lia.
Qed.

(** The reading of the locktime and the meaning of the script differ in one
    place: a push of the bytes 0x00 0x80 is accepted as height 32768, but as a
    script number it is a negative zero, so the leaf needs nothing but the
    taker's signature, with any locktime in blocks from 0 on. *)
Lemma negative_zero_locktime_opens_at_once (pk : XOnlyPublicKey) (cx : TapCtx) (sig : bytes)
    (Hpk : length pk = 32%nat) (Hlock : 0 <= lock_time (tcx_tx cx) < LOCK_TIME_THRESHOLD)
    (Hseq : tcx_sequence cx < 4294967295) :
  let script := [2; 0; 128; OP_CLTV; OP_DROP; 32] ++ pk ++ [OP_CHECKSIG] in
  check_timelock_script 32768 script = Ok () /\
  tap_exec cx (instructions script) [sig] = Some [bool_item (tap_checksig cx sig pk)].
Proof.
  intros script.
  assert (timelock_leaf script (PushBytes [0; 128]) pk) as Hleaf.
  { unfold timelock_leaf, script. cbn [app].
    change (2 :: 0 :: 128 :: OP_CLTV :: OP_DROP :: 32 :: pk ++ [OP_CHECKSIG])
      with (2 :: [0; 128] ++ (OP_CLTV :: OP_DROP :: 32 :: pk ++ [OP_CHECKSIG])).
    rewrite (instructions_push_small 2 [0; 128]) by (cbn; lia || done).
    do 2 rewrite instructions_opcode by (apply plain_opcode; reflexivity).
    rewrite (instructions_push_small 32 pk) by (unfold zlen; rewrite ?Hpk; lia || done).
    rewrite instructions_opcode by (apply plain_opcode; reflexivity). by rewrite instructions_nil. }
  split.
  - apply check_timelock_script_Ok; [lia|]. exists (PushBytes [0; 128]), pk. split; [done|]. split; [done|].
    exists [0; 128]. split; [done|]. split; [done|cbn; lia].
  - rewrite Hleaf, (timelock_exec _ _ [0; 128]) by done. unfold cltv_ok.
    change (scriptnum [0; 128]) with 0. change (0 <=? 0) with true. change (0 <? LOCK_TIME_THRESHOLD) with true.
    destruct (Z.ltb_spec (lock_time (tcx_tx cx)) LOCK_TIME_THRESHOLD); [|lia].
    destruct (Z.leb_spec 0 (lock_time (tcx_tx cx))); [|lia].
    by destruct (Z.eqb_spec (tcx_sequence cx) 4294967295); [lia|].
Qed.

(** ** The taker does not look for duplicates *)

(** The same contract announced [n] times. *)
Definition announced_times (n : nat) (contract : TaprootContractData) : TaprootContractData :=
  let again {A} (l : list A) := concat (replicate n l) in
  {| contract with
     tcd_pubkeys := again (tcd_pubkeys contract);
     tcd_internal_keys := again (tcd_internal_keys contract);
     tcd_tap_tweaks := again (tcd_tap_tweaks contract);
     tcd_timelock_scripts := again (tcd_timelock_scripts contract);
     tcd_contract_txs := again (tcd_contract_txs contract);
     tcd_amounts := again (tcd_amounts contract) |}.

Lemma again_one {A} n (x : A) : concat (replicate n [x]) = replicate n x.
Proof. induction n as [|n IH]; cbn; [done|]. by rewrite IH. Qed.

Lemma one_of_length {A} (l : list A) : length l = 1%nat -> exists x, l = [x].
Proof. by apply list_one. Qed.

Lemma sum_claimed_again n a :
  0 < a -> Z.of_nat n * a <= MAX_MONEY -> sum_claimed_amounts (replicate n a) = Ok (Z.of_nat n * a).
Proof.
  intros Ha Hn. unfold sum_claimed_amounts.
  enough (forall t, 0 <= t -> t + Z.of_nat n * a <= MAX_MONEY ->
    try_fold (fun total amount => if MAX_MONEY <? amount then Err amount else
      match checked_add 64 total amount with Some t => if t <=? MAX_MONEY then Ok t else Err amount | None => Err amount end)
      t (replicate n a) = Ok (t + Z.of_nat n * a)) as H by (apply (H 0); lia).
  clear Hn. induction n as [|n IH]; intros t Ht Hn; cbn [replicate try_fold]; [f_equal; lia|].
  destruct (Z.ltb_spec MAX_MONEY a); [lia|]. unfold checked_add.
  destruct (Z.ltb_spec (t + a) (2 ^ 64)) as [_|H']; [|unfold MAX_MONEY in *; lia].
  destruct (Z.leb_spec (t + a) MAX_MONEY); [|lia]. cbn [mbind outcome_bind]. rewrite IH by lia. f_equal. lia.
Qed.

(** the taker's check of a maker's taproot contracts counts a contract as
    often as it is announced: a message with one contract that is accepted for
    the amount [a] can be sent with that same contract repeated [n] times, and is
    then accepted for [n * a], with one output of value [a] on the chain. *)
Lemma taker_accepts_repeated_taproot_contract (st : TakerSt) (contract : TaprootContractData) (next : PublicKey)
    (lt : Z) (a : Amount) (n : nat)
    (Hone : length (tcd_contract_txs contract) = 1%nat)
    (Hok : verify_maker_taproot_contract st contract next lt (Some a) = Ok ())
    (Hpos : 0 <= a) (Hn : (1 <= n)%nat) (Hcap : Z.of_nat n * a <= MAX_MONEY) :
  verify_maker_taproot_contract st (announced_times n contract) next lt (Some (Z.of_nat n * a)) = Ok () /\
  (forall tx, tx ∈ tcd_contract_txs (announced_times n contract) -> tcd_contract_txs contract = [tx]).
Proof.
  unfold verify_maker_taproot_contract in Hok. cbv zeta in Hok. inv_ok Hok. to_prop.
  repeat match goal with u : () |- _ => destruct u end. rewrite Hone in *.
  destruct (one_of_length _ Hone) as [tx Etx].
  destruct (one_of_length (tcd_amounts contract)) as [am Eam]; [done|].
  destruct (one_of_length (tcd_timelock_scripts contract)) as [ts Ets]; [done|].
  destruct (one_of_length (tcd_pubkeys contract)) as [pk Epk]; [done|].
  destruct (one_of_length (tcd_internal_keys contract)) as [ik Eik]; [done|].
  destruct (one_of_length (tcd_tap_tweaks contract)) as [tw Etw]; [done|].
  match goal with H : for_each_from _ 0 (tcd_amounts contract) = _ |- _ => rewrite Eam in H; cbn in H; inv_ok H; to_prop end.
  match goal with H : for_each_from _ 0 (tcd_contract_txs contract) = _ |- _ => rewrite Etx in H; cbn in H; inv_ok H end.
  match goal with H : sum_claimed_amounts _ = _ |- _ => rewrite Eam in H; pose proof H as Hsum end.
  assert (am = a /\ 0 < am) as [-> Ham].
  { unfold sum_claimed_amounts in Hsum. cbn in Hsum. destruct (Z.ltb_spec MAX_MONEY am); [done|].
    unfold checked_add in Hsum. cbn in Hsum. destruct (0 + am <? 2 ^ 64); [|done]. case_match; [|done]. cbn in Hsum.
    injection Hsum as Hz. subst. lia. }
  assert (announced_times n contract = {| contract with
     tcd_pubkeys := replicate n pk; tcd_internal_keys := replicate n ik; tcd_tap_tweaks := replicate n tw;
     tcd_timelock_scripts := replicate n ts; tcd_contract_txs := replicate n tx; tcd_amounts := replicate n a |}) as ->.
  { unfold announced_times. rewrite Etx, Eam, Ets, Epk, Eik, Etw, !again_one. done. }
  split; [|cbn; intros tx' [-> _]%elem_of_replicate; done].
  unfold verify_maker_taproot_contract. cbn [tcd_contract_txs tcd_amounts tcd_hashlock_script tcd_timelock_scripts
    tcd_pubkeys tcd_internal_keys tcd_tap_tweaks]. cbv zeta. rewrite !length_replicate, Nat.eqb_refl.
  rewrite (bool_decide_eq_false_2 (replicate n tx = [])) by (destruct n; [lia|done]). cbn [negb orb reject mbind outcome_bind].
  assert (for_each (fun amount => reject (amount =? 0) (TE_General "Maker {} Taproot contract amount {} is zero"))
            (replicate n a) = Ok ()) as ->.
  { apply for_each_Ok, Forall_replicate. cbn. destruct (Z.eqb_spec a 0); [lia|done]. }
  cbn [mbind outcome_bind]. match goal with H : st = Some _ |- _ => rewrite H end. cbn [ok_or mbind outcome_bind].
  match goal with H : taker_check_hashlock _ _ = Ok () |- _ => rewrite H end. cbn [mbind outcome_bind].
  assert (for_each_i (verify_maker_taproot_tx {| contract with
     tcd_pubkeys := replicate n pk; tcd_internal_keys := replicate n ik; tcd_tap_tweaks := replicate n tw;
     tcd_timelock_scripts := replicate n ts; tcd_contract_txs := replicate n tx; tcd_amounts := replicate n a |} next lt)
     (replicate n tx) = Ok ()) as ->.
  { apply for_each_from_Ok. intros k x [-> Hk]%lookup_replicate.
    match goal with H : verify_maker_taproot_tx _ _ _ _ _ = Ok ?u |- _ => destruct u; rewrite <- H end.
    unfold verify_maker_taproot_tx, tap_tweak_scalar. cbn [tcd_timelock_scripts tcd_pubkeys tcd_internal_keys tcd_tap_tweaks
      tcd_amounts tcd_hashlock_script]. rewrite Ets, Epk, Eik, Etw, Eam, !lookup_replicate_2 by done. done. }
  cbn [mbind outcome_bind]. rewrite sum_claimed_again by done. cbn [map_err mbind outcome_bind].
  by rewrite Z.eqb_refl.
Qed.
End meaning.

(** ** Concrete messages *)
Module TapSample.
#[local] Existing Instance Reference.lib.
#[local] Existing Instance TapReference.tap.

Definition preimage : Preimage := replicate 32 5.
Definition hashlock : Script :=
  create_hashlock_script (sha256 preimage) (x_only_public_key (point_from_secret_key 103)).
(** Refund height 320 for a maker whose own is 300. *)
Definition timelock : Script := create_timelock_script 320 (x_only_public_key (point_from_secret_key 23)).
Definition internal_key : XOnlyPublicKey :=
  match get_aggregated_pubkey_compat (point_from_secret_key 22) (point_from_secret_key 100) with Ok k => k | _ => [] end.
Definition tree : TaprootSpendInfo :=
  default {| tsi_internal_key := []; tsi_merkle_root := None; tsi_output_key := []; tsi_tap_tweak := []; tsi_leaves := [] |}
    (two_leaf_tree hashlock timelock internal_key).
Definition contract_tx (vout amount : Z) : Transaction :=
  {| version := 2; lock_time := 0;
     input := [{| previous_output := {| op_txid := 9; op_vout := vout |}; script_sig := []; sequence := 0; witness := [] |}];
     output := [{| value := amount; script_pubkey := new_p2tr_tweaked (tsi_output_key tree) |}] |}.
Definition data (amounts : list Amount) : TaprootContractData :=
  {| tcd_id := "s"; tcd_pubkeys := map (fun _ => pubkey_of 22) amounts; tcd_next_hop_point := pubkey_of 31;
     tcd_internal_keys := map (fun _ => internal_key) amounts; tcd_tap_tweaks := map (fun _ => tsi_tap_tweak tree) amounts;
     tcd_hashlock_script := hashlock; tcd_timelock_scripts := map (fun _ => timelock) amounts;
     tcd_contract_txs := imap (fun i a => contract_tx (Z.of_nat i) a) amounts; tcd_amounts := amounts;
     tcd_hashlock_nonce := Some 3; tcd_next_hashlock_nonce := Some 4 |}.
(** The taker's refund, once its height is reached. *)
Definition refund_ctx (lock : Z) : TapCtx :=
  {| tcx_tx := {| (contract_tx 0 40000) with lock_time := lock |}; tcx_sequence := 0;
     tcx_prevout := {| value := 50000; script_pubkey := [] |}; tcx_script := timelock |}.
End TapSample.
#[local] Existing Instance Reference.lib.
#[local] Existing Instance Reference.laws.
#[local] Existing Instance TapReference.tap.
#[local] Existing Instance TapReference.tap_laws.

Lemma maker_accepts_taproot_contracts_iff_witness : tap_data_ok (TapSample.data [50000]) (pubkey_of 100) 300.
Proof.
  destruct (maker_accepts_taproot_contracts_iff (TapSample.data [50000]) (pubkey_of 100) 300) as [_ [H _]].
  - split; lia.
  - apply H. vm_compute. reflexivity.
Defined.

Lemma accepted_taproot_refund_waits_witness : 300 + REFUND_LOCKTIME_STEP <= 321.
Proof.
  apply (accepted_taproot_refund_waits (TapSample.data [50000]) (pubkey_of 100) 300 0 TapSample.timelock
           (TapSample.refund_ctx 321) [[]] [[]]).
  - split; lia.
  - vm_compute. reflexivity.
  - reflexivity.
  - intros d. assert (omap id (instructions TapSample.timelock) =
      [PushBytes [64; 1]; Op 177; Op 117; PushBytes (x_only_public_key (point_from_secret_key 23)); Op 172]) as ->
      by (vm_compute; reflexivity).
    intros Hd. repeat (apply elem_of_cons in Hd as [Hd|Hd]; [try discriminate Hd|]); [| |by apply elem_of_nil in Hd].
    + injection Hd as ->. repeat constructor; lia.
    + injection Hd as ->. repeat constructor; vm_compute; congruence.
  - unfold negative_zero_locktimes, REFUND_LOCKTIME_STEP. set_solver by lia.
  - vm_compute. reflexivity.
Defined.

Lemma negative_zero_locktime_opens_at_once_witness :
  check_timelock_script 32768 ([2; 0; 128; OP_CLTV; OP_DROP; 32] ++ replicate 32 7 ++ [OP_CHECKSIG]) = Ok ().
Proof.
  destruct (negative_zero_locktime_opens_at_once (replicate 32 7) (TapSample.refund_ctx 0) []) as [H _].
  - reflexivity.
  - split; vm_compute; congruence.
  - reflexivity.
  - exact H.
Defined.

(** The last maker announces one contract of 50000 sat four times. *)
Definition taker_swap : TakerSt :=
  Some {| os_id := "s"; os_preimage := TapSample.preimage;
          os_params := SwapParams_new Taproot 200000 1;
          os_makers := []; os_outgoing_swapcoins := []; os_incoming_swapcoins := []; os_watchonly_swapcoins := [];
          os_multisig_nonces := []; os_hashlock_nonces := []; os_spare_makers := []; os_phase := FundsBroadcast;
          os_reference_height := None; os_payment := None |}.

Lemma taker_accepts_repeated_taproot_contract_witness :
  verify_maker_taproot_contract taker_swap (announced_times 4 (TapSample.data [50000])) (pubkey_of 100) 320
    (Some 200000) = Ok ().
Proof.
  destruct (taker_accepts_repeated_taproot_contract taker_swap (TapSample.data [50000]) (pubkey_of 100) 320 50000 4)
    as [H _].
  - reflexivity.
  - vm_compute. reflexivity.
  - lia.
  - lia.
  - vm_compute. congruence.
  - exact H.
Defined.
