(* ===== verification/MakerHandlers.v ===== *)
(** The maker's connection state machine: src/maker/handlers.rs.

    A handler runs on a [ConnectionState] and calls the operations of the
    [Maker] trait.  The trait is the class [Maker] below, over an abstract world
    [W] (wallet, chain backend, watcher, stored swaps, clock); every call that
    has an effect outside the connection is recorded in a trace with its
    success, so that theorems can speak of the order of effects.  Behaviours
    compiled only for integration tests and log lines are left out. *)
From S2P Require Import Prelude Float64 Bitcoin Messages Contract Errors SwapCoin TakerState.
#[local] Open Scope string_scope.
#[local] Open Scope list_scope.
#[local] Open Scope Z_scope.

Definition MIN_CONTRACT_REACTION_TIME : Z := 10.
Definition MAX_CONCURRENT_SWAPS : Z := 30.

Definition offset_meets_reaction_time (refund_locktime_offset : Z) : bool :=
  MIN_CONTRACT_REACTION_TIME <=? refund_locktime_offset.

Definition incoming_within_swap_amount (total_incoming swap_amount : Amount) : bool :=
  total_incoming <=? swap_amount.

Definition past_refund_deadline (protocol : ProtocolVersion) (timelock : Z)
    (funding_confirmation_height : option Z) (current_height : Z) : bool :=
  let past incoming_deadline :=
    saturating_add 32 incoming_deadline REFUND_LOCKTIME_STEP
      <? saturating_add 32 current_height MIN_CONTRACT_REACTION_TIME in
  match protocol with
  | Taproot => past timelock
  | Legacy =>
      match funding_confirmation_height with
      | Some height => past (saturating_add 32 height timelock)
      | None => false
      end
  end.

(** ** Connection state *)
Inductive SwapPhase :=
| AwaitingHello
| AwaitingOfferRequest
| AwaitingSwapDetails
| AwaitingContractData
| AwaitingSignaturesOrPreimage
| AwaitingPrivateKeyHandover
| Completed.
#[global] Instance MakerSwapPhase_eq_dec : EqDecision SwapPhase.
Proof. solve_decision. Defined.

(** [Instant]s are integers read from the clock. *)
Record ConnectionState := {
  cs_protocol : ProtocolVersion;
  cs_phase : SwapPhase;
  cs_swap_id : option string;
  cs_swap_amount : Amount;
  cs_tx_count : Z;
  cs_timelock : Z;
  cs_refund_locktime_offset : Z;
  cs_incoming_swapcoins : list IncomingSwapCoin;
  cs_outgoing_swapcoins : list OutgoingSwapCoin;
  cs_pending_funding_txes : list Transaction;
  cs_contract_feerate : f64;
  cs_service_fee_sats : Z;
  cs_funding_broadcast : bool;
  cs_reserve_utxo : list OutPoint;
  cs_last_activity : Z;
  cs_swap_start_time : Z;
}.

Definition ConnectionState_new (now : Z) (protocol : ProtocolVersion) : ConnectionState :=
  {| cs_protocol := protocol; cs_phase := AwaitingHello; cs_swap_id := None; cs_swap_amount := 0;
     cs_tx_count := 0; cs_timelock := 0; cs_refund_locktime_offset := 0; cs_incoming_swapcoins := [];
     cs_outgoing_swapcoins := []; cs_pending_funding_txes := []; cs_contract_feerate := f64_of_Z 0;
     cs_service_fee_sats := 0; cs_funding_broadcast := false; cs_reserve_utxo := [];
     cs_last_activity := now; cs_swap_start_time := now |}.

Definition is_timed_out (now : Z) (state : ConnectionState) (timeout_secs : Z) : bool :=
  timeout_secs <? now - cs_last_activity state.

Definition expect_phase (expected : list SwapPhase) (state : ConnectionState) : outcome MakerError () :=
  if bool_decide (cs_phase state ∈ expected) then Ok ()
  else Err (ME_General "Unexpected message in phase {:?} (expected one of {:?})").

Definition check_swap_id (msg_swap_id : string) (state : ConnectionState) : outcome MakerError () :=
  match cs_swap_id state with
  | Some expected =>
      reject (bool_decide (expected <> msg_swap_id))
        (ME_General "Swap ID mismatch: state has '{}' but message has '{}'")
  | None => Ok ()
  end.

Record MakerConfig := {
  mcf_base_fee : Z;
  mcf_amount_relative_fee_pct : f64;
  mcf_time_relative_fee_pct : f64;
  mcf_min_swap_amount : Z;
  mcf_max_swap_amount : Z;
  mcf_required_confirms : Z;
  mcf_supported_protocols : list ProtocolVersion;
}.

(** ** The [Maker] trait *)
Class Maker (W : Type) := {
  now : W -> Z;
  is_watchtower_alive : stateful W MakerError bool;
  get_tweakable_keypair : stateful W MakerError (SecretKey * PublicKey * bytes);
  get_fidelity_proof : stateful W MakerError FidelityProof;
  get_config : W -> MakerConfig;
  validate_swap_parameters : SwapDetails -> stateful W MakerError Z;
  calculate_swap_fee_op : Amount -> Z -> W -> Amount;
  broadcast_transaction : Transaction -> stateful W MakerError Txid;
  is_transaction_known : Txid -> stateful W MakerError bool;
  save_incoming_swapcoin : IncomingSwapCoin -> stateful W MakerError ();
  save_outgoing_swapcoin : OutgoingSwapCoin -> stateful W MakerError ();
  register_watch_outpoint : OutPoint -> Script -> stateful W MakerError ();
  sync_and_save_wallet : stateful W MakerError ();
  store_connection_state : string -> ConnectionState -> bool -> stateful W MakerError ();
  get_connection_state : string -> stateful W MakerError (option ConnectionState);
  collect_excluded_utxos : string -> stateful W MakerError (list OutPoint);
  swap_past_refund_deadline : string -> stateful W MakerError bool;
  wait_for_tx_on_chain : Txid -> Z -> stateful W MakerError ();
  verify_and_sign_sender_contract_txs :
    list ContractTxInfoForSender -> Hash160 -> Z -> stateful W MakerError (list Signature);
  verify_proof_of_funding : ProofOfFunding -> stateful W MakerError Hash160;
  initialize_openswap :
    Amount -> list PublicKey -> list PublicKey -> Hash160 -> Z -> f64 -> option (list OutPoint) ->
    stateful W MakerError (list Transaction * list OutgoingSwapCoin * Amount);
  find_outgoing_swapcoin : Script -> stateful W MakerError (option OutgoingSwapCoin);
  get_current_height : stateful W MakerError Z;
  create_funding_transaction :
    Amount -> Script -> option (list OutPoint) -> stateful W MakerError (Transaction * Z);
  (* [SecretKey::new(&mut thread_rng())]: not a trait method, the handlers draw it themselves *)
  random_secret_key : stateful W MakerError SecretKey;
}.

(** The calls of the trait that reach outside the connection, and the answers of
    the outside that the handlers decide on. *)
Inductive Event :=
| EvRegisterWatch (o : OutPoint) (spk : Script)
| EvWatchtowerAlive (alive : bool)
| EvHeight (height : Z)
| EvConfirmed (t : Txid) (confirms : Z)
| EvSaveIncoming (c : IncomingSwapCoin)
| EvSaveOutgoing (c : OutgoingSwapCoin)
| EvBroadcast (tx : Transaction)
| EvStore (id : string) (st : ConnectionState) (admission : bool)
| EvSyncWallet
| EvSignSender (infos : list ContractTxInfoForSender)
| EvVerifyProof (pof : ProofOfFunding)
| EvInitialize (amount : Amount)
| EvCreateFunding (amount : Amount) (spk : Script).

Record HandlerState (W : Type) := {
  hs_conn : ConnectionState;
  hs_world : W;
  hs_trace : list (Event * bool);
}.
Arguments hs_conn {W} _.
Arguments hs_world {W} _.
Arguments hs_trace {W} _.
Arguments Build_HandlerState {W} _ _ _.

Abbreviation handler W := (stateful (HandlerState W) MakerError).

Section handlers.
Context {W : Type} {maker : Maker W}.

(** A trait call without, and one with, an outside effect, and one whose answer
    is recorded. *)
Definition ask {A} (op : stateful W MakerError A) : handler W A := fun s =>
  let '(r, w) := op (hs_world s) in (r, {| s with hs_world := w |}).
Definition perform {A} (e : Event) (op : stateful W MakerError A) : handler W A := fun s =>
  let '(r, w) := op (hs_world s) in
  (r, {| s with hs_world := w; hs_trace := hs_trace s ++ [(e, is_ok r)] |}).
Definition observe {A} (e : A -> Event) (op : stateful W MakerError A) : handler W A := fun s =>
  let '(r, w) := op (hs_world s) in
  (r, {| s with hs_world := w;
                hs_trace := hs_trace s ++ match r with Ok a => [(e a, true)] | _ => [] end |}).

Definition conn {A} (f : ConnectionState -> A) : handler W A := gets (fun s => f (hs_conn s)).
Definition check (f : ConnectionState -> outcome MakerError ()) : handler W () := fun s => (f (hs_conn s), s).
Definition set_conn (f : ConnectionState -> ConnectionState) : handler W () :=
  modify (fun s => {| s with hs_conn := f (hs_conn s) |}).
Definition clock : handler W Z := gets (fun s => now (hs_world s)).

Definition set_phase (p : SwapPhase) : handler W () := set_conn (fun c => {| c with cs_phase := p |}).
Definition touch : handler W () :=
  t ← clock; set_conn (fun c => {| c with cs_last_activity := t |}).

(** [maker.store_connection_state(id, state, admission)] on the current state. *)
Definition store (id : string) (admission : bool) : handler W () :=
  st ← conn (fun c => c);
  perform (EvStore id st admission) (store_connection_state id st admission).

Definition ensure_watchtower_alive : handler W () :=
  alive ← observe EvWatchtowerAlive is_watchtower_alive;
  lift (reject (negb alive) (ME_General "watchtower is down, refusing to commit funds")).

Definition handle_taker_hello : handler W (option MakerToTakerMessage) :=
  _ ← check (expect_phase [AwaitingHello]);
  config ← gets (fun s => get_config (hs_world s));
  _ ← set_phase AwaitingOfferRequest;
  mret (Some (MT_MakerHello {| mh_supported_protocols := mcf_supported_protocols config |})).

Definition handle_get_offer : handler W (option MakerToTakerMessage) :=
  _ ← check (expect_phase [AwaitingOfferRequest]);
  '(_, tweakable_point, tweak_chain_code) ← ask get_tweakable_keypair;
  fidelity ← ask get_fidelity_proof;
  config ← gets (fun s => get_config (hs_world s));
  _ ← set_phase AwaitingSwapDetails;
  mret (Some (MT_Offer
    {| of_base_fee := mcf_base_fee config;
       of_amount_relative_fee_pct := mcf_amount_relative_fee_pct config;
       of_time_relative_fee_pct := mcf_time_relative_fee_pct config;
       of_required_confirms := mcf_required_confirms config;
       of_minimum_locktime := MIN_CONTRACT_REACTION_TIME;
       of_max_size := mcf_max_swap_amount config;
       of_min_size := mcf_min_swap_amount config;
       of_tweakable_point := tweakable_point;
       of_fidelity := fidelity;
       of_tweak_chain_code := tweak_chain_code |})).

Definition REJECT_ACK : option MakerToTakerMessage := Some (MT_AckSwapDetails AckSwapDetails_reject).

(** The errors of an admission that become a rejection message. *)
Definition is_admission_rejection (e : MakerError) : bool :=
  match e with
  | ME_TooManySwaps | ME_SwapParamMismatch | ME_InsufficientLiquidity _ _ _ => true
  | _ => false
  end.

(** [match maker.store_connection_state(..) { Err(rejection) => .., result => result? }]:
    [true] is an admitted swap. *)
Definition try_admission (id : string) : handler W bool := fun s =>
  match store id true s with
  | (Ok _, s') => (Ok true, s')
  | (Err e, s') => if is_admission_rejection e then (Ok false, s') else (Err e, s')
  | (Panic, s') => (Panic, s')
  end.

Definition handle_swap_details (details : SwapDetails) : handler W (option MakerToTakerMessage) :=
  _ ← check (expect_phase [AwaitingSwapDetails]);
  alive ← observe EvWatchtowerAlive is_watchtower_alive;
  if negb alive then mret REJECT_ACK
  else
    refund_locktime_offset ← ask (validate_swap_parameters details);
    t ← clock;
    _ ← set_conn (fun c => {| c with
          cs_swap_id := Some (sd_id details);
          cs_swap_amount := sd_amount details;
          cs_tx_count := sd_tx_count details;
          cs_timelock := sd_timelock details;
          cs_refund_locktime_offset := refund_locktime_offset;
          cs_protocol := sd_protocol_version details;
          cs_swap_start_time := t |});
    swap_fee ← gets (fun s => calculate_swap_fee_op (sd_amount details)
                                (cs_refund_locktime_offset (hs_conn s)) (hs_world s));
    _ ← set_conn (fun c => {| c with cs_service_fee_sats := swap_fee; cs_phase := AwaitingContractData |});
    admitted ← try_admission (sd_id details);
    if (negb admitted : bool) then
      _ ← set_conn (fun c => {| c with
            cs_phase := AwaitingSwapDetails;
            cs_swap_id := None;
            cs_swap_amount := 0;
            cs_tx_count := 0;
            cs_timelock := 0;
            cs_refund_locktime_offset := 0;
            cs_service_fee_sats := 0 |});
      mret REJECT_ACK
    else
      '(_, tweakable_point, _) ← ask get_tweakable_keypair;
      mret (Some (MT_AckSwapDetails (AckSwapDetails_accept tweakable_point))).

Definition restore_state_if_needed (swap_id : string) : handler W () :=
  fresh ← conn (fun c => (cs_swap_amount c =? 0) || bool_decide (cs_outgoing_swapcoins c = []));
  if (fresh : bool) then
    stored ← ask (get_connection_state swap_id);
    match stored with
    | Some stored =>
        set_conn (fun c => {| c with
          cs_swap_id := Some swap_id;
          cs_swap_amount := cs_swap_amount stored;
          cs_tx_count := cs_tx_count stored;
          cs_timelock := cs_timelock stored;
          cs_protocol := cs_protocol stored;
          cs_phase := cs_phase stored;
          cs_incoming_swapcoins := cs_incoming_swapcoins stored;
          cs_outgoing_swapcoins := cs_outgoing_swapcoins stored;
          cs_pending_funding_txes := cs_pending_funding_txes stored;
          cs_funding_broadcast := cs_funding_broadcast stored;
          cs_contract_feerate := cs_contract_feerate stored;
          cs_service_fee_sats := cs_service_fee_sats stored;
          cs_swap_start_time := cs_swap_start_time stored;
          cs_refund_locktime_offset := cs_refund_locktime_offset stored |})
    | None => mret ()
    end
  else mret ().

Definition ensure_negotiated_protocol (message_protocol : ProtocolVersion) (state : ConnectionState)
    : outcome MakerError () :=
  reject (bool_decide (cs_protocol state <> message_protocol))
    (ME_UnexpectedMessage "{:?} protocol message" "{:?} protocol message").

(** The dispatchers, given the protocol-specific handlers. *)
Section dispatch.
Context (handle_legacy_message : LegacyTakerMessage -> handler W (option MakerToTakerMessage)).
Context (handle_taproot_message : TaprootTakerMessage -> handler W (option MakerToTakerMessage)).

Definition handle_legacy_dispatch (legacy_msg : LegacyTakerMessage) : handler W (option MakerToTakerMessage) :=
  _ ← restore_state_if_needed (legacy_swap_id legacy_msg);
  _ ← check (ensure_negotiated_protocol Legacy);
  handle_legacy_message legacy_msg.

Definition handle_taproot_dispatch (taproot_msg : TaprootTakerMessage) : handler W (option MakerToTakerMessage) :=
  _ ← restore_state_if_needed (taproot_swap_id taproot_msg);
  _ ← check (ensure_negotiated_protocol Taproot);
  handle_taproot_message taproot_msg.

(** The keepalive of a waiting taker. *)
Definition handle_waiting (id : string) : handler W (option MakerToTakerMessage) :=
  _ ← check (check_swap_id id);
  late ← ask (swap_past_refund_deadline id);
  if (late : bool) then mret None
  else
    stored ← ask (get_connection_state id);
    _ ← match stored with
        | Some stored_state =>
            perform (EvStore id stored_state false) (store_connection_state id stored_state false)
        | None => mret ()
        end;
    _ ← touch;
    mret None.

Definition handle_message (message : TakerToMakerMessage) : handler W (option MakerToTakerMessage) :=
  _ ← touch;
  match message with
  | TM_TakerHello => handle_taker_hello
  | TM_GetOffer => handle_get_offer
  | TM_SwapDetails details => handle_swap_details details
  | TM_ReqContractSigsForSender req => handle_legacy_dispatch (LTM_ReqContractSigsForSender req)
  | TM_ProofOfFunding pof => handle_legacy_dispatch (LTM_ProofOfFunding pof)
  | TM_RespContractSigsForRecvrAndSender resp =>
      handle_legacy_dispatch (LTM_RespContractSigsForRecvrAndSender resp)
  | TM_ReqContractSigsForRecvr req => handle_legacy_dispatch (LTM_ReqContractSigsForRecvr req)
  | TM_LegacyPrivateKeyHandover handover => handle_legacy_dispatch (LTM_PrivateKeyHandover handover)
  | TM_TaprootContractData data => handle_taproot_dispatch (TTM_ContractData data)
  | TM_TaprootPrivateKeyHandover handover => handle_taproot_dispatch (TTM_PrivateKeyHandover handover)
  | TM_WaitingFundingConfirmation id => handle_waiting id
  end.
End dispatch.
End handlers.

(** ** Reasoning about handlers *)

(** The events a run adds to the trace, and its result. *)
Definition runs {W A} (m : handler W A) (s : HandlerState W) (r : outcome MakerError A)
    (s' : HandlerState W) (evs : list (Event * bool)) : Prop :=
  m s = (r, s') /\ hs_trace s' = hs_trace s ++ evs.

(** [m] only ever adds events that satisfy [P]. *)
Definition emits {W A} (P : Event -> Prop) (m : handler W A) : Prop :=
  forall s, exists evs, hs_trace (m s).2 = hs_trace s ++ evs /\ Forall (fun e => P e.1) evs.

Definition is_broadcast (e : Event) : Prop := match e with EvBroadcast _ => True | _ => False end.
Definition is_store (e : Event) : Prop := match e with EvStore _ _ _ => True | _ => False end.

Section handler_lemmas.
Context {W : Type}.

Lemma emits_runs {A} P (m : handler W A) s r s' :
  emits P m -> m s = (r, s') -> exists evs, runs m s r s' evs /\ Forall (fun e => P e.1) evs.
Proof. intros He Hm. destruct (He s) as (evs & Ht & Hp). rewrite Hm in Ht. by exists evs. Qed.

Lemma emits_weaken {A} (P Q : Event -> Prop) (m : handler W A) :
  (forall e, P e -> Q e) -> emits P m -> emits Q m.
Proof.
  intros HPQ He s. destruct (He s) as (evs & Ht & Hp). exists evs. split; [done|].
  eapply Forall_impl; [exact Hp|]. naive_solver.
Qed.

Lemma emits_bind {A B} P (m : handler W A) (f : A -> handler W B) :
  emits P m -> (forall a, emits P (f a)) -> emits P (m ≫= f).
Proof.
  intros Hm Hf s. unfold mbind, stateful_bind. destruct (Hm s) as (e1 & H1 & P1).
  destruct (m s) as [[a|e|] s1]; cbn [snd] in *; [|by exists e1..].
  destruct (Hf a s1) as (e2 & H2 & P2). exists (e1 ++ e2).
  rewrite H2, H1, app_assoc. split; [done|]. by apply Forall_app.
Qed.

(** Steps that leave the trace alone. *)
Lemma emits_silent {A} P (m : handler W A) :
  (forall s, hs_trace (m s).2 = hs_trace s) -> emits P m.
Proof. intros Hm s. exists []. rewrite app_nil_r. by split; [|constructor]. Qed.

Lemma emits_ret {A} P (a : A) : emits P (mret a : handler W A).
Proof. by apply emits_silent. Qed.
Lemma emits_lift {A} P (m : outcome MakerError A) : emits P (lift m : handler W A).
Proof. by apply emits_silent. Qed.
Lemma emits_gets {A} P (f : HandlerState W -> A) : emits P (gets f : handler W A).
Proof. by apply emits_silent. Qed.
Lemma emits_conn {A} P (f : ConnectionState -> A) : emits P (conn f : handler W A).
Proof. by apply emits_silent. Qed.
Lemma emits_check P f : emits P (check f : handler W ()).
Proof. by apply emits_silent. Qed.
Lemma emits_set_conn P f : emits P (set_conn f : handler W ()).
Proof. by apply emits_silent. Qed.
Lemma emits_set_phase P p : emits P (set_phase p : handler W ()).
Proof. by apply emits_silent. Qed.
Lemma emits_ask {A} P (op : stateful W MakerError A) : emits P (ask op).
Proof. apply emits_silent. intros s. unfold ask. by destruct (op (hs_world s)). Qed.

Lemma emits_perform {A} (P : Event -> Prop) e (op : stateful W MakerError A) : P e -> emits P (perform e op).
Proof.
  intros He s. unfold perform. destruct (op (hs_world s)) as [r w]. eexists. split; [done|]. by repeat constructor.
Qed.

Lemma emits_observe {A} (P : Event -> Prop) e (op : stateful W MakerError A) :
  (forall a, P (e a)) -> emits P (observe e op).
Proof.
  intros He s. unfold observe. destruct (op (hs_world s)) as [[a|x|] w]; eexists; (split; [done|]); [|constructor..].
  constructor; [apply He|constructor].
Qed.

Lemma emits_for_each {A} P (body : A -> handler W ()) xs :
  (forall x, emits P (body x)) -> emits P (st_for_each body xs).
Proof.
  intros Hb. induction xs as [|x xs IH]; cbn [st_for_each]; [apply emits_ret|].
  apply emits_bind; [apply Hb|]. by intros _.
Qed.

Lemma emits_map {A B} P (f : A -> handler W B) xs :
  (forall x, emits P (f x)) -> emits P (st_map f xs).
Proof.
  intros Hb. induction xs as [|x xs IH]; cbn [st_map]; [apply emits_ret|].
  apply emits_bind; [apply Hb|]. intros y. apply emits_bind; [done|]. intros ys. apply emits_ret.
Qed.

(** A run of a sequence ends in its first part or goes through it. *)
Lemma bind_runs {A B} (m : handler W A) (f : A -> handler W B) s r s' :
  (m ≫= f) s = (r, s') ->
  (exists e, m s = (Err e, s') /\ r = Err e) \/ (m s = (Panic, s') /\ r = Panic) \/
  (exists a s1, m s = (Ok a, s1) /\ f a s1 = (r, s')).
Proof. unfold mbind, stateful_bind. destruct (m s) as [[a|e|] s1]; [intros H; right; right; eauto|intros [= <- <-]; eauto..]. Qed.

Lemma check_Ok f (s s' : HandlerState W) u : check f s = (Ok u, s') <-> f (hs_conn s) = Ok u /\ s' = s.
Proof. unfold check. split; [by intros [= -> ->]|by intros [-> ->]]. Qed.
Lemma conn_Ok {A} (f : ConnectionState -> A) (s s' : HandlerState W) a :
  conn f s = (Ok a, s') <-> a = f (hs_conn s) /\ s' = s.
Proof. unfold conn, gets. split; [by intros [= <- <-]|by intros [-> ->]]. Qed.
Lemma gets_Ok {A} (f : HandlerState W -> A) (s s' : HandlerState W) a :
  gets (E := MakerError) f s = (Ok a, s') <-> a = f s /\ s' = s.
Proof. unfold gets. split; [by intros [= <- <-]|by intros [-> ->]]. Qed.
Lemma set_conn_Ok f (s s' : HandlerState W) u :
  set_conn f s = (Ok u, s') -> s' = {| s with hs_conn := f (hs_conn s) |}.
Proof. unfold set_conn, modify. by intros [= <- <-]. Qed.
Lemma ask_Ok {A} (op : stateful W MakerError A) s s' a :
  ask op s = (Ok a, s') ->
  exists w, op (hs_world s) = (Ok a, w) /\ s' = {| s with hs_world := w |}.
Proof. unfold ask. destruct (op (hs_world s)) as [r w]. intros [= -> <-]. by exists w. Qed.
Lemma perform_Ok {A} e (op : stateful W MakerError A) s s' a :
  perform e op s = (Ok a, s') ->
  exists w, op (hs_world s) = (Ok a, w) /\
    s' = {| s with hs_world := w; hs_trace := hs_trace s ++ [(e, true)] |}.
Proof. unfold perform. destruct (op (hs_world s)) as [r w]. intros [= -> <-]. by exists w. Qed.

Lemma observe_Ok {A} e (op : stateful W MakerError A) s s' a :
  observe e op s = (Ok a, s') ->
  exists w, op (hs_world s) = (Ok a, w) /\
    s' = {| s with hs_world := w; hs_trace := hs_trace s ++ [(e a, true)] |}.
Proof. unfold observe. destruct (op (hs_world s)) as [r w]. intros [= -> <-]. by exists w. Qed.

(** A loop of performed calls that succeeds has performed all of them. *)
Lemma for_each_perform_Ok {A} (ev : A -> Event) (op : A -> stateful W MakerError ()) xs : forall s s',
  st_for_each (fun x => perform (ev x) (op x)) xs s = (Ok (), s') ->
  hs_conn s' = hs_conn s /\ hs_trace s' = hs_trace s ++ map (fun x => (ev x, true)) xs.
Proof.
  induction xs as [|x xs IH]; intros s s'; cbn [st_for_each map].
  { intros [= <-]. by rewrite app_nil_r. }
  rewrite st_bind_Ok. intros ([] & s1 & (w & _ & ->)%perform_Ok & [Hc Ht]%IH).
  cbn [hs_conn hs_trace] in *. by rewrite Hc, Ht, <- app_assoc.
Qed.

Lemma for_each_frame {A} (body : A -> handler W ()) (evs : A -> list (Event * bool)) xs : forall s s',
  (forall x s s', body x s = (Ok (), s') ->
     hs_conn s' = hs_conn s /\ hs_trace s' = hs_trace s ++ evs x) ->
  st_for_each body xs s = (Ok (), s') ->
  hs_conn s' = hs_conn s /\ hs_trace s' = hs_trace s ++ flat_map evs xs.
Proof.
  induction xs as [|x xs IH]; intros s s' Hb; cbn [st_for_each flat_map].
  { intros [= <-]. by rewrite app_nil_r. }
  rewrite st_bind_Ok. intros ([] & s1 & [Hc1 Ht1]%Hb & Hr). apply IH in Hr as [Hc2 Ht2]; [|done].
  rewrite Hc2, Hc1, Ht2, Ht1, app_assoc. done.
Qed.
End handler_lemmas.

(** Splits a successful run of a handler into the runs of its steps. *)
Ltac run_ok_step H :=
  lazymatch type of H with
  | (_ ≫= _) _ = (Ok _, _) =>
      apply st_bind_Ok in H;
      let a := fresh "a" in let s := fresh "s" in let Hl := fresh "Hr" in
      destruct H as (a & s & Hl & H); try run_ok_step Hl; try run_ok_step H
  | check _ _ = (Ok _, _) => let E := fresh "E" in apply check_Ok in H as [H E]; subst
  | conn _ _ = (Ok _, _) => let E := fresh "E" in apply conn_Ok in H as [H E]; subst
  | gets _ _ = (Ok _, _) => let E := fresh "E" in apply gets_Ok in H as [H E]; subst
  | lift _ _ = (Ok _, _) => let E := fresh "E" in apply lift_Ok in H as [H E]; subst
  | set_conn _ _ = (Ok _, _) => apply set_conn_Ok in H; subst; cbn [hs_conn hs_world hs_trace] in *
  | ask _ _ = (Ok _, _) =>
      let w := fresh "w" in let E := fresh "E" in apply ask_Ok in H as (w & H & E); subst;
      cbn [hs_conn hs_world hs_trace] in *
  | perform _ _ _ = (Ok _, _) =>
      let w := fresh "w" in let E := fresh "E" in apply perform_Ok in H as (w & H & E); subst;
      cbn [hs_conn hs_world hs_trace] in *
  | observe _ _ _ = (Ok _, _) =>
      let w := fresh "w" in let E := fresh "E" in apply observe_Ok in H as (w & H & E); subst;
      cbn [hs_conn hs_world hs_trace] in *
  | mret _ _ = (Ok _, _) => injection H as H; subst
  end.
Ltac run_ok H :=
  repeat run_ok_step H;
  repeat match goal with
  | E : reject _ _ = Ok _ |- _ => apply reject_Ok in E
  | u : () |- _ => destruct u
  end.
