(* ===== verification/LegacyHandlers.v ===== *)
(** The maker's legacy message handlers: src/maker/legacy_handlers.rs.

    The five handlers run in the handler monad of [MakerHandlers] against an
    arbitrary implementation of the [Maker] trait. *)
From Stdlib Require Import Ascii String.
From S2P Require Import Prelude Float64 Bitcoin Messages Contract Errors SwapCoin ScriptEval TakerState LegacyVerification MakerHandlers.
#[local] Open Scope string_scope.
#[local] Open Scope list_scope.
#[local] Open Scope Z_scope.

(** ** Strings *)
Definition to_ascii_lowercase_char (c : ascii) : ascii :=
  let n := Ascii.nat_of_ascii c in
  if (65 <=? n)%nat && (n <=? 90)%nat then Ascii.ascii_of_nat (n + 32) else c.

Fixpoint to_ascii_lowercase (s : string) : string :=
  match s with
  | EmptyString => EmptyString
  | String c rest => String (to_ascii_lowercase_char c) (to_ascii_lowercase rest)
  end.

(** [haystack.contains(needle)]. *)
Fixpoint contains (needle haystack : string) : bool :=
  String.prefix needle haystack ||
  match haystack with
  | EmptyString => false
  | String _ rest => contains needle rest
  end.

(** The node's answers that mean the transaction is already out. *)
Definition already_broadcast_error (e : MakerError) : bool :=
  match e with
  | ME_Wallet (WE_Rpc (RPC_JsonRpc code message)) =>
      (code =? -27) ||
      (let message := to_ascii_lowercase message in
       contains "already in block chain" message || contains "already in mempool" message ||
       contains "already in utxo set" message || contains "txn-already-in-mempool" message)
  | _ => false
  end.

Section legacy.
Context {lib : BitcoinLib} {W : Type} {maker : Maker W}.

(** [?] on a protocol result inside a maker function. *)
Definition maker_protocol {A} (m : outcome ProtocolError A) : outcome MakerError A := map_err ME_Protocol m.

(** The local [find_funding_output_index] of the handlers. *)
Definition handler_find_funding_output_index (info : FundingTxInfo) : outcome MakerError Z :=
  multisig_spk ← map_err (fun _ => ME_General "Failed to convert redeemscript: {:?}")
                   (redeemscript_to_scriptpubkey (fti_multisig_redeemscript info));
  match list_find (fun o => script_pubkey o = multisig_spk) (output (fti_funding_tx info)) with
  | Some (index, _) => Ok (wrap 32 (Z.of_nat index))
  | None => Err (ME_General "Funding output doesn't match with multisig redeem script")
  end.

Definition funding_output_of (info : FundingTxInfo) : outcome MakerError (Z * TxOut) :=
  index ← handler_find_funding_output_index info;
  o ← ok_or (output (fti_funding_tx info) !! Z.to_nat index) (ME_General "Funding output not found");
  Ok (index, o).

(** Registers every output of a contract transaction with the watchtower. *)
Definition watch_outputs (tx : Transaction) : handler W () :=
  let txid := compute_txid tx in
  st_for_each (fun p : nat * TxOut =>
      let op := {| op_txid := txid; op_vout := wrap 32 (Z.of_nat p.1) |} in
      perform (EvRegisterWatch op (script_pubkey p.2)) (register_watch_outpoint op (script_pubkey p.2)))
    (imap pair (output tx)).

Definition save_coins (inc : list IncomingSwapCoin) (out : list OutgoingSwapCoin) : handler W () :=
  _ ← st_for_each (fun c => perform (EvSaveIncoming c) (save_incoming_swapcoin c)) inc;
  st_for_each (fun c => perform (EvSaveOutgoing c) (save_outgoing_swapcoin c)) out.

Definition process_req_contract_sigs_for_sender (req : ReqContractSigsForSender)
    : handler W (option MakerToTakerMessage) :=
  _ ← check (expect_phase [AwaitingContractData; AwaitingSignaturesOrPreimage]);
  _ ← check (check_swap_id (rss_id req));
  timelock ← conn cs_timelock;
  _ ← lift (reject (negb (rss_locktime req =? timelock))
        (ME_General "Sender contract locktime does not match the negotiated timelock"));
  sigs ← perform (EvSignSender (rss_txs_info req))
           (verify_and_sign_sender_contract_txs (rss_txs_info req) (rss_hashvalue req) (rss_locktime req));
  _ ← store (rss_id req) false;
  mret (Some (MT_RespContractSigsForSender {| psr_id := rss_id req; psr_sigs := sigs |})).

(** One incoming coin from one proven funding. *)
Definition incoming_from_funding (id : string) (tweakable_privkey : SecretKey) (info : FundingTxInfo)
    : outcome MakerError IncomingSwapCoin :=
  '(pubkey1, pubkey2) ← maker_protocol (read_pubkeys_from_multisig_redeemscript (fti_multisig_redeemscript info));
  '(funding_output_index, funding_output) ← funding_output_of info;
  multisig_privkey ← ok_or (secret_add_tweak tweakable_privkey (fti_multisig_nonce info)) ME_Secp;
  let multisig_pubkey := {| compressed := true; inner := point_from_secret_key multisig_privkey |} in
  let other_pubkey := if bool_decide (multisig_pubkey = pubkey1) then pubkey2 else pubkey1 in
  hashlock_privkey ← ok_or (secret_add_tweak tweakable_privkey (fti_hashlock_nonce info)) ME_Secp;
  receiver_contract_tx ← maker_protocol
    (create_receivers_contract_tx
       {| op_txid := compute_txid (fti_funding_tx info); op_vout := funding_output_index |}
       (value funding_output) (fti_contract_redeemscript info));
  let c := isc_new_legacy multisig_privkey other_pubkey receiver_contract_tx
             (fti_contract_redeemscript info) hashlock_privkey (value funding_output) in
  Ok {| c with isc_swap_id := Some id |}.

(** The loop over the proven fundings: the coins and their total. *)
Definition collect_incoming (id : string) (tweakable_privkey : SecretKey) (infos : list FundingTxInfo)
    : outcome MakerError (list IncomingSwapCoin * Amount) :=
  try_fold (fun acc info =>
      c ← incoming_from_funding id tweakable_privkey info;
      total ← amount_add acc.2 (isc_funding_amount c);
      Ok (acc.1 ++ [c], total)) ([], 0) infos.

(** One entry of the answer; [funding_txes[i]] and the nonces are indexed. *)
Definition sender_info (funding_txes : list Transaction) (multisig_nonces hashlock_nonces : list SecretKey)
    (p : nat * OutgoingSwapCoin) : outcome MakerError SenderContractTxInfo :=
  let '(i, osc) := p in
  let multisig_redeemscript :=
    match osc_my_pubkey osc, osc_other_pubkey osc with
    | Some my_pub, Some other_pub => create_multisig_redeemscript my_pub other_pub
    | _, _ => default [] (osc_contract_redeemscript osc)
    end in
  funding_tx ← expect (funding_txes !! i);
  multisig_nonce ← expect (multisig_nonces !! i);
  hashlock_nonce ← expect (hashlock_nonces !! i);
  Ok {| sct_funding_tx := funding_tx;
        sct_contract_tx := osc_contract_tx osc;
        sct_timelock_pubkey := pubkey_of (osc_timelock_privkey osc);
        sct_multisig_redeemscript := multisig_redeemscript;
        sct_contract_redeemscript := default [] (osc_contract_redeemscript osc);
        sct_funding_amount := osc_funding_amount osc;
        sct_multisig_nonce := multisig_nonce;
        sct_hashlock_nonce := hashlock_nonce |}.

Definition declared_incoming_amount (infos : list FundingTxInfo) : outcome MakerError Amount :=
  try_fold (fun total info =>
      '(_, funding_output) ← funding_output_of info;
      ok_or (checked_add 64 total (value funding_output)) (ME_General "Funding output amounts overflow"))
    0 infos.

Definition tx_outpoints (tx : Transaction) : list OutPoint :=
  map (fun vout => {| op_txid := compute_txid tx; op_vout := wrap 32 (Z.of_nat vout) |})
    (seq 0 (length (output tx))).

Definition process_proof_of_funding (pof : ProofOfFunding) : handler W (option MakerToTakerMessage) :=
  _ ← check (expect_phase [AwaitingContractData; AwaitingSignaturesOrPreimage]);
  _ ← check (check_swap_id (pof_id pof));
  timelock ← conn cs_timelock;
  _ ← lift (reject (negb (pof_refund_locktime pof =? timelock))
        (ME_General "ProofOfFunding refund locktime does not match the negotiated timelock"));
  tx_count ← conn cs_tx_count;
  _ ← lift (reject (negb (zlen (pof_confirmed_funding_txes pof) =? tx_count))
        (ME_General "ProofOfFunding tx count does not match the negotiated tx count"));
  declared_incoming ← lift (declared_incoming_amount (pof_confirmed_funding_txes pof));
  swap_amount ← conn cs_swap_amount;
  _ ← lift (reject (negb (incoming_within_swap_amount declared_incoming swap_amount))
        (ME_General "ProofOfFunding incoming amount exceeds the negotiated swap amount"));
  hashvalue ← perform (EvVerifyProof pof) (verify_proof_of_funding pof);
  _ ← set_conn (fun c => {| c with cs_contract_feerate := pof_contract_feerate pof |});
  '(tweakable_privkey, _, _) ← ask get_tweakable_keypair;
  '(incoming_swapcoins, incoming_amount) ← lift (collect_incoming (pof_id pof) tweakable_privkey
                                                   (pof_confirmed_funding_txes pof));
  _ ← set_conn (fun c => {| c with cs_incoming_swapcoins := incoming_swapcoins |});
  _ ← st_for_each (fun c => watch_outputs (isc_contract_tx c)) incoming_swapcoins;
  swap_fee ← gets (fun s => calculate_swap_fee_op incoming_amount (pof_refund_locktime pof) (hs_world s));
  _ ← set_conn (fun c => {| c with cs_service_fee_sats := swap_fee |});
  fee ← lift estimate_funding_tx_fee_sats;
  let mining_fee := wrap 64 (fee * zlen (pof_next_openswap_info pof)) in
  outgoing_amount ← lift (ok_or (checked_sub incoming_amount swap_fee ≫= fun amt => checked_sub amt mining_fee)
                            (ME_General "Swap fee exceeds incoming amount"));
  _ ← perform EvSyncWallet sync_and_save_wallet;
  let next := pof_next_openswap_info pof in
  excluded_utxos ← ask (collect_excluded_utxos (pof_id pof));
  '(funding_txes, outgoing_swapcoins, _) ← perform (EvInitialize outgoing_amount)
    (initialize_openswap outgoing_amount (map nhi_next_multisig_pubkey next)
       (map nhi_next_hashlock_pubkey next) hashvalue (pof_refund_locktime pof)
       (pof_contract_feerate pof) (Some excluded_utxos));
  let outgoing_swapcoins := map (fun c => {| c with osc_swap_id := Some (pof_id pof) |}) outgoing_swapcoins in
  _ ← set_conn (fun c => {| c with
        cs_reserve_utxo := flat_map tx_outpoints funding_txes;
        cs_outgoing_swapcoins := outgoing_swapcoins;
        cs_pending_funding_txes := funding_txes |});
  senders_contract_txs_info ← lift (try_map
    (sender_info funding_txes (map nhi_next_multisig_nonce next) (map nhi_next_hashlock_nonce next))
    (imap pair outgoing_swapcoins));
  _ ← set_phase AwaitingSignaturesOrPreimage;
  _ ← store (pof_id pof) false;
  mret (Some (MT_ReqContractSigsAsRecvrAndSender
    {| rrs_receivers_contract_txs := map isc_contract_tx incoming_swapcoins;
       rrs_senders_contract_txs_info := senders_contract_txs_info |})).

(** The loop body of the funding broadcast. *)
Definition broadcast_funding (funding_tx : Transaction) : handler W () := fun s =>
  match perform (EvBroadcast funding_tx) (broadcast_transaction funding_tx) s with
  | (Ok _, s') => (Ok (), s')
  | (Panic, s') => (Panic, s')
  | (Err e, s') =>
      if already_broadcast_error e then (Ok (), s')
      else
        (known ← ask (is_transaction_known (compute_txid funding_tx));
         if (known : bool) then mret () else lift (Err e)) s'
  end.

(** [zip] with the coins, overwriting the signature of each one reached. *)
Fixpoint stamp_incoming (sigs : list Signature) (coins : list IncomingSwapCoin) : list IncomingSwapCoin :=
  match sigs, coins with
  | s :: sigs, c :: coins => {| c with isc_others_contract_sig := Some s |} :: stamp_incoming sigs coins
  | _, _ => coins
  end.
Fixpoint stamp_outgoing (sigs : list Signature) (coins : list OutgoingSwapCoin) : list OutgoingSwapCoin :=
  match sigs, coins with
  | s :: sigs, c :: coins => {| c with osc_others_contract_sig := Some s |} :: stamp_outgoing sigs coins
  | _, _ => coins
  end.

Definition process_resp_contract_sigs_for_recvr_and_sender (resp : RespContractSigsForRecvrAndSender)
    : handler W (option MakerToTakerMessage) :=
  _ ← check (expect_phase [AwaitingSignaturesOrPreimage]);
  _ ← check (check_swap_id (prs_id resp));
  inc ← conn cs_incoming_swapcoins;
  out ← conn cs_outgoing_swapcoins;
  _ ← lift (reject (negb (length (prs_receivers_sigs resp) =? length inc)%nat)
        (ME_General "Invalid number of receiver signatures"));
  _ ← lift (reject (negb (length (prs_senders_sigs resp) =? length out)%nat)
        (ME_General "Invalid number of sender signatures"));
  _ ← lift (verify_contract_sigs (prs_receivers_sigs resp) (prs_senders_sigs resp) inc out);
  let inc := stamp_incoming (prs_receivers_sigs resp) inc in
  let out := stamp_outgoing (prs_senders_sigs resp) out in
  _ ← set_conn (fun c => {| c with cs_incoming_swapcoins := inc; cs_outgoing_swapcoins := out |});
  _ ← st_for_each (fun c => watch_outputs (osc_contract_tx c)) out;
  _ ← ensure_watchtower_alive;
  _ ← save_coins inc out;
  pending ← conn cs_pending_funding_txes;
  _ ← st_for_each broadcast_funding pending;
  _ ← set_conn (fun c => {| c with cs_pending_funding_txes := []; cs_funding_broadcast := true;
                            cs_phase := AwaitingPrivateKeyHandover |});
  _ ← store (prs_id resp) false;
  mret None.

(** One signature over a receiver's contract. *)
Definition sign_receiver_contract (txinfo : ContractTxInfoForRecvr) : handler W Signature :=
  _ ← lift (reject (negb (length (input (ctr_contract_tx txinfo)) =? 1)%nat
                    || negb (length (output (ctr_contract_tx txinfo)) =? 1)%nat)
        (ME_General "Receiver contract tx {} has invalid structure: {} inputs, {} outputs"));
  found ← ask (find_outgoing_swapcoin (ctr_multisig_redeemscript txinfo));
  match found with
  | Some outgoing =>
      _ ← match osc_funding_tx outgoing with
          | Some funding_tx =>
              inp ← lift (expect (input (ctr_contract_tx txinfo) !! 0%nat));
              lift (reject (negb (op_txid (previous_output inp) =? compute_txid funding_tx))
                (ME_General "Receiver contract tx {} spends from {} but expected {}"))
          | None => mret ()
          end;
      match osc_my_privkey outgoing with
      | Some privkey =>
          lift (map_err (fun _ => ME_General "Failed to sign receiver contract tx")
            (sign_contract_tx (ctr_contract_tx txinfo) (ctr_multisig_redeemscript txinfo)
               (osc_funding_amount outgoing) privkey))
      | None => lift (Err (ME_General "No private key in outgoing swapcoin"))
      end
  | None => lift (Err (ME_General "Could not find matching outgoing swapcoin"))
  end.

Definition process_req_contract_sigs_for_recvr (req : ReqContractSigsForRecvr)
    : handler W (option MakerToTakerMessage) :=
  _ ← check (expect_phase [AwaitingPrivateKeyHandover]);
  _ ← check (check_swap_id (rsr_id req));
  sigs ← st_map sign_receiver_contract (rsr_txs req);
  mret (Some (MT_RespContractSigsForRecvr {| prr_id := rsr_id req; prr_sigs := sigs |})).

(** [handover.privkeys.get(i)] for the coin at position [i]. *)
Definition store_privkeys (privkeys : list SwapPrivkey) (coins : list IncomingSwapCoin)
    : list IncomingSwapCoin :=
  imap (fun i c => match privkeys !! i with
                   | Some p => isc_set_other_privkey c (sp_key p)
                   | None => c
                   end) coins.

Definition outgoing_privkey (c : OutgoingSwapCoin) : outcome MakerError SwapPrivkey :=
  privkey ← ok_or (osc_my_privkey c) (ME_General "No private key in outgoing swapcoin");
  Ok {| sp_identifier := []; sp_key := privkey |}.

Definition process_legacy_handover (handover : PrivateKeyHandover) : handler W (option MakerToTakerMessage) :=
  _ ← check (expect_phase [AwaitingPrivateKeyHandover]);
  _ ← check (check_swap_id (pkh_id handover));
  out ← conn cs_outgoing_swapcoins;
  _ ← lift (reject (bool_decide (out = [])) (ME_General "No outgoing swapcoin found"));
  inc ← conn cs_incoming_swapcoins;
  _ ← lift (verify_legacy_privkey_handover (pkh_privkeys handover) inc);
  privkeys ← lift (try_map outgoing_privkey out);
  let inc := store_privkeys (pkh_privkeys handover) inc in
  _ ← set_conn (fun c => {| c with cs_incoming_swapcoins := inc |});
  _ ← st_for_each (fun c => perform (EvSaveIncoming c) (save_incoming_swapcoin c)) inc;
  _ ← set_phase Completed;
  mret (Some (MT_LegacyPrivateKeyHandover {| pkh_id := pkh_id handover; pkh_privkeys := privkeys |})).

Definition handle_legacy_message (message : LegacyTakerMessage) : handler W (option MakerToTakerMessage) :=
  match message with
  | LTM_ReqContractSigsForSender req => process_req_contract_sigs_for_sender req
  | LTM_ProofOfFunding pof => process_proof_of_funding pof
  | LTM_RespContractSigsForRecvrAndSender resp => process_resp_contract_sigs_for_recvr_and_sender resp
  | LTM_ReqContractSigsForRecvr req => process_req_contract_sigs_for_recvr req
  | LTM_PrivateKeyHandover handover => process_legacy_handover handover
  end.
End legacy.

(** ** Order of effects *)

#[export] Hint Resolve emits_ret emits_lift emits_gets emits_conn emits_check emits_set_conn emits_set_phase
  emits_ask emits_perform emits_observe emits_for_each emits_map : emits.

(** Proves that a handler emits only events of a kind. *)
Ltac emits_only :=
  repeat first
    [ solve [auto with emits]
    | apply emits_bind; [|intros ?]
    | apply emits_for_each; intros ?
    | apply emits_map; intros ?
    | apply emits_perform
    | apply emits_observe; intros ?
    | case_match ].

(** What must stand in the trace before the maker's funding may go out: every
    output of every outgoing contract is watched, the watchtower answered, and
    all coins, with the peer's signatures on them, are in the wallet. *)
Definition protected `{BitcoinLib} (inc : list IncomingSwapCoin) (out : list OutgoingSwapCoin)
    (tr : list (Event * bool)) : Prop :=
  (forall c i o, c ∈ out -> output (osc_contract_tx c) !! i = Some o ->
     (EvRegisterWatch {| op_txid := compute_txid (osc_contract_tx c); op_vout := wrap 32 (Z.of_nat i) |}
        (script_pubkey o), true) ∈ tr) /\
  (EvWatchtowerAlive true, true) ∈ tr /\
  (forall c, c ∈ inc -> (EvSaveIncoming c, true) ∈ tr) /\
  (forall c, c ∈ out -> (EvSaveOutgoing c, true) ∈ tr).

Section order.
Context {lib : BitcoinLib} {W : Type} {maker : Maker W}.

Definition watch_events (tx : Transaction) : list (Event * bool) :=
  map (fun p : nat * TxOut =>
         (EvRegisterWatch {| op_txid := compute_txid tx; op_vout := wrap 32 (Z.of_nat p.1) |}
            (script_pubkey p.2), true)) (imap pair (output tx)).

Lemma watch_outputs_Ok tx (s s' : HandlerState W) :
  watch_outputs tx s = (Ok (), s') ->
  hs_conn s' = hs_conn s /\ hs_trace s' = hs_trace s ++ watch_events tx.
Proof. unfold watch_outputs. intros H. by apply for_each_perform_Ok in H. Qed.

Lemma watch_all_Ok {A} (ctx : A -> Transaction) cs (s s' : HandlerState W) :
  st_for_each (fun c => watch_outputs (ctx c)) cs s = (Ok (), s') ->
  hs_conn s' = hs_conn s /\ hs_trace s' = hs_trace s ++ flat_map (fun c => watch_events (ctx c)) cs.
Proof.
  apply (for_each_frame (fun c => watch_outputs (ctx c))). intros x s0 s0'. apply watch_outputs_Ok.
Qed.

Lemma save_coins_Ok inc out (s s' : HandlerState W) :
  save_coins inc out s = (Ok (), s') ->
  hs_conn s' = hs_conn s /\
  hs_trace s' = hs_trace s ++ map (fun c => (EvSaveIncoming c, true)) inc ++
                map (fun c => (EvSaveOutgoing c, true)) out.
Proof.
  unfold save_coins. rewrite st_bind_Ok.
  intros ([] & s1 & [Hc1 Ht1]%for_each_perform_Ok & [Hc2 Ht2]%for_each_perform_Ok).
  by rewrite Hc2, Hc1, Ht2, Ht1, app_assoc.
Qed.

Lemma ensure_watchtower_alive_Ok (s s' : HandlerState W) :
  ensure_watchtower_alive s = (Ok (), s') ->
  hs_conn s' = hs_conn s /\ hs_trace s' = hs_trace s ++ [(EvWatchtowerAlive true, true)].
Proof. unfold ensure_watchtower_alive. intros H. run_ok H. by destruct a. Qed.

Lemma broadcast_funding_emits tx :
  emits (fun e => e = EvBroadcast tx) (broadcast_funding (W := W) tx).
Proof.
  intros s. unfold broadcast_funding, perform. destruct (broadcast_transaction tx (hs_world s)) as [[a|e|] w].
  - eexists. split; [done|]. by repeat constructor.
  - destruct (already_broadcast_error e); [eexists; split; [done|]; by repeat constructor|].
    set (s1 := {| hs_conn := _ |}).
    assert (emits (fun e => e = EvBroadcast tx) (known ← ask (W := W) (is_transaction_known (compute_txid tx));
              if (known : bool) then mret () else lift (Err e))) as He by emits_only.
    destruct (He s1) as (evs & Ht & Hp). exists ((EvBroadcast tx, false) :: evs). split; [|by constructor].
    rewrite Ht. cbn [s1 hs_trace]. by rewrite <- app_assoc.
  - eexists. split; [done|]. by repeat constructor.
Qed.

Lemma broadcast_all_emits txs :
  emits (fun e => exists tx, e = EvBroadcast tx /\ tx ∈ txs) (st_for_each (broadcast_funding (W := W)) txs).
Proof.
  assert (forall xs, (forall x, x ∈ xs -> x ∈ txs) ->
    emits (fun e => exists tx, e = EvBroadcast tx /\ tx ∈ txs) (st_for_each (broadcast_funding (W := W)) xs)) as H.
  { induction xs as [|x xs IH]; intros Hx; cbn [st_for_each]; [apply emits_ret|].
    apply emits_bind; [|intros _; apply IH; intros; apply Hx; by constructor].
    eapply emits_weaken; [|apply broadcast_funding_emits]. intros e ->. exists x. split; [done|]. apply Hx. constructor. }
  by apply H.
Qed.

(** The coins' protection is read off the events of the three loops. *)
Lemma protected_events inc out tail :
  protected inc out
    (flat_map (fun c => watch_events (osc_contract_tx c)) out ++ [(EvWatchtowerAlive true, true)] ++
     map (fun c => (EvSaveIncoming c, true)) inc ++ map (fun c => (EvSaveOutgoing c, true)) out ++ tail).
Proof.
  split; [|split; [|split]].
  - intros c i o Hc Ho. apply elem_of_app. left. apply list_elem_of_In, in_flat_map. exists c.
    split; [by apply list_elem_of_In|]. apply in_map_iff. exists (i, o). split; [done|].
    apply list_elem_of_In, list_elem_of_lookup. exists i. by rewrite list_lookup_imap, Ho.
  - set_solver.
  - intros c Hc. rewrite !elem_of_app. right. right. left. apply list_elem_of_fmap. eauto.
  - intros c Hc. rewrite !elem_of_app. right. right. right. left. apply list_elem_of_fmap. eauto.
Qed.

(** An event that does not occur in the first part of a trace comes after it. *)
Lemma split_after {A} (l1 l2 pre post : list A) x :
  l1 ++ l2 = pre ++ x :: post -> x ∉ l1 -> exists pre', pre = l1 ++ pre' /\ l2 = pre' ++ x :: post.
Proof.
  intros Heq Hx. apply app_eq_app in Heq as (l & [[-> Hl]|[-> Hl]]).
  - destruct l as [|y l]; [exists []; cbn in *; rewrite !app_nil_r; by rewrite Hl|].
    injection Hl as <- _. exfalso. apply Hx. set_solver.
  - eauto.
Qed.

Lemma no_broadcast_elem (P : Event -> Prop) (evs : list (Event * bool)) tx b :
  (forall tx, ~ P (EvBroadcast tx)) -> Forall (fun e => P e.1) evs -> (EvBroadcast tx, b) ∉ evs.
Proof. intros HP Hall Hin. rewrite Forall_forall in Hall. by apply (HP tx), (Hall _ Hin). Qed.

(** Steps that leave the connection alone. *)
Lemma for_each_conn {A} (body : A -> handler W ()) xs :
  (forall x s, hs_conn (body x s).2 = hs_conn s) ->
  forall s, hs_conn (st_for_each body xs s).2 = hs_conn s.
Proof.
  intros Hb. induction xs as [|x xs IH]; intros s; cbn [st_for_each]; [done|].
  unfold mbind, stateful_bind. specialize (Hb x s). destruct (body x s) as [[a|e|] s1]; cbn [snd] in *; try done.
  by rewrite IH.
Qed.

Lemma map_conn {A B} (f : A -> handler W B) xs :
  (forall x s, hs_conn (f x s).2 = hs_conn s) ->
  forall s, hs_conn (st_map f xs s).2 = hs_conn s.
Proof.
  intros Hb. induction xs as [|x xs IH]; intros s; cbn [st_map]; [done|].
  unfold mbind, stateful_bind. specialize (Hb x s). destruct (f x s) as [[a|e|] s1]; cbn [snd] in *; try done.
  specialize (IH s1). destruct (st_map f xs s1) as [[|e|] s2]; cbn in *; congruence.
Qed.

Lemma bind_conn {A B} (m : handler W A) (f : A -> handler W B) :
  (forall s, hs_conn (m s).2 = hs_conn s) -> (forall a s, hs_conn (f a s).2 = hs_conn s) ->
  forall s, hs_conn ((m ≫= f) s).2 = hs_conn s.
Proof.
  intros Hm Hf s. unfold mbind, stateful_bind. specialize (Hm s).
  destruct (m s) as [[a|e|] s1]; cbn [snd] in *; [by rewrite Hf|done|done].
Qed.

Lemma perform_conn {A} e (op : stateful W MakerError A) s : hs_conn (perform e op s).2 = hs_conn s.
Proof. unfold perform. by destruct (op (hs_world s)). Qed.
Lemma observe_conn {A} e (op : stateful W MakerError A) s : hs_conn (observe e op s).2 = hs_conn s.
Proof. unfold observe. by destruct (op (hs_world s)). Qed.
Lemma ask_conn {A} (op : stateful W MakerError A) s : hs_conn (ask op s).2 = hs_conn s.
Proof. unfold ask. by destruct (op (hs_world s)). Qed.

Lemma broadcast_funding_conn tx s : hs_conn (broadcast_funding (W := W) tx s).2 = hs_conn s.
Proof.
  unfold broadcast_funding. pose proof (perform_conn (EvBroadcast tx) (broadcast_transaction tx) s) as Hp.
  destruct (perform _ _ s) as [[a|e|] s1]; cbn [snd] in *; [done| |done].
  destruct (already_broadcast_error e); [done|]. rewrite bind_conn; [done|apply ask_conn|].
  intros a s2. by case_match.
Qed.

(** The part of the handler from the broadcast on. *)
Definition broadcast_and_store (id : string) : handler W (option MakerToTakerMessage) :=
  pending ← conn cs_pending_funding_txes;
  _ ← st_for_each broadcast_funding pending;
  _ ← set_conn (fun c => {| c with cs_pending_funding_txes := []; cs_funding_broadcast := true;
                            cs_phase := AwaitingPrivateKeyHandover |});
  _ ← store id false;
  mret None.

Lemma broadcast_and_store_emits id (s s' : HandlerState W) r :
  broadcast_and_store id s = (r, s') ->
  exists evs, hs_trace s' = hs_trace s ++ evs /\
    forall tx b, (EvBroadcast tx, b) ∈ evs -> tx ∈ cs_pending_funding_txes (hs_conn s).
Proof.
  set (P e := (exists tx, e = EvBroadcast tx /\ tx ∈ cs_pending_funding_txes (hs_conn s)) \/ ~ is_broadcast e).
  intros Hrun.
  assert (exists evs, hs_trace s' = hs_trace s ++ evs /\ Forall (fun e => P e.1) evs) as (evs & Ht & Hp).
  { unfold broadcast_and_store in Hrun.
    apply bind_runs in Hrun as [(e & [=] & _)|[([=] & _)|(pend & s1 & [-> ->]%conn_Ok & Hrun)]].
    assert (emits P (_ ← st_for_each broadcast_funding (cs_pending_funding_txes (hs_conn s));
                     _ ← set_conn (W := W) (fun c => {| c with cs_pending_funding_txes := [];
                            cs_funding_broadcast := true; cs_phase := AwaitingPrivateKeyHandover |});
                     _ ← store id false; mret (None (A := MakerToTakerMessage)))) as He.
    { apply emits_bind; [|intros _; unfold store; emits_only; right; by intros []].
      eapply emits_weaken; [|apply broadcast_all_emits]. intros e He. by left. }
    destruct (He s) as (evs & Ht & Hp). rewrite Hrun in Ht. eauto. }
  exists evs. split; [done|]. intros tx b Hin. rewrite Forall_forall in Hp. specialize (Hp _ Hin).
  destruct Hp as [(tx' & [= ->] & Hin')|Hn]; [done|]. by destruct Hn.
Qed.

Lemma broadcast_and_store_Ok id (s s' : HandlerState W) r :
  broadcast_and_store id s = (r, s') -> is_ok r = true ->
  cs_funding_broadcast (hs_conn s') = true /\ cs_phase (hs_conn s') = AwaitingPrivateKeyHandover /\
  cs_pending_funding_txes (hs_conn s') = [].
Proof.
  destruct r as [m| |]; [|done|done]. intros Hrun _. unfold broadcast_and_store, store in Hrun.
  run_ok Hrun. done.
Qed.

Lemma broadcast_and_store_coins id (s s' : HandlerState W) r :
  broadcast_and_store id s = (r, s') ->
  cs_incoming_swapcoins (hs_conn s') = cs_incoming_swapcoins (hs_conn s) /\
  cs_outgoing_swapcoins (hs_conn s') = cs_outgoing_swapcoins (hs_conn s).
Proof.
  unfold broadcast_and_store. intros Hrun.
  apply bind_runs in Hrun as [(e & [=] & _)|[([=] & _)|(pend & s1 & [-> ->]%conn_Ok & Hrun)]].
  pose proof (for_each_conn broadcast_funding (cs_pending_funding_txes (hs_conn s)) broadcast_funding_conn s) as Hc.
  unfold mbind, stateful_bind in Hrun.
  destruct (st_for_each _ _ s) as [[u|e|] s1]; cbn [snd] in Hc; [|injection Hrun as _ <-; by rewrite Hc..].
  unfold store, set_conn, modify, conn, gets, perform, mbind, stateful_bind in Hrun. cbn in Hrun.
  destruct (store_connection_state _ _ _ _) as [[u'|e|] w]; injection Hrun as _ <-; cbn; by rewrite Hc.
Qed.

(** Everything before the broadcast, as one step that returns the coins. *)
Definition arm_and_save (resp : RespContractSigsForRecvrAndSender) : handler W () :=
  _ ← check (expect_phase [AwaitingSignaturesOrPreimage]);
  _ ← check (check_swap_id (prs_id resp));
  inc ← conn cs_incoming_swapcoins;
  out ← conn cs_outgoing_swapcoins;
  _ ← lift (reject (negb (length (prs_receivers_sigs resp) =? length inc)%nat)
        (ME_General "Invalid number of receiver signatures"));
  _ ← lift (reject (negb (length (prs_senders_sigs resp) =? length out)%nat)
        (ME_General "Invalid number of sender signatures"));
  _ ← lift (verify_contract_sigs (prs_receivers_sigs resp) (prs_senders_sigs resp) inc out);
  let inc := stamp_incoming (prs_receivers_sigs resp) inc in
  let out := stamp_outgoing (prs_senders_sigs resp) out in
  _ ← set_conn (fun c => {| c with cs_incoming_swapcoins := inc; cs_outgoing_swapcoins := out |});
  _ ← st_for_each (fun c => watch_outputs (osc_contract_tx c)) out;
  _ ← ensure_watchtower_alive;
  save_coins inc out.

Lemma st_bind_assoc {S E A B C} (m : stateful S E A) (f : A -> stateful S E B) (g : B -> stateful S E C) s :
  ((m ≫= f) ≫= g) s = (m ≫= fun a => f a ≫= g) s.
Proof. unfold mbind, stateful_bind. by destruct (m s) as [[]]. Qed.

Lemma st_bind_ext {S E A B} (m : stateful S E A) (f g : A -> stateful S E B) s :
  (forall a s', f a s' = g a s') -> (m ≫= f) s = (m ≫= g) s.
Proof. intros H. unfold mbind, stateful_bind. destruct (m s) as [[a|e|] s1]; [apply H|done|done]. Qed.

Lemma process_resp_split resp s :
  process_resp_contract_sigs_for_recvr_and_sender (W := W) resp s =
    (arm_and_save resp ≫= fun _ => broadcast_and_store (prs_id resp)) s.
Proof.
  unfold process_resp_contract_sigs_for_recvr_and_sender, arm_and_save. symmetry.
  repeat (rewrite st_bind_assoc; apply st_bind_ext; intros ? ?; cbv zeta). done.
Qed.

Lemma arm_and_save_emits resp : emits (fun e => ~ is_broadcast e) (arm_and_save resp).
Proof.
  unfold arm_and_save, watch_outputs, ensure_watchtower_alive, save_coins. emits_only; by intros [].
Qed.

(** What a successful preparation has established. *)
Lemma arm_and_save_Ok resp (s s' : HandlerState W) :
  arm_and_save resp s = (Ok (), s') ->
  let inc := cs_incoming_swapcoins (hs_conn s) in
  let out := cs_outgoing_swapcoins (hs_conn s) in
  length (prs_receivers_sigs resp) = length inc /\ length (prs_senders_sigs resp) = length out /\
  verify_contract_sigs (prs_receivers_sigs resp) (prs_senders_sigs resp) inc out = Ok () /\
  hs_conn s' = {| (hs_conn s) with
                  cs_incoming_swapcoins := stamp_incoming (prs_receivers_sigs resp) inc;
                  cs_outgoing_swapcoins := stamp_outgoing (prs_senders_sigs resp) out |} /\
  exists evs, hs_trace s' = hs_trace s ++ evs /\ Forall (fun e => ~ is_broadcast e.1) evs /\
    forall tail, protected (stamp_incoming (prs_receivers_sigs resp) inc)
                   (stamp_outgoing (prs_senders_sigs resp) out) (evs ++ tail).
Proof.
  intros Hrun. pose proof (emits_runs _ _ _ _ _ (arm_and_save_emits resp) Hrun) as (evs & [_ Ht] & Hnb).
  unfold arm_and_save in Hrun. run_ok Hrun. to_prop.
  match goal with H : st_for_each _ _ _ = (Ok _, _) |- _ => apply watch_all_Ok in H as [Hc1 Ht1] end.
  match goal with H : ensure_watchtower_alive _ = (Ok _, _) |- _ => apply ensure_watchtower_alive_Ok in H as [Hc2 Ht2] end.
  apply save_coins_Ok in Hrun as [Hc3 Ht3]. cbn [hs_conn hs_trace] in *. cbv zeta.
  do 3 (split; [done|]). split; [by rewrite Hc3, Hc2, Hc1|]. exists evs. split; [done|]. split; [done|].
  intros tail. rewrite Ht2, Ht1 in Ht3. rewrite Ht3, <- !app_assoc in Ht. apply app_inv_head in Ht. subst evs.
  rewrite <- !app_assoc. apply protected_events.
Qed.

(** A run of the handler fails before any broadcast, or has prepared the swap in
    full when it comes to the broadcasts. *)
Lemma process_resp_runs resp (s s' : HandlerState W) r :
  process_resp_contract_sigs_for_recvr_and_sender resp s = (r, s') ->
  (is_ok r = false /\ exists evs, hs_trace s' = hs_trace s ++ evs /\ Forall (fun e => ~ is_broadcast e.1) evs) \/
  (exists s1, arm_and_save resp s = (Ok (), s1) /\ broadcast_and_store (prs_id resp) s1 = (r, s')).
Proof.
  rewrite process_resp_split. intros Hrun.
  apply bind_runs in Hrun as [(e & Hr & ->)|[(Hr & ->)|([] & s1 & Hr & Hrun)]]; [left|left|right; by exists s1].
  all: destruct (emits_runs _ _ _ _ _ (arm_and_save_emits resp) Hr) as (evs & [_ Ht] & Hp); eauto.
Qed.

Lemma arm_and_save_guards resp (s s' : HandlerState W) :
  arm_and_save resp s = (Ok (), s') ->
  cs_phase (hs_conn s) = AwaitingSignaturesOrPreimage /\ check_swap_id (prs_id resp) (hs_conn s) = Ok ().
Proof.
  unfold arm_and_save. intros Hr. apply st_bind_Ok in Hr as (u & s2 & [Hph ->]%check_Ok & Hr).
  apply st_bind_Ok in Hr as ([] & s2 & [Hid _]%check_Ok & _).
  unfold expect_phase in Hph. case_bool_decide; set_solver.
Qed.

(** C3: the maker's funding transactions go out only in the phase that awaits
    the taker's signatures, on the swap the connection is bound to, after as many
    signatures as there are contracts verified over all of them, every output of
    every outgoing contract is being watched, the watchtower has answered that it
    is alive, and all coins, carrying those signatures, are saved; and only the
    pending funding transactions of this swap go out.  When the handler succeeds
    the connection records the broadcast. *)
Theorem funding_goes_out_only_when_protected (resp : RespContractSigsForRecvrAndSender)
    (s s' : HandlerState W) (r : outcome MakerError (option MakerToTakerMessage))
    (pre post : list (Event * bool)) (tx : Transaction) (b : bool)
    (Hrun : process_resp_contract_sigs_for_recvr_and_sender resp s = (r, s'))
    (Htr : hs_trace s' = hs_trace s ++ pre ++ (EvBroadcast tx, b) :: post) :
  cs_phase (hs_conn s) = AwaitingSignaturesOrPreimage /\
  check_swap_id (prs_id resp) (hs_conn s) = Ok () /\
  length (prs_receivers_sigs resp) = length (cs_incoming_swapcoins (hs_conn s)) /\
  length (prs_senders_sigs resp) = length (cs_outgoing_swapcoins (hs_conn s)) /\
  verify_contract_sigs (prs_receivers_sigs resp) (prs_senders_sigs resp)
    (cs_incoming_swapcoins (hs_conn s)) (cs_outgoing_swapcoins (hs_conn s)) = Ok () /\
  tx ∈ cs_pending_funding_txes (hs_conn s) /\
  cs_incoming_swapcoins (hs_conn s') =
    stamp_incoming (prs_receivers_sigs resp) (cs_incoming_swapcoins (hs_conn s)) /\
  cs_outgoing_swapcoins (hs_conn s') =
    stamp_outgoing (prs_senders_sigs resp) (cs_outgoing_swapcoins (hs_conn s)) /\
  protected (cs_incoming_swapcoins (hs_conn s')) (cs_outgoing_swapcoins (hs_conn s')) pre /\
  (is_ok r = true -> cs_funding_broadcast (hs_conn s') = true /\
     cs_phase (hs_conn s') = AwaitingPrivateKeyHandover /\ cs_pending_funding_txes (hs_conn s') = []).
Proof.
  apply process_resp_runs in Hrun as [[_ (evs & Ht & Hn)]|(s1 & Hr & Hrun)].
  { exfalso. rewrite Ht in Htr. apply app_inv_head in Htr.
    apply (no_broadcast_elem (fun e => ~ is_broadcast e) evs tx b); [by intros t []|exact Hn|].
    rewrite Htr. set_solver. }
  pose proof (arm_and_save_guards resp s s1 Hr) as [Hphase Hid].
  apply arm_and_save_Ok in Hr as (Hl1 & Hl2 & Hver & Hc & evs & Ht1 & Hnb & Hprot).
  pose proof (broadcast_and_store_Ok (prs_id resp) s1 s' r Hrun) as Hdone.
  pose proof (broadcast_and_store_coins (prs_id resp) s1 s' r Hrun) as [Hci Hco].
  apply broadcast_and_store_emits in Hrun as (evs2 & Ht2 & Hin).
  rewrite Ht2, Ht1, <- app_assoc in Htr. apply app_inv_head in Htr.
  apply split_after in Htr as (pre' & -> & Heq).
  2:{ eapply (no_broadcast_elem (fun e => ~ is_broadcast e)); [|exact Hnb]. intros t Hn. by apply Hn. }
  assert ((EvBroadcast tx, b) ∈ evs2) as Hx by (rewrite Heq; set_solver). apply Hin in Hx.
  rewrite Hc in Hx, Hci, Hco. cbn [cs_incoming_swapcoins cs_outgoing_swapcoins cs_pending_funding_txes] in *.
  rewrite Hci, Hco. do 8 (split; [done|]). split; [apply Hprot|exact Hdone].
Qed.

(** ** Falling back to the contracts *)
Lemma stamp_incoming_lookup sigs coins c :
  length sigs = length coins -> c ∈ stamp_incoming sigs coins ->
  exists n g c0, sigs !! n = Some g /\ coins !! n = Some c0 /\ c = {| c0 with isc_others_contract_sig := Some g |}.
Proof.
  revert coins. induction sigs as [|g sigs IH]; intros [|c0 coins] Hl; cbn; try done; [set_solver|].
  intros [->|Hin]%elem_of_cons; [by exists 0%nat, g, c0|].
  destruct (IH coins) as (n & g' & c' & H); [by injection Hl|done|]. by exists (S n), g', c'.
Qed.

Lemma stamp_outgoing_lookup sigs coins c :
  length sigs = length coins -> c ∈ stamp_outgoing sigs coins ->
  exists n g c0, sigs !! n = Some g /\ coins !! n = Some c0 /\ c = {| c0 with osc_others_contract_sig := Some g |}.
Proof.
  revert coins. induction sigs as [|g sigs IH]; intros [|c0 coins] Hl; cbn; try done; [set_solver|].
  intros [->|Hin]%elem_of_cons; [by exists 0%nat, g, c0|].
  destruct (IH coins) as (n & g' & c' & H); [by injection Hl|done|]. by exists (S n), g', c'.
Qed.

Context {laws : BitcoinLaws lib}.


(** ** Handing over keys *)

(** C21: the maker releases its private keys only in answer to a key handover,
    in the phase after its funding went out, to the swap the connection is
    bound to, and only after it has verified the taker's keys against all its
    incoming coins and saved every one of them with its key; the released keys
    are exactly those of its outgoing coins, and the swap is then complete. *)
Theorem keys_released_only_after_verified_handover (msg : LegacyTakerMessage) (answer : PrivateKeyHandover)
    (s s' : HandlerState W)
    (Hrun : handle_legacy_message msg s = (Ok (Some (MT_LegacyPrivateKeyHandover answer)), s')) :
  exists h, msg = LTM_PrivateKeyHandover h /\
    cs_phase (hs_conn s) = AwaitingPrivateKeyHandover /\
    check_swap_id (pkh_id h) (hs_conn s) = Ok () /\
    verify_legacy_privkey_handover (pkh_privkeys h) (cs_incoming_swapcoins (hs_conn s)) = Ok () /\
    cs_outgoing_swapcoins (hs_conn s) <> [] /\
    map (fun k => Some (sp_key k)) (pkh_privkeys answer) =
      map osc_my_privkey (cs_outgoing_swapcoins (hs_conn s)) /\
    cs_incoming_swapcoins (hs_conn s') =
      store_privkeys (pkh_privkeys h) (cs_incoming_swapcoins (hs_conn s)) /\
    hs_trace s' = hs_trace s ++ map (fun c => (EvSaveIncoming c, true)) (cs_incoming_swapcoins (hs_conn s')) /\
    cs_phase (hs_conn s') = Completed.
Proof.
  destruct msg as [req|pof|resp|req|h]; cbn [handle_legacy_message] in Hrun.
  1: (unfold process_req_contract_sigs_for_sender, store in Hrun; run_ok Hrun; discriminate).
  1: (unfold process_proof_of_funding in Hrun; repeat (apply st_bind_Ok in Hrun as (? & ? & _ & Hrun);
        repeat case_match); unfold mret, stateful_ret in Hrun; congruence).
  1: (rewrite process_resp_split in Hrun; unfold broadcast_and_store in Hrun;
      repeat (apply st_bind_Ok in Hrun as (? & ? & _ & Hrun)); unfold mret, stateful_ret in Hrun; congruence).
  1: (unfold process_req_contract_sigs_for_recvr in Hrun; run_ok Hrun; discriminate).
  exists h. split; [done|]. unfold process_legacy_handover, set_phase in Hrun. run_ok Hrun. to_prop.
  match goal with H : st_for_each _ _ _ = _ |- _ => apply for_each_perform_Ok in H as [Hc Ht] end.
  match goal with H : expect_phase _ _ = _ |- _ => unfold expect_phase in H; case_bool_decide as Hph; [|done] end.
  cbn [hs_conn hs_trace] in *. rewrite Hc. cbn [cs_phase cs_incoming_swapcoins].
  cbn [pkh_privkeys].
  repeat split; try done; [set_solver|].
  match goal with H : try_map outgoing_privkey _ = Ok _ |- _ => apply try_map_Ok in H; clear - H; induction H as [|c k cs ks Hk _ IH] end;
    [done|]. cbn [map]. rewrite IH. f_equal. unfold outgoing_privkey in Hk. inv_ok Hk. done.
Qed.

(** ** A refused admission *)

(** after the maker refuses a swap, for whatever of the three admission
    reasons or because its watchtower is down, the connection is back to waiting
    for swap details, and any legacy protocol message for a swap it does not
    hold fails without any outside effect. *)
Lemma refused_swap_cannot_be_driven (d : SwapDetails) (s s' : HandlerState W) (msg : LegacyTakerMessage)
    (Hrun : handle_swap_details d s = (Ok REJECT_ACK, s'))
    (Hunknown : forall w, exists w', get_connection_state (legacy_swap_id msg) w = (Ok None, w')) :
  cs_phase (hs_conn s') = AwaitingSwapDetails /\
  exists e s2, handle_legacy_dispatch handle_legacy_message msg s' = (Err e, s2) /\
    hs_trace s2 = hs_trace s' /\ hs_conn s2 = hs_conn s'.
Proof.
  assert (cs_phase (hs_conn s') = AwaitingSwapDetails) as Hph.
  { unfold handle_swap_details in Hrun.
    apply st_bind_Ok in Hrun as (u & s1 & [Hp ->]%check_Ok & Hrun).
    unfold expect_phase in Hp. case_bool_decide as Hin; [|done]. apply list_elem_of_singleton in Hin.
    apply st_bind_Ok in Hrun as (alive & s1 & (w & _ & ->)%observe_Ok & Hrun).
    destruct alive; cbn [negb] in Hrun; [|by injection Hrun as <-].
    apply st_bind_Ok in Hrun as (off & s1 & (w1 & _ & ->)%ask_Ok & Hrun).
    apply st_bind_Ok in Hrun as (t & s1 & _ & Hrun).
    apply st_bind_Ok in Hrun as ([] & s2 & ->%set_conn_Ok & Hrun).
    apply st_bind_Ok in Hrun as (fee & s2 & _ & Hrun).
    apply st_bind_Ok in Hrun as ([] & s3 & ->%set_conn_Ok & Hrun).
    apply st_bind_Ok in Hrun as (adm & s3 & _ & Hrun). destruct adm; cbn [negb] in Hrun.
    - apply st_bind_Ok in Hrun as ([[k pk] cc] & s4 & _ & Hrun). discriminate.
    - apply st_bind_Ok in Hrun as ([] & s4 & ->%set_conn_Ok & Hrun). by injection Hrun as <-. }
  split; [done|]. unfold handle_legacy_dispatch.
  assert (exists w, restore_state_if_needed (legacy_swap_id msg) s' = (Ok (), {| s' with hs_world := w |})) as [w Hrest].
  { unfold restore_state_if_needed, conn, gets, mbind, stateful_bind.
    destruct (_ || _); [|by exists (hs_world s'); destruct s'].
    unfold ask. destruct (Hunknown (hs_world s')) as [w ->]. by exists w. }
  set (s1 := {| s' with hs_world := w |}) in *.
  assert (forall A (f : () -> handler W A), (restore_state_if_needed (legacy_swap_id msg) ≫= f) s' = f () s1) as ->
    by (intros A f; unfold mbind, stateful_bind; by rewrite Hrest).
  assert (exists e, expect_phase [AwaitingContractData; AwaitingSignaturesOrPreimage] (hs_conn s') = Err e /\
            expect_phase [AwaitingSignaturesOrPreimage] (hs_conn s') = Err e /\
            expect_phase [AwaitingPrivateKeyHandover] (hs_conn s') = Err e) as (e & E1 & E2 & E3).
  { unfold expect_phase. rewrite Hph. rewrite !bool_decide_eq_false_2 by set_solver. eauto. }
  unfold check, mbind, stateful_bind. cbn [hs_conn s1].
  destruct (ensure_negotiated_protocol Legacy (hs_conn s')) as [[]|e'|] eqn:Hp;
    [|by exists e', s1|unfold ensure_negotiated_protocol, reject in Hp; by case_match].
  exists e, s1. split; [|done].
  destruct msg; cbn [handle_legacy_message];
    unfold process_req_contract_sigs_for_sender, process_proof_of_funding,
      process_resp_contract_sigs_for_recvr_and_sender, process_req_contract_sigs_for_recvr,
      process_legacy_handover, check, mbind, stateful_bind; cbn [hs_conn s1]; by rewrite ?E1, ?E2, ?E3.
Qed.

(** ** Value taken in and value sent on *)
Definition sum_amounts : list Amount -> Amount := foldr Z.add 0.

Lemma sum_amounts_app l k : sum_amounts (l ++ k) = sum_amounts l + sum_amounts k.
Proof. unfold sum_amounts. induction l as [|x l IH]; cbn; [done|]. rewrite IH. lia. Qed.

Lemma incoming_from_funding_Ok id k info c :
  incoming_from_funding id k info = Ok c ->
  exists idx o, funding_output_of info = Ok (idx, o) /\ isc_funding_amount c = value o /\
    isc_swap_id c = Some id /\ isc_contract_redeemscript c = Some (fti_contract_redeemscript info) /\
    map previous_output (input (isc_contract_tx c)) =
      [{| op_txid := compute_txid (fti_funding_tx info); op_vout := idx |}].
Proof.
  unfold incoming_from_funding, maker_protocol. intros H. inv_ok H.
  match goal with v : (PublicKey * PublicKey)%type |- _ => destruct v as [k1 k2] end. inv_ok H.
  match goal with v : (Z * TxOut)%type |- _ => destruct v as [idx o] end. inv_ok H.
  exists idx, o. repeat (split; [done|]). cbn [isc_new_legacy isc_contract_tx].
  match goal with H : create_receivers_contract_tx _ _ _ = Ok _ |- _ =>
    unfold create_receivers_contract_tx, create_senders_contract_tx, amount_sub in H; inv_ok H end.
  done.
Qed.

Lemma collect_incoming_Ok id k infos coins total :
  collect_incoming id k infos = Ok (coins, total) ->
  Forall2 (fun info c => incoming_from_funding id k info = Ok c) infos coins /\
  total = sum_amounts (map isc_funding_amount coins).
Proof.
  unfold collect_incoming.
  enough (forall cs0 t0, try_fold (fun acc info =>
      c ← incoming_from_funding id k info;
      total ← amount_add acc.2 (isc_funding_amount c);
      Ok (acc.1 ++ [c], total)) (cs0, t0) infos = Ok (coins, total) ->
    exists cs, coins = cs0 ++ cs /\ total = t0 + sum_amounts (map isc_funding_amount cs) /\
      Forall2 (fun info c => incoming_from_funding id k info = Ok c) infos cs) as H.
  { intros (cs & -> & -> & Hall)%H. done. }
  induction infos as [|info infos IH]; intros cs0 t0; cbn [try_fold].
  { intros [= <- <-]. exists []. rewrite app_nil_r. split; [done|]. split; [cbn; lia|constructor]. }
  intros H. apply bind_Ok in H as ([cs1 t1] & Hstep & H). apply IH in H as (cs & -> & -> & Hall).
  apply bind_Ok in Hstep as (c & Hc & Hstep). unfold amount_add in Hstep. inv_ok Hstep.
  apply checked_add_Some in Hs as [_ ->]. cbn [fst snd]. exists (c :: cs). rewrite <- app_assoc.
  split; [done|]. split; [cbn; lia|]. by constructor.
Qed.

Lemma declared_incoming_Ok infos d :
  declared_incoming_amount infos = Ok d ->
  exists outs, Forall2 (fun info o => exists idx, funding_output_of info = Ok (idx, o)) infos outs /\
    d = sum_amounts (map value outs).
Proof.
  unfold declared_incoming_amount.
  enough (forall t0, try_fold (fun total info =>
      '(_, funding_output) ← funding_output_of info;
      ok_or (checked_add 64 total (value funding_output)) (ME_General "Funding output amounts overflow"))
      t0 infos = Ok d ->
    exists outs, Forall2 (fun info o => exists idx, funding_output_of info = Ok (idx, o)) infos outs /\
      d = t0 + sum_amounts (map value outs)) as H by apply H.
  induction infos as [|info infos IH]; intros t0; cbn [try_fold].
  { intros [= <-]. exists []. split; [constructor|cbn; lia]. }
  intros H. apply bind_Ok in H as (t1 & Hstep & H). apply IH in H as (outs & Hall & ->).
  apply bind_Ok in Hstep as ([idx o] & Ho & Hstep). inv_ok Hstep. apply checked_add_Some in Hstep as [_ ->].
  exists (o :: outs). split; [constructor; eauto|]. cbn. lia.
Qed.

Lemma incoming_total_is_declared id k infos coins total d :
  collect_incoming id k infos = Ok (coins, total) -> declared_incoming_amount infos = Ok d -> total = d.
Proof.
  intros [Hc ->]%collect_incoming_Ok (outs & Ho & ->)%declared_incoming_Ok. f_equal.
  revert outs Ho. induction Hc as [|info c infos coins Hc _ IH]; intros outs Ho; inversion Ho; subst; [done|].
  cbn [map]. f_equal; [|by apply IH].
  apply incoming_from_funding_Ok in Hc as (idx & o & Hf & -> & _).
  match goal with H : exists _, _ |- _ => destruct H as [i Hi] end. rewrite Hf in Hi. by injection Hi as _ ->.
Qed.
End order.

Section value.
Context {lib : BitcoinLib} {laws : BitcoinLaws lib} {W : Type} {maker : Maker W}.

(** C24: when the maker answers a proof of funding, the number of incoming
    contracts is the negotiated one, their total does not exceed the negotiated
    amount, and what it sends on is that total less its own fee and the mining
    fee of the outgoing fundings; the proof was verified and every output of
    every incoming contract was watched before the outgoing coins were made, and
    nothing was broadcast. *)
Theorem outgoing_value_is_covered (pof : ProofOfFunding) (s s' : HandlerState W)
    (m : option MakerToTakerMessage)
    (Hrun : process_proof_of_funding pof s = (Ok m, s'))
    (Hn : 550 * zlen (pof_next_openswap_info pof) < 2 ^ 64) :
  let inc := cs_incoming_swapcoins (hs_conn s') in
  let total := sum_amounts (map isc_funding_amount inc) in
  exists sent,
    zlen inc = cs_tx_count (hs_conn s) /\
    total <= cs_swap_amount (hs_conn s) /\
    sent + cs_service_fee_sats (hs_conn s') + 550 * zlen (pof_next_openswap_info pof) = total /\ 0 <= sent /\
    cs_phase (hs_conn s') = AwaitingSignaturesOrPreimage /\
    hs_trace s' = hs_trace s ++ [(EvVerifyProof pof, true)] ++
      flat_map (fun c => watch_events (isc_contract_tx c)) inc ++
      [(EvSyncWallet, true); (EvInitialize sent, true); (EvStore (pof_id pof) (hs_conn s') false, true)].
Proof.
  assert (wrap 64 (550 * zlen (pof_next_openswap_info pof)) = 550 * zlen (pof_next_openswap_info pof)) as Hw
    by (apply wrap_small; split; [pose proof (zlen_nonneg (pof_next_openswap_info pof)); lia|done]).
  unfold process_proof_of_funding, set_phase, store in Hrun. rewrite estimate_funding_tx_fee_sats_Ok in Hrun.
  pattern s'. run_ok Hrun. to_prop.
  repeat match goal with v : (_ * _)%type |- _ => destruct v end. run_ok Hrun.
  match goal with v : (list IncomingSwapCoin * Amount)%type |- _ => destruct v as [coins total] end. run_ok Hrun.
  match goal with v : (list Transaction * list OutgoingSwapCoin * Amount)%type |- _ => destruct v as [[ftx outs] mf] end.
  run_ok Hrun.
  match goal with H : Ok 550 = Ok _ |- _ => injection H as <- end. cbv beta zeta in *. rewrite ?Hw in *.
  match goal with H : st_for_each _ _ _ = _ |- _ => apply watch_all_Ok in H as [Hc Ht] end.
  match goal with H : ok_or (_ ≫= _) _ = Ok ?a |- _ => apply ok_or_Ok, bind_Some in H as (net & H1 & H2); exists a end.
  apply checked_sub_Some in H1 as [Hle1 ->], H2 as [Hle2 ->]. rewrite ?Hw in *.
  match goal with H : collect_incoming _ _ _ = _ |- _ => rename H into Hcol end.
  match goal with H : declared_incoming_amount _ = _ |- _ => rename H into Hdec end.
  pose proof (incoming_total_is_declared _ _ _ _ _ _ Hcol Hdec) as ->.
  apply collect_incoming_Ok in Hcol as [Hall Hsum].
  cbn [hs_conn hs_trace cs_incoming_swapcoins cs_service_fee_sats cs_phase cs_tx_count] in *.
  rewrite Hc. cbn [cs_incoming_swapcoins]. rewrite <- Hsum. unfold incoming_within_swap_amount in *. to_prop.
  split; [apply Forall2_length in Hall; unfold zlen in *; by rewrite <- Hall|].
  split; [done|]. split; [lia|]. split; [lia|]. split; [done|].
  rewrite Ht, <- !app_assoc. done.
Qed.
End value.

(** ** What the maker signs for a receiver *)
Section receiver.
Context {lib : BitcoinLib} {laws : BitcoinLaws lib} {W : Type} {maker : Maker W}.

(** in the key-handover phase the maker signs, for one of its own outgoing
    coins, a transaction that spends its funding to whatever single output the
    request names: neither the output's script nor its value is compared with
    the coin's contract.  The signature is valid for the funding's 2-of-2. *)
Lemma receiver_request_signs_any_output (c : OutgoingSwapCoin) (k : SecretKey) (fund : Transaction)
    (ms : Script) (i : TxIn) (o : TxOut) (id : string) (s : HandlerState W) (w : W)
    (Hphase : cs_phase (hs_conn s) = AwaitingPrivateKeyHandover)
    (Hid : check_swap_id id (hs_conn s) = Ok ())
    (Hfind : find_outgoing_swapcoin ms (hs_world s) = (Ok (Some c), w))
    (Hk : osc_my_privkey c = Some k) (Hfund : osc_funding_tx c = Some fund)
    (Hi : op_txid (previous_output i) = compute_txid fund) :
  let tx := {| version := 2; lock_time := 0; input := [i]; output := [o] |} in
  exists sig s',
    process_req_contract_sigs_for_recvr
      {| rsr_id := id; rsr_txs := [{| ctr_multisig_redeemscript := ms; ctr_contract_tx := tx |}] |} s =
      (Ok (Some (MT_RespContractSigsForRecvr {| prr_id := id; prr_sigs := [sig] |})), s') /\
    sighash_type sig = SIGHASH_ALL /\
    verify_contract_tx_sig tx ms (osc_funding_amount c) (pubkey_of k) (sig_bytes sig) = Ok ().
Proof.
  cbv zeta. set (tx := {| version := 2; lock_time := 0; input := [i]; output := [o] |}).
  destruct (sighash_defined tx 0 ms (osc_funding_amount c) SIGHASH_ALL) as [d Hd]; [cbn; lia|].
  exists {| sig_bytes := ecdsa_sign d k; sighash_type := SIGHASH_ALL |}, {| s with hs_world := w |}.
  split; [|split; [done|]].
  - unfold process_req_contract_sigs_for_recvr, check, mbind, stateful_bind. cbn [rsr_id rsr_txs].
    unfold expect_phase. rewrite bool_decide_eq_true_2 by (rewrite Hphase; set_solver). rewrite Hid.
    unfold sign_receiver_contract. cbn [st_map ctr_contract_tx ctr_multisig_redeemscript].
    unfold mbind, stateful_bind, lift, ask. cbn. rewrite Hfind, Hfund. cbn. rewrite Hi, Z.eqb_refl. cbn. rewrite Hk.
    unfold sign_contract_tx. fold tx. rewrite Hd. done.
  - apply verify_contract_tx_sig_Ok. exists d. split; [done|]. apply ecdsa_sign_verify.
Qed.
End receiver.

(** ** An invariant of the connection *)

(** Past the contract exchange, the connection says that its funding went out
    and, in the legacy protocol, keeps nothing pending: recovery relies on it. *)
Definition sent (st : ConnectionState) : Prop :=
  cs_funding_broadcast st = true /\ (cs_protocol st = Taproot \/ cs_pending_funding_txes st = []).
Definition conn_inv (st : ConnectionState) : Prop :=
  cs_phase st = AwaitingPrivateKeyHandover \/ cs_phase st = Completed -> sent st.
Definition early (st : ConnectionState) : Prop :=
  cs_phase st <> AwaitingPrivateKeyHandover /\ cs_phase st <> Completed.
(** Also every state it stores satisfies [P]. *)
Definition stores_only (P : ConnectionState -> Prop) (e : Event) : Prop :=
  match e with EvStore _ st _ => P st | _ => True end.
Definition keeps {W A} (P Q : ConnectionState -> Prop) (m : handler W A) : Prop :=
  forall s, P (hs_conn s) ->
    Q (hs_conn (m s).2) /\
    exists evs, hs_trace (m s).2 = hs_trace s ++ evs /\ Forall (fun e => stores_only Q e.1) evs.

Section invariant.
Context {lib : BitcoinLib} {W : Type} {maker : Maker W}.

Lemma early_inv st : early st -> conn_inv st.
Proof. intros [H1 H2] [H|H]; done. Qed.

Lemma keeps_weaken {A} (P P' Q Q' : ConnectionState -> Prop) (m : handler W A) :
  (forall st, P' st -> P st) -> (forall st, Q st -> Q' st) -> keeps P Q m -> keeps P' Q' m.
Proof.
  intros HP HQ Hm s Hs. destruct (Hm s (HP _ Hs)) as [H1 (evs & Ht & Hf)]. split; [by apply HQ|].
  exists evs. split; [done|]. eapply Forall_impl; [exact Hf|]. intros [[] b]; cbn; auto.
Qed.

Lemma keeps_seq {A B} (P R Q : ConnectionState -> Prop) (m : handler W A) (f : A -> handler W B) :
  (forall st, R st -> Q st) -> keeps P R m -> (forall a, keeps R Q (f a)) -> keeps P Q (m ≫= f).
Proof.
  intros HRQ Hm Hf s Hs. unfold mbind, stateful_bind.
  assert (keeps P Q m) as Hm' by (by eapply keeps_weaken; [|exact HRQ|exact Hm]).
  destruct (Hm s Hs) as [Hp _]. destruct (Hm' s Hs) as [H1 (e1 & Ht1 & F1)].
  destruct (m s) as [[a|e|] s1]; cbn [snd] in *; [|by split; [|exists e1]..].
  destruct (Hf a s1 Hp) as [H2 (e2 & Ht2 & F2)]. split; [done|]. exists (e1 ++ e2).
  rewrite Ht2, Ht1, app_assoc. split; [done|]. by apply Forall_app.
Qed.

Lemma keeps_bind {A B} (P Q : ConnectionState -> Prop) (m : handler W A) (f : A -> handler W B) :
  (forall st, P st -> Q st) -> keeps P P m -> (forall a, keeps P Q (f a)) -> keeps P Q (m ≫= f).
Proof. apply keeps_seq. Qed.

(** A step that leaves the connection alone keeps any property, if it stores
    nothing else than the current state. *)
Lemma keeps_frame {A} (P : ConnectionState -> Prop) (m : handler W A) :
  (forall s, hs_conn (m s).2 = hs_conn s) -> emits (fun e => ~ is_store e) m -> keeps P P m.
Proof.
  intros Hc He s Hs. rewrite Hc. split; [done|]. destruct (He s) as (evs & Ht & Hf). exists evs. split; [done|].
  eapply Forall_impl; [exact Hf|]. intros [[] b]; cbn; try done.
Qed.

Lemma keeps_store (P : ConnectionState -> Prop) id b : keeps P P (store (W := W) id b).
Proof.
  intros s Hs. unfold store, conn, gets, perform, mbind, stateful_bind.
  destruct (store_connection_state _ _ _ _) as [r w]. split; [done|].
  eexists. split; [done|]. by repeat constructor.
Qed.

Lemma keeps_set_conn (P Q : ConnectionState -> Prop) f :
  (forall st, P st -> Q (f st)) -> keeps P Q (set_conn (W := W) f).
Proof. intros Hf s Hs. split; [by apply Hf|]. exists []. rewrite app_nil_r. by split; [|constructor]. Qed.

(** A guard contributes what its success says. *)
Lemma keeps_check {B} (P R Q : ConnectionState -> Prop) g (f : () -> handler W B) :
  (forall st, P st -> Q st) -> (forall st, P st -> g st = Ok () -> R st) ->
  (forall a, keeps R Q (f a)) -> keeps P Q (check g ≫= f).
Proof.
  intros HPQ HPR Hf s Hs. unfold check, mbind, stateful_bind.
  destruct (g (hs_conn s)) as [[]|e|] eqn:Hg; cbn [snd].
  - apply Hf. by apply HPR.
  - split; [by apply HPQ|]. exists []. rewrite app_nil_r. by split; [|constructor].
  - split; [by apply HPQ|]. exists []. rewrite app_nil_r. by split; [|constructor].
Qed.
End invariant.

(** Closes the side conditions of [keeps_frame] for steps that do not touch the
    connection. *)
Ltac conn_frame :=
  repeat first
    [ done
    | apply perform_conn | apply observe_conn | apply ask_conn | apply broadcast_funding_conn
    | apply bind_conn; [|intros ?]
    | apply for_each_conn; intros ?
    | apply map_conn; intros ?
    | progress intros ?
    | case_match ].
Ltac keep_frame :=
  apply keeps_frame;
  [ conn_frame | emits_only; try by intros [] ].
Ltac keep_early :=
  repeat first
    [ apply keeps_store
    | apply keeps_set_conn; solve [intros ?; unfold early; cbn; done]
    | apply keeps_bind; [done| |intros ?]
    | solve [keep_frame]
    | case_match ].

Section invariant_theorem.
Context {lib : BitcoinLib} {W : Type} {maker : Maker W}.

Lemma expect_phase_Ok ps st : expect_phase ps st = Ok () <-> cs_phase st ∈ ps.
Proof. unfold expect_phase. case_bool_decide; naive_solver. Qed.

Lemma expect_early ps st :
  AwaitingPrivateKeyHandover ∉ ps -> Completed ∉ ps -> expect_phase ps st = Ok () -> early st.
Proof. intros H1 H2 Hp%expect_phase_Ok. split; intros Heq; rewrite Heq in Hp; done. Qed.

Lemma broadcast_funding_no_store tx : emits (fun e => ~ is_store e) (broadcast_funding (W := W) tx).
Proof. eapply emits_weaken; [|apply broadcast_funding_emits]. by intros e -> []. Qed.

Lemma sender_keeps req : keeps conn_inv conn_inv (process_req_contract_sigs_for_sender (W := W) req).
Proof.
  apply keeps_check with (R := early); [done| |].
  { intros st _. apply expect_early; set_solver. }
  intros _. apply keeps_weaken with (P := early) (Q := early); [done|apply early_inv|]. keep_early.
Qed.

Lemma pof_keeps pof : keeps conn_inv conn_inv (process_proof_of_funding (W := W) pof).
Proof.
  apply keeps_check with (R := early); [done| |].
  { intros st _. apply expect_early; set_solver. }
  intros _. apply keeps_weaken with (P := early) (Q := early); [done|apply early_inv|].
  unfold set_phase, watch_outputs. keep_early.
Qed.

Lemma resp_keeps resp :
  keeps conn_inv conn_inv (process_resp_contract_sigs_for_recvr_and_sender (W := W) resp).
Proof.
  apply keeps_check with (R := early); [done| |].
  { intros st _. apply expect_early; set_solver. }
  intros _. pose proof early_inv as Hei.
  apply keeps_seq with (R := early); [done|keep_frame|intros _].
  do 5 (apply keeps_seq with (R := early); [done|keep_frame|intros ?]). cbv zeta.
  apply keeps_seq with (R := early); [done|by apply keeps_set_conn|intros _].
  do 3 (apply keeps_seq with (R := early);
        [done|unfold watch_outputs, ensure_watchtower_alive, save_coins; keep_frame|intros _]).
  apply keeps_seq with (R := early); [done|keep_frame|intros pending].
  apply keeps_seq with (R := early); [done| |intros _].
  { apply keeps_frame; [conn_frame|]. apply emits_for_each. apply broadcast_funding_no_store. }
  apply keeps_seq with (R := conn_inv); [done|apply keeps_set_conn; intros st _ _; split; [done|by right]|intros _].
  apply keeps_seq with (R := conn_inv); [done|apply keeps_store|intros _]. keep_frame.
Qed.

Lemma recvr_keeps req : keeps conn_inv conn_inv (process_req_contract_sigs_for_recvr (W := W) req).
Proof. unfold process_req_contract_sigs_for_recvr, sign_receiver_contract. keep_frame. Qed.

Lemma handover_keeps h : keeps conn_inv conn_inv (process_legacy_handover (W := W) h).
Proof.
  assert (forall st, sent st -> conn_inv st) as Hsi by (intros st H _; exact H).
  apply keeps_check with (R := sent); [done| |].
  { intros st Hinv Hp%expect_phase_Ok. apply Hinv. set_solver. }
  intros _. do 6 (apply keeps_seq with (R := sent); [done|keep_frame|intros ?]). cbv zeta.
  apply keeps_seq with (R := sent); [done|by apply keeps_set_conn|intros _].
  apply keeps_seq with (R := sent); [done|keep_frame|intros _].
  apply keeps_seq with (R := sent); [done|by apply keeps_set_conn|intros _]. by apply keeps_weaken with (P := sent) (Q := sent); [| |keep_frame].
Qed.

End invariant_theorem.

(** ** Witnesses *)
#[local] Existing Instance Reference.lib.
#[local] Existing Instance Reference.laws.

(** A maker whose world says what its calls answer. *)
Record SampleWorld := {
  sw_alive : bool;
  sw_coin : option OutgoingSwapCoin;
  sw_made : list Transaction * list OutgoingSwapCoin * Amount;
}.
Definition sample_config : MakerConfig :=
  {| mcf_base_fee := 100; mcf_amount_relative_fee_pct := f64_lit 1 10; mcf_time_relative_fee_pct := f64_lit 1 100;
     mcf_min_swap_amount := 1000; mcf_max_swap_amount := 1000000; mcf_required_confirms := 1;
     mcf_supported_protocols := [Legacy; Taproot] |}.
#[local] Instance sample_maker : Maker SampleWorld := {|
  now _ := 7;
  is_watchtower_alive w := (Ok (sw_alive w), w);
  get_tweakable_keypair w := (Ok (100, pubkey_of 100, []), w);
  get_fidelity_proof w := (Err (ME_General "none"), w);
  get_config _ := sample_config;
  validate_swap_parameters d w := (Ok 40, w);
  calculate_swap_fee_op a l w := 200;
  broadcast_transaction tx w := (Ok (compute_txid tx), w);
  is_transaction_known t w := (Ok true, w);
  save_incoming_swapcoin c w := (Ok (), w);
  save_outgoing_swapcoin c w := (Ok (), w);
  register_watch_outpoint o spk w := (Ok (), w);
  sync_and_save_wallet w := (Ok (), w);
  store_connection_state id st adm w := (if adm then Err ME_TooManySwaps else Ok (), w);
  get_connection_state id w := (Ok None, w);
  collect_excluded_utxos id w := (Ok [], w);
  swap_past_refund_deadline id w := (Ok false, w);
  wait_for_tx_on_chain t n w := (Ok (), w);
  verify_and_sign_sender_contract_txs infos h l w := (Ok [], w);
  verify_proof_of_funding p w := (Ok (hash160 ex_preimage), w);
  initialize_openswap a ms hs h l f ex w := (Ok (sw_made w), w);
  find_outgoing_swapcoin ms w := (Ok (sw_coin w), w);
  get_current_height w := (Ok 500, w);
  create_funding_transaction a spk ex w := (Err (ME_General "none"), w);
  random_secret_key w := (Ok 300, w);
|}.

Definition peer_coin : OutgoingSwapCoin :=
  let c := osc_new_legacy 21 (pubkey_of 22) (sct_contract_tx (gap_info (ex_script 60))) (ex_script 60) 12 5000 in
  {| c with osc_funding_tx := Some gap_funding |}.
Definition sample_world : SampleWorld :=
  {| sw_alive := true; sw_coin := Some peer_coin; sw_made := ([gap_funding], [peer_coin], 0) |}.
Definition sample_conn (p : SwapPhase) (inc : list IncomingSwapCoin) (out : list OutgoingSwapCoin)
    (pending : list Transaction) (sent : bool) : ConnectionState :=
  let c := ConnectionState_new 7 Legacy in
  {| c with cs_phase := p; cs_swap_id := Some "s"; cs_swap_amount := 9000; cs_tx_count := 1; cs_timelock := 40;
     cs_incoming_swapcoins := inc; cs_outgoing_swapcoins := out; cs_pending_funding_txes := pending;
     cs_funding_broadcast := sent |}.
Definition at_phase (c : ConnectionState) : HandlerState SampleWorld := Build_HandlerState c sample_world [].

Definition resp_start : HandlerState SampleWorld :=
  at_phase (sample_conn AwaitingSignaturesOrPreimage [flag_coin] [peer_coin] [gap_funding] false).
Definition resp_msg : RespContractSigsForRecvrAndSender :=
  {| prs_id := "s"; prs_receivers_sigs := [flag_sig 1]; prs_senders_sigs := [flag_sig 1] |}.
Definition peer_contract : Transaction := osc_contract_tx peer_coin.
Definition peer_contract_out : TxOut := default (ex_out []) (output peer_contract !! 0%nat).
Definition armed_events : list (Event * bool) :=
  [(EvRegisterWatch {| op_txid := compute_txid peer_contract; op_vout := 0 |} (script_pubkey peer_contract_out), true);
   (EvWatchtowerAlive true, true);
   (EvSaveIncoming {| flag_coin with isc_others_contract_sig := Some (flag_sig 1) |}, true);
   (EvSaveOutgoing {| peer_coin with osc_others_contract_sig := Some (flag_sig 1) |}, true)].

Lemma resp_run :
  exists post s', process_resp_contract_sigs_for_recvr_and_sender resp_msg resp_start = (Ok None, s') /\
    hs_trace s' = [] ++ armed_events ++ (EvBroadcast gap_funding, true) :: post.
Proof.
  destruct (process_resp_contract_sigs_for_recvr_and_sender resp_msg resp_start) as [r s'] eqn:E.
  assert (r = Ok None /\ exists post, hs_trace s' = [] ++ armed_events ++ (EvBroadcast gap_funding, true) :: post)
    as [-> [post Ht]].
  { apply (f_equal (fun x => (x.1, hs_trace x.2))) in E. cbn [fst snd] in E. revert E.
    vm_compute. intros [= <- <-]. split; [reflexivity|]. eexists. reflexivity. }
  exists post, s'. split; [reflexivity|exact Ht].
Qed.

Lemma funding_goes_out_only_when_protected_witness :
  exists post s', process_resp_contract_sigs_for_recvr_and_sender resp_msg resp_start = (Ok None, s') /\
    hs_trace s' = armed_events ++ (EvBroadcast gap_funding, true) :: post /\
    protected (stamp_incoming [flag_sig 1] [flag_coin]) (stamp_outgoing [flag_sig 1] [peer_coin]) armed_events /\
    cs_funding_broadcast (hs_conn s') = true.
Proof.
  destruct resp_run as (post & s' & E & Ht).
  destruct (funding_goes_out_only_when_protected resp_msg resp_start s' (Ok None) _ post gap_funding true E Ht)
    as (_ & _ & _ & _ & _ & _ & Hi & Ho & Hp & Hd).
  rewrite Hi, Ho in Hp.
  exists post, s'. split; [exact E|]. split; [exact Ht|]. split; [exact Hp|]. apply Hd. reflexivity.
Defined.

Lemma funding_run_coins s' :
  process_resp_contract_sigs_for_recvr_and_sender resp_msg resp_start = (Ok None, s') ->
  cs_incoming_swapcoins (hs_conn s') = [{| flag_coin with isc_others_contract_sig := Some (flag_sig 1) |}] /\
  cs_outgoing_swapcoins (hs_conn s') = [{| peer_coin with osc_others_contract_sig := Some (flag_sig 1) |}].
Proof.
  intros E. apply (f_equal (fun x => hs_conn x.2)) in E. cbn [snd] in E. rewrite <- E.
  split; vm_compute; reflexivity.
Qed.


Definition handover_start : HandlerState SampleWorld :=
  at_phase (sample_conn AwaitingPrivateKeyHandover [flag_coin] [peer_coin] [] true).
Definition handover_msg : LegacyTakerMessage :=
  LTM_PrivateKeyHandover {| pkh_id := "s"; pkh_privkeys := [{| sp_identifier := []; sp_key := 22 |}] |}.
Definition handover_answer : PrivateKeyHandover :=
  {| pkh_id := "s"; pkh_privkeys := [{| sp_identifier := []; sp_key := 21 |}] |}.

Lemma keys_released_only_after_verified_handover_witness :
  exists s', handle_legacy_message handover_msg handover_start =
      (Ok (Some (MT_LegacyPrivateKeyHandover handover_answer)), s') /\
    cs_phase (hs_conn s') = Completed.
Proof.
  eexists. split; [vm_compute; reflexivity|].
  edestruct (keys_released_only_after_verified_handover (W := SampleWorld) handover_msg handover_answer handover_start)
    as (h & _ & _ & _ & _ & _ & _ & _ & _ & Hc); [vm_compute; reflexivity|exact Hc].
Defined.

Definition details_start : HandlerState SampleWorld :=
  at_phase {| (ConnectionState_new 7 Legacy) with cs_phase := AwaitingSwapDetails |}.
Definition details_msg : SwapDetails :=
  {| sd_id := "s"; sd_protocol_version := Legacy; sd_amount := 5000; sd_tx_count := 1; sd_timelock := 40;
     sd_refund_locktime_offset := 40 |}.

Lemma refused_swap_cannot_be_driven_witness :
  exists s', handle_swap_details details_msg details_start = (Ok REJECT_ACK, s') /\
    cs_phase (hs_conn s') = AwaitingSwapDetails.
Proof.
  destruct (handle_swap_details details_msg details_start) as [r s'] eqn:E.
  assert (r = Ok REJECT_ACK) as -> by (apply (f_equal fst) in E; vm_compute in E; symmetry; exact E).
  destruct (refused_swap_cannot_be_driven details_msg details_start s' handover_msg E) as [Hp _].
  - intros w. exists w. reflexivity.
  - exists s'. split; [reflexivity|exact Hp].
Defined.

Definition pof_msg : ProofOfFunding :=
  {| pof_id := "s";
     pof_confirmed_funding_txes := [{| fti_funding_tx := ex_tx (ex_txin 0 []) [ex_out (create_multisig_redeemscript (pubkey_of 102) (pubkey_of 22))];
        fti_multisig_redeemscript := create_multisig_redeemscript (pubkey_of 102) (pubkey_of 22);
        fti_multisig_nonce := 2; fti_contract_redeemscript := ex_script 60; fti_hashlock_nonce := 3 |}];
     pof_next_openswap_info := [{| nhi_next_multisig_pubkey := pubkey_of 31; nhi_next_hashlock_pubkey := pubkey_of 32;
        nhi_next_multisig_nonce := 4; nhi_next_hashlock_nonce := 5 |}];
     pof_refund_locktime := 40; pof_contract_feerate := f64_of_Z 2 |}.
Definition pof_start : HandlerState SampleWorld := at_phase (sample_conn AwaitingContractData [] [] [] false).

Lemma outgoing_value_is_covered_witness :
  exists m s' sent, process_proof_of_funding pof_msg pof_start = (Ok m, s') /\ sent + 200 + 550 = 5000.
Proof.
  destruct (process_proof_of_funding pof_msg pof_start) as [r s'] eqn:E.
  assert (exists m, r = Ok m /\ sum_amounts (map isc_funding_amount (cs_incoming_swapcoins (hs_conn s'))) = 5000 /\
            cs_service_fee_sats (hs_conn s') = 200) as (m & -> & Ht & Hf).
  { apply (f_equal (fun x => (x.1, sum_amounts (map isc_funding_amount (cs_incoming_swapcoins (hs_conn x.2))),
                              cs_service_fee_sats (hs_conn x.2)))) in E.
    cbn [fst snd] in E. revert E. vm_compute. intros [= <- <- <-]. eauto. }
  destruct (outgoing_value_is_covered pof_msg pof_start s' m E ltac:(reflexivity)) as (sent & _ & _ & Hs & _).
  exists m, s', sent. split; [reflexivity|]. rewrite Ht, Hf in Hs. exact Hs.
Defined.

Definition theft_in : TxIn :=
  {| previous_output := {| op_txid := compute_txid gap_funding; op_vout := 0 |};
     script_sig := []; sequence := 0; witness := [] |}.
Definition theft_out : TxOut := {| value := 4990; script_pubkey := [81] |}.

Lemma receiver_request_signs_any_output_witness :
  exists sig s',
    process_req_contract_sigs_for_recvr
      {| rsr_id := "s"; rsr_txs := [{| ctr_multisig_redeemscript := gap_multisig; ctr_contract_tx :=
           {| version := 2; lock_time := 0; input := [theft_in]; output := [theft_out] |} |}] |} handover_start =
      (Ok (Some (MT_RespContractSigsForRecvr {| prr_id := "s"; prr_sigs := [sig] |})), s').
Proof.
  destruct (receiver_request_signs_any_output peer_coin 21 gap_funding gap_multisig theft_in theft_out "s"
              handover_start sample_world) as (sig & s' & H & _); [reflexivity..|].
  exists sig, s'. exact H.
Defined.
