(* ===== verification/TaprootHandlers.v ===== *)
(** The maker's taproot message handlers: src/maker/taproot_handlers.rs.

    In the taproot protocol one message carries the taker's funded contracts and
    the answer the maker's own; there is no separate signature exchange.  The
    handlers run in the monad of [MakerHandlers] against an arbitrary [Maker]. *)
From S2P Require Import Prelude Float64 Bitcoin Messages Contract Errors SwapCoin ScriptEval TaprootLib Taproot TapScript TakerTracker TakerState LegacyVerification TaprootVerification MakerHandlers LegacyHandlers.
#[local] Open Scope string_scope.
#[local] Open Scope list_scope.
#[local] Open Scope Z_scope.

(** ** Sharing the fee *)

(** [iter().enumerate().max_by_key(..)]: the last of the largest. *)
Fixpoint last_max_from (i : nat) (best : option (nat * Z)) (xs : list Z) : option (nat * Z) :=
  match xs with
  | [] => best
  | x :: rest =>
      last_max_from (S i)
        (match best with
         | Some (_, b) => if b <=? x then Some (i, x) else best
         | None => Some (i, x)
         end) rest
  end.
Definition max_index (xs : list Z) : nat :=
  match last_max_from 0 None xs with Some (i, _) => i | None => 0 end.

(** [(fee as u128 * amt as u128 / total as u128) as u64]; a zero total panics. *)
Definition fee_share (fee total amt : Z) : outcome MakerError Z :=
  if total =? 0 then Panic else Ok (wrap 64 (fee * amt / total)).

Definition outgoing_after_fee (fee total : Z) (amounts : list Amount) : outcome MakerError (list Amount) :=
  try_map (fun amt => share ← fee_share fee total amt; Ok (wrap 64 (amt - share))) amounts.

Definition wrapping_sum (xs : list Z) : Z := fold_left (fun acc x => wrap 64 (acc + x)) xs 0.

(** The outgoing amounts: every share of the fee rounded down, the remainder
    taken from the largest. *)
Definition split_outgoing (fee total outgoing_total : Amount) (amounts : list Amount)
    : outcome MakerError (list Amount) :=
  outgoing_amounts ← outgoing_after_fee fee total amounts;
  let remainder := wrap 64 (wrapping_sum outgoing_amounts - outgoing_total) in
  if 0 <? remainder then
    let max_idx := max_index outgoing_amounts in
    largest ← expect (outgoing_amounts !! max_idx);
    reduced ← amount_sub largest remainder;
    Ok (<[max_idx := reduced]> outgoing_amounts)
  else Ok outgoing_amounts.

Definition sum_incoming (amounts : list Amount) : outcome MakerError Amount :=
  try_fold (fun total amount =>
      ok_or (checked_add 64 total amount) (ME_General "Taproot contract amounts overflow")) 0 amounts.

(** One outgoing contract with what the answer says about it. *)
Record TapLeg := {
  leg_pubkey : PublicKey;
  leg_internal_key : XOnlyPublicKey;
  leg_tap_tweak : Scalar;
  leg_timelock_script : Script;
  leg_contract_tx : Transaction;
  leg_outpoint : OutPoint;
  leg_amount : Amount;
  leg_coin : OutgoingSwapCoin;
}.

Section taproot.
Context {lib : BitcoinLib} {tap : TaprootLib} {W : Type} {maker : Maker W}.

Definition check_sweep_margin (timelock : Z) : handler W () :=
  current_height ← observe EvHeight get_current_height;
  lift (reject (saturating_add 32 timelock REFUND_LOCKTIME_STEP
                <? saturating_add 32 current_height MIN_CONTRACT_REACTION_TIME)
    (ME_General "Taproot contract data arrived too late to sweep safely")).

(** One incoming coin, once its contract is confirmed. *)
Definition incoming_taproot_coin (data : TaprootContractData) (tweakable_privkey hashlock_privkey : SecretKey)
    (j : nat) : outcome MakerError IncomingSwapCoin :=
  contract_tx ← expect (tcd_contract_txs data !! j);
  amount ← expect (tcd_amounts data !! j);
  let other_pubkey := default (tcd_next_hop_point data) (tcd_pubkeys data !! j) in
  timelock_script ← expect (tcd_timelock_scripts data !! j);
  let c := isc_new_taproot hashlock_privkey (tcd_hashlock_script data) timelock_script contract_tx amount in
  internal_key ← expect (tcd_internal_keys data !! j);
  tap_tweak ← maker_protocol (tap_tweak_scalar data j);
  Ok {| c with
        isc_swap_id := Some (tcd_id data);
        isc_my_privkey := Some tweakable_privkey;
        isc_my_pubkey := Some (pubkey_of tweakable_privkey);
        isc_other_pubkey := Some other_pubkey;
        isc_internal_key := Some internal_key;
        isc_tap_tweak := Some tap_tweak |}.

Definition accept_incoming (data : TaprootContractData) (tweakable_privkey hashlock_privkey : SecretKey)
    (timelock required_confirms : Z) (j : nat) : handler W IncomingSwapCoin :=
  tx ← lift (expect (tcd_contract_txs data !! j));
  _ ← perform (EvConfirmed (compute_txid tx) required_confirms)
        (wait_for_tx_on_chain (compute_txid tx) required_confirms);
  _ ← check_sweep_margin timelock;
  lift (incoming_taproot_coin data tweakable_privkey hashlock_privkey j).

(** Builds and funds one outgoing contract. *)
Definition make_leg (data : TaprootContractData) (tweakable_privkey : SecretKey) (timelock : Z)
    (hashlock_script : Script) (base_excluded : list OutPoint) (legs : list TapLeg) (outgoing_amount : Amount)
    : handler W (list TapLeg) :=
  outgoing_nonce ← ask random_secret_key;
  outgoing_privkey ← lift (ok_or (secret_add_tweak tweakable_privkey outgoing_nonce)
                             (ME_General "Outgoing key derivation failed"));
  let outgoing_pubkey := pubkey_of outgoing_privkey in
  timelock_privkey ← ask random_secret_key;
  let timelock_xonly := x_only_public_key (point_from_secret_key timelock_privkey) in
  locktime ← lift (ok_or (lock_time_from_height timelock) (ME_General "Invalid locktime height"));
  let timelock_script := create_timelock_script locktime timelock_xonly in
  b ← lift (ok_or (add_leaf 1 hashlock_script []) (ME_General "Failed to add hashlock leaf: {:?}"));
  b ← lift (ok_or (add_leaf 1 timelock_script b) (ME_General "Failed to add timelock leaf: {:?}"));
  let '(key0, key1) := sort2 inner outgoing_pubkey (tcd_next_hop_point data) in
  internal_key ← lift (map_err (fun _ => ME_General "Failed to create aggregated pubkey: {:?}")
                         (get_aggregated_pubkey_compat (inner key0) (inner key1)));
  tap_info ← lift (ok_or (finalize internal_key b) (ME_General "Failed to finalize taproot: {:?}"));
  let taproot_address := new_p2tr_tweaked (tsi_output_key tap_info) in
  let spent_inputs := flat_map (fun leg => map previous_output (input (leg_contract_tx leg))) legs in
  '(contract_tx, output_pos) ← perform (EvCreateFunding outgoing_amount taproot_address)
    (create_funding_transaction outgoing_amount taproot_address (Some (base_excluded ++ spent_inputs)));
  funded ← lift (expect (output contract_tx !! Z.to_nat output_pos));
  let c := osc_new_taproot timelock_privkey hashlock_script timelock_script contract_tx (value funded) in
  let c := osc_set_taproot_params {| c with osc_swap_id := Some (tcd_id data) |} outgoing_privkey outgoing_pubkey
             (tcd_next_hop_point data) internal_key (tsi_tap_tweak tap_info) in
  mret (legs ++
    [{| leg_pubkey := outgoing_pubkey; leg_internal_key := internal_key; leg_tap_tweak := tsi_tap_tweak tap_info;
        leg_timelock_script := timelock_script; leg_contract_tx := contract_tx;
        leg_outpoint := {| op_txid := compute_txid contract_tx; op_vout := output_pos |};
        leg_amount := value funded; leg_coin := c |}]).

(** The watch on one outgoing contract output. *)
Definition watch_leg (p : OutgoingSwapCoin * OutPoint) : handler W () :=
  let '(outgoing, contract_outpoint) := p in
  o ← lift (expect (output (osc_contract_tx outgoing) !! Z.to_nat (op_vout contract_outpoint)));
  perform (EvRegisterWatch contract_outpoint (script_pubkey o))
    (register_watch_outpoint contract_outpoint (script_pubkey o)).

(** The first half: the checks and the incoming coins. *)
Definition accept_taproot_contract (data : TaprootContractData)
    : handler W (SecretKey * PublicKey * Amount * list IncomingSwapCoin) :=
  _ ← check (expect_phase [AwaitingContractData]);
  _ ← check (check_swap_id (tcd_id data));
  '(tweakable_privkey, tweakable_pubkey, _) ← ask get_tweakable_keypair;
  hashlock_nonce ← lift (ok_or (tcd_hashlock_nonce data)
                           (ME_General "Missing hashlock_nonce in TaprootContractData"));
  hashlock_privkey ← lift (ok_or (secret_add_tweak tweakable_privkey hashlock_nonce)
                             (ME_General "Hashlock key derivation failed"));
  _ ← lift (map_err (fun _ => ME_General "Hashlock pubkey mismatch: {:?}")
        (check_taproot_hashlock_has_pubkey (tcd_hashlock_script data) tweakable_pubkey hashlock_nonce));
  timelock ← conn cs_timelock;
  _ ← lift (verify_taproot_contract_data data tweakable_pubkey timelock);
  tx_count ← conn cs_tx_count;
  _ ← lift (reject (negb (zlen (tcd_contract_txs data) =? tx_count))
        (ME_General "Taproot contract count does not match the negotiated tx count"));
  total_incoming ← lift (sum_incoming (tcd_amounts data));
  swap_amount ← conn cs_swap_amount;
  _ ← lift (reject (negb (incoming_within_swap_amount total_incoming swap_amount))
        (ME_General "Taproot incoming amount exceeds the negotiated swap amount"));
  _ ← check_sweep_margin timelock;
  required_confirms ← gets (fun s => mcf_required_confirms (get_config (hs_world s)));
  incoming_swapcoins ← st_map (accept_incoming data tweakable_privkey hashlock_privkey timelock required_confirms)
                         (seq 0 (length (tcd_contract_txs data)));
  mret (tweakable_privkey, tweakable_pubkey, total_incoming, incoming_swapcoins).

(** The second half: the fee and the outgoing contracts. *)
Definition fund_next_hop (data : TaprootContractData) (tweakable_privkey : SecretKey) (total_incoming : Amount)
    : handler W (list TapLeg * Script) :=
  refund_locktime_offset ← conn cs_refund_locktime_offset;
  swap_fee ← gets (fun s => calculate_swap_fee_op total_incoming refund_locktime_offset (hs_world s));
  _ ← set_conn (fun c => {| c with cs_service_fee_sats := swap_fee |});
  per_tx ← lift estimate_funding_tx_fee_sats;
  let mining_fee := wrap 64 (per_tx * zlen (tcd_contract_txs data)) in
  fee ← lift (amount_add swap_fee mining_fee);
  outgoing_total ← lift (ok_or (checked_sub total_incoming fee) (ME_General "Fee exceeds incoming amount"));
  outgoing_amounts ← lift (split_outgoing fee total_incoming outgoing_total (tcd_amounts data));
  hash ← lift (map_err (fun _ => ME_General "Invalid hashlock script: {:?}")
                 (extract_hash_from_hashlock (tcd_hashlock_script data)));
  next_hop_hashlock_pubkey ← lift (match tcd_next_hashlock_nonce data with
    | Some nonce => map_err (fun _ => ME_General "Next hop key derivation: {:?}")
                      (calculate_pubkey_from_nonce (tcd_next_hop_point data) nonce)
    | None => Ok (tcd_next_hop_point data)
    end);
  let next_hop_xonly := x_only_public_key (inner next_hop_hashlock_pubkey) in
  let hashlock_script := create_hashlock_script hash next_hop_xonly in
  base_excluded ← ask (collect_excluded_utxos (tcd_id data));
  timelock ← conn cs_timelock;
  legs ← st_fold (make_leg data tweakable_privkey timelock hashlock_script base_excluded) [] outgoing_amounts;
  mret (legs, hashlock_script).

(** What happens before anything is broadcast. *)
Definition arm_legs (incoming_swapcoins : list IncomingSwapCoin) (legs : list TapLeg) : handler W () :=
  let outgoing_swapcoins := map leg_coin legs in
  let reserved := map leg_outpoint legs in
  _ ← set_conn (fun c => {| c with cs_reserve_utxo := reserved;
                            cs_incoming_swapcoins := incoming_swapcoins;
                            cs_outgoing_swapcoins := outgoing_swapcoins |});
  _ ← st_for_each watch_leg (zip outgoing_swapcoins reserved);
  _ ← ensure_watchtower_alive;
  save_coins incoming_swapcoins outgoing_swapcoins.

(** From the broadcast on. *)
Definition send_legs (id : string) (legs : list TapLeg) (answer : MakerToTakerMessage)
    : handler W (option MakerToTakerMessage) :=
  _ ← st_for_each broadcast_funding (map (fun leg => osc_contract_tx (leg_coin leg)) legs);
  _ ← set_conn (fun c => {| c with cs_funding_broadcast := true; cs_phase := AwaitingPrivateKeyHandover |});
  _ ← store id false;
  mret (Some answer).

Definition process_taproot_contract (data : TaprootContractData) : handler W (option MakerToTakerMessage) :=
  '(tweakable_privkey, tweakable_pubkey, total_incoming, incoming_swapcoins) ← accept_taproot_contract data;
  '(legs, hashlock_script) ← fund_next_hop data tweakable_privkey total_incoming;
  _ ← arm_legs incoming_swapcoins legs;
  send_legs (tcd_id data) legs (MT_TaprootContractData
    {| tcd_id := tcd_id data;
       tcd_pubkeys := map leg_pubkey legs;
       tcd_next_hop_point := tweakable_pubkey;
       tcd_internal_keys := map leg_internal_key legs;
       tcd_tap_tweaks := map leg_tap_tweak legs;
       tcd_hashlock_script := hashlock_script;
       tcd_timelock_scripts := map leg_timelock_script legs;
       tcd_contract_txs := map leg_contract_tx legs;
       tcd_amounts := map leg_amount legs;
       tcd_hashlock_nonce := None;
       tcd_next_hashlock_nonce := None |}).

Definition process_taproot_handover (handover : PrivateKeyHandover) : handler W (option MakerToTakerMessage) :=
  _ ← check (expect_phase [AwaitingPrivateKeyHandover]);
  _ ← check (check_swap_id (pkh_id handover));
  inc ← conn cs_incoming_swapcoins;
  _ ← lift (verify_taproot_privkey_handover (pkh_privkeys handover) inc);
  out ← conn cs_outgoing_swapcoins;
  _ ← lift (reject (bool_decide (out = [])) (ME_General "No outgoing swapcoin found"));
  privkeys ← lift (try_map outgoing_privkey out);
  let inc := store_privkeys (pkh_privkeys handover) inc in
  _ ← set_conn (fun c => {| c with cs_incoming_swapcoins := inc |});
  _ ← st_for_each (fun c => perform (EvSaveIncoming c) (save_incoming_swapcoin c)) inc;
  _ ← set_phase Completed;
  mret (Some (MT_TaprootPrivateKeyHandover {| pkh_id := pkh_id handover; pkh_privkeys := privkeys |})).

Definition handle_taproot_message (message : TaprootTakerMessage) : handler W (option MakerToTakerMessage) :=
  match message with
  | TTM_ContractData data => process_taproot_contract data
  | TTM_PrivateKeyHandover handover => process_taproot_handover handover
  end.
End taproot.

(** ** The connection invariant *)
Section invariant.
Context {lib : BitcoinLib} {tap : TaprootLib} {W : Type} {maker : Maker W}.

(** A part that only checks and reads contributes what its success says. *)
Lemma keeps_guarded {A B} (P R Q : ConnectionState -> Prop) (m : handler W A) (f : A -> handler W B) :
  (forall st, P st -> Q st) -> (forall s, hs_conn (m s).2 = hs_conn s) -> emits (fun e => ~ is_store e) m ->
  (forall s a s', m s = (Ok a, s') -> P (hs_conn s) -> R (hs_conn s)) ->
  (forall a, keeps R Q (f a)) -> keeps P Q (m ≫= f).
Proof.
  intros HPQ Hc He HR Hf s Hs. pose proof (keeps_frame Q m Hc He s (HPQ _ Hs)) as [HQ (e1 & Ht1 & F1)].
  specialize (Hc s). unfold mbind, stateful_bind. destruct (m s) as [[a|e|] s1] eqn:E; cbn [snd] in *;
    [|by split; [|exists e1]..].
  apply HR in E; [|done]. rewrite <- Hc in E. destruct (Hf a s1 E) as [H2 (e2 & Ht2 & F2)]. split; [done|].
  exists (e1 ++ e2). rewrite Ht2, Ht1, app_assoc. split; [done|]. by apply Forall_app.
Qed.

(** In the taproot protocol, before the broadcast. *)
Definition early_taproot (st : ConnectionState) : Prop := early st /\ cs_protocol st = Taproot.

Lemma early_taproot_inv st : early_taproot st -> conn_inv st.
Proof. intros [H _]. by apply early_inv. Qed.

Lemma check_sweep_margin_conn tl s : hs_conn (check_sweep_margin (W := W) tl s).2 = hs_conn s.
Proof. unfold check_sweep_margin. conn_frame. Qed.

Lemma accept_conn data s : hs_conn (accept_taproot_contract (W := W) data s).2 = hs_conn s.
Proof.
  revert s. unfold accept_taproot_contract, accept_incoming, check_sweep_margin. conn_frame.
Qed.
(** Accepting the contract data only waits for confirmations and reads heights. *)
Definition is_chain_reading (e : Event) : Prop :=
  match e with EvConfirmed _ _ | EvHeight _ => True | _ => False end.
Lemma accept_emits data : emits is_chain_reading (accept_taproot_contract (W := W) data).
Proof. unfold accept_taproot_contract, accept_incoming, check_sweep_margin. emits_only; done. Qed.
Lemma accept_no_store data : emits (fun e => ~ is_store e) (accept_taproot_contract (W := W) data).
Proof. eapply emits_weaken; [|apply accept_emits]. by intros [] H1 H2. Qed.
Lemma accept_no_broadcast data : emits (fun e => ~ is_broadcast e) (accept_taproot_contract (W := W) data).
Proof. eapply emits_weaken; [|apply accept_emits]. by intros [] H1 H2. Qed.

Lemma accept_early data (s s' : HandlerState W) a :
  accept_taproot_contract data s = (Ok a, s') -> early (hs_conn s).
Proof.
  unfold accept_taproot_contract. intros Hrun.
  apply st_bind_Ok in Hrun as ([] & s1 & [Hp _]%check_Ok & _). by apply expect_early in Hp; [|set_solver..].
Qed.

Lemma fold_conn {A B} (f : B -> A -> handler W B) xs :
  (forall b x s, hs_conn (f b x s).2 = hs_conn s) ->
  forall b s, hs_conn (st_fold f b xs s).2 = hs_conn s.
Proof.
  intros Hf. induction xs as [|x xs IH]; intros b s; cbn [st_fold]; [done|].
  apply bind_conn; [apply Hf|]. intros a s1. apply IH.
Qed.
Lemma emits_fold {A B} P (f : B -> A -> handler W B) xs :
  (forall b x, emits P (f b x)) -> forall b, emits P (st_fold f b xs).
Proof.
  intros Hf. induction xs as [|x xs IH]; intros b; cbn [st_fold]; [apply emits_ret|].
  apply emits_bind; [apply Hf|]. intros a. apply IH.
Qed.

Lemma make_leg_conn data k tl hs ex legs a s : hs_conn (make_leg (W := W) data k tl hs ex legs a s).2 = hs_conn s.
Proof. revert s. unfold make_leg. conn_frame. Qed.
Lemma make_leg_emits data k tl hs ex legs a :
  emits (fun e => exists am spk, e = EvCreateFunding am spk) (make_leg (W := W) data k tl hs ex legs a).
Proof. unfold make_leg. emits_only. eauto. Qed.

Lemma fund_emits data k total :
  emits (fun e => exists am spk, e = EvCreateFunding am spk) (fund_next_hop (W := W) data k total).
Proof.
  unfold fund_next_hop.
  repeat first [apply emits_fold; intros; apply make_leg_emits | progress emits_only].
Qed.

Lemma fund_keeps data k total : keeps early_taproot early_taproot (fund_next_hop (W := W) data k total).
Proof.
  unfold fund_next_hop.
  repeat first
    [ apply keeps_frame;
      [ intros s; apply fold_conn; intros; apply make_leg_conn
      | apply emits_fold; intros; eapply emits_weaken; [|apply make_leg_emits]; by intros e (? & ? & ->) [] ]
    | apply keeps_set_conn; solve [intros ?; unfold early_taproot, early; cbn; done]
    | apply keeps_bind; [done| |intros ?]
    | solve [keep_frame]
    | case_match ].
Qed.

Lemma arm_legs_keeps inc legs : keeps early_taproot early_taproot (arm_legs (W := W) inc legs).
Proof.
  unfold arm_legs, watch_leg, ensure_watchtower_alive, save_coins. cbv zeta.
  apply keeps_bind; [done|apply keeps_set_conn; by intros ? ?|intros _]. keep_frame.
Qed.

Lemma taproot_contract_keeps data :
  keeps (fun st => conn_inv st /\ cs_protocol st = Taproot) conn_inv (process_taproot_contract (W := W) data).
Proof.
  pose proof early_taproot_inv as Hei. unfold process_taproot_contract.
  apply keeps_guarded with (R := early_taproot); [by intros st [H _]|apply accept_conn|apply accept_no_store| |].
  { intros s a s' Hrun [_ Hp]. split; [by eapply accept_early|done]. }
  intros [[[k pk] total] inc].
  apply keeps_seq with (R := early_taproot); [done|apply fund_keeps|]. intros [legs hs].
  apply keeps_seq with (R := early_taproot); [done|apply arm_legs_keeps|intros _]. unfold send_legs.
  apply keeps_seq with (R := early_taproot); [done| |intros _].
  { apply keeps_frame; [conn_frame|]. apply emits_for_each. apply broadcast_funding_no_store. }
  apply keeps_seq with (R := conn_inv); [done| |intros _].
  { apply keeps_set_conn. intros st [_ Hp] _. split; [done|by left]. }
  apply keeps_seq with (R := conn_inv); [done|apply keeps_store|intros _]. keep_frame.
Qed.

Lemma taproot_handover_keeps h : keeps conn_inv conn_inv (process_taproot_handover (W := W) h).
Proof.
  assert (forall st, sent st -> conn_inv st) as Hsi by (intros st H _; exact H).
  apply keeps_check with (R := sent); [done| |].
  { intros st Hinv Hp%expect_phase_Ok. apply Hinv. set_solver. }
  intros _. do 6 (apply keeps_seq with (R := sent); [done|keep_frame|intros ?]). cbv zeta.
  apply keeps_seq with (R := sent); [done|by apply keeps_set_conn|intros _].
  apply keeps_seq with (R := sent); [done|keep_frame|intros _].
  apply keeps_seq with (R := sent); [done|by apply keeps_set_conn|intros _].
  by apply keeps_weaken with (P := sent) (Q := sent); [| |keep_frame].
Qed.
End invariant.

(** ** The fee is shared exactly *)
Lemma last_max_spec xs : forall i best,
  (forall j b, best = Some (j, b) -> (j < i)%nat) ->
  match last_max_from i best xs with
  | Some (j, m) =>
      Forall (fun x => x <= m) xs /\ (forall k b, best = Some (k, b) -> b <= m) /\
      (best = Some (j, m) \/ exists k, j = (i + k)%nat /\ xs !! k = Some m)
  | None => best = None /\ xs = []
  end.
Proof.
  induction xs as [|x xs IH]; intros i best Hb; cbn [last_max_from].
  { destruct best as [[j b]|]; [|done]. split; [constructor|]. split; [by intros k b' [= <- <-]|by left]. }
  set (best' := match best with Some (_, b) => if b <=? x then Some (i, x) else best | None => Some (i, x) end).
  assert (exists j b, best' = Some (j, b) /\ (j < S i)%nat /\ x <= b /\ (forall k c, best = Some (k, c) -> c <= b) /\
            ((j = i /\ b = x) \/ best = Some (j, b))) as (j & b & Hj & Hlt & Hx & Hbb & Hor).
  { subst best'. destruct best as [[k c]|]; [destruct (Z.leb_spec c x)|].
    - exists i, x. split; [done|]. split; [lia|]. split; [lia|]. split; [by intros ? ? [= <- <-]|by left].
    - exists k, c. split; [done|]. specialize (Hb k c eq_refl). split; [lia|]. split; [lia|].
      split; [by intros ? ? [= <- <-]|by right].
    - exists i, x. split; [done|]. split; [lia|]. split; [lia|]. split; [done|by left]. }
  specialize (IH (S i) best'). rewrite Hj in IH |- *.
  destruct (last_max_from (S i) (Some (j, b)) xs) as [[j' m]|].
  - destruct IH as (Hall & Hm & Hc); [by intros ? ? [= <- <-]|]. specialize (Hm j b eq_refl).
    split; [constructor; [lia|done]|]. split; [intros k c Hk; specialize (Hbb k c Hk); lia|].
    destruct Hc as [[= <- <-]|(k & -> & Hk)].
    + destruct Hor as [[-> ->]|Hor]; [right; exists 0%nat; split; [lia|done]|by left].
    + right. exists (S k). split; [lia|done].
  - destruct IH as [IH _]; [by intros ? ? [= <- <-]|done].
Qed.

Lemma max_index_spec xs :
  xs <> [] -> exists m, xs !! max_index xs = Some m /\ Forall (fun x => x <= m) xs.
Proof.
  intros Hne. unfold max_index. pose proof (last_max_spec xs 0 None) as H.
  destruct (last_max_from 0 None xs) as [[j m]|].
  - destruct H as (Hall & _ & Hc); [done|]. exists m. split; [|done].
    destruct Hc as [|(k & -> & Hk)]; [done|]. by rewrite Nat.add_0_l.
  - destruct H as [_ ->]; [done|]. done.
Qed.

Lemma sum_insert (xs : list Z) i x y :
  xs !! i = Some x -> sum_amounts (<[i := y]> xs) = sum_amounts xs - x + y.
Proof.
  revert i. induction xs as [|z xs IH]; intros [|i] Hi; try done.
  - injection Hi as ->. unfold sum_amounts. cbn. lia.
  - specialize (IH i Hi). change (sum_amounts (<[S i := y]> (z :: xs))) with (z + sum_amounts (<[i := y]> xs)).
    change (sum_amounts (z :: xs)) with (z + sum_amounts xs). lia.
Qed.

Lemma sum_bound (xs : list Z) m : Forall (fun x => x <= m) xs -> sum_amounts xs <= zlen xs * m.
Proof.
  unfold sum_amounts. induction 1 as [|x xs Hx _ IH]; cbn [foldr]; [done|]. rewrite zlen_cons. lia.
Qed.

Lemma sum_nonneg (xs : list Z) : Forall (fun x => 0 <= x) xs -> 0 <= sum_amounts xs.
Proof. unfold sum_amounts. induction 1; cbn [foldr]; lia. Qed.

Lemma wrapping_sum_eq xs :
  Forall (fun x => 0 <= x) xs -> sum_amounts xs < 2 ^ 64 -> wrapping_sum xs = sum_amounts xs.
Proof.
  intros Hall. unfold wrapping_sum.
  enough (forall acc, 0 <= acc -> acc + sum_amounts xs < 2 ^ 64 ->
            fold_left (fun acc x => wrap 64 (acc + x)) xs acc = acc + sum_amounts xs) as H
    by (intros Hs; apply (H 0); lia).
  induction Hall as [|x xs Hx Hxs IH]; intros acc Ha Hs; cbn in *; [unfold sum_amounts; cbn; lia|].
  assert (0 <= sum_amounts xs) by (by apply sum_nonneg). unfold sum_amounts in *. cbn in Hs.
  rewrite wrap_small by (split; lia). rewrite IH by lia. lia.
Qed.

(** Every share is rounded down: the parts that are left over add up to less
    than one unit per contract. *)
Definition after_fee (fee total amt : Z) : Z := amt - fee * amt / total.

Lemma after_fee_range fee total amt :
  0 < total -> 0 <= fee <= total -> 0 <= amt -> 0 <= after_fee fee total amt <= amt.
Proof.
  intros Ht Hf Ha. unfold after_fee. assert (0 <= fee * amt / total) by (apply Z.div_pos; nia).
  assert (fee * amt / total <= amt); [|lia]. apply Z.div_le_upper_bound; nia.
Qed.

Lemma shares_sum fee total amounts :
  0 < total -> 0 <= fee -> Forall (fun a => 0 <= a) amounts ->
  let kept := sum_amounts (map (after_fee fee total) amounts) in
  total * (sum_amounts amounts - kept) <= fee * sum_amounts amounts /\
  fee * sum_amounts amounts <= total * (sum_amounts amounts - kept) + zlen amounts * (total - 1).
Proof.
  intros Ht Hf Hall. cbv zeta. unfold sum_amounts.
  induction Hall as [|a amounts Ha _ IH]; cbn [foldr map]; [unfold zlen; cbn; lia|]. rewrite zlen_cons.
  unfold after_fee at 1 3. pose proof (Z.div_mod (fee * a) total ltac:(lia)).
  pose proof (Z.mod_pos_bound (fee * a) total Ht). nia.
Qed.

Lemma outgoing_after_fee_Ok fee total amounts :
  0 < total -> 0 <= fee <= total -> Forall (fun a => is_u64 a) amounts ->
  outgoing_after_fee fee total amounts = Ok (map (after_fee fee total) amounts).
Proof.
  intros Ht Hf Hall. unfold outgoing_after_fee. apply try_map_Ok.
  induction Hall as [|a amounts [Ha Ha'] _ IH]; cbn [map]; [constructor|]. constructor; [|done].
  unfold fee_share. destruct (Z.eqb_spec total 0); [lia|]. cbn.
  pose proof (after_fee_range fee total a Ht Hf Ha). unfold after_fee in *.
  assert (0 <= fee * a / total) by (apply Z.div_pos; nia).
  rewrite !wrap_small; [done|split; lia|]. rewrite wrap_small; split; lia.
Qed.

Lemma reduce_one (outs amounts : list Z) i m y :
  Forall2 (fun out amt => 0 <= out <= amt) outs amounts -> outs !! i = Some m -> 0 <= y <= m ->
  Forall2 (fun out amt => 0 <= out <= amt) (<[i := y]> outs) amounts.
Proof.
  intros Hk. revert i. induction Hk as [|x a xs ys Hx Hk IH]; intros [|i] Hi Hy; cbn in *; try done.
  - injection Hi as ->. constructor; [lia|done].
  - constructor; [done|]. by apply IH.
Qed.

(** the maker's fee is shared over the outgoing contracts without loss:
    when what is left after the fee is at least the square of the number of
    contracts less one, there is an outgoing amount for every incoming one, none
    is larger than it, and together they are exactly the incoming total less the
    fee. *)
Lemma taproot_fee_is_shared_exactly (fee total : Amount) (amounts : list Amount)
    (Hamounts : Forall (fun a => is_u64 a) amounts) (Htotal : total = sum_amounts amounts)
    (Hwidth : total < 2 ^ 64) (Hpos : 0 < total) (Hfee : 0 <= fee <= total)
    (Hroom : (zlen amounts - 1) * (zlen amounts - 1) <= total - fee) :
  exists outs, split_outgoing fee total (total - fee) amounts = Ok outs /\
    sum_amounts outs = total - fee /\
    Forall2 (fun out amt => 0 <= out <= amt) outs amounts.
Proof.
  set (kept := map (after_fee fee total) amounts).
  assert (Forall (fun a => 0 <= a) amounts) as Hnn by (eapply Forall_impl; [exact Hamounts|]; by intros a []).
  assert (Forall2 (fun out amt => 0 <= out <= amt) kept amounts) as Hk.
  { subst kept. clear - Hnn Hpos Hfee. induction Hnn; cbn [map]; constructor; [by apply after_fee_range|done]. }
  assert (Forall (fun x => 0 <= x) kept) as Hkn
    by (clear - Hk; induction Hk; constructor; [lia|done]).
  destruct (shares_sum fee total amounts Hpos (proj1 Hfee) Hnn) as [Hup Hlow]. fold kept in Hup, Hlow.
  rewrite <- Htotal in Hup, Hlow.
  set (r := sum_amounts kept - (total - fee)).
  assert (0 <= r) as Hr0 by (subst r; nia).
  assert (r * total <= zlen amounts * (total - 1)) as Hr1 by (subst r; nia).
  assert (amounts <> []) as Hne by (intros ->; cbn in Htotal; lia).
  assert (1 <= zlen amounts) as Hlen by (destruct amounts; [done|]; rewrite zlen_cons; pose proof (zlen_nonneg amounts); lia).
  assert (r <= zlen amounts - 1) as Hr2 by nia.
  assert (sum_amounts kept <= total) as Hsk.
  { rewrite Htotal. clear - Hk. unfold sum_amounts. induction Hk; cbn [foldr]; lia. }
  unfold split_outgoing. rewrite outgoing_after_fee_Ok by done. fold kept. cbn [mbind outcome_bind].
  rewrite wrapping_sum_eq by (done || lia). fold r. rewrite (wrap_small 64 r) by (split; lia).
  destruct (Z.ltb_spec 0 r) as [Hr|Hr].
  2: { exists kept. split; [done|]. split; [subst r; lia|done]. }
  assert (kept <> []) as Hkne by (subst kept; by destruct amounts).
  destruct (max_index_spec kept Hkne) as (m & Hm & Hmax). rewrite Hm. cbn [expect mbind outcome_bind].
  assert (r <= m) as Hrm.
  { apply sum_bound in Hmax. assert (zlen kept = zlen amounts) as Hkl by (subst kept; unfold zlen; by rewrite length_map).
    rewrite Hkl in Hmax. subst r. nia. }
  unfold amount_sub, checked_sub. destruct (Z.leb_spec r m); [|lia]. cbn [expect mbind outcome_bind].
  eexists. split; [done|]. split; [rewrite (sum_insert _ _ m) by done; subst r; lia|].
  by eapply reduce_one; [exact Hk|exact Hm|lia].
Qed.

(** Three equal contracts that exceed the fee by one satoshi make the
    sharing of the fee underflow: every contract keeps one satoshi after its
    share, the remainder is two, and subtracting it from the largest panics. *)
Lemma fee_sharing_can_panic (a : Amount) (Ha : 0 < a) (Hwidth : 3 * a < 2 ^ 64) :
  split_outgoing (3 * a - 1) (3 * a) 1 [a; a; a] = Panic.
Proof.
  unfold split_outgoing. rewrite outgoing_after_fee_Ok; [|lia|lia|repeat constructor; lia].
  assert (after_fee (3 * a - 1) (3 * a) a = 1) as Hk.
  { unfold after_fee. replace ((3 * a - 1) * a) with (2 * a + (a - 1) * (3 * a)) by ring.
    rewrite Z.div_add by lia. rewrite Z.div_small by lia. lia. }
  cbn [map mbind outcome_bind]. rewrite Hk. reflexivity.
Qed.

(** ** Order of effects *)

(** What must stand in the trace before a contract goes out: the contract
    output of every leg is watched, the watchtower answered that it is alive, all
    coins are saved. *)
Definition tap_protected (inc : list IncomingSwapCoin) (legs : list TapLeg) (tr : list (Event * bool)) : Prop :=
  (forall leg, leg ∈ legs -> exists o,
     output (osc_contract_tx (leg_coin leg)) !! Z.to_nat (op_vout (leg_outpoint leg)) = Some o /\
     (EvRegisterWatch (leg_outpoint leg) (script_pubkey o), true) ∈ tr) /\
  (EvWatchtowerAlive true, true) ∈ tr /\
  (forall c, c ∈ inc -> (EvSaveIncoming c, true) ∈ tr) /\
  (forall leg, leg ∈ legs -> (EvSaveOutgoing (leg_coin leg), true) ∈ tr).

(** An incoming coin that is safe to build on: its contract transaction, the
    one at its place in the message, was confirmed as often as the maker asks
    for, and the height read right after that leaves the time to sweep it before
    the taker's refund opens. *)
Definition confirmed_in_time `{BitcoinLib} (data : TaprootContractData) (timelock confirms : Z)
    (tr : list (Event * bool)) (j : nat) (c : IncomingSwapCoin) : Prop :=
  exists height before after,
    tcd_contract_txs data !! j = Some (isc_contract_tx c) /\
    tcd_amounts data !! j = Some (isc_funding_amount c) /\
    isc_swap_id c = Some (tcd_id data) /\
    tr = before ++ [(EvConfirmed (compute_txid (isc_contract_tx c)) confirms, true); (EvHeight height, true)] ++ after /\
    saturating_add 32 height MIN_CONTRACT_REACTION_TIME <= saturating_add 32 timelock REFUND_LOCKTIME_STEP.

(** An outgoing coin whose contract output [op] is watched and which is saved. *)
Definition armed_outgoing `{BitcoinLib} (tr : list (Event * bool)) (c : OutgoingSwapCoin) (op : OutPoint) : Prop :=
  op_txid op = compute_txid (osc_contract_tx c) /\
  exists o, output (osc_contract_tx c) !! Z.to_nat (op_vout op) = Some o /\
    value o = osc_funding_amount c /\
    (EvRegisterWatch op (script_pubkey o), true) ∈ tr /\ (EvSaveOutgoing c, true) ∈ tr.

Section order.
Context {lib : BitcoinLib} {tap : TaprootLib} {W : Type} {maker : Maker W}.

Lemma watch_legs_Ok legs : forall (s s' : HandlerState W),
  st_for_each watch_leg (zip (map leg_coin legs) (map leg_outpoint legs)) s = (Ok (), s') ->
  hs_conn s' = hs_conn s /\ exists evs, hs_trace s' = hs_trace s ++ evs /\
    forall leg, leg ∈ legs -> exists o,
      output (osc_contract_tx (leg_coin leg)) !! Z.to_nat (op_vout (leg_outpoint leg)) = Some o /\
      (EvRegisterWatch (leg_outpoint leg) (script_pubkey o), true) ∈ evs.
Proof.
  induction legs as [|leg legs IH]; intros s s'; cbn [map zip zip_with st_for_each].
  { intros [= <-]. split; [done|]. exists []. rewrite app_nil_r. split; [done|]. intros leg H. by apply elem_of_nil in H. }
  rewrite st_bind_Ok. intros ([] & s1 & H1 & H2). cbn [watch_leg] in H1. run_ok H1.
  match goal with H : expect _ = Ok _ |- _ => apply expect_Ok in H end.
  apply IH in H2 as (Hc & evs & Ht & Hall). cbn [hs_conn hs_trace] in *. split; [done|].
  eexists. split; [rewrite Ht, <- app_assoc; done|]. intros l [->|Hl]%elem_of_cons.
  - eexists. split; [eassumption|]. set_solver.
  - destruct (Hall l Hl) as (o & Ho & Hin). exists o. split; [done|]. set_solver.
Qed.

Lemma arm_legs_emits inc legs : emits (fun e => ~ is_broadcast e) (arm_legs (W := W) inc legs).
Proof. unfold arm_legs, watch_leg, ensure_watchtower_alive, save_coins. emits_only; by intros []. Qed.

Lemma arm_legs_Ok inc legs (s s' : HandlerState W) :
  arm_legs inc legs s = (Ok (), s') ->
  hs_conn s' = {| (hs_conn s) with cs_reserve_utxo := map leg_outpoint legs; cs_incoming_swapcoins := inc;
                  cs_outgoing_swapcoins := map leg_coin legs |} /\
  exists evs, hs_trace s' = hs_trace s ++ evs /\ tap_protected inc legs evs.
Proof.
  unfold arm_legs. cbv zeta. intros H. run_ok H.
  match goal with H : st_for_each watch_leg _ _ = _ |- _ => apply watch_legs_Ok in H as (Hc1 & e1 & Ht1 & Hw) end.
  match goal with H : ensure_watchtower_alive _ = _ |- _ => apply ensure_watchtower_alive_Ok in H as [Hc2 Ht2] end.
  apply save_coins_Ok in H as [Hc3 Ht3]. cbn [hs_conn hs_trace] in *. split; [by rewrite Hc3, Hc2, Hc1|].
  eexists. split; [rewrite Ht3, Ht2, Ht1, <- !app_assoc; done|].
  split; [|split; [set_solver|split]].
  - intros leg Hl. destruct (Hw leg Hl) as (o & Ho & Hin). exists o. split; [done|]. set_solver.
  - intros c Hc. rewrite !elem_of_app. right. right. left. apply list_elem_of_fmap. eauto.
  - intros leg Hl. rewrite !elem_of_app. right. right. right.
    apply list_elem_of_fmap. exists (leg_coin leg). split; [done|]. by apply list_elem_of_fmap_2.
Qed.

Lemma tap_protected_mono inc legs tr tr' : tap_protected inc legs tr -> tr ⊆ tr' -> tap_protected inc legs tr'.
Proof.
  intros (H1 & H2 & H3 & H4) Hs. split; [|split; [by apply Hs|split; intros; apply Hs; auto]].
  intros leg Hl. destruct (H1 leg Hl) as (o & Ho & Hin). exists o. split; [done|by apply Hs].
Qed.

Lemma send_legs_emits id legs answer (s s' : HandlerState W) r :
  send_legs id legs answer s = (r, s') ->
  exists evs, hs_trace s' = hs_trace s ++ evs /\
    forall tx b, (EvBroadcast tx, b) ∈ evs -> tx ∈ map (fun leg => osc_contract_tx (leg_coin leg)) legs.
Proof.
  set (txs := map (fun leg => osc_contract_tx (leg_coin leg)) legs).
  set (P e := (exists tx, e = EvBroadcast tx /\ tx ∈ txs) \/ ~ is_broadcast e). intros Hrun.
  assert (emits P (send_legs id legs answer)) as He.
  { apply emits_bind; [|intros _; unfold store; emits_only; right; by intros []].
    eapply emits_weaken; [|apply broadcast_all_emits]. intros e He. by left. }
  destruct (He s) as (evs & Ht & Hp). rewrite Hrun in Ht. exists evs. split; [done|]. intros tx b Hin.
  rewrite Forall_forall in Hp. destruct (Hp _ Hin) as [(tx' & [= ->] & Hin')|Hn]; [done|]. by destruct Hn.
Qed.

Lemma quiet_prefix {A} (m : handler W A) (s s1 : HandlerState W) r tx b :
  emits (fun e => ~ is_broadcast e) m -> m s = (r, s1) ->
  exists evs, hs_trace s1 = hs_trace s ++ evs /\ (EvBroadcast tx, b) ∉ evs.
Proof.
  intros He Hr. destruct (emits_runs _ _ _ _ _ He Hr) as (evs & [_ Ht] & Hp). exists evs. split; [done|].
  eapply (no_broadcast_elem (fun e => ~ is_broadcast e)); [|exact Hp]. intros t Hn. by apply Hn.
Qed.

(** A broadcast in the trace of [m ≫= f] comes from [f] when [m] makes none. *)
Lemma broadcast_after {A B} (m : handler W A) (f : A -> handler W B) s r s' pre post tx b :
  emits (fun e => ~ is_broadcast e) m -> (m ≫= f) s = (r, s') ->
  hs_trace s' = hs_trace s ++ pre ++ (EvBroadcast tx, b) :: post ->
  (forall a s1 r' s2, m s = (Ok a, s1) -> f a s1 = (r', s2) -> exists evs, hs_trace s2 = hs_trace s1 ++ evs) ->
  exists a s1 evs pre', m s = (Ok a, s1) /\ f a s1 = (r, s') /\ hs_trace s1 = hs_trace s ++ evs /\
    pre = evs ++ pre' /\ hs_trace s' = hs_trace s1 ++ pre' ++ (EvBroadcast tx, b) :: post.
Proof.
  intros He Hrun Htr Hext. apply bind_runs in Hrun as [(e & Hr & _)|[(Hr & _)|(a & s1 & Hr & Hrun)]].
  1, 2: exfalso; destruct (quiet_prefix m s s' _ tx b He Hr) as (evs & Ht & Hn); rewrite Ht in Htr;
        apply app_inv_head in Htr; apply Hn; rewrite Htr; set_solver.
  destruct (quiet_prefix m s s1 _ tx b He Hr) as (evs & Ht & Hn).
  destruct (Hext a s1 r s' Hr Hrun) as (evs2 & Ht2). rewrite Ht2, Ht, <- app_assoc in Htr.
  apply app_inv_head in Htr. apply split_after in Htr as (pre' & -> & Heq); [|done].
  exists a, s1, evs, pre'. do 4 (split; [done|]). by rewrite Ht2, Heq.
Qed.

Lemma emits_extends {A} P (m : handler W A) s r s' :
  emits P m -> m s = (r, s') -> exists evs, hs_trace s' = hs_trace s ++ evs.
Proof. intros He Hr. destruct (emits_runs _ _ _ _ _ He Hr) as (evs & [_ Ht] & _). eauto. Qed.

Lemma accept_Ok_checks data (s s' : HandlerState W) k pk total inc :
  accept_taproot_contract data s = (Ok (k, pk, total, inc), s') ->
  cs_phase (hs_conn s) = AwaitingContractData /\
  check_swap_id (tcd_id data) (hs_conn s) = Ok () /\
  verify_taproot_contract_data data pk (cs_timelock (hs_conn s)) = Ok () /\
  zlen (tcd_contract_txs data) = cs_tx_count (hs_conn s) /\
  sum_incoming (tcd_amounts data) = Ok total /\ total <= cs_swap_amount (hs_conn s).
Proof.
  unfold accept_taproot_contract. intros H.
  apply st_bind_Ok in H as (u & s1 & [Hp ->]%check_Ok & H).
  apply st_bind_Ok in H as ([] & s1 & [Hid ->]%check_Ok & H).
  apply st_bind_Ok in H as ([[k0 pk0] cc] & s1 & (w & _ & ->)%ask_Ok & H).
  run_ok H. cbn [hs_conn] in *. to_prop.
  apply expect_phase_Ok in Hp. apply list_elem_of_singleton in Hp. unfold incoming_within_swap_amount in *. to_prop.
  done.
Qed.

(** The events of a map are those of its steps, one after the other. *)
Lemma st_map_trace {A B} (f : A -> handler W B) (Q : A -> B -> list (Event * bool) -> Prop) xs : forall s s' ys,
  (forall x s s' y, f x s = (Ok y, s') -> exists evs, hs_trace s' = hs_trace s ++ evs /\ Q x y evs) ->
  st_map f xs s = (Ok ys, s') ->
  length ys = length xs /\ exists evs, hs_trace s' = hs_trace s ++ evs /\
    forall i x y, xs !! i = Some x -> ys !! i = Some y ->
      exists e1 e2 e3, evs = e1 ++ e2 ++ e3 /\ Q x y e2.
Proof.
  induction xs as [|x xs IH]; intros s s' ys Hf; cbn [st_map].
  { intros [= <- <-]. split; [done|]. exists []. by rewrite app_nil_r. }
  rewrite st_bind_Ok. intros (y0 & s1 & H0 & H). apply st_bind_Ok in H as (ys0 & s2 & H1 & H).
  injection H as <- <-. destruct (Hf _ _ _ _ H0) as (e0 & Ht0 & HQ0).
  apply IH in H1 as (Hl & evs & Ht & Hall); [|done]. split; [cbn; by rewrite Hl|].
  exists (e0 ++ evs). rewrite Ht, Ht0, app_assoc. split; [done|]. intros [|i] x' y' Hx Hy; cbn in Hx, Hy.
  - injection Hx as <-. injection Hy as <-. by exists [], e0, evs.
  - destruct (Hall i x' y' Hx Hy) as (e1 & e2 & e3 & -> & HQ). exists (e0 ++ e1), e2, e3.
    by rewrite <- app_assoc.
Qed.

Lemma accept_incoming_Ok data k hk tl n j (s s' : HandlerState W) c :
  accept_incoming data k hk tl n j s = (Ok c, s') ->
  exists evs, hs_trace s' = hs_trace s ++ evs /\ confirmed_in_time data tl n evs j c.
Proof.
  unfold accept_incoming, check_sweep_margin. intros H. run_ok H.
  match goal with H : expect (tcd_contract_txs _ !! _) = Ok _ |- _ => apply expect_Ok in H as Htx end. to_prop.
  cbn [hs_trace]. eexists. split; [by rewrite <- app_assoc|].
  unfold incoming_taproot_coin in H. inv_ok H.
  repeat match goal with H : expect _ = Ok _ |- _ => apply expect_Ok in H end. simplify_eq.
  eexists _, [], []. cbn. do 4 (split; [done|]). lia.
Qed.

Lemma accept_confirmed data (s s' : HandlerState W) k pk total inc :
  accept_taproot_contract data s = (Ok (k, pk, total, inc), s') ->
  length inc = length (tcd_contract_txs data) /\
  exists w evs, hs_trace s' = hs_trace s ++ evs /\
    forall j c, inc !! j = Some c ->
      confirmed_in_time data (cs_timelock (hs_conn s)) (mcf_required_confirms (get_config w)) evs j c.
Proof.
  unfold accept_taproot_contract. intros H.
  apply st_bind_Ok in H as (u & s1 & [Hp ->]%check_Ok & H).
  apply st_bind_Ok in H as (u1 & s1 & [_ ->]%check_Ok & H).
  apply st_bind_Ok in H as ([[k0 pk0] cc] & s1 & (w & _ & ->)%ask_Ok & H).
  run_ok H. cbn [hs_conn] in *. 
  match goal with Hm : check_sweep_margin _ _ = (Ok _, ?s0), H : st_map _ _ ?s0 = (Ok _, _) |- _ =>
    apply (st_map_trace _ (fun j c evs => confirmed_in_time data (cs_timelock (hs_conn s))
             (mcf_required_confirms (get_config (hs_world s0))) evs j c)) in H
      as (Hl & evs & Ht & Hall); [|intros; by eapply accept_incoming_Ok];
    enough (exists evs, hs_trace s' = hs_trace s ++ evs /\ forall j c, inc !! j = Some c ->
      confirmed_in_time data (cs_timelock (hs_conn s)) (mcf_required_confirms (get_config (hs_world s0))) evs j c) as He
      by (rewrite length_seq in Hl; by split; [|exists (hs_world s0)]);
    unfold check_sweep_margin in Hm; run_ok Hm end.
  eexists. split; [rewrite Ht; cbn [hs_trace]; by rewrite <- app_assoc|].
  intros j c Hc. assert (seq 0 (length (tcd_contract_txs data)) !! j = Some j) as Hj.
  { apply lookup_seq. apply lookup_lt_Some in Hc. rewrite length_seq in Hl. lia. }
  destruct (Hall j j c Hj Hc) as (e1 & e2 & e3 & -> & (h & before & after & H1 & H2 & H3 & -> & H5)).
  eexists h, (_ :: e1 ++ before), (after ++ e3). do 3 (split; [done|]). split; [|done]. cbn. by rewrite <- !app_assoc.
Qed.

(** A leg whose coin is about the output it reserves. *)
Definition leg_fits (leg : TapLeg) : Prop :=
  op_txid (leg_outpoint leg) = compute_txid (osc_contract_tx (leg_coin leg)) /\
  exists o, output (osc_contract_tx (leg_coin leg)) !! Z.to_nat (op_vout (leg_outpoint leg)) = Some o /\
    value o = osc_funding_amount (leg_coin leg).

Lemma make_leg_Ok data k tl hs ex legs a (s s' : HandlerState W) legs' :
  make_leg data k tl hs ex legs a s = (Ok legs', s') -> exists leg, legs' = legs ++ [leg] /\ leg_fits leg.
Proof.
  unfold make_leg. intros H.
  repeat match type of H with
  | (_ ≫= _) _ = (Ok _, _) => apply st_bind_Ok in H as (? & ? & ? & H)
  | (let '(_, _) := ?x in _) _ = _ => destruct x
  | (match ?x with pair _ _ => _ end) _ = _ => destruct x
  end.
  injection H as <- _. eexists. split; [done|]. unfold leg_fits. cbn. split; [done|].
  match goal with H : lift (expect _) _ = _ |- _ => apply lift_Ok in H as [H _]; apply expect_Ok in H; eauto end.
Qed.

Lemma make_legs_Ok data k tl hs ex amounts : forall legs (s s' : HandlerState W) legs',
  st_fold (make_leg data k tl hs ex) legs amounts s = (Ok legs', s') -> Forall leg_fits legs ->
  length legs' = (length legs + length amounts)%nat /\ Forall leg_fits legs'.
Proof.
  induction amounts as [|a amounts IH]; intros legs s s' legs'; cbn [st_fold].
  { intros [= <- _] Hf. cbn. split; [lia|done]. }
  rewrite st_bind_Ok. intros (l1 & s1 & (leg & -> & Hleg)%make_leg_Ok & H) Hf.
  apply IH in H as [Hl Hf']; [|apply Forall_app; by split; [|constructor]].
  rewrite length_app in Hl. cbn in *. split; [lia|done].
Qed.

Lemma outgoing_after_fee_length fee total amounts outs :
  outgoing_after_fee fee total amounts = Ok outs -> length outs = length amounts.
Proof. unfold outgoing_after_fee. intros H%try_map_Ok. by apply Forall2_length in H. Qed.

Lemma split_outgoing_length fee total rest amounts outs :
  split_outgoing fee total rest amounts = Ok outs -> length outs = length amounts.
Proof.
  unfold split_outgoing. intros H. apply bind_Ok in H as (l & Hl%outgoing_after_fee_length & H). cbv zeta in H.
  case_match; [|by injection H as <-].
  apply bind_Ok in H as (x & _ & H). apply bind_Ok in H as (y & _ & H). injection H as <-. by rewrite length_insert.
Qed.

Lemma fund_next_hop_Ok data k total (s s' : HandlerState W) legs hs :
  fund_next_hop data k total s = (Ok (legs, hs), s') ->
  length legs = length (tcd_amounts data) /\ Forall leg_fits legs.
Proof.
  unfold fund_next_hop. intros H. run_ok H.
  match goal with H : split_outgoing _ _ _ _ = Ok _ |- _ => apply split_outgoing_length in H as Hn end.
  match goal with H : st_fold _ _ _ _ = (Ok _, _) |- _ => apply make_legs_Ok in H as [Hl Hf]; [|constructor] end.
  cbn in Hl. split; [congruence|done].
Qed.

Lemma verified_amounts data mk tl :
  verify_taproot_contract_data data mk tl = Ok () -> length (tcd_amounts data) = length (tcd_contract_txs data).
Proof. unfold verify_taproot_contract_data. intros H. inv_ok H. to_prop. congruence. Qed.

Lemma send_legs_conn id legs answer (s s' : HandlerState W) r :
  send_legs id legs answer s = (r, s') ->
  cs_incoming_swapcoins (hs_conn s') = cs_incoming_swapcoins (hs_conn s) /\
  cs_outgoing_swapcoins (hs_conn s') = cs_outgoing_swapcoins (hs_conn s) /\
  cs_reserve_utxo (hs_conn s') = cs_reserve_utxo (hs_conn s) /\
  (is_ok r = true -> cs_funding_broadcast (hs_conn s') = true /\
     cs_phase (hs_conn s') = AwaitingPrivateKeyHandover).
Proof.
  unfold send_legs. intros Hrun.
  pose proof (for_each_conn broadcast_funding (map (fun leg => osc_contract_tx (leg_coin leg)) legs)
                broadcast_funding_conn s) as Hc.
  unfold mbind, stateful_bind in Hrun.
  destruct (st_for_each _ _ s) as [[u|e|] s1]; cbn [snd] in Hc; [|injection Hrun as <- <-; by rewrite Hc..].
  unfold store, set_conn, modify, conn, gets, perform, mbind, stateful_bind in Hrun. cbn in Hrun.
  destruct (store_connection_state _ _ _ _) as [[u'|e|] w]; injection Hrun as <- <-; cbn; by rewrite Hc.
Qed.

(** The protection of the legs, read on the coins and the outpoints the
    connection holds. *)
Lemma tap_protected_coins inc legs tr :
  tap_protected inc legs tr -> Forall leg_fits legs ->
  forall i c op, map leg_coin legs !! i = Some c -> map leg_outpoint legs !! i = Some op -> armed_outgoing tr c op.
Proof.
  intros (Hw & _ & _ & Hs) Hf i c op Hc Hop. apply list_lookup_fmap_Some in Hc as (leg & -> & Hi).
  apply list_lookup_fmap_Some in Hop as (leg' & -> & Hi'). rewrite Hi in Hi'. injection Hi' as <-.
  apply list_elem_of_lookup_2 in Hi as Hin. rewrite Forall_forall in Hf.
  destruct (Hf leg Hin) as (Ht & o & Ho & Hv). split; [done|]. exists o. do 2 (split; [done|]).
  split; [|by apply Hs]. destruct (Hw leg Hin) as (o' & Ho' & Hreg). by simplify_eq.
Qed.

Lemma send_legs_trivial id legs answer : emits (fun _ => True) (send_legs id legs answer).
Proof.
  apply emits_bind; [|intros _; unfold store; emits_only].
  apply emits_for_each. intros tx. eapply emits_weaken; [|apply broadcast_funding_emits]. done.
Qed.

(** C5: the maker's taproot contracts go out only for contract data that passed
    every check, in the phase that waits for it, on the swap the connection is
    bound to, with the negotiated number of contracts and no more than the
    negotiated amount.  By then the connection holds one incoming coin for every
    contract of the message, each confirmed as often as the maker asks for and
    with the time left to sweep it, and as many outgoing coins, of which the
    contract output of each is watched and the transaction sent is one; the
    watchtower has answered that it is alive and all coins are saved.  When the
    handler succeeds the connection records the broadcast. *)
Theorem taproot_funding_goes_out_only_when_protected (data : TaprootContractData) (s s' : HandlerState W)
    (r : outcome MakerError (option MakerToTakerMessage)) (pre post : list (Event * bool)) (tx : Transaction) (b : bool)
    (Hrun : process_taproot_contract data s = (r, s'))
    (Htr : hs_trace s' = hs_trace s ++ pre ++ (EvBroadcast tx, b) :: post) :
  cs_phase (hs_conn s) = AwaitingContractData /\
  check_swap_id (tcd_id data) (hs_conn s) = Ok () /\
  (exists mk, verify_taproot_contract_data data mk (cs_timelock (hs_conn s)) = Ok ()) /\
  zlen (tcd_contract_txs data) = cs_tx_count (hs_conn s) /\
  (exists total, sum_incoming (tcd_amounts data) = Ok total /\ total <= cs_swap_amount (hs_conn s)) /\
  length (cs_incoming_swapcoins (hs_conn s')) = length (tcd_contract_txs data) /\
  (exists w, forall j c, cs_incoming_swapcoins (hs_conn s') !! j = Some c ->
     confirmed_in_time data (cs_timelock (hs_conn s)) (mcf_required_confirms (get_config w)) pre j c) /\
  (forall c, c ∈ cs_incoming_swapcoins (hs_conn s') -> (EvSaveIncoming c, true) ∈ pre) /\
  length (cs_outgoing_swapcoins (hs_conn s')) = length (tcd_contract_txs data) /\
  length (cs_reserve_utxo (hs_conn s')) = length (tcd_contract_txs data) /\
  (forall i c op, cs_outgoing_swapcoins (hs_conn s') !! i = Some c ->
     cs_reserve_utxo (hs_conn s') !! i = Some op -> armed_outgoing pre c op) /\
  (EvWatchtowerAlive true, true) ∈ pre /\
  tx ∈ map osc_contract_tx (cs_outgoing_swapcoins (hs_conn s')) /\
  (is_ok r = true -> cs_funding_broadcast (hs_conn s') = true /\
     cs_phase (hs_conn s') = AwaitingPrivateKeyHandover).
Proof.
  unfold process_taproot_contract in Hrun.
  assert (forall answer legs inc, emits (fun _ => True)
    (_ ← arm_legs inc legs; send_legs (tcd_id data) legs answer)) as Htail.
  { intros. apply emits_bind; [eapply emits_weaken; [|apply arm_legs_emits]; done|intros _; apply send_legs_trivial]. }
  apply (broadcast_after _ _ _ _ _ pre post tx b) in Hrun
    as ([[[k pk] total] inc] & s1 & e1 & pre1 & Ha & Hrun & Ht1 & -> & Htr1); [|apply accept_no_broadcast|done|].
  2: { intros [[[k pk] total] inc] s1 r' s2 _ Hf.
       apply (emits_extends (fun _ => True)) in Hf; [done|].
       apply emits_bind; [eapply emits_weaken; [|apply fund_emits]; done|]. intros [legs hs]. apply Htail. }
  apply (broadcast_after _ _ _ _ _ pre1 post tx b) in Hrun
    as ([legs hs] & s2 & e2 & pre2 & Hf & Hrun & Ht2 & -> & Htr2);
    [|eapply emits_weaken; [|apply fund_emits]; by intros e (? & ? & ->) []|done|].
  2: { intros [legs hs] s2 r' s3 _ Hg. apply (emits_extends (fun _ => True)) in Hg; [done|]. apply Htail. }
  apply (broadcast_after _ _ _ _ _ pre2 post tx b) in Hrun
    as ([] & s3 & e3 & pre3 & Harm & Hrun & Ht3 & -> & Htr3); [|apply arm_legs_emits|done|].
  2: { intros [] s3 r' s4 _ Hg. apply (emits_extends (fun _ => True)) in Hg; [done|]. apply send_legs_trivial. }
  apply accept_confirmed in Ha as Hconf. destruct Hconf as (Hlen & w & evs1 & Hta & Hin).
  rewrite Hta in Ht1. apply app_inv_head in Ht1 as <-.
  apply accept_Ok_checks in Ha as (Hph & Hid & Hv & Hn & Hsum & Hle).
  apply fund_next_hop_Ok in Hf as [Hll Hfit]. rewrite (verified_amounts _ _ _ Hv) in Hll.
  apply arm_legs_Ok in Harm as (Hc3 & evs3 & Ht & Hp). rewrite Ht in Ht3. apply app_inv_head in Ht3 as <-.
  pose proof (send_legs_conn _ _ _ _ _ _ Hrun) as (Hci & Hco & Hcr & Hdone). rewrite Hc3 in Hci, Hco, Hcr.
  cbn [cs_incoming_swapcoins cs_outgoing_swapcoins cs_reserve_utxo] in Hci, Hco, Hcr. rewrite Hci, Hco, Hcr.
  apply (send_legs_emits (tcd_id data)) in Hrun as (evs & Ht4 & Hsent). rewrite Ht4 in Htr3.
  apply app_inv_head in Htr3.
  apply (tap_protected_mono _ _ _ (evs1 ++ e2 ++ evs3 ++ pre3)) in Hp; [|set_solver].
  split; [done|]. split; [done|]. split; [eauto|]. split; [done|]. split; [eauto|]. split; [done|].
  split.
  { exists w. intros j c Hc. destruct (Hin j c Hc) as (h & b1 & b2 & E1 & E2 & E3 & -> & E5).
    exists h, b1, (b2 ++ e2 ++ evs3 ++ pre3). do 3 (split; [done|]). split; [|done]. by rewrite <- !app_assoc. }
  split; [apply Hp|]. rewrite !length_map. do 2 (split; [done|]).
  split; [by apply (tap_protected_coins inc)|]. split; [apply Hp|]. split; [|done].
  rewrite map_map. apply (Hsent tx b). rewrite Htr3. set_solver.
Qed.
End order.

(** ** What is accepted can be claimed *)
Section claim.
Context {lib : BitcoinLib} {laws : BitcoinLaws lib} {tap : TaprootLib} {tlaws : TaprootLaws lib tap}.
Context {W : Type} {maker : Maker W}.

(** What acceptance says about one incoming coin. *)
Record coin_fits (c : IncomingSwapCoin) (k hk : SecretKey) (hash : bytes) (o : TxOut) : Prop := {
  fit_protocol : isc_protocol c = Taproot;
  fit_output : output (isc_contract_tx c) !! Z.to_nat (isc_get_contract_output_vout c) = Some o;
  fit_value : value o = isc_funding_amount c;
  fit_key : isc_my_privkey c = Some k;
  fit_hashkey : isc_hashlock_privkey c = hk;
  fit_scripts : exists hs ts ik info pk,
    isc_hashlock_script c = Some hs /\ isc_timelock_script c = Some ts /\ isc_internal_key c = Some ik /\
    isc_tap_tweak c = Some (tsi_tap_tweak info) /\ contract_output hs ts ik info o /\
    hashlock_leaf hs hash (x_only_public_key (point_from_secret_key hk)) /\
    isc_other_pubkey c = Some pk /\
    get_aggregated_pubkey_compat (inner pk) (point_from_secret_key k) = Ok ik;
}.

(** The output that pays the contract is the first that carries its amount. *)
Lemma first_output_vout c o outs :
  output (isc_contract_tx c) = o :: outs -> value o = isc_funding_amount c -> isc_get_contract_output_vout c = 0.
Proof.
  intros Ho Hv. unfold isc_get_contract_output_vout, contract_output_vout. rewrite Ho. case_match; [|done].
  cbn. destruct (decide (value o = isc_funding_amount c)); [|done]. done.
Qed.

Lemma hashlock_key_matches hs k nonce hk hash pk :
  secret_add_tweak k nonce = Some hk -> hashlock_leaf hs hash pk ->
  check_taproot_hashlock_has_pubkey hs (pubkey_of k) nonce = Ok () ->
  pk = x_only_public_key (point_from_secret_key hk).
Proof.
  intros Hk Hleaf. unfold check_taproot_hashlock_has_pubkey, calculate_pubkey_from_nonce. cbn [pubkey_of inner].
  rewrite (secret_add_tweak_point _ _ _ Hk). cbn [ok_or mbind outcome_bind inner]. rewrite Hleaf. cbn.
  destruct (xonly_from_slice pk) as [x|] eqn:Ex; [|done]. apply xonly_from_slice_Some in Ex as [-> _].
  by case_bool_decide.
Qed.

Lemma incoming_coin_fits data k nonce hk tl hash j c :
  is_u32 tl -> verify_taproot_contract_data data (pubkey_of k) tl = Ok () ->
  check_taproot_hashlock_has_pubkey (tcd_hashlock_script data) (pubkey_of k) nonce = Ok () ->
  secret_add_tweak k nonce = Some hk -> extract_hash_from_hashlock (tcd_hashlock_script data) = Ok hash ->
  incoming_taproot_coin data k hk j = Ok c -> exists o, coin_fits c k hk hash o.
Proof.
  intros Htl Hv Hkey Htw Hh Hc. apply verify_taproot_contract_data_Ok in Hv; [|done].
  destruct Hv as (_ & _ & _ & _ & _ & _ & (hash' & hpk & Hleaf & Hl & _) & _ & Hall).
  rewrite (extract_hash_leaf _ hash' hpk) in Hh by done. injection Hh as ->.
  pose proof (hashlock_key_matches _ _ _ _ _ _ Htw Hleaf Hkey) as ->.
  unfold incoming_taproot_coin in Hc. inv_ok Hc.
  match goal with H : tcd_contract_txs _ !! j = Some ?tx |- _ => destruct (Hall j tx H)
    as (ts & first & lpk & pk & ik & info & o & outs & Hts & _ & _ & _ & Hpk & Hik & Hagg & Ho & Htwk & _ & Hout & Ham) end.
  apply map_err_Ok, tweak_scalar_Ok in Hs3.
  simplify_eq. exists o. rewrite Hpk in *. cbn [default] in *.
  split; cbn.
  - done.
  - unfold isc_get_contract_output_vout, contract_output_vout. cbn [isc_protocol isc_contract_tx isc_funding_amount].
    rewrite Hout. case_match; [|done]. cbn. by destruct (decide (value o = value o)).
  - done.
  - done.
  - done.
  - exists (tcd_hashlock_script data). do 4 eexists. do 3 (split; [done|]). split; [done|]. do 3 (split; [done|]). done.
Qed.

Lemma st_map_elem {A B} (f : A -> handler W B) xs : forall s s' ys y,
  st_map f xs s = (Ok ys, s') -> y ∈ ys -> exists x s1 s2, x ∈ xs /\ f x s1 = (Ok y, s2).
Proof.
  induction xs as [|x xs IH]; intros s s' ys y; cbn [st_map].
  { intros [= <- _] H. by apply elem_of_nil in H. }
  rewrite st_bind_Ok. intros (y0 & s1 & H0 & H). apply st_bind_Ok in H as (ys0 & s2 & H1 & H).
  injection H as <- _. intros [->|Hy]%elem_of_cons; [exists x, s, s1; split; [constructor|done]|].
  destruct (IH _ _ _ _ H1 Hy) as (x' & a & b & Hx & Hf). exists x', a, b. split; [by constructor|done].
Qed.

Lemma sign_spend_proj r1 r2 c p tx :
  isc_other_privkey c = None -> isc_hash_preimage c = Some p ->
  sign_taproot_spend r1 r2 c tx = sign_taproot_hashlock c p tx.
Proof. unfold sign_taproot_spend. by intros -> ->. Qed.

(** C4: every taproot coin the maker accepts pays to an output that the maker
    can spend in both ways it may have to: with the preimage and its hashlock
    key, and, once it holds the taker's private key, with a key-path signature
    that nothing on chain tells from an ordinary payment. *)
Theorem accepted_taproot_coins_are_claimable (data : TaprootContractData) (s s' : HandlerState W)
    (k : SecretKey) (pk : PublicKey) (total : Amount) (inc : list IncomingSwapCoin) (c : IncomingSwapCoin)
    (Hkeypair : forall w k pk cc w', get_tweakable_keypair w = (Ok (k, pk, cc), w') -> pk = pubkey_of k)
    (Htl : is_u32 (cs_timelock (hs_conn s)))
    (Hrun : accept_taproot_contract data s = (Ok (k, pk, total, inc), s')) (Hc : c ∈ inc) :
  exists o, output (isc_contract_tx c) !! Z.to_nat (isc_get_contract_output_vout c) = Some o /\
    value o = isc_funding_amount c /\
    (forall preimage tx i r1 r2, input tx = [i] ->
       extract_hash_from_hashlock (tcd_hashlock_script data) = Ok (sha256 preimage) ->
       exists tx', sign_taproot_spend r1 r2 {| c with isc_other_privkey := None; isc_hash_preimage := Some preimage |} tx = Ok tx' /\
         p2tr_spendable tx' o = true /\ strip_witness tx' = strip_witness tx) /\
    (forall k' tx i r1 r2, input tx = [i] -> isc_other_pubkey c = Some (pubkey_of k') ->
       exists tx', sign_taproot_spend r1 r2 (isc_set_other_privkey c k') tx = Ok tx' /\
         p2tr_spendable tx' o = true /\ strip_witness tx' = strip_witness tx).
Proof.
  unfold accept_taproot_contract in Hrun.
  apply st_bind_Ok in Hrun as (u & s1 & [_ ->]%check_Ok & Hrun).
  apply st_bind_Ok in Hrun as (u1 & s1 & [_ ->]%check_Ok & Hrun).
  apply st_bind_Ok in Hrun as ([[k0 pk0] cc] & s1 & (w & Hkp & ->)%ask_Ok & Hrun).
  apply Hkeypair in Hkp as ->. run_ok Hrun. cbn [hs_conn] in *.
  repeat match goal with
  | H : ok_or _ _ = Ok _ |- _ => apply ok_or_Ok in H
  | H : map_err _ _ = Ok _ |- _ => apply map_err_Ok in H
  end.
  match goal with H : st_map _ _ _ = (Ok _, _) |- _ => destruct (st_map_elem _ _ _ _ _ _ H Hc) as (j & sa & sb & _ & Hj) end.
  unfold accept_incoming in Hj. run_ok Hj.
  match goal with H : verify_taproot_contract_data _ _ _ = Ok _ |- _ => pose proof H as Hv end.
  destruct (proj1 (verify_taproot_contract_data_Ok _ _ _ Htl) Hv) as (_ & _ & _ & _ & _ & _ & (hash & hpk & Hleaf & Hhl & _) & _).
  pose proof (extract_hash_leaf _ _ _ Hleaf Hhl) as Hh.
  match goal with H : incoming_taproot_coin _ _ _ _ = Ok _ |- _ =>
    eapply incoming_coin_fits in H as (o & [Hp Ho Hval Hk Hhk (hs & ts & ik & info & opk & E1 & E2 & E3 & E4 & Hout & Hlf & Eo & Hagg)]);
      [|done|exact Hv|eassumption|eassumption|exact Hh] end.
  exists o. do 2 (split; [done|]). split.
  - intros preimage tx i r1 r2 Hi Hpre. rewrite Hh in Hpre. injection Hpre as ->.
    rewrite (sign_spend_proj r1 r2 _ preimage tx) by done.
    eapply hashlock_accepted; try eassumption. cbn [isc_hashlock_privkey]. by rewrite Hhk.
  - intros k' tx i r1 r2 Hi Hother. rewrite Eo in Hother. injection Hother as ->. cbn [pubkey_of inner] in Hagg.
    unfold sign_taproot_spend. cbn [isc_set_other_privkey isc_other_privkey].
    eapply cooperative_accepted; try eassumption.
    rewrite get_aggregated_pubkey_compat_Ok in Hagg |- * by apply point_from_secret_key_valid.
    rewrite sort2_comm; [done|]. by rewrite !(valid_point_length _ (point_from_secret_key_valid _)).
Qed.
End claim.

(** ** Witnesses *)
Module Sample.
#[local] Existing Instance Reference.lib.

(** A maker that funds what it is asked to fund. *)
Definition taproot_maker : Maker SampleWorld :=
  {| sample_maker with
     get_current_height w := (Ok 250, w);
     create_funding_transaction a spk ex w :=
       (Ok ({| version := 2; lock_time := 0;
               input := [{| previous_output := {| op_txid := 8; op_vout := 0 |}; script_sig := []; sequence := 0; witness := [] |}];
               output := [{| value := a; script_pubkey := spk |}] |}, 0), w) |}.
#[export] Existing Instance taproot_maker.

Definition start (count : Z) : HandlerState SampleWorld :=
  at_phase {| (ConnectionState_new 7 Taproot) with cs_phase := AwaitingContractData; cs_swap_id := Some "s";
              cs_swap_amount := 90000; cs_tx_count := count; cs_timelock := 300; cs_refund_locktime_offset := 40 |}.
End Sample.
#[local] Existing Instance Reference.lib.
#[local] Existing Instance Reference.laws.
#[local] Existing Instance TapReference.tap.
#[local] Existing Instance TapReference.tap_laws.
Import TapSample Sample.

Lemma taproot_fee_is_shared_exactly_witness :
  exists outs, split_outgoing 1850 50000 48150 [20000; 30000] = Ok outs /\ sum_amounts outs = 48150.
Proof.
  destruct (taproot_fee_is_shared_exactly 1850 50000 [20000; 30000]) as (outs & H1 & H2 & _).
  - repeat constructor; lia.
  - reflexivity.
  - lia.
  - lia.
  - lia.
  - unfold zlen; cbn; lia.
  - exists outs. split; [exact H1|exact H2].
Defined.

(** The whole handler: three contracts of 617 sat against a fee of 200 + 3 * 550. *)
Lemma fee_sharing_can_panic_witness :
  split_outgoing 1850 1851 1 [617; 617; 617] = Panic /\
  (process_taproot_contract (data [617; 617; 617]) (start 3)).1 = Panic.
Proof.
  split; [exact (fee_sharing_can_panic 617 eq_refl eq_refl)|]. vm_compute. reflexivity.
Defined.

Lemma taproot_funding_goes_out_only_when_protected_witness :
  exists pre post tx s', hs_trace s' = pre ++ (EvBroadcast tx, true) :: post /\
    (process_taproot_contract (data [50000]) (start 1)).2 = s' /\
    (exists w c, cs_incoming_swapcoins (hs_conn s') = [c] /\
       confirmed_in_time (data [50000]) 300 (mcf_required_confirms (get_config w)) pre 0 c /\
       (EvSaveIncoming c, true) ∈ pre) /\
    (exists c op, cs_outgoing_swapcoins (hs_conn s') = [c] /\ armed_outgoing pre c op /\ tx = osc_contract_tx c).
Proof.
  destruct (process_taproot_contract (data [50000]) (start 1)) as [r s'] eqn:E.
  assert (exists pre tx post, hs_trace s' = [] ++ pre ++ (EvBroadcast tx, true) :: post) as (pre & tx & post & Ht).
  { exists (take 8 (hs_trace s')), (match hs_trace s' !! 8%nat with Some (EvBroadcast tx, _) => tx | _ => contract_tx 0 0 end),
      (drop 9 (hs_trace s')).
    assert (hs_trace (process_taproot_contract (data [50000]) (start 1)).2 = hs_trace s') as <- by (by rewrite E).
    vm_compute. reflexivity. }
  destruct (taproot_funding_goes_out_only_when_protected (data [50000]) (start 1) s' r pre post tx true E Ht)
    as (_ & _ & _ & _ & _ & Hli & (w & Hconf) & Hsave & Hlo & Hlr & Harm & _ & Htx & _).
  exists pre, post, tx, s'. split; [exact Ht|]. split; [reflexivity|]. cbn in Hli, Hlo, Hlr.
  destruct (cs_incoming_swapcoins (hs_conn s')) as [|c [|]]; [discriminate Hli| |discriminate Hli].
  destruct (cs_outgoing_swapcoins (hs_conn s')) as [|c' [|]]; [discriminate Hlo| |discriminate Hlo].
  destruct (cs_reserve_utxo (hs_conn s')) as [|op [|]]; [discriminate Hlr| |discriminate Hlr]. split.
  - exists w, c. split; [reflexivity|]. split; [exact (Hconf 0%nat c eq_refl)|].
    apply Hsave. constructor.
  - exists c', op. split; [reflexivity|]. split; [exact (Harm 0%nat c' op eq_refl eq_refl)|].
    cbn in Htx. apply list_elem_of_singleton in Htx. exact Htx.
Defined.

Lemma accepted_taproot_coins_are_claimable_witness :
  exists s' k pk total c, accept_taproot_contract (data [50000]) (start 1) = (Ok (k, pk, total, [c]), s') /\
    exists o, output (isc_contract_tx c) !! Z.to_nat (isc_get_contract_output_vout c) = Some o /\
      exists tx', sign_taproot_spend 1 2 {| c with isc_other_privkey := None; isc_hash_preimage := Some preimage |}
                    (contract_tx 0 49000) = Ok tx' /\ p2tr_spendable tx' o = true.
Proof.
  eexists _, 100, (pubkey_of 100), 50000, _. split; [vm_compute; reflexivity|].
  edestruct (accepted_taproot_coins_are_claimable (maker := taproot_maker) (data [50000]) (start 1)) as (o & Ho & _ & Hp & _).
  - intros w k pk cc w' [= <- <- _ _]. reflexivity.
  - split; vm_compute; congruence.
  - vm_compute. reflexivity.
  - apply list_elem_of_singleton. reflexivity.
  - exists o. split; [exact Ho|].
    destruct (Hp preimage (contract_tx 0 49000) _ 1 2 eq_refl) as (tx' & H1 & H2 & _); [vm_compute; reflexivity|].
    exists tx'. split; [exact H1|exact H2].
Defined.
