(* ===== verification/WalletStore.v ===== *)
(** The wallet's records: the store of src/wallet/storage.rs and the operations
    of src/wallet/api.rs that read and change it without talking to a node.

    Swap coins are kept under the txid of their contract, funding prevouts under
    the contract script the maker approved for them, UTXOs in a cache with what
    is needed to spend them.  A [HashMap] is a [gmap]; the order in which it is
    iterated is the operation of the class [HashIter], of which [HashIterLaws]
    says that it enumerates the map.  Writing the (encrypted) file is the
    operation of the class [WalletFile]. *)
From S2P Require Import Prelude Float64 Bitcoin Messages Contract Errors SwapCoin TakerState.
#[local] Open Scope string_scope.
#[local] Open Scope list_scope.
#[local] Open Scope Z_scope.

#[global] Instance OutPoint_countable : Countable OutPoint.
Proof.
  refine (inj_countable' (fun o => (op_txid o, op_vout o)) (fun p => {| op_txid := p.1; op_vout := p.2 |}) _).
  by intros [].
Defined.

(** ** Iterating a [HashMap] *)
Class HashIter := hash_iter : forall {K V} `{Countable K}, gmap K V -> list (K * V).
Class HashIterLaws (hi : HashIter) : Prop :=
  hash_iter_perm : forall {K V} `{Countable K} (m : gmap K V), hash_iter m ≡ₚ map_to_list m.

Definition hash_values `{HashIter} {K V} `{Countable K} (m : gmap K V) : list V := map snd (hash_iter m).

(** One order among those allowed. *)
Definition key_order : HashIter := fun K V _ _ m => map_to_list m.
#[global] Instance key_order_laws : HashIterLaws key_order.
Proof. by intros K V ? ? m. Qed.

Lemma elem_of_hash_iter `{HashIterLaws} {K V} `{Countable K} (m : gmap K V) k v :
  (k, v) ∈ hash_iter m <-> m !! k = Some v.
Proof. rewrite hash_iter_perm. apply elem_of_map_to_list. Qed.

Lemma elem_of_hash_values `{HashIterLaws} {K V} `{Countable K} (m : gmap K V) v :
  v ∈ hash_values m <-> exists k, m !! k = Some v.
Proof.
  unfold hash_values. rewrite list_elem_of_fmap. split.
  - intros ([k v'] & -> & Hk%elem_of_hash_iter). eauto.
  - intros [k Hk%elem_of_hash_iter]. by exists (k, v).
Qed.

(** ** Data *)
Inductive AddressType := P2WPKH | P2TR.

(** The fields of the RPC's [ListUnspentResultEntry] that the wallet reads. *)
Record Utxo := {
  ut_txid : Txid;
  ut_vout : Z;
  ut_script_pub_key : Script;
  ut_amount : Amount;
  ut_confirmations : Z;
  ut_desc : option string;
  ut_witness_script : option Script;
  ut_address : option string;
}.

Inductive UTXOSpendInfo :=
| SeedCoin (path : string) (input_value : Amount) (address_type : AddressType)
| USI_IncomingSwapCoin (multisig_redeemscript : Script)
| USI_OutgoingSwapCoin (multisig_redeemscript : Script)
| TimelockContract (swapcoin_multisig_redeemscript : Script) (input_value : Amount)
| HashlockContract (swapcoin_multisig_redeemscript : Script) (input_value : Amount)
| FidelityBondCoin (index : Z) (input_value : Amount)
| SweptCoin (path : string) (input_value : Amount) (address_type : AddressType).

Definition estimate_witness_size (info : UTXOSpendInfo) : Z :=
  match info with
  | SeedCoin _ _ P2WPKH | SweptCoin _ _ P2WPKH => 107
  | SeedCoin _ _ P2TR | SweptCoin _ _ P2TR => 66
  | USI_IncomingSwapCoin _ | USI_OutgoingSwapCoin _ => 218
  | TimelockContract _ _ => 179
  | HashlockContract _ _ => 211
  | FidelityBondCoin _ _ => 115
  end.

(** The store.  The key material and the sync heights, which the operations
    below do not touch, are left out. *)
Record WalletStore := {
  wst_external_index : Z;
  wst_internal_index : Z;
  wst_offer_maxsize : Z;
  wst_incoming_swapcoins : gmap Txid IncomingSwapCoin;
  wst_outgoing_swapcoins : gmap Txid OutgoingSwapCoin;
  wst_watchonly_swapcoins : gmap string (list WatchOnlySwapCoin);
  wst_prevout_to_contract_map : gmap OutPoint Script;
  wst_swept_incoming_swapcoins : list Script;
  wst_fidelity_bond : list FidelityBond;
  wst_utxo_cache : gmap OutPoint (Utxo * UTXOSpendInfo);
}.

Definition WalletStore_init : WalletStore :=
  {| wst_external_index := 0; wst_internal_index := 0; wst_offer_maxsize := 0;
     wst_incoming_swapcoins := ∅; wst_outgoing_swapcoins := ∅; wst_watchonly_swapcoins := ∅;
     wst_prevout_to_contract_map := ∅; wst_swept_incoming_swapcoins := []; wst_fidelity_bond := [];
     wst_utxo_cache := ∅ |}.

Record Balances := {
  bal_regular : Amount;
  bal_swap : Amount;
  bal_contract : Amount;
  bal_fidelity : Amount;
  bal_spendable : Amount;
}.

(** A wallet over whatever [D] is outside the store: disk, node, randomness. *)
Record Wallet (D : Type) := { wl_store : WalletStore; wl_outside : D }.
Arguments wl_store {D} _.
Arguments wl_outside {D} _.
Arguments Build_Wallet {D} _ _.

(** An operation on what is outside, run in a wallet. *)
Definition in_outside {D A} (op : stateful D WalletError A) : stateful (Wallet D) WalletError A := fun w =>
  let '(r, d) := op (wl_outside w) in (r, {| w with wl_outside := d |}).

Class WalletFile (D : Type) := {
  write_wallet_file : WalletStore -> stateful D WalletError ();
}.

(** ** Swap coins *)
Section coins.
Context {lib : BitcoinLib} {hi : HashIter}.

Definition add_incoming_swapcoin (coin : IncomingSwapCoin) (w : WalletStore) : WalletStore :=
  {| w with wst_incoming_swapcoins :=
       <[compute_txid (isc_contract_tx coin) := coin]> (wst_incoming_swapcoins w) |}.
Definition add_outgoing_swapcoin (coin : OutgoingSwapCoin) (w : WalletStore) : WalletStore :=
  {| w with wst_outgoing_swapcoins :=
       <[compute_txid (osc_contract_tx coin) := coin]> (wst_outgoing_swapcoins w) |}.

Definition find_incoming_swapcoin (contract_txid : Txid) (w : WalletStore) : option IncomingSwapCoin :=
  wst_incoming_swapcoins w !! contract_txid.

Definition remove_incoming_swapcoin (contract_txid : Txid) (w : WalletStore)
    : option IncomingSwapCoin * WalletStore :=
  (wst_incoming_swapcoins w !! contract_txid,
   {| w with wst_incoming_swapcoins := delete contract_txid (wst_incoming_swapcoins w) |}).
Definition remove_outgoing_swapcoin (contract_txid : Txid) (w : WalletStore) : WalletStore :=
  {| w with wst_outgoing_swapcoins := delete contract_txid (wst_outgoing_swapcoins w) |}.

Definition add_watchonly_swapcoins (swap_id : string) (coins : list WatchOnlySwapCoin) (w : WalletStore)
    : WalletStore :=
  {| w with wst_watchonly_swapcoins :=
       <[swap_id := default [] (wst_watchonly_swapcoins w !! swap_id) ++ coins]> (wst_watchonly_swapcoins w) |}.
Definition remove_watchonly_swapcoins (swap_id : string) (w : WalletStore)
    : option (list WatchOnlySwapCoin) * WalletStore :=
  (wst_watchonly_swapcoins w !! swap_id,
   {| w with wst_watchonly_swapcoins := delete swap_id (wst_watchonly_swapcoins w) |}).

(** A legacy coin whose 2-of-2 is the given script. *)
Definition coin_has_multisig (protocol : ProtocolVersion) (my_pubkey other_pubkey : option PublicKey)
    (multisig_redeemscript : Script) : bool :=
  match protocol, my_pubkey, other_pubkey with
  | Legacy, Some my_pubkey, Some other_pubkey =>
      bool_decide (create_multisig_redeemscript my_pubkey other_pubkey = multisig_redeemscript)
  | _, _, _ => false
  end.
Definition isc_has_multisig (rs : Script) (c : IncomingSwapCoin) : bool :=
  coin_has_multisig (isc_protocol c) (isc_my_pubkey c) (isc_other_pubkey c) rs.
Definition osc_has_multisig (rs : Script) (c : OutgoingSwapCoin) : bool :=
  coin_has_multisig (osc_protocol c) (osc_my_pubkey c) (osc_other_pubkey c) rs.

Definition find_outgoing_swapcoin_by_multisig (rs : Script) (w : WalletStore) : option OutgoingSwapCoin :=
  snd <$> list_find (fun c => osc_has_multisig rs c) (hash_values (wst_outgoing_swapcoins w)).
Definition find_incoming_swapcoin_by_multisig (rs : Script) (w : WalletStore) : option IncomingSwapCoin :=
  snd <$> list_find (fun c => isc_has_multisig rs c) (hash_values (wst_incoming_swapcoins w)).

(** [contract_tx.output[vout as usize]]: out of range panics. *)
Definition contract_outpoint (tx : Transaction) (vout : Z) : outcome WalletError (OutPoint * Script) :=
  o ← expect (output tx !! Z.to_nat vout);
  Ok ({| op_txid := compute_txid tx; op_vout := vout |}, script_pubkey o).

Definition outgoing_contract_outpoints (w : WalletStore) : outcome WalletError (list (OutPoint * Script)) :=
  try_map (fun sc => contract_outpoint (osc_contract_tx sc) (osc_get_contract_output_vout sc))
    (hash_values (wst_outgoing_swapcoins w)).
Definition incoming_contract_outpoints (w : WalletStore) : outcome WalletError (list (OutPoint * Script)) :=
  try_map (fun sc => contract_outpoint (isc_contract_tx sc) (isc_get_contract_output_vout sc))
    (hash_values (wst_incoming_swapcoins w)).
Definition watchonly_contract_outpoints (w : WalletStore) : outcome WalletError (list (OutPoint * Script)) :=
  try_map (fun sc =>
      let vout := match list_find (fun o => value o = wsc_funding_amount sc) (output (wsc_contract_tx sc)) with
                  | Some (i, _) => wrap 32 (Z.of_nat i)
                  | None => 0
                  end in
      contract_outpoint (wsc_contract_tx sc) vout)
    (concat (hash_values (wst_watchonly_swapcoins w))).

Definition outgoing_keys_for_swap (swap_id : string) (w : WalletStore) : list Txid :=
  map fst (filter (fun p => osc_swap_id p.2 = Some swap_id) (hash_iter (wst_outgoing_swapcoins w))).

Definition find_unfinished_swapcoins (w : WalletStore) : list IncomingSwapCoin * list OutgoingSwapCoin :=
  (filter (fun c => isc_other_privkey c = None) (hash_values (wst_incoming_swapcoins w)),
   filter (fun c => osc_hash_preimage c = None) (hash_values (wst_outgoing_swapcoins w))).

(** ** UTXO cache *)
Definition list_all_utxo_spend_info (w : WalletStore) : list (Utxo * UTXOSpendInfo) :=
  hash_values (wst_utxo_cache w).
Definition list_utxo_where (keep : UTXOSpendInfo -> bool) (w : WalletStore) : list (Utxo * UTXOSpendInfo) :=
  filter (fun x => keep x.2) (list_all_utxo_spend_info w).

Definition list_descriptor_utxo_spend_info : WalletStore -> list (Utxo * UTXOSpendInfo) :=
  list_utxo_where (fun i => match i with SeedCoin _ _ _ => true | _ => false end).
Definition list_live_timelock_contract_spend_info : WalletStore -> list (Utxo * UTXOSpendInfo) :=
  list_utxo_where (fun i => match i with TimelockContract _ _ => true | _ => false end).
Definition list_live_hashlock_contract_spend_info : WalletStore -> list (Utxo * UTXOSpendInfo) :=
  list_utxo_where (fun i => match i with HashlockContract _ _ => true | _ => false end).
Definition list_live_contract_spend_info : WalletStore -> list (Utxo * UTXOSpendInfo) :=
  list_utxo_where (fun i => match i with HashlockContract _ _ | TimelockContract _ _ => true | _ => false end).
Definition list_fidelity_spend_info : WalletStore -> list (Utxo * UTXOSpendInfo) :=
  list_utxo_where (fun i => match i with FidelityBondCoin _ _ => true | _ => false end).
Definition list_swap_coin_utxo_spend_info : WalletStore -> list (Utxo * UTXOSpendInfo) :=
  list_utxo_where (fun i =>
    match i with USI_IncomingSwapCoin _ | USI_OutgoingSwapCoin _ => true | _ => false end).
Definition list_incoming_swap_coin_utxo_spend_info : WalletStore -> list (Utxo * UTXOSpendInfo) :=
  list_utxo_where (fun i => match i with USI_IncomingSwapCoin _ => true | _ => false end).
Definition list_swept_incoming_swap_utxos : WalletStore -> list (Utxo * UTXOSpendInfo) :=
  list_utxo_where (fun i => match i with SweptCoin _ _ _ => true | _ => false end).

Definition sum_utxos (us : list (Utxo * UTXOSpendInfo)) : outcome WalletError Amount :=
  try_fold (fun sum u => amount_add sum (ut_amount u.1)) 0 us.

Definition get_balances (w : WalletStore) : outcome WalletError Balances :=
  regular ← sum_utxos (list_descriptor_utxo_spend_info w);
  contract ← sum_utxos (list_live_timelock_contract_spend_info w);
  swap ← sum_utxos (list_swept_incoming_swap_utxos w);
  fidelity ← sum_utxos (list_fidelity_spend_info w);
  spendable ← amount_add regular swap;
  Ok {| bal_regular := regular; bal_swap := swap; bal_contract := contract; bal_fidelity := fidelity;
        bal_spendable := spendable |}.
End coins.

(** ** Approved contracts *)
Section bindings.
Context {D : Type} {file : WalletFile D}.

Definition save_to_disk : stateful (Wallet D) WalletError () := fun w =>
  let '(r, d) := write_wallet_file (wl_store w) (wl_outside w) in (r, {| w with wl_outside := d |}).

Definition ensure_prevout_matches_cached_contract (prevout : OutPoint) (contract_scriptpubkey : Script)
    (w : WalletStore) : outcome WalletError () :=
  match wst_prevout_to_contract_map w !! prevout with
  | Some cached_contract =>
      if bool_decide (cached_contract = contract_scriptpubkey) then Ok ()
      else Err (WE_General "Provided contract does not match the cached sender contract")
  | None => Err (WE_General "No cached sender contract for funding prevout {prevout}")
  end.

(** [HashMap::extend]: a later pair of the same key wins. *)
Definition map_extend (m : gmap OutPoint Script) (bindings : list (OutPoint * Script)) : gmap OutPoint Script :=
  fold_left (fun m b => <[b.1 := b.2]> m) bindings m.

Definition rebinds (m : gmap OutPoint Script) (b : OutPoint * Script) : bool :=
  match m !! b.1 with
  | Some cached_contract => negb (bool_decide (cached_contract = b.2))
  | None => false
  end.

Definition cache_prevout_to_contract (bindings : list (OutPoint * Script)) : stateful (Wallet D) WalletError () :=
  m ← gets (fun w => wst_prevout_to_contract_map (wl_store w));
  _ ← lift (for_each (fun b => reject (rebinds m b)
              (WE_General "Refusing to rebind funding prevout {prevout} to a different contract")) bindings);
  _ ← modify (fun w => {| w with wl_store := {| (wl_store w) with
        wst_prevout_to_contract_map := map_extend (wst_prevout_to_contract_map (wl_store w)) bindings |} |});
  save_to_disk.
End bindings.

Lemma ensure_prevout_Ok p s w :
  ensure_prevout_matches_cached_contract p s w = Ok () <-> wst_prevout_to_contract_map w !! p = Some s.
Proof.
  unfold ensure_prevout_matches_cached_contract. destruct (_ !! p) as [c|]; [|by split].
  case_bool_decide; split; naive_solver.
Qed.

Lemma map_extend_snoc m bs b : map_extend m (bs ++ [b]) = <[b.1 := b.2]> (map_extend m bs).
Proof. unfold map_extend. by rewrite fold_left_app. Qed.

(** After extending, a key holds its last new value, or its old one. *)
Lemma map_extend_lookup m bs p :
  map_extend m bs !! p =
    match last (filter (fun b => b.1 = p) bs) with Some b => Some b.2 | None => m !! p end.
Proof.
  induction bs as [|b bs IH] using rev_ind; [done|].
  rewrite map_extend_snoc, filter_app. destruct (decide (b.1 = p)) as [<-|Hne].
  - by rewrite filter_cons_True, filter_nil, last_snoc, lookup_insert_eq.
  - by rewrite filter_cons_False, filter_nil, app_nil_r, lookup_insert_ne by done.
Qed.

Lemma map_extend_NoDup m bs p s :
  NoDup (map fst bs) -> (p, s) ∈ bs -> map_extend m bs !! p = Some s.
Proof.
  induction bs as [|b bs IH] using rev_ind; [by intros _ ?%not_elem_of_nil|].
  rewrite map_app, NoDup_app. intros (Hnd & Hdisj & _). rewrite elem_of_app, list_elem_of_singleton.
  rewrite map_extend_snoc. intros [Hin|<-]; [|apply lookup_insert_eq].
  rewrite lookup_insert_ne; [by apply IH|]. intros Heq. apply (Hdisj p).
  - apply list_elem_of_fmap. by exists (p, s).
  - cbn. rewrite Heq. by apply list_elem_of_singleton.
Qed.

Section binding_theorem.
Context {D : Type} {file : WalletFile D}.

(** The three ways the call ends. *)
Lemma cache_prevout_cases bs (w : Wallet D) :
  (exists b, b ∈ bs /\ rebinds (wst_prevout_to_contract_map (wl_store w)) b = true /\
     (cache_prevout_to_contract bs w).2 = w /\ is_ok (cache_prevout_to_contract bs w).1 = false) \/
  ((forall b, b ∈ bs -> rebinds (wst_prevout_to_contract_map (wl_store w)) b = false) /\
   wl_store (cache_prevout_to_contract bs w).2 =
     {| (wl_store w) with wst_prevout_to_contract_map :=
          map_extend (wst_prevout_to_contract_map (wl_store w)) bs |} /\
   (cache_prevout_to_contract bs w).1 =
     (write_wallet_file (wl_store (cache_prevout_to_contract bs w).2) (wl_outside w)).1).
Proof.
  unfold cache_prevout_to_contract, mbind, stateful_bind, gets, lift, modify.
  destruct (for_each_from _ _ _) as [[]|e|] eqn:Hloop.
  - right. split.
    { rewrite for_each_Ok in Hloop. intros b Hb. eapply list.Forall_forall in Hloop; [|exact Hb].
      by apply reject_Ok in Hloop. }
    unfold save_to_disk. cbn [wl_store wl_outside]. destruct (write_wallet_file _ _) eqn:Hw. cbn. by rewrite Hw.
  - left. destruct (existsb (rebinds (wst_prevout_to_contract_map (wl_store w))) bs) eqn:Hex.
    { apply existsb_exists in Hex as (b & Hb%list_elem_of_In & Hr). by exists b. }
    exfalso. enough (Err (A := ()) e = Ok ()) by done. rewrite <- Hloop.
    apply for_each_Ok, list.Forall_forall. intros b Hb. apply reject_Ok, not_true_is_false. intros Hr.
    apply not_true_iff_false in Hex. apply Hex, existsb_exists. exists b. by apply list_elem_of_In in Hb.
  - exfalso. revert Hloop. apply for_each_from_no_panic. intros. auto with outcome.
Qed.

(** A contract the maker approved for a funding prevout stays the approved
    one whatever is cached later and however the call ends; a batch that would
    replace one is refused as a whole and changes nothing; otherwise every
    prevout of the batch is bound to the last contract given for it, and to the
    only one if it is named once. *)
Lemma approved_contract_is_immutable (bs : list (OutPoint * Script)) (w w' : Wallet D)
    (r : outcome WalletError ()) (Hrun : cache_prevout_to_contract bs w = (r, w')) :
  (forall p s, ensure_prevout_matches_cached_contract p s (wl_store w) = Ok () ->
     ensure_prevout_matches_cached_contract p s (wl_store w') = Ok ()) /\
  (forall p s s', (p, s) ∈ bs -> wst_prevout_to_contract_map (wl_store w) !! p = Some s' -> s' <> s ->
     is_ok r = false /\ w' = w) /\
  (r = Ok () -> forall p s, (p, s) ∈ bs ->
     (exists s', (p, s') ∈ bs /\ ensure_prevout_matches_cached_contract p s' (wl_store w') = Ok ()) /\
     (NoDup (map fst bs) -> ensure_prevout_matches_cached_contract p s (wl_store w') = Ok ())).
Proof.
  destruct (cache_prevout_cases bs w) as [(b & Hb & Hr & Hw & Hf)|(Hok & Hw & Hres)];
    rewrite Hrun in *; cbn [fst snd] in *.
  - subst w'. split; [done|]. split; [done|]. intros ->. done.
  - assert (wst_prevout_to_contract_map (wl_store w') =
              map_extend (wst_prevout_to_contract_map (wl_store w)) bs) as Hm by by rewrite Hw.
    assert (forall p s s', (p, s) ∈ bs -> wst_prevout_to_contract_map (wl_store w) !! p = Some s' -> s' = s)
      as Hsame.
    { intros p s s' Hin Hold. specialize (Hok _ Hin). unfold rebinds in Hok. cbn in Hok.
      rewrite Hold in Hok. by apply negb_false_iff, bool_decide_eq_true in Hok. }
    split; [|split].
    + intros p s. rewrite !ensure_prevout_Ok, Hm, map_extend_lookup. intros Hold.
      destruct (last _) as [[p' s']|] eqn:Hl; [|done]. cbn.
      apply last_Some_elem_of, list_elem_of_filter in Hl as [<- Hin].
      by rewrite (Hsame _ _ _ Hin Hold).
    + intros p s s' Hin Hold []. by eapply Hsame.
    + intros _ p s Hin. split; [|rewrite ensure_prevout_Ok, Hm; by intros; apply map_extend_NoDup].
      setoid_rewrite ensure_prevout_Ok. rewrite Hm. setoid_rewrite map_extend_lookup.
      destruct (last _) as [[p' s']|] eqn:Hl.
      * apply last_Some_elem_of, list_elem_of_filter in Hl as [<- Hin']. by exists s'.
      * exfalso. apply last_None in Hl. apply (not_elem_of_nil (p, s)). rewrite <- Hl.
        by apply list_elem_of_filter.
Qed.
End binding_theorem.

(** ** Witness *)
#[local] Instance sample_file : WalletFile () := {| write_wallet_file _ d := (Ok (), d) |}.
Definition sample_prevout : OutPoint := {| op_txid := 5; op_vout := 1 |}.
Definition bound_wallet : Wallet () :=
  Build_Wallet {| WalletStore_init with wst_prevout_to_contract_map := {[sample_prevout := [81]]} |} ().

Lemma approved_contract_is_immutable_witness :
  is_ok (cache_prevout_to_contract [(sample_prevout, [82])] bound_wallet).1 = false /\
  (cache_prevout_to_contract [(sample_prevout, [82])] bound_wallet).2 = bound_wallet.
Proof.
  destruct (cache_prevout_to_contract [(sample_prevout, [82])] bound_wallet) as [r w'] eqn:E.
  refine (proj1 (proj2 (approved_contract_is_immutable _ _ _ _ E)) sample_prevout [82] [81] _ _ _).
  - by apply list_elem_of_singleton.
  - reflexivity.
  - discriminate.
Defined.
