(* ===== verification/MakerApi.v ===== *)
(** The maker server: src/maker/api.rs.

    [MakerServer] holds the swaps in progress, the wallet and what lies outside
    ([D]: clock, chain backend, watch service, randomness, disk), reached through
    the class [MakerOutside].  The operations below are the server's
    implementation of the [Maker] trait; [server_maker] is that instance, so
    that the handlers of [MakerHandlers] and [LegacyHandlers] run on it.  A
    poisoned lock (a thread panicked while holding it) is a flag of the server. *)
From S2P Require Import Prelude Float64 Bitcoin Messages Contract Errors SwapCoin ScriptEval TakerState LegacyVerification MakerHandlers LegacyHandlers WalletStore.
#[local] Open Scope string_scope.
#[local] Open Scope list_scope.
#[local] Open Scope Z_scope.

(** ** State *)
Record SwapState := {
  ss_swap_amount : Amount;
  ss_tx_count : Z;
  ss_timelock : Z;
  ss_protocol : ProtocolVersion;
  ss_phase : SwapPhase;
  ss_incoming_swapcoins : list IncomingSwapCoin;
  ss_outgoing_swapcoins : list OutgoingSwapCoin;
  ss_pending_funding_txes : list Transaction;
  ss_funding_broadcast : bool;
  ss_contract_feerate : f64;
  ss_service_fee_sats : Z;
  ss_reserve_utxo : list OutPoint;
  ss_last_activity : Z;
  ss_swap_start_time : Z;
  ss_refund_locktime_offset : Z;
  ss_funding_confirmation_height : option Z;
}.

Definition SwapState_default (now : Z) : SwapState :=
  {| ss_swap_amount := 0; ss_tx_count := 0; ss_timelock := 0; ss_protocol := Legacy;
     ss_phase := AwaitingHello; ss_incoming_swapcoins := []; ss_outgoing_swapcoins := [];
     ss_pending_funding_txes := []; ss_funding_broadcast := false; ss_contract_feerate := f64_of_Z 0;
     ss_service_fee_sats := 0; ss_reserve_utxo := []; ss_last_activity := now; ss_swap_start_time := now;
     ss_refund_locktime_offset := 0; ss_funding_confirmation_height := None |}.

(** The settings the operations read. *)
Record MakerServerConfig := {
  msc_base_fee : Z;
  msc_amount_relative_fee_pct : f64;
  msc_time_relative_fee_pct : f64;
  msc_min_swap_amount : Z;
  msc_required_confirms : Z;
  msc_supported_protocols : list ProtocolVersion;
}.

Record MakerServer (D : Type) := {
  srv_config : MakerServerConfig;
  srv_wallet : Wallet D;
  srv_wallet_poisoned : bool;
  srv_highest_fidelity_proof : option FidelityProof;
  srv_fidelity_poisoned : bool;
  srv_ongoing_swaps : gmap string SwapState;
  srv_swaps_poisoned : bool;
}.
Arguments srv_config {D} _.
Arguments srv_wallet {D} _.
Arguments srv_wallet_poisoned {D} _.
Arguments srv_highest_fidelity_proof {D} _.
Arguments srv_fidelity_poisoned {D} _.
Arguments srv_ongoing_swaps {D} _.
Arguments srv_swaps_poisoned {D} _.
Arguments Build_MakerServer {D} _ _ _ _ _ _ _.

Record IdleSwapData := {
  isd_swap_id : string;
  isd_protocol : ProtocolVersion;
  isd_swap_amount_sat : Z;
  isd_incoming_swapcoins : list IncomingSwapCoin;
  isd_outgoing_swapcoins : list OutgoingSwapCoin;
  isd_funding_broadcast : bool;
}.

(** [CreateFundingTxesResult] of src/wallet/funding.rs. *)
Record CreateFundingTxesResult := {
  cfr_funding_txes : list Transaction;
  cfr_payment_output_positions : list Z;
  cfr_total_miner_fee : Z;
}.

(** What the server reaches beyond its own records. *)
Class MakerOutside (D : Type) := {
  mo_file :: WalletFile D;
  mo_now : D -> Z;
  mo_watch_alive : D -> bool;
  mo_register_watch_request : OutPoint -> Script -> stateful D WatcherError ();
  mo_get_block_count : stateful D WalletError Z;
  mo_new_connection : stateful D WalletError ();
  mo_get_tx_out : Txid -> Z -> stateful D WalletError (option TxOut);
  mo_tx_block_height : Txid -> stateful D WalletError (option Z);
  mo_wait_for_tx_confirmation : Txid -> Z -> stateful D WalletError ();
  mo_send_tx : Transaction -> stateful D WalletError Txid;
  mo_get_raw_transaction : Txid -> stateful D WalletError Transaction;
  mo_sync_and_save : stateful (Wallet D) WalletError ();
  mo_tweakable_keypair : stateful D WalletError (SecretKey * PublicKey * bytes);
  mo_generate_keypair : D -> SecretKey * D;
  mo_import_swap_address : PublicKey -> PublicKey -> stateful D WalletError ();
  mo_random_secret_key : D -> SecretKey * D;
  mo_create_funding_txes : Amount -> list Script -> f64 -> option (list OutPoint) -> option (list OutPoint) ->
    stateful (Wallet D) WalletError CreateFundingTxesResult;
}.

Section server.
Context {lib : BitcoinLib} {hi : HashIter} {D : Type} {outside : MakerOutside D}.

Abbreviation server := (stateful (MakerServer D) MakerError).

(** ** Access to the wallet and to what is outside *)
Definition in_wallet {A} (op : stateful (Wallet D) WalletError A) : server A := fun s =>
  let '(r, w) := op (srv_wallet s) in (map_err ME_Wallet r, {| s with srv_wallet := w |}).
Definition now_of (s : MakerServer D) : Z := mo_now (wl_outside (srv_wallet s)).

(** [lock_debug!(self.wallet.read/write()).map_err(|_| General("Failed to lock wallet"))?]. *)
Definition lock_wallet : server () := fun s =>
  (reject (srv_wallet_poisoned s) (ME_General "Failed to lock wallet"), s).
Definition lock_swaps : server () := fun s => (reject (srv_swaps_poisoned s) ME_MutexPossion, s).

Definition get_swaps : server (gmap string SwapState) := _ ← lock_swaps; gets srv_ongoing_swaps.
Definition set_swaps (f : gmap string SwapState -> gmap string SwapState) : server () :=
  modify (fun s => {| s with srv_ongoing_swaps := f (srv_ongoing_swaps s) |}).

(** ** Queries *)
Definition srv_get_tweakable_keypair : server (SecretKey * PublicKey * bytes) :=
  _ ← lock_wallet; in_wallet (in_outside mo_tweakable_keypair).

Definition srv_get_fidelity_proof : server FidelityProof := fun s =>
  (_ ← reject (srv_fidelity_poisoned s) (ME_General "Failed to lock fidelity proof");
   ok_or (srv_highest_fidelity_proof s) (ME_General "No fidelity proof available"), s).

Definition srv_get_config (s : MakerServer D) : MakerConfig :=
  {| mcf_base_fee := msc_base_fee (srv_config s);
     mcf_amount_relative_fee_pct := msc_amount_relative_fee_pct (srv_config s);
     mcf_time_relative_fee_pct := msc_time_relative_fee_pct (srv_config s);
     mcf_min_swap_amount := msc_min_swap_amount (srv_config s);
     mcf_max_swap_amount :=
       if srv_wallet_poisoned s then U64_MAX else wst_offer_maxsize (wl_store (srv_wallet s));
     mcf_required_confirms := msc_required_confirms (srv_config s);
     mcf_supported_protocols := msc_supported_protocols (srv_config s) |}.

Definition srv_calculate_swap_fee (amount : Amount) (timelock : Z) (s : MakerServer D) : Amount :=
  let c := srv_config s in
  let total_fee :=
    f64_add
      (f64_add (f64_of_Z (msc_base_fee c))
         (f64_div (f64_mul (f64_of_Z amount) (msc_amount_relative_fee_pct c)) (f64_of_Z 100)))
      (f64_div
         (f64_mul (f64_mul (f64_of_Z amount) (f64_of_Z timelock)) (msc_time_relative_fee_pct c))
         (f64_of_Z 100)) in
  f64_to_u64 (f64_ceil total_fee).

Definition srv_get_current_height : server Z :=
  _ ← lock_wallet; h ← in_wallet (in_outside mo_get_block_count); mret (wrap 32 h).

Definition srv_validate_swap_parameters (details : SwapDetails) : server Z :=
  config ← gets srv_get_config;
  let amount_sat := sd_amount details in
  _ ← lift (reject (amount_sat <? mcf_min_swap_amount config) (ME_General "Swap amount below minimum"));
  _ ← lift (reject (mcf_max_swap_amount config <? amount_sat) (ME_General "Swap amount above maximum"));
  _ ← lift (reject (negb (bool_decide (sd_protocol_version details ∈ mcf_supported_protocols config)))
        (ME_General "Protocol version not supported"));
  poisoned ← gets srv_wallet_poisoned;
  _ ← (if (poisoned : bool) then mret ()
       else
         balances ← gets (fun s => get_balances (wl_store (srv_wallet s)));
         match balances with
         | Ok b =>
             swap_liquidity ← lift (amount_add (bal_regular b) (bal_swap b));
             lift (reject (swap_liquidity <? amount_sat)
               (ME_General "Not enough liquidity for this swap amount"))
         | Err _ => mret ()
         | Panic => lift Panic
         end);
  locked_blocks ←
    match sd_protocol_version details with
    | Legacy =>
        _ ← lift (reject (sd_timelock details <? MIN_CONTRACT_REACTION_TIME)
              (ME_General "Legacy timelock is below minimum reaction time"));
        mret (sd_timelock details)
    | Taproot =>
        current_height ← srv_get_current_height;
        _ ← lift (reject (saturating_add 32 (sd_timelock details) REFUND_LOCKTIME_STEP
                            <? saturating_add 32 current_height MIN_CONTRACT_REACTION_TIME)
              (ME_General "Taproot timelock leaves too little contract reaction time"));
        _ ← lift (reject (negb (offset_meets_reaction_time (sd_refund_locktime_offset details)))
              (ME_General "Taproot refund locktime offset is below minimum reaction time"));
        mret (sd_refund_locktime_offset details)
    end;
  _ ← lift (reject ((locked_blocks =? 0) || (U16_MAX <? locked_blocks))
        (ME_General "Swap timelock out of range"));
  mret locked_blocks.

Definition srv_wait_for_tx_on_chain (txid : Txid) (required_confirms : Z) : server () :=
  let required_confirms := Z.max required_confirms 1 in
  _ ← lock_wallet;
  _ ← in_wallet (in_outside mo_new_connection);
  in_wallet (in_outside (mo_wait_for_tx_confirmation txid required_confirms)).

Definition srv_broadcast_transaction (tx : Transaction) : server Txid :=
  _ ← lock_wallet; in_wallet (in_outside (mo_send_tx tx)).

Definition srv_is_transaction_known (txid : Txid) : server bool := fun s =>
  if srv_wallet_poisoned s then (Ok false, s)
  else
    match in_wallet (in_outside (mo_get_raw_transaction txid)) s with
    | (Ok _, s') => (Ok true, s')
    | (Err _, s') => (Ok false, s')
    | (Panic, s') => (Panic, s')
    end.

(** The store changes in memory first, then the file is written. *)
Definition update_store (f : WalletStore -> WalletStore) : server () :=
  modify (fun s => {| s with srv_wallet := {| (srv_wallet s) with wl_store := f (wl_store (srv_wallet s)) |} |}).

Definition srv_save_incoming_swapcoin (c : IncomingSwapCoin) : server () :=
  _ ← lock_wallet; _ ← update_store (add_incoming_swapcoin c); in_wallet save_to_disk.
Definition srv_save_outgoing_swapcoin (c : OutgoingSwapCoin) : server () :=
  _ ← lock_wallet; _ ← update_store (add_outgoing_swapcoin c); in_wallet save_to_disk.

Definition srv_register_watch_outpoint (o : OutPoint) (spk : Script) : server () := fun s =>
  let '(r, d) := mo_register_watch_request o spk (wl_outside (srv_wallet s)) in
  (map_err (fun _ => ME_General "watchtower registration failed, aborting swap") r,
   {| s with srv_wallet := {| (srv_wallet s) with wl_outside := d |} |}).

Definition srv_sync_and_save_wallet : server () := _ ← lock_wallet; in_wallet mo_sync_and_save.

(** ** Swaps in progress *)
Definition is_active (st : SwapState) : bool := bool_decide (ss_phase st <> Completed).

Definition active_swaps (swaps : gmap string SwapState) : list SwapState :=
  filter (fun st => is_active st) (hash_values swaps).

(** The admission checks of a new swap. *)
Definition check_admission (swaps : gmap string SwapState) (swap_liquidity swap_amount : Amount)
    : outcome MakerError () :=
  _ ← reject (MAX_CONCURRENT_SWAPS <=? zlen (active_swaps swaps)) ME_TooManySwaps;
  reserved_liquidity ← try_fold (fun total st => amount_add total (ss_swap_amount st)) 0 (active_swaps swaps);
  required_liquidity ← amount_add reserved_liquidity swap_amount;
  reject (swap_liquidity <? required_liquidity)
    (ME_InsufficientLiquidity swap_liquidity reserved_liquidity swap_amount).

Definition params_differ (st : SwapState) (state : ConnectionState) : bool :=
  negb (ss_swap_amount st =? cs_swap_amount state) || negb (ss_tx_count st =? cs_tx_count state)
  || negb (ss_timelock st =? cs_timelock state) || negb (bool_decide (ss_protocol st = cs_protocol state))
  || negb (ss_refund_locktime_offset st =? cs_refund_locktime_offset state).

(** The fields copied into the entry of a swap. *)
Definition store_fields (now : Z) (state : ConnectionState) (st : SwapState) : SwapState :=
  {| st with
     ss_swap_amount := cs_swap_amount state;
     ss_tx_count := cs_tx_count state;
     ss_timelock := cs_timelock state;
     ss_protocol := cs_protocol state;
     ss_phase := cs_phase state;
     ss_incoming_swapcoins := cs_incoming_swapcoins state;
     ss_outgoing_swapcoins := cs_outgoing_swapcoins state;
     ss_pending_funding_txes := cs_pending_funding_txes state;
     ss_funding_broadcast := cs_funding_broadcast state;
     ss_contract_feerate := cs_contract_feerate state;
     ss_service_fee_sats := cs_service_fee_sats state;
     ss_reserve_utxo := cs_reserve_utxo state;
     ss_last_activity := now;
     ss_swap_start_time := cs_swap_start_time state;
     ss_refund_locktime_offset := cs_refund_locktime_offset state |}.

Definition srv_store_connection_state (swap_id : string) (state : ConnectionState) (admission : bool)
    : server () :=
  swap_liquidity ←
    (if (admission : bool) then
       _ ← lock_wallet;
       balances ← gets (fun s => map_err ME_Wallet (get_balances (wl_store (srv_wallet s))));
       b ← lift balances;
       liquidity ← lift (amount_add (bal_regular b) (bal_swap b));
       mret (Some liquidity)
     else mret None);
  swaps ← get_swaps;
  now ← gets now_of;
  match swaps !! swap_id with
  | None =>
      _ ← match swap_liquidity with
          | Some liquidity => lift (check_admission swaps liquidity (cs_swap_amount state))
          | None => mret ()
          end;
      set_swaps (insert swap_id (store_fields now state (SwapState_default now)))
  | Some st =>
      if (admission : bool) then
        _ ← lift (reject (params_differ st state) ME_SwapParamMismatch);
        set_swaps (insert swap_id {| st with ss_last_activity := now |})
      else set_swaps (insert swap_id (store_fields now state st))
  end.

(** What [get_connection_state] builds from an entry. *)
Definition restored_state (swap_id : string) (s : SwapState) : ConnectionState :=
  {| (ConnectionState_new (ss_last_activity s) (ss_protocol s)) with
     cs_swap_id := Some swap_id;
     cs_swap_amount := ss_swap_amount s;
     cs_tx_count := ss_tx_count s;
     cs_timelock := ss_timelock s;
     cs_phase := ss_phase s;
     cs_incoming_swapcoins := ss_incoming_swapcoins s;
     cs_outgoing_swapcoins := ss_outgoing_swapcoins s;
     cs_pending_funding_txes := ss_pending_funding_txes s;
     cs_funding_broadcast := ss_funding_broadcast s;
     cs_contract_feerate := ss_contract_feerate s;
     cs_service_fee_sats := ss_service_fee_sats s;
     cs_reserve_utxo := ss_reserve_utxo s;
     cs_swap_start_time := ss_swap_start_time s;
     cs_refund_locktime_offset := ss_refund_locktime_offset s |}.

Definition srv_get_connection_state (swap_id : string) : server (option ConnectionState) :=
  swaps ← get_swaps; mret (restored_state swap_id <$> swaps !! swap_id).

Definition remove_swap_state (swap_id : string) : server () :=
  _ ← lock_swaps; set_swaps (delete swap_id).

Definition has_ongoing_swaps : server bool :=
  swaps ← get_swaps; mret (negb (bool_decide (swaps = ∅))).

Definition swap_past_deadline (current_height : Z) (st : SwapState) : bool :=
  past_refund_deadline (ss_protocol st) (ss_timelock st) (ss_funding_confirmation_height st) current_height.

Definition srv_swap_past_refund_deadline (swap_id : string) : server bool :=
  current_height ← srv_get_current_height;
  swaps ← get_swaps;
  mret (match swaps !! swap_id with Some st => swap_past_deadline current_height st | None => false end).

Definition srv_collect_excluded_utxos (current_swap_id : string) : server (list OutPoint) :=
  swaps ← get_swaps;
  mret (flat_map (fun p => ss_reserve_utxo p.2) (filter (fun p => p.1 <> current_swap_id) (hash_iter swaps))).

(** An accepted swap that only reserves liquidity and has gone quiet. *)
Definition releasable (now timeout : Z) (st : SwapState) : bool :=
  bool_decide (ss_phase st = AwaitingContractData)
  && bool_decide (ss_incoming_swapcoins st = []) && bool_decide (ss_outgoing_swapcoins st = [])
  && bool_decide (ss_pending_funding_txes st = []) && negb (ss_funding_broadcast st)
  && (timeout <? now - ss_last_activity st).

Definition stale (current_height : option Z) (now timeout : Z) (st : SwapState) : bool :=
  negb (bool_decide (ss_outgoing_swapcoins st = []))
  && (match current_height with Some height => swap_past_deadline height st | None => false end
      || (timeout <? now - ss_last_activity st)).

Definition idle_data (id : string) (st : SwapState) : IdleSwapData :=
  {| isd_swap_id := id; isd_protocol := ss_protocol st; isd_swap_amount_sat := ss_swap_amount st;
     isd_incoming_swapcoins := ss_incoming_swapcoins st; isd_outgoing_swapcoins := ss_outgoing_swapcoins st;
     isd_funding_broadcast := ss_funding_broadcast st |}.

(** The ids of the entries that satisfy [p], in hash order, and their removal. *)
Definition ids_where (p : SwapState -> bool) (swaps : gmap string SwapState) : list string :=
  map fst (filter (fun x => p x.2) (hash_iter swaps)).
Definition remove_all (ids : list string) (swaps : gmap string SwapState) : gmap string SwapState :=
  fold_left (fun m id => delete id m) ids swaps.

(** [for (id, _) in stale_ids { if let Some(state) = swaps.remove(&id) { idle.push(..) } }]. *)
Definition take_idle (ids : list string) (swaps : gmap string SwapState)
    : list IdleSwapData * gmap string SwapState :=
  fold_left (fun acc id =>
      match acc.2 !! id with
      | Some st => (acc.1 ++ [idle_data id st], delete id acc.2)
      | None => acc
      end) ids ([], swaps).

Definition drain_idle_swaps (timeout : Z) : server (list IdleSwapData) :=
  current_height ← (fun s =>
      match srv_get_current_height s with
      | (Ok h, s') => (Ok (Some h), s')
      | (Err _, s') => (Ok None, s')
      | (Panic, s') => (Panic, s')
      end);
  swaps ← get_swaps;
  now ← gets now_of;
  let swaps := remove_all (ids_where (releasable now timeout) swaps) swaps in
  let '(idle, swaps) := take_idle (ids_where (stale current_height now timeout) swaps) swaps in
  _ ← set_swaps (fun _ => swaps);
  mret idle.

(** ** Signing for a sender *)
Definition contract_binding (txinfo : ContractTxInfoForSender) : outcome MakerError (OutPoint * Script) :=
  i ← expect (input (cts_senders_contract_tx txinfo) !! 0%nat);
  o ← expect (output (cts_senders_contract_tx txinfo) !! 0%nat);
  Ok (previous_output i, script_pubkey o).

Definition sign_sender_contract (tweakable_privkey : SecretKey) (txinfo : ContractTxInfoForSender)
    : outcome MakerError Signature :=
  multisig_privkey ← ok_or (secret_add_tweak tweakable_privkey (cts_multisig_nonce txinfo))
                       (ME_General "Failed to derive multisig privkey");
  map_err (fun _ => ME_General "Failed to sign contract transaction")
    (sign_contract_tx (cts_senders_contract_tx txinfo) (cts_multisig_redeemscript txinfo)
       (cts_funding_input_value txinfo) multisig_privkey).

Definition srv_verify_and_sign_sender_contract_txs (txs_info : list ContractTxInfoForSender)
    (hashvalue : Hash160) (locktime : Z) : server (list Signature) :=
  '(tweakable_privkey, tweakable_pubkey, _) ← srv_get_tweakable_keypair;
  _ ← lift (verify_req_contract_sigs_for_sender txs_info tweakable_pubkey hashvalue locktime);
  bindings ← lift (try_map contract_binding txs_info);
  _ ← lock_wallet;
  _ ← in_wallet (cache_prevout_to_contract bindings);
  lift (try_map (sign_sender_contract tweakable_privkey) txs_info).

(** ** Proof of funding *)
Definition MIN_REQUIRED_CONFIRM : Z := 1.

(** What the loop carries: the common hash, the outpoints seen, the earliest
    confirmation height. *)
Record ProofScan := {
  scan_hashvalue : option Hash160;
  scan_seen : list OutPoint;
  scan_confirmed_at : option Z;
}.

Definition funding_outpoint_of (info : FundingTxInfo) : outcome MakerError OutPoint :=
  multisig_spk ← maker_protocol (redeemscript_to_scriptpubkey (fti_multisig_redeemscript info));
  '(index, _) ← ok_or (list_find (fun o => script_pubkey o = multisig_spk) (output (fti_funding_tx info)))
                  (ME_General "Funding output not found");
  Ok {| op_txid := compute_txid (fti_funding_tx info); op_vout := wrap 32 (Z.of_nat index) |}.

Definition earliest (confirmed_at : option Z) (height : Z) : option Z :=
  Some (match confirmed_at with Some e => Z.min e height | None => height end).

(** The key and contract checks of one proven funding. *)
Definition check_funding_keys (tweakable_pubkey : PublicKey) (info : FundingTxInfo) : outcome MakerError () :=
  _ ← maker_protocol (check_multisig_has_pubkey (fti_multisig_redeemscript info) tweakable_pubkey
                        (fti_multisig_nonce info));
  maker_protocol (check_hashlock_has_pubkey (fti_contract_redeemscript info) tweakable_pubkey
                    (fti_hashlock_nonce info)).

Definition common_hashvalue (prev : option Hash160) (this_hashvalue : Hash160)
    : outcome MakerError (option Hash160) :=
  match prev with
  | Some prev_hashvalue =>
      _ ← reject (bool_decide (prev_hashvalue <> this_hashvalue))
            (ME_General "Hash values in contracts do not match");
      Ok prev
  | None => Ok (Some this_hashvalue)
  end.

Definition verify_funding (refund_locktime : Z) (scan : ProofScan) (info : FundingTxInfo)
    : server ProofScan :=
  locktime ← lift (maker_protocol (read_contract_locktime (fti_contract_redeemscript info)));
  _ ← lift (reject (saturating_sub locktime refund_locktime <? MIN_CONTRACT_REACTION_TIME)
        (ME_General "Next hop locktime too close to current hop locktime"));
  funding_outpoint ← lift (funding_outpoint_of info);
  _ ← lift (reject (bool_decide (funding_outpoint ∈ scan_seen scan)) (ME_General "Duplicate funding outpoint"));
  required ← gets (fun s => Z.max (msc_required_confirms (srv_config s)) MIN_REQUIRED_CONFIRM);
  _ ← srv_wait_for_tx_on_chain (op_txid funding_outpoint) required;
  _ ← lock_wallet;
  txout ← in_wallet (in_outside (mo_get_tx_out (op_txid funding_outpoint) (op_vout funding_outpoint)));
  _ ← lift (reject (bool_decide (txout = None)) (ME_General "Funding output already spent"));
  height ← in_wallet (in_outside (mo_tx_block_height (op_txid funding_outpoint)));
  _ ← lift (maker_protocol (check_reedemscript_is_multisig (fti_multisig_redeemscript info)));
  '(_, tweakable_pubkey, _) ← in_wallet (in_outside mo_tweakable_keypair);
  _ ← lift (check_funding_keys tweakable_pubkey info);
  contract_spk ← lift (maker_protocol (redeemscript_to_scriptpubkey (fti_contract_redeemscript info)));
  cached ← gets (fun s => ensure_prevout_matches_cached_contract funding_outpoint contract_spk
                            (wl_store (srv_wallet s)));
  _ ← lift (map_err ME_Wallet cached);
  this_hashvalue ← lift (maker_protocol (read_hashvalue_from_contract (fti_contract_redeemscript info)));
  hashvalue ← lift (common_hashvalue (scan_hashvalue scan) this_hashvalue);
  mret {| scan_hashvalue := hashvalue;
          scan_seen := funding_outpoint :: scan_seen scan;
          scan_confirmed_at := match height with
                               | Some h => earliest (scan_confirmed_at scan) (wrap 32 h)
                               | None => scan_confirmed_at scan
                               end |}.

Definition srv_verify_proof_of_funding (message : ProofOfFunding) : server Hash160 :=
  _ ← lift (reject (bool_decide (pof_confirmed_funding_txes message = []))
        (ME_General "No funding txs provided by Taker"));
  scan ← st_fold (verify_funding (pof_refund_locktime message))
           {| scan_hashvalue := None; scan_seen := []; scan_confirmed_at := None |}
           (pof_confirmed_funding_txes message);
  _ ← match scan_confirmed_at scan with
      | Some height =>
          _ ← lock_swaps;
          set_swaps (alter (fun st => {| st with ss_funding_confirmation_height := Some height |})
                       (pof_id message))
      | None => mret ()
      end;
  lift (ok_or (scan_hashvalue scan) (ME_General "No hashvalue found in contracts")).

(** ** Funding the next hop *)
Definition generate_keypair_op : stateful (Wallet D) WalletError (PublicKey * SecretKey) := fun w =>
  let '(k, d) := mo_generate_keypair (wl_outside w) in
  (Ok (pubkey_of k, k), {| w with wl_outside := d |}).

Definition create_and_import_swap_address (other_pubkey : PublicKey)
    : stateful (Wallet D) WalletError (Script * SecretKey) :=
  '(my_pubkey, my_privkey) ← generate_keypair_op;
  let redeem_script := create_multisig_redeemscript my_pubkey other_pubkey in
  let address := 0 :: 32 :: wscript_hash redeem_script in
  _ ← in_outside (mo_import_swap_address my_pubkey other_pubkey);
  mret (address, my_privkey).

Definition outgoing_coin (hashvalue : Hash160) (locktime : Z)
    (p : Transaction * Z * SecretKey * PublicKey * PublicKey) : server OutgoingSwapCoin :=
  let '(my_funding_tx, utxo_index, my_multisig_privkey, other_multisig_pubkey, hashlock_pubkey) := p in
  '(timelock_pubkey, timelock_privkey) ← in_wallet generate_keypair_op;
  let contract_redeemscript := create_contract_redeemscript hashlock_pubkey timelock_pubkey hashvalue locktime in
  funding_output ← lift (expect (output my_funding_tx !! Z.to_nat utxo_index));
  let funding_amount := value funding_output in
  my_senders_contract_tx ← lift (maker_protocol
    (create_senders_contract_tx {| op_txid := compute_txid my_funding_tx; op_vout := utxo_index |}
       funding_amount contract_redeemscript));
  let c := osc_new_legacy my_multisig_privkey other_multisig_pubkey my_senders_contract_tx
             contract_redeemscript timelock_privkey funding_amount in
  mret {| c with osc_funding_tx := Some my_funding_tx |}.

Definition srv_initialize_openswap (send_amount : Amount) (next_multisig_pubkeys next_hashlock_pubkeys : list PublicKey)
    (hashvalue : Hash160) (locktime : Z) (contract_feerate : f64) (excluded_outpoints : option (list OutPoint))
    : server (list Transaction * list OutgoingSwapCoin * Amount) :=
  _ ← lock_wallet;
  addresses ← in_wallet (st_map create_and_import_swap_address next_multisig_pubkeys);
  created ← in_wallet (mo_create_funding_txes send_amount (map fst addresses) contract_feerate None excluded_outpoints);
  outgoing_swapcoins ← st_map (outgoing_coin hashvalue locktime)
    (zip (zip (zip (zip (cfr_funding_txes created) (cfr_payment_output_positions created))
            (map snd addresses)) next_multisig_pubkeys) next_hashlock_pubkeys);
  mret (cfr_funding_txes created, outgoing_swapcoins, cfr_total_miner_fee created).

Definition srv_find_outgoing_swapcoin (multisig_redeemscript : Script) : server (option OutgoingSwapCoin) := fun s =>
  let in_swaps :=
    if srv_swaps_poisoned s then None
    else snd <$> list_find (fun c => osc_has_multisig multisig_redeemscript c)
                   (flat_map ss_outgoing_swapcoins (hash_values (srv_ongoing_swaps s))) in
  let in_store :=
    if srv_wallet_poisoned s then None
    else find_outgoing_swapcoin_by_multisig multisig_redeemscript (wl_store (srv_wallet s)) in
  (Ok (match in_swaps with Some c => Some c | None => in_store end), s).

Definition srv_create_funding_transaction (amount : Amount) (address : Script)
    (excluded_outpoints : option (list OutPoint)) : server (Transaction * Z) :=
  _ ← lock_wallet;
  result ← in_wallet (mo_create_funding_txes amount [address] (f64_of_Z MIN_FEE_RATE) None excluded_outpoints);
  tx ← lift (ok_or (cfr_funding_txes result !! 0%nat) (ME_General "No funding tx created"));
  mret (tx, default 0 (cfr_payment_output_positions result !! 0%nat)).

Definition srv_random_secret_key : server SecretKey := fun s =>
  let '(k, d) := mo_random_secret_key (wl_outside (srv_wallet s)) in
  (Ok k, {| s with srv_wallet := {| (srv_wallet s) with wl_outside := d |} |}).

(** ** The trait instance *)
#[global] Instance server_maker : Maker (MakerServer D) := {|
  now := now_of;
  is_watchtower_alive s := (Ok (mo_watch_alive (wl_outside (srv_wallet s))), s);
  get_tweakable_keypair := srv_get_tweakable_keypair;
  get_fidelity_proof := srv_get_fidelity_proof;
  get_config := srv_get_config;
  validate_swap_parameters := srv_validate_swap_parameters;
  calculate_swap_fee_op := srv_calculate_swap_fee;
  broadcast_transaction := srv_broadcast_transaction;
  is_transaction_known := srv_is_transaction_known;
  save_incoming_swapcoin := srv_save_incoming_swapcoin;
  save_outgoing_swapcoin := srv_save_outgoing_swapcoin;
  register_watch_outpoint := srv_register_watch_outpoint;
  sync_and_save_wallet := srv_sync_and_save_wallet;
  store_connection_state := srv_store_connection_state;
  get_connection_state := srv_get_connection_state;
  collect_excluded_utxos := srv_collect_excluded_utxos;
  swap_past_refund_deadline := srv_swap_past_refund_deadline;
  wait_for_tx_on_chain := srv_wait_for_tx_on_chain;
  verify_and_sign_sender_contract_txs := srv_verify_and_sign_sender_contract_txs;
  verify_proof_of_funding := srv_verify_proof_of_funding;
  initialize_openswap := srv_initialize_openswap;
  find_outgoing_swapcoin := srv_find_outgoing_swapcoin;
  get_current_height := srv_get_current_height;
  create_funding_transaction := srv_create_funding_transaction;
  random_secret_key := srv_random_secret_key;
|}.
End server.

(** ** A concrete outside, for evaluations *)
Module Sample.
#[local] Existing Instance Reference.lib.

(** A node at a height, a clock, a counter of fresh keys and the funding
    transactions the wallet would make. *)
Record Chain := { ch_now : Z; ch_height : Z; ch_next_key : Z; ch_created : CreateFundingTxesResult }.

#[export] Instance chain_file : WalletFile Chain := {| write_wallet_file _ d := (Ok (), d) |}.
#[export] Instance chain_outside : MakerOutside Chain := {|
  mo_file := chain_file;
  mo_now := ch_now;
  mo_watch_alive _ := true;
  mo_register_watch_request _ _ d := (Ok (), d);
  mo_get_block_count d := (Ok (ch_height d), d);
  mo_new_connection d := (Ok (), d);
  mo_get_tx_out _ _ d := (Ok (Some {| value := 5000; script_pubkey := [] |}), d);
  mo_tx_block_height _ d := (Ok (Some (ch_height d)), d);
  mo_wait_for_tx_confirmation _ _ d := (Ok (), d);
  mo_send_tx tx d := (Ok (compute_txid tx), d);
  mo_get_raw_transaction _ d := (Err (WE_General "unknown"), d);
  mo_sync_and_save w := (Ok (), w);
  mo_tweakable_keypair d := (Ok (100, pubkey_of 100, []), d);
  mo_generate_keypair d := (ch_next_key d, {| d with ch_next_key := ch_next_key d + 1 |});
  mo_import_swap_address _ _ d := (Ok (), d);
  mo_random_secret_key d := (ch_next_key d, {| d with ch_next_key := ch_next_key d + 1 |});
  mo_create_funding_txes _ _ _ _ _ w := (Ok (ch_created (wl_outside w)), w);
|}.

Definition config : MakerServerConfig :=
  {| msc_base_fee := 100; msc_amount_relative_fee_pct := f64_lit 1 10; msc_time_relative_fee_pct := f64_lit 1 100;
     msc_min_swap_amount := 1000; msc_required_confirms := 1; msc_supported_protocols := [Legacy; Taproot] |}.

(** One regular coin of 20000 sat. *)
Definition coin : Utxo * UTXOSpendInfo :=
  ({| ut_txid := 9; ut_vout := 0; ut_script_pub_key := []; ut_amount := 20000; ut_confirmations := 3; ut_desc := None;
    ut_witness_script := None; ut_address := None |},
   SeedCoin "m/0/0" 20000 P2TR).
Definition store : WalletStore :=
  {| WalletStore_init with wst_offer_maxsize := 20000;
     wst_utxo_cache := {[ {| op_txid := 9; op_vout := 0 |} := coin ]} |}.
(** The funding transaction spends that coin. *)
Definition funding : Transaction :=
  {| version := 2; lock_time := 0;
     input := [{| previous_output := {| op_txid := 9; op_vout := 0 |}; script_sig := []; sequence := 0; witness := [] |}];
     output := [{| value := 4000; script_pubkey := [1] |}; {| value := 15000; script_pubkey := [2] |}] |}.
Definition chain : Chain :=
  {| ch_now := 1000; ch_height := 500; ch_next_key := 70;
     ch_created := {| cfr_funding_txes := [funding]; cfr_payment_output_positions := [0]; cfr_total_miner_fee := 200 |} |}.
Definition server (swaps : gmap string SwapState) : MakerServer Chain :=
  Build_MakerServer config (Build_Wallet store chain) false None false swaps false.
Definition swap (phase : SwapPhase) (amount last_activity : Z) : SwapState :=
  {| (SwapState_default last_activity) with ss_phase := phase; ss_swap_amount := amount |}.
End Sample.
