(* ===== verification/MakerSwaps.v ===== *)
(** The maker's table of swaps in progress: what admission, storing, restoring
    and draining do to it (src/maker/api.rs). *)
From S2P Require Import Prelude Float64 Bitcoin Messages Contract Errors SwapCoin ScriptEval TakerState LegacyVerification MakerHandlers LegacyHandlers WalletStore MakerApi.
#[local] Open Scope string_scope.
#[local] Open Scope list_scope.
#[local] Open Scope Z_scope.

(** ** Enumerations of the table *)
Section enumeration.
Context {hi : HashIter} {hil : HashIterLaws hi}.

Lemma hash_values_insert_new {V} (m : gmap string V) k v :
  m !! k = None -> hash_values (<[k := v]> m) ≡ₚ v :: hash_values m.
Proof.
  intros Hk. unfold hash_values. rewrite !hash_iter_perm, map_to_list_insert by done. done.
Qed.

Lemma filter_map_perm {A B} (P : B -> Prop) `{!forall x, Decision (P x)} (f : A -> B) l k :
  l ≡ₚ k -> filter P (map f l) ≡ₚ filter P (map f k).
Proof. by intros ->. Qed.

Lemma active_insert_new (m : gmap string SwapState) id st :
  m !! id = None ->
  active_swaps (<[id := st]> m) ≡ₚ (if is_active st then [st] else []) ++ active_swaps m.
Proof.
  intros Hid. unfold active_swaps. rewrite (hash_values_insert_new m id st Hid). cbn.
  by destruct (is_active st).
Qed.

Lemma sum_amounts_perm l k : l ≡ₚ k -> sum_amounts l = sum_amounts k.
Proof. unfold sum_amounts. induction 1; cbn; lia. Qed.

Lemma elem_of_ids_where p (m : gmap string SwapState) id :
  id ∈ ids_where p m <-> exists st, m !! id = Some st /\ p st = true.
Proof.
  unfold ids_where. rewrite list_elem_of_fmap. split.
  - intros ([id' st] & -> & [Hp Hin%elem_of_hash_iter]%list_elem_of_filter). exists st.
    split; [done|]. by apply Is_true_true.
  - intros (st & Hin & Hp). exists (id, st). split; [done|]. apply list_elem_of_filter.
    split; [by apply Is_true_true|by apply elem_of_hash_iter].
Qed.

Lemma ids_where_NoDup p (m : gmap string SwapState) : NoDup (ids_where p m).
Proof.
  unfold ids_where. eapply sublist_NoDup.
  - assert (NoDup (map fst (hash_iter m))) as Hnd; [|exact Hnd].
    rewrite hash_iter_perm. apply NoDup_fst_map_to_list.
  - apply (fmap_sublist fst), sublist_filter.
Qed.

Lemma remove_all_lookup ids (m : gmap string SwapState) id :
  remove_all ids m !! id = if decide (id ∈ ids) then None else m !! id.
Proof.
  unfold remove_all. revert m. induction ids as [|i ids IH]; intros m; cbn; [done|].
  rewrite IH. destruct (decide (id ∈ ids)), (decide (id ∈ i :: ids)); try set_solver.
  - assert (id = i) as -> by set_solver. apply lookup_delete_eq.
  - apply lookup_delete_ne. set_solver.
Qed.

Lemma omap_delete_other {B} (f : string -> SwapState -> B) i (ids : list string) (m : gmap string SwapState) :
  i ∉ ids -> omap (fun id => f id <$> delete i m !! id) ids = omap (fun id => f id <$> m !! id) ids.
Proof.
  intros Hi. apply list_omap_ext, Forall_Forall2_diag, list.Forall_forall. intros x Hx.
  rewrite lookup_delete_ne; [done|]. intros ->. by apply Hi.
Qed.

Lemma take_idle_from ids (m : gmap string SwapState) acc :
  NoDup ids ->
  fold_left (fun acc id =>
      match acc.2 !! id with
      | Some st => (acc.1 ++ [idle_data id st], delete id acc.2)
      | None => acc
      end) ids (acc, m) =
    (acc ++ omap (fun id => idle_data id <$> m !! id) ids, remove_all ids m).
Proof.
  revert m acc. induction ids as [|i ids IH]; intros m acc Hnd; cbn; [by rewrite app_nil_r|].
  apply NoDup_cons in Hnd as [Hi Hnd]. destruct (m !! i) as [st|] eqn:Hm; cbn.
  - rewrite IH, omap_delete_other, <- app_assoc by done. done.
  - rewrite IH, delete_id by done. done.
Qed.

Lemma take_idle_spec ids (m : gmap string SwapState) :
  NoDup ids -> take_idle ids m = (omap (fun id => idle_data id <$> m !! id) ids, remove_all ids m).
Proof. apply take_idle_from. Qed.
End enumeration.

(** ** Running the operations *)
Section runs.
Context {lib : BitcoinLib} {hi : HashIter} {D : Type} {outside : MakerOutside D}.
Implicit Types s : MakerServer D.

Lemma get_swaps_run s :
  srv_swaps_poisoned s = false -> get_swaps s = (Ok (srv_ongoing_swaps s), s).
Proof. intros H. unfold get_swaps, lock_swaps, mbind, stateful_bind. by rewrite H. Qed.

Lemma get_connection_state_run id s :
  srv_swaps_poisoned s = false ->
  srv_get_connection_state id s = (Ok (restored_state id <$> srv_ongoing_swaps s !! id), s).
Proof.
  intros H. unfold srv_get_connection_state, mbind at 1, stateful_bind. by rewrite get_swaps_run.
Qed.

Definition with_swap s (id : string) (st : SwapState) : MakerServer D :=
  {| s with srv_ongoing_swaps := <[id := st]> (srv_ongoing_swaps s) |}.

(** A store that is not an admission always goes through. *)
Lemma store_run id state s :
  srv_swaps_poisoned s = false ->
  srv_store_connection_state id state false s =
    (Ok (), with_swap s id (store_fields (now_of s) state
              (default (SwapState_default (now_of s)) (srv_ongoing_swaps s !! id)))).
Proof.
  intros H. unfold srv_store_connection_state, mbind, stateful_bind, mret, stateful_ret, gets.
  rewrite get_swaps_run by done. by destruct (srv_ongoing_swaps s !! id).
Qed.

Lemma balances_spendable w b :
  get_balances w = Ok b -> amount_add (E := MakerError) (bal_regular b) (bal_swap b) = Ok (bal_spendable b).
Proof.
  intros H. unfold get_balances in H. inv_ok H. cbn. unfold amount_add in *.
  repeat match goal with E : expect _ = Ok _ |- _ => apply expect_Ok in E end. by apply expect_Ok.
Qed.

Lemma admission_run id state s b :
  srv_swaps_poisoned s = false -> srv_wallet_poisoned s = false ->
  get_balances (wl_store (srv_wallet s)) = Ok b ->
  srv_store_connection_state id state true s =
    match srv_ongoing_swaps s !! id with
    | None =>
        match check_admission (srv_ongoing_swaps s) (bal_spendable b) (cs_swap_amount state) with
        | Ok _ => (Ok (), with_swap s id (store_fields (now_of s) state (SwapState_default (now_of s))))
        | Err e => (Err e, s)
        | Panic => (Panic, s)
        end
    | Some st =>
        if params_differ st state then (Err ME_SwapParamMismatch, s)
        else (Ok (), with_swap s id {| st with ss_last_activity := now_of s |})
    end.
Proof.
  intros Hs Hw Hb. unfold srv_store_connection_state, mbind, stateful_bind, mret, stateful_ret, gets, lock_wallet, lift.
  rewrite Hw, Hb. cbn [reject map_err]. rewrite (balances_spendable _ _ Hb), get_swaps_run by done.
  destruct (srv_ongoing_swaps s !! id) as [st|]; [by destruct (params_differ st state)|].
  by destruct (check_admission _ _ _).
Qed.

Lemma amount_add_eq {E} a b : amount_add (E := E) a b = if a + b <? 2 ^ 64 then Ok (a + b) else Panic.
Proof. unfold amount_add, checked_add. by destruct (a + b <? 2 ^ 64). Qed.

Lemma try_fold_amounts {A} (f : A -> Amount) (l : list A) acc :
  0 <= acc -> Forall (fun x => 0 <= f x) l ->
  try_fold (E := MakerError) (fun t x => amount_add t (f x)) acc l =
    if acc + sum_amounts (map f l) <? 2 ^ 64 then Ok (acc + sum_amounts (map f l)) else
    if decide (l = []) then Ok acc else Panic.
Proof.
  revert acc. induction l as [|x l IH]; intros acc Hacc Hall.
  - cbn. rewrite Z.add_0_r. by destruct (acc <? 2 ^ 64).
  - apply Forall_cons in Hall as [Hx Hall]. cbn [map sum_amounts foldr try_fold].
    fold (sum_amounts (map f l)).
    assert (0 <= sum_amounts (map f l)) as Hpos.
    { clear IH. unfold sum_amounts. induction Hall; cbn; lia. }
    rewrite amount_add_eq. destruct (Z.ltb_spec (acc + f x) (2 ^ 64)) as [Hlt|Hge]; cbn [mbind outcome_bind].
    + rewrite IH by (lia || done). replace (acc + f x + sum_amounts (map f l)) with
        (acc + (f x + sum_amounts (map f l))) by lia.
      destruct (Z.ltb_spec (acc + (f x + sum_amounts (map f l))) (2 ^ 64)); [done|].
      destruct (decide (l = [])) as [->|]; [cbn in *; lia|done].
    + destruct (Z.ltb_spec (acc + (f x + sum_amounts (map f l))) (2 ^ 64)); [lia|done].
Qed.
End runs.

(** ** Admission *)
Section admission.
Context {lib : BitcoinLib} {hi : HashIter} {hil : HashIterLaws hi} {D : Type} {outside : MakerOutside D}.
Implicit Types s : MakerServer D.

Definition reserved_liquidity (swaps : gmap string SwapState) : Amount :=
  sum_amounts (map ss_swap_amount (active_swaps swaps)).

Definition amounts_ok (swaps : gmap string SwapState) : Prop :=
  forall id st, swaps !! id = Some st -> 0 <= ss_swap_amount st.

Lemma active_amounts swaps :
  amounts_ok swaps -> Forall (fun st => 0 <= ss_swap_amount st) (active_swaps swaps).
Proof.
  intros Hok. apply list.Forall_forall. intros st [_ Hin]%list_elem_of_filter.
  apply elem_of_hash_values in Hin as [id Hid]. by eapply Hok.
Qed.

Lemma reserved_nonneg swaps : amounts_ok swaps -> 0 <= reserved_liquidity swaps.
Proof.
  intros Hok%active_amounts. unfold reserved_liquidity, sum_amounts. induction Hok; cbn; lia.
Qed.

Lemma check_admission_Ok swaps liquidity amount :
  amounts_ok swaps -> 0 <= amount -> liquidity < 2 ^ 64 ->
  check_admission swaps liquidity amount = Ok () <->
  zlen (active_swaps swaps) < MAX_CONCURRENT_SWAPS /\ reserved_liquidity swaps + amount <= liquidity.
Proof.
  intros Hok Ha HL. unfold check_admission. rewrite try_fold_amounts by (done || by apply active_amounts).
  fold (reserved_liquidity swaps). rewrite Z.add_0_l.
  pose proof (reserved_nonneg _ Hok) as Hpos.
  destruct (Z.leb_spec MAX_CONCURRENT_SWAPS (zlen (active_swaps swaps))); cbn [reject mbind outcome_bind].
  { split; [done|]. intros [? _]. lia. }
  destruct (Z.ltb_spec (reserved_liquidity swaps) (2 ^ 64)) as [Hlt|Hge].
  - cbn [mbind outcome_bind]. rewrite amount_add_eq.
    destruct (Z.ltb_spec (reserved_liquidity swaps + amount) (2 ^ 64)); cbn [mbind outcome_bind].
    + rewrite reject_Ok, Z.ltb_ge. naive_solver lia.
    + split; [done|]. intros [_ ?]. lia.
  - destruct (decide (active_swaps swaps = [])) as [E|].
    { unfold reserved_liquidity in Hge. rewrite E in Hge. cbn in Hge. lia. }
    split; [done|]. intros [_ ?]. lia.
Qed.

Lemma spendable_bound w b : get_balances w = Ok b -> bal_spendable b < 2 ^ 64.
Proof.
  intros H%balances_spendable. rewrite amount_add_eq in H.
  destruct (Z.ltb_spec (bal_regular b + bal_swap b) (2 ^ 64)); [by injection H as <-|done].
Qed.

Lemma active_insert_length swaps id st :
  swaps !! id = None -> zlen (active_swaps (<[id := st]> swaps)) <= 1 + zlen (active_swaps swaps).
Proof.
  intros Hid. unfold zlen. rewrite (Permutation_length (active_insert_new swaps id st Hid)), length_app.
  destruct (is_active st); cbn; lia.
Qed.

Lemma reserved_insert swaps id st :
  swaps !! id = None -> 0 <= ss_swap_amount st ->
  reserved_liquidity (<[id := st]> swaps) <= reserved_liquidity swaps + ss_swap_amount st.
Proof.
  intros Hid Hst. unfold reserved_liquidity.
  rewrite (sum_amounts_perm _ _ (Permutation_map ss_swap_amount (active_insert_new swaps id st Hid))).
  rewrite map_app, sum_amounts_app. destruct (is_active st); cbn; lia.
Qed.

(** a new swap is admitted exactly when fewer than thirty swaps are active
    and the amounts they reserve leave room for it in the wallet's spendable
    balance; after an admission both limits still hold, and a refusal leaves the
    server as it was. *)
Lemma admission_respects_limits (id : string) (state : ConnectionState) (s s' : MakerServer D)
    (b : Balances) (r : outcome MakerError ())
    (Hs : srv_swaps_poisoned s = false) (Hw : srv_wallet_poisoned s = false)
    (Hb : get_balances (wl_store (srv_wallet s)) = Ok b)
    (Hok : amounts_ok (srv_ongoing_swaps s)) (Hamount : 0 <= cs_swap_amount state)
    (Hnew : srv_ongoing_swaps s !! id = None)
    (Hrun : srv_store_connection_state id state true s = (r, s')) :
  (r = Ok () <->
     zlen (active_swaps (srv_ongoing_swaps s)) < MAX_CONCURRENT_SWAPS /\
     reserved_liquidity (srv_ongoing_swaps s) + cs_swap_amount state <= bal_spendable b) /\
  (r = Ok () ->
     zlen (active_swaps (srv_ongoing_swaps s')) <= MAX_CONCURRENT_SWAPS /\
     reserved_liquidity (srv_ongoing_swaps s') <= bal_spendable b /\
     amounts_ok (srv_ongoing_swaps s') /\ srv_wallet s' = srv_wallet s) /\
  (r <> Ok () -> s' = s).
Proof.
  rewrite (admission_run id state s b Hs Hw Hb), Hnew in Hrun.
  pose proof (check_admission_Ok _ _ _ Hok Hamount (spendable_bound _ _ Hb)) as Hiff.
  destruct (check_admission _ _ _) as [[]|e|]; injection Hrun as <- <-.
  - split; [by split; [intros _; apply Hiff|]|]. split; [|done]. intros _.
    destruct (proj1 Hiff eq_refl) as [Hn Hl]. cbn [with_swap srv_ongoing_swaps srv_wallet].
    set (st := store_fields _ _ _). pose proof (active_insert_length _ id st Hnew).
    pose proof (reserved_insert _ id st Hnew Hamount) as Hr. change (ss_swap_amount st) with (cs_swap_amount state) in Hr.
    split; [lia|]. split; [lia|]. split; [|done].
    intros id' st' [[<- <-]|[_ Hst]]%lookup_insert_Some; [done|by eapply Hok].
  - split; [|done]. split; [done|]. by intros H%Hiff.
  - split; [|done]. split; [done|]. by intros H%Hiff.
Qed.

(** what is stored for a swap is what a later connection restores, stamped
    with the time of the store and whatever the load, no other swap is touched,
    and a recorded confirmation height survives; a later repeated admission of
    the swap never overwrites it: it is accepted exactly with equal parameters
    and then refreshes the time alone. *)
Lemma stored_swap_is_restored (id : string) (state again : ConnectionState) (s s1 s2 : MakerServer D)
    (w : Wallet D) (b : Balances) (r1 r2 : outcome MakerError ())
    (Hs : srv_swaps_poisoned s = false) (Hw : srv_wallet_poisoned s = false)
    (Hb : get_balances (wl_store w) = Ok b)
    (Hrun1 : srv_store_connection_state id state false s = (r1, s1))
    (Hrun2 : srv_store_connection_state id again true {| s1 with srv_wallet := w |} = (r2, s2)) :
  let stored := {| state with cs_swap_id := Some id; cs_last_activity := now_of s |} in
  r1 = Ok () /\
  srv_get_connection_state id s1 = (Ok (Some stored), s1) /\
  srv_get_connection_state id s2 =
    (Ok (Some (if is_ok r2 then {| stored with cs_last_activity := mo_now (wl_outside w) |} else stored)), s2) /\
  (forall id', id' <> id -> srv_ongoing_swaps s2 !! id' = srv_ongoing_swaps s !! id') /\
  (forall st, srv_ongoing_swaps s !! id = Some st ->
     exists st', srv_ongoing_swaps s2 !! id = Some st' /\
       ss_funding_confirmation_height st' = ss_funding_confirmation_height st) /\
  (r2 = Ok () <->
     cs_swap_amount again = cs_swap_amount state /\ cs_tx_count again = cs_tx_count state /\
     cs_timelock again = cs_timelock state /\ cs_protocol again = cs_protocol state /\
     cs_refund_locktime_offset again = cs_refund_locktime_offset state).
Proof.
  cbv zeta. rewrite store_run in Hrun1 by done. injection Hrun1 as <- <-.
  set (st := store_fields _ _ _) in *. rewrite (admission_run id again _ b) in Hrun2 by done.
  cbn [with_swap srv_ongoing_swaps] in Hrun2. rewrite lookup_insert_eq in Hrun2.
  split; [done|]. split.
  { rewrite get_connection_state_run by done. cbn [with_swap srv_ongoing_swaps]. by rewrite lookup_insert_eq. }
  assert (forall st0 : SwapState, srv_ongoing_swaps s !! id = Some st0 ->
            ss_funding_confirmation_height st = ss_funding_confirmation_height st0) as Hheight.
  { intros st0 Hst0. unfold st. by rewrite Hst0. }
  assert (params_differ st again = false <->
     cs_swap_amount again = cs_swap_amount state /\ cs_tx_count again = cs_tx_count state /\
     cs_timelock again = cs_timelock state /\ cs_protocol again = cs_protocol state /\
     cs_refund_locktime_offset again = cs_refund_locktime_offset state) as Hparams.
  { unfold params_differ. cbn [st store_fields ss_swap_amount ss_tx_count ss_timelock ss_protocol ss_refund_locktime_offset].
    rewrite !orb_false_iff, !negb_false_iff, !Z.eqb_eq, bool_decide_eq_true. naive_solver. }
  destruct (params_differ st again); injection Hrun2 as <- <-.
  - rewrite get_connection_state_run by done. cbn [with_swap srv_ongoing_swaps]. rewrite lookup_insert_eq.
    split; [done|]. split; [intros; by rewrite lookup_insert_ne|].
    split; [intros st0 Hst0; exists st; eauto|]. split; [done|]. by intros ?%Hparams.
  - rewrite get_connection_state_run by done. cbn [with_swap srv_ongoing_swaps]. rewrite lookup_insert_eq.
    split; [done|]. split; [intros; by rewrite !lookup_insert_ne|].
    split; [intros st0 Hst0; eexists; split; [done|by apply Hheight]|]. split; [intros _; by apply Hparams|done].
Qed.
End admission.

(** ** Draining *)
Section drain.
Context {lib : BitcoinLib} {hi : HashIter} {hil : HashIterLaws hi} {D : Type} {outside : MakerOutside D}.
Implicit Types s : MakerServer D.

(** Operations on the wallet leave the table alone. *)
Lemma in_wallet_swaps {A} (op : stateful (Wallet D) WalletError A) s r s' :
  in_wallet op s = (r, s') ->
  srv_ongoing_swaps s' = srv_ongoing_swaps s /\ srv_swaps_poisoned s' = srv_swaps_poisoned s.
Proof. unfold in_wallet. destruct (op (srv_wallet s)). by intros [= <- <-]. Qed.

Lemma current_height_swaps s r s' :
  srv_get_current_height s = (r, s') ->
  srv_ongoing_swaps s' = srv_ongoing_swaps s /\ srv_swaps_poisoned s' = srv_swaps_poisoned s.
Proof.
  unfold srv_get_current_height, lock_wallet, mbind, stateful_bind.
  destruct (srv_wallet_poisoned s); cbn [reject]; [by intros [= <- <-]|].
  destruct (in_wallet _ s) as [[h|e|] s1] eqn:E; apply in_wallet_swaps in E; by intros [= <- <-].
Qed.

Definition observed_height s : option Z :=
  match (srv_get_current_height s).1 with Ok h => Some h | _ => None end.

Lemma drain_run timeout s :
  srv_swaps_poisoned s = false -> (srv_get_current_height s).1 <> Panic ->
  let s1 := (srv_get_current_height s).2 in
  let kept := remove_all (ids_where (releasable (now_of s1) timeout) (srv_ongoing_swaps s)) (srv_ongoing_swaps s) in
  let ids := ids_where (stale (observed_height s) (now_of s1) timeout) kept in
  drain_idle_swaps timeout s =
    (Ok (omap (fun id => idle_data id <$> kept !! id) ids),
     {| s1 with srv_ongoing_swaps := remove_all ids kept |}).
Proof.
  intros Hs Hp. cbv zeta. unfold drain_idle_swaps, observed_height, mbind, stateful_bind, mret, stateful_ret, gets.
  destruct (srv_get_current_height s) as [r s1] eqn:E.
  apply current_height_swaps in E as [Hsw Hpo]. cbn [fst snd] in *.
  destruct r as [h|e|]; [| |done]; rewrite get_swaps_run by congruence; rewrite Hsw;
    by rewrite take_idle_spec by apply ids_where_NoDup.
Qed.

Lemma releasable_no_coins now timeout st :
  releasable now timeout st = true <->
  ss_phase st = AwaitingContractData /\ ss_incoming_swapcoins st = [] /\ ss_outgoing_swapcoins st = [] /\
  ss_pending_funding_txes st = [] /\ ss_funding_broadcast st = false /\ timeout < now - ss_last_activity st.
Proof.
  unfold releasable. rewrite !andb_true_iff, !bool_decide_eq_true, negb_true_iff, Z.ltb_lt. naive_solver.
Qed.

Lemma stale_has_coins h now timeout st : stale h now timeout st = true -> ss_outgoing_swapcoins st <> [].
Proof. unfold stale. rewrite andb_true_iff, negb_true_iff, bool_decide_eq_false. by intros [? _]. Qed.

(** What is left after removing the entries that satisfy [p]. *)
Lemma remove_where_lookup p (m : gmap string SwapState) id st :
  remove_all (ids_where p m) m !! id = Some st <-> m !! id = Some st /\ p st = false.
Proof.
  rewrite remove_all_lookup. case_decide as Hin.
  - apply elem_of_ids_where in Hin as (st' & Hst' & Hr). split; [done|]. intros [Heq Hf]. congruence.
  - split; [|by intros [? _]]. intros Heq. split; [done|]. apply not_true_is_false. intros Hr.
    apply Hin, elem_of_ids_where. eauto.
Qed.

Lemma elem_of_idle p (m : gmap string SwapState) d :
  d ∈ omap (fun id => idle_data id <$> m !! id) (ids_where p m) <->
  exists id st, m !! id = Some st /\ p st = true /\ d = idle_data id st.
Proof.
  rewrite list_elem_of_omap. split.
  - intros (id & (st & Hst & Hp)%elem_of_ids_where & Hd). rewrite Hst in Hd. injection Hd as <-. eauto.
  - intros (id & st & Hst & Hp & ->). exists id. rewrite Hst. split; [|done]. apply elem_of_ids_where. eauto.
Qed.

Lemma idle_ids_sublist ids (m : gmap string SwapState) :
  map isd_swap_id (omap (fun id => idle_data id <$> m !! id) ids) `sublist_of` ids.
Proof. induction ids as [|i ids IH]; [done|]. cbn. destruct (m !! i); cbn; by constructor. Qed.

(** draining splits the table: every swap with outgoing coins that is past
    its refund deadline or idle is handed to recovery, exactly once and with all
    its coins; a swap that disappears without being handed over holds no coin
    and no funding, on either side; every other swap stays as it was. *)
Lemma drain_partitions_swaps (timeout : Z) (s : MakerServer D)
    (Hs : srv_swaps_poisoned s = false) (Hp : (srv_get_current_height s).1 <> Panic) :
  exists idle s' now,
    drain_idle_swaps timeout s = (Ok idle, s') /\
    NoDup (map isd_swap_id idle) /\
    (forall d, d ∈ idle -> exists st, srv_ongoing_swaps s !! isd_swap_id d = Some st /\ d = idle_data (isd_swap_id d) st) /\
    (forall id st, srv_ongoing_swaps s !! id = Some st ->
       (stale (observed_height s) now timeout st = true ->
          idle_data id st ∈ idle /\ srv_ongoing_swaps s' !! id = None) /\
       (stale (observed_height s) now timeout st = false ->
          srv_ongoing_swaps s' !! id = Some st \/
          (srv_ongoing_swaps s' !! id = None /\ ss_incoming_swapcoins st = [] /\ ss_outgoing_swapcoins st = [] /\
           ss_pending_funding_txes st = [] /\ ss_funding_broadcast st = false /\
           timeout < now - ss_last_activity st))) /\
    (forall id, srv_ongoing_swaps s !! id = None -> srv_ongoing_swaps s' !! id = None).
Proof.
  pose proof (drain_run timeout s Hs Hp) as Hrun. cbv zeta in Hrun.
  set (now := now_of _) in *. set (kept := remove_all _ (srv_ongoing_swaps s)) in *.
  eexists _, _, now. split; [exact Hrun|]. cbn [srv_ongoing_swaps].
  assert (forall id st, kept !! id = Some st <->
            srv_ongoing_swaps s !! id = Some st /\ releasable now timeout st = false) as Hkept
    by (intros; apply remove_where_lookup).
  split; [eapply sublist_NoDup; [apply ids_where_NoDup|apply idle_ids_sublist]|].
  split; [|split].
  - intros d (id & st & Hk%Hkept & _ & ->)%elem_of_idle. exists st. by split; [apply Hk|].
  - intros id st Hst. split.
    + intros Hstale. assert (kept !! id = Some st) as Hk.
      { apply Hkept. split; [done|]. apply not_true_is_false. intros (_ & _ & Ho & _)%releasable_no_coins.
        by apply stale_has_coins in Hstale. }
      split; [apply elem_of_idle; eauto|].
      apply eq_None_not_Some. intros [st' [Hst' Hf]%remove_where_lookup]. congruence.
    + intros Hstale. destruct (releasable now timeout st) eqn:Hr.
      * right. split; [|by apply releasable_no_coins in Hr as (_ & ? & ? & ? & ? & ?)].
        apply eq_None_not_Some. intros [st' [Hk%Hkept _]%remove_where_lookup]. destruct Hk. congruence.
      * left. apply remove_where_lookup. split; [|done]. by apply Hkept.
  - intros id Hid. apply eq_None_not_Some. intros [st' [Hk%Hkept _]%remove_where_lookup]. destruct Hk. congruence.
Qed.
End drain.

(** ** Witnesses *)
#[local] Existing Instance Reference.lib.
#[local] Existing Instance key_order.
#[local] Existing Instance Sample.chain_outside.

Definition one_swap : gmap string SwapState := {["a" := Sample.swap AwaitingContractData 6000 900]}.
Definition new_state : ConnectionState :=
  {| (ConnectionState_new 1000 Legacy) with cs_phase := AwaitingContractData; cs_swap_amount := 9000; cs_timelock := 40 |}.
Definition sample_balances : Balances :=
  {| bal_regular := 20000; bal_swap := 0; bal_contract := 0; bal_fidelity := 0; bal_spendable := 20000 |}.

Lemma admission_respects_limits_witness :
  exists s', srv_store_connection_state "b" new_state true (Sample.server one_swap) = (Ok (), s') /\
    reserved_liquidity (srv_ongoing_swaps s') <= 20000.
Proof.
  destruct (srv_store_connection_state "b" new_state true (Sample.server one_swap)) as [r s'] eqn:E.
  destruct (admission_respects_limits "b" new_state (Sample.server one_swap) s' sample_balances r
              eq_refl eq_refl) as (Hiff & Hafter & _); [vm_compute; reflexivity| |vm_compute; discriminate|reflexivity|exact E|].
  - intros id st H. change (one_swap !! id = Some st) in H. unfold one_swap in H. apply lookup_singleton_Some in H as [_ <-]. vm_compute. discriminate.
  - assert (r = Ok ()) as -> by (apply Hiff; vm_compute; split; [reflexivity|discriminate]).
    exists s'. split; [reflexivity|]. apply Hafter. reflexivity.
Defined.

Lemma stored_swap_is_restored_witness :
  exists s1 s2, srv_store_connection_state "a" new_state false (Sample.server one_swap) = (Ok (), s1) /\
    srv_store_connection_state "a" new_state true s1 = (Ok (), s2).
Proof.
  destruct (srv_store_connection_state "a" new_state false (Sample.server one_swap)) as [r1 s1] eqn:E1.
  assert (s1 = {| s1 with srv_wallet := srv_wallet (Sample.server one_swap) |}) as Hs1.
  { apply (f_equal snd) in E1. cbn [snd] in E1. subst s1. vm_compute. reflexivity. }
  destruct (srv_store_connection_state "a" new_state true s1) as [r2 s2] eqn:E2. rewrite Hs1 in E2.
  destruct (stored_swap_is_restored "a" new_state new_state (Sample.server one_swap) s1 s2
              (srv_wallet (Sample.server one_swap)) sample_balances r1 r2 eq_refl eq_refl)
    as (-> & _ & _ & _ & _ & Hr2); [vm_compute; reflexivity|exact E1|exact E2|].
  assert (r2 = Ok ()) as -> by (apply Hr2; done). exists s1, s2. split; [reflexivity|]. rewrite Hs1. exact E2.
Defined.

Lemma drain_partitions_swaps_witness :
  exists idle s', drain_idle_swaps 50 (Sample.server one_swap) = (Ok idle, s') /\
    srv_ongoing_swaps s' !! "z" = None.
Proof.
  destruct (drain_partitions_swaps 50 (Sample.server one_swap) eq_refl) as (idle & s' & now & Hrun & _ & _ & _ & Hnone).
  - vm_compute. discriminate.
  - exists idle, s'. split; [exact Hrun|]. apply Hnone. reflexivity.
Defined.
