(* ===== verification/MakerFunding.v ===== *)
(** From an approved contract to a claimable coin: what the maker's signing of
    sender contracts and its verification of a proof of funding (src/maker/api.rs)
    guarantee together. *)
From S2P Require Import Prelude Float64 Bitcoin Messages Contract Errors SwapCoin ScriptEval TakerState LegacyVerification MakerHandlers LegacyHandlers WalletStore MakerApi MakerSwaps.
#[local] Open Scope string_scope.
#[local] Open Scope list_scope.
#[local] Open Scope Z_scope.

(** ** Views a stateful operation leaves alone *)
Definition keeps_view {S E A B} (view : S -> B) (m : stateful S E A) : Prop :=
  forall s, view (m s).2 = view s.
Create HintDb view.

Section views.
Context {S E V : Type} (view : S -> V).

Lemma keeps_view_ret {A} (a : A) : keeps_view view (mret a : stateful S E A).
Proof. done. Qed.
Lemma keeps_view_lift {A} (m : outcome E A) : keeps_view view (lift m).
Proof. done. Qed.
Lemma keeps_view_gets {A} (f : S -> A) : keeps_view view (gets (E := E) f).
Proof. done. Qed.
Lemma keeps_view_bind {A B} (m : stateful S E A) (f : A -> stateful S E B) :
  keeps_view view m -> (forall a, keeps_view view (f a)) -> keeps_view view (m ≫= f).
Proof.
  intros Hm Hf s. specialize (Hm s). unfold mbind, stateful_bind.
  destruct (m s) as [[a|e|] s1]; [|done..]. cbn in *. by rewrite Hf.
Qed.
Lemma keeps_view_map {A B} (f : A -> stateful S E B) xs :
  (forall x, keeps_view view (f x)) -> keeps_view view (st_map f xs).
Proof.
  intros Hf. induction xs as [|x xs IH]; [done|]. cbn [st_map].
  apply keeps_view_bind; [apply Hf|]. intros y. by apply keeps_view_bind.
Qed.
Lemma keeps_view_fold {A B} (f : B -> A -> stateful S E B) acc xs :
  (forall b x, keeps_view view (f b x)) -> keeps_view view (st_fold f acc xs).
Proof.
  intros Hf. revert acc. induction xs as [|x xs IH]; intros acc; [done|]. cbn [st_fold].
  by apply keeps_view_bind.
Qed.
(** A run of a sequence ends in its first part or goes through it. *)
Lemma st_bind_run {A B} (m : stateful S E A) (f : A -> stateful S E B) s r s' :
  (m ≫= f) s = (r, s') ->
  ((m s).2 = s' /\ is_ok r = false) \/ (exists a s1, m s = (Ok a, s1) /\ f a s1 = (r, s')).
Proof.
  unfold mbind, stateful_bind. destruct (m s) as [[a|e|] s1]; [intros H; right; eauto|intros [= <- <-]; by left..].
Qed.
Lemma keeps_view_Ok {A} (m : stateful S E A) s r s' : keeps_view view m -> m s = (r, s') -> view s' = view s.
Proof. intros Hm Hr. specialize (Hm s). by rewrite Hr in Hm. Qed.
End views.
#[export] Hint Resolve keeps_view_ret keeps_view_lift keeps_view_gets keeps_view_map keeps_view_fold : view.

(** Decomposes an operation into steps that keep the view. *)
Ltac keep_view :=
  repeat first
    [ solve [auto with view]
    | apply keeps_view_bind; [|intros ?]
    | apply keeps_view_map; intros ?
    | apply keeps_view_fold; intros ? ?
    | progress intros ?
    | case_match ].

Section server_views.
Context {lib : BitcoinLib} {hi : HashIter} {D : Type} {outside : MakerOutside D}.
Implicit Types s : MakerServer D.

Definition store_of s : WalletStore := wl_store (srv_wallet s).

Lemma lock_wallet_view {B} (view : MakerServer D -> B) : keeps_view view lock_wallet.
Proof. done. Qed.
Lemma lock_swaps_view {B} (view : MakerServer D -> B) : keeps_view view lock_swaps.
Proof. done. Qed.
Lemma in_outside_store {A} (op : stateful D WalletError A) : keeps_view store_of (in_wallet (in_outside op)).
Proof.
  intros s. unfold in_wallet, in_outside, store_of. by destruct (op (wl_outside (srv_wallet s))).
Qed.
Lemma in_wallet_table {A} (op : stateful (Wallet D) WalletError A) :
  keeps_view srv_ongoing_swaps (in_wallet op).
Proof. intros s. unfold in_wallet. by destruct (op (srv_wallet s)). Qed.
Lemma set_swaps_store f : keeps_view store_of (set_swaps (D := D) f).
Proof. done. Qed.
End server_views.
#[export] Hint Resolve lock_wallet_view lock_swaps_view in_outside_store in_wallet_table set_swaps_store : view.

(** ** Approved contracts *)
Section approved.
Context {lib : BitcoinLib} {laws : BitcoinLaws lib} {hi : HashIter} {D : Type} {outside : MakerOutside D}.
Implicit Types s : MakerServer D.

(** The contract script the maker builds from a sender's request: for a hashlock
    key derived from its own tweakable key. *)
Definition approved_script (tw : PublicKey) (rs : Script) : Prop :=
  exists nonce hk pt h l,
    calculate_pubkey_from_nonce tw nonce = Ok hk /\ sent_pubkey pt /\ length h = 20%nat /\ is_u16 l /\
    rs = create_contract_redeemscript hk pt h l.

(** Every cached binding is the script hash of an approved script; [G] is the
    ghost map that remembers the script. *)
Definition bound_to (tw : PublicKey) (spk rs : Script) : Prop :=
  approved_script tw rs /\ spk = 0 :: 32 :: wscript_hash rs.
Definition bindings_ok (tw : PublicKey) (G m : gmap OutPoint Script) : Prop :=
  forall p, option_Forall2 (bound_to tw) (m !! p) (G !! p).

Lemma bindings_ok_insert tw G m p spk rs :
  bindings_ok tw G m -> bound_to tw spk rs -> bindings_ok tw (<[p := rs]> G) (<[p := spk]> m).
Proof.
  intros Hok Hb p'. destruct (decide (p' = p)) as [->|Hne].
  - rewrite !lookup_insert_eq. by constructor.
  - rewrite !lookup_insert_ne by done. apply Hok.
Qed.

Lemma extend_bindings_ok tw bs : forall G m,
  bindings_ok tw G m -> Forall (fun b => exists rs, bound_to tw b.2 rs) bs ->
  exists G', bindings_ok tw G' (map_extend m bs) /\
    forall p rs, G !! p = Some rs -> (forall spk, (p, spk) ∈ bs -> m !! p = Some spk) -> G' !! p = Some rs.
Proof.
  induction bs as [|[p0 spk0] bs IH]; intros G m Hok Hall; [by exists G|].
  apply Forall_cons in Hall as [[rs0 Hb] Hall]. cbn in Hb.
  change (map_extend m ((p0, spk0) :: bs)) with (map_extend (<[p0 := spk0]> m) bs).
  destruct (decide (m !! p0 = Some spk0)) as [Hold|Hnew].
  - rewrite insert_id by done. destruct (IH G m Hok Hall) as (G' & HG' & Hsub). exists G'. split; [done|].
    intros p rs Hp Hs. apply Hsub; [done|]. intros spk Hin. apply Hs. by right.
  - destruct (IH _ _ (bindings_ok_insert _ _ _ p0 _ _ Hok Hb) Hall) as (G' & HG' & Hsub). exists G'.
    split; [done|]. intros p rs Hp Hs.
    assert (p <> p0) as Hne by (intros ->; apply Hnew, Hs; by left).
    apply Hsub; [by rewrite lookup_insert_ne|]. intros spk Hin. rewrite lookup_insert_ne by done.
    apply Hs. by right.
Qed.

(** The values a peer's request carries, as their Rust types constrain them. *)
Definition wf_sender_request (infos : list ContractTxInfoForSender) (h : Hash160) (l : Z) : Prop :=
  length h = 20%nat /\ is_u16 l /\ Forall (fun i => sent_pubkey (cts_timelock_pubkey i)) infos.

Lemma sender_info_binding tw h l info b :
  sender_info_ok tw h l info -> sent_pubkey (cts_timelock_pubkey info) -> length h = 20%nat -> is_u16 l ->
  contract_binding info = Ok b ->
  exists rs, bound_to tw b.2 rs.
Proof.
  intros (k1 & k2 & mine & hk & inp & o & _ & _ & _ & Hi & Ho & Hhk & Hspk) Hpt Hh Hl Hb.
  unfold contract_binding in Hb. rewrite Hi, Ho in Hb. cbn in Hb. injection Hb as <-.
  eexists. split; [|exact Hspk]. do 5 eexists. eauto.
Qed.

Lemma request_bindings tw h l infos bs :
  wf_sender_request infos h l ->
  verify_req_contract_sigs_for_sender infos tw h l = Ok () -> try_map contract_binding infos = Ok bs ->
  Forall (fun b => exists rs, bound_to tw b.2 rs) bs.
Proof.
  intros (Hh & Hl & Hpt) (_ & Hmax & Hall)%verify_req_contract_sigs_Ok Hbs%try_map_Ok; [|done].
  apply list.Forall_forall. intros b Hin. apply list_elem_of_lookup in Hin as [i Hi].
  destruct (Forall2_lookup_r _ _ _ _ _ Hbs Hi) as (info & Hinfo & Hb).
  eapply sender_info_binding; [| |exact Hh| |exact Hb].
  - by eapply Forall_lookup_1 in Hall.
  - by eapply (Forall_lookup_1 _ _ _ _ Hpt).
  - unfold in_width, U16_MAX, REFUND_LOCKTIME_STEP in *. lia.
Qed.

(** The key material is derived from the wallet's master key and does not change. *)
Definition tweakable_key (priv : SecretKey) : Prop :=
  forall d : D, exists cc d', mo_tweakable_keypair d = (Ok (priv, pubkey_of priv, cc), d').

Lemma in_outside_keypair priv s r s' :
  tweakable_key priv -> in_wallet (in_outside mo_tweakable_keypair) s = (r, s') ->
  exists cc, r = Ok (priv, pubkey_of priv, cc).
Proof.
  intros Hkey. unfold in_wallet, in_outside. destruct (Hkey (wl_outside (srv_wallet s))) as (cc & d & ->).
  intros [= <- _]. by exists cc.
Qed.

Definition bindings_of s : gmap OutPoint Script := wst_prevout_to_contract_map (store_of s).

Lemma cache_in_wallet bs s r s' :
  in_wallet (cache_prevout_to_contract bs) s = (r, s') ->
  (s' = s /\ is_ok r = false) \/
  ((forall b, b ∈ bs -> rebinds (bindings_of s) b = false) /\ bindings_of s' = map_extend (bindings_of s) bs).
Proof.
  unfold in_wallet. pose proof (cache_prevout_cases bs (srv_wallet s)) as Hc.
  destruct (cache_prevout_to_contract bs (srv_wallet s)) as [r0 w]. cbn [fst snd] in Hc. intros [= <- <-].
  destruct Hc as [(b & _ & _ & -> & Hf)|(Hre & Hw & _)].
  - left. split; [by destruct s|by destruct r0].
  - right. split; [done|]. unfold bindings_of, store_of. cbn. by rewrite Hw.
Qed.

(** A signing request fails before it caches anything, or it was verified and
    its bindings are cached. *)
Lemma sign_sender_cases priv infos h l s r s' :
  tweakable_key priv ->
  srv_verify_and_sign_sender_contract_txs infos h l s = (r, s') ->
  (is_ok r = false /\ bindings_of s' = bindings_of s) \/
  (verify_req_contract_sigs_for_sender infos (pubkey_of priv) h l = Ok () /\
   exists bs, try_map contract_binding infos = Ok bs /\
     (forall b, b ∈ bs -> rebinds (bindings_of s) b = false) /\
     bindings_of s' = map_extend (bindings_of s) bs).
Proof.
  intros Hkey Hrun. assert (keeps_view bindings_of srv_get_tweakable_keypair) as Hview.
  { intros s0. unfold bindings_of. f_equal. unfold srv_get_tweakable_keypair.
    apply (keeps_view_bind store_of); auto with view. }
  apply st_bind_run in Hrun as [[<- Hr]|([[sk pk] cc] & s1 & Hk & Hrun)]; [left; by rewrite Hview|].
  pose proof (keeps_view_Ok _ _ _ _ _ Hview Hk) as <-.
  assert (sk = priv /\ pk = pubkey_of priv) as [-> ->].
  { unfold srv_get_tweakable_keypair in Hk. apply st_bind_Ok in Hk as ([] & s2 & _ & Hk).
    destruct (in_outside_keypair priv _ _ _ Hkey Hk) as [cc' [= -> -> _]]. done. }
  apply st_bind_run in Hrun as [[<- Hr]|([] & s2 & [Hv ->]%lift_Ok & Hrun)]; [by left|].
  apply st_bind_run in Hrun as [[<- Hr]|(bs & s2 & [Hbs ->]%lift_Ok & Hrun)]; [by left|].
  apply st_bind_run in Hrun as [[<- Hr]|([] & s2 & Hlock & Hrun)]; [by left|].
  assert (s2 = s1) as -> by (unfold lock_wallet in Hlock; by injection Hlock).
  destruct (in_wallet (cache_prevout_to_contract bs) s1) as [rc sc] eqn:Hc.
  pose proof (cache_in_wallet _ _ _ _ Hc) as Hcache.
  apply st_bind_run in Hrun as [[Hs Hr]|([] & s3 & Hs & Hrun)]; rewrite Hc in Hs.
  - cbn in Hs. subst sc. destruct Hcache as [[-> _]|[Hre Hm]]; [by left|]. right. eauto 6.
  - injection Hs as -> ->. injection Hrun as _ <-. destruct Hcache as [[_ Hf]|[Hre Hm]]; [done|]. right. eauto 6.
Qed.

(** signing for senders never binds a funding prevout to anything but the
    script hash of a contract for the maker's own derived hashlock key, however
    the request ends, and never changes the contract a prevout was bound to. *)
Lemma only_approved_contracts_are_bound (priv : SecretKey) (infos : list ContractTxInfoForSender)
    (h : Hash160) (l : Z) (G : gmap OutPoint Script) (s s' : MakerServer D)
    (r : outcome MakerError (list Signature))
    (Hkey : tweakable_key priv) (Hwf : wf_sender_request infos h l)
    (Hok : bindings_ok (pubkey_of priv) G (bindings_of s))
    (Hrun : srv_verify_and_sign_sender_contract_txs infos h l s = (r, s')) :
  exists G', bindings_ok (pubkey_of priv) G' (bindings_of s') /\
    (forall p rs, G !! p = Some rs -> G' !! p = Some rs) /\
    (forall sigs, r = Ok sigs -> forall info, info ∈ infos ->
       sender_info_ok (pubkey_of priv) h (l + REFUND_LOCKTIME_STEP) info /\
       exists i o, input (cts_senders_contract_tx info) = [i] /\ output (cts_senders_contract_tx info) = [o] /\
         is_Some (G' !! previous_output i)).
Proof.
  destruct (sign_sender_cases priv infos h l s r s' Hkey Hrun) as [[Hr ->]|(Hv & bs & Hbs & Hre & ->)].
  { exists G. split; [done|]. split; [done|]. by intros sigs ->. }
  destruct (extend_bindings_ok (pubkey_of priv) bs G (bindings_of s) Hok) as (G' & HG' & Hsub).
  { by eapply request_bindings. }
  exists G'. split; [done|]. split.
  - intros p rs Hp. apply (Hsub p rs Hp). intros spk Hin. specialize (Hre _ Hin). unfold rebinds in Hre.
    cbn in Hre. pose proof (Hok p) as Hpok. rewrite Hp in Hpok. inversion Hpok as [spk' ? _ Heq|]. rewrite <- Heq in Hre.
    apply negb_false_iff, bool_decide_eq_true in Hre. by rewrite Hre.
  - intros sigs _ info Hin. pose proof (proj1 (proj2 Hwf)) as Hl.
    apply verify_req_contract_sigs_Ok in Hv as (_ & _ & Hall); [|done].
    eapply list.Forall_forall in Hall; [|exact Hin]. split; [done|].
    destruct Hall as (k1 & k2 & mine & hk & i & o & _ & _ & _ & Hi & Ho & _). exists i, o. split; [done|]. split; [done|].
    apply try_map_Ok in Hbs. apply list_elem_of_lookup in Hin as [n Hn].
    destruct (Forall2_lookup_l _ _ _ _ _ Hbs Hn) as (b & Hb & Hbind).
    unfold contract_binding in Hbind. rewrite Hi, Ho in Hbind. cbn in Hbind. injection Hbind as <-.
    specialize (HG' (previous_output i)). rewrite map_extend_lookup in HG'.
    destruct (last _) as [b'|] eqn:Hlast; [by inversion HG'; eexists|].
    exfalso. apply last_None in Hlast. apply list_elem_of_lookup_2 in Hb.
    eapply not_elem_of_nil. rewrite <- Hlast. apply list_elem_of_filter. split; [|exact Hb]. done.
Qed.
End approved.

(** ** Proven fundings *)
Section proven.
Context {lib : BitcoinLib} {laws : BitcoinLaws lib} {hi : HashIter} {D : Type} {outside : MakerOutside D}.
Implicit Types s : MakerServer D.

(** What one accepted entry of a proof of funding establishes, given the cached
    bindings [m]. *)
Record proven (tw : PublicKey) (m : gmap OutPoint Script) (refund_locktime : Z) (h : Hash160)
    (info : FundingTxInfo) (op : OutPoint) : Prop := {
  pr_locktime : exists l, read_contract_locktime (fti_contract_redeemscript info) = Ok l /\
    refund_locktime + MIN_CONTRACT_REACTION_TIME <= l;
  pr_outpoint : funding_outpoint_of info = Ok op;
  pr_multisig : check_reedemscript_is_multisig (fti_multisig_redeemscript info) = Ok ();
  pr_keys : check_funding_keys tw info = Ok ();
  pr_bound : m !! op = Some (0 :: 32 :: wscript_hash (fti_contract_redeemscript info));
  pr_hash : read_hashvalue_from_contract (fti_contract_redeemscript info) = Ok h;
}.

Lemma lock_wallet_Ok s u s' : lock_wallet s = (Ok u, s') -> s' = s.
Proof. unfold lock_wallet. by injection 1. Qed.

Lemma wait_store txid n : keeps_view store_of (srv_wait_for_tx_on_chain (D := D) txid n).
Proof. unfold srv_wait_for_tx_on_chain. keep_view. Qed.

Lemma server_gets_Ok {A} (f : MakerServer D -> A) s a s' :
  gets (E := MakerError) f s = (Ok a, s') -> a = f s /\ s' = s.
Proof. by injection 1 as <- <-. Qed.

Lemma common_hashvalue_Ok prev this r :
  common_hashvalue prev this = Ok r -> r = Some this /\ (prev = None \/ prev = Some this).
Proof.
  unfold common_hashvalue. destruct prev as [p|]; [|by intros [= <-]; split; [|left]].
  case_bool_decide as Hne; [done|]. intros [= <-]. subst. by split; [|right].
Qed.

Lemma verify_funding_Ok priv rl scan info s scan' s' :
  tweakable_key (D := D) priv -> 0 <= rl ->
  verify_funding rl scan info s = (Ok scan', s') ->
  store_of s' = store_of s /\
  exists h op, proven (pubkey_of priv) (bindings_of s) rl h info op /\
    op ∉ scan_seen scan /\ scan_seen scan' = op :: scan_seen scan /\
    scan_hashvalue scan' = Some h /\ (scan_hashvalue scan = None \/ scan_hashvalue scan = Some h).
Proof.
  intros Hkey Hrl Hrun. unfold verify_funding in Hrun.
  apply st_bind_Ok in Hrun as (l & ? & [Hl ->]%lift_Ok & Hrun). apply map_err_Ok in Hl.
  apply st_bind_Ok in Hrun as ([] & ? & [Hgap%reject_Ok ->]%lift_Ok & Hrun).
  apply st_bind_Ok in Hrun as (op & ? & [Hop ->]%lift_Ok & Hrun).
  apply st_bind_Ok in Hrun as ([] & ? & [Hseen%reject_Ok ->]%lift_Ok & Hrun).
  apply st_bind_Ok in Hrun as (n & ? & [-> ->]%server_gets_Ok & Hrun).
  apply st_bind_Ok in Hrun as ([] & s1 & Hw & Hrun). pose proof (keeps_view_Ok _ _ _ _ _ (wait_store _ _) Hw) as H1.
  apply st_bind_Ok in Hrun as ([] & ? & ->%lock_wallet_Ok & Hrun).
  apply st_bind_Ok in Hrun as (txout & s2 & Ho & Hrun).
  pose proof (keeps_view_Ok _ _ _ _ _ (in_outside_store _) Ho) as H2.
  apply st_bind_Ok in Hrun as ([] & ? & [_ ->]%lift_Ok & Hrun).
  apply st_bind_Ok in Hrun as (height & s3 & Hh & Hrun).
  pose proof (keeps_view_Ok _ _ _ _ _ (in_outside_store _) Hh) as H3.
  apply st_bind_Ok in Hrun as ([] & ? & [Hms%map_err_Ok ->]%lift_Ok & Hrun).
  apply st_bind_Ok in Hrun as ([[sk pk] cc] & s4 & Hk & Hrun).
  pose proof (keeps_view_Ok _ _ _ _ _ (in_outside_store _) Hk) as H4.
  destruct (in_outside_keypair priv _ _ _ Hkey Hk) as [cc' [= -> -> _]].
  apply st_bind_Ok in Hrun as ([] & ? & [Hkeys ->]%lift_Ok & Hrun).
  apply st_bind_Ok in Hrun as (spk & ? & [Hspk%map_err_Ok ->]%lift_Ok & Hrun).
  rewrite redeemscript_to_scriptpubkey_Ok in Hspk. injection Hspk as <-.
  apply st_bind_Ok in Hrun as (cached & ? & [-> ->]%server_gets_Ok & Hrun).
  apply st_bind_Ok in Hrun as ([] & ? & [Hc%map_err_Ok ->]%lift_Ok & Hrun). apply ensure_prevout_Ok in Hc.
  apply st_bind_Ok in Hrun as (this & ? & [Hthis%map_err_Ok ->]%lift_Ok & Hrun).
  apply st_bind_Ok in Hrun as (hv & ? & [[-> Hprev]%common_hashvalue_Ok ->]%lift_Ok & Hrun).
  injection Hrun as <- <-. cbn [scan_seen scan_hashvalue].
  assert (store_of s4 = store_of s) as Hst by congruence. split; [done|]. exists this, op. to_prop.
  split; [|done]. split; try done.
  - exists l. split; [done|]. unfold saturating_sub, MIN_CONTRACT_REACTION_TIME in *. lia.
  - change (wst_prevout_to_contract_map (wl_store (srv_wallet s4)) !! op =
            Some (0 :: 32 :: wscript_hash (fti_contract_redeemscript info))) in Hc.
    unfold bindings_of. by rewrite <- Hst.
Qed.

Lemma verify_fundings_Ok priv rl infos : forall scan s scan' s',
  tweakable_key (D := D) priv -> 0 <= rl ->
  st_fold (verify_funding rl) scan infos s = (Ok scan', s') ->
  store_of s' = store_of s /\
  exists ops, scan_seen scan' = rev ops ++ scan_seen scan /\
    (NoDup (scan_seen scan) -> NoDup (scan_seen scan')) /\
    (scan_hashvalue scan' = None -> infos = [] /\ scan_hashvalue scan = None) /\
    (forall h, scan_hashvalue scan' = Some h ->
       Forall2 (proven (pubkey_of priv) (bindings_of s) rl h) infos ops /\
       (scan_hashvalue scan = None \/ scan_hashvalue scan = Some h)).
Proof.
  induction infos as [|info infos IH]; intros scan s scan' s' Hkey Hrl Hrun; cbn [st_fold] in Hrun.
  { injection Hrun as <- <-. split; [done|]. exists []. split; [done|]. split; [done|]. split; [done|].
    intros h Hh. split; [constructor|by right]. }
  apply st_bind_Ok in Hrun as (scan1 & s1 & H1 & Hrun).
  apply (verify_funding_Ok priv) in H1 as (Hst & h1 & op & Hp & Hnew & Hseen & Hh1 & Hprev); [|done..].
  apply IH in Hrun as (Hst' & ops & Hops & Hnd & Hnone & Hsome); [|done..].
  split; [congruence|]. exists (op :: ops). cbn [rev]. split; [by rewrite Hops, Hseen, <- app_assoc|].
  split; [intros Hd; apply Hnd; rewrite Hseen; by constructor|].
  split; [intros [_ Hf]%Hnone; congruence|].
  intros h Hh. destruct (Hsome h Hh) as [Hall [Hf|Hf]]; [congruence|].
  assert (h1 = h) as -> by congruence. split; [|done]. constructor; [done|].
  unfold bindings_of in *. by rewrite <- Hst.
Qed.

Lemma verify_proof_Ok priv pof s h s' :
  tweakable_key (D := D) priv -> 0 <= pof_refund_locktime pof ->
  srv_verify_proof_of_funding pof s = (Ok h, s') ->
  store_of s' = store_of s /\ pof_confirmed_funding_txes pof <> [] /\
  exists ops, NoDup ops /\
    Forall2 (proven (pubkey_of priv) (bindings_of s) (pof_refund_locktime pof) h)
      (pof_confirmed_funding_txes pof) ops.
Proof.
  intros Hkey Hrl Hrun. unfold srv_verify_proof_of_funding in Hrun.
  apply st_bind_Ok in Hrun as ([] & ? & [Hne%reject_Ok ->]%lift_Ok & Hrun).
  apply st_bind_Ok in Hrun as (scan & s1 & Hscan & Hrun).
  apply (verify_fundings_Ok priv) in Hscan as (Hst & ops & Hops & Hnd & _ & Hsome); [|done..].
  apply st_bind_Ok in Hrun as ([] & s2 & Hset & [Hh%ok_or_Ok ->]%lift_Ok).
  assert (store_of s2 = store_of s1) as Hst2.
  { destruct (scan_confirmed_at scan); [|by injection Hset as <-].
    apply st_bind_Ok in Hset as ([] & s3 & Hl & Hset). unfold lock_swaps in Hl. injection Hl as _ ->.
    by injection Hset as <-. }
  to_prop. split; [congruence|]. split; [done|]. exists ops. cbn [scan_seen] in Hops.
  rewrite app_nil_r in Hops. split; [|by apply Hsome].
  specialize (Hnd ltac:(constructor)). rewrite Hops in Hnd. by rewrite <- Permutation_rev in Hnd.
Qed.

Lemma nonce_key priv n k :
  secret_add_tweak priv n = Some k -> calculate_pubkey_from_nonce (pubkey_of priv) n = Ok (pubkey_of k).
Proof.
  intros H%secret_add_tweak_point. unfold calculate_pubkey_from_nonce. cbn [inner pubkey_of].
  by rewrite H.
Qed.

Lemma nonce_key_wf tw n k : calculate_pubkey_from_nonce tw n = Ok k -> wf_pubkey k.
Proof.
  unfold calculate_pubkey_from_nonce. intros H. inv_ok H. split; [done|].
  match goal with H : point_combine _ _ = Some _ |- _ => by apply point_combine_valid in H end.
Qed.

(** The coin the handler builds for a proven funding. *)
Lemma incoming_coin_shape id priv info c :
  incoming_from_funding id priv info = Ok c ->
  secret_add_tweak priv (fti_hashlock_nonce info) = Some (isc_hashlock_privkey c) /\
  isc_protocol c = Legacy /\ isc_other_privkey c = None /\
  isc_contract_redeemscript c = Some (fti_contract_redeemscript info) /\
  exists v, output (isc_contract_tx c) =
    [{| value := v; script_pubkey := 0 :: 32 :: wscript_hash (fti_contract_redeemscript info) |}].
Proof.
  unfold incoming_from_funding. intros H.
  apply bind_Ok in H as ([k1 k2] & _ & H). apply bind_Ok in H as ([idx o] & _ & H).
  apply bind_Ok in H as (mk & _ & H). cbv zeta in H. apply bind_Ok in H as (hk & Hhk%ok_or_Ok & H).
  apply bind_Ok in H as (tx & Htx%map_err_Ok & H). injection H as <-.
  unfold create_receivers_contract_tx in Htx. rewrite create_senders_contract_tx_eq in Htx.
  destruct (value o <? 300); [done|]. injection Htx as <-. cbn. eauto 10.
Qed.

(** A proven funding whose contract is the approved one. *)
Lemma proven_contract tw m G rl h info op :
  bindings_ok tw G m -> proven tw m rl h info op ->
  (forall rs, G !! op = Some rs -> wscript_hash rs = wscript_hash (fti_contract_redeemscript info) ->
     rs = fti_contract_redeemscript info) ->
  exists hk pt l,
    calculate_pubkey_from_nonce tw (fti_hashlock_nonce info) = Ok hk /\ sent_pubkey pt /\ is_u16 l /\
    fti_contract_redeemscript info = create_contract_redeemscript hk pt h l.
Proof.
  intros Hok Hp Hnc. pose proof (pr_bound _ _ _ _ _ _ Hp) as Hb. pose proof (Hok op) as Hop.
  rewrite Hb in Hop. inversion Hop as [? rs Hbt Hx HG|]. subst. symmetry in HG.
  destruct Hbt as [(nonce & hk & pt & h' & l & Hhk & Hpt & Hh & Hl & Hrs) Heq].
  assert (rs = fti_contract_redeemscript info) as Hsame by (apply Hnc; [done|by injection Heq]).
  rewrite Hrs in Hsame. pose proof (nonce_key_wf _ _ _ Hhk) as Hwf.
  destruct (contract_redeemscript_reads hk pt h' l Hwf Hpt Hh Hl) as (Hrh & Hrk & _).
  pose proof (pr_hash _ _ _ _ _ _ Hp) as Hh'. rewrite <- Hsame, Hrh in Hh'. injection Hh' as ->.
  pose proof (pr_keys _ _ _ _ _ _ Hp) as Hk. unfold check_funding_keys in Hk.
  apply bind_Ok in Hk as ([] & _ & Hk%map_err_Ok). unfold check_hashlock_has_pubkey in Hk.
  rewrite <- Hsame, Hrk in Hk. cbn in Hk. apply bind_Ok in Hk as (hk' & Hhk' & Hk).
  case_bool_decide as Hne; [done|]. subst. exists hk', pt, l. by rewrite Hsame.
Qed.

(** C2: once the maker accepts a proof of funding, it can claim every coin it is
    about to build from it: the fundings are distinct outpoints, each contract
    leaves the reaction time above the maker's own refund locktime, and with any
    preimage of the agreed hash the coin signs a spend that its contract output
    accepts; the one thing assumed is that the taker did not present a second
    script with the script hash of the one the maker approved. *)
Theorem accepted_proof_is_claimable (priv : SecretKey) (pof : ProofOfFunding) (s s' : MakerServer D)
    (h : Hash160) (G : gmap OutPoint Script)
    (Hkey : tweakable_key (D := D) priv) (Hrl : is_u16 (pof_refund_locktime pof))
    (Hok : bindings_ok (pubkey_of priv) G (bindings_of s))
    (Hnocoll : forall info op rs, info ∈ pof_confirmed_funding_txes pof -> funding_outpoint_of info = Ok op ->
       G !! op = Some rs -> wscript_hash rs = wscript_hash (fti_contract_redeemscript info) ->
       rs = fti_contract_redeemscript info)
    (Hrun : srv_verify_proof_of_funding pof s = (Ok h, s')) :
  exists ops, NoDup ops /\
    Forall2 (fun info op => funding_outpoint_of info = Ok op) (pof_confirmed_funding_txes pof) ops /\
    forall info, info ∈ pof_confirmed_funding_txes pof ->
      (exists l, read_contract_locktime (fti_contract_redeemscript info) = Ok l /\
         pof_refund_locktime pof + MIN_CONTRACT_REACTION_TIME <= l) /\
      forall id c preimage signer out_value out_script,
        incoming_from_funding id priv info = Ok c -> length preimage = 32%nat -> hash160 preimage = h ->
        exists o, output (isc_contract_tx c) = [o] /\
          (out_value < value o -> exists tx,
             sign_spend_transaction_with_output_value signer (isc_set_preimage c preimage) (value o)
               out_value out_script = Ok tx /\
             output tx = [{| value := out_value; script_pubkey := out_script |}] /\
             p2wsh_spendable tx o = true).
Proof.
  destruct (verify_proof_Ok priv pof s h s' Hkey (proj1 Hrl) Hrun) as (_ & _ & ops & Hnd & Hall).
  exists ops. split; [done|]. split; [eapply Forall2_impl; [exact Hall|]; intros ? ? Hp; apply Hp|].
  intros info Hin. pose proof Hin as Hin'. apply list_elem_of_lookup in Hin as [n Hn].
  destruct (Forall2_lookup_l _ _ _ _ _ Hall Hn) as (op & _ & Hp). split; [apply Hp|].
  intros id c preimage signer out_value out_script Hc Hlen Hpre.
  destruct (proven_contract _ _ _ _ _ _ _ Hok Hp) as (hk & pt & l & Hhk & Hpt & Hl & Hrs).
  { intros rs. apply (Hnocoll info op rs Hin'), Hp. }
  apply incoming_coin_shape in Hc as (Htweak & Hproto & Hother & Hscript & v & Hout).
  rewrite (nonce_key _ _ _ Htweak) in Hhk. injection Hhk as <-. subst h.
  set (o := {| value := v |}) in Hout. exists o. split; [exact Hout|]. intros Hv.
  destruct (hashlock_spend_accepted signer (isc_set_preimage c preimage) o [] preimage pt l out_value out_script
              Hproto Hother eq_refl Hlen Hpt Hl) as (tx & Htx & _ & Houts & Hsp);
    [| |unfold pays_to, o; cbn; by rewrite Hrs|exact Hv|].
  - cbn. by rewrite Hscript, Hrs.
  - exact Hout.
  - by exists tx.
Qed.
End proven.

(** ** Witnesses *)
#[local] Existing Instance Reference.lib.
#[local] Existing Instance Reference.laws.
#[local] Existing Instance key_order.
#[local] Existing Instance Sample.chain_outside.

Definition wit_multisig : Script := create_multisig_redeemscript (pubkey_of 102) (pubkey_of 22).
Definition wit_contract : Script := create_contract_redeemscript (pubkey_of 103) (pubkey_of 12) (hash160 ex_preimage) 60.
Definition wit_funding : Transaction := ex_tx (ex_txin 0 []) [ex_out wit_multisig].
Definition wit_outpoint : OutPoint := {| op_txid := compute_txid wit_funding; op_vout := 0 |}.
Definition wit_request : ContractTxInfoForSender :=
  {| cts_multisig_nonce := 2; cts_hashlock_nonce := 3; cts_timelock_pubkey := pubkey_of 12;
     cts_senders_contract_tx :=
       ex_tx {| previous_output := wit_outpoint; script_sig := []; sequence := 0; witness := [] |}
         [{| value := 4700; script_pubkey := 0 :: 32 :: wscript_hash wit_contract |}];
     cts_multisig_redeemscript := wit_multisig; cts_funding_input_value := 5000 |}.
Definition wit_info : FundingTxInfo :=
  {| fti_funding_tx := wit_funding; fti_multisig_redeemscript := wit_multisig; fti_multisig_nonce := 2;
     fti_contract_redeemscript := wit_contract; fti_hashlock_nonce := 3 |}.
Definition wit_proof : ProofOfFunding :=
  {| pof_id := "a"; pof_confirmed_funding_txes := [wit_info];
     pof_next_openswap_info := []; pof_refund_locktime := 40; pof_contract_feerate := f64_of_Z 2 |}.
(** The server before and after it signed the request. *)
Definition wit_start : MakerServer Sample.Chain := Sample.server ∅.
Definition wit_signed : MakerServer Sample.Chain :=
  (srv_verify_and_sign_sender_contract_txs [wit_request] (hash160 ex_preimage) 40 wit_start).2.

Lemma sample_key : tweakable_key (D := Sample.Chain) 100.
Proof. intros d. by exists [], d. Qed.

Lemma only_approved_contracts_are_bound_witness :
  exists sigs G', srv_verify_and_sign_sender_contract_txs [wit_request] (hash160 ex_preimage) 40 wit_start =
      (Ok sigs, wit_signed) /\
    bindings_ok (pubkey_of 100) G' (bindings_of wit_signed).
Proof.
  destruct (srv_verify_and_sign_sender_contract_txs [wit_request] (hash160 ex_preimage) 40 wit_start) as [r s'] eqn:E.
  assert (s' = wit_signed) as -> by (unfold wit_signed; rewrite E; reflexivity).
  assert (exists sigs, r = Ok sigs) as [sigs ->].
  { apply (f_equal fst) in E. cbn [fst] in E. subst r. vm_compute. eexists. reflexivity. }
  destruct (only_approved_contracts_are_bound 100 [wit_request] (hash160 ex_preimage) 40 ∅ wit_start wit_signed
              (Ok sigs) sample_key) as (G' & HG' & _); [| |exact E|].
  - split; [vm_compute; reflexivity|]. split; [split; vm_compute; [discriminate|reflexivity]|].
    constructor; [vm_compute; reflexivity|constructor].
  - intros p. constructor.
  - exists sigs, G'. split; [reflexivity|exact HG'].
Defined.

Lemma wit_signed_bindings :
  bindings_of wit_signed = {[wit_outpoint := 0 :: 32 :: wscript_hash wit_contract]}.
Proof.
  assert (is_ok (srv_verify_and_sign_sender_contract_txs [wit_request] (hash160 ex_preimage) 40 wit_start).1 = true)
    as Hok by (vm_compute; reflexivity).
  unfold wit_signed. destruct (srv_verify_and_sign_sender_contract_txs [wit_request] (hash160 ex_preimage) 40 wit_start)
    as [r s'] eqn:E. cbn [fst snd] in *.
  apply (sign_sender_cases 100) in E as [[Hr _]|(_ & bs & Hbs & _ & ->)]; [congruence| |apply sample_key].
  cbn [try_map] in Hbs. injection Hbs as <-. reflexivity.
Qed.

Lemma accepted_proof_is_claimable_witness :
  exists h s' c tx o,
    srv_verify_proof_of_funding wit_proof wit_signed = (Ok h, s') /\ h = hash160 ex_preimage /\
    incoming_from_funding "a" 100 wit_info = Ok c /\
    sign_spend_transaction_with_output_value no_taproot (isc_set_preimage c ex_preimage) (value o) 4000 [7] = Ok tx /\
    p2wsh_spendable tx o = true.
Proof.
  destruct (srv_verify_proof_of_funding wit_proof wit_signed) as [r s'] eqn:E.
  assert (r = Ok (hash160 ex_preimage)) as ->.
  { apply (f_equal fst) in E. cbn [fst] in E. subst r. vm_compute. reflexivity. }
  destruct (accepted_proof_is_claimable 100 wit_proof wit_signed s' (hash160 ex_preimage)
              {[wit_outpoint := wit_contract]} sample_key) as (ops & _ & _ & Hclaim); [| | |exact E|].
  - split; vm_compute; [discriminate|reflexivity].
  - intros p. rewrite wit_signed_bindings.
    destruct (decide (p = wit_outpoint)) as [->|Hne].
    + rewrite !lookup_singleton_eq. constructor. split; [|reflexivity].
      exists 3, (pubkey_of 103), (pubkey_of 12), (hash160 ex_preimage), 60.
      split; [vm_compute; reflexivity|]. split; [vm_compute; reflexivity|]. split; [vm_compute; reflexivity|].
      split; [split; vm_compute; [discriminate|reflexivity]|reflexivity].
    + rewrite !lookup_singleton_ne by congruence. constructor.
  - intros info op rs Hin _ HG _. apply list_elem_of_singleton in Hin as ->.
    apply lookup_singleton_Some in HG as [_ <-]. reflexivity.
  - assert (match incoming_from_funding "a" 100 wit_info with
            | Ok c => map value (output (isc_contract_tx c)) | _ => [] end = [4700]) as Hv by (vm_compute; reflexivity).
    destruct (incoming_from_funding "a" 100 wit_info) as [c|e|] eqn:Hc; [|discriminate Hv|discriminate Hv].
    destruct (proj2 (Hclaim _ (list_elem_of_here _ _)) "a" c ex_preimage no_taproot 4000 [7] Hc) as (o & Ho & Htx);
      [reflexivity|reflexivity|]. rewrite Ho in Hv. injection Hv as Hv.
    destruct Htx as (tx & H1 & _ & H2); [rewrite Hv; reflexivity|].
    exists (hash160 ex_preimage), s', c, tx, o. split; [reflexivity|]. split; [reflexivity|]. split; [reflexivity|].
    split; [exact H1|exact H2].
Defined.
