(* ===== verification/ServerInvariant.v ===== *)
(** The connection invariant over whole runs of the maker server.

    [SwapTable] is the interface between the handlers and the server: an
    invariant of the server's world that every operation of the [Maker] trait
    keeps, that storing a good connection state keeps, and under which only good
    states are restored.  The handlers are proved against the interface; the
    server of [MakerApi] implements it; a step relation interleaves messages on
    any number of connections with the server's background work. *)
From S2P Require Import Prelude Float64 Bitcoin Messages Contract Errors SwapCoin ScriptEval TakerState TaprootLib Taproot LegacyVerification TaprootVerification MakerHandlers LegacyHandlers TaprootHandlers WalletStore MakerApi MakerSwaps MakerFunding.
#[local] Open Scope string_scope.
#[local] Open Scope list_scope.
#[local] Open Scope Z_scope.

(** ** The interface *)
Definition keeps_world {W A} (I : W -> Prop) (op : stateful W MakerError A) : Prop :=
  forall w, I w -> I (op w).2.

Class SwapTable (W : Type) {maker : Maker W} (I : W -> Prop) : Prop := {
  st_alive : keeps_world I is_watchtower_alive;
  st_keypair : keeps_world I get_tweakable_keypair;
  st_fidelity : keeps_world I get_fidelity_proof;
  st_validate d : keeps_world I (validate_swap_parameters d);
  st_broadcast tx : keeps_world I (broadcast_transaction tx);
  st_known t : keeps_world I (is_transaction_known t);
  st_save_incoming c : keeps_world I (save_incoming_swapcoin c);
  st_save_outgoing c : keeps_world I (save_outgoing_swapcoin c);
  st_register o spk : keeps_world I (register_watch_outpoint o spk);
  st_sync : keeps_world I sync_and_save_wallet;
  st_excluded id : keeps_world I (collect_excluded_utxos id);
  st_past_deadline id : keeps_world I (swap_past_refund_deadline id);
  st_sign infos h l : keeps_world I (verify_and_sign_sender_contract_txs infos h l);
  st_proof pof : keeps_world I (verify_proof_of_funding pof);
  st_initialize a ms hs h l f ex : keeps_world I (initialize_openswap a ms hs h l f ex);
  st_find rs : keeps_world I (find_outgoing_swapcoin rs);
  st_height : keeps_world I get_current_height;
  st_wait t n : keeps_world I (wait_for_tx_on_chain t n);
  st_fund a spk ex : keeps_world I (create_funding_transaction a spk ex);
  st_random : keeps_world I random_secret_key;
  st_get id : keeps_world I (get_connection_state id);
  st_get_good id w st w' : I w -> get_connection_state id w = (Ok (Some st), w') -> conn_inv st;
  st_store id st b : conn_inv st -> keeps_world I (store_connection_state id st b);
}.
Create HintDb table.
#[export] Hint Resolve st_alive st_keypair st_fidelity st_validate st_broadcast st_known st_save_incoming
  st_save_outgoing st_register st_sync st_excluded st_past_deadline st_sign st_proof st_initialize st_find
  st_height st_wait st_fund st_random st_get : table.

(** ** Handlers against the interface *)
Section handlers.
Context {lib : BitcoinLib} {W : Type} {maker : Maker W} {I : W -> Prop} {tab : SwapTable W I}.

(** The world changes only as the stores of the trace allow. *)
Definition driven {A} (m : handler W A) : Prop := forall s, exists evs,
  hs_trace (m s).2 = hs_trace s ++ evs /\
  (Forall (fun e => stores_only conn_inv e.1) evs -> I (hs_world s) -> I (hs_world (m s).2)).

Definition sound {A} (P Q : ConnectionState -> Prop) (m : handler W A) : Prop := forall s,
  P (hs_conn s) -> I (hs_world s) -> Q (hs_conn (m s).2) /\ I (hs_world (m s).2).

Lemma driven_still {A} (m : handler W A) :
  (forall s, hs_trace (m s).2 = hs_trace s /\ hs_world (m s).2 = hs_world s) -> driven m.
Proof. intros H s. destruct (H s) as [Ht Hw]. exists []. rewrite app_nil_r, Hw. done. Qed.

Lemma driven_bind {A B} (m : handler W A) (f : A -> handler W B) :
  driven m -> (forall a, driven (f a)) -> driven (m ≫= f).
Proof.
  intros Hm Hf s. destruct (Hm s) as (e1 & H1 & I1). unfold mbind, stateful_bind.
  destruct (m s) as [[a|e|] s1]; cbn [snd] in *; [|by exists e1..].
  destruct (Hf a s1) as (e2 & H2 & I2). exists (e1 ++ e2). rewrite H2, H1, app_assoc. split; [done|].
  intros [F1 F2]%Forall_app Hw. auto.
Qed.

Lemma driven_ret {A} (a : A) : driven (mret a : handler W A).
Proof. by apply driven_still. Qed.
Lemma driven_lift {A} (m : outcome MakerError A) : driven (lift m : handler W A).
Proof. by apply driven_still. Qed.
Lemma driven_gets {A} (f : HandlerState W -> A) : driven (gets f : handler W A).
Proof. by apply driven_still. Qed.
Lemma driven_conn {A} (f : ConnectionState -> A) : driven (conn f : handler W A).
Proof. by apply driven_still. Qed.
Lemma driven_check f : driven (check f : handler W ()).
Proof. by apply driven_still. Qed.
Lemma driven_set_conn f : driven (set_conn f : handler W ()).
Proof. by apply driven_still. Qed.
Lemma driven_ask {A} (op : stateful W MakerError A) : keeps_world I op -> driven (ask op).
Proof.
  intros Hop s. exists []. unfold ask. specialize (Hop (hs_world s)).
  destruct (op (hs_world s)) as [r w]. cbn in *. rewrite app_nil_r. auto.
Qed.
Lemma driven_perform {A} e (op : stateful W MakerError A) :
  (stores_only conn_inv e -> keeps_world I op) -> driven (perform e op).
Proof.
  intros Hop s. unfold perform. exists [(e, is_ok (op (hs_world s)).1)].
  destruct (op (hs_world s)) as [r w] eqn:E. cbn. split; [done|]. intros [He _]%Forall_cons Hw.
  specialize (Hop He _ Hw). by rewrite E in Hop.
Qed.
Lemma driven_observe {A} e (op : stateful W MakerError A) : keeps_world I op -> driven (observe e op).
Proof.
  intros Hop s. unfold observe. specialize (Hop (hs_world s)).
  destruct (op (hs_world s)) as [r w]. cbn in *. eexists. split; [done|]. auto.
Qed.
Lemma driven_store id b : driven (store (W := W) id b).
Proof. apply driven_bind; [apply driven_conn|]. intros st. apply driven_perform. apply st_store. Qed.

Lemma driven_for_each {A} (body : A -> handler W ()) xs :
  (forall x, driven (body x)) -> driven (st_for_each body xs).
Proof. intros Hb. induction xs as [|x xs IH]; cbn [st_for_each]; [apply driven_ret|by apply driven_bind]. Qed.
Lemma driven_map {A B} (f : A -> handler W B) xs : (forall x, driven (f x)) -> driven (st_map f xs).
Proof.
  intros Hf. induction xs as [|x xs IH]; cbn [st_map]; [apply driven_ret|].
  apply driven_bind; [apply Hf|]. intros y. apply driven_bind; [done|]. intros ys. apply driven_ret.
Qed.

Lemma driven_fold {A B} (f : B -> A -> handler W B) xs :
  (forall b x, driven (f b x)) -> forall b, driven (st_fold f b xs).
Proof.
  intros Hf. induction xs as [|x xs IH]; intros b; cbn [st_fold]; [apply driven_ret|].
  apply driven_bind; [apply Hf|]. intros a. apply IH.
Qed.

Lemma driven_broadcast_funding tx : driven (broadcast_funding (W := W) tx).
Proof.
  intros s. unfold broadcast_funding.
  destruct (driven_perform (EvBroadcast tx) (broadcast_transaction tx) (fun _ => st_broadcast tx) s) as (e1 & H1 & I1).
  destruct (perform _ _ s) as [[a|e|] s1]; cbn [snd] in *; [by exists e1| |by exists e1].
  destruct (already_broadcast_error e); [by exists e1|].
  destruct (driven_bind (ask (is_transaction_known (compute_txid tx)))
              (fun known : bool => if known then mret () else lift (Err e))
              (driven_ask _ (st_known _))) with (s := s1) as (e2 & H2 & I2).
  { intros []; [apply driven_ret|apply driven_lift]. }
  exists (e1 ++ e2). rewrite H2, H1, app_assoc. split; [done|]. intros [F1 F2]%Forall_app Hw. auto.
Qed.

Lemma sound_of_keeps {A} (P Q : ConnectionState -> Prop) (m : handler W A) :
  (forall st, Q st -> conn_inv st) -> keeps P Q m -> driven m -> sound P Q m.
Proof.
  intros HQ Hk Hd s HP Hw. destruct (Hk s HP) as [Hq (evs & Ht & Hf)]. split; [done|].
  destruct (Hd s) as (evs' & Ht' & HI). rewrite Ht in Ht'. apply app_inv_head in Ht' as <-.
  apply HI; [|done]. eapply Forall_impl; [exact Hf|]. intros [[] b]; cbn; auto.
Qed.

Lemma sound_bind {A B} (P R Q : ConnectionState -> Prop) (m : handler W A) (f : A -> handler W B) :
  (forall st, R st -> Q st) -> sound P R m -> (forall a, sound R Q (f a)) -> sound P Q (m ≫= f).
Proof.
  intros HRQ Hm Hf s HP Hw. destruct (Hm s HP Hw) as [H1 H2]. unfold mbind, stateful_bind.
  destruct (m s) as [[a|e|] s1]; cbn [snd] in *; [by apply Hf|by split; [apply HRQ|]..].
Qed.

(** What is restored is good. *)
Lemma sound_get {B} (P Q : ConnectionState -> Prop) id (f : option ConnectionState -> handler W B) :
  (forall st, P st -> Q st) ->
  (forall o, (forall st, o = Some st -> conn_inv st) -> sound P Q (f o)) ->
  sound P Q (ask (get_connection_state id) ≫= f).
Proof.
  intros HPQ Hf s HP Hw. unfold mbind, stateful_bind, ask.
  pose proof (st_get id (hs_world s) Hw) as Hw'. pose proof (st_get_good id (hs_world s)) as Hg.
  destruct (get_connection_state id (hs_world s)) as [[o|e|] w]; cbn [snd hs_conn hs_world] in *.
  - apply (Hf o); [|done|done]. intros st ->. by eapply Hg.
  - split; [by apply HPQ|done].
  - split; [by apply HPQ|done].
Qed.
End handlers.
#[export] Hint Resolve driven_ret driven_lift driven_gets driven_conn driven_check driven_set_conn driven_store
  driven_broadcast_funding : driven.

(** Decomposes a handler into driven steps. *)
Ltac drive :=
  repeat first
    [ solve [auto with driven]
    | apply driven_ask; solve [auto with table]
    | apply driven_perform; intros _; solve [auto with table]
    | apply driven_observe; solve [auto with table]
    | apply driven_bind; [|intros ?]
    | apply driven_for_each; intros ?
    | apply driven_map; intros ?
    | apply driven_fold; intros ? ?
    | case_match ].

Section messages.
Context {lib : BitcoinLib} {tap : TaprootLib} {W : Type} {maker : Maker W} {I : W -> Prop} {tab : SwapTable W I}.

Lemma sender_driven req : driven (I := I) (process_req_contract_sigs_for_sender (W := W) req).
Proof. unfold process_req_contract_sigs_for_sender. drive. Qed.
Lemma pof_driven pof : driven (I := I) (process_proof_of_funding (W := W) pof).
Proof. unfold process_proof_of_funding, set_phase, watch_outputs. drive. Qed.
Lemma resp_driven resp : driven (I := I) (process_resp_contract_sigs_for_recvr_and_sender (W := W) resp).
Proof.
  unfold process_resp_contract_sigs_for_recvr_and_sender, watch_outputs, ensure_watchtower_alive, save_coins. drive.
Qed.
Lemma recvr_driven req : driven (I := I) (process_req_contract_sigs_for_recvr (W := W) req).
Proof. unfold process_req_contract_sigs_for_recvr, sign_receiver_contract. drive. Qed.
Lemma handover_driven h : driven (I := I) (process_legacy_handover (W := W) h).
Proof. unfold process_legacy_handover, set_phase. drive. Qed.

Lemma taproot_contract_driven data : driven (I := I) (process_taproot_contract (W := W) data).
Proof.
  unfold process_taproot_contract, accept_taproot_contract, accept_incoming, check_sweep_margin, fund_next_hop, make_leg,
    arm_legs, send_legs, watch_leg, ensure_watchtower_alive, save_coins. drive.
Qed.
Lemma taproot_handover_driven h : driven (I := I) (process_taproot_handover (W := W) h).
Proof. unfold process_taproot_handover, set_phase. drive. Qed.

Lemma taproot_message_sound msg :
  sound (I := I) (fun st => conn_inv st /\ cs_protocol st = Taproot) conn_inv (handle_taproot_message (W := W) msg).
Proof.
  apply sound_of_keeps; [done| |]; destruct msg; cbn [handle_taproot_message].
  - apply taproot_contract_keeps.
  - eapply keeps_weaken; [| |apply taproot_handover_keeps]; [by intros st [H _]|done].
  - apply taproot_contract_driven.
  - apply taproot_handover_driven.
Qed.

Lemma legacy_message_sound msg : sound (I := I) conn_inv conn_inv (handle_legacy_message (W := W) msg).
Proof.
  apply sound_of_keeps; [done| |]; destruct msg; cbn [handle_legacy_message].
  - apply sender_keeps.
  - apply pof_keeps.
  - apply resp_keeps.
  - apply recvr_keeps.
  - apply handover_keeps.
  - apply sender_driven.
  - apply pof_driven.
  - apply resp_driven.
  - apply recvr_driven.
  - apply handover_driven.
Qed.

Lemma conn_sound {A} P (f : ConnectionState -> A) : sound (I := I) (W := W) P P (conn f).
Proof. by intros s HP Hw. Qed.
Lemma check_sound P f : sound (I := I) (W := W) P P (check f).
Proof. by intros s HP Hw. Qed.
Lemma set_conn_sound (P Q : ConnectionState -> Prop) f :
  (forall st, P st -> Q (f st)) -> sound (I := I) (W := W) P Q (set_conn f).
Proof. intros Hf s HP Hw. split; [by apply Hf|done]. Qed.
Lemma ret_sound {A} P (a : A) : sound (I := I) (W := W) P P (mret a).
Proof. by intros s HP Hw. Qed.
Lemma ask_sound {A} P (op : stateful W MakerError A) : keeps_world I op -> sound (I := I) P P (ask op).
Proof.
  intros Hop s HP Hw. unfold ask. specialize (Hop _ Hw). by destruct (op (hs_world s)).
Qed.
Lemma touch_sound P : (forall st t, P st -> P {| st with cs_last_activity := t |}) ->
  sound (I := I) (W := W) P P touch.
Proof. intros Ht s HP Hw. split; [by apply Ht|done]. Qed.

Lemma restore_sound id : sound (I := I) (W := W) conn_inv conn_inv (restore_state_if_needed id).
Proof.
  unfold restore_state_if_needed. apply sound_bind with (R := conn_inv); [done|apply conn_sound|].
  intros []; [|apply ret_sound]. apply sound_get; [done|]. intros [st|] Hst; [|apply ret_sound].
  apply set_conn_sound. intros c _. exact (Hst st eq_refl).
Qed.

Lemma hello_sound : sound (I := I) (W := W) conn_inv conn_inv handle_taker_hello.
Proof.
  apply sound_of_keeps; [done| |unfold handle_taker_hello, set_phase; drive].
  apply keeps_check with (R := early); [done| |].
  { intros st _. apply expect_early; set_solver. }
  intros _. apply keeps_weaken with (P := early) (Q := early); [done|apply early_inv|]. unfold set_phase. keep_early.
Qed.

Lemma offer_sound : sound (I := I) (W := W) conn_inv conn_inv handle_get_offer.
Proof.
  apply sound_of_keeps; [done| |unfold handle_get_offer, set_phase; drive].
  apply keeps_check with (R := early); [done| |].
  { intros st _. apply expect_early; set_solver. }
  intros _. apply keeps_weaken with (P := early) (Q := early); [done|apply early_inv|]. unfold set_phase. keep_early.
Qed.

Lemma admission_keeps id : keeps early early (try_admission (W := W) id).
Proof.
  intros s Hs. pose proof (keeps_store early id true s Hs) as Hk. unfold try_admission.
  destruct (store id true s) as [[u|e|] s1]; cbn [snd] in *; [done| |done]. by destruct (is_admission_rejection e).
Qed.
Lemma admission_driven id : driven (I := I) (try_admission (W := W) id).
Proof.
  intros s. destruct (driven_store (I := I) id true s) as (evs & Ht & HI). exists evs. unfold try_admission.
  destruct (store id true s) as [[u|e|] s1]; cbn [snd] in *; [done| |done]. by destruct (is_admission_rejection e).
Qed.

Lemma details_sound d : sound (I := I) (W := W) conn_inv conn_inv (handle_swap_details d).
Proof.
  apply sound_of_keeps; [done| |].
  - apply keeps_check with (R := early); [done| |].
    { intros st _. apply expect_early; set_solver. }
    intros _. apply keeps_weaken with (P := early) (Q := early); [done|apply early_inv|].
    unfold clock. repeat first [apply admission_keeps | progress keep_early].
  - unfold handle_swap_details, clock.
    repeat first [apply admission_driven | progress drive].
Qed.

Lemma waiting_sound id : sound (I := I) (W := W) conn_inv conn_inv (handle_waiting id).
Proof.
  unfold handle_waiting. apply sound_bind with (R := conn_inv); [done|apply check_sound|intros _].
  apply sound_bind with (R := conn_inv); [done|apply ask_sound; auto with table|].
  intros []; [apply ret_sound|]. apply sound_get; [done|]. intros o Ho.
  apply sound_bind with (R := conn_inv); [done| |].
  - destruct o as [st|]; [|apply ret_sound]. intros s HP Hw. unfold perform.
    pose proof (st_store id st false (Ho st eq_refl) _ Hw) as Hst.
    by destruct (store_connection_state id st false (hs_world s)).
  - intros _. apply sound_bind with (R := conn_inv); [done|by apply touch_sound|]. intros _. apply ret_sound.
Qed.

(** The dispatch lets a taproot message through only on a taproot connection. *)
Lemma taproot_dispatch_sound t :
  sound (I := I) (W := W) conn_inv conn_inv (handle_taproot_dispatch handle_taproot_message t).
Proof.
  unfold handle_taproot_dispatch. apply sound_bind with (R := conn_inv); [done|apply restore_sound|]. intros _.
  intros s HP Hw. unfold check, mbind, stateful_bind.
  destruct (ensure_negotiated_protocol Taproot (hs_conn s)) as [[]|e|] eqn:E; cbn [snd]; [|done|done].
  apply taproot_message_sound; [|done]. split; [done|]. unfold ensure_negotiated_protocol in E. inv_ok E. to_prop.
  by apply dec_stable in E.
Qed.

Lemma message_sound m :
  sound (I := I) (W := W) conn_inv conn_inv (handle_message handle_legacy_message handle_taproot_message m).
Proof.
  unfold handle_message. apply sound_bind with (R := conn_inv); [done|by apply touch_sound|intros _].
  assert (forall l, sound (I := I) conn_inv conn_inv (handle_legacy_dispatch handle_legacy_message l)) as Hleg.
  { intros l. unfold handle_legacy_dispatch. apply sound_bind with (R := conn_inv); [done|apply restore_sound|].
    intros _. apply sound_bind with (R := conn_inv); [done|apply check_sound|]. intros _. apply legacy_message_sound. }
  destruct m; try apply Hleg; try apply taproot_dispatch_sound.
  - apply hello_sound.
  - apply offer_sound.
  - apply details_sound.
  - apply waiting_sound.
Qed.
End messages.

(** ** The server implements the interface *)
Section server.
Context {lib : BitcoinLib} {hi : HashIter} {hil : HashIterLaws hi} {D : Type} {outside : MakerOutside D}.
Implicit Types s : MakerServer D.

(** Every stored swap satisfies the connection invariant. *)
Definition table_ok s : Prop :=
  forall id st, srv_ongoing_swaps s !! id = Some st -> conn_inv (restored_state id st).

Lemma keeps_table {A} (op : stateful (MakerServer D) MakerError A) :
  keeps_view srv_ongoing_swaps op -> keeps_world table_ok op.
Proof. intros Hop s Hs. unfold table_ok. by rewrite Hop. Qed.

Lemma store_keeps_table id st b : conn_inv st -> keeps_world table_ok (srv_store_connection_state id st b).
Proof.
  intros Hst s Hs. unfold srv_store_connection_state.
  assert (forall x, conn_inv (restored_state id x) -> table_ok (with_swap s id x)) as Hins.
  { intros x Hx id' st'. cbn [with_swap srv_ongoing_swaps].
    intros [[<- <-]|[_ H]]%lookup_insert_Some; [done|by apply Hs]. }
  assert (forall m : stateful (MakerServer D) MakerError (option Amount),
    (forall s0, (m s0).2 = s0) -> forall f : option Amount -> stateful (MakerServer D) MakerError (),
    (forall o, table_ok (f o s).2) -> table_ok ((m ≫= f) s).2) as Hskip.
  { intros m Hm f Hf. unfold mbind, stateful_bind. specialize (Hm s). destruct (m s) as [[a|e|] s1];
      cbn in *; by subst. }
  apply Hskip.
  - intros s0. destruct b; [|done]. unfold lock_wallet, mbind, stateful_bind, gets, lift, mret, stateful_ret.
    destruct (srv_wallet_poisoned s0); cbn; [done|]. destruct (get_balances _) as [bal|e|]; cbn; [|done..].
    by destruct (amount_add _ _).
  - intros o. unfold mbind, stateful_bind, gets. destruct (srv_swaps_poisoned s) eqn:Hp.
    { unfold get_swaps, lock_swaps, mbind, stateful_bind. by rewrite Hp. }
    rewrite get_swaps_run by done. destruct (srv_ongoing_swaps s !! id) as [old|] eqn:Hold.
    + destruct b; [|by apply Hins]. unfold lift. destruct (params_differ old st); [done|].
      apply Hins. by apply (Hs id old).
    + destruct o as [liq|]; [|by apply Hins]. unfold lift. destruct (check_admission _ _ _); [by apply Hins|done..].
Qed.

Lemma verify_funding_table rl scan info : keeps_view srv_ongoing_swaps (verify_funding (D := D) rl scan info).
Proof. unfold verify_funding, srv_wait_for_tx_on_chain. keep_view. Qed.

Lemma proof_keeps_table pof : keeps_world table_ok (srv_verify_proof_of_funding (D := D) pof).
Proof.
  intros s Hs. unfold srv_verify_proof_of_funding, mbind, stateful_bind, lift.
  destruct (reject _ _) as [[]|e|]; [|done..].
  pose proof (keeps_view_fold srv_ongoing_swaps (verify_funding (pof_refund_locktime pof))
    {| scan_hashvalue := None; scan_seen := []; scan_confirmed_at := None |}
    (pof_confirmed_funding_txes pof) (verify_funding_table _) s) as Hf.
  destruct (st_fold _ _ _ s) as [[scan|e|] s1]; cbn [snd] in *;
    [|intros id st; rewrite Hf; apply Hs..].
  assert (table_ok s1) as Hs1 by (intros id st; rewrite Hf; apply Hs).
  destruct (scan_confirmed_at scan) as [h|]; [|done].
  unfold lock_swaps. destruct (srv_swaps_poisoned s1); [done|]. cbn.
  intros id st. cbn [srv_ongoing_swaps]. rewrite lookup_alter_Some.
  intros [(<- & x & Hx & ->)|[_ Hx]]; by apply Hs1 in Hx.
Qed.

Lemma height_table : keeps_view srv_ongoing_swaps (srv_get_current_height (D := D)).
Proof. unfold srv_get_current_height. keep_view. Qed.
Lemma get_swaps_table : keeps_view srv_ongoing_swaps (get_swaps (D := D)).
Proof. unfold get_swaps. keep_view. Qed.
Lemma update_store_table f : keeps_view srv_ongoing_swaps (update_store (D := D) f).
Proof. done. Qed.
End server.
#[export] Hint Resolve height_table get_swaps_table update_store_table : view.

Section server_instance.
Context {lib : BitcoinLib} {hi : HashIter} {hil : HashIterLaws hi} {D : Type} {outside : MakerOutside D}.

#[export] Instance server_table : SwapTable (MakerServer D) table_ok.
Proof.
  split; intros.
  - by apply keeps_table.
  - apply keeps_table. cbn. unfold srv_get_tweakable_keypair. keep_view.
  - by apply keeps_table.
  - apply keeps_table. cbn. unfold srv_validate_swap_parameters. keep_view.
  - apply keeps_table. cbn. unfold srv_broadcast_transaction. keep_view.
  - apply keeps_table. intros s. cbn. unfold srv_is_transaction_known. destruct (srv_wallet_poisoned s); [done|].
    pose proof (in_wallet_table (in_outside (mo_get_raw_transaction t)) s) as H.
    by destruct (in_wallet _ s) as [[] s1].
  - apply keeps_table. cbn. unfold srv_save_incoming_swapcoin. keep_view.
  - apply keeps_table. cbn. unfold srv_save_outgoing_swapcoin. keep_view.
  - apply keeps_table. intros s. cbn. unfold srv_register_watch_outpoint. by destruct (mo_register_watch_request _ _ _).
  - apply keeps_table. cbn. unfold srv_sync_and_save_wallet. keep_view.
  - apply keeps_table. cbn. unfold srv_collect_excluded_utxos. keep_view.
  - apply keeps_table. cbn. unfold srv_swap_past_refund_deadline. keep_view.
  - apply keeps_table. cbn. unfold srv_verify_and_sign_sender_contract_txs, srv_get_tweakable_keypair. keep_view.
  - apply proof_keeps_table.
  - apply keeps_table. cbn. unfold srv_initialize_openswap, outgoing_coin. keep_view.
  - by apply keeps_table.
  - apply keeps_table. cbn. unfold srv_get_current_height. keep_view.
  - apply keeps_table. cbn. unfold srv_wait_for_tx_on_chain. keep_view.
  - apply keeps_table. cbn. unfold srv_create_funding_transaction. keep_view.
  - apply keeps_table. intros s. cbn. unfold srv_random_secret_key. by destruct (mo_random_secret_key _).
  - apply keeps_table. cbn. unfold srv_get_connection_state. keep_view.
  - cbn in H0. unfold srv_get_connection_state in H0. apply st_bind_Ok in H0 as (t & s1 & Ht & H0).
    injection H0 as Hst _. unfold get_swaps in Ht. apply st_bind_Ok in Ht as ([] & s2 & Hl & Ht).
    unfold lock_swaps in Hl. injection Hl as _ ->. injection Ht as <- _.
    apply fmap_Some in Hst as (x & Hx & ->). by apply H in Hx.
  - by apply store_keeps_table.
Qed.
End server_instance.

(** ** Runs of the whole server *)
Section system.
Context {lib : BitcoinLib} {tap : TaprootLib} {hi : HashIter} {hil : HashIterLaws hi} {D : Type} {outside : MakerOutside D}.

Record System := { sys_server : MakerServer D; sys_conns : gmap nat ConnectionState }.

(** One step of [handle_connection] (src/maker/server.rs), of its end after a
    completed swap, of the idle checker, or of any thread that uses the wallet.
    A handler that fails closes its connection. *)
Inductive step : System -> System -> Prop :=
| step_connect s conns i :
    conns !! i = None ->
    step {| sys_server := s; sys_conns := conns |}
         {| sys_server := s; sys_conns := <[i := ConnectionState_new (now_of s) Legacy]> conns |}
| step_message s conns i c m r hs :
    conns !! i = Some c ->
    handle_message handle_legacy_message handle_taproot_message m (Build_HandlerState c s []) = (r, hs) ->
    step {| sys_server := s; sys_conns := conns |}
         {| sys_server := hs_world hs;
            sys_conns := if is_ok r
                         then <[i := {| (hs_conn hs) with cs_last_activity := now_of (hs_world hs) |}]> conns
                         else delete i conns |}
| step_close s conns i :
    step {| sys_server := s; sys_conns := conns |} {| sys_server := s; sys_conns := delete i conns |}
| step_remove s conns id r s' :
    remove_swap_state id s = (r, s') ->
    step {| sys_server := s; sys_conns := conns |} {| sys_server := s'; sys_conns := conns |}
| step_unsettled s conns i c id r s' :
    conns !! i = Some c -> cs_phase c = Completed -> cs_swap_id c = Some id ->
    srv_store_connection_state id c false s = (r, s') ->
    step {| sys_server := s; sys_conns := conns |} {| sys_server := s'; sys_conns := delete i conns |}
| step_drain s conns timeout r s' :
    drain_idle_swaps timeout s = (r, s') ->
    step {| sys_server := s; sys_conns := conns |} {| sys_server := s'; sys_conns := conns |}
| step_wallet s conns w :
    step {| sys_server := s; sys_conns := conns |}
         {| sys_server := {| s with srv_wallet := w |}; sys_conns := conns |}.

Definition system_ok (sys : System) : Prop :=
  table_ok (sys_server sys) /\ map_Forall (fun _ c => conn_inv c) (sys_conns sys).

Lemma remove_keeps_table id (s : MakerServer D) r s' :
  remove_swap_state id s = (r, s') -> table_ok s -> table_ok s'.
Proof.
  unfold remove_swap_state, lock_swaps, mbind, stateful_bind.
  destruct (srv_swaps_poisoned s); cbn; intros [= <- <-] Hs; [done|].
  intros id' st. cbn [srv_ongoing_swaps]. rewrite lookup_delete_Some. intros [_ H]. by apply Hs.
Qed.

Lemma drain_keeps_table timeout (s : MakerServer D) r s' :
  drain_idle_swaps timeout s = (r, s') -> table_ok s -> table_ok s'.
Proof.
  intros Hrun Hs. destruct ((srv_get_current_height s).1) as [h|e|] eqn:Hh.
  3: { unfold drain_idle_swaps, mbind, stateful_bind in Hrun.
       pose proof (height_table s) as Hv. destruct (srv_get_current_height s) as [rh s1]. cbn in *. subst rh.
       injection Hrun as <- <-. unfold table_ok. by rewrite Hv. }
  all: destruct (srv_swaps_poisoned s) eqn:Hp.
  1,3: unfold drain_idle_swaps, mbind, stateful_bind in Hrun; pose proof (height_table s) as Hv;
       destruct (srv_get_current_height s) as [rh s1] eqn:E; apply current_height_swaps in E as [_ Hp1];
       cbn in *; subst rh; unfold get_swaps, lock_swaps, mbind, stateful_bind in Hrun;
       rewrite Hp1, Hp in Hrun; injection Hrun as <- <-; unfold table_ok; by rewrite Hv.
  all: rewrite (drain_run timeout s Hp) in Hrun by (rewrite Hh; done); injection Hrun as <- <-;
       intros id st; cbn [srv_ongoing_swaps]; intros [[H _]%remove_where_lookup _]%remove_where_lookup; by apply Hs.
Qed.

Lemma step_keeps sys sys' : step sys sys' -> system_ok sys -> system_ok sys'.
Proof.
  intros Hstep [Ht Hc]. destruct Hstep as [s conns i Hi|s conns i c m r hs Hi Hrun|s conns i
    |s conns id r s' Hrun|s conns i c id r s' Hi Hph Hid Hrun|s conns timeout r s' Hrun|s conns w];
    unfold system_ok in *; cbn [sys_server sys_conns] in *.
  - split; [done|]. apply map_Forall_insert_2; [by intros [?|?]|done].
  - pose proof (message_sound (I := table_ok) m (Build_HandlerState c s [])) as Hs.
    rewrite Hrun in Hs. cbn in Hs. destruct Hs as [Hcc Hw]; [by apply (Hc i)|done|]. split; [done|].
    destruct (is_ok r); [by apply map_Forall_insert_2|by apply map_Forall_delete].
  - split; [done|]. by apply map_Forall_delete.
  - split; [by eapply remove_keeps_table|done].
  - split; [|by apply map_Forall_delete].
    pose proof (store_keeps_table id c false (Hc i c Hi) s Ht) as H. by rewrite Hrun in H.
  - split; [by eapply drain_keeps_table|done].
  - done.
Qed.

(** C25: in every run of the server, with any number of connections and any
    interleaving of their messages with completions, idle draining and other
    users of the wallet, a connection or a stored swap that waits for the key
    handover or is complete records that its funding went out and, in the legacy
    protocol, keeps none pending; so whatever draining hands to recovery from such a swap is marked
    as funded. *)
Theorem server_invariant (sys0 sys : System)
    (Hempty : srv_ongoing_swaps (sys_server sys0) = ∅) (Hnone : sys_conns sys0 = ∅)
    (Hrun : rtc step sys0 sys) :
  (forall i c, sys_conns sys !! i = Some c -> conn_inv c) /\
  (forall id st, srv_ongoing_swaps (sys_server sys) !! id = Some st ->
     ss_phase st = AwaitingPrivateKeyHandover \/ ss_phase st = Completed ->
     ss_funding_broadcast st = true /\ (ss_protocol st = Taproot \/ ss_pending_funding_txes st = []) /\
     isd_funding_broadcast (idle_data id st) = true).
Proof.
  assert (system_ok sys) as [Ht Hc].
  { revert sys Hrun. apply rtc_ind_r; [|intros; by eapply step_keeps].
    split; [intros id st; by rewrite Hempty, lookup_empty|]. rewrite Hnone. apply map_Forall_empty. }
  split; [exact Hc|]. intros id st Hst Hph. destruct (Ht id st Hst Hph) as [H1 H2]. done.
Qed.
End system.

(** ** Witness *)
#[local] Existing Instance Reference.lib.
#[local] Existing Instance TapReference.tap.
#[local] Existing Instance key_order.
#[local] Existing Instance Sample.chain_outside.

(** A node at height 250 and a maker with a fidelity proof and no swap. *)
Definition idle_chain : Sample.Chain :=
  {| Sample.ch_now := 1000; Sample.ch_height := 250; Sample.ch_next_key := 70;
     Sample.ch_created := {| cfr_funding_txes := [Sample.funding]; cfr_payment_output_positions := [0]; cfr_total_miner_fee := 200 |} |}.
Definition shown_proof : FidelityProof :=
  {| fp_bond := {| fb_outpoint := {| op_txid := 7; op_vout := 0 |}; fb_amount := 10000; fb_lock_time := 20000;
                   fb_pubkey := pubkey_of 50; fb_conf_height := Some 200; fb_is_spent := false; fb_bond_index := 0;
                   fb_tx := None |};
     fp_cert_hash := 0; fp_cert_sig := [] |}.
Definition idle_system : System (D := Sample.Chain) :=
  {| sys_server := Build_MakerServer Sample.config (Build_Wallet Sample.store idle_chain) false (Some shown_proof) false ∅ false;
     sys_conns := ∅ |}.

(** One message on a connection, as a function. *)
Definition deliver (i : nat) (sys : System (D := Sample.Chain)) (m : TakerToMakerMessage) : System (D := Sample.Chain) :=
  match sys_conns sys !! i with
  | Some c =>
      let '(r, hs) := handle_message handle_legacy_message handle_taproot_message m
                        (Build_HandlerState c (sys_server sys) []) in
      {| sys_server := hs_world hs;
         sys_conns := if is_ok r
                      then <[i := {| (hs_conn hs) with cs_last_activity := now_of (hs_world hs) |}]> (sys_conns sys)
                      else delete i (sys_conns sys) |}
  | None => sys
  end.

Lemma deliver_step i sys m : rtc step sys (deliver i sys m).
Proof.
  unfold deliver. destruct (sys_conns sys !! i) as [c|] eqn:Hc; [|done]. destruct sys as [s conns]. cbn in *.
  destruct (handle_message _ _ _ _) as [r hs] eqn:E. apply rtc_once. exact (step_message s conns i c m r hs Hc E).
Qed.

Lemma deliver_all i ms : forall sys, rtc step sys (fold_left (deliver i) ms sys).
Proof.
  induction ms as [|m ms IH]; intros sys; cbn [fold_left]; [done|]. etrans; [apply deliver_step|apply IH].
Qed.

(** A taker connects and drives a taproot swap through to the key handover. *)
Definition connected : System (D := Sample.Chain) :=
  {| sys_server := sys_server idle_system;
     sys_conns := <[0%nat := ConnectionState_new (now_of (sys_server idle_system)) Legacy]> ∅ |}.
Definition swap_messages : list TakerToMakerMessage :=
  [TM_TakerHello; TM_GetOffer;
   TM_SwapDetails {| sd_id := "s"; sd_protocol_version := Taproot; sd_amount := 10000; sd_tx_count := 1;
                     sd_timelock := 300; sd_refund_locktime_offset := 60 |};
   TM_TaprootContractData (TapSample.data [10000])].
Definition handover_message : TakerToMakerMessage :=
  TM_TaprootPrivateKeyHandover {| pkh_id := "s"; pkh_privkeys := [{| sp_identifier := []; sp_key := 22 |}] |}.
Definition funded : System (D := Sample.Chain) := fold_left (deliver 0) swap_messages connected.
Definition handed_over : System (D := Sample.Chain) := deliver 0 funded handover_message.

Lemma server_invariant_witness :
  (exists c, sys_conns funded !! 0%nat = Some c /\ cs_phase c = AwaitingPrivateKeyHandover /\
     cs_funding_broadcast c = true) /\
  (exists c, sys_conns handed_over !! 0%nat = Some c /\ cs_phase c = Completed /\ cs_funding_broadcast c = true) /\
  (exists st, srv_ongoing_swaps (sys_server handed_over) !! "s" = Some st /\
     ss_phase st = AwaitingPrivateKeyHandover /\ isd_funding_broadcast (idle_data "s" st) = true).
Proof.
  assert (rtc step idle_system connected) as H0 by (apply rtc_once, step_connect; reflexivity).
  assert (rtc step idle_system funded) as H1 by (etrans; [exact H0|apply deliver_all]).
  assert (rtc step idle_system handed_over) as H2 by (etrans; [exact H1|apply deliver_step]).
  destruct (server_invariant idle_system funded eq_refl eq_refl H1) as [Hf _].
  destruct (server_invariant idle_system handed_over eq_refl eq_refl H2) as [Hc Ht].
  assert (exists c, sys_conns funded !! 0%nat = Some c /\ cs_phase c = AwaitingPrivateKeyHandover) as (c1 & E1 & P1)
    by (eexists; split; vm_compute; reflexivity).
  assert (exists c, sys_conns handed_over !! 0%nat = Some c /\ cs_phase c = Completed) as (c2 & E2 & P2)
    by (eexists; split; vm_compute; reflexivity).
  assert (exists st, srv_ongoing_swaps (sys_server handed_over) !! "s" = Some st /\
            ss_phase st = AwaitingPrivateKeyHandover) as (st & E3 & P3)
    by (eexists; split; vm_compute; reflexivity).
  split; [|split].
  - exists c1. split; [exact E1|]. split; [exact P1|]. exact (proj1 (Hf 0%nat c1 E1 (or_introl P1))).
  - exists c2. split; [exact E2|]. split; [exact P2|]. exact (proj1 (Hc 0%nat c2 E2 (or_intror P2))).
  - exists st. split; [exact E3|]. split; [exact P3|]. exact (proj2 (proj2 (Ht _ st E3 (or_introl P3)))).
Defined.
