(* ===== verification/MakerReservation.v ===== *)
(** What a legacy swap reserves: the outpoints that [process_proof_of_funding]
    (src/maker/legacy_handlers.rs) records and [collect_excluded_utxos]
    (src/maker/api.rs) withholds from the coin selection of other swaps. *)
From S2P Require Import Prelude Float64 Bitcoin Messages Contract Errors SwapCoin ScriptEval TakerState LegacyVerification MakerHandlers LegacyHandlers WalletStore MakerApi MakerSwaps MakerFunding ServerInvariant.
#[local] Open Scope string_scope.
#[local] Open Scope list_scope.
#[local] Open Scope Z_scope.

Section reservation.
Context {lib : BitcoinLib} {laws : BitcoinLaws lib} {hi : HashIter} {hil : HashIterLaws hi}.
Context {D : Type} {outside : MakerOutside D}.

Lemma get_swaps_Ok (s : MakerServer D) t s' :
  get_swaps s = (Ok t, s') -> srv_swaps_poisoned s = false /\ t = srv_ongoing_swaps s /\ s' = s.
Proof.
  unfold get_swaps, lock_swaps, mbind, stateful_bind. destruct (srv_swaps_poisoned s); [done|].
  by intros [= <- <-].
Qed.

Lemma store_Ok id st (s s' : MakerServer D) :
  srv_store_connection_state id st false s = (Ok (), s') ->
  exists st', srv_ongoing_swaps s' !! id = Some st' /\ ss_reserve_utxo st' = cs_reserve_utxo st.
Proof.
  intros Hrun. destruct (srv_swaps_poisoned s) eqn:Hp.
  - unfold srv_store_connection_state, get_swaps, lock_swaps, mbind, stateful_bind, mret, stateful_ret in Hrun.
    by rewrite Hp in Hrun.
  - rewrite store_run in Hrun by done. injection Hrun as <-. eexists. split; [apply lookup_insert_eq|done].
Qed.

(** What a successful proof of funding leaves behind. *)
Lemma proof_of_funding_reserves pof (s s' : HandlerState (MakerServer D)) m :
  process_proof_of_funding pof s = (Ok m, s') ->
  cs_reserve_utxo (hs_conn s') = flat_map tx_outpoints (cs_pending_funding_txes (hs_conn s')) /\
  exists st, srv_ongoing_swaps (hs_world s') !! pof_id pof = Some st /\
    ss_reserve_utxo st = cs_reserve_utxo (hs_conn s').
Proof.
  intros Hrun. unfold process_proof_of_funding, set_phase, store in Hrun.
  rewrite estimate_funding_tx_fee_sats_Ok in Hrun. pattern s'. run_ok Hrun.
  repeat match goal with v : (_ * _)%type |- _ => destruct v end. run_ok Hrun.
  match goal with v : (list IncomingSwapCoin * Amount)%type |- _ => destruct v as [coins total] end. run_ok Hrun.
  match goal with v : (list Transaction * list OutgoingSwapCoin * Amount)%type |- _ => destruct v as [[ftx outs] mf] end.
  run_ok Hrun. split; [done|]. cbn [hs_world hs_conn].
  match goal with H : store_connection_state _ _ _ _ = _ |- _ => by apply store_Ok in H end.
Qed.

(** While a legacy swap waits to broadcast its funding, what it withholds
    from other swaps are the outputs the funding will create, not the coins it
    spends: every output of a pending funding transaction is on the exclusion
    list computed for any other swap, and a coin that a pending funding spends is
    not, unless another swap happens to reserve it.  So a concurrent swap may
    select the same coin. *)
Lemma reservation_misses_spent_coins (pof : ProofOfFunding) (s s' : HandlerState (MakerServer D))
    (m : option MakerToTakerMessage) (other : string) (ex : list OutPoint) (s'' : MakerServer D)
    (tx : Transaction) (i : TxIn)
    (Hrun : process_proof_of_funding pof s = (Ok m, s'))
    (Hother : other <> pof_id pof)
    (Hex : srv_collect_excluded_utxos other (hs_world s') = (Ok ex, s''))
    (Htx : tx ∈ cs_pending_funding_txes (hs_conn s')) (Hi : i ∈ input tx)
    (Hconfirmed : forall tx', tx' ∈ cs_pending_funding_txes (hs_conn s') ->
       compute_txid tx' <> op_txid (previous_output i))
    (Hfree : forall id st, id <> pof_id pof -> srv_ongoing_swaps (hs_world s') !! id = Some st ->
       previous_output i ∉ ss_reserve_utxo st) :
  previous_output i ∉ ex /\ (forall o, o ∈ tx_outpoints tx -> o ∈ ex).
Proof.
  destruct (proof_of_funding_reserves _ _ _ _ Hrun) as (Hres & st & Hst & Hsr).
  unfold srv_collect_excluded_utxos in Hex. apply st_bind_Ok in Hex as (t & s1 & (_ & -> & ->)%get_swaps_Ok & Hex).
  injection Hex as <- _. split.
  - intros Hin. apply list_elem_of_In, in_flat_map in Hin as ([id x] & Hx & Ho).
    apply list_elem_of_In, list_elem_of_filter in Hx as [Hne Hx%elem_of_hash_iter].
    apply list_elem_of_In in Ho. cbn in Ho, Hne. destruct (decide (id = pof_id pof)) as [->|Hd].
    + assert (x = st) as -> by congruence. rewrite Hsr, Hres in Ho.
      apply list_elem_of_In, in_flat_map in Ho as (tx' & Htx' & Ho).
      apply list_elem_of_In in Htx'. apply (Hconfirmed tx' Htx').
      unfold tx_outpoints in Ho. apply in_map_iff in Ho as (v & <- & _). done.
    + by apply (Hfree id x Hd Hx).
  - intros o Ho. apply list_elem_of_In, in_flat_map. exists (pof_id pof, st). split.
    + apply list_elem_of_In, list_elem_of_filter. split; [done|]. by apply elem_of_hash_iter.
    + cbn. rewrite Hsr, Hres. apply in_flat_map. exists tx. split; [by apply list_elem_of_In|by apply list_elem_of_In].
Qed.
End reservation.

(** ** Witness *)
#[local] Existing Instance Reference.lib.
#[local] Existing Instance Reference.laws.
#[local] Existing Instance key_order.
#[local] Existing Instance Sample.chain_outside.

(** The proof of [MakerFunding] with one next hop, on the server that signed. *)
Definition res_proof : ProofOfFunding :=
  {| wit_proof with pof_next_openswap_info :=
       [{| nhi_next_multisig_pubkey := pubkey_of 31; nhi_next_hashlock_pubkey := pubkey_of 32;
           nhi_next_multisig_nonce := 4; nhi_next_hashlock_nonce := 5 |}] |}.
Definition res_start : HandlerState (MakerServer Sample.Chain) :=
  Build_HandlerState
    {| (ConnectionState_new 1000 Legacy) with cs_phase := AwaitingContractData; cs_swap_id := Some "a";
       cs_swap_amount := 6000; cs_tx_count := 1; cs_timelock := 40 |} wit_signed [].

Lemma reservation_misses_spent_coins_witness :
  exists m s' ex s'', process_proof_of_funding res_proof res_start = (Ok m, s') /\
    srv_collect_excluded_utxos "b" (hs_world s') = (Ok ex, s'') /\ {| op_txid := 9; op_vout := 0 |} ∉ ex.
Proof.
  destruct (process_proof_of_funding res_proof res_start) as [r s'] eqn:E.
  destruct (srv_collect_excluded_utxos "b" (hs_world s')) as [rx s''] eqn:Hx.
  assert (is_ok r && is_ok rx && bool_decide (cs_pending_funding_txes (hs_conn s') = [Sample.funding])
          && bool_decide (map fst (map_to_list (srv_ongoing_swaps (hs_world s'))) = ["a"]) = true) as Hb.
  { apply (f_equal snd) in E as Hs'. apply (f_equal fst) in E as Hr. apply (f_equal fst) in Hx as Hrx.
    cbn [fst snd] in *. rewrite <- Hr, <- Hrx, <- Hs'. vm_compute. reflexivity. }
  apply andb_true_iff in Hb as [Hb Hids%bool_decide_eq_true]. apply andb_true_iff in Hb as [Hb Hp%bool_decide_eq_true].
  apply andb_true_iff in Hb as [Hr Hrx]. destruct r as [m|e|]; [|discriminate Hr|discriminate Hr].
  destruct rx as [ex|e|]; [|discriminate Hrx|discriminate Hrx].
  destruct (reservation_misses_spent_coins res_proof res_start s' m "b" ex s'' Sample.funding
    {| previous_output := {| op_txid := 9; op_vout := 0 |}; script_sig := []; sequence := 0; witness := [] |} E)
    as [Hout _].
  - discriminate.
  - exact Hx.
  - rewrite Hp. apply list_elem_of_here.
  - apply list_elem_of_here.
  - rewrite Hp. intros tx' Hin. apply list_elem_of_singleton in Hin as ->. vm_compute. discriminate.
  - intros id st Hne Hst. exfalso. apply Hne. apply elem_of_map_to_list in Hst.
    apply (list_elem_of_fmap_2 fst) in Hst. cbn [fst] in Hst.
    change (fst <$> map_to_list (srv_ongoing_swaps (hs_world s'))) with
      (map fst (map_to_list (srv_ongoing_swaps (hs_world s')))) in Hst.
    rewrite Hids in Hst. by apply list_elem_of_singleton in Hst.
  - exists m, s', ex, s''. split; [reflexivity|]. split; [exact Hx|exact Hout].
Defined.
