(* ===== verification/WatchRegistry.v ===== *)
(** The watchtower's registry and transaction scanner:
    src/watch_tower/registry_storage.rs and src/watch_tower/utils.rs.

    [FileRegistry] is the memory-only table of watched outpoints, fidelity
    announcements and nostr cursors behind one mutex; a poisoned mutex makes
    every operation fail.  A [HashMap] is a [gmap]; the order in which its
    values are iterated is a parameter that only has to enumerate the map.  A
    Rust string is the list of its UTF-8 bytes. *)
From S2P Require Import Prelude Bitcoin Errors.
#[local] Open Scope string_scope.
#[local] Open Scope list_scope.
#[local] Open Scope Z_scope.

(** ** Data of registry_storage.rs *)
Record WatchRequest := {
  wr_outpoint : OutPoint;
  wr_script_pubkey : Script;
  wr_in_block : bool;
  wr_spent_tx : option Transaction;
}.

#[global] Instance WatchRequest_eq_dec : EqDecision WatchRequest.
Proof. solve_decision. Defined.

Record Fidelity := { fid_txid : Txid; fid_onion_address : bytes; fid_expire_height : Z }.
#[global] Instance Fidelity_eq_dec : EqDecision Fidelity.
Proof. solve_decision. Defined.
#[global] Instance Fidelity_countable : Countable Fidelity.
Proof.
  refine (inj_countable' (fun f => (fid_txid f, fid_onion_address f, fid_expire_height f))
            (fun p => {| fid_txid := p.1.1; fid_onion_address := p.1.2; fid_expire_height := p.2 |}) _).
  by intros [].
Defined.

Record RegistryData := {
  rd_watches : gmap OutPoint WatchRequest;
  rd_fidelity : gset Fidelity;
  rd_nostr_cursors : gmap string Z;
}.

(** The shared mutex with the data it guards. *)
Record FileRegistry := { fr_poisoned : bool; fr_data : RegistryData }.

Record FidelityAnnouncement := { fa_onion : bytes; fa_expires_at_height : Z }.

Definition FileRegistry_new : FileRegistry :=
  {| fr_poisoned := false;
     fr_data := {| rd_watches := ∅; rd_fidelity := ∅; rd_nostr_cursors := ∅ |} |}.

(** ** Operations of the registry *)
Abbreviation registry_op := (stateful FileRegistry WatcherError).

Definition with_data {A} (f : RegistryData -> A * RegistryData) : registry_op A := fun r =>
  if fr_poisoned r then (Err WatchE_MutexPoison, r)
  else let '(a, d) := f (fr_data r) in (Ok a, {| r with fr_data := d |}).

Definition upsert_watch (req : WatchRequest) : registry_op () :=
  with_data (fun d => ((), {| d with rd_watches := <[wr_outpoint req := req]> (rd_watches d) |})).

(** [entry(outpoint).or_insert(..)] and the write of its script. *)
Definition register_watch (outpoint : OutPoint) (script_pubkey : Script) : registry_op () :=
  with_data (fun d =>
    let entry := default {| wr_outpoint := outpoint; wr_script_pubkey := script_pubkey;
                            wr_in_block := false; wr_spent_tx := None |}
                   (rd_watches d !! outpoint) in
    ((), {| d with rd_watches :=
              <[outpoint := {| entry with wr_script_pubkey := script_pubkey |}]> (rd_watches d) |})).

Definition remove_watch (outpoint : OutPoint) : registry_op () :=
  with_data (fun d => ((), {| d with rd_watches := delete outpoint (rd_watches d) |})).

Definition list_fidelity (height : Z) : registry_op (gset Fidelity) :=
  with_data (fun d =>
    let kept := filter (fun f => height < fid_expire_height f) (rd_fidelity d) in
    (kept, {| d with rd_fidelity := kept |})).

Definition insert_fidelity (txid : Txid) (a : FidelityAnnouncement) : registry_op bool :=
  with_data (fun d =>
    let f := {| fid_txid := txid; fid_onion_address := fa_onion a;
                fid_expire_height := fa_expires_at_height a |} in
    (bool_decide (f ∉ rd_fidelity d), {| d with rd_fidelity := {[f]} ∪ rd_fidelity d |})).

Definition remove_fidelity (txid : Txid) : registry_op () :=
  with_data (fun d =>
    ((), {| d with rd_fidelity := filter (fun f => fid_txid f <> txid) (rd_fidelity d) |})).

Definition load_nostr_cursor (relay_url : string) : registry_op (option Z) :=
  with_data (fun d => (rd_nostr_cursors d !! relay_url, d)).

Definition save_nostr_cursor (relay_url : string) (created_at_secs : Z) : registry_op () :=
  with_data (fun d =>
    let entry := default 0 (rd_nostr_cursors d !! relay_url) in
    let entry := if entry <? created_at_secs then created_at_secs else entry in
    ((), {| d with rd_nostr_cursors := <[relay_url := entry]> (rd_nostr_cursors d) |})).

(** ** Recently seen transactions *)
Definition MAX_SEEN_TXIDS : nat := Z.to_nat 5000.

Record SeenTxids := { seen : gset Txid; order : list Txid; in_flight : gset Txid }.

Definition SeenTxids_new : SeenTxids := {| seen := ∅; order := []; in_flight := ∅ |}.

(** [!seen.contains(txid) && in_flight.insert(txid)]. *)
Definition claim (txid : Txid) (s : SeenTxids) : bool * SeenTxids :=
  if bool_decide (txid ∈ seen s) then (false, s)
  else (bool_decide (txid ∉ in_flight s), {| s with in_flight := {[txid]} ∪ in_flight s |}).

Definition release (txid : Txid) (s : SeenTxids) : SeenTxids :=
  {| s with in_flight := in_flight s ∖ {[txid]} |}.

(** One turn of the eviction loop: [pop_front] and forget. *)
Definition evict_one (s : SeenTxids) : SeenTxids :=
  match order s with
  | old :: rest => {| s with order := rest; seen := seen s ∖ {[old]} |}
  | [] => s
  end.

Definition seen_insert (txid : Txid) (s : SeenTxids) : bool * SeenTxids :=
  let s := {| s with in_flight := in_flight s ∖ {[txid]} |} in
  if bool_decide (txid ∈ seen s) then (false, s)
  else
    let s := {| s with seen := {[txid]} ∪ seen s; order := order s ++ [txid] |} in
    (true, if (MAX_SEEN_TXIDS <? length (order s))%nat then Nat.iter 10 evict_one s else s).

(** ** Parsing fidelity announcements *)

(** [slice.get(lo..lo + len)]. *)
Definition get_range (lo len : nat) (bs : bytes) : option bytes := slice lo (lo + len) bs.

Definition extract_op_return_data (script : bytes) : option bytes :=
  first ← script !! 0%nat;
  if negb (first =? 106) then None
  else
    n ← script !! 1%nat;
    if (1 <=? n) && (n <=? 75) then get_range 2 (Z.to_nat n) script
    else if n =? 76 then
      len ← script !! 2%nat; get_range 3 (Z.to_nat len) script
    else if n =? 77 then
      b0 ← script !! 2%nat; b1 ← script !! 3%nat;
      get_range 4 (Z.to_nat (b0 + 256 * b1)) script
    else None.

Definition in_range (lo hi b : Z) : bool := (lo <=? b) && (b <=? hi).
Definition continuation (b : Z) : bool := in_range 128 191 b.

(** [str::from_utf8] succeeds: the well-formed byte sequences of the Unicode
    standard, table 3-7. *)
Fixpoint utf8_valid (bs : bytes) : bool :=
  match bs with
  | [] => true
  | b0 :: r0 =>
      if in_range 0 127 b0 then utf8_valid r0
      else match r0 with
      | [] => false
      | b1 :: r1 =>
          if in_range 194 223 b0 then continuation b1 && utf8_valid r1
          else match r1 with
          | [] => false
          | b2 :: r2 =>
              if (in_range 224 224 b0 && in_range 160 191 b1)
                 || (in_range 225 236 b0 && continuation b1)
                 || (in_range 237 237 b0 && in_range 128 159 b1)
                 || (in_range 238 239 b0 && continuation b1)
              then continuation b2 && utf8_valid r2
              else match r2 with
              | [] => false
              | b3 :: r3 =>
                  ((in_range 240 240 b0 && in_range 144 191 b1)
                   || (in_range 241 243 b0 && continuation b1)
                   || (in_range 244 244 b0 && in_range 128 143 b1))
                  && continuation b2 && continuation b3 && utf8_valid r3
              end
          end
      end
  end.

(** [str::split_once] on an ASCII character. *)
Fixpoint split_once (c : Z) (bs : bytes) : option (bytes * bytes) :=
  match bs with
  | [] => None
  | b :: rest =>
      if b =? c then Some ([], rest)
      else prod_map (cons b) id <$> split_once c rest
  end.

(** [str::parse::<u32>]: an optional plus sign, then at least one digit and no
    overflow. *)
Definition is_digit (b : Z) : bool := in_range 48 57 b.
Fixpoint parse_digits (acc : Z) (bs : bytes) : option Z :=
  match bs with
  | [] => Some acc
  | b :: rest =>
      if is_digit b then
        let acc := acc * 10 + (b - 48) in
        if acc <=? U32_MAX then parse_digits acc rest else None
      else None
  end.
Definition parse_u32 (bs : bytes) : option Z :=
  match bs with
  | [] => None
  | b :: rest =>
      if b =? 43 then match rest with [] => None | _ => parse_digits 0 rest end
      else parse_digits 0 bs
  end.

Definition dot_onion : bytes := [46; 111; 110; 105; 111; 110].

(** [str::strip_suffix]. *)
Definition strip_suffix (suffix bs : bytes) : option bytes :=
  let n := (length bs - length suffix)%nat in
  if bool_decide (take n bs ++ suffix = bs) then Some (take n bs) else None.

Definition normalize_onion_address (s : bytes) : option bytes :=
  let onion := default s (strip_suffix dot_onion s) in
  if bool_decide (onion = []) || bool_decide (46 ∈ onion) then None
  else Some (onion ++ dot_onion).

Definition parse_fidelity_op_return (data : bytes) : option FidelityAnnouncement :=
  if negb (utf8_valid data) then None
  else
    '(endpoint, locktime_str) ← split_once 35 data;
    expires_at_height ← parse_u32 locktime_str;
    onion ← normalize_onion_address endpoint;
    Some {| fa_onion := onion; fa_expires_at_height := expires_at_height |}.

(** The first output that carries an announcement. *)
Fixpoint first_announcement (outs : list TxOut) : option FidelityAnnouncement :=
  match outs with
  | [] => None
  | o :: rest =>
      match extract_op_return_data (script_pubkey o) ≫= parse_fidelity_op_return with
      | Some ann => Some ann
      | None => first_announcement rest
      end
  end.

Definition process_fidelity (tx : Transaction) : option FidelityAnnouncement :=
  if lock_time tx =? 0 then None
  else if negb (in_range 2 5 (zlen (output tx))) then None
  else first_announcement (output tx).

(** ** Scanning transactions *)
Section scanning.
Context `{BitcoinLib}.
(** The iteration order of the watch table. *)
Context (watch_order : gmap OutPoint WatchRequest -> list WatchRequest).

Definition list_watches : registry_op (list WatchRequest) :=
  with_data (fun d => (watch_order (rd_watches d), d)).

(** A confirmed spend is recorded and an unconfirmed rival shows up. *)
Definition keeps_confirmed (tx : Transaction) (seen_in_block : bool) (w : WatchRequest) : bool :=
  match wr_spent_tx w with
  | Some recorded =>
      bool_decide (compute_txid recorded <> compute_txid tx) && wr_in_block w && negb seen_in_block
  | None => false
  end.

Definition record_spend (tx : Transaction) (seen_in_block : bool) (outpoint : OutPoint)
    (w : WatchRequest) : registry_op () :=
  if bool_decide (outpoint <> wr_outpoint w) then mret ()
  else if keeps_confirmed tx seen_in_block w then mret ()
  else upsert_watch {| w with wr_spent_tx := Some tx; wr_in_block := seen_in_block |}.

Definition process_transaction (tx : Transaction) (seen_in_block : bool) : registry_op () :=
  list_watches ≫= fun watch_requests =>
  st_for_each (fun i =>
    st_for_each (record_spend tx seen_in_block (previous_output i)) watch_requests) (input tx).

(** [run_discovery] is the role's [RUN_DISCOVERY]. *)
Definition process_block (run_discovery : bool) (txdata : list Transaction) : registry_op () :=
  st_for_each (fun tx =>
    process_transaction tx true ≫= fun _ =>
    if run_discovery then
      match process_fidelity tx with
      | Some announcement =>
          insert_fidelity (compute_txid tx) announcement ≫= fun _ => mret ()
      | None => mret ()
      end
    else mret ()) txdata.
End scanning.

(** ** Well-formedness *)

(** Every watch is stored under its own outpoint. *)
Definition watches_wf (m : gmap OutPoint WatchRequest) : Prop :=
  map_Forall (fun k w => wr_outpoint w = k) m.

Class WatchOrder (watch_order : gmap OutPoint WatchRequest -> list WatchRequest) : Prop :=
  watch_order_enumerates m : watch_order m ≡ₚ (map_to_list m).*2.

(** The outpoints a transaction spends. *)
Definition spends (tx : Transaction) : list OutPoint := map previous_output (input tx).

(** What scanning [tx] leaves of a watch it spends, and of any watch. *)
Definition mark `{BitcoinLib} (tx : Transaction) (blk : bool) (w : WatchRequest) : WatchRequest :=
  if keeps_confirmed tx blk w then w
  else {| w with wr_spent_tx := Some tx; wr_in_block := blk |}.
Definition scanned `{BitcoinLib} (tx : Transaction) (blk : bool) (w : WatchRequest) : WatchRequest :=
  if bool_decide (wr_outpoint w ∈ spends tx) then mark tx blk w else w.

(** The data of the registry after the watch table became [m]. *)
Definition set_watches (m : gmap OutPoint WatchRequest) (r : FileRegistry) : FileRegistry :=
  {| r with fr_data := {| (fr_data r) with rd_watches := m |} |}.
Definition watches (r : FileRegistry) : gmap OutPoint WatchRequest := rd_watches (fr_data r).

Lemma set_watches_id r : set_watches (watches r) r = r.
Proof. by destruct r as [p [m f c]]. Qed.

Lemma set_watches_twice m m' r : set_watches m (set_watches m' r) = set_watches m r.
Proof. done. Qed.

Section scan_lemmas.
Context `{BitcoinLib} (ord : gmap OutPoint WatchRequest -> list WatchRequest) `{!WatchOrder ord}.

Lemma elem_of_watch_order m w :
  watches_wf m -> w ∈ ord m <-> m !! wr_outpoint w = Some w.
Proof.
  intros Hwf. rewrite (watch_order_enumerates m). split.
  - rewrite list_elem_of_fmap. intros ([k w'] & -> & Hin%elem_of_map_to_list).
    simpl. by rewrite (Hwf _ _ Hin).
  - intros Hw. apply list_elem_of_fmap. exists (wr_outpoint w, w). split; [done|].
    by apply elem_of_map_to_list.
Qed.

Lemma upsert_watch_ok w r :
  fr_poisoned r = false ->
  upsert_watch w r = (Ok (), set_watches (<[wr_outpoint w := w]> (watches r)) r).
Proof. intros Hp. unfold upsert_watch, with_data, set_watches. by rewrite !Hp. Qed.

(** The writes of one input, as a fold over the snapshot of the watches. *)
Definition mark_spent tx blk o (m : gmap OutPoint WatchRequest) (w : WatchRequest) :=
  if bool_decide (o <> wr_outpoint w) then m
  else if keeps_confirmed tx blk w then m else <[o := mark tx blk w]> m.

Lemma record_spend_ok tx blk o w r :
  fr_poisoned r = false ->
  record_spend tx blk o w r = (Ok (), set_watches (mark_spent tx blk o (watches r) w) r).
Proof.
  intros Hp. unfold record_spend, mark_spent, mark.
  case_bool_decide as Ho; [by rewrite set_watches_id|].
  destruct (keeps_confirmed tx blk w); [by rewrite set_watches_id|].
  rewrite upsert_watch_ok by done. simpl.
  destruct (decide (o = wr_outpoint w)) as [->|]; [done|tauto].
Qed.

Lemma record_spends_ok tx blk o ws r :
  fr_poisoned r = false ->
  st_for_each (record_spend tx blk o) ws r =
    (Ok (), set_watches (foldl (mark_spent tx blk o) (watches r) ws) r).
Proof.
  revert r. induction ws as [|w ws IH]; intros r Hp; simpl; [by rewrite set_watches_id|].
  rewrite (st_bind_step _ _ _ _ _ (record_spend_ok tx blk o w r Hp)). by rewrite IH.
Qed.

Lemma mark_spent_none tx blk o ws m :
  (forall w, w ∈ ws -> wr_outpoint w <> o) -> foldl (mark_spent tx blk o) m ws = m.
Proof.
  induction ws as [|w ws IH]; simpl; intros Hno; [done|]. unfold mark_spent at 2.
  rewrite bool_decide_eq_true_2; [apply IH; intros v Hv; apply Hno; by right|].
  intros ->. apply (Hno w); [left|done].
Qed.

Lemma mark_spent_one tx blk o w0 ws m :
  (forall w, w ∈ ws -> wr_outpoint w = o -> w = w0) -> w0 ∈ ws -> wr_outpoint w0 = o ->
  foldl (mark_spent tx blk o) m ws =
    if keeps_confirmed tx blk w0 then m else <[o := mark tx blk w0]> m.
Proof.
  intros Huniq Hin Ho. revert m Hin. induction ws as [|w ws IH]; intros m Hin; [by apply elem_of_nil in Hin|].
  simpl. assert (Hrest : forall m', foldl (mark_spent tx blk o) m' ws = m' \/
            foldl (mark_spent tx blk o) m' ws =
              if keeps_confirmed tx blk w0 then m' else <[o := mark tx blk w0]> m').
  { intros m'. destruct (decide (w0 ∈ ws)) as [Hws|Hws].
    - right. apply IH; [|done]. intros v Hv. apply Huniq. by right.
    - left. apply mark_spent_none. intros v Hv Hvo. apply Hws.
      rewrite <- (Huniq v); [done|by right|done]. }
  unfold mark_spent at 2. case_bool_decide as Hne.
  { apply IH; [intros v Hv; apply Huniq; by right|].
    apply elem_of_cons in Hin as [->|]; [congruence|done]. }
  assert (w = w0) as -> by (apply Huniq; [left|destruct (decide (o = wr_outpoint w)); [done|tauto]]).
  destruct (keeps_confirmed tx blk w0).
  - by destruct (Hrest m) as [E|E].
  - destruct (Hrest (<[o := mark tx blk w0]> m)) as [E'|E']; rewrite E'; [done|].
    apply insert_insert_eq.
Qed.

(** The effect of a transaction on the watch table. *)
Definition scan_table tx blk (os : list OutPoint) (m : gmap OutPoint WatchRequest) :=
  map_imap (fun k w => Some (if bool_decide (k ∈ os) then mark tx blk w else w)) m.

Lemma scan_inputs_ok tx blk m0 done_ todo r :
  watches_wf m0 -> fr_poisoned r = false ->
  watches r = scan_table tx blk done_ m0 ->
  st_for_each (fun i => st_for_each (record_spend tx blk (previous_output i)) (ord m0)) todo r =
    (Ok (), set_watches (scan_table tx blk (done_ ++ map previous_output todo) m0) r).
Proof.
  intros Hwf. revert done_ r. induction todo as [|i todo IH]; intros done_ r Hp Hr; simpl.
  { rewrite app_nil_r, <- Hr, set_watches_id. done. }
  rewrite (st_bind_step _ _ _ _ _ (record_spends_ok tx blk _ _ r Hp)).
  rewrite (IH (done_ ++ [previous_output i])); [by rewrite <- app_assoc|done|].
  set (o := previous_output i). unfold watches at 1. simpl. rewrite Hr. apply map_eq. intros k.
  destruct (m0 !! o) as [w0|] eqn:Hw0.
  - assert (Ho : wr_outpoint w0 = o) by by apply Hwf in Hw0.
    rewrite (mark_spent_one _ _ _ w0).
    + unfold scan_table. rewrite map_lookup_imap.
      destruct (decide (k = o)) as [->|Hk].
      * rewrite Hw0. simpl. rewrite (bool_decide_eq_true_2 (o ∈ _ ++ _)) by set_solver.
        destruct (keeps_confirmed tx blk w0) eqn:Hkc; [|by rewrite lookup_insert_eq].
        rewrite map_lookup_imap, Hw0. simpl. unfold mark. rewrite Hkc. by case_bool_decide.
      * transitivity (scan_table tx blk done_ m0 !! k).
        { destruct (keeps_confirmed tx blk w0); [done|]. by rewrite lookup_insert_ne. }
        unfold scan_table. rewrite map_lookup_imap. destruct (m0 !! k); [simpl|done].
        f_equal. rewrite !(bool_decide_ext (k ∈ done_ ++ [o]) (k ∈ done_)); [done|set_solver].
    + intros w Hw Hwo. apply (elem_of_watch_order _ _ Hwf) in Hw. congruence.
    + apply (elem_of_watch_order _ _ Hwf). by rewrite Ho.
    + done.
  - rewrite mark_spent_none.
    + unfold scan_table. rewrite !map_lookup_imap. destruct (m0 !! k) eqn:Hk; [simpl|done].
      f_equal. rewrite (bool_decide_ext (k ∈ done_ ++ [o]) (k ∈ done_)); [done|].
      assert (k <> o) by congruence. set_solver.
    + intros w Hw Hwo. apply (elem_of_watch_order _ _ Hwf) in Hw. congruence.
Qed.

Lemma scan_table_spends tx blk m :
  watches_wf m -> scan_table tx blk (spends tx) m = scanned tx blk <$> m.
Proof.
  intros Hwf. apply map_eq. intros k. unfold scan_table. rewrite map_lookup_imap, lookup_fmap.
  destruct (m !! k) as [w|] eqn:Hk; simpl; [|done]. f_equal. unfold scanned.
  by rewrite (Hwf _ _ Hk).
Qed.

Lemma process_transaction_ok tx blk r :
  fr_poisoned r = false -> watches_wf (watches r) ->
  process_transaction ord tx blk r = (Ok (), set_watches (scanned tx blk <$> watches r) r).
Proof.
  intros Hp Hwf. unfold process_transaction.
  rewrite (st_bind_step _ _ r (ord (watches r)) r).
  2:{ destruct r as [[] d]; done. }
  rewrite (scan_inputs_ok tx blk (watches r) [] (input tx) r); [|done|done|].
  - simpl. by rewrite <- scan_table_spends.
  - apply map_eq. intros k. unfold scan_table. rewrite map_lookup_imap. by destruct (watches r !! k).
Qed.

Lemma process_transaction_poisoned tx blk r :
  fr_poisoned r = true -> process_transaction ord tx blk r = (Err WatchE_MutexPoison, r).
Proof. intros Hp. unfold process_transaction, list_watches, with_data, mbind, stateful_bind. by rewrite Hp. Qed.
End scan_lemmas.

(** The watch table after a block, and its lock. *)
Definition scan_block_table `{BitcoinLib} (txs : list Transaction) (m : gmap OutPoint WatchRequest) :=
  foldl (fun m tx => scanned tx true <$> m) m txs.

Lemma scanned_outpoint `{BitcoinLib} tx blk w : wr_outpoint (scanned tx blk w) = wr_outpoint w.
Proof. unfold scanned, mark. by repeat case_match. Qed.

Lemma scanned_wf `{BitcoinLib} tx blk m : watches_wf m -> watches_wf (scanned tx blk <$> m).
Proof.
  intros Hwf k w Hk. rewrite lookup_fmap in Hk. apply fmap_Some in Hk as (w0 & Hw0 & ->).
  rewrite scanned_outpoint. by apply Hwf in Hw0.
Qed.

Lemma scan_block_wf `{BitcoinLib} txs m : watches_wf m -> watches_wf (scan_block_table txs m).
Proof. revert m. induction txs; intros m Hwf; simpl; [done|]. by apply IHtxs, scanned_wf. Qed.

Lemma scan_block_dom `{BitcoinLib} txs m o :
  is_Some (scan_block_table txs m !! o) <-> is_Some (m !! o).
Proof.
  revert m. induction txs as [|tx txs IH]; intros m; simpl; [done|].
  unfold scan_block_table in *. rewrite IH, lookup_fmap. apply fmap_is_Some.
Qed.

Lemma process_block_ok `{BitcoinLib} ord `{!WatchOrder ord} disc txs r :
  fr_poisoned r = false -> watches_wf (watches r) ->
  exists r', process_block ord disc txs r = (Ok (), r') /\ fr_poisoned r' = false /\
    watches r' = scan_block_table txs (watches r).
Proof.
  unfold process_block. revert r. induction txs as [|tx txs IH]; intros r Hp Hwf; simpl.
  { by exists r. }
  assert (Hone : exists r1, (process_transaction ord tx true ≫= fun _ =>
      if disc then
        match process_fidelity tx with
        | Some a => insert_fidelity (compute_txid tx) a ≫= fun _ => mret ()
        | None => mret ()
        end
      else mret ()) r = (Ok (), r1) /\ fr_poisoned r1 = false /\
      watches r1 = scanned tx true <$> watches r).
  { rewrite (st_bind_step _ _ _ _ _ (process_transaction_ok ord tx true r Hp Hwf)).
    set (r0 := set_watches _ r). assert (Hp0 : fr_poisoned r0 = false) by done.
    destruct disc; [|by exists r0]. destruct (process_fidelity tx) as [a|]; [|by exists r0].
    unfold insert_fidelity, with_data, mbind, stateful_bind. rewrite Hp0. eexists. split; [done|].
    by split. }
  destruct Hone as (r1 & E1 & Hp1 & Hw1). rewrite (st_bind_step _ _ _ _ _ E1).
  destruct (IH r1 Hp1) as (r' & -> & Hp' & Hw'); [rewrite Hw1; by apply scanned_wf|].
  exists r'. split; [done|]. split; [done|]. by rewrite Hw', Hw1.
Qed.

(** [o] has a confirmed spend on record that satisfies [P]. *)
Definition recorded (P : Transaction -> Prop) (o : OutPoint) (m : gmap OutPoint WatchRequest) : Prop :=
  exists w t, m !! o = Some w /\ wr_in_block w = true /\ wr_spent_tx w = Some t /\ o ∈ spends t /\ P t.

(** Scanning a block records the spends it holds and keeps the ones on record. *)
Lemma scan_block_records `{BitcoinLib} (P : Transaction -> Prop) txs m o :
  watches_wf m -> Forall P txs -> is_Some (m !! o) ->
  recorded P o m \/ (exists tx, tx ∈ txs /\ o ∈ spends tx) ->
  recorded P o (scan_block_table txs m).
Proof.
  intros Hwf HP. revert m Hwf. induction HP as [|tx txs Htx HP IH]; intros m Hwf [w Hw] Hr; simpl.
  { destruct Hr as [Hr|(tx & Hin & _)]; [done|by apply elem_of_nil in Hin]. }
  assert (Ho : wr_outpoint w = o) by by apply Hwf in Hw.
  apply IH; [by apply scanned_wf|rewrite lookup_fmap, Hw; by eexists|].
  destruct (decide (o ∈ spends tx)) as [Hin|Hin].
  { left. exists (mark tx true w), tx. rewrite lookup_fmap, Hw. simpl. unfold scanned, mark.
    rewrite Ho, bool_decide_eq_true_2 by done.
    assert (keeps_confirmed tx true w = false) as ->; [|done].
    unfold keeps_confirmed. destruct (wr_spent_tx w); [|done]. by rewrite andb_false_r. }
  destruct Hr as [(w' & t & Hw' & Hblk & Ht & Hs & Hp)|(tx' & Hin' & Hs)].
  - left. rewrite Hw in Hw'. injection Hw' as <-. exists w, t. rewrite lookup_fmap, Hw. simpl.
    unfold scanned. rewrite Ho, bool_decide_eq_false_2 by done. done.
  - right. apply elem_of_cons in Hin' as [->|Hin']; [done|]. by exists tx'.
Qed.

(** ** The deduplication cache *)
Inductive SeenOp := SeenClaim (t : Txid) | SeenRelease (t : Txid) | SeenInsert (t : Txid).

Definition seen_op (op : SeenOp) (s : SeenTxids) : SeenTxids :=
  match op with
  | SeenClaim t => (claim t s).2
  | SeenRelease t => release t s
  | SeenInsert t => (seen_insert t s).2
  end.

(** The set and the queue hold the same txids, each once, and no claimed one. *)
Definition seen_consistent (s : SeenTxids) : Prop :=
  NoDup (order s) /\ seen s = list_to_set (order s) /\ in_flight s ## seen s.

Lemma evict_one_consistent s :
  seen_consistent s ->
  seen_consistent (evict_one s) /\ length (order (evict_one s)) = (length (order s) - 1)%nat.
Proof.
  intros (Hnd & Hs & Hd). unfold evict_one. destruct (order s) as [|old rest] eqn:E.
  { split; [|by rewrite E]. split_and!; [by rewrite E|by rewrite E|done]. }
  apply NoDup_cons in Hnd as [Hold Hnd]. cbn. split; [|lia]. split_and!; cbn; [done| |set_solver].
  rewrite Hs. cbn. apply set_eq. intros x. rewrite elem_of_difference, elem_of_union, !elem_of_singleton,
    elem_of_list_to_set. set_solver.
Qed.

Lemma evict_consistent k s :
  seen_consistent s ->
  seen_consistent (Nat.iter k evict_one s) /\
  length (order (Nat.iter k evict_one s)) = (length (order s) - k)%nat.
Proof.
  intros Hs. induction k as [|k [IH1 IH2]]; [by split; [|cbn; lia]|]. rewrite Nat.iter_succ.
  destruct (evict_one_consistent _ IH1) as [H1 H2]. split; [done|]. rewrite H2, IH2. lia.
Qed.

(** The cache of seen transactions stays well formed and bounded.  After any
    sequence of claims, releases and insertions the lookup set and the eviction
    queue hold the same txids, each once, at most [MAX_SEEN_TXIDS] of them, and no
    txid is both seen and claimed; and a claim succeeds exactly for a txid that is
    neither, so that two threads never work on the same one. *)
Lemma seen_cache_is_bounded_and_exclusive ops t :
  let s := foldl (fun s op => seen_op op s) SeenTxids_new ops in
  seen_consistent s /\ (length (order s) <= MAX_SEEN_TXIDS)%nat /\
  ((claim t s).1 = true <-> t ∉ seen s /\ t ∉ in_flight s).
Proof.
  cbv zeta. set (s := foldl _ _ ops).
  assert (Hinv : seen_consistent s /\ (length (order s) <= MAX_SEEN_TXIDS)%nat).
  { unfold s. induction ops as [|op ops IH] using rev_ind.
    { split; [|cbn; lia]. split_and!; [constructor|done|set_solver]. }
    rewrite foldl_app. cbn [foldl]. specialize (IH). set (s0 := foldl _ _ ops) in *.
    destruct IH as [(Hnd & Hs & Hd) Hlen]. destruct op as [x|x|x]; cbn [seen_op].
    - unfold claim. case_bool_decide as Hx; cbn; [done|]. split; [|done].
      split_and!; [done..|]. set_solver.
    - split; [|done]. split_and!; [done..|]. cbn. set_solver.
    - unfold seen_insert. cbn [seen order in_flight]. case_bool_decide as Hx; cbn [snd].
      { split; [|done]. split_and!; [done..|]. cbn. set_solver. }
      set (s1 := {| seen := {[x]} ∪ seen s0; order := order s0 ++ [x]; in_flight := in_flight s0 ∖ {[x]} |}).
      assert (Hs1 : seen_consistent s1).
      { split_and!; cbn; [|rewrite list_to_set_app_L, <- Hs; set_solver|set_solver].
        apply NoDup_app. split; [done|]. split; [|apply NoDup_singleton].
        intros y Hy Hyx%list_elem_of_singleton. subst y. apply Hx. rewrite Hs. by apply elem_of_list_to_set. }
      assert (Hl1 : length (order s1) = S (length (order s0))) by (cbn; rewrite length_app; cbn; lia).
      destruct (Nat.ltb_spec MAX_SEEN_TXIDS (length (order s0 ++ [x]))) as [Hbig|Hbig].
      + destruct (evict_consistent 10 s1 Hs1) as [Hc Hl]. split; [exact Hc|]. fold s1. rewrite Hl. lia.
      + split; [exact Hs1|exact Hbig]. }
  split; [apply Hinv|]. split; [apply Hinv|]. unfold claim.
  case_bool_decide as Hx; cbn; [split; [done|tauto]|]. rewrite bool_decide_eq_true. tauto.
Qed.
