(* ===== verification/Watcher.v ===== *)
(** The watcher thread and its service: src/watch_tower/watcher.rs and
    src/watch_tower/service.rs.

    The watcher owns the registry of [WatchRegistry], the list of script
    subscriptions that have to be retried and a blockchain backend.  The
    backend, the consensus decoder and the shutdown flag other threads may raise
    between any two instructions are the class [Backend W] over an arbitrary
    world [W].  [handle_command] and [handle_event] are the handlers of the
    source; [watcher_step] is one turn of the event loop's code, [step] adds the
    clients that send commands at any time, and a run is a sequence of steps.
    Replies go to the channel each request carries and are kept in the order in
    which they were sent.  The nostr discovery thread is not part of the model:
    it only adds fidelity records to the shared registry. *)
From S2P Require Import Prelude Bitcoin Errors WatchRegistry.
#[local] Open Scope string_scope.
#[local] Open Scope list_scope.
#[local] Open Scope Z_scope.

(** ** The backend *)
Inductive Network := Net_Bitcoin | Net_Testnet | Net_Testnet4 | Net_Signet | Net_Regtest.

Record BlockRef := { br_height : Z; br_hash : bytes }.
Inductive WatchEvent :=
| TxSeen (raw_tx : bytes)
| BlockConnected (b : BlockRef).

(** The part of the trait [Blockchain] the watcher uses, the crate's consensus
    decoder and the shared shutdown flag. *)
Class Backend (W : Type) := {
  is_electrum : bool;
  chain_name : stateful W WalletError string;
  prime_subscription : stateful W WalletError ();
  get_raw_mempool : stateful W WalletError (list Txid);
  get_raw_transaction : Txid -> stateful W WalletError Transaction;
  get_block_count : stateful W WalletError Z;
  block_at_height : Z -> stateful W WalletError (list Transaction);
  tx_block_height : Txid -> stateful W WalletError (option Z);
  is_confirmed_spend : OutPoint -> Script -> stateful W WalletError bool;
  subscribe_script : Script -> OutPoint -> stateful W WalletError ();
  unsubscribe_script : Script -> OutPoint -> stateful W WalletError ();
  poll_event : W -> option WatchEvent * W;
  load_shutdown : W -> bool * W;
  store_shutdown : W -> W;
  deserialize_tx : bytes -> option Transaction;
  deserialize_block : bytes -> option (list Transaction);
}.

(** ** Messages of the service *)
Inductive WatcherEvent :=
| UtxoSpent (outpoint : OutPoint) (spending_tx : option Transaction)
| NoOutpoint
| WatcherEvent_Error (msg : string).

(** A reply channel is named by a number; each request brings its own. *)
Abbreviation Channel := nat.
Inductive Reply :=
| RebuildReply (r : outcome string ())
| EventReply (e : WatcherEvent).

Inductive WatcherCommand :=
| RegisterWatchRequest (outpoint : OutPoint) (script_pubkey : Script)
| RebuildWatches (watches : list (OutPoint * Script)) (reply : Channel)
| WatchRequestCmd (outpoint : OutPoint) (reply : Channel)
| Unwatch (outpoint : OutPoint) (script_pubkey : Script)
| Shutdown.

Record Watcher (W : Type) := {
  wt_blockchain : W;
  wt_registry : FileRegistry;
  wt_pending_subscribes : list (OutPoint * Script);
  wt_sent : list (Channel * Reply);
}.
Arguments wt_blockchain {W}.
Arguments wt_registry {W}.
Arguments wt_pending_subscribes {W}.
Arguments wt_sent {W}.

(** ** The watcher's operations *)
Section watcher.
Context `{BitcoinLib} {W : Type} `{Backend W}.
Context (watch_order : gmap OutPoint WatchRequest -> list WatchRequest).
(** The role's [RUN_DISCOVERY]. *)
Context (run_discovery : bool).

Abbreviation watcher_op := (stateful (Watcher W) WatcherError).

Definition on_chain {A} (m : stateful W WalletError A) : watcher_op A := fun s =>
  let '(r, w) := m (wt_blockchain s) in
  (map_err WatchE_Wallet r, {| s with wt_blockchain := w |}).
Definition on_registry {A} (m : registry_op A) : watcher_op A := fun s =>
  let '(r, reg) := m (wt_registry s) in (r, {| s with wt_registry := reg |}).
Definition shutdown_load : watcher_op bool := fun s =>
  let '(b, w) := load_shutdown (wt_blockchain s) in (Ok b, {| s with wt_blockchain := w |}).
Definition send (reply : Channel) (r : Reply) : watcher_op () :=
  modify (fun s => {| s with wt_sent := wt_sent s ++ [(reply, r)] |}).

Definition push_pending (outpoint : OutPoint) (spk : Script) : watcher_op () :=
  modify (fun s => {| s with wt_pending_subscribes := wt_pending_subscribes s ++ [(outpoint, spk)] |}).

(** Stores a watch and arms its subscription; both failures are only logged,
    a failed subscription is queued for a retry. *)
Definition arm_watch (outpoint : OutPoint) (spk : Script) : watcher_op () :=
  attempt (on_registry (register_watch outpoint spk)) ≫= fun _ =>
  attempt (on_chain (subscribe_script spk outpoint)) ≫= fun r =>
  match r with
  | inl _ => mret ()
  | inr _ => push_pending outpoint spk
  end.

Definition confirm_recorded_spend (outpoint : OutPoint) (spk : Script) : watcher_op bool :=
  attempt (on_chain (is_confirmed_spend outpoint spk)) ≫= fun r =>
  match r with
  | inl still_there => mret still_there
  | inr _ => mret true
  end.

(** [for height in from..=tip], aborted by a shutdown. *)
Fixpoint scan_heights (heights : list Z) : watcher_op () :=
  match heights with
  | [] => mret ()
  | height :: rest =>
      shutdown_load ≫= fun stop : bool =>
      if stop then mret ()
      else
        on_chain (block_at_height height) ≫= fun block =>
        on_registry (process_block watch_order run_discovery block) ≫= fun _ =>
        scan_heights rest
  end.

Definition scan_blocks (from : Z) : watcher_op () :=
  on_chain get_block_count ≫= fun tip =>
  scan_heights (seqZ from (tip - from + 1)).

(** The lookup of the oldest funding height; [None] is the early return on
    shutdown. *)
Fixpoint oldest_funding (watches : list (OutPoint * Script)) (oldest : option Z)
  : watcher_op (option (option Z)) :=
  match watches with
  | [] => mret (Some oldest)
  | (outpoint, _) :: rest =>
      shutdown_load ≫= fun stop : bool =>
      if stop then mret None
      else
        attempt (on_chain (tx_block_height (op_txid outpoint))) ≫= fun r =>
        oldest_funding rest
          match r with
          | inl (Some height) =>
              Some (match oldest with Some old => Z.min old height | None => height end)
          | inl None | inr _ => oldest
          end
  end.

Definition rescan_for_missed_spends (watches : list (OutPoint * Script)) : watcher_op () :=
  oldest_funding watches None ≫= fun oldest =>
  match oldest with
  | None | Some None => mret ()
  | Some (Some from) => scan_blocks from
  end.

(** [while !shutdown && rescan.is_err() { sleep }]: [false] when the fuel ran
    out while the loop was still turning. *)
Fixpoint rescan_until (fuel : nat) (watches : list (OutPoint * Script)) : watcher_op bool :=
  match fuel with
  | O => mret false
  | S fuel =>
      shutdown_load ≫= fun stop : bool =>
      if stop then mret true
      else
        attempt (rescan_for_missed_spends watches) ≫= fun r =>
        match r with
        | inl _ => mret true
        | inr _ => rescan_until fuel watches
        end
  end.

(** The registration loop of a rebuild: [false] is the early exit on shutdown. *)
Fixpoint rebuild_register (watches : list (OutPoint * Script)) : watcher_op bool :=
  match watches with
  | [] => mret true
  | (outpoint, spk) :: rest =>
      shutdown_load ≫= fun stop : bool =>
      if stop then mret false
      else arm_watch outpoint spk ≫= fun _ => rebuild_register rest
  end.

(** The answer loop of a query: [None] is the early exit on shutdown, [Some]
    tells whether the query was answered. *)
Fixpoint answer_query (outpoint : OutPoint) (reply : Channel) (ws : list WatchRequest) (spent : bool)
  : watcher_op (option bool) :=
  match ws with
  | [] => mret (Some spent)
  | watch :: rest =>
      shutdown_load ≫= fun stop : bool =>
      if stop then mret None
      else if bool_decide (wr_outpoint watch <> outpoint) then answer_query outpoint reply rest spent
      else
        (if wr_in_block watch then confirm_recorded_spend outpoint (wr_script_pubkey watch)
         else mret true) ≫= fun still_there : bool =>
        if still_there then
          send reply (EventReply (UtxoSpent (wr_outpoint watch) (wr_spent_tx watch))) ≫= fun _ =>
          answer_query outpoint reply rest true
        else
          attempt (on_registry (upsert_watch
            {| watch with wr_spent_tx := None; wr_in_block := false |})) ≫= fun _ =>
          answer_query outpoint reply rest spent
  end.

(** The whole command handler.  The result is the flag that keeps the loop
    running; [None] stands for a rebuild that is still rescanning when the fuel
    is used up. *)
Definition handle_command (fuel : nat) (cmd : WatcherCommand) : watcher_op (option bool) :=
  match cmd with
  | RegisterWatchRequest outpoint script_pubkey =>
      arm_watch outpoint script_pubkey ≫= fun _ => mret (Some true)
  | RebuildWatches watches reply =>
      rebuild_register watches ≫= fun finished : bool =>
      if negb finished then
        send reply (RebuildReply (Ok ())) ≫= fun _ => mret (Some false)
      else
        (if is_electrum then mret true else rescan_until fuel watches) ≫= fun ended : bool =>
        if ended then send reply (RebuildReply (Ok ())) ≫= fun _ => mret (Some true)
        else mret None
  | WatchRequestCmd outpoint reply =>
      attempt (on_registry (list_watches watch_order)) ≫= fun r =>
      match r with
      | inr _ =>
          send reply (EventReply (WatcherEvent_Error
            "registry lock poisoned, cannot answer watch request for {}: {:?}")) ≫= fun _ =>
          mret (Some true)
      | inl ws =>
          answer_query outpoint reply ws false ≫= fun answered =>
          match answered with
          | None => mret (Some false)
          | Some true => mret (Some true)
          | Some false => send reply (EventReply NoOutpoint) ≫= fun _ => mret (Some true)
          end
      end
  | Unwatch outpoint script_pubkey =>
      attempt (on_registry (remove_watch outpoint)) ≫= fun _ =>
      modify (fun s => {| s with wt_pending_subscribes :=
        filter (fun p => p.1 <> outpoint) (wt_pending_subscribes s) |}) ≫= fun _ =>
      attempt (on_chain (unsubscribe_script script_pubkey outpoint)) ≫= fun _ =>
      mret (Some true)
  | Shutdown => mret (Some false)
  end.

(** [retain]: the subscriptions that still fail are kept. *)
Fixpoint retry_pending (pending : list (OutPoint * Script)) : watcher_op (list (OutPoint * Script)) :=
  match pending with
  | [] => mret []
  | (outpoint, spk) :: rest =>
      shutdown_load ≫= fun stop : bool =>
      (if stop then mret true
       else
         attempt (on_chain (subscribe_script spk outpoint)) ≫= fun r =>
         mret (match r with inl _ => false | inr _ => true end)) ≫= fun kept : bool =>
      retry_pending rest ≫= fun others =>
      mret (if kept then (outpoint, spk) :: others else others)
  end.

Definition retry_subscribes : watcher_op () :=
  shutdown_load ≫= fun stop : bool =>
  if stop then mret ()
  else
    gets wt_pending_subscribes ≫= fun pending =>
    retry_pending pending ≫= fun kept =>
    modify (fun s => {| s with wt_pending_subscribes := kept |}).

Fixpoint scan_mempool (txids : list Txid) : watcher_op () :=
  match txids with
  | [] => mret ()
  | txid :: rest =>
      shutdown_load ≫= fun stop : bool =>
      if stop then mret ()
      else
        attempt (on_chain (get_raw_transaction txid)) ≫= fun r =>
        match r with
        | inr _ => scan_mempool rest
        | inl tx =>
            on_registry (process_transaction watch_order tx false) ≫= fun _ => scan_mempool rest
        end
  end.

Definition process_mempool : watcher_op () :=
  on_chain get_raw_mempool ≫= scan_mempool.

Definition handle_event (ev : WatchEvent) : watcher_op () :=
  match ev with
  | TxSeen raw_tx =>
      match deserialize_tx raw_tx with
      | Some tx => attempt (on_registry (process_transaction watch_order tx false)) ≫= fun _ => mret ()
      | None => mret ()
      end
  | BlockConnected b =>
      if negb (zlen (br_hash b) =? 32) then
        match deserialize_block (br_hash b) with
        | Some block =>
            attempt (on_registry (process_block watch_order run_discovery block)) ≫= fun _ => mret ()
        | None => mret ()
        end
      else mret ()
  end.

(** What [run] does before its loop. *)
Definition network_of (chain : string) : option Network :=
  if bool_decide (chain = "main") then Some Net_Bitcoin
  else if bool_decide (chain = "test") then Some Net_Testnet
  else if bool_decide (chain = "testnet4") then Some Net_Testnet4
  else if bool_decide (chain = "signet") then Some Net_Signet
  else if bool_decide (chain = "regtest") then Some Net_Regtest
  else None.

Definition run_startup : watcher_op Network :=
  on_chain chain_name ≫= fun chain =>
  lift (ok_or (network_of chain) (WatchE_General "Unsupported Bitcoin network: {unknown}"))
    ≫= fun network =>
  (if is_electrum then mret () else attempt (on_chain prime_subscription) ≫= fun _ => mret ())
    ≫= fun _ =>
  attempt process_mempool ≫= fun _ =>
  mret network.
End watcher.

(** ** The event loop and its clients *)

(** Where the watcher thread is: before [recv_timeout], inside the drain of the
    command burst, inside the drain of backend events, or gone. *)
Inductive Pc := Waiting | Draining | Polling | Stopped.
#[global] Instance Pc_eq_dec : EqDecision Pc.
Proof. solve_decision. Defined.

(** The watcher thread with the command channel and the liveness flag it shares
    with the clones of its [WatchService]; [nd_senders] is false once the last
    clone is dropped. *)
Record Node (W : Type) := {
  nd_pc : Pc;
  nd_watcher : Watcher W;
  nd_queue : list WatcherCommand;
  nd_senders : bool;
  nd_alive : bool;
}.
Arguments nd_pc {W}.
Arguments nd_watcher {W}.
Arguments nd_queue {W}.
Arguments nd_senders {W}.
Arguments nd_alive {W}.

(** A receive on a channel. *)
Inductive Recv (A : Type) := Received (a : A) | Disconnected | TimedOut.
Arguments Received {A} a.
Arguments Disconnected {A}.
Arguments TimedOut {A}.

Section event_loop.
Context `{BitcoinLib} {W : Type} `{Backend W}.
Context (watch_order : gmap OutPoint WatchRequest -> list WatchRequest) (run_discovery : bool).

(** The thread ends, by return or by panic: [run_with_liveness] clears the flag
    and the receiver is dropped with the commands still queued. *)
Definition stop (s : Watcher W) (n : Node W) : Node W :=
  {| n with nd_pc := Stopped; nd_watcher := s; nd_queue := []; nd_alive := false |}.

Definition goto (pc : Pc) (s : Watcher W) (n : Node W) : Node W :=
  {| n with nd_pc := pc; nd_watcher := s |}.

(** A command is taken from the queue and handled; [None] as long as the handler
    has not returned. *)
Definition dispatch (fuel : nat) (cmd : WatcherCommand) (rest : list WatcherCommand) (n : Node W)
  : option (Node W) :=
  match handle_command watch_order run_discovery fuel cmd (nd_watcher n) with
  | (Ok (Some true), s) => Some {| (goto Draining s n) with nd_queue := rest |}
  | (Ok None, _) => None
  | (_, s) => Some (stop s n)
  end.

(** [retry_subscribes] and back to the top of the loop. *)
Definition end_pass (s : Watcher W) (n : Node W) : Node W :=
  match retry_subscribes s with
  | (Ok _, s) => goto Waiting s n
  | (_, s) => stop s n
  end.

(** One turn of one of the three loops of [run].  Every turn loads the shutdown
    flag first. *)
Definition watcher_step (fuel : nat) (n : Node W) : option (Node W) :=
  match shutdown_load (nd_watcher n) with
  | (Ok down, s) =>
      match nd_pc n with
      | Waiting =>
          if down then Some (stop s n)
          else match nd_queue n with
               | cmd :: rest => dispatch fuel cmd rest (goto Waiting s n)
               | [] => Some (if nd_senders n then goto Polling s n else stop s n)
               end
      | Draining =>
          if down then Some (goto Polling s n)
          else match nd_queue n with
               | cmd :: rest => dispatch fuel cmd rest (goto Draining s n)
               | [] => Some (goto Polling s n)
               end
      | Polling =>
          if down then Some (end_pass s n)
          else match poll_event (wt_blockchain s) with
               | (None, w) => Some (end_pass {| s with wt_blockchain := w |} n)
               | (Some ev, w) =>
                   match handle_event watch_order run_discovery ev {| s with wt_blockchain := w |} with
                   | (Ok _, s) => Some (goto Polling s n)
                   | (_, s) => Some (stop s n)
                   end
               end
      | Stopped => None
      end
  | (_, s) => Some (stop s n)
  end.

(** *** [WatchService] *)
Definition is_alive (n : Node W) : bool := nd_alive n.

(** [Err] when the receiver is gone. *)
Definition send_command (cmd : WatcherCommand) : stateful (Node W) WatcherError () := fun n =>
  if bool_decide (nd_pc n = Stopped) then (Err WatchE_SendError, {| n with nd_alive := false |})
  else (Ok (), {| n with nd_queue := nd_queue n ++ [cmd] |}).

Definition register_watch_request (outpoint : OutPoint) (script_pubkey : Script) :=
  send_command (RegisterWatchRequest outpoint script_pubkey).

Definition unwatch (outpoint : OutPoint) (script_pubkey : Script) :=
  send_command (Unwatch outpoint script_pubkey).

(** The waiting loop of [rebuild_watches] and [watch_request] over what
    [recv_timeout] returned so far and the shutdown flag at each timeout:
    [None] while still waiting; the flag tells whether [alive] is cleared. *)
Fixpoint await {A B} (convert : A -> outcome WatcherError B) (obs : list (Recv A * bool))
  : option (outcome WatcherError B * bool) :=
  match obs with
  | [] => None
  | (Received a, _) :: _ => Some (convert a, false)
  | (Disconnected, _) :: _ => Some (Err WatchE_SendError, true)
  | (TimedOut, down) :: rest =>
      if down then Some (Err WatchE_Shutdown, false) else await convert rest
  end.

Definition clear_alive (dead : bool) (n : Node W) : Node W :=
  if dead then {| n with nd_alive := false |} else n.

(** [rebuild_watches] after its command was sent. *)
Definition rebuild_watches_wait (obs : list (Recv (outcome string ()) * bool)) :=
  await (map_err WatchE_General) obs.

(** [watch_request] after its command was sent. *)
Definition event_result (e : WatcherEvent) : outcome WatcherError WatcherEvent :=
  match e with
  | WatcherEvent_Error _ => Err (WatchE_General "watcher could not answer request for {}: {}")
  | e => Ok e
  end.
Definition watch_request_wait (obs : list (Recv WatcherEvent * bool)) := await event_result obs.

(** What a client sees on the reply channel it created: a reply, a channel whose
    only sender is gone, or nothing yet. *)
Definition holds_channel (ch : Channel) (cmd : WatcherCommand) : bool :=
  match cmd with
  | RebuildWatches _ reply | WatchRequestCmd _ reply => (reply =? ch)%nat
  | _ => false
  end.
Definition reply_recv (ch : Channel) (n : Node W) : Recv Reply :=
  match list_find (fun p => p.1 = ch) (wt_sent (nd_watcher n)) with
  | Some (_, (_, r)) => Received r
  | None => if existsb (holds_channel ch) (nd_queue n) then TimedOut else Disconnected
  end.

(** [shutdown]: the join that follows waits for [Stopped]. *)
Definition service_shutdown (n : Node W) : Node W :=
  let n := (send_command Shutdown n).2 in
  let s := nd_watcher n in
  {| n with nd_watcher := {| s with wt_blockchain := store_shutdown (wt_blockchain s) |};
            nd_alive := false |}.

Definition on_node_registry {A} (m : registry_op A) (n : Node W) : Node W :=
  {| n with nd_watcher := (on_registry m (nd_watcher n)).2 |}.

(** All the ways the node can change: a turn of the watcher, a client's command,
    a client that gives up on a disconnected channel, the shutdown, the last
    clone dropped, and the fidelity records the discovery thread and the offer
    sync touch. *)
Inductive step : Node W -> Node W -> Prop :=
| step_watcher fuel n n' : watcher_step fuel n = Some n' -> step n n'
| step_command cmd n : nd_senders n = true -> step n (send_command cmd n).2
| step_disconnected ch n : reply_recv ch n = Disconnected -> step n (clear_alive true n)
| step_shutdown n : nd_senders n = true -> step n (service_shutdown n)
| step_drop n : step n {| n with nd_senders := false |}
| step_insert_fidelity txid a n : step n (on_node_registry (insert_fidelity txid a) n)
| step_list_fidelity height n : step n (on_node_registry (list_fidelity height) n)
| step_save_cursor url c n : step n (on_node_registry (save_nostr_cursor url c) n).

(** The node when the event loop is entered. *)
Definition start (s : Watcher W) : Node W :=
  {| nd_pc := Waiting; nd_watcher := s; nd_queue := []; nd_senders := true; nd_alive := true |}.

(** [Watcher::new] with [FileRegistry::new]. *)
Definition Watcher_new (w : W) : Watcher W :=
  {| wt_blockchain := w; wt_registry := FileRegistry_new; wt_pending_subscribes := []; wt_sent := [] |}.

(** [spawn] and [run]: a startup error or panic ends the thread at once. *)
Definition spawn (w : W) : Node W :=
  match run_startup watch_order (Watcher_new w) with
  | (Ok _, s) => start s
  | (_, s) => stop s (start s)
  end.
End event_loop.

(** ** A concrete backend

    A Bitcoin Core-like node with a fixed chain: block [h] of the list is at
    height [h].  [tc_subscribe_fails] and [tc_rescan_fails] count the calls that
    still fail, [tc_lookup_fails] makes every funding lookup fail. *)
Record TestChain := {
  tc_blocks : list (list Transaction);
  tc_events : list WatchEvent;
  tc_armed : list OutPoint;
  tc_subscribe_fails : nat;
  tc_rescan_fails : nat;
  tc_lookup_fails : bool;
  tc_down : bool;
}.

Definition tc_default : TestChain :=
  {| tc_blocks := []; tc_events := []; tc_armed := []; tc_subscribe_fails := 0; tc_rescan_fails := 0;
     tc_lookup_fails := false; tc_down := false |}.

Section test_chain.
Context `{BitcoinLib}.

Definition tc_height (txid : Txid) (c : TestChain) : option Z :=
  (fun p => Z.of_nat p.1) <$>
    list_find (fun b => existsb (fun tx => compute_txid tx =? txid) b = true) (tc_blocks c).

Definition tc_spent (o : OutPoint) (c : TestChain) : bool :=
  existsb (existsb (fun tx => bool_decide (o ∈ spends tx))) (tc_blocks c).

#[export] Instance TestChain_backend : Backend TestChain := {|
  is_electrum := false;
  chain_name := mret "regtest";
  prime_subscription := mret ();
  get_raw_mempool := mret [];
  get_raw_transaction t := lift (Err (WE_Rpc (RPC_Other "no such transaction")));
  get_block_count := fun c => (Ok (zlen (tc_blocks c) - 1), c);
  block_at_height h := fun c =>
    match tc_rescan_fails c with
    | S k => (Err (WE_Rpc (RPC_Other "timeout")), {| c with tc_rescan_fails := k |})
    | O => (ok_or (tc_blocks c !! Z.to_nat h) (WE_Rpc (RPC_Other "no such block")), c)
    end;
  tx_block_height t := fun c =>
    if tc_lookup_fails c then (Err (WE_Rpc (RPC_Other "timeout")), c) else (Ok (tc_height t c), c);
  is_confirmed_spend o _ := fun c => (Ok (tc_spent o c), c);
  subscribe_script _ o := fun c =>
    match tc_subscribe_fails c with
    | S k => (Err (WE_Electrum "timeout"), {| c with tc_subscribe_fails := k |})
    | O => (Ok (), {| c with tc_armed := o :: tc_armed c |})
    end;
  unsubscribe_script _ o := fun c => (Ok (), {| c with tc_armed := filter (fun p => p <> o) (tc_armed c) |});
  poll_event := fun c =>
    match tc_events c with
    | ev :: rest => (Some ev, {| c with tc_events := rest |})
    | [] => (None, c)
    end;
  load_shutdown c := (tc_down c, c);
  store_shutdown c := {| c with tc_down := true |};
  deserialize_tx _ := None;
  deserialize_block _ := None;
|}.
End test_chain.

(** An order of the watch table. *)
Definition table_order (m : gmap OutPoint WatchRequest) : list WatchRequest := (map_to_list m).*2.
#[export] Instance table_order_ok : WatchOrder table_order.
Proof. by intros m. Qed.
