(* ===== verification/WatcherInvariant.v ===== *)
(** Invariants of the watchtower: every watch stays stored under its own
    outpoint, and every watch is armed in the backend or queued for a retry, in
    every state the watcher, its clients and the discovery thread can reach. *)
From S2P Require Import Prelude Bitcoin Errors WatchRegistry Watcher.
#[local] Open Scope string_scope.
#[local] Open Scope list_scope.
#[local] Open Scope Z_scope.

(** ** Operations that keep a property of the watcher's state

    The property is kept on success and on error; a panic ends the thread. *)
Section keeps.
Context {W : Type} (I : Watcher W -> Prop).
Abbreviation watcher_op := (stateful (Watcher W) WatcherError).

Definition keeps {A} (m : watcher_op A) : Prop :=
  forall s, I s -> (m s).1 <> Panic -> I (m s).2.

Lemma keeps_ret {A} (a : A) : keeps (mret a).
Proof. by intros s. Qed.

Lemma holds_bind {A B} (m : watcher_op A) (f : A -> watcher_op B) :
  keeps m -> (forall a, keeps (f a)) -> keeps (m ≫= f).
Proof.
  intros Hm Hf s Hs. specialize (Hm s Hs). unfold mbind, stateful_bind.
  destruct (m s) as [[a|e|] s1]; simpl in *; [|auto..].
  apply Hf. by apply Hm.
Qed.

Lemma keeps_attempt {A} (m : watcher_op A) : keeps m -> keeps (attempt m).
Proof.
  intros Hm s Hs. specialize (Hm s Hs). unfold attempt.
  destruct (m s) as [[a|e|] s1]; simpl in *; intros Hp; [by apply Hm..|done].
Qed.

Lemma keeps_lift {A} (m : outcome WatcherError A) : keeps (lift m).
Proof. by intros s. Qed.

Lemma keeps_gets {A} (f : Watcher W -> A) : keeps (gets f).
Proof. by intros s. Qed.

Lemma keeps_if {A} (b : bool) (m m' : watcher_op A) : keeps m -> keeps m' -> keeps (if b then m else m').
Proof. by destruct b. Qed.
End keeps.

Create HintDb keeps.
#[export] Hint Resolve keeps_ret keeps_lift keeps_gets : keeps.

(** Walks an operation down to its primitive calls. *)
Ltac keeps_tac :=
  repeat first
    [ solve [auto with keeps]
    | apply holds_bind; [|intros ?]
    | apply keeps_attempt
    | apply keeps_if
    | case_match ].

(** ** The interface of the backend the watches rely on

    [armed w o] says that a spend of [o] will surface as an event.  Arming is
    what a successful subscription documents, and nothing but an unsubscription
    of the same outpoint undoes it. *)
Class ArmedBackend {W} `{Backend W} (armed : W -> OutPoint -> Prop) : Prop := {
  armed_subscribe spk o w :
    (subscribe_script spk o w).1 = Ok () -> armed (subscribe_script spk o w).2 o;
  armed_subscribe_mono spk o w o' : armed w o' -> armed (subscribe_script spk o w).2 o';
  armed_unsubscribe_mono spk o w o' :
    o' <> o -> armed w o' -> armed (unsubscribe_script spk o w).2 o';
  armed_chain_name w o : armed w o -> armed (chain_name w).2 o;
  armed_prime w o : armed w o -> armed (prime_subscription w).2 o;
  armed_mempool w o : armed w o -> armed (get_raw_mempool w).2 o;
  armed_raw_tx t w o : armed w o -> armed (get_raw_transaction t w).2 o;
  armed_block_count w o : armed w o -> armed (get_block_count w).2 o;
  armed_block h w o : armed w o -> armed (block_at_height h w).2 o;
  armed_height t w o : armed w o -> armed (tx_block_height t w).2 o;
  armed_confirmed p spk w o : armed w o -> armed (is_confirmed_spend p spk w).2 o;
  armed_poll w o : armed w o -> armed (poll_event w).2 o;
  armed_load w o : armed w o -> armed (load_shutdown w).2 o;
  armed_store w o : armed w o -> armed (store_shutdown w) o;
}.

(** ** The invariant *)
Section invariant.
Context `{BitcoinLib} {W : Type} `{Backend W} (armed : W -> OutPoint -> Prop) `{!ArmedBackend armed}.
Context (ord : gmap OutPoint WatchRequest -> list WatchRequest) `{!WatchOrder ord} (disc : bool).

(** The outpoint's notification is armed, or its retry is queued. *)
Definition covered (s : Watcher W) (o : OutPoint) : Prop :=
  armed (wt_blockchain s) o \/ exists spk, (o, spk) ∈ wt_pending_subscribes s.

Definition table (s : Watcher W) : gmap OutPoint WatchRequest := watches (wt_registry s).

(** The lock is never poisoned, every watch is stored under its own outpoint and
    none is left without a notification. *)
Definition watch_inv (s : Watcher W) : Prop :=
  fr_poisoned (wt_registry s) = false /\ watches_wf (table s) /\ forall o, is_Some (table s !! o) -> covered s o.

Abbreviation kept := (keeps watch_inv).

(** A registry operation that neither unkeys nor adds a watch. *)
Definition shrinking {A} (m : registry_op A) : Prop := forall r,
  watches_wf (watches r) ->
  fr_poisoned (m r).2 = fr_poisoned r /\
  watches_wf (watches (m r).2) /\
  forall o, is_Some (watches (m r).2 !! o) -> is_Some (watches r !! o).

Lemma kept_registry {A} (m : registry_op A) : shrinking m -> kept (on_registry m).
Proof.
  intros Hm s (Hp & Hwf & Hc) _. unfold on_registry. specialize (Hm (wt_registry s) Hwf).
  destruct (m (wt_registry s)) as [r reg]. destruct Hm as (Hp' & Hwf' & Hdom).
  split; [simpl in *; congruence|]. split; [done|]. intros o Ho. apply Hc, Hdom, Ho.
Qed.

Lemma kept_chain {A} (m : stateful W WalletError A) :
  (forall w o, armed w o -> armed (m w).2 o) -> kept (on_chain m).
Proof.
  intros Hm s (Hp & Hwf & Hc) _. unfold on_chain. specialize (Hm (wt_blockchain s)).
  destruct (m (wt_blockchain s)) as [r w]. split; [done|]. split; [done|].
  intros o Ho. destruct (Hc o Ho) as [Ha|Hq]; [left; by apply Hm|by right].
Qed.

Lemma kept_shutdown_load : kept shutdown_load.
Proof.
  intros s (Hp & Hwf & Hc) _. unfold shutdown_load. pose proof (armed_load (wt_blockchain s)) as Hm.
  destruct (load_shutdown (wt_blockchain s)) as [b w]. split; [done|]. split; [done|].
  intros o Ho. destruct (Hc o Ho) as [Ha|Hq]; [left; by apply Hm|by right].
Qed.

Lemma kept_send ch r : kept (send ch r).
Proof. by intros s. Qed.

Lemma shrinking_with_data {A} (f : RegistryData -> A * RegistryData) :
  (forall d, watches_wf (rd_watches d) ->
     watches_wf (rd_watches (f d).2) /\
     forall o, is_Some (rd_watches (f d).2 !! o) -> is_Some (rd_watches d !! o)) ->
  shrinking (with_data f).
Proof.
  intros Hf [p d] Hwf. unfold with_data. simpl. destruct p; [done|].
  specialize (Hf d Hwf). by destruct (f d).
Qed.

Lemma shrinking_same {A} (f : RegistryData -> A * RegistryData) :
  (forall d, rd_watches (f d).2 = rd_watches d) -> shrinking (with_data f).
Proof. intros Hf. apply shrinking_with_data. intros d Hd. by rewrite Hf. Qed.

Lemma shrinking_process_transaction tx blk : shrinking (process_transaction ord tx blk).
Proof.
  intros r Hwf. destruct (fr_poisoned r) eqn:Hp.
  { by rewrite process_transaction_poisoned. }
  rewrite process_transaction_ok by done. simpl. unfold watches at 1 3. simpl. split; [done|]. split.
  - intros k w Hk. rewrite lookup_fmap in Hk. apply fmap_Some in Hk as (w0 & Hw0 & ->).
    rewrite <- (Hwf _ _ Hw0). unfold scanned, mark. by repeat case_match.
  - intros o. rewrite lookup_fmap. by rewrite fmap_is_Some.
Qed.

Lemma shrinking_bind {A B} (m : registry_op A) (f : A -> registry_op B) :
  shrinking m -> (forall a, shrinking (f a)) -> shrinking (m ≫= f).
Proof.
  intros Hm Hf r Hwf. unfold mbind, stateful_bind. specialize (Hm r Hwf) as (Hp1 & Hwf1 & Hd1).
  destruct (m r) as [[a|e|] r1]; simpl in *; [|done..].
  destruct (Hf a r1 Hwf1) as (Hp2 & Hwf2 & Hd2). split; [congruence|]. split; [done|auto].
Qed.

Lemma shrinking_process_block txs : shrinking (process_block ord disc txs).
Proof.
  unfold process_block. induction txs as [|tx txs IH]; simpl; [by intros r|].
  apply shrinking_bind; [|intros _; apply IH].
  apply shrinking_bind; [apply shrinking_process_transaction|intros _].
  destruct disc; [|by intros r]. destruct (process_fidelity tx); [|by intros r].
  apply shrinking_bind; [by apply shrinking_same|by intros ? r].
Qed.

#[local] Hint Resolve kept_shutdown_load kept_send kept_registry : keeps.
#[local] Hint Resolve shrinking_process_transaction shrinking_process_block : keeps.
#[local] Hint Extern 1 (keeps _ (on_chain _)) =>
  apply kept_chain; intros ? ?;
  first [ apply armed_chain_name | apply armed_prime | apply armed_mempool | apply armed_raw_tx
        | apply armed_block_count | apply armed_block | apply armed_height | apply armed_confirmed
        | apply armed_subscribe_mono ]
  : keeps.

Lemma kept_scan_heights hs : kept (scan_heights ord disc hs).
Proof. induction hs as [|h hs IH]; simpl; keeps_tac. Qed.

Lemma kept_rescan ws : kept (rescan_for_missed_spends ord disc ws).
Proof.
  unfold rescan_for_missed_spends, scan_blocks. apply holds_bind.
  - generalize (None : option Z). induction ws as [|[o spk] ws IH]; intros old; simpl; keeps_tac.
  - intros ?. keeps_tac. apply kept_scan_heights.
Qed.

Lemma kept_rescan_until fuel ws : kept (rescan_until ord disc fuel ws).
Proof.
  induction fuel as [|fuel IH]; simpl; [auto with keeps|].
  apply holds_bind; [auto with keeps|intros ?]. apply keeps_if; [auto with keeps|].
  apply holds_bind; [apply keeps_attempt, kept_rescan|intros ?]. keeps_tac.
Qed.

(** Registering adds the watch, and the same call arms it or queues it. *)
Lemma register_watch_table o spk r :
  watches_wf (watches r) ->
  (register_watch o spk r).1 <> Panic /\
  fr_poisoned (register_watch o spk r).2 = fr_poisoned r /\
  watches_wf (watches (register_watch o spk r).2) /\
  forall o', is_Some (watches (register_watch o spk r).2 !! o') -> o' = o \/ is_Some (watches r !! o').
Proof.
  intros Hwf. destruct r as [[] d]; simpl; [split_and!; [done..|by right]|].
  unfold watches at 1 2. simpl. split; [done|]. split; [done|]. split.
  - apply map_Forall_insert_2; [|done].
    destruct (rd_watches d !! o) as [w|] eqn:Ew; [|done]. apply (Hwf o w Ew).
  - intros o'. destruct (decide (o' = o)) as [->|Hne]; [by left|].
    rewrite lookup_insert_ne by done. by right.
Qed.

Lemma kept_arm_watch o spk : kept (arm_watch o spk).
Proof.
  intros s (Hp & Hwf & Hc). unfold arm_watch, attempt, on_registry, on_chain, mbind, stateful_bind.
  pose proof (register_watch_table o spk (wt_registry s) Hwf) as (Hnp & Hp' & Hwf' & Hdom).
  destruct (register_watch o spk (wt_registry s)) as [r1 reg]. simpl in *.
  pose proof (armed_subscribe spk o (wt_blockchain s)) as Harm.
  pose proof (armed_subscribe_mono spk o (wt_blockchain s)) as Hmono.
  assert (Hgoal : forall s', wt_registry s' = reg -> (covered s' o) ->
            (forall o', armed (wt_blockchain s) o' -> armed (wt_blockchain s') o') ->
            (forall p, p ∈ wt_pending_subscribes s -> p ∈ wt_pending_subscribes s') ->
            watch_inv s').
  { intros s' Hr Ho Ha Hq. assert (Ht : table s' = watches reg) by (unfold table; congruence).
    split; [congruence|]. split; [by rewrite Ht|]. intros o'. rewrite Ht. intros Hs.
    destruct (Hdom o' Hs) as [->|Hold]; [done|].
    destruct (Hc o' Hold) as [Hl|[spk' Hin]]; [left; auto|right; eauto]. }
  destruct r1 as [[]|e|]; [| |done];
    simpl; destruct (subscribe_script spk o (wt_blockchain s)) as [[[]|e2|] w]; simpl in *; try done;
    intros _; apply Hgoal; simpl; try done; try (left; by apply Harm);
    try (right; exists spk; set_solver); set_solver.
Qed.

Lemma kept_rebuild_register ws : kept (rebuild_register ws).
Proof.
  induction ws as [|[o spk] ws IH]; simpl; [auto with keeps|].
  apply holds_bind; [auto with keeps|intros ?]. apply keeps_if; [auto with keeps|].
  apply holds_bind; [apply kept_arm_watch|auto].
Qed.

(** The invariant together with the presence of one watch: what the answer loop
    keeps while it may rewrite that watch. *)
Definition watch_inv_at (o : OutPoint) (s : Watcher W) : Prop :=
  watch_inv s /\ is_Some (table s !! o).

Lemma kept_at {A} o (m : stateful (Watcher W) WatcherError A) :
  kept m -> (forall s, table (m s).2 = table s) -> keeps (watch_inv_at o) m.
Proof. intros Hm Ht s [Hs Ho] Hp. split; [by apply Hm|by rewrite Ht]. Qed.

Lemma kept_at_upsert o w : wr_outpoint w = o -> keeps (watch_inv_at o) (on_registry (upsert_watch w)).
Proof.
  intros <- s [Hs Ho] Hp.
  assert (Hkeep : watch_inv (on_registry (upsert_watch w) s).2).
  { destruct s as [c [[] d] pend sent], Hs as (Hlock & Hwf & Hc); [done|].
    split; [done|]. split; unfold table, watches in *; simpl in *; [by apply map_Forall_insert_2|].
    intros o'. destruct (decide (o' = wr_outpoint w)) as [->|Hne].
    - intros _. by apply (Hc (wr_outpoint w)).
    - rewrite lookup_insert_ne by done. intros Ho'. by apply (Hc o'). }
  split; [done|]. destruct Hs as (Hlock & _). destruct s as [c [[] d] pend sent]; [done|].
  unfold table, watches. simpl. rewrite lookup_insert_eq. eauto.
Qed.

Lemma table_on_chain {A} (m : stateful W WalletError A) s : table (on_chain m s).2 = table s.
Proof. unfold on_chain. by destruct (m (wt_blockchain s)). Qed.

Lemma table_shutdown_load s : table (shutdown_load s).2 = table s.
Proof. unfold shutdown_load. by destruct (load_shutdown (wt_blockchain s)). Qed.

Lemma kept_confirm o spk : kept (confirm_recorded_spend o spk).
Proof. unfold confirm_recorded_spend. keeps_tac. Qed.

Lemma table_confirm o spk s : table (confirm_recorded_spend o spk s).2 = table s.
Proof.
  unfold confirm_recorded_spend, attempt, mbind, stateful_bind.
  pose proof (table_on_chain (is_confirmed_spend o spk) s) as Ht.
  by destruct (on_chain (is_confirmed_spend o spk) s) as [[b|e|] s'].
Qed.

Lemma kept_answer_at o ch ws : forall b, keeps (watch_inv_at o) (answer_query o ch ws b).
Proof.
  induction ws as [|w ws IH]; intros b; simpl; [auto with keeps|].
  apply holds_bind; [apply kept_at; [auto with keeps|apply table_shutdown_load]|intros stop].
  apply keeps_if; [auto with keeps|]. case_bool_decide as Ho; [apply IH|].
  assert (wr_outpoint w = o) as Hwo by (destruct (decide (wr_outpoint w = o)); tauto).
  apply holds_bind.
  { apply keeps_if; [|auto with keeps]. apply kept_at; [apply kept_confirm|apply table_confirm]. }
  intros st. apply keeps_if.
  - apply holds_bind; [by apply kept_at; [auto with keeps|]|intros ?; apply IH].
  - apply holds_bind; [by apply keeps_attempt, kept_at_upsert|intros ?; apply IH].
Qed.

Lemma kept_answer_none o ch ws b :
  (forall w, w ∈ ws -> wr_outpoint w <> o) -> kept (answer_query o ch ws b).
Proof.
  induction ws as [|w ws IH]; intros Hno; simpl; [auto with keeps|].
  rewrite bool_decide_eq_true_2 by (apply Hno; left).
  apply holds_bind; [auto with keeps|intros ?]. apply keeps_if; [auto with keeps|].
  apply IH. intros v Hv. apply Hno. by right.
Qed.

Lemma kept_query fuel o ch : kept (handle_command ord disc fuel (WatchRequestCmd o ch)).
Proof.
  intros s Hs. simpl. unfold mbind at 1, stateful_bind, attempt, on_registry.
  destruct (list_watches ord (wt_registry s)) as [r reg] eqn:E.
  destruct s as [c [p d] pend sent]. unfold list_watches, with_data in E. simpl in E.
  destruct p; injection E as <- <-; [by apply (holds_bind watch_inv _ _ (kept_send _ _)); auto with keeps|].
  set (s := {| wt_blockchain := c; wt_registry := {| fr_poisoned := false; fr_data := d |};
               wt_pending_subscribes := pend; wt_sent := sent |}) in *.
  change {| s with wt_registry := _ |} with s. cbn beta iota.
  assert (forall J, (forall r, keeps J (send ch r)) -> keeps J (answer_query o ch (ord (rd_watches d)) false) ->
    keeps J (answer_query o ch (ord (rd_watches d)) false ≫= fun answered =>
      match answered with
      | None => mret (Some false)
      | Some true => mret (Some true)
      | Some false => send ch (EventReply NoOutpoint) ≫= fun _ => mret (Some true)
      end)) as Hk.
  { intros J Hsend Hans. apply holds_bind; [done|]. intros [[]|]; [auto with keeps| |auto with keeps].
    apply holds_bind; [done|auto with keeps]. }
  intros Hp. destruct (rd_watches d !! o) as [w0|] eqn:Ew.
  - apply (Hk (watch_inv_at o)); [|apply kept_answer_at|split; [done|by exists w0]|done].
    intros r. by apply kept_at; [auto with keeps|].
  - apply (Hk watch_inv); [auto with keeps| |done..].
    apply kept_answer_none. intros w Hw <-.
    apply (elem_of_watch_order ord) in Hw; [congruence|apply Hs].
Qed.

Lemma remove_watch_ok o r :
  fr_poisoned r = false -> remove_watch o r = (Ok (), set_watches (delete o (watches r)) r).
Proof. by destruct r as [[] d]. Qed.

Lemma kept_unwatch fuel o spk : kept (handle_command ord disc fuel (Unwatch o spk)).
Proof.
  intros s (Hp & Hwf & Hc). unfold handle_command, attempt, on_registry, on_chain, mbind, stateful_bind.
  rewrite remove_watch_ok by done. simpl.
  pose proof (armed_unsubscribe_mono spk o (wt_blockchain s)) as Hmono.
  assert (Hgoal : forall w sent, (forall o', o' <> o -> armed (wt_blockchain s) o' -> armed w o') ->
    watch_inv {| wt_blockchain := w; wt_registry := set_watches (delete o (watches (wt_registry s))) (wt_registry s);
       wt_pending_subscribes := filter (fun p => p.1 <> o) (wt_pending_subscribes s); wt_sent := sent |}).
  { intros w sent Hw. split; [done|]. unfold table. simpl. split; [by apply map_Forall_delete|].
    intros o' Hd. unfold watches at 1 in Hd. simpl in Hd. apply lookup_delete_is_Some in Hd as [Hne Ho'].
    destruct (Hc o' Ho') as [Ha|[spk' Hin]]; [left; by apply Hw|].
    right. exists spk'. simpl. apply list_elem_of_filter. done. }
  destruct (unsubscribe_script spk o (wt_blockchain s)) as [[[]|e|] w]; simpl in *; intros Hp'; try done;
    by apply Hgoal.
Qed.

Lemma kept_handle_command fuel cmd : kept (handle_command ord disc fuel cmd).
Proof.
  destruct cmd as [o spk|ws ch|o ch|o spk|].
  - apply holds_bind; [apply kept_arm_watch|auto with keeps].
  - apply holds_bind; [apply kept_rebuild_register|intros fin].
    apply keeps_if; [apply holds_bind; auto with keeps|].
    apply holds_bind; [apply keeps_if; [auto with keeps|apply kept_rescan_until]|intros fin'].
    apply keeps_if; [apply holds_bind; auto with keeps|auto with keeps].
  - apply kept_query.
  - apply kept_unwatch.
  - by intros s.
Qed.

Lemma kept_handle_event ev : kept (handle_event ord disc ev).
Proof. destruct ev; simpl; keeps_tac. Qed.

(** Retrying keeps exactly the entries that failed again. *)
Lemma retry_pending_spec pending : forall s s' kept_list,
  retry_pending pending s = (Ok kept_list, s') ->
  wt_registry s' = wt_registry s /\ wt_pending_subscribes s' = wt_pending_subscribes s /\
  (forall o, armed (wt_blockchain s) o -> armed (wt_blockchain s') o) /\
  (forall o spk, (o, spk) ∈ pending -> armed (wt_blockchain s') o \/ (o, spk) ∈ kept_list).
Proof.
  induction pending as [|[o spk] rest IH]; intros s s' kl; simpl.
  { intros [= <- <-]. split_and!; [done..|]. intros o spk Hin. by apply elem_of_nil in Hin. }
  intros (stop & s1 & H1 & H2)%st_bind_Ok. unfold shutdown_load in H1.
  pose proof (armed_load (wt_blockchain s)) as Hl.
  destruct (load_shutdown (wt_blockchain s)) as [b w]. injection H1 as <- <-. simpl in Hl.
  apply st_bind_Ok in H2 as (keep & s2 & H2 & H3).
  apply st_bind_Ok in H3 as (others & s3 & H3 & [= <- <-]).
  apply IH in H3 as (Hr & Hq & Hm & Hk).
  assert (Hstep : wt_registry s2 = wt_registry s /\
    wt_pending_subscribes s2 = wt_pending_subscribes s /\
    (forall o, armed (wt_blockchain s) o -> armed (wt_blockchain s2) o) /\
    (keep = true \/ armed (wt_blockchain s2) o)).
  { destruct b; [injection H2 as <- <-; split_and!; auto|].
    unfold attempt, on_chain, mbind, stateful_bind in H2. simpl in H2.
    pose proof (armed_subscribe spk o w) as Ha. pose proof (armed_subscribe_mono spk o w) as Hmo.
    destruct (subscribe_script spk o w) as [[[]|e|] w']; simpl in *; try done;
      injection H2 as <- <-; split_and!; simpl; auto. }
  destruct Hstep as (Hr2 & Hq2 & Hm2 & Hk2).
  split_and!; [congruence..|auto|].
  intros o' spk' [[= -> ->]|Hin]%elem_of_cons.
  - destruct Hk2 as [->|Ha]; [right; left|left; auto].
  - destruct (Hk o' spk' Hin) as [Ha|Hin']; [by left|]. right. destruct keep; [by right|done].
Qed.

Lemma kept_retry_pending pending : kept (retry_pending pending).
Proof. induction pending as [|[o spk] rest IH]; simpl; keeps_tac. Qed.

Lemma kept_retry_subscribes : kept retry_subscribes.
Proof.
  unfold retry_subscribes. apply holds_bind; [auto with keeps|intros stop].
  apply keeps_if; [auto with keeps|]. intros s Hs.
  pose proof (kept_retry_pending (wt_pending_subscribes s) s Hs) as Hk.
  rewrite (st_bind_step _ _ s (wt_pending_subscribes s) s) by done.
  destruct (retry_pending (wt_pending_subscribes s) s) as [[kl|e|] s'] eqn:E.
  - apply retry_pending_spec in E as E'. destruct E' as (Hr & Hq & Hm & Hret).
    rewrite (st_bind_step _ _ _ _ _ E). intros _. simpl in *.
    destruct (Hk ltac:(done)) as (Hp & Hwf & Hc). split; [done|]. split; [done|].
    intros o Ho. destruct (Hc o Ho) as [Ha|[spk Hin]]; [by left|]. rewrite Hq in Hin.
    destruct (Hret o spk Hin) as [Ha|Hin']; [by left|right; by exists spk].
  - unfold mbind, stateful_bind. rewrite E. intros _. by apply Hk.
  - unfold mbind, stateful_bind. by rewrite E.
Qed.

(** ** The node *)
Definition node_inv (n : Node W) : Prop :=
  (nd_pc n <> Stopped -> watch_inv (nd_watcher n)) /\ (nd_alive n = true -> nd_pc n <> Stopped).

Lemma node_inv_stop s n : node_inv (stop s n).
Proof. by split. Qed.

Lemma node_inv_goto pc s n : watch_inv s -> pc <> Stopped -> node_inv (goto pc s n).
Proof. by split. Qed.

Lemma node_inv_dispatch fuel cmd rest n n' :
  watch_inv (nd_watcher n) -> dispatch ord disc fuel cmd rest n = Some n' -> node_inv n'.
Proof.
  intros Hs. unfold dispatch. pose proof (kept_handle_command fuel cmd (nd_watcher n) Hs) as Hk.
  destruct (handle_command ord disc fuel cmd (nd_watcher n)) as [[[[]|]|e|] s]; simpl in *;
    intros [= <-]; try apply node_inv_stop. split; [|done]. intros _. by apply Hk.
Qed.

Lemma node_inv_end_pass s n : watch_inv s -> node_inv (end_pass s n).
Proof.
  intros Hs. unfold end_pass. pose proof (kept_retry_subscribes s Hs) as Hk.
  destruct (retry_subscribes s) as [[[]|e|] s']; simpl in *; try apply node_inv_stop.
  by apply node_inv_goto; [apply Hk|].
Qed.

Lemma watch_inv_world s w :
  watch_inv s -> (forall o, armed (wt_blockchain s) o -> armed w o) ->
  watch_inv {| s with wt_blockchain := w |}.
Proof.
  intros (Hp & Hwf & Hc) Hw. split; [done|]. split; [done|]. intros o Ho.
  destruct (Hc o Ho) as [Ha|Hin]; [left; by apply Hw|by right].
Qed.

Lemma node_inv_watcher_step fuel n n' :
  node_inv n -> watcher_step ord disc fuel n = Some n' -> node_inv n'.
Proof.
  intros [Hs Hal]. unfold watcher_step.
  destruct (decide (nd_pc n = Stopped)) as [Hst|Hst].
  { rewrite Hst. by destruct (shutdown_load (nd_watcher n)) as [[down|e|] s]; intros [= <-]; split. }
  specialize (Hs Hst). pose proof (kept_shutdown_load (nd_watcher n) Hs) as Hk.
  destruct (shutdown_load (nd_watcher n)) as [[down|e|] s]; simpl in *;
    [|intros [= <-]; apply node_inv_stop..].
  specialize (Hk ltac:(done)). destruct (nd_pc n); [..|done].
  - destruct down; [intros [= <-]; apply node_inv_stop|].
    destruct (nd_queue n) as [|cmd rest]; [|by apply node_inv_dispatch].
    destruct (nd_senders n); intros [= <-]; [by apply node_inv_goto|apply node_inv_stop].
  - destruct down; [intros [= <-]; by apply node_inv_goto|].
    destruct (nd_queue n) as [|cmd rest]; [|by apply node_inv_dispatch].
    intros [= <-]; by apply node_inv_goto.
  - destruct down; [intros [= <-]; by apply node_inv_end_pass|].
    pose proof (armed_poll (wt_blockchain s)) as Hpoll.
    destruct (poll_event (wt_blockchain s)) as [[ev|] w]; simpl in Hpoll.
    + assert (Hw : watch_inv {| s with wt_blockchain := w |}) by by apply watch_inv_world.
      pose proof (kept_handle_event ev _ Hw) as He.
      destruct (handle_event ord disc ev _) as [[[]|e|] s']; intros [= <-]; simpl in *;
        [apply node_inv_goto; [by apply He|done]|apply node_inv_stop..].
    + intros [= <-]. apply node_inv_end_pass. by apply watch_inv_world.
Qed.

Lemma node_inv_registry {A} (m : registry_op A) n :
  shrinking m -> node_inv n -> node_inv (on_node_registry m n).
Proof.
  intros Hm [Hs Hal]. split; [|done]. intros Hst. specialize (Hs Hst). simpl in *.
  destruct Hs as (Hp & Hwf & Hc). unfold on_registry.
  destruct (Hm (wt_registry (nd_watcher n)) Hwf) as (Hp' & Hwf' & Hd').
  destruct (m (wt_registry (nd_watcher n))) as [r reg]. simpl in *.
  split; [simpl; congruence|]. split; [done|]. intros o Ho. by apply Hc, Hd'.
Qed.

Lemma node_inv_step n n' : node_inv n -> step ord disc n n' -> node_inv n'.
Proof.
  intros Hn Hst. pose proof Hn as [Hs Hal].
  destruct Hst as [fuel n n' Hst|cmd n Hsnd|ch n Hr|n Hsnd|n|txid a n|h n|u c n].
  - by eapply node_inv_watcher_step.
  - unfold send_command. case_bool_decide; simpl; by split.
  - by split.
  - unfold service_shutdown, send_command. split; [|done]. simpl.
    case_bool_decide; simpl; [done|]. intros _. apply watch_inv_world; [by apply Hs|].
    intros o. apply armed_store.
  - by split.
  - apply node_inv_registry; [by apply shrinking_same|done].
  - apply node_inv_registry; [by apply shrinking_same|done].
  - apply node_inv_registry; [by apply shrinking_same|done].
Qed.

Lemma kept_run_startup : kept (run_startup ord).
Proof.
  unfold run_startup, process_mempool. keeps_tac.
  match goal with |- keeps _ (scan_mempool _ ?l) => induction l as [|t l IH] end; simpl; keeps_tac.
Qed.

Lemma node_inv_spawn w : node_inv (spawn ord w).
Proof.
  unfold spawn. assert (Hnew : watch_inv (Watcher_new w)).
  { split; [done|]. split; [apply map_Forall_empty|]. intros o. unfold table, watches. simpl.
    rewrite lookup_empty. by intros [? [=]]. }
  pose proof (kept_run_startup _ Hnew) as Hk.
  destruct (run_startup ord (Watcher_new w)) as [[net|e|] s]; simpl in *;
    [|apply node_inv_stop..].
  split; [|done]. intros _. by apply Hk.
Qed.

Lemma reachable_inv w n : rtc (step ord disc) (spawn ord w) n -> node_inv n.
Proof.
  revert n. apply rtc_ind_r; [apply node_inv_spawn|].
  intros n1 n2 _ Hst IH. by eapply node_inv_step.
Qed.
End invariant.

#[export] Instance armed_anything {W} `{Backend W} : ArmedBackend (fun _ _ => True).
Proof. by split. Qed.

#[export] Instance TestChain_armed `{BitcoinLib} : ArmedBackend (fun c o => o ∈ tc_armed c).
Proof.
  split; try done; simpl; intros.
  - destruct (tc_subscribe_fails w); simpl in *; [left|done].
  - destruct (tc_subscribe_fails w); simpl; [by right|done].
  - by apply list_elem_of_filter.
  - by destruct (tc_rescan_fails w).
  - by destruct (tc_lookup_fails w).
  - by destruct (tc_events w).
Qed.

(** C40: Well-formedness of the watchtower's shared state.  In every state that
    the watcher thread, its clients, the discovery thread and the offer sync can
    reach, in any interleaving, as long as the thread has not stopped: the
    registry lock is not poisoned and every watch is stored under its own
    outpoint; and the liveness flag of the service is never set once the thread
    has stopped. *)
Theorem reachable_registry_is_well_formed `{BitcoinLib} {W} `{Backend W} ord disc w (n : Node W) :
  WatchOrder ord ->
  rtc (step ord disc) (spawn ord w) n ->
  (nd_pc n <> Stopped ->
     fr_poisoned (wt_registry (nd_watcher n)) = false /\
     watches_wf (watches (wt_registry (nd_watcher n)))) /\
  (is_alive n = true -> nd_pc n <> Stopped).
Proof.
  intros Hord Hr. destruct (reachable_inv (fun _ _ => True) ord disc w n Hr) as [Hs Hal].
  split; [|done]. intros Hpc. by destruct (Hs Hpc) as (? & ? & _).
Qed.

(** C34: No watch is ever left without a notification.  Whatever subscriptions
    the backend refused, in every reachable state of a running watcher each
    outpoint of the watch table is armed in the backend or waits in the list of
    subscriptions that every pass of the loop retries. *)
Theorem every_watch_is_armed_or_retried `{BitcoinLib} {W} `{Backend W}
    (armed : W -> OutPoint -> Prop) ord disc w (n : Node W) o :
  ArmedBackend armed -> WatchOrder ord ->
  rtc (step ord disc) (spawn ord w) n -> nd_pc n <> Stopped ->
  is_Some (watches (wt_registry (nd_watcher n)) !! o) ->
  armed (wt_blockchain (nd_watcher n)) o \/
  exists spk, (o, spk) ∈ wt_pending_subscribes (nd_watcher n).
Proof.
  intros Harm Hord Hr Hpc Ho. destruct (reachable_inv armed ord disc w n Hr) as [Hs _].
  by apply (Hs Hpc).
Qed.

(** ** A sample run: one registration whose first subscription fails *)
Module WatchSample.
Import Reference.
Definition watched : OutPoint := {| op_txid := 11; op_vout := 0 |}.
Definition begin : Node TestChain := spawn table_order {| tc_default with tc_subscribe_fails := 1 |}.
Definition registered : Node TestChain := (send_command (RegisterWatchRequest watched [81]) begin).2.
Definition after_turn (k : nat) : option (Node TestChain) :=
  Nat.iter k (fun n => n ≫= watcher_step table_order false 1) (Some registered).

Lemma iter_turns_reachable k n :
  after_turn k = Some n -> rtc (step table_order false) begin n.
Proof.
  unfold after_turn. revert n. induction k as [|k IH]; intros n; simpl.
  - intros [= <-]. apply rtc_once. by apply step_command.
  - intros (m & Hm & Hst)%bind_Some. eapply rtc_r; [by apply IH|]. by eapply step_watcher.
Qed.
End WatchSample.

Lemma reachable_registry_is_well_formed_witness :
  exists n, WatchSample.after_turn 1 = Some n /\ nd_pc n = Draining /\
    watches_wf (watches (wt_registry (nd_watcher n))).
Proof.
  destruct (WatchSample.after_turn 1) as [n|] eqn:E; [|by vm_compute in E].
  exists n. split; [done|].
  assert (nd_pc n = Draining) as Hpc.
  { assert (nd_pc <$> WatchSample.after_turn 1 = Some Draining) as Hd by (vm_compute; reflexivity).
    rewrite E in Hd. by injection Hd. }
  split; [done|].
  apply (reachable_registry_is_well_formed table_order false
           {| tc_default with tc_subscribe_fails := 1 |} n _
           (WatchSample.iter_turns_reachable 1 n E)). by rewrite Hpc.
Defined.

(** After the failed subscription the watch is queued; one pass later it is armed. *)
Lemma every_watch_is_armed_or_retried_witness :
  exists n, WatchSample.after_turn 1 = Some n /\
    ~ WatchSample.watched ∈ tc_armed (wt_blockchain (nd_watcher n)) /\
    exists spk, (WatchSample.watched, spk) ∈ wt_pending_subscribes (nd_watcher n).
Proof.
  destruct (WatchSample.after_turn 1) as [n|] eqn:E; [|by vm_compute in E].
  exists n. split; [done|].
  assert ((fun n => (nd_pc n, tc_armed (wt_blockchain (nd_watcher n)),
              bool_decide (is_Some (watches (wt_registry (nd_watcher n)) !! WatchSample.watched))))
            <$> WatchSample.after_turn 1 = Some (Draining, [], true)) as Hd by (vm_compute; reflexivity).
  rewrite E in Hd. injection Hd as Hpc Harm Hin. apply bool_decide_eq_true in Hin.
  rewrite Harm. split; [by intros Hx%elem_of_nil|].
  destruct (every_watch_is_armed_or_retried (fun c o => o ∈ tc_armed c) table_order false
           {| tc_default with tc_subscribe_fails := 1 |} n WatchSample.watched _ _
           (WatchSample.iter_turns_reachable 1 n E)) as [Ha|Hp]; [by rewrite Hpc|done| |done].
  rewrite Harm in Ha. by apply elem_of_nil in Ha.
Defined.
