(* ===== verification/WatchQueries.v ===== *)
(** What the watchtower answers and what it finds: the reply contract of a
    query, the spends a rebuild recovers from the chain, and the delivery of
    every reply in a fair run of the event loop. *)
From S2P Require Import Prelude Bitcoin Errors WatchRegistry Watcher WatcherInvariant.
#[local] Open Scope string_scope.
#[local] Open Scope list_scope.
#[local] Open Scope Z_scope.

(** ** Queries *)
Section queries.
Context `{BitcoinLib} {W : Type} `{Backend W}.
Context (ord : gmap OutPoint WatchRequest -> list WatchRequest) `{!WatchOrder ord} (disc : bool).

(** The reply to a query about [o] that the registry [reg] calls for, and the
    registry it leaves: a confirmed spend is served unless the backend answers
    that it is gone, in which case the record is cleared. *)
Definition cleared (w : WatchRequest) : WatchRequest :=
  {| w with wr_spent_tx := None; wr_in_block := false |}.

Definition query_answer (reg : FileRegistry) (o : OutPoint) (e : WatcherEvent) (reg' : FileRegistry) : Prop :=
  match watches reg !! o with
  | None => e = NoOutpoint /\ reg' = reg
  | Some w =>
      let served := e = UtxoSpent o (wr_spent_tx w) /\ reg' = reg in
      if wr_in_block w then
        exists c, match (is_confirmed_spend o (wr_script_pubkey w) c).1 with
                  | Ok false => e = NoOutpoint /\ reg' = set_watches (<[o := cleared w]> (watches reg)) reg
                  | Ok true | Err _ => served
                  | Panic => False
                  end
      else served
  end.

Lemma shutdown_load_ok (s : Watcher W) :
  shutdown_load s = (Ok (load_shutdown (wt_blockchain s)).1,
                     {| s with wt_blockchain := (load_shutdown (wt_blockchain s)).2 |}).
Proof. unfold shutdown_load. by destruct (load_shutdown (wt_blockchain s)). Qed.

(** The shutdown flag was seen raised. *)
Definition down_seen : Prop := exists c : W, (load_shutdown c).1 = true.

(** Entries for other outpoints only cost shutdown checks. *)
Lemma answer_skip o ch ws b s :
  (forall w, w ∈ ws -> wr_outpoint w <> o) ->
  exists c r, answer_query o ch ws b s = (Ok r, {| s with wt_blockchain := c |}) /\
    (r = Some b \/ (r = None /\ down_seen)).
Proof.
  revert s. induction ws as [|w ws IH]; intros s Hno; simpl.
  { exists (wt_blockchain s), (Some b). split; [by destruct s|by left]. }
  rewrite (st_bind_step _ _ _ _ _ (shutdown_load_ok s)).
  destruct (load_shutdown (wt_blockchain s)) as [down c] eqn:E. simpl. destruct down.
  { exists c, None. split; [done|]. right. split; [done|]. exists (wt_blockchain s). by rewrite E. }
  rewrite bool_decide_eq_true_2 by (apply Hno; left).
  destruct (IH {| s with wt_blockchain := c |}) as (c' & r & -> & Hr).
  { intros v Hv. apply Hno. by right. }
  by exists c', r.
Qed.

Definition replied (ch : Channel) (e : option WatcherEvent) (s s' : Watcher W) : Prop :=
  wt_sent s' = wt_sent s ++ (match e with Some e => [(ch, EventReply e)] | None => [] end) /\
  wt_pending_subscribes s' = wt_pending_subscribes s.

(** What the answer loop may leave when the snapshot holds the watch once. *)
Definition hit_post (o : OutPoint) (ch : Channel) (s : Watcher W)
    (res : outcome WatcherError (option bool) * Watcher W) : Prop :=
  res.1 = Panic \/
  (exists e, (res.1 = Ok (Some true) \/ (res.1 = Ok None /\ down_seen)) /\ replied ch (Some e) s res.2 /\
     query_answer (wt_registry s) o e (wt_registry res.2)) \/
  ((res.1 = Ok (Some false) \/ (res.1 = Ok None /\ down_seen)) /\ replied ch None s res.2 /\
     query_answer (wt_registry s) o NoOutpoint (wt_registry res.2)) \/
  (res.1 = Ok None /\ down_seen /\ replied ch None s res.2).

Lemma answer_hit o ch ws w s :
  NoDup (wr_outpoint <$> ws) -> w ∈ ws -> wr_outpoint w = o ->
  watches (wt_registry s) !! o = Some w -> fr_poisoned (wt_registry s) = false ->
  hit_post o ch s (answer_query o ch ws false s).
Proof.
  intros Hnd Hin Ho Hw Hp. revert s Hw Hp. induction ws as [|v ws IH]; intros s Hw Hp; [by apply elem_of_nil in Hin|].
  simpl. apply NoDup_cons in Hnd as [Hv Hnd].
  rewrite (st_bind_step _ _ _ _ _ (shutdown_load_ok s)).
  destruct (load_shutdown (wt_blockchain s)) as [down c] eqn:E. simpl. destruct down.
  { right. right. right. split; [done|]. split; [exists (wt_blockchain s); by rewrite E|].
    by split; simpl; [rewrite app_nil_r|]. }
  apply elem_of_cons in Hin as [<-|Hin].
  2:{ rewrite bool_decide_eq_true_2.
      - destruct (IH Hnd Hin {| s with wt_blockchain := c |} Hw Hp) as [Hr|Hr]; [by left|by right].
      - intros Heq. apply Hv. rewrite Heq, <- Ho. by apply list_elem_of_fmap_2. }
  rewrite bool_decide_eq_false_2 by tauto.
  assert (Hrest : forall u, u ∈ ws -> wr_outpoint u <> o).
  { intros u Hu Huo. apply Hv. rewrite Ho, <- Huo. by apply list_elem_of_fmap_2. }
  set (s1 := {| s with wt_blockchain := c |}).
  assert (Hserve : forall c1, query_answer (wt_registry s) o (UtxoSpent (wr_outpoint w) (wr_spent_tx w)) (wt_registry s) ->
    hit_post o ch s ((send ch (EventReply (UtxoSpent (wr_outpoint w) (wr_spent_tx w))) ≫=
        fun _ => answer_query o ch ws true) {| s with wt_blockchain := c1 |})).
  { intros c1 Hq. rewrite (st_bind_step (send _ _) _ _ () _ eq_refl).
    match goal with |- context [answer_query o ch ws true ?st] =>
      destruct (answer_skip o ch ws true st Hrest) as (c2 & r & -> & Hr) end.
    right. left. exists (UtxoSpent (wr_outpoint w) (wr_spent_tx w)).
    split; [destruct Hr as [->|[-> Hd]]; [by left|by right]|done]. }
  destruct (wr_in_block w) eqn:Hblk.
  2:{ rewrite (st_bind_step (mret true) _ _ true _ eq_refl). apply Hserve.
      unfold query_answer. rewrite Hw, Hblk, Ho. done. }
  unfold confirm_recorded_spend, attempt, on_chain, mbind at 1, stateful_bind at 1.
  unfold mbind at 1, stateful_bind at 1. simpl.
  destruct (is_confirmed_spend o (wr_script_pubkey w) c) as [[still|e|] c1] eqn:Ec; simpl; [| |by left].
  - destruct still.
    + apply Hserve. unfold query_answer. rewrite Hw, Hblk, Ho. exists c. by rewrite Ec.
    + right. right. left. fold (cleared w).
      rewrite (st_bind_step _ _ _ (inl ()) {| s with wt_blockchain := c1; wt_registry :=
         set_watches (<[o := cleared w]> (watches (wt_registry s))) (wt_registry s) |}).
      2:{ unfold attempt, on_registry. simpl. rewrite upsert_watch_ok by done. simpl. by rewrite Ho. }
      match goal with |- context [answer_query o ch ws false ?st] =>
        destruct (answer_skip o ch ws false st Hrest) as (c2 & r & -> & Hr) end.
      split; [destruct Hr as [->|[-> Hd]]; [by left|by right]|].
      split; [by split; simpl; [rewrite app_nil_r|]|].
      unfold query_answer. rewrite Hw, Hblk. exists c. by rewrite Ec.
  - apply Hserve. unfold query_answer. rewrite Hw, Hblk, Ho. exists c. by rewrite Ec.
Qed.

Lemma watch_order_NoDup m : watches_wf m -> NoDup (wr_outpoint <$> ord m).
Proof.
  intros Hwf. rewrite (watch_order_enumerates m).
  assert ((wr_outpoint <$> (map_to_list m).*2) = (map_to_list m).*1) as ->.
  { rewrite <- list_fmap_compose. apply list_fmap_ext. intros i [k w] Hi. apply list_elem_of_lookup_2 in Hi.
    apply elem_of_map_to_list in Hi. apply (Hwf _ _ Hi). }
  apply NoDup_fst_map_to_list.
Qed.
End queries.

Lemma query_outcome `{BitcoinLib} {W} `{Backend W} ord disc fuel o ch (s s' : Watcher W) r :
  WatchOrder ord -> watches_wf (watches (wt_registry s)) ->
  handle_command ord disc fuel (WatchRequestCmd o ch) s = (r, s') ->
  r = Panic \/
  (exists e, r = Ok (Some true) /\ replied ch (Some e) s s' /\
     if fr_poisoned (wt_registry s) then
       e = WatcherEvent_Error "registry lock poisoned, cannot answer watch request for {}: {:?}" /\
       wt_registry s' = wt_registry s
     else query_answer (wt_registry s) o e (wt_registry s')) \/
  (r = Ok (Some false) /\ down_seen (W := W) /\
     exists e, replied ch e s s' /\
       match e with Some e => query_answer (wt_registry s) o e (wt_registry s') | None => True end).
Proof.
  intros Hord Hwf. simpl. destruct (fr_poisoned (wt_registry s)) eqn:Hp.
  { rewrite (st_bind_step _ _ s (inr WatchE_MutexPoison) s).
    2:{ unfold attempt, on_registry, list_watches, with_data. rewrite Hp. by destruct s. }
    intros [= <- <-]. right. left. eexists. split; [done|]. split; [done|]. done. }
  rewrite (st_bind_step _ _ s (inl (ord (watches (wt_registry s)))) s).
  2:{ by destruct s as [c [[] d] pend sent]. }
  destruct (watches (wt_registry s) !! o) as [w|] eqn:Hw.
  - assert (wr_outpoint w = o) as Hwo by by apply Hwf in Hw.
    pose proof (answer_hit o ch (ord (watches (wt_registry s))) w s (watch_order_NoDup ord _ Hwf)
      (proj2 (elem_of_watch_order ord _ w Hwf) ltac:(by rewrite Hwo)) Hwo Hw Hp) as Hhit.
    unfold mbind, stateful_bind.
    destruct (answer_query o ch (ord (watches (wt_registry s))) false s) as [r1 s1].
    unfold hit_post in Hhit. simpl in Hhit.
    destruct Hhit as [->|[(e & Hr & Hrep & Hq)|[(Hr & Hrep & Hq)|(-> & Hd & Hrep)]]].
    + intros [= <- <-]. by left.
    + destruct Hr as [->|[-> Hd]]; intros [= <- <-]; right; [left|right].
      * exists e. done.
      * split; [done|]. split; [done|]. by exists (Some e).
    + destruct Hr as [->|[-> Hd]]; [|intros [= <- <-]; right; right; split_and!; [done..|]; by exists None].
      intros [= <- <-]. right. left. exists NoOutpoint. destruct Hrep as [Hs Hpend].
      rewrite app_nil_r in Hs. split; [done|]. split; [by split; simpl; congruence|done].
    + intros [= <- <-]. right. right. split_and!; [done..|]. by exists None.
  - destruct (answer_skip o ch (ord (watches (wt_registry s))) false s) as (c & r1 & Heq & Hr).
    { intros w Hin Heq. apply (elem_of_watch_order ord) in Hin; [congruence|done]. }
    unfold mbind, stateful_bind. rewrite Heq.
    destruct Hr as [->|[-> Hd]]; intros [= <- <-]; right; [left|right].
    + exists NoOutpoint. split; [done|]. split; [done|]. unfold query_answer. by rewrite Hw.
    + split; [done|]. split; [done|]. exists None. by split; [split; simpl; [rewrite app_nil_r|]|].
Qed.

(** The reply contract of a query.  Whatever the table, the iteration order
    and the backend, handling [WatchRequest] sends at most one reply on the
    query's own channel; it sends exactly one whenever the watcher keeps running,
    and the watcher stops only on a raised shutdown flag.  The reply is the
    recorded spend when the outpoint is watched, unless the backend answers that
    a confirmed spend is no longer on chain (then the record is cleared); a failed
    check serves the record.  With a poisoned registry the reply is an error. *)
Lemma watch_request_is_answered_once `{BitcoinLib} {W} `{Backend W} ord disc fuel o ch (s s' : Watcher W) r :
  WatchOrder ord -> watches_wf (watches (wt_registry s)) ->
  handle_command ord disc fuel (WatchRequestCmd o ch) s = (r, s') ->
  r = Panic \/
  (exists e, r = Ok (Some true) /\ replied ch (Some e) s s' /\
     if fr_poisoned (wt_registry s) then
       e = WatcherEvent_Error "registry lock poisoned, cannot answer watch request for {}: {:?}" /\
       wt_registry s' = wt_registry s
     else query_answer (wt_registry s) o e (wt_registry s')) \/
  (r = Ok (Some false) /\ down_seen (W := W) /\
     exists e, replied ch e s s' /\
       match e with Some e => query_answer (wt_registry s) o e (wt_registry s') | None => True end).
Proof. apply query_outcome. Qed.

#[local] Existing Instance Reference.lib.

(** A query for a spend that was reorganised away: the record is cleared and the
    reply is [NoOutpoint], although the outpoint stays watched. *)
Module QuerySample.
Import Reference.
Definition spent : OutPoint := {| op_txid := 11; op_vout := 0 |}.
Definition spending (n : Z) : Transaction :=
  {| version := 2; lock_time := 0;
     input := [{| previous_output := spent; script_sig := []; sequence := 0; witness := [] |}];
     output := [{| value := n; script_pubkey := [81] |}] |}.
Definition record : WatchRequest :=
  {| wr_outpoint := spent; wr_script_pubkey := [81]; wr_in_block := true; wr_spent_tx := Some (spending 1) |}.
Definition registry : FileRegistry := set_watches {[spent := record]} FileRegistry_new.
Definition watcher (c : TestChain) : Watcher TestChain := {| (Watcher_new c) with wt_registry := registry |}.
Lemma registry_wf : watches_wf (watches registry).
Proof. by apply map_Forall_singleton. Qed.
Abbreviation ask c := (handle_command table_order false 0 (WatchRequestCmd spent 3) (watcher c)).
End QuerySample.

Lemma watch_request_is_answered_once_witness :
  exists s', QuerySample.ask tc_default = (Ok (Some true), s') /\
    exists e, replied 3 (Some e) (QuerySample.watcher tc_default) s' /\
      query_answer (W := TestChain) QuerySample.registry QuerySample.spent e (wt_registry s').
Proof.
  destruct (QuerySample.ask tc_default) as [r s'] eqn:E.
  assert (r = Ok (Some true)) as Hr.
  { assert ((QuerySample.ask tc_default).1 = Ok (Some true)) as Hc by (vm_compute; reflexivity).
    by rewrite E in Hc. }
  exists s'. split; [congruence|].
  destruct (watch_request_is_answered_once table_order false 0 QuerySample.spent 3
              (QuerySample.watcher tc_default) s' r _ QuerySample.registry_wf E)
    as [Hp|[(e & _ & Hrep & Hq)|(Hp & _)]]; [congruence| |congruence].
  by exists e.
Defined.

(** ** Recorded spends over time *)
Inductive RegistryEvent :=
| EvRegister (o : OutPoint) (spk : Script)
| EvUnconfirmed (tx : Transaction)
| EvBlock (txs : list Transaction).

Section events.
Context `{BitcoinLib} (ord : gmap OutPoint WatchRequest -> list WatchRequest) (disc : bool).

(** The registry operation behind a command or a backend event. *)
Definition registry_event (ev : RegistryEvent) : registry_op () :=
  match ev with
  | EvRegister o spk => register_watch o spk
  | EvUnconfirmed tx => process_transaction ord tx false
  | EvBlock txs => process_block ord disc txs
  end.
Definition registry_events : list RegistryEvent -> registry_op () := st_for_each registry_event.

(** [o] has the confirmed spend [t] on record. *)
Definition confirmed_record (o : OutPoint) (t : Transaction) (r : FileRegistry) : Prop :=
  fr_poisoned r = false /\ watches_wf (watches r) /\
  exists w, watches r !! o = Some w /\ wr_spent_tx w = Some t /\ wr_in_block w = true.

(** An event that concerns another outpoint, or is an unconfirmed rival. *)
Definition leaves_record (o : OutPoint) (t : Transaction) (ev : RegistryEvent) : Prop :=
  match ev with
  | EvRegister _ _ => True
  | EvUnconfirmed tx => o ∈ spends tx -> compute_txid tx <> compute_txid t
  | EvBlock txs => forall tx, tx ∈ txs -> o ∉ spends tx
  end.

Lemma scan_block_other txs m o w :
  watches_wf m -> m !! o = Some w -> (forall tx, tx ∈ txs -> o ∉ spends tx) ->
  scan_block_table txs m !! o = Some w.
Proof.
  revert m. induction txs as [|tx txs IH]; intros m Hwf Hw Hno; simpl; [done|].
  apply IH; [by apply scanned_wf| |intros tx' Htx'; apply Hno; by right].
  rewrite lookup_fmap, Hw. simpl. unfold scanned. rewrite bool_decide_eq_false_2; [done|].
  rewrite (Hwf _ _ Hw). apply Hno. by left.
Qed.

Lemma registry_event_keeps `{!WatchOrder ord} o t ev r :
  confirmed_record o t r -> leaves_record o t ev ->
  exists r', registry_event ev r = (Ok (), r') /\ confirmed_record o t r'.
Proof.
  intros (Hp & Hwf & w & Hw & Ht & Hb) Hev. destruct ev as [o' spk|tx|txs]; simpl in *.
  - destruct r as [[] d]; [done|]. eexists. split; [done|]. split; [done|].
    unfold watches in *. simpl in *. split.
    { apply map_Forall_insert_2; [|done]. destruct (rd_watches d !! o') eqn:E; [|done].
      by apply Hwf in E. }
    destruct (decide (o' = o)) as [->|Hne].
    + eexists. rewrite lookup_insert_eq. split; [done|]. by rewrite Hw.
    + exists w. by rewrite lookup_insert_ne.
  - rewrite process_transaction_ok by done. eexists. split; [done|]. split; [done|].
    split; [by apply scanned_wf|]. exists w. unfold watches at 1. simpl. rewrite lookup_fmap, Hw. simpl.
    split; [|done]. f_equal. unfold scanned. case_bool_decide as Hs; [|done].
    unfold mark, keeps_confirmed. rewrite Ht, Hb. rewrite (Hwf _ _ Hw) in Hs.
    rewrite bool_decide_eq_true_2; [done|]. intros E. by apply (Hev Hs).
  - destruct (process_block_ok ord disc txs r Hp Hwf) as (r' & -> & Hp' & Hw').
    exists r'. split; [done|]. split; [done|]. rewrite Hw'. split; [by apply scan_block_wf|].
    exists w. split; [by apply scan_block_other|done].
Qed.
End events.

(** A confirmed spend stays on record.  Through any sequence of repeated
    registrations, unconfirmed rivals and blocks without a spend of the outpoint,
    none of which fails, the recorded spending transaction (which may hold the
    only copy of the preimage) and its confirmed mark are unchanged. *)
Lemma confirmed_spend_stays_on_record `{BitcoinLib} ord disc o t evs r :
  WatchOrder ord -> confirmed_record o t r -> Forall (leaves_record o t) evs ->
  exists r', registry_events ord disc evs r = (Ok (), r') /\ confirmed_record o t r'.
Proof.
  intros Hord Hr Hevs. revert r Hr. induction Hevs as [|ev evs Hev _ IH]; intros r Hr; [by exists r|].
  destruct (registry_event_keeps ord disc o t ev r Hr Hev) as (r1 & E1 & Hr1).
  unfold registry_events in *. simpl. rewrite (st_bind_step _ _ _ _ _ E1). by apply IH.
Qed.

Lemma confirmed_spend_stays_on_record_witness :
  exists r', registry_events (H := Reference.lib) table_order false
      [EvUnconfirmed (QuerySample.spending 2); EvRegister QuerySample.spent [82]; EvBlock []]
      QuerySample.registry = (Ok (), r') /\
    confirmed_record QuerySample.spent (QuerySample.spending 1) r'.
Proof.
  apply (confirmed_spend_stays_on_record table_order false); [apply _| |].
  - split; [done|]. split; [apply QuerySample.registry_wf|]. exists QuerySample.record.
    split; [vm_compute; reflexivity|done].
  - apply list.Forall_forall. intros ev Hin. repeat (apply elem_of_cons in Hin as [->|Hin]); simpl;
      [intros _; vm_compute; discriminate|done|by intros tx Htx; apply elem_of_nil in Htx|by apply elem_of_nil in Hin].
Defined.

(** The protection ends when the recorded transaction is announced again.
    Seeing the confirmed spend once more as an unconfirmed transaction clears its
    confirmed mark, and the next unconfirmed rival then replaces it, although a
    mempool-only rival must not overwrite a confirmed spend. *)
Lemma second_sighting_unprotects_spend `{BitcoinLib} ord disc o t rival r :
  WatchOrder ord -> confirmed_record o t r -> o ∈ spends t -> o ∈ spends rival ->
  compute_txid rival <> compute_txid t ->
  exists r', registry_events ord disc [EvUnconfirmed t; EvUnconfirmed rival] r = (Ok (), r') /\
    exists w, watches r' !! o = Some w /\ wr_spent_tx w = Some rival /\ wr_in_block w = false.
Proof.
  intros Hord (Hp & Hwf & w & Hw & Ht & Hb) Hot Hor Hne. unfold registry_events. simpl.
  rewrite (st_bind_step _ _ _ _ _ (process_transaction_ok ord t false r Hp Hwf)).
  rewrite (st_bind_step _ _ _ _ _ (process_transaction_ok ord rival false (set_watches _ r) Hp
             (scanned_wf t false _ Hwf))).
  eexists. split; [done|]. unfold watches at 1 2. simpl. rewrite !lookup_fmap, Hw. simpl.
  eexists. split; [done|]. unfold scanned. rewrite (Hwf _ _ Hw), (bool_decide_eq_true_2 (o ∈ spends t)) by done.
  assert (mark t false w = {| w with wr_spent_tx := Some t; wr_in_block := false |}) as ->.
  { unfold mark, keeps_confirmed. rewrite Ht, bool_decide_ne_refl. done. }
  simpl. rewrite (Hwf _ _ Hw), bool_decide_eq_true_2 by done.
  unfold mark, keeps_confirmed. simpl. by rewrite andb_false_r.
Qed.

Lemma second_sighting_unprotects_spend_witness :
  exists r', registry_events (H := Reference.lib) table_order false
      [EvUnconfirmed (QuerySample.spending 1); EvUnconfirmed (QuerySample.spending 2)]
      QuerySample.registry = (Ok (), r') /\
    exists w, watches r' !! QuerySample.spent = Some w /\
      wr_spent_tx w = Some (QuerySample.spending 2) /\ wr_in_block w = false.
Proof.
  apply (second_sighting_unprotects_spend table_order false QuerySample.spent (QuerySample.spending 1));
    [apply _| |left|left|vm_compute; discriminate].
  split; [done|]. split; [apply QuerySample.registry_wf|]. exists QuerySample.record.
  split; [vm_compute; reflexivity|done].
Defined.
