(* ===== verification/WatchRebuild.v ===== *)
(** Rebuilding the watches after a restart: [RebuildWatches] with Bitcoin Core
    reads the blocks back from the oldest contract, so that a spend that
    confirmed while the process was down is found before the reply is sent. *)
From S2P Require Import Prelude Bitcoin Errors WatchRegistry Watcher WatcherInvariant.
#[local] Open Scope string_scope.
#[local] Open Scope list_scope.
#[local] Open Scope Z_scope.

(** ** The chain a backend answers from

    Any call may fail, but an answer is taken from one chain: [tip] is its
    height, [blocks h] the transactions at height [h] and [funding t] the height
    of transaction [t].  [cv_running] says that no shutdown is requested. *)
Class ChainView {W} `{Backend W} (tip : Z) (blocks : Z -> list Transaction)
    (funding : Txid -> option Z) : Prop := {
  cv_count w t : (get_block_count w).1 = Ok t -> t = tip;
  cv_block h w b : (block_at_height h w).1 = Ok b -> b = blocks h;
  cv_height t w r : (tx_block_height t w).1 = Ok r -> r = funding t;
  cv_running w : (load_shutdown w).1 = false;
}.

(** The funding height of this transaction can be looked up whenever it is asked
    for; a failed lookup leaves its contract out of the scan. *)
Definition height_answered {W} `{Backend W} (t : Txid) : Prop :=
  forall w, is_ok (tx_block_height t w).1 = true.

(** A backend whose calls do not fail; the lookups of heights may. *)
Class ReliableBackend {W} `{Backend W} : Prop := {
  rb_count w : exists t, (get_block_count w).1 = Ok t;
  rb_block h w : exists b, (block_at_height h w).1 = Ok b;
  rb_subscribe spk o w : (subscribe_script spk o w).1 = Ok ();
  rb_height t w : (tx_block_height t w).1 <> Panic;
}.

Section rebuild.
Context `{BitcoinLib} {W : Type} `{Backend W}.
Context (ord : gmap OutPoint WatchRequest -> list WatchRequest) `{!WatchOrder ord} (disc : bool).
Context (tip : Z) (blocks : Z -> list Transaction) (funding : Txid -> option Z).
Context `{!ChainView tip blocks funding}.

(** The registry works and holds the watches of [D]. *)
Definition holding (D : list OutPoint) (s : Watcher W) : Prop :=
  fr_poisoned (wt_registry s) = false /\ watches_wf (table s) /\
  forall o, o ∈ D -> is_Some (table s !! o).

Lemma shutdown_load_running (s : Watcher W) :
  exists w, shutdown_load s = (Ok false, {| s with wt_blockchain := w |}).
Proof.
  unfold shutdown_load. pose proof (cv_running (wt_blockchain s)) as Hr.
  destruct (load_shutdown (wt_blockchain s)) as [b w]. simpl in Hr. subst b. by exists w.
Qed.

Lemma on_chain_Ok {A} (m : stateful W WalletError A) s a s' :
  on_chain m s = (Ok a, s') ->
  (m (wt_blockchain s)).1 = Ok a /\ wt_registry s' = wt_registry s.
Proof.
  unfold on_chain. destruct (m (wt_blockchain s)) as [[x|e|] w]; simpl; naive_solver.
Qed.

Lemma register_watch_ok o spk r :
  fr_poisoned r = false -> watches_wf (watches r) ->
  exists w, register_watch o spk r = (Ok (), set_watches (<[o := w]> (watches r)) r) /\ wr_outpoint w = o.
Proof.
  destruct r as [[] d]; [done|]. intros _ Hwf. eexists. split; [done|]. simpl.
  destruct (rd_watches d !! o) as [w|] eqn:E; [|done]. by apply Hwf in E.
Qed.

(** A watch that was armed without a panic is in the table. *)
Lemma arm_watch_holding D o spk s u s' :
  holding D s -> arm_watch o spk s = (Ok u, s') -> holding (o :: D) s'.
Proof.
  intros (Hp & Hwf & HD) Harm.
  destruct (register_watch_ok o spk (wt_registry s) Hp Hwf) as (w & Er & Hw).
  unfold arm_watch in Harm.
  rewrite (st_bind_step _ _ s (inl ()) {| s with wt_registry :=
             set_watches (<[o := w]> (watches (wt_registry s))) (wt_registry s) |}) in Harm.
  2:{ unfold attempt, on_registry. by rewrite Er. }
  assert (wt_registry s' = set_watches (<[o := w]> (watches (wt_registry s))) (wt_registry s)) as Hreg.
  { unfold attempt, on_chain, mbind, stateful_bind in Harm. simpl in Harm.
    destruct (subscribe_script spk o (wt_blockchain s)) as [[[]|e|] c]; simpl in Harm; try done;
      by injection Harm as _ <-. }
  assert (Ht : table s' = <[o := w]> (table s)) by (unfold table; by rewrite Hreg).
  split; [by rewrite Hreg|]. rewrite Ht. split; [by apply map_Forall_insert_2|].
  intros o' [->|Hin]%elem_of_cons; [rewrite lookup_insert_eq; by eexists|].
  destruct (decide (o' = o)) as [->|Hne]; [rewrite lookup_insert_eq; by eexists|].
  rewrite lookup_insert_ne by done. by apply HD.
Qed.

Lemma rebuild_register_holding ws : forall D s b s',
  holding D s -> rebuild_register ws s = (Ok b, s') ->
  b = true /\ holding (ws.*1 ++ D) s'.
Proof.
  induction ws as [|[o spk] ws IH]; intros D s b s' HD; simpl; [by intros [= <- <-]|].
  destruct (shutdown_load_running s) as [c Ec]. rewrite (st_bind_step _ _ _ _ _ Ec).
  intros (u & s1 & Harm & Hrest)%st_bind_Ok.
  eapply arm_watch_holding in Harm; [|exact HD].
  destruct (IH _ _ _ _ Harm Hrest) as [-> Hh]. split; [done|].
  destruct Hh as (Hp & Hwf & Hd). split; [done|]. split; [done|].
  intros o' Ho'. apply Hd. set_solver.
Qed.

Lemma holding_chain {A} D (m : stateful W WalletError A) : keeps (holding D) (on_chain m).
Proof. intros s Hs _. unfold on_chain. by destruct (m (wt_blockchain s)). Qed.

Lemma holding_load D : keeps (holding D) shutdown_load.
Proof. intros s Hs _. unfold shutdown_load. by destruct (load_shutdown (wt_blockchain s)). Qed.

Lemma holding_block D txs : keeps (holding D) (on_registry (process_block ord disc txs)).
Proof.
  intros s (Hp & Hwf & HD) _. unfold on_registry.
  destruct (process_block_ok ord disc txs (wt_registry s) Hp Hwf) as (r' & -> & Hp' & Hw').
  unfold holding, table. simpl. rewrite Hw'. split; [done|]. split; [by apply scan_block_wf|].
  intros o Ho. by apply scan_block_dom, HD.
Qed.
#[local] Hint Resolve holding_chain holding_load holding_block : keeps.

Lemma holding_scan_heights D hs : keeps (holding D) (scan_heights ord disc hs).
Proof. induction hs as [|h hs IH]; simpl; keeps_tac. Qed.

Lemma holding_rescan D ws : keeps (holding D) (rescan_for_missed_spends ord disc ws).
Proof.
  unfold rescan_for_missed_spends, scan_blocks. apply holds_bind.
  - generalize (None : option Z). induction ws as [|[o spk] ws IH]; intros old; simpl; keeps_tac.
  - intros ?. keeps_tac. apply holding_scan_heights.
Qed.

Lemma lookup_height_run t s r s1 :
  attempt (E' := WatcherError) (on_chain (tx_block_height t)) s = (Ok r, s1) ->
  wt_registry s1 = wt_registry s /\ (forall h, r = inl h -> h = funding t) /\
  (height_answered t -> exists h, r = inl h).
Proof.
  intros Hl. unfold attempt, on_chain in Hl. pose proof (cv_height t (wt_blockchain s)) as Hh.
  assert (height_answered t -> is_ok (tx_block_height t (wt_blockchain s)).1 = true) as Ha by (intros Ha; apply Ha).
  destruct (tx_block_height t (wt_blockchain s)) as [[x|e|] w']; simpl in *; try done; injection Hl as <- <-;
    (split; [done|]); (split; [|intros A; by eauto || by specialize (Ha A)]); [intros h [= <-]; by apply Hh|done].
Qed.

(** The lookup returns a height at or below every funding height it was told. *)
Lemma oldest_funding_spec ws : forall old s res s',
  oldest_funding ws old s = (Ok res, s') ->
  wt_registry s' = wt_registry s /\
  exists m, res = Some m /\
    (forall x, old = Some x -> exists y, m = Some y /\ y <= x) /\
    (forall o spk h, (o, spk) ∈ ws -> height_answered (op_txid o) -> funding (op_txid o) = Some h ->
       exists y, m = Some y /\ y <= h).
Proof.
  induction ws as [|[o spk] ws IH]; intros old s res s'; simpl.
  { intros [= <- <-]. split; [done|]. exists old. split; [done|]. split; [intros x ->; by exists x|].
    intros o spk h Hin. by apply elem_of_nil in Hin. }
  destruct (shutdown_load_running s) as [c Ec]. rewrite (st_bind_step _ _ _ _ _ Ec).
  intros (r & s1 & Hl & Hrest)%st_bind_Ok. apply lookup_height_run in Hl as (Hs1 & Hr & Hans).
  apply IH in Hrest as (Hreg & m & -> & Hold & Hws). split; [rewrite Hreg; exact Hs1|]. exists m. split; [done|].
  split.
  - intros x ->. destruct r as [[h|]|e]; [|by apply Hold..].
    destruct (Hold _ eq_refl) as (y & -> & Hy). exists y. split; [done|]. lia.
  - intros o' spk' h' [[= -> ->]|Hin]%elem_of_cons Ha Hf; [|by eapply Hws].
    destruct (Hans Ha) as [h ->]. rewrite (Hr h eq_refl), Hf in Hold.
    destruct old as [x|]; destruct (Hold _ eq_refl) as (y & -> & Hy); exists y; (split; [done|]); lia.
Qed.

(** A spend that sits in the chain at or below the tip. *)
Definition on_chain_spend (t : Transaction) : Prop := exists k, k <= tip /\ t ∈ blocks k.

Lemma scan_heights_records hs : forall s u s' o,
  (forall h, h ∈ hs -> h <= tip) -> holding [o] s ->
  scan_heights ord disc hs s = (Ok u, s') ->
  recorded on_chain_spend o (table s) \/ (exists h tx, h ∈ hs /\ tx ∈ blocks h /\ o ∈ spends tx) ->
  recorded on_chain_spend o (table s').
Proof.
  induction hs as [|h hs IH]; intros s u s' o Htip HD; simpl.
  { intros [= <- <-] [Hr|(h & tx & Hin & _)]; [done|by apply elem_of_nil in Hin]. }
  destruct (shutdown_load_running s) as [c Ec]. rewrite (st_bind_step _ _ _ _ _ Ec).
  intros (b & s1 & Hb & Hrest)%st_bind_Ok Hr.
  apply on_chain_Ok in Hb as [Hb%cv_block Hreg]. subst b. simpl in Hreg.
  apply st_bind_Ok in Hrest as (v & s2 & Hpb & Hrest).
  assert (holding [o] s1) as HD1 by (unfold holding, table in *; by rewrite Hreg).
  assert (HD2 : holding [o] s2).
  { pose proof (holding_block [o] (blocks h) s1 HD1) as Hk. rewrite Hpb in Hk. by apply Hk. }
  eapply IH; [|exact HD2|exact Hrest|].
  { intros k Hk. apply Htip. by right. }
  destruct HD1 as (Hp & Hwf & Hd). unfold on_registry in Hpb.
  destruct (process_block_ok ord disc (blocks h) (wt_registry s1) Hp Hwf) as (r' & E & _ & Hw').
  rewrite E in Hpb. injection Hpb as _ <-. unfold table at 1. simpl. rewrite Hw'.
  assert (HP : Forall on_chain_spend (blocks h)).
  { apply list.Forall_forall. intros t Ht. exists h. split; [apply Htip; left|done]. }
  assert (Ht : watches (wt_registry s1) = table s) by (unfold table; by rewrite Hreg).
  destruct Hr as [Hr|(k & tx & [->|Hin]%elem_of_cons & Htx & Ho)].
  - left. apply scan_block_records; [done..|apply Hd; by left|left; by rewrite Ht].
  - left. apply scan_block_records; [done..|apply Hd; by left|right; by exists tx].
  - right. by exists k, tx.
Qed.

Lemma rescan_records ws s u s' o spk h k tx :
  holding ws.*1 s -> rescan_for_missed_spends ord disc ws s = (Ok u, s') ->
  (o, spk) ∈ ws -> height_answered (op_txid o) -> funding (op_txid o) = Some h -> h <= k <= tip ->
  tx ∈ blocks k -> o ∈ spends tx ->
  recorded on_chain_spend o (table s').
Proof.
  intros HD Hrs Hin Ha Hf Hk Htx Ho. unfold rescan_for_missed_spends in Hrs.
  apply st_bind_Ok in Hrs as (res & s1 & Hl & Hscan).
  apply oldest_funding_spec in Hl as (Hreg & m & -> & _ & Hws).
  destruct (Hws o spk h Hin Ha Hf) as (y & -> & Hy).
  unfold scan_blocks in Hscan. apply st_bind_Ok in Hscan as (t & s2 & Ht & Hscan).
  apply on_chain_Ok in Ht as [Ht%cv_count Hreg2]. subst t.
  eapply scan_heights_records; [| |exact Hscan|].
  - intros z Hz. apply elem_of_seqZ in Hz. lia.
  - destruct HD as (Hp & Hwf & Hd). unfold holding, table in *. rewrite Hreg2, Hreg.
    split; [done|]. split; [done|]. intros o' Ho'. apply list_elem_of_singleton in Ho' as ->.
    apply Hd. apply (list_elem_of_fmap_2 fst) in Hin. done.
  - right. exists k, tx. split; [|done]. apply elem_of_seqZ. lia.
Qed.

Lemma rescan_until_records fuel ws : forall s s' o spk h k tx,
  holding ws.*1 s -> rescan_until ord disc fuel ws s = (Ok true, s') ->
  (o, spk) ∈ ws -> height_answered (op_txid o) -> funding (op_txid o) = Some h -> h <= k <= tip ->
  tx ∈ blocks k -> o ∈ spends tx ->
  recorded on_chain_spend o (table s').
Proof.
  induction fuel as [|fuel IH]; intros s s' o spk h k tx HD; simpl; [done|].
  destruct (shutdown_load_running s) as [c Ec]. rewrite (st_bind_step _ _ _ _ _ Ec).
  intros (r & s1 & Hr & Hrest)%st_bind_Ok. unfold attempt in Hr.
  pose proof (holding_rescan ws.*1 ws {| s with wt_blockchain := c |} HD) as Hk.
  destruct (rescan_for_missed_spends ord disc ws {| s with wt_blockchain := c |}) as [[u|e|] s2] eqn:E;
    simplify_eq.
  - injection Hrest as <-. intros Hin Ha Hf Hkt Htx Ho. eapply (rescan_records ws _ u s1 o spk h k tx); [|exact E|done..]. exact HD.
  - eapply IH; [|exact Hrest]. by apply Hk.
Qed.

(** With a backend that answers, one round of the loop is enough. *)
Lemma rebuild_register_runs `{!ReliableBackend (W := W)} ws : forall s,
  fr_poisoned (wt_registry s) = false -> exists s', rebuild_register ws s = (Ok true, s').
Proof.
  induction ws as [|[o spk] ws IH]; intros s Hp; simpl; [by exists s|].
  destruct (shutdown_load_running s) as [c Ec]. rewrite (st_bind_step _ _ _ _ _ Ec).
  destruct (register_watch o spk (wt_registry s)) as [r reg] eqn:Er.
  assert (r = Ok () /\ fr_poisoned reg = false) as [-> Hp'].
  { unfold register_watch, with_data in Er. rewrite Hp in Er. by injection Er as <- <-. }
  pose proof (rb_subscribe spk o c) as Hsub.
  destruct (subscribe_script spk o c) as [x w] eqn:Es. simpl in Hsub. subst x.
  rewrite (st_bind_step (arm_watch o spk) _ _ ()
             {| s with wt_blockchain := w; wt_registry := reg |}); [by apply IH|].
  unfold arm_watch, attempt, on_registry, on_chain, mbind, stateful_bind. simpl. rewrite Er. simpl.
  by rewrite Es.
Qed.

Lemma scan_heights_runs `{!ReliableBackend (W := W)} hs : forall s,
  holding [] s -> exists s', scan_heights ord disc hs s = (Ok (), s').
Proof.
  induction hs as [|h hs IH]; intros s HD; simpl; [by exists s|].
  destruct (shutdown_load_running s) as [c Ec]. rewrite (st_bind_step _ _ _ _ _ Ec).
  destruct (rb_block h c) as [b Hb]. destruct (block_at_height h c) as [x w] eqn:Eb. simpl in Hb. subst x.
  rewrite (st_bind_step _ _ _ b {| s with wt_blockchain := w |}).
  2:{ unfold on_chain. simpl. by rewrite Eb. }
  pose proof (holding_block [] b {| s with wt_blockchain := w |} HD) as Hk. destruct HD as (Hp & Hwf & _).
  destruct (process_block_ok ord disc b (wt_registry s) Hp Hwf) as (r' & E & _).
  assert (on_registry (process_block ord disc b) {| s with wt_blockchain := w |} =
    (Ok (), {| s with wt_blockchain := w; wt_registry := r' |})) as Er.
  { unfold on_registry. simpl. by rewrite E. }
  rewrite (st_bind_step _ _ _ _ _ Er). rewrite Er in Hk. apply IH. by apply Hk.
Qed.

Lemma oldest_funding_runs `{!ReliableBackend (W := W)} ws : forall old s, exists res s', oldest_funding ws old s = (Ok res, s').
Proof.
  induction ws as [|[o spk] ws IH]; intros old s; simpl; [by eexists _, s|].
  destruct (shutdown_load_running s) as [c Ec]. rewrite (st_bind_step _ _ _ _ _ Ec).
  pose proof (rb_height (op_txid o) c) as Hh.
  unfold mbind at 1, stateful_bind at 1, attempt, on_chain. simpl.
  destruct (tx_block_height (op_txid o) c) as [[x|e|] w]; simpl in *; [apply IH|apply IH|done].
Qed.

Lemma rescan_runs `{!ReliableBackend (W := W)} ws s :
  holding [] s -> exists s', rescan_for_missed_spends ord disc ws s = (Ok (), s').
Proof.
  intros HD. unfold rescan_for_missed_spends. destruct (oldest_funding_runs ws None s) as (res & s1 & E).
  rewrite (st_bind_step _ _ _ _ _ E). apply oldest_funding_spec in E as (Hreg & m & -> & _).
  destruct m as [from|]; [|by exists s1]. unfold scan_blocks.
  destruct (rb_count (wt_blockchain s1)) as [t Ht].
  destruct (get_block_count (wt_blockchain s1)) as [x w] eqn:Ec. simpl in Ht. subst x.
  rewrite (st_bind_step _ _ _ t {| s1 with wt_blockchain := w |}).
  2:{ unfold on_chain. by rewrite Ec. }
  apply scan_heights_runs. unfold holding, table in *. simpl. by rewrite Hreg.
Qed.
End rebuild.

(** C32: A rebuild on Bitcoin Core finds the spends it missed, of the contracts
    whose funding height it could look up.  When the watcher has answered a
    [RebuildWatches], every listed contract that is on chain, whose height the
    node answers, and which was spent in a block between its funding and the tip
    has a confirmed spend of it on record, one that is in the chain, however
    often the scan had failed and was repeated and whichever other lookups
    failed; the reply is the last message sent.  A contract whose lookup fails is
    only logged and may be left out.  And a backend that answers its calls, the
    lookups apart, lets the rebuild finish in the first round. *)
Theorem rebuild_finds_missed_spends `{BitcoinLib} {W} `{Backend W} ord disc tip blocks funding
    fuel ws ch (s : Watcher W) :
  WatchOrder ord -> ChainView (W := W) tip blocks funding -> is_electrum (W := W) = false ->
  fr_poisoned (wt_registry s) = false -> watches_wf (watches (wt_registry s)) ->
  (forall s' o spk h k tx,
     handle_command ord disc fuel (RebuildWatches ws ch) s = (Ok (Some true), s') ->
     (o, spk) ∈ ws -> height_answered (op_txid o) -> funding (op_txid o) = Some h -> h <= k <= tip ->
     tx ∈ blocks k -> o ∈ spends tx ->
     last (wt_sent s') = Some (ch, RebuildReply (Ok ())) /\
     recorded (fun t => exists k, k <= tip /\ t ∈ blocks k) o (watches (wt_registry s'))) /\
  (ReliableBackend (W := W) -> (0 < fuel)%nat ->
     exists s', handle_command ord disc fuel (RebuildWatches ws ch) s = (Ok (Some true), s')).
Proof.
  intros Hord Hcv Hel Hp Hwf.
  assert (Hempty : holding [] s) by (split_and!; [done..|]; intros o Ho; by apply elem_of_nil in Ho).
  unfold handle_command. rewrite Hel. split.
  - intros s' o spk h k tx (fin & s1 & Hreg & Hrest)%st_bind_Ok Hin Ha Hf Hk Htx Ho.
    destruct (rebuild_register_holding ord tip blocks funding ws [] s fin s1 Hempty Hreg) as [-> HD]. rewrite app_nil_r in HD.
    apply st_bind_Ok in Hrest as (ended & s2 & Hu & Hrest).
    destruct ended; [|discriminate Hrest].
    apply st_bind_Ok in Hrest as ([] & s3 & Hsend & [= <-]). injection Hsend as <-. simpl.
    split; [by rewrite last_snoc|]. by eapply (rescan_until_records ord disc tip blocks funding).
  - intros Hrb Hfuel. destruct fuel as [|fuel]; [lia|].
    destruct (rebuild_register_runs tip blocks funding ws s Hp) as [s1 E1].
    rewrite (st_bind_step _ _ _ _ _ E1).
    destruct (rebuild_register_holding ord tip blocks funding ws [] s true s1 Hempty E1) as [_ HD]. rewrite app_nil_r in HD.
    destruct (shutdown_load_running tip blocks funding s1) as [c Ec].
    destruct (rescan_runs ord disc tip blocks funding ws {| s1 with wt_blockchain := c |}) as [s2 E2].
    { destruct HD as (? & ? & _). split_and!; [done..|]. intros o Ho. by apply elem_of_nil in Ho. }
    change (negb true) with false. cbv iota.
    rewrite (st_bind_step _ _ s1 true s2); [by eexists|].
    simpl. rewrite (st_bind_step _ _ _ _ _ Ec). unfold attempt, mbind, stateful_bind. by rewrite E2.
Qed.

(** ** A sample: the contract of block 1 is spent in block 2 *)
Module RebuildSample.
Import Reference.
Definition funding_tx : Transaction :=
  {| version := 2; lock_time := 0; input := []; output := [{| value := 5000; script_pubkey := [81] |}] |}.
Definition contract : OutPoint := {| op_txid := compute_txid funding_tx; op_vout := 0 |}.
Definition claim_tx : Transaction :=
  {| version := 2; lock_time := 0;
     input := [{| previous_output := contract; script_sig := []; sequence := 0; witness := [] |}];
     output := [{| value := 4000; script_pubkey := [82] |}] |}.
Definition chain : list (list Transaction) := [[]; [funding_tx]; [claim_tx]].
Definition block_at (h : Z) : list Transaction := default [] (chain !! Z.to_nat h).
Definition height_of (t : Txid) : option Z :=
  (fun p => Z.of_nat p.1) <$>
    list_find (fun b => existsb (fun tx => compute_txid tx =? t) b = true) chain.

(** A node with this chain; the number counts the block requests that still
    time out. *)
Definition lookup_ok (t : Txid) (c : nat) : outcome WalletError (option Z) * nat := (Ok (height_of t), c).
Definition node (lookup : Txid -> stateful nat WalletError (option Z)) : Backend nat := {|
  is_electrum := false;
  chain_name := mret "regtest";
  prime_subscription := mret ();
  get_raw_mempool := mret [];
  get_raw_transaction t := lift (Err (WE_Rpc (RPC_Other "no such transaction")));
  get_block_count := mret 2;
  block_at_height h := fun c =>
    match c with
    | S k => (Err (WE_Rpc (RPC_Other "timeout")), k)
    | O => (Ok (block_at h), 0%nat)
    end;
  tx_block_height := lookup;
  is_confirmed_spend o _ := mret (bool_decide (o = contract));
  subscribe_script _ _ := mret ();
  unsubscribe_script _ _ := mret ();
  poll_event := fun c => (None, c);
  load_shutdown c := (false, c);
  store_shutdown c := c;
  deserialize_tx _ := None;
  deserialize_block _ := None;
|}.

(** A second contract, the height of which the node never finds. *)
Definition other : OutPoint := {| op_txid := 99; op_vout := 0 |}.
Definition lookup_some (t : Txid) (c : nat) : outcome WalletError (option Z) * nat :=
  if t =? op_txid contract then (Ok (height_of t), c) else (Err (WE_Rpc (RPC_Other "timeout")), c).

Abbreviation result B fails fuel :=
  (@handle_command Reference.lib nat B table_order false fuel (RebuildWatches [(other, [83]); (contract, [81])] 7)
    (Watcher_new (W := nat) fails)).
Definition summary (r : outcome WatcherError (option bool) * Watcher nat) :=
  (r.1, wr_spent_tx <$> (watches (wt_registry r.2) !! contract), wt_sent r.2).

Lemma good_node_view : ChainView (H := node lookup_some) 2 block_at height_of.
Proof.
  split.
  - intros w t [= <-]. done.
  - intros h [|w] b; simpl; [by intros [= <-]|discriminate].
  - intros t w r. simpl. unfold lookup_some. destruct (t =? _); [by intros [= <-]|done].
  - done.
Qed.
Lemma contract_answered : height_answered (H := node lookup_some) (op_txid contract).
Proof. intros w. simpl. unfold lookup_some. reflexivity. Qed.
End RebuildSample.

Lemma sample_run_returns :
  (RebuildSample.result (RebuildSample.node RebuildSample.lookup_some) 2%nat 3%nat).1 = Ok (Some true).
Proof. vm_compute. reflexivity. Qed.

Lemma sample_claim_in_chain :
  RebuildSample.height_of (op_txid RebuildSample.contract) = Some 1 /\
  RebuildSample.claim_tx ∈ RebuildSample.block_at 2 /\
  RebuildSample.contract ∈ spends RebuildSample.claim_tx.
Proof. split; [vm_compute; reflexivity|]. split; left. Qed.

(** Two timeouts and a failed lookup, then the claim of block 2 is found. *)
Lemma rebuild_finds_missed_spends_witness :
  exists s', RebuildSample.result (RebuildSample.node RebuildSample.lookup_some) 2%nat 3%nat = (Ok (Some true), s') /\
    last (wt_sent s') = Some (7%nat, RebuildReply (Ok ())) /\
    recorded (fun t => exists k, k <= 2 /\ t ∈ RebuildSample.block_at k) RebuildSample.contract
      (watches (wt_registry s')).
Proof.
  pose proof sample_run_returns as Hret. pose proof sample_claim_in_chain as (Hf & Htx & Ho).
  destruct (RebuildSample.result (RebuildSample.node RebuildSample.lookup_some) 2%nat 3%nat) as [r s'] eqn:E.
  simpl in Hret. subst r. exists s'. split; [reflexivity|].
  apply (proj1 (@rebuild_finds_missed_spends Reference.lib nat (RebuildSample.node RebuildSample.lookup_some)
    table_order false 2
    RebuildSample.block_at RebuildSample.height_of 3 [(RebuildSample.other, [83]); (RebuildSample.contract, [81])] 7 (Watcher_new (W := nat) 2%nat)
    _ RebuildSample.good_node_view eq_refl eq_refl (map_Forall_empty _))
    s' RebuildSample.contract [81] 1 2 RebuildSample.claim_tx); [|right; left|exact RebuildSample.contract_answered|done|lia|done|done].
  exact E.
Defined.

(** A rebuild trusts a failed funding lookup.  The comment promises that a
    failed rescan is retried until it completes, but a lookup that fails is only
    logged: when the node answers no lookup, the rebuild scans nothing, reports
    success, and the claim that sits in block 2 stays unknown. *)
Lemma rebuild_skips_contracts_whose_lookup_fails :
  let failing t := fun c => (Err (WE_Rpc (RPC_Other "timeout")), c) in
  RebuildSample.summary (RebuildSample.result (RebuildSample.node failing) 0%nat 1%nat) =
    (Ok (Some true), Some None, [(7%nat, RebuildReply (Ok ()))]) /\
  RebuildSample.summary (RebuildSample.result (RebuildSample.node RebuildSample.lookup_ok) 0%nat 1%nat) =
    (Ok (Some true), Some (Some RebuildSample.claim_tx), [(7%nat, RebuildReply (Ok ()))]).
Proof. split; vm_compute; reflexivity. Qed.
