(* ===== verification/WatchLiveness.v ===== *)
(** Delivery of replies: in a fair run of the event loop no client waits forever
    for the answer to its query. *)
From S2P Require Import Prelude Bitcoin Errors WatchRegistry Watcher WatcherInvariant WatchQueries.
#[local] Open Scope string_scope.
#[local] Open Scope list_scope.
#[local] Open Scope Z_scope.

Section liveness.
Context `{BitcoinLib} {W : Type} `{Backend W}.
Context (ord : gmap OutPoint WatchRequest -> list WatchRequest) `{!WatchOrder ord} (disc : bool).

(** ** One step *)

(** A turn of the watcher takes the head of the queue and handles it. *)
Definition handles (cmd : WatcherCommand) (rest : list WatcherCommand) (n n' : Node W) : Prop :=
  nd_queue n = cmd :: rest /\ nd_queue n' = rest /\
  exists fuel s, handle_command ord disc fuel cmd s = (Ok (Some true), nd_watcher n') /\
    wt_registry s = wt_registry (nd_watcher n).

Lemma dispatch_cases fuel cmd rest n m n' :
  dispatch ord disc fuel cmd rest m = Some n' ->
  nd_queue n = cmd :: rest -> wt_registry (nd_watcher m) = wt_registry (nd_watcher n) ->
  nd_pc n' = Stopped \/ handles cmd rest n n'.
Proof.
  unfold dispatch. intros Hd Hq Hreg.
  destruct (handle_command ord disc fuel cmd (nd_watcher m)) as [[[[]|]|e|] s] eqn:E; simplify_eq;
    try (by left). right. split; [done|]. split; [done|]. exists fuel, (nd_watcher m). by rewrite E.
Qed.

(** What a turn of the watcher does to the queue, by the point of the loop. *)
Lemma watcher_step_cases fuel n n' :
  watcher_step ord disc fuel n = Some n' ->
  nd_pc n' = Stopped \/
  (exists cmd rest, handles cmd rest n n') \/
  (nd_queue n' = nd_queue n /\
   match nd_pc n with
   | Waiting => nd_queue n = []
   | Draining => nd_pc n' = Polling
   | Polling => nd_pc n' = Waiting \/ nd_pc n' = Polling
   | Stopped => False
   end).
Proof.
  unfold watcher_step. rewrite shutdown_load_ok.
  set (s := {| (nd_watcher n) with wt_blockchain := _ |}).
  assert (Hreg : wt_registry s = wt_registry (nd_watcher n)) by done.
  destruct (load_shutdown (wt_blockchain (nd_watcher n))).1.
  - destruct (nd_pc n); intros [= <-]; [by left|right; right; done|].
    unfold end_pass. destruct (retry_subscribes s) as [[[]|e|] s']; [|by left..].
    right. right. by split; [|left].
  - destruct (nd_pc n) eqn:Hpc.
    + destruct (nd_queue n) as [|cmd rest] eqn:Hq.
      * destruct (nd_senders n); intros [= <-]; [right; right; by split|by left].
      * intros Hd. eapply dispatch_cases in Hd as [Hd|Hd]; [by left|right; left; eauto|done|done].
    + destruct (nd_queue n) as [|cmd rest] eqn:Hq.
      * intros [= <-]. right. right. by split.
      * intros Hd. eapply dispatch_cases in Hd as [Hd|Hd]; [by left|right; left; eauto|done|done].
    + destruct (poll_event (wt_blockchain s)) as [[ev|] w].
      * destruct (handle_event ord disc ev _) as [[[]|e|] s']; intros [= <-]; [|by left..].
        right. right. by split; [|right].
      * intros [= <-]. unfold end_pass.
        destruct (retry_subscribes _) as [[[]|e|] s']; [|by left..]. right. right. by split; [|left].
    + done.
Qed.

(** The other steps only append to the queue. *)
Lemma step_cases n n' :
  step ord disc n n' ->
  (exists fuel, watcher_step ord disc fuel n = Some n') \/
  (nd_pc n' = nd_pc n /\ exists ext, nd_queue n' = nd_queue n ++ ext /\ (nd_pc n = Stopped -> ext = [])).
Proof.
  destruct 1 as [fuel n n' Hst|cmd n Hs|ch n Hr|n Hs|n|t a n|h n|u c n]; [left; by exists fuel|..];
    right; (split; [|]);
    try (unfold service_shutdown, send_command; by repeat case_bool_decide);
    try (exists []; by rewrite app_nil_r).
  - unfold send_command. case_bool_decide; [exists []; by rewrite app_nil_r|by exists [cmd]].
  - unfold service_shutdown, send_command. simpl.
    case_bool_decide; simpl; [exists []; by rewrite app_nil_r|by exists [Shutdown]].
Qed.

(** A stopped watcher has dropped its queue. *)
Definition drained (n : Node W) : Prop := nd_pc n = Stopped -> nd_queue n = [].

Lemma stop_drained s n : drained (stop s n).
Proof. done. Qed.

Lemma watcher_step_stopped_drained fuel n n' : watcher_step ord disc fuel n = Some n' -> drained n'.
Proof.
  assert (Hgoto : forall pc s m, pc <> Stopped -> drained (goto pc s m)) by by intros pc s m Hne Heq.
  assert (Hdis : forall cmd rest m, dispatch ord disc fuel cmd rest m = Some n' -> drained n').
  { intros cmd rest m. unfold dispatch.
    by destruct (handle_command ord disc fuel cmd (nd_watcher m)) as [[[[]|]|e|] s]; intros [= <-]. }
  assert (Hend : forall s m, drained (end_pass s m)).
  { intros s m. unfold end_pass. destruct (retry_subscribes s) as [[[]|e|] s']; [by apply Hgoto|done..]. }
  unfold watcher_step. destruct (shutdown_load (nd_watcher n)) as [[down|e|] s]; [|by intros [= <-]..].
  destruct (nd_pc n); repeat case_match; try done; intros Hst; simplify_eq;
    first [apply Hend|apply stop_drained|by eapply Hdis|by apply Hgoto].
Qed.

Lemma step_drained n n' : drained n -> step ord disc n n' -> drained n'.
Proof.
  intros Hd [[fuel Hst]|(Hpc & ext & Hq & Hext)]%step_cases; [by eapply watcher_step_stopped_drained|].
  intros Hst. rewrite Hq. rewrite Hpc in Hst. by rewrite Hd, Hext.
Qed.

(** ** Runs *)
Section run.
Context (σ : nat -> Node W).

Definition is_run (w : W) : Prop := σ 0%nat = spawn ord w /\ forall i, step ord disc (σ i) (σ (S i)).

(** The thread is scheduled, and its calls return, again and again. *)
Definition moves (i : nat) : Prop := exists fuel, watcher_step ord disc fuel (σ i) = Some (σ (S i)).
Definition fair : Prop := forall i, nd_pc (σ i) <> Stopped -> exists j, (i <= j)%nat /\ moves j.

(** The backlog of backend events runs dry. *)
Definition events_run_dry : Prop :=
  forall i, nd_pc (σ i) = Polling -> exists j, (i <= j)%nat /\ nd_pc (σ j) <> Polling.

Context (w : W) (Hrun : is_run w) (Hfair : fair) (Hdry : events_run_dry).

Lemma run_inv i : node_inv (fun _ _ => True) (σ i) /\ drained (σ i).
Proof.
  destruct Hrun as [H0' Hst]. induction i as [|i [IH1 IH2]].
  - rewrite H0'. split; [apply (node_inv_spawn (fun _ _ => True) ord)|].
    unfold spawn. by destruct (run_startup ord (Watcher_new w)) as [[net|e|] s].
  - split; [by eapply (node_inv_step (fun _ _ => True) ord disc)|by eapply step_drained].
Qed.

(** From [i] on the queue only grew until the watcher took its head at [j], or
    the watcher stopped. *)
Definition head_taken (i : nat) : Prop := exists j, (i <= j)%nat /\
  (nd_pc (σ j) = Stopped \/
   exists ext cmd rest, nd_queue (σ j) = nd_queue (σ i) ++ ext /\ handles cmd rest (σ j) (σ (S j))).

Lemma head_taken_later i k ext :
  (i <= k)%nat -> nd_queue (σ k) = nd_queue (σ i) ++ ext -> head_taken k -> head_taken i.
Proof.
  intros Hik Hq (j & Hj & [Hs|(ext' & cmd & rest & Hq' & Hh)]); exists j; (split; [lia|]); [by left|].
  right. exists (ext ++ ext'), cmd, rest. by rewrite Hq', Hq, app_assoc.
Qed.

Lemma head_taken_waiting d : forall i,
  moves (i + d) -> nd_pc (σ i) = Waiting -> nd_queue (σ i) <> [] -> head_taken i.
Proof.
  induction d as [|d IH]; intros i Hm Hpc Hq.
  - rewrite Nat.add_0_r in Hm. destruct Hm as [fuel Hm].
    apply watcher_step_cases in Hm as [Hs|[(cmd & rest & Hh)|[_ Hnil]]].
    + exists (S i). split; [lia|]. by left.
    + exists i. split; [done|]. right. exists [], cmd, rest. by rewrite app_nil_r.
    + by rewrite Hpc in Hnil.
  - destruct (step_cases _ _ (proj2 Hrun i)) as [[fuel Hst]|(Hpc' & ext & Hq' & _)].
    + apply watcher_step_cases in Hst as [Hs|[(cmd & rest & Hh)|[_ Hnil]]].
      * exists (S i). split; [lia|]. by left.
      * exists i. split; [done|]. right. exists [], cmd, rest. by rewrite app_nil_r.
      * by rewrite Hpc in Hnil.
    + eapply (head_taken_later i (S i)); [lia|exact Hq'|]. apply IH.
      * by replace (S i + d)%nat with (i + S d)%nat by lia.
      * congruence.
      * rewrite Hq'. by destruct (nd_queue (σ i)).
Qed.

Lemma head_taken_from_waiting i :
  nd_pc (σ i) = Waiting -> nd_queue (σ i) <> [] -> head_taken i.
Proof.
  intros Hpc Hq. destruct (Hfair i) as (j & Hj & Hm); [by rewrite Hpc|].
  apply (head_taken_waiting (j - i)); [|done..]. by replace (i + (j - i))%nat with j by lia.
Qed.

Lemma head_taken_polling d : forall i,
  nd_pc (σ (i + d)) <> Polling -> nd_pc (σ i) = Polling -> nd_queue (σ i) <> [] -> head_taken i.
Proof.
  induction d as [|d IH]; intros i Hnp Hpc Hq; [by rewrite Nat.add_0_r in Hnp|].
  assert (Hnext : nd_pc (σ (S i)) = Stopped \/
     ((nd_pc (σ (S i)) = Waiting \/ nd_pc (σ (S i)) = Polling) /\
      exists ext, nd_queue (σ (S i)) = nd_queue (σ i) ++ ext) \/
     exists cmd rest, handles cmd rest (σ i) (σ (S i))).
  { destruct (step_cases _ _ (proj2 Hrun i)) as [[fuel Hst]|(Hpc' & ext & Hq' & _)].
    - apply watcher_step_cases in Hst as [Hs|[Hh|[Hq' Hn]]]; [by left|by right; right|].
      rewrite Hpc in Hn. right. left. split; [done|]. exists []. by rewrite app_nil_r.
    - right. left. split; [right; congruence|by exists ext]. }
  destruct Hnext as [Hs|[[Hw (ext & Hq')]|(cmd & rest & Hh)]].
  - exists (S i). split; [lia|]. by left.
  - eapply (head_taken_later i (S i)); [lia|exact Hq'|].
    assert (nd_queue (σ (S i)) <> []) by (rewrite Hq'; by destruct (nd_queue (σ i))).
    destruct Hw as [Hw|Hp]; [by apply head_taken_from_waiting|]. apply IH; [|done..].
    by replace (S i + d)%nat with (i + S d)%nat by lia.
  - exists i. split; [done|]. right. exists [], cmd, rest. by rewrite app_nil_r.
Qed.

Lemma head_taken_from_polling i :
  nd_pc (σ i) = Polling -> nd_queue (σ i) <> [] -> head_taken i.
Proof.
  intros Hpc Hq. destruct (Hdry i Hpc) as (j & Hj & Hnp).
  apply (head_taken_polling (j - i)); [|done..]. by replace (i + (j - i))%nat with j by lia.
Qed.

Lemma head_taken_draining d : forall i,
  moves (i + d) -> nd_pc (σ i) = Draining -> nd_queue (σ i) <> [] -> head_taken i.
Proof.
  assert (Hmove : forall i, moves i -> nd_pc (σ i) = Draining -> nd_queue (σ i) <> [] -> head_taken i).
  { intros i [fuel Hm] Hpc Hq. apply watcher_step_cases in Hm as [Hs|[(cmd & rest & Hh)|[Hq' Hn]]].
    - exists (S i). split; [lia|]. by left.
    - exists i. split; [done|]. right. exists [], cmd, rest. by rewrite app_nil_r.
    - rewrite Hpc in Hn. eapply (head_taken_later i (S i) []); [lia|by rewrite app_nil_r|].
      apply head_taken_from_polling; [done|congruence]. }
  induction d as [|d IH]; intros i Hm Hpc Hq.
  - rewrite Nat.add_0_r in Hm. by apply Hmove.
  - destruct (step_cases _ _ (proj2 Hrun i)) as [[fuel Hst]|(Hpc' & ext & Hq' & _)].
    + apply Hmove; [by exists fuel|done..].
    + eapply (head_taken_later i (S i)); [lia|exact Hq'|]. apply IH.
      * by replace (S i + d)%nat with (i + S d)%nat by lia.
      * congruence.
      * rewrite Hq'. by destruct (nd_queue (σ i)).
Qed.

(** A non-empty queue always loses its head. *)
Lemma queue_moves i : nd_queue (σ i) <> [] -> head_taken i.
Proof.
  intros Hq. destruct (nd_pc (σ i)) eqn:Hpc.
  - by apply head_taken_from_waiting.
  - destruct (Hfair i) as (j & Hj & Hm); [by rewrite Hpc|].
    apply (head_taken_draining (j - i)); [|done..]. by replace (i + (j - i))%nat with j by lia.
  - by apply head_taken_from_polling.
  - exists i. split; [done|]. by left.
Qed.

(** So every command in it is handled sooner or later. *)
Lemma command_is_handled k : forall i cmd,
  nd_queue (σ i) !! k = Some cmd ->
  exists j, (i <= j)%nat /\
    (nd_pc (σ j) = Stopped \/ exists rest, handles cmd rest (σ j) (σ (S j))).
Proof.
  induction k as [|k IH]; intros i cmd Hk;
    (destruct (queue_moves i) as (j & Hj & [Hs|(ext & cmd' & rest & Hq & Hh)]);
      [intros E; rewrite E in Hk; by rewrite lookup_nil in Hk|by exists j; split; [|left]|]);
    assert (nd_queue (σ j) !! _ = Some cmd) as Hk' by (rewrite Hq; by apply lookup_app_l_Some).
  - exists j. split; [done|]. right. exists rest. destruct Hh as [Hh1 Hh2].
    rewrite Hh1 in Hk'. simpl in Hk'. injection Hk' as ->. by split.
  - destruct Hh as (Hh1 & Hh2 & _). rewrite Hh1 in Hk'. simpl in Hk'. rewrite <- Hh2 in Hk'.
    destruct (IH (S j) cmd Hk') as (j' & Hj' & Hdone). exists j'. split; [lia|done].
Qed.

(** The query's reply is out, or its channel is closed. *)
Lemma query_settles i o ch :
  WatchRequestCmd o ch ∈ nd_queue (σ i) ->
  exists j, (i <= j)%nat /\ reply_recv ch (σ j) <> TimedOut.
Proof.
  intros [k Hk]%list_elem_of_lookup.
  destruct (command_is_handled k i _ Hk) as (j & Hj & [Hs|(rest & Hh)]).
  - exists j. split; [done|]. unfold reply_recv. destruct (run_inv j) as [_ Hd]. rewrite (Hd Hs). simpl.
    by destruct (list_find _ _) as [[? [? ?]]|].
  - exists (S j). split; [lia|]. destruct Hh as (Hq & _ & fuel & s & Hcmd & Hreg).
    assert (Hpc : nd_pc (σ j) <> Stopped).
    { intros Hs. destruct (run_inv j) as [_ Hd]. by rewrite (Hd Hs) in Hq. }
    destruct (run_inv j) as [[Hinv _] _]. destruct (Hinv Hpc) as (_ & Hwf & _).
    apply query_outcome in Hcmd as [?|[(e & _ & [Hsent _] & _)|(? & _)]]; [done| |done|done|].
    2:{ unfold table in Hwf. by rewrite Hreg. }
    unfold reply_recv. rewrite Hsent.
    destruct (list_find (fun p => p.1 = ch) (wt_sent s ++ [(ch, EventReply e)])) as [[? [? ?]]|] eqn:E; [done|].
    exfalso. apply list_find_None in E. rewrite Forall_app, Forall_singleton in E. by apply E.
Qed.
End run.
End liveness.

(** C33: No client waits forever.  In every run in which the watcher thread keeps
    being scheduled and its backend calls return ([fair]), and in which a burst of
    backend events ends ([events_run_dry]), a query that is in the command queue
    is settled later: the client's next receive on the query's channel yields its
    reply or finds the channel closed because the watcher has stopped, so the
    waiting loop of [watch_request] returns.  Other clients may send any commands
    in between. *)
Theorem watch_request_leads_to_reply `{BitcoinLib} {W} `{Backend W} ord disc
    (σ : nat -> Node W) w i o ch :
  WatchOrder ord -> is_run ord disc σ w -> fair ord disc σ -> events_run_dry σ ->
  WatchRequestCmd o ch ∈ nd_queue (σ i) ->
  exists j, (i <= j)%nat /\ reply_recv ch (σ j) <> TimedOut.
Proof. intros Hord Hr Hf Hd. by apply (query_settles ord disc σ w). Qed.

(** ** A sample run: one query, then idle passes forever *)
Module LivenessSample.
Import Reference.
Definition queried : OutPoint := {| op_txid := 11; op_vout := 0 |}.
Definition asked : Node TestChain :=
  (send_command (WatchRequestCmd queried 5) (spawn table_order tc_default)).2.
Definition turn (n : Node TestChain) : Node TestChain :=
  default n (watcher_step table_order false 1 n).
Definition idle : Node TestChain := turn (turn (turn asked)).
Definition run (i : nat) : Node TestChain :=
  match i with O => spawn table_order tc_default | S i => Nat.iter i turn asked end.

(** The five states of the run after the query was sent. *)
Definition state (n : Node TestChain) : Prop :=
  n = asked \/ n = turn asked \/ n = turn (turn asked) \/ n = idle \/ n = turn idle.

Lemma idle_again : turn (turn idle) = idle.
Proof. vm_compute. reflexivity. Qed.

Lemma run_state i : state (run (S i)).
Proof.
  unfold run, state. induction i as [|i IH]; [by left|].
  rewrite Nat.iter_succ. destruct IH as [->|[->|[->|[->| ->]]]]; [tauto|tauto|tauto|tauto|].
  rewrite idle_again. tauto.
Qed.

Lemma state_moves n : state n -> watcher_step table_order false 1 n = Some (turn n).
Proof. intros [->|[->|[->|[->| ->]]]]; vm_compute; reflexivity. Qed.

Lemma state_polling n : state n -> nd_pc n = Polling -> nd_pc (turn n) <> Polling.
Proof. intros [->|[->|[->|[->| ->]]]]; vm_compute; congruence. Qed.

Lemma run_moves i : moves table_order false run (S i).
Proof.
  exists 1%nat. rewrite (state_moves _ (run_state i)). unfold run. by rewrite Nat.iter_succ.
Qed.

Lemma run_is_run : is_run table_order false run tc_default.
Proof.
  split; [done|]. intros [|i].
  - by apply step_command.
  - destruct (run_moves i) as [fuel Hm]. by eapply step_watcher.
Qed.
End LivenessSample.

Lemma watch_request_leads_to_reply_witness :
  exists j, (1 <= j)%nat /\ reply_recv 5 (LivenessSample.run j) <> TimedOut.
Proof.
  apply (watch_request_leads_to_reply (H := Reference.lib) table_order false LivenessSample.run
           tc_default 1 LivenessSample.queried 5 _ LivenessSample.run_is_run).
  - intros i _. exists (S i). split; [lia|apply LivenessSample.run_moves].
  - intros [|i] Hp; [by vm_compute in Hp|].
    exists (S (S i)). split; [lia|].
    pose proof (LivenessSample.state_polling _ (LivenessSample.run_state i) Hp) as Hn.
    unfold LivenessSample.run in *. by rewrite Nat.iter_succ.
  - vm_compute. left.
Defined.
