(* ===== verification/MakerTracker.v ===== *)
(** The maker's swap tracker: src/maker/swap_tracker.rs.

    Records of swaps and of their recovery, in a hash map that [flush] mirrors to
    one CBOR file by writing a temporary file and renaming it over the original.
    The four steps of a flush may each be refused by the operating system
    ([FlushFault] of [TakerTracker]); a crash between calls loses everything but
    the file. *)
From S2P Require Import Prelude Bitcoin Messages Errors TakerTracker.
#[local] Open Scope string_scope.
#[local] Open Scope list_scope.
#[local] Open Scope Z_scope.

Inductive MakerSwapPhase := MSP_Active | MSP_TakerDropped | MSP_Recovering | MSP_Recovered | MSP_Completed.
#[global] Instance MakerSwapPhase_eq_dec : EqDecision MakerSwapPhase.
Proof. solve_decision. Defined.

Inductive MakerRecoveryPhase :=
| MRP_NotStarted | MRP_Monitoring | MRP_HashlockRecovered | MRP_TimelockWaiting | MRP_TimelockRecovered
| MRP_CleanedUp.
#[global] Instance MakerRecoveryPhase_eq_dec : EqDecision MakerRecoveryPhase.
Proof. solve_decision. Defined.

(** The derived [Ord] compares the position of the variants. *)
Definition MakerRecoveryPhase_rank (p : MakerRecoveryPhase) : Z :=
  match p with
  | MRP_NotStarted => 0 | MRP_Monitoring => 1 | MRP_HashlockRecovered => 2
  | MRP_TimelockWaiting => 3 | MRP_TimelockRecovered => 4 | MRP_CleanedUp => 5
  end.

Record MakerRecoveryState := {
  mrs_phase : MakerRecoveryPhase;
  mrs_incoming_swept : list Txid;
  mrs_outgoing_recovered : list Txid;
  mrs_outgoing_discarded : list Txid;
}.
Definition MakerRecoveryState_default : MakerRecoveryState :=
  {| mrs_phase := MRP_NotStarted; mrs_incoming_swept := []; mrs_outgoing_recovered := [];
     mrs_outgoing_discarded := [] |}.

Record MakerSwapRecord := {
  msr_swap_id : string;
  msr_protocol : ProtocolVersion;
  msr_phase : MakerSwapPhase;
  msr_swap_amount_sat : Z;
  msr_incoming_count : Z;
  msr_outgoing_count : Z;
  msr_funding_broadcast : bool;
  msr_recovery : MakerRecoveryState;
  msr_created_at : Z;
  msr_updated_at : Z;
}.

Abbreviation MakerSwapTrackerData := (gmap string MakerSwapRecord).

(** [mt_file] is the tracker file, [None] while it does not exist; [mt_flushes]
    counts the flushes. *)
Record MakerSwapTracker := {
  mt_data : MakerSwapTrackerData;
  mt_file : option MakerSwapTrackerData;
  mt_flushes : nat;
}.

Section tracker.
(** What happens to the [n]-th flush; the order of a [HashMap]'s values. *)
Context (faults : nat -> option FlushFault) (values : MakerSwapTrackerData -> list MakerSwapRecord).

(** A file that cannot be read or decoded counts as an empty tracker. *)
Definition maker_load_or_create (file : option MakerSwapTrackerData) (readable : bool) (flushes : nat)
  : MakerSwapTracker :=
  {| mt_data := match file with
                | Some data => if readable then data else ∅
                | None => ∅
                end;
     mt_file := file; mt_flushes := flushes |}.

Definition maker_flush : stateful MakerSwapTracker MakerError () := fun t =>
  let t' := {| t with mt_flushes := S (mt_flushes t) |} in
  match faults (mt_flushes t) with
  | Some (CreateDirFails e) | Some (WriteFails e) | Some (RenameFails e) => (Err (ME_IO e), t')
  | Some (SerializeFails _) => (Err (ME_IO "Failed to serialize maker swap tracker: {}"), t')
  | None => (Ok (), {| t' with mt_file := Some (mt_data t) |})
  end.

Definition maker_save_record (record : MakerSwapRecord) : stateful MakerSwapTracker MakerError () :=
  modify (fun t => {| t with mt_data := <[msr_swap_id record := record]> (mt_data t) |}) ≫= fun _ =>
  maker_flush.

Definition maker_get_record (swap_id : string) (t : MakerSwapTracker) : option MakerSwapRecord :=
  mt_data t !! swap_id.

(** A write through [get_record_mut]. *)
Definition maker_get_record_mut (swap_id : string) (f : MakerSwapRecord -> MakerSwapRecord)
    (t : MakerSwapTracker) : MakerSwapTracker :=
  {| t with mt_data := alter f swap_id (mt_data t) |}.

Definition is_incomplete (r : MakerSwapRecord) : bool :=
  negb (bool_decide (msr_phase r = MSP_Recovered) || bool_decide (msr_phase r = MSP_Completed))
  || (MakerRecoveryPhase_rank (mrs_phase (msr_recovery r)) <? MakerRecoveryPhase_rank MRP_CleanedUp).

Definition incomplete_swaps (t : MakerSwapTracker) : list MakerSwapRecord :=
  filter (fun r => is_incomplete r = true) (values (mt_data t)).

(** A history of the tracker: saves, in-memory edits and restarts. *)
Inductive TrackerOp :=
| OpSave (r : MakerSwapRecord)
| OpEdit (swap_id : string) (f : MakerSwapRecord -> MakerSwapRecord)
| OpRestart.

Definition tracker_op (op : TrackerOp) (t : MakerSwapTracker) : MakerSwapTracker :=
  match op with
  | OpSave r => (maker_save_record r t).2
  | OpEdit id f => maker_get_record_mut id f t
  | OpRestart => maker_load_or_create (mt_file t) true (mt_flushes t)
  end.

(** The specification: the durable table is the memory of the last save that
    returned [Ok]. *)
Definition durable_step (op : TrackerOp) (t : MakerSwapTracker) (durable : MakerSwapTrackerData)
  : MakerSwapTrackerData :=
  match op with
  | OpSave r => if is_ok (maker_save_record r t).1 then mt_data (maker_save_record r t).2 else durable
  | OpEdit _ _ | OpRestart => durable
  end.

Fixpoint run_history (ops : list TrackerOp) (t : MakerSwapTracker) (durable : MakerSwapTrackerData)
  : MakerSwapTracker * MakerSwapTrackerData :=
  match ops with
  | [] => (t, durable)
  | op :: rest => run_history rest (tracker_op op t) (durable_step op t durable)
  end.

(** A restart finds exactly the last successful save.  Through any history of
    saves (each of whose flushes may fail at any step), edits in memory and
    restarts, starting without a file, loading the file yields the table as it
    was at the last save that returned [Ok], never a part of it and never one of a
    save that failed; and the swaps it lists as incomplete are those that have
    not reached a final phase or whose recovery is not cleaned up. *)
Lemma restart_finds_last_successful_save ops :
  (forall m r, r ∈ values m <-> exists k, m !! k = Some r) ->
  let '(t, durable) := run_history ops (maker_load_or_create None true 0) ∅ in
  let t' := maker_load_or_create (mt_file t) true (mt_flushes t) in
  mt_data t' = durable /\
  forall r, r ∈ incomplete_swaps t' <->
    (exists k, durable !! k = Some r) /\
    ((msr_phase r <> MSP_Recovered /\ msr_phase r <> MSP_Completed) \/
     mrs_phase (msr_recovery r) <> MRP_CleanedUp).
Proof.
  intros Hvals.
  assert (Hinv : forall t d, default ∅ (mt_file t) = d ->
     default ∅ (mt_file (run_history ops t d).1) = (run_history ops t d).2).
  { induction ops as [|op ops IH]; intros t d Hd; [done|]. cbn [run_history]. apply IH.
    destruct op as [r|id f|]; cbn; [|done..].
    unfold maker_save_record, modify, mbind, stateful_bind, maker_flush. cbn.
    by destruct (faults (mt_flushes t)) as [[e|e|e|e]|]. }
  specialize (Hinv (maker_load_or_create None true 0) ∅ eq_refl).
  destruct (run_history ops _ ∅) as [t durable]. cbn in Hinv.
  assert (Hd : mt_data (maker_load_or_create (mt_file t) true (mt_flushes t)) = durable).
  { rewrite <- Hinv. cbn. by destruct (mt_file t). }
  split; [done|]. intros r. unfold incomplete_swaps. rewrite Hd, list_elem_of_filter, Hvals.
  unfold is_incomplete. rewrite orb_true_iff, negb_true_iff, orb_false_iff, !bool_decide_eq_false, Z.ltb_lt.
  destruct (mrs_phase (msr_recovery r)); cbn; intuition (lia || congruence).
Qed.
End tracker.

Definition sample_record (phase : MakerSwapPhase) : MakerSwapRecord :=
  {| msr_swap_id := "swap1"; msr_protocol := Legacy; msr_phase := phase; msr_swap_amount_sat := 100000;
     msr_incoming_count := 2; msr_outgoing_count := 2; msr_funding_broadcast := true;
     msr_recovery := MakerRecoveryState_default; msr_created_at := 0; msr_updated_at := 0 |}.

(** The second save fails while renaming: the restart finds the first. *)
Lemma restart_finds_last_successful_save_witness :
  let faults n := if (n =? 1)%nat then Some (RenameFails "disk full") else None in
  let '(t, durable) := run_history faults
      [OpSave (sample_record MSP_Active); OpSave (sample_record MSP_Completed)]
      (maker_load_or_create None true 0) ∅ in
  mt_data (maker_load_or_create (mt_file t) true (mt_flushes t)) = durable /\
  maker_get_record "swap1" (maker_load_or_create (mt_file t) true (mt_flushes t)) =
    Some (sample_record MSP_Active).
Proof.
  intros faults.
  pose proof (restart_finds_last_successful_save faults (fun m => (map_to_list m).*2)
    [OpSave (sample_record MSP_Active); OpSave (sample_record MSP_Completed)]) as H.
  destruct (run_history faults _ _ _) as [t durable] eqn:E.
  assert (mt_file (run_history faults [OpSave (sample_record MSP_Active); OpSave (sample_record MSP_Completed)]
    (maker_load_or_create None true 0) ∅).1 = Some {["swap1" := sample_record MSP_Active]}) as Hf
    by (vm_compute; reflexivity).
  rewrite E in Hf. cbn in Hf. split.
  - apply H. intros m r. rewrite list_elem_of_fmap. split.
    + intros ([k r'] & -> & Hin%elem_of_map_to_list). eauto.
    + intros [k Hk%elem_of_map_to_list]. by exists (k, r).
  - unfold maker_get_record, maker_load_or_create. cbn. rewrite Hf. apply lookup_singleton_eq.
Defined.
