(* ===== verification/Fidelity.v ===== *)
(** Fidelity bonds: src/wallet/fidelity.rs, the bond input of the signer of
    src/wallet/api.rs and the bond setup of src/maker/api.rs.  The check of a proof
    against the chain by a taker is in [OfferBook].

    A maker locks coins in a script that only its key can spend, and only from an
    absolute height on; it announces the bond in an OP_RETURN output and proves
    it to takers with a certificate that binds the bond to its address and to its
    tweakable point.  The formatters of the certificate message, BIP32 public
    derivation and the double SHA-256 are the crates' ([CertLib]); the node, the
    clock and the construction of the funding transaction are the operations of
    [BondWorld]. *)
From Stdlib Require Import Floats.SpecFloat Ascii String.
From S2P Require Import Prelude Float64 Bitcoin Messages Contract Errors SwapCoin ScriptEval TaprootLib Taproot TapScript WatchRegistry TakerState WalletStore.
#[local] Open Scope string_scope.
#[local] Open Scope list_scope.
#[local] Open Scope Z_scope.

(** ** Constants *)
Definition MIN_FIDELITY_TIMELOCK : Z := 12960.
Definition MAX_FIDELITY_TIMELOCK : Z := 25920.
Definition OP_CHECKSIGVERIFY : Z := 173.

Definition is_height_lock (lock_time : Z) : bool := lock_time <? LOCK_TIME_THRESHOLD.

(** [LockTime::from_height]. *)
Definition LockTime_from_height (h : Z) : outcome WalletError Z :=
  if is_height_lock h then Ok h else Err WE_Locktime.

(** [a > b] of two lock times: false when their units differ. *)
Definition lock_time_gt (a b : Z) : bool :=
  bool_decide (is_height_lock a = is_height_lock b) && (b <? a).

(** The bytes of a string literal. *)
Definition str (s : string) : bytes := map (fun c => Z.of_N (N_of_ascii c)) (String.list_ascii_of_string s).

(** ** The crates' formatting, hashing and derivation *)
Class CertLib := {
  fmt_outpoint : OutPoint -> bytes;
  fmt_pubkey : PublicKey -> bytes;
  fmt_lock_time : Z -> bytes;
  fmt_amount : Amount -> bytes;
  serialize_varint : Z -> bytes;
  sha256d : bytes -> Z;
  derive_pub : Point -> bytes -> list Z -> option Point;
}.

(** ** The bond and its proof *)
Section bond.
Context {lib : BitcoinLib} {cert : CertLib}.

(** [push_lock_time] pushes the consensus value as a script number. *)
Definition fidelity_redeemscript (lock_time : Z) (pubkey : PublicKey) : Script :=
  push_opcode OP_CLTV (push_int lock_time (push_opcode OP_CHECKSIGVERIFY (push_key pubkey []))).

Definition fb_redeem_script (bond : FidelityBond) : Script :=
  fidelity_redeemscript (fb_lock_time bond) (fb_pubkey bond).

Definition fb_script_pub_key (bond : FidelityBond) : outcome WalletError Script :=
  match redeemscript_to_scriptpubkey (fb_redeem_script bond) with Ok s => Ok s | _ => Panic end.

Definition cert_message (bond : FidelityBond) (addr : bytes) (tweakable_point : PublicKey) : bytes :=
  str "fidelity-bond-cert|" ++ fmt_outpoint (fb_outpoint bond) ++ str "|" ++ fmt_pubkey (fb_pubkey bond)
    ++ str "|" ++ fmt_lock_time (fb_lock_time bond) ++ str "|" ++ fmt_amount (fb_amount bond)
    ++ str "|" ++ addr ++ str "|" ++ fmt_pubkey tweakable_point.

Definition generate_cert_hash (bond : FidelityBond) (addr : bytes) (tweakable_point : PublicKey) : Z :=
  let cert_msg := cert_message bond addr tweakable_point in
  sha256d (24 :: str "Bitcoin Signed Message:" ++ [10] ++ serialize_varint (zlen cert_msg) ++ cert_msg).

Definition verify_fidelity_checks (proof : FidelityProof) (addr : bytes) (tx : Transaction)
    (current_height confirmation_height : Z) (tweakable_point : PublicKey) (tweak_chain_code : bytes)
  : outcome WalletError () :=
  let bond := fp_bond proof in
  _ ← reject (bool_decide (fb_conf_height bond <> Some confirmation_height))
        (WE_Fidelity (FE_InvalidConfirmationHeight (fb_conf_height bond) confirmation_height));
  bond_height ← ok_or (checked_sub (fb_lock_time bond) confirmation_height)
        (WE_Fidelity FE_InvalidBondLocktime);
  _ ← reject (negb ((MIN_FIDELITY_TIMELOCK <=? bond_height) && (bond_height <=? MAX_FIDELITY_TIMELOCK)))
        (WE_Fidelity FE_InvalidBondLocktime);
  lock_time ← LockTime_from_height (wrap 32 current_height);
  _ ← reject (lock_time_gt lock_time (fb_lock_time bond)) (WE_Fidelity FE_BondLocktimeExpired);
  let expected_cert_hash := generate_cert_hash bond addr tweakable_point in
  _ ← reject (bool_decide (fp_cert_hash proof <> expected_cert_hash)) (WE_Fidelity FE_InvalidCertHash);
  derived ← ok_or (derive_pub (inner tweakable_point) tweak_chain_code [2; fb_bond_index bond])
        (WE_BIP32 "derive_pub");
  _ ← reject (bool_decide (derived <> inner (fb_pubkey bond)))
        (WE_General "Fidelity bond does not correspond to the provided tweak point");
  let fidelity_redeem_script := fidelity_redeemscript (fb_lock_time bond) (fb_pubkey bond) in
  derived_script_pubkey ← map_err WE_Protocol (redeemscript_to_scriptpubkey fidelity_redeem_script);
  tx_out ← ok_or (output tx !! Z.to_nat (op_vout (fb_outpoint bond))) (WE_General "Outputs index error");
  _ ← reject (bool_decide (script_pubkey tx_out <> derived_script_pubkey)) (WE_Fidelity FE_BondDoesNotExist);
  _ ← reject (negb (value tx_out =? fb_amount bond))
        (WE_Fidelity (FE_General "Bond amount mismatch: expected {}, actual {}"));
  _ ← reject (negb (ecdsa_verify (fp_cert_hash proof) (fp_cert_sig proof) (inner (fb_pubkey bond)))) WE_Secp;
  Ok ().

(** Readers of the redeemscript; a push of more than four bytes panics. *)
Definition read_locktime_from_fidelity_script (redeemscript : Script) : outcome FidelityError Z :=
  match instructions redeemscript !! 2%nat with
  | Some (Some (PushBytes locktime_bytes)) =>
      if (length locktime_bytes <=? 4)%nat
      then Ok (le_value locktime_bytes) else Panic
  | _ => Err FE_WrongScriptType
  end.

Definition read_pubkey_from_fidelity_script (redeemscript : Script) : outcome FidelityError PublicKey :=
  match instructions redeemscript !! 0%nat with
  | Some (Some (PushBytes pubkey_bytes)) => ok_or (pubkey_from_slice pubkey_bytes) (FE_General "{e}")
  | _ => Err FE_WrongScriptType
  end.
End bond.

(** ** The announcement *)

(** Decimal digits of a [u32], most significant first. *)
Fixpoint digits_rev (fuel : nat) (n : Z) : bytes :=
  match fuel with
  | O => []
  | S fuel => (48 + n mod 10) :: if n <? 10 then [] else digits_rev fuel (n / 10)
  end.
Definition show_u32 (n : Z) : bytes := rev (digits_rev 10 n).

Definition encode_fidelity_op_return (onion : bytes) (locktime : Z) : outcome WalletError bytes :=
  if is_height_lock locktime then
    let onion := default onion (strip_suffix dot_onion onion) in
    Ok (onion ++ [35] ++ show_u32 locktime)
  else Err (WE_General "fidelity locktime must be height-based").

(** ** Bond value *)
Class FloatFns := { f64_exp_m1 : f64 -> f64; f64_powf : f64 -> f64 -> f64 }.

Definition f64_sub : f64 -> f64 -> f64 := SFsub 53 1024.
Definition f64_max (a b : f64) : f64 := if f64_is_nan a || f64_ltb a b then b else a.
Definition f64_min (a b : f64) : f64 := if f64_is_nan a || f64_ltb b a then b else a.

Definition calculate_fidelity_value `{FloatFns} (value : Amount) (locktime confirmation_time current_time : Z)
  : Amount :=
  let sec_in_a_year :=
    f64_mul (f64_mul (f64_mul (f64_of_Z 60) (f64_of_Z 60)) (f64_of_Z 24)) (f64_lit 3652425 10000) in
  let interest_rate := f64_lit 15 1000 in
  let lock_period_yr := f64_div (f64_of_Z (wrap 64 (locktime - confirmation_time))) sec_in_a_year in
  let locktime_yr := f64_div (f64_of_Z locktime) sec_in_a_year in
  let currenttime_yr := f64_div (f64_of_Z current_time) sec_in_a_year in
  let zero := f64_of_Z 0 in
  let one := f64_of_Z 1 in
  let exp_rt_m1 := f64_exp_m1 (f64_mul interest_rate lock_period_yr) in
  let exp_rtl_m1 := f64_exp_m1 (f64_mul interest_rate (f64_max zero (f64_sub currenttime_yr locktime_yr))) in
  let timevalue := f64_max zero (f64_sub (f64_min one exp_rt_m1) (f64_min one exp_rtl_m1)) in
  f64_to_u64 (f64_powf (f64_mul (f64_of_Z value) timevalue) (f64_lit 13 10)).

(** ** The wallet's bonds *)
Inductive Destination :=
| Sweep (addr : Script)
| Multi (outputs : list (Script * Amount)) (op_return_data : option bytes) (change_address_type : AddressType).

(** Keys: [m/175'/2/index] and the tweakable key [m/175'] with its chain code. *)
Class BondKeys := {
  fidelity_secret : Z -> outcome WalletError SecretKey;
  tweakable_keypair : outcome WalletError (SecretKey * PublicKey * bytes);
}.

Class BondWorld (D : Type) := {
  bw_block_count : stateful D WalletError Z;
  bw_header_time : Z -> stateful D WalletError Z;
  bw_now : D -> Z * D;
  bw_is_tx_unknown : Txid -> stateful D WalletError bool;
  bw_send_tx : Transaction -> stateful D WalletError Txid;
  bw_coin_select : Amount -> f64 -> Script -> stateful (Wallet D) WalletError (list (Utxo * UTXOSpendInfo));
  bw_spend_coins : list (Utxo * UTXOSpendInfo) -> Destination -> f64 ->
    stateful (Wallet D) WalletError Transaction;
  bw_next_internal_address : AddressType -> stateful (Wallet D) WalletError Script;
}.

Section wallet.
Context {lib : BitcoinLib} {cert : CertLib} {fns : FloatFns} {hi : HashIter}.
Context {D : Type} {keys : BondKeys} {world : BondWorld D} {file : WalletFile D}.
Abbreviation wallet_op := (stateful (Wallet D) WalletError).

Definition on_outside {A} (m : stateful D WalletError A) : wallet_op A := fun w =>
  let '(r, d) := m (wl_outside w) in (r, {| w with wl_outside := d |}).
Definition set_store (f : WalletStore -> WalletStore) : wallet_op () :=
  modify (fun w => {| w with wl_store := f (wl_store w) |}).
Definition bonds (w : Wallet D) : list FidelityBond := wst_fidelity_bond (wl_store w).
Definition get_bond (index : Z) : wallet_op FidelityBond :=
  gets bonds ≫= fun bs => lift (ok_or (bs !! Z.to_nat index) (WE_Fidelity FE_BondDoesNotExist)).
Definition update_bond (index : Z) (f : FidelityBond -> FidelityBond) : wallet_op () :=
  get_bond index ≫= fun bond =>
  set_store (fun st => {| st with wst_fidelity_bond := <[Z.to_nat index := f bond]> (wst_fidelity_bond st) |}).

Definition fidelity_pubkey (index : Z) : outcome WalletError PublicKey :=
  sk ← fidelity_secret index; Ok {| compressed := true; inner := point_from_secret_key sk |}.

Definition get_fidelity_reedemscript (index : Z) : wallet_op Script :=
  get_bond index ≫= fun bond => mret (fb_redeem_script bond).

(** [Address::p2wsh] of the next bond's script. *)
Definition get_next_fidelity_address (locktime : Z) : wallet_op (Z * Script * PublicKey) :=
  gets bonds ≫= fun bs =>
  let next_index := wrap 32 (zlen bs) in
  lift (fidelity_pubkey next_index) ≫= fun pubkey =>
  lift (map_err WE_Protocol (redeemscript_to_scriptpubkey (fidelity_redeemscript locktime pubkey))) ≫= fun spk =>
  mret (next_index, spk, pubkey).

Definition chain_tip : wallet_op (Z * Z) :=
  on_outside bw_block_count ≫= fun height =>
  on_outside (bw_header_time height) ≫= fun time => mret (height, time).

Definition calculate_bond_value (bond : FidelityBond) (tip_height tip_time : Z) : wallet_op Amount :=
  (fun w => let '(t, d) := bw_now (wl_outside w) in (Ok t, {| w with wl_outside := d |})) ≫= fun current_time =>
  lift (ok_or (fb_conf_height bond) (WE_Fidelity FE_BondDoesNotExist)) ≫= fun conf_height =>
  on_outside (bw_header_time conf_height) ≫= fun confirmation_time =>
  lift (if is_height_lock (fb_lock_time bond) then
          height_diff ← ok_or (checked_sub (fb_lock_time bond) (wrap 32 tip_height))
            (WE_Fidelity FE_BondLocktimeExpired);
          Ok (tip_time + height_diff * 10 * 60)
        else Ok (fb_lock_time bond)) ≫= fun locktime =>
  mret (calculate_fidelity_value (fb_amount bond) locktime confirmation_time current_time).

(** The valuations of the live bonds; a bond that cannot be valued is skipped. *)
Fixpoint value_bonds (i : Z) (bs : list FidelityBond) (tip_height tip_time : Z) : wallet_op (list (Z * Amount)) :=
  match bs with
  | [] => mret []
  | bond :: rest =>
      (if fb_is_spent bond then mret None
       else fun w =>
         match calculate_bond_value bond tip_height tip_time w with
         | (Ok v, w') => (Ok (Some (i, v)), w')
         | (Err _, w') => (Ok None, w')
         | (Panic, w') => (Panic, w')
         end) ≫= fun this =>
      value_bonds (i + 1) rest tip_height tip_time ≫= fun others =>
      mret (match this with Some x => x :: others | None => others end)
  end.

(** [Iterator::max_by]: the last of the greatest. *)
Definition max_by_value (xs : list (Z * Amount)) : option (Z * Amount) :=
  match xs with
  | [] => None
  | x :: rest => Some (fold_left (fun best y => if snd y <? snd best then best else y) rest x)
  end.

Definition get_highest_fidelity_index : wallet_op (option Z) :=
  gets bonds ≫= fun bs =>
  if forallb fb_is_spent bs then mret None
  else
    chain_tip ≫= fun tip =>
    value_bonds 0 bs (fst tip) (snd tip) ≫= fun values =>
    mret (fst <$> max_by_value values).

Definition create_fidelity (amount : Amount) (locktime : Z) (maker_address : option bytes) (feerate : f64)
    (change_address_type : AddressType) : wallet_op (Z * Txid) :=
  get_next_fidelity_address locktime ≫= fun next =>
  let '(index, fidelity_addr, pubkey) := next in
  bw_coin_select amount feerate fidelity_addr ≫= fun coins =>
  lift (match maker_address with
        | Some onion => data ← encode_fidelity_op_return onion locktime; Ok (Some data)
        | None => Ok None
        end) ≫= fun op_return_data =>
  bw_spend_coins coins (Multi [(fidelity_addr, amount)] op_return_data change_address_type) feerate ≫= fun tx =>
  on_outside (bw_send_tx tx) ≫= fun txid =>
  let bond := {| fb_outpoint := {| op_txid := txid; op_vout := 0 |}; fb_amount := amount;
                 fb_lock_time := locktime; fb_pubkey := pubkey; fb_conf_height := None;
                 fb_is_spent := false; fb_bond_index := index; fb_tx := Some tx |} in
  set_store (fun st => {| st with wst_fidelity_bond := wst_fidelity_bond st ++ [bond] |}) ≫= fun _ =>
  save_to_disk ≫= fun _ =>
  mret (index, txid).

Definition ensure_fidelity_bond_broadcast (index : Z) : wallet_op Txid :=
  get_bond index ≫= fun bond =>
  on_outside (bw_is_tx_unknown (op_txid (fb_outpoint bond))) ≫= fun unknown : bool =>
  if unknown then
    lift (ok_or (fb_tx bond) (WE_Fidelity (FE_BondTransactionMissing index))) ≫= fun tx =>
    on_outside (bw_send_tx tx)
  else mret (op_txid (fb_outpoint bond)).

Definition update_fidelity_bond_conf_details (index conf_height : Z) : wallet_op () :=
  update_bond index (fun bond => {| bond with fb_conf_height := Some conf_height; fb_tx := None |}) ≫= fun _ =>
  save_to_disk.

(** The UTXO that backs a bond, by its spend information. *)
Definition is_bond_coin (index : Z) (amount : Amount) (info : UTXOSpendInfo) : bool :=
  match info with FidelityBondCoin i v => (i =? index) && (v =? amount) | _ => false end.

Definition redeem_fidelity (idx : Z) (feerate : f64) (destination_address_type : AddressType) : wallet_op () :=
  get_bond idx ≫= fun bond =>
  if fb_is_spent bond then mret ()
  else
    bw_next_internal_address destination_address_type ≫= fun change_addr =>
    gets (fun w => list_fidelity_spend_info (wl_store w)) ≫= fun utxos =>
    match list_find (fun u => is_bond_coin idx (fb_amount bond) (snd u)) utxos with
    | None => update_bond idx (fun bond => {| bond with fb_is_spent := true |})
    | Some (_, (utxo, info)) =>
        bw_spend_coins [(utxo, info)] (Sweep change_addr) feerate ≫= fun tx =>
        on_outside (bw_send_tx tx) ≫= fun _ =>
        update_bond idx (fun bond => {| bond with fb_is_spent := true |})
    end.

Definition is_expired (curr_height : Z) (bond : FidelityBond) : bool :=
  negb (fb_is_spent bond) && (fb_lock_time bond <? curr_height).

Definition expired_bond_indices (curr_height : Z) (bs : list FidelityBond) : list Z :=
  map (fun p => wrap 32 (Z.of_nat (fst p)))
    (filter (fun p => is_expired curr_height (snd p) = true) (imap (fun i b => (i, b)) bs)).

Definition redeem_expired_fidelity_bonds (destination_address_type : AddressType) : wallet_op () :=
  on_outside bw_block_count ≫= fun height =>
  gets (fun w => expired_bond_indices (wrap 32 height) (bonds w)) ≫= fun expired =>
  st_for_each (fun i => redeem_fidelity i (f64_of_Z MIN_FEE_RATE) destination_address_type) expired.

Definition generate_fidelity_proof (index : Z) (maker_addr : bytes) : wallet_op FidelityProof :=
  get_bond index ≫= fun bond =>
  lift (reject (fb_is_spent bond) (WE_Fidelity FE_BondAlreadyRedeemed)) ≫= fun _ =>
  lift (fidelity_secret index) ≫= fun fidelity_privkey =>
  lift tweakable_keypair ≫= fun kp =>
  let cert_hash := generate_cert_hash bond maker_addr (snd (fst kp)) in
  mret {| fp_bond := {| bond with fb_tx := None |};
          fp_cert_hash := cert_hash;
          fp_cert_sig := ecdsa_sign cert_hash fidelity_privkey |}.

(** The bond arm of [sign_transaction]: the witness of input [ix]. *)
Definition sign_fidelity_input (tx : Transaction) (ix : nat) (index : Z) (input_value : Amount)
  : wallet_op (list bytes) :=
  lift (fidelity_secret index) ≫= fun privkey =>
  get_fidelity_reedemscript index ≫= fun redeemscript =>
  lift (ok_or (p2wsh_signature_hash tx ix redeemscript input_value SIGHASH_ALL) (WE_General "sighash")) ≫= fun sighash =>
  mret [ecdsa_sign sighash privkey ++ [SIGHASH_ALL]; redeemscript].
End wallet.

(** ** Spending a bond *)
Section bond_eval.
Context {lib : BitcoinLib}.

(** The two opcodes of the bond script on top of [step_opcode]. *)
Definition bond_step (cx : SpendCtx) (op : Z) (st : list bytes) : option (list bytes) :=
  if op =? OP_CHECKSIGVERIFY then
    match st with pk :: sig :: r => if checksig cx sig pk then Some r else None | _ => None end
  else if op =? OP_CLTV then
    match st with
    | a :: _ => if cltv_ok (lock_time (cx_tx cx)) (cx_sequence cx) (scriptnum a) then Some st else None
    | _ => None
    end
  else step_opcode cx op st.

Fixpoint bond_exec (cx : SpendCtx) (instrs : list (option Instruction)) (st : list bytes)
  : option (list bytes) :=
  match instrs with
  | [] => Some st
  | None :: _ => None
  | Some (PushBytes d) :: rest => bond_exec cx rest (d :: st)
  | Some (Op op) :: rest =>
      match bond_step cx op st with Some st' => bond_exec cx rest st' | None => None end
  end.

(** A spend of a P2WSH output by input 0 of [tx]. *)
Definition bond_spendable (tx : Transaction) (prevout : TxOut) : bool :=
  match input tx with
  | i :: _ =>
      match rev (witness i) with
      | script :: items =>
          let cx := {| cx_tx := tx; cx_sequence := sequence i;
                       cx_amount := value prevout; cx_script := script |} in
          bool_decide (script_pubkey prevout = 0 :: 32 :: wscript_hash script) &&
          match bond_exec cx (instructions script) items with
          | Some [x] => truthy x
          | _ => false
          end
      | [] => false
      end
  | [] => false
  end.
End bond_eval.

(** Script numbers: the pushed value is read back. *)
Lemma le_value_app xs ys : le_value (xs ++ ys) = le_value xs + 256 ^ zlen xs * le_value ys.
Proof.
  induction xs as [|x xs IH]; cbn [app le_value]; [change (256 ^ zlen []) with 1; lia|].
  rewrite IH, zlen_cons, Z.pow_add_r by (pose proof (zlen_nonneg xs); lia). lia.
Qed.

Lemma le_value_le_bytes fuel n : 0 <= n < 256 ^ Z.of_nat fuel -> le_value (le_bytes fuel n) = n.
Proof.
  revert n. induction fuel as [|fuel IH]; intros n Hn; cbn [le_bytes].
  { cbn in *. lia. }
  destruct (Z.leb_spec n 0); [cbn; lia|]. cbn [le_value]. rewrite IH.
  - pose proof (Z.div_mod n 256). lia.
  - split; [apply Z.div_pos; lia|]. apply Z.div_lt_upper_bound; [lia|].
    rewrite Nat2Z.inj_succ, Z.pow_succ_r in Hn by lia. lia.
Qed.

Lemma scriptnum_script_int n : 0 <= n < 2 ^ 32 -> scriptnum (script_int n) = n.
Proof.
  intros Hn. assert (Hv : le_value (le_bytes 8 n) = n) by (apply le_value_le_bytes; change (256 ^ Z.of_nat 8) with (2 ^ 64); lia).
  unfold script_int, scriptnum. destruct (last (le_bytes 8 n)) as [top|] eqn:Hl.
  - destruct (Z.leb_spec 128 top) as [Ht|Ht].
    + rewrite last_snoc. change (128 <=? 0) with false. cbv iota. rewrite le_value_app, Hv. cbn. lia.
    + rewrite Hl. destruct (Z.leb_spec 128 top); [lia|done].
  - cbn. apply last_None in Hl. by rewrite Hl in Hv.
Qed.

Lemma truthy_false_value bs : truthy bs = false -> le_value bs = 0.
Proof.
  unfold truthy. induction bs as [|b bs IH]; cbn; [done|].
  destruct (Z.eqb_spec b 0); cbn; [|done]. intros H. rewrite IH by done. lia.
Qed.

Lemma truthy_script_int n : 0 < n < 2 ^ 32 -> truthy (script_int n) = true.
Proof.
  intros Hn. destruct (truthy (script_int n)) eqn:Ht; [done|]. exfalso.
  pose proof (truthy_false_value _ Ht) as Hz.
  assert (Hv : le_value (le_bytes 8 n) = n) by (apply le_value_le_bytes; change (256 ^ Z.of_nat 8) with (2 ^ 64); lia).
  unfold script_int in *. destruct (last (le_bytes 8 n)) as [top|] eqn:Hl.
  - destruct (128 <=? top); [rewrite le_value_app in Hz; change (le_value [0]) with 0 in Hz|]; lia.
  - apply last_None in Hl. rewrite Hl in Hv. cbn in Hv. lia.
Qed.

Lemma script_int_short n : (length (script_int n) <= 9)%nat.
Proof.
  assert (forall f m, (length (le_bytes f m) <= f)%nat) as Hlen.
  { induction f as [|f IH]; intros m; cbn [le_bytes]; [done|]. destruct (m <=? 0); cbn; [lia|].
    specialize (IH (m / 256)). lia. }
  unfold script_int. specialize (Hlen 8%nat n).
  destruct (last _); [|cbn; lia]. destruct (_ <=? _); [rewrite length_app; change (length [0]) with 1%nat|]; lia.
Qed.

(** ** What a taker accepts *)
Class CertLaws {lib : BitcoinLib} (cert : CertLib) : Prop :=
  derive_pub_valid p cc path q : derive_pub p cc path = Some q -> valid_point q = true.

Section script.
Context {lib : BitcoinLib} {laws : BitcoinLaws lib}.

(** The bytes [push_key] pushes. *)
Definition key_bytes (k : PublicKey) : bytes :=
  if compressed k then inner k else serialize_uncompressed (inner k).

Lemma fidelity_instructions lock pk :
  valid_point (inner pk) = true -> 17 <= lock < 2 ^ 31 ->
  instructions (fidelity_redeemscript lock pk) =
    map Some [PushBytes (key_bytes pk); Op OP_CHECKSIGVERIFY; PushBytes (script_int lock); Op OP_CLTV].
Proof.
  intros Hv Hl. unfold fidelity_redeemscript, key_bytes.
  assert (Hk : (length (key_bytes pk) <= 75)%nat).
  { unfold key_bytes. destruct (compressed pk); [rewrite valid_point_length by done|
      rewrite serialize_uncompressed_length by done]; lia. }
  assert (Hpk : push_key pk [] = zlen (key_bytes pk) :: key_bytes pk).
  { unfold key_bytes in *. destruct (compressed pk) eqn:Hc.
    - rewrite push_key_compressed by done. by rewrite push_slice_spec.
    - rewrite push_key_uncompressed by done. by rewrite push_slice_spec. }
  rewrite Hpk, !push_opcode_spec, push_int_large by done.
  rewrite push_slice_spec by (pose proof (script_int_short lock); lia).
  rewrite <- !app_assoc. cbn [app]. rewrite instructions_push by done.
  rewrite instructions_opcode by (unfold is_plain_opcode, OP_CHECKSIGVERIFY; lia).
  rewrite instructions_push by (pose proof (script_int_short lock); lia).
  rewrite instructions_opcode by (unfold is_plain_opcode, OP_CLTV; lia).
  by rewrite instructions_nil.
Qed.

(** Running the bond script: one signature, and the lock must have passed. *)
Lemma bond_script_runs cx lock pk items x :
  valid_point (inner pk) = true -> 17 <= lock < 2 ^ 31 ->
  bond_exec cx (instructions (fidelity_redeemscript lock pk)) items = Some [x] <->
  exists sig, items = [sig] /\ x = script_int lock /\ checksig cx sig (key_bytes pk) = true /\
    cltv_ok (lock_time (cx_tx cx)) (cx_sequence cx) lock = true.
Proof.
  intros Hv Hl. rewrite fidelity_instructions by done. cbn [map bond_exec].
  unfold bond_step at 1. change (OP_CHECKSIGVERIFY =? OP_CHECKSIGVERIFY) with true. cbv iota.
  destruct items as [|sig items]; [split; [done|intros (? & [=] & _)]|].
  destruct (checksig cx sig (key_bytes pk)) eqn:Hs; [|split; [done|naive_solver congruence]].
  cbn [bond_exec]. unfold bond_step. change (OP_CLTV =? OP_CHECKSIGVERIFY) with false.
  change (OP_CLTV =? OP_CLTV) with true. cbv iota. rewrite scriptnum_script_int by lia.
  destruct (cltv_ok (lock_time (cx_tx cx)) (cx_sequence cx) lock) eqn:Hc; [|split; [done|naive_solver congruence]].
  split.
  - intros [= <- ->]. eauto.
  - intros (s & [= -> ->] & -> & _). done.
Qed.

Lemma bond_spend_iff tx o i rest items lock pk :
  valid_point (inner pk) = true -> 17 <= lock < 2 ^ 31 ->
  script_pubkey o = 0 :: 32 :: wscript_hash (fidelity_redeemscript lock pk) ->
  input tx = i :: rest -> rev (witness i) = fidelity_redeemscript lock pk :: items ->
  bond_spendable tx o = true <->
  exists sig, items = [sig] /\
    checksig {| cx_tx := tx; cx_sequence := sequence i; cx_amount := value o;
                cx_script := fidelity_redeemscript lock pk |} sig (key_bytes pk) = true /\
    cltv_ok (lock_time tx) (sequence i) lock = true.
Proof.
  intros Hv Hl Hspk Hi Hw. unfold bond_spendable. rewrite Hi, Hw, bool_decide_eq_true_2 by done. cbn [andb].
  set (cx := {| cx_tx := tx; cx_sequence := sequence i; cx_amount := value o;
                cx_script := fidelity_redeemscript lock pk |}).
  pose proof (fun x => bond_script_runs cx lock pk items x Hv Hl) as Hrun.
  destruct (bond_exec cx (instructions (fidelity_redeemscript lock pk)) items) as [[|x [|y st]]|] eqn:E.
  - split; [done|]. intros (sig & -> & Hs & Hc). exfalso.
    destruct (Hrun (script_int lock)) as [_ Hr]. discriminate Hr. eauto.
  - split.
    + intros _. destruct (proj1 (Hrun x) eq_refl) as (sig & ? & _ & ? & ?). eauto.
    + intros (sig & -> & Hs & Hc). destruct (Hrun (script_int lock)) as [_ Hr].
      injection Hr as ->; [|by eauto]. apply truthy_script_int. lia.
  - split; [done|]. intros (sig & -> & Hs & Hc). exfalso.
    destruct (Hrun (script_int lock)) as [_ Hr]. discriminate Hr. eauto.
  - split; [done|]. intros (sig & -> & Hs & Hc). exfalso.
    destruct (Hrun (script_int lock)) as [_ Hr]. discriminate Hr. eauto.
Qed.
End script.

(** Everything a verified proof fixes. *)
Lemma verify_fidelity_checks_Ok {lib : BitcoinLib} {laws : BitcoinLaws lib} {cert : CertLib}
    proof addr tx cur conf tp cc :
  verify_fidelity_checks proof addr tx cur conf tp cc = Ok () <->
  let bond := fp_bond proof in
  fb_conf_height bond = Some conf /\
  conf + MIN_FIDELITY_TIMELOCK <= fb_lock_time bond <= conf + MAX_FIDELITY_TIMELOCK /\
  is_height_lock (wrap 32 cur) = true /\ lock_time_gt (wrap 32 cur) (fb_lock_time bond) = false /\
  fp_cert_hash proof = generate_cert_hash bond addr tp /\
  derive_pub (inner tp) cc [2; fb_bond_index bond] = Some (inner (fb_pubkey bond)) /\
  (exists o, output tx !! Z.to_nat (op_vout (fb_outpoint bond)) = Some o /\
     script_pubkey o = 0 :: 32 :: wscript_hash (fb_redeem_script bond) /\ value o = fb_amount bond) /\
  ecdsa_verify (fp_cert_hash proof) (fp_cert_sig proof) (inner (fb_pubkey bond)) = true.
Proof.
  unfold verify_fidelity_checks, LockTime_from_height. rewrite redeemscript_to_scriptpubkey_Ok.
  fold (fb_redeem_script (fp_bond proof)). set (bond := fp_bond proof). split.
  - intros Hok. inv_ok Hok. repeat match goal with H : reject _ _ = Ok _ |- _ => apply reject_Ok in H end.
    destruct (is_height_lock (wrap 32 cur)) eqn:Hcur; [|done]. to_prop. simplify_eq/=.
    repeat match goal with H : ok_or _ _ = Ok _ |- _ => apply ok_or_Ok in H end.
    match goal with H : checked_sub _ _ = Some _ |- _ => apply checked_sub_Some in H as [? ->] end.
    split_and!; [by apply dec_stable|lia|lia|done|done|by apply dec_stable| | |].
    + match goal with H : ~ (?q <> inner _) |- _ => apply dec_stable in H; by subst q end.
    + eexists. split; [done|]. split; [by apply dec_stable|done].
    + done.
  - intros (Hconf & Hrange & Hcur & Hgt & Hch & Hder & (o & Ho & Hspk & Hval) & Hsig).
    rewrite Hconf, bool_decide_ne_refl. cbn [reject mbind outcome_bind].
    assert (checked_sub (fb_lock_time bond) conf = Some (fb_lock_time bond - conf)) as ->.
    { apply checked_sub_Some. unfold MIN_FIDELITY_TIMELOCK in *. lia. }
    cbn [ok_or mbind outcome_bind].
    assert ((MIN_FIDELITY_TIMELOCK <=? fb_lock_time bond - conf) &&
            (fb_lock_time bond - conf <=? MAX_FIDELITY_TIMELOCK) = true) as ->.
    { apply andb_true_iff. rewrite !Z.leb_le. lia. }
    rewrite Hcur. cbn [negb reject mbind outcome_bind]. rewrite Hgt, Hch, bool_decide_ne_refl.
    cbn [reject mbind outcome_bind]. rewrite Hder. cbn [ok_or mbind outcome_bind].
    rewrite bool_decide_ne_refl. cbn [reject mbind outcome_bind map_err]. rewrite Ho.
    cbn [ok_or mbind outcome_bind]. rewrite Hspk, bool_decide_ne_refl. cbn [reject mbind outcome_bind].
    rewrite Hval, Z.eqb_refl. cbn [negb reject mbind outcome_bind]. rewrite <- Hch, Hsig. done.
Qed.

(** C37: A bond a taker accepts is locked.  When the checks pass, the output the
    proof names holds exactly the claimed amount, and a transaction that reveals
    the bond's script can spend it only with a signature of the bond's key and a
    height lock at least [MIN_FIDELITY_TIMELOCK] blocks after the bond's
    confirmation: the coins are out of the maker's reach until then. *)
Theorem accepted_bond_is_locked {lib : BitcoinLib} {laws : BitcoinLaws lib} {cert : CertLib}
    (cl : CertLaws cert) proof addr tx cur conf tp cc :
  0 <= conf < 2 ^ 30 ->
  verify_fidelity_checks proof addr tx cur conf tp cc = Ok () ->
  exists o, output tx !! Z.to_nat (op_vout (fb_outpoint (fp_bond proof))) = Some o /\
    value o = fb_amount (fp_bond proof) /\
    forall spend i rest items,
      input spend = i :: rest -> rev (witness i) = fb_redeem_script (fp_bond proof) :: items ->
      bond_spendable spend o = true ->
      conf + MIN_FIDELITY_TIMELOCK <= lock_time spend /\
      exists sig, items = [sig] /\
        checksig {| cx_tx := spend; cx_sequence := sequence i; cx_amount := value o;
                    cx_script := fb_redeem_script (fp_bond proof) |} sig
          (key_bytes (fb_pubkey (fp_bond proof))) = true.
Proof.
  intros Hconf Hok. apply verify_fidelity_checks_Ok in Hok
    as (_ & Hrange & _ & _ & _ & Hder & (o & Ho & Hspk & Hval) & _).
  unfold MIN_FIDELITY_TIMELOCK, MAX_FIDELITY_TIMELOCK in *.
  exists o. split; [done|]. split; [done|]. intros spend i rest items Hi Hw Hsp.
  apply (bond_spend_iff spend o i rest items (fb_lock_time (fp_bond proof)) (fb_pubkey (fp_bond proof)))
    in Hsp as (sig & -> & Hs & Hc); [|by eapply derive_pub_valid|lia|done..].
  split; [|by exists sig]. unfold cltv_ok in Hc. to_prop. lia.
Qed.

(** ** The life of a bond *)

(** What the wallet relies on of the transaction builder: the requested outputs
    come first, in order, and neither building nor selecting touches the bonds. *)
Class BondWorldLaws {D} (world : BondWorld D) : Prop := {
  spend_outputs coins outs op ch rate w tx w' :
    bw_spend_coins coins (Multi outs op ch) rate w = (Ok tx, w') ->
    forall i a v, outs !! i = Some (a, v) -> output tx !! i = Some {| value := v; script_pubkey := a |};
  spend_keeps_bonds coins dst rate w : bonds (bw_spend_coins coins dst rate w).2 = bonds w;
  select_keeps_bonds amount rate spk w : bonds (bw_coin_select amount rate spk w).2 = bonds w;
}.

(** BIP32: public and private derivation of the bond keys agree. *)
Class BondKeyLaws {lib : BitcoinLib} (cert : CertLib) (keys : BondKeys) : Prop :=
  bond_keys_agree i k sk tp cc :
    fidelity_secret i = Ok k -> tweakable_keypair = Ok (sk, tp, cc) ->
    derive_pub (inner tp) cc [2; i] = Some (point_from_secret_key k).

Section lifecycle.
Context {lib : BitcoinLib} {laws : BitcoinLaws lib} {cert : CertLib}.
Context {D : Type} {keys : BondKeys} {world : BondWorld D} {file : WalletFile D}.
Context {wl : BondWorldLaws world} {kl : BondKeyLaws cert keys}.

Lemma on_outside_bonds {A} (m : stateful D WalletError A) (w : Wallet D) :
  bonds (on_outside m w).2 = bonds w.
Proof. unfold on_outside. by destruct (m (wl_outside w)). Qed.

Lemma save_bonds (w : Wallet D) : bonds (save_to_disk w).2 = bonds w.
Proof. unfold save_to_disk. by destruct (write_wallet_file _ _). Qed.

(** A run of an operation that leaves the bonds alone. *)
Lemma run_keeps_bonds {A} (m : stateful (Wallet D) WalletError A) w r w' :
  (forall w, bonds (m w).2 = bonds w) -> m w = (r, w') -> bonds w' = bonds w.
Proof. intros Hm E. specialize (Hm w). by rewrite E in Hm. Qed.

Lemma get_bond_run index (w : Wallet D) bond :
  bonds w !! Z.to_nat index = Some bond -> get_bond index w = (Ok bond, w).
Proof.
  intros Hb. unfold get_bond. rewrite (st_bind_step _ _ w (bonds w) w) by done.
  unfold lift. by rewrite Hb.
Qed.

(** A created bond is the last of the store and matches the funding output. *)
Lemma create_fidelity_spec amount locktime addr feerate ch (w w' : Wallet D) index txid :
  create_fidelity amount locktime addr feerate ch w = (Ok (index, txid), w') ->
  exists bond tx k, bonds w' = bonds w ++ [bond] /\ index = wrap 32 (zlen (bonds w)) /\
    fidelity_secret index = Ok k /\
    fb_pubkey bond = {| compressed := true; inner := point_from_secret_key k |} /\
    fb_bond_index bond = index /\ fb_lock_time bond = locktime /\ fb_amount bond = amount /\
    fb_is_spent bond = false /\ fb_outpoint bond = {| op_txid := txid; op_vout := 0 |} /\
    fb_tx bond = Some tx /\
    output tx !! 0%nat = Some {| value := amount; script_pubkey := 0 :: 32 :: wscript_hash (fb_redeem_script bond) |}.
Proof.
  unfold create_fidelity, get_next_fidelity_address. intros Hc.
  apply st_bind_Ok in Hc as ([[index' spk] pubkey] & w1 & H1 & Hc).
  apply st_bind_Ok in H1 as (bs & wa & [= <- <-] & H1).
  apply st_bind_Ok in H1 as (pk & wb & Hpk & H1). apply lift_Ok in Hpk as [Hpk ->].
  apply st_bind_Ok in H1 as (spk' & wc & Hspk & H1). apply lift_Ok in Hspk as [Hspk ->].
  rewrite redeemscript_to_scriptpubkey_Ok in Hspk. injection Hspk as <-.
  injection H1 as <- <- <- <-. unfold fidelity_pubkey in Hpk. inv_ok Hpk.
  apply st_bind_Ok in Hc as (coins & w2 & H2 & Hc).
  apply st_bind_Ok in Hc as (opret & w3 & H3 & Hc). apply lift_Ok in H3 as [_ ->].
  apply st_bind_Ok in Hc as (tx & w4 & H4 & Hc).
  apply st_bind_Ok in Hc as (txid' & w5 & H5 & Hc).
  apply st_bind_Ok in Hc as ([] & w6 & [= <-] & Hc).
  apply st_bind_Ok in Hc as ([] & w7 & H7 & [= <- <- <-]).
  apply run_keeps_bonds in H5 as E5; [|apply on_outside_bonds].
  apply run_keeps_bonds in H4 as E4; [|apply spend_keeps_bonds].
  apply run_keeps_bonds in H2 as E2; [|apply select_keeps_bonds].
  apply run_keeps_bonds in H7 as E7; [|apply save_bonds].
  unfold bonds in E7 at 2. cbn [wl_store wst_fidelity_bond] in E7.
  change (wst_fidelity_bond (wl_store w5)) with (bonds w5) in E7. rewrite E5, E4, E2 in E7.
  eexists _, tx, v. split; [exact E7|]. split_and!; try done.
  by eapply spend_outputs with (i := 0%nat) in H4.
Qed.

Lemma update_conf_spec index conf (w w' : Wallet D) u bond :
  bonds w !! Z.to_nat index = Some bond ->
  update_fidelity_bond_conf_details index conf w = (Ok u, w') ->
  bonds w' !! Z.to_nat index = Some {| bond with fb_conf_height := Some conf; fb_tx := None |}.
Proof.
  intros Hb. unfold update_fidelity_bond_conf_details, update_bond.
  intros ([] & w1 & H1 & Hs)%st_bind_Ok.
  apply st_bind_Ok in H1 as (b & w2 & Hg & H1). rewrite (get_bond_run _ _ _ Hb) in Hg. injection Hg as <- <-.
  injection H1 as <-. apply run_keeps_bonds in Hs as E; [|apply save_bonds].
  rewrite E. unfold bonds at 1. cbn [wl_store wst_fidelity_bond].
  apply list_lookup_insert_eq. by apply lookup_lt_Some in Hb.
Qed.
End lifecycle.

(** ** The maker's choice of the lock *)

(** The range check of the configuration file. *)
Definition check_fidelity_timelock (fidelity_timelock : Z) : outcome WalletError () :=
  reject (negb ((MIN_FIDELITY_TIMELOCK <=? fidelity_timelock) && (fidelity_timelock <=? MAX_FIDELITY_TIMELOCK)))
    (WE_Fidelity FE_InvalidBondLocktime).

(** The lock time [setup_fidelity_bond] gives to a new bond at a chain tip. *)
Definition new_bond_locktime (fidelity_timelock current_height : Z) : outcome MakerError Z :=
  current_height ← (if current_height <=? U32_MAX then Ok current_height
                    else Err (ME_General "backend tip does not fit u32"));
  height ← ok_or (checked_add 32 fidelity_timelock current_height)
             (ME_General "fidelity locktime height overflows");
  map_err ME_Wallet (LockTime_from_height height).

(** ** Theorems *)
Section lifecycle_theorems.
Context {lib : BitcoinLib} {laws : BitcoinLaws lib} {cert : CertLib}.
Context {D : Type} {keys : BondKeys} {world : BondWorld D} {file : WalletFile D}.

(** C38: The proof of a bond's whole life.  A bond that the wallet created,
    recorded as confirmed at [conf] and proved to a taker for the maker's address
    is accepted by that taker's checks exactly while the tip has not passed the
    lock, and exactly if the lock lies between the minimum and the maximum number
    of blocks after the confirmation; the proof never carries the raw
    transaction. *)
Theorem created_bond_is_accepted_iff (wl : BondWorldLaws world) (kl : BondKeyLaws cert keys)
    amount locktime addr feerate ch (w w1 w2 : Wallet D) index txid conf u sk tp cc :
  create_fidelity amount locktime (Some addr) feerate ch w = (Ok (index, txid), w1) ->
  zlen (bonds w) < 2 ^ 32 -> locktime < LOCK_TIME_THRESHOLD ->
  update_fidelity_bond_conf_details index conf w1 = (Ok u, w2) ->
  tweakable_keypair = Ok (sk, tp, cc) ->
  exists tx proof,
    (exists bond, bonds w1 !! Z.to_nat index = Some bond /\ fb_tx bond = Some tx) /\
    generate_fidelity_proof index addr w2 = (Ok proof, w2) /\ fb_tx (fp_bond proof) = None /\
    forall cur, 0 <= cur < LOCK_TIME_THRESHOLD ->
      verify_fidelity_checks proof addr tx cur conf tp cc = Ok () <->
      conf + MIN_FIDELITY_TIMELOCK <= locktime <= conf + MAX_FIDELITY_TIMELOCK /\ cur <= locktime.
Proof.
  intros Hc Hlen Hlock Hu Hkp.
  apply create_fidelity_spec in Hc
    as (bond & tx & k & Hb & -> & Hk & Hpk & Hbi & Hlt & Ham & Hsp & Hop & Htx & Hout).
  assert (Hidx : Z.to_nat (wrap 32 (zlen (bonds w))) = length (bonds w)).
  { rewrite wrap_small by (pose proof (zlen_nonneg (bonds w)); unfold in_width; lia). unfold zlen. lia. }
  assert (Hb1 : bonds w1 !! Z.to_nat (wrap 32 (zlen (bonds w))) = Some bond).
  { rewrite Hb, Hidx, lookup_app_r, Nat.sub_diag by done. done. }
  apply (update_conf_spec _ _ _ _ _ _ Hb1) in Hu as Hb2.
  set (index := wrap 32 (zlen (bonds w))) in *.
  set (bond2 := {| bond with fb_conf_height := Some conf; fb_tx := None |}) in *.
  set (h := generate_cert_hash bond2 addr tp).
  exists tx, {| fp_bond := {| bond2 with fb_tx := None |}; fp_cert_hash := h; fp_cert_sig := ecdsa_sign h k |}.
  split; [by exists bond|]. split; [|split; [done|]].
  { unfold generate_fidelity_proof. rewrite (st_bind_step _ _ _ _ _ (get_bond_run _ _ _ Hb2)).
    unfold lift, mbind, stateful_bind. change (fb_is_spent bond2) with (fb_is_spent bond).
    rewrite Hsp, Hk, Hkp. done. }
  intros cur Hcur. rewrite verify_fidelity_checks_Ok. cbn [fp_bond fp_cert_hash fp_cert_sig].
  cbn [fb_conf_height fb_lock_time fb_outpoint fb_amount fb_pubkey fb_bond_index bond2].
  rewrite (wrap_small 32 cur) by (unfold in_width, LOCK_TIME_THRESHOLD in *; lia).
  unfold lock_time_gt, is_height_lock. rewrite Hlt.
  assert (Hh1 : (cur <? LOCK_TIME_THRESHOLD) = true) by lia.
  assert (Hh2 : (locktime <? LOCK_TIME_THRESHOLD) = true) by lia.
  rewrite Hh1, Hh2, bool_decide_eq_true_2 by done. cbn [andb]. rewrite Z.ltb_ge. split.
  - intros (_ & Hr & _ & Hgt & _). done.
  - intros [Hr Hle]. split_and!; try done; try lia.
    + unfold h, generate_cert_hash, cert_message. cbn. by rewrite Hlt.
    + rewrite Hbi, Hpk. exact (bond_keys_agree index k sk tp cc Hk Hkp).
    + rewrite Hop, Ham. eexists. split; [exact Hout|]. split; [|done].
      unfold fb_redeem_script. cbn. by rewrite Hlt.
    + rewrite Hpk. apply ecdsa_sign_verify.
Qed.

(** The documented minimum lock cannot be used.  A configured lock of
    [MIN_FIDELITY_TIMELOCK] blocks passes the range check, but it is counted from
    the tip at creation while takers count from the confirmation, which is at
    least one block later: whatever the maker proves about such a bond, every
    taker rejects it. *)
Lemma minimum_timelock_bond_is_never_accepted tip lock proof addr tx cur conf tp cc :
  new_bond_locktime MIN_FIDELITY_TIMELOCK tip = Ok lock ->
  fb_lock_time (fp_bond proof) = lock -> tip < conf ->
  check_fidelity_timelock MIN_FIDELITY_TIMELOCK = Ok () /\
  verify_fidelity_checks proof addr tx cur conf tp cc <> Ok ().
Proof.
  intros Hn Hl Hconf. split; [done|]. rewrite verify_fidelity_checks_Ok. cbv zeta.
  rewrite Hl. intros (_ & Hr & _). unfold new_bond_locktime in Hn. inv_ok Hn.
  match goal with H : checked_add _ _ _ = Some _ |- _ => apply checked_add_Some in H as [_ ->] end.
  unfold LockTime_from_height in *. repeat case_match; simplify_eq. lia.
Qed.
End lifecycle_theorems.

(** An expired bond can be redeemed.  When the tip has passed the lock of an
    unspent bond of the wallet, the witness the wallet signs for a transaction
    that spends the bond as its only input, with that tip as lock time, makes the
    spend acceptable to the bond's script. *)
Lemma expired_bond_can_be_redeemed {lib : BitcoinLib} {laws : BitcoinLaws lib} {D}
    {keys : BondKeys} (w : Wallet D) idx bond k tip tx i o :
  bonds w !! Z.to_nat idx = Some bond -> fidelity_secret idx = Ok k ->
  fb_pubkey bond = {| compressed := true; inner := point_from_secret_key k |} ->
  17 <= fb_lock_time bond -> tip < LOCK_TIME_THRESHOLD -> is_expired tip bond = true ->
  input tx = [i] -> sequence i = 0 -> lock_time tx = tip ->
  script_pubkey o = 0 :: 32 :: wscript_hash (fb_redeem_script bond) ->
  exists wit, sign_fidelity_input tx 0 idx (value o) w = (Ok wit, w) /\
    bond_spendable (set_witness wit tx) o = true.
Proof.
  intros Hb Hk Hpk Hmin Htip Hexp Hi Hseq Hlock Hspk. unfold is_expired in Hexp. to_prop.
  unfold LOCK_TIME_THRESHOLD in *.
  destruct (sighash_defined tx 0 (fb_redeem_script bond) (value o) SIGHASH_ALL) as [d Hd]; [by rewrite Hi; cbn; lia|].
  exists [ecdsa_sign d k ++ [SIGHASH_ALL]; fb_redeem_script bond]. split.
  - unfold sign_fidelity_input, get_fidelity_reedemscript.
    unfold lift, mbind, stateful_bind. rewrite Hk. unfold get_bond, gets, lift, mbind, stateful_bind. cbn.
    rewrite Hb. cbn. by rewrite Hd.
  - set (wit := [ecdsa_sign d k ++ [SIGHASH_ALL]; fb_redeem_script bond]).
    assert (Hin : input (set_witness wit tx) = [{| i with witness := wit |}])
      by (unfold set_witness, update_first_input; by rewrite Hi).
    assert (Hlt : lock_time (set_witness wit tx) = tip)
      by (unfold set_witness, update_first_input; by rewrite Hi).
    apply (bond_spend_iff _ o {| i with witness := wit |} [] [ecdsa_sign d k ++ [SIGHASH_ALL]]
             (fb_lock_time bond) (fb_pubkey bond)); [|lia|done|done|done|].
    { rewrite Hpk. apply point_from_secret_key_valid. }
    eexists. split; [done|]. split.
    + assert (key_bytes (fb_pubkey bond) = point_from_secret_key k) as -> by by rewrite Hpk.
      apply (checksig_own {| cx_tx := set_witness wit tx; cx_sequence := sequence i; cx_amount := value o;
               cx_script := fb_redeem_script bond |} d k). cbn [cx_tx cx_script cx_amount].
      rewrite strip_set_witness, <- sighash_ignores_witness. done.
    + rewrite Hlt. cbn [sequence]. rewrite Hseq. unfold cltv_ok, LOCK_TIME_THRESHOLD.
      destruct (Z.leb_spec 0 (fb_lock_time bond)), (Z.ltb_spec (fb_lock_time bond) 500000000),
        (Z.ltb_spec tip 500000000), (Z.leb_spec (fb_lock_time bond) tip); lia || done.
Qed.

(** ** The announcement is read back *)
Lemma parse_digits_snoc acc bs b n :
  parse_digits acc bs = Some n -> is_digit b = true -> 0 <= n -> n * 10 + (b - 48) <= U32_MAX ->
  parse_digits acc (bs ++ [b]) = Some (n * 10 + (b - 48)).
Proof.
  revert acc. induction bs as [|x bs IH]; intros acc; cbn [parse_digits app].
  - intros [= ->] Hd Hn Hmax. rewrite Hd. destruct (Z.leb_spec (n * 10 + (b - 48)) U32_MAX); [done|lia].
  - destruct (is_digit x); [|done]. destruct (_ <=? U32_MAX); [|done]. apply IH.
Qed.

Lemma digit_char d : 0 <= d < 10 -> is_digit (48 + d) = true.
Proof. intros Hd. unfold is_digit, in_range. destruct (Z.leb_spec 48 (48 + d)), (Z.leb_spec (48 + d) 57); lia || done. Qed.

Lemma show_parse fuel n :
  0 <= n < 10 ^ Z.of_nat fuel -> n <= U32_MAX -> (0 < fuel)%nat ->
  parse_digits 0 (rev (digits_rev fuel n)) = Some n /\ rev (digits_rev fuel n) <> [] /\
  Forall (fun b => is_digit b = true) (rev (digits_rev fuel n)).
Proof.
  revert n. induction fuel as [|fuel IH]; intros n Hn Hmax Hf; [lia|]. cbn [digits_rev].
  assert (Hm : 0 <= n mod 10 < 10) by (apply Z.mod_pos_bound; lia).
  destruct (Z.ltb_spec n 10) as [Hlt|Hge].
  - rewrite Z.mod_small by lia. cbn [rev app parse_digits]. rewrite digit_char by lia.
    replace (0 * 10 + (48 + n - 48)) with n by lia. destruct (Z.leb_spec n U32_MAX); [|lia].
    split; [done|]. split; [done|]. apply Forall_singleton. apply digit_char. lia.
  - cbn [rev]. assert (Hdm : n = 10 * (n / 10) + n mod 10) by (apply Z.div_mod; lia).
    assert (0 <= n / 10) by (apply Z.div_pos; lia).
    destruct fuel as [|fuel]; [cbn in Hn; lia|].
    destruct (IH (n / 10)) as (Hp & Hne & Hd).
    { split; [done|]. apply Z.div_lt_upper_bound; [lia|].
      rewrite (Nat2Z.inj_succ (S fuel)), Z.pow_succ_r in Hn by lia. lia. }
    { lia. } { lia. }
    split; [|split].
    + rewrite (parse_digits_snoc 0 _ _ (n / 10)); [f_equal; lia|done|by apply digit_char|done|lia].
    + intros E. apply app_eq_nil in E as [_ [=]].
    + apply Forall_app. split; [done|]. apply Forall_singleton. by apply digit_char.
Qed.

Lemma split_once_first c xs ys : c ∉ xs -> split_once c (xs ++ c :: ys) = Some (xs, ys).
Proof.
  induction xs as [|x xs IH]; cbn [app split_once]; intros Hx; [by rewrite Z.eqb_refl|].
  destruct (Z.eqb_spec x c) as [->|]; [set_solver|]. by rewrite IH by set_solver.
Qed.

Lemma utf8_ascii bs : Forall (fun b => 0 <= b <= 127) bs -> utf8_valid bs = true.
Proof.
  induction 1 as [|b bs Hb _ IH]; [done|]. cbn [utf8_valid]. unfold in_range at 1.
  destruct (Z.leb_spec 0 b), (Z.leb_spec b 127); try lia. done.
Qed.

Lemma strip_suffix_app suffix bs : strip_suffix suffix (bs ++ suffix) = Some bs.
Proof.
  unfold strip_suffix. rewrite length_app, Nat.add_sub, take_app_length. by rewrite bool_decide_eq_true_2.
Qed.

Lemma strip_suffix_nodot bs : 46 ∉ bs -> strip_suffix dot_onion bs = None.
Proof.
  intros Hn. unfold strip_suffix. rewrite bool_decide_eq_false_2; [done|]. intros E. apply Hn.
  rewrite <- E. unfold dot_onion. set_solver.
Qed.

Lemma digit_is_ascii b : is_digit b = true -> 0 <= b <= 127 /\ b <> 35 /\ b <> 43.
Proof. unfold is_digit, in_range. intros [?%Z.leb_le ?%Z.leb_le]%andb_true_iff. lia. Qed.

(** The payload of the announcement, as the watcher parses it. *)
Lemma parse_announcement name lock :
  name <> [] -> Forall (fun b => 0 <= b <= 127 /\ b <> 35 /\ b <> 46) name -> 0 <= lock < LOCK_TIME_THRESHOLD ->
  parse_fidelity_op_return (name ++ [35] ++ show_u32 lock) =
    Some {| fa_onion := name ++ dot_onion; fa_expires_at_height := lock |}.
Proof.
  intros Hne Hname Hlock. unfold LOCK_TIME_THRESHOLD in Hlock.
  destruct (show_parse 10 lock) as (Hp & Hnn & Hd); [cbn; lia|unfold U32_MAX; lia|lia|].
  fold (show_u32 lock) in *. rewrite list.Forall_forall in Hname, Hd.
  assert (Hn35 : 35 ∉ name) by (intros Hin; destruct (Hname 35 Hin) as (? & ? & ?); done).
  assert (Hn46 : 46 ∉ name) by (intros Hin; destruct (Hname 46 Hin) as (? & ? & ?); done).
  unfold parse_fidelity_op_return. rewrite utf8_ascii.
  2:{ apply list.Forall_forall. intros b [Hb|[->%list_elem_of_singleton|Hb]%elem_of_app]%elem_of_app; [|lia|].
      - by apply Hname.
      - by apply digit_is_ascii, Hd. }
  cbn [negb app]. rewrite split_once_first by done.
  assert (Hu : parse_u32 (show_u32 lock) = Some lock).
  { unfold parse_u32. destruct (show_u32 lock) as [|b bs] eqn:E; [done|].
    destruct (Z.eqb_spec b 43) as [->|]; [|done].
    destruct (digit_is_ascii 43) as (_ & _ & ?); [apply Hd; left|done]. }
  cbn [mbind option_bind]. rewrite Hu. cbn [mbind option_bind].
  unfold normalize_onion_address. rewrite strip_suffix_nodot by done. cbn [default].
  rewrite (bool_decide_eq_false_2 (name = [])), (bool_decide_eq_false_2 (46 ∈ name)) by done. done.
Qed.

(** The announcement round-trips.  What the wallet encodes for a maker's
    onion address, with or without its suffix, and a height lock, put into an
    OP_RETURN output after outputs that carry no announcement, is what a taker's
    watchtower reads from the bond transaction: the full onion address and the
    height at which the bond expires. *)
Lemma bond_announcement_round_trips name (suffixed : bool) lock data before after tx :
  name <> [] -> Forall (fun b => 0 <= b <= 127 /\ b <> 35 /\ b <> 46) name ->
  0 <= lock -> zlen data <= 75 ->
  encode_fidelity_op_return (if suffixed then name ++ dot_onion else name) lock = Ok data ->
  output tx = before ++ {| value := 0; script_pubkey := 106 :: zlen data :: data |} :: after ->
  2 <= zlen (output tx) <= 5 -> lock_time tx <> 0 -> first_announcement before = None ->
  process_fidelity tx = Some {| fa_onion := name ++ dot_onion; fa_expires_at_height := lock |}.
Proof.
  intros Hne Hname Hlock Hlen Henc Hout Hn Hlt Hbefore.
  assert (Hdata : is_height_lock lock = true /\ data = name ++ [35] ++ show_u32 lock).
  { unfold encode_fidelity_op_return in Henc. destruct (is_height_lock lock); [|done].
    injection Henc as <-. split; [done|]. destruct suffixed; [by rewrite strip_suffix_app|].
    rewrite strip_suffix_nodot; [done|]. intros Hin. rewrite list.Forall_forall in Hname.
    destruct (Hname 46 Hin) as (? & ? & ?). done. }
  destruct Hdata as [Hh ->]. unfold process_fidelity. destruct (Z.eqb_spec (lock_time tx) 0); [done|].
  unfold in_range. destruct (Z.leb_spec 2 (zlen (output tx))), (Z.leb_spec (zlen (output tx)) 5); try lia.
  cbn [andb negb]. rewrite Hout. set (data := name ++ [35] ++ show_u32 lock) in *.
  assert (Hpos : 1 <= zlen data).
  { unfold data. rewrite zlen_app. pose proof (zlen_nonneg name). cbn [app]. rewrite zlen_cons.
    pose proof (zlen_nonneg (show_u32 lock)). lia. }
  assert (Hex : extract_op_return_data (106 :: zlen data :: data) = Some data).
  { unfold extract_op_return_data. cbn.
    destruct (Z.leb_spec 1 (zlen data)), (Z.leb_spec (zlen data) 75); try lia. cbn.
    unfold get_range. replace (106 :: zlen data :: data) with ([106; zlen data] ++ data ++ []) by (by rewrite app_nil_r).
    apply slice_middle; [done|]. unfold zlen. rewrite Nat2Z.id. done. }
  clear Hout. induction before as [|x before IH]; cbn [app first_announcement].
  - cbn [script_pubkey]. rewrite Hex. cbn.
    unfold data. rewrite parse_announcement; [done|done|done|].
    unfold is_height_lock in Hh. apply Z.ltb_lt in Hh. lia.
  - cbn [first_announcement] in Hbefore. destruct (extract_op_return_data (script_pubkey x) ≫= _); [done|by apply IH].
Qed.

(** ** A sample maker *)
#[local] Existing Instance Reference.lib.
#[local] Existing Instance Reference.laws.
Module BondSample.
#[export] Instance cert : CertLib := {|
  fmt_outpoint o := [op_txid o; 58; op_vout o];
  fmt_pubkey k := inner k;
  fmt_lock_time l := [l];
  fmt_amount a := [a];
  serialize_varint n := [n];
  sha256d := Reference.mix;
  derive_pub p cc path :=
    match path with [_; i] => Some (point_from_secret_key (1000 + i)) | _ => None end;
|}.
#[export] Instance cert_laws : CertLaws cert.
Proof.
  intros p cc path q. destruct path as [|x [|i [|y l]]]; try done.
  intros [= <-]. exact (@point_from_secret_key_valid Reference.lib Reference.laws (1000 + i)).
Qed.

Definition tweak_point : PublicKey := {| compressed := true; inner := point_from_secret_key 7 |}.
#[export] Instance keys : BondKeys := {|
  fidelity_secret i := Ok (1000 + i);
  tweakable_keypair := Ok (7, tweak_point, [9]);
|}.
#[export] Instance key_laws : BondKeyLaws cert keys.
Proof. intros i k sk tp cc [= <-] [= <- <- <-]. done. Qed.

Definition tx_to (outs : list TxOut) : Transaction :=
  {| version := 2; lock_time := 100; input := []; output := outs |}.
#[export] Instance world : BondWorld () := {|
  bw_block_count := mret 100;
  bw_header_time h := mret (h * 600);
  bw_now d := (60000, d);
  bw_is_tx_unknown t := mret false;
  bw_send_tx tx := mret (compute_txid tx);
  bw_coin_select amount rate spk := mret [];
  bw_spend_coins coins dst rate :=
    mret (tx_to match dst with
                | Sweep a => [{| value := 0; script_pubkey := a |}]
                | Multi outs op _ => map (fun p => {| value := p.2; script_pubkey := p.1 |}) outs
                end);
  bw_next_internal_address t := mret [81];
|}.
#[export] Instance world_laws : BondWorldLaws world.
Proof.
  split; [|done|done]. intros coins outs op ch rate w tx w' [= <- <-] i a v Hi. cbn.
  by rewrite list_lookup_fmap, Hi.
Qed.
#[export] Instance file : WalletFile () := {| write_wallet_file st := mret () |}.

Definition onion : bytes := str "abc.onion".
Definition fresh : Wallet () := {| wl_store := WalletStore_init; wl_outside := () |}.
Definition created := create_fidelity 50000 15100 (Some onion) (f64_of_Z 2) P2TR fresh.
Definition confirmed := update_fidelity_bond_conf_details 0 101 created.2.
Definition bond : FidelityBond :=
  {| fb_outpoint := {| op_txid := 5; op_vout := 0 |}; fb_amount := 50000; fb_lock_time := 15100;
     fb_pubkey := {| compressed := true; inner := point_from_secret_key 1000 |};
     fb_conf_height := Some 101; fb_is_spent := false; fb_bond_index := 0; fb_tx := None |}.
Definition bond_output : TxOut :=
  {| value := 50000; script_pubkey := 0 :: 32 :: wscript_hash (fb_redeem_script bond) |}.
Definition proof : FidelityProof :=
  let h := generate_cert_hash bond onion tweak_point in
  {| fp_bond := bond; fp_cert_hash := h; fp_cert_sig := ecdsa_sign h 1000 |}.
Definition redeem_tx : Transaction :=
  {| version := 2; lock_time := 15101;
     input := [{| previous_output := fb_outpoint bond; script_sig := []; sequence := 0; witness := [] |}];
     output := [{| value := 49000; script_pubkey := [81] |}] |}.
Definition owner : Wallet () := {| fresh with wl_store :=
  {| WalletStore_init with wst_fidelity_bond := [bond] |} |}.
Definition announced : Transaction :=
  tx_to [bond_output; {| value := 0; script_pubkey := 106 :: 9 :: str "abc#15100" |}].
End BondSample.
Import (hints) BondSample.

Lemma accepted_bond_is_locked_witness :
  exists o, output (BondSample.tx_to [BondSample.bond_output]) !! 0%nat = Some o /\ value o = 50000 /\
    forall spend i rest items,
      input spend = i :: rest -> rev (witness i) = fb_redeem_script BondSample.bond :: items ->
      bond_spendable spend o = true -> 101 + MIN_FIDELITY_TIMELOCK <= lock_time spend.
Proof.
  destruct (accepted_bond_is_locked BondSample.cert_laws BondSample.proof BondSample.onion
    (BondSample.tx_to [BondSample.bond_output]) 200 101 BondSample.tweak_point [9]) as (o & Ho & Hv & Hspend);
    [lia|vm_compute; reflexivity|].
  exists o. split; [exact Ho|]. split; [exact Hv|]. intros spend i rest items Hi Hw Hs.
  by destruct (Hspend spend i rest items Hi Hw Hs).
Defined.

Lemma created_bond_is_accepted_iff_witness :
  exists tx proof, generate_fidelity_proof 0 BondSample.onion BondSample.confirmed.2 =
      (Ok proof, BondSample.confirmed.2) /\
    verify_fidelity_checks proof BondSample.onion tx 200 101 BondSample.tweak_point [9] = Ok ().
Proof.
  destruct BondSample.created as [r w1] eqn:Ec.
  assert (r = Ok (0, compute_txid (BondSample.tx_to [{| value := 50000; script_pubkey :=
     0 :: 32 :: wscript_hash (fidelity_redeemscript 15100 {| compressed := true; inner := point_from_secret_key 1000 |}) |}]))) as ->.
  { change r with (r, w1).1. rewrite <- Ec. vm_compute. reflexivity. }
  destruct BondSample.confirmed as [u w2] eqn:Eu.
  assert (u = Ok ()) as ->.
  { change u with (u, w2).1. rewrite <- Eu. vm_compute. reflexivity. }
  unfold BondSample.confirmed in Eu. rewrite Ec in Eu.
  destruct (created_bond_is_accepted_iff BondSample.world_laws BondSample.key_laws 50000 15100
    BondSample.onion (f64_of_Z 2) P2TR BondSample.fresh w1 w2 0 _ 101 () 7 BondSample.tweak_point [9] Ec
    ltac:(done) ltac:(done) Eu eq_refl) as (tx & proof & _ & Hg & _ & Hv).
  exists tx, proof. split; [exact Hg|]. apply Hv; [split; done|]. unfold MIN_FIDELITY_TIMELOCK, MAX_FIDELITY_TIMELOCK. lia.
Defined.

Lemma minimum_timelock_bond_is_never_accepted_witness :
  check_fidelity_timelock MIN_FIDELITY_TIMELOCK = Ok () /\
  verify_fidelity_checks {| BondSample.proof with fp_bond :=
      {| BondSample.bond with fb_lock_time := 13060 |} |} BondSample.onion
    (BondSample.tx_to [BondSample.bond_output]) 200 101 BondSample.tweak_point [9] <> Ok ().
Proof.
  apply (minimum_timelock_bond_is_never_accepted 100 13060); [vm_compute; reflexivity|reflexivity|lia].
Defined.

Lemma expired_bond_can_be_redeemed_witness :
  exists wit, sign_fidelity_input BondSample.redeem_tx 0 0 50000 BondSample.owner = (Ok wit, BondSample.owner) /\
    bond_spendable (set_witness wit BondSample.redeem_tx) BondSample.bond_output = true.
Proof.
  apply (expired_bond_can_be_redeemed BondSample.owner 0 BondSample.bond 1000 15101 BondSample.redeem_tx
    {| previous_output := fb_outpoint BondSample.bond; script_sig := []; sequence := 0; witness := [] |}
    BondSample.bond_output); try reflexivity; unfold LOCK_TIME_THRESHOLD; cbn; lia.
Defined.

Lemma bond_announcement_round_trips_witness :
  process_fidelity BondSample.announced =
    Some {| fa_onion := str "abc.onion"; fa_expires_at_height := 15100 |}.
Proof.
  apply (bond_announcement_round_trips (str "abc") true 15100 (str "abc#15100") [BondSample.bond_output] []);
    try reflexivity; try discriminate; try (vm_compute; intuition discriminate).
  repeat constructor; vm_compute; discriminate.
Defined.
