(* ===== verification/ChainWait.v ===== *)
(** Waiting for confirmations: [wait_for_tx_confirmation] of src/wallet/api.rs.

    The node, the clock and the shutdown flag are the class [ChainClock] over an
    arbitrary world [D].  Instants are nanoseconds.  The loop has a fuel of
    rounds; [ClockLaws] (time does not run backwards, a sleep lasts at least as
    long as asked) make [WAIT_ROUNDS] of them enough, because the pauses between
    rounds grow until the deadline of [TX_CONFIRMATION_TIMEOUT] has passed. *)
From S2P Require Import Prelude Bitcoin Messages Errors.
#[local] Open Scope string_scope.
#[local] Open Scope list_scope.
#[local] Open Scope Z_scope.

Definition SECOND : Z := 1000000000.
Definition TX_BROADCAST_TIMEOUT : Z := 120 * SECOND.
Definition TX_CONFIRMATION_TIMEOUT : Z := 3600 * SECOND.

Class ChainClock (D : Type) := {
  cc_now : D -> Z;
  cc_sleep : Z -> D -> D;
  cc_shutdown : D -> bool;
  (** [get_raw_transaction_info(txid).confirmations] *)
  cc_tx_confirmations : Txid -> stateful D WalletError (option Z);
  cc_tx_block_height : Txid -> stateful D WalletError (option Z);
}.

(** What a pass over the transactions carries. *)
Record WaitPass := {
  wp_unseen : gset Txid;
  wp_vanished_at : gmap Txid Z;
  wp_all_confirmed : bool;
  wp_max_confirm_height : Z;
}.

Section wait.
Context `{ChainClock D}.
Abbreviation chain_op := (stateful D WalletError).

(** [shutdown] says whether a flag was passed, [abort_check] is the closure. *)
Context (shutdown : bool) (abort_check : option (D -> bool)).

Definition check_interrupt : chain_op () := fun d =>
  if shutdown && cc_shutdown d then (Err (WE_Interrupted "Shutdown requested"), d)
  else if (match abort_check with Some f => f d | None => false end)
  then (Err (WE_Interrupted "Abort requested"), d)
  else (Ok (), d).

(** [for _ in 0..total_sleep]. *)
Fixpoint sleep_seconds (n : nat) : chain_op () :=
  match n with
  | O => mret ()
  | S n => check_interrupt ≫= fun _ => modify (cc_sleep SECOND) ≫= fun _ => sleep_seconds n
  end.

Section pass.
Context (required_confirms arrival_timeout : Z).

(** The body of [for txid in txids]. *)
Definition poll_tx (p : WaitPass) (txid : Txid) : chain_op WaitPass :=
  attempt (cc_tx_confirmations txid) ≫= fun r =>
  match r with
  | inl confirmations =>
      let confirms := default 0 confirmations in
      let p := {| p with wp_unseen := wp_unseen p ∖ {[txid]} |} in
      if confirms <? required_confirms then mret {| p with wp_all_confirmed := false |}
      else
        cc_tx_block_height txid ≫= fun height =>
        lift (ok_or height (WE_General "Confirmed transaction {txid} has no block height")) ≫= fun h =>
        mret {| p with wp_max_confirm_height := Z.max (wp_max_confirm_height p) (wrap 32 h) |}
  | inr _ =>
      gets cc_now ≫= fun now =>
      if bool_decide (txid ∈ wp_unseen p) then mret {| p with wp_all_confirmed := false |}
      else
        let first := default now (wp_vanished_at p !! txid) in
        if arrival_timeout <? now - first
        then lift (Err (WE_TxConfirmationTimeout "Tx vanished from our mempool and did not reappear"))
        else mret {| p with wp_vanished_at := <[txid := first]> (wp_vanished_at p); wp_all_confirmed := false |}
  end.

(** The pause after the [n]-th round, in seconds. *)
Definition backoff (attempt_no : Z) : Z := Z.min (saturating_mul 64 10 attempt_no) 600.

(** The loop; [None] when the fuel ran out while it was still turning. *)
Fixpoint wait_loop (fuel : nat) (txids : list Txid) (started attempt_no : Z) (unseen : gset Txid)
    (vanished_at : gmap Txid Z) : chain_op (option Z) :=
  match fuel with
  | O => mret None
  | S fuel =>
      check_interrupt ≫= fun _ =>
      gets cc_now ≫= fun now =>
      lift (reject (TX_CONFIRMATION_TIMEOUT <? now - started)
        (WE_TxConfirmationTimeout "Tx did not confirm before the confirmation deadline")) ≫= fun _ =>
      let attempt_no := saturating_add 64 attempt_no 1 in
      st_fold poll_tx {| wp_unseen := unseen; wp_vanished_at := vanished_at; wp_all_confirmed := true;
                         wp_max_confirm_height := 0 |} txids ≫= fun p =>
      gets cc_now ≫= fun now =>
      lift (reject (negb (bool_decide (wp_unseen p = ∅)) && (arrival_timeout <? now - started))
        (WE_TxConfirmationTimeout "Tx did not reach our mempool before the broadcast timeout")) ≫= fun _ =>
      if wp_all_confirmed p then mret (Some (wp_max_confirm_height p))
      else
        sleep_seconds (Z.to_nat (backoff attempt_no)) ≫= fun _ =>
        wait_loop fuel txids started attempt_no (wp_unseen p) (wp_vanished_at p)
  end.
End pass.

Definition WAIT_ROUNDS : nat := 28.

Definition wait_for_tx_confirmation (txids : list Txid) (required_confirms arrival_timeout : Z)
    : chain_op (option Z) :=
  if (required_confirms =? 0) || bool_decide (txids = []) then mret (Some 0)
  else
    gets cc_now ≫= fun started =>
    wait_loop required_confirms arrival_timeout WAIT_ROUNDS txids started 0 (list_to_set txids) ∅.
End wait.

(** ** The clock *)
Class ClockLaws (D : Type) `{ChainClock D} : Prop := {
  sleep_advances n d : cc_now d + n <= cc_now (cc_sleep n d);
  confirmations_monotone txid d : cc_now d <= cc_now (cc_tx_confirmations txid d).2;
  block_height_monotone txid d : cc_now d <= cc_now (cc_tx_block_height txid d).2;
}.

Section clock.
Context `{ClockLaws D} (shutdown : bool) (abort_check : option (D -> bool)).

(** Operations in the course of which time does not run backwards. *)
Definition timely {A} (m : stateful D WalletError A) : Prop := forall d, cc_now d <= cc_now (m d).2.

Lemma timely_ret {A} (a : A) : timely (mret a).
Proof. by intros d. Qed.
Lemma timely_lift {A} (m : outcome WalletError A) : timely (lift m).
Proof. by intros d. Qed.
Lemma timely_gets {A} (f : D -> A) : timely (gets f).
Proof. by intros d. Qed.
Lemma timely_interrupt : timely (check_interrupt shutdown abort_check).
Proof. intros d. unfold check_interrupt. by repeat case_match. Qed.
Lemma timely_bind {A B} (m : stateful D WalletError A) (f : A -> stateful D WalletError B) :
  timely m -> (forall a, timely (f a)) -> timely (m ≫= f).
Proof.
  intros Hm Hf d. specialize (Hm d). unfold mbind, stateful_bind.
  destruct (m d) as [[a|e|] d1]; cbn in *; [|done..]. specialize (Hf a d1). lia.
Qed.
Lemma timely_attempt {A} (m : stateful D WalletError A) : timely m -> timely (attempt m).
Proof. intros Hm d. specialize (Hm d). unfold attempt. by destruct (m d) as [[a|e|] d1]. Qed.
Lemma timely_fold {A B} (f : B -> A -> stateful D WalletError B) acc xs :
  (forall b x, timely (f b x)) -> timely (st_fold f acc xs).
Proof.
  intros Hf. revert acc. induction xs as [|x xs IH]; intros acc; [apply timely_ret|].
  apply timely_bind; auto.
Qed.

Lemma timely_poll rc arr p txid : timely (poll_tx rc arr p txid).
Proof.
  apply timely_bind; [apply timely_attempt; intros d; apply confirmations_monotone|].
  intros [c|e].
  - cbv zeta. case_match; [apply timely_ret|].
    apply timely_bind; [intros d; apply block_height_monotone|]. intros h.
    apply timely_bind; [apply timely_lift|]. intros v. apply timely_ret.
  - apply timely_bind; [apply timely_gets|]. intros now. case_match; [apply timely_ret|].
    cbv zeta. case_match; [apply timely_lift|apply timely_ret].
Qed.

(** A completed pause lasts at least as long as asked. *)
Lemma sleep_seconds_lasts n d u d' :
  sleep_seconds shutdown abort_check n d = (Ok u, d') -> cc_now d + Z.of_nat n * SECOND <= cc_now d'.
Proof.
  revert d. induction n as [|n IH]; intros d; cbn [sleep_seconds].
  - intros [= <- <-]. lia.
  - intros ([] & d1 & Hc & Hrest)%st_bind_Ok. apply st_bind_Ok in Hrest as ([] & d2 & Hs & Hrest).
    pose proof (timely_interrupt d) as Ht. rewrite Hc in Ht. cbn in Ht.
    injection Hs as <-. apply IH in Hrest. pose proof (sleep_advances SECOND d1). lia.
Qed.

(** ** Every wait ends

    Round [n] is preceded by pauses of 10, 20, ... seconds. *)
Fixpoint slept (n : nat) : Z := match n with O => 0 | S n => slept n + Z.min (10 * Z.of_nat (S n)) 600 end.

Lemma backoff_value n :
  (n < 100)%nat -> backoff (saturating_add 64 (Z.of_nat n) 1) = Z.min (10 * Z.of_nat (S n)) 600.
Proof.
  intros Hn. unfold backoff, saturating_mul, saturating_add.
  assert (1000000 < 2 ^ 64 - 1) by reflexivity. lia.
Qed.

Lemma wait_loop_out_of_fuel rc arr fuel n txids started unseen vanished d d' :
  (n + fuel <= 100)%nat ->
  started + slept n * SECOND <= cc_now d ->
  wait_loop shutdown abort_check rc arr fuel txids started (Z.of_nat n) unseen vanished d = (Ok None, d') ->
  fuel = 0%nat \/ slept (n + fuel - 1)%nat <= 3600.
Proof.
  revert n unseen vanished d. induction fuel as [|fuel IH]; intros n unseen vanished d Hn Hd; [by left|].
  cbn [wait_loop]. intros ([] & d1 & Hc & Hr)%st_bind_Ok. right.
  pose proof (timely_interrupt d) as Ht. rewrite Hc in Ht. cbn in Ht.
  apply st_bind_Ok in Hr as (now & d2 & [= <- <-] & Hr).
  apply st_bind_Ok in Hr as ([] & d3 & [Hdead ->]%lift_Ok & Hr). apply reject_Ok, Z.ltb_ge in Hdead.
  assert (slept n <= 3600) as Hslept by (unfold TX_CONFIRMATION_TIMEOUT, SECOND in *; lia).
  cbv zeta in Hr. apply st_bind_Ok in Hr as (p & d4 & Hfold & Hr).
  assert (Hf : cc_now d1 <= cc_now d4).
  { epose proof (timely_fold (poll_tx rc arr) _ txids (timely_poll rc arr) d1) as Hf. rewrite Hfold in Hf. exact Hf. }
  apply st_bind_Ok in Hr as (now2 & d5 & [= <- <-] & Hr).
  apply st_bind_Ok in Hr as ([] & d6 & [_ ->]%lift_Ok & Hr).
  destruct (wp_all_confirmed p); [done|]. apply st_bind_Ok in Hr as ([] & d7 & Hsl & Hr).
  apply sleep_seconds_lasts in Hsl. rewrite backoff_value in Hsl by lia.
  replace (saturating_add 64 (Z.of_nat n) 1) with (Z.of_nat (S n)) in Hr
    by (unfold saturating_add; assert (1000000 < 2 ^ 64 - 1) by reflexivity; lia).
  apply IH in Hr; [|lia|].
  - destruct Hr as [->|Hr]; [by replace (n + 1 - 1)%nat with n by lia|].
    by replace (n + S fuel - 1)%nat with (S n + fuel - 1)%nat by lia.
  - cbn [slept]. lia.
Qed.

(** Twenty-eight rounds outlast the deadline. *)
Lemma wait_never_out_of_fuel (txids : list Txid) (required_confirms arrival_timeout : Z) (d d' : D) :
  wait_for_tx_confirmation shutdown abort_check txids required_confirms arrival_timeout d <> (Ok None, d').
Proof.
  intros E.
  unfold wait_for_tx_confirmation in E. destruct (_ || _); [done|].
  apply st_bind_Ok in E as (now & d1 & [= <- <-] & E).
  apply (wait_loop_out_of_fuel _ _ _ 0) in E; [|unfold WAIT_ROUNDS; lia|cbn; lia].
  destruct E as [E|E]; [done|]. vm_compute in E. done.
Qed.
End clock.

(** ** What a returned height means

    A history of the world: any preorder along which every call moves. *)
Class Moves {D : Type} (R : D -> D -> Prop) `{ChainClock D} : Prop := {
  moves_preorder :: PreOrder R;
  moves_sleep n d : R d (cc_sleep n d);
  moves_confirmations txid d : R d (cc_tx_confirmations txid d).2;
  moves_block_height txid d : R d (cc_tx_block_height txid d).2;
}.

(** Some time between [d] and [d'] the call returned [a]. *)
Definition answered {D A} (R : D -> D -> Prop) (op : stateful D WalletError A) (a : A) (d d' : D) : Prop :=
  exists d0 d1, R d d0 /\ op d0 = (Ok a, d1) /\ R d1 d'.

Lemma answered_mono {D A} (R : D -> D -> Prop) `{!PreOrder R} (op : stateful D WalletError A) a d0 d d' d1 :
  R d0 d -> R d' d1 -> answered R op a d d' -> answered R op a d0 d1.
Proof. intros H0 H1 (x & y & Hx & Hop & Hy). exists x, y. split; [by etrans|]. split; [done|by etrans]. Qed.

Section soundness.
Context `{ChainClock D} (R : D -> D -> Prop) `{!Moves R} (shutdown : bool) (abort_check : option (D -> bool)).

(** The transaction was seen with enough confirmations, mined at a height that
    fits in 32 bits as [h]. *)
Definition seen_confirmed (required_confirms : Z) (txid : Txid) (h : Z) (d d' : D) : Prop :=
  exists confirmations height,
    answered R (cc_tx_confirmations txid) confirmations d d' /\
    required_confirms <= default 0 confirmations /\
    answered R (cc_tx_block_height txid) (Some height) d d' /\ h = wrap 32 height.

Lemma seen_confirmed_mono rc txid h d0 d d' d1 :
  R d0 d -> R d' d1 -> seen_confirmed rc txid h d d' -> seen_confirmed rc txid h d0 d1.
Proof.
  intros H0 H1 (c & v & Hc & ? & Hv & ?). exists c, v.
  split; [by apply (answered_mono R _ c d0 d d' d1)|]. split; [done|].
  split; [by apply (answered_mono R _ (Some v) d0 d d' d1)|done].
Qed.

Definition moving {A} (m : stateful D WalletError A) : Prop := forall d, R d (m d).2.

Lemma moving_interrupt : moving (check_interrupt shutdown abort_check).
Proof. intros d. unfold check_interrupt. by repeat case_match. Qed.

Lemma moving_bind {A B} (m : stateful D WalletError A) (f : A -> stateful D WalletError B) :
  moving m -> (forall a, moving (f a)) -> moving (m ≫= f).
Proof.
  intros Hm Hf d. specialize (Hm d). unfold mbind, stateful_bind.
  destruct (m d) as [[a|e|] d1]; cbn in *; [|done..]. etrans; [exact Hm|apply Hf].
Qed.

Lemma moving_attempt {A} (m : stateful D WalletError A) : moving m -> moving (attempt (E' := WalletError) m).
Proof. intros Hm d. specialize (Hm d). unfold attempt. by destruct (m d) as [[a|e|] d1]. Qed.

Lemma moving_sleep n : moving (sleep_seconds shutdown abort_check n).
Proof.
  induction n as [|n IH]; [by intros d|]. apply moving_bind; [apply moving_interrupt|]. intros _.
  apply moving_bind; [|done]. intros d. apply moves_sleep.
Qed.

Lemma poll_tx_spec rc arr p txid d p' d' :
  poll_tx rc arr p txid d = (Ok p', d') ->
  R d d' /\ wp_max_confirm_height p <= wp_max_confirm_height p' /\
  (wp_all_confirmed p' = true ->
     wp_all_confirmed p = true /\
     exists h, seen_confirmed rc txid h d d' /\
       wp_max_confirm_height p' = Z.max (wp_max_confirm_height p) h).
Proof.
  unfold poll_tx. intros (r & d1 & Ha & Hr)%st_bind_Ok. unfold attempt in Ha.
  pose proof (moves_confirmations txid d) as Hm.
  destruct (cc_tx_confirmations txid d) as [[c|e|] d1'] eqn:Ec; [| |done]; injection Ha as <- <-; cbn in Hm.
  - cbv zeta in Hr. destruct (Z.ltb_spec (default 0 c) rc); [by injection Hr as <- <-|].
    apply st_bind_Ok in Hr as (hgt & d2 & Hh & Hr). apply st_bind_Ok in Hr as (v & d3 & Hv & Hr).
    apply lift_Ok in Hv as [->%ok_or_Ok ->]. injection Hr as <- <-.
    pose proof (moves_block_height txid d1') as Hm2. rewrite Hh in Hm2. cbn in Hm2 |- *.
    split; [by etrans|]. split; [lia|]. intros Hall. split; [done|]. exists (wrap 32 v). split; [|done].
    exists c, v. split; [exists d, d1'; by repeat split|]. split; [done|]. split; [|done].
    exists d1', d2. by repeat split.
  - apply st_bind_Ok in Hr as (now & d2 & [= <- <-] & Hr). case_match; [by injection Hr as <- <-|].
    cbv zeta in Hr. case_match; [done|]. by injection Hr as <- <-.
Qed.

Lemma poll_all_confirmed rc arr txids p d p' d' :
  st_fold (poll_tx rc arr) p txids d = (Ok p', d') -> wp_all_confirmed p' = true -> wp_all_confirmed p = true.
Proof.
  revert p d. induction txids as [|t ts IH]; intros p d; cbn [st_fold]; [by intros [= -> ->]|].
  intros (p2 & d2 & Hp & Hr)%st_bind_Ok Hall. apply poll_tx_spec in Hp as (_ & _ & Hp).
  by apply Hp, (IH p2 d2).
Qed.

Lemma poll_all_spec rc arr txids : forall p d p' d',
  st_fold (poll_tx rc arr) p txids d = (Ok p', d') ->
  R d d' /\ wp_max_confirm_height p <= wp_max_confirm_height p' /\
  (wp_all_confirmed p' = true ->
     exists hs, Forall2 (fun txid h => seen_confirmed rc txid h d d') txids hs /\
       wp_max_confirm_height p' = foldr Z.max (wp_max_confirm_height p) hs).
Proof.
  induction txids as [|txid txids IH]; intros p d p' d'; cbn [st_fold].
  - intros [= <- <-]. split; [done|]. split; [done|]. intros _. exists []. by split.
  - intros (p1 & d1 & H1 & H2)%st_bind_Ok. apply poll_tx_spec in H1 as (Hm1 & Hle1 & H1).
    pose proof H2 as H2'. apply IH in H2 as (Hm2 & Hle2 & H2). split; [by etrans|]. split; [lia|].
    intros Hall. destruct (H2 Hall) as (hs & Hhs & Hmax).
    destruct (H1 (poll_all_confirmed _ _ _ _ _ _ _ H2' Hall)) as (_ & h & Hh & Hmax1). exists (h :: hs). split.
    + constructor.
      * by apply (seen_confirmed_mono rc txid h d d d1 d').
      * eapply Forall2_impl; [exact Hhs|]. intros t h'. by apply seen_confirmed_mono.
    + cbn. rewrite Hmax, Hmax1. clear. induction hs as [|x hs IH]; cbn; lia.
Qed.

Lemma moving_poll rc arr p txid : moving (poll_tx rc arr p txid).
Proof.
  apply moving_bind; [apply moving_attempt; intros d; apply moves_confirmations|].
  intros [c|e]; cbv zeta; [case_match; [by intros d|]; apply moving_bind|].
  - intros d. apply moves_block_height.
  - intros h. apply moving_bind; [by intros d0|]. intros v d0. done.
  - apply moving_bind; [by intros d|]. intros now. repeat case_match; by intros d.
Qed.

Lemma moving_fold rc arr txids : forall p, moving (st_fold (poll_tx rc arr) p txids).
Proof.
  induction txids as [|t ts IH]; intros p; [by intros d|]. apply moving_bind; [apply moving_poll|apply IH].
Qed.

Lemma wait_loop_spec rc arr fuel txids : forall started n unseen vanished d h d',
  wait_loop shutdown abort_check rc arr fuel txids started n unseen vanished d = (Ok (Some h), d') ->
  exists hs, Forall2 (fun txid h => seen_confirmed rc txid h d d') txids hs /\ h = foldr Z.max 0 hs.
Proof.
  induction fuel as [|fuel IH]; intros started n unseen vanished d h d'; cbn [wait_loop]; [done|].
  intros ([] & d1 & Hc & Hr)%st_bind_Ok. pose proof (moving_interrupt d) as Hm. rewrite Hc in Hm. cbn in Hm.
  apply st_bind_Ok in Hr as (now & d2 & [= <- <-] & Hr).
  apply st_bind_Ok in Hr as ([] & d3 & [_ ->]%lift_Ok & Hr). cbv zeta in Hr.
  apply st_bind_Ok in Hr as (p & d4 & Hfold & Hr). apply poll_all_spec in Hfold as (Hm2 & _ & Hp).
  apply st_bind_Ok in Hr as (now2 & d5 & [= <- <-] & Hr).
  apply st_bind_Ok in Hr as ([] & d6 & [_ ->]%lift_Ok & Hr).
  assert (Hlift : forall d0 hs, R d d0 -> Forall2 (fun txid h => seen_confirmed rc txid h d0 d') txids hs ->
            Forall2 (fun txid h => seen_confirmed rc txid h d d') txids hs).
  { intros d0 hs H0 Hhs. eapply Forall2_impl; [exact Hhs|]. intros t h'. by apply seen_confirmed_mono. }
  destruct (wp_all_confirmed p).
  - injection Hr as <- <-. destruct Hp as (hs & Hhs & ->); [done|]. exists hs. split; [by eapply Hlift|done].
  - apply st_bind_Ok in Hr as ([] & d7 & Hsl & Hr). epose proof (moving_sleep _ d4) as Hm3.
    rewrite Hsl in Hm3. cbn in Hm3. apply IH in Hr as (hs & Hhs & ->). exists hs.
    split; [|done]. eapply Hlift; [|done]. by repeat (etrans; [eassumption|]).
Qed.
End soundness.

(** Waiting for confirmations ends, and what it returns is true.  Whatever
    the node answers and however the transactions come and go, a wait never turns
    for longer than its deadline allows; when it returns a height, the node has
    reported, since the wait began, every one of the transactions with the
    required number of confirmations, and the height is the largest of the
    heights it gave for them. *)
Lemma confirmation_wait_is_sound `{ClockLaws D} (R : D -> D -> Prop) `{!Moves R} shutdown abort_check
    (txids : list Txid) (required_confirms arrival_timeout : Z) (d d' : D) (r : outcome WalletError (option Z)) :
  wait_for_tx_confirmation shutdown abort_check txids required_confirms arrival_timeout d = (r, d') ->
  r <> Ok None /\
  forall h, r = Ok (Some h) -> required_confirms <> 0 ->
    exists hs, Forall2 (fun txid h => seen_confirmed R required_confirms txid h d d') txids hs /\
      h = foldr Z.max 0 hs.
Proof.
  intros Hrun. split; [intros ->; by eapply wait_never_out_of_fuel|]. intros h -> Hrc.
  unfold wait_for_tx_confirmation in Hrun. destruct (Z.eqb_spec required_confirms 0); [done|].
  case_bool_decide as Ht; cbn [orb] in Hrun; [subst; exists []; by injection Hrun as <- <-|].
  apply st_bind_Ok in Hrun as (now & d1 & [= <- <-] & Hrun). by eapply wait_loop_spec.
Qed.

(** ** A concrete node

    Time in nanoseconds, and the instant and height at which each transaction is
    mined; a block follows every ten minutes. *)
Record TestNode := { tn_now : Z; tn_mined : gmap Txid (Z * Z); tn_down : bool }.

Definition tn_confirmations (txid : Txid) (d : TestNode) : option Z :=
  match tn_mined d !! txid with
  | Some (at_time, _) => if tn_now d <? at_time then None else Some (1 + (tn_now d - at_time) / (600 * SECOND))
  | None => None
  end.

#[export] Instance TestNode_clock : ChainClock TestNode := {|
  cc_now := tn_now;
  cc_sleep n d := {| d with tn_now := tn_now d + n |};
  cc_shutdown := tn_down;
  cc_tx_confirmations txid d :=
    (match tn_mined d !! txid with
     | Some _ => Ok (tn_confirmations txid d)
     | None => Err (WE_General "no such transaction")
     end, d);
  cc_tx_block_height txid d := (Ok (snd <$> tn_mined d !! txid), d);
|}.
#[export] Instance TestNode_laws : ClockLaws TestNode.
Proof. split; intros; cbn; lia. Qed.

(** The mined transactions stay what they are. *)
#[export] Instance TestNode_moves : Moves (fun d d' : TestNode => tn_mined d' = tn_mined d).
Proof.
  split; [|done..]. split; [by intros d|]. intros a b c Hab Hbc. by rewrite Hbc.
Qed.

(** Mined after five minutes: found on the seventh look, at height 700. *)
Lemma confirmation_wait_is_sound_witness :
  let node := {| tn_now := 0; tn_mined := {[ 7 := (300 * SECOND, 700) ]}; tn_down := false |} in
  let run := wait_for_tx_confirmation true None [7] 1 TX_BROADCAST_TIMEOUT node in
  run.1 = Ok (Some 700) /\ tn_now run.2 = 360 * SECOND /\
  exists hs, Forall2 (fun txid h => seen_confirmed (fun d d' : TestNode => tn_mined d' = tn_mined d) 1 txid h node run.2)
    [7] hs /\ 700 = foldr Z.max 0 hs.
Proof.
  intros node run.
  assert (run.1 = Ok (Some 700)) as Hr by (vm_compute; reflexivity).
  split; [exact Hr|]. split; [vm_compute; reflexivity|].
  apply (confirmation_wait_is_sound (fun d d' : TestNode => tn_mined d' = tn_mined d) true None [7] 1
           TX_BROADCAST_TIMEOUT node run.2 run.1); [apply surjective_pairing|exact Hr|done].
Defined.
