(* ===== verification/WalletRecovery.v ===== *)
(** Recovery of swap coins: [sweep_incoming_swapcoins],
    [recover_timelocked_swapcoins] and what they call, of src/wallet/api.rs.

    Both work on the wallet behind its lock and on a connection to the node.  The
    node, the clock, key derivation and the wallet sync are the class
    [RecoveryChain] over a world [D]; the lock is a flag that says whether it is
    poisoned.  The functions take and release the lock several times; what
    other threads do in between is not part of this model. *)
From S2P Require Import Prelude Float64 Bitcoin Messages Contract Errors SwapCoin TaprootLib Taproot WalletStore ChainWait.
#[local] Open Scope string_scope.
#[local] Open Scope list_scope.
#[local] Open Scope Z_scope.

Class RecoveryChain (D : Type) {file : WalletFile D} := {
  rc_clock :: ChainClock D;
  (** [get_tx_out(txid, vout, include_mempool)]: the confirmations of an unspent output. *)
  rc_get_tx_out : Txid -> Z -> option bool -> stateful D WalletError (option Z);
  rc_is_confirmed_spend : OutPoint -> Script -> stateful D WalletError bool;
  rc_send_raw_transaction : Transaction -> stateful D WalletError Txid;
  rc_get_block_count : stateful D WalletError Z;
  rc_derive_addresses : AddressType -> Z -> Z -> stateful D WalletError (list Script);
  rc_require_network : Script -> bool;
  (** The randomness of two MuSig2 nonces. *)
  rc_nonces : D -> (Z * Z) * D;
  rc_sync_and_save : stateful (Wallet D) WalletError ();
}.

(** The wallet behind its [RwLock]. *)
Record SharedWallet (D : Type) := { sw_wallet : Wallet D; sw_poisoned : bool }.
Arguments sw_wallet {D} _.
Arguments sw_poisoned {D} _.
Arguments Build_SharedWallet {D} _ _.

Record RecoveryOutcome := { ro_resolved : list (Txid * Txid); ro_discarded : list Txid }.
Definition RecoveryOutcome_default : RecoveryOutcome := {| ro_resolved := []; ro_discarded := [] |}.
Definition ro_is_empty (o : RecoveryOutcome) : bool :=
  bool_decide (ro_resolved o = []) && bool_decide (ro_discarded o = []).

Inductive ContractChainState := OnChain | Discarded | NotYet.

Section recovery.
Context {lib : BitcoinLib} {tap : TaprootLib} {hi : HashIter} {D : Type} {file : WalletFile D} {rc : RecoveryChain D}.
Abbreviation chain_op := (stateful D WalletError).
Abbreviation wallet_op := (stateful (Wallet D) WalletError).
Abbreviation shared := (stateful (SharedWallet D) WalletError).

(** ** Access *)
Definition lock_shared : shared () := fun s => (reject (sw_poisoned s) (WE_General "wallet lock poisoned"), s).
Definition in_shared {A} (op : wallet_op A) : shared A := fun s =>
  let '(r, w) := op (sw_wallet s) in (r, {| s with sw_wallet := w |}).
Definition in_chain {A} (op : chain_op A) : shared A := in_shared (in_outside op).

Definition modify_store (f : WalletStore -> WalletStore) : wallet_op () :=
  modify (fun w => {| w with wl_store := f (wl_store w) |}).

(** The wait of the recovery paths: one confirmation, the shutdown flag passed,
    no abort closure.  It does not run out of fuel ([ChainWait]). *)
Definition wait_confirmed (txid : Txid) : chain_op Z :=
  wait_for_tx_confirmation true None [txid] 1 TX_BROADCAST_TIMEOUT ≫= fun r => lift (expect r).

Definition get_next_internal_addresses (count : Z) (address_type : AddressType) : wallet_op (list Script) :=
  if count =? 0 then mret []
  else
    gets (fun w => wst_internal_index (wl_store w)) ≫= fun start =>
    in_outside (rc_derive_addresses address_type start (wrap 32 (start + count - 1))) ≫= fun addresses =>
    modify_store (fun st => {| st with wst_internal_index := wrap 32 (wst_internal_index st + count) |}) ≫= fun _ =>
    save_to_disk ≫= fun _ =>
    mret addresses.

(** ** Outgoing coins *)
Definition ensure_contract_on_chain (swapcoin : OutgoingSwapCoin) : chain_op ContractChainState :=
  let contract_txid := compute_txid (osc_contract_tx swapcoin) in
  let contract_vout := osc_get_contract_output_vout swapcoin in
  rc_get_tx_out contract_txid contract_vout (Some false) ≫= fun confirmed =>
  if bool_decide (confirmed <> None) then mret OnChain
  else
    cc_tx_block_height contract_txid ≫= fun height =>
    if bool_decide (height <> None) then
      lift (expect (output (osc_contract_tx swapcoin) !! Z.to_nat contract_vout)) ≫= fun o =>
      rc_is_confirmed_spend {| op_txid := contract_txid; op_vout := contract_vout |} (script_pubkey o) ≫= fun spent : bool =>
      mret (if spent then Discarded else NotYet)
    else
      lift (expect (input (osc_contract_tx swapcoin) !! 0%nat)) ≫= fun i =>
      let input_outpoint := previous_output i in
      rc_get_tx_out (op_txid input_outpoint) (op_vout input_outpoint) (Some true) ≫= fun input_out =>
      if bool_decide (input_out <> None) && bool_decide (osc_protocol swapcoin = Taproot) then mret Discarded
      else
        match osc_create_signed_contract_tx swapcoin with
        | Panic => lift Panic
        | Err _ => mret NotYet
        | Ok signed_contract_tx =>
            attempt (rc_send_raw_transaction signed_contract_tx) ≫= fun sent =>
            match sent with
            | inl _ => mret OnChain
            | inr _ =>
                rc_get_tx_out contract_txid contract_vout (Some true) ≫= fun contract_out =>
                if bool_decide (contract_out <> None) then mret OnChain
                else
                  rc_get_tx_out (op_txid input_outpoint) (op_vout input_outpoint) (Some true) ≫= fun input_out =>
                  mret (if bool_decide (input_out = None) then Discarded else NotYet)
            end
        end.

Definition create_timelock_recovery_tx (swapcoin : OutgoingSwapCoin) (fee_rate : f64) (recovery_address : Script)
    : outcome WalletError Transaction :=
  timelock ← ok_or (osc_get_timelock swapcoin) (WE_General "Could not extract timelock from swapcoin");
  let contract_txid := compute_txid (osc_contract_tx swapcoin) in
  let contract_vout := osc_get_contract_output_vout swapcoin in
  contract_output ← ok_or (output (osc_contract_tx swapcoin) !! Z.to_nat contract_vout)
                      (WE_General "No output in contract tx");
  let vsize := contract_and_timelock_vsize (osc_protocol swapcoin) Timelock in
  let fee := f64_to_u64 (f64_mul (f64_of_Z vsize) fee_rate) in
  output_amount ← ok_or (checked_sub (value contract_output) fee)
                    (WE_General "Insufficient funds for recovery fee");
  let '(lock, seq) :=
    match osc_protocol swapcoin with
    | Taproot => (if timelock <? 500000000 then timelock else 0, 4294967294)
    | Legacy => (0, wrap 16 timelock)
    end in
  sign_timelock_recovery swapcoin
    {| version := 2; lock_time := lock;
       input := [{| previous_output := {| op_txid := contract_txid; op_vout := contract_vout |};
                    script_sig := []; sequence := seq; witness := [] |}];
       output := [{| value := output_amount; script_pubkey := recovery_address |}] |}.

(** [recovery_address_or_else]. *)
Definition recovery_address_or_else {S} (stored : option Script) (create : stateful S WalletError Script)
    : stateful S WalletError (Script * bool) :=
  match stored with
  | Some address => mret (address, false)
  | None => create ≫= fun address => mret (address, true)
  end.

Definition set_recovery_address (address : Script) (c : OutgoingSwapCoin) : OutgoingSwapCoin :=
  {| c with osc_recovery_address := Some address |}.

(** The destination of a refund: the one stored with the coin, or a fresh one
    that is stored before it is used. *)
Definition recovery_destination (key : Txid) : wallet_op Script :=
  gets (fun w => wst_outgoing_swapcoins (wl_store w) !! key ≫= osc_recovery_address) ≫= fun stored =>
  recovery_address_or_else stored
    (get_next_internal_addresses 1 P2TR ≫= fun addresses => lift (expect (addresses !! 0%nat))) ≫= fun p : Script * bool =>
  (if p.2 then
     gets (fun w => wst_outgoing_swapcoins (wl_store w) !! key) ≫= fun coin =>
     lift (ok_or coin (WE_General "outgoing swapcoin {} disappeared during recovery")) ≫= fun _ =>
     modify_store (fun st => {| st with wst_outgoing_swapcoins :=
       alter (set_recovery_address p.1) key (wst_outgoing_swapcoins st) |}) ≫= fun _ =>
     save_to_disk
   else mret ()) ≫= fun _ =>
  lift (reject (negb (rc_require_network p.1)) (WE_General "invalid recovery address network: {e}")) ≫= fun _ =>
  mret p.1.

Definition timelock_candidates (w : WalletStore) : list (Txid * OutgoingSwapCoin * Z) :=
  omap (fun p => (fun timelock => (p.1, p.2, timelock)) <$> osc_get_timelock p.2)
    (filter (fun p => osc_my_privkey p.2 <> None) (hash_iter (wst_outgoing_swapcoins w))).

Definition ready_for_recovery (current_height : Z) (c : Txid * OutgoingSwapCoin * Z) : bool :=
  match osc_protocol c.1.2 with Taproot => c.2 <=? current_height | Legacy => true end.

Record TimelockScan := { ts_resolved : list (Txid * Txid); ts_discarded : list Txid }.

(** From the confirmation check to the recorded recovery of one coin. *)
Definition refund_coin (fee_rate : f64) (scan : TimelockScan) (key : Txid) (swapcoin : OutgoingSwapCoin) (timelock : Z)
    : shared TimelockScan :=
  let contract_txid := compute_txid (osc_contract_tx swapcoin) in
  let required_confirmations := match osc_protocol swapcoin with Taproot => 1 | Legacy => timelock end in
  in_chain (rc_get_tx_out contract_txid (osc_get_contract_output_vout swapcoin) (Some false)) ≫= fun utxo =>
  match utxo with
  | None => mret scan
  | Some confirmations =>
      if confirmations <? required_confirmations then mret scan
      else
        lock_shared ≫= fun _ =>
        in_shared (recovery_destination key) ≫= fun recovery_address =>
        match create_timelock_recovery_tx swapcoin fee_rate recovery_address with
        | Panic => lift Panic
        | Err _ => mret scan
        | Ok recovery_tx =>
            in_chain (attempt (rc_send_raw_transaction recovery_tx)) ≫= fun sent =>
            match sent with
            | inr _ => mret scan
            | inl txid =>
                in_chain (wait_confirmed txid) ≫= fun _ =>
                lock_shared ≫= fun _ =>
                in_shared (modify_store (remove_outgoing_swapcoin key)) ≫= fun _ =>
                mret {| scan with ts_resolved := ts_resolved scan ++ [(contract_txid, txid)] |}
            end
        end
  end.

Definition recover_coin (fee_rate : f64) (scan : TimelockScan) (c : Txid * OutgoingSwapCoin * Z) : shared TimelockScan :=
  let '(key, swapcoin, timelock) := c in
  in_chain (ensure_contract_on_chain swapcoin) ≫= fun state =>
  match state with
  | OnChain => refund_coin fee_rate scan key swapcoin timelock
  | Discarded => mret {| scan with ts_discarded := ts_discarded scan ++ [key] |}
  | NotYet => mret scan
  end.

(** [for id in &discarded]. *)
Definition drop_discarded (key : Txid) (acc : list Txid * WalletStore) : list Txid * WalletStore :=
  (match wst_outgoing_swapcoins acc.2 !! key with
   | Some sc => acc.1 ++ [compute_txid (osc_contract_tx sc)]
   | None => acc.1
   end, remove_outgoing_swapcoin key acc.2).

Definition finish_recovery (scan : TimelockScan) : shared RecoveryOutcome :=
  lock_shared ≫= fun _ =>
  in_shared (gets wl_store) ≫= fun store =>
  let '(discarded, store) := fold_left (fun acc key => drop_discarded key acc) (ts_discarded scan) ([], store) in
  in_shared (modify_store (fun _ => store)) ≫= fun _ =>
  let o := {| ro_resolved := ts_resolved scan; ro_discarded := discarded |} in
  (if negb (ro_is_empty o) || negb (bool_decide (ts_discarded scan = []))
   then in_shared save_to_disk else mret ()) ≫= fun _ =>
  mret o.

Definition recover_timelocked_swapcoins (fee_rate : f64) : shared RecoveryOutcome :=
  lock_shared ≫= fun _ =>
  in_shared (gets (fun w => timelock_candidates (wl_store w))) ≫= fun candidates =>
  match candidates with
  | [] => mret RecoveryOutcome_default
  | _ =>
      in_shared rc_sync_and_save ≫= fun _ =>
      in_chain rc_get_block_count ≫= fun height =>
      let current_height := wrap 32 height in
      let to_recover := filter (fun c => ready_for_recovery current_height c = true) candidates in
      st_fold (recover_coin fee_rate) {| ts_resolved := []; ts_discarded := [] |} to_recover ≫= fun scan =>
      finish_recovery scan
  end.

(** ** Incoming coins *)
Definition is_completed (contract_txids : option (list Txid)) (c : IncomingSwapCoin) : bool :=
  (bool_decide (isc_other_privkey c <> None) || bool_decide (isc_hash_preimage c <> None))
  && match contract_txids with
     | Some txids => bool_decide (compute_txid (isc_contract_tx c) ∈ txids)
     | None => true
     end.

(** The output to spend and its value; [None] skips the coin. *)
Definition sweep_input (c : IncomingSwapCoin) : option (Txid * Z * Amount) :=
  match isc_protocol c with
  | Legacy =>
      if bool_decide (isc_other_privkey c <> None) then
        (fun i => (op_txid (previous_output i), op_vout (previous_output i), isc_funding_amount c))
          <$> input (isc_contract_tx c) !! 0%nat
      else
        (fun o => (compute_txid (isc_contract_tx c), 0, value o)) <$> output (isc_contract_tx c) !! 0%nat
  | Taproot =>
      let vout := match list_find (fun o => value o = isc_funding_amount c) (output (isc_contract_tx c)) with
                  | Some (i, _) => wrap 32 (Z.of_nat i)
                  | None => 0
                  end in
      Some (compute_txid (isc_contract_tx c), vout, isc_funding_amount c)
  end.

(** [matches!(get_tx_out(..), Ok(Some(_)))]. *)
Definition output_seen (txid : Txid) (vout : Z) (include_mempool : option bool) : chain_op bool :=
  attempt (rc_get_tx_out txid vout include_mempool) ≫= fun r =>
  mret (match r with inl (Some _) => true | _ => false end).

Definition is_interrupted (e : WalletError) : bool :=
  match e with WE_Interrupted _ => true | _ => false end.

(** Whether the output can be spent now: confirmed, confirmed after a wait, or
    put on chain by broadcasting the contract; [false] skips the coin. *)
Definition ensure_available (c : IncomingSwapCoin) (utxo_txid : Txid) (utxo_vout : Z) : chain_op bool :=
  output_seen utxo_txid utxo_vout (Some false) ≫= fun utxo_confirmed : bool =>
  if utxo_confirmed then mret true
  else
    output_seen utxo_txid utxo_vout None ≫= fun in_mempool : bool =>
    if in_mempool then
      attempt (wait_confirmed utxo_txid) ≫= fun r =>
      match r with
      | inl _ => mret true
      | inr e => if is_interrupted e then lift (Err e) else mret false
      end
    else if bool_decide (isc_other_privkey c = None) && bool_decide (isc_others_contract_sig c <> None) then
      match isc_create_signed_contract_tx c with
      | Panic => lift Panic
      | Err _ => mret false
      | Ok signed_contract_tx =>
          attempt (rc_send_raw_transaction signed_contract_tx) ≫= fun sent =>
          match sent with
          | inl _ => output_seen utxo_txid utxo_vout (Some true)
          | inr _ => mret false
          end
      end
    else mret false.

(** Marks of the scripts that swept coins pay to: a [HashSet]. *)
Definition mark_swept (spk : Script) (w : WalletStore) : WalletStore :=
  {| w with wst_swept_incoming_swapcoins :=
       if bool_decide (spk ∈ wst_swept_incoming_swapcoins w) then wst_swept_incoming_swapcoins w
       else spk :: wst_swept_incoming_swapcoins w |}.
Definition unmark_swept (spk : Script) (w : WalletStore) : WalletStore :=
  {| w with wst_swept_incoming_swapcoins :=
       filter (fun s => s <> spk) (wst_swept_incoming_swapcoins w) |}.

(** A fresh internal address, marked as a sweep target. *)
Definition sweep_destination : wallet_op Script :=
  get_next_internal_addresses 1 P2TR ≫= fun addresses =>
  lift (expect (addresses !! 0%nat)) ≫= fun addr =>
  modify_store (mark_swept addr) ≫= fun _ => mret addr.

(** The spend of a coin, to the payment receiver or to this wallet, with the
    internal address it was given. *)
Definition sweep_spend (c : IncomingSwapCoin) (input_value : Amount) (feerate : f64)
    : shared (option Script * outcome WalletError Transaction) :=
  (fun s => let '(n, d) := rc_nonces (wl_outside (sw_wallet s)) in
            (Ok n, {| s with sw_wallet := {| (sw_wallet s) with wl_outside := d |} |})) ≫= fun r =>
  match isc_payment_target c with
  | Some target =>
      mret (None, sign_spend_transaction_with_output_value (sign_taproot_spend r.1 r.2) c input_value
                    (pt_amount target) (pt_script_pubkey target))
  | None =>
      lock_shared ≫= fun _ =>
      in_shared sweep_destination ≫= fun address =>
      mret (Some address, sign_spend_transaction (sign_taproot_spend r.1 r.2) c input_value address feerate)
  end.

Definition unmark_on_failure (addr : option Script) : shared () :=
  match addr with
  | Some addr => lock_shared ≫= fun _ => in_shared (modify_store (unmark_swept addr))
  | None => mret ()
  end.

Definition sweep_coin (feerate : f64) (resolved : list (Txid * Txid)) (p : Txid * IncomingSwapCoin)
    : shared (list (Txid * Txid)) :=
  let '(key, c) := p in
  match sweep_input c with
  | None => mret resolved
  | Some (utxo_txid, utxo_vout, input_value) =>
      in_chain (ensure_available c utxo_txid utxo_vout) ≫= fun available : bool =>
      if available then
        sweep_spend c input_value feerate ≫= fun x =>
        match x.2 with
        | Panic => lift Panic
        | Err _ => unmark_on_failure x.1 ≫= fun _ => mret resolved
        | Ok spend_tx =>
            in_chain (attempt (rc_send_raw_transaction spend_tx)) ≫= fun sent =>
            match sent with
            | inr _ => unmark_on_failure x.1 ≫= fun _ => mret resolved
            | inl txid =>
                in_chain (wait_confirmed txid) ≫= fun _ =>
                lock_shared ≫= fun _ =>
                in_shared (modify_store (fun st => (remove_incoming_swapcoin key st).2)) ≫= fun _ =>
                mret (resolved ++ [(compute_txid (isc_contract_tx c), txid)])
            end
        end
      else mret resolved
  end.

Definition sweep_incoming_swapcoins (feerate : f64) (contract_txids : option (list Txid)) : shared RecoveryOutcome :=
  lock_shared ≫= fun _ =>
  in_shared (gets (fun w => filter (fun p => is_completed contract_txids p.2 = true)
                              (hash_iter (wst_incoming_swapcoins (wl_store w))))) ≫= fun completed_swapcoins =>
  match completed_swapcoins with
  | [] => mret RecoveryOutcome_default
  | _ =>
      in_shared rc_sync_and_save ≫= fun _ =>
      st_fold (sweep_coin feerate) [] completed_swapcoins ≫= fun resolved =>
      lock_shared ≫= fun _ =>
      in_shared save_to_disk ≫= fun _ =>
      mret {| ro_resolved := resolved; ro_discarded := [] |}
  end.
End recovery.
