(* ===== verification/RecoverySafety.v ===== *)
(** What recovery may forget.

    The records of swap coins hold the only copies of the keys and signatures
    that get the money back, so the question for both recovery functions of
    [WalletRecovery] is when they delete a record, on every path, failures
    included.  The answers of the node are the evidence: [answered R op a d d'] of
    [ChainWait] says that between the worlds [d] and [d'] the node was asked [op]
    and answered [a], for every history [R] along which the calls move. *)
From S2P Require Import Prelude Float64 Bitcoin Messages Contract Errors SwapCoin ScriptEval TaprootLib Taproot WalletStore ChainWait WalletRecovery.
#[local] Open Scope string_scope.
#[local] Open Scope list_scope.
#[local] Open Scope Z_scope.

(** A history of the world along which every call of the recovery moves. *)
Class RecoveryMoves {D : Type} {file : WalletFile D} {rc : RecoveryChain D} (R : D -> D -> Prop) : Prop := {
  rm_clock :: Moves R;
  rm_get_tx_out txid vout m d : R d (rc_get_tx_out txid vout m d).2;
  rm_is_confirmed_spend o spk d : R d (rc_is_confirmed_spend o spk d).2;
  rm_send tx d : R d (rc_send_raw_transaction tx d).2;
  rm_block_count d : R d (rc_get_block_count d).2;
  rm_derive ty a b d : R d (rc_derive_addresses ty a b d).2;
  rm_nonces d : R d (rc_nonces d).2;
  rm_write st d : R d (write_wallet_file st d).2;
  rm_sync w : R (wl_outside w) (wl_outside (rc_sync_and_save w).2);
}.

(** The sync touches the caches, not the swap coins. *)
Class SyncKeepsCoins (D : Type) {file : WalletFile D} {rc : RecoveryChain D} : Prop :=
  sync_keeps_coins w :
    wst_outgoing_swapcoins (wl_store (rc_sync_and_save w).2) = wst_outgoing_swapcoins (wl_store w) /\
    wst_incoming_swapcoins (wl_store (rc_sync_and_save w).2) = wst_incoming_swapcoins (wl_store w).

Section safety.
Context {lib : BitcoinLib} {tap : TaprootLib} {hi : HashIter} {hil : HashIterLaws hi} {D : Type}
  {file : WalletFile D} {rc : RecoveryChain D} (R : D -> D -> Prop) {rm : RecoveryMoves R} {sk : SyncKeepsCoins D}.

Abbreviation out s := (wl_outside (sw_wallet s)).
Abbreviation store s := (wl_store (sw_wallet s)).
Abbreviation outgoing s := (wst_outgoing_swapcoins (store s)).
Abbreviation incoming s := (wst_incoming_swapcoins (store s)).

(** ** Evidence *)
Definition contract_of (c : OutgoingSwapCoin) : OutPoint :=
  {| op_txid := compute_txid (osc_contract_tx c); op_vout := osc_get_contract_output_vout c |}.

Definition asked_output (o : OutPoint) (mempool : bool) (r : option Z) (d d' : D) : Prop :=
  answered R (rc_get_tx_out (op_txid o) (op_vout o) (Some mempool)) r d d'.

Definition required_confirmations (c : OutgoingSwapCoin) (timelock : Z) : Z :=
  match osc_protocol c with Taproot => 1 | Legacy => timelock end.

(** The refund of the coin was sent once its output was old enough, and mined. *)
Definition refunded (fee_rate : f64) (c : OutgoingSwapCoin) (d d' : D) : Prop :=
  exists timelock confirmations address tx txid height,
    osc_get_timelock c = Some timelock /\
    asked_output (contract_of c) false (Some confirmations) d d' /\ required_confirmations c timelock <= confirmations /\
    create_timelock_recovery_tx c fee_rate address = Ok tx /\
    answered R (rc_send_raw_transaction tx) txid d d' /\ answered R (wait_confirmed txid) height d d'.

(** The contract is mined and its output spent by a mined transaction. *)
Definition spent_by_confirmed (c : OutgoingSwapCoin) (d d' : D) : Prop :=
  exists height o,
    answered R (cc_tx_block_height (op_txid (contract_of c))) (Some height) d d' /\
    output (osc_contract_tx c) !! Z.to_nat (op_vout (contract_of c)) = Some o /\
    answered R (rc_is_confirmed_spend (contract_of c) (script_pubkey o)) true d d'.

(** A taproot contract that is not mined and whose wallet input is unspent. *)
Definition never_funded (c : OutgoingSwapCoin) (d d' : D) : Prop :=
  exists i u, osc_protocol c = Taproot /\ input (osc_contract_tx c) !! 0%nat = Some i /\
    answered R (cc_tx_block_height (op_txid (contract_of c))) None d d' /\
    asked_output (previous_output i) true (Some u) d d'.

(** The node refuses the signed contract, does not know its output and has its
    input as spent. *)
Definition contract_impossible (c : OutgoingSwapCoin) (d d' : D) : Prop :=
  exists i tx e, input (osc_contract_tx c) !! 0%nat = Some i /\ osc_create_signed_contract_tx c = Ok tx /\
    answered R (attempt (E' := WalletError) (rc_send_raw_transaction tx)) (inr e) d d' /\
    asked_output (contract_of c) true None d d' /\ asked_output (previous_output i) true None d d'.

Definition discardable (c : OutgoingSwapCoin) (d d' : D) : Prop :=
  spent_by_confirmed c d d' \/ never_funded c d d' \/ contract_impossible c d d'.

Lemma refunded_mono fee_rate c d0 d d' d1 : R d0 d -> R d' d1 -> refunded fee_rate c d d' -> refunded fee_rate c d0 d1.
Proof.
  intros H0 H1 (t & n & a & tx & txid & h & Ht & Hn & ? & ? & Hs & Hw). exists t, n, a, tx, txid, h.
  repeat split; try done; by apply (answered_mono R _ _ d0 d d' d1).
Qed.

Lemma discardable_mono c d0 d d' d1 : R d0 d -> R d' d1 -> discardable c d d' -> discardable c d0 d1.
Proof.
  intros H0 H1 [(h & o & Hh & Ho & Hs)|[(i & u & Hp & Hi & Hh & Hu)|(i & tx & e & Hi & Htx & Hs & Hc & Hu)]].
  - left. exists h, o. repeat split; try done; by apply (answered_mono R _ _ d0 d d' d1).
  - right; left. exists i, u. repeat split; try done; by apply (answered_mono R _ _ d0 d d' d1).
  - right; right. exists i, tx, e. repeat split; try done; by apply (answered_mono R _ _ d0 d d' d1).
Qed.

(** ** Steps *)
Lemma in_chain_run {A} (op : stateful D WalletError A) s r s' :
  in_chain op s = (r, s') -> op (out s) = (r, out s') /\ store s' = store s.
Proof. unfold in_chain, in_shared, in_outside. destruct (op (out s)) as [r1 d1]. by intros [= <- <-]. Qed.

Lemma in_shared_run {A} (op : stateful (Wallet D) WalletError A) s r s' :
  in_shared op s = (r, s') -> op (sw_wallet s) = (r, sw_wallet s').
Proof. unfold in_shared. destruct (op (sw_wallet s)) as [r1 w1]. by intros [= <- <-]. Qed.

Lemma lock_shared_run (s : SharedWallet D) r s' : lock_shared s = (r, s') -> s' = s.
Proof. by intros [= _ <-]. Qed.

Lemma answered_here {A} (op : stateful D WalletError A) a d d' :
  op d = (Ok a, d') -> answered R op a d d'.
Proof. intros Hop. exists d, d'. by repeat split. Qed.

Lemma moving_in {A} (op : stateful D WalletError A) d r d' : moving R op -> op d = (r, d') -> R d d'.
Proof. intros Hm Hop. specialize (Hm d). by rewrite Hop in Hm. Qed.

Lemma moving_wait shutdown abort txids rq arr : moving R (wait_for_tx_confirmation shutdown abort txids rq arr).
Proof.
  unfold wait_for_tx_confirmation. case_match; [by intros d|]. apply (moving_bind R); [by intros d|]. intros started.
  generalize WAIT_ROUNDS. intros fuel. generalize 0, (list_to_set txids : gset Txid), (∅ : gmap Txid Z).
  induction fuel as [|fuel IH]; intros n unseen vanished; cbn [wait_loop]; [by intros d|].
  apply (moving_bind R); [apply (moving_interrupt R)|]. intros _. apply (moving_bind R); [by intros d|]. intros now.
  apply (moving_bind R); [by intros d|]. intros _. apply (moving_bind R); [apply (moving_fold R)|]. intros p.
  apply (moving_bind R); [by intros d|]. intros now2. apply (moving_bind R); [by intros d|]. intros _.
  case_match; [by intros d|]. apply (moving_bind R); [apply (moving_sleep R)|]. intros _. apply IH.
Qed.

Lemma moving_wait_confirmed txid : moving R (wait_confirmed txid).
Proof. apply (moving_bind R); [apply moving_wait|]. intros r. by intros d. Qed.

Lemma moving_ensure c : moving R (ensure_contract_on_chain c).
Proof.
  apply (moving_bind R); [intros d; apply rm_get_tx_out|]. intros conf. case_match; [by intros d|].
  apply (moving_bind R); [intros d; apply moves_block_height|]. intros h. case_match.
  - apply (moving_bind R); [by intros d|]. intros o.
    apply (moving_bind R); [intros d; apply rm_is_confirmed_spend|]. intros b. by intros d.
  - apply (moving_bind R); [by intros d|]. intros i. apply (moving_bind R); [intros d; apply rm_get_tx_out|]. intros u.
    case_match; [by intros d|]. case_match; [|by intros d..].
    apply (moving_bind R); [apply (moving_attempt R); intros d; apply rm_send|]. intros [x|e]; [by intros d|].
    apply (moving_bind R); [intros d; apply rm_get_tx_out|]. intros v. case_match; [by intros d|].
    apply (moving_bind R); [intros d; apply rm_get_tx_out|]. intros w. by intros d.
Qed.

(** A coin is found discardable only with the evidence for it. *)
Lemma ensure_discarded c d d' : ensure_contract_on_chain c d = (Ok Discarded, d') -> discardable c d d'.
Proof.
  unfold ensure_contract_on_chain. intros (conf & d1 & H1 & Hr)%st_bind_Ok. case_bool_decide; [done|].
  pose proof (moving_in _ _ _ _ (rm_get_tx_out _ _ _) H1) as M1.
  apply st_bind_Ok in Hr as (h & d2 & H2 & Hr).
  pose proof (moving_in _ _ _ _ (moves_block_height _) H2) as M2. case_bool_decide as Hh.
  - apply st_bind_Ok in Hr as (o & d3 & [Ho%expect_Ok ->]%lift_Ok & Hr).
    apply st_bind_Ok in Hr as (b & d4 & H4 & Hr). destruct b; [|done]. injection Hr as ->. left.
    destruct h as [h|]; [|done]. exists h, o.
    pose proof (moving_in _ _ _ _ (rm_is_confirmed_spend _ _) H4) as M4.
    split; [apply (answered_mono R _ _ d d1 d2 d'); [done..|by apply answered_here]|]. split; [done|].
    apply (answered_mono R _ _ d d2 d' d'); [by etrans|done|by apply answered_here].
  - subst h.
    apply st_bind_Ok in Hr as (i & d3 & [Hi%expect_Ok ->]%lift_Ok & Hr).
    apply st_bind_Ok in Hr as (u & d4 & H4 & Hr). pose proof (moving_in _ _ _ _ (rm_get_tx_out _ _ _) H4) as M4.
    assert (R d d2) as M12 by by etrans. case_bool_decide as Hu; [case_bool_decide as Hp|]; cbn [andb] in Hr.
    1: { injection Hr as ->. right; left. destruct u as [u|]; [|done]. exists i, u. split; [done|]. split; [done|].
         split; [apply (answered_mono R _ _ d d1 d2 d'); [done..|by apply answered_here]|].
         apply (answered_mono R _ _ d d2 d' d'); [done..|by apply answered_here]. }
    all: destruct (osc_create_signed_contract_tx c) as [tx|e|] eqn:Htx; [|done..].
    all: apply st_bind_Ok in Hr as (snt & d5 & H5 & Hr);
      pose proof (moving_in _ _ _ _ (moving_attempt R _ (rm_send tx)) H5) as M5;
      destruct snt as [?|e]; [done|].
    all: apply st_bind_Ok in Hr as (v & d6 & H6 & Hr);
      pose proof (moving_in _ _ _ _ (rm_get_tx_out _ _ _) H6) as M6;
      case_bool_decide as Hv; [done|]; subst v.
    all: apply st_bind_Ok in Hr as (w & d7 & H7 & Hr);
      pose proof (moving_in _ _ _ _ (rm_get_tx_out _ _ _) H7) as M7;
      case_bool_decide as Hw; [|done]; subst w; injection Hr as ->.
    all: right; right; exists i, tx, e; split; [done|]; split; [done|]; repeat split.
    all: first
      [ apply (answered_mono R _ _ d d4 d5 d'); [by etrans|by etrans|by apply answered_here]
      | apply (answered_mono R _ _ d d5 d6 d'); [etrans; [exact M12|by etrans]|done|by apply answered_here]
      | apply (answered_mono R _ _ d d6 d' d');
          [etrans; [exact M12|etrans; [exact M4|by etrans]]|done|by apply answered_here] ].
Qed.

(** ** Steps that lose nothing

    At most the destination of a refund is written into a coin. *)
Definition coin_kept (c c' : OutgoingSwapCoin) : Prop := exists a, c' = {| c with osc_recovery_address := a |}.
Lemma coin_kept_trans c1 c2 c3 : coin_kept c1 c2 -> coin_kept c2 c3 -> coin_kept c1 c3.
Proof. intros [a ->] [b ->]. by exists b. Qed.
Lemma coin_kept_refl c : coin_kept c c.
Proof. exists (osc_recovery_address c). by destruct c. Qed.

Definition slot_kept (x y : option OutgoingSwapCoin) : Prop :=
  match x, y with
  | Some c, Some c' => coin_kept c c'
  | None, None => True
  | _, _ => False
  end.

Definition keeps_coins (w w' : Wallet D) : Prop :=
  R (wl_outside w) (wl_outside w') /\
  wst_incoming_swapcoins (wl_store w') = wst_incoming_swapcoins (wl_store w) /\
  forall k, slot_kept (wst_outgoing_swapcoins (wl_store w) !! k) (wst_outgoing_swapcoins (wl_store w') !! k).

#[local] Instance slot_kept_preorder : PreOrder slot_kept.
Proof.
  split.
  - intros [c|]; [|done]. exists (osc_recovery_address c). by destruct c.
  - intros [c|] [c1|] [c2|] H1 H2; try done. destruct H1 as [a ->], H2 as [b ->]. by exists b.
Qed.

#[local] Instance keeps_coins_preorder : PreOrder keeps_coins.
Proof.
  split.
  - intros w. split; [done|]. split; [done|]. intros k. done.
  - intros w1 w2 w3 (M1 & I1 & S1) (M2 & I2 & S2). split; [by etrans|]. split; [by rewrite I2|].
    intros k. etrans; [apply S1|apply S2].
Qed.

Definition gentle {A} (m : stateful (Wallet D) WalletError A) : Prop := forall w, keeps_coins w (m w).2.

Lemma gentle_bind {A B} (m : stateful (Wallet D) WalletError A) (f : A -> stateful (Wallet D) WalletError B) :
  gentle m -> (forall a, gentle (f a)) -> gentle (m ≫= f).
Proof.
  intros Hm Hf w. specialize (Hm w). unfold mbind, stateful_bind.
  destruct (m w) as [[a|e|] w1]; cbn in *; [|done..]. etrans; [exact Hm|apply Hf].
Qed.
Lemma gentle_pure {A} (m : stateful (Wallet D) WalletError A) : (forall w, (m w).2 = w) -> gentle m.
Proof. intros Hm w. by rewrite Hm. Qed.
Lemma gentle_outside {A} (op : stateful D WalletError A) : moving R op -> gentle (in_outside op).
Proof.
  intros Hop w. specialize (Hop (wl_outside w)). unfold in_outside. destruct (op (wl_outside w)) as [r d].
  split; [done|]. split; [done|]. intros k. cbn. reflexivity.
Qed.
Lemma gentle_save : gentle save_to_disk.
Proof.
  intros w. unfold save_to_disk. pose proof (rm_write (wl_store w) (wl_outside w)) as Hw.
  destruct (write_wallet_file (wl_store w) (wl_outside w)) as [r d].
  split; [done|]. split; [done|]. intros k. cbn. reflexivity.
Qed.
Lemma gentle_store f :
  (forall st, wst_incoming_swapcoins (f st) = wst_incoming_swapcoins st /\
     forall k, slot_kept (wst_outgoing_swapcoins st !! k) (wst_outgoing_swapcoins (f st) !! k)) ->
  gentle (modify_store f).
Proof.
  intros Hf w. destruct (Hf (wl_store w)) as [Hi Ho]. split; [reflexivity|]. split; [exact Hi|exact Ho].
Qed.

Lemma gentle_addresses n ty : gentle (get_next_internal_addresses n ty).
Proof.
  unfold get_next_internal_addresses. case_match; [by apply gentle_pure|].
  apply gentle_bind; [by apply gentle_pure|]. intros start.
  apply gentle_bind; [apply gentle_outside; intros d; apply rm_derive|]. intros addresses.
  apply gentle_bind; [by apply gentle_store|]. intros _.
  apply gentle_bind; [apply gentle_save|]. intros _. by apply gentle_pure.
Qed.

Lemma gentle_destination key : gentle (recovery_destination key).
Proof.
  apply gentle_bind; [by apply gentle_pure|]. intros stored. apply gentle_bind.
  { unfold recovery_address_or_else. destruct stored as [a|]; [by apply gentle_pure|].
    apply gentle_bind; [|intros; by apply gentle_pure].
    apply gentle_bind; [apply gentle_addresses|]. intros addresses. by apply gentle_pure. }
  intros p. apply gentle_bind.
  { case_match; [|by apply gentle_pure]. apply gentle_bind; [by apply gentle_pure|]. intros coin.
    apply gentle_bind; [by apply gentle_pure|]. intros _. apply gentle_bind; [|intros _; apply gentle_save].
    apply gentle_store. intros st. split; [done|]. intros k. cbn.
    destruct (decide (k = key)) as [->|Hk]; [|by rewrite lookup_alter_ne].
    rewrite lookup_alter_eq. destruct (wst_outgoing_swapcoins st !! key) as [c|]; [|done].
    cbn. by exists (Some p.1). }
  intros _. apply gentle_bind; [by apply gentle_pure|]. intros _. by apply gentle_pure.
Qed.

Lemma gentle_shared {A} (op : stateful (Wallet D) WalletError A) s r s' :
  gentle op -> in_shared op s = (r, s') -> keeps_coins (sw_wallet s) (sw_wallet s').
Proof. intros Hop Hrun%in_shared_run. specialize (Hop (sw_wallet s)). by rewrite Hrun in Hop. Qed.

Lemma gentle_chain {A} (op : stateful D WalletError A) s r s' :
  moving R op -> in_chain op s = (r, s') -> keeps_coins (sw_wallet s) (sw_wallet s').
Proof. intros Hop. apply gentle_shared. by apply gentle_outside. Qed.

(** ** The refund of one coin

    Either nothing is lost and nothing reported, or the refund is mined, reported
    and the record deleted. *)
Definition refund_done (fee_rate : f64) (key : Txid) (c : OutgoingSwapCoin) (scan : TimelockScan)
    (s : SharedWallet D) (r : outcome WalletError TimelockScan) (s' : SharedWallet D) : Prop :=
  exists txid w1, keeps_coins (sw_wallet s) w1 /\
    sw_wallet s' = {| w1 with wl_store := remove_outgoing_swapcoin key (wl_store w1) |} /\
    r = Ok {| scan with ts_resolved := ts_resolved scan ++ [(compute_txid (osc_contract_tx c), txid)] |} /\
    refunded fee_rate c (out s) (out s').

Lemma refund_coin_spec fee_rate scan key c timelock s r s' :
  osc_get_timelock c = Some timelock ->
  refund_coin fee_rate scan key c timelock s = (r, s') ->
  (keeps_coins (sw_wallet s) (sw_wallet s') /\ (is_ok r = true -> r = Ok scan)) \/
  refund_done fee_rate key c scan s r s'.
Proof.
  intros Ht. unfold refund_coin. cbv zeta. unfold mbind at 1, stateful_bind at 1.
  destruct (in_chain (rc_get_tx_out _ _ _) s) as [[u|e|] s1] eqn:E1; 
    pose proof (gentle_chain _ _ _ _ (rm_get_tx_out _ _ _) E1) as K1; [|by intros [= <- <-]; left..].
  destruct u as [n|]; [|by intros [= <- <-]; left]. destruct (Z.ltb_spec n (match osc_protocol c with Legacy => timelock | Taproot => 1 end)) as [|Hn];
    [by intros [= <- <-]; left|].
  unfold mbind at 1, stateful_bind at 1. destruct (lock_shared s1) as [[[]|e|] s2] eqn:E2;
    apply lock_shared_run in E2 as ->; [|by intros [= <- <-]; left..].
  unfold mbind at 1, stateful_bind at 1.
  destruct (in_shared (recovery_destination key) s1) as [[a|e|] s3] eqn:E3;
    pose proof (gentle_shared _ _ _ _ (gentle_destination key) E3) as K3;
    [|intros [= <- <-]; left; split; [by etrans|done]..].
  assert (keeps_coins (sw_wallet s) (sw_wallet s3)) as K03 by by etrans.
  destruct (create_timelock_recovery_tx c fee_rate a) as [tx|e|] eqn:Htx; [|by intros [= <- <-]; left..].
  unfold mbind at 1, stateful_bind at 1.
  destruct (in_chain (attempt (rc_send_raw_transaction tx)) s3) as [[x|e|] s4] eqn:E4;
    pose proof (gentle_chain _ _ _ _ (moving_attempt R _ (rm_send tx)) E4) as K4;
    [|intros [= <- <-]; left; split; [by etrans|done]..].
  assert (keeps_coins (sw_wallet s) (sw_wallet s4)) as K04 by by etrans.
  destruct x as [txid|e]; [|by intros [= <- <-]; left].
  unfold mbind at 1, stateful_bind at 1.
  destruct (in_chain (wait_confirmed txid) s4) as [[h|e|] s5] eqn:E5;
    pose proof (gentle_chain _ _ _ _ (moving_wait_confirmed txid) E5) as K5;
    [|intros [= <- <-]; left; split; [by etrans|done]..].
  assert (keeps_coins (sw_wallet s) (sw_wallet s5)) as K05 by by etrans.
  unfold mbind at 1, stateful_bind at 1. destruct (lock_shared s5) as [[[]|e|] s6] eqn:E6;
    apply lock_shared_run in E6 as ->; [|by intros [= <- <-]; left..].
  intros [= <- <-]. right. exists txid, (sw_wallet s5). split; [done|]. split; [done|]. split; [done|].
  apply in_chain_run in E1 as [E1 _], E4 as [E4 _], E5 as [E5 _]. cbn.
  destruct K1 as [M1 _], K03 as [M03 _], K04 as [M04 _], K05 as [M05 _], K4 as [M4 _], K5 as [M5 _].
  assert (R (out s1) (out s5)) as M15.
  { etrans; [apply K3|]. by etrans. }
  exists timelock, n, a, tx, txid, h. split; [done|].
  split; [apply (answered_mono R _ _ (out s) (out s) (out s1) (out s5)); [done..|by apply answered_here]|].
  split; [done|]. split; [done|]. split.
  - unfold attempt in E4. destruct (rc_send_raw_transaction tx (out s3)) as [[t|e|] d4] eqn:Es; [|done..].
    injection E4 as -> ->. apply (answered_mono R _ _ (out s) (out s3) (out s4) (out s5)); [done..|by apply answered_here].
  - apply (answered_mono R _ _ (out s) (out s4) (out s5) (out s5)); [done..|by apply answered_here].
Qed.

(** ** The whole pass *)
Section pass.
Context (fee_rate : f64) (d0 : D) (before : gmap Txid OutgoingSwapCoin) (inc : gmap Txid IncomingSwapCoin)
  (Hkeys : forall k c, before !! k = Some c -> k = compute_txid (osc_contract_tx c)).

(** The records after some steps: kept, or gone for a reason. *)
Definition accounted (reason : OutgoingSwapCoin -> Prop) (after : gmap Txid OutgoingSwapCoin) : Prop :=
  forall k, match before !! k, after !! k with
            | Some c, Some c' => coin_kept c c'
            | Some c, None => reason c
            | None, None => True
            | None, Some _ => False
            end.

Lemma accounted_kept reason after after' :
  accounted reason after -> (forall k, slot_kept (after !! k) (after' !! k)) -> accounted reason after'.
Proof.
  intros Ha Hk k. specialize (Ha k). specialize (Hk k).
  destruct (before !! k) as [c|], (after !! k) as [c1|], (after' !! k) as [c2|]; try done.
  destruct Ha as [a ->], Hk as [b ->]. by exists b.
Qed.

Lemma accounted_weaken (P Q : OutgoingSwapCoin -> Prop) after :
  (forall c, P c -> Q c) -> accounted P after -> accounted Q after.
Proof.
  intros HPQ Ha k. specialize (Ha k). destruct (before !! k) as [c|], (after !! k) as [c1|]; auto.
Qed.

Lemma accounted_delete (P : OutgoingSwapCoin -> Prop) after key c :
  before !! key = Some c -> P c -> accounted P after -> accounted P (delete key after).
Proof.
  intros Hc HP Ha k. specialize (Ha k). destruct (decide (k = key)) as [->|Hk].
  - by rewrite Hc, lookup_delete_eq.
  - by rewrite lookup_delete_ne.
Qed.

(** The state of the loop: the records, the reported refunds, the coins found
    discardable. *)
Record scan_ok (scan : TimelockScan) (s : SharedWallet D) : Prop := {
  so_moves : R d0 (out s);
  so_incoming : incoming s = inc;
  so_accounted : accounted (fun c => refunded fee_rate c d0 (out s)) (outgoing s);
  so_listed : forall k, is_Some (before !! k) -> (outgoing s !! k = None <-> k ∈ (ts_resolved scan).*1);
  so_discarded : forall k, k ∈ ts_discarded scan ->
    exists c, before !! k = Some c /\ discardable c d0 (out s);
}.

Lemma scan_ok_kept scan s s' :
  scan_ok scan s -> keeps_coins (sw_wallet s) (sw_wallet s') -> scan_ok scan s'.
Proof.
  intros [Hm Hi Ha Hl Hd] (M & I & K). split.
  - by etrans.
  - by rewrite I.
  - eapply accounted_kept; [|exact K]. eapply accounted_weaken; [|exact Ha]. intros c. by apply refunded_mono.
  - intros k Hk. rewrite <- Hl by done. specialize (K k). by destruct (outgoing s !! k), (outgoing s' !! k).
  - intros k (c & Hc & Hdis)%Hd. exists c. split; [done|].
    by apply (discardable_mono c d0 d0 (out s) (out s')).
Qed.

Definition candidate (x : Txid * OutgoingSwapCoin * Z) : Prop :=
  before !! x.1.1 = Some x.1.2 /\ osc_get_timelock x.1.2 = Some x.2.

(** A step keeps the state good; when it fails the records are still accounted for. *)
Lemma recover_coin_ok scan s x r s' :
  candidate x -> scan_ok scan s ->
  recover_coin fee_rate scan x s = (r, s') ->
  match r with
  | Ok scan' => scan_ok scan' s'
  | _ => scan_ok scan s'
  end.
Proof.
  destruct x as [[key c] timelock]. intros [Hc Ht] Hok. cbn in Hc, Ht. unfold recover_coin.
  unfold mbind, stateful_bind.
  destruct (in_chain (ensure_contract_on_chain c) s) as [[st|e|] s1] eqn:E1;
    pose proof (gentle_chain _ _ _ _ (moving_ensure c) E1) as K1;
    [|intros [= <- <-]; by eapply scan_ok_kept..].
  pose proof (scan_ok_kept _ _ _ Hok K1) as Hok1. destruct st.
  - intros [[K2 Hr]|(txid & w1 & K2 & Hw & -> & Href)]%refund_coin_spec; [| |done].
    + pose proof (scan_ok_kept _ _ _ Hok1 K2) as Hok2. destruct r as [scan'|e|]; [|done..].
      by specialize (Hr eq_refl) as [= ->].
    + destruct (scan_ok_kept _ _ (Build_SharedWallet w1 false) Hok1 K2) as [Hm Hi Ha Hl Hd]. cbn in *.
      assert (out s' = wl_outside w1) as Hout by by rewrite Hw.
      assert (outgoing s' = delete key (wst_outgoing_swapcoins (wl_store w1))) as Hog by by rewrite Hw.
      split; rewrite ?Hout, ?Hog; try done; [by rewrite Hw| |].
      * apply (accounted_delete _ _ key c); [done| |done]. rewrite <- Hout.
        eapply refunded_mono; [apply Hok1|reflexivity|done].
      * intros k Hk. cbn. rewrite fmap_app, elem_of_app, <- Hl by done. cbn. rewrite list_elem_of_singleton.
        rewrite <- (Hkeys _ _ Hc). destruct (decide (k = key)) as [->|Hne].
        -- rewrite lookup_delete_eq. naive_solver.
        -- rewrite lookup_delete_ne by done. naive_solver.
  - intros [= <- <-]. destruct Hok1 as [Hm Hi Ha Hl Hd]. split; [done..|]. cbn. intros k.
    rewrite elem_of_app, list_elem_of_singleton. intros [Hk| ->]; [by apply Hd|]. exists c. split; [done|].
    apply in_chain_run in E1 as [E1%ensure_discarded _]. eapply discardable_mono; [apply Hok|reflexivity|done].
  - by intros [= <- <-].
Qed.

Lemma recover_loop_ok xs : forall scan s r s',
  Forall candidate xs -> scan_ok scan s ->
  st_fold (recover_coin fee_rate) scan xs s = (r, s') ->
  exists scan', scan_ok scan' s' /\ (is_ok r = true -> r = Ok scan').
Proof.
  induction xs as [|x xs IH]; intros scan s r s' Hxs Hok; cbn [st_fold].
  - intros [= <- <-]. by exists scan.
  - apply Forall_cons in Hxs as [Hx Hxs]. unfold mbind, stateful_bind.
    destruct (recover_coin fee_rate scan x s) as [[scan1|e|] s1] eqn:E1; apply recover_coin_ok in E1; try tauto.
    + intros Hrun. by apply (IH scan1 s1).
    + intros [= <- <-]. by exists scan.
    + intros [= <- <-]. by exists scan.
Qed.

Lemma drop_all_spec keys : forall acc st l st',
  (forall k c, wst_outgoing_swapcoins st !! k = Some c -> k = compute_txid (osc_contract_tx c)) ->
  fold_left (fun acc key => drop_discarded key acc) keys (acc, st) = (l, st') ->
  wst_incoming_swapcoins st' = wst_incoming_swapcoins st /\
  (forall k, wst_outgoing_swapcoins st' !! k =
     if bool_decide (k ∈ keys) then None else wst_outgoing_swapcoins st !! k) /\
  (forall k, k ∈ l <-> k ∈ acc \/ (k ∈ keys /\ is_Some (wst_outgoing_swapcoins st !! k))).
Proof.
  induction keys as [|key keys IH]; intros acc st l st' Hwf; cbn [fold_left].
  - intros [= <- <-]. split; [done|]. split; [done|]. set_solver.
  - unfold drop_discarded at 2. cbn [fst snd]. intros Hrun. apply IH in Hrun as (Hi & Ho & Hl).
    2: { intros k c. cbn. rewrite lookup_delete_Some. intros [_ Hc]. by apply Hwf. }
    split; [done|]. split.
    + intros k. rewrite Ho. cbn. destruct (decide (k = key)) as [->|Hk].
      * rewrite lookup_delete_eq, (bool_decide_eq_true_2 (key ∈ key :: keys)) by set_solver. by case_bool_decide.
      * rewrite lookup_delete_ne by done.
        by rewrite (bool_decide_ext (k ∈ keys) (k ∈ key :: keys)) by set_solver.
    + intros k. rewrite Hl. cbn. rewrite elem_of_cons.
      destruct (decide (k = key)) as [->|Hk].
      * rewrite lookup_delete_eq. destruct (wst_outgoing_swapcoins st !! key) as [c|] eqn:Hc.
        -- rewrite elem_of_app, list_elem_of_singleton, <- (Hwf _ _ Hc). naive_solver.
        -- naive_solver.
      * rewrite lookup_delete_ne by done. destruct (wst_outgoing_swapcoins st !! key) as [c|] eqn:Hc; [|naive_solver].
        rewrite elem_of_app, list_elem_of_singleton, <- (Hwf _ _ Hc). naive_solver.
Qed.

(** What recovery may do to the records. *)
Definition nothing_lost (s' : SharedWallet D) : Prop :=
  R d0 (out s') /\ incoming s' = inc /\
  accounted (fun c => refunded fee_rate c d0 (out s') \/ discardable c d0 (out s')) (outgoing s').

Lemma scan_ok_nothing_lost scan s : scan_ok scan s -> nothing_lost s.
Proof.
  intros [Hm Hi Ha Hl Hd]. split; [done|]. split; [done|]. eapply accounted_weaken; [|exact Ha]. intros c; by left.
Qed.

Lemma nothing_lost_kept s s' :
  nothing_lost s -> keeps_coins (sw_wallet s) (sw_wallet s') ->
  nothing_lost s' /\ forall k, outgoing s' !! k = None <-> outgoing s !! k = None.
Proof.
  intros (Hm & Hi & Ha) (M & I & K). split.
  - split; [by etrans|]. split; [by rewrite I|]. eapply accounted_kept; [|exact K].
    eapply accounted_weaken; [|exact Ha]. intros c [Hc|Hc]; [left|right].
    + by apply (refunded_mono fee_rate c d0 d0 (out s) (out s')).
    + by apply (discardable_mono c d0 d0 (out s) (out s')).
  - intros k. specialize (K k). by destruct (outgoing s !! k), (outgoing s' !! k).
Qed.

Lemma accounted_wf reason after :
  accounted reason after -> forall k c, after !! k = Some c -> k = compute_txid (osc_contract_tx c).
Proof.
  intros Ha k c Hc. specialize (Ha k). rewrite Hc in Ha. destruct (before !! k) as [c0|] eqn:H0; [|done].
  destruct Ha as [a ->]. by apply Hkeys in H0.
Qed.

Lemma finish_recovery_ok scan s r s' :
  scan_ok scan s -> finish_recovery scan s = (r, s') ->
  nothing_lost s' /\
  forall o, r = Ok o -> forall k, is_Some (before !! k) ->
    (outgoing s' !! k = None <-> k ∈ (ro_resolved o).*1 \/ k ∈ ro_discarded o).
Proof.
  intros Hok. pose proof (scan_ok_nothing_lost _ _ Hok) as Hnl. destruct Hok as [Hm Hi Ha Hl Hd].
  unfold finish_recovery. unfold mbind at 1, stateful_bind at 1.
  destruct (lock_shared s) as [[[]|e|] s1] eqn:E1; apply lock_shared_run in E1 as ->; [|by intros [= <- <-]..].
  rewrite (st_bind_step _ _ s (store s) s) by (by destruct s).
  destruct (fold_left _ (ts_discarded scan) ([], store s)) as [dis st] eqn:Ef.
  apply drop_all_spec in Ef as (Ei & Eo & El); [|by eapply accounted_wf].
  set (s2 := {| s with sw_wallet := {| (sw_wallet s) with wl_store := st |} |}).
  rewrite (st_bind_step _ _ s () s2) by done.
  assert (nothing_lost s2) as Hnl2.
  { split; [done|]. split; [by rewrite <- Hi; cbn; rewrite Ei|]. intros k. cbn. rewrite Eo. specialize (Ha k).
    case_bool_decide as Hk.
    - destruct (Hd k Hk) as (c & -> & Hdis). by right.
    - destruct (before !! k) as [c|], (outgoing s !! k) as [c'|]; try done. by left. }
  assert (forall k, is_Some (before !! k) ->
    (outgoing s2 !! k = None <-> k ∈ (ts_resolved scan).*1 \/ k ∈ dis)) as Hlist.
  { intros k Hk. cbn. rewrite Eo, El, <- Hl by done. case_bool_decide; destruct (outgoing s !! k) as [c|] eqn:Ec.
    - split; [|done]. intros _. right; right. eauto.
    - naive_solver.
    - split; [done|]. intros [?|[H0|[H0 _]]]; [done|set_solver|done].
    - naive_solver. }
  destruct (negb _ || negb _).
  - unfold mbind, stateful_bind. destruct (in_shared save_to_disk s2) as [r1 s3] eqn:E3.
    pose proof (gentle_shared _ _ _ _ gentle_save E3) as K3.
    apply (nothing_lost_kept s2 s3 Hnl2) in K3 as [Hnl3 Hsame]. destruct r1 as [[]|e|]; intros [= <- <-]; [|by split..]. split; [done|]. intros o [= <-] k Hk.
    rewrite Hsame. by apply Hlist.
  - intros [= <- <-]. split; [done|]. intros o [= <-]. exact Hlist.
Qed.
End pass.

Lemma timelock_candidates_ok (w : WalletStore) :
  Forall (candidate (wst_outgoing_swapcoins w)) (timelock_candidates w).
Proof.
  apply list.Forall_forall. intros [[k c] t]. unfold timelock_candidates. rewrite list_elem_of_omap.
  intros ([k' c'] & Hin & Hsome). apply list_elem_of_filter in Hin as [_ Hin%elem_of_hash_iter].
  apply fmap_Some in Hsome as (t' & Ht & [= -> -> ->]). by split.
Qed.

Lemma sync_gentle : gentle rc_sync_and_save.
Proof.
  intros w. destruct (sync_keeps_coins w) as [Ho Hi]. split; [apply rm_sync|]. split; [done|].
  intros k. by rewrite Ho.
Qed.

(** A pass ends early without touching the coins, or enters the loop. *)
Lemma recover_run fee_rate (s s' : SharedWallet D) r :
  recover_timelocked_swapcoins fee_rate s = (r, s') ->
  (keeps_coins (sw_wallet s) (sw_wallet s') /\ (is_ok r = true -> r = Ok RecoveryOutcome_default)) \/
  exists xs s1, Forall (candidate (outgoing s)) xs /\ keeps_coins (sw_wallet s) (sw_wallet s1) /\
    (st_fold (recover_coin fee_rate) {| ts_resolved := []; ts_discarded := [] |} xs ≫= finish_recovery) s1 = (r, s').
Proof.
  unfold recover_timelocked_swapcoins. unfold mbind at 1, stateful_bind at 1.
  destruct (lock_shared s) as [[[]|e|] s0] eqn:E0; apply lock_shared_run in E0 as ->; [|by intros [= <- <-]; left..].
  rewrite (st_bind_step _ _ s (timelock_candidates (store s)) s) by (by destruct s).
  pose proof (timelock_candidates_ok (store s)) as Hc.
  destruct (timelock_candidates (store s)) as [|x xs]; [by intros [= <- <-]; left|]. set (l := x :: xs) in *.
  unfold mbind at 1, stateful_bind at 1.
  destruct (in_shared rc_sync_and_save s) as [[[]|e|] s1] eqn:E1;
    pose proof (gentle_shared _ _ _ _ sync_gentle E1) as K1; [|by intros [= <- <-]; left..].
  unfold mbind at 1, stateful_bind at 1. destruct (in_chain rc_get_block_count s1) as [[h|e|] s2] eqn:E2;
    pose proof (gentle_chain _ _ _ _ rm_block_count E2) as K2; [|intros [= <- <-]; left; split; [by etrans|done]..].
  intros Hrun. right. eexists _, s2. split; [|split; [by etrans|exact Hrun]].
  apply list.Forall_forall. intros y [_ Hy]%list_elem_of_filter. by apply (proj1 (list.Forall_forall _ _) Hc).
Qed.

Lemma recovery_accounted (fee_rate : f64) (s s' : SharedWallet D) r :
  (forall k c, outgoing s !! k = Some c -> k = compute_txid (osc_contract_tx c)) ->
  recover_timelocked_swapcoins fee_rate s = (r, s') ->
  nothing_lost fee_rate (out s) (outgoing s) (incoming s) s' /\
  forall o, r = Ok o -> forall k, is_Some (outgoing s !! k) ->
    (outgoing s' !! k = None <-> k ∈ (ro_resolved o).*1 \/ k ∈ ro_discarded o).
Proof.
  intros Hkeys Hrun.
  set (scan := {| ts_resolved := []; ts_discarded := [] |}).
  assert (scan_ok fee_rate (out s) (outgoing s) (incoming s) scan s) as Hok.
  { split; try done; [|intros k [c Hc]; rewrite Hc; split; [done|by intros []%not_elem_of_nil]|intros k []%not_elem_of_nil].
    intros k. destruct (outgoing s !! k) as [c|] eqn:Hk; [|done]. exists (osc_recovery_address c). by destruct c. }
  assert (forall s1, keeps_coins (sw_wallet s) (sw_wallet s1) ->
    scan_ok fee_rate (out s) (outgoing s) (incoming s) scan s1) as Hok1
    by (intros s1; by apply scan_ok_kept).
  destruct (recover_run _ _ _ _ Hrun) as [(Hk & Hr)|(xs & s1 & Hxs & Hk & Hloop)].
  - split; [by apply (scan_ok_nothing_lost _ _ _ _ scan), Hok1|]. intros o -> k Hsome.
    injection (Hr eq_refl) as ->. apply (so_listed _ _ _ _ _ _ (Hok1 _ Hk)) in Hsome. set_solver.
  - fold scan in Hloop. unfold mbind, stateful_bind in Hloop.
    destruct (st_fold (recover_coin fee_rate) scan xs s1) as [r2 s2] eqn:E2.
    apply (recover_loop_ok fee_rate (out s) (outgoing s) (incoming s) Hkeys) in E2 as (scan2 & Hok2 & Hr2);
      [|done|by apply Hok1].
    destruct r2 as [x|e|]; [specialize (Hr2 eq_refl) as [= ->]|..].
    + refine (finish_recovery_ok fee_rate (out s) (outgoing s) (incoming s) Hkeys scan2 s2 r s' Hok2 Hloop).
    + injection Hloop as <- <-. by split; [eapply scan_ok_nothing_lost|].
    + injection Hloop as <- <-. by split; [eapply scan_ok_nothing_lost|].
Qed.

(** C26: Timelock recovery never forgets a coin that may still need it.  Whatever
    the node answers and whichever call fails, after a pass every outgoing coin is
    still recorded, unchanged but for the destination of its refund, or its
    record is gone for one of four reasons the node gave during the pass: the
    refund transaction, sent after the output had the confirmations its lock
    asks for, was mined; the contract output was spent by a mined transaction;
    the coin is a taproot coin whose contract is not mined and whose wallet
    input is unspent; or the node refused the signed contract, does not know its
    output and reports its input as spent.  No record appears, incoming coins
    are untouched, and a pass that returns lists exactly the deleted coins. *)
Theorem timelock_recovery_loses_nothing (fee_rate : f64) (s s' : SharedWallet D) r :
  (forall k c, outgoing s !! k = Some c -> k = compute_txid (osc_contract_tx c)) ->
  recover_timelocked_swapcoins fee_rate s = (r, s') ->
  incoming s' = incoming s /\
  (forall k c, outgoing s !! k = Some c ->
     (exists c', outgoing s' !! k = Some c' /\ coin_kept c c') \/
     (outgoing s' !! k = None /\ (refunded fee_rate c (out s) (out s') \/ discardable c (out s) (out s')))) /\
  (forall k, outgoing s !! k = None -> outgoing s' !! k = None) /\
  (forall o, r = Ok o -> forall k, is_Some (outgoing s !! k) ->
     (outgoing s' !! k = None <-> k ∈ (ro_resolved o).*1 \/ k ∈ ro_discarded o)).
Proof.
  intros Hkeys Hrun. destruct (recovery_accounted _ _ _ _ Hkeys Hrun) as [(_ & Hi & Ha) Hl].
  split; [done|]. repeat split; [| |by apply Hl..].
  - intros k c Hc. specialize (Ha k). rewrite Hc in Ha. destruct (outgoing s' !! k) as [c'|]; [left; eauto|by right].
  - intros k Hk. specialize (Ha k). rewrite Hk in Ha. by destruct (outgoing s' !! k).
Qed.
End safety.

(** ** The refund itself *)
Section refund.
Context {lib : BitcoinLib} {laws : BitcoinLaws lib} {tap : TaprootLib}.

Lemma csv_ok_self l : is_u16 l -> csv_ok 2 l l = true.
Proof.
  intros [H0 H1]. unfold csv_ok. assert (Z.testbit l 31 = false) as ->.
  { apply Z.bits_above_log2; [done|]. destruct (Z.eq_dec l 0) as [->|]; [reflexivity|].
    apply Z.log2_lt_pow2; [lia|]. change (2 ^ 31) with 2147483648. lia. }
  rewrite Z.eqb_refl. destruct (Z.leb_spec 0 l); [|lia]. cbn. by rewrite Z.leb_refl.
Qed.

(** The refund a wallet builds is one the contract accepts.  For an outgoing
    legacy coin whose contract script holds its timelock key, the lock the wallet
    reads back is the lock of the script; if the fee fits into the output, the
    refund is built, it spends exactly the contract output, pays what is left to
    the recovery address, carries the lock as its relative locktime, and satisfies
    the contract script; if it does not fit, an error is returned. *)
Lemma refund_transaction_is_valid (c : OutgoingSwapCoin) (o : TxOut) (outs : list TxOut) (ph : PublicKey)
    (h : Hash160) (l : Z) (fee_rate : f64) (address : Script)
    (Hproto : osc_protocol c = Legacy) (Hph : wf_pubkey ph) (Hl : is_u16 l) (Hl0 : l <> 0)
    (Hh : length h = 20%nat) (Hne : hash160 [] <> h)
    (Hrs : osc_contract_redeemscript c =
           Some (create_contract_redeemscript ph (pubkey_of (osc_timelock_privkey c)) h l))
    (Hout : output (osc_contract_tx c) = o :: outs)
    (Ho : pays_to o (create_contract_redeemscript ph (pubkey_of (osc_timelock_privkey c)) h l)) :
  let fee := f64_to_u64 (f64_mul (f64_of_Z LEGACY_TIMELOCK_VSIZE) fee_rate) in
  osc_get_timelock c = Some l /\
  (value o < fee -> is_ok (create_timelock_recovery_tx c fee_rate address) = false) /\
  (fee <= value o -> exists tx w, create_timelock_recovery_tx c fee_rate address = Ok tx /\
     input tx = [{| previous_output := {| op_txid := compute_txid (osc_contract_tx c); op_vout := 0 |};
                    script_sig := []; sequence := l; witness := w |}] /\
     output tx = [{| value := value o - fee; script_pubkey := address |}] /\
     p2wsh_spendable tx o = true).
Proof.
  intros fee. assert (osc_get_timelock c = Some l) as Ht.
  { unfold osc_get_timelock. rewrite Hproto, Hrs, bool_decide_eq_false_2 by done.
    rewrite read_contract_locktime_shape by (done || apply point_from_secret_key_valid).
    by destruct (Z.eqb_spec l 0). }
  split; [done|]. unfold create_timelock_recovery_tx.
  assert (osc_get_contract_output_vout c = 0) as Hv.
  { unfold osc_get_contract_output_vout, contract_output_vout. by rewrite Hproto, bool_decide_eq_false_2. }
  rewrite Ht, Hv, Hout, Hproto. cbn [ok_or mbind outcome_bind contract_and_timelock_vsize].
  change (Z.to_nat 0) with 0%nat. cbn [lookup list_lookup ok_or mbind outcome_bind]. fold fee.
  unfold checked_sub. split; intros Hfee.
  - by destruct (Z.leb_spec fee (value o)); [lia|].
  - destruct (Z.leb_spec fee (value o)); [|lia]. cbn [ok_or mbind outcome_bind].
    rewrite (wrap_small 16 l) by done. unfold sign_timelock_recovery. rewrite Hproto.
    set (tx := {| version := 2 |}).
    destruct (timelock_recovery_accepted_iff c tx _ [] o outs ph h l Hproto Hph Hl Hh Hne Hrs Hout Ho eq_refl)
      as (tx' & Htx & Houtp & Hiff). pose proof Htx as Hin.
    unfold sign_timelock_recovery_legacy in Hin. inv_ok Hin. cbn in Hin. injection Hin as Hin.
    exists tx'. eexists. split; [exact Htx|]. split; [by rewrite <- Hin|]. split; [exact Houtp|].
    apply Hiff. by apply csv_ok_self.
Qed.
End refund.

(** ** A concrete node

    Outputs with their confirmations, the outputs an unconfirmed transaction
    spends, and whether transactions are refused; what is sent is mined at once. *)
Record RecoveryNode := {
  rn_clock : TestNode;
  rn_height : Z;
  rn_unspent : gmap OutPoint Z;
  rn_pool_spent : list OutPoint;
  rn_refuse : bool;
}.

Section node.
Context {lib : BitcoinLib}.

Definition rn_out (o : OutPoint) (mempool : option bool) (d : RecoveryNode) : option Z :=
  if bool_decide (mempool <> Some false) && bool_decide (o ∈ rn_pool_spent d) then None else rn_unspent d !! o.

Definition rn_send (tx : Transaction) : stateful RecoveryNode WalletError Txid := fun d =>
  if rn_refuse d || negb (forallb (fun i => bool_decide (rn_unspent d !! previous_output i <> None)) (input tx))
  then (Err (WE_Rpc (RPC_Other "rejected")), d)
  else (Ok (compute_txid tx),
        {| d with rn_unspent := foldr (fun i m => delete (previous_output i) m) (rn_unspent d) (input tx);
                  rn_clock := {| (rn_clock d) with tn_mined :=
                    <[compute_txid tx := (tn_now (rn_clock d), rn_height d)]> (tn_mined (rn_clock d)) |} |}).

#[export] Instance node_file : WalletFile RecoveryNode := {| write_wallet_file _ d := (Ok (), d) |}.
#[export] Instance node_chain : RecoveryChain RecoveryNode := {|
  rc_clock := {|
    cc_now d := tn_now (rn_clock d);
    cc_sleep n d := {| d with rn_clock := cc_sleep n (rn_clock d) |};
    cc_shutdown d := tn_down (rn_clock d);
    cc_tx_confirmations txid d := ((cc_tx_confirmations txid (rn_clock d)).1, d);
    cc_tx_block_height txid d := ((cc_tx_block_height txid (rn_clock d)).1, d);
  |};
  rc_get_tx_out txid vout m d := (Ok (rn_out {| op_txid := txid; op_vout := vout |} m d), d);
  rc_is_confirmed_spend o _ d :=
    (Ok (bool_decide (tn_mined (rn_clock d) !! op_txid o <> None) && bool_decide (rn_unspent d !! o = None)), d);
  rc_send_raw_transaction := rn_send;
  rc_get_block_count d := (Ok (rn_height d), d);
  rc_derive_addresses _ start _ d := (Ok [[1; start]], d);
  rc_require_network _ := true;
  rc_nonces d := ((1, 2), d);
  rc_sync_and_save w := (Ok (), w);
|}.

(** Nothing spent becomes unspent again. *)
Definition node_history (d d' : RecoveryNode) : Prop := rn_unspent d' ⊆ rn_unspent d.

#[export] Instance node_moves : RecoveryMoves node_history.
Proof.
  unfold node_history. split; [split; [split|..]|..]; intros; cbn; try done.
  - by intros d.
  - intros a b c Hab Hbc. by etrans.
  - unfold rn_send. destruct (_ || _); [done|]. cbn. induction (input tx) as [|i l IH]; [done|].
    cbn. etrans; [apply delete_subseteq|exact IH].
Qed.
#[export] Instance node_sync : SyncKeepsCoins RecoveryNode.
Proof. by intros w. Qed.
End node.

#[local] Existing Instance Reference.lib.
#[local] Existing Instance TapReference.tap.
#[local] Existing Instance key_order.

Definition ex_contract_out : OutPoint := {| op_txid := compute_txid (osc_contract_tx ex_outgoing); op_vout := 0 |}.
Definition ex_signed_outgoing : OutgoingSwapCoin :=
  {| ex_outgoing with osc_others_contract_sig := Some {| sig_bytes := [1]; sighash_type := SIGHASH_ALL |} |}.
Definition ex_wallet (c : OutgoingSwapCoin) (node : RecoveryNode) : SharedWallet RecoveryNode :=
  Build_SharedWallet (Build_Wallet
    {| WalletStore_init with wst_outgoing_swapcoins := {[ op_txid ex_contract_out := c ]} |} node) false.
Definition ex_node (unspent : gmap OutPoint Z) (pool : list OutPoint) (refuse : bool) : RecoveryNode :=
  {| rn_clock := {| tn_now := 0; tn_mined := ∅; tn_down := false |}; rn_height := 800;
     rn_unspent := unspent; rn_pool_spent := pool; rn_refuse := refuse |}.

Lemma ex_wallet_coins c node :
  wst_outgoing_swapcoins (wl_store (sw_wallet (ex_wallet c node))) = {[ op_txid ex_contract_out := c ]}.
Proof. reflexivity. Qed.

(** A contract output with 61 confirmations and a lock of 60: refunded. *)
Lemma timelock_recovery_loses_nothing_witness :
  let s := ex_wallet ex_signed_outgoing (ex_node {[ ex_contract_out := 61 ]} [] false) in
  let s' := (recover_timelocked_swapcoins (f64_of_Z 1) s).2 in
  wst_outgoing_swapcoins (wl_store (sw_wallet s')) !! op_txid ex_contract_out = None /\
  (refunded node_history (f64_of_Z 1) ex_signed_outgoing (wl_outside (sw_wallet s)) (wl_outside (sw_wallet s')) \/
   discardable node_history ex_signed_outgoing (wl_outside (sw_wallet s)) (wl_outside (sw_wallet s'))).
Proof.
  intros s s'.
  assert (wst_outgoing_swapcoins (wl_store (sw_wallet s')) !! op_txid ex_contract_out = None) as Hgone
    by (vm_compute; reflexivity).
  split; [exact Hgone|].
  destruct (timelock_recovery_loses_nothing node_history (f64_of_Z 1) s s' (recover_timelocked_swapcoins (f64_of_Z 1) s).1)
    as (_ & Hkept & _).
  - intros k c. unfold s. rewrite ex_wallet_coins. intros [<- <-]%lookup_singleton_Some. vm_compute. reflexivity.
  - apply surjective_pairing.
  - destruct (Hkept (op_txid ex_contract_out) ex_signed_outgoing) as [(c' & Hc' & _)|[_ Hr]];
      [unfold s; rewrite ex_wallet_coins; apply lookup_singleton_eq|congruence|exact Hr].
Defined.

(** The last reason counts unconfirmed spends: a coin is forgotten although its
    funding output is unspent in the confirmed chain, when a transaction that
    spends it sits in the mempool and the node therefore refuses the contract.
    Should that transaction be evicted, the refund is no longer possible. *)
Lemma unconfirmed_spend_forgets_coin :
  let s := ex_wallet ex_signed_outgoing (ex_node {[ sample_outpoint := 10 ]} [sample_outpoint] true) in
  let '(r, s') := recover_timelocked_swapcoins (f64_of_Z 1) s in
  r = Ok {| ro_resolved := []; ro_discarded := [op_txid ex_contract_out] |} /\
  wst_outgoing_swapcoins (wl_store (sw_wallet s')) = ∅ /\
  rn_unspent (wl_outside (sw_wallet s')) !! sample_outpoint = Some 10.
Proof. vm_compute. repeat split. Qed.

#[local] Existing Instance Reference.laws.

Lemma refund_transaction_is_valid_witness :
  exists tx, create_timelock_recovery_tx ex_outgoing (f64_of_Z 2) [7; 7] = Ok tx /\
    output tx = [{| value := 4716; script_pubkey := [7; 7] |}] /\ p2wsh_spendable tx (ex_out (ex_script 60)) = true.
Proof.
  destruct (refund_transaction_is_valid ex_outgoing (ex_out (ex_script 60)) [] (pubkey_of 11) (hash160 ex_preimage) 60
              (f64_of_Z 2) [7; 7]) as (_ & _ & Hok); [concrete..|].
  destruct Hok as (tx & w & H1 & _ & H3 & H4); [vm_compute; discriminate|].
  exists tx. split; [exact H1|]. split; [|exact H4]. rewrite H3. vm_compute. reflexivity.
Defined.
