(* ===== verification/SweepSafety.v ===== *)
(** What a sweep may forget: the counterpart of [RecoverySafety] for
    [sweep_incoming_swapcoins].  An incoming coin leaves the wallet only when a
    spend of it, to this wallet or to the receiver of a payment, has been mined. *)
From S2P Require Import Prelude Float64 Bitcoin Messages Contract Errors SwapCoin ScriptEval TaprootLib Taproot WalletStore ChainWait WalletRecovery RecoverySafety.
#[local] Open Scope string_scope.
#[local] Open Scope list_scope.
#[local] Open Scope Z_scope.

Section sweep.
Context {lib : BitcoinLib} {tap : TaprootLib} {hi : HashIter} {hil : HashIterLaws hi} {D : Type}
  {file : WalletFile D} {rc : RecoveryChain D} (R : D -> D -> Prop) {rm : RecoveryMoves R} {sk : SyncKeepsCoins D}.

Abbreviation out s := (wl_outside (sw_wallet s)).
Abbreviation store s := (wl_store (sw_wallet s)).
Abbreviation outgoing s := (wst_outgoing_swapcoins (store s)).
Abbreviation incoming s := (wst_incoming_swapcoins (store s)).

(** The spend of a coin: to the payment receiver, the exact amount; otherwise to
    an address of this wallet, at the fee rate. *)
Definition spend_of (feerate : f64) (c : IncomingSwapCoin) (input_value : Amount) (tx : Transaction) : Prop :=
  exists r1 r2,
  match isc_payment_target c with
  | Some target =>
      sign_spend_transaction_with_output_value (sign_taproot_spend r1 r2) c input_value
        (pt_amount target) (pt_script_pubkey target) = Ok tx
  | None =>
      exists address, sign_spend_transaction (sign_taproot_spend r1 r2) c input_value address feerate = Ok tx
  end.

Definition swept (feerate : f64) (c : IncomingSwapCoin) (d d' : D) : Prop :=
  exists utxo_txid utxo_vout input_value tx txid height,
    sweep_input c = Some (utxo_txid, utxo_vout, input_value) /\ spend_of feerate c input_value tx /\
    answered R (rc_send_raw_transaction tx) txid d d' /\ answered R (wait_confirmed txid) height d d'.

Lemma swept_mono feerate c d0 d d' d1 : R d0 d -> R d' d1 -> swept feerate c d d' -> swept feerate c d0 d1.
Proof.
  intros H0 H1 (a & b & v & tx & txid & h & ? & ? & ? & ?). exists a, b, v, tx, txid, h.
  repeat split; try done; by apply (answered_mono R _ _ d0 d d' d1).
Qed.

(** ** Steps that leave both tables alone *)
Definition same_coins (w w' : Wallet D) : Prop :=
  R (wl_outside w) (wl_outside w') /\
  wst_incoming_swapcoins (wl_store w') = wst_incoming_swapcoins (wl_store w) /\
  wst_outgoing_swapcoins (wl_store w') = wst_outgoing_swapcoins (wl_store w).

#[local] Instance same_coins_preorder : PreOrder same_coins.
Proof.
  split; [by intros w|]. intros w1 w2 w3 (M1 & I1 & O1) (M2 & I2 & O2).
  split; [by etrans|]. by rewrite I2, O2.
Qed.

Definition neutral {A} (m : stateful (Wallet D) WalletError A) : Prop := forall w, same_coins w (m w).2.

Lemma neutral_bind {A B} (m : stateful (Wallet D) WalletError A) (f : A -> stateful (Wallet D) WalletError B) :
  neutral m -> (forall a, neutral (f a)) -> neutral (m ≫= f).
Proof.
  intros Hm Hf w. specialize (Hm w). unfold mbind, stateful_bind.
  destruct (m w) as [[a|e|] w1]; cbn in *; [|done..]. etrans; [exact Hm|apply Hf].
Qed.
Lemma neutral_outside {A} (op : stateful D WalletError A) : moving R op -> neutral (in_outside op).
Proof.
  intros Hop w. specialize (Hop (wl_outside w)). unfold in_outside. by destruct (op (wl_outside w)) as [r d].
Qed.
Lemma neutral_save : neutral save_to_disk.
Proof.
  intros w. unfold save_to_disk. pose proof (rm_write (wl_store w) (wl_outside w)) as Hw.
  by destruct (write_wallet_file (wl_store w) (wl_outside w)) as [r d].
Qed.
Lemma neutral_sync : neutral rc_sync_and_save.
Proof. intros w. destruct (sync_keeps_coins w) as [Ho Hi]. split; [apply rm_sync|done]. Qed.

Lemma neutral_destination : neutral sweep_destination.
Proof.
  apply neutral_bind.
  { unfold get_next_internal_addresses. cbn [Z.eqb]. apply neutral_bind; [by intros w|]. intros start.
    apply neutral_bind; [apply neutral_outside; intros d; apply rm_derive|]. intros addresses.
    apply neutral_bind; [by intros w|]. intros _. apply neutral_bind; [apply neutral_save|]. intros _. by intros w. }
  intros addresses. apply neutral_bind; [by intros w|]. intros addr. apply neutral_bind; [by intros w|]. by intros _ w.
Qed.

Lemma moving_seen txid vout m : moving R (output_seen txid vout m).
Proof.
  apply (moving_bind R); [apply (moving_attempt R); intros d; apply rm_get_tx_out|]. intros r. by intros d.
Qed.

Lemma moving_available c txid vout : moving R (ensure_available c txid vout).
Proof.
  apply (moving_bind R); [apply moving_seen|]. intros b. case_match; [by intros d|].
  apply (moving_bind R); [apply moving_seen|]. intros b'. case_match; [|case_match].
  - apply (moving_bind R); [apply (moving_attempt R), (moving_wait_confirmed R)|]. intros [h|e]; [by intros d|].
    case_match; by intros d.
  - case_match; [|by intros d..]. apply (moving_bind R); [apply (moving_attempt R); intros d; apply rm_send|].
    intros [x|e]; [apply moving_seen|by intros d].
  - by intros d.
Qed.

Definition neutral_sh {A} (m : stateful (SharedWallet D) WalletError A) : Prop :=
  forall s, same_coins (sw_wallet s) (sw_wallet (m s).2).

Lemma neutral_sh_bind {A B} (m : stateful (SharedWallet D) WalletError A) (f : A -> stateful (SharedWallet D) WalletError B) :
  neutral_sh m -> (forall a, neutral_sh (f a)) -> neutral_sh (m ≫= f).
Proof.
  intros Hm Hf s. specialize (Hm s). unfold mbind, stateful_bind.
  destruct (m s) as [[a|e|] s1]; cbn in *; [|done..]. etrans; [exact Hm|apply Hf].
Qed.
Lemma neutral_sh_in {A} (op : stateful (Wallet D) WalletError A) : neutral op -> neutral_sh (in_shared op).
Proof. intros Hop s. specialize (Hop (sw_wallet s)). unfold in_shared. by destruct (op (sw_wallet s)). Qed.
Lemma neutral_sh_chain {A} (op : stateful D WalletError A) : moving R op -> neutral_sh (in_chain op).
Proof. intros Hop. by apply neutral_sh_in, neutral_outside. Qed.

Lemma neutral_spend c v feerate : neutral_sh (sweep_spend c v feerate).
Proof.
  apply neutral_sh_bind.
  { intros s. pose proof (rm_nonces (out s)) as Hn. by destruct (rc_nonces (out s)) as [n d]. }
  intros r. case_match; [by intros s|]. apply neutral_sh_bind; [by intros s|]. intros _.
  apply neutral_sh_bind; [apply neutral_sh_in, neutral_destination|]. intros a. by intros s.
Qed.

Lemma neutral_unmark a : neutral_sh (unmark_on_failure a).
Proof. destruct a as [a|]; [|by intros s]. apply neutral_sh_bind; [by intros s|]. by intros _ s. Qed.

Lemma run_neutral {A} (m : stateful (SharedWallet D) WalletError A) s r s' :
  neutral_sh m -> m s = (r, s') -> same_coins (sw_wallet s) (sw_wallet s').
Proof. intros Hm Hrun. specialize (Hm s). by rewrite Hrun in Hm. Qed.

Lemma sweep_spend_Ok c v feerate s a tx s' :
  sweep_spend c v feerate s = (Ok (a, Ok tx), s') -> spend_of feerate c v tx.
Proof.
  unfold sweep_spend. intros ([r1 r2] & s1 & _ & Hr)%st_bind_Ok. exists r1, r2.
  destruct (isc_payment_target c) as [t|]; [by injection Hr|].
  apply st_bind_Ok in Hr as ([] & s2 & _ & Hr). apply st_bind_Ok in Hr as (addr & s3 & _ & Hr).
  exists addr. by injection Hr.
Qed.

(** ** One coin *)
Definition swept_done (feerate : f64) (resolved : list (Txid * Txid)) (key : Txid) (c : IncomingSwapCoin)
    (s : SharedWallet D) (r : outcome WalletError (list (Txid * Txid))) (s' : SharedWallet D) : Prop :=
  exists txid w1, same_coins (sw_wallet s) w1 /\
    sw_wallet s' = {| w1 with wl_store := (remove_incoming_swapcoin key (wl_store w1)).2 |} /\
    r = Ok (resolved ++ [(compute_txid (isc_contract_tx c), txid)]) /\ swept feerate c (out s) (out s').

Lemma sweep_coin_spec feerate resolved key c s r s' :
  sweep_coin feerate resolved (key, c) s = (r, s') ->
  (same_coins (sw_wallet s) (sw_wallet s') /\ (is_ok r = true -> r = Ok resolved)) \/
  swept_done feerate resolved key c s r s'.
Proof.
  unfold sweep_coin. destruct (sweep_input c) as [[[txid vout] v]|] eqn:Hin; [|by intros [= <- <-]; left].
  unfold mbind at 1, stateful_bind at 1.
  destruct (in_chain (ensure_available c txid vout) s) as [[[]|e|] s1] eqn:E1;
    pose proof (run_neutral _ _ _ _ (neutral_sh_chain _ (moving_available c txid vout)) E1) as K1;
    [|by intros [= <- <-]; left..].
  unfold mbind at 1, stateful_bind at 1.
  destruct (sweep_spend c v feerate s1) as [[[a x]|e|] s2] eqn:E2;
    pose proof (run_neutral _ _ _ _ (neutral_spend c v feerate) E2) as K2;
    (assert (same_coins (sw_wallet s) (sw_wallet s2)) as K02 by by etrans); [|by intros [= <- <-]; left..].
  assert (forall s2', same_coins (sw_wallet s) (sw_wallet s2') ->
    (unmark_on_failure a ≫= fun _ => mret resolved) s2' = (r, s') ->
    same_coins (sw_wallet s) (sw_wallet s') /\ (is_ok r = true -> r = Ok resolved)) as Hfail.
  { intros s2' K. unfold mbind, stateful_bind.
    destruct (unmark_on_failure a s2') as [[[]|e|] s3] eqn:E3;
      pose proof (run_neutral _ _ _ _ (neutral_unmark a) E3) as K3; intros [= <- <-]; by split; [etrans|]. }
  cbn [snd fst]. destruct x as [tx|e|]; [|by left; apply (Hfail s2)|by intros [= <- <-]; left].
  apply sweep_spend_Ok in E2. unfold mbind at 1, stateful_bind at 1.
  destruct (in_chain (attempt (rc_send_raw_transaction tx)) s2) as [[x|e|] s3] eqn:E3;
    pose proof (run_neutral _ _ _ _ (neutral_sh_chain _ (moving_attempt R _ (rm_send tx))) E3) as K3;
    (assert (same_coins (sw_wallet s) (sw_wallet s3)) as K03 by by etrans); [|by intros [= <- <-]; left..].
  destruct x as [t|e]; [|by left; apply (Hfail s3)].
  unfold mbind at 1, stateful_bind at 1. destruct (in_chain (wait_confirmed t) s3) as [[h|e|] s4] eqn:E4;
    pose proof (run_neutral _ _ _ _ (neutral_sh_chain _ (moving_wait_confirmed R t)) E4) as K4;
    (assert (same_coins (sw_wallet s) (sw_wallet s4)) as K04 by by etrans); [|by intros [= <- <-]; left..].
  unfold mbind at 1, stateful_bind at 1. destruct (lock_shared s4) as [[[]|e|] s5] eqn:E5;
    apply lock_shared_run in E5 as ->; [|by intros [= <- <-]; left..].
  intros [= <- <-]. right. exists t, (sw_wallet s4). split; [done|]. split; [done|]. split; [done|]. cbn.
  apply in_chain_run in E3 as [E3 _], E4 as [E4 _].
  exists txid, vout, v, tx, t, h. split; [done|]. split; [done|]. split.
  - unfold attempt in E3. destruct (rc_send_raw_transaction tx (out s2)) as [[t'|e|] d4] eqn:Es; [|done..].
    injection E3 as -> ->. apply (answered_mono R _ _ (out s) (out s2) (out s3) (out s4));
      [apply K02|apply K4|by apply answered_here].
  - apply (answered_mono R _ _ (out s) (out s3) (out s4) (out s4)); [apply K03|done|by apply answered_here].
Qed.

(** ** The whole sweep *)
Section pass.
Context (feerate : f64) (s0 : SharedWallet D) (scope : option (list Txid))
  (Hkeys : forall k c, incoming s0 !! k = Some c -> k = compute_txid (isc_contract_tx c)).

Record sweep_ok (resolved : list (Txid * Txid)) (s : SharedWallet D) : Prop := {
  sk_moves : R (out s0) (out s);
  sk_outgoing : outgoing s = outgoing s0;
  sk_sub : forall k c, incoming s !! k = Some c -> incoming s0 !! k = Some c;
  sk_gone : forall k c, incoming s0 !! k = Some c -> incoming s !! k = None ->
    is_completed scope c = true /\ swept feerate c (out s0) (out s);
  sk_listed : forall k, k ∈ resolved.*1 <-> is_Some (incoming s0 !! k) /\ incoming s !! k = None;
}.

Lemma sweep_ok_same resolved s s' :
  sweep_ok resolved s -> same_coins (sw_wallet s) (sw_wallet s') -> sweep_ok resolved s'.
Proof.
  intros [Hm Ho Hs Hg Hl] (M & I & O). split; rewrite ?I, ?O; try done; [by etrans|].
  intros k c Hc Hn. destruct (Hg k c Hc Hn) as [? Hsw]. split; [done|].
  by apply (swept_mono feerate c (out s0) (out s0) (out s) (out s')).
Qed.

Definition completed (x : Txid * IncomingSwapCoin) : Prop :=
  incoming s0 !! x.1 = Some x.2 /\ is_completed scope x.2 = true.

Lemma sweep_coin_ok resolved s x r s' :
  completed x -> sweep_ok resolved s -> sweep_coin feerate resolved x s = (r, s') ->
  match r with Ok resolved' => sweep_ok resolved' s' | _ => sweep_ok resolved s' end.
Proof.
  destruct x as [key c]. intros [Hc Hcomp] Hok. cbn in Hc, Hcomp.
  intros [[K Hr]|(txid & w1 & K & Hw & -> & Hsw)]%sweep_coin_spec.
  - apply (sweep_ok_same _ _ _ Hok) in K. destruct r as [x|e|]; [|done..]. by specialize (Hr eq_refl) as [= ->].
  - destruct (sweep_ok_same _ _ (Build_SharedWallet w1 false) Hok K) as [Hm Ho Hs Hg Hl]. cbn in *.
    assert (out s' = wl_outside w1) as Hout by by rewrite Hw.
    assert (incoming s' = delete key (wst_incoming_swapcoins (wl_store w1))) as Hic by by rewrite Hw.
    split; rewrite ?Hout, ?Hic; [done|by rewrite Hw| | |].
    + intros k c' [_ Hk]%lookup_delete_Some. by apply Hs.
    + intros k c' Hk [->|Hn]%lookup_delete_None; [|by apply (Hg k c')].
      simplify_eq. split; [done|]. rewrite <- Hout.
      apply (swept_mono feerate c (out s0) (out s) (out s') (out s')); [apply Hok|reflexivity|done].
    + intros k. rewrite fmap_app, elem_of_app, Hl. cbn. rewrite list_elem_of_singleton.
      rewrite <- (Hkeys _ _ Hc), lookup_delete_None. naive_solver.
Qed.

Lemma sweep_loop_ok xs : forall resolved s r s',
  Forall completed xs -> sweep_ok resolved s ->
  st_fold (sweep_coin feerate) resolved xs s = (r, s') ->
  exists resolved', sweep_ok resolved' s' /\ (is_ok r = true -> r = Ok resolved').
Proof.
  induction xs as [|x xs IH]; intros resolved s r s' Hxs Hok; cbn [st_fold].
  - intros [= <- <-]. by exists resolved.
  - apply Forall_cons in Hxs as [Hx Hxs]. unfold mbind, stateful_bind.
    destruct (sweep_coin feerate resolved x s) as [[res1|e|] s1] eqn:E1; apply sweep_coin_ok in E1; try tauto.
    + intros Hrun. by apply (IH res1 s1).
    + intros [= <- <-]. by exists resolved.
    + intros [= <- <-]. by exists resolved.
Qed.

Lemma sweep_run r s' :
  sweep_incoming_swapcoins feerate scope s0 = (r, s') ->
  exists resolved, sweep_ok resolved s' /\
    (is_ok r = true -> r = Ok {| ro_resolved := resolved; ro_discarded := [] |}).
Proof.
  assert (sweep_ok [] s0) as Hok.
  { split; try done; [by intros k c ->|]. intros k. split; [by intros []%not_elem_of_nil|].
    intros [[c ->] ?]. done. }
  unfold sweep_incoming_swapcoins. unfold mbind at 1, stateful_bind at 1.
  destruct (lock_shared s0) as [[[]|e|] s1] eqn:E1; apply lock_shared_run in E1 as ->;
    [|by intros [= <- <-]; exists []..].
  set (xs := filter (fun p => is_completed scope p.2 = true) (hash_iter (incoming s0))).
  rewrite (st_bind_step _ _ s0 xs s0) by (by destruct s0).
  assert (Forall completed xs) as Hxs.
  { apply list.Forall_forall. intros [k c] [Hc Hin%elem_of_hash_iter]%list_elem_of_filter. by split. }
  destruct xs as [|x xs']; [by intros [= <- <-]; exists []|]. set (l := x :: xs') in *.
  unfold mbind at 1, stateful_bind at 1. destruct (in_shared rc_sync_and_save s0) as [[[]|e|] s2] eqn:E2;
    pose proof (run_neutral _ _ _ _ (neutral_sh_in _ neutral_sync) E2) as K2;
    apply (sweep_ok_same _ _ _ Hok) in K2; [|by intros [= <- <-]; exists []..].
  unfold mbind at 1, stateful_bind at 1. destruct (st_fold (sweep_coin feerate) [] l s2) as [r3 s3] eqn:E3.
  apply sweep_loop_ok in E3 as (res & Hok3 & Hr3); [|done..].
  destruct r3 as [x3|e|]; [specialize (Hr3 eq_refl) as [= ->]|by intros [= <- <-]; exists res..].
  unfold mbind at 1, stateful_bind at 1. destruct (lock_shared s3) as [[[]|e|] s4] eqn:E4;
    apply lock_shared_run in E4 as ->; [|by intros [= <- <-]; exists res..].
  unfold mbind at 1, stateful_bind at 1. destruct (in_shared save_to_disk s3) as [[[]|e|] s5] eqn:E5;
    pose proof (run_neutral _ _ _ _ (neutral_sh_in _ neutral_save) E5) as K5;
    apply (sweep_ok_same _ _ _ Hok3) in K5; intros [= <- <-]; by exists res.
Qed.
End pass.

(** C27: A sweep never forgets a coin it has not collected.  Whatever the node
    answers and whichever call fails, after a sweep every incoming coin is still
    recorded as it was, or it was in the scope of the sweep with a key or a
    preimage to spend it, a spend of it (to this wallet, or exactly the agreed
    amount to the receiver of a payment) was sent, and the node reported that spend
    mined.  No record appears, the outgoing coins are untouched, and a sweep that
    returns lists exactly the deleted coins. *)
Theorem sweep_drops_only_swept (feerate : f64) (scope : option (list Txid)) (s s' : SharedWallet D) r :
  (forall k c, incoming s !! k = Some c -> k = compute_txid (isc_contract_tx c)) ->
  sweep_incoming_swapcoins feerate scope s = (r, s') ->
  outgoing s' = outgoing s /\
  (forall k c, incoming s' !! k = Some c -> incoming s !! k = Some c) /\
  (forall k c, incoming s !! k = Some c -> incoming s' !! k = None ->
     is_completed scope c = true /\ swept feerate c (out s) (out s')) /\
  (forall o, r = Ok o -> ro_discarded o = [] /\
     forall k, k ∈ (ro_resolved o).*1 <-> is_Some (incoming s !! k) /\ incoming s' !! k = None).
Proof.
  intros Hkeys (res & [Hm Ho Hs Hg Hl] & Hr)%sweep_run; [|done]. split; [done|]. split; [done|].
  split; [done|]. intros o ->. by injection (Hr eq_refl) as ->.
Qed.
End sweep.

#[local] Existing Instance Reference.lib.
#[local] Existing Instance TapReference.tap.
#[local] Existing Instance key_order.

Definition ex_sweep_wallet : SharedWallet RecoveryNode :=
  Build_SharedWallet (Build_Wallet
    {| WalletStore_init with wst_incoming_swapcoins := {[ op_txid ex_contract_out := ex_incoming ]} |}
    (ex_node {[ ex_contract_out := 2 ]} [] false)) false.
Lemma ex_sweep_coins :
  wst_incoming_swapcoins (wl_store (sw_wallet ex_sweep_wallet)) = {[ op_txid ex_contract_out := ex_incoming ]}.
Proof. reflexivity. Qed.

(** A coin with a known preimage and a confirmed contract output is swept. *)
Lemma sweep_drops_only_swept_witness :
  let s' := (sweep_incoming_swapcoins (f64_of_Z 1) None ex_sweep_wallet).2 in
  wst_incoming_swapcoins (wl_store (sw_wallet s')) !! op_txid ex_contract_out = None /\
  swept node_history (f64_of_Z 1) ex_incoming (wl_outside (sw_wallet ex_sweep_wallet))
    (wl_outside (sw_wallet s')).
Proof.
  intros s'.
  assert (wst_incoming_swapcoins (wl_store (sw_wallet s')) !! op_txid ex_contract_out = None) as Hgone
    by (vm_compute; reflexivity).
  split; [exact Hgone|].
  destruct (sweep_drops_only_swept node_history (f64_of_Z 1) None ex_sweep_wallet s'
    (sweep_incoming_swapcoins (f64_of_Z 1) None ex_sweep_wallet).1) as (_ & _ & Hswept & _).
  - intros k c. rewrite ex_sweep_coins. intros [<- <-]%lookup_singleton_Some. vm_compute. reflexivity.
  - apply surjective_pairing.
  - apply (Hswept (op_txid ex_contract_out)); [rewrite ex_sweep_coins; apply lookup_singleton_eq|exact Hgone].
Defined.
