(* ===== verification/MakerRecovery.v ===== *)
(** The maker's recovery: src/maker/server.rs from [check_for_idle_states] to
    [recover_from_swap], with the recovery part of [start_server].

    A recovery thread works on the shared server, its wallet and the swap tracker
    ([MakerNode]).  It looks for a preimage that a spend of one of its own
    contracts revealed, sweeps the incoming coins with it, and takes the outgoing
    coins back once their lock has passed.  The loop has a fuel of passes, which
    stands for how long the thread has run; every theorem is about any fuel. *)
From S2P Require Import Prelude Float64 Bitcoin Messages Contract Errors SwapCoin TaprootLib Taproot TakerTracker TakerState LegacyVerification MakerHandlers WalletStore MakerApi WatchRegistry Watcher MakerTracker ChainWait WalletRecovery.
#[local] Open Scope string_scope.
#[local] Open Scope list_scope.
#[local] Open Scope Z_scope.

Definition MIN_WITNESS_ITEM_FOR_HASHLOCK : nat := 2.
Definition PREIMAGE_LEN : nat := 32.
Definition HEART_BEAT_INTERVAL : nat := 3.

(** What recovery reaches beyond [MakerOutside] and [RecoveryChain]. *)
Class RecoveryOutside (D : Type) := {
  rv_maker :: MakerOutside D;
  rv_chain :: RecoveryChain D (file := mo_file);
  rv_spending_transaction : OutPoint -> Script -> stateful D WalletError (option Transaction);
  rv_watch_request : OutPoint -> stateful D WatcherError WatcherEvent;
}.

Inductive RecoveryKind := HashlockRecovery | TimelockRecovery.

(** The server with its swap tracker, the reports it wrote and the recovery
    threads it started. *)
Record MakerNode (D : Type) := {
  mn_server : MakerServer D;
  mn_tracker : MakerSwapTracker;
  mn_tracker_poisoned : bool;
  mn_reports : list (string * RecoveryKind * list Txid);
  mn_threads : list (string * list IncomingSwapCoin * list OutgoingSwapCoin);
}.
Arguments mn_server {D} _.
Arguments mn_tracker {D} _.
Arguments mn_tracker_poisoned {D} _.
Arguments mn_reports {D} _.
Arguments mn_threads {D} _.
Arguments Build_MakerNode {D} _ _ _ _ _.

Section recovery.
Context {lib : BitcoinLib} {tap : TaprootLib} {hi : HashIter} {D : Type} {ov : RecoveryOutside D}
  (faults : nat -> option FlushFault).
Abbreviation node_op := (stateful (MakerNode D) MakerError).

(** ** Access *)
Definition on_server {A} (m : stateful (MakerServer D) MakerError A) : node_op A := fun n =>
  let '(r, s) := m (mn_server n) in (r, {| n with mn_server := s |}).
Definition node_outside {A} (m : stateful D WalletError A) : node_op A := on_server (in_wallet (in_outside m)).
Definition world_of (n : MakerNode D) : D := wl_outside (srv_wallet (mn_server n)).
Definition modify_world (f : D -> D) : node_op () :=
  modify (fun n => {| n with mn_server := {| (mn_server n) with srv_wallet :=
    {| (srv_wallet (mn_server n)) with wl_outside := f (world_of n) |} |} |}).
Definition is_shutdown : node_op bool := gets (fun n => cc_shutdown (world_of n)).

(** A call of one of the wallet's static recovery functions with [&maker.wallet]. *)
Definition on_shared {A} (m : stateful (SharedWallet D) WalletError A) : node_op A := fun n =>
  let s := mn_server n in
  let '(r, w) := m (Build_SharedWallet (srv_wallet s) (srv_wallet_poisoned s)) in
  (map_err ME_Wallet r, {| n with mn_server := {| s with srv_wallet := sw_wallet w |} |}).

(** [wait_for_shutdown] for whole seconds. *)
Fixpoint wait_for_shutdown (seconds : nat) : node_op bool :=
  match seconds with
  | O => is_shutdown ≫= fun down : bool => mret (negb down)
  | S seconds =>
      is_shutdown ≫= fun down : bool =>
      if down then mret false
      else modify_world (cc_sleep SECOND) ≫= fun _ => wait_for_shutdown seconds
  end.

(** ** Preimages *)
Definition indexed_outputs (tx : Transaction) : list (OutPoint * Script) :=
  imap (fun vout o => ({| op_txid := compute_txid tx; op_vout := wrap 32 (Z.of_nat vout) |}, script_pubkey o)) (output tx).

(** The spend of one contract output, from the node or from the watcher. *)
Definition find_spend (direct : bool) (o : OutPoint * Script) : node_op (option Transaction) :=
  if direct then node_outside (rv_spending_transaction o.1 o.2)
  else fun n =>
    let '(r, d) := rv_watch_request o.1 (world_of n) in
    let n := {| n with mn_server := {| (mn_server n) with srv_wallet :=
                  {| (srv_wallet (mn_server n)) with wl_outside := d |} |} |} in
    (match r with
     | Ok (UtxoSpent _ spending_tx) => Ok spending_tx
     | Ok _ => Ok None
     | Err _ => Err (ME_General "watchtower query failed")
     | Panic => Panic
     end, n).

(** What the loop over the spends carries: [seen_outpoints] and [preimages]. *)
Record PreimageScan := { ps_seen : gset (Txid * Z); ps_preimages : list Preimage }.

Definition scan_input (p : PreimageScan) (i : TxIn) : PreimageScan :=
  let op := (op_txid (previous_output i), op_vout (previous_output i)) in
  let fresh := bool_decide (op ∉ ps_seen p) in
  let p := {| p with ps_seen := {[op]} ∪ ps_seen p |} in
  if fresh && (MIN_WITNESS_ITEM_FOR_HASHLOCK <=? length (witness i))%nat then
    match witness i !! 1%nat with
    | Some item => if (length item =? PREIMAGE_LEN)%nat
                   then {| p with ps_preimages := ps_preimages p ++ [item] |} else p
    | None => p
    end
  else p.

Definition scan_output (direct : bool) (p : PreimageScan) (o : OutPoint * Script) : node_op PreimageScan :=
  find_spend direct o ≫= fun spending_tx =>
  mret (match spending_tx with Some tx => fold_left scan_input (input tx) p | None => p end).

(** Whether a preimage opens the hashlock of an incoming coin. *)
Definition preimage_matches (incoming : IncomingSwapCoin) (preimage : Preimage) : outcome MakerError bool :=
  match isc_contract_redeemscript incoming with
  | Some redeemscript =>
      match read_hashvalue_from_contract redeemscript with
      | Ok h => Ok (bool_decide (h = hash160 preimage))
      | Err _ => Ok false
      | Panic => Panic
      end
  | None =>
      Ok (match isc_hashlock_script incoming with
          | Some script => bool_decide (slice 2 34 script = Some (sha256 preimage))
          | None => false
          end)
  end.

Fixpoint first_match (incoming : IncomingSwapCoin) (preimages : list Preimage) : outcome MakerError (option Preimage) :=
  match preimages with
  | [] => Ok None
  | preimage :: rest =>
      preimage_matches incoming preimage ≫= fun m : bool =>
      if m then Ok (Some preimage) else first_match incoming rest
  end.

(** [find_incoming_swapcoin_mut] and the write through it. *)
Definition set_preimage_if_none (p : Preimage) (c : IncomingSwapCoin) : IncomingSwapCoin :=
  match isc_hash_preimage c with None => isc_set_preimage c p | Some _ => c end.

Definition apply_preimages (preimages : list Preimage) (st : WalletStore) (incoming : IncomingSwapCoin)
    : outcome MakerError WalletStore :=
  first_match incoming preimages ≫= fun m =>
  Ok (match m with
      | Some preimage =>
          {| st with wst_incoming_swapcoins :=
               alter (set_preimage_if_none preimage) (compute_txid (isc_contract_tx incoming))
                 (wst_incoming_swapcoins st) |}
      | None => st
      end).

Definition check_for_preimage (outgoing_swapcoins : list OutgoingSwapCoin) (incoming_swapcoins : list IncomingSwapCoin)
    : node_op () :=
  on_server lock_wallet ≫= fun _ =>
  gets (fun n => negb (mo_watch_alive (world_of n))) ≫= fun direct : bool =>
  (if direct then node_outside mo_new_connection else mret ()) ≫= fun _ =>
  st_fold (scan_output direct) {| ps_seen := ∅; ps_preimages := [] |}
    (flat_map (fun c => indexed_outputs (osc_contract_tx c)) outgoing_swapcoins) ≫= fun scan =>
  match ps_preimages scan with
  | [] => mret ()
  | preimages =>
      on_server lock_wallet ≫= fun _ =>
      gets (fun n => try_fold (apply_preimages preimages) (wl_store (srv_wallet (mn_server n))) incoming_swapcoins) ≫= fun r =>
      lift r ≫= fun store =>
      on_server (update_store (fun _ => store)) ≫= fun _ =>
      on_server (in_wallet save_to_disk)
  end.

(** ** Tracker *)
Definition tracker_write {A} (m : stateful MakerSwapTracker MakerError A) (n : MakerNode D) : MakerNode D :=
  {| n with mn_tracker := (m (mn_tracker n)).2 |}.

(** A poisoned lock, a missing record and a failed flush are only logged. *)
Definition update_tracker (swap_id : string) (f : MakerSwapRecord -> MakerSwapRecord) : node_op () := fun n =>
  if mn_tracker_poisoned n then (Ok (), n)
  else
    match maker_get_record swap_id (mn_tracker n) with
    | None => (Ok (), n)
    | Some record =>
        let record := {| (f record) with msr_updated_at := mo_now (world_of n) |} in
        let n := {| n with mn_tracker := maker_get_record_mut swap_id (fun _ => record) (mn_tracker n) |} in
        (Ok (), tracker_write (maker_save_record faults record) n)
    end.

Definition set_phase (p : MakerSwapPhase) (q : MakerRecoveryPhase) (r : MakerSwapRecord) : MakerSwapRecord :=
  {| r with msr_phase := p; msr_recovery := {| (msr_recovery r) with mrs_phase := q |} |}.
Definition set_recovery (f : MakerRecoveryState -> MakerRecoveryState) (r : MakerSwapRecord) : MakerSwapRecord :=
  {| r with msr_recovery := f (msr_recovery r) |}.

(** ** Recovering a swap *)
Definition emit_report (swap_id : string) (kind : RecoveryKind) (txids : list Txid) : node_op () :=
  modify (fun n => {| n with mn_reports := mn_reports n ++ [(swap_id, kind, txids)] |}).

Definition remove_outgoing_coins (coins : list OutgoingSwapCoin) (st : WalletStore) : WalletStore :=
  fold_left (fun st c => remove_outgoing_swapcoin (compute_txid (osc_contract_tx c)) st) coins st.
Definition remove_incoming_coins (coins : list IncomingSwapCoin) (st : WalletStore) : WalletStore :=
  fold_left (fun st c => (remove_incoming_swapcoin (compute_txid (isc_contract_tx c)) st).2) coins st.

(** The contracts of a swap: neither output is unspent any more. *)
Definition all_swap_contracts_resolved (outgoing : list OutgoingSwapCoin) (incoming : list IncomingSwapCoin) : node_op bool :=
  on_server lock_wallet ≫= fun _ =>
  let contract_txids :=
    map (fun c => (compute_txid (osc_contract_tx c), osc_get_contract_output_vout c)) outgoing
    ++ map (fun c => (compute_txid (isc_contract_tx c), isc_get_contract_output_vout c)) incoming in
  st_fold (fun resolved p =>
      if (resolved : bool) then
        node_outside (mo_get_tx_out p.1 p.2) ≫= fun o => mret (bool_decide (o = None))
      else mret false) true contract_txids.

Section swap.
Context (swap_id : string) (incoming_swapcoins : list IncomingSwapCoin) (outgoing_swapcoins : list OutgoingSwapCoin).

(** Nothing was broadcast: the records are dropped. *)
Definition discard_unfunded : node_op () :=
  on_server lock_wallet ≫= fun _ =>
  on_server (update_store (fun st => remove_incoming_coins incoming_swapcoins (remove_outgoing_coins outgoing_swapcoins st))) ≫= fun _ =>
  on_server (in_wallet save_to_disk) ≫= fun _ =>
  update_tracker swap_id (set_phase MSP_Recovered MRP_CleanedUp).

(** After a sweep that returned something: the outgoing records go, the swap is done. *)
Definition finish_hashlock (swept : RecoveryOutcome) : node_op () :=
  let swept_txids := map snd (ro_resolved swept) in
  update_tracker swap_id (set_recovery (fun rs =>
    {| rs with mrs_incoming_swept := swept_txids; mrs_phase := MRP_HashlockRecovered |})) ≫= fun _ =>
  on_server lock_wallet ≫= fun _ =>
  on_server (update_store (remove_outgoing_coins outgoing_swapcoins)) ≫= fun _ =>
  on_server (in_wallet save_to_disk) ≫= fun _ =>
  update_tracker swap_id (set_phase MSP_Recovered MRP_CleanedUp) ≫= fun _ =>
  emit_report swap_id HashlockRecovery swept_txids.

Definition hashlock_path : node_op bool :=
  on_server lock_wallet ≫= fun _ =>
  on_server (in_wallet rc_sync_and_save) ≫= fun _ =>
  on_shared (sweep_incoming_swapcoins (f64_of_Z MIN_FEE_RATE)
    (Some (map (fun c => compute_txid (isc_contract_tx c)) incoming_swapcoins))) ≫= fun swept =>
  if ro_is_empty swept then mret false
  else finish_hashlock swept ≫= fun _ => mret true.

(** [Some txids] goes on with the refunds made so far, [None] is done. *)
Definition timelock_path (timelock_recovery_txids : list Txid) : node_op (option (list Txid)) :=
  update_tracker swap_id (set_recovery (fun rs => {| rs with mrs_phase := MRP_TimelockWaiting |})) ≫= fun _ =>
  on_shared (recover_timelocked_swapcoins (f64_of_Z MIN_FEE_RATE)) ≫= fun recovered =>
  if ro_is_empty recovered then mret (Some timelock_recovery_txids)
  else
    let txids := timelock_recovery_txids ++ map snd (ro_resolved recovered) in
    update_tracker swap_id (set_recovery (fun rs =>
      {| rs with mrs_outgoing_recovered := txids; mrs_phase := MRP_TimelockRecovered |})) ≫= fun _ =>
    attempt (all_swap_contracts_resolved outgoing_swapcoins incoming_swapcoins) ≫= fun r =>
    match r with
    | inl true =>
        update_tracker swap_id (set_phase MSP_Recovered MRP_CleanedUp) ≫= fun _ =>
        emit_report swap_id TimelockRecovery txids ≫= fun _ => mret None
    | _ => mret (Some txids)
    end.

Definition preimage_known (st : WalletStore) (c : IncomingSwapCoin) : bool :=
  match find_incoming_swapcoin (compute_txid (isc_contract_tx c)) st with
  | Some s => isc_is_preimage_known s
  | None => false
  end.

(** One turn of [while !maker.is_shutdown()]; [None] leaves the loop. *)
Definition recovery_pass (timelock_expiry : Z) (timelock_recovery_txids : list Txid) : node_op (option (list Txid)) :=
  attempt (check_for_preimage outgoing_swapcoins incoming_swapcoins) ≫= fun checked =>
  match checked with
  | inr _ =>
      wait_for_shutdown HEART_BEAT_INTERVAL ≫= fun go_on : bool =>
      mret (if go_on then Some timelock_recovery_txids else None)
  | inl _ =>
      is_shutdown ≫= fun down : bool =>
      if down then mret None
      else
        on_server lock_wallet ≫= fun _ =>
        gets (fun n => forallb (preimage_known (wl_store (srv_wallet (mn_server n)))) incoming_swapcoins) ≫= fun all_known : bool =>
        let claim := all_known && negb (bool_decide (incoming_swapcoins = [])) in
        on_server srv_get_current_height ≫= fun current_height =>
        (if claim || (timelock_expiry <=? current_height)
         then on_server lock_wallet ≫= fun _ => node_outside mo_new_connection else mret ()) ≫= fun _ =>
        (if claim then hashlock_path else mret false) ≫= fun claimed : bool =>
        if claimed then mret None
        else
          (if timelock_expiry <=? current_height then timelock_path timelock_recovery_txids
           else mret (Some timelock_recovery_txids)) ≫= fun next =>
          match next with
          | None => mret None
          | Some txids =>
              modify_world (cc_sleep (Z.of_nat HEART_BEAT_INTERVAL * SECOND)) ≫= fun _ => mret (Some txids)
          end
  end.

(** The loop; [false] when the fuel ran out while it was still turning. *)
Fixpoint recovery_loop (fuel : nat) (timelock_expiry : Z) (txids : list Txid) : node_op bool :=
  match fuel with
  | O => mret false
  | S fuel =>
      is_shutdown ≫= fun down : bool =>
      if down then mret true
      else
        recovery_pass timelock_expiry txids ≫= fun next =>
        match next with
        | None => mret true
        | Some txids => recovery_loop fuel timelock_expiry txids
        end
  end.

Definition funding_was_broadcast (n : MakerNode D) : option bool :=
  msr_funding_broadcast <$> maker_get_record swap_id (mn_tracker n).

Definition recover_from_swap (fuel : nat) : node_op bool :=
  lift (ok_or (head outgoing_swapcoins ≫= osc_get_timelock)
    (ME_General "missing timelock on outgoing swapcoin")) ≫= fun timelock_expiry =>
  on_server srv_get_current_height ≫= fun _ =>
  (fun n => (reject (mn_tracker_poisoned n) ME_MutexPossion, n)) ≫= fun _ =>
  gets funding_was_broadcast ≫= fun funding_broadcast =>
  if bool_decide (funding_broadcast = Some false) then
    discard_unfunded ≫= fun _ => mret true
  else
    update_tracker swap_id (set_phase MSP_Recovering MRP_Monitoring) ≫= fun _ =>
    recovery_loop fuel timelock_expiry [].
End swap.

(** ** Starting recoveries *)
Definition spawn_recovery (id : string) (inc : list IncomingSwapCoin) (out : list OutgoingSwapCoin) : node_op () :=
  modify (fun n => {| n with mn_threads := mn_threads n ++ [(id, inc, out)] |}).

Definition idle_record (now : Z) (idle : IdleSwapData) : MakerSwapRecord :=
  {| msr_swap_id := isd_swap_id idle; msr_protocol := isd_protocol idle; msr_phase := MSP_TakerDropped;
     msr_swap_amount_sat := isd_swap_amount_sat idle; msr_incoming_count := zlen (isd_incoming_swapcoins idle);
     msr_outgoing_count := zlen (isd_outgoing_swapcoins idle);
     msr_funding_broadcast := isd_funding_broadcast idle; msr_recovery := MakerRecoveryState_default;
     msr_created_at := now; msr_updated_at := now |}.

Definition start_idle_recovery (idle : IdleSwapData) : node_op () :=
  gets (fun n => mo_now (world_of n)) ≫= fun now =>
  (fun n => (reject (mn_tracker_poisoned n) ME_MutexPossion, n)) ≫= fun _ =>
  modify (tracker_write (maker_save_record faults (idle_record now idle))) ≫= fun _ =>
  spawn_recovery (isd_swap_id idle) (isd_incoming_swapcoins idle) (isd_outgoing_swapcoins idle).

Definition IDLE_CONNECTION_TIMEOUT : Z := 900.

(** One turn of the idle checker; [false] leaves its loop. *)
Definition check_for_idle_states : node_op bool :=
  is_shutdown ≫= fun down : bool =>
  if down then mret false
  else
    on_server (drain_idle_swaps IDLE_CONNECTION_TIMEOUT) ≫= fun idle_swaps =>
    st_for_each start_idle_recovery idle_swaps ≫= fun _ =>
    wait_for_shutdown HEART_BEAT_INTERVAL.

(** The recovery of [start_server]: unfinished coins grouped by swap. *)
Abbreviation Groups := (gmap string (list IncomingSwapCoin * list OutgoingSwapCoin)).

Definition add_incoming (c : IncomingSwapCoin) (g : option (list IncomingSwapCoin * list OutgoingSwapCoin)) :=
  let g := default ([], []) g in Some (g.1 ++ [c], g.2).
Definition add_outgoing (c : OutgoingSwapCoin) (g : option (list IncomingSwapCoin * list OutgoingSwapCoin)) :=
  let g := default ([], []) g in Some (g.1, g.2 ++ [c]).

Definition group_incoming (g : Groups) (c : IncomingSwapCoin) : outcome MakerError Groups :=
  id ← ok_or (isc_swap_id c) (ME_General "Persisted incoming swapcoin missing swap id");
  Ok (partial_alter (add_incoming c) id g).
Definition group_outgoing (g : Groups) (c : OutgoingSwapCoin) : outcome MakerError Groups :=
  id ← ok_or (osc_swap_id c) (ME_General "Persisted outgoing swapcoin missing swap id");
  Ok (partial_alter (add_outgoing c) id g).

Definition group_unfinished (inc : list IncomingSwapCoin) (out : list OutgoingSwapCoin) : outcome MakerError Groups :=
  g ← try_fold group_incoming ∅ inc;
  try_fold group_outgoing g out.

Definition start_unfinished_recoveries : node_op () :=
  on_server lock_wallet ≫= fun _ =>
  gets (fun n => find_unfinished_swapcoins (wl_store (srv_wallet (mn_server n)))) ≫= fun p =>
  if bool_decide (p.1 = []) && bool_decide (p.2 = []) then mret ()
  else
    lift (group_unfinished p.1 p.2) ≫= fun groups =>
    st_for_each (fun x => spawn_recovery x.1 x.2.1 x.2.2) (hash_iter groups).
End recovery.
