(* ===== verification/MakerRecoverySafety.v ===== *)
(** What a maker's recovery thread may do to the records of its coins.

    The thread is a loop over [check_for_preimage], the sweep of the incoming coins
    and the refund of the outgoing ones.  This file composes the theorems on the
    two wallet functions with the rest of the loop, for runs of any length and
    any outcome, and shows what ends a recovery too early. *)
From S2P Require Import Prelude Float64 Bitcoin Messages Contract Errors SwapCoin ScriptEval TaprootLib Taproot TakerTracker TakerState LegacyVerification MakerHandlers WalletStore MakerApi WatchRegistry Watcher MakerTracker ChainWait WalletRecovery RecoverySafety SweepSafety MakerRecovery.
#[local] Open Scope string_scope.
#[local] Open Scope list_scope.
#[local] Open Scope Z_scope.

(** A history of the world along which every call of a recovery thread moves. *)
Class NodeMoves {D : Type} {ov : RecoveryOutside D} (R : D -> D -> Prop) : Prop := {
  nm_recovery :: RecoveryMoves (file := mo_file) R;
  nm_new_connection d : R d (mo_new_connection d).2;
  nm_block_count d : R d (mo_get_block_count d).2;
  nm_tx_out txid vout d : R d (mo_get_tx_out txid vout d).2;
  nm_spending o spk d : R d (rv_spending_transaction o spk d).2;
  nm_watch o d : R d (rv_watch_request o d).2;
}.

Section safety.
Context {lib : BitcoinLib} {tap : TaprootLib} {hi : HashIter} {hil : HashIterLaws hi} {D : Type}
  {ov : RecoveryOutside D} (R : D -> D -> Prop) {nm : NodeMoves R} {sk : SyncKeepsCoins (file := mo_file) D}
  (faults : nat -> option FlushFault).

Abbreviation outgoing n := (wst_outgoing_swapcoins (wl_store (srv_wallet (mn_server n)))).
Abbreviation incoming n := (wst_incoming_swapcoins (wl_store (srv_wallet (mn_server n)))).
Abbreviation fee := (f64_of_Z MIN_FEE_RATE).

(** ** The relation between the records before and after *)

(** An incoming coin as it was, or with a preimage that opens its hashlock. *)
Definition inc_kept (c c' : IncomingSwapCoin) : Prop :=
  c' = c \/ exists p, isc_hash_preimage c = None /\ c' = isc_set_preimage c p /\ preimage_matches c p = Ok true.

(** The records of a swap whose funding, says the tracker, never went out. *)
Context (unfunded : Prop) (swap_in : list IncomingSwapCoin) (swap_out : list OutgoingSwapCoin).
Definition in_keys : list Txid := map (fun c => compute_txid (isc_contract_tx c)) swap_in.
Definition out_keys : list Txid := map (fun c => compute_txid (osc_contract_tx c)) swap_out.

(** One incoming coin of the swap was swept. *)
Definition one_swept (d d' : D) : Prop :=
  exists c, compute_txid (isc_contract_tx c) ∈ in_keys /\ swept R fee c d d'.

Definition gone_out (k : Txid) (c : OutgoingSwapCoin) (d d' : D) : Prop :=
  (k ∈ out_keys /\ (unfunded \/ one_swept d d')) \/
  exists c', coin_kept c c' /\ (refunded R fee c' d d' \/ discardable R c' d d').

Definition gone_in (k : Txid) (c : IncomingSwapCoin) (d d' : D) : Prop :=
  (k ∈ in_keys /\ unfunded) \/ exists c', inc_kept c c' /\ swept R fee c' d d'.

Record accounts (n n' : MakerNode D) : Prop := {
  ac_moves : R (world_of n) (world_of n');
  ac_out : forall k, match outgoing n !! k, outgoing n' !! k with
    | Some c, Some c' => coin_kept c c'
    | Some c, None => gone_out k c (world_of n) (world_of n')
    | None, None => True
    | None, Some _ => False
    end;
  ac_in : forall k, match incoming n !! k, incoming n' !! k with
    | Some c, Some c' => inc_kept c c'
    | Some c, None => gone_in k c (world_of n) (world_of n')
    | None, None => True
    | None, Some _ => False
    end;
}.

Lemma inc_kept_trans c1 c2 c3 : inc_kept c1 c2 -> inc_kept c2 c3 -> inc_kept c1 c3.
Proof.
  intros [->|(p & H1 & -> & H2)] [->|(q & H3 & -> & H4)]; unfold inc_kept; eauto 10.
Qed.

Lemma one_swept_mono d0 d d' d1 : R d0 d -> R d' d1 -> one_swept d d' -> one_swept d0 d1.
Proof. intros H0 H1 (c & Hc & Hs). exists c. split; [done|]. by apply (swept_mono R fee c d0 d d' d1). Qed.

Lemma gone_out_mono k c c1 d0 d d' d1 :
  coin_kept c c1 -> R d0 d -> R d' d1 -> gone_out k c1 d d' -> gone_out k c d0 d1.
Proof.
  intros Hc H0 H1 [[Hk [Hu|Hs]]|(c' & Hc' & [Hr|Hr])].
  - left. eauto.
  - left. split; [done|]. right. by apply (one_swept_mono d0 d d' d1).
  - right. exists c'. split; [by eapply coin_kept_trans|]. left. by apply (refunded_mono R fee c' d0 d d' d1).
  - right. exists c'. split; [by eapply coin_kept_trans|]. right. by apply (discardable_mono R c' d0 d d' d1).
Qed.

Lemma gone_in_mono k c c1 d0 d d' d1 :
  inc_kept c c1 -> R d0 d -> R d' d1 -> gone_in k c1 d d' -> gone_in k c d0 d1.
Proof.
  intros Hc H0 H1 [Hk|(c' & Hc' & Hr)]; [by left|]. right. exists c'. split; [by eapply inc_kept_trans|].
  by apply (swept_mono R fee c' d0 d d' d1).
Qed.

#[local] Instance accounts_preorder : PreOrder accounts.
Proof.
  split.
  - intros n. split; [done|..]; intros k.
    + destruct (outgoing n !! k); [apply coin_kept_refl|done].
    + destruct (incoming n !! k); [by left|done].
  - intros n1 n2 n3 [M1 O1 I1] [M2 O2 I2]. split; [by etrans|..]; intros k.
    + specialize (O1 k). specialize (O2 k).
      destruct (outgoing n1 !! k) as [c1|], (outgoing n2 !! k) as [c2|], (outgoing n3 !! k) as [c3|]; try done.
      * by eapply coin_kept_trans.
      * by apply (gone_out_mono k c1 c2 _ (world_of n2) (world_of n3) (world_of n3)).
      * apply (gone_out_mono k c1 c1 _ (world_of n1) (world_of n2) (world_of n3)); [apply coin_kept_refl|done..].
    + specialize (I1 k). specialize (I2 k).
      destruct (incoming n1 !! k) as [c1|], (incoming n2 !! k) as [c2|], (incoming n3 !! k) as [c3|]; try done.
      * by eapply inc_kept_trans.
      * by apply (gone_in_mono k c1 c2 _ (world_of n2) (world_of n3) (world_of n3)).
      * apply (gone_in_mono k c1 c1 _ (world_of n1) (world_of n2) (world_of n3)); [by left|done..].
Qed.

(** Records are filed under the txid of their contract. *)
Definition filed (n : MakerNode D) : Prop :=
  (forall k c, outgoing n !! k = Some c -> k = compute_txid (osc_contract_tx c)) /\
  (forall k c, incoming n !! k = Some c -> k = compute_txid (isc_contract_tx c)).

Lemma accounts_filed n n' : accounts n n' -> filed n -> filed n'.
Proof.
  intros [_ O I] [Ho Hi]. split; intros k c Hc.
  - specialize (O k). rewrite Hc in O. destruct (outgoing n !! k) as [c0|] eqn:H0; [|done].
    destruct O as [a ->]. by apply Ho in H0.
  - specialize (I k). rewrite Hc in I. destruct (incoming n !! k) as [c0|] eqn:H0; [|done].
    destruct I as [->|(p & _ & -> & _)]; by apply Hi in H0.
Qed.

(** The coins of the loop and the stored ones agree on what a hashlock is. *)
Definition same_lock (c c' : IncomingSwapCoin) : Prop :=
  isc_contract_redeemscript c' = isc_contract_redeemscript c /\ isc_hashlock_script c' = isc_hashlock_script c.

Lemma matches_same_lock c c' p : same_lock c c' -> preimage_matches c' p = preimage_matches c p.
Proof. intros [H1 H2]. unfold preimage_matches. by rewrite H1, H2. Qed.

(** The thread's coins are copies of the stored ones. *)
Definition copies (n : MakerNode D) : Prop :=
  forall c c', c ∈ swap_in -> incoming n !! compute_txid (isc_contract_tx c) = Some c' -> same_lock c c'.

Lemma accounts_copies n n' : accounts n n' -> copies n -> copies n'.
Proof.
  intros [_ _ I] Hc c c' Hin Hl. specialize (I (compute_txid (isc_contract_tx c))). rewrite Hl in I.
  destruct (incoming n !! _) as [c0|] eqn:H0; [|done]. specialize (Hc c c0 Hin H0).
  by destruct I as [->|(p & _ & -> & _)].
Qed.

Definition ready (n : MakerNode D) : Prop := filed n /\ copies n.

Lemma accounts_ready n n' : accounts n n' -> ready n -> ready n'.
Proof. intros Ha [Hf Hc]. split; [by eapply accounts_filed|by eapply accounts_copies]. Qed.

(** ** Operations that keep the accounts, on every outcome *)
Definition fair {A} (m : stateful (MakerNode D) MakerError A) : Prop :=
  forall n, ready n -> accounts n (m n).2.

Lemma fair_bind {A B} (m : stateful (MakerNode D) MakerError A) (f : A -> stateful (MakerNode D) MakerError B) :
  fair m -> (forall a, fair (f a)) -> fair (m ≫= f).
Proof.
  intros Hm Hf n Hn. specialize (Hm n Hn). unfold mbind, stateful_bind.
  destruct (m n) as [[a|e|] n1]; cbn in *; [|done..]. etrans; [exact Hm|]. apply Hf. by eapply accounts_ready.
Qed.

(** A step that leaves the coins alone. *)
Lemma fair_quiet {A} (m : stateful (MakerNode D) MakerError A) :
  (forall n, R (world_of n) (world_of (m n).2) /\ outgoing (m n).2 = outgoing n /\ incoming (m n).2 = incoming n) -> fair m.
Proof.
  intros Hm n _. destruct (Hm n) as (M & O & I). split; [done|..]; intros k; rewrite ?O, ?I.
  - destruct (outgoing n !! k); [apply coin_kept_refl|done].
  - destruct (incoming n !! k); [by left|done].
Qed.
Lemma fair_server {A} (m : stateful (MakerNode D) MakerError A) :
  (forall n, mn_server (m n).2 = mn_server n) -> fair m.
Proof. intros Hm. apply fair_quiet. intros n. unfold world_of. by rewrite Hm. Qed.
Lemma fair_attempt {A} (m : stateful (MakerNode D) MakerError A) : fair m -> fair (attempt (E' := MakerError) m).
Proof. intros Hm n Hn. specialize (Hm n Hn). unfold attempt. by destruct (m n) as [[a|e|] n1]. Qed.
Lemma fair_fold {A B} (f : B -> A -> stateful (MakerNode D) MakerError B) acc xs :
  (forall b x, fair (f b x)) -> fair (st_fold f acc xs).
Proof.
  intros Hf. revert acc. induction xs as [|x xs IH]; intros acc; [by apply fair_server|].
  apply fair_bind; auto.
Qed.
Lemma fair_outside {A} (op : stateful D WalletError A) : moving R op -> fair (node_outside op).
Proof.
  intros Hop. apply fair_quiet. intros n. specialize (Hop (world_of n)).
  unfold node_outside, on_server, in_wallet, in_outside, world_of in *.
  by destruct (op (wl_outside (srv_wallet (mn_server n)))) as [r d].
Qed.
Lemma fair_lock : fair (on_server lock_wallet).
Proof. apply fair_server. intros [s ? ? ? ?]. cbn. done. Qed.
Lemma fair_save : fair (on_server (in_wallet save_to_disk)).
Proof.
  apply fair_quiet. intros n. unfold on_server, in_wallet, save_to_disk, world_of.
  pose proof (rm_write (wl_store (srv_wallet (mn_server n))) (wl_outside (srv_wallet (mn_server n)))) as Hw.
  by destruct (write_wallet_file _ _) as [r d].
Qed.
Lemma fair_height : fair (on_server srv_get_current_height).
Proof.
  apply fair_quiet. intros n. unfold on_server, srv_get_current_height, lock_wallet, mbind, stateful_bind, in_wallet, in_outside, world_of.
  pose proof (nm_block_count (wl_outside (srv_wallet (mn_server n)))) as Hb.
  destruct (srv_wallet_poisoned (mn_server n)); cbn; [done|].
  destruct (mo_get_block_count _) as [[h|e|] d]; cbn in *; done.
Qed.
Lemma fair_sync : fair (on_server (in_wallet rc_sync_and_save)).
Proof.
  apply fair_quiet. intros n. unfold on_server, in_wallet, world_of.
  pose proof (rm_sync (srv_wallet (mn_server n))) as M. destruct (sync_keeps_coins (srv_wallet (mn_server n))) as [Ho Hi].
  by destruct (rc_sync_and_save (srv_wallet (mn_server n))) as [r w].
Qed.
Lemma fair_world f : (forall d, R d (f d)) -> fair (modify_world f).
Proof. intros Hf. apply fair_quiet. intros n. split; [apply Hf|done]. Qed.
Lemma fair_tracker id f : fair (update_tracker faults id f).
Proof. apply fair_server. intros n. unfold update_tracker. by repeat case_match. Qed.
Lemma fair_wait k : fair (wait_for_shutdown k).
Proof.
  induction k as [|k IH]; cbn [wait_for_shutdown].
  - apply fair_bind; [by apply fair_server|]. intros b. by apply fair_server.
  - apply fair_bind; [by apply fair_server|]. intros b. case_match; [by apply fair_server|].
    apply fair_bind; [|done]. apply fair_world. intros d. apply moves_sleep.
Qed.

(** ** Preimages *)
Lemma fair_find_spend direct o : fair (find_spend direct o).
Proof.
  unfold find_spend. destruct direct; [apply fair_outside; intros d; apply nm_spending|].
  apply fair_quiet. intros n. pose proof (nm_watch o.1 (world_of n)) as Hw. unfold world_of in *.
  by destruct (rv_watch_request o.1 _) as [r d].
Qed.

Lemma first_match_spec c ps p : first_match c ps = Ok (Some p) -> p ∈ ps /\ preimage_matches c p = Ok true.
Proof.
  induction ps as [|q ps IH]; cbn; [done|]. intros Hm. apply bind_Ok in Hm as (b & Hb & Hm). destruct b.
  - injection Hm as ->. split; [by left|done].
  - apply IH in Hm as [? ?]. split; [by right|done].
Qed.

Lemma apply_preimages_kept preimages cs : forall st st',
  (forall c c', c ∈ cs -> wst_incoming_swapcoins st !! compute_txid (isc_contract_tx c) = Some c' -> same_lock c c') ->
  try_fold (apply_preimages preimages) st cs = Ok st' ->
  wst_outgoing_swapcoins st' = wst_outgoing_swapcoins st /\
  forall k, match wst_incoming_swapcoins st !! k, wst_incoming_swapcoins st' !! k with
            | Some c, Some c' => inc_kept c c'
            | None, None => True
            | _, _ => False
            end.
Proof.
  induction cs as [|c cs IH]; intros st st' Hsame; cbn [try_fold].
  - intros [= <-]. split; [done|]. intros k. by destruct (wst_incoming_swapcoins st !! k); [left|].
  - intros (st1 & H1 & H2)%bind_Ok. unfold apply_preimages in H1. apply bind_Ok in H1 as (m & Hm & [= <-]).
    set (st1 := match m with Some _ => _ | None => _ end) in *.
    assert (wst_outgoing_swapcoins st1 = wst_outgoing_swapcoins st /\
      forall k, match wst_incoming_swapcoins st !! k, wst_incoming_swapcoins st1 !! k with
            | Some c, Some c' => inc_kept c c' | None, None => True | _, _ => False end) as [O1 I1].
    { unfold st1. destruct m as [p|].
      - split; [done|]. intros k. cbn. apply first_match_spec in Hm as [_ Hm].
        destruct (decide (k = compute_txid (isc_contract_tx c))) as [->|Hk].
        + rewrite lookup_alter_eq. destruct (wst_incoming_swapcoins st !! _) as [c0|] eqn:H0; [|done]. cbn.
          unfold set_preimage_if_none. destruct (isc_hash_preimage c0) eqn:Hp; [by left|]. right. exists p.
          split; [done|]. split; [done|]. rewrite (matches_same_lock c c0); [done|]. apply Hsame; [by left|done].
        + rewrite lookup_alter_ne by done. by destruct (wst_incoming_swapcoins st !! k); [left|].
      - split; [done|]. intros k. by destruct (wst_incoming_swapcoins st !! k); [left|]. }
    apply IH in H2 as [O2 I2].
    + split; [by rewrite O2|]. intros k. specialize (I1 k). specialize (I2 k).
      destruct (wst_incoming_swapcoins st !! k), (wst_incoming_swapcoins st1 !! k), (wst_incoming_swapcoins st' !! k); try done.
      by eapply inc_kept_trans.
    + intros c1 c' Hin Hl. specialize (I1 (compute_txid (isc_contract_tx c1))). rewrite Hl in I1.
      destruct (wst_incoming_swapcoins st !! _) as [c0|] eqn:H0; [|done].
      destruct (Hsame c1 c0) as [? ?]; [by right|done|].
      by destruct I1 as [->|(p & _ & -> & _)].
Qed.

Lemma fair_check_for_preimage : fair (check_for_preimage swap_out swap_in).
Proof.
  apply fair_bind; [apply fair_lock|]. intros _. apply fair_bind; [by apply fair_server|]. intros direct.
  apply fair_bind.
  { case_match; [|by apply fair_server]. apply fair_outside. intros d. apply nm_new_connection. }
  intros _. apply fair_bind.
  { apply fair_fold. intros b o. apply fair_bind; [apply fair_find_spend|]. intros t. by apply fair_server. }
  intros scan. case_match; [by apply fair_server|]. set (preimages := _ :: _).
  apply fair_bind; [apply fair_lock|]. intros _. intros n [Hf Hc].
  rewrite (st_bind_step _ _ n (try_fold (apply_preimages preimages) (wl_store (srv_wallet (mn_server n))) swap_in) n) by done.
  destruct (try_fold _ _ _) as [st'|e|] eqn:Ef; [|reflexivity..].
  apply apply_preimages_kept in Ef as [O I]; [|exact Hc].
  rewrite (st_bind_step _ _ n st' n) by done.
  set (n1 := {| n with mn_server := {| (mn_server n) with srv_wallet :=
    {| (srv_wallet (mn_server n)) with wl_store := st' |} |} |}).
  rewrite (st_bind_step _ _ n () n1) by done.
  assert (accounts n n1) as Ha.
  { split; [done|..]; intros k; cbn.
    - rewrite O. destruct (outgoing n !! k); [apply coin_kept_refl|done].
    - specialize (I k). by destruct (incoming n !! k), (wst_incoming_swapcoins st' !! k). }
  etrans; [exact Ha|]. apply fair_save. by eapply accounts_ready.
Qed.

(** ** The two paths *)
Definition shared_of (n : MakerNode D) : SharedWallet D :=
  Build_SharedWallet (srv_wallet (mn_server n)) (srv_wallet_poisoned (mn_server n)).

Lemma fair_timelock : fair (on_shared (recover_timelocked_swapcoins fee)).
Proof.
  intros n [[Ho _] _]. unfold on_shared. fold (shared_of n).
  destruct (recover_timelocked_swapcoins fee (shared_of n)) as [r s'] eqn:E.
  apply (recovery_accounted R fee (shared_of n) s' r) in E as [(M & Hi & Ha) _]; [|exact Ho].
  split; [exact M|..]; intros k; cbn.
  - specialize (Ha k). cbn in Ha.
    destruct (outgoing n !! k) as [c|], (wst_outgoing_swapcoins (wl_store (sw_wallet s')) !! k); try done.
    right. exists c. split; [apply coin_kept_refl|exact Ha].
  - cbn in Hi. rewrite Hi. by destruct (incoming n !! k); [left|].
Qed.

(** A sweep; when it reports something, one coin of the swap was swept. *)
Lemma sweep_accounts n r n' :
  ready n -> on_shared (sweep_incoming_swapcoins fee (Some in_keys)) n = (r, n') ->
  accounts n n' /\ (forall o, r = Ok o -> ro_is_empty o = false -> one_swept (world_of n) (world_of n')).
Proof.
  intros [[_ Hk] _]. unfold on_shared. fold (shared_of n).
  destruct (sweep_incoming_swapcoins fee (Some in_keys) (shared_of n)) as [r1 s1] eqn:E. intros [= <- <-].
  apply (sweep_run R) in E as (res & [M O Hs Hg Hl] & Hr); [|exact Hk]. cbn in *. split.
  - split; [exact M|..]; intros k; cbn.
    + rewrite O. destruct (outgoing n !! k); [apply coin_kept_refl|done].
    + specialize (Hs k). destruct (incoming n !! k) as [c|] eqn:Hc, (wst_incoming_swapcoins (wl_store (sw_wallet s1)) !! k) as [c'|] eqn:Hc'; try done.
      * left. by specialize (Hs c' eq_refl) as [= ->].
      * right. exists c. split; [by left|]. by apply (Hg k c).
      * by specialize (Hs c' eq_refl).
  - intros o Ho Hne. destruct r1 as [o1|e|]; [|done..]. injection Ho as ->. injection (Hr eq_refl) as ->.
    destruct res as [|[k t] res]; [done|].
    destruct (proj1 (Hl k)) as [[c Hc] Hn]; [by left|]. destruct (Hg k c Hc Hn) as [Hcomp Hsw].
    exists c. split; [|done]. unfold is_completed in Hcomp. apply andb_true_iff in Hcomp as [_ Hin].
    by apply bool_decide_eq_true in Hin.
Qed.

Lemma remove_outgoing_coins_spec cs st :
  wst_incoming_swapcoins (remove_outgoing_coins cs st) = wst_incoming_swapcoins st /\
  forall k, wst_outgoing_swapcoins (remove_outgoing_coins cs st) !! k =
    if bool_decide (k ∈ map (fun c => compute_txid (osc_contract_tx c)) cs) then None
    else wst_outgoing_swapcoins st !! k.
Proof.
  unfold remove_outgoing_coins. revert st. induction cs as [|c cs IH]; intros st; cbn; [done|].
  destruct (IH (remove_outgoing_swapcoin (compute_txid (osc_contract_tx c)) st)) as [Hi Ho].
  split; [exact Hi|]. intros k. rewrite Ho. cbn.
  destruct (decide (k = compute_txid (osc_contract_tx c))) as [->|Hk].
  - rewrite lookup_delete_eq, (bool_decide_eq_true_2 (_ ∈ _ :: _)) by set_solver. by case_bool_decide.
  - rewrite lookup_delete_ne by done. do 2 case_bool_decide; done || set_solver.
Qed.

Lemma remove_incoming_coins_spec cs st :
  wst_outgoing_swapcoins (remove_incoming_coins cs st) = wst_outgoing_swapcoins st /\
  forall k, wst_incoming_swapcoins (remove_incoming_coins cs st) !! k =
    if bool_decide (k ∈ map (fun c => compute_txid (isc_contract_tx c)) cs) then None
    else wst_incoming_swapcoins st !! k.
Proof.
  unfold remove_incoming_coins. revert st. induction cs as [|c cs IH]; intros st; cbn; [done|].
  destruct (IH (remove_incoming_swapcoin (compute_txid (isc_contract_tx c)) st).2) as [Hi Ho].
  split; [exact Hi|]. intros k. rewrite Ho. cbn.
  destruct (decide (k = compute_txid (isc_contract_tx c))) as [->|Hk].
  - rewrite lookup_delete_eq, (bool_decide_eq_true_2 (_ ∈ _ :: _)) by set_solver. by case_bool_decide.
  - rewrite lookup_delete_ne by done. do 2 case_bool_decide; done || set_solver.
Qed.

(** Steps after a sweep that reported something, counted from before the sweep. *)
Definition after_sweep (n0 n : MakerNode D) : Prop :=
  ready n0 /\ accounts n0 n /\ one_swept (world_of n0) (world_of n).
Definition closing {A} (m : stateful (MakerNode D) MakerError A) : Prop :=
  forall n0 n, after_sweep n0 n -> after_sweep n0 (m n).2.

Lemma closing_bind {A B} (m : stateful (MakerNode D) MakerError A) (f : A -> stateful (MakerNode D) MakerError B) :
  closing m -> (forall a, closing (f a)) -> closing (m ≫= f).
Proof.
  intros Hm Hf n0 n Hn. specialize (Hm n0 n Hn). unfold mbind, stateful_bind.
  destruct (m n) as [[a|e|] n1]; cbn in *; [|done..]. by apply Hf.
Qed.
Lemma fair_closing {A} (m : stateful (MakerNode D) MakerError A) : fair m -> closing m.
Proof.
  intros Hm n0 n (Hr & Ha & Hs). assert (accounts n (m n).2) as Hn by by apply Hm; eapply accounts_ready.
  split; [done|]. split; [by etrans|]. apply (one_swept_mono _ (world_of n0) (world_of n) _); [done| |done]. apply Hn.
Qed.

Lemma closing_remove : closing (on_server (update_store (remove_outgoing_coins swap_out))).
Proof.
  intros n0 n (Hr & [M O I] & Hs). split; [done|]. split; [|exact Hs].
  destruct (remove_outgoing_coins_spec swap_out (wl_store (srv_wallet (mn_server n)))) as [Hi Ho].
  split; [exact M|..]; intros k; cbn.
  - rewrite Ho. specialize (O k). case_bool_decide as Hk; [|exact O].
    destruct (outgoing n0 !! k); [|done]. left. auto.
  - rewrite Hi. exact (I k).
Qed.

Lemma closing_finish id o : closing (finish_hashlock faults id swap_out o).
Proof.
  apply closing_bind; [apply fair_closing, fair_tracker|]. intros _.
  apply closing_bind; [apply fair_closing, fair_lock|]. intros _.
  apply closing_bind; [apply closing_remove|]. intros _.
  apply closing_bind; [apply fair_closing, fair_save|]. intros _.
  apply closing_bind; [apply fair_closing, fair_tracker|]. intros _.
  by apply fair_closing, fair_server.
Qed.

Lemma fair_hashlock id : fair (hashlock_path faults id swap_in swap_out).
Proof.
  apply fair_bind; [apply fair_lock|]. intros _. apply fair_bind; [apply fair_sync|]. intros _.
  intros n Hn. unfold mbind, stateful_bind. fold in_keys.
  destruct (on_shared (sweep_incoming_swapcoins fee (Some in_keys)) n) as [r n1] eqn:E.
  apply sweep_accounts in E as [Ha Hs]; [|done]. destruct r as [o|e|]; [|done..].
  destruct (ro_is_empty o) eqn:He; [done|].
  destruct (closing_finish id o n n1) as (_ & Hc & _); [by split; [|split; [|apply (Hs o)]]|].
  by destruct (finish_hashlock faults id swap_out o n1) as [[[]|e|] n2].
Qed.

Lemma fair_discard id : unfunded -> fair (discard_unfunded faults id swap_in swap_out).
Proof.
  intros Hu. apply fair_bind; [apply fair_lock|]. intros _. apply fair_bind.
  - intros n _. set (st := wl_store (srv_wallet (mn_server n))).
    destruct (remove_outgoing_coins_spec swap_out st) as [Oi Oo].
    destruct (remove_incoming_coins_spec swap_in (remove_outgoing_coins swap_out st)) as [Io Ii].
    split; [reflexivity|..]; intros k; cbn; fold st.
    + rewrite Io, Oo. case_bool_decide; destruct (wst_outgoing_swapcoins st !! k) as [c|]; try done;
        [left; auto|apply coin_kept_refl].
    + rewrite Ii, Oi. case_bool_decide; destruct (wst_incoming_swapcoins st !! k) as [c|]; try done;
        [left; auto|by left].
  - intros _. apply fair_bind; [apply fair_save|]. intros _. apply fair_tracker.
Qed.

Lemma fair_resolved out inc : fair (all_swap_contracts_resolved out inc).
Proof.
  apply fair_bind; [apply fair_lock|]. intros _. apply fair_fold. intros b p. destruct b; [|by apply fair_server].
  apply fair_bind; [apply fair_outside; intros d; apply nm_tx_out|]. intros o. by apply fair_server.
Qed.

Lemma fair_timelock_path id txids : fair (timelock_path faults id swap_in swap_out txids).
Proof.
  apply fair_bind; [apply fair_tracker|]. intros _. apply fair_bind; [apply fair_timelock|]. intros o.
  case_match; [by apply fair_server|]. cbv zeta. apply fair_bind; [apply fair_tracker|]. intros _.
  apply fair_bind; [apply fair_attempt, fair_resolved|]. intros [[]|e]; [|by apply fair_server..].
  apply fair_bind; [apply fair_tracker|]. intros _. apply fair_bind; [by apply fair_server|].
  intros _. by apply fair_server.
Qed.

Lemma fair_pass id expiry txids : fair (recovery_pass faults id swap_in swap_out expiry txids).
Proof.
  apply fair_bind; [apply fair_attempt, fair_check_for_preimage|]. intros [u|e].
  2: { apply fair_bind; [apply fair_wait|]. intros b. by apply fair_server. }
  apply fair_bind; [by apply fair_server|]. intros down. case_match; [by apply fair_server|].
  apply fair_bind; [apply fair_lock|]. intros _. apply fair_bind; [by apply fair_server|]. intros known. cbv zeta.
  apply fair_bind; [apply fair_height|]. intros h. apply fair_bind.
  { case_match; [|by apply fair_server]. apply fair_bind; [apply fair_lock|]. intros _.
    apply fair_outside. intros d. apply nm_new_connection. }
  intros _. apply fair_bind; [case_match; [apply fair_hashlock|by apply fair_server]|]. intros claimed.
  case_match; [by apply fair_server|].
  apply fair_bind; [case_match; [apply fair_timelock_path|by apply fair_server]|]. intros [next|]; [|by apply fair_server].
  apply fair_bind; [apply fair_world; intros d; apply moves_sleep|]. intros _. by apply fair_server.
Qed.

Lemma fair_loop id expiry fuel : forall txids, fair (recovery_loop faults id swap_in swap_out fuel expiry txids).
Proof.
  induction fuel as [|fuel IH]; intros txids; cbn [recovery_loop]; [by apply fair_server|].
  apply fair_bind; [by apply fair_server|]. intros down. case_match; [by apply fair_server|].
  apply fair_bind; [apply fair_pass|]. intros [next|]; [apply IH|by apply fair_server].
Qed.
End safety.

Section theorems.
Context {lib : BitcoinLib} {tap : TaprootLib} {hi : HashIter} {hil : HashIterLaws hi} {D : Type}
  {ov : RecoveryOutside D} (faults : nat -> option FlushFault).

Lemma recover_fair R `{!NodeMoves R} `{!SyncKeepsCoins (file := mo_file) D} id inc out fuel n :
  ready inc n ->
  accounts R (funding_was_broadcast id n = Some false) inc out n (recover_from_swap faults id inc out fuel n).2.
Proof.
  intros Hn. unfold recover_from_swap. set (P := funding_was_broadcast id n = Some false).
  pose proof (accounts_preorder R P inc out) as Hpre.
  destruct (ok_or (head out ≫= osc_get_timelock) (ME_General "missing timelock on outgoing swapcoin")) as [expiry|e|] eqn:Et;
    [|reflexivity..]. rewrite (st_bind_step _ _ n expiry n) by done.
  unfold mbind at 1, stateful_bind at 1.
  pose proof (fair_height R P inc out n Hn) as Hh. destruct (on_server srv_get_current_height n) as [[h|e|] n1] eqn:E1;
    [|exact Hh..]. cbn in Hh. assert (ready inc n1) as Hn1 by by eapply accounts_ready.
  assert (mn_tracker n1 = mn_tracker n) as Htr.
  { unfold on_server in E1. destruct (srv_get_current_height (mn_server n)). by injection E1 as _ <-. }
  unfold mbind at 1, stateful_bind at 1. destruct (mn_tracker_poisoned n1); cbn [reject]; [exact Hh|].
  rewrite (st_bind_step _ _ n1 (funding_was_broadcast id n1) n1) by done.
  assert (funding_was_broadcast id n1 = funding_was_broadcast id n) as -> by (unfold funding_was_broadcast; by rewrite Htr).
  etrans; [exact Hh|]. clear E1 Hh Htr. case_bool_decide as Hb; revert n1 Hn1.
  - enough (fair R P inc out (discard_unfunded faults id inc out ≫= fun _ => mret true)) as Hf by exact Hf.
    apply (fair_bind R); [by apply (fair_discard R)|]. intros []. by apply (fair_server R).
  - enough (fair R P inc out (update_tracker faults id (set_phase MSP_Recovering MRP_Monitoring) ≫= fun _ =>
      recovery_loop faults id inc out fuel expiry [])) as Hf by exact Hf.
    apply (fair_bind R); [apply (fair_tracker R)|]. intros _. apply (fair_loop R).
Qed.

(** C28: A recovery thread of a maker accounts for every coin.  For a run of any
    length, with any result: an outgoing coin of the wallet is still recorded,
    unchanged but for a refund destination, unless the swap under recovery owns it
    and the tracker says its funding was never broadcast, or the swap owns it
    and one of its incoming coins was swept, or the node gave the evidence for a
    refund or for a discard; an incoming coin is still recorded, unchanged or
    with a preimage that opens its hashlock, unless it belongs to the swap and the
    tracker says the funding was never broadcast, or it was itself swept.  No record
    appears. *)
Theorem maker_recovery_accounts_for_coins (R : D -> D -> Prop) `{!NodeMoves R} `{!SyncKeepsCoins (file := mo_file) D}
    id inc out fuel (n n' : MakerNode D) r :
  ready inc n -> recover_from_swap faults id inc out fuel n = (r, n') ->
  let coins_out n := wst_outgoing_swapcoins (wl_store (srv_wallet (mn_server n))) in
  let coins_in n := wst_incoming_swapcoins (wl_store (srv_wallet (mn_server n))) in
  let unfunded := funding_was_broadcast id n = Some false in
  (forall k c, coins_out n !! k = Some c ->
     (exists c', coins_out n' !! k = Some c' /\ coin_kept c c') \/
     (coins_out n' !! k = None /\ gone_out R unfunded inc out k c (world_of n) (world_of n'))) /\
  (forall k c, coins_in n !! k = Some c ->
     (exists c', coins_in n' !! k = Some c' /\ inc_kept c c') \/
     (coins_in n' !! k = None /\ gone_in R unfunded inc k c (world_of n) (world_of n'))) /\
  (forall k, coins_out n !! k = None -> coins_out n' !! k = None) /\
  (forall k, coins_in n !! k = None -> coins_in n' !! k = None).
Proof.
  intros Hn Hrun. pose proof (recover_fair R id inc out fuel n Hn) as [_ O I]. rewrite Hrun in O, I. cbn in *.
  split; [|split; [|split]]; intros k; [intros c Hc|intros c Hc|intros Hc|intros Hc].
  - specialize (O k). rewrite Hc in O. destruct (_ !! k) as [c'|]; [left; eauto|by right].
  - specialize (I k). rewrite Hc in I. destruct (_ !! k) as [c'|]; [left; eauto|by right].
  - specialize (O k). rewrite Hc in O. by destruct (_ !! k).
  - specialize (I k). rewrite Hc in I. by destruct (_ !! k).
Qed.

(** Once the wallet holds no outgoing coin the timelock path finds nothing, so it
    never asks again whether the contracts of the swap are resolved: a thread
    whose only such question failed, or came too early, never closes its swap. *)
Lemma timelock_path_without_coins id inc out txids (n : MakerNode D) :
  srv_wallet_poisoned (mn_server n) = false ->
  wst_outgoing_swapcoins (wl_store (srv_wallet (mn_server n))) = ∅ ->
  (timelock_path faults id inc out txids n).1 = Ok (Some txids).
Proof.
  intros Hp He. unfold timelock_path.
  destruct (update_tracker faults id (set_recovery (fun rs => {| rs with mrs_phase := MRP_TimelockWaiting |})) n)
    as [r n1] eqn:Eu.
  assert (r = Ok () /\ mn_server n1 = mn_server n) as [-> Hs].
  { unfold update_tracker in Eu. destruct (mn_tracker_poisoned n); [by injection Eu as <- <-|].
    destruct (maker_get_record id (mn_tracker n)); by injection Eu as <- <-. }
  rewrite (st_bind_step _ _ n () n1) by exact Eu.
  assert (timelock_candidates (wl_store (srv_wallet (mn_server n1))) = []) as Hc.
  { unfold timelock_candidates. rewrite Hs, He.
    assert (hash_iter (∅ : gmap Txid OutgoingSwapCoin) = []) as -> by (apply Permutation_nil; by rewrite hash_iter_perm). done. }
  unfold mbind at 1, stateful_bind at 1, on_shared, recover_timelocked_swapcoins, mbind, stateful_bind, lock_shared.
  cbn [sw_poisoned]. rewrite Hs, Hp. rewrite Hs in Hc. cbn. by rewrite Hc.
Qed.

(** ** Restart *)
Abbreviation Group := (list IncomingSwapCoin * list OutgoingSwapCoin)%type.
Definition group_of (g : gmap string Group) (id : string) : Group := default ([], []) (g !! id).
(** No group is empty. *)
Definition groups_ok (g : gmap string Group) : Prop := forall id, g !! id <> Some ([], []).

Lemma group_of_alter f i id (g : gmap string Group) :
  group_of (partial_alter f i g) id = if decide (i = id) then default ([], []) (f (g !! id)) else group_of g id.
Proof.
  unfold group_of. destruct (decide (i = id)) as [->|].
  - by rewrite lookup_partial_alter_eq.
  - by rewrite lookup_partial_alter_ne.
Qed.

Lemma groups_ok_alter f i (g : gmap string Group) :
  groups_ok g -> f (g !! i) <> Some ([], []) -> groups_ok (partial_alter f i g).
Proof.
  intros Hg Hf id. destruct (decide (i = id)) as [->|].
  - by rewrite lookup_partial_alter_eq.
  - by rewrite lookup_partial_alter_ne.
Qed.

Lemma group_incoming_spec inc : forall g g',
  groups_ok g -> try_fold group_incoming g inc = Ok g' ->
  groups_ok g' /\ forall id, group_of g' id =
    ((group_of g id).1 ++ filter (fun c => isc_swap_id c = Some id) inc, (group_of g id).2).
Proof.
  induction inc as [|c inc IH]; intros g g' Hg; cbn [try_fold].
  - intros [= <-]. split; [done|]. intros id. rewrite app_nil_r. by destruct (group_of g id).
  - intros (g1 & H1 & H2)%bind_Ok. unfold group_incoming in H1. apply bind_Ok in H1 as (i & Hi%ok_or_Ok & [= <-]).
    apply IH in H2 as [Hg' H2].
    + split; [done|]. intros id. rewrite H2, group_of_alter, filter_cons, Hi. destruct (decide (i = id)) as [->|Hid].
      * rewrite decide_True by done. unfold add_incoming, group_of. cbn. by rewrite <- app_assoc.
      * by rewrite decide_False by congruence.
    + apply groups_ok_alter; [done|]. unfold add_incoming. intros [= Hnil _]. by apply app_nil in Hnil as [_ ?].
Qed.

Lemma group_outgoing_spec out : forall g g',
  groups_ok g -> try_fold group_outgoing g out = Ok g' ->
  groups_ok g' /\ forall id, group_of g' id =
    ((group_of g id).1, (group_of g id).2 ++ filter (fun c => osc_swap_id c = Some id) out).
Proof.
  induction out as [|c out IH]; intros g g' Hg; cbn [try_fold].
  - intros [= <-]. split; [done|]. intros id. rewrite app_nil_r. by destruct (group_of g id).
  - intros (g1 & H1 & H2)%bind_Ok. unfold group_outgoing in H1. apply bind_Ok in H1 as (i & Hi%ok_or_Ok & [= <-]).
    apply IH in H2 as [Hg' H2].
    + split; [done|]. intros id. rewrite H2, group_of_alter, filter_cons, Hi. destruct (decide (i = id)) as [->|Hid].
      * rewrite decide_True by done. unfold add_outgoing, group_of. cbn. by rewrite <- app_assoc.
      * by rewrite decide_False by congruence.
    + apply groups_ok_alter; [done|]. unfold add_outgoing. intros [= _ Hnil]. by apply app_nil in Hnil as [_ ?].
Qed.

Definition incoming_of (id : string) (n : MakerNode D) : list IncomingSwapCoin :=
  filter (fun c => isc_swap_id c = Some id) (find_unfinished_swapcoins (wl_store (srv_wallet (mn_server n)))).1.
Definition outgoing_of (id : string) (n : MakerNode D) : list OutgoingSwapCoin :=
  filter (fun c => osc_swap_id c = Some id) (find_unfinished_swapcoins (wl_store (srv_wallet (mn_server n)))).2.

Lemma spawn_all_run l (n : MakerNode D) :
  st_for_each (fun x : string * Group => spawn_recovery x.1 x.2.1 x.2.2) l n =
  (Ok (), {| n with mn_threads := mn_threads n ++ map (fun x => (x.1, x.2.1, x.2.2)) l |}).
Proof.
  revert n. induction l as [|x l IH]; intros n; cbn [st_for_each map].
  - rewrite app_nil_r. by destruct n.
  - erewrite (st_bind_step _ _ n) by reflexivity. rewrite IH. cbn. by rewrite <- app_assoc.
Qed.

Lemma groups_threads inc out g :
  group_unfinished inc out = Ok g ->
  let started := map (fun x : string * Group => (x.1, x.2.1, x.2.2)) (hash_iter g) in
  NoDup (map (fun t => t.1.1) started) /\
  forall id i o, (id, i, o) ∈ started <->
    i = filter (fun c => isc_swap_id c = Some id) inc /\ o = filter (fun c => osc_swap_id c = Some id) out /\
    (i <> [] \/ o <> []).
Proof.
  intros (g1 & Hg1 & Hg2)%bind_Ok. cbv zeta.
  apply group_incoming_spec in Hg1 as [Ok1 E1]; [|intros id; by rewrite lookup_empty].
  apply group_outgoing_spec in Hg2 as [Ok2 E2]; [|done]. split.
  - rewrite map_map. cbn. rewrite (hash_iter_perm (hi := hi) g). apply NoDup_fst_map_to_list.
  - intros id i o. transitivity (g !! id = Some (i, o)).
    + rewrite <- (elem_of_hash_iter g). rewrite list_elem_of_fmap. split.
      * by intros ([x [y z]] & [= -> -> ->] & ?).
      * intros ?. by exists (id, (i, o)).
    + specialize (E2 id). specialize (E1 id). rewrite E1 in E2. unfold group_of in E2.
      specialize (Ok2 id). rewrite lookup_empty in E2. cbn in E2.
      destruct (g !! id) as [[x y]|]; cbn in E2; injection E2 as -> ->; split.
      * intros [= <- <-]. split; [done|]. split; [done|]. 
        destruct (filter _ inc) as [|]; [right|by left]. intros Hy. apply Ok2. by rewrite Hy.
      * by intros (-> & -> & _).
      * done.
      * intros (-> & -> & [?|?]); congruence.
Qed.

(** A restart hands every unfinished coin to exactly one recovery thread, that
    of its swap, with all the other unfinished coins of that swap; nothing else
    changes.  A thread whose swap has incoming coins but no outgoing one returns an
    error before it looks at the chain, whatever it is given, so such coins are
    never recovered. *)
Lemma restart_recovery_covers_swaps (n n' : MakerNode D) :
  start_unfinished_recoveries n = (Ok (), n') ->
  mn_server n' = mn_server n /\
  (exists started, mn_threads n' = mn_threads n ++ started /\ NoDup (map (fun t => t.1.1) started) /\
     forall id inc out, (id, inc, out) ∈ started <->
       inc = incoming_of id n /\ out = outgoing_of id n /\ (inc <> [] \/ out <> [])) /\
  (forall id inc fuel n1, recover_from_swap faults id inc [] fuel n1 =
     (Err (ME_General "missing timelock on outgoing swapcoin"), n1)).
Proof.
  unfold start_unfinished_recoveries. intros ([] & n0 & H0 & Hr)%st_bind_Ok.
  assert (n0 = n) as -> by (unfold on_server, lock_wallet in H0; by destruct n; injection H0 as _ <-).
  set (p := find_unfinished_swapcoins (wl_store (srv_wallet (mn_server n)))).
  rewrite (st_bind_step _ _ n p n) in Hr by done.
  assert (forall id, incoming_of id n = filter (fun c => isc_swap_id c = Some id) p.1) as Hin by done.
  assert (forall id, outgoing_of id n = filter (fun c => osc_swap_id c = Some id) p.2) as Hout by done.
  destruct (bool_decide (p.1 = []) && bool_decide (p.2 = [])) eqn:Hnone.
  { apply andb_true_iff in Hnone as [H1%bool_decide_eq_true H2%bool_decide_eq_true]. injection Hr as <-.
    split; [done|]. split; [|done]. exists []. rewrite app_nil_r. split; [done|].
    split; [constructor|]. intros id inc out. rewrite Hin, Hout, H1, H2. cbn. split; [by intros ?%not_elem_of_nil|].
    intros (-> & -> & [?|?]); done. }
  apply st_bind_Ok in Hr as (g & n1 & [Hg ->]%lift_Ok & Hr). rewrite spawn_all_run in Hr. injection Hr as <-.
  split; [done|]. split; [|done]. eexists. split; [done|]. by apply groups_threads.
Qed.
End theorems.

(** ** A concrete maker *)
Section node.
Context {lib : BitcoinLib}.
#[export] Instance node_maker : MakerOutside RecoveryNode := {|
  mo_file := node_file;
  mo_now d := tn_now (rn_clock d);
  mo_watch_alive _ := true;
  mo_register_watch_request _ _ d := (Ok (), d);
  mo_get_block_count d := (Ok (rn_height d), d);
  mo_new_connection d := (Ok (), d);
  mo_get_tx_out txid vout d :=
    (Ok ((fun _ => {| value := 5000; script_pubkey := [] |}) <$> rn_out {| op_txid := txid; op_vout := vout |} None d), d);
  mo_tx_block_height _ d := (Ok (Some (rn_height d)), d);
  mo_wait_for_tx_confirmation _ _ d := (Ok (), d);
  mo_send_tx := rn_send;
  mo_get_raw_transaction _ d := (Err (WE_General "unknown"), d);
  mo_sync_and_save w := (Ok (), w);
  mo_tweakable_keypair d := (Ok (100, pubkey_of 100, []), d);
  mo_generate_keypair d := (101, d);
  mo_import_swap_address _ _ d := (Ok (), d);
  mo_random_secret_key d := (102, d);
  mo_create_funding_txes _ _ _ _ _ w := (Err (WE_General "no funds"), w);
|}.
#[export] Instance node_recovery : RecoveryOutside RecoveryNode := {|
  rv_maker := node_maker;
  rv_chain := node_chain;
  rv_spending_transaction _ _ d := (Ok None, d);
  rv_watch_request o d := (Ok (UtxoSpent o None), d);
|}.
#[export] Instance node_history_moves : NodeMoves node_history.
Proof. split; [apply node_moves|..]; intros; apply node_moves. Qed.
#[export] Instance node_recovery_sync : SyncKeepsCoins (file := mo_file) RecoveryNode.
Proof. by intros w. Qed.
End node.

#[local] Existing Instance Reference.lib.
#[local] Existing Instance TapReference.tap.
#[local] Existing Instance key_order.

(** A swap with two incoming coins and one outgoing one. *)
Definition ex_contract_tx (n : Z) : Transaction := {| (isc_contract_tx ex_incoming) with lock_time := n |}.
Definition ex_in (n : Z) : IncomingSwapCoin :=
  {| ex_incoming with isc_swap_id := Some "swap"; isc_contract_tx := ex_contract_tx n |}.
Definition ex_back : OutgoingSwapCoin :=
  {| ex_signed_outgoing with osc_swap_id := Some "swap"; osc_contract_tx := ex_contract_tx 9 |}.
Definition ex_maker (outgoing : gmap Txid OutgoingSwapCoin) (incoming : gmap Txid IncomingSwapCoin)
    (node : RecoveryNode) : MakerNode RecoveryNode :=
  Build_MakerNode
    (Build_MakerServer Sample.config
       (Build_Wallet {| WalletStore_init with wst_outgoing_swapcoins := outgoing; wst_incoming_swapcoins := incoming |} node)
       false None false ∅ false)
    {| mt_data := ∅; mt_file := None; mt_flushes := 0 |} false [] [].
Definition ex_txid (n : Z) : Txid := compute_txid (ex_contract_tx n).
Definition ex_two_coins : MakerNode RecoveryNode :=
  ex_maker {[ ex_txid 9 := ex_back ]} {[ ex_txid 1 := ex_in 1; ex_txid 2 := ex_in 2 ]}
    (ex_node {[ {| op_txid := ex_txid 1; op_vout := 0 |} := 2 ]} [] false).
Definition ex_run : outcome MakerError bool * MakerNode RecoveryNode :=
  recover_from_swap (fun _ => None) "swap" [ex_in 1; ex_in 2] [ex_back] 3 ex_two_coins.

(** One swept coin ends the recovery of the whole swap: the second incoming coin,
    whose contract is not on chain yet, stays in the wallet, but the outgoing coin
    is gone and the swap counts as recovered.  The restart starts a thread for it
    with no outgoing coin, and that thread gives up at once. *)
Lemma partial_sweep_ends_recovery :
  let n := ex_run.2 in
  let restarted := (start_unfinished_recoveries n).2 in
  ex_run.1 = Ok true /\
  wst_outgoing_swapcoins (wl_store (srv_wallet (mn_server n))) = ∅ /\
  wst_incoming_swapcoins (wl_store (srv_wallet (mn_server n))) = {[ ex_txid 2 := ex_in 2 ]} /\
  map (fun r => r.1) (mn_reports n) = [("swap", HashlockRecovery)] /\
  mn_threads restarted = [("swap", [ex_in 2], [])] /\
  (recover_from_swap (fun _ => None) "swap" [ex_in 2] [] 3 restarted).1 =
    Err (ME_General "missing timelock on outgoing swapcoin").
Proof. vm_compute. repeat split. Qed.

Lemma ex_two_coins_ready : ready [ex_in 1; ex_in 2] ex_two_coins.
Proof.
  assert (wst_incoming_swapcoins (wl_store (srv_wallet (mn_server ex_two_coins))) =
          {[ ex_txid 1 := ex_in 1; ex_txid 2 := ex_in 2 ]}) as Hi by reflexivity.
  assert (wst_outgoing_swapcoins (wl_store (srv_wallet (mn_server ex_two_coins))) = {[ ex_txid 9 := ex_back ]})
    as Ho by reflexivity.
  split; [split|].
  - intros k c. rewrite Ho. intros [<- <-]%lookup_singleton_Some. vm_compute. reflexivity.
  - intros k c. rewrite Hi. intros [[<- <-]|[_ [<- <-]%lookup_singleton_Some]]%lookup_insert_Some; vm_compute; reflexivity.
  - intros c c' Hc. apply elem_of_cons in Hc as [->|Hc]; [|apply list_elem_of_singleton in Hc as ->]; rewrite Hi;
      intros [[_ <-]|[_ [_ <-]%lookup_singleton_Some]]%lookup_insert_Some; split; reflexivity.
Qed.

Lemma ex_run_gone : wst_incoming_swapcoins (wl_store (srv_wallet (mn_server ex_run.2))) !! ex_txid 1 = None.
Proof. vm_compute. reflexivity. Qed.

(** The first coin of that run is gone because it was swept. *)
Lemma maker_recovery_accounts_for_coins_witness :
  exists c, inc_kept (ex_in 1) c /\
    swept node_history (f64_of_Z MIN_FEE_RATE) c (world_of ex_two_coins) (world_of ex_run.2).
Proof.
  destruct (maker_recovery_accounts_for_coins (fun _ => None) node_history "swap" [ex_in 1; ex_in 2] [ex_back] 3
    ex_two_coins ex_run.2 ex_run.1 ex_two_coins_ready (surjective_pairing _)) as (_ & Hin & _).
  destruct (Hin (ex_txid 1) (ex_in 1)) as [(c' & Hc' & _)|[_ [[_ Hu]|Hs]]].
  - apply lookup_insert_Some. left. split; reflexivity.
  - rewrite ex_run_gone in Hc'. discriminate Hc'.
  - vm_compute in Hu. discriminate Hu.
  - exact Hs.
Defined.

Lemma restart_recovery_covers_swaps_witness :
  exists n', start_unfinished_recoveries ex_two_coins = (Ok (), n') /\
    exists inc out, ("swap", inc, out) ∈ mn_threads n' /\ out = [ex_back] /\ length inc = 2%nat.
Proof.
  exists (start_unfinished_recoveries ex_two_coins).2.
  assert (start_unfinished_recoveries ex_two_coins = (Ok (), (start_unfinished_recoveries ex_two_coins).2)) as Hrun
    by (vm_compute; reflexivity).
  split; [exact Hrun|].
  destruct (restart_recovery_covers_swaps (fun _ => None) ex_two_coins _ Hrun) as (_ & (started & Hs & _ & Hall) & _).
  exists (incoming_of "swap" ex_two_coins), (outgoing_of "swap" ex_two_coins). split; [|split].
  - rewrite Hs. apply elem_of_app. right. apply Hall. split; [reflexivity|]. split; [reflexivity|]. right.
    vm_compute. discriminate.
  - vm_compute. reflexivity.
  - vm_compute. reflexivity.
Defined.
