(* ===== verification/Framing.v ===== *)
(** Message framing: [send_message] and [read_message] of src/maker/server.rs and
    of src/utill.rs.

    A socket is what will arrive on it, with the delay of each arrival, the clock,
    and what was written.  A read takes what the next arrival holds, up to the size
    of the buffer; it fails with [WouldBlock] when nothing arrives within the
    timeout.  Payloads are encoded by serde_cbor, the class [Cbor]. *)
From S2P Require Import Prelude Bitcoin Messages Contract Errors ChainWait.
#[local] Open Scope string_scope.
#[local] Open Scope list_scope.
#[local] Open Scope Z_scope.

Definition MILLISECOND : Z := 1000000.
Definition MAX_RPC_MESSAGE_SIZE : Z := 10 * 1024 * 1024.
Definition MESSAGE_ASSEMBLY_TIMEOUT : Z := 60 * SECOND.
Definition CONNECTION_READ_TIMEOUT : Z := 1800 * SECOND.

(** [std::io::ErrorKind]; an [io::Error] is carried as the name of its kind. *)
Inductive ErrorKind := WouldBlock | TimedOut | Interrupted | UnexpectedEof | OtherIo.
Definition kind_text (k : ErrorKind) : string :=
  match k with
  | WouldBlock => "WouldBlock" | TimedOut => "TimedOut" | Interrupted => "Interrupted"
  | UnexpectedEof => "UnexpectedEof" | OtherIo => "Other"
  end.

Class Cbor (M : Type) := { to_vec : M -> option bytes; from_slice : bytes -> option M }.
Class CborLaws {M} (cb : Cbor M) : Prop := cbor_round_trip m buf : to_vec m = Some buf -> from_slice buf = Some m.

(** ** The socket *)
Inductive Arrival :=
| Data (b : Z) (bs : bytes)
| Closed
| Fault (k : ErrorKind).

Record Stream := {
  sm_now : Z;
  sm_incoming : list (Z * Arrival);
  sm_sent : bytes;
  sm_write_fault : option ErrorKind;
}.

Abbreviation io := (stateful Stream ErrorKind).

Definition arrive (delay : Z) (rest : list (Z * Arrival)) (s : Stream) : Stream :=
  {| s with sm_now := sm_now s + delay; sm_incoming := rest |}.

Definition stream_read (timeout : Z) (n : nat) : io bytes := fun s =>
  match sm_incoming s with
  | [] => (Err WouldBlock, arrive timeout [] s)
  | (delay, a) :: rest =>
      if timeout <? delay then (Err WouldBlock, arrive timeout ((delay - timeout, a) :: rest) s)
      else
        match a with
        | Data b bs =>
            (Ok (take n (b :: bs)),
             arrive delay (match drop n (b :: bs) with [] => rest | c :: cs => (0, Data c cs) :: rest end) s)
        | Closed => (Ok [], arrive delay ((0, Closed) :: rest) s)
        | Fault k => (Err k, arrive delay rest s)
        end
  end.

Definition stream_write (bs : bytes) : io () := fun s =>
  match sm_write_fault s with
  | Some k => (Err k, s)
  | None => (Ok (), {| s with sm_sent := sm_sent s ++ bs |})
  end.

(** ** Length prefix *)
Definition be_bytes (n : Z) : bytes := [n / 2 ^ 24 mod 256; n / 2 ^ 16 mod 256; n / 2 ^ 8 mod 256; n mod 256].
Definition be_value (bs : bytes) : Z := fold_left (fun acc b => acc * 256 + b) bs 0.
Definition frame (buf : bytes) : bytes := be_bytes (wrap 32 (zlen buf)) ++ buf.

(** ** The maker's side *)
Section server.
Abbreviation net := (stateful Stream MakerError).

Definition deadline_expired : MakerError := ME_General "Message read deadline expired".

Definition read_timeout (deadline : option Z) (now : Z) : outcome MakerError Z :=
  t ← match deadline with
      | Some dl => if now <=? dl then Ok (dl - now) else Err deadline_expired
      | None => Ok CONNECTION_READ_TIMEOUT
      end;
  Ok (Z.max t MILLISECOND).

Definition read_error (deadline : option Z) (k : ErrorKind) : MakerError :=
  match deadline, k with
  | Some _, (WouldBlock | TimedOut) => deadline_expired
  | _, _ => ME_IO (kind_text k)
  end.

(** [while !buf.is_empty()], with [n] bytes still to fill. *)
Fixpoint read_exact_loop (fuel n : nat) (deadline : option Z) (got : bytes) : net bytes := fun s =>
  match n with
  | O => (Ok got, s)
  | S _ =>
      match fuel with
      | O => (Panic, s)
      | S fuel =>
          match read_timeout deadline (sm_now s) with
          | Ok timeout =>
              match stream_read timeout n s with
              | (Ok [], s) => (Err (ME_IO (kind_text UnexpectedEof)), s)
              | (Ok bs, s) => read_exact_loop fuel (n - length bs) deadline (got ++ bs) s
              | (Err Interrupted, s) => read_exact_loop fuel n deadline got s
              | (Err k, s) => (Err (read_error deadline k), s)
              | (Panic, s) => (Panic, s)
              end
          | Err e => (Err e, s)
          | Panic => (Panic, s)
          end
      end
  end.

(** Every turn that goes on fills a byte or uses up an arrival. *)
Definition read_exact_until (n : nat) (deadline : option Z) : net bytes := fun s =>
  read_exact_loop (n + length (sm_incoming s)) n deadline [] s.

Context {M : Type} {cb : Cbor M}.

Definition read_message (pending_deadline : option Z) : net M :=
  read_exact_until 1 pending_deadline ≫= fun head =>
  gets (fun s => sm_now s + MESSAGE_ASSEMBLY_TIMEOUT) ≫= fun assembly_deadline =>
  let deadline := Some (match pending_deadline with
                        | Some pending => Z.min pending assembly_deadline
                        | None => assembly_deadline
                        end) in
  read_exact_until 3 deadline ≫= fun tail =>
  let len := be_value (head ++ tail) in
  lift (reject (MAX_RPC_MESSAGE_SIZE <? len) (ME_General "Message too large")) ≫= fun _ =>
  read_exact_until (Z.to_nat len) deadline ≫= fun buf =>
  lift (ok_or (from_slice buf) (ME_General "Failed to deserialize message")).

Definition io_net {A} (m : io A) : net A := fun s =>
  let '(r, s) := m s in (map_err (fun k => ME_IO (kind_text k)) r, s).

Definition send_message (message : M) : net () :=
  lift (ok_or (to_vec message) (ME_General "Failed to serialize message")) ≫= fun buf =>
  io_net (stream_write (be_bytes (wrap 32 (zlen buf)))) ≫= fun _ =>
  io_net (stream_write buf).

(** [is_read_timeout]. *)
Definition is_read_timeout (e : MakerError) : bool :=
  match e with
  | ME_IO k => bool_decide (k = kind_text WouldBlock) || bool_decide (k = kind_text TimedOut)
  | _ => false
  end.
End server.

(** ** The other side: src/utill.rs

    Each call reads through a fresh [BufReader]; what it buffered beyond the
    message is dropped with it. *)
Section utill.
Context {M : Type} {cb : Cbor M} (timeout : Z).
Abbreviation net := (stateful Stream NetError).

Definition BUF_CAPACITY : nat := 8192.
Record BufReader := { br_inner : Stream; br_buffer : bytes }.

(** [BufReader::read]: a large read into an empty buffer bypasses it. *)
Definition buf_read (n : nat) : stateful BufReader ErrorKind bytes := fun r =>
  match br_buffer r with
  | [] =>
      if (BUF_CAPACITY <=? n)%nat then
        let '(x, s) := stream_read timeout n (br_inner r) in (x, {| br_inner := s; br_buffer := [] |})
      else
        match stream_read timeout BUF_CAPACITY (br_inner r) with
        | (Ok bs, s) => (Ok (take n bs), {| br_inner := s; br_buffer := drop n bs |})
        | (Err k, s) => (Err k, {| br_inner := s; br_buffer := [] |})
        | (Panic, s) => (Panic, {| br_inner := s; br_buffer := [] |})
        end
  | bs => (Ok (take n bs), {| r with br_buffer := drop n bs |})
  end.

(** [read_exact], and the loop for the payload; they differ in the error at the
    end of the stream. *)
Fixpoint buf_read_loop (fuel n : nat) (eof : NetError) (got : bytes) : stateful BufReader NetError bytes := fun r =>
  match n with
  | O => (Ok got, r)
  | S _ =>
      match fuel with
      | O => (Panic, r)
      | S fuel =>
          match buf_read n r with
          | (Ok [], r) => (Err eof, r)
          | (Ok bs, r) => buf_read_loop fuel (n - length bs) eof (got ++ bs) r
          | (Err Interrupted, r) => buf_read_loop fuel n eof got r
          | (Err k, r) => (Err (NE_IO (kind_text k)), r)
          | (Panic, r) => (Panic, r)
          end
      end
  end.

Definition buf_read_exact (n : nat) (eof : NetError) : stateful BufReader NetError bytes := fun r =>
  buf_read_loop (n + length (sm_incoming (br_inner r))) n eof [] r.

Definition utill_read_message : net bytes := fun s =>
  let '(x, r) :=
    (buf_read_exact 4 (NE_IO (kind_text UnexpectedEof)) ≫= fun len_buff =>
     let length := be_value len_buff in
     lift (reject (MAX_RPC_MESSAGE_SIZE <? length) NE_MessageTooLarge) ≫= fun _ =>
     buf_read_exact (Z.to_nat length) NE_ReachedEOF) {| br_inner := s; br_buffer := [] |} in
  (x, br_inner r).

Definition utill_io {A} (m : io A) : net A := fun s =>
  let '(r, s) := m s in (map_err (fun k => NE_IO (kind_text k)) r, s).

Definition utill_send_message (message : M) : net () :=
  lift (ok_or (to_vec message) (NE_Cbor "serialization")) ≫= fun msg_bytes =>
  utill_io (stream_write (be_bytes (wrap 32 (zlen msg_bytes)) ++ msg_bytes)).
End utill.

(** ** Lemmas *)
Lemma be_bytes_value n : in_width 32 n -> be_value (be_bytes n) = n.
Proof.
  unfold in_width, be_value, be_bytes. intros Hn. cbn [fold_left].
  change (2 ^ 24) with 16777216. change (2 ^ 16) with 65536. change (2 ^ 8) with 256. change (2 ^ 32) with 4294967296 in Hn.
  Z.to_euclidean_division_equations. lia.
Qed.

Definition wf_stream (s : Stream) : Prop := Forall (fun e => 0 <= e.1) (sm_incoming s).

(** [delivers t evs bs rest]: the bytes [bs] arrive first, in any pieces and between
    any interruptions, the last of them after [t]; what follows is [rest]. *)
Inductive delivers : Z -> list (Z * Arrival) -> bytes -> list (Z * Arrival) -> Prop :=
| deliv_none evs : delivers 0 evs [] evs
| deliv_data d t b bs more evs rest :
    0 <= d -> delivers t evs more rest -> delivers (d + t) ((d, Data b bs) :: evs) (b :: bs ++ more) rest
| deliv_part d b bs c cs evs :
    0 <= d -> delivers d ((d, Data b (bs ++ c :: cs)) :: evs) (b :: bs) ((0, Data c cs) :: evs)
| deliv_interrupted d t bs evs rest :
    0 <= d -> bs <> [] -> delivers t evs bs rest -> delivers (d + t) ((d, Fault Interrupted) :: evs) bs rest.

Lemma delivers_time t evs bs rest : delivers t evs bs rest -> 0 <= t.
Proof. induction 1; lia. Qed.

Lemma deliv_whole d b bs evs : 0 <= d -> delivers d ((d, Data b bs) :: evs) (b :: bs) evs.
Proof.
  intros Hd. pose proof (deliv_data d 0 b bs [] evs evs Hd (deliv_none evs)) as K.
  by rewrite app_nil_r, Z.add_0_r in K.
Qed.

Lemma delivers_split t evs bs rest :
  delivers t evs bs rest -> forall a b, bs = a ++ b ->
  exists t1 t2 mid, t = t1 + t2 /\ delivers t1 evs a mid /\ delivers t2 mid b rest.
Proof.
  induction 1 as [evs|d t x bs more evs rest Hd H IH|d x bs c cs evs Hd|d t bs evs rest Hd Hne H IH]; intros a b E.
  - symmetry in E. apply app_nil in E as [-> ->]. exists 0, 0, evs. repeat constructor.
  - destruct a as [|y a].
    { cbn in E. subst b. exists 0, (d + t), ((d, Data x bs) :: evs). repeat constructor; done. }
    injection E as <- E. apply app_eq_inv in E as [(l & -> & ->)|(l & -> & ->)].
    + destruct l as [|z l].
      * cbn. exists d, t, evs. rewrite app_nil_r. split; [done|]. split; [|done].
        by apply deliv_whole.
      * exists d, t, ((0, Data z l) :: evs). split; [done|]. split; [by apply deliv_part|].
        replace t with (0 + t) by lia. by constructor.
    + destruct (IH l b eq_refl) as (t1 & t2 & mid & -> & H1 & H2). exists (d + t1), t2, mid.
      split; [lia|]. split; [by constructor|done].
  - destruct a as [|y a].
    { cbn in E. subst b. exists 0, d, ((d, Data x (bs ++ c :: cs)) :: evs). repeat constructor; done. }
    injection E as <- ->. destruct b as [|z b].
    + exists d, 0, ((0, Data c cs) :: evs). rewrite app_nil_r. split; [lia|]. split; [by constructor|constructor].
    + exists d, 0, ((0, Data z (b ++ c :: cs)) :: evs). split; [lia|]. split.
      * rewrite <- app_assoc. cbn. by apply deliv_part.
      * by apply deliv_part.
  - destruct a as [|y a].
    { cbn in E. subst b. exists 0, (d + t), ((d, Fault Interrupted) :: evs). repeat constructor; done. }
    destruct (IH (y :: a) b E) as (t1 & t2 & mid & -> & H1 & H2). exists (d + t1), t2, mid.
    split; [lia|]. split; [by constructor|done].
Qed.

(** The reads have time for an arrival after [t]. *)
Definition in_time (deadline : option Z) (now t : Z) : Prop :=
  match deadline with Some dl => now + t <= dl | None => t <= CONNECTION_READ_TIMEOUT end.

Lemma arrive_arrive t u a b s : arrive u b (arrive t a s) = arrive (t + u) b s.
Proof. unfold arrive. destruct s. cbn. f_equal. lia. Qed.
Lemma arrive_still s : arrive 0 (sm_incoming s) s = s.
Proof. unfold arrive. destruct s. cbn. f_equal. lia. Qed.

Lemma read_timeout_in_time deadline now t :
  0 <= t -> in_time deadline now t -> exists u, read_timeout deadline now = Ok u /\ t <= u.
Proof.
  unfold in_time, read_timeout. intros Ht H. destruct deadline as [dl|].
  - rewrite (proj2 (Z.leb_le now dl)) by lia. cbn. eexists. split; [done|]. lia.
  - cbn. eexists. split; [done|]. lia.
Qed.

Lemma in_time_less deadline now d t : 0 <= d -> 0 <= t -> in_time deadline now (d + t) ->
  in_time deadline now d /\ in_time deadline (now + d) t.
Proof. unfold in_time. destruct deadline; lia. Qed.

Lemma read_exact_delivers t evs bs rest :
  delivers t evs bs rest -> forall fuel deadline got s,
  sm_incoming s = evs -> (length bs + length evs <= fuel)%nat -> in_time deadline (sm_now s) t ->
  read_exact_loop fuel (length bs) deadline got s = (Ok (got ++ bs), arrive t rest s).
Proof.
  induction 1 as [evs|d t x bs more evs rest Hd H IH|d x bs c cs evs Hd|d t bs evs rest Hd Hne H IH];
    intros fuel deadline got s Hs Hf Ht.
  - destruct fuel; cbn; subst evs; by rewrite app_nil_r, arrive_still.
  - pose proof (delivers_time _ _ _ _ H). apply in_time_less in Ht as [Ht1 Ht2]; [|done..].
    destruct fuel as [|fuel]; [cbn in Hf; lia|]. cbn [length read_exact_loop].
    destruct (read_timeout_in_time deadline (sm_now s) d) as (u & -> & Hu); [done..|].
    unfold stream_read. rewrite Hs, (proj2 (Z.ltb_ge u d) Hu). rewrite take_ge, drop_ge by (cbn; rewrite ?length_app; lia).
    cbn [length]. rewrite length_app. replace (S (length bs + length more) - S (length bs))%nat with (length more) by lia.
    rewrite IH; [|done|cbn in Hf; rewrite length_app in Hf; lia|by destruct deadline]. rewrite arrive_arrive, <- app_assoc. done.
  - destruct fuel as [|fuel]; [cbn in Hf; lia|]. cbn [length read_exact_loop].
    destruct (read_timeout_in_time deadline (sm_now s) d) as (u & -> & Hu); [done..|].
    unfold stream_read. rewrite Hs, (proj2 (Z.ltb_ge u d) Hu). cbn [take drop]. rewrite take_app_length, drop_app_length.
    cbn [length]. rewrite Nat.sub_diag. destruct fuel; done.
  - pose proof (delivers_time _ _ _ _ H). apply in_time_less in Ht as [Ht1 Ht2]; [|done..].
    destruct fuel as [|fuel]; [cbn in Hf; lia|]. destruct bs as [|b bs]; [done|]. cbn [length read_exact_loop].
    destruct (read_timeout_in_time deadline (sm_now s) d) as (u & -> & Hu); [done..|].
    unfold stream_read. rewrite Hs, (proj2 (Z.ltb_ge u d) Hu). cbn [length] in IH.
    rewrite IH; [|done|cbn in *; lia|by destruct deadline]. by rewrite arrive_arrive.
Qed.

Lemma read_exact_until_delivers n t bs rest deadline s :
  length bs = n -> delivers t (sm_incoming s) bs rest -> in_time deadline (sm_now s) t ->
  read_exact_until n deadline s = (Ok bs, arrive t rest s).
Proof. intros <- Hd Ht. unfold read_exact_until. by rewrite (read_exact_delivers t (sm_incoming s) bs rest). Qed.

(** *** Bounds *)
Definition by_deadline (deadline now : Z) : Z := Z.max now (deadline + MILLISECOND).

Lemma stream_read_spec timeout n s : 0 <= timeout -> wf_stream s ->
  let '(r, s') := stream_read timeout n s in
  wf_stream s' /\ sm_now s <= sm_now s' <= sm_now s + timeout /\ r <> Panic /\
  (forall bs, r = Ok bs -> (length bs <= n)%nat /\ (length (sm_incoming s') <= length (sm_incoming s))%nat) /\
  (forall k, r = Err k -> k = WouldBlock \/ (length (sm_incoming s') < length (sm_incoming s))%nat).
Proof.
  intros Ht Hw. unfold stream_read, wf_stream in *. destruct (sm_incoming s) as [|[d a] rest] eqn:E.
  - cbn. split; [constructor|]. split; [lia|]. repeat split; try done. intros k [= <-]. by left.
  - apply Forall_cons in Hw as [Hd Hw]. cbn in Hd. destruct (Z.ltb_spec timeout d).
    + cbn. split; [constructor; [cbn; lia|done]|]. split; [lia|]. repeat split; try done. intros k [= <-]. by left.
    + destruct a as [b bs| |k].
      * split; [destruct (drop n (b :: bs)); cbn; [done|by constructor]|]. cbn [arrive sm_now].
        split; [lia|]. split; [done|]. split; [|done]. intros x [= <-]. split; [rewrite length_take; lia|].
        destruct (drop n (b :: bs)); cbn; lia.
      * cbn. split; [by constructor|]. split; [lia|]. split; [done|]. split; [|done]. intros x [= <-]. cbn. lia.
      * cbn. split; [done|]. split; [lia|]. split; [done|]. split; [done|]. intros k' [= <-]. right. lia.
Qed.

Lemma read_exact_bounded fuel : forall n deadline got s,
  wf_stream s -> (n + length (sm_incoming s) <= fuel)%nat ->
  let '(r, s') := read_exact_loop fuel n deadline got s in
  r <> Panic /\ wf_stream s' /\ sm_now s <= sm_now s' /\
  (forall bs, r = Ok bs -> length bs = (length got + n)%nat) /\
  (forall dl, deadline = Some dl -> sm_now s' <= by_deadline dl (sm_now s)).
Proof.
  unfold by_deadline. induction fuel as [|fuel IH]; intros n deadline got s Hw Hf.
  - destruct n; [|lia]. cbn. repeat split; try done; [|lia]. intros bs [= <-]. lia.
  - destruct n as [|n]; cbn [read_exact_loop]; [repeat split; try done; [|lia]; intros bs [= <-]; lia|].
    destruct (read_timeout deadline (sm_now s)) as [u|e|] eqn:Eu.
    3: { unfold read_timeout in Eu. destruct deadline; [case_match|]; done. }
    2: { repeat split; try done. lia. }
    assert (0 <= u /\ forall dl, deadline = Some dl -> sm_now s + u <= Z.max (sm_now s) (dl + MILLISECOND)) as [Hu0 Hu].
    { unfold read_timeout in Eu. destruct deadline as [dl|].
      - destruct (Z.leb_spec (sm_now s) dl); [|done]. injection Eu as <-. unfold MILLISECOND.
        split; [lia|]. intros dl' [= <-]. lia.
      - injection Eu as <-. unfold CONNECTION_READ_TIMEOUT, SECOND, MILLISECOND. split; [lia|done]. }
    pose proof (stream_read_spec u (S n) s Hu0 Hw) as Hr. destruct (stream_read u (S n) s) as [r s1].
    destruct Hr as (Hw1 & Hnow & Hnp & Hok & Herr). destruct r as [bs|k|]; [|destruct k|done].
    1: destruct (Hok bs eq_refl) as [Hl1 Hl2]; destruct bs as [|b bs].
    all: try (repeat split; try done; [lia|]; intros dl Hdl; specialize (Hu dl Hdl); lia).
    + specialize (IH (S n - length (b :: bs))%nat deadline (got ++ b :: bs) s1 Hw1).
      destruct (read_exact_loop _ _ _ _ _) as [r2 s2]. destruct IH as (H1 & H2 & H3 & H4 & H5); [cbn in *; lia|].
      split; [done|]. split; [done|]. split; [lia|]. split.
      * intros x Hx. rewrite (H4 x Hx), length_app. cbn in *. lia.
      * intros dl Hdl. specialize (H5 dl Hdl). specialize (Hu dl Hdl). lia.
    + destruct (Herr _ eq_refl) as [|Hl]; [done|]. specialize (IH (S n) deadline got s1 Hw1).
      destruct (read_exact_loop _ _ _ _ _) as [r2 s2]. destruct IH as (H1 & H2 & H3 & H4 & H5); [lia|].
      split; [done|]. split; [done|]. split; [lia|]. split; [done|].
      intros dl Hdl. specialize (H5 dl Hdl). specialize (Hu dl Hdl). lia.
Qed.

(** *** Through a [BufReader] *)
(** The arrivals as the reader will hand them out. *)
Definition handed (r : BufReader) : list (Z * Arrival) :=
  match br_buffer r with [] => sm_incoming (br_inner r) | b :: bs => (0, Data b bs) :: sm_incoming (br_inner r) end.

Definition chunk (bs : bytes) (evs : list (Z * Arrival)) : list (Z * Arrival) :=
  match bs with [] => evs | c :: cs => (0, Data c cs) :: evs end.

(** Taking [n] bytes of the first chunk. *)
Lemma deliver_take n d b bs evs t L rest :
  delivers t ((d, Data b bs) :: evs) L rest -> (0 < n <= length L)%nat ->
  exists Y t' rest', L = take n (b :: bs) ++ Y /\ t' <= t /\ d <= t /\ delivers t' (chunk (drop n (b :: bs)) evs) Y rest'.
Proof.
  intros H [Hn HL]. inversion H; subst; [cbn in HL; lia|..].
  - exists (drop n (b :: bs) ++ more), t0, rest. rewrite app_assoc, take_drop. split; [done|].
    pose proof (delivers_time _ _ _ _ H8). split; [lia|]. split; [lia|].
    destruct (drop n (b :: bs)) as [|c cs]; [done|]. replace t0 with (0 + t0) by lia. by constructor.
  - change (b :: bs0 ++ c :: cs) with ((b :: bs0) ++ c :: cs). rewrite take_app_le, drop_app_le by done.
    exists (drop n (b :: bs0)), 0. destruct (drop n (b :: bs0)) as [|c' cs'] eqn:Ed.
    + eexists. split; [by rewrite <- Ed, take_drop|]. split; [lia|]. split; [lia|]. constructor.
    + eexists. split; [by rewrite <- Ed, take_drop|]. split; [lia|]. split; [lia|]. by apply deliv_part.
Qed.

(** A chunk in two parts is as good. *)
Lemma deliver_parts d b p q evs t L rest :
  delivers t ((d, Data b (p ++ q)) :: evs) L rest ->
  exists t' rest', t' <= t /\ delivers t' ((0, Data b p) :: chunk q evs) L rest'.
Proof.
  destruct q as [|c q]; cbn [chunk]; [rewrite app_nil_r|].
  { intros H. inversion H as [|? ? ? ? more ? ? Hd H1|? ? l c cs ? Hd El|]; subst.
    - exists 0. eexists. split; [done|constructor].
    - exists (0 + t0), rest. pose proof (delivers_time _ _ _ _ H1). split; [lia|]. by constructor.
    - exists 0, ((0, Data c cs) :: evs). split; [lia|]. by apply deliv_part. }
  intros H. inversion H as [|? ? ? ? more ? ? Hd H1|? ? l c' cs ? Hd Ea Eb Ec|]; subst.
  - exists 0. eexists. split; [done|constructor].
  - pose proof (delivers_time _ _ _ _ H1). exists (0 + (0 + t0)), rest. split; [lia|]. rewrite <- app_assoc.
    constructor; [done|]. by constructor.
  - exists 0. match goal with E : _ ++ _ = _ ++ _ |- _ => rename E into El end.
    apply app_eq_inv in El as [(k & -> & El)|(k & -> & El)];
      (destruct k as [|z k]; [rewrite app_nil_r|]); eexists; (split; [lia|]).
    + by apply deliv_whole.
    + injection El as <- ->. apply (deliv_data 0 0); [done|]. by apply deliv_part.
    + by apply deliv_whole.
    + by apply deliv_part.
Qed.

Lemma buf_read_delivers timeout n r L t rest :
  (0 < n <= length L)%nat -> delivers t (handed r) L rest -> t <= timeout ->
  (exists x y r' t' rest', buf_read timeout n r = (Ok x, r') /\ x <> [] /\ (length x <= n)%nat /\ L = x ++ y /\
     delivers t' (handed r') y rest' /\ t' <= t /\
     (length (sm_incoming (br_inner r')) <= length (sm_incoming (br_inner r)))%nat) \/
  (exists r' t', buf_read timeout n r = (Err Interrupted, r') /\ delivers t' (handed r') L rest /\ t' <= t /\
     (length (sm_incoming (br_inner r')) < length (sm_incoming (br_inner r)))%nat).
Proof.
  destruct r as [s buf]. unfold handed, buf_read. cbn [br_buffer br_inner]. intros Hn H Ht.
  assert (forall (b : Z) bs, take n (b :: bs) <> [] /\ (length (take n (b :: bs)) <= n)%nat) as Htake.
  { intros b bs. destruct n; [lia|]. split; [done|]. rewrite length_take. lia. }
  destruct buf as [|b0 buf].
  - unfold stream_read. destruct (sm_incoming s) as [|[d a] evs] eqn:Ei; [inversion H; subst; cbn in Hn; lia|].
    destruct a as [b bs| |k].
    + left. destruct (deliver_take n _ _ _ _ _ _ _ H Hn) as (Y & t' & rest' & HL & Ht' & Hd & HY).
      rewrite !(proj2 (Z.ltb_ge timeout d)) by lia. destruct (Nat.leb_spec BUF_CAPACITY n) as [Hc|Hc].
      * exists (take n (b :: bs)), Y. eexists _, t', rest'. split; [done|]. split; [apply Htake|]. split; [apply Htake|].
        split; [done|]. cbn [br_buffer br_inner arrive sm_incoming]. split; [done|]. split; [done|].
        unfold chunk in HY. destruct (drop n (b :: bs)); cbn; lia.
      * set (cap := BUF_CAPACITY) in *. assert (exists p, take cap (b :: bs) = b :: p /\ bs = p ++ drop cap (b :: bs)) as (p & Ep & Eq).
        { destruct cap as [|cap']; [lia|]. cbn. exists (take cap' bs). by rewrite take_drop. }
        rewrite Ep. rewrite Eq in H. destruct (deliver_parts _ _ _ _ _ _ _ _ H) as (t1 & rest1 & Ht1 & H1).
        destruct (deliver_take n _ _ _ _ _ _ _ H1 Hn) as (Y' & t2 & rest2 & HL' & Ht2 & _ & HY').
        exists (take n (b :: p)), Y'. eexists _, t2, rest2. split; [done|]. split; [apply Htake|]. split; [apply Htake|].
        split; [done|]. cbn [br_buffer br_inner arrive sm_incoming]. split; [exact HY'|]. split; [lia|].
        destruct (drop cap (b :: bs)); cbn; lia.
    + inversion H; subst. cbn in Hn. lia.
    + inversion H; subst; [cbn in Hn; lia|]. right. pose proof (delivers_time _ _ _ _ H8).
      rewrite !(proj2 (Z.ltb_ge timeout d)) by lia.
      destruct (BUF_CAPACITY <=? n)%nat; (do 2 eexists; split; [done|]; split; [exact H8|]; cbn; lia).
  - left. destruct (deliver_take n _ _ _ _ _ _ _ H Hn) as (Y & t' & rest' & HL & Ht' & Hd & HY).
    exists (take n (b0 :: buf)), Y. eexists _, t', rest'. split; [done|]. split; [apply Htake|]. split; [apply Htake|].
    split; [done|]. cbn. split; [exact HY|]. lia.
Qed.

Lemma buf_read_exact_delivers timeout eof : forall fuel n got r L t rest,
  delivers t (handed r) L rest -> t <= timeout -> (n <= length L)%nat ->
  (n + length (sm_incoming (br_inner r)) <= fuel)%nat ->
  exists r' t' rest', buf_read_loop timeout fuel n eof got r = (Ok (got ++ take n L), r') /\
    t' <= t /\ delivers t' (handed r') (drop n L) rest'.
Proof.
  induction fuel as [|fuel IH]; intros n got r L t rest H Ht HL Hf; (destruct n as [|n]; [exists r, t, rest; by rewrite app_nil_r|]).
  { cbn in Hf. lia. }
  cbn [buf_read_loop]. set (k := S n) in *.
  destruct (buf_read_delivers timeout k r L t rest) as
    [(x & y & r' & t' & rest' & -> & Hx & Hxn & -> & Hy & Ht' & Hlen)|(r' & t' & -> & Hy & Ht' & Hlen)]; [lia|done|done| |].
  - rewrite length_app in HL. destruct x as [|x0 x]; [done|]. set (l := x0 :: x) in *.
    destruct (IH (k - length l)%nat (got ++ l) r' y t' rest') as (r2 & t2 & rest2 & -> & Ht2 & H2); [done|lia|lia|cbn in *; lia|].
    exists r2, t2, rest2. rewrite take_app_ge, drop_app_ge, <- app_assoc by done. split; [done|]. split; [lia|done].
  - destruct (IH k got r' L t' rest) as (r2 & t2 & rest2 & -> & Ht2 & H2); [done|lia|lia|lia|].
    exists r2, t2, rest2. split; [done|]. split; [lia|done].
Qed.

(** ** Theorems *)
Section theorems.
Context {M : Type} {cb : Cbor M} {laws : CborLaws cb}.

Lemma frame_delivers t evs buf rest : delivers t evs (frame buf) rest -> zlen buf < 2 ^ 32 ->
  exists h tl t1 t2 t3 mid1 mid2, t = t1 + t2 + t3 /\ 0 <= t2 /\ 0 <= t3 /\
    length h = 1%nat /\ length tl = 3%nat /\ be_value (h ++ tl) = zlen buf /\
    delivers t1 evs h mid1 /\ delivers t2 mid1 tl mid2 /\ delivers t3 mid2 buf rest.
Proof.
  intros H Hlen. assert (in_width 32 (zlen buf)) as Hw by (pose proof (zlen_nonneg buf); unfold in_width; lia).
  unfold frame in H. rewrite wrap_small in H by done. pose proof (be_bytes_value _ Hw) as Hv.
  unfold be_bytes in *. set (a := zlen buf / 2 ^ 24 mod 256) in *.
  match type of H with delivers _ _ ((_ :: ?l) ++ _) _ => set (tl := l) in * end.
  destruct (delivers_split _ _ _ _ H [a] (tl ++ buf) eq_refl) as (t1 & t' & mid1 & -> & H1 & H').
  destruct (delivers_split _ _ _ _ H' tl buf eq_refl) as (t2 & t3 & mid2 & -> & H2 & H3).
  exists [a], tl, t1, t2, t3, mid1, mid2. split; [lia|]. pose proof (delivers_time _ _ _ _ H2).
  pose proof (delivers_time _ _ _ _ H3). repeat split; done.
Qed.

Lemma send_message_writes (m : M) buf s s' :
  to_vec m = Some buf -> send_message m s = (Ok (), s') -> sm_sent s' = sm_sent s ++ frame buf.
Proof.
  intros Hm. unfold send_message. rewrite Hm. intros (b & s0 & [[= <-] ->]%lift_Ok & Hr)%st_bind_Ok.
  apply st_bind_Ok in Hr as ([] & s1 & H1 & H2). unfold io_net, stream_write in *.
  destruct s as [now inc sent [k|]]; cbn in H1; [done|]. injection H1 as <-. injection H2 as <-.
  cbn. unfold frame. by rewrite <- app_assoc.
Qed.

(** The message after its header. *)
Definition read_body (len : Z) (deadline : option Z) : stateful Stream MakerError M :=
  lift (reject (MAX_RPC_MESSAGE_SIZE <? len) (ME_General "Message too large")) ≫= fun _ =>
  read_exact_until (Z.to_nat len) deadline ≫= fun buf =>
  lift (ok_or (from_slice buf) (ME_General "Failed to deserialize message")).

Lemma read_header pending r t buf rest :
  delivers t (sm_incoming r) (frame buf) rest -> zlen buf < 2 ^ 32 ->
  t <= MESSAGE_ASSEMBLY_TIMEOUT -> in_time pending (sm_now r) t ->
  exists t1 t2 mid dl, t = t1 + t2 /\ read_message pending r = read_body (zlen buf) (Some dl) (arrive t1 mid r) /\
    sm_now r + t <= dl /\ delivers t2 mid buf rest.
Proof.
  intros Hd Hlen Ht Hp.
  destruct (frame_delivers _ _ _ _ Hd Hlen) as (h & tl & t1 & t2 & t3 & mid1 & mid2 & -> & Ht2 & Ht3 & Hh & Htl & Hv & H1 & H2 & H3).
  pose proof (delivers_time _ _ _ _ H1) as Ht1.
  exists (t1 + t2), t3, mid2. unfold read_message.
  rewrite (st_bind_step _ _ r h (arrive t1 mid1 r)).
  2: { apply read_exact_until_delivers; [done|done|]. unfold in_time in *. destruct pending; lia. }
  erewrite st_bind_step by reflexivity. cbn [arrive sm_now]. cbv zeta. set (dl := match pending with Some _ => _ | None => _ end).
  assert (sm_now r + (t1 + t2 + t3) <= dl) as Hdl.
  { unfold dl, in_time, MESSAGE_ASSEMBLY_TIMEOUT in *. destruct pending; lia. }
  exists dl. split; [lia|]. split; [|done].
  rewrite (st_bind_step _ _ (arrive t1 mid1 r) tl (arrive t2 mid2 (arrive t1 mid1 r))).
  2: { apply read_exact_until_delivers; [done|done|]. cbn [in_time arrive sm_now]. lia. }
  by rewrite Hv, arrive_arrive.
Qed.

(** The buffered reader has the length once the frame arrives. *)
Lemma utill_header timeout r t buf rest :
  delivers t (sm_incoming r) (frame buf) rest -> in_width 32 (zlen buf) -> t <= timeout ->
  exists r1,
    buf_read_exact timeout 4 (NE_IO (kind_text UnexpectedEof)) {| br_inner := r; br_buffer := [] |} =
      (Ok (be_bytes (zlen buf)), r1) /\
    (forall e, exists r2, buf_read_exact timeout (length buf) e r1 = (Ok buf, r2)).
Proof.
  intros Hd Hw Ht. set (r0 := {| br_inner := r; br_buffer := [] |}). unfold frame in Hd. rewrite wrap_small in Hd by done.
  destruct (buf_read_exact_delivers timeout (NE_IO (kind_text UnexpectedEof)) (4 + length (sm_incoming r)) 4 [] r0
    (be_bytes (zlen buf) ++ buf) t rest) as (r1 & t1 & rest1 & E1 & Ht1 & H1); [done|done|cbn; lia|done|].
  change (drop 4 (be_bytes (zlen buf) ++ buf)) with buf in H1.
  change ([] ++ take 4 (be_bytes (zlen buf) ++ buf)) with (be_bytes (zlen buf)) in E1.
  exists r1. split; [exact E1|]. intros e.
  destruct (buf_read_exact_delivers timeout e (length buf + length (sm_incoming (br_inner r1))) (length buf) [] r1
    buf t1 rest1) as (r2 & t2 & rest2 & E2 & _ & _); [done|lia|done|done|].
  exists r2. unfold buf_read_exact. by rewrite E2, firstn_all.
Qed.

Lemma utill_reads timeout r t buf rest :
  delivers t (sm_incoming r) (frame buf) rest -> zlen buf < 2 ^ 32 -> t <= timeout ->
  exists r', utill_read_message timeout r =
    (if MAX_RPC_MESSAGE_SIZE <? zlen buf then Err NE_MessageTooLarge else Ok buf, r').
Proof.
  intros Hd Hlen Ht. assert (in_width 32 (zlen buf)) as Hw by (pose proof (zlen_nonneg buf); unfold in_width; lia).
  destruct (utill_header timeout r t buf rest Hd Hw Ht) as (r1 & E1 & Hbody).
  unfold utill_read_message. erewrite st_bind_step by exact E1. cbv zeta. rewrite be_bytes_value by done.
  destruct (MAX_RPC_MESSAGE_SIZE <? zlen buf); [by exists (br_inner r1)|].
  destruct (Hbody NE_ReachedEOF) as [r2 E2]. exists (br_inner r2).
  erewrite st_bind_step by reflexivity. unfold zlen. by rewrite Nat2Z.id, E2.
Qed.

(** C30: Framing round trip.  What [send_message] writes is a frame.  The maker's
    reader, to which the frame arrives in any pieces, with interruptions, within
    the assembly time and its own deadline, returns the message and takes not one
    byte of what follows; it refuses a frame over the size limit once the length
    is known, with the payload unread.  The buffered reader of src/utill.rs
    returns the same payload and refuses the same frames; how much it takes off
    the stream is not limited to the frame. *)
Theorem frame_round_trip (m : M) buf s s' pending r t rest :
  to_vec m = Some buf -> zlen buf < 2 ^ 32 -> send_message m s = (Ok (), s') ->
  delivers t (sm_incoming r) (frame buf) rest -> t <= MESSAGE_ASSEMBLY_TIMEOUT -> in_time pending (sm_now r) t ->
  sm_sent s' = sm_sent s ++ frame buf /\
  (zlen buf <= MAX_RPC_MESSAGE_SIZE ->
     read_message pending r = (Ok m, arrive t rest r) /\
     forall timeout, t <= timeout -> exists r', utill_read_message timeout r = (Ok buf, r')) /\
  (MAX_RPC_MESSAGE_SIZE < zlen buf ->
     exists t' r', read_message pending r = (Err (ME_General "Message too large") : outcome MakerError M, r') /\
       delivers t' (sm_incoming r') buf rest /\
       forall timeout, t <= timeout -> exists r'', utill_read_message timeout r = (Err NE_MessageTooLarge, r'')).
Proof.
  intros Hm Hlen Hsend Hd Ht Hp.
  destruct (read_header pending r t buf rest) as (t1 & t2 & mid & dl & -> & -> & Hdl & Hb); [done..|].
  assert (forall timeout, t1 + t2 <= timeout -> exists r', utill_read_message timeout r =
    (if MAX_RPC_MESSAGE_SIZE <? zlen buf then Err NE_MessageTooLarge else Ok buf, r')) as Hu
    by (intros timeout; by apply (utill_reads timeout r (t1 + t2) buf rest)).
  split; [by apply (send_message_writes m)|]. unfold read_body. split; intros Hmax.
  - rewrite (proj2 (Z.ltb_ge MAX_RPC_MESSAGE_SIZE (zlen buf)) Hmax) in Hu. split; [|done].
    rewrite (proj2 (Z.ltb_ge MAX_RPC_MESSAGE_SIZE (zlen buf)) Hmax). erewrite st_bind_step by reflexivity.
    unfold zlen. rewrite Nat2Z.id, (st_bind_step _ _ (arrive t1 mid r) buf (arrive t2 rest (arrive t1 mid r))).
    + unfold lift. by rewrite (cbor_round_trip m buf Hm), arrive_arrive.
    + apply read_exact_until_delivers; [done|done|]. cbn [in_time arrive sm_now]. lia.
  - rewrite (proj2 (Z.ltb_lt MAX_RPC_MESSAGE_SIZE (zlen buf)) Hmax). rewrite (proj2 (Z.ltb_lt MAX_RPC_MESSAGE_SIZE (zlen buf)) Hmax) in Hu.
    by exists t2, (arrive t1 mid r).
Qed.

Lemma until_bounded n deadline s r s' :
  wf_stream s -> read_exact_until n deadline s = (r, s') ->
  r <> Panic /\ wf_stream s' /\ sm_now s <= sm_now s' /\
  (forall dl, deadline = Some dl -> sm_now s' <= by_deadline dl (sm_now s)).
Proof.
  intros Hw Hr. pose proof (read_exact_bounded (n + length (sm_incoming s)) n deadline [] s Hw (le_n _)) as H.
  unfold read_exact_until in Hr. rewrite Hr in H. destruct H as (H1 & H2 & H3 & _ & H5). done.
Qed.

Lemma body_bounded len dl s r s' :
  wf_stream s -> read_body len (Some dl) s = (r, s') -> r <> Panic /\ sm_now s' <= by_deadline dl (sm_now s).
Proof.
  intros Hw. unfold read_body, mbind, stateful_bind, lift. unfold by_deadline.
  destruct (reject _ _) as [[]|e|] eqn:Er; [|intros [= <- <-]; split; [done|lia]|by apply reject_no_panic in Er].
  destruct (read_exact_until _ _ s) as [b s1] eqn:E. apply until_bounded in E as (Hp & _ & _ & Ht); [|done].
  specialize (Ht dl eq_refl). destruct b as [buf|e|]; [|intros [= <- <-]; done|done].
  intros [= <- <-]. split; [apply ok_or_no_panic|done].
Qed.

(** C31: A peer cannot hold a reader of the maker.  Whatever arrives, or does not,
    [read_message] returns; a connection that has not proved itself is given up a
    millisecond after its deadline, any other at most a minute and a
    millisecond after the first byte of the frame. *)
Theorem slow_peer_is_cut_off (pending : option Z) (s s1 s' : Stream) b (r : outcome MakerError M) :
  wf_stream s -> read_exact_until 1 pending s = (b, s1) -> read_message pending s = (r, s') ->
  r <> Panic /\ sm_now s' <= sm_now s1 + MESSAGE_ASSEMBLY_TIMEOUT + MILLISECOND /\
  (forall dl, pending = Some dl -> sm_now s' <= Z.max (sm_now s) (dl + MILLISECOND)).
Proof.
  intros Hw E1. unfold read_message, mbind at 1, stateful_bind at 1. rewrite E1.
  apply until_bounded in E1 as (Hp1 & Hw1 & Hn1 & Ht1); [|done]. unfold by_deadline in *.
  assert (0 <= MESSAGE_ASSEMBLY_TIMEOUT /\ 0 <= MILLISECOND) as [Hc1 Hc2] by (unfold MESSAGE_ASSEMBLY_TIMEOUT, SECOND, MILLISECOND; lia).
  destruct b as [head|e|]; [|intros [= <- <-]; repeat split; [done|lia|done]|done].
  unfold mbind at 1, stateful_bind at 1, gets. cbv zeta. set (dl := match pending with Some _ => _ | None => _ end).
  assert (dl <= sm_now s1 + MESSAGE_ASSEMBLY_TIMEOUT /\ forall p, pending = Some p -> dl <= p) as [Hd1 Hd2].
  { unfold dl. destruct pending; [split; [lia|intros p [= <-]; lia]|done]. }
  unfold mbind at 1, stateful_bind at 1. destruct (read_exact_until 3 (Some dl) s1) as [b2 s2] eqn:E2.
  apply until_bounded in E2 as (Hp2 & Hw2 & Hn2 & Ht2); [|done]. specialize (Ht2 dl eq_refl). unfold by_deadline in Ht2.
  assert (forall t, t <= Z.max (sm_now s1) (dl + MILLISECOND) ->
    t <= sm_now s1 + MESSAGE_ASSEMBLY_TIMEOUT + MILLISECOND /\
    (forall p, pending = Some p -> t <= Z.max (sm_now s) (p + MILLISECOND))) as Hend.
  { intros t Ht. split; [lia|]. intros p Hp. specialize (Ht1 p Hp). specialize (Hd2 p Hp). lia. }
  destruct b2 as [tail|e|]; [|intros [= <- <-]; split; [done|by apply Hend]|done].
  intros Hb. apply body_bounded in Hb as [Hnp Ht3]; [|done]. split; [done|]. apply Hend. unfold by_deadline in Ht3. lia.
Qed.
End theorems.

(** ** Witnesses *)
Module FrameSample.
#[export] Instance raw : Cbor bytes := {| to_vec := Some; from_slice := Some |}.
#[export] Instance raw_laws : CborLaws raw.
Proof. by intros m buf [= <-]. Qed.
Definition peer (incoming : list (Z * Arrival)) : Stream :=
  {| sm_now := 0; sm_incoming := incoming; sm_sent := []; sm_write_fault := None |}.
(** The frame of [7; 8] in three pieces with an interruption, then more. *)
Definition pieces : list (Z * Arrival) :=
  [(5, Data 0 [0]); (1, Fault Interrupted); (2, Data 0 [2; 7]); (3, Data 8 [0; 0])].
Definition leftover : list (Z * Arrival) := [(0, Data 0 [0])].
End FrameSample.
#[local] Existing Instance FrameSample.raw.
#[local] Existing Instance FrameSample.raw_laws.

Lemma frame_round_trip_witness :
  read_message (Some 20) (FrameSample.peer FrameSample.pieces) =
    (Ok [7; 8], arrive 11 FrameSample.leftover (FrameSample.peer FrameSample.pieces)).
Proof.
  destruct (frame_round_trip [7; 8] [7; 8] (FrameSample.peer []) (send_message [7; 8] (FrameSample.peer [])).2 (Some 20)
    (FrameSample.peer FrameSample.pieces) 11 FrameSample.leftover) as (_ & H & _).
  - reflexivity.
  - vm_compute. reflexivity.
  - vm_compute. reflexivity.
  - change (frame [7; 8]) with (0 :: [0] ++ (0 :: [2; 7] ++ [8])).
    apply (deliv_data 5 6); [lia|]. apply (deliv_interrupted 1 5); [lia|discriminate|].
    apply (deliv_data 2 3); [lia|]. apply (deliv_part 3 8 [] 0 [0]). lia.
  - unfold MESSAGE_ASSEMBLY_TIMEOUT, SECOND. lia.
  - cbn. lia.
  - apply H. vm_compute. discriminate.
Defined.

(** A peer that sends one byte and stops. *)
Lemma slow_peer_is_cut_off_witness :
  let s := FrameSample.peer [(5, Data 0 [])] in
  read_message (M := bytes) (Some 20) s = (Err deadline_expired, (read_message (M := bytes) (Some 20) s).2) /\
  sm_now (read_message (M := bytes) (Some 20) s).2 <= 20 + MILLISECOND.
Proof.
  intros s. split; [vm_compute; reflexivity|].
  destruct (slow_peer_is_cut_off (Some 20) s (read_exact_until 1 (Some 20) s).2 (read_message (M := bytes) (Some 20) s).2
    (read_exact_until 1 (Some 20) s).1 (read_message (M := bytes) (Some 20) s).1) as (_ & _ & H).
  - repeat constructor. cbn. lia.
  - apply surjective_pairing.
  - apply surjective_pairing.
  - apply (H 20). reflexivity.
Defined.

(** The reader of src/utill.rs drops what it buffered: of two frames that arrive
    together the second is lost, and the next call waits for it in vain. *)
Lemma buffered_frame_is_lost :
  let s := FrameSample.peer [(5, Data 0 [0; 0; 1; 7; 0; 0; 0; 1; 8])] in
  let '(r, s') := utill_read_message 30 s in
  r = Ok [7] /\ (utill_read_message 30 s').1 = Err (NE_IO (kind_text WouldBlock)).
Proof. vm_compute. split; reflexivity. Qed.
