(* ===== verification/ConnectionLimiter.v ===== *)
(** Admission of connections: [ConnectionLimiter], [ConnectionPermit] and
    [admit_heartbeat] of src/maker/server.rs.

    The limiter is shared by all connections.  Its counters are machine integers:
    a decrement of zero is a panic.  [limiter_step] interleaves acquisition,
    promotion and release by any number of connections. *)
From Stdlib Require Import SpecFloat.
From S2P Require Import Prelude Float64 Errors MakerHandlers ChainWait.
#[local] Open Scope list_scope.
#[local] Open Scope Z_scope.

Definition MAX_INBOUND_CONNECTIONS : Z := MAX_CONCURRENT_SWAPS * 3.
Definition MAX_PENDING_CONNECTIONS : Z := MAX_CONCURRENT_SWAPS.
Definition CONNECTIONS_PER_SECOND : f64 := f64_of_Z 4.
Definition CONNECTION_BURST : f64 := f64_of_Z MAX_CONCURRENT_SWAPS.
Definition PENDING_CONNECTION_TIMEOUT : Z := 20 * SECOND.
Definition MIN_KEEPALIVE_INTERVAL : Z := 30 * SECOND.

Definition f64_sub : f64 -> f64 -> f64 := SFsub 53 1024.
Definition f64_min (a b : f64) : f64 := if f64_ltb b a then b else a.
(** [Duration::as_secs_f64]. *)
Definition as_secs_f64 (d : Z) : f64 :=
  f64_add (f64_of_Z (d / SECOND)) (f64_div (f64_of_Z (d mod SECOND)) (f64_of_Z SECOND)).

Record LimiterState := { ls_active : Z; ls_pending : Z; ls_tokens : f64; ls_last_refill : Z }.
Definition LimiterState_new (now : Z) : LimiterState :=
  {| ls_active := 0; ls_pending := 0; ls_tokens := CONNECTION_BURST; ls_last_refill := now |}.

(** [true]: a permit, pending. *)
Definition try_acquire (now : Z) (st : LimiterState) : bool * LimiterState :=
  let elapsed := Z.max 0 (now - ls_last_refill st) in
  let tokens := f64_min (f64_add (ls_tokens st) (f64_mul (as_secs_f64 elapsed) CONNECTIONS_PER_SECOND)) CONNECTION_BURST in
  let st := {| st with ls_tokens := tokens; ls_last_refill := now |} in
  if f64_ltb (ls_tokens st) (f64_of_Z 1) then (false, st)
  else
    let st := {| st with ls_tokens := f64_sub (ls_tokens st) (f64_of_Z 1) |} in
    if (MAX_INBOUND_CONNECTIONS <=? ls_active st) || (MAX_PENDING_CONNECTIONS <=? ls_pending st) then (false, st)
    else (true, {| st with ls_active := ls_active st + 1; ls_pending := ls_pending st + 1 |}).

Definition decrement (n : Z) : outcome MakerError Z := if n =? 0 then Panic else Ok (n - 1).

(** [mark_established] on a permit; its flag afterwards is [false]. *)
Definition mark_established (pending : bool) (st : LimiterState) : outcome MakerError LimiterState :=
  if pending then decrement (ls_pending st) ≫= fun n => Ok {| st with ls_pending := n |} else Ok st.

(** [Drop for ConnectionPermit]. *)
Definition drop_permit (pending : bool) (st : LimiterState) : outcome MakerError LimiterState :=
  (if pending then decrement (ls_pending st) ≫= fun n => Ok {| st with ls_pending := n |} else Ok st) ≫= fun st =>
  decrement (ls_active st) ≫= fun n => Ok {| st with ls_active := n |}.

Inductive HeartbeatAction := Accept | Reject | Throttle.

(** The action, with the keepalive time and the permit's flag after it. *)
Definition admit_heartbeat (known_swap : bool) (now : Z) (last_keepalive : option Z) (pending : bool)
    (st : LimiterState) : outcome MakerError (HeartbeatAction * option Z * bool * LimiterState) :=
  if negb known_swap then Ok (Reject, last_keepalive, pending, st)
  else if match last_keepalive with Some last => now - last <? MIN_KEEPALIVE_INTERVAL | None => false end
  then Ok (Throttle, last_keepalive, pending, st)
  else mark_established pending st ≫= fun st => Ok (Accept, Some now, false, st).

(** ** All connections together *)
Record Limiter := { lm_state : LimiterState; lm_permits : gmap nat bool }.

Inductive limiter_step : Limiter -> Limiter -> Prop :=
| step_acquire now i st ps st' :
    ps !! i = None -> try_acquire now st = (true, st') ->
    limiter_step {| lm_state := st; lm_permits := ps |} {| lm_state := st'; lm_permits := <[i := true]> ps |}
| step_refuse now st ps st' :
    try_acquire now st = (false, st') ->
    limiter_step {| lm_state := st; lm_permits := ps |} {| lm_state := st'; lm_permits := ps |}
| step_establish i b st ps st' :
    ps !! i = Some b -> mark_established b st = Ok st' ->
    limiter_step {| lm_state := st; lm_permits := ps |} {| lm_state := st'; lm_permits := <[i := false]> ps |}
| step_drop i b st ps st' :
    ps !! i = Some b -> drop_permit b st = Ok st' ->
    limiter_step {| lm_state := st; lm_permits := ps |} {| lm_state := st'; lm_permits := delete i ps |}.

Definition pending_permits (ps : gmap nat bool) : gmap nat bool := filter (fun p => p.2 = true) ps.

Record counted (l : Limiter) : Prop := {
  ct_active : ls_active (lm_state l) = Z.of_nat (size (lm_permits l));
  ct_pending : ls_pending (lm_state l) = Z.of_nat (size (pending_permits (lm_permits l)));
  ct_active_max : ls_active (lm_state l) <= MAX_INBOUND_CONNECTIONS;
  ct_pending_max : ls_pending (lm_state l) <= MAX_PENDING_CONNECTIONS;
}.

(** *** Counting *)
Lemma pending_insert_true i (ps : gmap nat bool) : ps !! i = None ->
  size (pending_permits (<[i := true]> ps)) = S (size (pending_permits ps)).
Proof.
  intros Hi. unfold pending_permits. rewrite map_filter_insert_True by done. apply map_size_insert_None.
  apply map_lookup_filter_None. by left.
Qed.
Lemma pending_insert_false i (ps : gmap nat bool) : pending_permits (<[i := false]> ps) = pending_permits (delete i ps).
Proof. unfold pending_permits. by rewrite map_filter_insert_False. Qed.
Lemma pending_delete i (b : bool) (ps : gmap nat bool) : ps !! i = Some b ->
  size (pending_permits ps) = ((if b return nat then 1 else 0) + size (pending_permits (delete i ps)))%nat.
Proof.
  intros Hi. rewrite <- (insert_delete_id ps i b Hi) at 1. destruct b.
  - apply pending_insert_true, lookup_delete_eq.
  - by rewrite pending_insert_false, delete_delete_eq.
Qed.
Lemma permits_delete i b (ps : gmap nat bool) : ps !! i = Some b -> size ps = S (size (delete i ps)).
Proof.
  intros Hi. rewrite <- (insert_delete_id ps i b Hi) at 1. apply map_size_insert_None, lookup_delete_eq.
Qed.

Lemma decrement_Ok n m : decrement n = Ok m <-> n <> 0 /\ m = n - 1.
Proof. unfold decrement. destruct (Z.eqb_spec n 0); split; [done|lia|intros [= <-]; done|by intros [_ ->]]. Qed.
Lemma decrement_pos n : 0 < n -> decrement n = Ok (n - 1).
Proof. intros H. apply decrement_Ok. lia. Qed.

Lemma try_acquire_counts now st b st' : try_acquire now st = (b, st') ->
  (b = false /\ ls_active st' = ls_active st /\ ls_pending st' = ls_pending st) \/
  (b = true /\ ls_active st < MAX_INBOUND_CONNECTIONS /\ ls_pending st < MAX_PENDING_CONNECTIONS /\
   ls_active st' = ls_active st + 1 /\ ls_pending st' = ls_pending st + 1).
Proof.
  unfold try_acquire. cbv zeta. set (tokens := f64_min _ _). cbn [ls_tokens ls_active ls_pending].
  destruct (f64_ltb tokens (f64_of_Z 1)); [intros [= <- <-]; by left|].
  destruct (Z.leb_spec MAX_INBOUND_CONNECTIONS (ls_active st)), (Z.leb_spec MAX_PENDING_CONNECTIONS (ls_pending st));
    cbn [orb]; intros [= <- <-]; [by left..|right]. done.
Qed.

Lemma mark_established_counts l i b : counted l -> lm_permits l !! i = Some b ->
  exists st', mark_established b (lm_state l) = Ok st' /\ counted {| lm_state := st'; lm_permits := <[i := false]> (lm_permits l) |}.
Proof.
  destruct l as [st ps]. intros [A P Am Pm] Hi. cbn [lm_state lm_permits] in *. pose proof (pending_delete i b ps Hi) as Hp.
  assert (size (<[i := false]> ps) = size ps) as Hs by (apply map_size_insert_Some; by exists b).
  unfold mark_established. destruct b.
  - rewrite decrement_pos by lia. eexists. split; [done|].
    split; cbn [lm_state lm_permits ls_active ls_pending]; rewrite ?pending_insert_false, ?Hs; lia.
  - exists st. split; [done|]. split; cbn [lm_state lm_permits]; rewrite ?pending_insert_false, ?Hs; lia.
Qed.

Lemma drop_permit_counts l i b : counted l -> lm_permits l !! i = Some b ->
  exists st', drop_permit b (lm_state l) = Ok st' /\ counted {| lm_state := st'; lm_permits := delete i (lm_permits l) |}.
Proof.
  destruct l as [st ps]. intros [A P Am Pm] Hi. cbn [lm_state lm_permits] in *. pose proof (pending_delete i b ps Hi) as Hp.
  pose proof (permits_delete i b ps Hi) as Ha. unfold drop_permit. destruct b.
  - rewrite (decrement_pos (ls_pending st)) by lia. rewrite !bind_Ok_eq. cbn [ls_active]. rewrite decrement_pos by lia.
    eexists. split; [done|]. split; cbn [lm_state lm_permits ls_active ls_pending]; lia.
  - rewrite bind_Ok_eq, decrement_pos by lia. eexists. split; [done|]. split; cbn [lm_state lm_permits ls_active ls_pending]; lia.
Qed.

Lemma limiter_step_counted l l' : limiter_step l l' -> counted l -> counted l'.
Proof.
  intros Hstep Hl. destruct Hstep as [now i st ps st' Hi Ha|now st ps st' Ha|i b st ps st' Hi He|i b st ps st' Hi Hd].
  - apply try_acquire_counts in Ha as [[? _]|(_ & H1 & H2 & H3 & H4)]; [done|]. destruct Hl as [A P Am Pm].
    cbn [lm_state lm_permits] in *. split; cbn [lm_state lm_permits].
    + rewrite map_size_insert_None by done. lia.
    + rewrite pending_insert_true by done. lia.
    + lia.
    + lia.
  - apply try_acquire_counts in Ha as [(_ & H1 & H2)|[? _]]; [|done]. destruct Hl as [A P Am Pm].
    cbn [lm_state lm_permits] in *. split; cbn [lm_state lm_permits]; lia.
  - destruct (mark_established_counts _ i b Hl Hi) as (st2 & E & H). cbn in E. rewrite E in He. by injection He as <-.
  - destruct (drop_permit_counts _ i b Hl Hi) as (st2 & E & H). cbn in E. rewrite E in Hd. by injection Hd as <-.
Qed.

(** The limiter counts connections exactly.  However connections are accepted,
    refused, promoted and closed, the counters are the numbers of live and of
    unidentified connections, never above 90 and 30, and neither a
    promotion nor the release of a live permit can underflow a counter. *)
Lemma permits_are_counted now0 l :
  rtc limiter_step {| lm_state := LimiterState_new now0; lm_permits := ∅ |} l ->
  ls_active (lm_state l) = Z.of_nat (size (lm_permits l)) /\ ls_active (lm_state l) <= 90 /\
  ls_pending (lm_state l) = Z.of_nat (size (pending_permits (lm_permits l))) /\ ls_pending (lm_state l) <= 30 /\
  (forall i b, lm_permits l !! i = Some b ->
     is_ok (mark_established b (lm_state l)) = true /\ is_ok (drop_permit b (lm_state l)) = true).
Proof.
  intros Hrun. assert (counted l) as Hl.
  { revert l Hrun. apply rtc_ind_r; [|intros; by eapply limiter_step_counted].
    split; cbn; [done|done|unfold MAX_INBOUND_CONNECTIONS, MAX_CONCURRENT_SWAPS; lia|unfold MAX_PENDING_CONNECTIONS, MAX_CONCURRENT_SWAPS; lia]. }
  pose proof Hl as [A P Am Pm]. repeat split; [done|exact Am|done|exact Pm|..].
  - destruct (mark_established_counts l i b Hl H) as (st' & -> & _). done.
  - destruct (drop_permit_counts l i b Hl H) as (st' & -> & _). done.
Qed.

Definition one_permit : Limiter :=
  {| lm_state := (try_acquire 5 (LimiterState_new 0)).2; lm_permits := {[ 0%nat := true ]} |}.

Lemma permits_are_counted_witness :
  ls_active (lm_state one_permit) = 1 /\ ls_pending (lm_state one_permit) = 1 /\
  is_ok (drop_permit true (lm_state one_permit)) = true.
Proof.
  destruct (permits_are_counted 0 one_permit) as (H1 & _ & H2 & _ & H3).
  - eapply rtc_once. apply (step_acquire 5 0%nat _ ∅); [reflexivity|vm_compute; reflexivity].
  - split; [rewrite H1; vm_compute; reflexivity|]. split; [rewrite H2; vm_compute; reflexivity|].
    apply (H3 0%nat true). reflexivity.
Defined.
