(* ===== verification/Connection.v ===== *)
(** A connection of the maker: [handle_connection] of src/maker/server.rs, with
    the settlement of a completed swap and [sweep_incoming_swapcoins] of
    src/maker/api.rs.

    The thread of a connection owns its state, its socket and its permit; it shares
    the limiter and the server.  The clock of the socket is the clock of the
    world.  What a connection asks the watcher to forget goes through
    [ConnectionOutside]. *)
From S2P Require Import Prelude Float64 Bitcoin Messages Contract Errors SwapCoin TaprootLib Taproot TakerTracker TakerState LegacyVerification MakerHandlers LegacyHandlers TaprootHandlers WalletStore MakerApi WatchRegistry Watcher MakerTracker ChainWait WalletRecovery MakerRecovery Framing ConnectionLimiter.
#[local] Open Scope string_scope.
#[local] Open Scope list_scope.
#[local] Open Scope Z_scope.

Class ConnectionOutside (D : Type) := {
  co_recovery :: RecoveryOutside D;
  co_unwatch : OutPoint -> Script -> D -> D;
}.

Record Connection (D : Type) := {
  cn_node : MakerNode D;
  cn_limiter : LimiterState;
  cn_stream : Stream;
  cn_state : ConnectionState;
  cn_permit_pending : bool;
  cn_pending_deadline : Z;
  cn_last_keepalive : option Z;
  cn_success_reports : list string;
}.
Arguments cn_node {D} _.
Arguments cn_limiter {D} _.
Arguments cn_stream {D} _.
Arguments cn_state {D} _.
Arguments cn_permit_pending {D} _.
Arguments cn_pending_deadline {D} _.
Arguments cn_last_keepalive {D} _.
Arguments cn_success_reports {D} _.
Arguments Build_Connection {D} _ _ _ _ _ _ _ _.

Section connection.
Context {lib : BitcoinLib} {tap : TaprootLib} {hi : HashIter} {D : Type} {ov : ConnectionOutside D}
  {cbt : Cbor TakerToMakerMessage} {cbm : Cbor MakerToTakerMessage}.
Abbreviation conn_op := (stateful (Connection D) MakerError).

(** ** Access *)
Definition on_node {A} (m : stateful (MakerNode D) MakerError A) : conn_op A := fun c =>
  let '(r, n) := m (cn_node c) in (r, {| c with cn_node := n |}).
Definition on_maker {A} (m : stateful (MakerServer D) MakerError A) : conn_op A := on_node (on_server m).
Definition conn_world (c : Connection D) : D := world_of (cn_node c).
Definition instant (c : Connection D) : Z := cc_now (conn_world c).
(** Seconds of the clock that [last_activity] uses. *)
Definition wall_clock (c : Connection D) : Z := now_of (mn_server (cn_node c)).

(** The socket shares the clock of the world. *)
Definition on_stream {A} (m : stateful Stream MakerError A) : conn_op A := fun c =>
  let '(r, s) := m {| (cn_stream c) with sm_now := instant c |} in
  let '(_, n) := modify_world (cc_sleep (sm_now s - instant c)) (cn_node c) in
  (r, {| c with cn_stream := s; cn_node := n |}).

Definition on_limiter (m : LimiterState -> outcome MakerError LimiterState) : conn_op () := fun c =>
  match m (cn_limiter c) with
  | Ok st => (Ok (), {| c with cn_limiter := st |})
  | Err e => (Err e, c)
  | Panic => (Panic, c)
  end.

Definition establish : conn_op () :=
  gets cn_permit_pending ≫= fun pending =>
  on_limiter (mark_established pending) ≫= fun _ =>
  modify (fun c => {| c with cn_permit_pending := false |}).

(** ** Settlement *)
Definition srv_sweep_incoming_swapcoins (incoming_swapcoins : list IncomingSwapCoin)
    : stateful (MakerNode D) MakerError RecoveryOutcome :=
  on_server lock_wallet ≫= fun _ =>
  node_outside mo_new_connection ≫= fun _ =>
  on_shared (sweep_incoming_swapcoins (f64_of_Z MIN_FEE_RATE)
    (Some (map (fun c => compute_txid (isc_contract_tx c)) incoming_swapcoins))) ≫= fun sweep_outcome =>
  on_server lock_wallet ≫= fun _ =>
  on_server (in_wallet rc_sync_and_save) ≫= fun _ =>
  mret sweep_outcome.

Definition fully_swept (incoming : list IncomingSwapCoin) (sweep_outcome : RecoveryOutcome) : bool :=
  negb (bool_decide (incoming = []))
  && forallb (fun c => existsb (fun p => bool_decide (p.1 = compute_txid (isc_contract_tx c))) (ro_resolved sweep_outcome))
       incoming.

Definition unwatch_outputs (tx : Transaction) : conn_op () :=
  st_for_each (fun o => on_node (modify_world (co_unwatch o.1 o.2))) (indexed_outputs tx).

Definition settlement_complete (state : ConnectionState) (sweep_outcome : RecoveryOutcome + MakerError) : bool :=
  match cs_swap_id state, sweep_outcome with
  | Some _, inl outcome => fully_swept (cs_incoming_swapcoins state) outcome
  | _, _ => false
  end.

(** A settled swap is reported and its watches end; any other goes back to the table. *)
Definition finish_settlement (state : ConnectionState) (complete : bool) : conn_op () :=
  if complete then
    modify (fun c => {| c with cn_success_reports := cn_success_reports c ++ option_list (cs_swap_id state) |}) ≫= fun _ =>
    st_for_each (fun i => unwatch_outputs (isc_contract_tx i)) (cs_incoming_swapcoins state) ≫= fun _ =>
    st_for_each (fun o => unwatch_outputs (osc_contract_tx o)) (cs_outgoing_swapcoins state)
  else
    match cs_swap_id state with
    | Some id => on_maker (srv_store_connection_state id state false)
    | None => mret ()
    end.

Definition forget_swap (state : ConnectionState) : conn_op () :=
  match cs_swap_id state with Some id => on_maker (remove_swap_state id) | None => mret () end.

(** What runs once the phase is [Completed]. *)
Definition settle : conn_op () :=
  gets cn_state ≫= fun state =>
  forget_swap state ≫= fun _ =>
  attempt (on_node (srv_sweep_incoming_swapcoins (cs_incoming_swapcoins state))) ≫= fun sweep_outcome =>
  attempt (E := MakerError) (on_maker (_ ← lock_wallet; in_wallet rc_sync_and_save)) ≫= fun _ =>
  finish_settlement state (settlement_complete state sweep_outcome).

(** ** The loop *)
Definition swap_is_quiet : conn_op bool := fun c =>
  let own := is_timed_out (wall_clock c) (cn_state c) IDLE_CONNECTION_TIMEOUT in
  match cs_swap_id (cn_state c) with
  | Some id =>
      match on_maker (srv_get_connection_state id) c with
      | (Ok (Some stored), c) => (Ok (is_timed_out (wall_clock c) stored IDLE_CONNECTION_TIMEOUT), c)
      | (Panic, c) => (Panic, c)
      | (_, c) => (Ok own, c)
      end
  | None => (Ok own, c)
  end.

(** [true] lets the heartbeat through. *)
Definition heartbeat (known_swap : bool) : conn_op bool := fun c =>
  match admit_heartbeat known_swap (instant c) (cn_last_keepalive c) (cn_permit_pending c) (cn_limiter c) with
  | Ok (action, last, pending, st) =>
      (Ok (match action with Accept => true | _ => false end),
       {| c with cn_last_keepalive := last; cn_permit_pending := pending; cn_limiter := st |})
  | Err e => (Err e, c)
  | Panic => (Panic, c)
  end.

Definition admit_message (message : TakerToMakerMessage) : conn_op bool :=
  match message with
  | TM_WaitingFundingConfirmation id =>
      on_maker (srv_get_connection_state id) ≫= fun stored => heartbeat (bool_decide (is_Some stored))
  | _ => mret true
  end.

Definition run_handler (message : TakerToMakerMessage) : conn_op (option MakerToTakerMessage) := fun c =>
  let '(r, hs) := handle_message handle_legacy_message handle_taproot_message message
                    (Build_HandlerState (cn_state c) (mn_server (cn_node c)) []) in
  (r, {| c with cn_state := hs_conn hs; cn_node := {| (cn_node c) with mn_server := hs_world hs |} |}).

(** [ConnectionState::touch]. *)
Definition touched (now : Z) (state : ConnectionState) : ConnectionState := {| state with cs_last_activity := now |}.

(** Deadline, permit and activity after a handled message. *)
Definition after_handling (started : Z) : conn_op () :=
  modify (fun c => if cn_permit_pending c
                   then {| c with cn_pending_deadline := cn_pending_deadline c + (instant c - started) |} else c) ≫= fun _ =>
  gets (fun c => cs_swap_id (cn_state c)) ≫= fun id =>
  match id with Some _ => establish | None => mret () end ≫= fun _ =>
  modify (fun c => {| c with cn_state := touched (wall_clock c) (cn_state c) |}).

(** An admitted message; [false] breaks the loop. *)
Definition answer (message : TakerToMakerMessage) : conn_op bool :=
  gets instant ≫= fun handling_started =>
  attempt (run_handler message) ≫= fun handled =>
  match handled with
  | inr _ => mret false
  | inl response =>
      after_handling handling_started ≫= fun _ =>
      attempt (match response with
               | Some response => on_stream (send_message response)
               | None => mret ()
               end) ≫= fun sent =>
      match sent with
      | inr _ => mret false
      | inl _ =>
          gets (fun c => cs_phase (cn_state c)) ≫= fun phase =>
          if bool_decide (phase = Completed) then settle ≫= fun _ => mret false else mret true
      end
  end.

(** One turn; [false] breaks the loop. *)
Definition connection_turn : conn_op bool :=
  gets (fun c => cc_shutdown (conn_world c)) ≫= fun down : bool =>
  if down then mret false
  else
    gets (fun c => is_timed_out (wall_clock c) (cn_state c) IDLE_CONNECTION_TIMEOUT) ≫= fun out : bool =>
    if out then mret false
    else
      gets (fun c => if cn_permit_pending c then Some (cn_pending_deadline c) else None) ≫= fun pending =>
      attempt (on_stream (read_message pending)) ≫= fun read =>
      match read with
      | inr e =>
          if is_read_timeout e then swap_is_quiet ≫= fun quiet : bool => mret (negb quiet) else mret false
      | inl message =>
          admit_message message ≫= fun go_on : bool => if go_on then answer message else mret false
      end.

(** [false] when the fuel ran out while the connection was open. *)
Fixpoint connection_loop (fuel : nat) : conn_op bool :=
  match fuel with
  | O => mret false
  | S fuel => connection_turn ≫= fun go_on : bool => if go_on then connection_loop fuel else mret true
  end.

(** The accept loop's part for one stream, from the permit to its release. *)
Definition serve (fuel : nat) (n : MakerNode D) (lim : LimiterState) (s : Stream)
    : option (outcome MakerError bool * Connection D) :=
  let now := cc_now (world_of n) in
  match try_acquire now lim with
  | (false, _) => None
  | (true, lim) =>
      let c := Build_Connection n lim s (ConnectionState_new (now_of (mn_server n)) Legacy) true
                 (now + PENDING_CONNECTION_TIMEOUT) None [] in
      let '(r, c) := connection_loop fuel c in
      Some (match drop_permit (cn_permit_pending c) (cn_limiter c) with
            | Ok st => (r, {| c with cn_limiter := st |})
            | Err e => (Err e, c)
            | Panic => (Panic, c)
            end)
  end.
End connection.
