(* ===== verification/ConnectionSafety.v ===== *)
(** What a connection of the maker may do.

    [connection_turns_are_server_steps] refines the step relation of
    [ServerInvariant]: whatever the turn of a connection does to the server is a
    sequence of those steps, so the invariant proved there holds of the code.
    [settlement_keeps_track] and [connection_releases_permit] are about the end of
    a swap and of a connection. *)
From S2P Require Import Prelude Float64 Bitcoin Messages Contract Errors SwapCoin ScriptEval TaprootLib Taproot TakerTracker TakerState LegacyVerification MakerHandlers LegacyHandlers TaprootHandlers WalletStore MakerApi MakerSwaps ServerInvariant WatchRegistry Watcher MakerTracker ChainWait WalletRecovery RecoverySafety SweepSafety MakerRecovery MakerRecoverySafety Framing ConnectionLimiter Connection.
#[local] Open Scope string_scope.
#[local] Open Scope list_scope.
#[local] Open Scope Z_scope.

Section refinement.
Context {lib : BitcoinLib} {tap : TaprootLib} {hi : HashIter} {hil : HashIterLaws hi} {D : Type}
  {ov : ConnectionOutside D} {cbt : Cbor TakerToMakerMessage} {cbm : Cbor MakerToTakerMessage}.
Abbreviation conn_op := (stateful (Connection D) MakerError).
Abbreviation server_of c := (mn_server (cn_node c)).

(** The system as one connection sees it: its own slot and the others. *)
Context (i : nat) (others : gmap nat ConnectionState).
Definition open_sys (c : Connection D) : System :=
  {| sys_server := server_of c; sys_conns := <[i := cn_state c]> others |}.
Definition closed_sys (c : Connection D) : System :=
  {| sys_server := server_of c; sys_conns := delete i others |}.

(** An operation that changes the wallet of the server at most. *)
Definition wallet_only {A} (m : conn_op A) : Prop := forall c,
  cn_state (m c).2 = cn_state c /\
  server_of (m c).2 = {| (server_of c) with srv_wallet := srv_wallet (server_of (m c).2) |}.

Lemma wallet_only_steps {A} (m : conn_op A) c : wallet_only m -> ServerInvariant.step (open_sys c) (open_sys (m c).2).
Proof.
  intros Hm. destruct (Hm c) as [Hs Hv]. unfold open_sys. rewrite Hs, Hv. apply step_wallet.
Qed.

Lemma wallet_only_bind {A B} (m : conn_op A) (f : A -> conn_op B) :
  wallet_only m -> (forall a, wallet_only (f a)) -> wallet_only (m ≫= f).
Proof.
  intros Hm Hf c. specialize (Hm c). unfold mbind, stateful_bind.
  destruct (m c) as [[a|e|] c1]; cbn [snd] in *; [|done..]. destruct (Hf a c1) as [H1 H2]. destruct Hm as [H3 H4].
  split; [congruence|]. rewrite H2, H4. by destruct (server_of c).
Qed.
Lemma wallet_only_attempt {A} (m : conn_op A) : wallet_only m -> wallet_only (attempt (E' := MakerError) m).
Proof. intros Hm c. specialize (Hm c). unfold attempt. by destruct (m c) as [[a|e|] c1]. Qed.
(** Nothing of the server changes. *)
Lemma wallet_only_still {A} (m : conn_op A) :
  (forall c, cn_state (m c).2 = cn_state c /\ server_of (m c).2 = server_of c) -> wallet_only m.
Proof. intros Hm c. destruct (Hm c) as [-> ->]. split; [done|]. by destruct (server_of c). Qed.
Lemma wallet_only_for_each {A} (f : A -> conn_op ()) l : (forall x, wallet_only (f x)) -> wallet_only (st_for_each f l).
Proof.
  intros Hf. induction l as [|x l IH]; cbn [st_for_each]; [by apply wallet_only_still|by apply wallet_only_bind].
Qed.

(** The same for operations of the node. *)
Definition node_wallet_only {A} (m : stateful (MakerNode D) MakerError A) : Prop := forall n,
  mn_server (m n).2 = {| (mn_server n) with srv_wallet := srv_wallet (mn_server (m n).2) |}.
Lemma wallet_only_node {A} (m : stateful (MakerNode D) MakerError A) : node_wallet_only m -> wallet_only (on_node m).
Proof. intros Hm c. specialize (Hm (cn_node c)). unfold on_node. destruct (m (cn_node c)) as [r n]. cbn in *. done. Qed.
Lemma node_wallet_bind {A B} (m : stateful (MakerNode D) MakerError A) (f : A -> stateful (MakerNode D) MakerError B) :
  node_wallet_only m -> (forall a, node_wallet_only (f a)) -> node_wallet_only (m ≫= f).
Proof.
  intros Hm Hf n. specialize (Hm n). unfold mbind, stateful_bind.
  destruct (m n) as [[a|e|] n1]; cbn [snd] in *; [|done..]. rewrite (Hf a n1), Hm. by destruct (mn_server n).
Qed.
Lemma node_wallet_still {A} (m : stateful (MakerNode D) MakerError A) :
  (forall n, mn_server (m n).2 = mn_server n) -> node_wallet_only m.
Proof. intros Hm n. rewrite Hm. by destruct (mn_server n). Qed.
Lemma node_wallet_lock : node_wallet_only (on_server lock_wallet).
Proof. apply node_wallet_still. intros n. unfold on_server, lock_wallet. by destruct n. Qed.
Lemma node_wallet_in_wallet {A} (m : stateful (Wallet D) WalletError A) : node_wallet_only (on_server (in_wallet m)).
Proof. intros n. unfold on_server, in_wallet. by destruct (m (srv_wallet (mn_server n))). Qed.
Lemma node_wallet_shared {A} (m : stateful (SharedWallet D) WalletError A) : node_wallet_only (on_shared m).
Proof. intros n. unfold on_shared. by destruct (m _). Qed.
Lemma node_wallet_world f : node_wallet_only (modify_world f).
Proof. by intros n. Qed.

Lemma wallet_only_stream {A} (m : stateful Stream MakerError A) : wallet_only (on_stream m).
Proof. intros c. unfold on_stream. by destruct (m _). Qed.
Lemma wallet_only_gets {A} (f : Connection D -> A) : wallet_only (gets f).
Proof. by apply wallet_only_still. Qed.
Lemma wallet_only_ret {A} (a : A) : wallet_only (mret a : conn_op A).
Proof. by apply wallet_only_still. Qed.
Lemma get_connection_state_still id (c : Connection D) : server_of (on_maker (srv_get_connection_state id) c).2 = server_of c /\
  cn_state (on_maker (srv_get_connection_state id) c).2 = cn_state c.
Proof.
  unfold on_maker, on_node, on_server, srv_get_connection_state, get_swaps, lock_swaps, mbind, stateful_bind.
  destruct c as [n]. destruct n as [s]. cbn. by destruct (srv_swaps_poisoned s).
Qed.
Lemma wallet_only_get id : wallet_only (on_maker (srv_get_connection_state id)).
Proof. apply wallet_only_still. intros c. by destruct (get_connection_state_still id c). Qed.
Lemma wallet_only_quiet : wallet_only swap_is_quiet.
Proof.
  apply wallet_only_still. intros c. unfold swap_is_quiet. destruct (cs_swap_id (cn_state c)) as [id|]; [|done].
  destruct (get_connection_state_still id c) as [H1 H2].
  destruct (on_maker (srv_get_connection_state id) c) as [[[st|]|e|] c1]; done.
Qed.
Lemma wallet_only_admit m : wallet_only (admit_message m).
Proof.
  unfold admit_message. destruct m; try apply wallet_only_ret. apply wallet_only_bind; [apply wallet_only_get|].
  intros st. apply wallet_only_still. intros c. unfold heartbeat.
  by destruct (admit_heartbeat _ _ _ _ _) as [[[[a l] p] x]|e|].
Qed.

Lemma wallet_only_sweep coins : wallet_only (on_node (srv_sweep_incoming_swapcoins coins)).
Proof.
  apply wallet_only_node. unfold srv_sweep_incoming_swapcoins.
  apply node_wallet_bind; [apply node_wallet_lock|]. intros _.
  apply node_wallet_bind; [apply node_wallet_in_wallet|]. intros _.
  apply node_wallet_bind; [apply node_wallet_shared|]. intros o.
  apply node_wallet_bind; [apply node_wallet_lock|]. intros _.
  apply node_wallet_bind; [apply node_wallet_in_wallet|]. intros _. by apply node_wallet_still.
Qed.
Lemma wallet_only_sync : wallet_only (on_maker (_ ← lock_wallet; in_wallet rc_sync_and_save)).
Proof.
  apply wallet_only_node. intros [s tr p re th]. destruct s as [? w []]; [done|].
  unfold on_server, mbind, stateful_bind, lock_wallet, in_wallet. cbn. by destruct (rc_sync_and_save w).
Qed.
Lemma wallet_only_unwatch tx : wallet_only (unwatch_outputs tx).
Proof. apply wallet_only_for_each. intros o. apply wallet_only_node, node_wallet_world. Qed.

(** ** Simulation *)
Abbreviation steps := (rtc ServerInvariant.step).

(** From an open connection to one that is open or closed. *)
Definition ends (c : Connection D) (run : outcome MakerError bool * Connection D) : Prop :=
  steps (open_sys c) (match run.1 with Ok true => open_sys run.2 | _ => closed_sys run.2 end).

Lemma close_steps c c' : steps (open_sys c) (open_sys c') -> steps (open_sys c) (closed_sys c').
Proof.
  intros H. eapply rtc_r; [exact H|]. unfold open_sys, closed_sys.
  rewrite <- (delete_insert_eq others i (cn_state c')). apply step_close.
Qed.

Lemma ends_bind {A} (m : conn_op A) (f : A -> conn_op bool) c :
  wallet_only m -> (forall a c1, ends c1 (f a c1)) -> ends c ((m ≫= f) c).
Proof.
  intros Hm Hf. pose proof (wallet_only_steps m c Hm) as H1. unfold ends, mbind, stateful_bind.
  destruct (m c) as [[a|e|] c1]; cbn [fst snd] in *; [|by apply close_steps, rtc_once..].
  eapply rtc_l; [exact H1|apply Hf].
Qed.
Lemma ends_ret b c : ends c ((mret b : conn_op bool) c).
Proof. destruct b; [apply rtc_refl|by apply close_steps]. Qed.

(** The connection after a message, at the time it was handled. *)
Definition handled_sys (c : Connection D) : System :=
  {| sys_server := server_of c; sys_conns := <[i := touched (wall_clock c) (cn_state c)]> others |}.

Lemma handler_steps msg (c : Connection D) : let '(r, c') := run_handler msg c in
  ServerInvariant.step (open_sys c) (if is_ok r then handled_sys c' else closed_sys c').
Proof.
  unfold run_handler. destruct (handle_message _ _ _ _) as [r hs] eqn:E.
  pose proof (step_message (server_of c) (<[i := cn_state c]> others) i (cn_state c) msg r hs (lookup_insert_eq _ _ _) E) as H.
  rewrite insert_insert_eq, delete_insert_eq in H. by destruct (is_ok r).
Qed.

Lemma finish_steps (c : Connection D) state complete :
  cs_phase state = Completed -> cn_state c = state ->
  steps (open_sys c) (closed_sys (finish_settlement state complete c).2).
Proof.
  intros Hph <-. unfold finish_settlement. destruct complete.
  - apply close_steps, rtc_once, wallet_only_steps. apply wallet_only_bind; [by apply wallet_only_still|]. intros _.
    apply wallet_only_bind; [|intros _]; apply wallet_only_for_each; intros x; apply wallet_only_unwatch.
  - destruct (cs_swap_id (cn_state c)) as [id|] eqn:Eid; [|by apply close_steps].
    unfold on_maker, on_node, on_server.
    destruct (srv_store_connection_state id (cn_state c) false (server_of c)) as [r s'] eqn:E. cbn.
    apply rtc_once.
    pose proof (step_unsettled (server_of c) (<[i := cn_state c]> others) i (cn_state c) id r s' (lookup_insert_eq _ _ _)
      Hph Eid E) as H. by rewrite delete_insert_eq in H.
Qed.

(** A completed connection: either it is closed, or its state goes back to the table. *)
Lemma settle_steps (c : Connection D) : cs_phase (cn_state c) = Completed ->
  steps (open_sys c) (closed_sys (settle c).2).
Proof.
  intros Hph. unfold settle. erewrite st_bind_step by reflexivity. set (state := cn_state c) in *.
  assert (steps (open_sys c) (open_sys (forget_swap state c).2) /\ cn_state (forget_swap state c).2 = state) as [H1 Hs1].
  { unfold forget_swap. destruct (cs_swap_id state) as [id|]; [|split; [apply rtc_refl|done]].
    unfold on_maker, on_node, on_server. destruct (remove_swap_state id (server_of c)) as [r s'] eqn:E. cbn.
    split; [|done]. apply rtc_once. by eapply step_remove. }
  unfold mbind at 1, stateful_bind at 1. destruct (forget_swap state c) as [[[]|e|] c1]; cbn [snd] in *; [|by apply close_steps..].
  set (rest := attempt (on_node (srv_sweep_incoming_swapcoins (cs_incoming_swapcoins state))) ≫= fun o => _).
  enough (steps (open_sys c1) (closed_sys (rest c1).2)) by by etrans.
  unfold rest, mbind at 1, stateful_bind at 1.
  pose proof (wallet_only_attempt _ (wallet_only_sweep (cs_incoming_swapcoins state))) as Hw.
  pose proof (wallet_only_steps _ c1 Hw) as H2. destruct (Hw c1) as [Hs2 _].
  destruct (attempt _ c1) as [[o|e|] c2]; cbn [snd] in *; [|by apply close_steps, rtc_once..].
  eapply rtc_l; [exact H2|]. unfold mbind at 1, stateful_bind at 1.
  pose proof (wallet_only_attempt _ wallet_only_sync) as Hw2. pose proof (wallet_only_steps _ c2 Hw2) as H3. destruct (Hw2 c2) as [Hs3 _].
  destruct (attempt _ c2) as [[o2|e|] c3]; cbn [snd] in *; [|by apply close_steps, rtc_once..].
  eapply rtc_l; [exact H3|]. apply finish_steps; [done|congruence].
Qed.

Lemma after_handling_run started (c : Connection D) : let '(r, c') := after_handling started c in
  server_of c' = server_of c /\ (is_ok r = true -> cn_state c' = touched (wall_clock c) (cn_state c)).
Proof.
  unfold after_handling. erewrite st_bind_step by reflexivity. set (c1 := if cn_permit_pending c then _ else c).
  assert (server_of c1 = server_of c /\ cn_state c1 = cn_state c) as [H1 H2] by (unfold c1; by destruct (cn_permit_pending c)).
  erewrite st_bind_step by reflexivity. unfold wall_clock. rewrite <- H1, <- H2. clearbody c1. clear H1 H2.
  unfold mbind at 1, stateful_bind at 1. destruct (cs_swap_id (cn_state c1)); [|by split].
  unfold establish. erewrite st_bind_step by reflexivity. unfold mbind, stateful_bind, on_limiter.
  destruct (mark_established _ _); by split.
Qed.

Lemma handled_close (c c' : Connection D) : server_of c' = server_of c -> ServerInvariant.step (handled_sys c) (closed_sys c').
Proof.
  intros Hs. unfold handled_sys, closed_sys. rewrite Hs.
  pose proof (step_close (server_of c) (<[i := touched (wall_clock c) (cn_state c)]> others) i) as H.
  by rewrite delete_insert_eq in H.
Qed.

Lemma settle_ends (c : Connection D) : cs_phase (cn_state c) = Completed -> ends c ((settle ≫= fun _ => mret false) c).
Proof.
  intros Hph. pose proof (settle_steps c Hph) as H. unfold ends, mbind, stateful_bind.
  by destruct (settle c) as [[[]|e|] c1].
Qed.

Lemma answer_ends message (c : Connection D) : ends c (answer message c).
Proof.
  unfold answer. apply ends_bind; [apply wallet_only_gets|]. intros t c1.
  pose proof (handler_steps message c1) as H1. unfold mbind at 1, stateful_bind at 1, attempt at 1.
  destruct (run_handler message c1) as [[response|e|] c2]; [|exact (rtc_once _ _ H1)..]. cbn [is_ok] in H1.
  pose proof (after_handling_run t c2) as H2.
  unfold mbind at 1, stateful_bind at 1. destruct (after_handling t c2) as [[[]|e|] c3]; destruct H2 as [Hs Hc];
    [|exact (rtc_l _ _ _ _ H1 (rtc_once _ _ (handled_close _ _ Hs)))..].
  assert (handled_sys c2 = open_sys c3) as E by (unfold handled_sys, open_sys; rewrite Hs, (Hc eq_refl); done).
  rewrite E in H1. unfold ends. eapply rtc_l; [exact H1|]. apply ends_bind.
  - apply wallet_only_attempt. destruct response; [apply wallet_only_stream|apply wallet_only_ret].
  - intros [[]|e] c4; [|apply ends_ret]. erewrite st_bind_step by reflexivity.
    case_bool_decide as Hph; [by apply settle_ends|apply ends_ret].
Qed.

Lemma turn_ends (c : Connection D) : ends c (connection_turn c).
Proof.
  unfold connection_turn. apply ends_bind; [apply wallet_only_gets|]. intros [] c1; [apply ends_ret|].
  apply ends_bind; [apply wallet_only_gets|]. intros [] c2; [apply ends_ret|].
  apply ends_bind; [apply wallet_only_gets|]. intros pending c3.
  apply ends_bind; [apply wallet_only_attempt, wallet_only_stream|]. intros [message|e] c4.
  - apply ends_bind; [apply wallet_only_admit|]. intros [] c5; [apply answer_ends|apply ends_ret].
  - destruct (is_read_timeout e); [|apply ends_ret]. apply ends_bind; [apply wallet_only_quiet|].
    intros quiet c5. apply ends_ret.
Qed.

Lemma loop_ends fuel : forall c : Connection D,
  steps (open_sys c) (open_sys (connection_loop fuel c).2) \/ steps (open_sys c) (closed_sys (connection_loop fuel c).2).
Proof.
  induction fuel as [|fuel IH]; intros c; cbn [connection_loop]; [left; apply rtc_refl|].
  pose proof (turn_ends c) as H. unfold ends in H. unfold mbind, stateful_bind.
  destruct (connection_turn c) as [[[]|e|] c1]; cbn [fst snd] in *; [|by right..].
  destruct (IH c1) as [H1|H1]; [left|right]; by etrans.
Qed.
End refinement.

Section theorems.
Context {lib : BitcoinLib} {tap : TaprootLib} {hi : HashIter} {hil : HashIterLaws hi} {D : Type}
  {ov : ConnectionOutside D} {cbt : Cbor TakerToMakerMessage} {cbm : Cbor MakerToTakerMessage}.
Abbreviation conn_op := (stateful (Connection D) MakerError).
Abbreviation server_of c := (mn_server (cn_node c)).

(** The connection loop refines the server's step relation.  A turn of any
    connection, whatever arrives on its socket and whichever call fails, changes
    the server and the connection's own state exactly as a sequence of steps of
    [ServerInvariant] does, and ends with the connection still open or closed; so
    the invariant of connections and stored swaps survives every turn. *)
Lemma connection_turns_are_server_steps i others (c c' : Connection D) r :
  connection_turn c = (r, c') ->
  rtc ServerInvariant.step
    {| sys_server := server_of c; sys_conns := <[i := cn_state c]> others |}
    {| sys_server := server_of c'; sys_conns := match r with Ok true => <[i := cn_state c']> others | _ => delete i others end |} /\
  (table_ok (server_of c) -> conn_inv (cn_state c) ->
   table_ok (server_of c') /\ (r = Ok true -> conn_inv (cn_state c'))).
Proof.
  intros Hrun. pose proof (turn_ends i others c) as H. rewrite Hrun in H. unfold ends in H. cbn in H. split.
  - by destruct r as [[]|e|].
  - intros Ht Hc. pose proof (turn_ends 0%nat ∅ c) as H0. rewrite Hrun in H0. unfold ends in H0. cbn in H0.
    assert (forall sys, rtc ServerInvariant.step (open_sys 0%nat ∅ c) sys -> system_ok sys) as Hok.
    { apply rtc_ind_r; [|intros; by eapply step_keeps]. split; [done|]. apply map_Forall_insert_2; [done|apply map_Forall_empty]. }
    apply Hok in H0 as [Ht' Hc']. split; [by destruct r as [[]|e|]|]. intros ->. apply (Hc' 0%nat), lookup_insert_eq.
Qed.

(** ** Permits *)
Abbreviation flag c := (Z.b2z (cn_permit_pending c)).
Definition permit_kept (c c' : Connection D) : Prop :=
  ls_active (cn_limiter c') = ls_active (cn_limiter c) /\
  ls_pending (cn_limiter c') - flag c' = ls_pending (cn_limiter c) - flag c.
#[local] Instance permit_kept_preorder : PreOrder permit_kept.
Proof. split; [by intros c|]. intros c1 c2 c3 [A1 P1] [A2 P2]. split; lia. Qed.
Definition keeps_permit {A} (m : conn_op A) : Prop := forall c, permit_kept c (m c).2.

Lemma keeps_permit_bind {A B} (m : conn_op A) (f : A -> conn_op B) :
  keeps_permit m -> (forall a, keeps_permit (f a)) -> keeps_permit (m ≫= f).
Proof.
  intros Hm Hf c. specialize (Hm c). unfold mbind, stateful_bind. destruct (m c) as [[a|e|] c1]; cbn [snd] in *; [|done..].
  etrans; [exact Hm|apply Hf].
Qed.
Lemma keeps_permit_attempt {A} (m : conn_op A) : keeps_permit m -> keeps_permit (attempt (E' := MakerError) m).
Proof. intros Hm c. specialize (Hm c). unfold attempt. by destruct (m c) as [[a|e|] c1]. Qed.
Lemma keeps_permit_still {A} (m : conn_op A) :
  (forall c, cn_limiter (m c).2 = cn_limiter c /\ cn_permit_pending (m c).2 = cn_permit_pending c) -> keeps_permit m.
Proof. intros Hm c. destruct (Hm c) as [H1 H2]. unfold permit_kept. by rewrite H1, H2. Qed.
Lemma keeps_permit_node {A} (m : stateful (MakerNode D) MakerError A) : keeps_permit (on_node m).
Proof. apply keeps_permit_still. intros c. unfold on_node. by destruct (m _). Qed.
Lemma keeps_permit_for_each {A} (f : A -> conn_op ()) l : (forall x, keeps_permit (f x)) -> keeps_permit (st_for_each f l).
Proof.
  intros Hf. induction l as [|x l IH]; cbn [st_for_each]; [by apply keeps_permit_still|by apply keeps_permit_bind].
Qed.
Lemma keeps_permit_stream {A} (m : stateful Stream MakerError A) : keeps_permit (on_stream m).
Proof. apply keeps_permit_still. intros c. unfold on_stream. by destruct (m _). Qed.
Lemma keeps_permit_gets {A} (f : Connection D -> A) : keeps_permit (gets f).
Proof. by apply keeps_permit_still. Qed.
Lemma keeps_permit_ret {A} (a : A) : keeps_permit (mret a : conn_op A).
Proof. by apply keeps_permit_still. Qed.

Lemma mark_established_run b st st' : mark_established b st = Ok st' ->
  ls_active st' = ls_active st /\ ls_pending st' = ls_pending st - Z.b2z b.
Proof.
  unfold mark_established. destruct b.
  - intros (n & [_ ->]%decrement_Ok & [= <-])%bind_Ok. cbn. lia.
  - intros [= <-]. cbn. lia.
Qed.

Lemma keeps_permit_establish : keeps_permit establish.
Proof.
  intros c. unfold establish, mbind, stateful_bind, gets, on_limiter.
  destruct (mark_established (cn_permit_pending c) (cn_limiter c)) as [st|e|] eqn:E; [|done..].
  apply mark_established_run in E as [H1 H2]. unfold permit_kept. cbn. lia.
Qed.
Lemma keeps_permit_heartbeat b : keeps_permit (heartbeat b).
Proof.
  intros c. unfold heartbeat, admit_heartbeat. destruct b; cbn [negb]; [|done].
  destruct (match cn_last_keepalive c with Some _ => _ | None => _ end); [done|].
  destruct (mark_established (cn_permit_pending c) (cn_limiter c)) as [st|e|] eqn:E; [|done..].
  apply mark_established_run in E as [H1 H2]. unfold permit_kept. cbn. lia.
Qed.

Lemma keeps_permit_settle : keeps_permit settle.
Proof.
  unfold settle. apply keeps_permit_bind; [apply keeps_permit_gets|]. intros st.
  apply keeps_permit_bind; [unfold forget_swap; case_match; [apply keeps_permit_node|apply keeps_permit_ret]|]. intros _.
  apply keeps_permit_bind; [apply keeps_permit_attempt, keeps_permit_node|]. intros o.
  apply keeps_permit_bind; [apply keeps_permit_attempt, keeps_permit_node|]. intros _.
  unfold finish_settlement. destruct (settlement_complete st o).
  - apply keeps_permit_bind; [by apply keeps_permit_still|]. intros _.
    apply keeps_permit_bind; [|intros _]; repeat (apply keeps_permit_for_each; intros ?); apply keeps_permit_node.
  - case_match; [apply keeps_permit_node|apply keeps_permit_ret].
Qed.

Lemma keeps_permit_answer m : keeps_permit (answer m).
Proof.
  unfold answer. apply keeps_permit_bind; [apply keeps_permit_gets|]. intros t.
  apply keeps_permit_bind.
  { apply keeps_permit_attempt, keeps_permit_still. intros c. unfold run_handler. by destruct (handle_message _ _ _ _). }
  intros [response|e]; [|apply keeps_permit_ret]. apply keeps_permit_bind.
  - unfold after_handling. apply keeps_permit_bind.
    + apply keeps_permit_still. intros c. cbn. by destruct (cn_permit_pending c) eqn:E.
    + intros _. apply keeps_permit_bind; [apply keeps_permit_gets|]. intros id.
      apply keeps_permit_bind; [destruct id; [apply keeps_permit_establish|apply keeps_permit_ret]|]. intros _. by apply keeps_permit_still.
  - intros _. apply keeps_permit_bind.
    + apply keeps_permit_attempt. destruct response; [apply keeps_permit_stream|apply keeps_permit_ret].
    + intros [[]|e]; [|apply keeps_permit_ret]. apply keeps_permit_bind; [apply keeps_permit_gets|]. intros ph.
      case_bool_decide; [|apply keeps_permit_ret]. apply keeps_permit_bind; [apply keeps_permit_settle|]. intros _. apply keeps_permit_ret.
Qed.

Lemma keeps_permit_turn : keeps_permit connection_turn.
Proof.
  unfold connection_turn. apply keeps_permit_bind; [apply keeps_permit_gets|]. intros []; [apply keeps_permit_ret|].
  apply keeps_permit_bind; [apply keeps_permit_gets|]. intros []; [apply keeps_permit_ret|].
  apply keeps_permit_bind; [apply keeps_permit_gets|]. intros pending.
  apply keeps_permit_bind; [apply keeps_permit_attempt, keeps_permit_stream|]. intros [message|e].
  - apply keeps_permit_bind; [|intros []; [apply keeps_permit_answer|apply keeps_permit_ret]].
    unfold admit_message. destruct message; try apply keeps_permit_ret.
    apply keeps_permit_bind; [apply keeps_permit_node|]. intros st. apply keeps_permit_heartbeat.
  - destruct (is_read_timeout e); [|apply keeps_permit_ret]. apply keeps_permit_bind; [|intros q; apply keeps_permit_ret].
    apply keeps_permit_still. intros c. unfold swap_is_quiet. destruct (cs_swap_id (cn_state c)) as [id|]; [|done].
    unfold on_maker, on_node. destruct (on_server _ _) as [[[]|e'|] n]; done.
Qed.

Lemma keeps_permit_loop fuel : keeps_permit (connection_loop fuel).
Proof.
  induction fuel as [|fuel IH]; cbn [connection_loop]; [apply keeps_permit_ret|].
  apply keeps_permit_bind; [apply keeps_permit_turn|]. intros []; [done|apply keeps_permit_ret].
Qed.

(** Every connection gives its slots back.  A served connection, however it ends
    (shutdown, timeout, bad message, failed or panicking handler, settled swap),
    leaves the counters of the limiter as they were before it was accepted. *)
Lemma connection_releases_permit fuel (n : MakerNode D) lim s r c :
  0 <= ls_active lim -> 0 <= ls_pending lim -> serve fuel n lim s = Some (r, c) ->
  ls_active (cn_limiter c) = ls_active lim /\ ls_pending (cn_limiter c) = ls_pending lim.
Proof.
  intros Ha Hp. unfold serve. destruct (try_acquire _ lim) as [[] lim1] eqn:E; [|done].
  apply try_acquire_counts in E as [[? _]|(_ & _ & _ & H1 & H2)]; [done|].
  set (c0 := Build_Connection _ lim1 _ _ _ _ _ _). pose proof (keeps_permit_loop fuel c0) as [K1 K2].
  destruct (connection_loop fuel c0) as [r1 c1]. cbn in K1, K2. unfold drop_permit.
  destruct (cn_permit_pending c1); cbn in K2.
  - rewrite (decrement_pos (ls_pending _)) by lia. rewrite !bind_Ok_eq. cbn [ls_active]. rewrite decrement_pos by lia.
    intros [= <- <-]. cbn. lia.
  - rewrite bind_Ok_eq, decrement_pos by lia. intros [= <- <-]. cbn. lia.
Qed.
End theorems.

(** ** Settlement *)
Class ConnectionMoves {D : Type} {ov : ConnectionOutside D} (R : D -> D -> Prop) : Prop := {
  cm_node :: NodeMoves R;
  cm_unwatch o spk d : R d (co_unwatch o spk d);
}.

Section settlement.
Context {lib : BitcoinLib} {tap : TaprootLib} {hi : HashIter} {hil : HashIterLaws hi} {D : Type}
  {ov : ConnectionOutside D} (R : D -> D -> Prop) {cm : ConnectionMoves R} {sk : SyncKeepsCoins (file := mo_file) D}.
Abbreviation conn_op := (stateful (Connection D) MakerError).
Abbreviation server_of c := (mn_server (cn_node c)).
Abbreviation wallet_of c := (srv_wallet (server_of c)).
Abbreviation fee := (f64_of_Z MIN_FEE_RATE).
Definition shared_of (n : MakerNode D) : SharedWallet D :=
  Build_SharedWallet (srv_wallet (mn_server n)) (srv_wallet_poisoned (mn_server n)).

#[local] Existing Instance same_coins_preorder.
Abbreviation tracked s0 scope resolved s := (sweep_ok R fee s0 scope resolved s).

Lemma tracked_rebase s0 s1 scope resolved s :
  same_coins R (sw_wallet s0) (sw_wallet s1) -> tracked s1 scope resolved s -> tracked s0 scope resolved s.
Proof.
  intros (M & I & O) [Hm Ho Hs Hg Hl]. split; rewrite <- ?I, <- ?O; try done; [by etrans|].
  intros k c Hc Hn. destruct (Hg k c Hc Hn) as [? Hsw]. split; [done|].
  by apply (swept_mono R fee c _ (wl_outside (sw_wallet s1)) (wl_outside (sw_wallet s)) _).
Qed.

(** Operations that leave the swap coins alone. *)
Definition node_same {A} (m : stateful (MakerNode D) MakerError A) : Prop := forall n,
  same_coins R (srv_wallet (mn_server n)) (srv_wallet (mn_server (m n).2)).

Lemma node_same_still {A} (m : stateful (MakerNode D) MakerError A) :
  (forall n, srv_wallet (mn_server (m n).2) = srv_wallet (mn_server n)) -> node_same m.
Proof. intros Hm n. rewrite Hm. reflexivity. Qed.
Lemma node_same_lock : node_same (on_server lock_wallet).
Proof. by apply node_same_still. Qed.
Lemma node_same_wallet {A} (m : stateful (Wallet D) WalletError A) : neutral R m -> node_same (on_server (in_wallet m)).
Proof.
  intros Hm n. specialize (Hm (srv_wallet (mn_server n))). unfold on_server, in_wallet.
  by destruct (m (srv_wallet (mn_server n))).
Qed.
Lemma node_same_run {A} (m : stateful (MakerNode D) MakerError A) n r n' :
  node_same m -> m n = (r, n') -> same_coins R (sw_wallet (shared_of n)) (sw_wallet (shared_of n')).
Proof. intros Hm Hrun. specialize (Hm n). by rewrite Hrun in Hm. Qed.

Abbreviation filed_incoming n :=
  (forall k x, wst_incoming_swapcoins (wl_store (srv_wallet (mn_server n))) !! k = Some x -> k = compute_txid (isc_contract_tx x)).

Lemma shared_sweep_run scope (n n' : MakerNode D) r :
  filed_incoming n -> on_shared (sweep_incoming_swapcoins fee scope) n = (r, n') ->
  exists resolved, tracked (shared_of n) scope resolved (shared_of n') /\
    forall o, r = Ok o -> o = {| ro_resolved := resolved; ro_discarded := [] |}.
Proof.
  intros Hk. unfold on_shared. fold (shared_of n).
  destruct (sweep_incoming_swapcoins fee scope (shared_of n)) as [rs w] eqn:E. intros [= <- <-].
  apply (sweep_run R) in E as (res & Hok & Hres); [|exact Hk]. exists res. split.
  - apply (sweep_ok_same R fee _ _ _ w); [done|]. reflexivity.
  - intros o Ho. destruct rs as [x|e|]; [|done..]. injection Ho as <-. by injection (Hres eq_refl) as ->.
Qed.

Lemma node_sweep_run coins (n n' : MakerNode D) r :
  filed_incoming n -> srv_sweep_incoming_swapcoins coins n = (r, n') ->
  exists resolved,
    tracked (shared_of n) (Some (map (fun c => compute_txid (isc_contract_tx c)) coins)) resolved (shared_of n') /\
    forall o, r = Ok o -> o = {| ro_resolved := resolved; ro_discarded := [] |}.
Proof.
  intros Hk. set (scope := Some _).
  assert (forall n1, same_coins R (sw_wallet (shared_of n)) (sw_wallet (shared_of n1)) -> tracked (shared_of n) scope [] (shared_of n1)) as Hnone.
  { intros n1 Hsame. apply (sweep_ok_same R fee _ _ _ (shared_of n)); [|done]. split; try done; [by intros k c ->|].
    intros k. split; [by intros []%not_elem_of_nil|]. intros [[c ->] ?]. done. }
  unfold srv_sweep_incoming_swapcoins, mbind at 1, stateful_bind at 1.
  destruct (on_server lock_wallet n) as [[[]|e|] n1] eqn:E1; pose proof (node_same_run _ _ _ _ node_same_lock E1) as S1;
    [|intros [= <- <-]; exists []; split; [by apply Hnone|done]..].
  unfold mbind at 1, stateful_bind at 1.
  assert (node_same (node_outside (D := D) mo_new_connection)) as Hnc by (apply node_same_wallet, neutral_outside; intros d; apply nm_new_connection).
  destruct (node_outside mo_new_connection n1) as [[[]|e|] n2] eqn:E2; pose proof (node_same_run _ _ _ _ Hnc E2) as S2;
    (assert (same_coins R (sw_wallet (shared_of n)) (sw_wallet (shared_of n2))) as S02 by (by etrans));
    [|intros [= <- <-]; exists []; split; [by apply Hnone|done]..].
  unfold mbind at 1, stateful_bind at 1. fold scope.
  destruct (on_shared (sweep_incoming_swapcoins fee scope) n2) as [rs n3] eqn:E3.
  apply shared_sweep_run in E3 as (res & Hok & Hres).
  2: { destruct S02 as (_ & I & _). cbn in *. rewrite I. exact Hk. }
  apply (tracked_rebase (shared_of n)) in Hok; [|done]. intros Hrun. exists res.
  destruct rs as [o|e|]; [|by injection Hrun as <- <-..]. specialize (Hres o eq_refl) as ->.
  unfold mbind at 1, stateful_bind at 1 in Hrun.
  destruct (on_server lock_wallet n3) as [[[]|e|] n4] eqn:E4; pose proof (node_same_run _ _ _ _ node_same_lock E4) as S4;
    apply (sweep_ok_same R fee _ _ _ _ _ Hok) in S4; [|by injection Hrun as <- <-..].
  unfold mbind at 1, stateful_bind at 1 in Hrun.
  destruct (on_server (in_wallet rc_sync_and_save) n4) as [[[]|e|] n5] eqn:E5;
    pose proof (node_same_run _ _ _ _ (node_same_wallet _ (neutral_sync R)) E5) as S5;
    apply (sweep_ok_same R fee _ _ _ _ _ S4) in S5; injection Hrun as <- <-; [|done..].
  split; [done|]. by intros o [= <-].
Qed.

Lemma forget_run id state (c c1 : Connection D) r :
  cs_swap_id state = Some id -> forget_swap state c = (r, c1) ->
  wallet_of c1 = wallet_of c /\ cn_success_reports c1 = cn_success_reports c /\
  (r = Ok () -> srv_ongoing_swaps (server_of c1) = delete id (srv_ongoing_swaps (server_of c)) /\ srv_swaps_poisoned (server_of c1) = false).
Proof.
  intros Hid. unfold forget_swap. rewrite Hid. unfold on_maker, on_node, on_server, remove_swap_state, lock_swaps, mbind, stateful_bind.
  destruct (srv_swaps_poisoned (server_of c)) eqn:E; cbn; intros [= <- <-]; cbn; repeat split; done.
Qed.

(** Neither coins nor stored swaps nor reports change. *)
Record quiet_step (c c' : Connection D) : Prop := {
  qs_coins : same_coins R (wallet_of c) (wallet_of c');
  qs_swaps : srv_ongoing_swaps (server_of c') = srv_ongoing_swaps (server_of c);
  qs_reports : cn_success_reports c' = cn_success_reports c;
}.
#[local] Instance quiet_step_preorder : PreOrder quiet_step.
Proof.
  split; [by intros c|]. intros c1 c2 c3 [C1 S1 R1] [C2 S2 R2]. split; [by etrans|congruence..].
Qed.
Definition quiet {A} (m : conn_op A) : Prop := forall c, quiet_step c (m c).2.

Lemma quiet_bind {A B} (m : conn_op A) (f : A -> conn_op B) : quiet m -> (forall a, quiet (f a)) -> quiet (m ≫= f).
Proof.
  intros Hm Hf c. specialize (Hm c). unfold mbind, stateful_bind. destruct (m c) as [[a|e|] c1]; cbn [snd] in *; [|done..].
  etrans; [exact Hm|apply Hf].
Qed.
Lemma quiet_for_each {A} (f : A -> conn_op ()) l : (forall x, quiet (f x)) -> quiet (st_for_each f l).
Proof.
  intros Hf. induction l as [|x l IH]; cbn [st_for_each]; [by intros c|by apply quiet_bind].
Qed.
Lemma quiet_unwatch tx : quiet (unwatch_outputs tx).
Proof. apply quiet_for_each. intros o c. split; [split; [apply cm_unwatch|done]|done|done]. Qed.
Lemma quiet_sync : quiet (attempt (E := MakerError) (E' := MakerError) (on_maker (_ ← lock_wallet; in_wallet rc_sync_and_save))).
Proof.
  intros c. unfold attempt, on_maker, on_node, on_server, mbind, stateful_bind, lock_wallet.
  destruct (srv_wallet_poisoned (server_of c)); cbn; [done|]. unfold in_wallet.
  pose proof (neutral_sync R (wallet_of c)) as H. by destruct (rc_sync_and_save (wallet_of c)) as [[[]|e|] w].
Qed.

(** What the last step of a settlement leaves in the table and in the reports. *)
Lemma finish_run id state complete (c c' : Connection D) r :
  cs_swap_id state = Some id -> srv_ongoing_swaps (server_of c) !! id = None ->
  finish_settlement state complete c = (r, c') ->
  same_coins R (wallet_of c) (wallet_of c') /\
  (r = Ok () ->
   if complete then cn_success_reports c' = cn_success_reports c ++ [id] /\ srv_ongoing_swaps (server_of c') !! id = None
   else cn_success_reports c' = cn_success_reports c /\
     exists now, srv_ongoing_swaps (server_of c') !! id = Some (store_fields now state (SwapState_default now))).
Proof.
  intros Hid Hnone. unfold finish_settlement. destruct complete.
  - erewrite st_bind_step by reflexivity. rewrite Hid. set (c1 := {| c with cn_success_reports := _ |}). intros Hrun.
    assert (quiet_step c1 c') as [Q1 Q2 Q3].
    { apply (f_equal snd) in Hrun. cbn [snd] in Hrun. rewrite <- Hrun. apply quiet_bind; [|intros _]; apply quiet_for_each; intros x; apply quiet_unwatch. }
    split; [exact Q1|]. intros _. rewrite Q2, Q3. done.
  - rewrite Hid. unfold on_maker, on_node, on_server, srv_store_connection_state, get_swaps, lock_swaps, set_swaps, mbind, stateful_bind.
    cbn [mret stateful_ret]. destruct (srv_swaps_poisoned (server_of c)); cbn; [by intros [= <- <-]|].
    rewrite Hnone. cbn. intros [= <- <-]. split; [done|]. intros _. split; [done|]. eexists. apply lookup_insert_eq.
Qed.

Lemma tail_run id state complete (c c' : Connection D) r :
  cs_swap_id state = Some id -> srv_ongoing_swaps (server_of c) !! id = None ->
  (attempt (E := MakerError) (on_maker (_ ← lock_wallet; in_wallet rc_sync_and_save)) ≫= fun _ =>
   finish_settlement state complete) c = (r, c') ->
  same_coins R (wallet_of c) (wallet_of c') /\
  (r = Ok () ->
   if complete then cn_success_reports c' = cn_success_reports c ++ [id] /\ srv_ongoing_swaps (server_of c') !! id = None
   else cn_success_reports c' = cn_success_reports c /\
     exists now, srv_ongoing_swaps (server_of c') !! id = Some (store_fields now state (SwapState_default now))).
Proof.
  intros Hid Hnone. unfold mbind at 1, stateful_bind at 1. pose proof (quiet_sync c) as [Q1 Q2 Q3].
  destruct (attempt _ c) as [[x|e|] c1]; cbn [snd] in *; [|by intros [= <- <-]..].
  intros Hf. apply (finish_run id) in Hf as [F1 F2]; [|done|congruence]. rewrite Q3 in F2. split; [by etrans|done].
Qed.

Definition ended (id : string) (state : ConnectionState) (resolved : list (Txid * Txid)) (c c' : Connection D) : Prop :=
  (fully_swept (cs_incoming_swapcoins state) {| ro_resolved := resolved; ro_discarded := [] |} = true /\
   cn_success_reports c' = cn_success_reports c ++ [id] /\ srv_ongoing_swaps (server_of c') !! id = None) \/
  (cn_success_reports c' = cn_success_reports c /\
   exists now, srv_ongoing_swaps (server_of c') !! id = Some (store_fields now state (SwapState_default now))).

Lemma settle_run id (c c' : Connection D) r :
  let state := cn_state c in
  cs_swap_id state = Some id -> filed_incoming (cn_node c) -> settle c = (r, c') ->
  exists scope resolved, tracked (shared_of (cn_node c)) scope resolved (shared_of (cn_node c')) /\
    (r = Ok () -> ended id state resolved c c').
Proof.
  intros state Hid Hk. unfold settle. erewrite st_bind_step by reflexivity. fold state.
  set (scope := Some (map (fun c => compute_txid (isc_contract_tx c)) (cs_incoming_swapcoins state))).
  assert (tracked (shared_of (cn_node c)) scope [] (shared_of (cn_node c))) as H0.
  { split; try done; [by intros k x ->|]. intros k. split; [by intros []%not_elem_of_nil|]. intros [[x ->] ?]. done. }
  unfold mbind at 1, stateful_bind at 1. destruct (forget_swap state c) as [r1 c1] eqn:E1.
  apply (forget_run id) in E1 as (W1 & R1 & T1); [|done].
  assert (shared_of (cn_node c1) = Build_SharedWallet (wallet_of c) (srv_wallet_poisoned (server_of c1))) as Hsh by (unfold shared_of; by rewrite W1).
  destruct r1 as [[]|e|]; [|intros [= <- <-]; exists scope, []; split; [rewrite Hsh; by destruct H0|done]..].
  destruct (T1 eq_refl) as [T1' _]. clear T1. unfold mbind at 1, stateful_bind at 1, attempt at 1, on_node at 1.
  destruct (srv_sweep_incoming_swapcoins (cs_incoming_swapcoins state) (cn_node c1)) as [r2 n2] eqn:E2.
  pose proof (wallet_only_sweep (cs_incoming_swapcoins state) c1) as [_ V2]. unfold on_node in V2. rewrite E2 in V2. cbn [snd] in V2.
  apply node_sweep_run in E2 as (res & Hok & Hres); [|rewrite W1; exact Hk]. fold scope in Hok.
  apply (tracked_rebase (shared_of (cn_node c))) in Hok; [|rewrite Hsh; reflexivity].
  set (c2 := {| c1 with cn_node := n2 |}) in *.
  assert (srv_ongoing_swaps (server_of c2) !! id = None /\ cn_success_reports c2 = cn_success_reports c) as [T2 R2].
  { split; [|exact R1]. rewrite V2. cbn. rewrite T1'. apply lookup_delete_eq. }
  assert (forall so, (attempt (E := MakerError) (on_maker (_ ← lock_wallet; in_wallet rc_sync_and_save)) ≫= fun _ =>
      finish_settlement state (settlement_complete state so)) c2 = (r, c') ->
    (settlement_complete state so = true -> fully_swept (cs_incoming_swapcoins state) {| ro_resolved := res; ro_discarded := [] |} = true) ->
    tracked (shared_of (cn_node c)) scope res (shared_of (cn_node c')) /\ (r = Ok () -> ended id state res c c')) as Htail.
  { intros so Hrun Hso. apply (tail_run id) in Hrun as [F1 F2]; [|done..]. rewrite R2 in F2.
    split; [by apply (sweep_ok_same R fee _ _ _ (shared_of n2))|].
    intros Hr. specialize (F2 Hr). destruct (settlement_complete state so); [left|right]; [|done]. by split; [apply Hso|]. }
  intros Hrun. exists scope, res. destruct r2 as [o|e|]; [|apply (Htail (inr e)); [done|unfold settlement_complete; by rewrite Hid]|injection Hrun as <- <-; by split].
  apply (Htail (inl o)); [done|]. rewrite (Hres o eq_refl). unfold settlement_complete. by rewrite Hid.
Qed.

(** The end of a swap keeps track of its coins.  Whatever fails, an incoming coin
    leaves the wallet only with a mined spend of it, and no outgoing coin is
    touched; and a settlement that returns has either reported success, with every
    incoming coin of the swap swept and the swap forgotten, or put
    the swap back into the table with its coins, for the idle checker to recover. *)
Lemma settlement_keeps_track id (c c' : Connection D) r :
  cs_swap_id (cn_state c) = Some id -> filed_incoming (cn_node c) -> settle c = (r, c') ->
  let coins c := wst_incoming_swapcoins (wl_store (wallet_of c)) in
  let state := cn_state c in
  (forall k x, coins c !! k = Some x ->
     coins c' !! k = Some x \/ coins c' !! k = None /\ swept R fee x (conn_world c) (conn_world c')) /\
  wst_outgoing_swapcoins (wl_store (wallet_of c')) = wst_outgoing_swapcoins (wl_store (wallet_of c)) /\
  (r = Ok () ->
   (cn_success_reports c' = cn_success_reports c ++ [id] /\ srv_ongoing_swaps (server_of c') !! id = None /\
    forall x, x ∈ cs_incoming_swapcoins state ->
      is_Some (coins c !! compute_txid (isc_contract_tx x)) /\ coins c' !! compute_txid (isc_contract_tx x) = None) \/
   (cn_success_reports c' = cn_success_reports c /\ exists st, srv_ongoing_swaps (server_of c') !! id = Some st /\
    ss_incoming_swapcoins st = cs_incoming_swapcoins state /\ ss_outgoing_swapcoins st = cs_outgoing_swapcoins state /\
    ss_phase st = cs_phase state /\ ss_funding_broadcast st = cs_funding_broadcast state)).
Proof.
  intros Hid Hk Hrun. destruct (settle_run id c c' r Hid Hk Hrun) as (scope & res & [Hm Ho Hs Hg Hl] & He). cbv zeta. cbn in *.
  split; [|split; [exact Ho|]].
  - intros k x Hx. destruct (wst_incoming_swapcoins (wl_store (wallet_of c')) !! k) as [y|] eqn:Ey.
    + left. apply Hs in Ey. congruence.
    + right. split; [done|]. by apply (Hg k x).
  - intros Hr. destruct (He Hr) as [(Hf & Hrep & Hnone)|(Hrep & now & Hst)]; [left|right].
    + split; [done|]. split; [done|]. intros x Hx. apply Hl.
      unfold fully_swept in Hf. apply andb_true_iff in Hf as [_ Hf]. rewrite forallb_forall in Hf.
      apply list_elem_of_In in Hx. specialize (Hf x Hx). apply existsb_exists in Hf as (p & Hp & Heq%bool_decide_eq_true).
      apply list_elem_of_fmap. exists p. split; [done|]. by apply list_elem_of_In.
    + split; [done|]. eexists. split; [exact Hst|]. done.
Qed.
End settlement.

(** ** Witnesses *)
Section node.
Context {lib : BitcoinLib}.
#[export] Instance node_connection : ConnectionOutside RecoveryNode :=
  {| co_recovery := node_recovery; co_unwatch _ _ d := d |}.
#[export] Instance node_connection_moves : ConnectionMoves node_history.
Proof. split; [apply node_history_moves|]. by intros o spk d. Qed.
End node.

#[local] Existing Instance Reference.lib.
#[local] Existing Instance TapReference.tap.
#[local] Existing Instance key_order.

(** One message each way is enough here. *)
Definition hello_cbor : Cbor TakerToMakerMessage :=
  {| to_vec m := match m with TM_TakerHello => Some [1] | _ => None end;
     from_slice b := match b with [1] => Some TM_TakerHello | _ => None end |}.
Definition reply_cbor : Cbor MakerToTakerMessage := {| to_vec _ := Some [2]; from_slice _ := None |}.
#[local] Existing Instance hello_cbor.
#[local] Existing Instance reply_cbor.

Definition ex_open (state : ConnectionState) (incoming : list (Z * Arrival)) (n : MakerNode RecoveryNode) : Connection RecoveryNode :=
  Build_Connection n (try_acquire 0 (LimiterState_new 0)).2
    {| sm_now := 0; sm_incoming := incoming; sm_sent := []; sm_write_fault := None |} state true 1000 None [].
Definition ex_hello : Connection RecoveryNode :=
  ex_open (ConnectionState_new 0 Legacy) [(5, Data 0 [0; 0; 1; 1])] (ex_maker ∅ ∅ (ex_node ∅ [] false)).

Lemma connection_turns_are_server_steps_witness :
  let run := connection_turn ex_hello in
  run.1 = Ok true /\ cs_phase (cn_state run.2) = AwaitingOfferRequest /\ conn_inv (cn_state run.2).
Proof.
  intros run. assert (run.1 = Ok true) as Hr by (vm_compute; reflexivity).
  split; [exact Hr|]. split; [vm_compute; reflexivity|].
  destruct (connection_turns_are_server_steps 0%nat ∅ ex_hello run.2 run.1 (surjective_pairing _)) as [_ H].
  apply H; [|intros [?|?]; discriminate|exact Hr].
  intros id st. change (srv_ongoing_swaps (mn_server (cn_node ex_hello))) with (∅ : gmap string SwapState).
  rewrite lookup_empty. discriminate.
Defined.

(** A peer that says hello and leaves. *)
Lemma connection_releases_permit_witness :
  exists r c, serve 5 (ex_maker ∅ ∅ (ex_node ∅ [] false)) (LimiterState_new 0)
      (FrameSample.peer [(5, Data 0 [0; 0; 1; 1]); (3, Closed)]) = Some (r, c) /\
    r = Ok true /\ ls_active (cn_limiter c) = 0 /\ ls_pending (cn_limiter c) = 0.
Proof.
  destruct (serve 5 (ex_maker ∅ ∅ (ex_node ∅ [] false)) (LimiterState_new 0)
      (FrameSample.peer [(5, Data 0 [0; 0; 1; 1]); (3, Closed)])) as [[r c]|] eqn:E; [|vm_compute in E; discriminate E].
  exists r, c. split; [reflexivity|].
  assert (r = Ok true) as Hr.
  { apply (f_equal (fun x => from_option fst (Ok false) x)) in E. vm_compute in E. exact (eq_sym E). }
  split; [exact Hr|].
  destruct (connection_releases_permit 5 (ex_maker ∅ ∅ (ex_node ∅ [] false)) (LimiterState_new 0)
      (FrameSample.peer [(5, Data 0 [0; 0; 1; 1]); (3, Closed)]) r c) as [H1 H2];
    [vm_compute; discriminate|vm_compute; discriminate|exact E|].
  split; [exact H1|exact H2].
Defined.

(** A completed swap with one incoming coin whose contract is on chain. *)
Definition ex_done (incoming : list IncomingSwapCoin) (outgoing : list OutgoingSwapCoin) : ConnectionState :=
  {| (ConnectionState_new 0 Legacy) with cs_phase := Completed; cs_swap_id := Some "swap";
     cs_funding_broadcast := true; cs_incoming_swapcoins := incoming; cs_outgoing_swapcoins := outgoing |}.
Definition ex_settling : Connection RecoveryNode :=
  ex_open (ex_done [ex_in 1] [ex_back]) []
    (ex_maker {[ ex_txid 9 := ex_back ]} {[ ex_txid 1 := ex_in 1 ]}
       (ex_node {[ {| op_txid := ex_txid 1; op_vout := 0 |} := 2 ]} [] false)).

Lemma ex_settling_incoming :
  wst_incoming_swapcoins (wl_store (srv_wallet (mn_server (cn_node ex_settling)))) = {[ ex_txid 1 := ex_in 1 ]}.
Proof. reflexivity. Qed.
Lemma ex_settled_gone :
  wst_incoming_swapcoins (wl_store (srv_wallet (mn_server (cn_node (settle ex_settling).2)))) !! ex_txid 1 = None.
Proof. vm_compute. reflexivity. Qed.

Lemma settlement_keeps_track_witness :
  cn_success_reports (settle ex_settling).2 = ["swap"] /\
  swept node_history (f64_of_Z MIN_FEE_RATE) (ex_in 1) (conn_world ex_settling) (conn_world (settle ex_settling).2).
Proof.
  split; [vm_compute; reflexivity|].
  destruct (settlement_keeps_track node_history "swap" ex_settling (settle ex_settling).2 (settle ex_settling).1) as (H & _).
  - reflexivity.
  - intros k x. rewrite ex_settling_incoming. intros [<- <-]%lookup_singleton_Some. vm_compute. reflexivity.
  - apply surjective_pairing.
  - destruct (H (ex_txid 1) (ex_in 1)) as [Hc|[_ Hs]].
    + rewrite ex_settling_incoming. apply lookup_singleton_eq.
    + rewrite ex_settled_gone in Hc. discriminate Hc.
    + exact Hs.
Defined.

(** ** What recovery does not reach

    A coin of a completed swap: the counterparty's key is known, the preimage is
    not.  Its funding output is unspent and confirmed; the next hop has collected the outgoing coin. *)
Definition ex_handed_over : IncomingSwapCoin :=
  {| (ex_in 1) with isc_other_privkey := Some 22; isc_hash_preimage := None |}.
Definition ex_collected : OutgoingSwapCoin :=
  {| ex_back with osc_contract_tx := {| (ex_contract_tx 9) with input :=
       [{| (ex_txin 0 []) with previous_output := {| op_txid := 78; op_vout := 0 |} |}] |} |}.
Definition ex_unsettled : MakerNode RecoveryNode :=
  ex_maker {[ compute_txid (osc_contract_tx ex_collected) := ex_collected ]} {[ ex_txid 1 := ex_handed_over ]}
    (ex_node {[ sample_outpoint := 10 ]} [] false).

(** When its settlement fails, the recovery thread the idle checker starts closes
    the swap without claiming the coin, no later start picks it up, and yet a
    sweep would collect it at once. *)
Lemma handed_over_coin_is_not_recovered :
  let coins n := wst_incoming_swapcoins (wl_store (srv_wallet (mn_server n))) in
  let '(r, n) := recover_from_swap (fun _ => None) "swap" [ex_handed_over] [ex_collected] 4 ex_unsettled in
  let swept := (on_shared (sweep_incoming_swapcoins (f64_of_Z MIN_FEE_RATE) None) n).2 in
  r = Ok true /\ map (fun r => r.1) (mn_reports n) = [("swap", TimelockRecovery)] /\
  coins n = {[ ex_txid 1 := ex_handed_over ]} /\
  mn_threads (start_unfinished_recoveries n).2 = [] /\
  coins swept = ∅.
Proof. vm_compute. repeat split. Qed.

(** A settled swap leaves its outgoing coin in the wallet, and the next start takes
    it for an unfinished one. *)
Lemma settled_swap_is_restarted :
  let n := cn_node (settle ex_settling).2 in
  (settle ex_settling).1 = Ok () /\ mn_threads (start_unfinished_recoveries n).2 = [("swap", [], [ex_back])].
Proof. vm_compute. repeat split. Qed.
