(* ===== verification/TakerApi.v ===== *)
(** The taker: its state, its connections to makers, what it persists, and the
    negotiation of a route (src/taker/api.rs).

    [Taker] is the part of the struct the swap drivers use.  Sockets, the node,
    key generation, coin selection, the watch service and the threads the taker
    starts are the class [TakerOutside] over a world [D].  A stream is the address
    it was opened to and a handle; [to_receive] reads a frame and decodes it.
    [tk_trace] records, newest first, the effects of the drivers that others can see; a message or a
    transaction is recorded when it is handed over, whether or not that succeeds. *)
From S2P Require Import Prelude Float64 Bitcoin Messages Contract Errors SwapCoin TaprootLib Taproot TakerTracker TakerState Payment LegacyVerification WalletStore MakerApi ChainWait WalletRecovery.
#[local] Open Scope string_scope.
#[local] Open Scope list_scope.
#[local] Open Scope Z_scope.

Definition MAX_FINALIZE_RETRIES : nat := 3.
Definition FINALIZE_RETRY_DELAY : Z := 15 * SECOND.
Definition MAKER_FUNDING_TIMEOUT : Z := 900 * SECOND.

#[global] Instance spec_float_eq_dec : EqDecision f64.
Proof. solve_decision. Defined.

Class TakerOutside (D : Type) := {
  to_file :: WalletFile D;
  to_chain :: RecoveryChain D;
  to_new_connection : stateful D WalletError ();
  to_now_secs : D -> Z;
  to_tracker_faults : nat -> option FlushFault;
  (** [SecretKey::new(&mut OsRng)] and the key of [generate_keypair]. *)
  to_random_key : D -> SecretKey * D;
  to_create_funding_txes : Amount -> list Script -> f64 -> option (list OutPoint) -> option (list OutPoint) ->
    stateful (Wallet D) WalletError CreateFundingTxesResult;
  to_connect : string -> stateful D TakerError nat;
  to_send : nat -> TakerToMakerMessage -> stateful D TakerError ();
  to_receive : nat -> stateful D TakerError MakerToTakerMessage;
  to_watch_alive : D -> bool;
  to_register_watch : OutPoint -> Script -> stateful D WatcherError ();
  (** The flags [breached] and [unknown] of the detector thread. *)
  to_breached : D -> bool;
  to_unknown : D -> bool;
  to_start_heartbeat : string -> list nat -> D -> D;
  to_address_script : Address -> Script;
  to_unwatch : OutPoint -> Script -> D -> D;
  (** The threads [BreachDetector::start] and [RecoveryLoop::start] spawn. *)
  to_start_detector : stateful D TakerError ();
  to_start_recovery : stateful D TakerError ();
  (** [generate_swap_report], of a success or of a failure. *)
  to_swap_report : bool -> stateful D TakerError ();
}.

(** The sentinels of the breach detector, behind their lock. *)
Record BreachDetector := { bd_sentinels : list (OutPoint * Txid * Script); bd_poisoned : bool }.

Inductive TakerEvent :=
| EvSent (address : string) (msg : TakerToMakerMessage)
| EvSaved (store : WalletStore)
| EvBroadcast (tx : Transaction)
| EvWatchtower (alive : bool).

Record Taker (D : Type) := {
  tk_ongoing_swap : TakerSt;
  tk_wallet : Wallet D;
  tk_wallet_poisoned : bool;
  tk_swap_tracker : SwapTracker;
  tk_tracker_poisoned : bool;
  tk_breach_detector : option BreachDetector;
  tk_recovery_loop : bool;
  tk_trace : list TakerEvent;
}.
Arguments tk_ongoing_swap {D} _.
Arguments tk_wallet {D} _.
Arguments tk_wallet_poisoned {D} _.
Arguments tk_swap_tracker {D} _.
Arguments tk_tracker_poisoned {D} _.
Arguments tk_breach_detector {D} _.
Arguments tk_recovery_loop {D} _.
Arguments tk_trace {D} _.
Arguments Build_Taker {D} _ _ _ _ _ _ _ _.

Abbreviation TcpStream := (string * nat)%type.

Section taker.
Context {lib : BitcoinLib} {tap : TaprootLib} {hi : HashIter} {D : Type} {tv : TakerOutside D}.
Abbreviation taker := (stateful (Taker D) TakerError).

(** ** Access *)
Definition world (t : Taker D) : D := wl_outside (tk_wallet t).

Definition on_swap {A} (m : stateful TakerSt TakerError A) : taker A := fun t =>
  let '(r, s) := m (tk_ongoing_swap t) in (r, {| t with tk_ongoing_swap := s |}).
(** [self.swap_state()?.f] and [self.swap_state_mut()?.f = ..]. *)
Definition read_swap {A} (f : OngoingSwapState -> A) : taker A := on_swap (swap_state (fun s => mret (f s))).
Definition set_swap (f : OngoingSwapState -> OngoingSwapState) : taker () := on_swap (swap_state_mut f).

(** [makers[i]]; an index out of range panics. *)
Definition maker_at (i : nat) : taker MakerConnection :=
  makers ← read_swap os_makers; lift (expect (makers !! i)).
Definition update_maker (i : nat) (f : MakerConnection -> MakerConnection) : taker () :=
  _ ← maker_at i; set_swap (fun s => {| s with os_makers := alter f i (os_makers s) |}).
(** [makers[i].legacy_exchange_mut()?.flag = true]. *)
Definition update_legacy (i : nat) (f : LegacyExchangeProgress -> LegacyExchangeProgress) : taker () :=
  m ← maker_at i;
  exch ← lift (legacy_exchange_mut m);
  update_maker i (fun m => {| m with mc_exchange := EP_Legacy (f exch) |}).

(** [read_wallet] and [write_wallet]: the lock is poisoned or it is not. *)
Definition write_wallet : taker () := fun t =>
  (reject (tk_wallet_poisoned t) (TE_General "Failed to lock wallet"), t).
Definition read_wallet : taker () := write_wallet.

Definition on_wallet {A} (op : stateful (Wallet D) WalletError A) : taker A := fun t =>
  let '(r, w) := op (tk_wallet t) in (map_err TE_Wallet r, {| t with tk_wallet := w |}).
Definition on_chain {A} (op : stateful D WalletError A) : taker A := on_wallet (in_outside op).
Definition on_world {A} (op : stateful D TakerError A) : taker A := fun t =>
  let '(r, d) := op (world t) in
  (r, {| t with tk_wallet := {| (tk_wallet t) with wl_outside := d |} |}).
Definition set_world (f : D -> D) : taker () := on_world (modify f).
Definition set_store (f : WalletStore -> WalletStore) : taker () :=
  on_wallet (modify (fun w => {| w with wl_store := f (wl_store w) |})).

Definition record_event (e : TakerEvent) : taker () :=
  modify (fun t => {| t with tk_trace := e :: tk_trace t |}).

Definition save_wallet : taker () :=
  _ ← on_wallet save_to_disk;
  store ← gets (fun t => wl_store (tk_wallet t));
  record_event (EvSaved store).

Definition send_tx (tx : Transaction) : taker Txid :=
  _ ← record_event (EvBroadcast tx);
  on_chain (rc_send_raw_transaction tx).

Definition is_alive : taker bool :=
  alive ← gets (fun t => to_watch_alive (world t));
  _ ← record_event (EvWatchtower alive);
  mret alive.

Definition random_key : taker SecretKey := on_world (fun d => let '(k, d) := to_random_key d in (Ok k, d)).
Definition generate_keypair : taker (PublicKey * SecretKey) := k ← random_key; mret (pubkey_of k, k).

(** [f] repeated for [0..count]. *)
Fixpoint repeat_op {S E A} (f : stateful S E A) (count : nat) : stateful S E (list A) :=
  match count with
  | O => mret []
  | S count => x ← f; xs ← repeat_op f count; mret (x :: xs)
  end.

Definition derive_maker_pubkey_and_nonce (tweakable_point : PublicKey) : taker (PublicKey * SecretKey) :=
  nonce ← random_key;
  maker_pubkey ← lift (taker_protocol (calculate_pubkey_from_nonce tweakable_point nonce));
  mret (maker_pubkey, nonce).

Definition generate_maker_keys (tweakable_point : PublicKey) (count : Z)
    : taker (list PublicKey * list SecretKey * list PublicKey * list SecretKey) :=
  multisig ← repeat_op (derive_maker_pubkey_and_nonce tweakable_point) (Z.to_nat count);
  hashlock ← repeat_op (derive_maker_pubkey_and_nonce tweakable_point) (Z.to_nat count);
  mret (map fst multisig, map snd multisig, map fst hashlock, map snd hashlock).

(** ** Connections *)
Definition net_connect (address : string) : taker TcpStream :=
  h ← on_world (to_connect address); mret (address, h).
Definition send_message (stream : TcpStream) (msg : TakerToMakerMessage) : taker () :=
  _ ← record_event (EvSent stream.1 msg);
  on_world (to_send stream.2 msg).
Definition read_message (stream : TcpStream) : taker MakerToTakerMessage := on_world (to_receive stream.2).

Definition net_handshake (stream : TcpStream) : taker ProtocolVersion :=
  _ ← send_message stream TM_TakerHello;
  msg ← read_message stream;
  match msg with
  | MT_MakerHello maker_hello =>
      desired ← read_swap (fun s => swp_protocol (os_params s));
      if bool_decide (desired ∈ mh_supported_protocols maker_hello) then mret desired
      else lift (Err (TE_General "Maker does not support {:?}. Supported: {:?}"))
  | _ => lift (Err (TE_General "Expected MakerHello response"))
  end.

(** A maker that cannot be reached is left out of the heartbeat. *)
Definition heartbeat_stream (address : string) : taker (list nat) :=
  connected ← attempt (net_connect address);
  match connected with
  | inl stream =>
      greeted ← attempt (E := TakerError) (net_handshake stream);
      mret (match greeted with inl _ => [stream.2] | inr _ => [] end)
  | inr _ => mret []
  end.

(** Dropping the returned guard stops the thread. *)
Definition start_route_heartbeat (swap_id : string) : taker () :=
  makers ← attempt (E := TakerError) (read_swap os_makers);
  match makers with
  | inl makers =>
      streams ← st_map (fun m => heartbeat_stream (mc_address m)) makers;
      set_world (to_start_heartbeat swap_id (concat streams))
  | inr _ => mret ()
  end.

(** ** The breach detector as its owner uses it *)
Definition requires_abort (t : Taker D) (d : D) : bool :=
  match tk_breach_detector t with Some _ => to_breached d || to_unknown d | None => false end.

Definition add_sentinels (sentinels : list (OutPoint * Txid * Script)) : taker () :=
  detector ← gets tk_breach_detector;
  match detector with
  | None => mret ()
  | Some bd =>
      _ ← lift (reject (bd_poisoned bd) (TE_General "breach sentinel lock poisoned"));
      _ ← modify (fun t => {| t with tk_breach_detector :=
                             Some {| bd with bd_sentinels := bd_sentinels bd ++ sentinels |} |});
      st_for_each (fun s => on_world (fun d => (Ok (), (to_register_watch s.1.1 s.2 d).2))) sentinels
  end.

(** [take], [disarm] and [stop]. *)
Definition retire_detector : taker () :=
  detector ← gets tk_breach_detector;
  _ ← modify (fun t => {| t with tk_breach_detector := None |});
  match detector with
  | Some bd =>
      if bd_poisoned bd then mret ()
      else st_for_each (fun s => set_world (to_unwatch s.1.1 s.2)) (bd_sentinels bd)
  | None => mret ()
  end.

(** ** Persistence *)
Definition lock_tracker : taker () := fun t =>
  (reject (tk_tracker_poisoned t) (TE_General "swap tracker lock poisoned"), t).
Definition on_tracker {A} (op : SwapTracker -> outcome TakerError A * SwapTracker) : taker A := fun t =>
  let '(r, st) := op (tk_swap_tracker t) in (r, {| t with tk_swap_tracker := st |}).

Definition RecoveryState_default : RecoveryState :=
  {| rs_phase := NotStarted; rs_incoming := []; rs_outgoing := []; rs_watchonly := [] |}.

Definition maker_progress (m : MakerConnection) : MakerProgress :=
  {| mp_address := mc_address m; mp_negotiated := bool_decide (mc_tweakable_point m <> None);
     mp_exchange := mc_exchange m; mp_finalization := mc_finalization m |}.

Definition persist_build_record (now : Z) (swap : OngoingSwapState) : SwapRecord :=
  {| sr_swap_id := os_id swap;
     sr_preimage := os_preimage swap;
     sr_protocol := swp_protocol (os_params swap);
     sr_send_amount_sat := swp_send_amount (os_params swap);
     sr_maker_count := swp_maker_count (os_params swap);
     sr_phase := os_phase swap;
     sr_failed_at_phase := None;
     sr_failure_reason := None;
     sr_makers := map maker_progress (os_makers swap);
     sr_outgoing_contract_txids := map (fun c => compute_txid (osc_contract_tx c)) (os_outgoing_swapcoins swap);
     sr_incoming_contract_txids := map (fun c => compute_txid (isc_contract_tx c)) (os_incoming_swapcoins swap);
     sr_watchonly_contract_txids := map (fun c => compute_txid (wsc_contract_tx c)) (os_watchonly_swapcoins swap);
     sr_recovery := RecoveryState_default;
     sr_multisig_nonces := os_multisig_nonces swap;
     sr_hashlock_nonces := os_hashlock_nonces swap;
     sr_payment_address := pq_address <$> os_payment swap;
     sr_payment_amount_sat := pq_amount <$> os_payment swap;
     sr_created_at := now;
     sr_updated_at := now |}.

(** What an existing record keeps of itself when it is rebuilt. *)
Definition preserve_record (existing : option SwapRecord) (record : SwapRecord) : SwapRecord :=
  match existing with
  | None => record
  | Some r =>
      {| record with sr_created_at := sr_created_at r;
                     sr_recovery := sr_recovery r;
                     sr_failed_at_phase := match sr_failed_at_phase r with Some p => Some p | None => sr_failed_at_phase record end;
                     sr_failure_reason := match sr_failure_reason r with Some m => Some m | None => sr_failure_reason record end |}
  end.

Definition persist_swap (phase : TakerTracker.SwapPhase) : taker () :=
  _ ← set_swap (fun s => {| s with os_phase := phase |});
  swap_id ← read_swap os_id;
  _ ← lock_tracker;
  existing ← gets (fun t => get_record swap_id (tk_swap_tracker t));
  swap ← read_swap (fun s => s);
  now ← gets (fun t => to_now_secs (world t));
  _ ← lock_tracker;
  on_tracker (save_record to_tracker_faults (preserve_record existing (persist_build_record now swap))).

Definition persist_progress : taker () := phase ← read_swap os_phase; persist_swap phase.

(** The reason is the debug text of the error. *)
Definition persist_failure (failed_at : TakerTracker.SwapPhase) (reason : string) : taker () := fun t =>
  match tk_ongoing_swap t with
  | None => (Ok (), t)
  | Some swap =>
      let now := to_now_secs (world t) in
      let record := {| (persist_build_record now swap) with sr_phase := TakerTracker.Failed;
                       sr_failed_at_phase := Some failed_at; sr_failure_reason := Some reason |} in
      if tk_tracker_poisoned t then (Ok (), t)
      else
        let record := match get_record (os_id swap) (tk_swap_tracker t) with
                      | Some existing => {| record with sr_recovery := sr_recovery existing;
                                                        sr_created_at := sr_created_at existing |}
                      | None => record
                      end in
        (Ok (), (on_tracker (save_record to_tracker_faults record) t).2)
  end.

Definition persist_incoming_swapcoins : taker () :=
  incoming ← read_swap os_incoming_swapcoins;
  _ ← write_wallet;
  _ ← st_for_each (fun c => set_store (add_incoming_swapcoin c)) incoming;
  save_wallet.

(** ** Negotiation *)
Definition LegacyExchangeProgress_default : LegacyExchangeProgress :=
  {| lep_connected := false; lep_sender_sigs_requested := false; lep_sender_sigs_received := false;
     lep_prev_funding_broadcast := false; lep_prev_funding_confirmed := false;
     lep_proof_of_funding_sent := false; lep_maker_contracts_received := false;
     lep_next_maker_sigs_obtained := false; lep_prev_maker_sigs_obtained := false;
     lep_combined_sigs_sent := false; lep_maker_funding_confirmed := false; lep_watchonly_created := false |}.
Definition TaprootExchangeProgress_default : TaprootExchangeProgress :=
  {| tep_connected := false; tep_contract_data_sent := false; tep_maker_contract_received := false;
     tep_swapcoins_created := false; tep_maker_funding_confirmed := false |}.

(** A maker as it enters a route. *)
Definition fresh_maker (address : string) (protocol : ProtocolVersion) (offer : option Offer) : MakerConnection :=
  {| mc_address := address; mc_protocol := protocol; mc_tweakable_point := None; mc_offer := offer;
     mc_negotiated_timelock := 0;
     mc_exchange := match protocol with
                    | Legacy => EP_Legacy LegacyExchangeProgress_default
                    | Taproot => EP_Taproot TaprootExchangeProgress_default
                    end;
     mc_finalization := {| fin_privkey_received := false; fin_privkey_forwarded := false |} |}.

Definition repriced (quoted offer : Offer) : bool :=
  negb (of_base_fee quoted =? of_base_fee offer)
  || bool_decide (of_amount_relative_fee_pct quoted <> of_amount_relative_fee_pct offer)
  || bool_decide (of_time_relative_fee_pct quoted <> of_time_relative_fee_pct offer).

(** The offer of a maker, validated, and for a payment still the quoted one. *)
Definition take_offer (maker_idx : nat) (send_amount : Amount) (offer : Offer) : taker () :=
  _ ← lift (validate_offer offer send_amount);
  m ← maker_at maker_idx;
  payment ← read_swap os_payment;
  _ ← match mc_offer m, payment with
      | Some quoted, Some _ =>
          lift (reject (repriced quoted offer)
            (TE_General "Maker {} repriced its offer between the payment quote and negotiation"))
      | _, _ => mret ()
      end;
  update_maker maker_idx (fun m => {| m with mc_offer := Some offer |}).

Definition negotiate_with_maker (maker_idx : nat) (swap_id : string) (send_amount : Amount)
    (tx_count maker_count reference_height : Z) : taker () :=
  m ← maker_at maker_idx;
  stream ← net_connect (mc_address m);
  negotiated_protocol ← net_handshake stream;
  _ ← send_message stream TM_GetOffer;
  offer_msg ← read_message stream;
  _ ← match offer_msg with
      | MT_Offer offer => take_offer maker_idx send_amount offer
      | _ => lift (Err (TE_General "Expected Offer from maker {}, got {:?}"))
      end;
  let offset := refund_locktime_offset maker_count (Z.of_nat maker_idx) in
  let timelock := match negotiated_protocol with
                  | Taproot => wrap 32 (reference_height + offset)
                  | Legacy => offset
                  end in
  _ ← send_message stream (TM_SwapDetails
        {| sd_id := swap_id; sd_protocol_version := negotiated_protocol; sd_amount := send_amount;
           sd_tx_count := tx_count; sd_timelock := timelock; sd_refund_locktime_offset := offset |});
  msg ← read_message stream;
  match msg with
  | MT_AckSwapDetails ack =>
      match ack_tweakable_point ack with
      | Some tweakable_point =>
          update_maker maker_idx (fun m => {| m with mc_tweakable_point := Some tweakable_point;
                                                     mc_protocol := negotiated_protocol;
                                                     mc_negotiated_timelock := timelock |})
      | None => lift (Err (TE_General "Maker {} rejected swap"))
      end
  | _ => lift (Err (TE_General "Unexpected message from maker {}: expected AckSwapDetails"))
  end.

(** [get_block_count()? as u32], kept as the reference height of the swap. *)
Definition take_reference_height : taker Z :=
  _ ← read_wallet;
  count ← attempt (on_chain rc_get_block_count);
  match count with
  | inl count =>
      _ ← set_swap (fun s => {| s with os_reference_height := Some (wrap 32 count) |});
      mret (wrap 32 count)
  | inr _ => lift (Err (TE_General "Failed to get block count: {:?}"))
  end.

(** [spare_makers.pop()]. *)
Definition pop_spare : taker (option string) :=
  spares ← read_swap os_spare_makers;
  _ ← set_swap (fun s => {| s with os_spare_makers := removelast (os_spare_makers s) |});
  mret (last spares).

(** The loop of [negotiate_swap_details]; every turn moves on to the next maker
    or uses up a spare. *)
Fixpoint negotiate_loop (fuel : nat) (swap_id : string) (send_amount : Amount) (tx_count maker_count : Z)
    (protocol : ProtocolVersion) (reference_height : Z) (i : nat) : taker () :=
  if Z.of_nat i <? maker_count then
    match fuel with
    | O => lift Panic
    | S fuel =>
        r ← attempt (negotiate_with_maker i swap_id send_amount tx_count maker_count reference_height);
        match r with
        | inl _ => negotiate_loop fuel swap_id send_amount tx_count maker_count protocol reference_height (S i)
        | inr e =>
            payment ← read_swap os_payment;
            _ ← lift (reject (bool_decide (is_Some payment))
                  (TE_General "Maker {} failed during payment swap negotiation: {:?}"));
            spare ← pop_spare;
            match spare with
            | Some spare_addr =>
                _ ← update_maker i (fun _ => fresh_maker spare_addr protocol None);
                negotiate_loop fuel swap_id send_amount tx_count maker_count protocol reference_height i
            | None => lift (Err (TE_General "Maker {} failed and no spare makers available: {:?}"))
            end
        end
    end
  else mret ().

Definition negotiate_swap_details : taker () :=
  swap ← read_swap (fun s => s);
  reference_height ← take_reference_height;
  let p := os_params swap in
  negotiate_loop (Z.to_nat (swp_maker_count p) + length (os_spare_makers swap)) (os_id swap) (swp_send_amount p)
    (swp_tx_count p) (swp_maker_count p) (swp_protocol p) reference_height 0.

Definition substitute_and_negotiate_spare (target_idx : nat) (spare_addr : string) : taker () :=
  protocol ← read_swap (fun s => swp_protocol (os_params s));
  _ ← update_maker target_idx (fun _ => fresh_maker spare_addr protocol None);
  swap_id ← read_swap os_id;
  p ← read_swap os_params;
  reference_height ← take_reference_height;
  negotiate_with_maker target_idx swap_id (swp_send_amount p) (swp_tx_count p) (swp_maker_count p) reference_height.

(** ** Finalization *)
Definition msg_build_handover (protocol : ProtocolVersion) (swap_id : string) (privkeys : list SecretKey)
    : TakerToMakerMessage :=
  let handover := {| pkh_id := swap_id;
                     pkh_privkeys := map (fun key => {| sp_identifier := []; sp_key := key |}) privkeys |} in
  match protocol with
  | Legacy => TM_LegacyPrivateKeyHandover handover
  | Taproot => TM_TaprootPrivateKeyHandover handover
  end.

(** Sets the received keys on the coins, in order, up to the first wrong one. *)
Fixpoint accept_privkeys (incoming : list IncomingSwapCoin) (keys : list SecretKey)
    : outcome TakerError () * list IncomingSwapCoin :=
  match incoming, keys with
  | c :: coins, key :: keys =>
      if match isc_other_pubkey c with Some expected => bool_decide (pubkey_of key <> expected) | None => false end
      then (Err (TE_General "Last maker {} sent incorrect private key: derived pubkey {} does not match expected {}"),
            incoming)
      else let '(r, coins) := accept_privkeys coins keys in (r, isc_set_other_privkey c key :: coins)
  | _, _ => (Ok (), incoming)
  end.

Definition take_last_privkeys (received_privkeys : list SecretKey) : taker () :=
  incoming ← read_swap os_incoming_swapcoins;
  let '(r, coins) := accept_privkeys incoming received_privkeys in
  _ ← set_swap (fun s => {| s with os_incoming_swapcoins := coins |});
  lift r.

Definition received_keys (msg : MakerToTakerMessage) : outcome TakerError (list SecretKey) :=
  match msg with
  | MT_LegacyPrivateKeyHandover handover | MT_TaprootPrivateKeyHandover handover =>
      _ ← reject (bool_decide (pkh_privkeys handover = [])) (TE_General "Empty privkey response from maker {}");
      Ok (map sp_key (pkh_privkeys handover))
  | _ => Err (TE_General "Unexpected response from maker {}: expected PrivateKeyHandover")
  end.

(** One turn of [for i in 0..num_makers]: the keys for maker [i] against its own. *)
Definition exchange_with_maker (protocol : ProtocolVersion) (swap_id : string) (num_makers : nat)
    (current_privkeys : list SecretKey) (i : nat) : taker (list SecretKey) :=
  m ← maker_at i;
  stream ← net_connect (mc_address m);
  _ ← net_handshake stream;
  _ ← send_message stream (msg_build_handover protocol swap_id current_privkeys);
  msg ← read_message stream;
  received_privkeys ← lift (received_keys msg);
  _ ← update_maker i (fun m => {| m with mc_finalization :=
                                   {| fin_privkey_received := true; fin_privkey_forwarded := true |} |});
  _ ← (if (S i =? num_makers)%nat then take_last_privkeys received_privkeys else mret ());
  mret received_privkeys.

Definition finalize_exchange_privkeys : taker () :=
  swap ← read_swap (fun s => s);
  let current_privkeys := omap osc_my_privkey (os_outgoing_swapcoins swap) in
  let num_makers := length (os_makers swap) in
  _ ← lift (reject (bool_decide (current_privkeys = [])) (TE_General "No outgoing privkey"));
  _ ← st_fold (exchange_with_maker (swp_protocol (os_params swap)) (os_id swap) num_makers)
        current_privkeys (seq 0 num_makers);
  mret ().

Definition finalize_swap : taker () :=
  _ ← finalize_exchange_privkeys;
  _ ← persist_swap TakerTracker.PrivkeysForwarded;
  persist_incoming_swapcoins.

(** [for attempt in 1..=MAX_FINALIZE_RETRIES]; [remaining] counts the attempts to come. *)
Fixpoint finalize_attempts (remaining : nat) (last_error : option TakerError) : taker () :=
  match remaining with
  | O => lift (Err (default (TE_General "finalization failed with no recorded error") last_error))
  | S remaining =>
      r ← attempt finalize_swap;
      match r with
      | inl _ => mret ()
      | inr e =>
          breach ← gets (fun t => requires_abort t (world t));
          if (breach : bool) then lift (Err (TE_General "Contract broadcast detected during finalization"))
          else
            _ ← (if (0 <? remaining)%nat then set_world (cc_sleep FINALIZE_RETRY_DELAY) else mret ());
            finalize_attempts remaining (Some e)
      end
  end.

Definition finalize_with_retry : taker () := finalize_attempts MAX_FINALIZE_RETRIES None.
End taker.
