(* ===== verification/TakerFunding.v ===== *)
(** The taker's own funding: [funding_create_legacy] of src/taker/legacy_swap.rs,
    [funding_create_taproot] of src/taker/taproot_swap.rs, [funding_initialize] and
    [funding_reinitialize] of src/taker/api.rs. *)
From S2P Require Import Prelude Float64 Bitcoin Messages Contract Errors SwapCoin TaprootLib Taproot TakerTracker TakerState Payment LegacyVerification WalletStore MakerApi ChainWait WalletRecovery TakerApi.
#[local] Open Scope string_scope.
#[local] Open Scope list_scope.
#[local] Open Scope Z_scope.

Section funding.
Context {lib : BitcoinLib} {tap : TaprootLib} {hi : HashIter} {D : Type} {tv : TakerOutside D}.
Abbreviation taker := (stateful (Taker D) TakerError).

(** ** Legacy *)

(** The keys and scripts of one legacy coin; the address comes first. *)
Definition legacy_contract_data (hashvalue : Hash160) (locktime : Z) (p : PublicKey * PublicKey)
    : taker (Script * (SecretKey * PublicKey * SecretKey * Script)) :=
  let '(multisig_pubkey, hashlock_pubkey) := p in
  my_multisig_privkey ← random_key;
  let multisig_redeemscript := create_multisig_redeemscript (pubkey_of my_multisig_privkey) multisig_pubkey in
  '(timelock_pubkey, timelock_privkey) ← generate_keypair;
  let contract_redeemscript := create_contract_redeemscript hashlock_pubkey timelock_pubkey hashvalue locktime in
  mret (0 :: 32 :: wscript_hash multisig_redeemscript,
        (my_multisig_privkey, multisig_pubkey, timelock_privkey, contract_redeemscript)).

Definition legacy_outgoing (swap_id : string)
    (p : Transaction * Z * (SecretKey * PublicKey * SecretKey * Script)) : outcome TakerError OutgoingSwapCoin :=
  let '(funding_tx, output_pos, (my_multisig_privkey, multisig_pubkey, timelock_privkey, contract_redeemscript)) := p in
  funding_output ← expect (output funding_tx !! Z.to_nat output_pos);
  let funding_amount := value funding_output in
  contract_tx ← taker_protocol (create_senders_contract_tx
    {| op_txid := compute_txid funding_tx; op_vout := output_pos |} funding_amount contract_redeemscript);
  let outgoing := osc_new_legacy my_multisig_privkey multisig_pubkey contract_tx contract_redeemscript
                    timelock_privkey funding_amount in
  Ok {| outgoing with osc_swap_id := Some swap_id; osc_funding_tx := Some funding_tx |}.

Definition funding_create_legacy (multisig_pubkeys hashlock_pubkeys : list PublicKey) (hashvalue : Hash160)
    (locktime : Z) (send_amount : Amount) (swap_id : string)
    (manually_selected_outpoints : option (list OutPoint)) : taker (list OutgoingSwapCoin) :=
  contract_data ← st_map (legacy_contract_data hashvalue locktime) (zip multisig_pubkeys hashlock_pubkeys);
  funding_result ← on_wallet (to_create_funding_txes send_amount (map fst contract_data) (f64_of_Z MIN_FEE_RATE)
                                manually_selected_outpoints None);
  lift (try_map (legacy_outgoing swap_id)
    (zip (zip (cfr_funding_txes funding_result) (cfr_payment_output_positions funding_result))
       (map snd contract_data))).

(** ** Taproot *)
Definition taproot_contract_data (preimage : Preimage) (absolute_locktime : Z) (p : PublicKey * PublicKey)
    : taker (Script * (SecretKey * PublicKey * PublicKey * Script * Script * XOnlyPublicKey * Scalar)) :=
  let '(multisig_pubkey, hashlock_pubkey) := p in
  my_privkey ← random_key;
  let my_pubkey := pubkey_of my_privkey in
  let my_xonly := x_only_public_key (inner my_pubkey) in
  let hashlock_script := create_hashlock_script (sha256 preimage) (x_only_public_key (inner hashlock_pubkey)) in
  locktime_abs ← lift (ok_or (lock_time_from_height absolute_locktime) (TE_General "Invalid locktime: {:?}"));
  let timelock_script := create_timelock_script locktime_abs my_xonly in
  builder ← lift (ok_or (add_leaf 1 hashlock_script []) (TE_General "Failed to add hashlock leaf: {:?}"));
  builder ← lift (ok_or (add_leaf 1 timelock_script builder) (TE_General "Failed to add timelock leaf: {:?}"));
  let '(key0, key1) := sort2 inner my_pubkey multisig_pubkey in
  internal_key ← lift (map_err (fun _ => TE_General "Failed to create aggregated pubkey: {:?}")
                         (get_aggregated_pubkey_compat (inner key0) (inner key1)));
  tap_info ← lift (ok_or (finalize internal_key builder) (TE_General "Failed to finalize taproot: {:?}"));
  mret (new_p2tr_tweaked (tsi_output_key tap_info),
        (my_privkey, my_pubkey, multisig_pubkey, hashlock_script, timelock_script, internal_key,
         tsi_tap_tweak tap_info)).

Definition taproot_outgoing (swap_id : string)
    (p : Transaction * Z * (SecretKey * PublicKey * PublicKey * Script * Script * XOnlyPublicKey * Scalar))
    : outcome TakerError OutgoingSwapCoin :=
  let '(contract_tx, output_pos,
        (my_privkey, my_pubkey, multisig_pubkey, hashlock_script, timelock_script, internal_key, tap_tweak)) := p in
  contract_output ← expect (output contract_tx !! Z.to_nat output_pos);
  let outgoing := osc_new_taproot my_privkey hashlock_script timelock_script contract_tx (value contract_output) in
  Ok (osc_set_taproot_params {| outgoing with osc_swap_id := Some swap_id |}
        my_privkey my_pubkey multisig_pubkey internal_key tap_tweak).

Definition funding_create_taproot (multisig_pubkeys hashlock_pubkeys : list PublicKey) (preimage : Preimage)
    (locktime : Z) (send_amount : Amount) (swap_id : string)
    (manually_selected_outpoints : option (list OutPoint)) (reference_height : option Z)
    : taker (list OutgoingSwapCoin) :=
  base_height ← match reference_height with
                | Some h => mret h
                | None =>
                    count ← attempt (on_chain rc_get_block_count);
                    match count with
                    | inl count => mret (wrap 32 count)
                    | inr _ => lift (Err (TE_General "RPC error: {:?}"))
                    end
                end;
  let absolute_locktime := wrap 32 (base_height + locktime) in
  contract_data ← st_map (taproot_contract_data preimage absolute_locktime) (zip multisig_pubkeys hashlock_pubkeys);
  funding_result ← on_wallet (to_create_funding_txes send_amount (map fst contract_data) (f64_of_Z MIN_FEE_RATE)
                                manually_selected_outpoints None);
  lift (try_map (taproot_outgoing swap_id)
    (zip (zip (cfr_funding_txes funding_result) (cfr_payment_output_positions funding_result))
       (map snd contract_data))).

(** ** The swap's funding *)

(** The refund locktime of the taker's own contracts: one step above the first
    maker's. *)
Definition taker_refund_locktime (maker_count : Z) : Z :=
  wrap 16 (REFUND_LOCKTIME_BASE + wrap 16 (REFUND_LOCKTIME_STEP * wrap 16 maker_count)).

(** The nonces of all hops; [nonces[0]] panics on an empty route. *)
Definition taproot_hop_nonces (tweakable_point : PublicKey) (maker_count : Z)
    : taker (list SecretKey * PublicKey) :=
  nonces ← repeat_op random_key (Z.to_nat maker_count);
  nonce0 ← lift (expect (nonces !! 0%nat));
  pubkey ← lift (taker_protocol (calculate_pubkey_from_nonce tweakable_point nonce0));
  mret (nonces, pubkey).

Definition store_outgoing (swapcoins : list OutgoingSwapCoin) : taker () :=
  st_for_each (fun c => set_store (add_outgoing_swapcoin c)) swapcoins.

Definition funding_initialize : taker () :=
  swap ← read_swap (fun s => s);
  first_maker ← lift (ok_or (os_makers swap !! 0%nat) (TE_General "No makers in swap route"));
  tweakable_point ← lift (ok_or (mc_tweakable_point first_maker) (TE_General "First maker missing tweakable point"));
  let protocol := mc_protocol first_maker in
  let p := os_params swap in
  let locktime := taker_refund_locktime (swp_maker_count p) in
  '(multisig_pubkeys, multisig_nonces, hashlock_pubkeys, hashlock_nonces) ←
    generate_maker_keys tweakable_point (match protocol with Legacy => swp_tx_count p | Taproot => 1 end);
  swapcoins ←
    match protocol with
    | Legacy =>
        _ ← set_swap (fun s => {| s with os_multisig_nonces := multisig_nonces; os_hashlock_nonces := hashlock_nonces |});
        _ ← write_wallet;
        funding_create_legacy multisig_pubkeys hashlock_pubkeys (hash160 (os_preimage swap)) locktime
          (swp_send_amount p) (os_id swap) (swp_manually_selected_outpoints p)
    | Taproot =>
        '(nonces, hashlock_pubkey) ← taproot_hop_nonces tweakable_point (swp_maker_count p);
        _ ← set_swap (fun s => {| s with os_hashlock_nonces := nonces |});
        _ ← write_wallet;
        funding_create_taproot (repeat tweakable_point (Z.to_nat (swp_tx_count p)))
          (repeat hashlock_pubkey (Z.to_nat (swp_tx_count p))) (os_preimage swap) locktime
          (swp_send_amount p) (os_id swap) (swp_manually_selected_outpoints p) (os_reference_height swap)
    end;
  _ ← store_outgoing swapcoins;
  _ ← save_wallet;
  set_swap (fun s => {| s with os_outgoing_swapcoins := swapcoins |}).

Definition funding_reinitialize : taker () :=
  swap_id ← read_swap os_id;
  _ ← write_wallet;
  store ← gets (fun t => wl_store (tk_wallet t));
  _ ← st_for_each (fun key => set_store (remove_outgoing_swapcoin key)) (outgoing_keys_for_swap swap_id store);
  _ ← save_wallet;
  _ ← set_swap (fun s => {| s with os_outgoing_swapcoins := [] |});
  funding_initialize.
End funding.
