(* ===== verification/TakerLegacy.v ===== *)
(** The taker's legacy driver: src/taker/legacy_swap.rs.

    [exchange_legacy] walks the route maker by maker.  For each it proves the
    funding of the previous hop, verifies the contracts the maker answers with,
    collects the signatures of the neighbours and waits for the maker's funding.
    Its own funding goes out at the first hop.  The local variables the loop
    mutates are [ExchangeVars]; a turn either moves to the next maker or, after
    replacing the next maker by a spare, repeats the current one. *)
From S2P Require Import Prelude Float64 Bitcoin Messages Contract Errors SwapCoin TaprootLib Taproot TakerTracker TakerState Payment LegacyVerification WalletStore MakerApi ChainWait WalletRecovery TakerApi TakerFunding.
#[local] Open Scope string_scope.
#[local] Open Scope list_scope.
#[local] Open Scope Z_scope.

Definition MAKER_BROADCAST_DELAY : Z := 2 * SECOND.

(** [for (x, y) in xs.iter_mut().zip(ys) { .. }]. *)
Fixpoint zip_update {A B} (f : A -> B -> A) (xs : list A) (ys : list B) : list A :=
  match xs, ys with
  | x :: xs, y :: ys => f x y :: zip_update f xs ys
  | _, _ => xs
  end.

(** The first [n] elements of [ys.iter().cycle()]. *)
Definition cycle_to {A} (n : nat) (ys : list A) : list A := omap (cyclic ys) (seq 0 n).

(** [map_err(|_| e)] on an operation. *)
Definition relabel {S E A} (e : E) (m : stateful S E A) : stateful S E A := fun s =>
  let '(r, s) := m s in (map_err (fun _ => e) r, s).

(** What a hop proves to its maker. *)
Record HopFunding := {
  hf_funding_txs : list Transaction;
  hf_contract_redeemscripts : list Script;
  hf_multisig_redeemscripts : list Script;
  hf_multisig_nonces : list SecretKey;
  hf_hashlock_nonces : list SecretKey;
}.

(** The keys of the hop after a maker. *)
Record NextKeys := {
  nk_multisig_pubkeys : list PublicKey;
  nk_multisig_nonces : list SecretKey;
  nk_hashlock_pubkeys : list PublicKey;
  nk_hashlock_nonces : list SecretKey;
}.

Record ExchangeVars := {
  xv_prev_senders_info : option (list SenderContractTxInfo);
  xv_taker_multisig_privkeys : option (list SecretKey);
  xv_taker_hashlock_privkeys : option (list SecretKey);
  xv_prev_confirm_height : Z;
  xv_taker_funding_broadcast : bool;
}.
Definition ExchangeVars_init : ExchangeVars :=
  {| xv_prev_senders_info := None; xv_taker_multisig_privkeys := None; xv_taker_hashlock_privkeys := None;
     xv_prev_confirm_height := 0; xv_taker_funding_broadcast := false |}.

Section legacy.
Context {lib : BitcoinLib} {tap : TaprootLib} {hi : HashIter} {D : Type} {tv : TakerOutside D}.
Abbreviation taker := (stateful (Taker D) TakerError).

(** ** Messages *)
Definition coin_multisig (c : OutgoingSwapCoin) : outcome TakerError Script :=
  my_pub ← ok_or (osc_my_pubkey c) (TE_General "Outgoing swapcoin missing my_pubkey");
  other_pub ← ok_or (osc_other_pubkey c) (TE_General "Outgoing swapcoin missing other_pubkey");
  Ok (create_multisig_redeemscript my_pub other_pub).

Definition sender_request (p : OutgoingSwapCoin * SecretKey * SecretKey) : outcome TakerError ContractTxInfoForSender :=
  let '(swapcoin, multisig_nonce, hashlock_nonce) := p in
  multisig_redeemscript ← coin_multisig swapcoin;
  Ok {| cts_multisig_nonce := multisig_nonce; cts_hashlock_nonce := hashlock_nonce;
        cts_timelock_pubkey := pubkey_of (osc_timelock_privkey swapcoin);
        cts_senders_contract_tx := osc_contract_tx swapcoin;
        cts_multisig_redeemscript := multisig_redeemscript;
        cts_funding_input_value := osc_funding_amount swapcoin |}.

Definition exchange_req_sender_sigs (maker_address swap_id : string) (outgoing_swapcoins : list OutgoingSwapCoin)
    (locktime : Z) : taker (list Signature) :=
  stream ← net_connect maker_address;
  swap ← read_swap (fun s => s);
  txs_info ← lift (try_map sender_request
    (zip (zip outgoing_swapcoins (os_multisig_nonces swap)) (os_hashlock_nonces swap)));
  _ ← send_message stream (TM_ReqContractSigsForSender
        {| rss_id := swap_id; rss_txs_info := txs_info; rss_hashvalue := hash160 (os_preimage swap);
           rss_locktime := locktime |});
  msg ← read_message stream;
  match msg with
  | MT_RespContractSigsForSender resp =>
      _ ← lift (reject (negb (length (psr_sigs resp) =? length outgoing_swapcoins)%nat)
            (TE_General "Wrong number of signatures: expected {}, got {}"));
      s ← gets tk_ongoing_swap;
      _ ← lift (verify_sender_sigs s (psr_sigs resp));
      mret (psr_sigs resp)
  | _ => lift (Err (TE_General "Unexpected message: expected RespContractSigsForSender, got {:?}"))
  end.

Definition funding_tx_info (p : Transaction * Script * Script * SecretKey * SecretKey) : FundingTxInfo :=
  let '(funding_tx, multisig_rs, contract_rs, multisig_nonce, hashlock_nonce) := p in
  {| fti_funding_tx := funding_tx; fti_multisig_redeemscript := multisig_rs; fti_multisig_nonce := multisig_nonce;
     fti_contract_redeemscript := contract_rs; fti_hashlock_nonce := hashlock_nonce |}.
Definition next_hop_info (p : PublicKey * PublicKey * SecretKey * SecretKey) : NextHopInfo :=
  let '(multisig_pubkey, hashlock_pubkey, multisig_nonce, hashlock_nonce) := p in
  {| nhi_next_multisig_pubkey := multisig_pubkey; nhi_next_hashlock_pubkey := hashlock_pubkey;
     nhi_next_multisig_nonce := multisig_nonce; nhi_next_hashlock_nonce := hashlock_nonce |}.

(** [Option] of an amount, with the panics of its computation. *)
Definition expected_amount (maker_idx : nat) : taker (option Amount) := fun t =>
  (match expected_amount_for_hop (tk_ongoing_swap t) maker_idx with
   | Ok a => Ok (Some a)
   | Err _ => Ok None
   | Panic => Panic
   end, t).

Definition exchange_send_proof_of_funding (maker_address swap_id : string) (maker_idx : nat) (hf : HopFunding)
    (nk : NextKeys) (refund_locktime : Z) : taker (list Transaction * list SenderContractTxInfo) :=
  stream ← net_connect maker_address;
  let confirmed_funding_txes := map funding_tx_info
    (zip (zip (zip (zip (hf_funding_txs hf) (hf_multisig_redeemscripts hf)) (hf_contract_redeemscripts hf))
            (hf_multisig_nonces hf)) (hf_hashlock_nonces hf)) in
  let next_openswap_info := map next_hop_info
    (zip (zip (zip (nk_multisig_pubkeys nk) (nk_hashlock_pubkeys nk)) (nk_multisig_nonces nk))
       (nk_hashlock_nonces nk)) in
  _ ← send_message stream (TM_ProofOfFunding
        {| pof_id := swap_id; pof_confirmed_funding_txes := confirmed_funding_txes;
           pof_next_openswap_info := next_openswap_info; pof_refund_locktime := refund_locktime;
           pof_contract_feerate := f64_of_Z MIN_FEE_RATE |});
  msg ← read_message stream;
  match msg with
  | MT_ReqContractSigsAsRecvrAndSender req =>
      expected ← expected_amount maker_idx;
      s ← gets tk_ongoing_swap;
      _ ← lift (verify_maker_sender_contracts s (rrs_senders_contract_txs_info req) (nk_multisig_pubkeys nk)
                  (nk_hashlock_pubkeys nk) refund_locktime expected);
      _ ← lift (verify_maker_receiver_contracts (rrs_receivers_contract_txs req) (hf_funding_txs hf)
                  (hf_contract_redeemscripts hf));
      mret (rrs_receivers_contract_txs req, rrs_senders_contract_txs_info req)
  | _ => lift (Err (TE_General "Unexpected message: expected ReqContractSigsAsRecvrAndSender, got {:?}"))
  end.

Definition exchange_send_combined_sigs (maker_address swap_id : string)
    (receivers_sigs senders_sigs : list Signature) : taker () :=
  stream ← net_connect maker_address;
  send_message stream (TM_RespContractSigsForRecvrAndSender
    {| prs_id := swap_id; prs_receivers_sigs := receivers_sigs; prs_senders_sigs := senders_sigs |}).

Definition forwarded_request (info : SenderContractTxInfo) : ContractTxInfoForSender :=
  {| cts_multisig_nonce := sct_multisig_nonce info; cts_hashlock_nonce := sct_hashlock_nonce info;
     cts_timelock_pubkey := sct_timelock_pubkey info; cts_senders_contract_tx := sct_contract_tx info;
     cts_multisig_redeemscript := sct_multisig_redeemscript info;
     cts_funding_input_value := sct_funding_amount info |}.

Definition exchange_req_sender_sigs_forwarded (maker_address swap_id : string)
    (senders_info : list SenderContractTxInfo) (hashvalue : Hash160) (locktime : Z) : taker (list Signature) :=
  stream ← net_connect maker_address;
  _ ← send_message stream (TM_ReqContractSigsForSender
        {| rss_id := swap_id; rss_txs_info := map forwarded_request senders_info;
           rss_hashvalue := hashvalue; rss_locktime := locktime |});
  msg ← read_message stream;
  match msg with
  | MT_RespContractSigsForSender resp =>
      _ ← lift (verify_sender_sigs_from_info (psr_sigs resp) senders_info);
      mret (psr_sigs resp)
  | _ => lift (Err (TE_General "Unexpected message: expected RespContractSigsForSender, got {:?}"))
  end.

Definition exchange_req_receiver_sigs (maker_address swap_id : string) (receivers_txs : list Transaction)
    (prev_senders_info : list SenderContractTxInfo) : taker (list Signature) :=
  stream ← net_connect maker_address;
  _ ← send_message stream (TM_ReqContractSigsForRecvr
        {| rsr_id := swap_id;
           rsr_txs := map (fun p => {| ctr_multisig_redeemscript := sct_multisig_redeemscript p.2;
                                       ctr_contract_tx := p.1 |}) (zip receivers_txs prev_senders_info) |});
  msg ← read_message stream;
  match msg with
  | MT_RespContractSigsForRecvr resp =>
      _ ← lift (verify_receiver_sigs (prr_sigs resp) receivers_txs prev_senders_info);
      mret (prr_sigs resp)
  | _ => lift (Err (TE_General "Unexpected message: expected RespContractSigsForRecvr, got {:?}"))
  end.

Definition wait_for_legacy_funding_confirmation (funding_txids : list Txid) (required_confirms arrival_timeout : Z)
    : taker Z :=
  if (required_confirms =? 0) || bool_decide (funding_txids = []) then mret 0
  else
    _ ← read_wallet;
    _ ← on_chain to_new_connection;
    abort ← gets requires_abort;
    on_world (fun d =>
      let '(r, d) := wait_for_tx_confirmation false (Some abort) funding_txids required_confirms arrival_timeout d in
      (map_err breach_or_wallet_error (h ← r; expect h), d)).

(** ** The steps of a hop *)
Definition connect_hop (maker_idx : nat) : taker string :=
  m ← maker_at maker_idx;
  stream ← net_connect (mc_address m);
  _ ← net_handshake stream;
  _ ← update_legacy maker_idx (fun e => {| e with lep_connected := true |});
  mret (mc_address m).

Definition first_hop_funding : taker HopFunding :=
  outgoing ← read_swap os_outgoing_swapcoins;
  _ ← lift (reject (bool_decide (outgoing = [])) (TE_General "No outgoing swapcoins for first hop"));
  funding_txs ← lift (try_map (fun c => ok_or (osc_funding_tx c)
                  (TE_General "Outgoing swapcoin missing funding_tx")) outgoing);
  contract_rs ← lift (try_map (fun c => ok_or (osc_contract_redeemscript c)
                  (TE_General "Outgoing swapcoin missing contract_redeemscript")) outgoing);
  multisig_rs ← lift (try_map coin_multisig outgoing);
  multisig_nonces ← read_swap os_multisig_nonces;
  hashlock_nonces ← read_swap os_hashlock_nonces;
  mret {| hf_funding_txs := funding_txs; hf_contract_redeemscripts := contract_rs;
          hf_multisig_redeemscripts := multisig_rs; hf_multisig_nonces := multisig_nonces;
          hf_hashlock_nonces := hashlock_nonces |}.

Definition next_hop_funding (prev_info : list SenderContractTxInfo) : HopFunding :=
  {| hf_funding_txs := map sct_funding_tx prev_info;
     hf_contract_redeemscripts := map sct_contract_redeemscript prev_info;
     hf_multisig_redeemscripts := map sct_multisig_redeemscript prev_info;
     hf_multisig_nonces := map sct_multisig_nonce prev_info;
     hf_hashlock_nonces := map sct_hashlock_nonce prev_info |}.

Definition hop_funding (is_first_peer : bool) (vars : ExchangeVars) : taker HopFunding :=
  if is_first_peer then first_hop_funding
  else
    prev_info ← lift (ok_or (xv_prev_senders_info vars) (TE_General "No previous maker info for multi-hop"));
    mret (next_hop_funding prev_info).

Definition set_osc_sig (c : OutgoingSwapCoin) (sig : Signature) : OutgoingSwapCoin :=
  {| c with osc_others_contract_sig := Some sig |}.
Definition set_isc_sig (c : IncomingSwapCoin) (sig : Signature) : IncomingSwapCoin :=
  {| c with isc_others_contract_sig := Some sig |}.

(** The maker's signatures on the taker's own contracts. *)
Definition sign_first_hop (maker_idx : nat) (maker_address swap_id : string) (outgoing_locktime : Z) : taker () :=
  outgoing ← read_swap os_outgoing_swapcoins;
  sender_sigs ← exchange_req_sender_sigs maker_address swap_id outgoing outgoing_locktime;
  _ ← set_swap (fun s => {| s with os_outgoing_swapcoins := zip_update set_osc_sig (os_outgoing_swapcoins s) sender_sigs |});
  update_legacy maker_idx (fun e => {| e with lep_sender_sigs_requested := true; lep_sender_sigs_received := true |}).

Definition broadcast_coin (c : OutgoingSwapCoin) : taker () :=
  funding_tx ← lift (ok_or (osc_funding_tx c) (TE_General "Outgoing swapcoin missing funding_tx"));
  _ ← relabel (TE_General "Failed to broadcast funding tx: {:?}") (send_tx funding_tx);
  mret ().

(** Saves the signed coins, then broadcasts their funding. *)
Definition send_funding : taker () :=
  alive ← is_alive;
  _ ← lift (reject (negb alive) (TE_General "watchtower exited before funding"));
  _ ← write_wallet;
  outgoing ← read_swap os_outgoing_swapcoins;
  _ ← store_outgoing outgoing;
  _ ← save_wallet;
  _ ← st_for_each broadcast_coin outgoing;
  save_wallet.

Definition outgoing_sentinel (c : OutgoingSwapCoin) : outcome TakerError (OutPoint * Txid * Script) :=
  contract_input ← ok_or (input (osc_contract_tx c) !! 0%nat)
    (TE_General "Outgoing swapcoin contract tx has no inputs");
  let funding_outpoint := previous_output contract_input in
  funding_tx ← ok_or (osc_funding_tx c) (TE_General "Outgoing swapcoin missing funding_tx");
  funding_out ← ok_or (output funding_tx !! Z.to_nat (op_vout funding_outpoint))
    (TE_General "Funding tx has no output at vout {}");
  Ok (funding_outpoint, compute_txid (osc_contract_tx c), script_pubkey funding_out).

(** Returns the height at which the funding confirmed. *)
Definition fund_first_hop (maker_idx : nat) : taker Z :=
  _ ← send_funding;
  _ ← update_legacy maker_idx (fun e => {| e with lep_prev_funding_broadcast := true |});
  _ ← persist_swap TakerTracker.FundsBroadcast;
  outgoing ← read_swap os_outgoing_swapcoins;
  required_confirms ← read_swap (fun s => swp_required_confirms (os_params s));
  height ← wait_for_legacy_funding_confirmation (map compute_txid (omap osc_funding_tx outgoing))
             required_confirms TX_BROADCAST_TIMEOUT;
  _ ← update_legacy maker_idx (fun e => {| e with lep_prev_funding_confirmed := true |});
  _ ← persist_progress;
  sentinels ← lift (try_map outgoing_sentinel outgoing);
  _ ← add_sentinels sentinels;
  mret height.

Definition last_hop_key : taker (PublicKey * SecretKey * PublicKey * SecretKey * SecretKey) :=
  '(multisig_pubkey, multisig_privkey) ← generate_keypair;
  '(hashlock_pubkey, hashlock_privkey) ← generate_keypair;
  nonce ← random_key;
  mret (multisig_pubkey, multisig_privkey, hashlock_pubkey, hashlock_privkey, nonce).

(** The keys of the next maker, or the taker's own on the last hop. *)
Definition next_hop_keys (maker_idx : nat) (is_last_peer : bool) (tx_count : Z) (vars : ExchangeVars)
    : taker (NextKeys * ExchangeVars) :=
  if is_last_peer then
    keys ← repeat_op last_hop_key (Z.to_nat tx_count);
    let nonces := map (fun k => k.2) keys in
    mret ({| nk_multisig_pubkeys := map (fun k => k.1.1.1.1) keys; nk_multisig_nonces := nonces;
             nk_hashlock_pubkeys := map (fun k => k.1.1.2) keys; nk_hashlock_nonces := nonces |},
          {| vars with xv_taker_multisig_privkeys := Some (map (fun k => k.1.1.1.2) keys);
                       xv_taker_hashlock_privkeys := Some (map (fun k => k.1.2) keys) |})
  else
    next_maker ← maker_at (S maker_idx);
    tweakable_point ← lift (ok_or (mc_tweakable_point next_maker) (TE_General "Maker {} missing tweakable_point"));
    '(multisig_pubkeys, multisig_nonces, hashlock_pubkeys, hashlock_nonces) ← generate_maker_keys tweakable_point tx_count;
    mret ({| nk_multisig_pubkeys := multisig_pubkeys; nk_multisig_nonces := multisig_nonces;
             nk_hashlock_pubkeys := hashlock_pubkeys; nk_hashlock_nonces := hashlock_nonces |}, vars).

(** The contracts the maker asks to have signed are those the previous hop made. *)
Definition check_receiver_txids (is_first_peer : bool) (vars : ExchangeVars) (receivers_contract_txs : list Transaction)
    : taker () :=
  expected_txids ←
    (if is_first_peer then
       outgoing ← read_swap os_outgoing_swapcoins;
       mret (map (fun c => compute_txid (osc_contract_tx c)) outgoing)
     else
       prev ← lift (ok_or (xv_prev_senders_info vars)
                (TE_General "Missing prev_senders_info for receiver contract verification"));
       mret (map (fun info => compute_txid (sct_contract_tx info)) prev));
  lift (for_each_i (fun i rx_tx =>
    match expected_txids !! i with
    | Some expected => reject (negb (compute_txid rx_tx =? expected))
                         (TE_General "Receiver contract tx {} txid mismatch: expected {}, got {}")
    | None => Ok ()
    end) receivers_contract_txs).

(** The last hop's contracts are signed with the taker's own keys. *)
Definition own_sender_sigs (vars : ExchangeVars) (infos : list SenderContractTxInfo) : outcome TakerError (list Signature) :=
  privkeys ← ok_or (xv_taker_multisig_privkeys vars) (TE_General "Missing taker multisig privkeys for last hop");
  taker_protocol (try_map (fun p => sign_contract_tx (sct_contract_tx p.1) (sct_multisig_redeemscript p.1)
                                     (sct_funding_amount p.1) p.2)
                    (zip infos (cycle_to (length infos) privkeys))).

Definition forward_sender_sigs (maker_idx : nat) (swap_id : string) (infos : list SenderContractTxInfo)
    : taker (list Signature) :=
  next ← maker_at (S maker_idx);
  preimage ← read_swap os_preimage;
  exchange_req_sender_sigs_forwarded (mc_address next) swap_id infos (hash160 preimage)
    (wrap 16 (mc_negotiated_timelock next)).

(** [None] when the next maker was replaced and the turn starts over. *)
Definition collect_sender_sigs (maker_idx : nat) (is_last_peer : bool) (swap_id : string) (vars : ExchangeVars)
    (infos : list SenderContractTxInfo) : taker (option (list Signature)) :=
  if is_last_peer then sigs ← lift (own_sender_sigs vars infos); mret (Some sigs)
  else
    r ← attempt (forward_sender_sigs maker_idx swap_id infos);
    match r with
    | inl sigs =>
        _ ← update_legacy (S maker_idx)
              (fun e => {| e with lep_sender_sigs_requested := true; lep_sender_sigs_received := true |});
        mret (Some sigs)
    | inr e =>
        spare ← pop_spare;
        match spare with
        | Some spare_addr => _ ← substitute_and_negotiate_spare (S maker_idx) spare_addr; mret None
        | None => lift (Err e)
        end
    end.

Definition sign_receiver_tx (p : Transaction * OutgoingSwapCoin) : outcome ProtocolError Signature :=
  let '(rx_tx, outgoing) := p in
  privkey ← ok_or (osc_my_privkey outgoing) (PE_General "Outgoing swapcoin missing my_privkey for signing");
  my_pubkey ← ok_or (osc_my_pubkey outgoing) (PE_General "Outgoing swapcoin missing my_pubkey for signing");
  other_pubkey ← ok_or (osc_other_pubkey outgoing) (PE_General "Outgoing swapcoin missing other_pubkey for signing");
  sign_contract_tx rx_tx (create_multisig_redeemscript my_pubkey other_pubkey) (osc_funding_amount outgoing) privkey.

Definition collect_receiver_sigs (maker_idx : nat) (is_first_peer : bool) (swap_id : string) (vars : ExchangeVars)
    (receivers_contract_txs : list Transaction) : taker (list Signature) :=
  if is_first_peer then
    outgoing ← read_swap os_outgoing_swapcoins;
    lift (taker_protocol (try_map sign_receiver_tx (zip receivers_contract_txs outgoing)))
  else
    prev ← maker_at (pred maker_idx);
    prev_info ← lift (taker_protocol (ok_or (xv_prev_senders_info vars) (PE_General "missing previous hop sender info")));
    exchange_req_receiver_sigs (mc_address prev) swap_id receivers_contract_txs prev_info.

Definition watchonly_coin (info : SenderContractTxInfo) : outcome TakerError WatchOnlySwapCoin :=
  '(pubkey1, pubkey2) ← taker_protocol (read_pubkeys_from_multisig_redeemscript (sct_multisig_redeemscript info));
  Ok (wsc_new_legacy pubkey1 pubkey2 (sct_contract_tx info) (sct_contract_redeemscript info) (sct_funding_amount info)).

Definition track_watchonly (maker_idx : nat) (infos : list SenderContractTxInfo) : taker () :=
  watchonly_coins ← lift (try_map watchonly_coin infos);
  swap_id ← read_swap os_id;
  _ ← write_wallet;
  _ ← set_store (add_watchonly_swapcoins swap_id watchonly_coins);
  _ ← save_wallet;
  _ ← set_swap (fun s => {| s with os_watchonly_swapcoins := os_watchonly_swapcoins s ++ watchonly_coins |});
  update_legacy maker_idx (fun e => {| e with lep_watchonly_created := true |}).

(** The maker's funding, confirmed close enough to the previous hop's. *)
Definition await_maker_funding (prev_confirm_height : Z) (infos : list SenderContractTxInfo) : taker Z :=
  _ ← set_world (cc_sleep MAKER_BROADCAST_DELAY);
  required_confirms ← read_swap (fun s => swp_required_confirms (os_params s));
  height ← wait_for_legacy_funding_confirmation (map (fun info => compute_txid (sct_funding_tx info)) infos)
             required_confirms MAKER_FUNDING_TIMEOUT;
  _ ← lift (reject ((0 <? prev_confirm_height) && (0 <? height)
                    && (CONFIRMATION_HEIGHT_TOLERANCE <? saturating_sub height prev_confirm_height))
        (TE_General "Maker {} funding confirmed at height {} ({} blocks after previous hop at {}). Exceeds tolerance of {} blocks"));
  mret height.

Definition maker_sentinel (info : SenderContractTxInfo) : outcome TakerError (OutPoint * Txid * Script) :=
  i ← expect (input (sct_contract_tx info) !! 0%nat);
  Ok (previous_output i, compute_txid (sct_contract_tx info), 0 :: 32 :: wscript_hash (sct_multisig_redeemscript info)).

(** From the signatures of both neighbours to the confirmed funding of the maker. *)
Definition complete_hop (maker_idx maker_count : nat) (maker_address swap_id : string) (vars : ExchangeVars)
    (receivers_contract_txs : list Transaction) (infos : list SenderContractTxInfo) (senders_sigs : list Signature)
    : taker ExchangeVars :=
  let is_first_peer := (maker_idx =? 0)%nat in
  _ ← update_legacy maker_idx (fun e => {| e with lep_next_maker_sigs_obtained := true |});
  receivers_sigs ← collect_receiver_sigs maker_idx is_first_peer swap_id vars receivers_contract_txs;
  _ ← update_legacy maker_idx (fun e => {| e with lep_prev_maker_sigs_obtained := true |});
  _ ← exchange_send_combined_sigs maker_address swap_id receivers_sigs senders_sigs;
  _ ← update_legacy maker_idx (fun e => {| e with lep_combined_sigs_sent := true |});
  _ ← persist_progress;
  _ ← (if is_first_peer then mret () else track_watchonly maker_idx infos);
  maker_confirm_height ← await_maker_funding (xv_prev_confirm_height vars) infos;
  _ ← update_legacy maker_idx (fun e => {| e with lep_maker_funding_confirmed := true |});
  maker_sentinels ← lift (try_map maker_sentinel infos);
  _ ← add_sentinels maker_sentinels;
  _ ← (if (S maker_idx <? maker_count)%nat then
         update_legacy (S maker_idx)
           (fun e => {| e with lep_prev_funding_broadcast := true; lep_prev_funding_confirmed := true |})
       else mret ());
  _ ← persist_progress;
  mret {| vars with xv_prev_senders_info := Some infos; xv_prev_confirm_height := maker_confirm_height |}.

(** The first peer's part: signatures, then the funding unless it is out already. *)
Definition open_first_hop (maker_idx : nat) (maker_address swap_id : string) (outgoing_locktime : Z) (vars : ExchangeVars)
    : taker ExchangeVars :=
  _ ← sign_first_hop maker_idx maker_address swap_id outgoing_locktime;
  if xv_taker_funding_broadcast vars then mret vars
  else
    height ← fund_first_hop maker_idx;
    mret {| vars with xv_taker_funding_broadcast := true; xv_prev_confirm_height := height |}.

(** One turn of the loop; [false] repeats the current maker. *)
Definition exchange_hop (maker_count : nat) (tx_count : Z) (swap_id : string) (maker_idx : nat) (vars : ExchangeVars)
    : taker (bool * ExchangeVars) :=
  let is_first_peer := (maker_idx =? 0)%nat in
  let is_last_peer := (S maker_idx =? maker_count)%nat in
  maker_address ← connect_hop maker_idx;
  m ← maker_at maker_idx;
  let outgoing_locktime := wrap 16 (mc_negotiated_timelock m) in
  hf ← hop_funding is_first_peer vars;
  vars ← (if is_first_peer then open_first_hop maker_idx maker_address swap_id outgoing_locktime vars else mret vars);
  '(nk, vars) ← next_hop_keys maker_idx is_last_peer tx_count vars;
  '(receivers_contract_txs, infos) ←
    exchange_send_proof_of_funding maker_address swap_id maker_idx hf nk outgoing_locktime;
  _ ← update_legacy maker_idx (fun e => {| e with lep_proof_of_funding_sent := true; lep_maker_contracts_received := true |});
  _ ← persist_progress;
  _ ← check_receiver_txids is_first_peer vars receivers_contract_txs;
  senders_sigs ← collect_sender_sigs maker_idx is_last_peer swap_id vars infos;
  match senders_sigs with
  | None => mret (false, vars)
  | Some senders_sigs =>
      vars ← complete_hop maker_idx maker_count maker_address swap_id vars receivers_contract_txs infos senders_sigs;
      mret (true, vars)
  end.

Fixpoint exchange_loop (fuel maker_count : nat) (tx_count : Z) (swap_id : string) (maker_idx : nat) (vars : ExchangeVars)
    : taker ExchangeVars :=
  if (maker_idx <? maker_count)%nat then
    match fuel with
    | O => lift Panic
    | S fuel =>
        '(advance, vars) ← exchange_hop maker_count tx_count swap_id maker_idx vars;
        exchange_loop fuel maker_count tx_count swap_id (if advance : bool then S maker_idx else maker_idx) vars
    end
  else mret vars.

(** ** The incoming coins *)
Definition incoming_coin (swap_id : string) (preimage : Preimage) (info : SenderContractTxInfo)
    (multisig_privkey hashlock_privkey : SecretKey) : outcome TakerError IncomingSwapCoin :=
  '(pubkey1, pubkey2) ← taker_protocol (read_pubkeys_from_multisig_redeemscript (sct_multisig_redeemscript info));
  let my_pubkey := pubkey_of multisig_privkey in
  let other_pubkey := if bool_decide (pubkey1 = my_pubkey) then pubkey2 else pubkey1 in
  let incoming := isc_new_legacy multisig_privkey other_pubkey (sct_contract_tx info) (sct_contract_redeemscript info)
                    hashlock_privkey (sct_funding_amount info) in
  Ok (isc_set_preimage {| incoming with isc_swap_id := Some swap_id |} preimage).

Definition push_incoming (swap_id : string) (p : SenderContractTxInfo * (SecretKey * SecretKey)) : taker () :=
  preimage ← read_swap os_preimage;
  incoming ← lift (incoming_coin swap_id preimage p.1 p.2.1 p.2.2);
  set_swap (fun s => {| s with os_incoming_swapcoins := os_incoming_swapcoins s ++ [incoming] |}).

Definition collect_incoming (maker_count : nat) (swap_id : string) (vars : ExchangeVars)
    (infos : list SenderContractTxInfo) : taker () :=
  multisig_privkeys ← lift (ok_or (xv_taker_multisig_privkeys vars)
    (TE_General "Missing taker multisig privkeys for incoming swapcoins"));
  hashlock_privkeys ← lift (ok_or (xv_taker_hashlock_privkeys vars)
    (TE_General "Missing taker hashlock privkeys for incoming swapcoins"));
  let n := length infos in
  _ ← st_for_each (push_incoming swap_id)
        (zip infos (zip (cycle_to n multisig_privkeys) (cycle_to n hashlock_privkeys)));
  last_maker ← maker_at (pred maker_count);
  receiver_sigs ← exchange_req_receiver_sigs (mc_address last_maker) swap_id (map sct_contract_tx infos) infos;
  _ ← set_swap (fun s => {| s with os_incoming_swapcoins := zip_update set_isc_sig (os_incoming_swapcoins s) receiver_sigs |});
  _ ← on_swap (payment_stamp_targets to_address_script);
  persist_incoming_swapcoins.

(** Every turn moves on or uses up a spare. *)
Definition exchange_legacy : taker () :=
  swap ← read_swap (fun s => s);
  let swap_id := os_id swap in
  let maker_count := length (os_makers swap) in
  _ ← start_route_heartbeat swap_id;
  vars ← exchange_loop (maker_count + length (os_spare_makers swap)) maker_count (swp_tx_count (os_params swap))
           swap_id 0 ExchangeVars_init;
  _ ← match xv_prev_senders_info vars with
      | Some last_senders_info => collect_incoming maker_count swap_id vars last_senders_info
      | None => mret ()
      end;
  persist_swap TakerTracker.ContractsExchanged.
End legacy.
