(* ===== verification/TakerTaproot.v ===== *)
(** The taker's taproot driver: src/taker/taproot_swap.rs (its funding is in
    [TakerFunding]).

    In this protocol the contract transaction is the funding transaction: the
    taker broadcasts its contracts first, then exchanges contract data with one
    maker after the other. *)
From S2P Require Import Prelude Float64 Bitcoin Messages Contract Errors SwapCoin TaprootLib Taproot TakerTracker TakerState Payment LegacyVerification TaprootVerification WalletStore MakerApi ChainWait WalletRecovery TakerApi TakerFunding TakerLegacy.
#[local] Open Scope string_scope.
#[local] Open Scope list_scope.
#[local] Open Scope Z_scope.

(** What a hop shows its maker. *)
Record HopContracts := {
  hc_pubkeys : list PublicKey;
  hc_hashlock_scripts : list Script;
  hc_timelock_scripts : list Script;
  hc_internal_keys : list XOnlyPublicKey;
  hc_tap_tweaks : list bytes;
  hc_contract_txs : list Transaction;
  hc_amounts : list Amount;
}.

Section taproot.
Context {lib : BitcoinLib} {tap : TaprootLib} {hi : HashIter} {D : Type} {tv : TakerOutside D}.
Abbreviation taker := (stateful (Taker D) TakerError).

Definition update_taproot (i : nat) (f : TaprootExchangeProgress -> TaprootExchangeProgress) : taker () :=
  m ← maker_at i;
  exch ← lift (taproot_exchange_mut m);
  update_maker i (fun m => {| m with mc_exchange := EP_Taproot (f exch) |}).

Definition exchange_build_from_response (prev : TaprootContractData) : HopContracts :=
  {| hc_pubkeys := tcd_pubkeys prev; hc_hashlock_scripts := [tcd_hashlock_script prev];
     hc_timelock_scripts := tcd_timelock_scripts prev; hc_internal_keys := tcd_internal_keys prev;
     hc_tap_tweaks := tcd_tap_tweaks prev; hc_contract_txs := tcd_contract_txs prev;
     hc_amounts := tcd_amounts prev |}.

Definition exchange_build_from_outgoing : taker HopContracts :=
  outgoing ← read_swap os_outgoing_swapcoins;
  internal_keys ← lift (try_map (fun c => ok_or (osc_internal_key c)
                    (TE_General "Outgoing swapcoin missing internal_key")) outgoing);
  _ ← lift (reject (bool_decide (internal_keys = [])) (TE_General "No outgoing swapcoins"));
  mret {| hc_pubkeys := omap osc_my_pubkey outgoing;
          hc_hashlock_scripts := omap osc_hashlock_script outgoing;
          hc_timelock_scripts := omap osc_timelock_script outgoing;
          hc_internal_keys := internal_keys;
          hc_tap_tweaks := map (fun c => default (repeat 0 32) (osc_tap_tweak c)) outgoing;
          hc_contract_txs := map osc_contract_tx outgoing;
          hc_amounts := map osc_funding_amount outgoing |}.

Definition wait_for_funding_confirmation (contract_txids : list Txid) (required_confirms arrival_timeout : Z) : taker () :=
  if (required_confirms =? 0) || bool_decide (contract_txids = []) then mret ()
  else
    _ ← read_wallet;
    _ ← on_chain to_new_connection;
    detector ← gets tk_breach_detector;
    on_world (fun d =>
      let abort := fun d => match detector with Some _ => to_breached d | None => false end in
      let '(r, d) := wait_for_tx_confirmation false (Some abort) contract_txids required_confirms arrival_timeout d in
      (map_err breach_or_wallet_error (h ← r; _ ← expect h; Ok ()), d)).

(** Broadcasts one contract and arms the watch on its output. *)
Definition broadcast_contract (c : OutgoingSwapCoin) : taker () :=
  txid ← relabel (TE_General "Failed to broadcast contract tx: {:?}") (send_tx (osc_contract_tx c));
  let vout := match list_find (fun o => value o = osc_funding_amount c) (output (osc_contract_tx c)) with
              | Some (n, _) => wrap 32 (Z.of_nat n)
              | None => 0
              end in
  o ← lift (expect (output (osc_contract_tx c) !! Z.to_nat vout));
  on_world (fun d =>
    let '(r, d) := to_register_watch {| op_txid := txid; op_vout := vout |} (script_pubkey o) d in
    (map_err (fun _ => TE_General "watch registration for {outpoint} failed (watcher gone): {e}") r, d)).

(** Returns the stream to the first maker. *)
Definition funding_broadcast : taker TcpStream :=
  _ ← write_wallet;
  outgoing ← read_swap os_outgoing_swapcoins;
  _ ← st_for_each broadcast_contract outgoing;
  _ ← save_wallet;
  required_confirms ← read_swap (fun s => swp_required_confirms (os_params s));
  maker0 ← maker_at 0;
  stream ← net_connect (mc_address maker0);
  _ ← net_handshake stream;
  _ ← wait_for_funding_confirmation (map (fun c => compute_txid (osc_contract_tx c)) outgoing)
        required_confirms TX_BROADCAST_TIMEOUT;
  mret stream.

Definition taproot_incoming_coin (contract : TaprootContractData) (preimage : Preimage) (my_privkey : SecretKey)
    (j : nat) (contract_tx : Transaction) : outcome TakerError IncomingSwapCoin :=
  o ← ok_or (output contract_tx !! 0%nat) (TE_General "No output in Taproot contract tx");
  timelock_script ← expect (tcd_timelock_scripts contract !! j);
  let c := isc_new_taproot my_privkey (tcd_hashlock_script contract) timelock_script contract_tx (value o) in
  other_pubkey ← ok_or (tcd_pubkeys contract !! j) (TE_General "No pubkey in Taproot contract data");
  internal_key ← expect (tcd_internal_keys contract !! j);
  tap_tweak ← taker_protocol (tap_tweak_scalar contract j);
  Ok (isc_set_preimage
        {| c with isc_my_privkey := Some my_privkey; isc_my_pubkey := Some (pubkey_of my_privkey);
                  isc_other_pubkey := Some other_pubkey; isc_internal_key := Some internal_key;
                  isc_tap_tweak := Some tap_tweak; isc_swap_id := Some (tcd_id contract) |} preimage).

Definition exchange_create_incoming (contract : TaprootContractData) (my_privkey : SecretKey) : taker () :=
  preimage ← read_swap os_preimage;
  _ ← st_for_each (fun p =>
        c ← lift (taproot_incoming_coin contract preimage my_privkey p.1 p.2);
        set_swap (fun s => {| s with os_incoming_swapcoins := os_incoming_swapcoins s ++ [c] |}))
      (zip (seq 0 (length (tcd_contract_txs contract))) (tcd_contract_txs contract));
  on_swap (payment_stamp_targets to_address_script).

(** The hashlock key of a maker's contracts: the next maker's, or the taker's own. *)
Definition check_next_hashlock (num_makers i : nat) (hashlock_nonces : list SecretKey) (my_pubkey : PublicKey)
    (hashlock_script : Script) : taker () :=
  if (S i <? num_makers)%nat then
    next ← maker_at (S i);
    match hashlock_nonces !! S i, mc_tweakable_point next with
    | Some nonce, Some next_tp =>
        lift (map_err (fun _ => TE_General "Maker {} Taproot hashlock pubkey verification failed: {:?}")
                (check_taproot_hashlock_has_pubkey hashlock_script next_tp nonce))
    | _, _ => mret ()
    end
  else
    match instructions hashlock_script !! 3%nat with
    | Some (Some (PushBytes pk_bytes)) =>
        script_xonly ← lift (ok_or (xonly_from_slice pk_bytes)
                               (TE_General "Last maker {} Taproot hashlock has invalid pubkey"));
        lift (reject (bool_decide (script_xonly <> x_only_public_key (inner my_pubkey)))
                (TE_General "Last maker {} Taproot hashlock pubkey doesn't match taker's key"))
    | _ => mret ()
    end.

Definition taproot_watchonly (contract : TaprootContractData) (my_pubkey : PublicKey) (j : nat) (contract_tx : Transaction)
    : outcome TakerError WatchOnlySwapCoin :=
  timelock_script ← expect (tcd_timelock_scripts contract !! j);
  Ok (wsc_new_taproot (default my_pubkey (tcd_pubkeys contract !! j)) (tcd_next_hop_point contract) contract_tx
        (tcd_hashlock_script contract) timelock_script (default 0 (tcd_amounts contract !! j))).

Definition track_taproot_watchonly (contract : TaprootContractData) (my_pubkey : PublicKey) : taker () :=
  watchonly ← lift (try_map (fun p => taproot_watchonly contract my_pubkey p.1 p.2)
                (zip (seq 0 (length (tcd_contract_txs contract))) (tcd_contract_txs contract)));
  swap_id ← read_swap os_id;
  _ ← write_wallet;
  _ ← set_store (add_watchonly_swapcoins swap_id watchonly);
  _ ← save_wallet;
  set_swap (fun s => {| s with os_watchonly_swapcoins := os_watchonly_swapcoins s ++ watchonly |}).

(** What follows the answer of maker [i]. *)
Definition accept_maker_contract (num_makers i : nat) (hashlock_nonces : list SecretKey) (my_privkey : SecretKey)
    (next_hop_point : PublicKey) (maker_contract : TaprootContractData) : taker () :=
  let my_pubkey := pubkey_of my_privkey in
  m ← maker_at i;
  expected ← expected_amount i;
  s ← gets tk_ongoing_swap;
  _ ← lift (verify_maker_taproot_contract s maker_contract next_hop_point (mc_negotiated_timelock m) expected);
  _ ← check_next_hashlock num_makers i hashlock_nonces my_pubkey (tcd_hashlock_script maker_contract);
  _ ← update_taproot i (fun e => {| e with tep_maker_contract_received := true |});
  _ ← (if (S i =? num_makers)%nat then
         _ ← exchange_create_incoming maker_contract my_privkey;
         persist_incoming_swapcoins
       else track_taproot_watchonly maker_contract my_pubkey);
  required_confirms ← read_swap (fun s => swp_required_confirms (os_params s));
  _ ← wait_for_funding_confirmation (map compute_txid (tcd_contract_txs maker_contract)) required_confirms
        MAKER_FUNDING_TIMEOUT;
  _ ← update_taproot i (fun e => {| e with tep_swapcoins_created := true |});
  _ ← update_taproot i (fun e => {| e with tep_maker_funding_confirmed := true |});
  persist_progress.

(** One turn of [for i in 0..num_makers]; [prev] is the previous maker's answer. *)
Definition exchange_taproot_hop (num_makers : nat) (hashlock_nonces : list SecretKey) (maker0_stream : TcpStream)
    (prev : option TaprootContractData) (i : nat) : taker (option TaprootContractData) :=
  m ← maker_at i;
  stream ← (if (i =? 0)%nat then mret maker0_stream
            else stream ← net_connect (mc_address m); _ ← net_handshake stream; mret stream);
  _ ← update_taproot i (fun e => {| e with tep_connected := true |});
  hc ← (if (i =? 0)%nat then exchange_build_from_outgoing
        else prev ← lift (expect prev); mret (exchange_build_from_response prev));
  my_privkey ← random_key;
  let my_pubkey := pubkey_of my_privkey in
  makers ← read_swap os_makers;
  let next_hop_point := match makers !! S i with
                        | Some next => default my_pubkey (mc_tweakable_point next)
                        | None => my_pubkey
                        end in
  swap_id ← read_swap os_id;
  _ ← send_message stream (TM_TaprootContractData
        {| tcd_id := swap_id; tcd_pubkeys := hc_pubkeys hc; tcd_next_hop_point := next_hop_point;
           tcd_internal_keys := hc_internal_keys hc; tcd_tap_tweaks := hc_tap_tweaks hc;
           tcd_hashlock_script := default [] (hc_hashlock_scripts hc !! 0%nat);
           tcd_timelock_scripts := hc_timelock_scripts hc; tcd_contract_txs := hc_contract_txs hc;
           tcd_amounts := hc_amounts hc; tcd_hashlock_nonce := hashlock_nonces !! i;
           tcd_next_hashlock_nonce := if (S i <? num_makers)%nat then hashlock_nonces !! S i else None |});
  _ ← update_taproot i (fun e => {| e with tep_contract_data_sent := true |});
  msg ← read_message stream;
  match msg with
  | MT_TaprootContractData maker_contract =>
      _ ← accept_maker_contract num_makers i hashlock_nonces my_privkey next_hop_point maker_contract;
      mret (Some maker_contract)
  | _ => lift (Err (TE_General "Unexpected message from maker {}: expected TaprootContractData"))
  end.

Definition exchange_taproot : taker () :=
  swap_id ← attempt (E := TakerError) (read_swap os_id);
  _ ← match swap_id with inl swap_id => start_route_heartbeat swap_id | inr _ => mret () end;
  _ ← set_swap (fun s => {| s with os_phase := TakerTracker.FundsBroadcast |});
  _ ← persist_swap TakerTracker.FundsBroadcast;
  maker0_stream ← funding_broadcast;
  makers ← read_swap os_makers;
  hashlock_nonces ← read_swap os_hashlock_nonces;
  let num_makers := length makers in
  _ ← st_fold (exchange_taproot_hop num_makers hashlock_nonces maker0_stream) None (seq 0 num_makers);
  persist_swap TakerTracker.ContractsExchanged.
End taproot.
