(* ===== verification/TakerSwap.v ===== *)
(** A swap of the taker from its prepared state to its end: [start_swap],
    [recover_active_swap] and [populate_success_outcomes] of src/taker/api.rs.

    The sweep of the incoming coins is [WalletRecovery.sweep_incoming_swapcoins]
    on the taker's wallet.  The taker passes it a shutdown flag that is never set;
    the flag of the world stands for it. *)
From S2P Require Import Prelude Float64 Bitcoin Messages Contract Errors SwapCoin TaprootLib Taproot TakerTracker TakerState Payment LegacyVerification WalletStore MakerApi ChainWait WalletRecovery TakerApi TakerFunding TakerLegacy TakerTaproot.
#[local] Open Scope string_scope.
#[local] Open Scope list_scope.
#[local] Open Scope Z_scope.

Section swap.
Context {lib : BitcoinLib} {tap : TaprootLib} {hi : HashIter} {D : Type} {tv : TakerOutside D}.
Abbreviation taker := (stateful (Taker D) TakerError).

(** An operation on the wallet behind its lock. *)
Definition on_shared_wallet {A} (m : stateful (SharedWallet D) WalletError A) : taker A := fun t =>
  let '(r, s) := m {| sw_wallet := tk_wallet t; sw_poisoned := tk_wallet_poisoned t |} in
  (map_err TE_Wallet r, {| t with tk_wallet := sw_wallet s |}).

Definition phase_of (t : Taker D) : TakerTracker.SwapPhase :=
  match tk_ongoing_swap t with Some s => os_phase s | None => MakersDiscovered end.
Definition before_broadcast (t : Taker D) : bool := SwapPhase_rank (phase_of t) <? SwapPhase_rank FundsBroadcast.
Definition is_payment (t : Taker D) : bool :=
  match tk_ongoing_swap t with Some s => bool_decide (is_Some (os_payment s)) | None => false end.

Definition ignore {A} (m : taker A) : taker () := _ ← attempt (E := TakerError) m; mret ().

(** ** Failure *)
Definition recover_active_swap : taker () :=
  swap ← gets tk_ongoing_swap;
  swap_id ←
    match swap with
    | Some swap =>
        _ ← write_wallet;
        _ ← store_outgoing (os_outgoing_swapcoins swap);
        _ ← st_for_each (fun c => set_store (add_incoming_swapcoin c)) (os_incoming_swapcoins swap);
        _ ← save_wallet;
        mret (os_id swap)
    | None =>
        _ ← read_wallet;
        store ← gets (fun t => wl_store (tk_wallet t));
        let '(incoming, outgoing) := find_unfinished_swapcoins store in
        lift (ok_or (match outgoing !! 0%nat ≫= osc_swap_id with
                     | Some id => Some id
                     | None => incoming !! 0%nat ≫= isc_swap_id
                     end) (TE_General "No persisted swapcoins found for recovery"))
    end;
  _ ← lock_tracker;
  now ← gets (fun t => to_now_secs (world t));
  _ ← on_tracker (update_and_save to_tracker_faults now swap_id
                    (fun record => {| record with sr_phase := TakerTracker.Failed |}));
  _ ← modify (fun t => {| t with tk_ongoing_swap := None |});
  _ ← on_world to_start_recovery;
  modify (fun t => {| t with tk_recovery_loop := true |}).

(** The reason recorded is the debug text of the error. *)
Definition fail_swap (e : TakerError) (failed_at : TakerTracker.SwapPhase) : taker () :=
  _ ← persist_failure failed_at "{:?}";
  _ ← ignore recover_active_swap;
  lift (Err e).

(** No funds are taken to be on chain: the record goes and the swap with it. *)
Definition abandon_swap (e : TakerError) : taker () :=
  _ ← lock_tracker;
  swap_id ← gets (fun t => match tk_ongoing_swap t with Some s => os_id s | None => EmptyString end);
  _ ← ignore (on_tracker (remove_record to_tracker_faults swap_id));
  _ ← modify (fun t => {| t with tk_ongoing_swap := None |});
  lift (Err e).

Definition end_failed_exchange (e : TakerError) : taker () :=
  _ ← ignore (on_world (to_swap_report false));
  early ← gets before_broadcast;
  if (early : bool) then abandon_swap e
  else phase ← gets phase_of; fail_swap e phase.

(** ** The exchange *)

(** Replaces the first maker by a spare and funds anew; [false] gives up. *)
Definition restart_with_spare (spare : string) : taker bool :=
  substituted ← attempt (E := TakerError) (substitute_and_negotiate_spare 0 spare);
  match substituted with
  | inr _ => mret false
  | inl _ =>
      funded ← attempt (E := TakerError) funding_reinitialize;
      match funded with
      | inr _ => mret false
      | inl _ => _ ← persist_swap TakerTracker.FundingCreated; mret true
      end
  end.

(** [while let Err(_) = exchange_result]; every turn uses up a spare. *)
Fixpoint retry_exchange (fuel : nat) (result : () + TakerError) : taker (() + TakerError) :=
  match result with
  | inl _ => mret result
  | inr _ =>
      match fuel with
      | O => lift Panic
      | S fuel =>
          retry ← gets (fun t => before_broadcast t && negb (is_payment t));
          if (retry : bool) then
            spare ← pop_spare;
            match spare with
            | None => mret result
            | Some spare =>
                again ← restart_with_spare spare;
                if (again : bool) then
                  result ← attempt (E := TakerError) exchange_legacy;
                  retry_exchange fuel result
                else mret result
            end
          else mret result
      end
  end.

Definition spare_count (t : Taker D) : nat :=
  match tk_ongoing_swap t with Some s => length (os_spare_makers s) | None => 0 end.

Definition run_exchange (protocol : ProtocolVersion) : taker () :=
  result ←
    match protocol with
    | Legacy =>
        result ← attempt (E := TakerError) exchange_legacy;
        spares ← gets spare_count;
        retry_exchange (S spares) result
    | Taproot => attempt (E := TakerError) exchange_taproot
    end;
  match result with
  | inl _ => mret ()
  | inr e => end_failed_exchange e
  end.

(** ** The end of a swap *)
Definition key_path (spending : option Txid) (txid : Txid) : ContractOutcome :=
  {| co_contract_txid := txid; co_resolution := CR_KeyPath; co_spending_txid := spending |}.

Definition populate_success_outcomes (swap_id : string) (swept : RecoveryOutcome) : taker () :=
  swap ← gets tk_ongoing_swap;
  let incoming := map (fun p => key_path (Some p.2) p.1) (ro_resolved swept) in
  let outgoing := match swap with
                  | Some s => map (fun c => key_path None (compute_txid (osc_contract_tx c))) (os_outgoing_swapcoins s)
                  | None => [] end in
  let watchonly := match swap with
                   | Some s => map (fun c => key_path None (compute_txid (wsc_contract_tx c))) (os_watchonly_swapcoins s)
                   | None => [] end in
  _ ← lock_tracker;
  now ← gets (fun t => to_now_secs (world t));
  _ ← on_tracker (update_and_save to_tracker_faults now swap_id (fun r =>
        {| r with sr_recovery := {| (sr_recovery r) with rs_incoming := incoming; rs_outgoing := outgoing;
                                                         rs_watchonly := watchonly |} |}));
  mret ().

Definition forget_swapcoins (swap_id : string) : taker () :=
  _ ← write_wallet;
  store ← gets (fun t => wl_store (tk_wallet t));
  _ ← st_for_each (fun key => set_store (remove_outgoing_swapcoin key)) (outgoing_keys_for_swap swap_id store);
  _ ← set_store (fun w => (remove_watchonly_swapcoins swap_id w).2);
  save_wallet.

Definition settle_swap (swap_id : string) : taker () :=
  _ ← retire_detector;
  incoming ← read_swap os_incoming_swapcoins;
  let incoming_contract_txids := remove_dups (map (fun c => compute_txid (isc_contract_tx c)) incoming) in
  _ ← read_wallet;
  _ ← on_chain to_new_connection;
  swept ← on_shared_wallet (sweep_incoming_swapcoins (f64_of_Z 2) (Some incoming_contract_txids));
  _ ← write_wallet;
  _ ← on_wallet rc_sync_and_save;
  if (length incoming_contract_txids =? 0)%nat
     || (length (ro_resolved swept) <? length incoming_contract_txids)%nat
  then
    _ ← ignore (on_world (to_swap_report false));
    fail_swap (TE_General "Swap finalization swept {}/{} incoming swapcoins") TakerTracker.Finalizing
  else
    _ ← populate_success_outcomes swap_id swept;
    id ← read_swap os_id;
    _ ← forget_swapcoins id;
    _ ← persist_swap TakerTracker.Completed;
    on_world (to_swap_report true).

Definition start_swap (swap_id : string) : taker () :=
  current_id ← read_swap os_id;
  _ ← lift (reject (bool_decide (current_id <> swap_id)) (TE_General "No prepared swap with id '{}' (current: '{}')"));
  alive ← is_alive;
  _ ← lift (reject (negb alive) (TE_General "watchtower is down"));
  _ ← read_wallet;
  protocol ← read_swap (fun s => swp_protocol (os_params s));
  _ ← match protocol with
      | Legacy =>
          _ ← read_wallet;
          _ ← on_chain to_new_connection;
          _ ← on_world to_start_detector;
          modify (fun t => {| t with tk_breach_detector := Some {| bd_sentinels := []; bd_poisoned := false |} |})
      | Taproot => mret ()
      end;
  _ ← funding_initialize;
  _ ← persist_swap TakerTracker.FundingCreated;
  _ ← run_exchange protocol;
  _ ← persist_swap TakerTracker.Finalizing;
  finalized ← attempt (E := TakerError) finalize_with_retry;
  match finalized with
  | inl _ => settle_swap swap_id
  | inr e =>
      _ ← ignore (on_world (to_swap_report false));
      fail_swap e TakerTracker.Finalizing
  end.
End swap.
