(* ===== verification/TakerSteps.v ===== *)
(** What the operations of the taker leave alone: the part of the swap and of the
    trace that [TakerLegacySafety] argues about. *)
From S2P Require Import Prelude Float64 Bitcoin Messages Contract Errors SwapCoin TaprootLib Taproot TakerTracker TakerState Payment LegacyVerification WalletStore MakerApi ChainWait WalletRecovery TakerApi TakerFunding TakerLegacy.
#[local] Open Scope string_scope.
#[local] Open Scope list_scope.
#[local] Open Scope Z_scope.

(** ** Operations along a preorder *)
Definition steps {S E A} (R : S -> S -> Prop) (m : stateful S E A) : Prop := forall s, R s (m s).2.
Create HintDb steps.

Section along.
Context {S E : Type} (R : S -> S -> Prop) {pre : PreOrder R}.

Lemma steps_ret {A} (a : A) : steps R (mret a : stateful S E A).
Proof. intros s. reflexivity. Qed.
Lemma steps_lift {A} (m : outcome E A) : steps R (lift m).
Proof. intros s. reflexivity. Qed.
Lemma steps_gets {A} (f : S -> A) : steps R (gets (E := E) f).
Proof. intros s. reflexivity. Qed.
Lemma steps_bind {A B} (m : stateful S E A) (f : A -> stateful S E B) :
  steps R m -> (forall a, steps R (f a)) -> steps R (m ≫= f).
Proof.
  intros Hm Hf s. specialize (Hm s). unfold mbind, stateful_bind.
  destruct (m s) as [[a|e|] s1]; cbn in *; [|done..]. etrans; [exact Hm|apply Hf].
Qed.
Lemma steps_attempt {E' A} (m : stateful S E A) : steps R m -> steps R (attempt (E' := E') m).
Proof. intros Hm s. specialize (Hm s). unfold attempt. by destruct (m s) as [[a|e|] s1]. Qed.
Lemma steps_relabel {A} (e : E) (m : stateful S E A) : steps R m -> steps R (relabel e m).
Proof. intros Hm s. specialize (Hm s). unfold relabel. by destruct (m s). Qed.
Lemma steps_for_each {A} (f : A -> stateful S E ()) xs : (forall x, steps R (f x)) -> steps R (st_for_each f xs).
Proof. intros Hf. induction xs as [|x xs IH]; [apply steps_ret|]. by apply steps_bind. Qed.
Lemma steps_map {A B} (f : A -> stateful S E B) xs : (forall x, steps R (f x)) -> steps R (st_map f xs).
Proof.
  intros Hf. induction xs as [|x xs IH]; [apply steps_ret|]. apply steps_bind; [done|]. intros y.
  apply steps_bind; [done|]. intros ys. apply steps_ret.
Qed.
Lemma steps_fold {A B} (f : B -> A -> stateful S E B) xs :
  (forall b x, steps R (f b x)) -> forall acc, steps R (st_fold f acc xs).
Proof. intros Hf. induction xs as [|x xs IH]; intros acc; [apply steps_ret|]. by apply steps_bind. Qed.
Lemma steps_repeat {A} (f : stateful S E A) n : steps R f -> steps R (repeat_op f n).
Proof.
  intros Hf. induction n as [|n IH]; [apply steps_ret|]. apply steps_bind; [done|]. intros x.
  apply steps_bind; [done|]. intros xs. apply steps_ret.
Qed.
Lemma steps_run {A} (m : stateful S E A) s r s' : steps R m -> m s = (r, s') -> R s s'.
Proof. intros Hm Hr. specialize (Hm s). by rewrite Hr in Hm. Qed.
End along.
#[export] Hint Resolve steps_ret steps_lift steps_gets steps_attempt steps_relabel steps_repeat : steps.

(** Decomposes an operation into operations known to step. *)
Ltac take_steps :=
  repeat first
    [ solve [auto with steps]
    | apply steps_bind; [exact _| |intros ?]
    | apply steps_attempt
    | apply steps_relabel
    | apply steps_repeat; [exact _|]
    | apply steps_for_each; [exact _|intros ?]
    | apply steps_map; [exact _|intros ?]
    | apply steps_fold; [exact _|intros ? ?]
    | case_match ].

(** ** What stays *)
Section steady.
Context {lib : BitcoinLib} {tap : TaprootLib} {hi : HashIter} {D : Type} {tv : TakerOutside D}.
Implicit Types t : Taker D.

(** What identifies a swap and what it owns; of the makers only their number. *)
Definition swap_core (s : OngoingSwapState) :=
  (os_id s, os_preimage s, os_params s, os_outgoing_swapcoins s, os_incoming_swapcoins s, os_payment s,
   os_spare_makers s, length (os_makers s)).

Definition silent (e : TakerEvent) : bool := match e with EvBroadcast _ => false | _ => true end.

Definition steady t t' : Prop :=
  swap_core <$> tk_ongoing_swap t' = swap_core <$> tk_ongoing_swap t /\
  exists evs, tk_trace t' = evs ++ tk_trace t /\ forallb silent evs = true.

#[global] Instance steady_preorder : PreOrder steady.
Proof.
  split.
  - intros t. split; [done|]. by exists [].
  - intros t1 t2 t3 [H1 (e1 & E1 & S1)] [H2 (e2 & E2 & S2)]. split; [congruence|].
    exists (e2 ++ e1). rewrite E2, E1, app_assoc, forallb_app, S1, S2. done.
Qed.

Lemma steady_same t t' :
  swap_core <$> tk_ongoing_swap t' = swap_core <$> tk_ongoing_swap t -> tk_trace t' = tk_trace t -> steady t t'.
Proof. intros H1 H2. split; [done|]. by exists []. Qed.

Lemma on_wallet_steady {A} (op : stateful (Wallet D) WalletError A) : steps steady (on_wallet op).
Proof. intros t. unfold on_wallet. destruct (op (tk_wallet t)) as [r w]. by apply steady_same. Qed.
Lemma on_chain_steady {A} (op : stateful D WalletError A) : steps steady (on_chain op).
Proof. apply on_wallet_steady. Qed.
Lemma on_world_steady {A} (op : stateful D TakerError A) : steps steady (on_world op).
Proof. intros t. unfold on_world. destruct (op (world t)) as [r d]. by apply steady_same. Qed.
Lemma on_tracker_steady {A} (op : SwapTracker -> outcome TakerError A * SwapTracker) : steps steady (on_tracker (D := D) op).
Proof. intros t. unfold on_tracker. destruct (op (tk_swap_tracker t)) as [r st]. by apply steady_same. Qed.
Lemma read_swap_run {A} (f : OngoingSwapState -> A) t :
  read_swap f t = (match tk_ongoing_swap t with Some s => Ok (f s) | None => Err (TE_General "No active swap") end, t).
Proof. unfold read_swap, on_swap, swap_state. destruct t as [[s|] ? ? ? ? ? ? ?]; done. Qed.
Lemma read_swap_steady {A} (f : OngoingSwapState -> A) : steps steady (read_swap (D := D) f).
Proof. intros t. rewrite read_swap_run. reflexivity. Qed.
Lemma set_swap_run f t :
  set_swap f t = match tk_ongoing_swap t with
                 | Some s => (Ok (), {| t with tk_ongoing_swap := Some (f s) |})
                 | None => (Err (TE_General "No active swap"), t) end.
Proof. unfold set_swap, on_swap, swap_state_mut, swap_state. destruct t as [[s|] ? ? ? ? ? ? ?]; done. Qed.
Lemma set_swap_steady f : (forall s, swap_core (f s) = swap_core s) -> steps steady (set_swap (D := D) f).
Proof.
  intros Hf t. rewrite set_swap_run. destruct (tk_ongoing_swap t) as [s|] eqn:E; [|reflexivity].
  apply steady_same; [|done]. cbn. by rewrite E, Hf.
Qed.
Lemma write_wallet_steady : steps steady (write_wallet (D := D)).
Proof. intros t. reflexivity. Qed.
Lemma read_wallet_steady : steps steady (read_wallet (D := D)).
Proof. intros t. reflexivity. Qed.
Lemma lock_tracker_steady : steps steady (lock_tracker (D := D)).
Proof. intros t. reflexivity. Qed.
Lemma record_event_steady e : silent e = true -> steps steady (record_event (D := D) e).
Proof. intros He t. split; [done|]. exists [e]. cbn. by rewrite He. Qed.
Lemma set_detector_steady f : steps steady (modify (E := TakerError) (fun t => {| t with tk_breach_detector := f t |})).
Proof. intros t. by apply steady_same. Qed.
End steady.
#[export] Hint Resolve on_wallet_steady on_chain_steady on_world_steady on_tracker_steady read_swap_steady
  write_wallet_steady read_wallet_steady lock_tracker_steady record_event_steady set_detector_steady : steps.
#[export] Hint Extern 0 (silent _ = true) => reflexivity : steps.
#[export] Hint Extern 1 (PreOrder steady) => apply steady_preorder : steps.

Section operations.
Context {lib : BitcoinLib} {tap : TaprootLib} {hi : HashIter} {D : Type} {tv : TakerOutside D}.
Implicit Types t : Taker D.

(** ** The operations of the taker *)
Lemma set_world_steady f : steps steady (set_world (D := D) f).
Proof. apply on_world_steady. Qed.
Lemma set_store_steady f : steps steady (set_store (D := D) f).
Proof. apply on_wallet_steady. Qed.
Lemma save_wallet_steady : steps steady (save_wallet (D := D)).
Proof. unfold save_wallet. take_steps. Qed.
Lemma is_alive_steady : steps steady (is_alive (D := D)).
Proof. unfold is_alive. take_steps. Qed.
Lemma random_key_steady : steps steady (random_key (D := D)).
Proof. apply on_world_steady. Qed.
#[local] Hint Resolve set_world_steady set_store_steady save_wallet_steady is_alive_steady random_key_steady : steps.
Lemma generate_keypair_steady : steps steady (generate_keypair (D := D)).
Proof. unfold generate_keypair. take_steps. Qed.
Lemma generate_maker_keys_steady p n : steps steady (generate_maker_keys (D := D) p n).
Proof. unfold generate_maker_keys, derive_maker_pubkey_and_nonce. take_steps. Qed.
Lemma net_connect_steady a : steps steady (net_connect (D := D) a).
Proof. unfold net_connect. take_steps. Qed.
Lemma send_message_steady s m : steps steady (send_message (D := D) s m).
Proof. unfold send_message. take_steps. Qed.
Lemma read_message_steady s : steps steady (read_message (D := D) s).
Proof. apply on_world_steady. Qed.
#[local] Hint Resolve generate_keypair_steady generate_maker_keys_steady net_connect_steady send_message_steady
  read_message_steady : steps.
Lemma net_handshake_steady s : steps steady (net_handshake (D := D) s).
Proof. unfold net_handshake. take_steps. Qed.
#[local] Hint Resolve net_handshake_steady : steps.
Lemma start_route_heartbeat_steady id : steps steady (start_route_heartbeat (D := D) id).
Proof. unfold start_route_heartbeat, heartbeat_stream. take_steps. Qed.
Lemma maker_at_steady i : steps steady (maker_at (D := D) i).
Proof. unfold maker_at. take_steps. Qed.
#[local] Hint Resolve maker_at_steady : steps.
Lemma update_maker_steady i f : steps steady (update_maker (D := D) i f).
Proof.
  unfold update_maker. take_steps. apply set_swap_steady. intros s. unfold swap_core. cbn. by rewrite length_alter.
Qed.
#[local] Hint Resolve update_maker_steady : steps.
Lemma update_legacy_steady i f : steps steady (update_legacy (D := D) i f).
Proof. unfold update_legacy. take_steps. Qed.
Lemma add_sentinels_steady s : steps steady (add_sentinels (D := D) s).
Proof. unfold add_sentinels. take_steps. Qed.
Lemma persist_swap_steady p : steps steady (persist_swap (D := D) p).
Proof. unfold persist_swap. take_steps. by apply set_swap_steady. Qed.
#[local] Hint Resolve persist_swap_steady : steps.
Lemma persist_progress_steady : steps steady (persist_progress (D := D)).
Proof. unfold persist_progress. take_steps. Qed.
Lemma persist_incoming_steady : steps steady (persist_incoming_swapcoins (D := D)).
Proof. unfold persist_incoming_swapcoins. take_steps. Qed.
Lemma take_reference_height_steady : steps steady (take_reference_height (D := D)).
Proof. unfold take_reference_height. take_steps. by apply set_swap_steady. Qed.
#[local] Hint Resolve take_reference_height_steady : steps.
Lemma negotiate_with_maker_steady i id a n c h : steps steady (negotiate_with_maker (D := D) i id a n c h).
Proof. unfold negotiate_with_maker, take_offer. take_steps. Qed.
#[local] Hint Resolve negotiate_with_maker_steady : steps.
Lemma substitute_steady i a : steps steady (substitute_and_negotiate_spare (D := D) i a).
Proof. unfold substitute_and_negotiate_spare. take_steps. Qed.
Lemma store_outgoing_steady cs : steps steady (store_outgoing (D := D) cs).
Proof. unfold store_outgoing. take_steps. Qed.
End operations.
#[export] Hint Resolve set_world_steady set_store_steady save_wallet_steady is_alive_steady random_key_steady
  generate_keypair_steady generate_maker_keys_steady net_connect_steady send_message_steady read_message_steady
  net_handshake_steady start_route_heartbeat_steady maker_at_steady update_maker_steady update_legacy_steady
  add_sentinels_steady persist_swap_steady persist_progress_steady persist_incoming_steady
  take_reference_height_steady negotiate_with_maker_steady substitute_steady store_outgoing_steady : steps.

Section legacy_operations.
Context {lib : BitcoinLib} {tap : TaprootLib} {hi : HashIter} {D : Type} {tv : TakerOutside D}.

(** ** The steps of the legacy driver *)
Lemma req_sender_sigs_steady a id cs l : steps steady (exchange_req_sender_sigs (D := D) a id cs l).
Proof. unfold exchange_req_sender_sigs. take_steps. Qed.
Lemma expected_amount_steady i : steps steady (expected_amount (D := D) i).
Proof. intros t. reflexivity. Qed.
#[local] Hint Resolve expected_amount_steady : steps.
Lemma send_proof_steady a id i hf nk l : steps steady (exchange_send_proof_of_funding (D := D) a id i hf nk l).
Proof. unfold exchange_send_proof_of_funding. take_steps. Qed.
Lemma send_combined_steady a id r s : steps steady (exchange_send_combined_sigs (D := D) a id r s).
Proof. unfold exchange_send_combined_sigs. take_steps. Qed.
Lemma forwarded_steady a id infos h l : steps steady (exchange_req_sender_sigs_forwarded (D := D) a id infos h l).
Proof. unfold exchange_req_sender_sigs_forwarded. take_steps. Qed.
Lemma req_receiver_sigs_steady a id txs infos : steps steady (exchange_req_receiver_sigs (D := D) a id txs infos).
Proof. unfold exchange_req_receiver_sigs. take_steps. Qed.
Lemma legacy_wait_steady txids rq arr : steps steady (wait_for_legacy_funding_confirmation (D := D) txids rq arr).
Proof. unfold wait_for_legacy_funding_confirmation. take_steps. Qed.
#[local] Hint Resolve forwarded_steady req_receiver_sigs_steady legacy_wait_steady : steps.
Lemma connect_hop_steady i : steps steady (connect_hop (D := D) i).
Proof. unfold connect_hop. take_steps. Qed.
Lemma hop_funding_steady first vars : steps steady (hop_funding (D := D) first vars).
Proof. unfold hop_funding, first_hop_funding. take_steps. Qed.
Lemma next_hop_keys_steady i last n vars : steps steady (next_hop_keys (D := D) i last n vars).
Proof. unfold next_hop_keys, last_hop_key. take_steps. Qed.
Lemma check_receiver_txids_steady first vars txs : steps steady (check_receiver_txids (D := D) first vars txs).
Proof. unfold check_receiver_txids. take_steps. Qed.
Lemma forward_sender_sigs_steady i id infos : steps steady (forward_sender_sigs (D := D) i id infos).
Proof. unfold forward_sender_sigs. take_steps. Qed.
Lemma collect_receiver_sigs_steady i first id vars txs : steps steady (collect_receiver_sigs (D := D) i first id vars txs).
Proof. unfold collect_receiver_sigs. take_steps. Qed.
Lemma track_watchonly_steady i infos : steps steady (track_watchonly (D := D) i infos).
Proof. unfold track_watchonly. take_steps. by apply set_swap_steady. Qed.
Lemma await_maker_funding_steady h infos : steps steady (await_maker_funding (D := D) h infos).
Proof. unfold await_maker_funding. take_steps. Qed.
#[local] Hint Resolve send_combined_steady collect_receiver_sigs_steady track_watchonly_steady await_maker_funding_steady : steps.
Lemma complete_hop_steady i n a id vars txs infos sigs : steps steady (complete_hop (D := D) i n a id vars txs infos sigs).
Proof. unfold complete_hop. take_steps. Qed.
End legacy_operations.
#[export] Hint Resolve req_sender_sigs_steady send_proof_steady req_receiver_sigs_steady legacy_wait_steady
  connect_hop_steady hop_funding_steady next_hop_keys_steady check_receiver_txids_steady forward_sender_sigs_steady
  complete_hop_steady : steps.
