(* ===== verification/TakerLegacySafety.v ===== *)
(** What the taker's legacy driver guarantees: its funding goes out only when it
    can be refunded, its loops end, and what it gets for its keys. *)
From S2P Require Import Prelude Float64 Bitcoin Messages Contract Errors SwapCoin ScriptEval TaprootLib Taproot TakerTracker TakerState Payment LegacyVerification WalletStore MakerApi MakerFunding ChainWait WalletRecovery TakerApi TakerFunding TakerLegacy TakerSteps.
#[local] Open Scope string_scope.
#[local] Open Scope list_scope.
#[local] Open Scope Z_scope.

(** ** Funding *)
Section funding.
Context {lib : BitcoinLib} {laws : BitcoinLaws lib} {tap : TaprootLib} {hi : HashIter} {D : Type} {tv : TakerOutside D}.
Implicit Types t : Taker D.

Definition outgoing_of t : list OutgoingSwapCoin :=
  match tk_ongoing_swap t with Some s => os_outgoing_swapcoins s | None => [] end.
Definition incoming_of t : list IncomingSwapCoin :=
  match tk_ongoing_swap t with Some s => os_incoming_swapcoins s | None => [] end.
Definition spares_of t : list string :=
  match tk_ongoing_swap t with Some s => os_spare_makers s | None => [] end.

(** The contract of the coin spends the output [o] of [tx], the 2-of-2 output
    the coin was made for. *)
Definition spends_funding (c : OutgoingSwapCoin) (tx : Transaction) (my : SecretKey) (other : PublicKey)
    (i : TxIn) (o : TxOut) : Prop :=
  osc_funding_tx c = Some tx /\ input (osc_contract_tx c) = [i] /\
  op_txid (previous_output i) = compute_txid tx /\
  output tx !! Z.to_nat (op_vout (previous_output i)) = Some o /\
  pays_to o (create_multisig_redeemscript (pubkey_of my) other) /\ value o = osc_funding_amount c.

(** The taker holds the keys of the coin, and its contract spends its funding. *)
Definition owned (c : OutgoingSwapCoin) : Prop :=
  exists my other tx i o,
    owns_contract (osc_protocol c) (osc_my_privkey c) (osc_my_pubkey c) (osc_other_pubkey c) (osc_contract_tx c) my other /\
    spends_funding c tx my other i o.

(** The coin refunds [tx]: with the signature it holds its contract completes to
    a transaction that spends the 2-of-2 output of [tx] itself. *)
Definition refunds (c : OutgoingSwapCoin) (tx : Transaction) : Prop :=
  exists my other sig i o,
    osc_my_privkey c = Some my /\ osc_other_pubkey c = Some other /\ osc_others_contract_sig c = Some sig /\
    spends_funding c tx my other i o /\
    (sighash_type sig = SIGHASH_ALL ->
     exists ctx, osc_create_signed_contract_tx c = Ok ctx /\ output ctx = output (osc_contract_tx c) /\
       map previous_output (input ctx) = [previous_output i] /\ p2wsh_spendable ctx o = true).
Definition refund_ready (c : OutgoingSwapCoin) : Prop := exists tx, refunds c tx.

(** The coin itself is in the store, under the txid of its contract. *)
Definition stored (store : WalletStore) (c : OutgoingSwapCoin) : Prop :=
  wst_outgoing_swapcoins store !! compute_txid (osc_contract_tx c) = Some c.

(** Before the funding [tx] goes out the watchtower was seen alive and a coin
    that refunds this very transaction was written to disk. *)
Definition guarded (pre : list TakerEvent) (tx : Transaction) : Prop :=
  EvWatchtower true ∈ pre /\
  exists store c, EvSaved store ∈ pre /\ stored store c /\ refunds c tx.
Definition protected (tr : list TakerEvent) : Prop :=
  forall post tx pre, tr = post ++ EvBroadcast tx :: pre -> guarded pre tx.

Lemma protected_cons e tr :
  protected tr -> (forall tx, e = EvBroadcast tx -> guarded tr tx) -> protected (e :: tr).
Proof.
  intros Hp He [|e' post] tx pre Heq; simplify_list_eq; [by apply He|]. by eapply Hp.
Qed.
Lemma protected_silent evs tr : forallb silent evs = true -> protected tr -> protected (evs ++ tr).
Proof.
  intros Hs Hp. induction evs as [|e evs IH]; [done|]. cbn in Hs. apply andb_prop in Hs as [He Hs].
  apply protected_cons; [by apply IH|]. by intros tx ->.
Qed.
Lemma protected_nil : protected [].
Proof. by intros [|??] tx pre. Qed.

Lemma signed_coin_is_ready c sig :
  owned c -> verify_sender_sig (sig, c) = Ok () -> refund_ready (set_osc_sig c sig).
Proof.
  intros (my & other & tx & i & o & (Hp & Hk & Hpk & Ho & Hwf & i' & Hi' & Hw) & Hsp) Hv.
  pose proof Hsp as (Hf & Hi & _ & _ & Hpay & Hval). rewrite Hi in Hi'. injection Hi' as <-.
  exists tx, my, other, sig, i, o. do 4 (split; [done|]). intros Hall.
  unfold verify_sender_sig in Hv. rewrite Ho, Hpk in Hv. cbn in Hv. apply map_err_Ok in Hv.
  apply verify_contract_tx_sig_Ok in Hv as (d & Hd & Hv).
  unfold osc_create_signed_contract_tx. cbn. rewrite Hp, Hk, Hpk, Ho.
  destruct (signed_contract_tx_spendable _ _ _ _ _ _ _ _ o Hwf Hi Hw Hd Hv Hall Hpay Hval)
    as (ctx & H1 & H2 & H3 & H4). rewrite Hi in H3. eauto 10.
Qed.

(** What [funding_create_legacy] makes of a funding transaction that pays the
    2-of-2 address is owned. *)
Lemma legacy_outgoing_owned id tx pos my other tk rs o c :
  legacy_outgoing id (tx, pos, (my, other, tk, rs)) = Ok c -> wf_pubkey other -> output tx !! Z.to_nat pos = Some o ->
  pays_to o (create_multisig_redeemscript (pubkey_of my) other) -> owned c.
Proof.
  unfold legacy_outgoing. intros Hc Hwf Ho Hpay. inv_ok Hc. simplify_eq.
  match goal with H : taker_protocol _ = Ok _ |- _ => unfold taker_protocol in H; apply map_err_Ok in H;
    unfold create_senders_contract_tx in H; inv_ok H end. simplify_eq.
  exists my, other, tx. do 2 eexists. split; [|by repeat split].
  do 5 (split; [done|]). by eexists.
Qed.

Lemma owned_set_sig c sig : owned c -> owned (set_osc_sig c sig).
Proof. done. Qed.

Lemma zip_update_Forall {A B} (P Q : A -> Prop) (f : A -> B -> A) xs ys :
  length ys = length xs -> Forall (fun p => P p.1 -> Q (f p.1 p.2)) (zip xs ys) -> Forall P xs ->
  Forall Q (zip_update f xs ys).
Proof.
  revert ys. induction xs as [|x xs IH]; intros [|y ys]; cbn; try done. intros [= Hlen] Hz Hx.
  apply Forall_cons in Hz as [Hz1 Hz2]. apply Forall_cons in Hx as [Hx1 Hx2].
  constructor; [by apply Hz1|]. by apply IH.
Qed.
Lemma zip_update_keeps {A B} (P : A -> Prop) (f : A -> B -> A) xs ys :
  (forall x y, P x -> P (f x y)) -> Forall P xs -> Forall P (zip_update f xs ys).
Proof.
  intros Hf. revert ys. induction xs as [|x xs IH]; intros [|y ys]; cbn; try done.
  intros [Hx Hxs]%Forall_cons_1. constructor; [by apply Hf|by apply IH].
Qed.

Lemma zip_update_map {A B C} (g : A -> C) (f : A -> B -> A) xs ys :
  (forall x y, g (f x y) = g x) -> map g (zip_update f xs ys) = map g xs.
Proof.
  intros Hf. revert ys. induction xs as [|x xs IH]; intros [|y ys]; cbn; try done. by rewrite Hf, IH.
Qed.

(** ** The invariant *)
Definition contract_ids t : list Txid := map (fun c => compute_txid (osc_contract_tx c)) (outgoing_of t).
Definition safe t : Prop :=
  protected (tk_trace t) /\ Forall owned (outgoing_of t) /\ NoDup (contract_ids t).
Definition keeps_safe t t' : Prop := safe t -> safe t'.
#[local] Instance keeps_safe_preorder : PreOrder keeps_safe.
Proof. split; [by intros t H|]. intros t1 t2 t3 H1 H2 H. by apply H2, H1. Qed.

Lemma steady_outgoing t t' : steady t t' -> outgoing_of t' = outgoing_of t.
Proof.
  intros [Hc _]. unfold outgoing_of. destruct (tk_ongoing_swap t), (tk_ongoing_swap t'); try done.
  cbn in Hc. injection Hc. congruence.
Qed.
Lemma steady_safe t t' : steady t t' -> keeps_safe t t'.
Proof.
  intros Hs [Hp Ho]. split; [|unfold contract_ids in *; by rewrite (steady_outgoing _ _ Hs)].
  destruct Hs as [_ (evs & -> & Hq)]. by apply protected_silent.
Qed.
Lemma steady_keeps_safe {A} (m : stateful (Taker D) TakerError A) : steps steady m -> steps keeps_safe m.
Proof. intros Hm t. by apply steady_safe. Qed.

Lemma pop_spare_safe : steps keeps_safe (pop_spare (D := D)).
Proof.
  unfold pop_spare. apply steps_bind; [exact _|auto using steady_keeps_safe with steps|]. intros spares.
  apply steps_bind; [exact _| |auto using steady_keeps_safe with steps].
  intros t [Hp Ho]. rewrite set_swap_run. unfold safe, contract_ids, outgoing_of in *.
  destruct (tk_ongoing_swap t) as [s|] eqn:E; cbn; rewrite ?E; done.
Qed.

#[local] Hint Resolve steady_keeps_safe pop_spare_safe : steps.

Lemma collect_sender_sigs_safe i last id vars infos : steps keeps_safe (collect_sender_sigs (D := D) i last id vars infos).
Proof. unfold collect_sender_sigs. take_steps. Qed.

Lemma run_bind {A B} (m : stateful (Taker D) TakerError A) (f : A -> stateful (Taker D) TakerError B) t :
  ((m ≫= f) t).2 = match m t with (Ok a, t1) => (f a t1).2 | (_, t1) => t1 end.
Proof. unfold mbind, stateful_bind. by destruct (m t) as [[a|e|] t1]. Qed.

Lemma req_sender_sigs_Ok a id cs l t sigs t' :
  exchange_req_sender_sigs a id cs l t = (Ok sigs, t') ->
  length sigs = length cs /\ verify_sender_sigs (tk_ongoing_swap t') sigs = Ok ().
Proof.
  unfold exchange_req_sender_sigs. intros H.
  do 5 apply st_bind_Ok in H as (? & ? & _ & H). case_match; try discriminate H.
  apply st_bind_Ok in H as ([] & t1 & [Hc ->]%lift_Ok & H). apply st_bind_Ok in H as (s & t2 & [= <- <-] & H).
  apply st_bind_Ok in H as ([] & t3 & [Hv ->]%lift_Ok & [= <- <-]). inv_ok Hc. to_prop. by split.
Qed.

(** The signatures of the first maker make every coin ready for its refund. *)
Lemma sign_first_hop_safe i a id l t r t' :
  sign_first_hop i a id l t = (r, t') -> safe t ->
  safe t' /\ (r = Ok () -> Forall refund_ready (outgoing_of t')).
Proof.
  unfold sign_first_hop. intros Hr Hs.
  apply st_bind_run in Hr as [[Ht Hf]|(cs & t1 & H1 & Hr)].
  { rewrite read_swap_run in Ht. cbn in Ht. subst. split; [done|]. by intros ->. }
  rewrite read_swap_run in H1. destruct (tk_ongoing_swap t) as [s|] eqn:Es; [|done]. injection H1 as <- <-.
  apply st_bind_run in Hr as [[Ht Hf]|(sigs & t2 & H2 & Hr)].
  { split; [|by intros ->]. rewrite <- Ht. eapply steady_safe; [|done]. apply req_sender_sigs_steady. }
  pose proof (steps_run _ _ _ _ _ (req_sender_sigs_steady _ _ _ _) H2) as Hst.
  apply req_sender_sigs_Ok in H2 as [Hlen Hver].
  assert (safe t2) as Hs2 by (by eapply steady_safe).
  apply steady_outgoing in Hst. unfold outgoing_of in Hst. rewrite Es in Hst.
  destruct Hs2 as (Hp2 & Ho2 & Hn2). unfold contract_ids, outgoing_of in Ho2, Hn2.
  destruct (tk_ongoing_swap t2) as [s2|] eqn:Es2; [|done]. subst.
  unfold verify_sender_sigs in Hver. cbn in Hver. apply for_each_Ok in Hver. rewrite <- Hst in Hlen.
  erewrite st_bind_step in Hr by (rewrite set_swap_run, Es2; reflexivity).
  pose proof (steps_run _ _ _ _ _ (update_legacy_steady _ _) Hr) as Hst3. split.
  - eapply steady_safe; [exact Hst3|]. split; [done|]. unfold contract_ids. cbn.
    split; [apply zip_update_keeps; [apply owned_set_sig|done]|]. by rewrite zip_update_map.
  - intros _. rewrite (steady_outgoing _ _ Hst3). cbn. eapply zip_update_Forall; [by symmetry| |exact Ho2].
    apply Forall_lookup. intros k [c sig]. rewrite lookup_zip_with. intros Hk.
    destruct (os_outgoing_swapcoins s2 !! k) as [c'|] eqn:Ek; [|done]. cbn in Hk.
    destruct (sigs !! k) as [sig'|] eqn:Ek'; [|done]. injection Hk as -> ->. cbn. intros Hown.
    apply signed_coin_is_ready; [done|]. rewrite Forall_lookup in Hver. apply (Hver k).
    by rewrite lookup_zip_with, Ek', Ek.
Qed.

(** ** The broadcast *)
Lemma store_outgoing_run cs t :
  store_outgoing cs t =
    (Ok (), {| t with tk_wallet := {| (tk_wallet t) with wl_store :=
       fold_left (fun w c => add_outgoing_swapcoin c w) cs (wl_store (tk_wallet t)) |} |}).
Proof.
  unfold store_outgoing. revert t. induction cs as [|c cs IH]; intros t; [by destruct t as [? [??] ? ? ? ? ? ?]|].
  cbn [st_for_each]. erewrite st_bind_step by reflexivity. by rewrite IH.
Qed.

(** Coins with distinct contracts are all stored. *)
Lemma stored_coins cs w :
  NoDup (map (fun c => compute_txid (osc_contract_tx c)) cs) ->
  Forall (stored (fold_left (fun w c => add_outgoing_swapcoin c w) cs w)) cs.
Proof.
  revert w. induction cs as [|c0 cs IH] using rev_ind; intros w Hnd; [constructor|].
  rewrite map_app in Hnd. apply NoDup_app in Hnd as (Hnd & Hnot & _). rewrite fold_left_app. cbn.
  apply Forall_app. split; [|constructor; [|constructor]; by apply lookup_insert_eq].
  specialize (IH w Hnd). rewrite Forall_forall in *. intros c Hc. unfold stored. cbn.
  rewrite lookup_insert_ne; [by apply IH|]. intros He. apply (Hnot (compute_txid (osc_contract_tx c))).
  - by apply (list_elem_of_fmap_2 (fun c => compute_txid (osc_contract_tx c))).
  - rewrite <- He. by left.
Qed.

Lemma broadcast_coin_trace c t :
  tk_trace (broadcast_coin c t).2 =
    match osc_funding_tx c with Some tx => EvBroadcast tx :: tk_trace t | None => tk_trace t end.
Proof.
  unfold broadcast_coin, relabel, send_tx, record_event, on_chain, on_wallet, lift, ok_or, modify, mbind, stateful_bind.
  destruct (osc_funding_tx c) as [tx|]; [|done]. cbn.
  destruct (in_outside _ _) as [r w]. by destruct r.
Qed.

Lemma broadcast_coins_protected store cs : forall t,
  EvWatchtower true ∈ tk_trace t -> EvSaved store ∈ tk_trace t -> protected (tk_trace t) ->
  Forall (stored store) cs -> Forall refund_ready cs -> protected (tk_trace (st_for_each broadcast_coin cs t).2).
Proof.
  induction cs as [|c cs IH]; intros t Hw Hsv Hp Hall Hready; [done|]. apply Forall_cons in Hall as [Hc Hall].
  apply Forall_cons in Hready as [[tx Hr] Hready].
  cbn [st_for_each]. rewrite run_bind. pose proof (broadcast_coin_trace c t) as Ht.
  assert (protected (tk_trace (broadcast_coin c t).2)) as Hp'.
  { rewrite Ht. case_match; [|done]. apply protected_cons; [done|]. intros tx' [= <-]. split; [done|]. exists store, c.
    split; [done|]. split; [done|]. pose proof Hr as (? & ? & ? & ? & ? & _ & _ & _ & (Hf & _) & _). by simplify_eq. }
  destruct (broadcast_coin c t) as [[[]|e|] t1]; try done. cbn in Ht, Hp'.
  apply IH; try done; rewrite Ht; case_match; by rewrite ?elem_of_cons; eauto.
Qed.

Lemma save_wallet_run t r t' :
  save_wallet t = (r, t') ->
  (r = Ok () /\ tk_trace t' = EvSaved (wl_store (tk_wallet t)) :: tk_trace t) \/ (is_ok r = false /\ tk_trace t' = tk_trace t).
Proof.
  unfold save_wallet, on_wallet, save_to_disk, record_event, gets, modify, mbind, stateful_bind.
  destruct (write_wallet_file _ _) as [[[]|e|] d]; cbn; intros [= <- <-]; [left|right..]; done.
Qed.

(** The funding of coins that are ready for their refund goes out guarded. *)
Lemma send_funding_protected t :
  protected (tk_trace t) -> Forall refund_ready (outgoing_of t) -> NoDup (contract_ids t) ->
  protected (tk_trace (send_funding t).2).
Proof.
  intros Hp Hready Hnd. destruct (send_funding t) as [r t'] eqn:Hr. cbn. unfold send_funding in Hr.
  assert (is_alive t = (Ok (to_watch_alive (world t)), {| t with tk_trace := EvWatchtower (to_watch_alive (world t)) :: tk_trace t |}))
    as Halive by done.
  erewrite st_bind_step in Hr by exact Halive. clear Halive.
  set (t1 := {| t with tk_trace := EvWatchtower (to_watch_alive (world t)) :: tk_trace t |}) in Hr.
  assert (protected (tk_trace t1)) as Hp1 by (by apply protected_cons).
  apply st_bind_run in Hr as [[<- _]|([] & t2 & [Hal ->]%lift_Ok & Hr)]; [done|]. inv_ok Hal. apply negb_false_iff in Hal.
  apply st_bind_run in Hr as [[<- _]|([] & t2 & [= _ <-] & Hr)]; [done|].
  assert (outgoing_of t1 = outgoing_of t) as Hout by done.
  apply st_bind_run in Hr as [[Ht _]|(cs & t2 & H2 & Hr)].
  { rewrite read_swap_run in Ht. by cbn in Ht; subst. }
  rewrite read_swap_run in H2. unfold contract_ids, outgoing_of in Hout, Hready, Hnd.
  destruct (tk_ongoing_swap t1) as [s|] eqn:Es; [|done]. injection H2 as <- <-. rewrite <- Hout in Hready, Hnd. clear Hout.
  erewrite st_bind_step in Hr by apply store_outgoing_run.
  set (store := fold_left _ _ _) in Hr. set (t2 := {| t1 with tk_wallet := _ |}) in Hr.
  assert (Forall (stored store) (os_outgoing_swapcoins s)) as Hst by (by apply stored_coins).
  apply st_bind_run in Hr as [[<- _]|([] & t3 & H3 & Hr)].
  { destruct (save_wallet t2) as [r3 t3] eqn:E3. cbn. by destruct (save_wallet_run _ _ _ E3) as [[_ ->]|[_ ->]]; [apply protected_cons|]. }
  destruct (save_wallet_run _ _ _ H3) as [[_ Ht3]|[? _]]; [|done].
  assert (protected (tk_trace (st_for_each broadcast_coin (os_outgoing_swapcoins s) t3).2)) as Hpb.
  { apply (broadcast_coins_protected store); [..|done|done]; rewrite Ht3.
    - right. cbn. rewrite Hal. by left.
    - by left.
    - by apply protected_cons. }
  apply st_bind_run in Hr as [[<- _]|([] & t4 & H4 & Hr)]; [done|]. rewrite H4 in Hpb.
  by destruct (save_wallet_run _ _ _ Hr) as [[_ ->]|[_ ->]]; [apply protected_cons|].
Qed.

(** Sending touches the wallet and the trace only. *)
Definition same_swap t t' : Prop := tk_ongoing_swap t' = tk_ongoing_swap t.
#[local] Instance same_swap_preorder : PreOrder same_swap.
Proof. split; [done|]. intros t1 t2 t3 H1 H2. unfold same_swap in *. congruence. Qed.
Lemma on_wallet_same {A} (op : stateful (Wallet D) WalletError A) : steps same_swap (on_wallet op).
Proof. intros t. unfold on_wallet. by destruct (op (tk_wallet t)). Qed.
Lemma record_event_same e : steps same_swap (record_event (D := D) e).
Proof. done. Qed.
Lemma read_swap_same {A} (f : OngoingSwapState -> A) : steps same_swap (read_swap (D := D) f).
Proof. intros t. by rewrite read_swap_run. Qed.
Lemma write_wallet_same : steps same_swap (write_wallet (D := D)).
Proof. done. Qed.
#[local] Hint Resolve on_wallet_same record_event_same read_swap_same write_wallet_same same_swap_preorder : steps.
Lemma send_funding_same : steps same_swap (send_funding (D := D)).
Proof.
  unfold send_funding, is_alive, store_outgoing, set_store, save_wallet, broadcast_coin, send_tx, on_chain. take_steps.
Qed.

Lemma fund_first_hop_safe i t : safe t -> Forall refund_ready (outgoing_of t) -> safe (fund_first_hop i t).2.
Proof.
  intros (Hp & Ho & Hnd) Hr. unfold fund_first_hop. rewrite run_bind.
  pose proof (send_funding_protected t Hp Hr Hnd) as Hp1. pose proof (send_funding_same t) as Hs1.
  assert (safe (send_funding t).2) as Hsafe by (split; [done|]; unfold contract_ids, outgoing_of; by rewrite Hs1).
  destruct (send_funding t) as [[[]|e|] t1]; try done. cbn in Hsafe. revert Hsafe.
  match goal with |- _ -> safe (?m t1).2 => enough (steps keeps_safe m) as H by apply H end. take_steps.
Qed.

Lemma open_first_hop_safe i a id l vars : steps keeps_safe (open_first_hop (D := D) i a id l vars).
Proof.
  intros t Hs. unfold open_first_hop. rewrite run_bind. destruct (sign_first_hop i a id l t) as [r t1] eqn:E.
  apply sign_first_hop_safe in E as [Hs1 Hready]; [|done]. destruct r as [[]|e|]; try done.
  case_match; [done|]. rewrite run_bind. pose proof (fund_first_hop_safe i t1 Hs1 (Hready eq_refl)) as Hs2.
  by destruct (fund_first_hop i t1) as [[h|e|] t2].
Qed.
#[local] Hint Resolve open_first_hop_safe collect_sender_sigs_safe : steps.

Lemma exchange_hop_safe n tx id i vars : steps keeps_safe (exchange_hop (D := D) n tx id i vars).
Proof. unfold exchange_hop. take_steps. Qed.
#[local] Hint Resolve exchange_hop_safe : steps.

Lemma exchange_loop_safe fuel n tx id : forall i vars, steps keeps_safe (exchange_loop (D := D) fuel n tx id i vars).
Proof. induction fuel as [|fuel IH]; intros i vars; cbn [exchange_loop]; take_steps. Qed.

(** The incoming coins are no concern of the invariant. *)
Lemma set_incoming_safe (f : OngoingSwapState -> list IncomingSwapCoin) :
  steps keeps_safe (set_swap (D := D) (fun s => {| s with os_incoming_swapcoins := f s |})).
Proof.
  intros t [Hp Ho]. rewrite set_swap_run. unfold safe, contract_ids, outgoing_of in *.
  destruct (tk_ongoing_swap t) as [s|] eqn:E; cbn; rewrite ?E; done.
Qed.
Definition sans_incoming (s : OngoingSwapState) : OngoingSwapState := {| s with os_incoming_swapcoins := [] |}.
Lemma stamp_targets_keeps spk (s : TakerSt) : sans_incoming <$> (payment_stamp_targets spk s).2 = sans_incoming <$> s.
Proof.
  unfold payment_stamp_targets, swap_state. destruct s as [swap|]; [|done].
  destruct (os_payment swap) as [p|]; [|done]. cbv zeta. set (sp := stamp_coins _ _ _ _). destruct sp as [r coins].
  unfold swap_state_mut, swap_state, lift, reject, modify, mbind, stateful_bind.
  repeat (case_match; simplify_eq/=; try done).
Qed.
Lemma stamp_targets_safe : steps keeps_safe (on_swap (D := D) (payment_stamp_targets to_address_script)).
Proof.
  intros t [Hp Ho]. unfold on_swap. pose proof (stamp_targets_keeps to_address_script (tk_ongoing_swap t)) as Hk.
  destruct (payment_stamp_targets _ _) as [r s']. split; [done|]. unfold contract_ids, outgoing_of in *. cbn in *.
  destruct s' as [s'|], (tk_ongoing_swap t) as [s|]; try done. injection Hk. intros. congruence.
Qed.
#[local] Hint Resolve set_incoming_safe stamp_targets_safe exchange_loop_safe : steps.

Lemma collect_incoming_safe n id vars infos : steps keeps_safe (collect_incoming (D := D) n id vars infos).
Proof. unfold collect_incoming, push_incoming. take_steps. Qed.
#[local] Hint Resolve collect_incoming_safe : steps.

Lemma exchange_legacy_safe : steps keeps_safe (exchange_legacy (D := D)).
Proof. unfold exchange_legacy. take_steps. Qed.

End funding.
