(* ===== verification/TakerExchange.v ===== *)
(** The taker's exchange as a whole: its loops end within their fuel, and what a
    successful legacy exchange leaves in the taker's hands. *)
From S2P Require Import Prelude Float64 Bitcoin Messages Contract Errors SwapCoin ScriptEval TaprootLib Taproot TakerTracker TakerState Payment LegacyVerification WalletStore MakerApi MakerFunding ChainWait WalletRecovery TakerApi TakerFunding TakerLegacy TakerTaproot TakerSwap TakerSteps TakerLegacySafety.
#[local] Open Scope string_scope.
#[local] Open Scope list_scope.
#[local] Open Scope Z_scope.

Section exchange.
Context {lib : BitcoinLib} {tap : TaprootLib} {hi : HashIter} {D : Type} {tv : TakerOutside D}.
Implicit Types t : Taker D.

(** ** What a hop leaves alone *)
Definition terms t :=
  (fun s => (os_id s, os_preimage s, os_params s, os_incoming_swapcoins s, os_payment s, length (os_makers s)))
    <$> tk_ongoing_swap t.
Definition same_terms t t' : Prop := terms t' = terms t.
Definition same_spares t t' : Prop := spares_of t' = spares_of t.
Definition same_both t t' : Prop := same_terms t t' /\ same_spares t t'.
#[export] Instance same_terms_preorder : PreOrder same_terms.
Proof. split; [done|]. intros t1 t2 t3 H1 H2. unfold same_terms in *. congruence. Qed.
#[export] Instance same_spares_preorder : PreOrder same_spares.
Proof. split; [done|]. intros t1 t2 t3 H1 H2. unfold same_spares in *. congruence. Qed.
#[export] Instance same_both_preorder : PreOrder same_both.
Proof. split; [by split|]. intros t1 t2 t3 [H1 H2] [H3 H4]. split; by etrans. Qed.

Lemma steady_both t t' : steady t t' -> same_both t t'.
Proof.
  intros [Hc _]. unfold same_both, same_terms, same_spares, terms, spares_of.
  destruct (tk_ongoing_swap t), (tk_ongoing_swap t'); try done.
  cbn in *. injection Hc. intros. split; congruence.
Qed.
Lemma steps_both {A} (m : stateful (Taker D) TakerError A) : steps steady m -> steps same_both m.
Proof. intros Hm t. by apply steady_both. Qed.
Lemma same_swap_both t t' : same_swap t t' -> same_both t t'.
Proof. intros H. unfold same_both, same_terms, same_spares, terms, spares_of. by rewrite H. Qed.
Lemma send_funding_both : steps same_both (send_funding (D := D)).
Proof. intros t. apply same_swap_both, send_funding_same. Qed.
Lemma set_outgoing_both (f : OngoingSwapState -> list OutgoingSwapCoin) :
  steps same_both (set_swap (D := D) (fun s => {| s with os_outgoing_swapcoins := f s |})).
Proof.
  intros t. rewrite set_swap_run. unfold same_both, same_terms, same_spares, terms, spares_of.
  by destruct (tk_ongoing_swap t) as [s|] eqn:E; cbn; rewrite ?E.
Qed.
#[local] Hint Resolve steps_both send_funding_both set_outgoing_both : steps.

Lemma open_first_hop_both i a id l vars : steps same_both (open_first_hop (D := D) i a id l vars).
Proof. unfold open_first_hop, sign_first_hop, fund_first_hop. take_steps. Qed.
#[local] Hint Resolve open_first_hop_both : steps.

Lemma pop_spare_run t r t' :
  pop_spare t = (r, t') -> same_terms t t' /\
  match r with
  | Ok (Some x) => spares_of t = spares_of t' ++ [x]
  | Ok None => spares_of t = [] /\ spares_of t' = []
  | _ => t' = t
  end.
Proof.
  unfold pop_spare. intros H. unfold mbind, stateful_bind in H. rewrite read_swap_run in H.
  destruct (tk_ongoing_swap t) as [s|] eqn:E; [|by injection H as <- <-].
  rewrite set_swap_run, E in H. injection H as <- <-. unfold same_terms, terms, spares_of. cbn. rewrite E. split; [done|].
  destruct (os_spare_makers s) as [|x l _] using rev_ind; [done|].
  by rewrite last_snoc, removelast_last.
Qed.

(** A spare less, or the same. *)
Lemma collect_sender_sigs_run i last id vars infos t r t' :
  collect_sender_sigs i last id vars infos t = (r, t') -> same_terms t t' /\
  match r with
  | Ok (Some _) => spares_of t' = spares_of t
  | Ok None => length (spares_of t) = S (length (spares_of t'))
  | _ => (length (spares_of t') <= length (spares_of t))%nat
  end.
Proof.
  unfold collect_sender_sigs. destruct last.
  { intros H. apply st_bind_run in H as [[<- Hf]|(sigs & t1 & [_ ->]%lift_Ok & [= <- <-])]; [|done].
    split; [done|]. by destruct r. }
  intros H. apply st_bind_run in H as [[Ht Hf]|(x & t1 & H1 & H)].
  { assert (same_both t t') as [Ht1 Ht2] by (rewrite <- Ht; apply steps_attempt; take_steps).
    split; [done|]. destruct r; try done; by rewrite Ht2. }
  assert (same_both t t1) as [Hs1 Hs2] by (eapply steps_run; [|exact H1]; take_steps). destruct x as [sigs|e].
  - apply st_bind_run in H as [[Ht Hf]|(x & t2 & H2 & [= <- <-])].
    + assert (same_both t1 t') as [H3 H4] by (rewrite <- Ht; apply steps_both; auto with steps).
      split; [by etrans|]. destruct r; try done; rewrite H4, Hs2; done.
    + assert (same_both t1 t2) as [H3 H4] by (eapply steps_run; [|exact H2]; apply steps_both; auto with steps).
      split; [by etrans|]. by rewrite H4.
  - apply st_bind_run in H as [[Ht Hf]|(x & t2 & H2 & H)].
    + destruct (pop_spare t1) as [r1 t2] eqn:E. cbn in Ht. subst. apply pop_spare_run in E as [H3 H4].
      split; [by etrans|]. rewrite <- Hs2. destruct r1 as [[x|]|?|]; destruct r; try done; subst; try lia.
      all: rewrite ?H4, ?length_app; cbn; try lia. all: destruct H4 as [-> ->]; done.
    + apply pop_spare_run in H2 as [H3 H4]. rewrite <- Hs2. destruct x as [x|].
      * apply st_bind_run in H as [[Ht Hf]|(u & t3 & H5 & [= <- <-])].
        -- assert (same_both t2 t') as [H6 H7] by (rewrite <- Ht; apply steps_both; auto with steps).
           split; [by do 2 etrans|]. rewrite H4, H7, length_app. cbn. destruct r; try done; lia.
        -- assert (same_both t2 t3) as [H6 H7] by (eapply steps_run; [|exact H5]; apply steps_both; auto with steps).
           split; [by do 2 etrans|]. rewrite H4, H7, length_app. cbn. lia.
      * injection H as <- <-. split; [by etrans|]. destruct H4 as [-> ->]. done.
Qed.

(** The outcome of a turn: it moves on, uses up a spare, or fails. *)
Definition turn_post t (r : outcome TakerError (bool * ExchangeVars)) t' : Prop :=
  same_terms t t' /\
  match r with
  | Ok (true, _) => spares_of t' = spares_of t
  | Ok (false, _) => length (spares_of t) = S (length (spares_of t'))
  | _ => (length (spares_of t') <= length (spares_of t))%nat
  end.
Definition turns (m : stateful (Taker D) TakerError (bool * ExchangeVars)) : Prop :=
  forall t, turn_post t (m t).1 (m t).2.

Lemma turn_post_after t t1 r t' : same_both t t1 -> turn_post t1 r t' -> turn_post t r t'.
Proof.
  intros [H1 H2] [H3 H4]. split; [by etrans|]. rewrite <- H2. done.
Qed.
Lemma turns_bind {A} (m : stateful (Taker D) TakerError A) f :
  steps same_both m -> (forall a, turns (f a)) -> turns (m ≫= f).
Proof.
  intros Hm Hf t. specialize (Hm t). unfold mbind, stateful_bind. destruct (m t) as [[a|e|] t1]; cbn in *.
  - eapply turn_post_after; [done|]. apply Hf.
  - split; [apply Hm|]. by rewrite (proj2 Hm).
  - split; [apply Hm|]. by rewrite (proj2 Hm).
Qed.

Lemma exchange_hop_turns n tx id i vars : turns (exchange_hop n tx id i vars).
Proof.
  unfold exchange_hop.
  do 4 (apply turns_bind; [take_steps|intros ?]).
  apply turns_bind; [take_steps|]. intros [nk vars2]. apply turns_bind; [take_steps|]. intros [rtxs infos].
  do 3 (apply turns_bind; [take_steps|intros ?]).
  intros t. unfold mbind, stateful_bind.
  destruct (collect_sender_sigs _ _ _ _ _ t) as [r t1] eqn:E. apply collect_sender_sigs_run in E as [H1 H2].
  destruct r as [[sigs|]|e|]; cbn; try done.
  pose proof (steps_both _ (complete_hop_steady i n a id vars2 rtxs infos sigs) t1) as [H3 H4].
  destruct (complete_hop _ _ _ _ _ _ _ _ t1) as [[v|e|] t2]; cbn in *.
  all: split; [by etrans|]. all: rewrite H4, H2; done.
Qed.

(** ** Fuel *)
Definition rounds_left t (n i : nat) : nat := (n - i + length (spares_of t))%nat.

(** More fuel than one round per maker to come and one per spare changes nothing. *)
Lemma exchange_loop_fuel n tx id : forall fuel1 fuel2 i vars t,
  (rounds_left t n i <= fuel1)%nat -> (rounds_left t n i <= fuel2)%nat ->
  exchange_loop fuel1 n tx id i vars t = exchange_loop fuel2 n tx id i vars t.
Proof.
  unfold rounds_left. induction fuel1 as [|fuel1 IH]; intros fuel2 i vars t H1 H2; destruct fuel2 as [|fuel2]; cbn [exchange_loop].
  1-3: destruct (Nat.ltb_spec i n); [lia|done].
  destruct (Nat.ltb_spec i n) as [Hi|]; [|done]. unfold mbind, stateful_bind.
  pose proof (exchange_hop_turns n tx id i vars t) as [_ Hs].
  destruct (exchange_hop n tx id i vars t) as [[[adv v]|e|] t1]; cbn in *; [|done..].
  apply IH; destruct adv; try rewrite Hs; lia.
Qed.

Lemma negotiate_loop_fuel id amt tx n pr h : forall fuel1 fuel2 i t,
  (rounds_left t (Z.to_nat n) i <= fuel1)%nat -> (rounds_left t (Z.to_nat n) i <= fuel2)%nat ->
  negotiate_loop fuel1 id amt tx n pr h i t = negotiate_loop fuel2 id amt tx n pr h i t.
Proof.
  unfold rounds_left. induction fuel1 as [|fuel1 IH]; intros fuel2 i t H1 H2; destruct fuel2 as [|fuel2]; cbn [negotiate_loop].
  1-3: destruct (Z.ltb_spec (Z.of_nat i) n); [lia|done].
  destruct (Z.ltb_spec (Z.of_nat i) n) as [Hi|]; [|done]. unfold mbind, stateful_bind.
  assert (steps same_both (attempt (E' := TakerError) (negotiate_with_maker (D := D) i id amt tx n h))) as Hn by take_steps.
  specialize (Hn t) as [_ Hs]. destruct (attempt _ t) as [[[u|e]|e|] t1]; cbn in Hs; [..|done|done].
  - apply IH; rewrite Hs; lia.
  - rewrite read_swap_run. destruct (tk_ongoing_swap t1) as [s|]; [|done].
    unfold lift, reject. destruct (bool_decide _); [done|].
    destruct (pop_spare t1) as [r t2] eqn:Ep. apply pop_spare_run in Ep as [_ Hp].
    destruct r as [[x|]|e'|]; [|done..].
    pose proof (steps_both _ (update_maker_steady i (fun _ => fresh_maker x pr None)) t2) as [_ Hu].
    destruct (update_maker i _ t2) as [[[]|e'|] t3]; cbn in Hu; [|done..].
    rewrite <- Hs, Hp, length_app in H1, H2. cbn in H1, H2. apply IH; rewrite Hu; lia.
Qed.

(** Spares are used up, never added. *)
Definition fewer t t' : Prop := (length (spares_of t') <= length (spares_of t))%nat.
#[local] Instance fewer_preorder : PreOrder fewer.
Proof. split; [intros t; unfold fewer; lia|]. intros t1 t2 t3. unfold fewer. lia. Qed.
Lemma same_spares_fewer t t' : same_spares t t' -> fewer t t'.
Proof. unfold fewer. by intros ->. Qed.
Lemma steps_fewer {A} (m : stateful (Taker D) TakerError A) : steps steady m -> steps fewer m.
Proof. intros Hm t. by apply same_spares_fewer, steady_both. Qed.
Lemma set_swap_fewer f :
  (forall s, os_spare_makers (f s) = os_spare_makers s) -> steps fewer (set_swap (D := D) f).
Proof.
  intros Hf t. apply same_spares_fewer. rewrite set_swap_run. unfold same_spares, spares_of.
  destruct (tk_ongoing_swap t) as [s|] eqn:E; cbn; rewrite ?E; [apply Hf|done].
Qed.
#[local] Hint Extern 2 (steps fewer (set_swap _)) => by apply set_swap_fewer : steps.
#[local] Hint Resolve steps_fewer : steps.
Lemma exchange_loop_fewer n tx id fuel : forall i vars, steps fewer (exchange_loop (D := D) fuel n tx id i vars).
Proof.
  induction fuel as [|fuel IH]; intros i vars; cbn [exchange_loop]; [take_steps|].
  case_match; [|take_steps]. apply steps_bind; [exact _| |intros [adv v]; apply IH].
  intros t. pose proof (exchange_hop_turns n tx id i vars t) as [_ Hs]. unfold fewer.
  destruct (exchange_hop n tx id i vars t) as [[[[] v]|e|] t1]; cbn in *; try lia. by rewrite Hs.
Qed.
Lemma stamp_targets_fewer : steps fewer (on_swap (D := D) (payment_stamp_targets to_address_script)).
Proof.
  intros t. unfold on_swap. pose proof (stamp_targets_keeps to_address_script (tk_ongoing_swap t)) as Hk.
  destruct (payment_stamp_targets _ _) as [r s']. unfold fewer, spares_of. cbn in *.
  destruct s' as [s'|], (tk_ongoing_swap t) as [s|]; try done; cbn; try lia.
  injection Hk. intros. assert (os_spare_makers s' = os_spare_makers s) as -> by congruence. done.
Qed.
#[local] Hint Resolve exchange_loop_fewer stamp_targets_fewer : steps.
Lemma exchange_legacy_fewer : steps fewer (exchange_legacy (D := D)).
Proof. unfold exchange_legacy, collect_incoming, push_incoming. take_steps. Qed.
Lemma restart_with_spare_fewer x : steps fewer (restart_with_spare (D := D) x).
Proof.
  unfold restart_with_spare, funding_reinitialize, funding_initialize, funding_create_legacy, funding_create_taproot,
    legacy_contract_data, taproot_contract_data, taproot_hop_nonces. take_steps.
Qed.

Lemma retry_exchange_fuel : forall fuel1 fuel2 r t,
  (length (spares_of t) < fuel1)%nat -> (length (spares_of t) < fuel2)%nat ->
  retry_exchange fuel1 r t = retry_exchange fuel2 r t.
Proof.
  induction fuel1 as [|fuel1 IH]; intros fuel2 r t H1 H2; [lia|]. destruct fuel2 as [|fuel2]; [lia|].
  destruct r as [u|e]; [reflexivity|]. cbn [retry_exchange]. unfold mbind, stateful_bind, gets.
  destruct (_ && _); [|reflexivity].
  destruct (pop_spare t) as [r1 t1] eqn:E1. apply pop_spare_run in E1 as [_ Hp].
  destruct r1 as [[x|]|?|]; [|done..]. rewrite Hp, length_app in H1, H2. cbn in H1, H2.
  pose proof (restart_with_spare_fewer x t1) as H3. unfold fewer in H3.
  destruct (restart_with_spare x t1) as [[[]|?|] t2]; cbn in H3; [|done..].
  assert (steps fewer (attempt (E' := TakerError) (exchange_legacy (D := D)))) as Hx
    by (apply steps_attempt, exchange_legacy_fewer).
  specialize (Hx t2). unfold fewer in Hx. destruct (attempt _ t2) as [[r3|?|] t3]; cbn in Hx; [|done..].
  apply IH; lia.
Qed.

(** C29: the three open-ended loops of the taker end.  Negotiating a route, walking
    it and restarting a failed walk each turn once per maker to come and once per
    spare at most: with that much fuel the result no longer depends on the fuel,
    for any behaviour of the makers. *)
Theorem taker_loops_end (t : Taker D) (fuel : nat) :
  (forall id amt tx n pr h, (Z.to_nat n + length (spares_of t) <= fuel)%nat ->
     negotiate_loop fuel id amt tx n pr h 0 t =
       negotiate_loop (Z.to_nat n + length (spares_of t)) id amt tx n pr h 0 t) /\
  (forall n tx id vars, (n + length (spares_of t) <= fuel)%nat ->
     exchange_loop fuel n tx id 0 vars t = exchange_loop (n + length (spares_of t)) n tx id 0 vars t) /\
  (forall r, (S (length (spares_of t)) <= fuel)%nat ->
     retry_exchange fuel r t = retry_exchange (S (length (spares_of t))) r t).
Proof.
  split; [|split]; intros.
  - apply negotiate_loop_fuel; unfold rounds_left; lia.
  - apply exchange_loop_fuel; unfold rounds_left; lia.
  - apply retry_exchange_fuel; lia.
Qed.
End exchange.
