(* ===== verification/TakerCoins.v ===== *)
(** What a successful legacy exchange leaves in the taker's hands: the coins of
    the last hop, what backs them, and two ways in which they can be worth less
    than they look. *)
From S2P Require Import Prelude Float64 Bitcoin Messages Contract Errors SwapCoin ScriptEval TaprootLib Taproot TakerTracker TakerState Payment LegacyVerification WalletStore MakerApi MakerFunding ChainWait WalletRecovery TakerApi TakerFunding TakerLegacy TakerTaproot TakerSwap TakerSteps TakerLegacySafety TakerExchange.
#[local] Open Scope string_scope.
#[local] Open Scope list_scope.
#[local] Open Scope Z_scope.

Section coins.
Context {lib : BitcoinLib} {laws : BitcoinLaws lib} {tap : TaprootLib} {hi : HashIter} {D : Type} {tv : TakerOutside D}.
Implicit Types t : Taker D.

(** ** The last hop *)
Lemma repeat_op_Ok {S E A} (P : A -> Prop) (f : stateful S E A) n : forall s xs s',
  (forall s x s', f s = (Ok x, s') -> P x) -> repeat_op f n s = (Ok xs, s') -> length xs = n /\ Forall P xs.
Proof.
  induction n as [|n IH]; intros s xs s' Hf; cbn [repeat_op].
  - by intros [= <- <-].
  - intros H. apply st_bind_Ok in H as (x & s1 & Hx & H). apply st_bind_Ok in H as (ys & s2 & Hys & [= <- <-]).
    destruct (IH _ _ _ Hf Hys) as [<- Hall]. split; [done|]. constructor; [by eapply Hf|done].
Qed.

(** The keys the taker sends for the last hop are those of the private keys it keeps. *)
Lemma last_keys_Ok i tx vars t nk vars' t' :
  next_hop_keys i true tx vars t = (Ok (nk, vars'), t') ->
  exists mks hks, xv_taker_multisig_privkeys vars' = Some mks /\ xv_taker_hashlock_privkeys vars' = Some hks /\
    length mks = Z.to_nat tx /\ length hks = Z.to_nat tx /\
    nk_multisig_pubkeys nk = map pubkey_of mks /\ nk_hashlock_pubkeys nk = map pubkey_of hks.
Proof.
  unfold next_hop_keys. intros H. apply st_bind_Ok in H as (keys & t1 & Hk & [= <- <- <-]). cbn.
  apply (repeat_op_Ok (fun k => k.1.1.1.1 = pubkey_of k.1.1.1.2 /\ k.1.1.2 = pubkey_of k.1.2)) in Hk as [<- Hall].
  - do 2 eexists. split; [done|]. split; [done|]. rewrite !length_map. split; [done|]. split; [done|].
    induction Hall as [|k keys [H1 H2] Hall [IH1 IH2]]; [done|]. cbn. rewrite H1, H2, IH1, IH2. done.
  - intros s k s' Hr. unfold last_hop_key, generate_keypair in Hr.
    apply st_bind_Ok in Hr as ([mp mk] & s1 & Hm & Hr). apply st_bind_Ok in Hm as (k1 & ? & _ & [= <- <- <-]).
    apply st_bind_Ok in Hr as ([hp hk] & s2 & Hh & Hr). apply st_bind_Ok in Hh as (k2 & ? & _ & [= <- <- <-]).
    apply st_bind_Ok in Hr as (n & s3 & _ & [= <- <-]). done.
Qed.

Lemma send_proof_Ok a id i hf nk l t rtxs infos t' :
  exchange_send_proof_of_funding a id i hf nk l t = (Ok (rtxs, infos), t') ->
  exists expected, verify_maker_sender_contracts (tk_ongoing_swap t') infos (nk_multisig_pubkeys nk)
                     (nk_hashlock_pubkeys nk) l expected = Ok ().
Proof.
  unfold exchange_send_proof_of_funding. intros H. do 3 apply st_bind_Ok in H as (? & ? & _ & H).
  case_match; try discriminate H. apply st_bind_Ok in H as (ex & t1 & _ & H).
  apply st_bind_Ok in H as (s & t2 & [= <- <-] & H). apply st_bind_Ok in H as ([] & t3 & [Hv ->]%lift_Ok & H).
  apply st_bind_Ok in H as ([] & t4 & [_ ->]%lift_Ok & [= <- <- <-]). by exists ex.
Qed.

Lemma complete_hop_Ok i n a id vars rtxs infos sigs t vars' t' :
  complete_hop i n a id vars rtxs infos sigs t = (Ok vars', t') ->
  xv_prev_senders_info vars' = Some infos /\
  xv_taker_multisig_privkeys vars' = xv_taker_multisig_privkeys vars /\
  xv_taker_hashlock_privkeys vars' = xv_taker_hashlock_privkeys vars.
Proof.
  unfold complete_hop. cbv zeta. intros H. do 13 apply st_bind_Ok in H as (? & ? & _ & H). by injection H as <- <-.
Qed.

(** The preimage and the number of contracts per hop. *)
Definition deal_of t : option (Preimage * Z) :=
  (fun s => (os_preimage s, swp_tx_count (os_params s))) <$> tk_ongoing_swap t.

(** What the variables hold once the last maker has been walked. *)
Definition last_hop (deal : Preimage * Z) (tx_count : Z) (vars : ExchangeVars) : Prop :=
  exists infos mks hks l s,
    xv_prev_senders_info vars = Some infos /\ xv_taker_multisig_privkeys vars = Some mks /\
    xv_taker_hashlock_privkeys vars = Some hks /\ length mks = Z.to_nat tx_count /\ length hks = Z.to_nat tx_count /\
    os_preimage s = deal.1 /\ zlen infos = deal.2 /\
    forall k info, infos !! k = Some info -> sender_contract_bound s (map pubkey_of mks) (map pubkey_of hks) l k info.

Lemma same_terms_deal t t' : same_terms t t' -> deal_of t' = deal_of t.
Proof.
  unfold same_terms, terms, deal_of. intros H. destruct (tk_ongoing_swap t), (tk_ongoing_swap t'); try done.
  cbn in *. injection H. congruence.
Qed.

Lemma exchange_hop_last n tx id i vars t adv vars' t' :
  S i = n -> exchange_hop n tx id i vars t = (Ok (adv, vars'), t') ->
  adv = true /\ exists p, deal_of t' = Some p /\ last_hop p tx vars'.
Proof.
  intros Hi Hrun. unfold exchange_hop in Hrun. rewrite (proj2 (Nat.eqb_eq _ _) Hi) in Hrun.
  apply st_bind_Ok in Hrun as (? & ? & _ & Hrun). apply st_bind_Ok in Hrun as (m & ? & _ & Hrun).
  apply st_bind_Ok in Hrun as (? & ? & _ & Hrun). apply st_bind_Ok in Hrun as (v1 & t4 & _ & Hrun).
  apply st_bind_Ok in Hrun as ([nk v2] & t5 & (mks & hks & Hm & Hh & Lm & Lh & Nm & Nh)%last_keys_Ok & Hrun).
  apply st_bind_Ok in Hrun as ([rtxs infos] & t6 & (ex & Hver)%send_proof_Ok & Hrun).
  rewrite Nm, Nh in Hver. apply maker_sender_contracts_Ok in Hver as (s & Hs & Hlen & Hall).
  apply st_bind_Ok in Hrun as (? & t7 & H7 & Hrun). apply st_bind_Ok in Hrun as (? & t8 & H8 & Hrun).
  apply st_bind_Ok in Hrun as (? & t9 & H9 & Hrun). unfold collect_sender_sigs in Hrun.
  apply st_bind_Ok in Hrun as (sg & t10 & H10 & Hrun).
  apply st_bind_Ok in H10 as (sg' & t10' & [_ ->]%lift_Ok & [= <- <-]).
  apply st_bind_Ok in Hrun as (v3 & t11 & H11 & [= <- <- <-]). split; [done|].
  assert (steady t6 t11) as Hst.
  { pose proof (steps_run _ _ _ _ _ (update_legacy_steady _ _) H7). pose proof (steps_run _ _ _ _ _ persist_progress_steady H8).
    pose proof (steps_run _ _ _ _ _ (check_receiver_txids_steady _ _ _) H9).
    pose proof (steps_run _ _ _ _ _ (complete_hop_steady _ _ _ _ _ _ _ _) H11). by repeat (etrans; [eassumption|]). }
  apply steady_both in Hst as [Hst%same_terms_deal _]. unfold deal_of in Hst at 2. rewrite Hs in Hst.
  exists (os_preimage s, swp_tx_count (os_params s)). split; [exact Hst|]. apply complete_hop_Ok in H11 as (P1 & P2 & P3).
  exists infos, mks, hks, (wrap 16 (mc_negotiated_timelock m)), s. rewrite P2, P3. by repeat (split; [done|]).
Qed.

Lemma exchange_loop_last n tx id : forall fuel i vars t vars' t',
  (i < n)%nat -> exchange_loop fuel n tx id i vars t = (Ok vars', t') ->
  same_terms t t' /\ exists p, deal_of t' = Some p /\ last_hop p tx vars'.
Proof.
  induction fuel as [|fuel IH]; intros i vars t vars' t' Hi; cbn [exchange_loop];
    rewrite (proj2 (Nat.ltb_lt _ _) Hi); [done|]. intros H.
  apply st_bind_Ok in H as ([adv v1] & t1 & H1 & H).
  pose proof (exchange_hop_turns n tx id i vars t) as [Ht1 _]. rewrite H1 in Ht1. cbn in Ht1.
  destruct (decide (S i = n)) as [Hl|Hl].
  - apply exchange_hop_last in H1 as [-> Hp]; [|done]. 
    assert (exchange_loop fuel n tx id (S i) v1 t1 = (Ok v1, t1)) as He.
    { destruct fuel; cbn [exchange_loop]; rewrite (proj2 (Nat.ltb_ge _ _)) by lia; done. }
    rewrite He in H. injection H as <- <-. done.
  - apply IH in H as [Ht2 Hp]; [split; [by etrans|done]|]. destruct adv; lia.
Qed.

(** ** The coins of the last hop *)
Lemma push_incoming_Ok id p : forall ps t t',
  st_for_each (push_incoming id) ps t = (Ok (), t') -> deal_of t = Some p ->
  deal_of t' = Some p /\ exists cs, incoming_of t' = incoming_of t ++ cs /\
    Forall2 (fun x c => incoming_coin id p.1 x.1 x.2.1 x.2.2 = Ok c) ps cs.
Proof.
  induction ps as [|x ps IH]; intros t t' Hrun Hp; cbn [st_for_each] in Hrun.
  { injection Hrun as <-. split; [done|]. exists []. by rewrite app_nil_r. }
  apply st_bind_Ok in Hrun as ([] & t1 & H1 & Hrun). unfold push_incoming in H1.
  unfold deal_of in Hp. destruct (tk_ongoing_swap t) as [s|] eqn:Es; [|done]. injection Hp as Hp.
  erewrite st_bind_step in H1 by (rewrite read_swap_run, Es; reflexivity).
  apply st_bind_Ok in H1 as (c & t2 & [Hc ->]%lift_Ok & H1). rewrite set_swap_run, Es in H1. injection H1 as <-.
  change (os_preimage s) with (os_preimage s, swp_tx_count (os_params s)).1 in Hc. rewrite Hp in Hc.
  apply IH in Hrun as (Hp' & cs & Hin & Hall); [|unfold deal_of; cbn; by rewrite Hp].
  split; [done|]. exists (c :: cs). split; [|by constructor].
  rewrite Hin. unfold incoming_of. cbn. rewrite Es. by rewrite <- app_assoc.
Qed.

(** Stamping a payment changes nothing but the target. *)
Definition with_target (tgt : option PaymentTarget) (c : IncomingSwapCoin) : IncomingSwapCoin :=
  {| c with isc_payment_target := tgt |}.
Definition retargeted (c c' : IncomingSwapCoin) : Prop := exists tgt, c' = with_target tgt c.
Lemma retargeted_refl c : retargeted c c.
Proof. exists (isc_payment_target c). by destruct c. Qed.
Lemma stamp_coins_retargets script share coins : forall total,
  Forall2 retargeted coins (stamp_coins script share total coins).2.
Proof.
  assert (forall cs, Forall2 retargeted cs cs) as Hrefl by (induction cs; constructor; [apply retargeted_refl|done]).
  induction coins as [|c coins IH]; intros total; cbn [stamp_coins]; [done|].
  destruct (checked_sub _ _) as [sats|]; [|apply Hrefl]. destruct (_ <=? _); [|apply Hrefl].
  specialize (IH (wrap 64 (total + sats))). destruct (stamp_coins _ _ _ coins) as [r cs]. constructor; [|done].
  by eexists.
Qed.
Lemma stamp_targets_Ok t t' :
  on_swap (payment_stamp_targets to_address_script) t = (Ok (), t') ->
  deal_of t' = deal_of t /\ Forall2 retargeted (incoming_of t) (incoming_of t').
Proof.
  intros H. pose proof (stamp_targets_keeps to_address_script (tk_ongoing_swap t)) as Hk. unfold on_swap in H.
  assert (forall cs, Forall2 retargeted cs cs) as Hrefl by (induction cs; constructor; [apply retargeted_refl|done]).
  destruct (payment_stamp_targets _ _) as [r s'] eqn:E. injection H as -> <-. cbn in Hk.
  unfold deal_of, incoming_of. cbn. split.
  { destruct s', (tk_ongoing_swap t); try done. cbn in *. injection Hk. congruence. }
  unfold payment_stamp_targets, swap_state in E. destruct (tk_ongoing_swap t) as [swap|]; [|by injection E as _ <-].
  destruct (os_payment swap) as [p|]; [|injection E as <-; apply Hrefl].
  apply st_bind_Ok in E as ([] & s1 & [_ ->]%lift_Ok & E). apply st_bind_Ok in E as ([] & s2 & [_ ->]%lift_Ok & E).
  pose proof (stamp_coins_retargets (to_address_script (pq_address p))
    (pq_settlement_budget p / zlen (os_incoming_swapcoins swap)) (os_incoming_swapcoins swap) 0) as Hst.
  destruct (stamp_coins _ _ _ _) as [r cs]. cbn in Hst.
  apply st_bind_Ok in E as ([] & s3 & [= <-] & E). apply st_bind_Ok in E as (total & s4 & [_ ->]%lift_Ok & E).
  apply lift_Ok in E as [_ ->]. exact Hst.
Qed.

(** The saved wallet holds the coins. *)
Lemma stored_incoming_lookup cs w c :
  c ∈ cs -> exists c', c' ∈ cs /\ compute_txid (isc_contract_tx c') = compute_txid (isc_contract_tx c) /\
    wst_incoming_swapcoins (fold_left (fun w c => add_incoming_swapcoin c w) cs w)
      !! compute_txid (isc_contract_tx c) = Some c'.
Proof.
  revert w. induction cs as [|c0 cs IH] using rev_ind; intros w Hc; [by apply elem_of_nil in Hc|].
  rewrite fold_left_app. cbn. destruct (decide (compute_txid (isc_contract_tx c0) = compute_txid (isc_contract_tx c))) as [He|He].
  - exists c0. split; [set_solver|]. split; [done|]. by rewrite He, lookup_insert_eq.
  - apply elem_of_app in Hc as [Hc|Hc]; [|set_solver].
    destruct (IH w Hc) as (c' & H1 & H2 & H3). exists c'. split; [set_solver|]. split; [done|].
    by rewrite lookup_insert_ne.
Qed.

Definition saved_incoming (cs : list IncomingSwapCoin) (tr : list TakerEvent) : Prop :=
  exists store, EvSaved store ∈ tr /\ forall c, c ∈ cs -> exists c', c' ∈ cs /\
    compute_txid (isc_contract_tx c') = compute_txid (isc_contract_tx c) /\
    wst_incoming_swapcoins store !! compute_txid (isc_contract_tx c) = Some c'.

Lemma store_incoming_run cs : forall t,
  st_for_each (fun c => set_store (add_incoming_swapcoin c)) cs t =
    (Ok (), {| t with tk_wallet := {| (tk_wallet t) with wl_store :=
       fold_left (fun w c => add_incoming_swapcoin c w) cs (wl_store (tk_wallet t)) |} |}).
Proof.
  induction cs as [|c cs IH]; intros t; [by destruct t as [? [??] ? ? ? ? ? ?]|].
  cbn [st_for_each]. erewrite st_bind_step by reflexivity. by rewrite IH.
Qed.

Lemma persist_incoming_Ok t t' :
  persist_incoming_swapcoins t = (Ok (), t') -> saved_incoming (incoming_of t) (tk_trace t').
Proof.
  unfold persist_incoming_swapcoins. intros H. apply st_bind_Ok in H as (cs & t1 & H1 & H).
  rewrite read_swap_run in H1. unfold incoming_of. destruct (tk_ongoing_swap t) as [s|] eqn:Es; [|done]. injection H1 as <- <-.
  apply st_bind_Ok in H as ([] & t1 & [= _ <-] & H).
  erewrite st_bind_step in H by apply store_incoming_run.
  apply save_wallet_run in H as [[_ Ht]|[? _]]; [|done]. rewrite Ht. cbn.
  eexists. split; [by left|]. intros c Hc. by apply stored_incoming_lookup.
Qed.

Lemma req_receiver_sigs_Ok a id txs infos t sigs t' :
  exchange_req_receiver_sigs a id txs infos t = (Ok sigs, t') -> verify_receiver_sigs sigs txs infos = Ok ().
Proof.
  unfold exchange_req_receiver_sigs. intros H. do 3 apply st_bind_Ok in H as (? & ? & _ & H).
  case_match; try discriminate H. apply st_bind_Ok in H as ([] & t1 & [Hv ->]%lift_Ok & [= <- <-]). done.
Qed.

Lemma last_hop_coins_Ok n id vars infos mks hks p t t' :
  xv_taker_multisig_privkeys vars = Some mks -> xv_taker_hashlock_privkeys vars = Some hks ->
  collect_incoming n id vars infos t = (Ok (), t') -> deal_of t = Some p -> incoming_of t = [] ->
  exists cs sigs,
    Forall2 (fun x c => incoming_coin id p.1 x.1 x.2.1 x.2.2 = Ok c)
      (zip infos (zip (cycle_to (length infos) mks) (cycle_to (length infos) hks))) cs /\
    verify_receiver_sigs sigs (map sct_contract_tx infos) infos = Ok () /\
    Forall2 retargeted (zip_update set_isc_sig cs sigs) (incoming_of t') /\ deal_of t' = Some p /\
    saved_incoming (incoming_of t') (tk_trace t').
Proof.
  intros Hm Hh Hrun Hp Hin. unfold collect_incoming in Hrun. rewrite Hm, Hh in Hrun.
  apply st_bind_Ok in Hrun as (? & ? & [[= <-] ->]%lift_Ok & Hrun).
  apply st_bind_Ok in Hrun as (? & ? & [[= <-] ->]%lift_Ok & Hrun).
  apply st_bind_Ok in Hrun as ([] & t1 & H1 & Hrun). apply (push_incoming_Ok id p) in H1 as (Hp1 & cs & Hcs & Hall); [|done].
  rewrite Hin in Hcs. cbn in Hcs.
  apply st_bind_Ok in Hrun as (m & t2 & H2 & Hrun). apply (steps_run steady) in H2; [|auto with steps].
  apply st_bind_Ok in Hrun as (sigs & t3 & H3 & Hrun). pose proof (req_receiver_sigs_Ok _ _ _ _ _ _ _ H3) as Hver.
  apply (steps_run steady) in H3; [|auto with steps].
  assert (same_terms t1 t3) as Hst by (apply steady_both; by etrans).
  apply st_bind_Ok in Hrun as ([] & t4 & H4 & Hrun). rewrite set_swap_run in H4.
  pose proof (same_terms_deal _ _ Hst) as Hp3. unfold same_terms, terms in Hst. unfold incoming_of in Hcs.
  unfold deal_of in Hp3 at 1. destruct (tk_ongoing_swap t3) as [s3|] eqn:Es3; [|done]. injection H4 as <-.
  assert (os_incoming_swapcoins s3 = cs) as Hcs3.
  { destruct (tk_ongoing_swap t1) as [s1|]; [|done]. cbn in Hst. injection Hst. congruence. }
  apply st_bind_Ok in Hrun as ([] & t5 & (Hp5 & Hre)%stamp_targets_Ok & Hrun).
  pose proof (persist_incoming_Ok _ _ Hrun) as Hsv. apply (steps_run steady) in Hrun; [|auto with steps].
  assert (incoming_of t' = incoming_of t5 /\ deal_of t' = deal_of t5) as [Hi6 Hp6].
  { destruct Hrun as [Hc _]. unfold incoming_of, deal_of. destruct (tk_ongoing_swap t5), (tk_ongoing_swap t'); try done.
    cbn in *. injection Hc. intros. by split; congruence. }
  exists cs, sigs. split; [done|]. split; [done|]. rewrite Hi6. split; [|split; [|done]].
  - unfold incoming_of at 1 in Hre. cbn in Hre. by rewrite Hcs3 in Hre.
  - rewrite Hp6, Hp5. unfold deal_of at 1. cbn. rewrite <- Hp1, <- Hp3. done.
Qed.

Lemma zip_update_lookup {A B} (f : A -> B -> A) xs : forall ys k z,
  length ys = length xs -> zip_update f xs ys !! k = Some z ->
  exists x y, xs !! k = Some x /\ ys !! k = Some y /\ z = f x y.
Proof.
  induction xs as [|x xs IH]; intros [|y ys] k z; cbn; try done. intros [= Hl].
  destruct k as [|k]; cbn; [intros [= <-]; eauto|]. by apply IH.
Qed.
Lemma cycle_to_lookup {A} (ys : list A) : forall n k, (k < n)%nat -> ys <> [] -> cycle_to n ys !! k = cyclic ys k.
Proof.
  intros n k Hk Hne. unfold cycle_to.
  assert (forall m j, (j < m)%nat -> forall st, omap (cyclic ys) (seq st m) !! j = cyclic ys (st + j)) as H.
  { induction m as [|m IH]; intros j Hj st; [lia|]. cbn [seq omap list_omap].
    destruct (cyclic_nonempty ys st Hne) as [y Hy]. rewrite Hy. destruct j as [|j]; cbn; [by rewrite Nat.add_0_r, Hy|].
    rewrite IH by lia. by rewrite Nat.add_succ_r. }
  by rewrite H.
Qed.
Lemma cycle_to_nil {A} n : cycle_to n ([] : list A) = [].
Proof. unfold cycle_to. generalize 0%nat. induction n as [|n IH]; intros k; [done|]. cbn. apply IH. Qed.
Lemma cycle_to_length {A} n (ys : list A) : ys <> [] -> length (cycle_to n ys) = n.
Proof.
  intros Hne. unfold cycle_to. generalize 0%nat. induction n as [|n IH]; intros k; [done|]. cbn [seq omap list_omap].
  destruct (cyclic_nonempty ys k Hne) as [y ->]. cbn. by rewrite IH.
Qed.
Lemma zip_update_length {A B} (f : A -> B -> A) xs : forall ys, length (zip_update f xs ys) = length xs.
Proof. induction xs as [|x xs IH]; intros [|y ys]; cbn; try done. by rewrite IH. Qed.
Lemma cyclic_map {A B} (f : A -> B) ys k : cyclic (map f ys) k = f <$> cyclic ys k.
Proof. unfold cyclic. rewrite length_map. apply list_lookup_fmap. Qed.

(** ** What backs a coin *)
Record backed (preimage : Preimage) (c : IncomingSwapCoin) (info : SenderContractTxInfo) (my : SecretKey)
    (other : PublicKey) (sig : Signature) : Prop := {
  bk_protocol : isc_protocol c = Legacy;
  bk_my_privkey : isc_my_privkey c = Some my;
  bk_my_pubkey : isc_my_pubkey c = Some (pubkey_of my);
  bk_other_pubkey : isc_other_pubkey c = Some other;
  bk_no_handover : isc_other_privkey c = None;
  bk_preimage : isc_hash_preimage c = Some preimage;
  bk_sig : isc_others_contract_sig c = Some sig;
  bk_tx : isc_contract_tx c = sct_contract_tx info;
  bk_amount : isc_funding_amount c = sct_funding_amount info;
  bk_script : isc_contract_redeemscript c = Some (sct_contract_redeemscript info);
  (** the contract spends the output of the funding that pays the 2-of-2 *)
  bk_funding : exists inp fo, input (isc_contract_tx c) = [inp] /\
    op_txid (previous_output inp) = compute_txid (sct_funding_tx info) /\
    output (sct_funding_tx info) !! Z.to_nat (op_vout (previous_output inp)) = Some fo /\
    pays_to fo (sct_multisig_redeemscript info) /\ value fo = isc_funding_amount c;
  bk_multisig : multisig_of (sct_multisig_redeemscript info) (pubkey_of my) other \/
                multisig_of (sct_multisig_redeemscript info) other (pubkey_of my);
  (** and pays the contract script, which names the hash and the taker's key *)
  bk_contract : exists o, output (isc_contract_tx c) = [o] /\ pays_to o (sct_contract_redeemscript info);
  bk_hash : read_hashvalue_from_contract (sct_contract_redeemscript info) = Ok (hash160 preimage);
  bk_hashlock : read_hashlock_pubkey_from_contract (sct_contract_redeemscript info) = Ok (pubkey_of (isc_hashlock_privkey c));
  (** one of the two keys signed the contract *)
  bk_signed :
    verify_contract_tx_sig (isc_contract_tx c) (sct_multisig_redeemscript info) (isc_funding_amount c) other (sig_bytes sig) = Ok () \/
    verify_contract_tx_sig (isc_contract_tx c) (sct_multisig_redeemscript info) (isc_funding_amount c) (pubkey_of my) (sig_bytes sig) = Ok ();
}.

Lemma is_ok_unit {E} (m : outcome E ()) : is_ok m = true -> m = Ok ().
Proof. by destruct m as [[]| |]. Qed.

Lemma coin_is_backed id s nm nh l k info my hk tgt c sig e :
  sender_contract_bound s nm nh l k info -> cyclic nm k = Some (pubkey_of my) -> cyclic nh k = Some (pubkey_of hk) ->
  incoming_coin id (os_preimage s) info my hk = Ok c ->
  signed_by_either (sct_contract_tx info) info sig e = Ok () ->
  exists other, backed (os_preimage s) (with_target tgt (set_isc_sig c sig)) info my other sig.
Proof.
  intros (inp & o & fo & Hin & Hout & Htx & Hfo & Hpay & Hval & Hpo & Hh & Hl & Hl0 & Hms & Hnm & Hnh) Hk Hkh Hc Hsig.
  destruct Hnm as (k0 & k1 & k2 & Hk0 & Hmo & Hor).
  { intros ->. unfold cyclic in Hk. by rewrite lookup_nil in Hk. }
  destruct Hnh as (h0 & Hh0 & Hrh). { intros ->. unfold cyclic in Hkh. by rewrite lookup_nil in Hkh. }
  rewrite Hk in Hk0. injection Hk0 as <-. rewrite Hkh in Hh0. injection Hh0 as <-.
  destruct (multisig_of_reads _ _ _ Hmo) as [_ Hread].
  unfold incoming_coin, taker_protocol in Hc. rewrite Hread in Hc. cbn in Hc. injection Hc as <-.
  unfold signed_by_either, taker_protocol in Hsig. rewrite Hread in Hsig. cbn in Hsig. inv_ok Hsig.
  apply negb_false_iff, orb_true_iff in Hsig.
  set (other := if bool_decide (k1 = pubkey_of my) then k2 else k1).
  assert ((k1 = pubkey_of my /\ other = k2) \/ (k2 = pubkey_of my /\ other = k1)) as Hcase.
  { unfold other. case_bool_decide; [by left|]. right. split; [|done]. destruct Hor; congruence. }
  exists other. split; try done.
  - by exists inp, fo.
  - destruct Hcase as [[H1 H2]|[H1 H2]]; rewrite H2, <- H1; auto.
  - by exists o.
  - cbn. destruct Hcase as [[H1 H2]|[H1 H2]]; rewrite H2, <- H1; destruct Hsig as [Hsig|Hsig];
      apply is_ok_unit in Hsig; auto.
Qed.

(** The contract completes when the 2-of-2 is in canonical order, the signature
    is the maker's for the whole transaction and the input came without witness. *)
Definition canonical (c : IncomingSwapCoin) (info : SenderContractTxInfo) (my : SecretKey) (other : PublicKey)
    (sig : Signature) : Prop :=
  sct_multisig_redeemscript info = create_multisig_redeemscript (pubkey_of my) other /\
  verify_contract_tx_sig (isc_contract_tx c) (sct_multisig_redeemscript info) (isc_funding_amount c) other (sig_bytes sig) = Ok () /\
  sighash_type sig = SIGHASH_ALL /\ Forall (fun i => witness i = []) (input (isc_contract_tx c)).

(** Completing the contract gives a transaction that spends the maker's funding. *)
Definition can_publish (c : IncomingSwapCoin) (info : SenderContractTxInfo) : Prop :=
  exists tx inp fo, isc_create_signed_contract_tx c = Ok tx /\ output tx = output (isc_contract_tx c) /\
    map previous_output (input tx) = [previous_output inp] /\
    op_txid (previous_output inp) = compute_txid (sct_funding_tx info) /\
    output (sct_funding_tx info) !! Z.to_nat (op_vout (previous_output inp)) = Some fo /\
    p2wsh_spendable tx fo = true.
(** The contract output pays to wherever the taker likes. *)
Definition can_claim (c : IncomingSwapCoin) : Prop :=
  exists o, output (isc_contract_tx c) = [o] /\ forall signer v script, v < value o ->
    exists tx, sign_spend_transaction_with_output_value signer c (value o) v script = Ok tx /\
      output tx = [{| value := v; script_pubkey := script |}] /\ p2wsh_spendable tx o = true.
(** The contract script is what [create_contract_redeemscript] makes. *)
Definition genuine (info : SenderContractTxInfo) : Prop :=
  exists ph pt h l, sct_contract_redeemscript info = create_contract_redeemscript ph pt h l /\
    wf_pubkey ph /\ sent_pubkey pt /\ length h = 20%nat /\ is_u16 l.

Lemma backed_contract_completes p c info my other sig :
  backed p c info my other sig -> canonical c info my other sig -> can_publish c info.
Proof.
  intros B (Hrs & Hv & Hall & Hw). destruct (bk_funding _ _ _ _ _ _ B) as (inp & fo & Hin & Htx & Hfo & Hpay & Hval).
  rewrite Hrs in *. apply verify_contract_tx_sig_Ok in Hv as (d & Hd & Hv). rewrite Hin in Hw. apply Forall_cons in Hw as [Hw _].
  assert (wf_pubkey other) as Hwf by (destruct (bk_multisig _ _ _ _ _ _ B) as [(?&?&?)|(?&?&?)]; done).
  destruct (signed_contract_tx_spendable _ _ _ _ _ _ _ _ fo Hwf Hin Hw Hd Hv Hall Hpay Hval) as (tx & H1 & H2 & H3 & H4).
  exists tx, inp, fo. unfold isc_create_signed_contract_tx.
  rewrite (bk_protocol _ _ _ _ _ _ B), (bk_my_privkey _ _ _ _ _ _ B), (bk_my_pubkey _ _ _ _ _ _ B), (bk_other_pubkey _ _ _ _ _ _ B),
    (bk_sig _ _ _ _ _ _ B). rewrite Hin in H3. by repeat (split; [done|]).
Qed.

Lemma backed_hashlock_spend p c info my other sig :
  backed p c info my other sig -> length p = 32%nat -> genuine info -> can_claim c.
Proof.
  intros B Hlen (ph & pt & h & l & Hrs & Hph & Hpt & Hh & Hl).
  destruct (bk_contract _ _ _ _ _ _ B) as (o & Ho & Hpay). exists o. split; [done|]. intros signer v script Hv.
  destruct (contract_redeemscript_reads ph pt h l Hph Hpt Hh Hl) as (R1 & R2 & _).
  pose proof (bk_hash _ _ _ _ _ _ B) as H1. pose proof (bk_hashlock _ _ _ _ _ _ B) as H2. rewrite Hrs in H1, H2, Hpay.
  rewrite R1 in H1. injection H1 as ->. rewrite R2 in H2. injection H2 as ->.
  destruct (hashlock_spend_accepted signer c o [] p pt l v script (bk_protocol _ _ _ _ _ _ B) (bk_no_handover _ _ _ _ _ _ B)
    (bk_preimage _ _ _ _ _ _ B) Hlen Hpt Hl) as (tx & Htx & _ & Houts & Hsp); [|exact Ho|exact Hpay|exact Hv|by exists tx].
  rewrite (bk_script _ _ _ _ _ _ B), Hrs. done.
Qed.

(** ** The whole exchange *)
Lemma receiver_sigs_Ok sigs infos :
  verify_receiver_sigs sigs (map sct_contract_tx infos) infos = Ok () ->
  length sigs = length infos /\ forall k sig info, sigs !! k = Some sig -> infos !! k = Some info ->
    exists e, signed_by_either (sct_contract_tx info) info sig e = Ok ().
Proof.
  unfold verify_receiver_sigs. rewrite length_map. intros H. inv_ok H.
  apply orb_false_iff in Hs as [Hl _]. apply negb_false_iff, Nat.eqb_eq in Hl. split; [done|].
  intros k sig info H1 H2. apply for_each_Ok in H. rewrite Forall_lookup in H.
  specialize (H k (sig, sct_contract_tx info, info)). eexists. apply H.
  rewrite !lookup_zip_with, H1, list_lookup_fmap, H2. done.
Qed.

Lemma coins_are_backed id p tx infos mks hks l s cs sigs coins :
  length mks = Z.to_nat tx -> length hks = Z.to_nat tx -> zlen infos = tx -> os_preimage s = p ->
  (forall k info, infos !! k = Some info -> sender_contract_bound s (map pubkey_of mks) (map pubkey_of hks) l k info) ->
  Forall2 (fun x c => incoming_coin id p x.1 x.2.1 x.2.2 = Ok c)
    (zip infos (zip (cycle_to (length infos) mks) (cycle_to (length infos) hks))) cs ->
  verify_receiver_sigs sigs (map sct_contract_tx infos) infos = Ok () ->
  Forall2 retargeted (zip_update set_isc_sig cs sigs) coins ->
  zlen coins = tx /\ forall c, c ∈ coins -> exists info my other sig, backed p c info my other sig.
Proof.
  intros Lm Lh Hz Hp Hall Hcs [Lsig Hsig]%receiver_sigs_Ok Hre.
  assert (infos = [] \/ (mks <> [] /\ hks <> [])) as [->|[Nm Nh]].
  { unfold zlen in Hz. destruct infos; [by left|right]. cbn in Hz. split; intros ->; cbn in *; lia. }
  { cbn in Hcs. apply Forall2_nil_inv_l in Hcs as ->. apply Forall2_nil_inv_l in Hre as ->. split; [done|]. set_solver. }
  assert (length cs = length infos) as Lc.
  { apply Forall2_length in Hcs. rewrite <- Hcs, !length_zip_with, !cycle_to_length by done. lia. }
  split.
  { apply Forall2_length in Hre. rewrite zip_update_length in Hre. unfold zlen in *. congruence. }
  intros c [k Hk]%list_elem_of_lookup. destruct (Forall2_lookup_r _ _ _ _ _ Hre Hk) as (z & Hzk & tgt & ->).
  apply zip_update_lookup in Hzk as (c0 & sig & Hc0 & Hs & ->); [|congruence].
  destruct (Forall2_lookup_r _ _ _ _ _ Hcs Hc0) as ([info [my hk]] & Hx & Hcoin). cbn in Hcoin.
  apply lookup_zip_with_Some in Hx as (? & ? & [= <- <-] & Hinfo & Hx).
  apply lookup_zip_with_Some in Hx as (? & ? & [= <- <-] & Hmy & Hhk).
  pose proof (lookup_lt_Some _ _ _ Hinfo) as Hlt. rewrite cycle_to_lookup in Hmy, Hhk by done.
  destruct (Hsig _ _ _ Hs Hinfo) as [e He]. rewrite <- Hp in Hcoin. exists info, my. rewrite <- Hp.
  destruct (coin_is_backed _ _ _ _ _ _ _ _ _ tgt _ _ _ (Hall _ _ Hinfo)
    ltac:(by rewrite cyclic_map, Hmy) ltac:(by rewrite cyclic_map, Hhk) Hcoin He) as [other B]. by exists other, sig.
Qed.

(** C7: a legacy exchange that returns leaves the taker one incoming coin per
    funding of the last hop, written to disk, and every coin is backed: it holds
    its own key and the preimage, its contract spends the maker's funding output,
    which pays a 2-of-2 with the taker's key the advertised amount, and pays a
    script bound to the hash and the taker's hashlock key.  If the 2-of-2 is in
    the order the wallet rebuilds and the signature is the maker's, the taker can
    publish the contract; if the script is the protocol's, it can claim the
    output with the preimage.  Both are full script evaluations. *)
Theorem exchanged_coins_are_backed (t t' : Taker D) (s0 : OngoingSwapState)
    (Hs : tk_ongoing_swap t = Some s0) (Hmk : os_makers s0 <> []) (Hin : os_incoming_swapcoins s0 = [])
    (Hlen : length (os_preimage s0) = 32%nat) (Hrun : exchange_legacy t = (Ok (), t')) :
  zlen (incoming_of t') = swp_tx_count (os_params s0) /\
  saved_incoming (incoming_of t') (tk_trace t') /\
  forall c, c ∈ incoming_of t' -> exists info my other sig, backed (os_preimage s0) c info my other sig /\
    (canonical c info my other sig -> can_publish c info) /\ (genuine info -> can_claim c).
Proof.
  unfold exchange_legacy in Hrun. erewrite st_bind_step in Hrun by (rewrite read_swap_run, Hs; reflexivity).
  apply st_bind_Ok in Hrun as ([] & t1 & H1 & Hrun).
  apply (steps_run steady) in H1; [|apply start_route_heartbeat_steady]. apply steady_both in H1 as [H1 _].
  apply st_bind_Ok in Hrun as (vars & t2 & H2 & Hrun). apply exchange_loop_last in H2 as (H2 & p & Hp & Hl).
  2: { destruct (os_makers s0); [done|cbn; lia]. }
  assert (same_terms t t2) as Ht by (by etrans). pose proof (same_terms_deal _ _ Ht) as Hd.
  unfold deal_of at 2 in Hd. rewrite Hs, Hp in Hd. cbn in Hd. injection Hd as ->.
  destruct Hl as (infos & mks & hks & l & s & Hi & Hm & Hh & Lm & Lh & Hpre & Hz & Hall). cbn in Hpre, Hz.
  rewrite Hi in Hrun. apply st_bind_Ok in Hrun as ([] & t3 & H3 & Hrun).
  assert (incoming_of t2 = []) as Hin2.
  { unfold same_terms, terms in Ht. unfold incoming_of. rewrite Hs in Ht. destruct (tk_ongoing_swap t2); [|done].
    cbn in Ht. injection Ht. congruence. }
  destruct (last_hop_coins_Ok _ _ _ _ _ _ _ _ _ Hm Hh H3 Hp Hin2) as (cs & sigs & Hcs & Hver & Hre & _ & Hsv).
  apply (steps_run steady) in Hrun; [|apply persist_swap_steady].
  assert (incoming_of t' = incoming_of t3) as ->.
  { apply steady_both in Hrun as [Hrun _]. unfold same_terms, terms in Hrun. unfold incoming_of.
    destruct (tk_ongoing_swap t3), (tk_ongoing_swap t'); try done. cbn in Hrun. injection Hrun. congruence. }
  destruct (coins_are_backed _ _ _ _ _ _ _ _ _ _ _ Lm Lh Hz Hpre Hall Hcs Hver Hre) as [Hc Hb]. split; [done|]. split.
  - destruct Hsv as (st & He & Hst). exists st. split; [|done]. destruct Hrun as [_ (evs & -> & _)]. set_solver.
  - intros c Hcin. destruct (Hb c Hcin) as (info & my & other & sig & B). exists info, my, other, sig. split; [done|].
    split; [by eapply backed_contract_completes|by eapply backed_hashlock_spend].
Qed.
End coins.
