(* ===== verification/TakerRecovery.v ===== *)
(** The taker's recovery: the recovery loop of src/taker/background_services.rs
    and the start-up recovery of src/taker/api.rs.

    The thread shares the wallet and the swap tracker with the taker, so its
    operations run on [Taker].  A pass is [check_contracts], which retries both
    wallet recoveries and asks whether every contract is resolved, and then
    [clean_up] or a pause; between the two the taker may run.  The reports the
    thread writes are left out. *)
From S2P Require Import Prelude Float64 Bitcoin Messages Contract Errors SwapCoin TaprootLib Taproot TakerTracker TakerState Payment LegacyVerification WalletStore MakerApi ChainWait WalletRecovery TakerApi TakerFunding TakerLegacy TakerTaproot TakerSwap.
#[local] Open Scope string_scope.
#[local] Open Scope list_scope.
#[local] Open Scope Z_scope.

#[global] Instance ContractResolution_eq_dec : EqDecision ContractResolution.
Proof. solve_decision. Defined.

Definition RECOVERY_LOOP_INTERVAL : Z := 60 * SECOND.

(** ** Outcomes on record *)

(** An outcome on record is overwritten only while it is unresolved; a discarded
    contract has no spending transaction to note. *)
Definition resolve_with (o x : ContractOutcome) : ContractOutcome :=
  {| x with co_resolution := co_resolution o;
            co_spending_txid := match co_spending_txid o with Some t => Some t | None => co_spending_txid x end |}.

Fixpoint note_outcome (o : ContractOutcome) (l : list ContractOutcome) : bool * list ContractOutcome :=
  match l with
  | [] => (true, [o])
  | x :: l =>
      if co_contract_txid x =? co_contract_txid o then
        if bool_decide (co_resolution x = CR_Unresolved) then (true, resolve_with o x :: l) else (false, x :: l)
      else let '(changed, l) := note_outcome o l in (changed, x :: l)
  end.

(** The outcomes of contracts the record knows. *)
Fixpoint note_outcomes (known : list Txid) (os l : list ContractOutcome) : bool * list ContractOutcome :=
  match os with
  | [] => (false, l)
  | o :: os =>
      if bool_decide (co_contract_txid o ∈ known) then
        let '(changed, l) := note_outcome o l in
        let '(changed', l) := note_outcomes known os l in (changed || changed', l)
      else note_outcomes known os l
  end.

Definition resolved_as (res : ContractResolution) (p : Txid * Txid) : ContractOutcome :=
  {| co_contract_txid := p.1; co_resolution := res; co_spending_txid := Some p.2 |}.
Definition discarded_outcome (txid : Txid) : ContractOutcome :=
  {| co_contract_txid := txid; co_resolution := CR_Discarded; co_spending_txid := None |}.

Definition all_done (l : list ContractOutcome) : bool :=
  forallb (fun o => negb (bool_decide (co_resolution o = CR_Unresolved))) l.

Definition next_recovery_phase (s : RecoveryState) : RecoveryPhase :=
  if all_done (rs_outgoing s) && (RecoveryPhase_rank (rs_phase s) <? RecoveryPhase_rank OutgoingRecovered)
  then OutgoingRecovered
  else if all_done (rs_incoming s) && (RecoveryPhase_rank (rs_phase s) <? RecoveryPhase_rank IncomingRecovered)
  then IncomingRecovered
  else rs_phase s.

(** The closure of [update_tracker_outcomes]. *)
Definition record_outcomes (incoming outgoing : option RecoveryOutcome) (r : SwapRecord) : SwapRecord :=
  let swept := match incoming with Some o => map (resolved_as CR_Hashlock) (ro_resolved o) | None => [] end in
  let recovered :=
    match outgoing with
    | Some o => map (resolved_as CR_Timelock) (ro_resolved o) ++ map discarded_outcome (ro_discarded o)
    | None => []
    end in
  let '(changed_in, inc) := note_outcomes (sr_incoming_contract_txids r) swept (rs_incoming (sr_recovery r)) in
  let '(changed_out, out) := note_outcomes (sr_outgoing_contract_txids r) recovered (rs_outgoing (sr_recovery r)) in
  let s := {| (sr_recovery r) with rs_incoming := inc; rs_outgoing := out |} in
  let s := if changed_in || changed_out then {| s with rs_phase := next_recovery_phase s |} else s in
  {| r with sr_recovery := s |}.

Section recovery.
Context {lib : BitcoinLib} {tap : TaprootLib} {hi : HashIter} {D : Type} {tv : TakerOutside D}.
Abbreviation taker := (stateful (Taker D) TakerError).

(** [if let Ok(mut tracker) = swap_tracker.lock()]. *)
Definition if_tracker (m : taker ()) : taker () :=
  poisoned ← gets tk_tracker_poisoned; if (poisoned : bool) then mret () else m.

Definition update_quietly (f : SwapRecord -> SwapRecord) (swap_id : string) : taker () :=
  now ← gets (fun t => to_now_secs (world t));
  ignore (on_tracker (update_and_save to_tracker_faults now swap_id f)).

Definition incomplete_ids (t : Taker D) : list string := map sr_swap_id (TakerTracker.incomplete_swaps hash_iter (tk_swap_tracker t)).

Definition update_tracker_outcomes (incoming outgoing : option RecoveryOutcome) : taker () :=
  swap_ids ← gets incomplete_ids;
  st_for_each (update_quietly (record_outcomes incoming outgoing)) swap_ids.

(** An outcome worth recording. *)
Definition progress (r : RecoveryOutcome + TakerError) : option RecoveryOutcome :=
  match r with inl o => if ro_is_empty o then None else Some o | inr _ => None end.

(** [outpoints.iter().all(..)], with the failed lookups. *)
Fixpoint all_spent (outpoints : list (OutPoint * Script)) : taker bool :=
  match outpoints with
  | [] => mret true
  | (op, spk) :: outpoints =>
      spent ← attempt (E := TakerError) (on_chain (rc_is_confirmed_spend op spk));
      match spent with
      | inl true => all_spent outpoints
      | _ => mret false
      end
  end.

(** The outpoints of the persisted coins; indexing them may panic. *)
Definition contract_outpoints (w : WalletStore) : outcome TakerError (list (OutPoint * Script)) :=
  map_err TE_Wallet (outgoing ← outgoing_contract_outpoints w; incoming ← incoming_contract_outpoints w; Ok (outgoing ++ incoming)).

(** Both wallet recoveries, and what they resolved on record. *)
Definition retry_recoveries : taker () :=
  swept ← attempt (E := TakerError) (on_shared_wallet (sweep_incoming_swapcoins (f64_of_Z 2) None));
  recovered ← attempt (E := TakerError) (on_shared_wallet (recover_timelocked_swapcoins (f64_of_Z 2)));
  if bool_decide (is_Some (progress swept)) || bool_decide (is_Some (progress recovered))
  then if_tracker (update_tracker_outcomes (progress swept) (progress recovered))
  else mret ().

Definition all_contracts_resolved : taker bool :=
  poisoned ← gets tk_wallet_poisoned;
  if (poisoned : bool) then mret false
  else
    store ← gets (fun t => wl_store (tk_wallet t));
    outpoints ← lift (contract_outpoints store);
    all_spent outpoints.

(** A pass up to the question whether every contract is resolved; without a
    connection the question is not asked. *)
Definition check_contracts : taker bool :=
  connected ← attempt (E := TakerError) (_ ← read_wallet; on_chain to_new_connection);
  match connected with
  | inr _ => mret false
  | inl _ => _ ← retry_recoveries; all_contracts_resolved
  end.

(** Forgets the outgoing and watch-only coins of every incomplete swap. *)
Definition forget_swap_coins (swap_id : string) : taker () :=
  store ← gets (fun t => wl_store (tk_wallet t));
  _ ← st_for_each (fun key => set_store (remove_outgoing_swapcoin key)) (outgoing_keys_for_swap swap_id store);
  set_store (fun w => (remove_watchonly_swapcoins swap_id w).2).

Definition mark_cleaned_up (r : SwapRecord) : SwapRecord :=
  {| r with sr_recovery := {| (sr_recovery r) with rs_phase := CleanedUp |} |}.

Definition clean_up : taker () :=
  poisoned ← gets tk_tracker_poisoned;
  swap_ids ← gets (fun t => if poisoned : bool then [] else incomplete_ids t);
  locked ← gets tk_wallet_poisoned;
  _ ← (if (locked : bool) then mret ()
       else _ ← st_for_each forget_swap_coins swap_ids; ignore save_wallet);
  if_tracker (st_for_each (update_quietly mark_cleaned_up) swap_ids).

(** [true] when the thread has done its work. *)
Definition taker_recovery_pass : taker bool :=
  resolved ← check_contracts;
  if (resolved : bool) then _ ← clean_up; mret true
  else _ ← set_world (cc_sleep RECOVERY_LOOP_INTERVAL); mret false.

(** [while !shutdown]; the passes are those that are made before a shutdown. *)
Fixpoint taker_recovery_loop (passes : nat) : taker bool :=
  match passes with
  | O => mret false
  | S passes =>
      down ← gets (fun t => cc_shutdown (world t));
      if (down : bool) then mret false
      else
        complete ← taker_recovery_pass;
        if (complete : bool) then mret true else taker_recovery_loop passes
  end.

(** ** Start-up *)
Definition has_remaining : taker bool :=
  locked ← attempt (E := TakerError) write_wallet;
  match locked with
  | inr _ => mret false
  | inl _ =>
      store ← gets (fun t => wl_store (tk_wallet t));
      outgoing ← lift (map_err TE_Wallet (outgoing_contract_outpoints store));
      if bool_decide (outgoing <> []) then mret true
      else
        incoming ← lift (map_err TE_Wallet (incoming_contract_outpoints store));
        mret (bool_decide (incoming <> []))
  end.

(** [dir] says whether the data directory could be determined. *)
Definition init_recover_wallet (dir : bool) : taker () :=
  connected ← attempt (E := TakerError) (_ ← read_wallet; on_chain to_new_connection);
  _ ← match connected with
      | inr _ => mret ()
      | inl _ =>
          _ ← ignore (on_shared_wallet (sweep_incoming_swapcoins (f64_of_Z 2) None));
          ignore (on_shared_wallet (recover_timelocked_swapcoins (f64_of_Z 2)))
      end;
  remaining ← has_remaining;
  if (remaining : bool) && dir then
    started ← attempt (E := TakerError) (on_world to_start_recovery);
    match started with
    | inl _ => modify (fun t => {| t with tk_recovery_loop := true |})
    | inr _ => mret ()
    end
  else mret ().

(** [complete] is the flag of the loop, and the verdict of its thread. *)
Definition is_recovery_complete (complete : bool) (t : Taker D) : bool :=
  if tk_recovery_loop t then complete else true.

Definition wait_for_recovery (complete : bool) : taker bool :=
  running ← gets tk_recovery_loop;
  if (running : bool) then _ ← modify (fun t => {| t with tk_recovery_loop := false |}); mret complete
  else
    locked ← attempt (E := TakerError) read_wallet;
    match locked with
    | inr _ => mret false
    | inl _ =>
        gets (fun t => (size (wst_outgoing_swapcoins (wl_store (tk_wallet t)))
                        + size (wst_incoming_swapcoins (wl_store (tk_wallet t))) =? 0)%nat)
    end.
End recovery.
