(* ===== verification/TakerRecoverySafety.v ===== *)
(** What the taker's recovery may do to the records of its coins, and what its
    completion means. *)
From S2P Require Import Prelude Float64 Bitcoin Messages Contract Errors SwapCoin ScriptEval TaprootLib Taproot TakerTracker TakerState Payment LegacyVerification WalletStore MakerApi ChainWait WalletRecovery RecoverySafety SweepSafety TakerApi TakerFunding TakerLegacy TakerTaproot TakerSwap TakerSteps TakerRecovery.
#[local] Open Scope string_scope.
#[local] Open Scope list_scope.
#[local] Open Scope Z_scope.

Section safety.
Context {lib : BitcoinLib} {tap : TaprootLib} {hi : HashIter} {hil : HashIterLaws hi} {D : Type} {tv : TakerOutside D}
  (R : D -> D -> Prop) {rm : RecoveryMoves R} {sk : SyncKeepsCoins D}
  (connection_moves : forall d, R d (to_new_connection d).2).
Implicit Types t : Taker D.

Abbreviation outgoing t := (wst_outgoing_swapcoins (wl_store (tk_wallet t))).
Abbreviation incoming t := (wst_incoming_swapcoins (wl_store (tk_wallet t))).
Abbreviation fee := (f64_of_Z 2).

(** ** The relation between the records before and after *)
(** The node reported a mined spend of the output of the contract [tx] at
    [vout], asked by its outpoint and its own script. *)
Definition output_spent (tx : Transaction) (vout : Z) (d d' : D) : Prop :=
  exists o, output tx !! Z.to_nat vout = Some o /\
    answered R (rc_is_confirmed_spend {| op_txid := compute_txid tx; op_vout := vout |} (script_pubkey o)) true d d'.
Definition contract_spent (c : OutgoingSwapCoin) : D -> D -> Prop :=
  output_spent (osc_contract_tx c) (osc_get_contract_output_vout c).
Definition contract_spent_in (c : IncomingSwapCoin) : D -> D -> Prop :=
  output_spent (isc_contract_tx c) (isc_get_contract_output_vout c).

Definition settled_out (c : OutgoingSwapCoin) (d d' : D) : Prop :=
  exists c', coin_kept c c' /\
    (refunded R fee c' d d' \/ discardable R c' d d' \/ contract_spent c' d d').

Record tracks t t' : Prop := {
  tr_moves : R (world t) (world t');
  tr_out : forall k, match outgoing t !! k, outgoing t' !! k with
    | Some c, Some c' => coin_kept c c'
    | Some c, None => settled_out c (world t) (world t')
    | None, None => True
    | None, Some _ => False
    end;
  tr_in : forall k, match incoming t !! k, incoming t' !! k with
    | Some c, Some c' => c' = c
    | Some c, None => swept R fee c (world t) (world t')
    | None, None => True
    | None, Some _ => False
    end;
}.

Lemma output_spent_mono tx v d0 d d' d1 : R d0 d -> R d' d1 -> output_spent tx v d d' -> output_spent tx v d0 d1.
Proof. intros H0 H1 (o & Ho & H). exists o. split; [done|]. by apply (answered_mono R _ _ d0 d d' d1). Qed.

Lemma settled_out_mono c c1 d0 d d' d1 :
  coin_kept c c1 -> R d0 d -> R d' d1 -> settled_out c1 d d' -> settled_out c d0 d1.
Proof.
  intros Hc H0 H1 (c' & Hc' & Hr). exists c'. split; [by eapply coin_kept_trans|]. destruct Hr as [Hr|[Hr|Hr]].
  - left. by apply (refunded_mono R fee c' d0 d d' d1).
  - right; left. by apply (discardable_mono R c' d0 d d' d1).
  - right; right. by apply (output_spent_mono _ _ d0 d d' d1).
Qed.

#[local] Instance tracks_preorder : PreOrder tracks.
Proof.
  split.
  - intros t. split; [done|..]; intros k.
    + destruct (outgoing t !! k); [apply coin_kept_refl|done].
    + by destruct (incoming t !! k).
  - intros t1 t2 t3 [M1 O1 I1] [M2 O2 I2]. split; [by etrans|..]; intros k.
    + specialize (O1 k). specialize (O2 k).
      destruct (outgoing t1 !! k) as [c1|], (outgoing t2 !! k) as [c2|], (outgoing t3 !! k) as [c3|]; try done.
      * by eapply coin_kept_trans.
      * by apply (settled_out_mono c1 c2 _ (world t2) (world t3) (world t3)).
      * apply (settled_out_mono c1 c1 _ (world t1) (world t2) (world t3)); [apply coin_kept_refl|done..].
    + specialize (I1 k). specialize (I2 k).
      destruct (incoming t1 !! k) as [c1|], (incoming t2 !! k) as [c2|], (incoming t3 !! k) as [c3|]; try done.
      * congruence.
      * subst c2. by apply (swept_mono R fee c1 _ (world t2) (world t3) (world t3)).
      * by apply (swept_mono R fee c1 _ (world t1) (world t2) (world t3)).
Qed.

(** Records are filed under the txid of their contract. *)
Definition filed t : Prop :=
  (forall k c, outgoing t !! k = Some c -> k = compute_txid (osc_contract_tx c)) /\
  (forall k c, incoming t !! k = Some c -> k = compute_txid (isc_contract_tx c)).

Lemma tracks_filed t t' : tracks t t' -> filed t -> filed t'.
Proof.
  intros [_ Ho Hi] [F1 F2]. split; intros k c Hc.
  - specialize (Ho k). rewrite Hc in Ho. destruct (outgoing t !! k) as [c0|] eqn:E; [|done].
    destruct Ho as [a ->]. exact (F1 _ _ E).
  - specialize (Hi k). rewrite Hc in Hi. destruct (incoming t !! k) as [c0|] eqn:E; [|done]. subst. exact (F2 _ _ E).
Qed.

(** ** Operations that keep the records *)
Definition follows {A} (m : stateful (Taker D) TakerError A) : Prop := forall t, filed t -> tracks t (m t).2.

Lemma follows_bind {A B} (m : stateful (Taker D) TakerError A) (f : A -> stateful (Taker D) TakerError B) :
  follows m -> (forall a, follows (f a)) -> follows (m ≫= f).
Proof.
  intros Hm Hf t Ht. specialize (Hm t Ht). unfold mbind, stateful_bind. destruct (m t) as [[a|e|] t1]; cbn in *; [|done..].
  etrans; [exact Hm|]. apply Hf. by eapply tracks_filed.
Qed.
Lemma follows_attempt {A} (m : stateful (Taker D) TakerError A) : follows m -> follows (attempt (E' := TakerError) m).
Proof. intros Hm t Ht. specialize (Hm t Ht). unfold attempt. by destruct (m t) as [[a|e|] t1]. Qed.
Lemma follows_for_each {A} (f : A -> stateful (Taker D) TakerError ()) xs : (forall x, follows (f x)) -> follows (st_for_each f xs).
Proof.
  intros Hf. induction xs as [|x xs IH]; [intros t _; reflexivity|]. cbn. by apply follows_bind.
Qed.
(** Neither the wallet nor the world. *)
Lemma follows_same {A} (m : stateful (Taker D) TakerError A) : (forall t, tk_wallet (m t).2 = tk_wallet t) -> follows m.
Proof.
  intros H t _. split; unfold world; rewrite H; [done|..]; intros k.
  - destruct (outgoing t !! k); [apply coin_kept_refl|done].
  - by destruct (incoming t !! k).
Qed.
Lemma follows_chain {A} (op : stateful D WalletError A) : moving R op -> follows (on_chain op).
Proof.
  intros Hop t _. unfold on_chain, on_wallet, in_outside. specialize (Hop (world t)). unfold world in *.
  destruct (op (wl_outside (tk_wallet t))) as [r d]. split; cbn; [exact Hop|..]; intros k.
  - destruct (outgoing t !! k); [apply coin_kept_refl|done].
  - by destruct (incoming t !! k).
Qed.
Lemma follows_world f : (forall d, R d (f d)) -> follows (set_world (D := D) f).
Proof.
  intros Hf t _. split; cbn; [apply Hf|..]; intros k.
  - destruct (outgoing t !! k); [apply coin_kept_refl|done].
  - by destruct (incoming t !! k).
Qed.

Lemma follows_sweep : follows (on_shared_wallet (sweep_incoming_swapcoins fee None)).
Proof.
  intros t [_ Hk]. unfold on_shared_wallet. set (s := Build_SharedWallet _ _).
  destruct (sweep_incoming_swapcoins fee None s) as [r s1] eqn:E.
  apply (sweep_run R fee s None Hk) in E as (res & [M O Hs Hg Hl] & _).
  split; [exact M|..]; intros k; cbn.
  - rewrite O. destruct (outgoing t !! k) as [c|] eqn:Hc; cbn; rewrite Hc; [apply coin_kept_refl|done].
  - specialize (Hs k). specialize (Hg k). cbn in Hs, Hg.
    destruct (incoming t !! k) as [c|] eqn:Hc, (wst_incoming_swapcoins (wl_store (sw_wallet s1)) !! k) as [c'|] eqn:Hc'; try done.
    + by specialize (Hs c' eq_refl) as [= ->].
    + by apply (Hg c).
    + by specialize (Hs c' eq_refl).
Qed.

Lemma follows_timelock : follows (on_shared_wallet (recover_timelocked_swapcoins fee)).
Proof.
  intros t [Hk _]. unfold on_shared_wallet. set (s := Build_SharedWallet _ _).
  destruct (recover_timelocked_swapcoins fee s) as [r s1] eqn:E.
  apply (recovery_accounted R fee s s1 r) in E as [(M & Hi & Ha) _]; [|exact Hk].
  split; [exact M|..]; intros k; cbn.
  - specialize (Ha k). cbn in Ha.
    destruct (outgoing t !! k) as [c|], (wst_outgoing_swapcoins (wl_store (sw_wallet s1)) !! k); try done.
    exists c. split; [apply coin_kept_refl|]. destruct Ha; auto.
  - cbn in Hi. rewrite Hi. by destruct (incoming t !! k).
Qed.

Lemma update_quietly_same f id t : tk_wallet (update_quietly f id t).2 = tk_wallet t.
Proof.
  unfold update_quietly, ignore, attempt, mbind, stateful_bind, on_tracker, gets.
  by destruct (update_and_save _ _ _ _ _) as [[b|e|] st].
Qed.
Lemma follows_update f ids : follows (st_for_each (update_quietly (D := D) f) ids).
Proof. apply follows_for_each. intros id. apply follows_same. intros t. apply update_quietly_same. Qed.

(** ** A pass *)
Lemma all_spent_spec ops : forall t r t', all_spent ops t = (r, t') ->
  tracks t t' /\ wl_store (tk_wallet t') = wl_store (tk_wallet t) /\
  (r = Ok true -> forall x, x ∈ ops -> answered R (rc_is_confirmed_spend x.1 x.2) true (world t) (world t')).
Proof.
  induction ops as [|[op spk] ops IH]; intros t r t'; cbn [all_spent].
  { intros [= <- <-]. split; [reflexivity|]. split; [done|]. set_solver. }
  unfold mbind at 1, stateful_bind at 1, attempt, on_chain, on_wallet, in_outside.
  pose proof (rm_is_confirmed_spend op spk (world t)) as HR.
  destruct (rc_is_confirmed_spend op spk (wl_outside (tk_wallet t))) as [b d] eqn:E. unfold world in HR. rewrite E in HR. cbn in HR.
  set (t1 := {| t with tk_wallet := _ |}).
  assert (tracks t t1) as Ht1.
  { split; cbn; [exact HR|..]; intros k; [destruct (outgoing t !! k); [apply coin_kept_refl|done]|by destruct (incoming t !! k)]. }
  destruct b as [[]|e|]; cbn [map_err]; [|by intros [= <- <-]..].
  intros Hrun. apply IH in Hrun as (H1 & H2 & H3). split; [by etrans|]. split; [done|]. intros Hr x [->|Hx]%elem_of_cons.
  - cbn. exists (world t), d. split; [done|]. split; [exact E|]. exact (tr_moves _ _ H1).
  - apply (answered_mono R _ _ (world t) (world t1) (world t') (world t')); [apply Ht1|done|by apply H3].
Qed.

Lemma outpoints_cover (w : WalletStore) ops :
  contract_outpoints w = Ok ops ->
  (forall k c, wst_outgoing_swapcoins w !! k = Some c -> exists o,
     output (osc_contract_tx c) !! Z.to_nat (osc_get_contract_output_vout c) = Some o /\ (contract_of c, script_pubkey o) ∈ ops) /\
  (forall k c, wst_incoming_swapcoins w !! k = Some c -> exists o,
     output (isc_contract_tx c) !! Z.to_nat (isc_get_contract_output_vout c) = Some o /\
     ({| op_txid := compute_txid (isc_contract_tx c); op_vout := isc_get_contract_output_vout c |}, script_pubkey o) ∈ ops).
Proof.
  assert (forall tx v x, contract_outpoint tx v = Ok x -> exists o, output tx !! Z.to_nat v = Some o /\
            x = ({| op_txid := compute_txid tx; op_vout := v |}, script_pubkey o)) as Hp.
  { unfold contract_outpoint. intros tx v x H. inv_ok H. eauto. }
  assert (forall {V} (m : gmap Txid V) k c, m !! k = Some c -> c ∈ hash_values m) as Hv.
  { intros V m k c Hc. unfold hash_values. apply list_elem_of_fmap. exists (k, c). split; [done|].
    rewrite hash_iter_perm. by apply elem_of_map_to_list. }
  unfold contract_outpoints. intros H%map_err_Ok. inv_ok H.
  unfold outgoing_contract_outpoints in *. unfold incoming_contract_outpoints in *.
  repeat match goal with H : try_map _ _ = Ok _ |- _ => apply try_map_Ok in H end.
  assert (forall {V} (f : V -> Transaction) (g : V -> Z) (m : gmap Txid V) l k c,
    Forall2 (fun x y => contract_outpoint (f x) (g x) = Ok y) (hash_values m) l -> m !! k = Some c ->
    exists o, output (f c) !! Z.to_nat (g c) = Some o /\
      ({| op_txid := compute_txid (f c); op_vout := g c |}, script_pubkey o) ∈ l) as Hc.
  { intros V f g m l k c HF Hm%Hv. apply list_elem_of_lookup in Hm as [i Hi].
    destruct (Forall2_lookup_l _ _ _ _ _ HF Hi) as (x & Hl & (o & Ho & ->)%Hp).
    exists o. split; [done|]. by eapply list_elem_of_lookup_2. }
  split; intros k c Hk.
  - destruct (Hc _ _ _ _ _ _ _ Hs Hk) as (o & Ho & H). exists o. split; [done|]. apply elem_of_app. by left.
  - destruct (Hc _ _ _ _ _ _ _ Hs0 Hk) as (o & Ho & H). exists o. split; [done|]. apply elem_of_app. by right.
Qed.

Lemma follows_retry : follows (retry_recoveries (D := D)).
Proof.
  unfold retry_recoveries, if_tracker, update_tracker_outcomes.
  apply follows_bind; [apply follows_attempt, follows_sweep|intros sw].
  apply follows_bind; [apply follows_attempt, follows_timelock|intros rc].
  case_match; [|by apply follows_same]. apply follows_bind; [by apply follows_same|intros []]; [by apply follows_same|].
  apply follows_bind; [by apply follows_same|]. intros ids. apply follows_update.
Qed.

Lemma all_resolved_spec t r t' : all_contracts_resolved t = (r, t') ->
  tracks t t' /\ (r = Ok true ->
    (forall k c, outgoing t' !! k = Some c -> contract_spent c (world t) (world t')) /\
    (forall k c, incoming t' !! k = Some c -> contract_spent_in c (world t) (world t'))).
Proof.
  unfold all_contracts_resolved, gets, lift, mbind, stateful_bind.
  destruct (tk_wallet_poisoned t); [by intros [= <- <-]|].
  destruct (contract_outpoints (wl_store (tk_wallet t))) as [ops|e|] eqn:E; [|by intros [= <- <-]..].
  intros (H1 & H2 & H3)%all_spent_spec. split; [done|]. intros Hr. apply outpoints_cover in E as [Ho Hi]. rewrite H2.
  split; intros k c Hc; [apply Ho in Hc as (o & Hl & Hc)|apply Hi in Hc as (o & Hl & Hc)];
    exists o; (split; [done|]); by apply (H3 Hr) in Hc.
Qed.

Lemma check_contracts_spec t r t' : filed t -> check_contracts t = (r, t') ->
  tracks t t' /\ (r = Ok true ->
    (forall k c, outgoing t' !! k = Some c -> contract_spent c (world t) (world t')) /\
    (forall k c, incoming t' !! k = Some c -> contract_spent_in c (world t) (world t'))).
Proof.
  intros Hf. unfold check_contracts. unfold mbind at 1, stateful_bind at 1.
  assert (follows (attempt (E' := TakerError) (_ ← read_wallet; on_chain (D := D) to_new_connection))) as H1.
  { apply follows_attempt, follows_bind; [by apply follows_same|]. intros _. by apply follows_chain. }
  specialize (H1 t Hf). destruct (attempt _ t) as [[[u|e]|e|] t1]; cbn in H1; [|by intros [= <- <-]..].
  pose proof (follows_retry t1 (tracks_filed _ _ H1 Hf)) as H2. unfold mbind at 1, stateful_bind at 1.
  assert (tracks t (retry_recoveries t1).2) as H3 by (by etrans). clear H1 H2.
  destruct (retry_recoveries t1) as [[[]|e|] t2]; cbn in H3; [|by intros [= <- <-]..].
  intros (H4 & H5)%all_resolved_spec. split; [by etrans|]. intros Hr. destruct (H5 Hr) as [Ho Hi].
  split; intros k c Hc; eapply (output_spent_mono _ _ _ (world t2)); [apply H3|done|by eapply Ho|apply H3|done|by eapply Hi].
Qed.

(** Cleaning up only forgets outgoing coins. *)
Record forgets t t' : Prop := {
  fg_moves : R (world t) (world t');
  fg_in : incoming t' = incoming t;
  fg_out : outgoing t' ⊆ outgoing t;
}.
#[local] Instance forgets_preorder : PreOrder forgets.
Proof. split; [by intros t; split|]. intros t1 t2 t3 [] []. split; [by etrans|congruence|by etrans]. Qed.

Lemma forgets_same {A} (m : stateful (Taker D) TakerError A) : (forall t, tk_wallet (m t).2 = tk_wallet t) -> steps forgets m.
Proof. intros H t. split; unfold world; by rewrite H. Qed.
Lemma forgets_store f :
  (forall w, wst_incoming_swapcoins (f w) = wst_incoming_swapcoins w) ->
  (forall w, wst_outgoing_swapcoins (f w) ⊆ wst_outgoing_swapcoins w) -> steps forgets (set_store (D := D) f).
Proof. intros Hi Ho t. split; cbn; [done|apply Hi|apply Ho]. Qed.
Lemma forgets_save : steps forgets (save_wallet (D := D)).
Proof.
  unfold save_wallet. apply steps_bind; [exact _| |intros []; apply steps_bind; [exact _|by apply forgets_same|by intros st; apply forgets_same]].
  intros t. unfold on_wallet, save_to_disk. pose proof (rm_write (wl_store (tk_wallet t)) (world t)) as HR. unfold world in HR.
  destruct (write_wallet_file (wl_store (tk_wallet t)) (wl_outside (tk_wallet t))) as [r d] eqn:E. cbn in HR.
  split; unfold world; cbn; unfold in_outside, gets, mbind, stateful_bind; cbn; rewrite ?E; by destruct r.
Qed.
Lemma clean_up_forgets : steps forgets (clean_up (D := D)).
Proof.
  unfold clean_up. apply steps_bind; [exact _|by apply forgets_same|intros p]. apply steps_bind; [exact _|by apply forgets_same|intros ids].
  apply steps_bind; [exact _|by apply forgets_same|intros l]. apply steps_bind; [exact _| |intros []].
  - destruct l; [by apply forgets_same|]. apply steps_bind; [exact _| |intros []; unfold ignore; apply steps_bind;
      [exact _|apply steps_attempt, forgets_save|by intros ?; apply forgets_same]].
    apply steps_for_each; [exact _|]. intros id. unfold forget_swap_coins. apply steps_bind; [exact _|by apply forgets_same|intros w].
    apply steps_bind; [exact _| |intros []; by apply forgets_store].
    apply steps_for_each; [exact _|]. intros key. apply forgets_store; [done|]. intros w'. apply delete_subseteq.
  - unfold if_tracker. apply steps_bind; [exact _|by apply forgets_same|intros []]; [by apply forgets_same|].
    apply steps_for_each; [exact _|]. intros id. apply forgets_same. intros t. apply update_quietly_same.
Qed.

(** What a completed recovery leaves: every remaining contract has a mined spend. *)
Definition resolved_since (d : D) t' : Prop :=
  (forall k c, outgoing t' !! k = Some c -> contract_spent c d (world t')) /\
  (forall k c, incoming t' !! k = Some c -> contract_spent_in c d (world t')).

Lemma forgets_resolved t t1 t2 :
  tracks t t1 -> resolved_since (world t) t1 -> forgets t1 t2 -> tracks t t2 /\ resolved_since (world t) t2.
Proof.
  intros [M O I] [So Si] [Mf If Of]. split.
  - split; [by etrans|..]; intros k.
    + specialize (O k). destruct (outgoing t2 !! k) as [c2|] eqn:E2.
      * by rewrite (lookup_weaken _ _ _ _ E2 Of) in O.
      * destruct (outgoing t !! k) as [c|] eqn:E; [|done]. destruct (outgoing t1 !! k) as [c1|] eqn:E1.
        -- exists c1. split; [done|]. right; right. eapply output_spent_mono; [reflexivity|exact Mf|by eapply So].
        -- by apply (settled_out_mono c c _ (world t) (world t1)); [apply coin_kept_refl| | |].
    + rewrite If. specialize (I k). destruct (incoming t !! k) as [c|], (incoming t1 !! k); try done.
      by apply (swept_mono R fee c _ (world t) (world t1)).
  - split; intros k c Hc; [apply (lookup_weaken _ _ _ _ Hc) in Of|rewrite If in Hc];
      (eapply output_spent_mono; [reflexivity|exact Mf|by eapply So || by eapply Si]).
Qed.

Lemma recovery_pass_spec t r t' : filed t -> taker_recovery_pass t = (r, t') ->
  tracks t t' /\ (r = Ok true -> resolved_since (world t) t').
Proof.
  intros Hf. unfold taker_recovery_pass. unfold mbind at 1, stateful_bind at 1.
  destruct (check_contracts t) as [rc t1] eqn:E. apply check_contracts_spec in E as [H1 H2]; [|done].
  destruct rc as [[]|e|]; [| |by intros [= <- <-]..].
  - unfold mbind, stateful_bind. pose proof (clean_up_forgets t1) as H3. intros Hrun.
    destruct (forgets_resolved _ _ _ H1 (H2 eq_refl) H3) as [H4 H5].
    destruct (clean_up t1) as [[[]|e|] t2]; injection Hrun as <- <-; by split.
  - intros [= <- <-]. split; [|done]. etrans; [exact H1|]. apply (follows_world (cc_sleep RECOVERY_LOOP_INTERVAL));
      [intros d; apply moves_sleep|by eapply tracks_filed].
Qed.

Lemma recovery_loop_spec passes : forall t r t', filed t -> taker_recovery_loop passes t = (r, t') ->
  tracks t t' /\ (r = Ok true -> resolved_since (world t) t').
Proof.
  induction passes as [|passes IH]; intros t r t' Hf; cbn [taker_recovery_loop]; [by intros [= <- <-]|].
  unfold mbind, stateful_bind, gets. destruct (cc_shutdown (world t)); [by intros [= <- <-]|].
  destruct (taker_recovery_pass t) as [rc t1] eqn:E. apply recovery_pass_spec in E as [H1 H2]; [|done].
  destruct rc as [[]|e|]; [by intros [= <- <-]; auto| |by intros [= <- <-]..].
  intros Hrun. apply IH in Hrun as [H3 H4]; [|by eapply tracks_filed]. split; [by etrans|].
  intros Hr. destruct (H4 Hr) as [Ho Hi].
  split; intros k c Hc; (eapply output_spent_mono; [apply H1|reflexivity|by eapply Ho || by eapply Hi]).
Qed.

End safety.

(** ** A concrete taker *)
#[local] Existing Instance Reference.lib.
#[local] Existing Instance TapReference.tap.
#[local] Existing Instance key_order.

#[local] Instance node_taker : TakerOutside RecoveryNode := {|
  to_new_connection d := (Ok (), d);
  to_now_secs _ := 0;
  to_tracker_faults _ := None;
  to_random_key d := (1, d);
  to_create_funding_txes _ _ _ _ _ w := (Err (WE_General "no funds"), w);
  to_connect _ d := (Err (TE_General "offline"), d);
  to_send _ _ d := (Err (TE_General "offline"), d);
  to_receive _ d := (Err (TE_General "offline"), d);
  to_watch_alive _ := true;
  to_register_watch _ _ d := (Ok (), d);
  to_breached _ := false;
  to_unknown _ := false;
  to_start_heartbeat _ _ d := d;
  to_address_script a := [1];
  to_unwatch _ _ d := d;
  to_start_detector d := (Ok (), d);
  to_start_recovery d := (Ok (), d);
  to_swap_report _ d := (Ok (), d);
|}.

Definition ex_recovering : Taker RecoveryNode :=
  Build_Taker None (sw_wallet (ex_wallet ex_signed_outgoing (ex_node {[ ex_contract_out := 61 ]} [] false)))
    false (load_or_create {| disk_file := None; disk_tmp := None |} true) false None false [].
Definition ex_recovery : outcome TakerError bool * Taker RecoveryNode := taker_recovery_loop 3 ex_recovering.

Lemma node_connects d : node_history d (to_new_connection d).2.
Proof. unfold node_history. reflexivity. Qed.

(** A record names no outcome of a contract before it is resolved, so the first
    sweep of an incoming coin already counts the outgoing side as recovered. *)
Lemma first_sweep_counts_as_outgoing_recovery (r : SwapRecord) contract spend :
  contract ∈ sr_incoming_contract_txids r -> sr_recovery r = RecoveryState_default ->
  rs_phase (sr_recovery (record_outcomes (Some {| ro_resolved := [(contract, spend)]; ro_discarded := [] |}) None r))
    = OutgoingRecovered.
Proof.
  intros Hc Hd. unfold record_outcomes. rewrite Hd. cbn. by rewrite bool_decide_eq_true_2.
Qed.
