(* ===== verification/TakerScenario.v ===== *)
(** A concrete taker, a maker that answers honestly and makers that do not: the
    witnesses of the taker theorems and the weaknesses a run shows. *)
From S2P Require Import Prelude Float64 Bitcoin Messages Contract Errors SwapCoin ScriptEval TaprootLib Taproot TakerTracker TakerState Payment LegacyVerification WalletStore MakerApi MakerFunding ChainWait WalletRecovery TakerApi TakerFunding TakerLegacy TakerTaproot TakerSwap TakerSteps TakerLegacySafety TakerExchange TakerCoins TakerRecovery.
#[local] Open Scope string_scope.
#[local] Open Scope list_scope.
#[local] Open Scope Z_scope.

#[local] Existing Instance Reference.lib.
#[local] Existing Instance Reference.laws.
#[local] Existing Instance TapReference.tap.
#[local] Existing Instance key_order.

(** A maker is a function of the messages it received, newest first; every
    transaction is confirmed at once at height 800. *)
Record Route := {
  rt_sent : list TakerToMakerMessage;
  rt_reply : list TakerToMakerMessage -> outcome TakerError MakerToTakerMessage;
  rt_next_key : SecretKey;
  rt_relayed : nat;
  rt_relay_limit : nat;
}.

#[local] Instance route_file : WalletFile Route := {| write_wallet_file _ d := (Ok (), d) |}.
#[local] Instance route_chain : RecoveryChain Route := {|
  rc_clock := {|
    cc_now _ := 0;
    cc_sleep _ d := d;
    cc_shutdown _ := false;
    cc_tx_confirmations _ d := (Ok (Some 1), d);
    cc_tx_block_height _ d := (Ok (Some 800), d);
  |};
  rc_get_tx_out _ _ _ d := (Ok (Some 1), d);
  rc_is_confirmed_spend _ _ d := (Ok false, d);
  rc_send_raw_transaction tx d :=
    if (rt_relayed d <? rt_relay_limit d)%nat
    then (Ok (compute_txid tx), {| d with rt_relayed := S (rt_relayed d) |})
    else (Err (WE_Rpc (RPC_Other "rejected")), d);
  rc_get_block_count d := (Ok 800, d);
  rc_derive_addresses _ start _ d := (Ok [[1; start]], d);
  rc_require_network _ := true;
  rc_nonces d := ((1, 2), d);
  rc_sync_and_save w := (Ok (), w);
|}.
#[local] Instance route_outside : TakerOutside Route := {|
  to_new_connection d := (Ok (), d);
  to_now_secs _ := 0;
  to_tracker_faults _ := None;
  to_random_key d := (rt_next_key d, {| d with rt_next_key := rt_next_key d + 1 |});
  to_create_funding_txes _ _ _ _ _ w := (Err (WE_General "no funds"), w);
  to_connect _ d := (Ok 0%nat, d);
  to_send _ m d := (Ok (), {| d with rt_sent := m :: rt_sent d |});
  to_receive _ d := (rt_reply d (rt_sent d), d);
  to_watch_alive _ := true;
  to_register_watch _ _ d := (Ok (), d);
  to_breached _ := false;
  to_unknown _ := false;
  to_start_heartbeat _ _ d := d;
  to_address_script a := [1];
  to_unwatch _ _ d := d;
  to_start_detector d := (Ok (), d);
  to_start_recovery d := (Ok (), d);
  to_swap_report _ d := (Ok (), d);
|}.

Definition ok_else {E A} (x : A) (m : outcome E A) : A := match m with Ok a => a | _ => x end.
Definition no_tx : Transaction := ex_tx (ex_txin 0 []) [].
Definition no_sig : Signature := {| sig_bytes := []; sighash_type := SIGHASH_ALL |}.

(** The taker's coin for the first hop: its key is 21, the maker's 22. *)
Definition sc_contract (rs : Script) (funding : Transaction) (amount : Amount) : Transaction :=
  ok_else no_tx (create_senders_contract_tx {| op_txid := compute_txid funding; op_vout := 0 |} amount rs).
Definition sc_multisig : Script := create_multisig_redeemscript (pubkey_of 21) (pubkey_of 22).
Definition sc_funding : Transaction := ex_tx (ex_txin 0 []) [ex_out sc_multisig].
Definition sc_script : Script := create_contract_redeemscript (pubkey_of 23) (pubkey_of 24) (hash160 ex_preimage) 40.
Definition sc_coin : OutgoingSwapCoin :=
  {| (osc_new_legacy 21 (pubkey_of 22) (sc_contract sc_script sc_funding 5000) sc_script 24 5000)
     with osc_funding_tx := Some sc_funding; osc_swap_id := Some "swap" |}.

(** A second coin with a funding of its own. *)
Definition sc_funding2 : Transaction := ex_tx (ex_txin 2 []) [ex_out sc_multisig].
Definition sc_coin2 : OutgoingSwapCoin :=
  {| (osc_new_legacy 21 (pubkey_of 22) (sc_contract sc_script sc_funding2 5000) sc_script 24 5000)
     with osc_funding_tx := Some sc_funding2; osc_swap_id := Some "swap" |}.

(** The maker's contract towards the taker, for the keys of a proof of funding;
    [build] is the order the maker puts the two keys in. *)
Definition sc_info (build : PublicKey -> PublicKey -> Script) (w : list bytes) (next : NextHopInfo) : SenderContractTxInfo :=
  let multisig := build (nhi_next_multisig_pubkey next) (pubkey_of 31) in
  let script := create_contract_redeemscript (nhi_next_hashlock_pubkey next) (pubkey_of 32) (hash160 ex_preimage) 40 in
  let funding := ex_tx (ex_txin 1 []) [ex_out multisig] in
  let contract := sc_contract script funding 5000 in
  {| sct_funding_tx := funding;
     sct_contract_tx := {| contract with input := map (fun i => {| i with witness := w |}) (input contract) |};
     sct_timelock_pubkey := pubkey_of 32; sct_multisig_redeemscript := multisig; sct_contract_redeemscript := script;
     sct_funding_amount := 5000; sct_multisig_nonce := 1; sct_hashlock_nonce := 1 |}.

Definition maker_reply (build : PublicKey -> PublicKey -> Script) (w : list bytes)
    (receiver_sigs : list TakerToMakerMessage -> list ContractTxInfoForRecvr -> list Signature)
    (sent : list TakerToMakerMessage) : outcome TakerError MakerToTakerMessage :=
  match sent with
  | TM_TakerHello :: _ => Ok (MT_MakerHello {| mh_supported_protocols := [Legacy] |})
  | TM_ReqContractSigsForSender req :: _ =>
      Ok (MT_RespContractSigsForSender {| psr_id := rss_id req;
        psr_sigs := map (fun i => ok_else no_sig (sign_contract_tx (cts_senders_contract_tx i)
          (cts_multisig_redeemscript i) (cts_funding_input_value i) 22)) (rss_txs_info req) |})
  | TM_ProofOfFunding pof :: _ =>
      Ok (MT_ReqContractSigsAsRecvrAndSender {| rrs_receivers_contract_txs := [osc_contract_tx sc_coin];
        rrs_senders_contract_txs_info := map (sc_info build w) (pof_next_openswap_info pof) |})
  | TM_ReqContractSigsForRecvr req :: _ =>
      Ok (MT_RespContractSigsForRecvr {| prr_id := rsr_id req; prr_sigs := receiver_sigs sent (rsr_txs req) |})
  | _ => Err (TE_General "connection reset")
  end.

(** The maker's own signatures on the contracts of the last hop. *)
Definition own_sigs (_ : list TakerToMakerMessage) (txs : list ContractTxInfoForRecvr) : list Signature :=
  map (fun i => ok_else no_sig (sign_contract_tx (ctr_contract_tx i) (ctr_multisig_redeemscript i) 5000 31)) txs.
(** The signatures the taker itself sent before. *)
Definition replayed_sigs (sent : list TakerToMakerMessage) (_ : list ContractTxInfoForRecvr) : list Signature :=
  concat (omap (fun m => match m with TM_RespContractSigsForRecvrAndSender r => Some (prs_senders_sigs r) | _ => None end) sent).

Definition sc_maker : MakerConnection := {| (fresh_maker "maker" Legacy None) with mc_negotiated_timelock := 40 |}.
Definition sc_swap (coins : list OutgoingSwapCoin) (spares : list string) : OngoingSwapState :=
  {| os_id := "swap"; os_preimage := ex_preimage; os_params := with_tx_count (SwapParams_new Legacy 5000 1) (zlen coins);
     os_makers := [sc_maker]; os_outgoing_swapcoins := coins; os_incoming_swapcoins := []; os_watchonly_swapcoins := [];
     os_multisig_nonces := map (fun _ => 1) coins; os_hashlock_nonces := map (fun _ => 2) coins;
     os_spare_makers := spares; os_phase := TakerTracker.Negotiated; os_reference_height := Some 800; os_payment := None |}.
Definition sc_taker (coins : list OutgoingSwapCoin) (spares : list string)
    (reply : list TakerToMakerMessage -> outcome TakerError MakerToTakerMessage) (relay : nat) : Taker Route :=
  Build_Taker (Some (sc_swap coins spares))
    (Build_Wallet WalletStore_init
       {| rt_sent := []; rt_reply := reply; rt_next_key := 41; rt_relayed := 0; rt_relay_limit := relay |})
    false (load_or_create {| disk_file := None; disk_tmp := None |} true) false None false [].
Definition honest : Taker Route := sc_taker [sc_coin] [] (maker_reply create_multisig_redeemscript [] own_sigs) 9.

(** ** Runs *)
Definition broadcast_in (tr : list TakerEvent) : list Transaction :=
  omap (fun e => match e with EvBroadcast tx => Some tx | _ => None end) tr.
(** The coin completes to a transaction that spends the maker's funding. *)
Definition publishable (build : PublicKey -> PublicKey -> Script) (c : IncomingSwapCoin) : bool :=
  match isc_my_pubkey c, isc_create_signed_contract_tx c with
  | Some k, Ok tx => p2wsh_spendable tx (ex_out (build k (pubkey_of 31)))
  | _, _ => false
  end.
(** The result, what was broadcast and which of the incoming coins can be published. *)
Definition summary (build : PublicKey -> PublicKey -> Script) (run : outcome TakerError () * Taker Route) :=
  (run.1, broadcast_in (tk_trace run.2), map (publishable build) (incoming_of run.2)).
Definition run_with (build : PublicKey -> PublicKey -> Script) (w : list bytes)
    (sigs : list TakerToMakerMessage -> list ContractTxInfoForRecvr -> list Signature) :=
  summary build (exchange_legacy (sc_taker [sc_coin] [] (maker_reply build w sigs) 9)).

(** With an honest maker the exchange succeeds and the coin can be published. *)
Lemma honest_summary : summary create_multisig_redeemscript (exchange_legacy honest) = (Ok (), [sc_funding], [true]).
Proof. vm_compute. reflexivity. Qed.
Lemma summary_run build run r txs coins :
  summary build run = (r, txs, coins) -> run.1 = r /\ broadcast_in (tk_trace run.2) = txs.
Proof. unfold summary. by intros [= <- <- _]. Qed.
Lemma honest_run : (exchange_legacy honest).1 = Ok ().
Proof. exact (proj1 (summary_run _ _ _ _ _ honest_summary)). Qed.
Lemma honest_broadcast : broadcast_in (tk_trace (exchange_legacy honest).2) = [sc_funding].
Proof. exact (proj2 (summary_run _ _ _ _ _ honest_summary)). Qed.

Lemma run_pair {A B} (p : A * B) x : p.1 = x -> p = (x, p.2).
Proof. by intros <-; destruct p. Qed.

(** ** Witnesses *)
Lemma broadcast_in_split tr tx : tx ∈ broadcast_in tr -> exists post pre, tr = post ++ EvBroadcast tx :: pre.
Proof.
  unfold broadcast_in. rewrite list_elem_of_omap. intros (e & He & H). destruct e; try done. injection H as ->.
  apply list_elem_of_split in He as (post & pre & ->). by exists post, pre.
Qed.

(** A swap with two funding transactions, both of which go out. *)
Definition two_coins : Taker Route :=
  sc_taker [sc_coin; sc_coin2] [] (maker_reply create_multisig_redeemscript [] own_sigs) 9.
Lemma two_coins_broadcast : broadcast_in (tk_trace (exchange_legacy two_coins).2) = [sc_funding2; sc_funding].
Proof. vm_compute. reflexivity. Qed.
Lemma sc_coin_owned : owned sc_coin /\ owned sc_coin2.
Proof.
  split; [exists 21, (pubkey_of 22), sc_funding|exists 21, (pubkey_of 22), sc_funding2]; do 2 eexists;
    (split; [split; [reflexivity|]; split; [reflexivity|]; split; [reflexivity|]; split; [reflexivity|];
             split; [split; reflexivity|]; eexists; split; vm_compute; reflexivity
            |repeat split; vm_compute; reflexivity]).
Qed.


Lemma exchanged_coins_are_backed_witness :
  exists c info my other sig, incoming_of (exchange_legacy honest).2 = [c] /\ backed ex_preimage c info my other sig.
Proof.
  destruct (exchanged_coins_are_backed honest (exchange_legacy honest).2 (sc_swap [sc_coin] []) eq_refl
    ltac:(discriminate) eq_refl eq_refl (run_pair _ _ honest_run)) as (Hl & _ & Hb).
  destruct (incoming_of (exchange_legacy honest).2) as [|c [|]] eqn:E; [discriminate Hl| |].
  - destruct (Hb c ltac:(by left)) as (info & my & other & sig & B & _). exists c, info, my, other, sig. split; [reflexivity|exact B].
  - exfalso. unfold zlen in Hl. change (swp_tx_count _) with 1 in Hl. cbn [length] in Hl. lia.
Defined.

Lemma taker_loops_end_witness :
  (1 + length (spares_of honest) <= 9)%nat /\
  exchange_loop 9 1 1 "swap" 0 ExchangeVars_init honest =
    exchange_loop (1 + length (spares_of honest)) 1 1 "swap" 0 ExchangeVars_init honest.
Proof.
  assert (1 + length (spares_of honest) <= 9)%nat as H by (cbn; lia). split; [exact H|].
  apply (taker_loops_end honest 9), H.
Defined.

(** ** Coins that cannot be published

    Each run succeeds, and the incoming coin it leaves completes to a contract
    transaction the maker's funding output does not accept. *)
Definition script_of (k1 k2 : PublicKey) : Script := 82 :: 33 :: inner k1 ++ 33 :: inner k2 ++ [82; 174].
Definition misordered (k1 k2 : PublicKey) : Script :=
  if bool_decide (script_of k1 k2 = create_multisig_redeemscript k1 k2) then script_of k2 k1 else script_of k1 k2.

(** [verify_receiver_sigs] takes a signature of either key: the last maker can
    return the taker's own signature, which it was sent with the combined
    signatures. *)
Lemma replayed_signature_is_accepted : run_with create_multisig_redeemscript [] replayed_sigs = (Ok (), [sc_funding], [false]).
Proof. vm_compute. reflexivity. Qed.
(** A 2-of-2 with its keys in the other order passes the checks, and the coin
    rebuilds it in the usual order. *)
Lemma misordered_multisig_is_accepted : run_with misordered [] own_sigs = (Ok (), [sc_funding], [false]).
Proof. vm_compute. reflexivity. Qed.
(** A witness on the contract's input is not looked at, and the signatures are
    appended to it. *)
Lemma stale_witness_is_accepted : run_with create_multisig_redeemscript [[9]] own_sigs = (Ok (), [sc_funding], [false]).
Proof. vm_compute. reflexivity. Qed.

(** ** Funding that is forgotten

    Two funding transactions, the second of which the node refuses: the first is
    out, yet the swap still counts as one without funds on chain, so the failure
    drops its record, and with a spare maker its coins are removed from the
    wallet before new ones are made. *)
Definition half_funded : Taker Route :=
  (exchange_legacy (sc_taker [sc_coin; sc_coin2] ["spare"] (maker_reply create_multisig_redeemscript [] own_sigs) 1)).2.
Definition knows_coin (t : Taker Route) : bool :=
  bool_decide (is_Some (wst_outgoing_swapcoins (wl_store (tk_wallet t)) !! compute_txid (osc_contract_tx sc_coin))).
Definition knows_swap (t : Taker Route) : bool :=
  bool_decide (is_Some (tk_ongoing_swap t)) || bool_decide (is_Some (get_record "swap" (tk_swap_tracker t))).
Definition aftermath (t : Taker Route) :=
  (rt_relayed (world t), before_broadcast t, knows_coin t, knows_coin (funding_reinitialize t).2,
   knows_swap t, knows_swap (end_failed_exchange (TE_General "{:?}") t).2).

Lemma partial_funding_counts_as_none : aftermath half_funded = (1%nat, true, true, false, true, false).
Proof. vm_compute. reflexivity. Qed.

(** ** A recovery that ends during a swap

    The recovery loop finds every contract of earlier swaps resolved; before it
    cleans up, the taker funds its next swap.  The clean-up goes by the incomplete
    records, so it removes the coin of the funding that just went out and marks
    the running swap as recovered. *)
Definition during_swap : outcome TakerError bool * list Transaction * (bool * bool) * option RecoveryPhase :=
  let checked := check_contracts honest in
  let funded := (exchange_legacy checked.2).2 in
  let cleaned := (clean_up funded).2 in
  (checked.1, broadcast_in (tk_trace funded), (knows_coin funded, knows_coin cleaned),
   (fun r => rs_phase (sr_recovery r)) <$> get_record "swap" (tk_swap_tracker cleaned)).

Lemma recovery_cleans_up_running_swap : during_swap = (Ok true, [sc_funding], (true, false), Some CleanedUp).
Proof. vm_compute. reflexivity. Qed.

(** ** Counts that are not checked *)
Lemma forwarded_signatures_may_be_missing infos : verify_sender_sigs_from_info [] infos = Ok ().
Proof. done. Qed.
Lemma short_handover_leaves_coins_without_keys c1 c2 k :
  isc_other_pubkey c1 = Some (pubkey_of k) ->
  accept_privkeys [c1; c2] [k] = (Ok (), [isc_set_other_privkey c1 k; c2]).
Proof. intros H. cbn. rewrite H. by rewrite bool_decide_eq_false_2 by (intros Hn; by apply Hn). Qed.
