(* ===== verification/OfferBook.v ===== *)
(** The taker's offer book: src/taker/offers.rs.

    [OfferBook] is the list of known makers with their offers and standing.  The
    workers of a sync download and verify offers without the lock and record the
    results under it, so a result may meet a book that changed in between:
    [BookState] holds the results still to be recorded, and [book_step] is one
    action of a worker, of the service or of a user.  The node, the sockets and
    the file are [OfferOutside]. *)
From Stdlib Require Import Ascii String.
From S2P Require Import Prelude Float64 Bitcoin Messages Contract Errors WatchRegistry TakerState Fidelity.
#[local] Open Scope string_scope.
#[local] Open Scope list_scope.
#[local] Open Scope Z_scope.

Definition FIRST_CONNECT_ATTEMPTS : nat := 3.
Definition FIRST_CONNECT_SLEEP_DELAY_SEC : Z := 1000.
Definition OFFER_MAX_AGE_BEFORE_REFRESH : Z := 30 * 60.
Definition UNRESPONSIVE_MAKER_BACKOFF_STEP : Z := 30 * 60.

(** ** Data *)
Inductive MakerState := Good | Unresponsive (retries : Z) | Bad.
#[global] Instance MakerState_eq_dec : EqDecision MakerState.
Proof. solve_decision. Defined.

Inductive MakerProtocol := MP_Legacy | MP_Taproot | MP_Unified.
#[global] Instance MakerProtocol_eq_dec : EqDecision MakerProtocol.
Proof. solve_decision. Defined.

Abbreviation MakerAddress := string.

Record OfferAndAddress := {
  oa_offer : Offer;
  oa_address : MakerAddress;
  oa_state : MakerState;
  oa_protocol : MakerProtocol;
}.

Record MakerOfferCandidate := {
  moc_address : MakerAddress;
  moc_fidelity_outpoint : option OutPoint;
  moc_offer : option Offer;
  moc_state : MakerState;
  moc_protocol : option MakerProtocol;
  moc_last_offer_update_ts : option Z;
  moc_next_offer_check_ts : option Z;
}.

Abbreviation OfferBook := (list MakerOfferCandidate).

Definition supports (p requested : MakerProtocol) : bool :=
  match p with
  | MP_Unified => true
  | MP_Legacy => bool_decide (requested = MP_Legacy)
  | MP_Taproot => bool_decide (requested = MP_Taproot)
  end.

(** [MakerAddress::try_from(String)]. *)
Fixpoint ends_with (suffix s : string) : bool :=
  (s =? suffix)%string || match s with EmptyString => false | String _ s => ends_with suffix s end.
Definition address_try_from (value : string) : option MakerAddress :=
  if (value =? EmptyString)%string then None else if ends_with ".onion" value then Some value else None.
Definition string_of_bytes (bs : bytes) : string :=
  String.string_of_list_ascii (map (fun b => ascii_of_N (Z.to_N b)) bs).

(** ** A maker *)
Definition saturating_add_u64 (a b : Z) : Z := Z.min (a + b) (2 ^ 64 - 1).

Definition candidate_mark_success (offer : Offer) (protocol : MakerProtocol) (now_ts : Z) (m : MakerOfferCandidate)
    : MakerOfferCandidate :=
  {| m with moc_fidelity_outpoint := Some (fb_outpoint (fp_bond (of_fidelity offer))); moc_offer := Some offer;
            moc_protocol := Some protocol; moc_last_offer_update_ts := Some now_ts; moc_next_offer_check_ts := None;
            moc_state := Good |}.

Definition after_failure (s : MakerState) : MakerState :=
  match s with
  | Good => Unresponsive 1
  | Unresponsive retries => if retries <? 10 then Unresponsive (retries + 1) else Bad
  | Bad => Bad
  end.

Definition candidate_mark_failure (now_ts : Z) (m : MakerOfferCandidate) : MakerOfferCandidate :=
  let base := Z.max (default now_ts (moc_next_offer_check_ts m)) now_ts in
  {| m with moc_next_offer_check_ts := Some (saturating_add_u64 base UNRESPONSIVE_MAKER_BACKOFF_STEP);
            moc_state := after_failure (moc_state m) |}.

Definition as_offer_and_address (m : MakerOfferCandidate) : option OfferAndAddress :=
  match moc_offer m, moc_protocol m with
  | Some offer, Some protocol =>
      Some {| oa_offer := offer; oa_address := moc_address m; oa_state := moc_state m; oa_protocol := protocol |}
  | _, _ => None
  end.

(** ** The book *)

(** [iter_mut().find(..)] and the change of what it finds. *)
Fixpoint update_maker_entry (address : MakerAddress) (f : MakerOfferCandidate -> MakerOfferCandidate) (b : OfferBook) : OfferBook :=
  match b with
  | [] => []
  | m :: b => if (moc_address m =? address)%string then f m :: b else m :: update_maker_entry address f b
  end.

Definition knows_address (address : MakerAddress) (b : OfferBook) : bool :=
  existsb (fun m => (moc_address m =? address)%string) b.

Definition upsert_address (address : MakerAddress) (txid : option Txid) (b : OfferBook) : OfferBook :=
  if knows_address address b then b
  else b ++ [{| moc_address := address;
                moc_fidelity_outpoint := (fun t => {| op_txid := t; op_vout := 0 |}) <$> txid;
                moc_offer := None; moc_state := Unresponsive 0; moc_protocol := None;
                moc_last_offer_update_ts := None; moc_next_offer_check_ts := None |}].

Definition book_mark_success (address : MakerAddress) (offer : Offer) (protocol : MakerProtocol) (now_ts : Z) : OfferBook -> OfferBook :=
  update_maker_entry address (candidate_mark_success offer protocol now_ts).
Definition book_mark_failure (address : MakerAddress) (now_ts : Z) : OfferBook -> OfferBook :=
  update_maker_entry address (candidate_mark_failure now_ts).
Definition mark_bad (address : MakerAddress) : OfferBook -> OfferBook :=
  update_maker_entry address (fun m => {| m with moc_state := Bad |}).
(** Removal as [OfferBookHandle::remove] does it. *)
Definition remove_address (address : MakerAddress) (b : OfferBook) : OfferBook :=
  filter (fun m => moc_address m <> address) b.

Inductive FidelityCheckError := BackendDown (e : TakerError) | BadBond (e : TakerError).

Definition record_fidelity_failure (address : MakerAddress) (err : FidelityCheckError) (now_ts : Z) (b : OfferBook) : OfferBook :=
  match err with
  | BadBond _ => book_mark_failure address now_ts b
  | BackendDown _ => b
  end.

Definition is_due (now_ts : Z) (m : MakerOfferCandidate) : bool :=
  match moc_state m with Bad => false | _ => true end
  && match moc_next_offer_check_ts m with Some next_ts => next_ts <=? now_ts | None => true end
  && match moc_last_offer_update_ts m with
     | Some last_ts => OFFER_MAX_AGE_BEFORE_REFRESH <=? Z.max (now_ts - last_ts) 0
     | None => true
     end.
Definition makers_to_poll (now_ts : Z) (b : OfferBook) : list MakerAddress :=
  map moc_address (filter (fun m => is_due now_ts m = true) b).

(** [sort_by] on the addresses: a stable insertion sort. *)
Fixpoint insert_offer (x : OfferAndAddress) (l : list OfferAndAddress) : list OfferAndAddress :=
  match l with
  | [] => [x]
  | y :: l => if String.leb (oa_address x) (oa_address y) then x :: y :: l else y :: insert_offer x l
  end.
Definition sort_offers (l : list OfferAndAddress) : list OfferAndAddress := foldr insert_offer [] l.

Definition in_state (s : MakerState) (protocol : MakerProtocol) (m : MakerOfferCandidate) : bool :=
  bool_decide (moc_state m = s) && match moc_protocol m with Some p => supports p protocol | None => false end.
Definition active_makers (protocol : MakerProtocol) (b : OfferBook) : list OfferAndAddress :=
  sort_offers (omap as_offer_and_address (filter (fun m => in_state Good protocol m = true) b)).
Definition get_bad_makers (protocol : MakerProtocol) (b : OfferBook) : list OfferAndAddress :=
  sort_offers (omap as_offer_and_address (filter (fun m => in_state Bad protocol m = true) b)).
Definition good_makers (b : OfferBook) : list OfferAndAddress :=
  omap as_offer_and_address (filter (fun m => moc_state m <> Bad) b).
Definition is_bad_maker (address : MakerAddress) (b : OfferBook) : bool :=
  match list_find (fun m => moc_address m = address) b with
  | Some (_, m) => bool_decide (moc_state m = Bad)
  | None => true
  end.

(** ** Polling *)
Class OfferOutside (D : Type) := {
  oo_connect : MakerAddress -> stateful D TakerError nat;
  oo_send : nat -> TakerToMakerMessage -> stateful D TakerError ();
  oo_receive : nat -> stateful D TakerError MakerToTakerMessage;
  oo_shutdown : D -> bool;
  oo_sleep_ms : Z -> D -> D;
  oo_get_raw_transaction : Txid -> stateful D WalletError Transaction;
  oo_get_tx_out : Txid -> Z -> stateful D WalletError (option ());
  oo_get_block_count : stateful D WalletError Z;
  oo_tx_block_height : Txid -> stateful D WalletError (option Z);
}.

(** What a worker brings back from a maker. *)
Abbreviation PollResult := (option (OfferAndAddress * (() + FidelityCheckError))).

Section polling.
Context {lib : BitcoinLib} {cert : CertLib} {D : Type} {oo : OfferOutside D}.

(** The offer without the raw bond transaction a peer may have attached. *)
Definition stored_offer (o : Offer) : Offer :=
  {| o with of_fidelity := {| (of_fidelity o) with fp_bond := {| (fp_bond (of_fidelity o)) with fb_tx := None |} |} |}.

Definition fetch_offer (address : MakerAddress) : stateful D TakerError (Offer * MakerProtocol) :=
  socket ← oo_connect address;
  _ ← oo_send socket TM_TakerHello;
  msg ← oo_receive socket;
  _ ← match msg with
      | MT_MakerHello _ => mret ()
      | _ => lift (Err (TE_Wallet (WE_Protocol (PE_WrongMessage "MakerHello" "{msg:?}"))))
      end;
  _ ← oo_send socket TM_GetOffer;
  offer_msg ← oo_receive socket;
  match offer_msg with
  | MT_Offer offer => mret (stored_offer offer, MP_Unified)
  | _ => lift (Err (TE_Wallet (WE_Protocol (PE_WrongMessage "Offer" "{msg:?}"))))
  end.

Definition download_offer_auto (address : MakerAddress) : stateful D TakerError OfferAndAddress :=
  '(offer, protocol) ← fetch_offer address;
  mret {| oa_offer := offer; oa_address := address; oa_state := Good; oa_protocol := protocol |}.

(** The pause between two attempts, in slices of 100 ms; [false] on shutdown. *)
Fixpoint pause (slices : nat) : stateful D TakerError bool :=
  match slices with
  | O => mret true
  | S slices =>
      down ← gets oo_shutdown;
      if (down : bool) then mret false
      else _ ← modify (oo_sleep_ms 100); pause slices
  end.

(** The attempts to come; a shutdown ends them like a failure. *)
Fixpoint download_attempts (attempts : nat) (address : MakerAddress) : stateful D TakerError (option OfferAndAddress) :=
  match attempts with
  | O => mret None
  | S attempts =>
      down ← gets oo_shutdown;
      if (down : bool) then mret None
      else
        r ← attempt (E := TakerError) (download_offer_auto address);
        match r with
        | inl offer => mret (Some offer)
        | inr _ =>
            if (0 <? attempts)%nat then
              awake ← pause (Z.to_nat (FIRST_CONNECT_SLEEP_DELAY_SEC / 100));
              if (awake : bool) then download_attempts attempts address else mret None
            else mret None
        end
  end.
Definition download_offer_with_retries : MakerAddress -> stateful D TakerError (option OfferAndAddress) :=
  download_attempts FIRST_CONNECT_ATTEMPTS.

(** A failed call of the node says nothing about the maker. *)
Definition backend {A} (op : stateful D WalletError A) : stateful D FidelityCheckError A := fun d =>
  let '(r, d) := op d in (map_err (fun e => BackendDown (TE_Wallet e)) r, d).

Definition verify_fidelity_with_backend (proof : FidelityProof) (onion_addr : string) (tweakable_point : PublicKey)
    (tweak_chain_code : bytes) : stateful D FidelityCheckError () :=
  let txid := op_txid (fb_outpoint (fp_bond proof)) in
  let vout := op_vout (fb_outpoint (fp_bond proof)) in
  transaction ← backend (oo_get_raw_transaction txid);
  unspent ← backend (oo_get_tx_out txid vout);
  _ ← lift (reject (bool_decide (unspent = None))
        (BadBond (TE_General "Fidelity bond output {txid}:{vout} is spent or does not exist")));
  current_height ← backend oo_get_block_count;
  height ← backend (oo_tx_block_height txid);
  confirmation_height ← lift (ok_or height
        (BadBond (TE_General "Fidelity bond transaction {txid} is not yet confirmed")));
  lift (map_err (fun e => BadBond (TE_Wallet e))
    (verify_fidelity_checks proof (str onion_addr) transaction current_height (wrap 32 confirmation_height)
       tweakable_point tweak_chain_code)).

Definition verdict_of (oa : OfferAndAddress) : stateful D FidelityCheckError () :=
  verify_fidelity_with_backend (of_fidelity (oa_offer oa)) (oa_address oa) (of_tweakable_point (oa_offer oa))
    (of_tweak_chain_code (oa_offer oa)).

(** The part of [fetch_and_record_one] before the lock; [None] at once on shutdown. *)
Definition fetch_and_verify (address : MakerAddress) : stateful D TakerError (option PollResult) :=
  down ← gets oo_shutdown;
  if (down : bool) then mret None
  else
    downloaded ← download_offer_with_retries address;
    match downloaded with
    | None => mret (Some None)
    | Some oa => verdict ← attempt (E' := TakerError) (verdict_of oa); mret (Some (Some (oa, verdict)))
    end.

(** The part under the write guard. *)
Definition record_poll (address : MakerAddress) (result : PollResult) (now : Z) (b : OfferBook) : OfferBook :=
  match result with
  | Some (oa, inl _) => book_mark_success (oa_address oa) (oa_offer oa) (oa_protocol oa) now b
  | Some (oa, inr e) => record_fidelity_failure (oa_address oa) e now b
  | None => book_mark_failure address now b
  end.
Definition captured (address : MakerAddress) (b : OfferBook) : option MakerOfferCandidate :=
  snd <$> list_find (fun m => moc_address m = address) b.

(** The makers the registry announced. *)
Definition upsert_announced (b : OfferBook) (f : Fidelity) : OfferBook :=
  match address_try_from (string_of_bytes (fid_onion_address f)) with
  | Some parsed => upsert_address parsed (Some (fid_txid f)) b
  | None => b
  end.

(** ** The book over time *)
Record BookState := {
  bs_book : OfferBook;
  bs_world : D;
  bs_results : list (MakerAddress * PollResult);
}.

Inductive book_step : BookState -> BookState -> Prop :=
| step_announced s fs :
    book_step s {| s with bs_book := fold_left upsert_announced fs (bs_book s) |}
| step_polled s address :
    book_step s {| s with bs_book := upsert_address address None (bs_book s) |}
| step_fetched s address result d :
    fetch_and_verify address (bs_world s) = (Ok (Some result), d) ->
    book_step s {| s with bs_world := d; bs_results := (address, result) :: bs_results s |}
| step_recorded s address result now rest :
    bs_results s ≡ₚ (address, result) :: rest ->
    book_step s {| s with bs_book := record_poll address result now (bs_book s); bs_results := rest |}
| step_marked_bad s address :
    book_step s {| s with bs_book := mark_bad address (bs_book s) |}
| step_removed s address :
    book_step s {| s with bs_book := remove_address address (bs_book s) |}
| step_world s d :
    book_step s {| s with bs_world := d |}.
End polling.
Arguments BookState : clear implicits.

(** ** The command queue of the service *)
Inductive SyncCommand :=
| SyncNow (done : nat)
| PollMaker (address : MakerAddress) (done : nat).

(** [while let Ok(SyncNow(..)) = rx.try_recv()]: the requests that are answered,
    what is left in the queue, and the command the loop took and dropped. *)
Fixpoint drain_and_ack (queue : list SyncCommand) : list nat * list SyncCommand * option SyncCommand :=
  match queue with
  | SyncNow done :: queue =>
      let '(acked, rest, dropped) := drain_and_ack queue in (done :: acked, rest, dropped)
  | c :: queue => ([], queue, Some c)
  | [] => ([], [], None)
  end.
