(* ===== verification/OfferBookSafety.v ===== *)
(** What the offer book promises the swap drivers: the makers it offers have a
    bond that the node confirmed, whatever the workers, the service and the user
    do in between. *)
From Stdlib Require Import Ascii String Sorted.
From S2P Require Import Prelude Float64 Bitcoin Messages Contract Errors WatchRegistry TakerState Fidelity OfferBook.
#[local] Open Scope string_scope.
#[local] Open Scope list_scope.
#[local] Open Scope Z_scope.

(** ** The list of makers *)
Lemma filter_sublist {A} (P : A -> Prop) `{forall x, Decision (P x)} (l : list A) : filter P l `sublist_of` l.
Proof. induction l as [|x l IH]; [done|]. rewrite filter_cons. by destruct (decide _); constructor. Qed.
Lemma map_sublist {A B} (f : A -> B) (l k : list A) : l `sublist_of` k -> map f l `sublist_of` map f k.
Proof. induction 1; cbn; by constructor. Qed.
Lemma NoDup_sublist {A} (l k : list A) : l `sublist_of` k -> NoDup k -> NoDup l.
Proof.
  induction 1 as [|x l k Hl IH|x l k Hl IH]; [done| |by intros [_ ?]%NoDup_cons; auto].
  intros [Hx Hk]%NoDup_cons. constructor; [|by apply IH]. intros Hin. destruct Hx. by eapply sublist_subseteq.
Qed.

Abbreviation addresses := (map moc_address).

Lemma knows_address_spec a (b : OfferBook) : knows_address a b = true <-> a ∈ addresses b.
Proof.
  unfold knows_address. rewrite existsb_exists, list_elem_of_fmap. split.
  - intros (m & Hm & Ha). apply String.eqb_eq in Ha. exists m. by rewrite list_elem_of_In.
  - intros (m & -> & Hm). exists m. by rewrite <- list_elem_of_In, String.eqb_refl.
Qed.

Lemma update_addresses a f (b : OfferBook) :
  (forall m, moc_address (f m) = moc_address m) -> addresses (update_maker_entry a f b) = addresses b.
Proof.
  intros Hf. induction b as [|m b IH]; [done|]. cbn [update_maker_entry].
  destruct (_ =? _)%string; cbn [map]; [by rewrite Hf|by rewrite IH].
Qed.

(** The entries of a changed book: the old ones, and the changed one. *)
Lemma update_Forall (P : MakerOfferCandidate -> Prop) a f (b : OfferBook) :
  Forall P b -> (forall m, moc_address m = a -> P m -> P (f m)) -> Forall P (update_maker_entry a f b).
Proof.
  intros Hb Hf. induction Hb as [|m b Hm Hb IH]; cbn [update_maker_entry]; [constructor|].
  destruct (_ =? _)%string eqn:E; constructor; try done. apply String.eqb_eq in E. by apply Hf.
Qed.

Lemma insert_offer_perm x l : insert_offer x l ≡ₚ x :: l.
Proof.
  induction l as [|y l IH]; cbn; [done|]. destruct (String.leb _ _); [done|]. rewrite IH. constructor.
Qed.
Lemma sort_offers_perm l : sort_offers l ≡ₚ l.
Proof. induction l as [|x l IH]; cbn; [done|]. by rewrite insert_offer_perm, IH. Qed.

Definition address_le (x y : OfferAndAddress) : Prop := String.leb (oa_address x) (oa_address y) = true.

Lemma insert_offer_sorted x l : Sorted address_le l -> Sorted address_le (insert_offer x l).
Proof.
  induction 1 as [|y l Hl IH Hy]; cbn; [by repeat constructor|].
  destruct (String.leb (oa_address x) (oa_address y)) eqn:E; [by repeat constructor|].
  assert (address_le y x) by (unfold address_le; destruct (String.leb_total (oa_address x) (oa_address y)); congruence).
  constructor; [done|]. destruct Hy as [|z l Hz]; cbn; [by constructor|].
  destruct (String.leb (oa_address x) (oa_address z)); by constructor.
Qed.
Lemma sort_offers_sorted l : Sorted address_le (sort_offers l).
Proof. induction l; cbn; [constructor|]. by apply insert_offer_sorted. Qed.

Lemma distinct_addresses (b : OfferBook) m m' :
  NoDup (addresses b) -> m ∈ b -> m' ∈ b -> moc_address m = moc_address m' -> m = m'.
Proof.
  induction b as [|x b IH]; [by intros _ ?%not_elem_of_nil|]. cbn [map]. intros [Hx Hd]%NoDup_cons Hm Hm' E.
  apply elem_of_cons in Hm as [->|Hm]; apply elem_of_cons in Hm' as [->|Hm']; [done| | |by apply IH].
  - destruct Hx. rewrite E. by apply list_elem_of_fmap_2.
  - destruct Hx. rewrite <- E. by apply list_elem_of_fmap_2.
Qed.

(** The offers of a list of makers name a sublist of their addresses. *)
Lemma offered_addresses (l : OfferBook) : map oa_address (omap as_offer_and_address l) `sublist_of` addresses l.
Proof.
  induction l as [|m l IH]; cbn; [done|]. unfold as_offer_and_address at 1.
  destruct (moc_offer m), (moc_protocol m); cbn; by constructor.
Qed.

Section safety.
Context {lib : BitcoinLib} {laws : BitcoinLaws lib} {cert : CertLib} {D : Type} {oo : OfferOutside D}.

(** What the node and the proof say of a maker's bond. *)
Definition bond_backed (address : MakerAddress) (o : Offer) : Prop :=
  let proof := of_fidelity o in let bond := fp_bond proof in
  let txid := op_txid (fb_outpoint bond) in let vout := op_vout (fb_outpoint bond) in
  exists d1 d2 d3 tx out height,
    (oo_get_raw_transaction txid d1).1 = Ok tx /\ output tx !! Z.to_nat vout = Some out /\
    (oo_get_tx_out txid vout d2).1 = Ok (Some ()) /\
    (oo_tx_block_height txid d3).1 = Ok (Some height) /\
    script_pubkey out = 0 :: 32 :: wscript_hash (fb_redeem_script bond) /\ value out = fb_amount bond /\
    wrap 32 height + MIN_FIDELITY_TIMELOCK <= fb_lock_time bond /\
    fp_cert_hash proof = generate_cert_hash bond (str address) (of_tweakable_point o) /\
    ecdsa_verify (fp_cert_hash proof) (fp_cert_sig proof) (inner (fb_pubkey bond)) = true.

Lemma backend_Ok {A} (op : stateful D WalletError A) d a d' :
  backend op d = (Ok a, d') -> (op d).1 = Ok a.
Proof. unfold backend. destruct (op d) as [[x|e|] d1]; by intros [= -> ->]. Qed.

Lemma verdict_backed oa d d' : verdict_of oa d = (Ok (), d') -> bond_backed (oa_address oa) (oa_offer oa).
Proof.
  unfold verdict_of, verify_fidelity_with_backend, lift. intros H.
  apply st_bind_Ok in H as (tx & d1 & Htx & H). apply st_bind_Ok in H as (u & d2 & Hu & H).
  apply st_bind_Ok in H as ([] & d2' & Hr & H). apply st_bind_Ok in H as (cur & d3 & _ & H).
  apply st_bind_Ok in H as (h & d4 & Hh & H). apply st_bind_Ok in H as (conf & d5 & Hc & H).
  injection Hr as Hr <-. injection Hc as Hc <-. injection H as Hv _.
  apply reject_Ok in Hr. apply ok_or_Ok in Hc as ->. destruct u as [[]|]; [|by rewrite bool_decide_true in Hr].
  destruct (verify_fidelity_checks _ _ _ _ _ _ _) as [[]|e|] eqn:Hok; try done.
  apply verify_fidelity_checks_Ok in Hok as (_ & Hl & _ & _ & Hcert & _ & (out & Ho & Hs & Hval) & Hsig).
  exists d, d1, d3, tx, out, conf. split_and!; try done; [by eapply backend_Ok..|lia].
Qed.

(** ** The invariant *)
Definition entry_ok (m : MakerOfferCandidate) : Prop :=
  match moc_state m with
  | Good => exists offer p, moc_offer m = Some offer /\ moc_protocol m = Some p /\
      fb_tx (fp_bond (of_fidelity offer)) = None /\ bond_backed (moc_address m) offer
  | Unresponsive retries => 0 <= retries <= 10
  | Bad => True
  end.

(** A result still to be recorded that would make its maker good. *)
Definition result_ok (r : MakerAddress * PollResult) : Prop :=
  match r.2 with
  | Some (oa, inl _) => fb_tx (fp_bond (of_fidelity (oa_offer oa))) = None /\ bond_backed (oa_address oa) (oa_offer oa)
  | _ => True
  end.

Record book_ok (s : BookState D) : Prop := {
  ok_distinct : NoDup (addresses (bs_book s));
  ok_entries : Forall entry_ok (bs_book s);
  ok_results : Forall result_ok (bs_results s);
}.

Lemma upsert_ok a txid (b : OfferBook) :
  NoDup (addresses b) -> Forall entry_ok b ->
  NoDup (addresses (upsert_address a txid b)) /\ Forall entry_ok (upsert_address a txid b).
Proof.
  intros Hd Hf. unfold upsert_address. destruct (knows_address a b) eqn:E; [done|].
  assert (Ha : a ∉ addresses b) by (rewrite <- knows_address_spec; congruence).
  split; [|apply Forall_app; split; [done|]; repeat constructor; cbn; lia].
  change (NoDup (moc_address <$> (b ++ [{| moc_address := a;
    moc_fidelity_outpoint := (fun t => {| op_txid := t; op_vout := 0 |}) <$> txid; moc_offer := None;
    moc_state := Unresponsive 0; moc_protocol := None; moc_last_offer_update_ts := None;
    moc_next_offer_check_ts := None |}]))).
  rewrite fmap_app. apply NoDup_app. split_and!; [done| |apply NoDup_singleton].
  intros x Hx ->%list_elem_of_singleton. done.
Qed.

Lemma failure_ok now m : entry_ok m -> entry_ok (candidate_mark_failure now m).
Proof.
  unfold entry_ok, candidate_mark_failure. cbn. destruct (moc_state m) as [|r|]; cbn; [lia| |done].
  intros Hr. destruct (Z.ltb_spec r 10); [lia|done].
Qed.

Lemma record_entries a r now (b : OfferBook) :
  result_ok (a, r) -> Forall entry_ok b -> Forall entry_ok (record_poll a r now b).
Proof.
  intros Hr Hb. destruct r as [[oa [[]|[e|e]]]|]; cbn [record_poll record_fidelity_failure].
  - apply update_Forall; [done|]. intros m E _. destruct Hr as [Hn Hr]. cbn. rewrite E. eauto 6.
  - done.
  - apply update_Forall; [done|]. intros m _. apply failure_ok.
  - apply update_Forall; [done|]. intros m _. apply failure_ok.
Qed.
Lemma record_addresses a r now (b : OfferBook) : addresses (record_poll a r now b) = addresses b.
Proof. destruct r as [[oa [[]|[e|e]]]|]; try done; by apply update_addresses. Qed.

(** Only a download that left the bond's raw transaction out reaches the checks. *)
Lemma fetched_without_raw_tx a d p d' :
  fetch_offer a d = (Ok p, d') -> fb_tx (fp_bond (of_fidelity p.1)) = None.
Proof.
  unfold fetch_offer. intros H. repeat (apply st_bind_Ok in H as (? & ? & _ & H)).
  match type of H with match ?m with _ => _ end _ = _ => destruct m end; try done.
  unfold mret, stateful_ret in H. by injection H as <- <-.
Qed.

Lemma downloaded_offer n a d oa d' :
  download_attempts n a d = (Ok (Some oa), d') -> fb_tx (fp_bond (of_fidelity (oa_offer oa))) = None.
Proof.
  revert d. induction n as [|n IH]; intros d; [done|]. cbn [download_attempts]. intros H.
  apply st_bind_Ok in H as ([] & d1 & _ & H); [done|].
  apply st_bind_Ok in H as ([x|e] & d2 & Hx & H).
  - unfold mret, stateful_ret in H. injection H as -> ->. unfold attempt in Hx.
    destruct (download_offer_auto a d1) as [[y|e|] d3] eqn:E; try done. injection Hx as -> ->.
    unfold download_offer_auto in E. apply st_bind_Ok in E as ([o p] & d4 & Ho & E). unfold mret, stateful_ret in E. injection E as <- <-.
    by apply (fetched_without_raw_tx a d1 (o, p) d4).
  - destruct (0 <? n)%nat; [|done]. apply st_bind_Ok in H as ([] & d3 & _ & H); [|done]. by eapply IH.
Qed.

Lemma fetched_ok a d r d' : fetch_and_verify a d = (Ok (Some r), d') -> result_ok (a, r).
Proof.
  unfold fetch_and_verify. intros H. apply st_bind_Ok in H as ([] & d1 & _ & H); [done|].
  apply st_bind_Ok in H as ([oa|] & d2 & Hd & H); unfold mret, stateful_ret in H; [|by injection H as <- _].
  apply st_bind_Ok in H as (v & d3 & Hv & H). injection H as <- <-. destruct v as [[]|]; [|done].
  split; [by eapply downloaded_offer|]. cbn. unfold attempt in Hv.
  destruct (verdict_of oa d2) as [[[]|e|] d4] eqn:E; try done. by eapply verdict_backed.
Qed.

Lemma step_book_ok s s' : book_step s s' -> book_ok s -> book_ok s'.
Proof.
  intros Hs [Hd He Hr]. destruct Hs as [s fs|s a|s a r d Hf|s a r now rest Hp|s a|s a|s d].
  - assert (NoDup (addresses (fold_left upsert_announced fs (bs_book s))) /\
            Forall entry_ok (fold_left upsert_announced fs (bs_book s))) as [??]; [|by split].
    revert Hd He. generalize (bs_book s) as b. induction fs as [|f fs IH]; intros b Hd He; cbn; [done|].
    apply IH; unfold upsert_announced; destruct (address_try_from _); try done; by apply upsert_ok.
  - by split; [apply upsert_ok..|].
  - split; [done..|]. constructor; [|done]. by eapply fetched_ok.
  - cbn. rewrite Hp in Hr. apply Forall_cons in Hr as [Hr Hrest].
    split; cbn; [by rewrite record_addresses|by apply record_entries|done].
  - split; cbn; [unfold mark_bad; by rewrite update_addresses|by apply update_Forall|done].
  - split; cbn; [|apply Forall_forall; intros m [_ Hm]%list_elem_of_filter; by rewrite Forall_forall in He; apply He|done].
    eapply NoDup_sublist; [|exact Hd]. apply map_sublist, filter_sublist.
  - by split.
Qed.

Lemma reachable_book_ok s s' : rtc book_step s s' -> book_ok s -> book_ok s'.
Proof. induction 1; eauto using step_book_ok. Qed.

Lemma active_from_book p (b : OfferBook) oa :
  oa ∈ active_makers p b -> exists m, m ∈ b /\ in_state Good p m = true /\ as_offer_and_address m = Some oa.
Proof.
  unfold active_makers. rewrite sort_offers_perm. intros (m & Hm & Ho)%list_elem_of_omap.
  apply list_elem_of_filter in Hm as [Hi Hm]. eauto.
Qed.

(** C20: The makers the offer book offers for a swap are distinct, in the order of
    their addresses, marked good, support the protocol asked for, and each has a
    bond the node confirmed for that very address: the bond's transaction was
    found and confirmed, the output was unspent, holds the claimed amount under
    the fidelity script with a lock of at least [MIN_FIDELITY_TIMELOCK] blocks,
    and the certificate commits to the address and the maker's tweakable point.
    This holds after any interleaving of discovery, downloads, delayed results,
    bans and removals.  No maker's failure counter exceeds ten, and no banned
    maker is due for a poll. *)
Theorem offered_makers_are_vetted (s s' : BookState D) (protocol : MakerProtocol) :
  bs_book s = [] -> bs_results s = [] -> rtc book_step s s' ->
  let offered := active_makers protocol (bs_book s') in
  NoDup (map oa_address offered) /\ Sorted address_le offered /\
  Forall (fun oa => oa_state oa = Good /\ supports (oa_protocol oa) protocol = true /\
    fb_tx (fp_bond (of_fidelity (oa_offer oa))) = None /\ bond_backed (oa_address oa) (oa_offer oa)) offered /\
  (forall m r, m ∈ bs_book s' -> moc_state m = Unresponsive r -> 0 <= r <= 10) /\
  (forall m now, m ∈ bs_book s' -> moc_state m = Bad -> moc_address m ∉ makers_to_poll now (bs_book s')).
Proof.
  intros Hb Hr Hs. apply reachable_book_ok in Hs as [Hd He _];
    [|by split; rewrite ?Hb, ?Hr; constructor]. split_and!.
  - unfold active_makers. rewrite (Permutation_map _ (sort_offers_perm _)).
    eapply NoDup_sublist; [apply offered_addresses|]. eapply NoDup_sublist; [|exact Hd].
    apply map_sublist, filter_sublist.
  - apply sort_offers_sorted.
  - apply Forall_forall. intros oa (m & Hm & Hi & Ho)%active_from_book. rewrite Forall_forall in He.
    specialize (He m Hm). unfold in_state in Hi. apply andb_true_iff in Hi as [Hg Hp].
    apply bool_decide_eq_true in Hg. unfold entry_ok in He. rewrite Hg in He.
    destruct He as (o & p & Eo & Ep & Hn & Hbk). unfold as_offer_and_address in Ho.
    rewrite Eo, Ep in Ho. injection Ho as <-. rewrite Ep in Hp. done.
  - intros m r Hm E. rewrite Forall_forall in He. specialize (He m Hm). unfold entry_ok in He. by rewrite E in He.
  - intros m now Hm E (m' & Ea & Hm')%list_elem_of_fmap. apply list_elem_of_filter in Hm' as [Hdue Hm'].
    assert (m = m') as <- by by apply (distinct_addresses (bs_book s')).
    unfold is_due in Hdue. by rewrite E in Hdue.
Qed.
End safety.

(** A good maker is banned by its eleventh failure in a row, not before. *)
Lemma eleventh_failure_bans n : Nat.iter n after_failure Good = Bad <-> (11 <= n)%nat.
Proof.
  assert (H : forall k, (k <= 9)%nat -> Nat.iter (S k) after_failure Good = Unresponsive (Z.of_nat (S k))).
  { induction k as [|k IH]; intros Hk; [done|]. rewrite Nat.iter_succ, IH by lia. cbn [after_failure].
    destruct (Z.ltb_spec (Z.of_nat (S k)) 10); [f_equal; lia|lia]. }
  assert (Hb : forall k, Nat.iter (11 + k) after_failure Good = Bad).
  { induction k as [|k IH]; [done|]. by rewrite Nat.add_succ_r, Nat.iter_succ, IH. }
  split; [|intros Hn; rewrite <- (Hb (n - 11)%nat); f_equal; lia].
  destruct (decide (11 <= n)%nat) as [?|Hn]; [done|]. destruct n as [|n]; [done|]. rewrite H by lia. done.
Qed.

(** A manual poll that waits behind a manual sync is taken from the queue and
    dropped: only the syncs before it are answered. *)
Lemma queued_poll_is_dropped syncs a n queue :
  drain_and_ack (map SyncNow syncs ++ PollMaker a n :: queue) = (syncs, queue, Some (PollMaker a n)).
Proof. induction syncs as [|d syncs IH]; [done|]. cbn [map app drain_and_ack]. by rewrite IH. Qed.

(** ** A concrete market *)
Module OfferSample.
Definition address : MakerAddress := "abc.onion".
Definition bond_tx : Transaction := BondSample.tx_to [BondSample.bond_output].
Definition offer : Offer :=
  {| of_base_fee := 100; of_amount_relative_fee_pct := f64_of_Z 1; of_time_relative_fee_pct := f64_of_Z 0;
     of_required_confirms := 1; of_minimum_locktime := 20; of_max_size := 1000000; of_min_size := 10000;
     of_tweakable_point := BondSample.tweak_point; of_fidelity := BondSample.proof; of_tweak_chain_code := [9] |}.

(** The maker says it speaks the legacy protocol only. *)
Definition hello : MakerHello := {| mh_supported_protocols := [Legacy] |}.

(** The state of the world is the number of messages received so far. *)
#[export] Instance market : OfferOutside nat := {|
  oo_connect a := mret 0%nat;
  oo_send socket msg := mret ();
  oo_receive socket := fun d =>
    (Ok (if decide (d = 0)%nat then MT_MakerHello hello else MT_Offer offer), S d);
  oo_shutdown d := false;
  oo_sleep_ms ms d := d;
  oo_get_raw_transaction t := mret bond_tx;
  oo_get_tx_out t vout := mret (Some ());
  oo_get_block_count := mret 200;
  oo_tx_block_height t := mret (Some 101);
|}.
Definition start : BookState nat := {| bs_book := []; bs_world := 0%nat; bs_results := [] |}.
Definition known : BookState nat := {| start with bs_book := upsert_address address None [] |}.
Definition result : PollResult :=
  Some ({| oa_offer := offer; oa_address := address; oa_state := Good; oa_protocol := MP_Unified |}, inl ()).
Definition fetched : BookState nat := {| known with bs_world := 2%nat; bs_results := [(address, result)] |}.
Definition recorded : BookState nat :=
  {| fetched with bs_book := record_poll address result 1000 (bs_book fetched); bs_results := [] |}.

(** A maker that cannot be reached while the taker shuts down. *)
Definition shutting_down : OfferOutside nat := {|
  oo_connect a := fun d => (Err (TE_General "unreachable"), S d);
  oo_send socket msg := mret ();
  oo_receive socket := lift (Err (TE_General "unreachable"));
  oo_shutdown d := (0 <? d)%nat;
  oo_sleep_ms ms d := d;
  oo_get_raw_transaction t := mret bond_tx;
  oo_get_tx_out t vout := mret (Some ());
  oo_get_block_count := mret 200;
  oo_tx_block_height t := mret (Some 101);
|}.
End OfferSample.
#[local] Existing Instance Reference.lib.
#[local] Existing Instance Reference.laws.
Import (hints) BondSample OfferSample.

Lemma offered_makers_are_vetted_witness :
  map oa_address (active_makers MP_Taproot (bs_book OfferSample.recorded)) = [OfferSample.address] /\
  Forall (fun oa => bond_backed (oa_address oa) (oa_offer oa)) (active_makers MP_Taproot (bs_book OfferSample.recorded)).
Proof.
  split; [vm_compute; reflexivity|].
  destruct (offered_makers_are_vetted OfferSample.start OfferSample.recorded MP_Taproot eq_refl eq_refl)
    as (_ & _ & H & _).
  - apply (rtc_l _ _ OfferSample.known); [exact (step_polled OfferSample.start OfferSample.address)|].
    apply (rtc_l _ _ OfferSample.fetched).
    { apply (step_fetched OfferSample.known OfferSample.address OfferSample.result 2%nat).
      vm_compute. reflexivity. }
    apply rtc_once. by apply (step_recorded OfferSample.fetched OfferSample.address OfferSample.result 1000 []).
  - eapply Forall_impl; [exact H|]. by intros oa (_ & _ & _ & Hb).
Defined.

(** What a maker says of its protocols is ignored: the legacy-only maker of the
    market is offered for taproot swaps. *)
Lemma announced_protocols_are_ignored :
  mh_supported_protocols OfferSample.hello = [Legacy] /\
  (fetch_and_verify OfferSample.address 0%nat).1 = Ok (Some OfferSample.result) /\
  map oa_address (active_makers MP_Taproot (bs_book OfferSample.recorded)) = [OfferSample.address].
Proof. split; [done|]. split; vm_compute; reflexivity. Qed.

(** A download that the taker's own shutdown cuts short counts as the maker's
    failure: a good maker becomes unresponsive after one of its three attempts. *)
Lemma shutdown_counts_against_the_maker :
  let good := bs_book OfferSample.recorded in
  exists r d, @fetch_and_verify _ _ nat OfferSample.shutting_down OfferSample.address 0%nat = (Ok (Some r), d) /\
    d = 1%nat /\
    map moc_state good = [Good] /\ map moc_state (record_poll OfferSample.address r 2000 good) = [Unresponsive 1].
Proof. exists None, 1%nat. vm_compute. done. Qed.
