(* ===== verification/TakerPrepare.v ===== *)
(** Preparing a swap: [prepare_swap] and [discover_makers] of src/taker/api.rs.

    The route comes from the caller's preferred makers or from the offer book; the
    makers are then asked for their terms ([negotiate_swap_details]) and the fees
    are summed up for the caller.  The offer sync service and the random numbers
    are [PrepareOutside]. *)
From Stdlib Require Import Ascii String.
From S2P Require Import Prelude Float64 Bitcoin Messages Contract Errors SwapCoin TaprootLib Taproot TakerTracker TakerState Payment LegacyVerification WatchRegistry WalletStore MakerApi Fidelity ChainWait WalletRecovery TakerApi OfferBook.
#[local] Open Scope string_scope.
#[local] Open Scope list_scope.
#[local] Open Scope Z_scope.

Class PrepareOutside (D : Type) := {
  (** [sync_offerbook_and_wait] of the sync service. *)
  po_sync : stateful D TakerError ();
  (** The book behind its lock, as the workers have left it. *)
  po_offerbook : D -> OfferBook;
  po_book_poisoned : D -> bool;
  (** The offer [poll_maker] ends with. *)
  po_poll : D -> string -> outcome TakerError (option Offer);
  po_require_network : Address -> option Address;
  po_preimage : D -> Preimage * D;
  po_swap_id : D -> string * D;
}.

Record MakerFeeInfo := {
  mfi_address : string;
  mfi_protocol : ProtocolVersion;
  mfi_base_fee : Z;
  mfi_amount_relative_fee_pct : f64;
  mfi_time_relative_fee_pct : f64;
  mfi_locktime : Z;
  mfi_estimated_fee_sats : Z;
}.

Record SwapSummary := {
  sm_swap_id : string;
  sm_protocol : ProtocolVersion;
  sm_send_amount : Amount;
  sm_makers : list MakerFeeInfo;
  sm_total_estimated_fee : Amount;
  sm_estimated_receive_amount : Amount;
  sm_payment : option PaymentQuote;
}.

(** [str::trim] of ASCII text. *)
Definition is_whitespace (c : ascii) : bool :=
  let n := N_of_ascii c in ((9 <=? n) && (n <=? 13) || (n =? 32))%N.
Fixpoint trim_start (l : list ascii) : list ascii :=
  match l with
  | c :: rest => if is_whitespace c then trim_start rest else l
  | [] => []
  end.
Definition trim (s : string) : string :=
  string_of_list_ascii (rev (trim_start (rev (trim_start (list_ascii_of_string s))))).

(** ** Selection *)
Definition requested_protocol (p : ProtocolVersion) : MakerProtocol :=
  match p with Legacy => MP_Legacy | Taproot => MP_Taproot end.

(** The route and the spares among the preferred makers. *)
Definition select_preferred (protocol : ProtocolVersion) (maker_count : nat) (addrs : list string)
    : outcome TakerError (list MakerConnection * list string) :=
  let parsed := omap address_try_from addrs in
  _ ← reject (length parsed <? maker_count)%nat
        (TE_General "Not enough valid preferred makers. Required: {}, Parsed: {}");
  Ok (map (fun a => fresh_maker a protocol None) (take maker_count parsed), drop maker_count parsed).

Definition suits (send_amount : Amount) (oa : OfferAndAddress) : bool :=
  (of_min_size (oa_offer oa) <=? send_amount) && (send_amount <=? of_max_size (oa_offer oa)).

(** The route and at most two spares among the makers of the offer book. *)
Definition select_from_book (protocol : ProtocolVersion) (maker_count : nat) (send_amount : Amount) (book : OfferBook)
    : outcome TakerError (list MakerConnection * list string) :=
  let available_makers := active_makers (requested_protocol protocol) book in
  _ ← reject (bool_decide (available_makers = [])) TE_NotEnoughMakersInOfferBook;
  let suitable_makers := filter (fun oa => suits send_amount oa = true) available_makers in
  _ ← reject (length suitable_makers <? maker_count)%nat TE_NotEnoughMakersInOfferBook;
  let spare_count := Nat.min (length suitable_makers - maker_count) 2 in
  let selected := take (maker_count + spare_count) suitable_makers in
  Ok (map (fun oa => fresh_maker (oa_address oa) protocol (Some (oa_offer oa))) (take maker_count selected),
      map oa_address (drop maker_count selected)).

Section prepare.
Context {lib : BitcoinLib} {tap : TaprootLib} {hi : HashIter} {D : Type} {tv : TakerOutside D} {po : PrepareOutside D}.
Abbreviation taker := (stateful (Taker D) TakerError).

Definition discover_makers : taker () :=
  p ← read_swap os_params;
  '(makers, spares) ←
    match swp_preferred_makers p with
    | Some addrs => lift (select_preferred (swp_protocol p) (Z.to_nat (swp_maker_count p)) addrs)
    | None =>
        d ← gets world;
        _ ← lift (reject (po_book_poisoned d) (TE_General "offerbook lock poisoned"));
        lift (select_from_book (swp_protocol p) (Z.to_nat (swp_maker_count p)) (swp_send_amount p) (po_offerbook d))
    end;
  set_swap (fun s => {| s with os_makers := makers; os_spare_makers := spares |}).

(** ** The fees shown to the caller *)
Definition fee_terms (m : MakerConnection) : Z * f64 * f64 :=
  match mc_offer m with
  | Some offer => (of_base_fee offer, of_amount_relative_fee_pct offer, of_time_relative_fee_pct offer)
  | None => (0, f64_of_Z 0, f64_of_Z 0)
  end.
Fixpoint summarise_fees (maker_count i : Z) (amount_sats : f64) (makers : list MakerConnection) : list MakerFeeInfo :=
  match makers with
  | [] => []
  | m :: makers =>
      let locktime := refund_locktime_offset maker_count i in
      let '(base_fee, amt_pct, time_pct) := fee_terms m in
      let fee := f64_add (f64_add (f64_of_Z base_fee) (f64_div (f64_mul amount_sats amt_pct) (f64_of_Z 100)))
                   (f64_div (f64_mul (f64_mul amount_sats (f64_of_Z locktime)) time_pct) (f64_of_Z 100)) in
      {| mfi_address := mc_address m; mfi_protocol := mc_protocol m; mfi_base_fee := base_fee;
         mfi_amount_relative_fee_pct := amt_pct; mfi_time_relative_fee_pct := time_pct; mfi_locktime := locktime;
         mfi_estimated_fee_sats := f64_to_u64 (f64_ceil fee) |}
        :: summarise_fees maker_count (i + 1) (f64_max (f64_sub amount_sats fee) (f64_of_Z 0)) makers
  end.

Definition summary_of (swap_id : string) (maker_count : Z) (swap : OngoingSwapState) : SwapSummary :=
  let send_amount := swp_send_amount (os_params swap) in
  let maker_fees := summarise_fees maker_count 0 (f64_of_Z send_amount) (os_makers swap) in
  let total_fee_sats := fold_left (fun sum m => wrap 64 (sum + mfi_estimated_fee_sats m)) maker_fees 0 in
  {| sm_swap_id := swap_id; sm_protocol := swp_protocol (os_params swap); sm_send_amount := send_amount;
     sm_makers := maker_fees; sm_total_estimated_fee := total_fee_sats;
     sm_estimated_receive_amount := default 0 (checked_sub send_amount total_fee_sats);
     sm_payment := os_payment swap |}.

(** ** [prepare_swap] *)
Definition spendable : taker Amount :=
  _ ← read_wallet;
  store ← gets (fun t => wl_store (tk_wallet t));
  balances ← lift (map_err TE_Wallet (get_balances store));
  mret (bal_spendable balances).

Definition new_swap (swap_id : string) (preimage : Preimage) (params : SwapParams) : OngoingSwapState :=
  {| os_id := swap_id; os_preimage := preimage; os_params := params; os_makers := [];
     os_outgoing_swapcoins := []; os_incoming_swapcoins := []; os_watchonly_swapcoins := [];
     os_multisig_nonces := []; os_hashlock_nonces := []; os_spare_makers := [];
     os_phase := MakersDiscovered; os_reference_height := None; os_payment := None |}.

(** [payment_prepare_route] with the answers of the makers and of the wallet. *)
Definition prepare_payment (address : Address) : taker () := fun t =>
  let '(r, s) := payment_prepare_route (po_poll (world t)) (spendable t).1 address (tk_ongoing_swap t) in
  (r, {| t with tk_ongoing_swap := s |}).

Definition duplicate_in_route (params : SwapParams) : bool :=
  match swp_preferred_makers params with
  | Some makers => negb (bool_decide (NoDup (map trim makers)))
  | None => false
  end.

Definition prepare_swap (params : SwapParams) : taker SwapSummary :=
  available ← spendable;
  required ← lift (amount_add (swp_send_amount params) FUNDING_FEE_BUFFER);
  _ ← lift (reject (available <? required) (TE_General "Insufficient balance: available={}, required={}"));
  _ ← lift (reject (duplicate_in_route params) (TE_General "Duplicate maker in route: {}"));
  _ ← (if bool_decide (is_Some (swp_payment_address params)) then read_wallet else mret ());
  payment_address ← lift (payment_validate_params po_require_network params);
  preimage ← on_world (fun d => let '(x, d) := po_preimage d in (Ok x, d));
  swap_id ← on_world (fun d => let '(x, d) := po_swap_id d in (Ok x, d));
  let maker_count := swp_maker_count params in
  _ ← modify (fun t => {| t with tk_ongoing_swap := Some (new_swap swap_id preimage params) |});
  _ ← (if bool_decide (swp_preferred_makers params = None) then on_world po_sync else mret ());
  _ ← discover_makers;
  _ ← persist_swap MakersDiscovered;
  _ ← match payment_address with Some address => prepare_payment address | None => mret () end;
  _ ← negotiate_swap_details;
  _ ← persist_swap Negotiated;
  read_swap (summary_of swap_id maker_count).
End prepare.
