(* ===== verification/TakerPrepareSafety.v ===== *)
(** What a prepared swap is: a route of distinct makers that agreed to the terms,
    and nothing committed yet. *)
From Stdlib Require Import Ascii String.
From S2P Require Import Prelude Float64 Bitcoin Messages Contract Errors SwapCoin TaprootLib Taproot TakerTracker TakerState Payment LegacyVerification WatchRegistry WalletStore MakerApi Fidelity ChainWait WalletRecovery TakerApi TakerFunding TakerLegacy TakerSteps OfferBook OfferBookSafety TakerPrepare.
#[local] Open Scope string_scope.
#[local] Open Scope list_scope.
#[local] Open Scope Z_scope.

(** ** Selection *)
Definition route_addresses (s : OngoingSwapState) : list string := map mc_address (os_makers s) ++ os_spare_makers s.

Lemma fresh_addresses {A} (f : A -> string) (p : ProtocolVersion) (g : A -> option Offer) l :
  map mc_address (map (fun a => fresh_maker (f a) p (g a)) l) = map f l.
Proof. rewrite map_map. done. Qed.

Lemma parsed_sublist addrs : omap address_try_from addrs `sublist_of` addrs.
Proof.
  induction addrs as [|a addrs IH]; cbn; [done|]. unfold address_try_from at 1.
  destruct (a =? EmptyString)%string; [by constructor|]. destruct (ends_with _ _); by constructor.
Qed.

Lemma select_preferred_Ok p n addrs makers spares :
  select_preferred p n addrs = Ok (makers, spares) ->
  length makers = n /\ (NoDup (map trim addrs) -> NoDup (map mc_address makers ++ spares)).
Proof.
  unfold select_preferred. intros H. inv_ok H. to_prop.
  rewrite length_map, length_take. split; [lia|]. intros Hd.
  rewrite (fresh_addresses (fun a => a)), map_id, take_drop.
  eapply NoDup_sublist; [apply parsed_sublist|]. by apply (NoDup_fmap_1 trim).
Qed.

Lemma select_from_book_Ok p n amt b makers spares :
  select_from_book p n amt b = Ok (makers, spares) ->
  length makers = n /\ (length spares <= 2)%nat /\
  (NoDup (addresses b) -> NoDup (map mc_address makers ++ spares)) /\
  Forall (fun m => exists offer, mc_offer m = Some offer /\ of_min_size offer <= amt <= of_max_size offer) makers.
Proof.
  unfold select_from_book. set (suitable := filter _ _). intros H. inv_ok H. to_prop.
  rewrite !length_map, length_drop, !length_take.
  split; [lia|]. split; [lia|]. split.
  - intros Hd. rewrite (fresh_addresses oa_address), <- map_app, take_drop.
    assert (NoDup (map oa_address (active_makers (requested_protocol p) b))) as Ha.
    { unfold active_makers. rewrite (Permutation_map _ (sort_offers_perm _)).
      eapply NoDup_sublist; [apply offered_addresses|]. eapply NoDup_sublist; [|exact Hd].
      apply map_sublist, filter_sublist. }
    eapply NoDup_sublist; [apply map_sublist|exact Ha].
    etrans; [apply sublist_take|]. apply filter_sublist.
  - apply Forall_fmap, Forall_forall. intros oa Hoa. cbn. exists (oa_offer oa). split; [done|].
    apply (elem_of_sublist _ suitable) in Hoa; [|etrans; [apply sublist_take|apply sublist_take]].
    apply list_elem_of_filter in Hoa as [Hsz _]. unfold suits in Hsz. to_prop. lia.
Qed.

(** ** Nothing is committed *)
Definition talks (e : TakerEvent) : bool := match e with EvSent _ _ => true | _ => false end.

Section uncommitted.
Context {lib : BitcoinLib} {tap : TaprootLib} {hi : HashIter} {D : Type} {tv : TakerOutside D} {po : PrepareOutside D}.
Implicit Types t : Taker D.

(** Messages went out, but no transaction, and the wallet's records are the same. *)
Definition uncommitted t t' : Prop :=
  wl_store (tk_wallet t') = wl_store (tk_wallet t) /\
  exists evs, tk_trace t' = evs ++ tk_trace t /\ forallb talks evs = true.

#[global] Instance uncommitted_preorder : PreOrder uncommitted.
Proof.
  split.
  - intros t. split; [done|]. by exists [].
  - intros t1 t2 t3 [H1 (e1 & E1 & S1)] [H2 (e2 & E2 & S2)]. split; [congruence|].
    exists (e2 ++ e1). rewrite E2, E1, app_assoc, forallb_app, S1, S2. done.
Qed.
Lemma uncommitted_same t t' :
  wl_store (tk_wallet t') = wl_store (tk_wallet t) -> tk_trace t' = tk_trace t -> uncommitted t t'.
Proof. intros H1 H2. split; [done|]. by exists []. Qed.

Lemma on_chain_uncommitted {A} (op : stateful D WalletError A) : steps uncommitted (on_chain op).
Proof.
  intros t. unfold on_chain, on_wallet, in_outside. destruct (op (wl_outside (tk_wallet t))) as [r d].
  by apply uncommitted_same.
Qed.
Lemma on_world_uncommitted {A} (op : stateful D TakerError A) : steps uncommitted (on_world op).
Proof. intros t. unfold on_world. destruct (op (world t)) as [r d]. by apply uncommitted_same. Qed.
Lemma on_tracker_uncommitted {A} (op : SwapTracker -> outcome TakerError A * SwapTracker) :
  steps uncommitted (on_tracker (D := D) op).
Proof. intros t. unfold on_tracker. destruct (op (tk_swap_tracker t)) as [r st]. by apply uncommitted_same. Qed.
Lemma read_swap_uncommitted {A} (f : OngoingSwapState -> A) : steps uncommitted (read_swap (D := D) f).
Proof. intros t. rewrite read_swap_run. reflexivity. Qed.
Lemma set_swap_uncommitted f : steps uncommitted (set_swap (D := D) f).
Proof. intros t. rewrite set_swap_run. destruct (tk_ongoing_swap t); by apply uncommitted_same. Qed.
Lemma write_wallet_uncommitted : steps uncommitted (write_wallet (D := D)).
Proof. intros t. reflexivity. Qed.
Lemma lock_tracker_uncommitted : steps uncommitted (lock_tracker (D := D)).
Proof. intros t. reflexivity. Qed.
Lemma record_event_uncommitted e : talks e = true -> steps uncommitted (record_event (D := D) e).
Proof. intros He t. split; [done|]. exists [e]. cbn. by rewrite He. Qed.
Lemma set_ongoing_uncommitted s :
  steps uncommitted (modify (E := TakerError) (fun t => {| t with tk_ongoing_swap := s |})).
Proof. intros t. by apply uncommitted_same. Qed.
#[local] Hint Resolve on_chain_uncommitted on_world_uncommitted on_tracker_uncommitted read_swap_uncommitted
  set_swap_uncommitted write_wallet_uncommitted lock_tracker_uncommitted record_event_uncommitted
  set_ongoing_uncommitted : steps.
#[local] Hint Extern 0 (talks _ = true) => reflexivity : steps.
#[local] Hint Extern 1 (PreOrder uncommitted) => apply uncommitted_preorder : steps.
#[local] Hint Extern 1 (steps uncommitted read_wallet) => apply write_wallet_uncommitted : steps.
#[local] Hint Extern 1 (steps uncommitted (read_message _)) => apply on_world_uncommitted : steps.

Lemma update_maker_uncommitted i f : steps uncommitted (update_maker (D := D) i f).
Proof. unfold update_maker, maker_at. take_steps. Qed.
#[local] Hint Resolve update_maker_uncommitted : steps.
Lemma negotiate_with_maker_uncommitted i id a n c h : steps uncommitted (negotiate_with_maker (D := D) i id a n c h).
Proof.
  unfold negotiate_with_maker, take_offer, net_handshake, net_connect, send_message, maker_at. take_steps.
Qed.
#[local] Hint Resolve negotiate_with_maker_uncommitted : steps.
Lemma negotiate_loop_uncommitted id a n c p h : forall fuel i, steps uncommitted (negotiate_loop (D := D) fuel id a n c p h i).
Proof. induction fuel as [|fuel IH]; intros i; cbn [negotiate_loop]; unfold pop_spare; take_steps. Qed.
Lemma prepare_payment_uncommitted a : steps uncommitted (prepare_payment (D := D) a).
Proof. intros t. unfold prepare_payment. destruct (payment_prepare_route _ _ _ _). by apply uncommitted_same. Qed.
#[local] Hint Resolve negotiate_loop_uncommitted prepare_payment_uncommitted : steps.

Lemma persist_swap_uncommitted phase : steps uncommitted (persist_swap (D := D) phase).
Proof. unfold persist_swap. take_steps. Qed.

(** What was sent stays on the trace. *)
Lemma uncommitted_keeps t t' e : uncommitted t t' -> e ∈ tk_trace t -> e ∈ tk_trace t'.
Proof. intros [_ (evs & -> & _)] He. apply elem_of_app. by right. Qed.

Lemma prepare_swap_uncommitted params : steps uncommitted (prepare_swap (D := D) params).
Proof.
  unfold prepare_swap, spendable, discover_makers, persist_swap, negotiate_swap_details, take_reference_height.
  take_steps.
Qed.
End uncommitted.

(** ** Negotiation *)
Section negotiation.
Context {lib : BitcoinLib} {tap : TaprootLib} {hi : HashIter} {D : Type} {tv : TakerOutside D}.
Implicit Types t : Taker D.

(** The ongoing swap is not touched. *)
Definition same_swap t t' : Prop := tk_ongoing_swap t' = tk_ongoing_swap t.
#[local] Instance same_swap_preorder : PreOrder same_swap.
Proof. split; [done|]. intros t1 t2 t3. unfold same_swap. congruence. Qed.
#[local] Hint Extern 1 (PreOrder same_swap) => apply same_swap_preorder : steps.
Lemma on_world_same_swap {A} (op : stateful D TakerError A) : steps same_swap (on_world op).
Proof. intros t. unfold on_world. by destruct (op (world t)). Qed.
Lemma record_event_same_swap e : steps same_swap (record_event (D := D) e).
Proof. done. Qed.
Lemma read_swap_same_swap {A} (f : OngoingSwapState -> A) : steps same_swap (read_swap (D := D) f).
Proof. intros t. by rewrite read_swap_run. Qed.
#[local] Hint Resolve on_world_same_swap record_event_same_swap read_swap_same_swap : steps.
Lemma net_connect_same_swap a : steps same_swap (net_connect (D := D) a).
Proof. unfold net_connect. take_steps. Qed.
Lemma send_message_same_swap s m : steps same_swap (send_message (D := D) s m).
Proof. unfold send_message. take_steps. Qed.
Lemma read_message_same_swap s : steps same_swap (read_message (D := D) s).
Proof. apply on_world_same_swap. Qed.
#[local] Hint Resolve net_connect_same_swap send_message_same_swap read_message_same_swap : steps.
Lemma net_handshake_same_swap s : steps same_swap (net_handshake (D := D) s).
Proof. unfold net_handshake. take_steps. Qed.

Lemma net_handshake_protocol stream t p t' s :
  tk_ongoing_swap t = Some s -> net_handshake stream t = (Ok p, t') -> p = swp_protocol (os_params s).
Proof.
  intros Hs H. unfold net_handshake in H. apply st_bind_Ok in H as ([] & t1 & H1 & H).
  apply st_bind_Ok in H as (msg & t2 & H2 & H).
  apply (steps_run _ _ _ _ _ (send_message_same_swap _ _)) in H1.
  apply (steps_run _ _ _ _ _ (read_message_same_swap _)) in H2. destruct msg; try done.
  apply st_bind_Ok in H as (q & t3 & H3 & H). rewrite read_swap_run, H2, H1, Hs in H3. injection H3 as <- <-.
  destruct (bool_decide _); [|done]. by injection H.
Qed.

Lemma maker_at_run i t :
  maker_at i t = (match tk_ongoing_swap t with
                  | Some s => match os_makers s !! i with Some m => Ok m | None => Panic end
                  | None => Err (TE_General "No active swap") end, t).
Proof.
  unfold maker_at, mbind, stateful_bind, lift. rewrite read_swap_run. destruct (tk_ongoing_swap t) as [s|]; [|done].
  by destruct (os_makers s !! i).
Qed.
Lemma update_maker_run i f t s m :
  tk_ongoing_swap t = Some s -> os_makers s !! i = Some m ->
  update_maker i f t = (Ok (), {| t with tk_ongoing_swap := Some {| s with os_makers := alter f i (os_makers s) |} |}).
Proof.
  intros Hs Hm. unfold update_maker, mbind, stateful_bind. by rewrite maker_at_run, Hs, Hm, set_swap_run, Hs.
Qed.

(** The fee schedule of a maker's offer. *)
Definition price (o : Offer) : Z * f64 * f64 :=
  (of_base_fee o, of_amount_relative_fee_pct o, of_time_relative_fee_pct o).
Lemma not_repriced quoted o : repriced quoted o = false -> price o = price quoted.
Proof.
  unfold repriced, price. intros H. to_prop.
  repeat match goal with H : ~ (_ <> _) |- _ => apply dec_stable in H end. congruence.
Qed.

(** What a maker of the route has agreed to. *)
Definition negotiated (p : ProtocolVersion) (amt : Amount) (n h : Z) (i : nat) (m : MakerConnection) : Prop :=
  mc_protocol m = p /\ is_Some (mc_tweakable_point m) /\
  mc_negotiated_timelock m = match p with
                             | Taproot => wrap 32 (h + refund_locktime_offset n (Z.of_nat i))
                             | Legacy => refund_locktime_offset n (Z.of_nat i)
                             end /\
  exists offer, mc_offer m = Some offer /\ validate_offer offer amt = Ok ().

(** The terms of its hop were put to the maker: the swap's id, the amount, the
    number of transactions, and the timelock and refund offset of its position. *)
Definition proposed (id : string) (amt : Amount) (tx n : Z) (tr : list TakerEvent) (i : nat) (m : MakerConnection) : Prop :=
  EvSent (mc_address m) (TM_SwapDetails
    {| sd_id := id; sd_protocol_version := mc_protocol m; sd_amount := amt; sd_tx_count := tx;
       sd_timelock := mc_negotiated_timelock m;
       sd_refund_locktime_offset := refund_locktime_offset n (Z.of_nat i) |}) ∈ tr.

Lemma on_world_trace {A} (op : stateful D TakerError A) t : tk_trace (on_world op t).2 = tk_trace t.
Proof. unfold on_world. by destruct (op (world t)). Qed.
Lemma send_message_trace stream m t : tk_trace (send_message stream m t).2 = EvSent stream.1 m :: tk_trace t.
Proof. unfold send_message, mbind, stateful_bind. cbn. apply on_world_trace. Qed.

Lemma take_offer_Ok i amt o t t' s :
  tk_ongoing_swap t = Some s -> take_offer i amt o t = (Ok (), t') ->
  exists m, os_makers s !! i = Some m /\ validate_offer o amt = Ok () /\
    (forall quoted, mc_offer m = Some quoted -> os_payment s <> None -> price o = price quoted) /\
    t' = {| t with tk_ongoing_swap := Some {| s with os_makers := alter (fun m => {| m with mc_offer := Some o |}) i (os_makers s) |} |}.
Proof.
  intros Hs H. unfold take_offer in H. apply st_bind_Ok in H as ([] & t1 & [Hv ->]%lift_Ok & H).
  apply st_bind_Ok in H as (m & t1 & Hm & H). rewrite maker_at_run, Hs in Hm.
  destruct (os_makers s !! i) as [m'|] eqn:Em; [|done]. injection Hm as -> <-.
  apply st_bind_Ok in H as (pay & t1 & Hp & H). rewrite read_swap_run, Hs in Hp. injection Hp as <- <-.
  apply st_bind_Ok in H as ([] & t1 & Hr & H). exists m. split; [done|]. split; [done|].
  assert (t1 = t /\ (forall quoted, mc_offer m = Some quoted -> os_payment s <> None -> price o = price quoted)) as [-> Hq].
  { destruct (mc_offer m) as [q|], (os_payment s) as [pq|]; try (injection Hr as <-; split; [done|]; naive_solver).
    apply lift_Ok in Hr as [Hr ->]. split; [done|]. intros ? [= <-] _. apply reject_Ok in Hr. by apply not_repriced. }
  split; [exact Hq|]. rewrite (update_maker_run _ _ _ _ _ Hs Em) in H. by injection H.
Qed.

(** An answer of maker [i] changes that maker only, and not its address. *)
Definition touches (i : nat) t t' : Prop :=
  match tk_ongoing_swap t, tk_ongoing_swap t' with
  | Some s, Some s' =>
      s' = {| s with os_makers := os_makers s' |} /\
      map mc_address (os_makers s') = map mc_address (os_makers s) /\
      (forall j, j <> i -> os_makers s' !! j = os_makers s !! j)
  | None, None => True
  | _, _ => False
  end.
#[local] Instance touches_preorder i : PreOrder (touches i).
Proof.
  split.
  - intros t. unfold touches. destruct (tk_ongoing_swap t) as [s|]; [|done]. by destruct s.
  - intros t1 t2 t3. unfold touches.
    destruct (tk_ongoing_swap t1) as [s1|], (tk_ongoing_swap t2) as [s2|], (tk_ongoing_swap t3) as [s3|]; try done.
    intros (E1 & A1 & O1) (E2 & A2 & O2). split; [by rewrite E2, E1|]. split; [by rewrite A2|].
    intros j Hj. by rewrite O2, O1.
Qed.
#[local] Hint Extern 1 (PreOrder (touches _)) => apply touches_preorder : steps.
Lemma steps_touches {A} i (m : stateful (Taker D) TakerError A) : steps same_swap m -> steps (touches i) m.
Proof.
  intros Hm t. specialize (Hm t). unfold touches. rewrite Hm. by destruct (tk_ongoing_swap t) as [[]|].
Qed.
Lemma map_alter_address f i (l : list MakerConnection) :
  (forall m, mc_address (f m) = mc_address m) -> map mc_address (alter f i l) = map mc_address l.
Proof.
  intros Hf. revert i. induction l as [|m l IH]; intros [|i]; try done; cbn; [by rewrite Hf|].
  f_equal. apply IH.
Qed.
Lemma update_maker_touches i f : (forall m, mc_address (f m) = mc_address m) -> steps (touches i) (update_maker (D := D) i f).
Proof.
  intros Hf t. destruct (tk_ongoing_swap t) as [s|] eqn:Hs.
  2:{ unfold update_maker, mbind, stateful_bind. rewrite maker_at_run, Hs. reflexivity. }
  destruct (os_makers s !! i) as [m|] eqn:Em.
  2:{ unfold update_maker, mbind, stateful_bind. rewrite maker_at_run, Hs, Em. reflexivity. }
  rewrite (update_maker_run _ _ _ _ _ Hs Em). unfold touches. rewrite Hs. cbn. split; [done|].
  split; [by apply map_alter_address|]. intros j Hj. by apply list_lookup_alter_ne.
Qed.
Lemma maker_at_same_swap i : steps same_swap (maker_at (D := D) i).
Proof. intros t. by rewrite maker_at_run. Qed.
#[local] Hint Resolve net_handshake_same_swap maker_at_same_swap : steps.
#[local] Hint Extern 3 (steps (touches _) _) => apply steps_touches; solve [auto with steps] : steps.
#[local] Hint Extern 2 (steps (touches _) (update_maker _ _)) => apply update_maker_touches; done : steps.
Lemma negotiate_with_maker_touches i id a n c h : steps (touches i) (negotiate_with_maker (D := D) i id a n c h).
Proof.
  unfold negotiate_with_maker, take_offer. take_steps.
Qed.

Lemma negotiate_with_maker_Ok i id amt tx n h t t' s :
  tk_ongoing_swap t = Some s -> negotiate_with_maker i id amt tx n h t = (Ok (), t') ->
  exists s' m m', tk_ongoing_swap t' = Some s' /\ os_makers s !! i = Some m /\ os_makers s' !! i = Some m' /\
    negotiated (swp_protocol (os_params s)) amt n h i m' /\ proposed id amt tx n (tk_trace t') i m' /\
    (forall quoted, mc_offer m = Some quoted -> os_payment s <> None -> price <$> mc_offer m' = Some (price quoted)).
Proof.
  intros Hs H. unfold negotiate_with_maker in H. apply st_bind_Ok in H as (m & t0 & Hm & H).
  rewrite maker_at_run, Hs in Hm. destruct (os_makers s !! i) as [m'|] eqn:Em; [|done]. injection Hm as -> <-.
  apply st_bind_Ok in H as (stream & t1 & H1 & H).
  assert (stream.1 = mc_address m) as Hstream.
  { unfold net_connect in H1. apply st_bind_Ok in H1 as (hd & t0 & _ & H1). by injection H1 as <- _. }
  apply (steps_run _ _ _ _ _ (net_connect_same_swap _)) in H1. unfold same_swap in H1. rewrite Hs in H1.
  apply st_bind_Ok in H as (p & t2 & H2 & H).
  pose proof (net_handshake_protocol _ _ _ _ _ H1 H2) as ->.
  apply (steps_run _ _ _ _ _ (net_handshake_same_swap _)) in H2. unfold same_swap in H2. rewrite H1 in H2.
  apply st_bind_Ok in H as ([] & t3 & H3 & H).
  apply (steps_run _ _ _ _ _ (send_message_same_swap _ _)) in H3. unfold same_swap in H3. rewrite H2 in H3.
  apply st_bind_Ok in H as (om & t4 & H4 & H).
  apply (steps_run _ _ _ _ _ (read_message_same_swap _)) in H4. unfold same_swap in H4. rewrite H3 in H4.
  apply st_bind_Ok in H as ([] & t5 & H5 & H). destruct om as [|offer| | | | | | |]; try done.
  apply (take_offer_Ok _ _ _ _ _ _ H4) in H5 as (m0 & Em0 & Hv & Hq & ->).
  rewrite Em in Em0. injection Em0 as <-. cbv zeta in H.
  apply st_bind_Ok in H as ([] & t6 & H6 & H).
  match type of H6 with send_message ?st ?msg ?t5 = _ => pose proof (send_message_trace st msg t5) as Htr end.
  rewrite H6 in Htr. cbn [snd] in Htr. rewrite Hstream in Htr.
  apply (steps_run _ _ _ _ _ (send_message_same_swap _ _)) in H6. unfold same_swap in H6. cbn in H6.
  apply st_bind_Ok in H as (am & t7 & H7 & H).
  pose proof (on_world_trace (to_receive stream.2) t6) as Htr7. unfold read_message in H7. rewrite H7 in Htr7.
  cbn [snd] in Htr7. rewrite Htr in Htr7. fold (read_message stream) in H7.
  apply (steps_run _ _ _ _ _ (read_message_same_swap _)) in H7. unfold same_swap in H7. rewrite H6 in H7.
  destruct am; try done. destruct (ack_tweakable_point _) as [tp|]; [|done].
  erewrite update_maker_run in H; [|exact H7|cbn; by rewrite list_lookup_alter_eq, Em].
  injection H as <-. cbn. eexists _, m, _. split; [done|]. split; [done|].
  split; [cbn; by rewrite !list_lookup_alter_eq, Em|].
  split; [|split; [unfold proposed; cbn; rewrite Htr7; by left|intros quoted Hquoted Hpay; cbn; by rewrite (Hq _ Hquoted Hpay)]].
  split; [done|]. split; [done|]. split; [done|]. by exists offer.
Qed.

(** A spare takes the place of a maker. *)
Lemma map_alter_fresh x p i (l : list MakerConnection) :
  map mc_address (alter (fun _ => fresh_maker x p None) i l) = <[i := x]> (map mc_address l).
Proof. revert i. induction l as [|m l IH]; intros [|i]; try done. cbn. f_equal. apply IH. Qed.
Lemma NoDup_replace (l1 l2 : list string) i x :
  (i < length l1)%nat -> NoDup (l1 ++ l2 ++ [x]) -> NoDup (<[i := x]> l1 ++ l2).
Proof.
  intros Hi Hd. destruct (lookup_lt_is_Some_2 _ _ Hi) as [y Hy].
  rewrite insert_take_drop by done. rewrite <- (take_drop_middle l1 i y Hy) in Hd.
  assert ((take i l1 ++ y :: drop (S i) l1) ++ l2 ++ [x] ≡ₚ y :: (take i l1 ++ x :: drop (S i) l1) ++ l2) as Hp
    by solve_Permutation.
  rewrite Hp in Hd. by apply NoDup_cons in Hd as [_ Hd].
Qed.

Definition kept (s s' : OngoingSwapState) : Prop :=
  s' = {| s with os_makers := os_makers s'; os_spare_makers := os_spare_makers s' |}.
Lemma kept_trans s1 s2 s3 : kept s1 s2 -> kept s2 s3 -> kept s1 s3.
Proof. unfold kept. intros H1 H2. by rewrite H2, H1. Qed.

Definition offers_present (s : OngoingSwapState) : Prop := Forall (fun m => is_Some (mc_offer m)) (os_makers s).
Definition prices (s : OngoingSwapState) := map (fun m => price <$> mc_offer m) (os_makers s).

(** A maker's agreement keeps the route, and for a payment its prices. *)
Lemma agreed_kept id amt tx n h i t t' s :
  tk_ongoing_swap t = Some s -> negotiate_with_maker i id amt tx n h t = (Ok (), t') ->
  exists s', tk_ongoing_swap t' = Some s' /\ kept s s' /\ route_addresses s' = route_addresses s /\
    length (os_makers s') = length (os_makers s) /\
    (forall j, j <> i -> os_makers s' !! j = os_makers s !! j) /\
    (forall m', os_makers s' !! i = Some m' ->
       negotiated (swp_protocol (os_params s)) amt n h i m' /\ proposed id amt tx n (tk_trace t') i m') /\
    (os_payment s <> None -> offers_present s -> offers_present s' /\ prices s' = prices s).
Proof.
  intros Hs H. pose proof (steps_run _ _ _ _ _ (negotiate_with_maker_touches i id amt tx n h) H) as Ht.
  apply (negotiate_with_maker_Ok _ _ _ _ _ _ _ _ _ Hs) in H as (s' & m & m' & Hs' & Em & Em' & Hn & Hprop & Hq).
  unfold touches in Ht. rewrite Hs, Hs' in Ht. destruct Ht as (E & Ha & Ho). exists s'. split; [done|].
  split; [by rewrite E|]. split; [rewrite E in Ha |- *; unfold route_addresses; cbn in *; by rewrite Ha|].
  assert (length (os_makers s') = length (os_makers s)) as Hl.
  { rewrite <- (length_map mc_address), Ha. apply length_map. }
  split; [done|]. split; [done|]. split; [intros m2; by rewrite Em'; intros [= <-]|]. intros Hpay Hoff.
  assert (Hi : forall j x, os_makers s !! j = Some x -> exists y, os_makers s' !! j = Some y /\ is_Some (mc_offer y) /\
    price <$> mc_offer y = price <$> mc_offer x).
  { intros j x Hx. assert (is_Some (mc_offer x)) as [q Eq].
    { unfold offers_present in Hoff. rewrite Forall_lookup in Hoff. eauto. }
    destruct (decide (j = i)) as [->|Hj].
    - rewrite Em in Hx. injection Hx as <-. exists m'. split; [done|]. specialize (Hq q Eq Hpay).
      rewrite Eq, Hq. split; [|done]. destruct (mc_offer m'); [done|discriminate Hq].
    - exists x. rewrite Ho by done. rewrite Hx, Eq. done. }
  split.
  - apply Forall_lookup. intros j y Hy. destruct (lookup_lt_is_Some_2 (os_makers s) j) as [x Hx].
    { rewrite <- Hl. by eapply lookup_lt_Some. }
    destruct (Hi j x Hx) as (y' & Hy' & Hsome & _). by rewrite Hy in Hy'; injection Hy' as <-.
  - unfold prices. apply (list_eq (A := option (Z * f64 * f64))). intros j.
    change (map ?f ?l) with (f <$> l). rewrite !list_lookup_fmap.
    destruct (os_makers s !! j) as [x|] eqn:Hx.
    + destruct (Hi j x Hx) as (y & -> & _ & Hpr). cbn. by rewrite Hpr.
    + apply lookup_ge_None in Hx. rewrite (proj2 (lookup_ge_None (os_makers s') j)); [done|lia].
Qed.

Lemma pop_spare_Some t t' s x :
  tk_ongoing_swap t = Some s -> pop_spare t = (Ok (Some x), t') ->
  exists rest, os_spare_makers s = rest ++ [x] /\ tk_ongoing_swap t' = Some {| s with os_spare_makers := rest |} /\
    tk_trace t' = tk_trace t.
Proof.
  intros Hs H. unfold pop_spare, mbind, stateful_bind in H. rewrite read_swap_run, Hs, set_swap_run, Hs in H.
  injection H as Hl <-. exists (removelast (os_spare_makers s)). cbn. split; [|done].
  destruct (os_spare_makers s) as [|y l] eqn:E; [done|]. rewrite (app_removelast_last x) at 1 by done.
  f_equal. f_equal. rewrite <- E in *. clear E. revert Hl. generalize (os_spare_makers s) as k.
  induction k as [|a [|b k] IH]; intros Hk; [done|by injection Hk|]. by apply IH.
Qed.

Lemma refused_kept id amt tx n h i t t' s r :
  tk_ongoing_swap t = Some s -> negotiate_with_maker i id amt tx n h t = (r, t') ->
  exists s', tk_ongoing_swap t' = Some s' /\ kept s s' /\ route_addresses s' = route_addresses s /\
    os_spare_makers s' = os_spare_makers s /\ length (os_makers s') = length (os_makers s) /\
    (forall j, j <> i -> os_makers s' !! j = os_makers s !! j).
Proof.
  intros Hs H. pose proof (steps_run _ _ _ _ _ (negotiate_with_maker_touches i id amt tx n h) H) as Ht.
  unfold touches in Ht. rewrite Hs in Ht. destruct (tk_ongoing_swap t') as [s'|]; [|done].
  destruct Ht as (E & Ha & Ho). exists s'. split; [done|].
  split; [by rewrite E|]. split; [rewrite E in Ha |- *; unfold route_addresses; cbn in *; by rewrite Ha|].
  split; [by rewrite E|]. split; [|done]. rewrite <- (length_map mc_address), Ha. apply length_map.
Qed.

(** The makers before [i] have agreed, and the route is one of distinct makers. *)
Definition route_upto (amt : Amount) (n h : Z) (i : nat) (s : OngoingSwapState) : Prop :=
  NoDup (route_addresses s) /\ Z.of_nat (length (os_makers s)) = n /\
  forall j m, (j < i)%nat -> os_makers s !! j = Some m -> negotiated (swp_protocol (os_params s)) amt n h j m.

(** The terms went out to each of them. *)
Definition proposed_upto (id : string) (amt : Amount) (tx n : Z) (i : nat) (s : OngoingSwapState)
    (tr : list TakerEvent) : Prop :=
  forall j m, (j < i)%nat -> os_makers s !! j = Some m -> proposed id amt tx n tr j m.

Lemma negotiate_loop_Ok id amt tx n h : forall fuel i t t' s,
  tk_ongoing_swap t = Some s -> route_upto amt n h i s -> proposed_upto id amt tx n i s (tk_trace t) ->
  negotiate_loop fuel id amt tx n (swp_protocol (os_params s)) h i t = (Ok (), t') ->
  exists s', tk_ongoing_swap t' = Some s' /\ kept s s' /\ route_upto amt n h (length (os_makers s')) s' /\
    proposed_upto id amt tx n (length (os_makers s')) s' (tk_trace t') /\
    (os_payment s <> None -> offers_present s -> prices s' = prices s).
Proof.
  induction fuel as [|fuel IH]; intros i t t' s Hs (Hd & Hl & Hn) Hpu H; cbn [negotiate_loop] in H;
    (destruct (Z.ltb_spec (Z.of_nat i) n) as [Hi|Hi];
     [|injection H as <-; exists s; split; [done|]; split; [by destruct s|]; split;
       [split; [done|]; split; [done|]; intros j m Hj Hm; apply Hn; [lia|done]|];
       split; [intros j m Hj Hm; apply Hpu; [lia|done]|done]]); [done|].
  apply st_bind_Ok in H as (r & t1 & Hr & H). unfold attempt in Hr.
  pose proof (negotiate_with_maker_uncommitted i id amt tx n h t) as Hunc.
  destruct (negotiate_with_maker _ _ _ _ _ _ t) as [[[]|e|] t1'] eqn:En; try done; injection Hr as <- <-; cbn [snd] in Hunc.
  - apply (agreed_kept _ _ _ _ _ _ _ _ _ Hs) in En as (s1 & Hs1 & Hk & Ha & Hlen & Ho & Hm & Hp).
    assert (Hpr : swp_protocol (os_params s) = swp_protocol (os_params s1)) by (by rewrite Hk).
    assert (Hl1 : Z.of_nat (length (os_makers s1)) = n) by (by rewrite Hlen).
    rewrite Hpr in H. apply (IH _ _ _ _ Hs1) in H as (s' & Hs' & Hk' & Hr' & Hpu' & Hp').
    + exists s'. split; [done|]. split; [by eapply kept_trans|]. split; [done|]. split; [done|].
      intros Hpay Hoff. destruct (Hp Hpay Hoff) as [Hoff1 <-]. apply Hp'; [by rewrite Hk|done].
    + split; [by rewrite Ha|]. split; [done|]. rewrite <- Hpr. intros j m Hj Hjm.
      destruct (decide (j = i)) as [->|Hne]; [by apply Hm|]. apply Hn; [lia|]. by rewrite <- Ho.
    + intros j m Hj Hjm. destruct (decide (j = i)) as [->|Hne]; [by apply Hm|].
      eapply uncommitted_keeps; [exact Hunc|]. apply Hpu; [lia|]. by rewrite <- Ho.
  - apply (refused_kept _ _ _ _ _ _ _ _ _ _ Hs) in En as (s1 & Hs1 & Hk & Ha & Hsp & Hl1 & Ho).
    apply st_bind_Ok in H as (pay & t2 & Hp & H). rewrite read_swap_run, Hs1 in Hp. injection Hp as <- <-.
    apply st_bind_Ok in H as ([] & t2 & [Hpay ->]%lift_Ok & H). apply reject_Ok, bool_decide_eq_false in Hpay.
    apply st_bind_Ok in H as (sp & t2 & Hpop & H). destruct sp as [x|]; [|done].
    apply (pop_spare_Some _ _ _ _ Hs1) in Hpop as (rest & Erest & Hs2 & Htr2).
    apply st_bind_Ok in H as ([] & t3 & Hu & H).
    destruct (lookup_lt_is_Some_2 (os_makers s1) i) as [m Em]; [lia|].
    rewrite (update_maker_run _ _ _ _ m Hs2) in Hu by done. injection Hu as <-.
    set (s2 := {| s1 with os_spare_makers := rest; os_makers := alter (fun _ => fresh_maker x (swp_protocol (os_params s)) None) i (os_makers s1) |}) in *.
    assert (Hpr : swp_protocol (os_params s) = swp_protocol (os_params s2)) by (unfold s2; cbn; by rewrite Hk).
    assert (Hks : kept s s2) by (unfold s2, kept; cbn; by rewrite Hk).
    rewrite Hpr in H. eapply (IH _ _ _ s2) in H as (s' & Hs' & Hk' & Hr' & Hpu' & _); [|done| |].
    + exists s'. split; [done|]. split; [by eapply kept_trans|]. split; [done|]. split; [done|].
      intros Hsome. destruct Hpay. rewrite Hk. cbn. by destruct (os_payment s); [eexists|].
    + split; [|split].
      * rewrite <- Ha in Hd. unfold route_addresses in *. cbn. rewrite Erest in Hd. rewrite map_alter_fresh.
        apply NoDup_replace; [rewrite length_map; lia|done].
      * cbn. rewrite length_alter. lia.
      * intros j mj Hj Hjm. cbn in Hjm. rewrite list_lookup_alter_ne in Hjm by lia. rewrite <- Hpr. apply Hn; [lia|].
        by rewrite <- Ho by lia.
    + intros j mj Hj Hjm. cbn in Hjm. rewrite list_lookup_alter_ne in Hjm by lia. cbn.
      rewrite Htr2. eapply uncommitted_keeps; [exact Hunc|]. apply Hpu; [lia|]. by rewrite <- Ho by lia.
Qed.
End negotiation.

(** ** The route of a payment *)
Section payment_route.
Context {lib : BitcoinLib} {laws : BitcoinLaws lib}.
Context (poll_maker : string -> outcome TakerError (option Offer)) (spendable : outcome TakerError Amount).

(** Pricing the hops leaves the route and the rest of the swap alone. *)
Definition swap_frame (s : OngoingSwapState) :=
  (os_id s, os_preimage s, route_addresses s, length (os_makers s), os_outgoing_swapcoins s, os_incoming_swapcoins s).
Definition same_frame (a b : TakerSt) : Prop := swap_frame <$> b = swap_frame <$> a.
#[local] Instance same_frame_preorder : PreOrder same_frame.
Proof. split; [done|]. intros a b c. unfold same_frame. congruence. Qed.
#[local] Hint Extern 1 (PreOrder same_frame) => apply same_frame_preorder : steps.
Lemma swap_state_frame {A} (k : OngoingSwapState -> stateful TakerSt TakerError A) :
  (forall s, steps same_frame (k s)) -> steps same_frame (swap_state k).
Proof. intros Hk [s|]; [apply (Hk s)|done]. Qed.
Lemma swap_state_mut_frame f : (forall s, swap_frame (f s) = swap_frame s) -> steps same_frame (swap_state_mut f).
Proof. intros Hf [s|]; [|done]. unfold same_frame. cbn. by rewrite Hf. Qed.
Lemma set_maker_offer_frame i o s : swap_frame (set_maker_offer i o s) = swap_frame s.
Proof.
  unfold swap_frame, set_maker_offer, route_addresses. cbn. by rewrite length_alter, map_alter_address.
Qed.
#[local] Hint Extern 0 (steps same_frame (swap_state_mut _)) =>
  apply swap_state_mut_frame; intros; first [done|apply set_maker_offer_frame] : steps.

Lemma payment_route_frame address : steps same_frame (payment_prepare_route poll_maker spendable address).
Proof.
  unfold payment_prepare_route, price_hop.
  repeat first [progress take_steps | apply swap_state_frame; intros ?].
Qed.

(** Agreed terms at the quoted prices deliver the receiver's amount and the
    whole settlement budget at the last hop. *)
Lemma quoted_route_pays address s1 s2 s h :
  payment_prepare_route poll_maker spendable address (Some s1) = (Ok (), Some s2) ->
  let p := os_params s1 in let n := Z.of_nat (length (os_makers s1)) in
  0 <= swp_send_amount p <= MAX_MONEY -> is_u32 (swp_tx_count p) -> os_makers s1 <> [] ->
  os_params s = os_params s2 -> prices s = prices s2 -> route_upto (swp_send_amount (os_params s)) n h (length (os_makers s)) s ->
  expected_amount_for_hop (Some s) (length (os_makers s1) - 1) =
    Ok (swp_send_amount p + (match swp_protocol p with Legacy => 600 | Taproot => 310 end) * swp_tx_count p).
Proof.
  intros Hrun p n Hamt Htx Hne Hpar Hpr (_ & Hl & Hneg).
  apply (payment_prepare_Ok poll_maker spendable) in Hrun
    as (? & hops & gross & [= <-] & Hp' & _ & Hsolve & Hml & Hlen & Hhops).
  assert (length (os_makers s) = length (os_makers s1)) as Hls by (unfold n in Hl; lia).
  apply (expected_amount_of_hops s1 s hops gross); try done; [by rewrite Hpar|].
  intros j t Hj. destruct (Hhops j t Hj) as (offer & Hm & ->).
  destruct (os_makers s2 !! j) as [m2|] eqn:E2; [|done]. injection Hm as Hm.
  apply (f_equal (lookup j)) in Hpr. unfold prices in Hpr. change (map ?f ?l) with (f <$> l) in Hpr.
  rewrite !list_lookup_fmap, E2 in Hpr. cbn in Hpr. rewrite Hm in Hpr.
  destruct (os_makers s !! j) as [m|] eqn:E; [|done]. cbn in Hpr. injection Hpr as Hpr.
  destruct (mc_offer m) as [offer'|] eqn:Eo; [|done]. injection Hpr as H1 H2 H3.
  exists m, offer'. split; [done|]. split; [done|].
  destruct (Hneg j m) as (Hproto & _ & Htl & _); [by eapply lookup_lt_Some|done|].
  unfold from_offer, hop_locktime, zlen. rewrite H1, H2, H3, Hls. unfold n in Htl.
  rewrite Hproto. by destruct (swp_protocol (os_params s)); rewrite ?Htl.
Qed.
End payment_route.

(** ** [prepare_swap] *)

(** What the taker relies on of the offer book; [reachable_book_ok] keeps it. *)
Class BookDistinct {D} (po : PrepareOutside D) : Prop :=
  book_distinct d : NoDup (addresses (po_offerbook d)).

Section prepared.
Context {lib : BitcoinLib} {laws : BitcoinLaws lib} {tap : TaprootLib} {hi : HashIter}.
Context {D : Type} {tv : TakerOutside D} {po : PrepareOutside D} {bd : BookDistinct po}.
Implicit Types t : Taker D.

Lemma persist_swap_Ok phase t t' s :
  tk_ongoing_swap t = Some s -> persist_swap phase t = (Ok (), t') ->
  tk_ongoing_swap t' = Some {| s with os_phase := phase |}.
Proof.
  intros Hs H. unfold persist_swap in H. apply st_bind_Ok in H as ([] & t1 & H1 & H).
  rewrite set_swap_run, Hs in H1. injection H1 as <-.
  apply st_bind_Ok in H as (id & t1 & H1 & H). rewrite read_swap_run in H1. injection H1 as _ <-.
  apply st_bind_Ok in H as ([] & t1 & H1 & H). injection H1 as _ <-.
  apply st_bind_Ok in H as (ex & t1 & H1 & H). injection H1 as _ <-.
  apply st_bind_Ok in H as (sw & t1 & H1 & H). rewrite read_swap_run in H1. injection H1 as _ <-.
  apply st_bind_Ok in H as (now & t1 & H1 & H). injection H1 as _ <-.
  apply st_bind_Ok in H as ([] & t1 & H1 & H). injection H1 as _ <-.
  unfold on_tracker in H. destruct (save_record _ _ _) as [r st]. by injection H as _ <-.
Qed.

(** The route [discover_makers] chooses. *)
Lemma discover_makers_Ok t t' s :
  tk_ongoing_swap t = Some s -> duplicate_in_route (os_params s) = false -> discover_makers t = (Ok (), t') ->
  exists s', tk_ongoing_swap t' = Some s' /\ kept s s' /\ NoDup (route_addresses s') /\
    length (os_makers s') = Z.to_nat (swp_maker_count (os_params s)).
Proof.
  intros Hs Hdup H. unfold discover_makers in H. apply st_bind_Ok in H as (p & t1 & H1 & H).
  rewrite read_swap_run, Hs in H1. injection H1 as <- <-.
  apply st_bind_Ok in H as ([makers spares] & t1 & H1 & H).
  assert (t1 = t /\ length makers = Z.to_nat (swp_maker_count (os_params s)) /\ NoDup (map mc_address makers ++ spares))
    as (-> & Hl & Hd).
  { unfold duplicate_in_route in Hdup. destruct (swp_preferred_makers _) as [addrs|].
    - apply lift_Ok in H1 as [H1 ->]. apply select_preferred_Ok in H1 as [Hl Hd]. to_prop. auto.
    - apply st_bind_Ok in H1 as (d & t2 & H2 & H1). injection H2 as <- <-.
      apply st_bind_Ok in H1 as ([] & t2 & [_ ->]%lift_Ok & H1). apply lift_Ok in H1 as [H1 ->].
      apply select_from_book_Ok in H1 as (Hl & _ & Hd & _). split; [done|]. split; [done|]. apply Hd, book_distinct. }
  rewrite set_swap_run, Hs in H. injection H as <-. eexists. split; [done|]. by split.
Qed.

Lemma negotiate_swap_details_Ok t t' s :
  tk_ongoing_swap t = Some s -> NoDup (route_addresses s) ->
  Z.of_nat (length (os_makers s)) = swp_maker_count (os_params s) ->
  negotiate_swap_details t = (Ok (), t') ->
  exists s' h, tk_ongoing_swap t' = Some s' /\ kept {| s with os_reference_height := Some h |} s' /\
    route_upto (swp_send_amount (os_params s)) (swp_maker_count (os_params s)) h (length (os_makers s')) s' /\
    proposed_upto (os_id s) (swp_send_amount (os_params s)) (swp_tx_count (os_params s)) (swp_maker_count (os_params s))
      (length (os_makers s')) s' (tk_trace t') /\
    (os_payment s <> None -> offers_present s -> prices s' = prices s).
Proof.
  intros Hs Hd Hl H. unfold negotiate_swap_details in H. apply st_bind_Ok in H as (sw & t1 & H1 & H).
  rewrite read_swap_run, Hs in H1. injection H1 as <- <-.
  apply st_bind_Ok in H as (h & t1 & H1 & H).
  assert (tk_ongoing_swap t1 = Some {| s with os_reference_height := Some h |}) as Hs1.
  { unfold take_reference_height in H1. apply st_bind_Ok in H1 as ([] & t2 & H2 & H1). injection H2 as _ <-.
    apply st_bind_Ok in H1 as (r & t2 & H2 & H1).
    assert (tk_ongoing_swap t2 = Some s) as Hs2.
    { unfold attempt, on_chain, on_wallet in H2. destruct (in_outside _ _) as [[?|?|] w]; simplify_eq/=; done. }
    destruct r as [count|]; [|done]. apply st_bind_Ok in H1 as ([] & t3 & H3 & H1).
    rewrite set_swap_run, Hs2 in H3. injection H3 as <-. by injection H1 as <- <-. }
  eapply (negotiate_loop_Ok _ _ _ _ h _ 0 t1 t' _ Hs1) in H as (s' & Hs' & Hk & Hr & Hpu & Hp); [by exists s', h| |].
  - split; [done|]. split; [done|]. lia.
  - intros j m Hj. lia.
Qed.

(** The payment route is priced before negotiation, or there is no payment. *)
Definition payment_of (params : SwapParams) (s1 s2 : OngoingSwapState) : Prop :=
  match swp_payment_address params with
  | None => s2 = s1
  | Some _ => exists poll sp address, payment_prepare_route poll sp address (Some s1) = (Ok (), Some s2)
  end.
Lemma payment_of_frame params s1 s2 : payment_of params s1 s2 ->
  swap_frame s2 = swap_frame s1 /\
  os_params s2 = {| (os_params s1) with swp_send_amount := swp_send_amount (os_params s2) |} /\
  (swp_payment_address params <> None -> os_payment s2 <> None /\ offers_present s2).
Proof.
  unfold payment_of. destruct (swp_payment_address params); [|intros ->; split; [done|]; split; [by destruct s1 as [? ? []]|done]].
  intros (poll & sp & a & H). pose proof (payment_route_frame poll sp a (Some s1)) as Hf. unfold same_frame in Hf. rewrite H in Hf.
  injection Hf as Hid Hpre Hra Hlm Hout Hin. split; [unfold swap_frame; congruence|].
  apply (payment_prepare_Ok poll sp) in H as (? & hops & gross & [= <-] & Hp & Hpay & _ & Hml & Hlen & Hhops).
  split; [by rewrite Hp|]. intros _. split; [by rewrite Hpay|]. apply Forall_lookup. intros j m Hm.
  destruct (lookup_lt_is_Some_2 hops j) as [tm Ht]; [rewrite Hlen, <- Hml; by eapply lookup_lt_Some|].
  destruct (Hhops j tm Ht) as (o & Ho & _). rewrite Hm in Ho. injection Ho as ->. done.
Qed.

Lemma summarised_addresses n l : forall i amt,
  map mfi_address (summarise_fees n i amt l) = map mc_address l.
Proof.
  induction l as [|m l IH]; intros i amt; [done|]. cbn. destruct (fee_terms m) as [[? ?] ?]. cbn. by rewrite IH.
Qed.

Lemma prepare_swap_Ok params t sm t' :
  0 <= swp_maker_count params -> prepare_swap params t = (Ok sm, t') ->
  exists s s1 s2 h, tk_ongoing_swap t' = Some s /\ sm = summary_of (os_id s) (swp_maker_count params) s /\
    os_params s1 = params /\ length (os_makers s1) = Z.to_nat (swp_maker_count params) /\ payment_of params s1 s2 /\
    os_params s = os_params s2 /\ os_reference_height s = Some h /\
    os_outgoing_swapcoins s = [] /\ os_incoming_swapcoins s = [] /\
    route_upto (swp_send_amount (os_params s)) (swp_maker_count params) h (length (os_makers s)) s /\
    proposed_upto (os_id s) (swp_send_amount (os_params s)) (swp_tx_count params) (swp_maker_count params)
      (length (os_makers s)) s (tk_trace t') /\
    (swp_payment_address params <> None -> prices s = prices s2).
Proof.
  intros Hcount H. unfold prepare_swap in H.
  apply st_bind_Ok in H as (av & ta & _ & H). apply st_bind_Ok in H as (rq & tb & _ & H).
  apply st_bind_Ok in H as ([] & tc & _ & H). apply st_bind_Ok in H as ([] & td & [Hdup ->]%lift_Ok & H).
  apply reject_Ok in Hdup. apply st_bind_Ok in H as ([] & te & _ & H).
  apply st_bind_Ok in H as (pa & tf & [Hpa ->]%lift_Ok & H).
  apply st_bind_Ok in H as (pre & tg & _ & H). apply st_bind_Ok in H as (id & th & _ & H). cbv zeta in H.
  apply st_bind_Ok in H as ([] & ti & Hset & H). injection Hset as <-.
  apply st_bind_Ok in H as ([] & tj & Hsync & H).
  assert (tk_ongoing_swap tj = Some (new_swap id pre params)) as Hj.
  { destruct (bool_decide _); [|by injection Hsync as <-]. by apply (steps_run _ _ _ _ _ (on_world_same_swap _)) in Hsync. }
  apply st_bind_Ok in H as ([] & tk & Hdisc & H).
  apply (discover_makers_Ok _ _ _ Hj Hdup) in Hdisc as (s0 & Hs0 & Hk0 & Hd0 & Hl0).
  apply st_bind_Ok in H as ([] & tl & Hper & H). apply (persist_swap_Ok _ _ _ _ Hs0) in Hper.
  set (s1 := {| s0 with os_phase := MakersDiscovered |}) in *.
  assert (Hp1 : os_params s1 = params) by (unfold s1; cbn; by rewrite Hk0).
  apply st_bind_Ok in H as ([] & tm & Hpay & H).
  assert (exists s2, tk_ongoing_swap tm = Some s2 /\ payment_of params s1 s2) as (s2 & Hs2 & Hof).
  { unfold payment_of, payment_validate_params in *. destruct (swp_payment_address params) as [a|].
    - inv_ok Hpa. unfold prepare_payment in Hpay. rewrite Hper in Hpay.
      destruct (payment_prepare_route _ _ _ _) as [r s2] eqn:E. injection Hpay as -> <-.
      pose proof (payment_route_frame (po_poll (world tl)) (TakerPrepare.spendable tl).1 v (Some s1)) as Hf.
      unfold same_frame in Hf. rewrite E in Hf. destruct s2 as [s2|]; [|discriminate Hf]. exists s2. split; [done|]. eauto.
    - injection Hpa as <-. injection Hpay as <-. eauto. }
  destruct (payment_of_frame _ _ _ Hof) as (Hfr & Hpar & Hpo).
  injection Hfr as Hid Hpre Hra Hlm Hout Hin.
  apply st_bind_Ok in H as ([] & tn & Hneg & H).
  apply (negotiate_swap_details_Ok _ _ _ Hs2) in Hneg as (s3 & h & Hs3 & Hk3 & Hr3 & Hpu3 & Hp3).
  2:{ by rewrite Hra. }
  2:{ rewrite Hlm, Hpar, Hp1. change (os_makers s1) with (os_makers s0). rewrite Hl0. cbn. lia. }
  apply st_bind_Ok in H as ([] & to & Hlast & H).
  pose proof (steps_run _ _ _ _ _ (persist_swap_uncommitted _) Hlast) as Hunc. apply (persist_swap_Ok _ _ _ _ Hs3) in Hlast.
  rewrite read_swap_run, Hlast in H. injection H as <- <-.
  exists {| s3 with os_phase := Negotiated |}, s1, s2, h. split; [done|]. cbn.
  assert (os_params s3 = os_params s2) as Hp32 by (by rewrite Hk3).
  split_and!; try done; try (rewrite Hk3; cbn; rewrite ?Hout, ?Hin; unfold s1; cbn; by rewrite Hk0).
  - f_equal. rewrite Hk3. cbn. rewrite Hid. unfold s1. cbn. by rewrite Hk0.
  - by rewrite Hk3.
  - assert (swp_maker_count (os_params s2) = swp_maker_count params) as Hmc by (by rewrite Hpar, Hp1).
    rewrite Hmc, <- Hp32 in Hr3. exact Hr3.
  - intros j m Hlt Hm. eapply uncommitted_keeps; [exact Hunc|]. rewrite Hp32.
    assert (swp_maker_count (os_params s2) = swp_maker_count params) as Hmc by (by rewrite Hpar, Hp1).
    assert (swp_tx_count (os_params s2) = swp_tx_count params) as Htc by (by rewrite Hpar, Hp1).
    rewrite Hmc, Htc in Hpu3. assert (os_id s3 = os_id s2) as -> by (by rewrite Hk3). by apply Hpu3.
  - intros Hne. destruct (Hpo Hne). by apply Hp3.
Qed.

(** C9: Preparing a swap commits nothing, whether it succeeds or fails: no
    transaction goes out and the wallet's records stay as they are.  When it
    succeeds, the prepared swap has a route of exactly the requested number of
    makers; the makers and the spares have pairwise different addresses; every
    maker was sent the details of its own hop (the swap's id and protocol, the
    amount sent, the number of transactions, the refund offset of its position,
    and the timelock that follows from it, absolute for taproot and relative for
    legacy), has acknowledged them, and is recorded with exactly that timelock
    and with an offer that is valid for the amount sent; and the summary shown to
    the caller lists exactly these makers. *)
Theorem prepared_route_is_agreed params t r t' :
  prepare_swap params t = (r, t') ->
  uncommitted t t' /\
  forall sm, r = Ok sm -> 0 <= swp_maker_count params ->
    exists s h, tk_ongoing_swap t' = Some s /\ os_id s = sm_swap_id sm /\ os_reference_height s = Some h /\
      os_params s = {| params with swp_send_amount := sm_send_amount sm |} /\
      Z.of_nat (length (os_makers s)) = swp_maker_count params /\ NoDup (route_addresses s) /\
      (forall i m, os_makers s !! i = Some m ->
         negotiated (swp_protocol params) (sm_send_amount sm) (swp_maker_count params) h i m /\
         proposed (sm_swap_id sm) (sm_send_amount sm) (swp_tx_count params) (swp_maker_count params) (tk_trace t') i m) /\
      map mfi_address (sm_makers sm) = map mc_address (os_makers s) /\
      os_outgoing_swapcoins s = [] /\ os_incoming_swapcoins s = [].
Proof.
  intros E. split; [by apply (steps_run _ _ _ _ _ (prepare_swap_uncommitted params)) in E|].
  intros sm -> Hc. apply prepare_swap_Ok in E as (s & s1 & s2 & h & Hs & -> & Hp1 & Hl1 & Hof & Hp & Hh & Ho & Hi & Hr & Hpu & _); [|done].
  apply payment_of_frame in Hof as (_ & Hpar & _). rewrite <- Hp, Hp1 in Hpar. destruct Hr as (Hd & Hl & Hn).
  exists s, h. split_and!; try done.
  - intros i m Hm. apply lookup_lt_Some in Hm as Hlt. split; [rewrite Hpar in Hn; by apply Hn|].
    exact (Hpu i m Hlt Hm).
  - apply summarised_addresses.
Qed.

(** C10: A prepared payment pays in full.  When [prepare_swap] succeeds with a
    payment address, the amount the taker will demand of the last maker of the
    route it just negotiated is the receiver's amount plus the whole settlement
    budget, whatever the makers' fee schedules: no maker can move a price between
    the quote and the negotiation. *)
Theorem prepared_payment_pays_in_full params t sm t' :
  prepare_swap params t = (Ok sm, t') -> swp_payment_address params <> None -> 0 < swp_maker_count params ->
  0 <= swp_send_amount params <= MAX_MONEY -> is_u32 (swp_tx_count params) ->
  expected_amount_for_hop (tk_ongoing_swap t') (Z.to_nat (swp_maker_count params) - 1) =
    Ok (swp_send_amount params +
        (match swp_protocol params with Legacy => 600 | Taproot => 310 end) * swp_tx_count params).
Proof.
  intros H Hpay Hc Hamt Htx.
  apply prepare_swap_Ok in H as (s & s1 & s2 & h & Hs & _ & Hp1 & Hl1 & Hof & Hp & _ & _ & _ & Hr & _ & Hpr); [|lia].
  unfold payment_of in Hof. destruct (swp_payment_address params) as [a0|]; [|done].
  destruct Hof as (poll & sp & address & Hrun). rewrite Hs, <- Hl1.
  rewrite <- Hp1 in *. eapply (quoted_route_pays poll sp address s1 s2 s h); try done; [|by apply Hpr|].
  - intros E. rewrite E in Hl1. cbn in Hl1. lia.
  - rewrite Hl1. by rewrite Z2Nat.id by lia.
Qed.
End prepared.

(** ** A concrete market *)
#[local] Existing Instance Reference.lib.
#[local] Existing Instance Reference.laws.
#[local] Existing Instance TapReference.tap.
#[local] Existing Instance key_order.

Module Market.
(** The maker the taker talks to, the last message it got, and the offer book. *)
Record Desk := { dk_last : option TakerToMakerMessage; dk_book : OfferBook }.
#[export] Instance file : WalletFile Desk := {| write_wallet_file _ d := (Ok (), d) |}.
#[export] Instance chain : RecoveryChain Desk := {|
  rc_clock := {|
    cc_now _ := 0;
    cc_sleep _ d := d;
    cc_shutdown _ := false;
    cc_tx_confirmations _ d := (Ok None, d);
    cc_tx_block_height _ d := (Ok None, d);
  |};
  rc_get_tx_out _ _ _ d := (Ok None, d);
  rc_is_confirmed_spend _ _ d := (Ok false, d);
  rc_send_raw_transaction tx d := (Ok (compute_txid tx), d);
  rc_get_block_count d := (Ok 800, d);
  rc_derive_addresses _ start _ d := (Ok [[1; start]], d);
  rc_require_network _ := true;
  rc_nonces d := ((1, 2), d);
  rc_sync_and_save w := (Ok (), w);
|}.

(** The maker "a.onion" is down; the others agree to everything. *)
#[export] Instance outside : TakerOutside Desk := {|
  to_new_connection d := (Ok (), d);
  to_now_secs _ := 0;
  to_tracker_faults _ := None;
  to_random_key d := (1, d);
  to_create_funding_txes _ _ _ _ _ w := (Err (WE_General "no funds"), w);
  to_connect a d := (if (a =? "a.onion")%string then Err (TE_General "unreachable") else Ok 0%nat, d);
  to_send _ m d := (Ok (), {| d with dk_last := Some m |});
  to_receive _ d :=
    (match dk_last d with
     | Some TM_TakerHello => Ok (MT_MakerHello {| mh_supported_protocols := [Legacy; Taproot] |})
     | Some TM_GetOffer => Ok (MT_Offer sample_offer)
     | _ => Ok (MT_AckSwapDetails {| ack_tweakable_point := Some (Reference.key 5) |})
     end, d);
  to_watch_alive _ := true;
  to_register_watch _ _ d := (Ok (), d);
  to_breached _ := false;
  to_unknown _ := false;
  to_start_heartbeat _ _ d := d;
  to_address_script a := [1];
  to_unwatch _ _ d := d;
  to_start_detector d := (Ok (), d);
  to_start_recovery d := (Ok (), d);
  to_swap_report _ d := (Ok (), d);
|}.

Definition listed (a : MakerAddress) : MakerOfferCandidate :=
  candidate_mark_success sample_offer MP_Unified 1000
    {| moc_address := a; moc_fidelity_outpoint := None; moc_offer := None; moc_state := Unresponsive 0;
       moc_protocol := None; moc_last_offer_update_ts := None; moc_next_offer_check_ts := None |}.
#[export] Instance prepare : PrepareOutside Desk := {|
  po_sync d := (Ok (), d);
  po_offerbook d := if bool_decide (NoDup (addresses (dk_book d))) then dk_book d else [];
  po_book_poisoned _ := false;
  po_poll _ _ := Ok (Some sample_offer);
  po_require_network a := Some a;
  po_preimage d := (replicate 32 7, d);
  po_swap_id d := ("0123456789abcdef", d);
|}.
#[export] Instance distinct : BookDistinct prepare.
Proof. intros d. cbn. case_bool_decide; [done|constructor]. Qed.

Definition savings : Utxo * UTXOSpendInfo :=
  ({| ut_txid := 7; ut_vout := 0; ut_script_pub_key := [1]; ut_amount := 2000000; ut_confirmations := 6; ut_desc := None;
    ut_witness_script := None; ut_address := None |},
   SeedCoin "m/0/0" 2000000 P2TR).
Definition funded : WalletStore :=
  {| WalletStore_init with wst_utxo_cache := {[ {| op_txid := 7; op_vout := 0 |} := savings ]} |}.
Definition idle (makers : list MakerAddress) : Taker Desk :=
  Build_Taker None {| wl_store := funded; wl_outside := {| dk_last := None; dk_book := map listed makers |} |}
    false (load_or_create {| disk_file := None; disk_tmp := None |} true) false None false [].
Definition params : SwapParams := SwapParams_new Taproot 500000 2.
Definition payment : SwapParams := with_payment_address params "bc1q".
End Market.

Import (hints) Market.

Abbreviation market_swap := (prepare_swap Market.params (Market.idle ["c.onion"; "a.onion"; "b.onion"])).
Abbreviation market_payment := (prepare_swap Market.payment (Market.idle ["c.onion"; "b.onion"])).
(** What the witnesses read of a run. *)
Definition route_of (r : outcome TakerError SwapSummary * Taker Market.Desk) : option (Amount * list string) :=
  match r.1, tk_ongoing_swap r.2 with Ok sm, Some s => Some (sm_send_amount sm, route_addresses s) | _, _ => None end.
Lemma route_of_Some r a l : route_of r = Some (a, l) -> exists sm, r = (Ok sm, r.2) /\ sm_send_amount sm = a.
Proof. destruct r as [[sm|e|] t]; cbn; [|done..]. destruct (tk_ongoing_swap t); [|done]. intros [= <- _]. by exists sm. Qed.

(** The first maker of the book is down, and the spare takes its place. *)
Lemma prepared_route_is_agreed_witness :
  route_of market_swap = Some (500000, ["c.onion"; "b.onion"]) /\
  exists s h, tk_ongoing_swap market_swap.2 = Some s /\
    (forall i m, os_makers s !! i = Some m ->
       negotiated Taproot 500000 2 h i m /\ proposed (os_id s) 500000 (swp_tx_count Market.params) 2 (tk_trace market_swap.2) i m).
Proof.
  assert (route_of market_swap = Some (500000, ["c.onion"; "b.onion"])) as Hr by (vm_compute; reflexivity).
  split; [exact Hr|]. destruct (route_of_Some _ _ _ Hr) as (sm & E & Ha).
  destruct (prepared_route_is_agreed Market.params (Market.idle ["c.onion"; "a.onion"; "b.onion"])
    (Ok sm) market_swap.2 E) as [_ H].
  destruct (H sm eq_refl) as (s & h & Hs & Hid & _ & _ & _ & _ & Hn & _); [discriminate|].
  rewrite Ha, <- Hid in Hn. exists s, h. split; [exact Hs|exact Hn].
Defined.

Lemma prepared_payment_pays_in_full_witness :
  route_of market_payment = Some (532788, ["b.onion"; "c.onion"]) /\
  expected_amount_for_hop (tk_ongoing_swap market_payment.2) 1 = Ok 500310.
Proof.
  assert (route_of market_payment = Some (532788, ["b.onion"; "c.onion"])) as Hr by (vm_compute; reflexivity).
  split; [exact Hr|]. destruct (route_of_Some _ _ _ Hr) as (sm & E & _).
  apply (prepared_payment_pays_in_full Market.payment (Market.idle ["c.onion"; "b.onion"]) sm market_payment.2 E);
    [discriminate|reflexivity|split; discriminate|split; [discriminate|reflexivity]].
Defined.

(** Polling the preferred makers of a payment does not vouch for their bonds: a
    failed check keeps the offer of an earlier poll, and the route is priced with it. *)
Lemma unverified_offer_prices_the_route :
  let checked := record_poll "b.onion" (Some ({| oa_offer := sample_offer; oa_address := "b.onion"; oa_state := Good;
                                                 oa_protocol := MP_Unified |}, inr (BadBond (TE_General "spent")))) 2000
                   [Market.listed "b.onion"] in
  map moc_state checked = [Unresponsive 1] /\
  (moc_offer <$> captured "b.onion" checked) = Some (Some sample_offer) /\
  exists terms s, price_hop (fun a => Ok (captured a checked ≫= moc_offer)) 500000 1 0
    (Some (sample_swap [fresh_maker "b.onion" Taproot None] [] None)) = (Ok terms, s).
Proof. split; [reflexivity|]. split; [reflexivity|]. eexists _, _. vm_compute. reflexivity. Qed.
