(* ===== verification/Float32.v ===== *)
(** IEEE-754 binary32, as the coin selection and the amount splitter use it: the
    operations of [Float64] at precision 24 and maximal exponent 128. *)
From Stdlib Require Import SpecFloat.
From S2P Require Import Prelude Float64.

Abbreviation f32 := spec_float.

Definition f32_sub : f32 -> f32 -> f32 := SFsub 24 128.
Definition f32_mul : f32 -> f32 -> f32 := SFmul 24 128.
Definition f32_div : f32 -> f32 -> f32 := SFdiv 24 128.
Definition f32_ltb : f32 -> f32 -> bool := SFltb.
Definition f32_leb : f32 -> f32 -> bool := SFleb.
(** [z as f32] for an integer, and [x as f32] for an [f64]. *)
Definition f32_of_Z (z : Z) : f32 := binary_normalize 24 128 z 0 false.
Definition f32_of_f64 (x : f64) : f32 :=
  match x with
  | S754_finite s m e => binary_normalize 24 128 (if s then Z.neg m else Z.pos m) e s
  | _ => x
  end.
(** [x as u64]: the same truncation as for [f64]. *)
Definition f32_to_u64 : f32 -> Z := f64_to_u64.

Example f32_of_u32_max : f32_to_u64 (f32_of_Z (2 ^ 32 - 1)) = 2 ^ 32.
Proof. reflexivity. Qed.
Example f32_of_f64_rounds : f32_to_u64 (f32_of_f64 (f64_of_Z (2 ^ 24 + 1))) = 2 ^ 24.
Proof. reflexivity. Qed.
