(* ===== verification/WalletUtxo.v ===== *)
(** The wallet's view of the chain: which unspent outputs it can spend and how
    (src/wallet/api.rs, with the descriptor reader of src/utill.rs).

    A synchronisation hands the unspent outputs of the node to
    [update_utxo_cache], which classifies the new ones by the wallet's records and
    drops the ones that are gone.  The node and BIP32 derivation are the class
    [UtxoChain]. *)
From Stdlib Require Import Ascii String.
From stdpp Require Import pretty.
From S2P Require Import Prelude Float64 Bitcoin Messages Contract Errors SwapCoin TaprootLib Taproot WatchRegistry TakerState WalletStore Fidelity.
#[local] Open Scope string_scope.
#[local] Open Scope list_scope.
#[local] Open Scope Z_scope.

(** ** Descriptors *)
Fixpoint split_on (c : ascii) (s : string) : list string :=
  match s with
  | EmptyString => [EmptyString]
  | String a s =>
      if Ascii.eqb a c then EmptyString :: split_on c s
      else match split_on c s with
           | [] => [String a EmptyString]
           | chunk :: chunks => String a chunk :: chunks
           end
  end.

Definition digit (c : ascii) : option Z :=
  let n := Z.of_N (N_of_ascii c) in if (48 <=? n) && (n <=? 57) then Some (n - 48) else None.
(** The digits of a non-empty number, below [bound]. *)
Fixpoint path_digits (bound acc : Z) (s : string) : option Z :=
  match s with
  | EmptyString => Some acc
  | String c s =>
      d ← digit c;
      let acc := 10 * acc + d in
      if acc <? bound then path_digits bound acc s else None
  end.
Definition path_number (bound : Z) (s : string) : option Z :=
  match s with EmptyString => None | _ => path_digits bound 0 s end.
(** [str::parse::<u32>] and [str::parse::<i32>]. *)
Definition path_u32 (s : string) : option Z :=
  match s with
  | String "+" s => path_number (2 ^ 32) s
  | _ => path_number (2 ^ 32) s
  end.
Definition path_i32 (s : string) : option Z :=
  match s with
  | String "+" s => path_number (2 ^ 31) s
  | String "-" s => Z.opp <$> path_number (2 ^ 31 + 1) s
  | _ => path_number (2 ^ 31) s
  end.

(** Fingerprint, keychain and index; a closing bracket before the opening one is
    a slice out of order. *)
Definition get_hd_path_from_descriptor (descriptor : string) : outcome WalletError (option (string * Z * Z)) :=
  match String.index 0 "[" descriptor, String.index 0 "]" descriptor with
  | Some open, Some close =>
      if (close <? open + 1)%nat then Panic
      else
        match split_on "/" (substring (open + 1) (close - (open + 1)) descriptor) with
        | [fingerprint; addr_type; index] =>
            match path_u32 addr_type, path_i32 index with
            | Some addr_type, Some index => Ok (Some (fingerprint, addr_type, index))
            | _, _ => Ok None
            end
        | _ => Ok None
        end
  | _, _ => Ok None
  end.

Definition descriptor_address_type (descriptor : string) : AddressType :=
  if String.prefix "tr(" descriptor then P2TR else P2WPKH.
Definition hd_path (keychain index : Z) : string := "m/" ++ pretty keychain ++ "/" ++ pretty index.

(** ** Outside *)
Record HdOrigin := { hd_fingerprint : string; hd_keychain_idx : Z; hd_index : Z; hd_is_taproot : bool }.
Class UtxoChain (D : Type) := {
  uc_list_unspent : stateful D WalletError (list Utxo);
  uc_hd_origin_for_script : D -> Script -> option HdOrigin;
  (** The fingerprint of an account key. *)
  uc_account_fingerprint : AddressType -> outcome WalletError string;
}.
Definition hd_address_type (hd : HdOrigin) : AddressType := if hd_is_taproot hd then P2TR else P2WPKH.

Definition outpoint_of (u : Utxo) : OutPoint := {| op_txid := ut_txid u; op_vout := ut_vout u |}.

Section utxos.
Context {lib : BitcoinLib} {hi : HashIter} {D : Type} {uc : UtxoChain D}.
Abbreviation wallet_op := (stateful (Wallet D) WalletError).

(** ** Classification *)
(** [find_map] over the bonds, counting from [i]. *)
Fixpoint find_bond (i : Z) (utxo : Utxo) (bonds : list FidelityBond) : outcome WalletError (option UTXOSpendInfo) :=
  match bonds with
  | [] => Ok None
  | bond :: bonds =>
      spk ← fb_script_pub_key bond;
      if bool_decide (spk = ut_script_pub_key utxo) && (fb_amount bond =? ut_amount utxo)
      then Ok (Some (FidelityBondCoin (wrap 32 i) (fb_amount bond)))
      else find_bond (i + 1) utxo bonds
  end.
Definition check_if_fidelity (utxo : Utxo) (w : WalletStore) : outcome WalletError (option UTXOSpendInfo) :=
  find_bond 0 utxo (wst_fidelity_bond w).

Definition swept_by_descriptor (utxo : Utxo) : outcome WalletError (option UTXOSpendInfo) :=
  match ut_desc utxo with
  | Some descriptor =>
      hd ← get_hd_path_from_descriptor descriptor;
      Ok match hd with
         | Some (_, addr_type, index) =>
             Some (SweptCoin (hd_path addr_type index) (ut_amount utxo) (descriptor_address_type descriptor))
         | None => None
         end
  | None => Ok None
  end.
Definition check_if_swept_incoming_swapcoin (utxo : Utxo) (w : Wallet D) : outcome WalletError (option UTXOSpendInfo) :=
  if bool_decide (ut_script_pub_key utxo ∈ wst_swept_incoming_swapcoins (wl_store w)) then
    path ← swept_by_descriptor utxo;
    match path with
    | Some info => Ok (Some info)
    | None =>
        Ok ((fun hd => SweptCoin (hd_path (hd_keychain_idx hd) (hd_index hd)) (ut_amount utxo) (hd_address_type hd))
              <$> uc_hd_origin_for_script (wl_outside w) (ut_script_pub_key utxo))
    end
  else Ok None.

(** The contract outputs of the wallet's own swap coins.  What is filed as the
    multisig script of the coin is its contract script. *)
Definition is_contract_output (utxo : Utxo) (tx : Transaction) (vout : Z) : bool :=
  (ut_txid utxo =? compute_txid tx) && (ut_vout utxo =? vout).
Definition check_and_derive_live_contract_spend_info (utxo : Utxo) (w : WalletStore) : option UTXOSpendInfo :=
  match list_find (fun c => is_contract_output utxo (osc_contract_tx c) (osc_get_contract_output_vout c) = true)
          (hash_values (wst_outgoing_swapcoins w)) with
  | Some (_, c) => Some (TimelockContract (default [] (osc_contract_redeemscript c)) (ut_amount utxo))
  | None =>
      match list_find (fun c => is_contract_output utxo (isc_contract_tx c) (isc_get_contract_output_vout c)
                                && isc_is_preimage_known c = true)
              (hash_values (wst_incoming_swapcoins w)) with
      | Some (_, c) => Some (HashlockContract (default [] (isc_contract_redeemscript c)) (ut_amount utxo))
      | None => None
      end
  end.

(** A key of the wallet's own tree. *)
Definition seed_coin (utxo : Utxo) (fingerprint : string) (keychain index : Z) (address_type : AddressType)
    : outcome WalletError (option UTXOSpendInfo) :=
  account ← uc_account_fingerprint address_type;
  Ok (if (fingerprint =? account)%string then Some (SeedCoin (hd_path keychain index) (ut_amount utxo) address_type)
      else None).

(** The legacy coins whose 2-of-2 pays to this script. *)
Definition matching_multisig (spk : Script) (protocol : ProtocolVersion) (my other : option PublicKey) : option Script :=
  match protocol, my, other with
  | Legacy, Some my, Some other =>
      let rs := create_multisig_redeemscript my other in
      if bool_decide (0 :: 32 :: wscript_hash rs = spk) then Some rs else None
  | _, _, _ => None
  end.
Definition first_some {A B} (f : A -> option B) (l : list A) : option B := head (omap f l).
Definition match_swapcoin (utxo : Utxo) (w : WalletStore) : option UTXOSpendInfo :=
  let spk := ut_script_pub_key utxo in
  match first_some (fun c => if bool_decide (isc_other_privkey c <> None)
                             then matching_multisig spk (isc_protocol c) (isc_my_pubkey c) (isc_other_pubkey c) else None)
          (hash_values (wst_incoming_swapcoins w)) with
  | Some rs => Some (USI_IncomingSwapCoin rs)
  | None =>
      USI_OutgoingSwapCoin <$>
        first_some (fun c => if bool_decide (osc_hash_preimage c <> None)
                             then matching_multisig spk (osc_protocol c) (osc_my_pubkey c) (osc_other_pubkey c) else None)
          (hash_values (wst_outgoing_swapcoins w))
  end.

(** The arm for descriptors: a key of the tree, or a swap coin by its script. *)
Definition by_descriptor (utxo : Utxo) (w : WalletStore) (descriptor : string) : outcome WalletError (option UTXOSpendInfo) :=
  hd ← get_hd_path_from_descriptor descriptor;
  match hd with
  | Some (fingerprint, addr_type, index) =>
      seed_coin utxo fingerprint addr_type index (descriptor_address_type descriptor)
  | None =>
      let witness_script := default [] (ut_witness_script utxo) in
      if match find_incoming_swapcoin_by_multisig witness_script w with
         | Some sc => bool_decide (isc_other_privkey sc <> None) | None => false end
      then rs ← expect (ut_witness_script utxo); Ok (Some (USI_IncomingSwapCoin rs))
      else if match find_outgoing_swapcoin_by_multisig witness_script w with
              | Some sc => bool_decide (osc_hash_preimage sc <> None) | None => false end
      then rs ← expect (ut_witness_script utxo); Ok (Some (USI_OutgoingSwapCoin rs))
      else Ok None
  end.

(** [or_else] on results. *)
Definition or_try {A} (x : option A) (next : outcome WalletError (option A)) : outcome WalletError (option A) :=
  match x with Some a => Ok (Some a) | None => next end.

Definition check_and_derive_descriptor_utxo_or_swap_coin (utxo : Utxo) (w : Wallet D)
    : outcome WalletError (option UTXOSpendInfo) :=
  swept ← check_if_swept_incoming_swapcoin utxo w;
  or_try swept
    (by_origin ← match uc_hd_origin_for_script (wl_outside w) (ut_script_pub_key utxo) with
                 | Some hd => seed_coin utxo (hd_fingerprint hd) (hd_keychain_idx hd) (hd_index hd) (hd_address_type hd)
                 | None => Ok None
                 end;
     or_try by_origin
       (or_try (if bool_decide (ut_witness_script utxo = None) then match_swapcoin utxo (wl_store w) else None)
          match ut_desc utxo with
          | Some descriptor => by_descriptor utxo (wl_store w) descriptor
          | None => Ok None
          end)).

Definition spend_info_of (utxo : Utxo) (w : Wallet D) : outcome WalletError (option UTXOSpendInfo) :=
  fidelity ← check_if_fidelity utxo (wl_store w);
  match fidelity with
  | Some info => Ok (Some info)
  | None =>
      match check_and_derive_live_contract_spend_info utxo (wl_store w) with
      | Some info => Ok (Some info)
      | None => check_and_derive_descriptor_utxo_or_swap_coin utxo w
      end
  end.

(** ** The cache *)
Abbreviation Cache := (gmap OutPoint (Utxo * UTXOSpendInfo)).

(** The entries to insert; an output that is cached already is not looked at. *)
Fixpoint new_entries (cache : Cache) (w : Wallet D) (utxos : list Utxo) : outcome WalletError (list (OutPoint * (Utxo * UTXOSpendInfo))) :=
  match utxos with
  | [] => Ok []
  | u :: utxos =>
      if bool_decide (is_Some (cache !! outpoint_of u)) then new_entries cache w utxos
      else
        info ← spend_info_of u w;
        rest ← new_entries cache w utxos;
        Ok (match info with Some info => (outpoint_of u, (u, info)) :: rest | None => rest end)
  end.

(** The outputs that are gone are removed even when the classification fails. *)
Definition retain_listed (utxos : list Utxo) (cache : Cache) : Cache :=
  filter (fun p => p.1 ∈ map outpoint_of utxos) cache.
Definition set_cache (cache : Cache) (w : Wallet D) : Wallet D :=
  {| w with wl_store := {| (wl_store w) with wst_utxo_cache := cache |} |}.
Definition update_utxo_cache (utxos : list Utxo) : wallet_op () := fun w =>
  let kept := retain_listed utxos (wst_utxo_cache (wl_store w)) in
  match new_entries kept (set_cache kept w) utxos with
  | Ok entries => (Ok (), set_cache (fold_left (fun c e => <[e.1 := e.2]> c) entries kept) w)
  | Err e => (Err e, set_cache kept w)
  | Panic => (Panic, set_cache kept w)
  end.

(** ** Locks *)
Record LockedWallet := { lw_wallet : Wallet D; lw_locked : gset OutPoint }.
Abbreviation locked_op := (stateful LockedWallet WalletError).
Definition in_locked {A} (op : wallet_op A) : locked_op A := fun lw =>
  let '(r, w) := op (lw_wallet lw) in (r, {| lw with lw_wallet := w |}).

Definition unlock_all_utxos : locked_op () := modify (fun lw => {| lw with lw_locked := ∅ |}).
Definition lock_utxos (outpoints : list OutPoint) : locked_op () :=
  modify (fun lw => {| lw with lw_locked := lw_locked lw ∪ list_to_set outpoints |}).
Definition lock_unspendable_utxos : locked_op () :=
  _ ← unlock_all_utxos;
  all_unspents ← in_locked (in_outside uc_list_unspent);
  w ← gets lw_wallet;
  infos ← lift (try_map (fun u => check_and_derive_descriptor_utxo_or_swap_coin u w) all_unspents);
  lock_utxos (map (fun p => outpoint_of p.1) (filter (fun p => p.2 = None) (zip all_unspents infos))).
End utxos.
Arguments LockedWallet : clear implicits.
