(* ===== verification/CoinSelect.v ===== *)
(** Coin selection: [coin_select] of src/wallet/api.rs.

    Candidates are the wallet's cached coins that are neither locked nor excluded,
    in two pools that are never mixed: coins of the wallet's own tree, and coins
    swept from swaps.  Reused addresses are spent together, the rest is left to
    rust-coinselect, whose [select_coin] and [calculate_fee] are the class
    [CoinSelectLib]. *)
From Stdlib Require Import Ascii String.
From S2P Require Import Prelude Float64 Float32 Bitcoin Messages Contract Errors SwapCoin WalletStore WalletUtxo.
#[local] Open Scope string_scope.
#[local] Open Scope list_scope.
#[local] Open Scope Z_scope.

Definition LONG_TERM_FEERATE : f32 := f32_of_Z 10.
Definition BASE_TXN_ONLY_WEIGHT : Z := 42.
Definition INPUT_BASE_WEIGHT : Z := (32 + 4 + 4 + 1) * 4.

(** ** rust-coinselect *)
Record OutputGroup := { og_value : Z; og_weight : Z; og_input_count : Z }.
Record CoinSelectionOpt := {
  cso_target_value : Z;
  cso_target_feerate : f32;
  cso_long_term_feerate : option f32;
  cso_min_absolute_fee : Z;
  cso_base_weight : Z;
  cso_change_weight : Z;
  cso_change_cost : Z;
  cso_min_change_value : Z;
}.
Inductive SelectionError := SE_InsufficientFunds (available required : Z) | SE_Other (e : string).
(** The selections, best first, each with the indices of its groups; the
    algorithms draw random numbers. *)
Class CoinSelectLib (D : Type) := {
  cs_calculate_fee : Z -> f32 -> Z;
  cs_select_coin : list OutputGroup -> CoinSelectionOpt -> stateful D SelectionError (list (list nat));
}.

Abbreviation Coin := (Utxo * UTXOSpendInfo)%type.
Definition coin_outpoint (c : Coin) : OutPoint := outpoint_of c.1.

Section select.
Context {lib : BitcoinLib} {hi : HashIter} {D : Type} {cs : CoinSelectLib D}.
Abbreviation locked_op := (stateful (LockedWallet D) WalletError).

Definition sum_u64 (l : list Z) : Z := fold_left (fun a b => wrap 64 (a + b)) l 0.
Definition coins_value (l : list Coin) : Z := sum_u64 (map (fun c => ut_amount c.1) l).
Definition input_weight (c : Coin) : Z := INPUT_BASE_WEIGHT + estimate_witness_size c.2.
Definition coins_weight (l : list Coin) : Z := sum_u64 (map input_weight l).

Definition output_script_pubkey_size (t : AddressType) : Z := match t with P2WPKH => 22 | P2TR => 34 end.
Definition target_output_weight (t : AddressType) : Z := (8 + 1 + output_script_pubkey_size t) * 4.
Definition change_output_weight : Z := (8 + 1 + 34) * 4.
Definition cost_of_change (feerate : f64) : Z :=
  wrap 64 (cs_calculate_fee ((change_output_weight + 3) / 4) (f32_of_f64 feerate)
           + cs_calculate_fee ((INPUT_BASE_WEIGHT + 66 + 3) / 4) LONG_TERM_FEERATE).
Definition target_feerate_wu (feerate : f64) : f32 := f32_div (f32_of_f64 feerate) (f32_of_Z 4).
Definition tx_weight_with_selected_inputs (t : AddressType) (selected_weight : Z) : Z :=
  wrap 64 (BASE_TXN_ONLY_WEIGHT + selected_weight + target_output_weight t).
Definition required_total (target : Amount) (feerate : f64) (t : AddressType) (selected_weight : Z) : Z :=
  wrap 64 (target + cs_calculate_fee (tx_weight_with_selected_inputs t selected_weight) (target_feerate_wu feerate)).

(** The candidates of a pool. *)
Definition filter_locked (locked : gset OutPoint) (excluded : list OutPoint) (l : list Coin) : list Coin :=
  filter (fun c => coin_outpoint c ∉ locked /\ coin_outpoint c ∉ excluded) l.

(** Which pool a manual selection pins. *)
Inductive Pool := Regular | Swap.
Definition requested (manual : list OutPoint) (l : list Coin) : list Coin :=
  filter (fun c => coin_outpoint c ∈ manual) l.
Definition manual_pool (manual : list OutPoint) (regular swap : list Coin) : outcome WalletError (option Pool) :=
  if bool_decide (manual = []) then Ok None
  else
    _ ← reject (negb (length (requested manual regular) + length (requested manual swap)
                      =? length (remove_dups manual))%nat)
          (WE_General "Some manually selected UTXOs are unavailable, locked, or excluded");
    _ ← reject (bool_decide (requested manual regular <> []) && bool_decide (requested manual swap <> []))
          (WE_General "Cannot mix regular and swap UTXOs in manual selection");
    Ok (Some (if bool_decide (requested manual regular <> []) then Regular else Swap)).

(** ** Reused addresses *)
Definition address_key (u : Utxo) (script_text : Script -> string) : string :=
  match ut_address u with Some a => a | None => "script_" ++ script_text (ut_script_pub_key u) end.
Definition address_groups (script_text : Script -> string) (l : list Coin) : gmap string (list Coin) :=
  fold_left (fun m c => <[address_key c.1 script_text := default [] (m !! address_key c.1 script_text) ++ [c]]> m) l ∅.

(** [sort_by_key]: a stable insertion sort on the value of a group. *)
Fixpoint insert_group (g : list Coin) (l : list (list Coin)) : list (list Coin) :=
  match l with
  | [] => [g]
  | h :: l => if coins_value g <=? coins_value h then g :: h :: l else h :: insert_group g l
  end.
Definition sort_groups (l : list (list Coin)) : list (list Coin) := foldr insert_group [] l.

(** Adds groups until the selection covers what it has to; [true] when it does. *)
Fixpoint add_groups (required : Z -> Z) (groups : list (list Coin)) (selected : list Coin) (total weight : Z)
    : bool * list Coin * Z * Z :=
  match groups with
  | [] => (false, selected, total, weight)
  | g :: groups =>
      let total := wrap 64 (total + coins_value g) in
      let weight := wrap 64 (weight + coins_weight g) in
      let selected := selected ++ g in
      if required weight <=? total then (true, selected, total, weight)
      else add_groups required groups selected total weight
  end.

Definition output_group (g : list Coin) : OutputGroup :=
  {| og_value := coins_value g; og_weight := coins_weight g; og_input_count := zlen g |}.

(** [selected_inputs.iter().flat_map(|i| single_addresses[i].clone())]. *)
Fixpoint chosen_groups (groups : list (list Coin)) (ixs : list nat) : outcome WalletError (list Coin) :=
  match ixs with
  | [] => Ok []
  | i :: ixs => g ← expect (groups !! i); rest ← chosen_groups groups ixs; Ok (g ++ rest)
  end.

(** What is remembered of the pools that failed. *)
Record Failures := { fl_insufficient : option (Z * Z); fl_other : option string }.
Definition note_insufficient (available required : Z) (f : Failures) : Failures :=
  let deficit := Z.max (required - available) 0 in
  if match fl_insufficient f with
     | Some (prev_avail, prev_req) => deficit <? Z.max (prev_req - prev_avail) 0
     | None => true
     end
  then {| f with fl_insufficient := Some (available, required) |} else f.

(** [script_text] is the text of a script. *)
Context (script_text : Script -> string).

(** One pool: a selection, or the failures with this one added. *)
Definition try_pool (target : Amount) (feerate : f64) (t : AddressType) (manual : list OutPoint) (pool : list Coin)
    (f : Failures) : locked_op (list Coin + Failures) :=
  let required := required_total target feerate t in
  let forced := requested manual pool in
  let candidates := filter (fun c => coin_outpoint c ∉ manual) pool in
  let groups := hash_values (address_groups script_text candidates) in
  let grouped := sort_groups (filter (fun g => (1 < length g)%nat) groups) in
  let single := sort_groups (filter (fun g => ~ (1 < length g)%nat) groups) in
  let total := coins_value forced in
  let weight := coins_weight forced in
  if required weight <=? total then mret (inl forced)
  else
    let '(covered, selected, total, weight) := add_groups required grouped forced total weight in
    if covered : bool then mret (inl selected)
    else
      let opt := {| cso_target_value := Z.max (Z.max (target - total) 0) 1;
                    cso_target_feerate := target_feerate_wu feerate;
                    cso_long_term_feerate := Some LONG_TERM_FEERATE; cso_min_absolute_fee := 0;
                    cso_base_weight := tx_weight_with_selected_inputs t weight;
                    cso_change_weight := change_output_weight; cso_change_cost := cost_of_change feerate;
                    cso_min_change_value := 330 |} in
      r ← in_locked (in_outside (attempt (E := SelectionError) (cs_select_coin (map output_group single) opt)));
      match r with
      | inl results =>
          selected_inputs ← lift (expect (head results));
          additional ← lift (chosen_groups single selected_inputs);
          mret (inl (selected ++ additional))
      | inr (SE_InsufficientFunds available req) =>
          mret (inr (note_insufficient (wrap 64 (available + total)) (wrap 64 (req + total)) f))
      | inr (SE_Other e) => mret (inr {| f with fl_other := Some e |})
      end.

Fixpoint try_pools (target : Amount) (feerate : f64) (t : AddressType) (manual : list OutPoint) (pools : list (list Coin))
    (f : Failures) : locked_op (list Coin) :=
  match pools with
  | [] =>
      lift (Err match fl_insufficient f, fl_other f with
                | Some (available, required), _ => WE_InsufficientFund available required
                | None, Some e => WE_Selection e
                | None, None => WE_General "coin selection failed without returning an error"
                end)
  | pool :: pools =>
      r ← try_pool target feerate t manual pool f;
      match r with inl coins => mret coins | inr f => try_pools target feerate t manual pools f end
  end.

Definition coin_select (amount : Amount) (feerate : f64) (t : AddressType) (manual excluded : option (list OutPoint))
    : locked_op (list Coin) :=
  lw ← gets (fun lw => lw);
  let store := wl_store (lw_wallet lw) in
  let free := filter_locked (lw_locked lw) (default [] excluded) in
  let regular := free (list_descriptor_utxo_spend_info store) in
  let swap := free (list_swept_incoming_swap_utxos store) in
  let manual := default [] manual in
  pinned ← lift (manual_pool manual regular swap);
  let pools := match pinned with
               | Some Regular => [regular]
               | Some Swap => [swap]
               | None => [regular; swap]
               end in
  try_pools amount feerate t manual pools {| fl_insufficient := None; fl_other := None |}.
End select.
