(* ===== verification/CoinSelectSafety.v ===== *)
(** What coin selection may pick: free coins of one pool, each once. *)
From Stdlib Require Import String.
From S2P Require Import Prelude Float64 Float32 Bitcoin Messages Contract Errors SwapCoin WalletStore WalletUtxo CoinSelect TakerSteps.
#[local] Open Scope string_scope.
#[local] Open Scope list_scope.
#[local] Open Scope Z_scope.

(** rust-coinselect returns each group at most once. *)
Class CoinSelectLaws {D} (cs : CoinSelectLib D) : Prop :=
  select_coin_distinct groups opt d sel rest d' :
    cs_select_coin groups opt d = (Ok (sel :: rest), d') -> NoDup sel.

(** ** Parts of a list *)
Definition part_of {A} (l k : list A) : Prop := exists rest, l ++ rest ≡ₚ k.

Lemma part_of_trans {A} (l1 l2 l3 : list A) : part_of l1 l2 -> part_of l2 l3 -> part_of l1 l3.
Proof. intros [r1 H1] [r2 H2]. exists (r1 ++ r2). by rewrite app_assoc, H1. Qed.
Lemma part_of_perm {A} (l k : list A) : l ≡ₚ k -> part_of l k.
Proof. intros H. exists []. by rewrite app_nil_r. Qed.
Lemma part_of_app {A} (l1 l2 k1 k2 : list A) : part_of l1 k1 -> part_of l2 k2 -> part_of (l1 ++ l2) (k1 ++ k2).
Proof. intros [r1 H1] [r2 H2]. exists (r1 ++ r2). rewrite <- H1, <- H2. solve_Permutation. Qed.
Lemma part_of_elem {A} (l k : list A) x : part_of l k -> x ∈ l -> x ∈ k.
Proof. intros [r <-] Hx. apply elem_of_app. by left. Qed.
Lemma part_of_NoDup {A B} (f : A -> B) (l k : list A) : part_of l k -> NoDup (map f k) -> NoDup (map f l).
Proof.
  intros [r H] Hk. rewrite <- (Permutation_map f H), map_app in Hk. by apply NoDup_app in Hk as [? _].
Qed.
Lemma filter_split {A} (P : A -> Prop) `{forall x, Decision (P x)} (l : list A) :
  filter P l ++ filter (fun x => ~ P x) l ≡ₚ l.
Proof.
  induction l as [|x l IH]; [done|]. rewrite !filter_cons. destruct (decide (P x)); destruct (decide (~ P x)); try done; cbn.
  - by rewrite IH.
  - rewrite <- Permutation_middle. by rewrite IH.
Qed.
Lemma concat_perm {A} (l k : list (list A)) : l ≡ₚ k -> concat l ≡ₚ concat k.
Proof. induction 1; cbn; [done| | |by etrans]; [by f_equiv|]. rewrite !app_assoc. by f_equiv; rewrite Permutation_app_comm. Qed.

(** ** Groups *)
Lemma insert_group_perm g l : insert_group g l ≡ₚ g :: l.
Proof. induction l as [|h l IH]; cbn; [done|]. destruct (_ <=? _); [done|]. rewrite IH. constructor. Qed.
Lemma sort_groups_perm l : sort_groups l ≡ₚ l.
Proof. induction l as [|g l IH]; cbn; [done|]. by rewrite insert_group_perm, IH. Qed.

Section groups.
Context {hi : HashIter} {hl : HashIterLaws hi}.

Lemma hash_values_perm {K V} `{Countable K} (m : gmap K V) : hash_values m ≡ₚ map snd (map_to_list m).
Proof. unfold hash_values. apply Permutation_map, hl. Qed.

Lemma address_groups_perm st l : concat (hash_values (address_groups st l)) ≡ₚ l.
Proof.
  rewrite (concat_perm _ _ (hash_values_perm _)). unfold address_groups.
  enough (forall m, concat (map snd (map_to_list (fold_left (fun m c =>
    <[address_key c.1 st := default [] (m !! address_key c.1 st) ++ [c]]> m) l m))) ≡ₚ concat (map snd (map_to_list m)) ++ l)
    as He by (rewrite He, map_to_list_empty; done).
  induction l as [|c l IH]; intros m; cbn [fold_left]; [by rewrite app_nil_r|].
  rewrite IH. set (k := address_key c.1 st).
  assert (concat (map snd (map_to_list (<[k := default [] (m !! k) ++ [c]]> m))) ≡ₚ concat (map snd (map_to_list m)) ++ [c]) as ->.
  { destruct (m !! k) as [g|] eqn:E; cbn [default].
    - rewrite <- insert_delete_eq, map_to_list_insert by apply lookup_delete_eq.
      rewrite <- (insert_delete_id m k g E) at 2. rewrite map_to_list_insert by apply lookup_delete_eq.
      cbn. solve_Permutation.
    - rewrite map_to_list_insert by done. cbn. solve_Permutation. }
  by rewrite <- app_assoc.
Qed.

Lemma add_groups_prefix required gs : forall sel tot wt cov sel' tot' wt',
  add_groups required gs sel tot wt = (cov, sel', tot', wt') ->
  exists j, sel' = sel ++ concat (take j gs) /\ (cov = true -> required wt' <= tot').
Proof.
  induction gs as [|g gs IH]; intros sel tot wt cov sel' tot' wt'; cbn [add_groups].
  { intros [= <- <- <- <-]. exists 0%nat. cbn. by rewrite app_nil_r. }
  destruct (Z.leb_spec (required (wrap 64 (wt + coins_weight g))) (wrap 64 (tot + coins_value g))) as [Hle|_].
  - intros [= <- <- <- <-]. exists 1%nat. cbn. rewrite app_nil_r. done.
  - intros H. apply IH in H as (j & -> & Hc). exists (S j). split; [|done]. cbn. by rewrite <- app_assoc.
Qed.
Lemma concat_take_part {A} (j : nat) (gs : list (list A)) : part_of (concat (take j gs)) (concat gs).
Proof. exists (concat (drop j gs)). by rewrite <- concat_app, take_drop. Qed.

Lemma chosen_groups_without i ixs : forall gs, i ∉ ixs -> chosen_groups (<[i := []]> gs) ixs = chosen_groups gs ixs.
Proof.
  induction ixs as [|j ixs IH]; intros gs Hi; [done|]. apply not_elem_of_cons in Hi as [Hij Hi]. cbn [chosen_groups].
  by rewrite list_lookup_insert_ne, IH by done.
Qed.
Lemma chosen_groups_part ixs : forall gs l, NoDup ixs -> chosen_groups gs ixs = Ok l -> part_of l (concat gs).
Proof.
  induction ixs as [|i ixs IH]; intros gs l; cbn [chosen_groups].
  { intros _ [= <-]. by exists (concat gs). }
  intros [Hi Hd]%NoDup_cons H. inv_ok H. destruct (IH (<[i := []]> gs) v0) as [r Hr]; [done|by rewrite chosen_groups_without|].
  exists r. rewrite <- app_assoc, Hr.
  match goal with H : gs !! i = Some _ |- _ => rename H into Hg end.
  rewrite <- (take_drop_middle gs i _ Hg) at 2. rewrite insert_take_drop by (by eapply lookup_lt_Some).
  rewrite !concat_app. cbn. solve_Permutation.
Qed.
End groups.

(** ** Pools *)
(** Every entry of the cache is filed under its own outpoint. *)
Definition cache_keyed (cache : gmap OutPoint Coin) : Prop := forall op c, cache !! op = Some c -> coin_outpoint c = op.

(** A coin of the wallet that nobody has claimed. *)
Definition free_coin {D} (lw : LockedWallet D) (excluded : list OutPoint) (c : Coin) : Prop :=
  wst_utxo_cache (wl_store (lw_wallet lw)) !! coin_outpoint c = Some c /\
  coin_outpoint c ∉ lw_locked lw /\ coin_outpoint c ∉ excluded.

Section pools.
Context {lib : BitcoinLib} {hi : HashIter} {hl : HashIterLaws hi} {D : Type} {cs : CoinSelectLib D} {cl : CoinSelectLaws cs}.
Context (script_text : Script -> string).
Implicit Types lw : LockedWallet D.

Lemma cached_outpoints_distinct (cache : gmap OutPoint Coin) : cache_keyed cache -> NoDup (map coin_outpoint (hash_values cache)).
Proof.
  intros Hk. unfold hash_values. rewrite map_map. assert (map (fun p => coin_outpoint p.2) (hash_iter cache) = map fst (hash_iter cache)) as ->.
  { apply map_ext_in. intros [op c] Hin%list_elem_of_In. apply Hk. by apply elem_of_hash_iter in Hin. }
  rewrite (Permutation_map fst (hl _ _ _ _ cache)). apply NoDup_fst_map_to_list.
Qed.

Lemma free_pool_distinct lw excluded keep :
  cache_keyed (wst_utxo_cache (wl_store (lw_wallet lw))) ->
  NoDup (map coin_outpoint (filter_locked (lw_locked lw) excluded (list_utxo_where keep (wl_store (lw_wallet lw))))).
Proof.
  intros Hk. eapply part_of_NoDup; [|by apply (cached_outpoints_distinct _ Hk)].
  unfold filter_locked, list_utxo_where, list_all_utxo_spend_info.
  eapply part_of_trans; (eexists; apply filter_split).
Qed.
Lemma free_pool_free lw excluded keep c :
  cache_keyed (wst_utxo_cache (wl_store (lw_wallet lw))) ->
  c ∈ filter_locked (lw_locked lw) excluded (list_utxo_where keep (wl_store (lw_wallet lw))) ->
  free_coin lw excluded c /\ keep c.2 = true.
Proof.
  intros Hk. unfold filter_locked, list_utxo_where, list_all_utxo_spend_info.
  rewrite !list_elem_of_filter, elem_of_hash_values. intros ([Hl He] & Hkeep & op & Hc).
  split; [|by apply Is_true_true]. split; [|done]. by rewrite (Hk _ _ Hc).
Qed.

(** What a pool yields. *)
Definition picks_from (manual : list OutPoint) (pool coins : list Coin) : Prop :=
  part_of coins pool /\ forall c, c ∈ requested manual pool -> c ∈ coins.

Lemma selection_parts (manual : list OutPoint) (pool : list Coin) :
  exists candidates, requested manual pool ++ candidates ≡ₚ pool /\
    candidates = filter (fun c => coin_outpoint c ∉ manual) pool.
Proof. eexists. split; [|done]. apply filter_split. Qed.

Lemma picks_app manual pool extra rest :
  requested manual pool ++ rest ≡ₚ pool -> part_of extra rest -> picks_from manual pool (requested manual pool ++ extra).
Proof.
  intros Hp He. split; [|intros c Hc; apply elem_of_app; by left].
  eapply part_of_trans; [apply part_of_app; [by apply part_of_perm|exact He]|by apply part_of_perm].
Qed.

Lemma try_pool_picks target feerate t manual pool f lw coins lw' :
  try_pool script_text target feerate t manual pool f lw = (Ok (inl coins), lw') -> picks_from manual pool coins.
Proof.
  unfold try_pool. destruct (selection_parts manual pool) as (cand & Hp & Hcand). rewrite <- Hcand.
  set (groups := hash_values _). assert (concat groups ≡ₚ cand) as Hg by apply address_groups_perm.
  set (grouped := sort_groups (filter (fun g => (1 < length g)%nat) groups)).
  set (single := sort_groups (filter (fun g => ~ (1 < length g)%nat) groups)).
  assert (concat grouped ++ concat single ≡ₚ cand) as Hsplit.
  { rewrite <- Hg, <- concat_app. apply concat_perm. unfold grouped, single. rewrite !sort_groups_perm. apply filter_split. }
  destruct (_ <=? _).
  { intros [= <- <-]. rewrite <- (app_nil_r (requested _ _)). eapply picks_app; [exact Hp|]. by exists cand. }
  destruct (add_groups _ _ _ _ _) as [[[covered selected] total] weight] eqn:Ha.
  apply add_groups_prefix in Ha as (j & -> & _). destruct covered.
  { intros [= <- <-]. eapply picks_app; [exact Hp|]. eapply part_of_trans; [apply concat_take_part|]. by exists (concat single). }
  intros (r & lw1 & Hr & H)%st_bind_Ok. destruct r as [results|[av rq|e]]; [|by injection H|by injection H].
  apply st_bind_Ok in H as (sel & lw2 & Hsel & H). apply lift_Ok in Hsel as [Hsel ->]. apply expect_Ok in Hsel.
  apply st_bind_Ok in H as (more & lw3 & Hmore & H). apply lift_Ok in Hmore as [Hmore ->]. injection H as <- <-.
  rewrite <- app_assoc. eapply picks_app; [exact Hp|]. eapply part_of_trans; [|by apply part_of_perm].
  apply part_of_app; [apply concat_take_part|]. eapply chosen_groups_part; [|exact Hmore].
  destruct results as [|sel' results]; [done|]. injection Hsel as ->.
  unfold in_locked, in_outside, attempt in Hr.
  destruct (cs_select_coin _ _ _) as [[res|e|] d] eqn:Hcs; simplify_eq/=. by eapply select_coin_distinct.
Qed.

Lemma try_pools_picks target feerate t manual pools : forall f lw coins lw',
  try_pools script_text target feerate t manual pools f lw = (Ok coins, lw') ->
  exists pool, pool ∈ pools /\ picks_from manual pool coins.
Proof.
  induction pools as [|pool pools IH]; intros f lw coins lw'; cbn [try_pools].
  { intros [? _]%lift_Ok. by repeat case_match. }
  intros (r & lw1 & Hr & H)%st_bind_Ok. destruct r as [cs'|f'].
  - injection H as <- <-. apply try_pool_picks in Hr. exists pool. split; [left|done].
  - apply IH in H as (p & Hp & Hpick). exists p. split; [by right|done].
Qed.

(** Selecting leaves the wallet and the locks alone. *)
Definition same_coins lw lw' : Prop :=
  lw_locked lw' = lw_locked lw /\ wl_store (lw_wallet lw') = wl_store (lw_wallet lw).
#[local] Instance same_coins_preorder : PreOrder same_coins.
Proof. split; [by split|]. intros ? ? ? [H1 H2] [H3 H4]. split; congruence. Qed.
Lemma outside_same_coins {A} (op : stateful D WalletError A) : steps same_coins (in_locked (in_outside op)).
Proof. intros lw. unfold in_locked, in_outside. by destruct (op _). Qed.
#[local] Hint Resolve outside_same_coins : steps.
#[local] Hint Extern 1 (PreOrder same_coins) => apply same_coins_preorder : steps.

Lemma try_pools_steps target feerate t manual pools : forall f,
  steps same_coins (try_pools script_text target feerate t manual pools f).
Proof.
  induction pools as [|pool pools IH]; intros f; cbn [try_pools]; [take_steps|].
  unfold try_pool. take_steps; apply IH.
Qed.
#[local] Hint Resolve try_pools_steps : steps.
Lemma coin_select_steps amount feerate t manual excluded :
  steps same_coins (coin_select script_text amount feerate t manual excluded).
Proof. unfold coin_select. take_steps. Qed.

(** A manual selection that is accepted lies in one pool, whole. *)
Lemma requested_all (manual : list OutPoint) (pool : list Coin) :
  NoDup (map coin_outpoint pool) -> length (requested manual pool) = length (remove_dups manual) ->
  forall op, op ∈ manual -> op ∈ map coin_outpoint (requested manual pool).
Proof.
  intros Hd Hlen op Hop. assert (NoDup (map coin_outpoint (requested manual pool))) as Hn.
  { eapply part_of_NoDup; [|exact Hd]. eexists. apply filter_split. }
  assert (map coin_outpoint (requested manual pool) ≡ₚ remove_dups manual) as ->; [|by apply elem_of_remove_dups].
  apply submseteq_length_Permutation; [|rewrite length_map; lia]. apply NoDup_submseteq; [done|].
  intros x ([? ?] & -> & Hx%list_elem_of_filter)%list_elem_of_fmap. apply elem_of_remove_dups. naive_solver.
Qed.

Lemma manual_pool_whole manual regular swap pinned :
  NoDup (map coin_outpoint regular) -> NoDup (map coin_outpoint swap) ->
  manual_pool manual regular swap = Ok pinned ->
  forall pool, pool ∈ match pinned with Some Regular => [regular] | Some Swap => [swap] | None => [regular; swap] end ->
  forall op, op ∈ manual -> op ∈ map coin_outpoint (requested manual pool).
Proof.
  intros Hr Hs. unfold manual_pool. case_bool_decide as Hm; [subst manual; intros _ ? _ ? H; by apply not_elem_of_nil in H|].
  intros H. inv_ok H. to_prop. apply andb_false_iff in Hs1.
  case_bool_decide as Hreg; intros pool ->%list_elem_of_singleton; apply requested_all; try done.
  - destruct Hs1 as [H1|H1]; to_prop; [done|]. apply dec_stable in H1. rewrite H1 in Hs0. cbn in Hs0. lia.
  - rewrite Hreg in Hs0. cbn in Hs0. lia.
Qed.

(** What an accepted selection is, from any keyed cache. *)
Lemma coin_select_spec amount feerate t manual excluded lw coins lw' :
  cache_keyed (wst_utxo_cache (wl_store (lw_wallet lw))) ->
  coin_select script_text amount feerate t manual excluded lw = (Ok coins, lw') ->
  same_coins lw lw' /\ NoDup (map coin_outpoint coins) /\
  (forall c, c ∈ coins -> free_coin lw (default [] excluded) c) /\
  ((forall c, c ∈ coins -> exists path v t, c.2 = SeedCoin path v t) \/
   (forall c, c ∈ coins -> exists path v t, c.2 = SweptCoin path v t)) /\
  (forall op, op ∈ default [] manual -> op ∈ map coin_outpoint coins).
Proof.
  intros Hk H. split; [by eapply steps_run; [apply coin_select_steps|exact H]|].
  unfold coin_select in H. apply st_bind_Ok in H as (lw0 & lw1 & [= <- <-] & H).
  apply st_bind_Ok in H as (pinned & lw2 & Hpin & H). apply lift_Ok in Hpin as [Hpin ->].
  apply try_pools_picks in H as (pool & Hin & Hpart & Hreq).
  pose proof (manual_pool_whole _ _ _ _ (free_pool_distinct _ _ _ Hk) (free_pool_distinct _ _ _ Hk) Hpin _ Hin) as Hwhole.
  assert (exists keep, pool = filter_locked (lw_locked lw) (default [] excluded) (list_utxo_where keep (wl_store (lw_wallet lw))) /\
    ((forall i, keep i = true -> exists path v t, i = SeedCoin path v t) \/
     (forall i, keep i = true -> exists path v t, i = SweptCoin path v t))) as (keep & Hpool & Hkind).
  { assert (pool = filter_locked (lw_locked lw) (default [] excluded) (list_descriptor_utxo_spend_info (wl_store (lw_wallet lw))) \/
            pool = filter_locked (lw_locked lw) (default [] excluded) (list_swept_incoming_swap_utxos (wl_store (lw_wallet lw)))) as [-> | ->]
      by (repeat case_match; set_solver).
    - eexists. split; [done|]. left. intros [] ?; naive_solver.
    - eexists. split; [done|]. right. intros [] ?; naive_solver. }
  assert (forall c, c ∈ coins -> free_coin lw (default [] excluded) c /\ keep c.2 = true) as Hfree.
  { intros c Hc. apply free_pool_free; [done|]. rewrite <- Hpool. by eapply part_of_elem. }
  split; [eapply part_of_NoDup; [exact Hpart|]; subst pool; by apply free_pool_distinct|].
  split; [intros c Hc; by apply Hfree|]. split; [destruct Hkind as [Hkind|Hkind]; [left|right]; intros c Hc; by apply Hkind, Hfree|].
  intros op Hop. specialize (Hwhole op Hop). apply list_elem_of_fmap in Hwhole as (c & -> & Hc).
  apply list_elem_of_fmap. exists c. split; [done|by apply Hreq].
Qed.
End pools.

(** ** The cache follows the node *)
Lemma insert_entries_inv (entries : list (OutPoint * Coin)) : forall (cache : gmap OutPoint Coin) op c,
  fold_left (fun m e => <[e.1 := e.2]> m) entries cache !! op = Some c ->
  cache !! op = Some c \/ (op, c) ∈ entries.
Proof.
  induction entries as [|[k v] entries IH]; intros cache op c; cbn [fold_left]; [by left|].
  intros [[[<- <-]|[_ H]]%lookup_insert_Some|H]%IH; [right; left|by left|by right; right].
Qed.
Lemma insert_entries_keep (entries : list (OutPoint * Coin)) : forall (cache : gmap OutPoint Coin) op,
  op ∉ map fst entries -> fold_left (fun m e => <[e.1 := e.2]> m) entries cache !! op = cache !! op.
Proof.
  induction entries as [|[k v] entries IH]; intros cache op Hop; cbn [fold_left]; [done|].
  apply not_elem_of_cons in Hop as [Hne Hop]. rewrite IH by done. cbn. by rewrite lookup_insert_ne.
Qed.
Lemma insert_entries_Some (entries : list (OutPoint * Coin)) : forall (cache : gmap OutPoint Coin) op,
  is_Some (cache !! op) \/ op ∈ map fst entries ->
  is_Some (fold_left (fun m e => <[e.1 := e.2]> m) entries cache !! op).
Proof.
  induction entries as [|[k v] entries IH]; intros cache op; cbn [fold_left].
  { intros [H|H]; [done|by apply not_elem_of_nil in H]. }
  cbn. intros H. apply IH. destruct H as [H|[->|H]%elem_of_cons]; [left; apply lookup_insert_is_Some'; by right|left|by right].
  rewrite lookup_insert_eq. by eexists.
Qed.

Section cache.
Context {lib : BitcoinLib} {hi : HashIter} {D : Type} {uc : UtxoChain D}.
Implicit Types w : Wallet D.

Lemma new_entries_spec (cache : gmap OutPoint Coin) w utxos : forall entries,
  new_entries cache w utxos = Ok entries ->
  (forall op c, (op, c) ∈ entries -> coin_outpoint c = op /\ op ∈ map outpoint_of utxos /\ cache !! op = None) /\
  (forall u, u ∈ utxos -> is_Some (cache !! outpoint_of u) \/ outpoint_of u ∈ map fst entries \/ spend_info_of u w = Ok None).
Proof.
  induction utxos as [|u utxos IH]; intros entries; cbn [new_entries].
  { intros [= <-]. split; intros *; by intros ?%not_elem_of_nil. }
  case_bool_decide as Hc.
  - intros [H1 H2]%IH. split.
    + intros op c (? & ? & ?)%H1. split_and!; [done|by right|done].
    + intros u' [->|Hu]%elem_of_cons; [by left|by apply H2].
  - intros H. inv_ok H. destruct (IH _ Hs0) as [H1 H2]. apply eq_None_not_Some in Hc. destruct v as [info|]; split.
    + intros op c [[= -> ->]|(? & ? & ?)%H1]%elem_of_cons; [split_and!; [done|left|done]|split_and!; [done|by right|done]].
    + intros u' [->|[?|[?|?]]%H2]%elem_of_cons; [right; left; left|by left|right; left; by right|by right; right].
    + intros op c (? & ? & ?)%H1. split_and!; [done|by right|done].
    + intros u' [->|Hu]%elem_of_cons; [by right; right|by apply H2].
Qed.

Lemma retain_listed_Some utxos (cache : gmap OutPoint Coin) op c :
  retain_listed utxos cache !! op = Some c <-> cache !! op = Some c /\ op ∈ map outpoint_of utxos.
Proof. apply map_lookup_filter_Some. Qed.

Lemma update_cache_spec utxos w w' :
  update_utxo_cache utxos w = (Ok (), w') ->
  let cache := wst_utxo_cache (wl_store w) in let cache' := wst_utxo_cache (wl_store w') in
  (cache_keyed cache -> cache_keyed cache') /\
  (forall op c, cache' !! op = Some c -> op ∈ map outpoint_of utxos) /\
  (forall op c, cache !! op = Some c -> op ∈ map outpoint_of utxos -> cache' !! op = Some c) /\
  (forall u, u ∈ utxos -> is_Some (cache' !! outpoint_of u) \/
     spend_info_of u (set_cache (retain_listed utxos cache) w) = Ok None).
Proof.
  unfold update_utxo_cache. destruct (new_entries _ _ _) as [entries|e|] eqn:He; [|done..]. intros [= <-]. cbn.
  apply new_entries_spec in He as [H1 H2]. split_and!.
  - intros Hk op c [[H _]%retain_listed_Some|(H & _ & _)%H1]%insert_entries_inv; [by apply Hk|done].
  - intros op c [[_ H]%retain_listed_Some|(_ & H & _)%H1]%insert_entries_inv; done.
  - intros op c Hc Hl. rewrite insert_entries_keep; [by apply retain_listed_Some|].
    intros ([? c'] & -> & (_ & _ & H)%H1)%list_elem_of_fmap. cbn in *.
    assert (retain_listed utxos (wst_utxo_cache (wl_store w)) !! o = Some c) as Hr by by apply retain_listed_Some. congruence.
  - intros u [H|[H|H]]%H2; [left..|by right]; apply insert_entries_Some; [by left|by right].
Qed.
End cache.

Section synced.
Context {lib : BitcoinLib} {hi : HashIter} {hl : HashIterLaws hi} {D : Type} {uc : UtxoChain D}.
Context {cs : CoinSelectLib D} {cl : CoinSelectLaws cs} (script_text : Script -> string).

(** C14: Coin selection after a synchronisation: the cache then holds only outputs
    the node listed, and of those every one the wallet can spend.  Whatever
    rust-coinselect picks, the coins of an accepted selection are distinct, listed
    by the node, none of them locked or excluded, all of them the wallet's own or
    all of them swept from swaps (the two are never mixed); every manually chosen
    outpoint is among them; neither the wallet nor the locks change. *)
Theorem selected_coins_are_free utxos amount feerate t manual excluded locked (w w1 : Wallet D) coins lw' :
  cache_keyed (wst_utxo_cache (wl_store w)) ->
  update_utxo_cache utxos w = (Ok (), w1) ->
  coin_select script_text amount feerate t manual excluded {| lw_wallet := w1; lw_locked := locked |} = (Ok coins, lw') ->
  (forall u, u ∈ utxos -> is_Some (wst_utxo_cache (wl_store w1) !! outpoint_of u) \/
     spend_info_of u (set_cache (retain_listed utxos (wst_utxo_cache (wl_store w))) w) = Ok None) /\
  NoDup (map coin_outpoint coins) /\
  (forall c, c ∈ coins ->
     coin_outpoint c ∈ map outpoint_of utxos /\ coin_outpoint c ∉ locked /\ coin_outpoint c ∉ default [] excluded) /\
  ((forall c, c ∈ coins -> exists path v t, c.2 = SeedCoin path v t) \/
   (forall c, c ∈ coins -> exists path v t, c.2 = SweptCoin path v t)) /\
  (forall op, op ∈ default [] manual -> op ∈ map coin_outpoint coins) /\
  lw_locked lw' = locked /\ wl_store (lw_wallet lw') = wl_store w1.
Proof.
  intros Hk (Hkeyed & Hlisted & _ & Hall)%update_cache_spec ([Hl Hs] & Hd & Hfree & Hkind & Hman)%coin_select_spec; [|by apply Hkeyed].
  split_and!; try done. intros c (Hc & Hnl & Hne)%Hfree. split_and!; [by eapply Hlisted|done|done].
Qed.
End synced.

(** ** A wallet with three coins *)
Module CoinSample.
Definition seed_script : Script := 0 :: 20 :: repeat 7 20.
Definition alone_script : Script := 0 :: 20 :: repeat 9 20.
Definition utxo (txid : Z) (spk : Script) (amount : Amount) : Utxo :=
  {| ut_txid := txid; ut_vout := 0; ut_script_pub_key := spk; ut_amount := amount; ut_confirmations := 6;
     ut_desc := None; ut_witness_script := None; ut_address := None |}.
(** Two coins at one address, one by itself, and one of somebody else. *)
Definition utxos : list Utxo :=
  [utxo 1 seed_script 60000; utxo 2 alone_script 90000; utxo 3 seed_script 50000; utxo 4 [81] 1000].
#[export] Instance chain : UtxoChain () := {|
  uc_list_unspent := mret utxos;
  uc_hd_origin_for_script _ spk :=
    if decide (spk = [81]) then None
    else Some {| hd_fingerprint := "d34db33f"; hd_keychain_idx := 0; hd_index := 3; hd_is_taproot := false |};
  uc_account_fingerprint t := Ok "d34db33f";
|}.
(** Takes every group. *)
#[export] Instance picker : CoinSelectLib () := {|
  cs_calculate_fee weight rate := weight;
  cs_select_coin groups opt := mret [seq 0 (length groups)];
|}.
#[export] Instance picker_laws : CoinSelectLaws picker.
Proof. intros groups opt d sel rest d' [= <- <- <-]. apply NoDup_seq. Qed.
Definition script_text (s : Script) : string := if decide (s = seed_script) then "a" else "b".
Definition empty : Wallet () := {| wl_store := WalletStore_init; wl_outside := () |}.
End CoinSample.
Import (hints) CoinSample.
#[local] Existing Instance Reference.lib.
#[local] Existing Instance key_order.

Abbreviation synced := (update_utxo_cache CoinSample.utxos CoinSample.empty).2.
Abbreviation selection := (coin_select CoinSample.script_text 150000 (f64_of_Z 2) P2WPKH
  (Some [{| op_txid := 1; op_vout := 0 |}]) None {| lw_wallet := synced; lw_locked := ∅ |}).

Example three_coins_are_classified : size (wst_utxo_cache (wl_store synced)) = 3%nat.
Proof. vm_compute. reflexivity. Qed.
Example locked_coin_is_refused :
  (coin_select CoinSample.script_text 5000 (f64_of_Z 2) P2WPKH (Some [{| op_txid := 1; op_vout := 0 |}]) None
     {| lw_wallet := synced; lw_locked := {[ {| op_txid := 1; op_vout := 0 |} ]} |}).1
  = Err (WE_General "Some manually selected UTXOs are unavailable, locked, or excluded").
Proof. vm_compute. reflexivity. Qed.

Lemma selected_coins_are_free_witness : exists coins,
  selection.1 = Ok coins /\ map coin_outpoint coins =
    [{| op_txid := 1; op_vout := 0 |}; {| op_txid := 3; op_vout := 0 |}; {| op_txid := 2; op_vout := 0 |}] /\
  forall c, c ∈ coins -> coin_outpoint c ∈ map outpoint_of CoinSample.utxos.
Proof.
  eexists. split; [vm_compute; reflexivity|]. split; [vm_compute; reflexivity|].
  edestruct (selected_coins_are_free CoinSample.script_text CoinSample.utxos 150000 (f64_of_Z 2) P2WPKH
    (Some [{| op_txid := 1; op_vout := 0 |}]) None ∅ CoinSample.empty synced) as (_ & _ & Hfree & _);
    [|vm_compute; reflexivity|vm_compute; reflexivity|].
  - intros op c Hc. cbn in Hc. by rewrite lookup_empty in Hc.
  - intros c Hc. exact (proj1 (Hfree c Hc)).
Defined.
