(* ===== verification/WalletSpend.v ===== *)
(** Spending and funding: src/wallet/spend.rs, src/wallet/funding.rs and the signer
    of src/wallet/api.rs.

    [spend_coins] turns selected coins into a signed transaction that pays a
    destination, a fee at the requested rate and the change; [create_funding_txes]
    splits the amount of a swap at random over several such transactions.  The
    node and change addresses are those of [RecoveryChain]; key derivation, dust
    limits and random numbers are the class [SpendOutside]. *)
From S2P Require Import Prelude Float64 Float32 Bitcoin Messages Contract Errors SwapCoin TaprootLib Taproot WatchRegistry TakerState WalletStore MakerApi Fidelity ChainWait WalletRecovery WalletUtxo CoinSelect.
#[local] Open Scope string_scope.
#[local] Open Scope list_scope.
#[local] Open Scope Z_scope.

Class SpendOutside (D : Type) := {
  (** The key at a path below an account, private and public. *)
  so_child_secret : AddressType -> string -> outcome WalletError SecretKey;
  so_child_point : AddressType -> string -> outcome WalletError Point;
  (** [Keypair::tap_tweak] without a script tree. *)
  so_tap_tweak : SecretKey -> SecretKey;
  (** [Script::minimal_non_dust]. *)
  so_minimal_non_dust : Script -> Amount;
  so_next_u32 : D -> Z * D;
}.

(** ** Sizes *)
Definition varint_size (n : Z) : Z := if n <? 253 then 1 else if n <? 65536 then 3 else 5.
Definition sized (n : Z) : Z := varint_size n + n.
Definition sum_Z (l : list Z) : Z := foldr Z.add 0 l.
Definition base_size (tx : Transaction) : Z :=
  4 + varint_size (zlen (input tx)) + sum_Z (map (fun i => 36 + sized (zlen (script_sig i)) + 4) (input tx))
  + varint_size (zlen (output tx)) + sum_Z (map (fun o => 8 + sized (zlen (script_pubkey o))) (output tx)) + 4.
Definition witness_size (w : list bytes) : Z := varint_size (zlen w) + sum_Z (map (fun item => sized (zlen item)) w).
Definition uses_segwit (tx : Transaction) : bool :=
  bool_decide (input tx = []) || existsb (fun i => negb (bool_decide (witness i = []))) (input tx).
Definition tx_weight (tx : Transaction) : Z :=
  4 * base_size tx + if uses_segwit tx then 2 + sum_Z (map (fun i => witness_size (witness i)) (input tx)) else 0.
Definition to_vbytes_ceil (wu : Z) : Z := (wu + 3) / 4.
(** The estimate of [spend_coins]: base, witness, marker and flag. *)
Definition estimated_vsize (tx : Transaction) (total_witness_size : Z) : Z :=
  (base_size tx * 4 + total_witness_size + 2 + 3) / 4.

Definition is_p2wpkh (s : Script) : bool :=
  match s with v :: n :: h => (v =? 0) && (n =? 20) && (zlen h =? 20) | _ => false end.
Definition infer_address_type (s : Script) : AddressType := if is_p2wpkh s then P2WPKH else P2TR.

Section spend.
Context {lib : BitcoinLib} {tap : TaprootLib} {hi : HashIter} {keys : BondKeys}.
Context {D : Type} {file : WalletFile D} {rc : RecoveryChain D} {so : SpendOutside D}.
Abbreviation wallet_op := (stateful (Wallet D) WalletError).
Abbreviation locked_op := (stateful (LockedWallet D) WalletError).

(** ** Signing *)
Definition wpubkey_hash (p : Point) : bytes := hash160 p.
Definition p2wpkh_script (p : Point) : Script := 0 :: 20 :: wpubkey_hash p.
(** The script code BIP143 signs for a P2WPKH input. *)
Definition p2wpkh_script_code (p : Point) : Script := [118; 169; 20] ++ wpubkey_hash p ++ [136; 172].

Definition account_script (t : AddressType) (p : Point) : Script :=
  match t with P2WPKH => p2wpkh_script p | P2TR => new_p2tr (x_only_public_key p) None end.
Definition prevout_of (info : UTXOSpendInfo) : wallet_op TxOut :=
  match info with
  | SeedCoin path v t | SweptCoin path v t =>
      p ← lift (so_child_point t path); mret {| value := v; script_pubkey := account_script t p |}
  | FidelityBondCoin index v =>
      redeemscript ← get_fidelity_reedemscript index;
      mret {| value := v; script_pubkey := 0 :: 32 :: wscript_hash redeemscript |}
  | _ => mret {| value := 0; script_pubkey := [] |}
  end.

(** The signature of a coin of the wallet's own tree. *)
Definition sign_account_input (tx : Transaction) (prevouts : list TxOut) (ix : nat) (path : string) (v : Amount)
    (t : AddressType) : outcome WalletError (list bytes) :=
  privkey ← so_child_secret t path;
  match t with
  | P2WPKH =>
      let p := point_from_secret_key privkey in
      sighash ← ok_or (p2wsh_signature_hash tx ix (p2wpkh_script_code p) v SIGHASH_ALL) (WE_General "sighash");
      Ok [ecdsa_sign sighash privkey ++ [SIGHASH_ALL]; p]
  | P2TR =>
      sighash ← ok_or (taproot_key_spend_signature_hash tx ix prevouts TAP_SIGHASH_DEFAULT) (WE_General "sighash");
      Ok [sign_schnorr sighash (so_tap_tweak privkey)]
  end.

(** The witness of the spend an incoming coin signs by itself. *)
Definition incoming_witness (rs : Script) (tx : Transaction) : wallet_op (list bytes) :=
  store ← gets wl_store;
  sc ← lift (ok_or (find_incoming_swapcoin_by_multisig rs store) (WE_General "incoming swapcoin not found in wallet store"));
  out ← lift (expect (output tx !! 0%nat));
  nonces ← (fun w => let '(r, d) := rc_nonces (wl_outside w) in (Ok r, {| w with wl_outside := d |}));
  spend_tx ← lift (sign_spend_transaction (sign_taproot_spend nonces.1 nonces.2) sc (isc_funding_amount sc)
                     (script_pubkey out) (f64_of_Z 1));
  i ← lift (expect (input spend_tx !! 0%nat));
  mret (witness i).

(** The witness of input [ix] with the witness [w] it has so far. *)
Definition sign_input (tx : Transaction) (prevouts : list TxOut) (ix : nat) (w : list bytes) (info : UTXOSpendInfo)
    : wallet_op (list bytes) :=
  match info with
  | USI_OutgoingSwapCoin _ => lift (Err (WE_General "Can't sign for outgoing swapcoins"))
  | USI_IncomingSwapCoin rs | HashlockContract rs _ => incoming_witness rs tx
  | SeedCoin path v t | SweptCoin path v t =>
      items ← lift (sign_account_input tx prevouts ix path v t); mret (w ++ items)
  | TimelockContract rs _ =>
      store ← gets wl_store;
      sc ← lift (ok_or (find_outgoing_swapcoin_by_multisig rs store) (WE_General "outgoing swapcoin not found in wallet store"));
      signed_tx ← lift (sign_timelock_recovery sc tx);
      i ← lift (expect (input signed_tx !! 0%nat));
      mret (witness i)
  | FidelityBondCoin index v => items ← sign_fidelity_input tx ix index v; mret (w ++ items)
  end.

Fixpoint sign_inputs (tx : Transaction) (prevouts : list TxOut) (ix : nat) (l : list (TxIn * UTXOSpendInfo))
    : wallet_op (list TxIn) :=
  match l with
  | [] => mret []
  | (i, info) :: l =>
      w ← sign_input tx prevouts ix (witness i) info;
      rest ← sign_inputs tx prevouts (S ix) l;
      mret ({| i with witness := w |} :: rest)
  end.

Definition sign_transaction (tx : Transaction) (infos : list UTXOSpendInfo) : wallet_op Transaction :=
  prevouts ← st_map prevout_of infos;
  _ ← lift (reject (negb (length (input tx) =? length infos)%nat)
        (WE_General "Mismatched signer/input counts: tx has {} inputs but signer metadata has {} entries"));
  inputs ← sign_inputs tx prevouts 0 (zip (input tx) infos);
  mret {| tx with input := inputs |}.

(** ** Spending *)
Definition txin (op : OutPoint) (seq : Z) : TxIn := {| previous_output := op; script_sig := []; sequence := seq; witness := [] |}.

(** The input of a coin and the value it is counted with. *)
Definition input_of (c : Coin) : wallet_op (TxIn * Amount) :=
  let '(utxo, info) := c in
  match info with
  | SeedCoin _ _ _ | SweptCoin _ _ _ | USI_IncomingSwapCoin _ | USI_OutgoingSwapCoin _ =>
      mret (txin (outpoint_of utxo) 0, ut_amount utxo)
  | FidelityBondCoin index v =>
      bond ← get_bond index;
      _ ← lift (reject (fb_is_spent bond) (WE_Fidelity FE_BondAlreadyRedeemed));
      mret (txin (fb_outpoint bond) 0, v)
  | TimelockContract rs v =>
      store ← gets wl_store;
      sc ← lift (ok_or (find_outgoing_swapcoin_by_multisig rs store) (WE_General "outgoing swapcoin not found in wallet store"));
      timelock ← lift (ok_or (osc_get_timelock sc) (WE_General "outgoing swapcoin has no timelock"));
      mret (txin {| op_txid := compute_txid (osc_contract_tx sc); op_vout := 0 |} timelock, v)
  | HashlockContract rs v =>
      store ← gets wl_store;
      sc ← lift (ok_or (find_incoming_swapcoin_by_multisig rs store) (WE_General "incoming swapcoin not found in wallet store"));
      mret (txin {| op_txid := compute_txid (isc_contract_tx sc); op_vout := 0 |} 0, v)
  end.

(** The loop over the coins: inputs, their witness sizes and their total. *)
Fixpoint add_inputs (coins : list Coin) (inputs : list TxIn) (witness_total : Z) (total : Amount)
    : wallet_op (list TxIn * Z * Amount) :=
  match coins with
  | [] => mret (inputs, witness_total, total)
  | c :: coins =>
      '(i, v) ← input_of c;
      total ← lift (amount_add total v);
      add_inputs coins (inputs ++ [i]) (witness_total + estimate_witness_size c.2) total
  end.

Definition fee_for (rate vsize : Z) : outcome WalletError Amount :=
  ok_or (fee_vb rate vsize) (WE_General "fee at {feerate} sat/vB overflows for a {vsize} vB transaction").

Definition sweep_outputs (tx : Transaction) (rate witness_total : Z) (total : Amount) (addr : Script)
    : outcome WalletError (list TxOut) :=
  let temp := {| tx with output := [{| value := 0; script_pubkey := addr |}] |} in
  fee ← fee_for rate (estimated_vsize temp witness_total);
  _ ← reject (total <? fee) (WE_InsufficientFund total fee);
  Ok [{| value := total - fee; script_pubkey := addr |}].

(** [OP_RETURN] with its data. *)
Definition op_return_output (data : bytes) : TxOut :=
  {| value := 0; script_pubkey := push_slice data (push_opcode 106 []) |}.
Definition multi_outputs (outputs : list (Script * Amount)) (op_return_data : option bytes) : list TxOut :=
  map (fun p => {| value := p.2; script_pubkey := p.1 |}) outputs
  ++ match op_return_data with Some data => [op_return_output data] | None => [] end.

(** The change, or nothing when it would be dust. *)
Definition change_outputs (tx : Transaction) (rate witness_total : Z) (total total_output : Amount) (internal_spk : Script)
    : outcome WalletError (list TxOut) :=
  let tx_wchange := {| tx with output := output tx ++ [{| value := 0; script_pubkey := internal_spk |}] |} in
  fee_wchange ← fee_for rate (estimated_vsize tx_wchange witness_total);
  match checked_sub total total_output ≫= fun diff => checked_sub diff fee_wchange with
  | Some remaining =>
      Ok (if so_minimal_non_dust internal_spk <? remaining
          then [{| value := remaining; script_pubkey := internal_spk |}] else [])
  | None => required ← amount_add total_output fee_wchange; Err (WE_InsufficientFund total required)
  end.

Definition build_outputs (tx : Transaction) (rate witness_total : Z) (total : Amount) (d : Destination)
    : wallet_op (list TxOut) :=
  match d with
  | Sweep addr => lift (sweep_outputs tx rate witness_total total addr)
  | Multi outputs op_return_data change_address_type =>
      total_output ← lift (try_fold (fun sum p => amount_add sum p.2) 0 outputs);
      let outs := multi_outputs outputs op_return_data in
      addresses ← get_next_internal_addresses 1 change_address_type;
      internal_spk ← lift (expect (addresses !! 0%nat));
      change ← lift (change_outputs {| tx with output := outs |} rate witness_total total total_output internal_spk);
      mret (outs ++ change)
  end.

Definition spend_coins (coins : list Coin) (destination : Destination) (feerate : f64) : wallet_op Transaction :=
  current_height ← in_outside rc_get_block_count;
  lock_time ← lift (LockTime_from_height (wrap 32 current_height));
  '(inputs, witness_total, total) ← add_inputs coins [] 0 0;
  _ ← lift (reject (f64_ltb feerate (f64_of_Z 1)) (WE_General "feerate {feerate} sat/vB is below the 1 sat/vB minimum"));
  rate ← lift (ok_or (fee_rate_from_sat_per_vb (f64_to_u64 feerate)) (WE_General "feerate {feerate} sat/vB is out of range"));
  let tx := {| version := 2; lock_time := lock_time; input := inputs; output := [] |} in
  outs ← build_outputs tx rate witness_total total destination;
  tx ← sign_transaction {| tx with output := outs |} (map snd coins);
  total_output ← lift (try_fold (fun sum o => amount_add sum (value o)) 0 (output tx));
  _ ← lift (expect (checked_sub total total_output));
  mret tx.

(** [spend_from_wallet] leaves bonds and live contracts out. *)
Definition is_plain_coin (info : UTXOSpendInfo) : bool :=
  match info with FidelityBondCoin _ _ | HashlockContract _ _ | TimelockContract _ _ => false | _ => true end.
Definition spend_from_wallet (feerate : f64) (destination : Destination) (coins : list Coin) : wallet_op Transaction :=
  spend_coins (filter (fun c => is_plain_coin c.2 = true) coins) destination feerate.

(** ** Splitting an amount *)
Definition FRACTION_ATTEMPTS : nat := Z.to_nat 100000.
Definition LOWER_LIMIT : Z := 5000.

Definition random_fraction : wallet_op f32 := fun w =>
  let '(n, d) := so_next_u32 (wl_outside w) in
  (Ok (f32_div (f32_of_Z n) (f32_of_Z (2 ^ 32 - 1))), {| w with wl_outside := d |}).
Fixpoint draw_knives (n : nat) : wallet_op (list f32) :=
  match n with O => mret [] | S n => k ← random_fraction; ks ← draw_knives n; mret (k :: ks) end.
Fixpoint insert_knife (k : f32) (l : list f32) : list f32 :=
  match l with [] => [k] | x :: l => if f32_leb x k then k :: x :: l else x :: insert_knife k l end.
Definition sort_knives (l : list f32) : list f32 := foldr insert_knife [] l.
Fixpoint cut (last : f32) (knives : list f32) : list f32 :=
  match knives with [] => [last] | k :: knives => f32_sub last k :: cut k knives end.

Fixpoint generate_amount_fractions_without_correction (attempts count : nat) (total_amount : Amount) (lower_limit : Z)
    : wallet_op (list f32) :=
  match attempts with
  | O => lift (Err (WE_General "Unable to generate amount fractions, probably amount too small"))
  | S attempts =>
      knives ← draw_knives (count - 1);
      let fractions := cut (f32_of_Z 1) (sort_knives knives) in
      if forallb (fun f => f32_ltb (f32_of_Z lower_limit) (f32_mul f (f32_of_Z total_amount))) fractions
      then mret fractions
      else generate_amount_fractions_without_correction attempts count total_amount lower_limit
  end.

(** The first value is what the others leave of the total. *)
Definition correct_first (total_amount : Amount) (output_values : list Z) : outcome WalletError (list Z) :=
  first ← ok_or (checked_sub total_amount (sum_u64 (drop 1 output_values)))
            (WE_General "amount fractions exceed total funding amount");
  match output_values with [] => Panic | _ :: rest => Ok (first :: rest) end.
Definition generate_amount_fractions (count : nat) (total_amount : Amount) : wallet_op (list Z) :=
  fractions ← generate_amount_fractions_without_correction FRACTION_ATTEMPTS count total_amount LOWER_LIMIT;
  lift (correct_first total_amount (map (fun f => f32_to_u64 (f32_mul f (f32_of_Z total_amount))) fractions)).

(** ** Funding *)
Context {uc : UtxoChain D} {cs : CoinSelectLib D} (script_text : Script -> string).

(** One destination: select, lock, spend. *)
Definition fund_one (feerate : f64) (manual excluded : option (list OutPoint)) (address : Script) (output_value : Z)
    : locked_op Transaction :=
  coins ← coin_select script_text output_value feerate (infer_address_type address) manual excluded;
  _ ← lock_utxos (map coin_outpoint coins);
  in_locked (spend_coins coins (Multi [(address, output_value)] None P2TR) feerate).

Fixpoint fund_all (feerate : f64) (manual excluded : option (list OutPoint)) (l : list (Script * Z))
    (acc : CreateFundingTxesResult) : locked_op CreateFundingTxesResult :=
  match l with
  | [] => mret acc
  | (address, output_value) :: l =>
      tx ← fund_one feerate manual excluded address output_value;
      fee ← lift (calculate_fee_sats (to_vbytes_ceil (tx_weight tx)));
      fund_all feerate None excluded l
        {| cfr_funding_txes := cfr_funding_txes acc ++ [tx];
           cfr_payment_output_positions := cfr_payment_output_positions acc ++ [0];
           cfr_total_miner_fee := wrap 64 (cfr_total_miner_fee acc + fee) |}
  end.

(** The locks are released however the loop ends. *)
Definition create_funding_txes (openswap_amount : Amount) (destinations : list Script) (feerate : f64)
    (manual excluded : option (list OutPoint)) : locked_op CreateFundingTxesResult :=
  output_values ← in_locked (generate_amount_fractions (length destinations) openswap_amount);
  _ ← unlock_all_utxos;
  _ ← lock_unspendable_utxos;
  result ← attempt (E := WalletError) (fund_all feerate manual excluded (zip destinations output_values)
             {| cfr_funding_txes := []; cfr_payment_output_positions := []; cfr_total_miner_fee := 0 |});
  _ ← unlock_all_utxos;
  lift match result with inl r => Ok r | inr e => Err e end.
End spend.
