(* ===== verification/WalletSpendSafety.v ===== *)
(** What the wallet's own transactions pay, spend and sign. *)
From Stdlib Require Import String.
From S2P Require Import Prelude Float64 Float32 Bitcoin Messages Contract Errors SwapCoin TaprootLib Taproot WatchRegistry TakerState WalletStore MakerApi Fidelity ChainWait WalletRecovery WalletUtxo CoinSelect TakerSteps CoinSelectSafety WalletSpend.
#[local] Open Scope string_scope.
#[local] Open Scope list_scope.
#[local] Open Scope Z_scope.

(** ** Sums *)
Lemma sum_Z_app (l k : list Z) : sum_Z (l ++ k) = sum_Z l + sum_Z k.
Proof. unfold sum_Z. induction l as [|x l IH]; cbn; lia. Qed.

Lemma try_fold_sum {E A} (f : A -> Z) (l : list A) : forall s r,
  try_fold (fun s x => amount_add (E := E) s (f x)) s l = Ok r -> r = s + sum_Z (map f l).
Proof.
  induction l as [|x l IH]; intros s r; cbn [try_fold]; [intros [= <-]; cbn; lia|].
  intros (s' & Hs & H)%bind_Ok. apply IH in H as ->. apply expect_Ok, checked_add_Some in Hs as [_ ->]. cbn. fold (sum_Z (map f l)). lia.
Qed.

(** ** What a spend may change: the counter of internal addresses *)
Section spend.
Context {lib : BitcoinLib} {tap : TaprootLib} {hi : HashIter} {keys : BondKeys}.
Context {D : Type} {file : WalletFile D} {rc : RecoveryChain D} {so : SpendOutside D}.
Implicit Types w : Wallet D.

Definition only_index w w' : Prop :=
  exists n, wl_store w' = {| (wl_store w) with wst_internal_index := n |}.
#[global] Instance only_index_preorder : PreOrder only_index.
Proof.
  split.
  - intros w. exists (wst_internal_index (wl_store w)). by destruct (wl_store w).
  - intros w1 w2 w3 [n E1] [m E2]. exists m. by rewrite E2, E1.
Qed.
#[local] Hint Extern 1 (PreOrder only_index) => apply only_index_preorder : steps.
Lemma same_store_only_index w w' : wl_store w' = wl_store w -> only_index w w'.
Proof. intros E. exists (wst_internal_index (wl_store w)). rewrite E. by destruct (wl_store w). Qed.
Lemma outside_only_index {A} (op : stateful D WalletError A) : steps only_index (in_outside op).
Proof. intros w. apply same_store_only_index. unfold in_outside. by destruct (op _). Qed.
Lemma save_only_index : steps only_index (save_to_disk (D := D)).
Proof. intros w. apply same_store_only_index. unfold save_to_disk. by destruct (write_wallet_file _ _). Qed.
Lemma drawn_only_index {A} (f : D -> A * D) :
  steps only_index (fun w => let '(r, d) := f (wl_outside w) in (Ok (E := WalletError) r, {| w with wl_outside := d |})).
Proof. intros w. apply same_store_only_index. by destruct (f _). Qed.
#[local] Hint Resolve outside_only_index save_only_index drawn_only_index : steps.

Lemma next_internal_only_index n t : steps only_index (get_next_internal_addresses n t).
Proof.
  unfold get_next_internal_addresses, modify_store. take_steps.
  intros w. eexists. reflexivity.
Qed.
#[local] Hint Resolve next_internal_only_index : steps.
Lemma sign_transaction_only_index tx infos : steps only_index (sign_transaction (D := D) tx infos).
Proof.
  unfold sign_transaction, prevout_of. take_steps; unfold get_fidelity_reedemscript, get_bond; take_steps.
  generalize 0%nat. induction (zip (input tx) infos) as [|[i info] l IH]; intros ix; cbn [sign_inputs]; [take_steps|].
  unfold sign_input, incoming_witness, sign_fidelity_input, get_fidelity_reedemscript, get_bond. take_steps; apply IH.
Qed.
#[local] Hint Resolve sign_transaction_only_index : steps.
Lemma add_inputs_only_index coins : forall ins ws tot, steps only_index (add_inputs (D := D) coins ins ws tot).
Proof.
  induction coins as [|[u info] coins IH]; intros ins ws tot; cbn [add_inputs]; [take_steps|].
  unfold input_of, get_bond. take_steps; apply IH.
Qed.
#[local] Hint Resolve add_inputs_only_index : steps.
Lemma spend_coins_only_index coins dst feerate : steps only_index (spend_coins coins dst feerate).
Proof. unfold spend_coins, build_outputs. take_steps. Qed.

(** ** Inputs *)
Definition is_account_coin (info : UTXOSpendInfo) : bool :=
  match info with SeedCoin _ _ _ | SweptCoin _ _ _ => true | _ => false end.
Definition coins_total (coins : list Coin) : Amount := sum_Z (map (fun c => ut_amount c.1) coins).
Definition coins_witness (coins : list Coin) : Z := sum_Z (map (fun c => estimate_witness_size c.2) coins).

Lemma add_inputs_account coins : forall ins ws tot w ins' ws' tot' w',
  forallb (fun c => is_account_coin c.2) coins = true ->
  add_inputs (D := D) coins ins ws tot w = (Ok (ins', ws', tot'), w') ->
  ins' = ins ++ map (fun c => txin (coin_outpoint c) 0) coins /\ ws' = ws + coins_witness coins /\
  tot' = tot + coins_total coins.
Proof.
  unfold coins_witness, coins_total.
  induction coins as [|[u info] coins IH]; intros ins ws tot w ins' ws' tot' w' Hacc; cbn [add_inputs].
  { intros [= <- <- <- <-]. cbn. rewrite app_nil_r. split_and!; [done|lia|lia]. }
  cbn [forallb snd] in Hacc. apply andb_true_iff in Hacc as [Hinfo Hacc]. intros ([i v] & w1 & Hi & H)%st_bind_Ok.
  assert (i = txin (outpoint_of u) 0 /\ v = ut_amount u) as [-> ->] by (destruct info; try done; by injection Hi as <- <- <-).
  apply st_bind_Ok in H as (tot1 & w2 & Ht & H). apply lift_Ok in Ht as [Ht ->].
  apply expect_Ok, checked_add_Some in Ht as [_ ->].
  apply IH in H as (-> & -> & ->); [|done]. cbn. rewrite <- app_assoc. cbn.
  fold (sum_Z (map (fun c : Coin => estimate_witness_size c.2) coins)) (sum_Z (map (fun c : Coin => ut_amount c.1) coins)).
  split_and!; [done|lia|lia].
Qed.

(** ** Signing changes witnesses only *)
Lemma sign_inputs_strip tx prevouts l : forall ix w ins w',
  sign_inputs (D := D) tx prevouts ix l w = (Ok ins, w') ->
  map (fun i => {| i with witness := [] |}) ins = map (fun p => {| (p.1) with witness := [] |}) l.
Proof.
  induction l as [|[i info] l IH]; intros ix w ins w'; cbn [sign_inputs]; [by intros [= <- <-]|].
  intros (wit & w1 & _ & H)%st_bind_Ok. apply st_bind_Ok in H as (rest & w2 & Hr & [= <- <-]).
  cbn. f_equal. by eapply IH.
Qed.
Lemma sign_transaction_strip tx infos w tx' w' :
  sign_transaction (D := D) tx infos w = (Ok tx', w') -> strip_witness tx' = strip_witness tx.
Proof.
  intros (pre & w1 & _ & H)%st_bind_Ok. apply st_bind_Ok in H as ([] & w2 & Hlen & H).
  apply lift_Ok in Hlen as [Hlen ->]. apply reject_Ok in Hlen. to_prop.
  apply st_bind_Ok in H as (ins & w3 & Hs & [= <- <-]). apply sign_inputs_strip in Hs.
  unfold strip_witness. cbn. f_equal. rewrite Hs, <- (map_map fst (fun i => {| i with witness := [] |})).
  f_equal. apply fst_zip. lia.
Qed.

Lemma base_size_strip tx : base_size (strip_witness tx) = base_size tx.
Proof. unfold base_size, strip_witness, zlen. cbn. by rewrite map_map, length_map. Qed.
Lemma estimated_vsize_strip tx tx' outs ws :
  strip_witness tx' = strip_witness tx ->
  estimated_vsize {| tx' with output := outs |} ws = estimated_vsize {| tx with output := outs |} ws.
Proof.
  intros E. unfold estimated_vsize. f_equal. f_equal. f_equal. f_equal. f_equal.
  rewrite <- (base_size_strip {| tx' with output := outs |}), <- (base_size_strip {| tx with output := outs |}).
  unfold strip_witness in *. cbn. injection E as -> -> -> _. done.
Qed.
Lemma inputs_strip tx : map previous_output (input (strip_witness tx)) = map previous_output (input tx).
Proof. unfold strip_witness. cbn. by rewrite map_map. Qed.

(** ** Outputs *)
(** The outputs of a spend: a sweep pays everything but the fee to one address; a
    payment pays what was asked, in order, and returns the rest, less the fee of a
    transaction with change, unless the rest would be dust. *)
Definition well_paid (dst : Destination) (rate ws : Z) (total : Amount) (tx : Transaction) : Prop :=
  match dst with
  | Sweep addr => exists fee,
      output tx = [{| value := total - fee; script_pubkey := addr |}] /\
      fee_vb rate (estimated_vsize tx ws) = Some fee /\ fee <= total
  | Multi outs data _ => exists change_spk fee rest,
      fee_vb rate (estimated_vsize {| tx with output := multi_outputs outs data ++ [{| value := 0; script_pubkey := change_spk |}] |} ws)
        = Some fee /\
      total = sum_Z (map snd outs) + fee + rest /\ 0 <= rest /\
      output tx = multi_outputs outs data ++
        (if so_minimal_non_dust change_spk <? rest then [{| value := rest; script_pubkey := change_spk |}] else [])
  end.

Lemma build_outputs_spec tx rate ws total dst w outs w' :
  build_outputs tx rate ws total dst w = (Ok outs, w') -> well_paid dst rate ws total {| tx with output := outs |}.
Proof.
  destruct dst as [addr|asked data ch]; cbn [build_outputs well_paid].
  - intros [H _]%lift_Ok. unfold sweep_outputs, fee_for in H. inv_ok H. to_prop. exists v. split_and!; [done| |done].
    etrans; [|exact Hs]. f_equal.
  - intros (sum & w1 & Hsum & H)%st_bind_Ok. apply lift_Ok in Hsum as [Hsum ->].
    apply try_fold_sum in Hsum. apply st_bind_Ok in H as (addrs & w2 & _ & H).
    apply st_bind_Ok in H as (spk & w3 & _ & H). apply st_bind_Ok in H as (change & w4 & Hch & [= <- _]).
    apply lift_Ok in Hch as [Hch _]. unfold change_outputs, fee_for in Hch. apply bind_Ok in Hch as (fee & Hfee & Hch).
    apply ok_or_Ok in Hfee.
    destruct (checked_sub total sum) as [diff|] eqn:E1; cbn in Hch; [|by inv_ok Hch].
    destruct (checked_sub diff fee) as [rest|] eqn:E2; [|by inv_ok Hch]. injection Hch as <-.
    apply checked_sub_Some in E1 as [? ->], E2 as [? ->]. exists spk, fee, (total - sum - fee).
    split_and!; [done| |lia|done]. change (map (fun p : Script * Amount => p.2) asked) with (map snd asked) in Hsum. lia.
Qed.

(** The parts of a successful spend: what was signed, and with which outputs. *)
Lemma spend_coins_parts coins dst feerate w tx w' :
  forallb (fun c => is_account_coin c.2) coins = true ->
  spend_coins coins dst feerate w = (Ok tx, w') ->
  exists rate unsigned w1, fee_rate_from_sat_per_vb (f64_to_u64 feerate) = Some rate /\
    f64_ltb feerate (f64_of_Z 1) = false /\
    input unsigned = map (fun c => txin (coin_outpoint c) 0) coins /\
    well_paid dst rate (coins_witness coins) (coins_total coins) unsigned /\
    sign_transaction unsigned (map snd coins) w1 = (Ok tx, w') /\
    sum_Z (map value (output tx)) <= coins_total coins.
Proof.
  intros Hacc (h & w1 & _ & H)%st_bind_Ok. apply st_bind_Ok in H as (lt & w2 & _ & H).
  apply st_bind_Ok in H as ([[ins ws] tot] & w3 & Hadd & H).
  apply add_inputs_account in Hadd as (-> & -> & ->); [|done]. cbn [app] in H. rewrite !Z.add_0_l in H.
  apply st_bind_Ok in H as ([] & w4 & Hmin & H). apply lift_Ok in Hmin as [Hmin ->]. apply reject_Ok in Hmin.
  apply st_bind_Ok in H as (rate & w5 & Hrate & H). apply lift_Ok in Hrate as [Hrate ->]. apply ok_or_Ok in Hrate.
  apply st_bind_Ok in H as (outs & w6 & Hout & H). apply build_outputs_spec in Hout.
  apply st_bind_Ok in H as (stx & w7 & Hsign & H).
  apply st_bind_Ok in H as (sum & w8 & Hsum & H). apply lift_Ok in Hsum as [Hsum ->]. apply try_fold_sum in Hsum as ->.
  apply st_bind_Ok in H as (x & w9 & Hx & [= <- <-]). apply lift_Ok in Hx as [Hx ->].
  apply expect_Ok, checked_sub_Some in Hx as [Hx _].
  eexists rate, _, _. split_and!; [exact Hrate|exact Hmin| |exact Hout|exact Hsign|exact Hx]. done.
Qed.

Lemma well_paid_strip dst rate ws total tx tx' :
  strip_witness tx' = strip_witness tx -> well_paid dst rate ws total tx -> well_paid dst rate ws total tx'.
Proof.
  intros E. assert (output tx' = output tx) as Ho by (by injection E).
  assert (forall outs, estimated_vsize {| tx' with output := outs |} ws = estimated_vsize {| tx with output := outs |} ws) as Hv
    by (intros; by apply estimated_vsize_strip).
  destruct dst as [addr|outs data ch]; cbn [well_paid].
  - intros (fee & Hout & Hfee & Hle). exists fee. rewrite Ho. split_and!; [done| |done].
    specialize (Hv (output tx)). rewrite <- Ho in Hv at 1. by destruct tx, tx'; cbn in *; rewrite Hv.
  - intros (spk & fee & rest & Hfee & Htot & Hr & Hout). exists spk, fee, rest. by rewrite Ho, Hv.
Qed.

(** The miner's share of a spend. *)
Lemma multi_outputs_total outs data : sum_Z (map value (multi_outputs outs data)) = sum_Z (map snd outs).
Proof.
  unfold multi_outputs. rewrite map_app, map_map, sum_Z_app. cbn. destruct data; cbn; rewrite ?Z.add_0_r; reflexivity.
Qed.

(** C13: Spending: a transaction built from coins of the wallet spends exactly the
    coins it was given, in order, and creates no money: a sweep pays the whole
    value less the fee of its own size at the requested rate; a payment has the
    requested outputs first, and what they and the fee leave goes to a change
    address, or to the miner when it is dust.  On every outcome the wallet's
    records stay as they were, but for the counter of internal addresses. *)
Theorem spend_conserves_value coins dst feerate w :
  forallb (fun c => is_account_coin c.2) coins = true ->
  only_index w (spend_coins coins dst feerate w).2 /\
  forall tx, (spend_coins coins dst feerate w).1 = Ok tx ->
    map previous_output (input tx) = map coin_outpoint coins /\
    exists rate paid, fee_rate_from_sat_per_vb (f64_to_u64 feerate) = Some rate /\
      sum_Z (map value (output tx)) + paid = coins_total coins /\ 0 <= paid /\
      well_paid dst rate (coins_witness coins) (coins_total coins) tx.
Proof.
  intros Hacc. split; [apply spend_coins_only_index|]. intros tx Htx.
  destruct (spend_coins_parts coins dst feerate w tx (spend_coins coins dst feerate w).2 Hacc)
    as (rate & unsigned & w1 & Hrate & _ & Hin & Hpaid & Hsign & Hle); [by rewrite <- Htx, <- surjective_pairing|].
  apply sign_transaction_strip in Hsign. split.
  - rewrite <- inputs_strip, Hsign, inputs_strip, Hin, map_map. done.
  - exists rate, (coins_total coins - sum_Z (map value (output tx))). split_and!; [done|lia|lia|].
    by eapply well_paid_strip.
Qed.
End spend.

(** ** Signatures *)
(** BIP32: private and public derivation agree; BIP341: a key spend of an address
    without a script tree is signed with the tweaked key. *)
Class SpendLaws {lib : BitcoinLib} {tap : TaprootLib} {D} (so : SpendOutside D) : Prop := {
  child_keys_agree t path k : so_child_secret t path = Ok k -> so_child_point t path = Ok (point_from_secret_key k);
  tap_tweak_output k :
    new_p2tr (x_only_public_key (point_from_secret_key k)) None
    = new_p2tr_tweaked (x_only_public_key (point_from_secret_key (so_tap_tweak k)));
}.

Section signatures.
Context {lib : BitcoinLib} {laws : BitcoinLaws lib} {tap : TaprootLib} {tlaws : TaprootLaws lib tap}.
Context {hi : HashIter} {keys : BondKeys}.
Context {D : Type} {file : WalletFile D} {rc : RecoveryChain D} {so : SpendOutside D} {sl : SpendLaws so}.
Implicit Types w : Wallet D.

(** The output a coin is, as the chain has it. *)
Definition coin_output (c : Coin) : TxOut := {| value := ut_amount c.1; script_pubkey := ut_script_pub_key c.1 |}.

(** The consensus rules for the two kinds of account input: BIP143 with a key hash,
    BIP341 with an output key. *)
Definition input_authorised (tx : Transaction) (prevouts : list TxOut) (ix : nat) : Prop :=
  exists i o, input tx !! ix = Some i /\ prevouts !! ix = Some o /\
    ((exists p sig d, script_pubkey o = p2wpkh_script p /\ witness i = [sig ++ [SIGHASH_ALL]; p] /\
        p2wsh_signature_hash tx ix (p2wpkh_script_code p) (value o) SIGHASH_ALL = Some d /\ ecdsa_verify d sig p = true) \/
     (exists k sig d, script_pubkey o = new_p2tr_tweaked k /\ witness i = [sig] /\ length sig = 64%nat /\
        taproot_key_spend_signature_hash tx ix prevouts TAP_SIGHASH_DEFAULT = Some d /\ verify_schnorr d sig k = true)).

(** A coin the wallet recorded as what it is: its value, and the script of its path. *)
Definition genuine (c : Coin) : Prop :=
  match c.2 with
  | SeedCoin path v t | SweptCoin path v t =>
      v = ut_amount c.1 /\ exists p, so_child_point t path = Ok p /\ ut_script_pub_key c.1 = account_script t p
  | _ => False
  end.
Definition is_p2tr_coin (c : Coin) : Prop :=
  match c.2 with SeedCoin _ _ P2TR | SweptCoin _ _ P2TR => True | _ => False end.

Lemma genuine_account coins : Forall genuine coins -> forallb (fun c => is_account_coin c.2) coins = true.
Proof. induction 1 as [|[u []] coins Hc _ IH]; cbn in *; done. Qed.

Lemma genuine_prevouts coins : Forall genuine coins -> forall w pre w',
  st_map (prevout_of (D := D)) (map snd coins) w = (Ok pre, w') -> pre = map coin_output coins.
Proof.
  induction 1 as [|c coins Hc _ IH]; intros w pre w'; cbn [map st_map]; [by intros [= <- <-]|].
  intros (o & w1 & Ho & H)%st_bind_Ok. apply st_bind_Ok in H as (os & w2 & Hos & [= <- <-]).
  apply IH in Hos as ->. f_equal. unfold coin_output, genuine in *.
  destruct (c.2); try done; destruct Hc as (-> & p & Hp & Hspk); cbn [prevout_of] in Ho;
    apply st_bind_Ok in Ho as (p' & w3 & Hp' & [= <- <-]); apply lift_Ok in Hp' as [Hp' ->]; rewrite Hp in Hp'; injection Hp' as <-; by rewrite Hspk.
Qed.

Lemma sign_inputs_lookup tx prevouts l : forall ix w ins w' j i info,
  sign_inputs (D := D) tx prevouts ix l w = (Ok ins, w') -> l !! j = Some (i, info) ->
  exists w1 wit w2, sign_input tx prevouts (ix + j) (witness i) info w1 = (Ok wit, w2) /\
    ins !! j = Some {| i with witness := wit |}.
Proof.
  induction l as [|[i0 info0] l IH]; intros ix w ins w' j i info; [by rewrite lookup_nil|]. cbn [sign_inputs].
  intros (wit & w1 & Hw & H)%st_bind_Ok. apply st_bind_Ok in H as (rest & w2 & Hr & [= <- <-]).
  destruct j as [|j]; cbn.
  - intros [= -> ->]. exists w, wit, w1. by rewrite Nat.add_0_r.
  - intros Hj. rewrite Nat.add_succ_r. exact (IH (S ix) _ _ _ _ _ _ Hr Hj).
Qed.

(** What signing an account input yields. *)
Lemma sign_account_input_valid tx prevouts ix path v t items p :
  sign_account_input tx prevouts ix path v t = Ok items -> so_child_point t path = Ok p ->
  match t with
  | P2WPKH => exists sig d, items = [sig ++ [SIGHASH_ALL]; p] /\
      p2wsh_signature_hash tx ix (p2wpkh_script_code p) v SIGHASH_ALL = Some d /\ ecdsa_verify d sig p = true
  | P2TR => exists k sig d, account_script P2TR p = new_p2tr_tweaked k /\ items = [sig] /\ length sig = 64%nat /\
      taproot_key_spend_signature_hash tx ix prevouts TAP_SIGHASH_DEFAULT = Some d /\ verify_schnorr d sig k = true
  end.
Proof.
  unfold sign_account_input. intros H Hp. apply bind_Ok in H as (k & Hk & H).
  apply child_keys_agree in Hk. rewrite Hk in Hp. injection Hp as <-. destruct t; inv_ok H.
  - eexists _, _. split_and!; [done|done|apply ecdsa_sign_verify].
  - eexists _, _, _. split_and!; [apply tap_tweak_output|done|apply sign_schnorr_length|done|apply sign_schnorr_verify].
Qed.

(** Every input after signing, with the signature it was given. *)
Lemma signed_input coins unsigned w tx w' ix c :
  Forall genuine coins -> input unsigned = map (fun c => txin (coin_outpoint c) 0) coins ->
  sign_transaction unsigned (map snd coins) w = (Ok tx, w') -> coins !! ix = Some c ->
  exists i path v t, (c.2 = SeedCoin path v t \/ c.2 = SweptCoin path v t) /\ input tx !! ix = Some i /\
    sign_account_input unsigned (map coin_output coins) ix path v t = Ok (witness i).
Proof.
  intros Hg Hin (pre & w1 & Hpre & H)%st_bind_Ok Hix. apply genuine_prevouts in Hpre as ->; [|done].
  apply st_bind_Ok in H as ([] & w2 & _ & H). apply st_bind_Ok in H as (ins & w3 & Hs & [= <- <-]). cbn [input].
  eapply (sign_inputs_lookup _ _ _ _ _ _ _ ix (txin (coin_outpoint c) 0) c.2) in Hs as (wa & wit & wb & Hsig & Hi).
  2:{ apply lookup_zip_with_Some. eexists _, _. split; [done|]. by rewrite Hin, !list_lookup_fmap, Hix. }
  pose proof (proj1 (Forall_lookup _ _) Hg _ _ Hix) as Hgc. unfold genuine in Hgc.
  destruct (c.2) as [path v t| | | | | |path v t]; try done; exists {| (txin (coin_outpoint c) 0) with witness := wit |}, path, v, t;
    (split; [by auto|]); (split; [exact Hi|]); cbn [sign_input] in Hsig;
    apply st_bind_Ok in Hsig as (items & wc & Hitems & [= <- <-]); by apply lift_Ok in Hitems as [Hitems _].
Qed.

Lemma signed_input_authorised coins unsigned w tx w' ix c :
  Forall genuine coins -> input unsigned = map (fun c => txin (coin_outpoint c) 0) coins ->
  sign_transaction unsigned (map snd coins) w = (Ok tx, w') -> coins !! ix = Some c ->
  input_authorised tx (map coin_output coins) ix /\
  forall i, is_p2tr_coin c -> input tx !! ix = Some i -> witness_size (witness i) = estimate_witness_size c.2.
Proof.
  intros Hg Hin Hsign Hix. destruct (signed_input _ _ _ _ _ _ _ Hg Hin Hsign Hix) as (i & path & v & t & Hc & Hi & Hs).
  apply sign_transaction_strip in Hsign as Hstrip.
  pose proof (proj1 (Forall_lookup _ _) Hg _ _ Hix) as Hgc. unfold genuine in Hgc.
  assert (v = ut_amount c.1 /\ exists p, so_child_point t path = Ok p /\ ut_script_pub_key c.1 = account_script t p)
    as (-> & p & Hp & Hspk) by (by destruct Hc as [Hc|Hc]; rewrite Hc in Hgc).
  apply (sign_account_input_valid _ _ _ _ _ _ _ _ Hs) in Hp. split.
  - exists i, (coin_output c). split; [done|]. split; [by rewrite list_lookup_fmap, Hix|]. destruct t.
    + destruct Hp as (sig & d & -> & Hd & Hv). left. exists p, sig, d. split_and!; [done|done| |done].
      by rewrite sighash_ignores_witness, Hstrip, <- sighash_ignores_witness.
    + destruct Hp as (k & sig & d & Hk & -> & Hl & Hd & Hv). right. exists k, sig, d. split_and!; [cbn; congruence|done|done| |done].
      by rewrite key_sighash_ignores_witness, Hstrip, <- key_sighash_ignores_witness.
  - intros i' Ht Hi'. rewrite Hi in Hi'. injection Hi' as <-. unfold is_p2tr_coin in Ht.
    assert (t = P2TR /\ estimate_witness_size c.2 = 66) as [-> ->] by (destruct Hc as [Hc|Hc]; rewrite Hc in *; by destruct t).
    destruct Hp as (k & sig & d & _ & -> & Hl & _). unfold witness_size, sized, zlen. cbn. rewrite Hl. done.
Qed.

(** C12: Signing, of coins of the wallet's own accounts: in a transaction the
    wallet builds from seed and swept coins that are what its records say, every
    input carries a signature that the chain accepts for the output it spends,
    over the transaction as it is sent.  When all of them are taproot coins, the
    size the wallet estimates for the transaction it sends is its real virtual
    size.  Incoming swap coins are not covered: for them the signer copies the
    witness of another transaction, and contract coins are not either. *)
Theorem spend_is_fully_signed coins dst feerate w tx w' :
  Forall genuine coins -> spend_coins coins dst feerate w = (Ok tx, w') ->
  length (input tx) = length coins /\
  (forall ix, (ix < length coins)%nat -> input_authorised tx (map coin_output coins) ix) /\
  (Forall is_p2tr_coin coins -> coins <> [] ->
   to_vbytes_ceil (tx_weight tx) = estimated_vsize tx (coins_witness coins)).
Proof.
  intros Hg Hrun. apply spend_coins_parts in Hrun as (rate & unsigned & w1 & _ & _ & Hin & _ & Hsign & _); [|by apply genuine_account].
  pose proof (signed_input_authorised coins unsigned w1 tx w') as Hall.
  assert (length (input tx) = length coins) as Hlen.
  { apply sign_transaction_strip in Hsign. rewrite <- (length_map previous_output), <- inputs_strip, Hsign, inputs_strip, Hin.
    by rewrite !length_map. }
  split; [done|]. split.
  - intros ix [c Hc]%lookup_lt_is_Some. by eapply Hall.
  - intros Ht Hne. assert (map (fun i => witness_size (witness i)) (input tx) = map (fun c => estimate_witness_size c.2) coins) as Hw.
    { apply list_eq_same_length with (n := length coins); [by rewrite length_map|by rewrite length_map|].
      intros ix x y _ Hx Hy. apply list_lookup_fmap_Some_1 in Hx as (i & -> & Hi), Hy as (c & -> & Hc).
      eapply Hall; try done. by eapply Forall_lookup in Ht. }
    unfold to_vbytes_ceil, estimated_vsize, tx_weight, coins_witness.
    assert (uses_segwit tx = true) as ->; [|f_equal; rewrite Hw; lia].
    destruct coins as [|c coins]; [done|]. destruct (Hall 0%nat c Hg Hin Hsign eq_refl) as [(i & o & Hi & _ & Hwit) _].
    unfold uses_segwit. apply orb_true_iff. right. destruct (input tx) as [|i' ins]; [done|]. injection Hi as ->.
    cbn. destruct Hwit as [(? & ? & ? & _ & -> & _)|(? & ? & ? & _ & -> & _)]; done.
Qed.
End signatures.

(** ** Splitting an amount *)
Lemma sum_u64_wrap l : forall a, fold_left (fun a b => wrap 64 (a + b)) l (wrap 64 a) = wrap 64 (a + sum_Z l).
Proof.
  induction l as [|x l IH]; intros a; cbn [fold_left]; [cbn; by rewrite Z.add_0_r|].
  assert (wrap 64 (wrap 64 a + x) = wrap 64 (a + x)) as -> by (unfold wrap; by rewrite Zplus_mod_idemp_l).
  rewrite IH. cbn. fold (sum_Z l). f_equal. lia.
Qed.
Lemma sum_Z_nonneg l : Forall (fun x => 0 <= x) l -> 0 <= sum_Z l.
Proof. induction 1; cbn; [lia|]. fold (sum_Z l). lia. Qed.

(** The corrected values are amounts that add up to the total, modulo the width. *)
Lemma correct_first_spec total vals out :
  Forall (fun x => 0 <= x) vals -> correct_first total vals = Ok out ->
  length out = length vals /\ Forall (fun x => 0 <= x) out /\ wrap 64 (sum_Z out) = wrap 64 total.
Proof.
  intros Hv H. unfold correct_first in H. inv_ok H. destruct vals as [|x rest]; [done|]. injection H as <-.
  change (drop 1 (x :: rest)) with rest in Hs. apply checked_sub_Some in Hs as [Hle ->]. inversion Hv as [|? ? _ Hr]; subst.
  split; [done|]. split; [constructor; [lia|done]|].
  change (sum_Z (total - sum_u64 rest :: rest)) with (total - sum_u64 rest + sum_Z rest).
  assert (sum_u64 rest = wrap 64 (sum_Z rest)) as -> by (apply (sum_u64_wrap rest 0)).
  unfold wrap. rewrite <- Zplus_mod_idemp_l, Zminus_mod_idemp_r, Zplus_mod_idemp_l. f_equal. lia.
Qed.

(** ** Funding *)
Section funding.
Context {lib : BitcoinLib} {tap : TaprootLib} {hi : HashIter} {hl : HashIterLaws hi} {keys : BondKeys}.
Context {D : Type} {file : WalletFile D} {rc : RecoveryChain D} {so : SpendOutside D} {uc : UtxoChain D}.
Context {cs : CoinSelectLib D} {cl : CoinSelectLaws cs} (script_text : Script -> string).
Implicit Types (w : Wallet D) (lw : LockedWallet D).

Lemma fractions_length attempts count total limit : forall w fr w',
  generate_amount_fractions_without_correction (D := D) attempts count total limit w = (Ok fr, w') ->
  length fr = S (count - 1).
Proof.
  induction attempts as [|n IH]; intros w fr w'; cbn [generate_amount_fractions_without_correction]; [done|].
  intros (ks & w1 & Hk & H)%st_bind_Ok. destruct (forallb _ _); [|by eapply IH]. injection H as <- <-.
  assert (length ks = count - 1)%nat as <-.
  { clear -Hk. revert w ks w1 Hk. induction (count - 1)%nat as [|n IH]; intros w ks w1; cbn [draw_knives]; [by intros [= <- <-]|].
    intros (k & w2 & _ & H)%st_bind_Ok. apply st_bind_Ok in H as (ks' & w3 & Hk & [= <- <-]). cbn. f_equal. by eapply IH. }
  assert (forall l k, length (cut k l) = S (length l)) as -> by (induction l; intros; cbn; auto). f_equal.
  unfold sort_knives. clear. induction ks as [|k ks IH]; [done|]. cbn. rewrite <- IH.
  generalize (foldr insert_knife [] ks) as l. induction l as [|x l IHl]; [done|]. cbn. case_match; [done|]. cbn. by rewrite IHl.
Qed.
Lemma generated_values count total w vals w' :
  generate_amount_fractions (D := D) count total w = (Ok vals, w') ->
  length vals = S (count - 1) /\ Forall (fun x => 0 <= x) vals /\ wrap 64 (sum_Z vals) = wrap 64 total.
Proof.
  intros (fr & w1 & Hf & H)%st_bind_Ok. apply lift_Ok in H as [H _]. apply fractions_length in Hf.
  apply correct_first_spec in H as (Hlen & Hpos & Hsum); [|apply Forall_map, Forall_true; intros f; apply f64_to_u64_range].
  split_and!; [|done|done]. by rewrite Hlen, length_map.
Qed.

(** Records stay, but for the counter of internal addresses. *)
Definition records_kept lw lw' : Prop := only_index (lw_wallet lw) (lw_wallet lw').
#[local] Instance records_kept_preorder : PreOrder records_kept.
Proof. split; [intros lw; apply only_index_preorder|]. intros ? ? ? H1 H2. unfold records_kept in *. by etrans. Qed.
#[local] Hint Extern 1 (PreOrder records_kept) => apply records_kept_preorder : steps.
Lemma in_locked_kept {A} (op : stateful (Wallet D) WalletError A) : steps only_index op -> steps records_kept (in_locked op).
Proof. intros H lw. unfold in_locked, records_kept. specialize (H (lw_wallet lw)). by destruct (op _). Qed.
Lemma locks_kept f : steps records_kept (modify (E := WalletError) (fun lw : LockedWallet D => {| lw with lw_locked := f lw |})).
Proof. intros lw. apply same_store_only_index. done. Qed.
Lemma select_kept amount feerate t manual excluded :
  steps records_kept (coin_select script_text amount feerate t manual excluded).
Proof. intros lw. apply same_store_only_index. apply (coin_select_steps script_text amount feerate t manual excluded lw). Qed.
#[local] Hint Resolve in_locked_kept locks_kept select_kept outside_only_index spend_coins_only_index : steps.
Lemma lock_unspendable_kept : steps records_kept (lock_unspendable_utxos (D := D)).
Proof. unfold lock_unspendable_utxos, unlock_all_utxos, lock_utxos. take_steps. Qed.
Lemma fund_all_kept feerate excluded l : forall manual acc,
  steps records_kept (fund_all script_text feerate manual excluded l acc).
Proof.
  induction l as [|[a v] l IH]; intros manual acc; cbn [fund_all]; [take_steps|].
  unfold fund_one, lock_utxos. take_steps.
Qed.

Abbreviation cache_of lw := (wst_utxo_cache (wl_store (lw_wallet lw))).
Lemma kept_cache lw lw' : records_kept lw lw' -> cache_of lw' = cache_of lw.
Proof. intros [n ->]. done. Qed.

Lemma in_locked_Ok {A} (op : stateful (Wallet D) WalletError A) lw a lw' :
  in_locked op lw = (Ok a, lw') -> lw_locked lw' = lw_locked lw /\ op (lw_wallet lw) = (Ok a, lw_wallet lw').
Proof. unfold in_locked. destruct (op (lw_wallet lw)) as [r w] eqn:E. by intros [= -> <-]. Qed.

(** What one funding transaction pays and spends. *)
Definition funds (p : Script * Amount) (tx : Transaction) : Prop :=
  output tx !! 0%nat = Some {| value := p.2; script_pubkey := p.1 |}.
Definition spends (coins : list Coin) (tx : Transaction) : Prop :=
  map previous_output (input tx) = map coin_outpoint coins.

Lemma fund_one_spec feerate manual excluded addr v lw tx lw' :
  cache_keyed (cache_of lw) -> fund_one script_text feerate manual excluded addr v lw = (Ok tx, lw') ->
  exists coins, funds (addr, v) tx /\ spends coins tx /\ NoDup (map coin_outpoint coins) /\
    (forall c, c ∈ coins -> free_coin lw (default [] excluded) c) /\
    (forall op, op ∈ default [] manual -> op ∈ map coin_outpoint coins) /\
    v <= coins_total coins /\ cache_of lw' = cache_of lw /\
    lw_locked lw' = lw_locked lw ∪ list_to_set (map coin_outpoint coins).
Proof.
  intros Hk H. assert (steps records_kept (fund_one script_text feerate manual excluded addr v)) as Hst
    by (unfold fund_one, lock_utxos; take_steps).
  apply (steps_run _ _ _ _ _ Hst) in H as Hkept. apply kept_cache in Hkept.
  unfold fund_one in H. apply st_bind_Ok in H as (coins & lw1 & Hsel & H).
  apply coin_select_spec in Hsel as ([Hl Hs] & Hd & Hfree & Hkind & Hman); [|done].
  apply st_bind_Ok in H as ([] & lw2 & [= <-] & H). apply in_locked_Ok in H as [Hlock H]. cbn in Hlock, H.
  apply spend_coins_parts in H as (rate & unsigned & w1 & _ & _ & Hin & Hpaid & Hsign & Hle).
  2:{ apply forallb_forall. intros c Hc%list_elem_of_In. destruct Hkind as [Hkind|Hkind]; destruct (Hkind c Hc) as (? & ? & ? & ->); done. }
  apply sign_transaction_strip in Hsign. apply (well_paid_strip _ _ _ _ _ _ Hsign) in Hpaid.
  destruct Hpaid as (spk & fee & rest & _ & _ & Hrest & Hout).
  exists coins. split_and!; try done.
  - unfold funds. by rewrite Hout.
  - unfold spends. rewrite <- inputs_strip, Hsign, inputs_strip, Hin, map_map. done.
  - rewrite Hout in Hle. destruct (so_minimal_non_dust spk <? rest); cbn in Hle; lia.
  - by rewrite Hlock, Hl.
Qed.

Lemma free_coin_later lw lw' excluded coins c :
  cache_of lw' = cache_of lw -> lw_locked lw' = lw_locked lw ∪ list_to_set (map coin_outpoint coins) ->
  free_coin lw' excluded c -> free_coin lw excluded c /\ coin_outpoint c ∉ map coin_outpoint coins.
Proof.
  intros Hc Hl (H1 & H2 & H3). unfold free_coin. rewrite <- Hc. rewrite Hl in H2.
  apply not_elem_of_union in H2 as [H2 H4]. rewrite elem_of_list_to_set in H4. done.
Qed.

Lemma fund_all_spec feerate excluded l : forall manual acc lw res lw',
  cache_keyed (cache_of lw) -> fund_all script_text feerate manual excluded l acc lw = (Ok res, lw') ->
  exists txs coinss, cfr_funding_txes res = cfr_funding_txes acc ++ txs /\
    cfr_payment_output_positions res = cfr_payment_output_positions acc ++ replicate (length l) 0 /\
    Forall2 funds l txs /\ Forall2 spends coinss txs /\ NoDup (map coin_outpoint (concat coinss)) /\
    (forall c, c ∈ concat coinss -> free_coin lw (default [] excluded) c) /\
    sum_Z (map snd l) <= coins_total (concat coinss) /\
    (l <> [] -> forall op, op ∈ default [] manual -> op ∈ map coin_outpoint (concat coinss)).
Proof.
  induction l as [|[a v] l IH]; intros manual acc lw res lw' Hk; cbn [fund_all].
  { intros [= <- <-]. exists [], []. cbn. rewrite !app_nil_r. split_and!; try done; [constructor..|intros c Hc; by apply not_elem_of_nil in Hc]. }
  intros (tx & lw1 & Hone & H)%st_bind_Ok. apply fund_one_spec in Hone as (coins & Hf & Hsp & Hd & Hfree & Hman & Hv & Hc & Hl); [|done].
  apply st_bind_Ok in H as (fee & lw2 & Hfee & H). apply lift_Ok in Hfee as [_ ->].
  apply IH in H as (txs & coinss & Htx & Hpos & H1 & H2 & H3 & H4 & H5 & _); [|by rewrite Hc].
  assert (forall c, c ∈ concat coinss -> free_coin lw (default [] excluded) c /\ coin_outpoint c ∉ map coin_outpoint coins) as Hlater
    by (intros c Hin; eapply free_coin_later; [done|done|by apply H4]).
  exists (tx :: txs), (coins :: coinss). cbn in Htx, Hpos. rewrite <- app_assoc in Htx, Hpos.
  split_and!; [done|done|by constructor|by constructor| | | |].
  - cbn. rewrite map_app. apply NoDup_app. split; [done|]. split; [|done].
    intros op Hop ([? ?] & -> & Hin)%list_elem_of_fmap. by apply Hlater in Hin as [_ Hin].
  - cbn. intros c [Hin|Hin]%elem_of_app; [by apply Hfree|by apply Hlater].
  - cbn. unfold coins_total in *. rewrite map_app, sum_Z_app. fold (sum_Z (map snd l)). cbn in *. lia.
  - intros _ op Hop. cbn. rewrite map_app. apply elem_of_app. left. by apply Hman.
Qed.

#[local] Instance sum_Z_perm : Proper ((≡ₚ) ==> (=)) sum_Z.
Proof. intros l k H. unfold sum_Z. induction H; cbn; lia. Qed.

Lemma distinct_coins_within (cache : gmap OutPoint Coin) coins :
  (forall op c, cache !! op = Some c -> 0 <= ut_amount c.1) -> NoDup (map coin_outpoint coins) ->
  (forall c, c ∈ coins -> cache !! coin_outpoint c = Some c) ->
  coins_total coins <= coins_total (hash_values cache).
Proof.
  intros Hpos Hd Hin. assert (coins ⊆+ hash_values cache) as (rest & Hp)%submseteq_Permutation.
  { apply NoDup_submseteq; [by eapply NoDup_fmap_1|]. intros c Hc. apply elem_of_hash_values. eauto. }
  unfold coins_total. rewrite (Permutation_map _ Hp), map_app, sum_Z_app.
  enough (0 <= sum_Z (map (fun c => ut_amount c.1) rest)) by lia. apply sum_Z_nonneg, Forall_map, Forall_forall.
  intros c Hc. assert (c ∈ hash_values cache) as [op Hop]%elem_of_hash_values; [|by eapply Hpos].
  rewrite Hp. apply elem_of_app. by right.
Qed.

#[local] Hint Extern 1 (PreOrder only_index) => apply only_index_preorder : steps.
Lemma generate_kept count total : steps only_index (generate_amount_fractions (D := D) count total).
Proof.
  unfold generate_amount_fractions. apply steps_bind; [exact _| |intros ?; take_steps].
  induction FRACTION_ATTEMPTS as [|n IH]; cbn [generate_amount_fractions_without_correction]; [take_steps|].
  apply steps_bind; [exact _| |intros ?; take_steps].
  induction (count - 1)%nat as [|m IHm]; cbn [draw_knives]; [take_steps|].
  apply steps_bind; [exact _| |intros ?; take_steps]. intros w. unfold random_fraction.
  apply same_store_only_index. by destruct (so_next_u32 _).
Qed.

Lemma create_funding_kept amount destinations feerate manual excluded :
  steps records_kept (create_funding_txes script_text amount destinations feerate manual excluded).
Proof.
  unfold create_funding_txes, unlock_all_utxos. pose proof generate_kept. pose proof lock_unspendable_kept. pose proof fund_all_kept.
  take_steps.
Qed.

(** The outpoints a list of transactions spends. *)
Definition outpoints_spent (txs : list Transaction) : list OutPoint :=
  concat (map (fun tx => map previous_output (input tx)) txs).
Lemma spends_outpoints coinss txs : Forall2 spends coinss txs -> outpoints_spent txs = map coin_outpoint (concat coinss).
Proof. unfold outpoints_spent. induction 1 as [|c tx css txs H _ IH]; [done|]. cbn. rewrite map_app, IH. by f_equal. Qed.

(** C11: Funding a swap: when the wallet funds an amount over several destinations,
    there is one transaction per destination, its first output pays that
    destination, and the payments add up to the amount exactly, whatever the random
    split; no coin is spent twice, none that was excluded is spent, every manually
    chosen coin is; all locks are released, and the records stay as they were but
    for the counter of internal addresses. *)
Theorem funding_pays_the_amount amount destinations feerate manual excluded lw res lw' :
  is_u64 amount -> destinations <> [] -> cache_keyed (cache_of lw) ->
  (forall op c, cache_of lw !! op = Some c -> 0 <= ut_amount c.1) ->
  coins_total (hash_values (cache_of lw)) < 2 ^ 64 ->
  create_funding_txes script_text amount destinations feerate manual excluded lw = (Ok res, lw') ->
  (exists vals, length vals = length destinations /\ Forall2 funds (zip destinations vals) (cfr_funding_txes res) /\
     sum_Z vals = amount /\ Forall (fun v => 0 <= v) vals) /\
  cfr_payment_output_positions res = replicate (length destinations) 0 /\
  NoDup (outpoints_spent (cfr_funding_txes res)) /\
  (forall op, op ∈ outpoints_spent (cfr_funding_txes res) -> is_Some (cache_of lw !! op) /\ op ∉ default [] excluded) /\
  (forall op, op ∈ default [] manual -> op ∈ outpoints_spent (cfr_funding_txes res)) /\
  lw_locked lw' = ∅ /\ records_kept lw lw'.
Proof.
  intros Ha Hdst Hk Hpos Hcap H. apply (steps_run _ _ _ _ _ (create_funding_kept _ _ _ _ _)) in H as Hkept.
  apply st_bind_Ok in H as (vals & lw1 & Hv & H).
  apply (steps_run _ _ _ _ _ (in_locked_kept _ (generate_kept _ _))) in Hv as E1. apply in_locked_Ok in Hv as [_ Hv].
  apply generated_values in Hv as (Hlen & Hvpos & Hsum).
  apply st_bind_Ok in H as ([] & lw2 & [= <-] & H). apply st_bind_Ok in H as ([] & lw3 & Hl & H).
  apply (steps_run _ _ _ _ _ lock_unspendable_kept) in Hl as E2.
  apply kept_cache in E1, E2. cbn in E2. rewrite E1 in E2.
  apply st_bind_Ok in H as (r & lw4 & Hr & H). apply st_bind_Ok in H as ([] & lw5 & [= <-] & H).
  apply lift_Ok in H as [H ->]. destruct r as [r|e]; [|done]. injection H as ->.
  unfold attempt in Hr. destruct (fund_all _ _ _ _ _ _ lw3) as [[res'|e|] lw6] eqn:Hf; [|done..]. injection Hr as -> ->.
  apply fund_all_spec in Hf as (txs & coinss & Htx & Hpos' & Hfunds & Hspends & Hd & Hfree & Hle & Hman); [|by rewrite E2].
  assert (length vals = length destinations) as Hlen' by (destruct destinations; [done|cbn in *; lia]).
  cbn in Htx, Hpos'. subst txs. rewrite length_zip_with, Hlen', Nat.min_id in Hpos'.
  assert (sum_Z vals = amount) as Hexact.
  { assert (map snd (zip destinations vals) = vals) as Hsnd by (apply snd_zip; lia). rewrite Hsnd in Hle.
    pose proof (distinct_coins_within _ _ Hpos Hd) as Hbound. rewrite <- (wrap_small 64 amount), <- Hsum by done.
    symmetry. apply wrap_small. split; [by apply sum_Z_nonneg|].
    enough (coins_total (concat coinss) <= coins_total (hash_values (cache_of lw))) by lia.
    apply Hbound. intros c [Hc _]%Hfree. by rewrite E2 in Hc. }
  rewrite (spends_outpoints _ _ Hspends). split_and!; [by exists vals|done|done| |apply Hman|done|done].
  - intros op ([? ?] & -> & (Hc & _ & He)%Hfree)%list_elem_of_fmap. rewrite E2 in Hc. by split.
  - destruct destinations, vals; done.
Qed.
End funding.

(** ** The builder behind the bonds
    [spend_coins] and [coin_select] are what [create_fidelity] expects of them. *)
Section bonds.
Context {lib : BitcoinLib} {tap : TaprootLib} {hi : HashIter} {keys : BondKeys}.
Context {D : Type} {file : WalletFile D} {rc : RecoveryChain D} {so : SpendOutside D}.
Context {cs : CoinSelectLib D} {outside : BondWorld D} (script_text : Script -> string) (locked : gset OutPoint).

Definition wallet_coin_select (amount : Amount) (feerate : f64) (spk : Script) : stateful (Wallet D) WalletError (list Coin) := fun w =>
  let '(r, lw) := coin_select script_text amount feerate (infer_address_type spk) None None {| lw_wallet := w; lw_locked := locked |} in
  (r, lw_wallet lw).
Definition wallet_world : BondWorld D :=
  {| outside with bw_coin_select := wallet_coin_select; bw_spend_coins := spend_coins |}.

Lemma spend_coins_outputs coins outs data ch feerate (w w' : Wallet D) tx :
  spend_coins coins (Multi outs data ch) feerate w = (Ok tx, w') ->
  exists change, output tx = multi_outputs outs data ++ change.
Proof.
  intros (h & w1 & _ & H)%st_bind_Ok. apply st_bind_Ok in H as (lt & w2 & _ & H).
  apply st_bind_Ok in H as ([[ins ws] tot] & w3 & _ & H). apply st_bind_Ok in H as ([] & w4 & _ & H).
  apply st_bind_Ok in H as (rate & w5 & _ & H). apply st_bind_Ok in H as (o & w6 & Hout & H).
  apply build_outputs_spec in Hout as (spk & fee & rest & _ & _ & _ & Ho). cbn in Ho. subst o.
  apply st_bind_Ok in H as (stx & w7 & Hsign & H). apply sign_transaction_strip in Hsign.
  apply st_bind_Ok in H as (sum & w8 & _ & H). apply st_bind_Ok in H as (x & w9 & _ & [= <- _]).
  injection Hsign as _ _ _ ->. by eexists.
Qed.

#[export] Instance wallet_world_laws : BondWorldLaws wallet_world.
Proof.
  split.
  - intros coins outs data ch rate w tx w' [change ->]%spend_coins_outputs i a v Hi. unfold multi_outputs.
    rewrite <- app_assoc. apply lookup_app_l_Some. by rewrite list_lookup_fmap, Hi.
  - intros coins dst rate w. destruct (spend_coins_only_index coins dst rate w) as [n E].
    unfold bonds. change (bw_spend_coins coins dst rate w) with (spend_coins coins dst rate w). by rewrite E.
  - intros amount rate spk w. change (bw_coin_select amount rate spk w) with (wallet_coin_select amount rate spk w).
    unfold wallet_coin_select, bonds.
    pose proof (coin_select_steps script_text amount rate (infer_address_type spk) None None {| lw_wallet := w; lw_locked := locked |}) as [_ E].
    destruct (coin_select _ _ _ _ _ _ _) as [r lw]. cbn in E |- *. by rewrite E.
Qed.
End bonds.

(** ** A wallet of taproot coins *)
Module SpendSample.
#[local] Existing Instance Reference.lib.
#[local] Existing Instance TapReference.tap.
Definition own_script : Script := account_script P2TR (point_from_secret_key 42).
Definition utxo (txid : Z) (amount : Amount) (address : string) : Utxo :=
  {| ut_txid := txid; ut_vout := 0; ut_script_pub_key := own_script; ut_amount := amount; ut_confirmations := 6;
     ut_desc := None; ut_witness_script := None; ut_address := Some address |}.
Definition coin (txid : Z) (amount : Amount) (address : string) : Coin :=
  (utxo txid amount address, SeedCoin "m/0/3" amount P2TR).
Definition coins : list Coin := [coin 1 30000 "a"; coin 2 25000 "b"; coin 3 28000 "c"; coin 4 40250 "d"].
Definition cache : gmap OutPoint Coin := list_to_map (map (fun c => (coin_outpoint c, c)) coins).
Definition wallet : Wallet () :=
  {| wl_store := {| WalletStore_init with wst_utxo_cache := cache |}; wl_outside := () |}.
Definition locked : LockedWallet () := {| lw_wallet := wallet; lw_locked := ∅ |}.

#[export] Instance file : WalletFile () := {| write_wallet_file st := mret () |}.
#[export] Instance chain : RecoveryChain () := {|
  rc_clock := {|
    cc_now _ := 0; cc_sleep _ d := d; cc_shutdown _ := false;
    cc_tx_confirmations _ d := (Ok None, d); cc_tx_block_height _ d := (Ok None, d);
  |};
  rc_get_tx_out _ _ _ := mret None;
  rc_is_confirmed_spend _ _ := mret false;
  rc_send_raw_transaction tx := mret (compute_txid tx);
  rc_get_block_count := mret 800;
  rc_derive_addresses _ start _ := mret [81 :: 32 :: repeat start 32];
  rc_require_network _ := true;
  rc_nonces d := ((1, 2), d);
  rc_sync_and_save w := (Ok (), w);
|}.
#[export] Instance outside : SpendOutside () := {|
  so_child_secret t path := Ok 42;
  so_child_point t path := Ok (point_from_secret_key 42);
  so_tap_tweak k := Reference.mix (7 :: tail (point_from_secret_key k) ++ []);
  so_minimal_non_dust spk := 330;
  so_next_u32 d := (2 ^ 31, d);
|}.
#[export] Instance outside_laws : SpendLaws outside.
Proof.
  split; [by intros t path k [= <-]|]. intros k.
  lazy beta iota zeta delta [new_p2tr new_p2tr_tweaked x_only_public_key so_tap_tweak TapReference.tap outside
    Bitcoin.point_from_secret_key Reference.lib Reference.point_from_secret_key TapReference.tweaked tail].
  reflexivity.
Qed.
#[export] Instance unspent : UtxoChain () := {|
  uc_list_unspent := mret (map fst coins);
  uc_hd_origin_for_script _ spk := Some {| hd_fingerprint := "d34db33f"; hd_keychain_idx := 0; hd_index := 3; hd_is_taproot := true |};
  uc_account_fingerprint t := Ok "d34db33f";
|}.
(** The fee of a weight, rounded up; groups in order until the target is covered. *)
Fixpoint needed (target : Z) (groups : list OutputGroup) : nat :=
  match groups with
  | [] => O
  | g :: groups => if target <=? 0 then O else S (needed (target - og_value g) groups)
  end.
#[export] Instance picker : CoinSelectLib () := {|
  cs_calculate_fee weight rate := f64_to_u64 (f64_ceil (f32_mul (f32_of_Z weight) rate));
  cs_select_coin groups opt := mret [seq 0 (needed (cso_target_value opt + 1000) groups)];
|}.
#[export] Instance picker_laws : CoinSelectLaws picker.
Proof. intros groups opt d sel rest d' [= <- <- <-]. apply NoDup_seq. Qed.
Definition text (_ : Script) : string := EmptyString.
Definition receiver : Script := 81 :: 32 :: repeat 5 32.
End SpendSample.
Import (hints) SpendSample.
#[local] Existing Instance Reference.lib.
#[local] Existing Instance Reference.laws.
#[local] Existing Instance TapReference.tap.
#[local] Existing Instance TapReference.tap_laws.
#[local] Existing Instance key_order.
#[local] Existing Instance BondSample.keys.

Abbreviation payment := (spend_coins (take 2 SpendSample.coins) (Multi [(SpendSample.receiver, 40000)] None P2TR) (f64_of_Z 2) SpendSample.wallet).
Abbreviation funding := (create_funding_txes SpendSample.text 50000 [SpendSample.receiver; SpendSample.own_script] (f64_of_Z 2)
  None (Some [{| op_txid := 4; op_vout := 0 |}]) SpendSample.locked).

Lemma spend_conserves_value_witness : exists tx, payment.1 = Ok tx /\
  map value (output tx) = [40000; 14576] /\ map previous_output (input tx) = map coin_outpoint (take 2 SpendSample.coins).
Proof.
  destruct (spend_conserves_value (take 2 SpendSample.coins) (Multi [(SpendSample.receiver, 40000)] None P2TR) (f64_of_Z 2) SpendSample.wallet)
    as [_ Hspend]; [vm_compute; reflexivity|].
  eexists. split; [vm_compute; reflexivity|]. split; [vm_compute; reflexivity|].
  apply Hspend. vm_compute. reflexivity.
Defined.

Lemma spend_is_fully_signed_witness : exists tx, payment.1 = Ok tx /\ length (input tx) = 2%nat /\
  (forall ix, (ix < 2)%nat -> input_authorised tx (map coin_output (take 2 SpendSample.coins)) ix) /\
  (Forall is_p2tr_coin (take 2 SpendSample.coins) -> take 2 SpendSample.coins <> [] ->
   to_vbytes_ceil (tx_weight tx) = estimated_vsize tx (coins_witness (take 2 SpendSample.coins))).
Proof.
  eexists. split; [vm_compute; reflexivity|].
  apply (spend_is_fully_signed (take 2 SpendSample.coins) (Multi [(SpendSample.receiver, 40000)] None P2TR) (f64_of_Z 2) SpendSample.wallet
    _ payment.2).
  - repeat constructor; eexists; split; reflexivity.
  - vm_compute. reflexivity.
Defined.

Lemma funding_pays_the_amount_witness : exists res, funding.1 = Ok res /\
  length (cfr_funding_txes res) = 2%nat /\ NoDup (outpoints_spent (cfr_funding_txes res)) /\ lw_locked funding.2 = ∅.
Proof.
  eexists. split; [vm_compute; reflexivity|]. split; [vm_compute; reflexivity|].
  edestruct (funding_pays_the_amount SpendSample.text 50000 [SpendSample.receiver; SpendSample.own_script] (f64_of_Z 2)
    None (Some [{| op_txid := 4; op_vout := 0 |}]) SpendSample.locked) as (_ & _ & Hd & _ & _ & Hl & _).
  - vm_compute. split; [discriminate|reflexivity].
  - discriminate.
  - intros op c Hc. apply elem_of_list_to_map_2 in Hc. vm_compute in Hc.
    repeat (apply elem_of_cons in Hc as [[= -> ->]|Hc]; [reflexivity|]). by apply not_elem_of_nil in Hc.
  - intros op c Hc. apply elem_of_list_to_map_2 in Hc. vm_compute in Hc.
    repeat (apply elem_of_cons in Hc as [[= -> ->]|Hc]; [discriminate|]). by apply not_elem_of_nil in Hc.
  - vm_compute. reflexivity.
  - vm_compute. reflexivity.
  - split; [exact Hd|exact Hl].
Defined.

(** Selection counts the fee of a transaction without change, spending demands the
    fee of one with change: a coin that covers the payment and the fee is selected
    and then refused. *)
Lemma exact_selection_is_refused :
  (coin_select SpendSample.text 40000 (f64_of_Z 2) P2TR (Some [{| op_txid := 4; op_vout := 0 |}]) None SpendSample.locked).1
    = Ok [SpendSample.coin 4 40250 "d"] /\
  (spend_coins [SpendSample.coin 4 40250 "d"] (Multi [(SpendSample.receiver, 40000)] None P2TR) (f64_of_Z 2) SpendSample.wallet).1
    = Err (WE_InsufficientFund 40250 40308).
Proof. split; vm_compute; reflexivity. Qed.
