(* ===== verification/Deniability.v ===== *)
(** Deniability proofs: src/wallet/deniability.rs.

    A wallet signs, with the keys of a swap contract, a message that names the
    contract's outpoint; the proof is kept in the report file of the swap and is
    checked against the output the chain has at that outpoint.  The text of an
    outpoint and the step from a digest to a message are the class [ProofText];
    the report file and the node are the class [ProofChain]. *)
From S2P Require Import Prelude Float64 Bitcoin Messages Contract Errors SwapCoin ScriptEval TaprootLib Taproot TapScript WatchRegistry TakerState WalletStore Fidelity.
#[local] Open Scope string_scope.
#[local] Open Scope list_scope.
#[local] Open Scope Z_scope.

(** ** Data *)
Inductive SwapRole := SR_Taker | SR_Maker.
Record TaprootDeniabilityProof := {
  tdp_contract_outpoint : OutPoint;
  tdp_internal_key : XOnlyPublicKey;
  tdp_hashlock_script : Script;
  tdp_timelock_script : Script;
  tdp_pub_mine_musig : PublicKey;
  tdp_pub_other_musig : PublicKey;
  tdp_pub_mine_hashlock : XOnlyPublicKey;
  tdp_sig_musig : bytes;
  tdp_sig_hashlock : bytes;
}.
Record LegacyDeniabilityProof := {
  ldp_funding_outpoint : OutPoint;
  ldp_htlc_redeemscript : Script;
  ldp_multisig_redeemscript : Script;
  ldp_pub_mine_multi : PublicKey;
  ldp_pub_other_multi : PublicKey;
  ldp_pub_mine_hashlock : PublicKey;
  ldp_sig_multi : Signature;
  ldp_sig_hashlock : Signature;
}.
Inductive DeniabilityProofData :=
| DPD_Taproot (d : TaprootDeniabilityProof)
| DPD_Legacy (d : LegacyDeniabilityProof).
Record DeniabilityProof := {
  dp_swap_id : string;
  dp_role : SwapRole;
  dp_protocol : ProtocolVersion;
  dp_outgoing_swapcoin : option OutPoint;
  dp_proof : DeniabilityProofData;
  dp_created_at : Z;
}.
Inductive DeniabilityProofError :=
| DPE_InvalidProof (msg : string)
| DPE_ChainMismatch (msg : string)
| DPE_BadSignature (msg : string)
| DPE_General (msg : string).

(** [outpoint.to_string()] and [Message::from_digest_slice]. *)
Class ProofText := {
  outpoint_text : OutPoint -> bytes;
  message_from_digest : bytes -> Z;
}.
(** The proofs of a report file, and [get_raw_transaction_info]: the confirmations
    and the scripts of the outputs, those that can be decoded. *)
Class ProofChain (D : Type) := {
  pc_report : D -> outcome string (list DeniabilityProof);
  pc_raw_transaction_info : Txid -> stateful D string (option Z * list (option Script));
}.

Section proofs.
Context {lib : BitcoinLib} {tap : TaprootLib} {pt : ProofText}.

(** ** Building *)
Definition protocol_text (p : ProtocolVersion) : bytes := str match p with Legacy => "Legacy" | Taproot => "Taproot" end.
Definition proof_message (protocol : ProtocolVersion) (outpoint : OutPoint) : Z :=
  message_from_digest (sha256 (str "openswap-deniability-proof-v1" ++ protocol_text protocol ++ outpoint_text outpoint)).
Definition schnorr_sign (privkey : SecretKey) (msg : Z) : bytes := sign_schnorr msg privkey.
Definition proof_ecdsa_sign (privkey : SecretKey) (msg : Z) : Signature :=
  {| sig_bytes := ecdsa_sign msg privkey; sighash_type := SIGHASH_ALL |}.
Definition secret_key_xonly (privkey : SecretKey) : XOnlyPublicKey := x_only_public_key (point_from_secret_key privkey).

Abbreviation general msg := (WE_General msg).
Definition coin_privkey (c : IncomingSwapCoin) : outcome WalletError SecretKey :=
  ok_or (isc_my_privkey c) (general "Incoming swapcoin's privkey does not exist").
Definition coin_pubkey (c : IncomingSwapCoin) : outcome WalletError PublicKey :=
  ok_or (isc_my_pubkey c) (general "Incoming swapcoin's pubkey does not exist").
Definition coin_other_pubkey (c : IncomingSwapCoin) : outcome WalletError PublicKey :=
  ok_or (isc_other_pubkey c) (general "Incoming swapcoin's other pubkey does not exist").
Definition coin_internal_key (c : IncomingSwapCoin) : outcome WalletError XOnlyPublicKey :=
  ok_or (isc_internal_key c) (general "Incoming swapcoin's internal key does not exist").

Definition taproot_data (c : IncomingSwapCoin) : outcome WalletError TaprootDeniabilityProof :=
  let contract_outpoint := {| op_txid := compute_txid (isc_contract_tx c); op_vout := isc_get_contract_output_vout c |} in
  my_privkey ← coin_privkey c;
  let hashlock_privkey := isc_hashlock_privkey c in
  let msg := proof_message Taproot contract_outpoint in
  internal_key ← coin_internal_key c;
  hashlock_script ← ok_or (isc_hashlock_script c) (general "Missing Taproot hashlock script");
  timelock_script ← ok_or (isc_timelock_script c) (general "Missing Taproot timelock script");
  mine ← coin_pubkey c;
  other ← coin_other_pubkey c;
  Ok {| tdp_contract_outpoint := contract_outpoint; tdp_internal_key := internal_key;
        tdp_hashlock_script := hashlock_script; tdp_timelock_script := timelock_script;
        tdp_pub_mine_musig := mine; tdp_pub_other_musig := other;
        tdp_pub_mine_hashlock := secret_key_xonly hashlock_privkey;
        tdp_sig_musig := schnorr_sign my_privkey msg; tdp_sig_hashlock := schnorr_sign hashlock_privkey msg |}.
Definition legacy_data (c : IncomingSwapCoin) : outcome WalletError LegacyDeniabilityProof :=
  funding_outpoint ← ok_or (previous_output <$> head (input (isc_contract_tx c))) (general "Contract tx has no inputs");
  my_privkey ← coin_privkey c;
  let hashlock_privkey := isc_hashlock_privkey c in
  let msg := proof_message Legacy funding_outpoint in
  htlc ← ok_or (isc_contract_redeemscript c) (general "Missing legacy HTLC redeemscript");
  multisig ← ok_or (isc_multisig_redeemscript c) (general "Missing multisig redeemscript");
  mine ← coin_pubkey c;
  other ← coin_other_pubkey c;
  Ok {| ldp_funding_outpoint := funding_outpoint; ldp_htlc_redeemscript := htlc; ldp_multisig_redeemscript := multisig;
        ldp_pub_mine_multi := mine; ldp_pub_other_multi := other;
        ldp_pub_mine_hashlock := pubkey_of hashlock_privkey;
        ldp_sig_multi := proof_ecdsa_sign my_privkey msg; ldp_sig_hashlock := proof_ecdsa_sign hashlock_privkey msg |}.

Definition from_incoming_swapcoin (c : IncomingSwapCoin) (role : SwapRole) (outgoing_swapcoin : option OutPoint) (now : Z)
    : outcome WalletError DeniabilityProof :=
  swap_id ← ok_or (isc_swap_id c) (general "Missing swap_id for deniability proof");
  data ← match isc_protocol c with
         | Taproot => d ← taproot_data c; Ok (DPD_Taproot d)
         | Legacy => d ← legacy_data c; Ok (DPD_Legacy d)
         end;
  Ok {| dp_swap_id := swap_id; dp_role := role; dp_protocol := isc_protocol c; dp_outgoing_swapcoin := outgoing_swapcoin;
        dp_proof := data; dp_created_at := now |}.

Definition proven_outpoint (p : DeniabilityProof) : OutPoint :=
  match dp_proof p with DPD_Taproot d => tdp_contract_outpoint d | DPD_Legacy d => ldp_funding_outpoint d end.

(** A proof that cannot be built is left out of the report. *)
Definition proof_from_swapcoins (incoming : option IncomingSwapCoin) (outgoing : option OutgoingSwapCoin) (role : SwapRole) (now : Z)
    : option DeniabilityProof :=
  c ← incoming;
  let outgoing_outpoint :=
    (fun sc => {| op_txid := compute_txid (osc_contract_tx sc); op_vout := osc_get_contract_output_vout sc |}) <$> outgoing in
  match from_incoming_swapcoin c role outgoing_outpoint now with Ok p => Some p | _ => None end.

(** ** Checking *)
(** [matches!(instructions[i], Ok(Instruction::Op(op)))]. *)
Definition is_op (i : option (option Instruction)) (op : Z) : bool :=
  match i with Some (Some (Op o)) => o =? op | _ => false end.
Definition parse_taproot_hashlock_script (script : Script) : outcome DeniabilityProofError XOnlyPublicKey :=
  let instrs := instructions script in
  _ ← reject (negb (length instrs =? 5)%nat) (DPE_InvalidProof "Taproot hashlock script has unexpected length");
  _ ← reject (negb (is_op (instrs !! 0%nat) OP_SHA256
                    && is_op (instrs !! 2%nat) OP_EQUALVERIFY
                    && is_op (instrs !! 4%nat) OP_CHECKSIG))
        (DPE_InvalidProof "Taproot hashlock script has unexpected opcodes");
  match instrs !! 1%nat, instrs !! 3%nat with
  | Some (Some (PushBytes hash_bytes)), Some (Some (PushBytes pubkey_bytes)) =>
      if (length hash_bytes =? 32)%nat && (length pubkey_bytes =? 32)%nat
      then ok_or (xonly_from_slice pubkey_bytes) (DPE_General "invalid hashlock pubkey: {e:?}")
      else Err (DPE_InvalidProof "Taproot hashlock script has unexpected pushes")
  | _, _ => Err (DPE_InvalidProof "Taproot hashlock script has unexpected pushes")
  end.
Definition parse_taproot_timelock_script (script : Script) : outcome DeniabilityProofError () :=
  let instrs := instructions script in
  _ ← reject (negb (length instrs =? 5)%nat) (DPE_InvalidProof "Taproot timelock script has unexpected length");
  _ ← reject (negb (is_op (instrs !! 1%nat) OP_CLTV
                    && is_op (instrs !! 2%nat) OP_DROP
                    && is_op (instrs !! 4%nat) OP_CHECKSIG))
        (DPE_InvalidProof "Taproot timelock script has unexpected opcodes");
  match instrs !! 0%nat, instrs !! 3%nat with
  | Some (Some (PushBytes locktime_bytes)), Some (Some (PushBytes pubkey_bytes)) =>
      if bool_decide (locktime_bytes <> []) && (length pubkey_bytes =? 32)%nat then Ok ()
      else Err (DPE_InvalidProof "Taproot timelock script has unexpected pushes")
  | _, _ => Err (DPE_InvalidProof "Taproot timelock script has unexpected pushes")
  end.

(** A protocol error becomes [General]. *)
Definition general_error {A} (m : outcome ProtocolError A) : outcome DeniabilityProofError A := map_err (fun _ => DPE_General "{e:?}") m.

Definition verify_taproot_proof (d : TaprootDeniabilityProof) (chain_spk : Script) : outcome DeniabilityProofError () :=
  '(script_pubkey, _) ← general_error (create_taproot_script (tdp_hashlock_script d) (tdp_timelock_script d) (tdp_internal_key d));
  _ ← reject (bool_decide (chain_spk <> script_pubkey)) (DPE_ChainMismatch "chain output does not match Taproot scripts");
  let '(a, b) := sort2 inner (tdp_pub_mine_musig d) (tdp_pub_other_musig d) in
  aggregate ← general_error (get_aggregated_pubkey_compat (inner a) (inner b));
  _ ← reject (bool_decide (aggregate <> tdp_internal_key d)) (DPE_InvalidProof "MuSig aggregate does not match internal key");
  script_hashlock_key ← parse_taproot_hashlock_script (tdp_hashlock_script d);
  _ ← reject (bool_decide (script_hashlock_key <> tdp_pub_mine_hashlock d))
        (DPE_InvalidProof "hashlock script does not contain claimant key");
  _ ← parse_taproot_timelock_script (tdp_timelock_script d);
  let msg := proof_message Taproot (tdp_contract_outpoint d) in
  _ ← reject (negb (verify_schnorr msg (tdp_sig_musig d) (x_only_public_key (inner (tdp_pub_mine_musig d)))))
        (DPE_BadSignature "musig signature");
  reject (negb (verify_schnorr msg (tdp_sig_hashlock d) (tdp_pub_mine_hashlock d))) (DPE_BadSignature "hashlock signature").

Definition verify_legacy_proof (d : LegacyDeniabilityProof) (chain_spk : Script) : outcome DeniabilityProofError () :=
  multisig_spk ← general_error (redeemscript_to_scriptpubkey (ldp_multisig_redeemscript d));
  _ ← reject (bool_decide (chain_spk <> multisig_spk)) (DPE_ChainMismatch "chain output does not match multisig redeemscript");
  '(multi_a, multi_b) ← general_error (read_pubkeys_from_multisig_redeemscript (ldp_multisig_redeemscript d));
  _ ← reject (negb (bool_decide (ldp_pub_mine_multi d = multi_a) && bool_decide (ldp_pub_other_multi d = multi_b)
                    || bool_decide (ldp_pub_mine_multi d = multi_b) && bool_decide (ldp_pub_other_multi d = multi_a)))
        (DPE_InvalidProof "multisig redeemscript does not contain expected keys");
  hashlock_key ← general_error (read_hashlock_pubkey_from_contract (ldp_htlc_redeemscript d));
  _ ← reject (bool_decide (hashlock_key <> ldp_pub_mine_hashlock d))
        (DPE_InvalidProof "HTLC redeemscript does not contain claimant hashlock key");
  _ ← reject (negb (sighash_type (ldp_sig_multi d) =? SIGHASH_ALL) || negb (sighash_type (ldp_sig_hashlock d) =? SIGHASH_ALL))
        (DPE_InvalidProof "legacy proof signatures must use SIGHASH_ALL");
  let msg := proof_message Legacy (ldp_funding_outpoint d) in
  _ ← reject (negb (ecdsa_verify msg (sig_bytes (ldp_sig_multi d)) (inner (ldp_pub_mine_multi d))))
        (DPE_BadSignature "multisig signature");
  reject (negb (ecdsa_verify msg (sig_bytes (ldp_sig_hashlock d)) (inner (ldp_pub_mine_hashlock d))))
    (DPE_BadSignature "hashlock signature").

Definition payload_protocol (d : DeniabilityProofData) : ProtocolVersion :=
  match d with DPD_Taproot _ => Taproot | DPD_Legacy _ => Legacy end.
Definition verify_proof (p : DeniabilityProof) (chain_spk : Script) : outcome DeniabilityProofError () :=
  _ ← reject (bool_decide (dp_protocol p <> payload_protocol (dp_proof p)))
        (DPE_InvalidProof "wrapper protocol does not match proof payload");
  _ ← reject (dp_swap_id p =? EmptyString)%string (DPE_InvalidProof "swap_id is missing");
  _ ← reject (bool_decide (dp_outgoing_swapcoin p = None)) (DPE_InvalidProof "outgoing_swapcoin link is missing");
  match dp_proof p with
  | DPD_Taproot d => verify_taproot_proof d chain_spk
  | DPD_Legacy d => verify_legacy_proof d chain_spk
  end.

Definition verify_deniability {D} {chain : ProofChain D} (swap_id : string) : stateful D string bool :=
  report ← gets pc_report;
  proofs ← lift report;
  proof ← lift (ok_or (snd <$> list_find (fun p => dp_swap_id p = swap_id) proofs) "no deniability proof found for swap {swap_id}");
  let outpoint := proven_outpoint proof in
  '(confirmations, vout) ← pc_raw_transaction_info (op_txid outpoint);
  _ ← lift (reject (default 0 confirmations =? 0) "transaction not yet confirmed; retry after more blocks");
  entry ← lift (ok_or (vout !! Z.to_nat (op_vout outpoint)) "outpoint vout out of bounds");
  chain_spk ← lift (ok_or entry "RPC script decode: {e}");
  lift match verify_proof proof chain_spk with Ok _ => Ok true | Err _ => Ok false | Panic => Panic end.
End proofs.

(** ** What a proof proves *)
Section meaning.
Context {lib : BitcoinLib} {laws : BitcoinLaws lib} {tap : TaprootLib} {tlaws : TaprootLaws lib tap} {pt : ProofText}.

Lemma five {A} (l : list A) : length l = 5%nat -> exists a b c d e, l = [a; b; c; d; e].
Proof. destruct l as [|a [|b [|c [|d [|e [|]]]]]]; intros [=]. by exists a, b, c, d, e. Qed.
Lemma is_op_true i op : is_op i op = true -> i = Some (Some (Op op)).
Proof. unfold is_op. repeat case_match; try done. intros ->%Z.eqb_eq. done. Qed.

Lemma hashlock_parse_Ok script k :
  parse_taproot_hashlock_script script = Ok k <->
  exists hash, hashlock_leaf script hash k /\ length hash = 32%nat /\ length k = 32%nat /\ xonly_from_slice k = Some k.
Proof.
  unfold parse_taproot_hashlock_script, hashlock_leaf. split.
  - intros H. inv_ok H. to_prop. apply five in Hs as (a & b & c & d & e & Hi). rewrite Hi in *. cbn [lookup list_lookup] in *.
    repeat match goal with H : is_op _ _ = true |- _ => apply is_op_true in H end. simplify_eq.
    destruct b as [[hash|]|]; [|done..]. destruct d as [[pk|]|]; [|done..].
    destruct (_ && _) eqn:El; [|done]. to_prop. apply ok_or_Ok in H. apply xonly_from_slice_Some in H as E. destruct E as [-> _].
    exists hash. by split_and!.
  - intros (hash & -> & Hh & Hk & Hx). cbn. rewrite Hh, Hk. cbn. by rewrite Hx.
Qed.
Lemma timelock_parse_Ok script :
  parse_taproot_timelock_script script = Ok () <->
  exists lt pk, timelock_leaf script (PushBytes lt) pk /\ lt <> [] /\ length pk = 32%nat.
Proof.
  unfold parse_taproot_timelock_script, timelock_leaf. split.
  - intros H. inv_ok H. to_prop. apply five in Hs as (a & b & c & d & e & Hi). rewrite Hi in *. cbn [lookup list_lookup] in *.
    repeat match goal with H : is_op _ _ = true |- _ => apply is_op_true in H end. simplify_eq.
    destruct a as [[lt|]|]; [|done..]. destruct d as [[pk|]|]; [|done..].
    destruct (_ && _) eqn:El; [|done]. to_prop. eauto.
  - intros (lt & pk & -> & Hl & Hp). cbn. rewrite Hp. by rewrite bool_decide_true.
Qed.

(** What an accepted taproot proof says of the output: it is the contract output of
    the two leaves under the aggregate of the two keys, the claimant's key is in
    the hashlock leaf, and both keys signed the message that names the outpoint. *)
Definition taproot_control (d : TaprootDeniabilityProof) (spk : Script) : Prop :=
  let msg := proof_message Taproot (tdp_contract_outpoint d) in
  let mine := inner (tdp_pub_mine_musig d) in let other := inner (tdp_pub_other_musig d) in
  (exists info, two_leaf_tree (tdp_hashlock_script d) (tdp_timelock_script d) (tdp_internal_key d) = Some info /\
     spk = new_p2tr_tweaked (tsi_output_key info)) /\
  valid_point mine = true /\ valid_point other = true /\
  tdp_internal_key d = agg_pk (KeyAggCache_new (if bytes_lt other mine then [other; mine] else [mine; other])) /\
  (exists hash, hashlock_leaf (tdp_hashlock_script d) hash (tdp_pub_mine_hashlock d) /\ length hash = 32%nat) /\
  length (tdp_pub_mine_hashlock d) = 32%nat /\
  xonly_from_slice (tdp_pub_mine_hashlock d) = Some (tdp_pub_mine_hashlock d) /\
  (exists lt pk, timelock_leaf (tdp_timelock_script d) (PushBytes lt) pk /\ lt <> [] /\ length pk = 32%nat) /\
  verify_schnorr msg (tdp_sig_musig d) (x_only_public_key mine) = true /\
  verify_schnorr msg (tdp_sig_hashlock d) (tdp_pub_mine_hashlock d) = true.

(** Of a legacy proof: the output pays to the script in which the two keys are, and
    the claimant's two keys signed.  Nothing ties the contract script to the output. *)
Definition legacy_control (d : LegacyDeniabilityProof) (spk : Script) : Prop :=
  let msg := proof_message Legacy (ldp_funding_outpoint d) in
  let mine := ldp_pub_mine_multi d in let other := ldp_pub_other_multi d in
  spk = 0 :: 32 :: wscript_hash (ldp_multisig_redeemscript d) /\
  (read_pubkeys_from_multisig_redeemscript (ldp_multisig_redeemscript d) = Ok (mine, other) \/
   read_pubkeys_from_multisig_redeemscript (ldp_multisig_redeemscript d) = Ok (other, mine)) /\
  read_hashlock_pubkey_from_contract (ldp_htlc_redeemscript d) = Ok (ldp_pub_mine_hashlock d) /\
  sighash_type (ldp_sig_multi d) = SIGHASH_ALL /\ sighash_type (ldp_sig_hashlock d) = SIGHASH_ALL /\
  ecdsa_verify msg (sig_bytes (ldp_sig_multi d)) (inner mine) = true /\
  ecdsa_verify msg (sig_bytes (ldp_sig_hashlock d)) (inner (ldp_pub_mine_hashlock d)) = true.

Definition shows_control (p : DeniabilityProof) (spk : Script) : Prop :=
  dp_swap_id p <> EmptyString /\ dp_outgoing_swapcoin p <> None /\
  match dp_proof p with
  | DPD_Taproot d => dp_protocol p = Taproot /\ taproot_control d spk
  | DPD_Legacy d => dp_protocol p = Legacy /\ legacy_control d spk
  end.

Lemma taproot_script_iff hs ts ik spk info :
  create_taproot_script hs ts ik = Ok (spk, info) <->
  two_leaf_tree hs ts ik = Some info /\ spk = new_p2tr_tweaked (tsi_output_key info).
Proof.
  split.
  - intros H. assert (two_leaf_tree hs ts ik = Some info) as Ht.
    { unfold create_taproot_script in H. rewrite two_leaf_tree_eq. inv_ok H.
      rewrite add_leaf_first in Hs. injection Hs as <-. rewrite add_leaf_second in Hs0. by injection Hs0 as <-. }
    split; [done|]. apply create_taproot_script_Ok in Ht. congruence.
  - intros [Ht ->]. by apply create_taproot_script_Ok.
Qed.
Lemma aggregate_iff p q ik :
  get_aggregated_pubkey_compat p q = Ok ik <->
  valid_point p = true /\ valid_point q = true /\ ik = agg_pk (KeyAggCache_new (if bytes_lt q p then [q; p] else [p; q])).
Proof.
  split.
  - intros H. assert (valid_point p = true /\ valid_point q = true) as [Hp Hq].
    { unfold get_aggregated_pubkey_compat, btc_pubkey_to_secp in H. by destruct (valid_point p), (valid_point q). }
    rewrite get_aggregated_pubkey_compat_Ok in H by done. injection H as <-. split_and!; [done|done|].
    unfold sort2, id. by destruct (bytes_lt q p).
  - intros (Hp & Hq & ->). rewrite get_aggregated_pubkey_compat_Ok by done. unfold sort2, id. by destruct (bytes_lt q p).
Qed.

Lemma general_error_Ok {A} (m : outcome ProtocolError A) a : general_error m = Ok a <-> m = Ok a.
Proof. apply map_err_Ok. Qed.
Lemma sorted_aggregate (a b : PublicKey) ik :
  (let '(x, y) := sort2 inner a b in get_aggregated_pubkey_compat (inner x) (inner y) = Ok ik) <->
  valid_point (inner a) = true /\ valid_point (inner b) = true /\
  ik = agg_pk (KeyAggCache_new (if bytes_lt (inner b) (inner a) then [inner b; inner a] else [inner a; inner b])).
Proof.
  unfold sort2. destruct (bytes_lt (inner b) (inner a)) eqn:E; rewrite aggregate_iff; rewrite ?E; [|done].
  rewrite bytes_lt_asym by done. naive_solver.
Qed.

Lemma verify_taproot_Ok d spk : verify_taproot_proof d spk = Ok () <-> taproot_control d spk.
Proof.
  unfold verify_taproot_proof, taproot_control. pose proof (sorted_aggregate (tdp_pub_mine_musig d) (tdp_pub_other_musig d)) as Hagg.
  destruct (sort2 inner _ _) as [a b]. split.
  - intros ([spk' info] & Hspk%general_error_Ok & H)%bind_Ok. apply taproot_script_iff in Hspk as [Htree ->].
    apply bind_Ok in H as ([] & Hs & H). apply reject_Ok in Hs. to_prop. apply dec_stable in Hs as ->.
    apply bind_Ok in H as (agg & Ha%general_error_Ok & H). apply bind_Ok in H as ([] & Hs & H). apply reject_Ok in Hs. to_prop.
    apply dec_stable in Hs as ->. apply Hagg in Ha as (Hv1 & Hv2 & Hik).
    apply bind_Ok in H as (k & Hk & H). apply bind_Ok in H as ([] & Hs & H). apply reject_Ok in Hs. to_prop. apply dec_stable in Hs as ->.
    apply hashlock_parse_Ok in Hk as (hash & Hl & Hlen & Hk32 & Hx).
    apply bind_Ok in H as ([] & Ht & H). apply timelock_parse_Ok in Ht.
    inv_ok H. to_prop. split_and!; eauto.
  - intros ((info & Htree & ->) & Hv1 & Hv2 & Hik & (hash & Hl & Hlen) & Hk32 & Hx & Ht & Hs1 & Hs2).
    rewrite (proj2 (general_error_Ok _ _) (proj2 (taproot_script_iff _ _ _ _ info) (conj Htree eq_refl))). cbn.
    rewrite bool_decide_ne_refl. cbn. rewrite (proj2 (general_error_Ok _ _) (proj2 (Hagg _) (conj Hv1 (conj Hv2 Hik)))). cbn.
    rewrite bool_decide_ne_refl. cbn.
    rewrite (proj2 (hashlock_parse_Ok _ _) (ex_intro _ hash (conj Hl (conj Hlen (conj Hk32 Hx))))). cbn.
    rewrite bool_decide_ne_refl. cbn. rewrite (proj2 (timelock_parse_Ok _) Ht). cbn. by rewrite Hs1, Hs2.
Qed.

Lemma expected_keys_iff (mine other a b : PublicKey) :
  bool_decide (mine = a) && bool_decide (other = b) || bool_decide (mine = b) && bool_decide (other = a) = true <->
  (a, b) = (mine, other) \/ (a, b) = (other, mine).
Proof. repeat case_bool_decide; naive_solver. Qed.

Lemma verify_legacy_Ok d spk : verify_legacy_proof d spk = Ok () <-> legacy_control d spk.
Proof.
  unfold verify_legacy_proof, legacy_control. rewrite redeemscript_to_scriptpubkey_Ok. cbn. split.
  - intros H. apply bind_Ok in H as ([] & Hs & H). apply reject_Ok in Hs. to_prop. apply dec_stable in Hs as ->.
    apply bind_Ok in H as ([a b] & Hab%general_error_Ok & H). apply bind_Ok in H as ([] & Hs & H). apply reject_Ok in Hs.
    apply negb_false_iff, expected_keys_iff in Hs.
    apply bind_Ok in H as (k & Hk%general_error_Ok & H). apply bind_Ok in H as ([] & Hs' & H). apply reject_Ok in Hs'. to_prop.
    apply dec_stable in Hs' as ->. apply bind_Ok in H as ([] & Hty & H). apply reject_Ok in Hty. to_prop.
    inv_ok H. to_prop. rewrite Hab. split_and!; try done. destruct Hs as [[= -> ->]|[= -> ->]]; auto.
  - intros (-> & Hab & Hk & Ht1 & Ht2 & Hs1 & Hs2). rewrite bool_decide_ne_refl. cbn.
    assert (exists a b, read_pubkeys_from_multisig_redeemscript (ldp_multisig_redeemscript d) = Ok (a, b) /\
      ((a, b) = (ldp_pub_mine_multi d, ldp_pub_other_multi d) \/ (a, b) = (ldp_pub_other_multi d, ldp_pub_mine_multi d)))
      as (a & b & E & Hor) by (destruct Hab; eauto 10).
    rewrite (proj2 (general_error_Ok _ _) E). cbn. apply expected_keys_iff in Hor. rewrite Hor. cbn.
    rewrite (proj2 (general_error_Ok _ _) Hk). cbn. rewrite bool_decide_ne_refl. cbn.
    rewrite Ht1, Ht2. cbn. by rewrite Hs1, Hs2.
Qed.

Lemma proof_accepted_iff p spk : verify_proof p spk = Ok () <-> shows_control p spk.
Proof.
  unfold verify_proof, shows_control. rewrite bind_Ok. setoid_rewrite bind_Ok. setoid_rewrite bind_Ok. setoid_rewrite reject_Ok.
  destruct p as [id role proto out data at_]; cbn. split.
  - intros ([] & Hp & [] & Hid & [] & Hout & H). to_prop. apply String.eqb_neq in Hid. apply dec_stable in Hp as ->.
    split; [done|]. split; [done|].
    destruct data as [d|d]; (split; [done|]); [by apply verify_taproot_Ok|by apply verify_legacy_Ok].
  - intros (Hid & Hout & H). exists (). split; [apply bool_decide_false; destruct data; destruct H as [-> _]; tauto|].
    exists (). split; [by apply String.eqb_neq|]. exists (). split; [by apply bool_decide_false|].
    destruct data as [d|d]; destruct H as [_ H]; [by apply verify_taproot_Ok|by apply verify_legacy_Ok].
Qed.

(** C19: Checking a proof: [verify_deniability] answers yes exactly when the report has
    a proof for the swap, the transaction it names is confirmed, and the output
    there is a contract of the claimant: for taproot the contract output of the two
    scripts under the aggregate of the two keys, with both of the claimant's keys
    signing for that outpoint; for legacy the 2-of-2 of the two keys. *)
Theorem deniability_verdict_iff {D} {chain : ProofChain D} swap_id (d : D) :
  (verify_deniability swap_id d).1 = Ok true <->
  exists proofs p conf vout spk, pc_report d = Ok proofs /\
    snd <$> list_find (fun p => dp_swap_id p = swap_id) proofs = Some p /\
    (pc_raw_transaction_info (op_txid (proven_outpoint p)) d).1 = Ok (Some conf, vout) /\ conf <> 0 /\
    vout !! Z.to_nat (op_vout (proven_outpoint p)) = Some (Some spk) /\ shows_control p spk.
Proof.
  setoid_rewrite <- proof_accepted_iff. unfold verify_deniability, gets, lift, mbind, stateful_bind.
  destruct (pc_report d) as [proofs|e|] eqn:Er; [|split; [done|naive_solver]..].
  destruct (snd <$> list_find _ proofs) as [p|] eqn:Ef; cbn; [|split; [done|intros (? & ? & ? & ? & ? & [= <-] & Hf & _); congruence]].
  destruct (pc_raw_transaction_info _ d) as [[[conf vout]|e|] d'] eqn:Ei.
  2,3: split; [done|intros (? & q & ? & ? & ? & [= <-] & Hf & Hi & _); rewrite Ef in Hf; injection Hf as <-; by rewrite Ei in Hi].
  destruct (Z.eqb_spec (default 0 conf) 0) as [Hc|Hc]; cbn.
  { split; [done|]. intros (? & q & ? & ? & ? & [= <-] & Hf & Hi & Hne & _). rewrite Ef in Hf. injection Hf as <-.
    rewrite Ei in Hi. injection Hi as -> <-. by cbn in Hc. }
  destruct conf as [conf|]; [|done]. cbn in Hc. destruct (vout !! _) as [[spk|]|] eqn:Ev; cbn.
  2,3: split; [done|intros (? & q & ? & ? & ? & [= <-] & Hf & Hi & _ & Hv & _); rewrite Ef in Hf; injection Hf as <-;
         rewrite Ei in Hi; injection Hi as <- <-; congruence].
  split.
  - destruct (verify_proof p spk) as [[]|e|] eqn:Ep; [|done..]. intros _. exists proofs, p, conf, vout, spk. by rewrite Ei.
  - intros (? & q & ? & ? & ? & [= <-] & Hf & Hi & _ & Hv & Hok). rewrite Ef in Hf. injection Hf as <-.
    rewrite Ei in Hi. injection Hi as <- <-. rewrite Ev in Hv. injection Hv as <-. by rewrite Hok.
Qed.

(** ** The wallet's own proofs *)
Lemma timelock_script_leaf lt pk :
  17 <= lt < 2 ^ 31 -> length pk = 32%nat -> timelock_leaf (create_timelock_script lt pk) (PushBytes (script_int lt)) pk.
Proof.
  intros Hlt Hp. unfold timelock_leaf, create_timelock_script. pose proof (script_int_short lt) as Hs.
  rewrite push_x_only_key_spec, push_lock_time_spec, push_int_large, !push_opcode_spec by lia.
  rewrite (push_slice_spec (script_int lt)) by lia. rewrite (push_slice_spec pk) by lia.
  rewrite <- ?app_assoc. cbn [app]. rewrite <- ?app_assoc. cbn [app].
  rewrite (instructions_push_small _ (script_int lt)) by (done || lia).
  rewrite !instructions_opcode by (apply plain_opcode; reflexivity).
  rewrite (instructions_push_small _ pk) by (done || lia).
  rewrite instructions_opcode by (apply plain_opcode; reflexivity). by rewrite instructions_nil.
Qed.

(** An incoming coin as a swap leaves it, with the output the proof is about: keys,
    scripts and internal key belong together.  Heights below 17 are pushed by an
    opcode, which the parser of the timelock leaf does not take. *)
Definition proof_ready (c : IncomingSwapCoin) (spk : Script) : Prop :=
  exists id k other, isc_swap_id c = Some id /\ id <> EmptyString /\ isc_my_privkey c = Some k /\
    isc_my_pubkey c = Some (pubkey_of k) /\ isc_other_pubkey c = Some other /\ wf_pubkey other /\
    match isc_protocol c with
    | Taproot => exists hash lt pk ik info,
        isc_hashlock_script c = Some (create_hashlock_script hash (secret_key_xonly (isc_hashlock_privkey c))) /\
        length hash = 32%nat /\ isc_timelock_script c = Some (create_timelock_script lt pk) /\ 17 <= lt < 2 ^ 31 /\
        length pk = 32%nat /\ isc_internal_key c = Some ik /\
        get_aggregated_pubkey_compat (point_from_secret_key k) (inner other) = Ok ik /\
        create_taproot_script (create_hashlock_script hash (secret_key_xonly (isc_hashlock_privkey c)))
          (create_timelock_script lt pk) ik = Ok (spk, info)
    | Legacy => exists i rs, head (input (isc_contract_tx c)) = Some i /\
        isc_multisig_redeemscript c = Some (create_multisig_redeemscript (pubkey_of k) other) /\
        isc_contract_redeemscript c = Some rs /\
        read_hashlock_pubkey_from_contract rs = Ok (pubkey_of (isc_hashlock_privkey c)) /\
        spk = 0 :: 32 :: wscript_hash (create_multisig_redeemscript (pubkey_of k) other)
    end.

(** The outpoint a proof of this coin is about. *)
Definition proof_outpoint (c : IncomingSwapCoin) : option OutPoint :=
  match isc_protocol c with
  | Taproot => Some {| op_txid := compute_txid (isc_contract_tx c); op_vout := isc_get_contract_output_vout c |}
  | Legacy => previous_output <$> head (input (isc_contract_tx c))
  end.

Lemma own_pubkey_wf k : wf_pubkey (pubkey_of k).
Proof. split; [done|apply point_from_secret_key_valid]. Qed.

Lemma taproot_data_control c spk k other hash lt pk ik info :
  isc_my_privkey c = Some k -> isc_my_pubkey c = Some (pubkey_of k) -> isc_other_pubkey c = Some other -> wf_pubkey other ->
  isc_hashlock_script c = Some (create_hashlock_script hash (secret_key_xonly (isc_hashlock_privkey c))) ->
  length hash = 32%nat -> isc_timelock_script c = Some (create_timelock_script lt pk) -> 17 <= lt < 2 ^ 31 ->
  length pk = 32%nat -> isc_internal_key c = Some ik ->
  get_aggregated_pubkey_compat (point_from_secret_key k) (inner other) = Ok ik ->
  create_taproot_script (create_hashlock_script hash (secret_key_xonly (isc_hashlock_privkey c)))
    (create_timelock_script lt pk) ik = Ok (spk, info) ->
  exists d, taproot_data c = Ok d /\ taproot_control d spk /\ Some (tdp_contract_outpoint d) =
    Some {| op_txid := compute_txid (isc_contract_tx c); op_vout := isc_get_contract_output_vout c |}.
Proof.
  intros Hk Hpk Ho Hw Hhs Hh Hts Hlt Hp Hik Hagg Htree.
  unfold taproot_data, coin_privkey, coin_internal_key, coin_pubkey, coin_other_pubkey. rewrite Hk, Hik, Hhs, Hts, Hpk, Ho.
  eexists. split; [reflexivity|]. split; [|done]. unfold taproot_control.
  cbn [tdp_contract_outpoint tdp_internal_key tdp_hashlock_script tdp_timelock_script tdp_pub_mine_musig tdp_pub_other_musig
       tdp_pub_mine_hashlock tdp_sig_musig tdp_sig_hashlock pubkey_of inner].
  apply aggregate_iff in Hagg as (Hv1 & Hv2 & Heq). apply taproot_script_iff in Htree as [Htree ->].
  assert (valid_point (point_from_secret_key (isc_hashlock_privkey c)) = true) as Hvh by apply point_from_secret_key_valid.
  assert (length (secret_key_xonly (isc_hashlock_privkey c)) = 32%nat) as Hx by by apply x_only_length.
  split_and!; try done.
  - by exists info.
  - exists hash. split; [by apply hashlock_script_leaf|done].
  - by apply xonly_from_slice_x_only.
  - exists (script_int lt), pk. split_and!; [by apply timelock_script_leaf| |done]. rewrite script_int_eq_nil by lia. lia.
  - apply sign_schnorr_verify.
  - apply sign_schnorr_verify.
Qed.

Lemma legacy_data_control c k other i rs :
  isc_my_privkey c = Some k -> isc_my_pubkey c = Some (pubkey_of k) -> isc_other_pubkey c = Some other -> wf_pubkey other ->
  head (input (isc_contract_tx c)) = Some i ->
  isc_multisig_redeemscript c = Some (create_multisig_redeemscript (pubkey_of k) other) ->
  isc_contract_redeemscript c = Some rs ->
  read_hashlock_pubkey_from_contract rs = Ok (pubkey_of (isc_hashlock_privkey c)) ->
  exists d, legacy_data c = Ok d /\
    legacy_control d (0 :: 32 :: wscript_hash (create_multisig_redeemscript (pubkey_of k) other)) /\
    ldp_funding_outpoint d = previous_output i.
Proof.
  intros Hk Hpk Ho Hw Hi Hms Hrs Hread.
  unfold legacy_data, coin_privkey, coin_pubkey, coin_other_pubkey. rewrite Hi, Hk, Hrs, Hms, Hpk, Ho.
  eexists. split; [reflexivity|]. split; [|done]. unfold legacy_control.
  cbn [ldp_funding_outpoint ldp_htlc_redeemscript ldp_multisig_redeemscript ldp_pub_mine_multi ldp_pub_other_multi
       ldp_pub_mine_hashlock ldp_sig_multi ldp_sig_hashlock proof_ecdsa_sign sig_bytes sighash_type].
  destruct (multisig_redeemscript_roundtrip (pubkey_of k) other (own_pubkey_wf k) Hw) as (_ & Hr & _).
  split_and!; try done; [|apply ecdsa_sign_verify..]. rewrite Hr. unfold multisig_order. destruct (bytes_lt _ _); auto.
Qed.

(** C18: A round trip: the proof a wallet builds from a coin of a finished swap and its
    outgoing side is accepted against the output of that coin, in both protocols,
    and it names that output. *)
Theorem own_deniability_proof_verifies c o role now spk :
  proof_ready c spk ->
  exists p, proof_from_swapcoins (Some c) (Some o) role now = Some p /\ verify_proof p spk = Ok () /\
    Some (proven_outpoint p) = proof_outpoint c.
Proof.
  intros (id & k & other & Hid & Hne & Hk & Hpk & Ho & Hw & Hproto). unfold proof_from_swapcoins, from_incoming_swapcoin, proof_outpoint.
  cbn [mbind option_bind]. rewrite Hid. cbn [ok_or mbind outcome_bind]. destruct (isc_protocol c) eqn:Epr.
  - destruct Hproto as (i & rs & Hi & Hms & Hrs & Hread & ->).
    destruct (legacy_data_control c k other i rs) as (d & -> & Hc & Hop); try done. cbn.
    eexists. split; [reflexivity|]. split; [apply proof_accepted_iff; by split_and!|]. rewrite Hi. unfold proven_outpoint. cbn. by rewrite Hop.
  - destruct Hproto as (hash & lt & pk & ik & info & H1 & H2 & H3 & H4 & H5 & H6 & H7 & H8).
    destruct (taproot_data_control c spk k other hash lt pk ik info) as (d & -> & Hc & Hop); try done. cbn.
    eexists. split; [reflexivity|]. split; [apply proof_accepted_iff; by split_and!|]. exact Hop.
Qed.

(** Neither the swap, the role, the time nor the outgoing side is part of what is
    signed: an accepted proof stays accepted when they are replaced. *)
Lemma proof_is_not_bound_to_its_swap p spk id role out now :
  verify_proof p spk = Ok () -> id <> EmptyString ->
  verify_proof {| p with dp_swap_id := id; dp_role := role; dp_outgoing_swapcoin := Some out; dp_created_at := now |} spk = Ok ().
Proof. rewrite !proof_accepted_iff. intros (_ & _ & H) Hid. by split_and!. Qed.
End meaning.
#[local] Existing Instance Reference.lib.
#[local] Existing Instance Reference.laws.
#[local] Existing Instance TapReference.tap.
#[local] Existing Instance TapReference.tap_laws.

Module ProofSample.
#[export] Instance text : ProofText := {|
  outpoint_text o := [op_txid o; op_vout o];
  message_from_digest d := Reference.mix d;
|}.
Definition hashlock : Script := create_hashlock_script (sha256 (repeat 3 32)) (secret_key_xonly 12).
Definition timelock : Script := create_timelock_script 900 (secret_key_xonly 77).
Definition other : PublicKey := pubkey_of 22.
Definition internal_key : XOnlyPublicKey := match get_aggregated_pubkey_compat (point_from_secret_key 21) (inner other) with Ok k => k | _ => [] end.
Definition contract_spk : Script := match create_taproot_script hashlock timelock internal_key with Ok r => r.1 | _ => [] end.
Definition contract_tx : Transaction :=
  {| version := 2; lock_time := 0;
     input := [{| previous_output := {| op_txid := 5; op_vout := 0 |}; script_sig := []; sequence := 0; witness := [] |}];
     output := [{| value := 5000; script_pubkey := contract_spk |}] |}.
Definition coin : IncomingSwapCoin :=
  {| (isc_new_taproot 12 hashlock timelock contract_tx 5000) with
     isc_swap_id := Some "swap"; isc_my_privkey := Some 21; isc_my_pubkey := Some (pubkey_of 21);
     isc_other_pubkey := Some other; isc_internal_key := Some internal_key |}.
Definition outgoing : OutgoingSwapCoin := osc_new_taproot 13 hashlock timelock contract_tx 5000.
Abbreviation proof := (proof_from_swapcoins (Some coin) (Some outgoing) SR_Taker 7).
#[export] Instance chain : ProofChain () := {|
  pc_report _ := Ok match proof with Some p => [p] | None => [] end;
  pc_raw_transaction_info txid := mret (Some 3, [Some contract_spk]);
|}.
(** A proof whose multisig script is a single opcode. *)
Definition short : DeniabilityProof :=
  {| dp_swap_id := "x"; dp_role := SR_Maker; dp_protocol := Legacy; dp_outgoing_swapcoin := Some {| op_txid := 1; op_vout := 0 |};
     dp_proof := DPD_Legacy {| ldp_funding_outpoint := {| op_txid := 5; op_vout := 0 |}; ldp_htlc_redeemscript := [];
       ldp_multisig_redeemscript := [81]; ldp_pub_mine_multi := other; ldp_pub_other_multi := other;
       ldp_pub_mine_hashlock := other; ldp_sig_multi := proof_ecdsa_sign 1 1; ldp_sig_hashlock := proof_ecdsa_sign 1 1 |};
     dp_created_at := 0 |}.
End ProofSample.
Import (hints) ProofSample.

Lemma own_deniability_proof_verifies_witness : exists p, ProofSample.proof = Some p /\ verify_proof p ProofSample.contract_spk = Ok ().
Proof.
  destruct (own_deniability_proof_verifies ProofSample.coin ProofSample.outgoing SR_Taker 7 ProofSample.contract_spk)
    as (p & Hp & Hv & _).
  - exists "swap", 21, ProofSample.other. split; [reflexivity|]. split; [discriminate|]. split; [reflexivity|]. split; [reflexivity|].
    split; [reflexivity|]. split; [split; vm_compute; reflexivity|].
    exists (sha256 (repeat 3 32)), 900, (secret_key_xonly 77), ProofSample.internal_key. eexists.
    split; [reflexivity|]. split; [vm_compute; reflexivity|]. split; [reflexivity|]. split; [lia|]. split; [vm_compute; reflexivity|].
    split; [reflexivity|]. split; vm_compute; reflexivity.
  - exists p. split; [exact Hp|exact Hv].
Defined.

Lemma deniability_verdict_iff_witness : exists p spk, ProofSample.proof = Some p /\ shows_control p spk.
Proof.
  destruct (proj1 (deniability_verdict_iff "swap" ())) as (proofs & p & conf & vout & spk & Hr & Hf & _ & _ & _ & Hc);
    [vm_compute; reflexivity|].
  exists p, spk. split; [|exact Hc]. revert Hf. injection Hr as <-. destruct ProofSample.proof as [q|] eqn:E.
  - vm_compute in E. injection E as <-. intros Hf. vm_compute in Hf. injection Hf as <-. reflexivity.
  - vm_compute in E. discriminate E.
Defined.

(** A report with a multisig script too short to hold two keys stops the verifier
    with a panic, when the output of that script exists. *)
Lemma short_multisig_script_panics : verify_proof ProofSample.short (0 :: 32 :: wscript_hash [81]) = Panic.
Proof. vm_compute. reflexivity. Qed.
