(* ===== verification/AtRest.v ===== *)
(** Secrets at rest: src/security.rs, src/wallet/storage.rs and src/wallet/backup.rs,
    with the opening and creation of a wallet of src/wallet/api.rs.

    A wallet is kept as CBOR, encrypted under a key derived from the passphrase;
    the master key inside it is sealed once more, in memory too.  AES-GCM, PBKDF2
    and serde are the classes [Cipher] and [Wire]; the file system, with every
    step of a save that can fail, is the class [Disk]; the node and the seed
    phrase are the class [WalletNode]. *)
From Stdlib Require Import Ascii String.
From S2P Require Import Prelude Float64 Bitcoin Messages Contract Errors SwapCoin TaprootLib Taproot WatchRegistry Watcher TakerState WalletStore WalletUtxo.
#[local] Open Scope string_scope.
#[local] Open Scope list_scope.
#[local] Open Scope Z_scope.

(** ** Paths *)
Inductive Component := C_RootDir | C_CurDir | C_ParentDir | C_Normal (name : string).
#[global] Instance Component_eq_dec : EqDecision Component.
Proof. solve_decision. Defined.
Definition Path := list Component.

(** [Path::components] on Unix: repeated slashes and inner dots do not count. *)
Fixpoint components_of (first : bool) (chunks : list string) : Path :=
  match chunks with
  | [] => []
  | chunk :: chunks =>
      if (chunk =? EmptyString)%string then components_of false chunks
      else if (chunk =? ".")%string then (if first then [C_CurDir] else []) ++ components_of false chunks
      else if (chunk =? "..")%string then C_ParentDir :: components_of false chunks
      else C_Normal chunk :: components_of false chunks
  end.
Definition path_of (s : string) : Path :=
  match s with
  | String "/" _ => C_RootDir :: components_of false (split_on "/" s)
  | _ => components_of true (split_on "/" s)
  end.
Definition file_name (p : Path) : option string :=
  match last p with Some (C_Normal name) => Some name | _ => None end.
Definition path_parent (p : Path) : option Path :=
  match rev p with [] | [C_RootDir] => None | _ :: rest => Some (rev rest) end.
Definition path_join (p q : Path) : Path := match q with C_RootDir :: _ => q | _ => p ++ q end.

(** The part of a name before its last dot; a leading dot does not start an extension. *)
Fixpoint last_dot (i : nat) (s : string) : option nat :=
  match s with
  | EmptyString => None
  | String c s => match last_dot (S i) s with Some j => Some j | None => if Ascii.eqb c "." then Some i else None end
  end.
Definition file_stem (name : string) : string :=
  if (name =? "..")%string then name
  else match last_dot 0 name with None | Some O => name | Some i => substring 0 i name end.
Definition set_extension (ext : string) (p : Path) : Path :=
  match rev p with
  | C_Normal name :: rest => rev rest ++ [C_Normal (file_stem name ++ "." ++ ext)]
  | _ => p
  end.

(** ** security.rs *)
Inductive SecurityError :=
| SecE_Io (e : string)
| SecE_Format (e : string)
| SecE_Decryption
| SecE_Cbor (e : string)
| SecE_PasswordRequired.
Inductive EncryptError := EncE_Serialization (e : string) | EncE_Encryption.
Record KeyMaterial := { km_key : bytes; km_nonce : bytes; km_pbkdf2_salt : bytes }.
Record EncryptedData := { ed_nonce : bytes; ed_encrypted_payload : bytes; ed_pbkdf2_salt : bytes }.

(** [aes_encrypt key nonce plaintext]; [pbkdf2 password salt]. *)
Class Cipher := {
  aes_encrypt : bytes -> bytes -> bytes -> option bytes;
  aes_decrypt : bytes -> bytes -> bytes -> option bytes;
  pbkdf2 : string -> bytes -> bytes;
}.
Inductive CborError := TrailingData | OtherCbor.

(** What [serde] derives: reading and writing a type in a format. *)
Class Serde (A : Type) := {
  cbor_to_vec : A -> option bytes;
  cbor_from_slice : bytes -> A + CborError;
  json_to_string : A -> option bytes;
  json_from_slice : bytes -> option A;
}.

(** [utill::deserialize_from_cbor]: with trailing data, the longest prefix that reads. *)
Fixpoint try_prefixes {A} `{Serde A} (len : nat) (reader : bytes) : option A :=
  match len with
  | O => None
  | S len => match cbor_from_slice (take len reader) with inl a => Some a | inr _ => try_prefixes len reader end
  end.
Definition deserialize_from_cbor {A} `{Serde A} (reader : bytes) : option A :=
  match cbor_from_slice reader with
  | inl a => Some a
  | inr TrailingData => try_prefixes (length reader) reader
  | inr OtherCbor => None
  end.

(** [SerdeFormat]. *)
Inductive SerdeFormat := SerdeJson | SerdeCbor.
Definition from_slice {A} `{Serde A} (f : SerdeFormat) (input : bytes) : option A :=
  match f with SerdeJson => json_from_slice input | SerdeCbor => deserialize_from_cbor input end.

(** The file system and the system's randomness; every operation may fail. *)
Class Disk (D : Type) := {
  dk_read : Path -> D -> outcome string bytes;
  dk_exists : Path -> D -> bool;
  dk_is_dir : Path -> D -> bool;
  dk_create_dir_all : Path -> stateful D string ();
  dk_create_new : Path -> stateful D string ();
  (** [NamedTempFile]: created in a directory, written, synced, renamed. *)
  dk_tempfile : Path -> stateful D string nat;
  dk_write_tmp : nat -> bytes -> stateful D string ();
  dk_sync_tmp : nat -> stateful D string ();
  dk_persist : nat -> Path -> stateful D string ();
  dk_sync_dir : Path -> stateful D string ();
  dk_random : Z -> D -> bytes * D;
  (** [prompt_password] and the working directory. *)
  dk_prompt : string -> stateful D string string;
  dk_current_dir : D -> outcome string Path;
}.

Section security.
Context {cipher : Cipher} {D : Type} {disk : Disk D}.

Definition random_bytes {E} (n : Z) : stateful D E bytes := fun d => let '(b, d) := dk_random n d in (Ok b, d).

Definition new_from_password (enc_password : option string) : stateful D WalletError (option KeyMaterial) :=
  match enc_password with
  | None => mret None
  | Some pwd =>
      salt ← random_bytes 16;
      nonce ← random_bytes 12;
      mret (Some {| km_key := pbkdf2 pwd salt; km_nonce := nonce; km_pbkdf2_salt := salt |})
  end.
(** An empty passphrase is none. *)
Definition new_interactive (prompt : option string) : stateful D string (option KeyMaterial) :=
  pwd ← dk_prompt (default "Enter new encryption passphrase: " prompt);
  if (pwd =? EmptyString)%string then mret None
  else
    salt ← random_bytes 16;
    nonce ← random_bytes 12;
    mret (Some {| km_key := pbkdf2 pwd salt; km_nonce := nonce; km_pbkdf2_salt := salt |}).
Definition existing (password : string) (nonce salt : bytes) : KeyMaterial :=
  {| km_key := pbkdf2 password salt; km_nonce := nonce; km_pbkdf2_salt := salt |}.

(** [plain] is the CBOR of the struct; the nonce is always fresh. *)
Definition encrypt_struct (plain : option bytes) (enc_material : KeyMaterial) : stateful D EncryptError EncryptedData :=
  packed_store ← lift (ok_or plain (EncE_Serialization "cbor"));
  nonce ← random_bytes 12;
  encrypted_payload ← lift (ok_or (aes_encrypt (km_key enc_material) nonce packed_store) EncE_Encryption);
  mret {| ed_nonce := nonce; ed_encrypted_payload := encrypted_payload; ed_pbkdf2_salt := km_pbkdf2_salt enc_material |}.
Definition decrypt_struct {A} `{Serde A} (encrypted : EncryptedData) (enc_material : KeyMaterial) : outcome SecurityError A :=
  plaintext_cbor ← ok_or (aes_decrypt (km_key enc_material) (ed_nonce encrypted) (ed_encrypted_payload encrypted)) SecE_Decryption;
  ok_or (deserialize_from_cbor plaintext_cbor) (SecE_Cbor "cbor").

Definition open_encrypted {A} `{Serde A} (encrypted : EncryptedData) (password : string) : outcome SecurityError (A * option KeyMaterial) :=
  let enc_material := existing password (ed_nonce encrypted) (ed_pbkdf2_salt encrypted) in
  decrypted ← decrypt_struct encrypted enc_material;
  Ok (decrypted, Some enc_material).
Definition load_sensitive_struct {A} `{Serde A} `{Serde EncryptedData} (f : SerdeFormat) (file : Path) (password : option string) (d : D)
    : outcome SecurityError (A * option KeyMaterial) :=
  content ← map_err SecE_Io (dk_read file d);
  let encrypted := from_slice (A := EncryptedData) f content in
  match password with
  | Some (String c pwd) =>
      encrypted ← ok_or encrypted (SecE_Format "expected encrypted file {file:?} because a password was supplied: {err}");
      open_encrypted encrypted (String c pwd)
  | _ =>
      match from_slice (A := A) f content with
      | Some unencrypted => Ok (unencrypted, None)
      | None =>
          encrypted ← ok_or encrypted (SecE_Format "failed to deserialize file {file:?}; as plaintext: {unencrypted_err}; as encrypted: {encrypted_err}");
          pwd ← ok_or password SecE_PasswordRequired;
          open_encrypted encrypted pwd
      end
  end.
End security.

(** ** storage.rs *)
Abbreviation Xpriv := bytes.
Inductive MasterKey := MK_Plaintext (xpriv : Xpriv) | MK_Sealed (data : EncryptedData).

(** The stored form of a wallet: what [WalletStore] of the other files leaves out,
    and the records. *)
Record StoredWallet := {
  sw_file_name : string;
  sw_network : Network;
  sw_master_key : MasterKey;
  sw_last_synced_height : option Z;
  sw_wallet_birthday : option Z;
  sw_records : WalletStore;
}.
Record WalletBackup := {
  wb_network : Network;
  wb_master_key : Xpriv;
  wb_wallet_birthday : option Z;
  wb_file_name : string;
}.

(** Reading and writing of the types on disk.  A store is written with the sealed
    blob in the place of its master key. *)
Class Wire := {
  wire_encrypted :: Serde EncryptedData;
  wire_xpriv :: Serde Xpriv;
  wire_backup :: Serde WalletBackup;
  store_to_vec : StoredWallet -> EncryptedData -> option bytes;
  store_from_slice : bytes -> StoredWallet + CborError;
}.
(** [Serialize for MasterKey]: a plaintext key is an error. *)
Definition wire_store `{Wire} : Serde StoredWallet := {|
  cbor_to_vec s := match sw_master_key s with MK_Sealed data => store_to_vec s data | MK_Plaintext _ => None end;
  cbor_from_slice := store_from_slice;
  json_to_string _ := None;
  json_from_slice _ := None;
|}.
#[global] Existing Instance wire_store.

(** The blockchain backend, the seed phrase and the rest of the wallet. *)
Class WalletNode (D : Type) := {
  bk_core_wallet_name : D -> option string;
  bk_chain : stateful D WalletError Network;
  bk_block_count : stateful D WalletError Z;
  bk_generate_mnemonic : stateful D WalletError string;
  bk_master_key_from_mnemonic : string -> Network -> outcome WalletError Xpriv;
}.

Record OpenWallet := {
  ow_wallet_file_path : Path;
  ow_store : StoredWallet;
  ow_store_enc_material : KeyMaterial;
  ow_new_mnemonic : option string;
  ow_restore_scan : bool;
}.

#[global] Instance Network_eq_dec : EqDecision Network.
Proof. solve_decision. Defined.

Section storage.
Context {cipher : Cipher} {wire : Wire} {D : Type} {disk : Disk D} {node : WalletNode D}.
Abbreviation op := (stateful D WalletError).

Definition io {A} (m : stateful D string A) : op A := fun d => let '(r, d) := m d in (map_err WE_IO r, d).
Definition encrypting {A} (msg : string) (m : stateful D EncryptError A) : op A :=
  fun d => let '(r, d) := m d in (map_err (fun _ => WE_General msg) r, d).

(** [MasterKey]. *)
Definition seal (key : KeyMaterial) (mk : MasterKey) : op MasterKey :=
  match mk with
  | MK_Plaintext xpriv => data ← encrypting "master key sealing failed: {e:?}" (encrypt_struct (cbor_to_vec xpriv) key); mret (MK_Sealed data)
  | MK_Sealed _ => mret mk
  end.
Definition with_unlocked {A} (mk : MasterKey) (key : KeyMaterial) (f : Xpriv -> outcome WalletError A) : outcome WalletError A :=
  match mk with
  | MK_Plaintext xpriv => f xpriv
  | MK_Sealed data => xpriv ← map_err (fun _ => WE_Security "decryption failed") (decrypt_struct data key); f xpriv
  end.
Definition plaintext_with (mk : MasterKey) (key : KeyMaterial) : option Xpriv :=
  match mk with
  | MK_Plaintext xpriv => Some xpriv
  | MK_Sealed data => match decrypt_struct data key with Ok xpriv => Some xpriv | _ => None end
  end.

(** A save: a temporary file in the same directory, synced and renamed over the
    target.  What is written is serialised once the temporary file is there. *)
Definition replace_file (path : Path) (content : outcome WalletError bytes) : op () :=
  let parent := default [C_CurDir] (path_parent path) in
  tmp ← io (dk_tempfile parent);
  content ← lift content;
  _ ← io (dk_write_tmp tmp content);
  _ ← io (dk_sync_tmp tmp);
  _ ← io (dk_persist tmp path);
  io (dk_sync_dir parent).
Definition make_parent (path : Path) : op () :=
  match path_parent path with Some parent => io (dk_create_dir_all parent) | None => mret () end.
Definition write_to_disk (path : Path) (store_enc_material : KeyMaterial) (store : StoredWallet) : op () :=
  _ ← make_parent path;
  encrypted ← encrypting "wallet store encryption failed: {e:?}" (encrypt_struct (cbor_to_vec store) store_enc_material);
  replace_file path (ok_or (cbor_to_vec encrypted) (WE_Cbor "cbor")).
Definition read_from_disk (path : Path) (password : option string) (d : D) : outcome SecurityError (StoredWallet * option KeyMaterial) :=
  load_sensitive_struct SerdeCbor path password d.

Definition store_init (name : string) (path : Path) (network : Network) (master_key : Xpriv) (wallet_birthday : option Z)
    (store_enc_material : KeyMaterial) : op StoredWallet :=
  mk ← seal store_enc_material (MK_Plaintext master_key);
  let store := {| sw_file_name := name; sw_network := network; sw_master_key := mk; sw_last_synced_height := None;
                  sw_wallet_birthday := wallet_birthday; sw_records := WalletStore_init |} in
  _ ← make_parent path;
  _ ← io (dk_create_new path);
  _ ← write_to_disk path store_enc_material store;
  mret store.

(** ** Opening a wallet *)
Definition ow_save_to_disk (w : OpenWallet) : op () := write_to_disk (ow_wallet_file_path w) (ow_store_enc_material w) (ow_store w).
Definition seal_master_key (w : OpenWallet) : op OpenWallet :=
  mk ← seal (ow_store_enc_material w) (sw_master_key (ow_store w));
  mret {| w with ow_store := {| (ow_store w) with sw_master_key := mk |} |}.
Definition with_master_key {A} (w : OpenWallet) (f : Xpriv -> outcome WalletError A) : outcome WalletError A :=
  with_unlocked (sw_master_key (ow_store w)) (ow_store_enc_material w) f.

Definition wallet_init (path : Path) (store_enc_material : KeyMaterial) : op OpenWallet :=
  network ← bk_chain;
  mnemonic ← bk_generate_mnemonic;
  master_key ← lift (bk_master_key_from_mnemonic mnemonic network);
  name ← lift (ok_or (file_name path) (WE_General "wallet path has no valid UTF-8 file name"));
  wallet_birthday ← bk_block_count;
  store ← store_init name path network master_key (Some wallet_birthday) store_enc_material;
  mret {| ow_wallet_file_path := path; ow_store := store; ow_store_enc_material := store_enc_material;
          ow_new_mnemonic := Some mnemonic; ow_restore_scan := false |}.

(** [password.filter(|p| !p.is_empty())]. *)
Definition nonempty (password : option string) : option string :=
  match password with Some EmptyString => None | _ => password end.
Definition opened (r : outcome SecurityError (StoredWallet * option KeyMaterial)) : outcome WalletError (StoredWallet * KeyMaterial) :=
  match r with
  | Ok (store, Some material) => Ok (store, material)
  | Ok (_, None) => Err (WE_General "wallet file {path:?} is unencrypted; cleartext wallet files are not supported")
  | Err SecE_PasswordRequired => Err (WE_General "wallet file {path:?} is encrypted; provide the wallet passphrase via -p/--password")
  | Err _ => Err (WE_Security "{e}")
  | Panic => Panic
  end.
Definition wallet_load (path : Path) (password : option string) : op OpenWallet :=
  d ← gets (fun d => d);
  '(store, material) ← lift (opened (read_from_disk path (nonempty password) d));
  _ ← lift match bk_core_wallet_name d with
           | Some name => reject (negb (name =? sw_file_name store)%string)
               (WE_General "Wallet name of database file and core mismatch, expected {}, found {}")
           | None => Ok ()
           end;
  network ← bk_chain;
  _ ← lift (reject (bool_decide (sw_network store <> network)) (WE_General "Wrong Bitcoin Network"));
  seal_master_key {| ow_wallet_file_path := path; ow_store := store; ow_store_enc_material := material;
                     ow_new_mnemonic := None; ow_restore_scan := false |}.
Definition load_or_init (path : Path) (password : option string) : op OpenWallet :=
  here ← gets (dk_exists path);
  if (here : bool) then wallet_load path password
  else
    pwd ← lift (ok_or (nonempty password)
           (WE_General "a passphrase is required to create a wallet; cleartext wallet files are not supported"));
    material ← new_from_password (Some pwd);
    material ← lift (expect material);
    wallet_init path material.

(** ** backup.rs *)
Definition backup_of (w : OpenWallet) : outcome WalletError WalletBackup :=
  match with_master_key w (fun master_key => Ok master_key) with
  | Ok master_key => Ok {| wb_network := sw_network (ow_store w); wb_master_key := master_key;
                           wb_wallet_birthday := sw_wallet_birthday (ow_store w); wb_file_name := sw_file_name (ow_store w) |}
  | _ => Panic
  end.
Definition backup (w : OpenWallet) (path : Path) (backup_enc_material : KeyMaterial) : op () :=
  let backup_path := set_extension "json" path in
  b ← lift (backup_of w);
  encrypted ← encrypting "wallet backup encryption failed: {e:?}" (encrypt_struct (cbor_to_vec b) backup_enc_material);
  content ← lift (ok_or (json_to_string encrypted) (WE_Json "json"));
  replace_file backup_path (Ok content).
Definition backup_interactive (w : OpenWallet) : op () :=
  let backup_name := (sw_file_name (ow_store w) ++ "-backup")%string in
  here ← gets dk_current_dir;
  working_directory ← lift (map_err (fun _ => WE_General "failed to get current directory: {e}") here);
  material ← (fun d => let '(r, d) := new_interactive None d in (map_err (fun _ => WE_General "encryption passphrase prompt failed: {e}") r, d));
  material ← lift (ok_or material (WE_General "wallet backup failed: a passphrase is required; cleartext backups are not supported"));
  backup w (path_join working_directory (path_of backup_name)) material.

(** Where a backup is restored: below a directory under the backup's own name, which
    has to be a single normal component. *)
Definition restore_path (b : WalletBackup) (wallet_path : Path) (d : D) : outcome WalletError Path :=
  if bool_decide (file_name wallet_path = None) || dk_is_dir wallet_path d then
    match path_of (wb_file_name b) with
    | [C_Normal _] => Ok (path_join wallet_path (path_of (wb_file_name b)))
    | _ => Err (WE_General "backup file name {:?} is not a plain file name")
    end
  else Ok wallet_path.

(** [sync_no_fail], a parameter, is the synchronisation with the node. *)
Definition sync_and_save (sync_no_fail : OpenWallet -> op OpenWallet) (w : OpenWallet) : op OpenWallet :=
  w ← sync_no_fail w;
  _ ← ow_save_to_disk w;
  mret w.
Definition restore (sync_no_fail : OpenWallet -> op OpenWallet) (b : WalletBackup) (wallet_path : Path) (material : KeyMaterial) : op OpenWallet :=
  path ← (fun d => (restore_path b wallet_path d, d));
  here ← gets (dk_exists path);
  _ ← lift (reject here (WE_General "a wallet already exists at {wallet_path:?}; refusing to overwrite it"));
  let name := default (wb_file_name b) (file_name path) in
  chain ← bk_chain;
  _ ← lift (reject (bool_decide (chain <> wb_network b)) (WE_General "backend chain `{chain}` does not match backup network `{}`"));
  store ← store_init name path (wb_network b) (wb_master_key b) (wb_wallet_birthday b) material;
  w ← seal_master_key {| ow_wallet_file_path := path; ow_store := store; ow_store_enc_material := material;
                         ow_new_mnemonic := None; ow_restore_scan := true |};
  w ← sync_and_save sync_no_fail w;
  mret {| w with ow_restore_scan := false |}.

Definition restore_from_mnemonic (sync_no_fail : OpenWallet -> op OpenWallet) (mnemonic : string) (wallet_path : Path) (wallet_birthday : option Z)
    (material : KeyMaterial) : op OpenWallet :=
  network ← bk_chain;
  let name := default EmptyString (file_name wallet_path) in
  master_key ← lift (bk_master_key_from_mnemonic mnemonic network);
  restore sync_no_fail {| wb_network := network; wb_master_key := master_key; wb_wallet_birthday := wallet_birthday; wb_file_name := name |}
    wallet_path material.

Definition backup_failed {A} (r : outcome SecurityError A) : outcome WalletError A := map_err (fun _ => WE_General "wallet backup load failed: {err}") r.
Definition load_backup (path : Path) : op WalletBackup :=
  d ← gets (fun d => d);
  match load_sensitive_struct (A := WalletBackup) SerdeJson path None d with
  | Ok (_, None) => lift (Err (WE_General "wallet backup {backup_file_path:?} is unencrypted; cleartext backups are not supported"))
  | Ok (b, Some _) => mret b
  | Err SecE_PasswordRequired =>
      password ← (fun d => let '(r, d) := dk_prompt "Enter encryption passphrase: " d in (map_err (fun _ => WE_General "failed to read passphrase: {e}") r, d));
      d ← gets (fun d => d);
      r ← lift (backup_failed (load_sensitive_struct (A := WalletBackup) SerdeJson path (Some password) d));
      mret r.1
  | Err e => lift (Err (WE_General "wallet backup load failed: {err}"))
  | Panic => lift Panic
  end.
Definition restore_interactive (sync_no_fail : OpenWallet -> op OpenWallet) (backup_file_path restored_path : Path) : op () :=
  b ← load_backup backup_file_path;
  material ← (fun d => let '(r, d) := new_interactive (Some "Enter restored wallet encryption passphrase: ") d in
                       (map_err (fun _ => WE_General "encryption passphrase prompt failed: {e}") r, d));
  material ← lift (ok_or material (WE_General "wallet restore failed: a passphrase is required; cleartext wallet files are not supported"));
  _ ← restore sync_no_fail b restored_path material;
  mret ().
End storage.
