(* ===== verification/AtRestSafety.v ===== *)
(** What is kept at rest: wallet files are replaced whole or not at all, hold only
    sealed keys, and open again with their passphrase; restoring overwrites nothing. *)
From Stdlib Require Import Ascii String.
From S2P Require Import Prelude Float64 Bitcoin Messages Contract Errors SwapCoin TaprootLib Taproot WatchRegistry Watcher TakerState WalletStore WalletUtxo TakerSteps AtRest.
#[local] Open Scope string_scope.
#[local] Open Scope list_scope.
#[local] Open Scope Z_scope.

(** AES-GCM decrypts what it encrypted, and nothing under another key. *)
Class CipherLaws (cipher : Cipher) : Prop := {
  aes_round_trip k n p c : aes_encrypt k n p = Some c -> aes_decrypt k n c = Some p;
  aes_authentic k k' n p c : aes_encrypt k n p = Some c -> k' <> k -> aes_decrypt k' n c = None;
}.
(** Serde reads back what it wrote, and does not take an encrypted file for a
    wallet or a backup. *)
Class WireLaws (wire : Wire) : Prop := {
  encrypted_cbor (e : EncryptedData) b : cbor_to_vec e = Some b -> cbor_from_slice b = inl e;
  encrypted_json (e : EncryptedData) b : json_to_string e = Some b -> json_from_slice b = Some e;
  xpriv_cbor (x : Xpriv) b : cbor_to_vec x = Some b -> cbor_from_slice b = inl x;
  backup_cbor (x : WalletBackup) b : cbor_to_vec x = Some b -> cbor_from_slice b = inl x;
  store_cbor s data b : store_to_vec s data = Some b -> store_from_slice b = inl {| s with sw_master_key := MK_Sealed data |};
  encrypted_is_no_store (e : EncryptedData) b : cbor_to_vec e = Some b -> store_from_slice b = inr OtherCbor;
  encrypted_is_no_backup (e : EncryptedData) b : json_to_string e = Some b -> json_from_slice (A := WalletBackup) b = None;
}.

(** The contents of the disk. *)
Definition files `{Disk D} (d : D) (p : Path) : option bytes := match dk_read p d with Ok b => Some b | _ => None end.
(** Temporary files have names of their own; only a rename and an exclusive creation
    change a named file. *)
Class DiskLaws {D} (disk : Disk D) := {
  is_temp : Path -> bool;
  temp_content : D -> nat -> bytes;
  same_files (d d' : D) : Prop := forall p, is_temp p = false -> files d' p = files d p;
  keeps {E A} (m : stateful D E A) : Prop := forall d, same_files d (m d).2;
  create_dir_keeps p : keeps (dk_create_dir_all p);
  tempfile_keeps p : keeps (dk_tempfile p);
  write_keeps t c : keeps (dk_write_tmp t c);
  sync_tmp_keeps t : keeps (dk_sync_tmp t);
  sync_dir_keeps p : keeps (dk_sync_dir p);
  prompt_keeps s : keeps (dk_prompt s);
  random_keeps n d : same_files d (dk_random n d).2;
  write_content t c d u d' : dk_write_tmp t c d = (Ok u, d') -> temp_content d' t = c;
  sync_content t d : temp_content (dk_sync_tmp t d).2 t = temp_content d t;
  persist_Ok t p d u d' : dk_persist t p d = (Ok u, d') ->
    files d' p = Some (temp_content d t) /\ forall q, q <> p -> is_temp q = false -> files d' q = files d q;
  persist_failed t p d : (forall u, (dk_persist t p d).1 <> Ok u) -> same_files d (dk_persist t p d).2;
  create_new_Ok p d u d' : dk_create_new p d = (Ok u, d') ->
    dk_exists p d = false /\ files d' p = Some [] /\ forall q, q <> p -> is_temp q = false -> files d' q = files d q;
  create_new_failed p d : (forall u, (dk_create_new p d).1 <> Ok u) -> same_files d (dk_create_new p d).2;
  existing_file p d b : files d p = Some b -> dk_exists p d = true;
}.
(** Talking to the node changes no file. *)
Class WalletNodeLaws {D} {disk : Disk D} (dl : DiskLaws disk) (node : WalletNode D) : Prop := {
  chain_keeps : keeps bk_chain;
  block_count_keeps : keeps bk_block_count;
  mnemonic_keeps : keeps bk_generate_mnemonic;
}.

Section files.
Context {cipher : Cipher} {cl : CipherLaws cipher} {wire : Wire} {wl : WireLaws wire}.
Context {D : Type} {disk : Disk D} {dl : DiskLaws disk}.
Implicit Types d : D.

#[local] Instance same_files_preorder : PreOrder same_files.
Proof. split; [by intros d p|]. intros d1 d2 d3 H1 H2 p Hp. by rewrite H2, H1. Qed.
#[local] Hint Extern 1 (PreOrder same_files) => apply same_files_preorder : steps.

Lemma io_keeps {A} (m : stateful D string A) : keeps m -> steps same_files (io m).
Proof. intros H d. specialize (H d). unfold io. by destruct (m d). Qed.
Lemma encrypting_keeps {A} msg (m : stateful D EncryptError A) : steps same_files m -> steps same_files (encrypting msg m).
Proof. intros H d. specialize (H d). unfold encrypting. by destruct (m d). Qed.
Lemma random_bytes_keeps {E} n : steps same_files (random_bytes (E := E) n).
Proof. intros d. pose proof (random_keeps n d) as H. unfold random_bytes. by destruct (dk_random n d). Qed.
#[local] Hint Resolve io_keeps encrypting_keeps random_bytes_keeps create_dir_keeps tempfile_keeps write_keeps sync_tmp_keeps sync_dir_keeps : steps.
Lemma encrypt_keeps plain m : steps same_files (encrypt_struct (D := D) plain m).
Proof. unfold encrypt_struct. take_steps. Qed.
#[local] Hint Resolve encrypt_keeps : steps.
Lemma seal_keeps m mk : steps same_files (seal (D := D) m mk).
Proof. unfold seal. take_steps. Qed.
Lemma make_parent_keeps p : steps same_files (make_parent (D := D) p).
Proof. unfold make_parent. take_steps. Qed.

(** One named file is replaced by one of the contents allowed, or stays; the others
    stay. *)
Definition at_most (path : Path) (allowed : bytes -> Prop) d d' : Prop :=
  (forall p, p <> path -> is_temp p = false -> files d' p = files d p) /\
  (files d' path = files d path \/ exists b, files d' path = Some b /\ allowed b).
Lemma same_files_at_most path allowed d d' : is_temp path = false -> same_files d d' -> at_most path allowed d d'.
Proof. intros Hp H. split; [intros p _ Ht; by apply H|left; by apply H]. Qed.
Lemma at_most_trans path allowed d1 d2 d3 : at_most path allowed d1 d2 -> at_most path allowed d2 d3 -> at_most path allowed d1 d3.
Proof.
  intros [H1 H2] [H3 H4]. split; [intros p Hp Ht; by rewrite H3, H1|].
  destruct H4 as [->|H4]; [done|by right].
Qed.
#[local] Instance at_most_preorder path allowed : PreOrder (at_most path allowed).
Proof. split; [intros d; split; [done|by left]|]. intros ? ? ?. apply at_most_trans. Qed.
Lemma steps_at_most {E A} path allowed (m : stateful D E A) : is_temp path = false -> steps same_files m -> steps (at_most path allowed) m.
Proof. intros Hp H d. by apply same_files_at_most. Qed.

Lemma io_same {A} (m : stateful D string A) d r d' : keeps m -> io m d = (r, d') -> same_files d d'.
Proof. intros Hm E. specialize (Hm d). unfold io in E. destruct (m d). by injection E as <- <-. Qed.
Lemma write_io_content t content d r d' : io (dk_write_tmp t content) d = (Ok r, d') -> temp_content d' t = content.
Proof. unfold io. destruct (dk_write_tmp t content d) as [[[]|e|] dx] eqn:Ew; try done. intros [= <- <-]. by eapply write_content. Qed.
Lemma sync_io_content t d r d' : io (dk_sync_tmp t) d = (r, d') -> temp_content d' t = temp_content d t.
Proof. unfold io. pose proof (sync_content t d) as Hs. destruct (dk_sync_tmp t d). by intros [= <- <-]. Qed.
(** The rename: the whole content of the temporary file, or nothing. *)
Lemma persist_io_spec t path d r d' :
  is_temp path = false -> io (dk_persist t path) d = (r, d') ->
  at_most path (eq (temp_content d t)) d d' /\ (r = Ok () -> files d' path = Some (temp_content d t)) /\
  ((forall u, r <> Ok u) -> same_files d d').
Proof.
  intros Hp. unfold io. pose proof (persist_failed t path d) as Hf.
  destruct (dk_persist t path d) as [[[]|e|] dx] eqn:Ep; intros [= <- <-]; cbn in Hf.
  - apply persist_Ok in Ep as [Hc Ho]. split_and!; [split; [done|right; eauto]|done|]. intros H. by destruct (H ()).
  - specialize (Hf ltac:(done)). split_and!; [by apply same_files_at_most|done|done].
  - specialize (Hf ltac:(done)). split_and!; [by apply same_files_at_most|done|done].
Qed.
(** Which steps of a save matter: the content of the temporary file at the rename. *)
Lemma replace_file_spec path content d r d' :
  is_temp path = false -> replace_file path (Ok content) d = (r, d') ->
  at_most path (eq content) d d' /\ (r = Ok () -> files d' path = Some content).
Proof.
  intros Hp. unfold replace_file. set (parent := default _ _).
  unfold mbind at 1, stateful_bind. destruct (io (dk_tempfile parent) d) as [r1 d1] eqn:E1. apply io_same in E1; [|apply tempfile_keeps].
  destruct r1 as [t|e|]; [|intros [= <- <-]; split; [by apply same_files_at_most|done]..].
  unfold lift, mbind at 1, stateful_bind. unfold mbind at 1, stateful_bind. destruct (io (dk_write_tmp t content) d1) as [r2 d2] eqn:E2.
  apply io_same in E2 as K2; [|apply write_keeps].
  destruct r2 as [[]|e|]; [apply write_io_content in E2|intros [= <- <-]; split; [apply same_files_at_most; [done|by etrans]|done]..].
  unfold mbind at 1, stateful_bind. destruct (io (dk_sync_tmp t) d2) as [r3 d3] eqn:E3. apply io_same in E3 as K3; [|apply sync_tmp_keeps].
  assert (same_files d d3) as K by (by do 2 (etrans; [eassumption|])).
  destruct r3 as [[]|e|]; [|intros [= <- <-]; split; [by apply same_files_at_most|done]..].
  apply sync_io_content in E3. rewrite E2 in E3.
  unfold mbind at 1, stateful_bind. destruct (io (dk_persist t path) d3) as [r4 d4] eqn:E4.
  apply persist_io_spec in E4 as (Ha & Hok & _); [|done]. rewrite E3 in Ha, Hok.
  apply (same_files_at_most path (eq content)) in K; [|done].
  destruct r4 as [[]|e|]; [|intros [= <- <-]; split; [by etrans|done]..].
  intros E5. apply io_same in E5; [|apply sync_dir_keeps]. split; [|intros _; rewrite E5; auto].
  etrans; [exact K|]. etrans; [exact Ha|]. by apply same_files_at_most.
Qed.
Lemma replace_file_fails path e d r d' :
  replace_file path (Err e) d = (r, d') -> same_files d d' /\ r <> Ok ().
Proof.
  unfold replace_file. unfold mbind at 1, stateful_bind. destruct (io (dk_tempfile _) d) as [r1 d1] eqn:E1.
  apply io_same in E1; [|apply tempfile_keeps]. by destruct r1; intros [= <- <-].
Qed.

(** ** The wallet file *)
(** A wallet file: the encryption, under the wallet's key and with its salt, of a
    store whose master key is sealed. *)
Definition wallet_file (m : KeyMaterial) (store : StoredWallet) (b : bytes) : Prop :=
  exists data plain nonce payload, sw_master_key store = MK_Sealed data /\ store_to_vec store data = Some plain /\
    aes_encrypt (km_key m) nonce plain = Some payload /\
    cbor_to_vec {| ed_nonce := nonce; ed_encrypted_payload := payload; ed_pbkdf2_salt := km_pbkdf2_salt m |} = Some b.

Lemma encrypting_Ok {A} msg (m : stateful D EncryptError A) d a d' : encrypting msg m d = (Ok a, d') -> m d = (Ok a, d').
Proof. unfold encrypting. destruct (m d) as [[]]; by intros [= <- <-]. Qed.
Lemma encrypt_struct_Ok plain m d e d' :
  encrypt_struct plain m d = (Ok e, d') ->
  exists p, plain = Some p /\ aes_encrypt (km_key m) (ed_nonce e) p = Some (ed_encrypted_payload e) /\ ed_pbkdf2_salt e = km_pbkdf2_salt m.
Proof.
  unfold encrypt_struct, random_bytes, mbind, stateful_bind, lift. destruct plain as [p|]; [cbn|done].
  destruct (dk_random 12 d) as [nonce dx]. destruct (aes_encrypt (km_key m) nonce p) as [c|] eqn:E; cbn; [|done].
  intros [= <- <-]. eauto.
Qed.
Lemma store_encryption_is_sealed m store d e d' b :
  encrypt_struct (cbor_to_vec store) m d = (Ok e, d') -> cbor_to_vec e = Some b -> wallet_file m store b.
Proof.
  intros (p & Hp & Hc & Hs)%encrypt_struct_Ok Hb. cbn in Hp. destruct (sw_master_key store) as [x|data] eqn:Hk; [done|].
  exists data, p, (ed_nonce e), (ed_encrypted_payload e). rewrite <- Hs. by destruct e.
Qed.

(** The two ways a save can go: it stops before the rename, or renames a sealed file. *)
Lemma write_to_disk_cases path m store d r d' :
  is_temp path = false -> write_to_disk path m store d = (r, d') ->
  (same_files d d' /\ r <> Ok ()) \/
  exists b, wallet_file m store b /\ at_most path (eq b) d d' /\ (r = Ok () -> files d' path = Some b).
Proof.
  intros Hp. unfold write_to_disk, mbind, stateful_bind.
  pose proof (make_parent_keeps path d) as K1. destruct (make_parent path d) as [[[]|e|] d1]; cbn in K1; [|intros [= <- <-]; by left..].
  pose proof (encrypting_keeps "wallet store encryption failed: {e:?}" _ (encrypt_keeps (cbor_to_vec store) m) d1) as K2.
  destruct (encrypting _ _ d1) as [[enc|e|] d2] eqn:E2; cbn in K2; [|intros [= <- <-]; left; split; [by etrans|done]..].
  apply encrypting_Ok in E2. destruct (cbor_to_vec enc) as [b|] eqn:Hb; cbn [ok_or].
  - intros E3. apply replace_file_spec in E3 as [Ha Hok]; [|done]. right. exists b.
    split_and!; [by eapply store_encryption_is_sealed| |done].
    etrans; [|exact Ha]. apply same_files_at_most; [done|]. by etrans.
  - intros [Hs Hr]%replace_file_fails. left; split; [by do 2 (etrans; [eassumption|])|done].
Qed.

(** C15: Saving a wallet is all or nothing and never writes a plaintext key: whatever
    step of the save fails, no other file changes and the wallet file either stays
    as it was or becomes, whole, an encryption under the wallet's key of the store
    with its master key sealed; a save that succeeds has written the latter; and a
    store whose master key is in the clear is refused before any file changes. *)
Theorem wallet_file_is_atomic_and_sealed path m store d r d' :
  is_temp path = false -> write_to_disk path m store d = (r, d') ->
  at_most path (wallet_file m store) d d' /\
  (r = Ok () -> exists b, files d' path = Some b /\ wallet_file m store b) /\
  (forall xpriv, sw_master_key store = MK_Plaintext xpriv -> r <> Ok () /\ same_files d d').
Proof.
  intros Hp [[Hs Hr]|(b & Hb & [Ho Ha] & Hok)]%write_to_disk_cases; [|..|done];
    [split_and!; [by apply same_files_at_most|done|done]|].
  split_and!; [split; [done|destruct Ha as [?|(? & ? & <-)]; [by left|right; eauto]]|intros H; eauto|].
  intros x Hx. destruct Hb as (? & ? & ? & ? & Hk & _). congruence.
Qed.

(** ** Opening what was saved *)
Lemma read_files path d b : files d path = Some b -> dk_read path d = Ok b.
Proof. unfold files. by destruct (dk_read path d); intros [= ->]. Qed.
Lemma cbor_reads {A} `{Serde A} b (a : A) : cbor_from_slice b = inl a -> deserialize_from_cbor b = Some a.
Proof. unfold deserialize_from_cbor. by intros ->. Qed.
Definition key_of (m : KeyMaterial) (pwd : string) : Prop := pbkdf2 pwd (km_pbkdf2_salt m) = km_key m.

Lemma open_with_key {A} `{Serde A} (a : A) (plain : bytes) m e pwd :
  cbor_from_slice plain = inl a -> aes_encrypt (km_key m) (ed_nonce e) plain = Some (ed_encrypted_payload e) ->
  ed_pbkdf2_salt e = km_pbkdf2_salt m -> key_of m pwd ->
  open_encrypted e pwd = Ok (a, Some {| km_key := km_key m; km_nonce := ed_nonce e; km_pbkdf2_salt := km_pbkdf2_salt m |}).
Proof.
  intros Ha He Hs Hk. unfold key_of in Hk. unfold open_encrypted, decrypt_struct, existing. cbn. rewrite Hs, Hk. apply aes_round_trip in He. rewrite He. cbn.
  by rewrite (cbor_reads _ _ Ha).
Qed.
Lemma open_with_another_key {A} `{Serde A} (plain : bytes) m e pwd :
  aes_encrypt (km_key m) (ed_nonce e) plain = Some (ed_encrypted_payload e) ->
  ed_pbkdf2_salt e = km_pbkdf2_salt m -> ~ key_of m pwd -> open_encrypted (A := A) e pwd = Err SecE_Decryption.
Proof.
  intros He Hs Hk. unfold open_encrypted, decrypt_struct, existing. cbn. rewrite Hs.
  rewrite (aes_authentic _ (pbkdf2 pwd (km_pbkdf2_salt m)) _ _ _ He); [done|]. exact Hk.
Qed.

(** The nonce is the ciphertext's, not the one of the key material. *)
Lemma material_nonce_is_not_used {A} `{Serde A} e m nonce :
  decrypt_struct (A := A) e {| m with km_nonce := nonce |} = decrypt_struct e m.
Proof. done. Qed.
(** Reading a wallet file back, whatever passphrase is given. *)
Lemma read_wallet_file path m store d b :
  files d path = Some b -> wallet_file m store b ->
  (exists nonce, forall pwd, pwd <> EmptyString -> key_of m pwd ->
     read_from_disk path (Some pwd) d = Ok (store, Some {| km_key := km_key m; km_nonce := nonce; km_pbkdf2_salt := km_pbkdf2_salt m |})) /\
  (forall pwd, pwd <> EmptyString -> ~ key_of m pwd -> read_from_disk path (Some pwd) d = Err SecE_Decryption) /\
  read_from_disk path None d = Err SecE_PasswordRequired.
Proof.
  intros Hf%read_files (data & plain & nonce & payload & Hk & Hv & He & Hb).
  apply store_cbor in Hv. replace {| store with sw_master_key := MK_Sealed data |} with store in Hv by (destruct store; cbn in *; congruence).
  unfold read_from_disk, load_sensitive_struct. rewrite Hf. cbn [map_err mbind outcome_bind from_slice].
  pose proof (cbor_reads _ _ (encrypted_cbor _ _ Hb)) as ->.
  split_and!.
  - exists nonce. intros [|c pwd] Hne Hp; [done|]. cbn. by rewrite (open_with_key (A := StoredWallet) store plain m).
  - intros [|c pwd] Hne Hp; [done|]. cbn. by rewrite (open_with_another_key (A := StoredWallet) plain m).
  - unfold deserialize_from_cbor. cbn. by rewrite (encrypted_is_no_store _ _ Hb).
Qed.

(** ** Creation *)
Context {node : WalletNode D} {bl : WalletNodeLaws dl node}.

Lemma seal_Ok m x d mk d' :
  seal m (MK_Plaintext x) d = (Ok mk, d') ->
  exists data, mk = MK_Sealed data /\ forall A (f : Xpriv -> outcome WalletError A), with_unlocked mk m f = f x.
Proof.
  cbn. intros (data & d1 & E & [= <- <-])%st_bind_Ok. apply encrypting_Ok, encrypt_struct_Ok in E as (p & Hp & He & _).
  exists data. split; [done|]. intros A f. cbn. unfold decrypt_struct. rewrite (aes_round_trip _ _ _ _ He). cbn.
  by rewrite (cbor_reads _ _ (xpriv_cbor _ _ Hp)).
Qed.

(** A file is made where there was none; the others stay. *)
Definition makes (path : Path) d d' : Prop :=
  (forall p, p <> path -> is_temp p = false -> files d' p = files d p) /\
  (files d path = None \/ files d' path = files d path).
Lemma absent_file path d : dk_exists path d = false -> files d path = None.
Proof. intros H. destruct (files d path) as [b|] eqn:E; [|done]. apply existing_file in E. congruence. Qed.
Lemma same_files_makes path d d' : is_temp path = false -> same_files d d' -> makes path d d'.
Proof. intros Hp H. split; [intros p _ Ht; by apply H|right; by apply H]. Qed.

Lemma store_init_spec name path net x birthday m d r d' :
  is_temp path = false -> store_init name path net x birthday m d = (r, d') ->
  makes path d d' /\
  forall store, r = Ok store ->
    files d path = None /\ sw_file_name store = name /\ sw_network store = net /\ sw_wallet_birthday store = birthday /\
    (exists data, sw_master_key store = MK_Sealed data) /\
    (forall A (f : Xpriv -> outcome WalletError A), with_unlocked (sw_master_key store) m f = f x) /\
    exists b, files d' path = Some b /\ wallet_file m store b.
Proof.
  intros Hp. unfold store_init. unfold mbind at 1, stateful_bind.
  pose proof (seal_keeps m (MK_Plaintext x) d) as K1. destruct (seal m (MK_Plaintext x) d) as [[mk|e|] d1] eqn:E1; cbn in K1;
    [|intros [= <- <-]; split; [by apply same_files_makes|done]..].
  apply seal_Ok in E1 as (data & -> & Hu). unfold mbind at 1, stateful_bind.
  pose proof (make_parent_keeps path d1) as K2. destruct (make_parent path d1) as [[[]|e|] d2]; cbn in K2;
    [|intros [= <- <-]; split; [apply same_files_makes; [done|by etrans]|done]..].
  assert (same_files d d2) as K by (by etrans). unfold mbind at 1, stateful_bind, io.
  pose proof (create_new_failed path d2) as Hf. destruct (dk_create_new path d2) as [[[]|e|] d3] eqn:E3; cbn in Hf |- *;
    [|intros [= <- <-]; split; [apply same_files_makes; [done|etrans; [exact K|by apply Hf]]|done]..].
  apply create_new_Ok in E3 as (Hn%absent_file & _ & Ho). rewrite (K path Hp) in Hn.
  set (store := Build_StoredWallet name net (MK_Sealed data) None birthday WalletStore_init).
  assert (forall d', (forall p, p <> path -> is_temp p = false -> files d' p = files d3 p) -> makes path d d') as Hm.
  { intros dx Hx. split; [|by left]. intros p Hne Ht. by rewrite Hx, Ho, K. }
  unfold mbind, stateful_bind. destruct (write_to_disk path m store d3) as [r4 d4] eqn:E4.
  apply write_to_disk_cases in E4 as [[Hs Hr]|(b & Hb & [Hw _] & Hok)]; [| |done].
  - destruct r4 as [[]|e|]; [done|intros [= <- <-]; split; [apply Hm; auto|done]..].
  - destruct r4 as [[]|e|]; [|intros [= <- <-]; split; [by apply Hm|done]..].
    intros [= <- <-]. split; [by apply Hm|]. intros ? [= <-]. split_and!; eauto.
Qed.

(** The wallet of a creation. *)
Lemma wallet_init_Ok path m d w d' :
  is_temp path = false -> wallet_init path m d = (Ok w, d') ->
  exists mnemonic x, ow_new_mnemonic w = Some mnemonic /\ bk_master_key_from_mnemonic mnemonic (sw_network (ow_store w)) = Ok x /\
    (forall A (f : Xpriv -> outcome WalletError A), with_master_key w f = f x) /\ ow_wallet_file_path w = path /\
    ow_store_enc_material w = m /\ file_name path = Some (sw_file_name (ow_store w)) /\ ow_restore_scan w = false /\
    (exists data, sw_master_key (ow_store w) = MK_Sealed data) /\
    exists b, files d' path = Some b /\ wallet_file m (ow_store w) b.
Proof.
  intros Hp. unfold wallet_init. intros (net & d1 & _ & H)%st_bind_Ok. apply st_bind_Ok in H as (mn & d2 & _ & H).
  apply st_bind_Ok in H as (x & d3 & (Hx & _)%lift_Ok & H). apply st_bind_Ok in H as (name & d4 & (Hn%ok_or_Ok & _)%lift_Ok & H).
  apply st_bind_Ok in H as (birthday & d5 & _ & H). apply st_bind_Ok in H as (store & d6 & Hs & [= <- <-]).
  apply store_init_spec in Hs as [_ Hs]; [|done]. destruct (Hs _ eq_refl) as (_ & <- & <- & _ & Hd & Hk & Hb).
  exists mn, x. by split_and!.
Qed.

Lemma seal_sealed w d : (exists data, sw_master_key (ow_store w) = MK_Sealed data) -> seal_master_key w d = (Ok w, d).
Proof.
  intros [data Hk]. unfold seal_master_key, mbind, stateful_bind. destruct w as [? store ? ? ?]. cbn in Hk |- *. rewrite Hk.
  by destruct store; cbn in Hk |- *; subst.
Qed.
Lemma load_file path store material password d d1 :
  read_from_disk path (nonempty password) d = Ok (store, Some material) ->
  (forall name, bk_core_wallet_name d = Some name -> name = sw_file_name store) ->
  bk_chain d = (Ok (sw_network store), d1) ->
  (exists data, sw_master_key store = MK_Sealed data) ->
  wallet_load path password d =
    (Ok {| ow_wallet_file_path := path; ow_store := store; ow_store_enc_material := material;
           ow_new_mnemonic := None; ow_restore_scan := false |}, d1).
Proof.
  intros Hr Hn Hc Hk. unfold wallet_load, gets, lift, mbind, stateful_bind. rewrite Hr. cbn.
  assert (match bk_core_wallet_name d with
          | Some name => reject (negb (name =? sw_file_name store)%string)
              (WE_General "Wallet name of database file and core mismatch, expected {}, found {}")
          | None => Ok () end = Ok ()) as ->.
  { destruct (bk_core_wallet_name d) as [name|]; [|done]. by rewrite (Hn name eq_refl), String.eqb_refl. }
  rewrite Hc. rewrite bool_decide_eq_false_2 by (intros H; by apply H). cbn. by apply seal_sealed.
Qed.

Lemma with_master_key_same_key w w' A (f : Xpriv -> outcome WalletError A) :
  ow_store w' = ow_store w -> km_key (ow_store_enc_material w') = km_key (ow_store_enc_material w) ->
  with_master_key w' f = with_master_key w f.
Proof. unfold with_master_key, with_unlocked, decrypt_struct. by intros -> ->. Qed.

(** Creation takes its key from the passphrase. *)
Lemma load_or_init_creates path pwd d w d1 :
  dk_exists path d = false -> load_or_init path (Some pwd) d = (Ok w, d1) ->
  pwd <> EmptyString /\ exists m d0, key_of m pwd /\ wallet_init path m d0 = (Ok w, d1).
Proof.
  intros He. unfold load_or_init, gets, lift, new_from_password, random_bytes, mbind, stateful_bind. rewrite He.
  destruct pwd as [|c pwd]; [done|]. cbn. destruct (dk_random 16 d) as [salt dx]. destruct (dk_random 12 dx) as [nonce dy]. cbn.
  intros H. split; [done|]. by exists {| km_key := pbkdf2 (String c pwd) salt; km_nonce := nonce; km_pbkdf2_salt := salt |}, dy.
Qed.

(** C16: A wallet just created opens again with its passphrase and with no other: the
    new wallet's key is the one of the seed phrase it shows; and on any later disk
    that still has its file, without a passphrase the user is asked for one, under a
    passphrase with another key the file is refused, and with the passphrase (the
    node on the wallet's network, and its wallet, if any, of that name) the very
    same store is opened and unlocks to the same master key. *)
Theorem created_wallet_can_be_reopened path pwd d w d1 d2 :
  is_temp path = false -> dk_exists path d = false -> load_or_init path (Some pwd) d = (Ok w, d1) ->
  files d2 path = files d1 path ->
  (exists mnemonic x, ow_new_mnemonic w = Some mnemonic /\
     bk_master_key_from_mnemonic mnemonic (sw_network (ow_store w)) = Ok x /\ with_master_key w (fun x => Ok x) = Ok x) /\
  (load_or_init path None d2).1 = Err (WE_General "wallet file {path:?} is encrypted; provide the wallet passphrase via -p/--password") /\
  (forall pwd', pwd' <> EmptyString -> ~ key_of (ow_store_enc_material w) pwd' ->
     (load_or_init path (Some pwd') d2).1 = Err (WE_Security "{e}")) /\
  (forall d3, (forall name, bk_core_wallet_name d2 = Some name -> file_name path = Some name) ->
     bk_chain d2 = (Ok (sw_network (ow_store w)), d3) ->
     exists w', load_or_init path (Some pwd) d2 = (Ok w', d3) /\ ow_store w' = ow_store w /\ ow_wallet_file_path w' = path /\
       forall A (f : Xpriv -> outcome WalletError A), with_master_key w' f = with_master_key w f).
Proof.
  intros Hp He Hc Hd. apply load_or_init_creates in Hc as (Hne & m & d0 & Hk & Hi); [|done].
  apply wallet_init_Ok in Hi as (mn & x & Hm & Hx & Hu & _ & <- & Hn & _ & Hs & b & Hb & Hw); [|done].
  rewrite Hb in Hd. destruct (read_wallet_file path _ _ _ _ Hd Hw) as ((nonce & Hr) & Hwrong & Hnone).
  apply existing_file in Hd. unfold load_or_init, gets, mbind, stateful_bind. rewrite Hd. split_and!.
  - exists mn, x. by rewrite Hu.
  - unfold wallet_load, mbind, stateful_bind, gets, lift. cbn [nonempty]. by rewrite Hnone.
  - intros pwd' Hne' Hk'. unfold wallet_load, mbind, stateful_bind, gets, lift. destruct pwd' as [|c pwd']; [done|]. cbn [nonempty].
    by rewrite Hwrong.
  - intros d3 Hname Hnet. destruct pwd as [|c pwd]; [done|]. eexists. split; [eapply load_file; [by apply Hr| |done|done]|].
    { intros name Hcore. specialize (Hname name Hcore). congruence. }
    split_and!; [done..|]. intros A f. by apply with_master_key_same_key.
Qed.

(** ** Backup and restore *)
(** Existing files stay. *)
Definition preserves d d' : Prop := forall p b, is_temp p = false -> files d p = Some b -> files d' p = Some b.
Lemma same_files_preserves d d' : same_files d d' -> preserves d d'.
Proof. intros H p b Hp Hb. by rewrite H. Qed.
Lemma makes_preserves path d d' : makes path d d' -> preserves d d'.
Proof.
  intros [Ho Hm] p b Hp Hb. destruct (decide (p = path)) as [->|Hne]; [|by rewrite Ho].
  destruct Hm as [Hm|Hm]; congruence.
Qed.
#[local] Instance preserves_preorder : PreOrder preserves.
Proof. split; [by intros d p b|]. intros d1 d2 d3 H1 H2 p b Hp Hb. auto. Qed.

(** What is relied on of the synchronisation with the node: it changes the wallet in
    memory only, and touches neither its key nor where it is kept. *)
Record SyncLaws (sync_no_fail : OpenWallet -> stateful D WalletError OpenWallet) : Prop := {
  sync_files w : keeps (sync_no_fail w);
  sync_wallet w d w' d' : sync_no_fail w d = (Ok w', d') ->
    ow_wallet_file_path w' = ow_wallet_file_path w /\ ow_store_enc_material w' = ow_store_enc_material w /\
    sw_master_key (ow_store w') = sw_master_key (ow_store w) /\ sw_network (ow_store w') = sw_network (ow_store w);
}.

Section restore.
Context (sync_no_fail : OpenWallet -> stateful D WalletError OpenWallet) (sl : SyncLaws sync_no_fail).

(** Synchronising rewrites the wallet's own file only, and on success keeps the key. *)
Lemma sync_and_save_spec w d r d' :
  is_temp (ow_wallet_file_path w) = false -> sync_and_save sync_no_fail w d = (r, d') ->
  (forall p, p <> ow_wallet_file_path w -> is_temp p = false -> files d' p = files d p) /\
  forall w', r = Ok w' ->
    ow_wallet_file_path w' = ow_wallet_file_path w /\ sw_network (ow_store w') = sw_network (ow_store w) /\
    (forall A (f : Xpriv -> outcome WalletError A), with_master_key w' f = with_master_key w f) /\
    exists b, files d' (ow_wallet_file_path w) = Some b /\ wallet_file (ow_store_enc_material w) (ow_store w') b.
Proof.
  intros Hp. unfold sync_and_save, mbind at 1, stateful_bind. pose proof (sync_files _ sl w d) as K1.
  destruct (sync_no_fail w d) as [[w1|e|] d1] eqn:E1; cbn in K1; [|intros [= <- <-]; split; [by intros p _; apply K1|done]..].
  apply (sync_wallet _ sl) in E1 as (Hpath & Hm & Hk & Hn).
  unfold ow_save_to_disk, mbind, stateful_bind. rewrite Hpath, Hm.
  destruct (write_to_disk _ _ _ d1) as [r2 d2] eqn:E2. intros E.
  assert (d2 = d' /\ r = (r2 ≫= fun _ => Ok w1)) as [-> ->] by (destruct r2; by injection E).
  apply write_to_disk_cases in E2 as [[Hs Hr]|(b & Hb & [Ho _] & Hok)]; [| |done].
  - split; [intros p _ Ht; by rewrite Hs, K1|]. intros w' Hw. destruct r2 as [[]|?|]; [done|done|done].
  - split; [intros p Hne Ht; by rewrite Ho, K1|]. intros w' Hw. destruct r2 as [[]|?|]; try done. injection Hw as <-.
    split_and!; [done|done| |eauto]. intros A f. unfold with_master_key. by rewrite Hk, Hm.
Qed.

(** C17: Restoring a backup overwrites nothing and gives the wallet that was backed up:
    whatever happens during the restore, every file that was there keeps its
    content; and a restore that succeeds has made, where no file was, a wallet file
    sealed under the passphrase given, for a wallet on the backup's network, which
    the node is on too, whose master key unlocks to the backup's. *)
Theorem restore_never_overwrites b wallet_path m d r d' :
  (forall path, restore_path b wallet_path d = Ok path -> is_temp path = false) ->
  restore sync_no_fail b wallet_path m d = (r, d') ->
  preserves d d' /\
  forall w, r = Ok w ->
    restore_path b wallet_path d = Ok (ow_wallet_file_path w) /\ files d (ow_wallet_file_path w) = None /\
    sw_network (ow_store w) = wb_network b /\ (bk_chain d).1 = Ok (wb_network b) /\ with_master_key w (fun x => Ok x) = Ok (wb_master_key b) /\
    ow_restore_scan w = false /\
    exists c, files d' (ow_wallet_file_path w) = Some c /\ wallet_file m (ow_store w) c.
Proof.
  intros Hp. unfold restore, gets, lift. unfold mbind at 1, stateful_bind.
  destruct (restore_path b wallet_path d) as [path|e|]; [specialize (Hp path eq_refl)|intros [= <- <-]; by split..].
  unfold mbind at 1, stateful_bind. unfold mbind at 1, stateful_bind. destruct (dk_exists path d) eqn:He; cbn [reject]; [intros [= <- <-]; by split|].
  unfold mbind at 1, stateful_bind. pose proof (chain_keeps d) as K1.
  destruct (bk_chain d) as [[net|e|] d1]; cbn in K1; [|intros [= <- <-]; split; [by apply same_files_preserves|done]..].
  unfold mbind at 1, stateful_bind.
  destruct (bool_decide_reflect (net <> wb_network b)) as [|Hchain%dec_stable]; cbn [reject]; [intros [= <- <-]; split; [by apply same_files_preserves|done]|].
  subst net. unfold mbind at 1, stateful_bind. destruct (store_init _ _ _ _ _ _ d1) as [r2 d2] eqn:E2.
  apply store_init_spec in E2 as [Hm Hs]; [|done].
  assert (preserves d d2) as K2 by (etrans; [by apply same_files_preserves|by eapply makes_preserves]).
  destruct r2 as [store|e|]; [|intros [= <- <-]; by split..]. destruct (Hs _ eq_refl) as (_ & _ & Hnet & _ & [data Hk] & Hu & _).
  apply absent_file in He. unfold mbind at 1, stateful_bind. rewrite seal_sealed by eauto.
  unfold mbind, stateful_bind. destruct (sync_and_save _ _ d2) as [r3 d3] eqn:E3.
  apply sync_and_save_spec in E3 as [Ho Hw]; [|done]. cbn in Ho, Hw.
  assert (preserves d d3) as K3.
  { intros p c Ht Hc. rewrite Ho; [by apply K2| |done]. intros ->. congruence. }
  destruct r3 as [w1|e|]; [|intros [= <- <-]; by split..]. destruct (Hw _ eq_refl) as (Hpath & Hn & Hkey & Hfile).
  intros [= <- <-]. split; [done|]. intros ? [= <-]. cbn. rewrite Hpath, Hn. split_and!; [done|done|done|done| |done|done].
  unfold with_master_key in *. cbn in *. by rewrite Hkey.
Qed.
End restore.

(** Reading a backup file without a passphrase, and with the right one. *)
Lemma read_backup_unopened file (e : EncryptedData) d c :
  files d file = Some c -> json_to_string e = Some c ->
  load_sensitive_struct (A := WalletBackup) SerdeJson file None d = Err SecE_PasswordRequired.
Proof.
  intros Hf%read_files Hc. unfold load_sensitive_struct. rewrite Hf. cbn.
  by rewrite (encrypted_is_no_backup _ _ Hc), (encrypted_json _ _ Hc).
Qed.
Lemma read_backup_file file (b : WalletBackup) (plain : bytes) m (e : EncryptedData) d c pwd :
  files d file = Some c -> json_to_string e = Some c -> cbor_from_slice plain = inl b ->
  aes_encrypt (km_key m) (ed_nonce e) plain = Some (ed_encrypted_payload e) -> ed_pbkdf2_salt e = km_pbkdf2_salt m ->
  key_of m pwd -> pwd <> EmptyString ->
  load_sensitive_struct (A := WalletBackup) SerdeJson file (Some pwd) d =
    Ok (b, Some {| km_key := km_key m; km_nonce := ed_nonce e; km_pbkdf2_salt := km_pbkdf2_salt m |}).
Proof.
  intros Hf%read_files Hc Hp He Hs Hk Hne. unfold load_sensitive_struct. rewrite Hf. destruct pwd as [|ch pwd]; [done|]. cbn.
  rewrite (encrypted_json _ _ Hc). cbn. by apply (open_with_key b plain m).
Qed.

(** A backup gives back what a wallet is rebuilt from: once a backup has been
    written, on any later disk that still has the file, the passphrase it was made
    with opens it, and what is read is the wallet's master key as it unlocks in the
    running wallet, with its network, its birthday and its name. *)
Lemma backup_round_trip w path m pwd d d1 d2 d3 :
  is_temp (set_extension "json" path) = false -> pwd <> EmptyString -> key_of m pwd ->
  backup w path m d = (Ok (), d1) ->
  files d2 (set_extension "json" path) = files d1 (set_extension "json" path) ->
  dk_prompt "Enter encryption passphrase: " d2 = (Ok pwd, d3) ->
  exists x, with_master_key w (fun x => Ok x) = Ok x /\
    load_backup (set_extension "json" path) d2 =
      (Ok {| wb_network := sw_network (ow_store w); wb_master_key := x; wb_wallet_birthday := sw_wallet_birthday (ow_store w);
             wb_file_name := sw_file_name (ow_store w) |}, d3).
Proof.
  intros Hp Hne Hk Hb Hf Hpr. unfold backup in Hb. set (file := set_extension "json" path) in *.
  apply st_bind_Ok in Hb as (b & dx & (Hb & ->)%lift_Ok & H). unfold backup_of in Hb.
  destruct (with_master_key w (fun x => Ok x)) as [x|e|]; [|done..]. injection Hb as <-. exists x. split; [done|].
  set (b := Build_WalletBackup _ _ _ _) in *.
  apply st_bind_Ok in H as (e & dy & He%encrypting_Ok & H). apply st_bind_Ok in H as (c & dz & (Hc%ok_or_Ok & ->)%lift_Ok & H).
  apply replace_file_spec in H as [_ H]; [|done]. rewrite (H eq_refl) in Hf. clear H.
  apply encrypt_struct_Ok in He as (plain & Hplain & He & Hs). apply backup_cbor in Hplain.
  assert (files d3 file = Some c) as Hf3.
  { pose proof (prompt_keeps "Enter encryption passphrase: " d2) as K. rewrite Hpr in K. by rewrite K. }
  unfold load_backup, gets, mbind, stateful_bind. rewrite (read_backup_unopened file e d2 c Hf Hc), Hpr. cbn [map_err].
  unfold lift, backup_failed. by rewrite (read_backup_file file b plain m e d3 c pwd).
Qed.

(** What the file header of storage.rs says is migrated is refused: a wallet file that
    reads without a passphrase never loads. *)
Lemma cleartext_wallet_is_refused path password d b (store : StoredWallet) :
  nonempty password = None -> files d path = Some b -> deserialize_from_cbor b = Some store ->
  (wallet_load path password d).1 = Err (WE_General "wallet file {path:?} is unencrypted; cleartext wallet files are not supported").
Proof.
  intros Hn Hf%read_files Hb.
  assert (read_from_disk path None d = Ok (store, None)) as Hr.
  { unfold read_from_disk, load_sensitive_struct. rewrite Hf. cbn [map_err mbind outcome_bind from_slice]. by rewrite Hb. }
  unfold wallet_load, gets, lift, mbind, stateful_bind. by rewrite Hn, Hr.
Qed.
(** A store is not initialised over a file. *)
Lemma store_init_refuses_a_file name path net x birthday m d b :
  is_temp path = false -> files d path = Some b ->
  forall store, (store_init name path net x birthday m d).1 <> Ok store.
Proof.
  intros Hp Hf store E. destruct (store_init name path net x birthday m d) as [r d'] eqn:Es. cbn in E. subst r.
  apply store_init_spec in Es as [_ Hs]; [|done]. destruct (Hs store eq_refl) as [Hn _]. congruence.
Qed.
End files.

(** ** A world in which the laws hold *)
Module Sample.
(** Lists with their length in front. *)
Definition put (l : bytes) : bytes := Z.of_nat (length l) :: l.
Definition get (b : bytes) : option (bytes * bytes) :=
  match b with n :: b => Some (take (Z.to_nat n) b, drop (Z.to_nat n) b) | [] => None end.
Lemma get_put l r : get (put l ++ r) = Some (l, r).
Proof. cbn. by rewrite Nat2Z.id, take_app_length, drop_app_length. Qed.
Lemma put_inj l l' r r' : put l ++ r = put l' ++ r' -> l = l' /\ r = r'.
Proof. intros E. pose proof (get_put l r) as H. rewrite E, get_put in H. by injection H as -> ->. Qed.

(** A ciphertext names the key and the nonce it was made with. *)
Definition header (k n : bytes) : bytes := put k ++ put n.
#[local] Instance cipher : Cipher := {|
  aes_encrypt k n p := Some (header k n ++ p);
  aes_decrypt k n c := if decide (take (length (header k n)) c = header k n) then Some (drop (length (header k n)) c) else None;
  pbkdf2 password salt := map (fun c => Z.of_nat (nat_of_ascii c)) (list_ascii_of_string password) ++ salt;
|}.
#[local] Instance cipher_laws : CipherLaws cipher.
Proof.
  split; unfold aes_encrypt, aes_decrypt, cipher.
  - intros k n p c <-%(inj Some). by rewrite take_app_length, drop_app_length, decide_True.
  - intros k k' n p c <-%(inj Some) Hne. apply decide_False. intros E. apply Hne.
    pose proof (take_drop (length (header k' n)) (header k n ++ p)) as H. rewrite E in H. unfold header in H. rewrite <- !app_assoc in H.
    by apply put_inj in H as [-> _].
Qed.

Definition of_text (s : string) : bytes := map (fun c => Z.of_nat (nat_of_ascii c)) (list_ascii_of_string s).
Definition to_text (b : bytes) : string := string_of_list_ascii (map (fun z => ascii_of_nat (Z.to_nat z)) b).
Lemma text_round_trip s : to_text (of_text s) = s.
Proof.
  unfold to_text, of_text. rewrite List.map_map. rewrite <- (string_of_list_ascii_of_string s) at 2. f_equal.
  rewrite <- (List.map_id (list_ascii_of_string s)) at 2. apply List.map_ext. intros c. by rewrite Nat2Z.id, ascii_nat_embedding.
Qed.
Definition of_opt (o : option Z) : bytes := match o with Some z => [z] | None => [] end.
Definition to_opt (b : bytes) : option Z := match b with z :: _ => Some z | [] => None end.
Definition of_net (n : Network) : Z :=
  match n with Net_Bitcoin => 0 | Net_Testnet => 1 | Net_Testnet4 => 2 | Net_Signet => 3 | Net_Regtest => 4 end.
Definition to_net (z : Z) : Network :=
  if z =? 0 then Net_Bitcoin else if z =? 1 then Net_Testnet else if z =? 2 then Net_Testnet4 else if z =? 3 then Net_Signet else Net_Regtest.

Definition write_encrypted (e : EncryptedData) : bytes := put (ed_nonce e) ++ put (ed_encrypted_payload e) ++ ed_pbkdf2_salt e.
Definition read_encrypted (b : bytes) : option EncryptedData :=
  '(nonce, b) ← get b;
  '(payload, salt) ← get b;
  Some {| ed_nonce := nonce; ed_encrypted_payload := payload; ed_pbkdf2_salt := salt |}.
Lemma encrypted_round_trip e : read_encrypted (write_encrypted e) = Some e.
Proof. unfold read_encrypted, write_encrypted. rewrite get_put. cbn [mbind option_bind]. rewrite get_put. by destruct e. Qed.

Definition write_backup (b : WalletBackup) : bytes :=
  of_net (wb_network b) :: put (wb_master_key b) ++ put (of_opt (wb_wallet_birthday b)) ++ of_text (wb_file_name b).
Definition read_backup (b : bytes) : option WalletBackup :=
  match b with
  | n :: b =>
      '(key, b) ← get b;
      '(birthday, name) ← get b;
      Some {| wb_network := to_net n; wb_master_key := key; wb_wallet_birthday := to_opt birthday; wb_file_name := to_text name |}
  | [] => None
  end.
Lemma net_round_trip n : to_net (of_net n) = n.
Proof. by destruct n. Qed.
Lemma opt_round_trip o : to_opt (of_opt o) = o.
Proof. by destruct o. Qed.
Lemma backup_read_back b : read_backup (write_backup b) = Some b.
Proof.
  unfold read_backup, write_backup. rewrite get_put. cbn [mbind option_bind]. rewrite get_put. cbn [mbind option_bind].
  rewrite net_round_trip, opt_round_trip, text_round_trip. by destruct b.
Qed.

(** Stores without records only. *)
Definition no_records (s : WalletStore) : bool :=
  match s with
  | Build_WalletStore 0 0 0 incoming outgoing watch prevouts [] [] cache =>
      (size incoming =? 0)%nat && (size outgoing =? 0)%nat && (size watch =? 0)%nat && (size prevouts =? 0)%nat && (size cache =? 0)%nat
  | _ => false
  end.
Lemma no_records_init s : no_records s = true -> s = WalletStore_init.
Proof.
  destruct s as [[] [] [] i o w p [] [] c]; cbn; try done. intros H. to_prop.
  repeat match goal with H : size _ = 0%nat |- _ => apply map_size_empty_inv in H end. by subst.
Qed.
Definition write_store (s : StoredWallet) (data : EncryptedData) : option bytes :=
  if no_records (sw_records s) then
    Some (of_net (sw_network s) :: put (of_text (sw_file_name s)) ++ put (of_opt (sw_last_synced_height s)) ++
          put (of_opt (sw_wallet_birthday s)) ++ write_encrypted data)
  else None.
Definition read_store (b : bytes) : option StoredWallet :=
  match b with
  | n :: b =>
      '(name, b) ← get b;
      '(height, b) ← get b;
      '(birthday, b) ← get b;
      data ← read_encrypted b;
      Some {| sw_file_name := to_text name; sw_network := to_net n; sw_master_key := MK_Sealed data; sw_last_synced_height := to_opt height;
              sw_wallet_birthday := to_opt birthday; sw_records := WalletStore_init |}
  | [] => None
  end.
Lemma store_read_back s data b : write_store s data = Some b -> read_store b = Some {| s with sw_master_key := MK_Sealed data |}.
Proof.
  unfold write_store. destruct (no_records (sw_records s)) eqn:Hr; [|done]. apply no_records_init in Hr. intros <-%(inj Some). unfold read_store.
  rewrite get_put. cbn [mbind option_bind]. rewrite get_put. cbn [mbind option_bind]. rewrite get_put. cbn [mbind option_bind].
  rewrite encrypted_round_trip. cbn [mbind option_bind]. rewrite net_round_trip, text_round_trip, !opt_round_trip. by destruct s; cbn in *; subst.
Qed.

(** Every type has a tag. *)
Definition tagged {A} (tag : Z) (read : bytes -> option A) (b : bytes) : option A :=
  match b with t :: b => if t =? tag then read b else None | [] => None end.
Definition or_other {A} (o : option A) : A + CborError := match o with Some a => inl a | None => inr OtherCbor end.
Definition tagged_serde {A} (tag : Z) (write : A -> bytes) (read : bytes -> option A) : Serde A := {|
  cbor_to_vec a := Some (tag :: write a);
  cbor_from_slice b := or_other (tagged tag read b);
  json_to_string a := Some (tag :: write a);
  json_from_slice := tagged tag read;
|}.
#[local] Instance wire : Wire := {|
  wire_encrypted := tagged_serde 1 write_encrypted read_encrypted;
  wire_xpriv := tagged_serde 2 (fun x => x) Some;
  wire_backup := tagged_serde 3 write_backup read_backup;
  store_to_vec s data := b ← write_store s data; Some (4 :: b);
  store_from_slice b := or_other (tagged 4 read_store b);
|}.
#[local] Instance wire_laws : WireLaws wire.
Proof.
  split; unfold cbor_to_vec, cbor_from_slice, json_to_string, json_from_slice; cbn [wire wire_encrypted wire_xpriv wire_backup store_to_vec store_from_slice tagged_serde].
  - intros e b <-%(inj Some). unfold tagged. cbn [Z.eqb Pos.eqb]. by rewrite encrypted_round_trip.
  - intros e b <-%(inj Some). unfold tagged. cbn [Z.eqb Pos.eqb]. by rewrite encrypted_round_trip.
  - by intros x b <-%(inj Some).
  - intros x b <-%(inj Some). unfold tagged. cbn [Z.eqb Pos.eqb]. by rewrite backup_read_back.
  - intros s data b. destruct (write_store s data) as [c|] eqn:E; cbn; [|done]. intros <-%(inj Some). unfold tagged. cbn [Z.eqb Pos.eqb]. by rewrite (store_read_back _ _ _ E).
  - by intros e b <-%(inj Some).
  - by intros e b <-%(inj Some).
Qed.

Record World := {
  wd_files : list (Path * bytes);
  wd_temps : list bytes;
  wd_full : bool;
  wd_next : Z;
  wd_password : string;
}.
Fixpoint find (p : Path) (l : list (Path * bytes)) : option bytes :=
  match l with (q, b) :: l => if decide (q = p) then Some b else find p l | [] => None end.
Definition with_files (w : World) (l : list (Path * bytes)) : World := {| w with wd_files := l |}.
#[local] Instance disk : Disk World := {|
  dk_read p w := ok_or (find p (wd_files w)) "No such file or directory";
  dk_exists p w := bool_decide (is_Some (find p (wd_files w)));
  dk_is_dir p w := bool_decide (p = path_of "/wallets");
  dk_create_dir_all _ w := (Ok (), w);
  dk_create_new p w := match find p (wd_files w) with Some _ => (Err "File exists", w) | None => (Ok (), with_files w ((p, []) :: wd_files w)) end;
  dk_tempfile _ w := if wd_full w then (Err "No space left on device", w) else (Ok (length (wd_temps w)), {| w with wd_temps := wd_temps w ++ [[]] |});
  dk_write_tmp t c w := match wd_temps w !! t with Some _ => (Ok (), {| w with wd_temps := <[t := c]> (wd_temps w) |}) | None => (Err "Bad file descriptor", w) end;
  dk_sync_tmp _ w := (Ok (), w);
  dk_persist t p w := match wd_temps w !! t with Some c => (Ok (), with_files w ((p, c) :: wd_files w)) | None => (Err "Bad file descriptor", w) end;
  dk_sync_dir _ w := (Ok (), w);
  dk_random _ w := ([wd_next w], {| w with wd_next := wd_next w + 1 |});
  dk_prompt _ w := (Ok (wd_password w), w);
  dk_current_dir _ := Ok [C_RootDir];
|}.
Lemma files_find w p : files w p = find p (wd_files w).
Proof. unfold files. cbn. by destruct (find p (wd_files w)). Qed.
#[local] Instance disk_laws : DiskLaws disk.
Proof.
  refine {| is_temp _ := false; temp_content w t := default [] (wd_temps w !! t) |};
    [intros; rewrite !files_find; cbn; by repeat case_match..| | | | | | |].
  - cbn. intros t c d u d'. destruct (wd_temps d !! t) as [x|] eqn:E; intros [= <- <-]. cbn.
    rewrite list_lookup_insert_eq; [done|]. by apply lookup_lt_Some in E.
  - done.
  - cbn. intros t p d u d'. destruct (wd_temps d !! t) as [x|] eqn:E; intros [= <- <-]. rewrite files_find. cbn.
    rewrite decide_True by done. split; [done|]. intros q Hne _. rewrite !files_find. cbn. by rewrite decide_False.
  - intros t p d H q Hq. cbn in *. destruct (wd_temps d !! t); [by destruct (H ())|done].
  - cbn. intros p d u d'. destruct (find p (wd_files d)) as [x|] eqn:E; intros [= <- <-].
    rewrite bool_decide_eq_false_2 by apply is_Some_None. rewrite files_find. cbn. rewrite decide_True by done.
    split_and!; [done..|]. intros q Hne _. rewrite !files_find. cbn. by rewrite decide_False.
  - intros p d H q Hq. cbn in *. destruct (find p (wd_files d)); [done|by destruct (H ())].
  - intros p d b H. cbn. rewrite files_find in H. apply bool_decide_eq_true_2. eauto.
Defined.
#[local] Instance sample_node : WalletNode World := {|
  bk_core_wallet_name _ := None;
  bk_chain w := (Ok Net_Regtest, w);
  bk_block_count w := (Ok 100, w);
  bk_generate_mnemonic w := (Ok "abandon about", w);
  bk_master_key_from_mnemonic mnemonic _ := Ok (of_text mnemonic);
|}.
#[local] Instance sample_node_laws : WalletNodeLaws disk_laws sample_node.
Proof. split; by intros d p. Qed.
Lemma no_sync : SyncLaws (fun w => mret w).
Proof. split; [by intros w d p|]. intros w d w' d' [= <- <-]. done. Qed.

Definition start : World := {| wd_files := []; wd_temps := []; wd_full := false; wd_next := 7; wd_password := "hunter2" |}.
Definition home : Path := path_of "/wallets/my.wallet".
Abbreviation created := (load_or_init home (Some "correct horse") start).
Definition run {A} (dflt : A) (r : outcome WalletError A * World) : A := match r.1 with Ok a => a | _ => dflt end.
Definition no_wallet : OpenWallet :=
  {| ow_wallet_file_path := []; ow_store := Build_StoredWallet EmptyString Net_Bitcoin (MK_Plaintext []) None None WalletStore_init;
     ow_store_enc_material := Build_KeyMaterial [] [] []; ow_new_mnemonic := None; ow_restore_scan := false |}.
Definition wallet : OpenWallet := Eval vm_compute in run no_wallet created.
Definition after : World := Eval vm_compute in created.2.

Lemma wallet_file_is_atomic_and_sealed_witness :
  files (write_to_disk home (ow_store_enc_material wallet) (ow_store wallet) {| start with wd_full := true |}).2 home = None /\
  exists b, files (write_to_disk home (ow_store_enc_material wallet) (ow_store wallet) start).2 home = Some b /\
    wallet_file (ow_store_enc_material wallet) (ow_store wallet) b.
Proof.
  split; [reflexivity|].
  exact (proj1 (proj2 (wallet_file_is_atomic_and_sealed home (ow_store_enc_material wallet) (ow_store wallet) start _ _ eq_refl (surjective_pairing _))) eq_refl).
Defined.

Lemma created_wallet_can_be_reopened_witness :
  (load_or_init home None after).1 = Err (WE_General "wallet file {path:?} is encrypted; provide the wallet passphrase via -p/--password") /\
  (load_or_init home (Some "battery staple") after).1 = Err (WE_Security "{e}") /\
  exists w', load_or_init home (Some "correct horse") after = (Ok w', after) /\ ow_store w' = ow_store wallet.
Proof.
  assert (created = (Ok wallet, after)) as E by (vm_compute; reflexivity).
  destruct (created_wallet_can_be_reopened (dl := disk_laws) home "correct horse" start wallet after after ltac:(reflexivity) ltac:(reflexivity) E ltac:(reflexivity)) as (_ & Hn & Hw & Hr).
  split_and!; [exact Hn|apply Hw; [done|by vm_compute]|].
  destruct (Hr after ltac:(done) eq_refl) as (w' & Hl & Hs & _). by exists w'.
Defined.

Definition kept : WalletBackup :=
  {| wb_network := Net_Regtest; wb_master_key := [1; 2; 3]; wb_wallet_birthday := Some 5; wb_file_name := "saved" |}.
Abbreviation restored := (restore (fun w => mret w) kept (path_of "/wallets") (existing "battery staple" [] [9]) after).
Lemma restore_never_overwrites_witness :
  files restored.2 home = files after home /\ is_ok restored.1 = true /\
  forall w, restored.1 = Ok w -> with_master_key w (fun x => Ok x) = Ok [1; 2; 3] /\ ow_wallet_file_path w = path_of "/wallets/saved".
Proof.
  destruct (restore_never_overwrites (dl := disk_laws) _ no_sync kept (path_of "/wallets") (existing "battery staple" [] [9]) after _ _ (fun _ _ => eq_refl) (surjective_pairing _))
    as [Hp Hw].
  split; [apply (Hp home); [done|vm_compute; reflexivity]|]. split; [vm_compute; reflexivity|].
  intros w E. destruct (Hw w E) as (Hpath & _ & _ & _ & Hk & _). split; [exact Hk|]. 
  assert (restore_path kept (path_of "/wallets") after = Ok (path_of "/wallets/saved")) as Hq by (vm_compute; reflexivity). congruence.
Defined.

Abbreviation backed_up := (backup wallet (path_of "/b/saved") (existing "hunter2" [] [9]) after).
Lemma backup_round_trip_example :
  load_backup (path_of "/b/saved.json") backed_up.2 =
    (Ok {| wb_network := Net_Regtest; wb_master_key := of_text "abandon about"; wb_wallet_birthday := Some 100; wb_file_name := "my.wallet" |}, backed_up.2).
Proof.
  assert (backed_up = (Ok (), backed_up.2)) as E by (vm_compute; reflexivity).
  destruct (backup_round_trip (dl := disk_laws) wallet (path_of "/b/saved") (existing "hunter2" [] [9]) "hunter2" after backed_up.2 backed_up.2 backed_up.2
    ltac:(reflexivity) ltac:(done) ltac:(reflexivity) E ltac:(reflexivity) ltac:(vm_compute; reflexivity)) as (x & Hx & Hl).
  replace x with (of_text "abandon about") in Hl; [exact Hl|]. vm_compute in Hx |- *. by injection Hx as <-.
Defined.

(** A creation that fails once its file is made, here on a full disk, leaves an empty
    file, and from then on the name can neither be opened nor created. *)
Lemma failed_creation_blocks_the_name :
  let failed := load_or_init home (Some "correct horse") {| start with wd_full := true |} in
  let later := {| (failed.2) with wd_full := false |} in
  failed.1 = Err (WE_IO "No space left on device") /\ files later home = Some [] /\
  (load_or_init home (Some "correct horse") later).1 = Err (WE_Security "{e}") /\
  is_ok (load_or_init home (Some "correct horse") start).1 = true.
Proof. vm_compute. done. Qed.

(** The extension of a backup replaces what follows the last dot of the wallet's name,
    so that two wallets are backed up to one file. *)
Lemma backup_name_is_cut :
  let named name := {| wallet with ow_store := {| (ow_store wallet) with sw_file_name := name |} |} in
  let first := backup_interactive (named "my.hot") after in
  let second := backup_interactive (named "my.cold") first.2 in
  first.1 = Ok () /\ second.1 = Ok () /\
  files first.2 (path_of "/my.hot-backup.json") = None /\ is_Some (files first.2 (path_of "/my.json")) /\
  files second.2 (path_of "/my.json") <> files first.2 (path_of "/my.json").
Proof. vm_compute. split_and!; try done. eauto. Qed.
End Sample.
