(* ===== verification/Electrum.v ===== *)
(** The Electrum backend: src/wallet/blockchain/electrum.rs, with the chain names
    and the trait's defaults of src/wallet/blockchain/mod.rs.

    A backend holds one connection, which it replaces when a call finds it dead,
    and the bookkeeping that keeps watched scripts subscribed across replacements.
    The server, the crate's client, the clock and the shutdown flag, which other
    threads may raise at any time, are the class [ElectrumServer] over a world
    [W]; so is the order in which a hash table is walked. *)
From Stdlib Require Import Ascii String.
From S2P Require Import Prelude Bitcoin Errors WatchRegistry Watcher LegacyHandlers WalletStore WalletUtxo.
#[local] Open Scope string_scope.
#[local] Open Scope list_scope.
#[local] Open Scope Z_scope.

(** ** Chain names (mod.rs) *)
Definition chain_name_for (net : Network) : string :=
  match net with
  | Net_Bitcoin => "main" | Net_Testnet => "test" | Net_Testnet4 => "testnet4" | Net_Signet => "signet" | Net_Regtest => "regtest"
  end.
Definition validate_chain_name (name : string) : outcome WalletError () :=
  if bool_decide (name ∈ ["main"; "test"; "testnet4"; "signet"; "regtest"]) then Ok ()
  else Err (WE_General "unknown chain name from backend: {other:?}").
Definition unsupported {A} : outcome WalletError A := Err (WE_General "{method} is not supported by this backend").

(** ** Configuration *)
Record ElectrumConfig := {
  ec_url : string;
  ec_socks5 : option string;
  ec_timeout : option Z;
  ec_poll_interval_secs : option Z;
  ec_max_retries : Z;
}.
Definition ElectrumConfig_default : ElectrumConfig :=
  {| ec_url := "tcp://<your-electrum-server>:<port>"; ec_socks5 := None; ec_timeout := None; ec_poll_interval_secs := None; ec_max_retries := 3 |}.
Definition PING_INTERVAL_DIRECT : Z := 1.
Definition PING_INTERVAL_PROXIED : Z := 10.
Definition READ_TIMEOUT_DIRECT_SECS : Z := 30.
Definition READ_TIMEOUT_PROXIED_SECS : Z := 120.
Definition WATCHER_READ_TIMEOUT_DIRECT_SECS : Z := 5.

(** [BackendConfig::for_watcher], for this backend. *)
Definition for_watcher (cfg : ElectrumConfig) : ElectrumConfig :=
  {| cfg with ec_max_retries := 1;
     ec_timeout := match ec_timeout cfg with
                   | Some t => Some t
                   | None => if bool_decide (ec_socks5 cfg = None) then Some WATCHER_READ_TIMEOUT_DIRECT_SECS else None
                   end |}.

Fixpoint last_colon (i : nat) (s : string) : option nat :=
  match s with
  | EmptyString => None
  | String c s => match last_colon (S i) s with Some j => Some j | None => if Ascii.eqb c ":" then Some i else None end
  end.
Definition url_host (url : string) : string :=
  let no_scheme := match String.index 0 "://" url with Some i => substring (i + 3) (String.length url) url | None => url end in
  match last_colon 0 no_scheme with Some i => substring 0 i no_scheme | None => no_scheme end.
Definition str_ends_with (suffix s : string) : bool :=
  (suffix =? substring (String.length s - String.length suffix) (String.length suffix) s)%string.
Definition derive_ping_interval (cfg : ElectrumConfig) : Z :=
  default (if ec_socks5 cfg then PING_INTERVAL_PROXIED else PING_INTERVAL_DIRECT) (ec_poll_interval_secs cfg).
Definition derive_timeout_secs (cfg : ElectrumConfig) : Z :=
  default (if ec_socks5 cfg then READ_TIMEOUT_PROXIED_SECS else READ_TIMEOUT_DIRECT_SECS) (ec_timeout cfg).

(** What is asked of the crate's client. *)
Record ClientConfig := { cc_socks5 : option string; cc_timeout : Z; cc_retry : Z; cc_validate_domain : bool }.
Definition client_config (cfg : ElectrumConfig) : ClientConfig :=
  {| cc_socks5 := ec_socks5 cfg; cc_timeout := derive_timeout_secs cfg; cc_retry := 0;
     cc_validate_domain := negb (str_ends_with ".onion" (url_host (ec_url cfg))) |}.

(** In seconds; [attempt] counts from 1. *)
Definition retry_backoff (attempt : Z) : Z := Z.shiftl 1 (Z.min (attempt - 1) 5).

(** ** Errors *)
Inductive ElectrumError :=
| EE_Protocol (value : string) (code : option Z)
| EE_AlreadySubscribed
| EE_NotSubscribed
| EE_Message (msg : string)
| EE_Other (e : string).
Definition is_terminal (e : ElectrumError) : bool :=
  match e with EE_Protocol _ _ | EE_AlreadySubscribed | EE_NotSubscribed => true | _ => false end.
Definition is_unknown_txid (e : ElectrumError) : bool :=
  match e with EE_Protocol v _ => contains "No such mempool or blockchain transaction" v | _ => false end.

(** The [WalletError]s a call ends with, and their place among the others. *)
Inductive CallError :=
| CE_Electrum (e : ElectrumError)
| CE_Interrupted
| CE_Unreachable (attempts : Z) (last : ElectrumError).
Definition electrum_err (msg : string) : CallError := CE_Electrum (EE_Message msg).
Definition error_text (e : ElectrumError) : string :=
  match e with EE_Protocol v _ => v | EE_AlreadySubscribed => "AlreadySubscribed" | EE_NotSubscribed => "NotSubscribed" | EE_Message m | EE_Other m => m end.
Definition to_wallet (e : CallError) : WalletError :=
  match e with
  | CE_Electrum e => WE_Electrum (error_text e)
  | CE_Interrupted => WE_Interrupted "Shutdown requested"
  | CE_Unreachable attempts last => WE_ElectrumUnreachable attempts (error_text last)
  end.

(** ** The state *)
Record HistoryEntry := { he_tx_hash : Txid; he_height : Z }.
Record UnspentRes := { un_height : Z; un_tx_hash : Txid; un_tx_pos : Z; un_value : Z }.
Record Subscription := { sub_watchers : gset OutPoint; sub_seen : gset Txid }.
Definition no_subscription : Subscription := {| sub_watchers := ∅; sub_seen := ∅ |}.

Record NotifierState := {
  ns_last_height : Z;
  ns_last_hash : option bytes;
  ns_subscriptions : gmap Script Subscription;
  ns_fetch_attempts : gmap Txid Z;
  ns_dirty : gset Script;
  ns_pending : list WatchEvent;
  ns_last_ping : option Z;
}.
(** [el_world] has the connection held. *)
Record Electrum (W : Type) := {
  el_config : ElectrumConfig;
  el_ping_interval : Z;
  el_needs_rearm : bool;
  el_subscription_reset_pending : bool;
  el_reconnects : Z;
  el_watched : gset Script;
  el_hd_paths : gmap Script HdOrigin;
  el_network : Network;
  el_notifier : NotifierState;
  el_world : W;
}.
Arguments el_config {W}.
Arguments el_ping_interval {W}.
Arguments el_needs_rearm {W}.
Arguments el_subscription_reset_pending {W}.
Arguments el_reconnects {W}.
Arguments el_watched {W}.
Arguments el_hd_paths {W}.
Arguments el_network {W}.
Arguments el_notifier {W}.
Arguments el_world {W}.

(** ** The client and its surroundings *)
Record Header := { hdr_hash : bytes; hdr_time : Z }.
Class ElectrumServer (W : Type) := {
  (** [Client::from_config]; the new connection replaces the one held. *)
  es_from_config : string -> ClientConfig -> stateful W ElectrumError ();
  es_server_features : stateful W ElectrumError bytes;
  es_block_header : Z -> stateful W ElectrumError Header;
  es_headers_subscribe : stateful W ElectrumError (Z * Header);
  es_headers_pop : stateful W ElectrumError (option (Z * Header));
  es_script_subscribe : Script -> stateful W ElectrumError ();
  es_script_pop : Script -> stateful W ElectrumError (option bytes);
  es_script_get_history : Script -> stateful W ElectrumError (list HistoryEntry);
  es_batch_get_history : list Script -> stateful W ElectrumError (list (list HistoryEntry));
  es_list_unspent : Script -> stateful W ElectrumError (list UnspentRes);
  es_batch_list_unspent : list Script -> stateful W ElectrumError (list (list UnspentRes));
  es_transaction_get : Txid -> stateful W ElectrumError Transaction;
  es_transaction_broadcast : Transaction -> stateful W ElectrumError Txid;
  es_ping : stateful W ElectrumError ();
  es_load_shutdown : W -> bool * W;
  es_store_shutdown : W -> W;
  es_sleep : Z -> W -> W;
  es_now : W -> Z * W;
  (** The order in which tables are walked. *)
  es_keys : gmap Script Subscription -> list Script;
  es_elements : gset Script -> list Script;
  es_txid_leb : Txid -> Txid -> bool;
  (** The crate's genesis blocks and its consensus encoding. *)
  es_genesis : Network -> bytes;
  es_serialize_tx : Transaction -> bytes;
  es_deserialize_tx : bytes -> option Transaction;
}.

Section electrum.
Context {lib : BitcoinLib} {W : Type} {server : ElectrumServer W}.
Abbreviation conn := (Electrum W).
Abbreviation eop := (stateful conn CallError).

Definition network_from_electrum_genesis (genesis : bytes) : option Network :=
  head (filter (fun net => es_genesis net = genesis) [Net_Bitcoin; Net_Testnet; Net_Testnet4; Net_Signet; Net_Regtest]).

(** ** Calls *)
Definition on_client {E A} (m : stateful W E A) : stateful conn E A := fun e =>
  let '(r, w) := m (el_world e) in (r, {| e with el_world := w |}).
Definition load_stop {E} : stateful conn E bool := fun e =>
  let '(b, w) := es_load_shutdown (el_world e) in (Ok b, {| e with el_world := w |}).
Definition try_call {A} (f : stateful W ElectrumError A) : stateful conn ElectrumError A := on_client f.
Definition reconnect_client : stateful conn ElectrumError () :=
  cfg ← gets el_config;
  _ ← on_client (es_from_config (ec_url cfg) (client_config cfg));
  modify (fun e => {| e with el_needs_rearm := true; el_reconnects := wrap 64 (el_reconnects e + 1) |}).

(** The backoff in slices of a second, each after a look at the flag, and one look
    more at the end. *)
Fixpoint back_off (secs : nat) : eop () :=
  stop ← load_stop;
  if (stop : bool) then lift (Err CE_Interrupted)
  else match secs with
       | O => mret ()
       | S secs => _ ← modify (fun e => {| e with el_world := es_sleep 1 (el_world e) |}); back_off secs
       end.
Fixpoint call_again {A} (f : stateful W ElectrumError A) (attempts : list Z) (last : ElectrumError) : eop A :=
  match attempts with
  | [] =>
      max_retries ← gets (fun e => ec_max_retries (el_config e));
      lift (Err (CE_Unreachable (Z.min (max_retries + 1) 255) last))
  | attempt_no :: attempts =>
      _ ← back_off (Z.to_nat (retry_backoff attempt_no));
      r ← attempt reconnect_client;
      match r with
      | inr e => call_again f attempts e
      | inl _ =>
          r ← attempt (try_call f);
          match r with
          | inl v => mret v
          | inr e => if is_terminal e then lift (Err (CE_Electrum e)) else call_again f attempts e
          end
      end
  end.
Definition attempts_of (max_retries : Z) : list Z := map Z.of_nat (seq 1 (Z.to_nat max_retries)).
Definition call {A} (f : stateful W ElectrumError A) : eop A :=
  stop ← load_stop;
  if (stop : bool) then lift (Err CE_Interrupted)
  else
    r ← attempt (try_call f);
    match r with
    | inl v => mret v
    | inr e =>
        if is_terminal e then lift (Err (CE_Electrum e))
        else
          max_retries ← gets (fun e => ec_max_retries (el_config e));
          call_again f (attempts_of max_retries) e
    end.

(** ** Connecting *)
Definition connect_once (cfg : ElectrumConfig) : stateful W ElectrumError (bytes * Z * bytes) :=
  _ ← es_from_config (ec_url cfg) (client_config cfg);
  features ← attempt es_server_features;
  genesis ← match features with
            | inl genesis => mret genesis
            | inr (EE_Protocol _ (Some (-32601))) => header ← es_block_header 0; mret (rev (hdr_hash header))
            | inr e => lift (Err e)
            end;
  '(height, header) ← es_headers_subscribe;
  mret (genesis, height, hdr_hash header).
Fixpoint connect_back_off (secs : nat) : stateful W CallError () :=
  match secs with
  | O => mret ()
  | S secs => fun w =>
      let '(stop, w) := es_load_shutdown w in
      if stop then (Err CE_Interrupted, w) else connect_back_off secs (es_sleep 1 w)
  end.
Fixpoint connect_again (cfg : ElectrumConfig) (attempts : list Z) (last : ElectrumError) : stateful W CallError (bytes * Z * bytes) :=
  match attempts with
  | [] => lift (Err (CE_Unreachable (Z.min (ec_max_retries cfg + 1) 255) last))
  | attempt_no :: attempts =>
      _ ← connect_back_off (Z.to_nat (retry_backoff attempt_no));
      r ← attempt (connect_once cfg);
      match r with
      | inl v => mret v
      | inr e => if is_terminal e then lift (Err (CE_Electrum e)) else connect_again cfg attempts e
      end
  end.
Definition connect (cfg : ElectrumConfig) : stateful W CallError (bytes * Z * bytes) := fun w =>
  let '(stop, w) := es_load_shutdown w in
  if stop then (Err CE_Interrupted, w)
  else
    (r ← attempt (connect_once cfg);
     match r with
     | inl v => mret v
     | inr e => if is_terminal e then lift (Err (CE_Electrum e)) else connect_again cfg (attempts_of (ec_max_retries cfg)) e
     end) w.

Definition with_shutdown_flag (cfg : ElectrumConfig) (w : W) : outcome CallError conn * W :=
  if bool_decide (ec_socks5 cfg = None) && str_ends_with ".onion" (url_host (ec_url cfg)) then
    (Err (electrum_err "electrum url {} is an onion address but no socks5 proxy is configured"), w)
  else
    match connect cfg w with
    | (Ok (genesis, last_height, last_hash), w) =>
        (network ← ok_or (network_from_electrum_genesis genesis) (electrum_err "unknown genesis from electrum server: {:?}");
         Ok {| el_config := cfg; el_ping_interval := derive_ping_interval cfg; el_needs_rearm := false; el_subscription_reset_pending := false;
               el_reconnects := 0; el_watched := ∅; el_hd_paths := ∅; el_network := network;
               el_notifier := {| ns_last_height := last_height; ns_last_hash := Some last_hash; ns_subscriptions := ∅; ns_fetch_attempts := ∅;
                                 ns_dirty := ∅; ns_pending := []; ns_last_ping := None |};
               el_world := w |}, w)
    | (Err e, w) => (Err e, w)
    | (Panic, w) => (Panic, w)
    end.
Definition reconnect (e : conn) : outcome CallError conn * W := with_shutdown_flag (el_config e) (el_world e).
Definition subscription_watchers (spk : Script) (e : conn) : nat :=
  match ns_subscriptions (el_notifier e) !! spk with Some sub => size (sub_watchers sub) | None => 0%nat end.

(** ** Queries *)
Definition call_failed {A B} (gone : ElectrumError -> bool) (absent : B) (m : eop A) (f : A -> eop B) : eop B :=
  r ← attempt m;
  match r with
  | inl a => f a
  | inr (CE_Electrum e) => if gone e then mret absent else lift (Err (CE_Electrum e))
  | inr e => lift (Err e)
  end.
Definition tx_spends (outpoint : OutPoint) (tx : Transaction) : bool := existsb (fun i => bool_decide (previous_output i = outpoint)) (input tx).

Fixpoint find_spending (outpoint : OutPoint) (entries : list HistoryEntry) : eop (option Transaction) :=
  match entries with
  | [] => mret None
  | entry :: entries =>
      tx ← call (es_transaction_get (he_tx_hash entry));
      if tx_spends outpoint tx then mret (Some tx) else find_spending outpoint entries
  end.
Definition el_spending_transaction (outpoint : OutPoint) (script : Script) (expected_txid : option Txid) : eop (option Transaction) :=
  match expected_txid with
  | Some txid =>
      call_failed is_unknown_txid None (call (es_transaction_get txid)) (fun tx =>
        mret (if tx_spends outpoint tx then Some tx else None))
  | None => history ← call (es_script_get_history script); find_spending outpoint history
  end.

Definition arm_subscription (spk : Script) : eop () :=
  call_failed (fun e => match e with EE_AlreadySubscribed => true | _ => false end) () (call (es_script_subscribe spk)) mret.

Definition is_op_return (script : Script) : bool := match script with op :: _ => op =? OP_RETURN | [] => false end.
(** [(height > 0).then_some(height)]. *)
Definition mined (height : Z) : option Z := if 0 <? height then Some height else None.
Fixpoint height_in_histories (txid : Txid) (outputs : list TxOut) : eop (option Z) :=
  match outputs with
  | [] => mret None
  | txout :: outputs =>
      if is_op_return (script_pubkey txout) then height_in_histories txid outputs
      else
        history ← call (es_script_get_history (script_pubkey txout));
        match find (fun e => he_tx_hash e =? txid) history with
        | Some entry => mret (mined (he_height entry))
        | None => height_in_histories txid outputs
        end
  end.
Definition mined_height (tx : Transaction) : eop (option Z) :=
  _ ← lift (reject (forallb (fun o => is_op_return (script_pubkey o)) (output tx))
             (electrum_err "electrum: {txid} has only OP_RETURN outputs; its height is unreadable"));
  height_in_histories (compute_txid tx) (output tx).

(** [as u32] of the count. *)
Definition checked_confirmations (tip height : Z) : outcome CallError Z :=
  _ ← reject (tip <? height) (electrum_err "electrum: mined height {height} above reported tip {tip}");
  Ok (wrap 32 (tip + 1 - height)).
Definition el_get_block_count : eop Z := tip ← call es_headers_subscribe; mret tip.1.
Definition confirmations_at (height : option Z) : eop Z :=
  match height with
  | None => mret 0
  | Some height => tip ← el_get_block_count; lift (checked_confirmations tip height)
  end.
Definition checked_add_amount (total v : Amount) (what : string) : outcome CallError Amount :=
  match checked_add 64 total v with
  | Some t => if t <=? MAX_MONEY then Ok t else Err (electrum_err "electrum: {what} exceeds max money")
  | None => Err (electrum_err "electrum: {what} exceeds max money")
  end.

(** [get_blockchain_info]: the fields that are read. *)
Definition el_get_blockchain_info : eop (string * Z * bytes) :=
  tip ← call es_headers_subscribe;
  network ← gets el_network;
  mret (chain_name_for network, tip.1, hdr_hash tip.2).
Definition el_header_at_height (height : Z) : eop Header := call (es_block_header height).
Definition el_get_block_hash (height : Z) : eop bytes := header ← call (es_block_header height); mret (hdr_hash header).
Definition el_tx_block_height (txid : Txid) : eop (option Z) :=
  call_failed is_unknown_txid None (call (es_transaction_get txid)) mined_height.

Fixpoint confirmed_spend_in (outpoint : OutPoint) (history : list HistoryEntry) : eop bool :=
  match history with
  | [] => mret false
  | entry :: history =>
      if (he_tx_hash entry =? op_txid outpoint) || (he_height entry <=? 0) then confirmed_spend_in outpoint history
      else
        tx ← call (es_transaction_get (he_tx_hash entry));
        if tx_spends outpoint tx then mret true else confirmed_spend_in outpoint history
  end.
Definition el_is_confirmed_spend (outpoint : OutPoint) (script : Script) : eop bool :=
  history ← call (es_script_get_history script);
  confirmed_spend_in outpoint history.
Definition script_has_history (script : Script) : eop bool :=
  history ← call (es_script_get_history script);
  mret (match history with [] => false | _ => true end).
Definition el_get_raw_transaction (txid : Txid) : eop Transaction := call (es_transaction_get txid).
Definition is_tx_unknown (txid : Txid) : eop bool :=
  call_failed is_unknown_txid true (call (es_transaction_get txid)) (fun _ => mret false).
Definition el_send_raw_transaction (tx : Transaction) : eop Txid := call (es_transaction_broadcast tx).

(** [get_raw_transaction_info]: the transaction itself and where it is mined. *)
Record RawTransactionInfo := {
  ri_tx : Transaction;
  ri_confirmations : Z;
  ri_blockhash : option bytes;
  ri_blocktime : option Z;
}.
Definition el_get_raw_transaction_info (txid : Txid) : eop RawTransactionInfo :=
  tx ← call (es_transaction_get txid);
  height ← mined_height tx;
  confirmations ← confirmations_at height;
  header ← match height with Some h => header ← el_header_at_height h; mret (Some header) | None => mret None end;
  mret {| ri_tx := tx; ri_confirmations := confirmations; ri_blockhash := hdr_hash <$> header; ri_blocktime := hdr_time <$> header |}.

Definition el_get_tx_out (txid : Txid) (vout : Z) (include_mempool : option bool) : eop (option (TxOut * Z)) :=
  call_failed is_unknown_txid None (call (es_transaction_get txid)) (fun tx =>
    match output tx !! Z.to_nat vout with
    | None => mret None
    | Some txout =>
        entries ← call (es_list_unspent (script_pubkey txout));
        match find (fun e => (un_tx_hash e =? txid) && (un_tx_pos e =? vout)) entries with
        | None => mret None
        | Some entry =>
            confirmations ← confirmations_at (mined (un_height entry));
            if bool_decide (include_mempool = Some false) && (confirmations =? 0) then mret None
            else mret (Some (txout, confirmations))
        end
    end).

(** ** The wallet's view *)
Fixpoint chunks {A} (n : nat) (fuel : nat) (l : list A) : list (list A) :=
  match fuel, l with
  | _, [] => []
  | O, _ => []
  | S fuel, _ => take n l :: chunks n fuel (drop n l)
  end.
Definition LIST_UNSPENT_BATCH : nat := 200.
Definition unspent_entry (tip min_conf max_conf : Z) (script : Script) (e : UnspentRes) : outcome CallError (list Utxo) :=
  _ ← reject (MAX_MONEY <? un_value e) (electrum_err "electrum: utxo {}:{} value {} exceeds max money");
  match (if un_height e <=? 0 then Ok 0 else checked_confirmations tip (un_height e)) with
  | Ok confirmations =>
      if (confirmations <? min_conf) || (max_conf <? confirmations) then Ok []
      else Ok [{| ut_txid := un_tx_hash e; ut_vout := un_tx_pos e; ut_script_pub_key := script; ut_amount := un_value e;
                  ut_confirmations := confirmations; ut_desc := None; ut_witness_script := None; ut_address := None |}]
  | _ => Ok []
  end.
Definition unspent_of (tip min_conf max_conf : Z) (scripts : list Script) (results : list (list UnspentRes)) : outcome CallError (list Utxo) :=
  found ← try_map (fun '(script, entries) =>
    lists ← try_map (unspent_entry tip min_conf max_conf script) entries;
    Ok (List.concat lists)) (zip scripts results);
  Ok (List.concat found).
Definition list_unspent (minconf maxconf : option Z) : eop (list Utxo) :=
  watched ← gets (fun e => es_elements (el_watched e));
  tip ← el_get_block_count;
  let min_conf := wrap 32 (default 0 minconf) in
  let max_conf := match maxconf with Some c => wrap 32 c | None => U32_MAX end in
  found ← st_map (fun chunk =>
    results ← call (es_batch_list_unspent chunk);
    lift (unspent_of tip min_conf max_conf chunk results)) (chunks LIST_UNSPENT_BATCH (length watched) watched);
  mret (List.concat found).
Definition watch_script (script : Script) (hd : option HdOrigin) (e : conn) : conn :=
  {| e with el_watched := {[script]} ∪ el_watched e;
     el_hd_paths := match hd with Some hd => <[script := hd]> (el_hd_paths e) | None => el_hd_paths e end |}.
Definition hd_origin_for_script (script : Script) (e : conn) : option HdOrigin := el_hd_paths e !! script.

(** ** Transaction history *)
(** [as iN]. *)
Definition as_signed (w z : Z) : Z := if z <? 2 ^ (w - 1) then z else z - 2 ^ w.
Inductive TxCategory := Category_Send | Category_Receive.
Record ListedTransaction := {
  lt_txid : Txid;
  lt_confirmations : Z;
  lt_block : option (Header * Z);
  lt_category : TxCategory;
  lt_amount : Z;
  lt_vout : Z;
  lt_script : Script;
  lt_fee : option Z;
}.
Definition HISTORY_BATCH : nat := 200.
(** Newest first, unconfirmed before all; ties by transaction id. *)
Definition rank (height : Z) : Z := if 0 <? height then height else 2 ^ 31 - 1.
Definition newer (a b : Txid * Z) : bool :=
  (rank b.2 <? rank a.2) || ((rank b.2 =? rank a.2) && es_txid_leb a.1 b.1).
Fixpoint insert_sorted (x : Txid * Z) (l : list (Txid * Z)) : list (Txid * Z) :=
  match l with [] => [x] | y :: l => if newer x y then x :: y :: l else y :: insert_sorted x l end.
Definition sort_newest (l : list (Txid * Z)) : list (Txid * Z) := foldr insert_sorted [] l.
Definition is_coinbase (tx : Transaction) : bool :=
  match input tx with [i] => (op_txid (previous_output i) =? 0) && (op_vout (previous_output i) =? U32_MAX) | _ => false end.

(** The total of the inputs, and what of it was ours. *)
Definition add_input (watched : gset Script) (totals : Amount * Amount) (i : TxIn) : eop (Amount * Amount) :=
  prev ← call (es_transaction_get (op_txid (previous_output i)));
  prev_out ← lift (ok_or (output prev !! Z.to_nat (op_vout (previous_output i))) (electrum_err "electrum: {} spends missing output {}"));
  input_total ← lift (checked_add_amount totals.1 (value prev_out) "input total");
  spent_by_us ← lift (if bool_decide (script_pubkey prev_out ∈ watched) then checked_add_amount totals.2 (value prev_out) "spent-by-us total"
                      else Ok totals.2);
  mret (input_total, spent_by_us).
Definition cached_header (headers : gmap Z Header) (height : Z) : eop (Header * gmap Z Header) :=
  match headers !! height with
  | Some h => mret (h, headers)
  | None => h ← el_header_at_height height; mret (h, <[height := h]> headers)
  end.
(** The outputs of a transaction that are listed. *)
Definition listed_outputs (watched : gset Script) (txid : Txid) (confirmations : Z) (block : option (Header * Z)) (is_send : bool)
    (fee : option Z) (tx : Transaction) : list ListedTransaction :=
  List.concat (imap (fun vout txout =>
    let ours := bool_decide (script_pubkey txout ∈ watched) in
    let listed category amount fee :=
      {| lt_txid := txid; lt_confirmations := confirmations; lt_block := block; lt_category := category; lt_amount := amount;
         lt_vout := Z.of_nat vout; lt_script := script_pubkey txout; lt_fee := fee |} in
    if ours then (if is_send then [] else [listed Category_Receive (as_signed 64 (value txout)) None])
    else if is_send then [listed Category_Send (- as_signed 64 (value txout)) fee] else []) (output tx)).
Definition list_transaction (watched : gset Script) (tip : Z) (headers : gmap Z Header) (txid : Txid) (height : Z)
    : eop (list ListedTransaction * gmap Z Header) :=
  tx ← call (es_transaction_get txid);
  '(input_total, spent_by_us) ← (if is_coinbase tx then mret (0, 0) else st_fold (add_input watched) (0, 0) (input tx));
  let is_send := 0 <? spent_by_us in
  output_total ← lift (try_fold (fun t o => amount_add t (value o)) 0 (output tx));
  let fee := if is_send && negb (is_coinbase tx) then Some (as_signed 64 output_total - as_signed 64 input_total) else None in
  match (if 0 <? height then checked_confirmations tip height else Ok 0) with
  | Ok confirmations =>
      if 0 <? height then
        '(header, headers) ← cached_header headers height;
        mret (listed_outputs watched txid (as_signed 32 confirmations) (Some (header, height)) is_send fee tx, headers)
      else mret (listed_outputs watched txid confirmations None is_send fee tx, headers)
  | _ => mret ([], headers)
  end.
Definition list_transactions (count skip : option nat) : eop (list ListedTransaction) :=
  watched ← gets el_watched;
  let scripts := es_elements watched in
  histories ← st_map (fun chunk => call (es_batch_get_history chunk)) (chunks HISTORY_BATCH (length scripts) scripts);
  let heights : gmap Txid Z :=
    foldl (fun m e => <[he_tx_hash e := he_height e]> m) ∅ (List.concat (List.concat histories)) in
  let page := rev (take (default 10%nat count) (drop (default 0%nat skip) (sort_newest (map_to_list heights)))) in
  tip ← el_get_block_count;
  '(found, _) ← st_fold (fun '(found, headers) '(txid, height) =>
    '(more, headers) ← list_transaction watched tip headers txid height;
    mret (found ++ more, headers)) ([], ∅ : gmap Z Header) page;
  mret found.

(** ** Addresses of a descriptor *)
Definition str_strip_prefix (p s : string) : option string :=
  if String.prefix p s then Some (substring (String.length p) (String.length s) s) else None.
Definition str_strip_suffix (p s : string) : option string :=
  if str_ends_with p s && (String.length p <=? String.length s)%nat then Some (substring 0 (String.length s - String.length p) s) else None.
Inductive DescriptorKind := Kind_wpkh | Kind_tr.
Definition descriptor_kind (body : string) : option (DescriptorKind * string) :=
  match str_strip_prefix "wpkh(" body with
  | Some rest => Some (Kind_wpkh, rest)
  | None => match str_strip_prefix "tr(" body with Some rest => Some (Kind_tr, rest) | None => None end
  end.
(** [<xpub>/<chain>/*], taken apart from the right. *)
Definition key_form (inner : string) : option (string * string) :=
  match rev (split_on "/" inner) with
  | "*" :: chain :: ((_ :: _) as xpub) => Some (chain, String.concat "/" (rev xpub))
  | _ => None
  end.
Definition text (s : string) : bytes := map (fun c => Z.of_nat (nat_of_ascii c)) (list_ascii_of_string s).
Class AddressLib := {
  al_xpub : Type;
  al_xpub_parse : string -> option al_xpub;
  al_derive_pub : al_xpub -> list Z -> option PublicKey;
  al_p2wpkh : PublicKey -> Network -> string;
  al_p2tr : PublicKey -> Network -> string;
}.
Definition derive_addresses_local {al : AddressLib} (descriptor : string) (start end_ : Z) (e : conn) : outcome CallError (list string) :=
  let bad := electrum_err "deriveaddresses: {msg}" in
  _ ← reject (end_ <? start) bad;
  let body := default descriptor (head (split_on "#" descriptor)) in
  '(kind, inner) ← ok_or (descriptor_kind body) bad;
  inner ← ok_or (str_strip_suffix ")" inner) bad;
  '(chain, key) ← ok_or (key_form inner) bad;
  chain_idx ← ok_or (parse_u32 (text chain)) bad;
  xpub ← ok_or (al_xpub_parse key) bad;
  try_map (fun i =>
    child ← ok_or (al_derive_pub xpub [chain_idx; i]) bad;
    Ok (match kind with Kind_wpkh => al_p2wpkh child (el_network e) | Kind_tr => al_p2tr child (el_network e) end))
    (map (fun k => start + Z.of_nat k) (seq 0 (Z.to_nat (end_ + 1 - start)))).
Definition derive_addresses {al : AddressLib} (descriptor : string) (range : option (Z * Z)) (e : conn) : outcome CallError (list string) :=
  let '(start, end_) := default (0, 0) range in derive_addresses_local descriptor start end_ e.

(** ** Subscriptions *)
Definition with_notifier (f : NotifierState -> NotifierState) (e : conn) : conn := {| e with el_notifier := f (el_notifier e) |}.
Definition notify {E} (f : NotifierState -> NotifierState) : stateful conn E () := modify (with_notifier f).
Definition set_sub (spk : Script) (sub : Subscription) (n : NotifierState) : NotifierState :=
  {| n with ns_subscriptions := <[spk := sub]> (ns_subscriptions n) |}.
Definition mark_dirty (spk : Script) (n : NotifierState) : NotifierState := {| n with ns_dirty := {[spk]} ∪ ns_dirty n |}.

(** The counter is a [u8]. *)
Definition retry_fetch (attempts : gmap Txid Z) (txid : Txid) (cap : Z) : bool * gmap Txid Z :=
  let tries := wrap 8 (default 0 (attempts !! txid) + 1) in
  (tries <=? cap, <[txid := tries]> attempts).
Definition got_tx (txid : Txid) (tx : Transaction) (n : NotifierState) : NotifierState :=
  {| n with ns_fetch_attempts := delete txid (ns_fetch_attempts n); ns_pending := ns_pending n ++ [TxSeen (es_serialize_tx tx)] |}.
Definition missed_tx (cap : Z) (spk : Script) (txid : Txid) (n : NotifierState) : NotifierState :=
  let '(again, attempts) := retry_fetch (ns_fetch_attempts n) txid cap in
  let n := {| n with ns_fetch_attempts := attempts |} in
  if again then
    mark_dirty spk
      match ns_subscriptions n !! spk with
      | Some sub => set_sub spk {| sub with sub_seen := sub_seen sub ∖ {[txid]} |} n
      | None => n
      end
  else n.
Definition fetch_entry {E} (spk : Script) (txid : Txid) : stateful conn E () :=
  r ← attempt (call (es_transaction_get txid));
  match r with
  | inl tx => notify (got_tx txid tx)
  | inr _ => cap ← gets (fun e => ec_max_retries (el_config e)); notify (missed_tx cap spk txid)
  end.
(** One entry of a script's history. *)
Definition note_entry {E} (spk : Script) (h : HistoryEntry) : stateful conn E () :=
  sub ← gets (fun e => ns_subscriptions (el_notifier e) !! spk);
  match sub with
  | None => mret ()
  | Some sub =>
      if bool_decide (he_tx_hash h ∈ sub_seen sub) then mret ()
      else
        _ ← notify (set_sub spk {| sub with sub_seen := {[he_tx_hash h]} ∪ sub_seen sub |});
        fetch_entry spk (he_tx_hash h)
  end.
Definition el_subscribe_script (spk : Script) (watch : OutPoint) : eop () :=
  _ ← arm_subscription spk;
  known ← gets (fun e => ns_subscriptions (el_notifier e) !! spk);
  match known with
  | Some sub => notify (set_sub spk {| sub with sub_watchers := {[watch]} ∪ sub_watchers sub |})
  | None =>
      hist ← call (es_script_get_history spk);
      _ ← notify (set_sub spk {| no_subscription with sub_watchers := {[watch]} |});
      st_for_each (note_entry spk) hist
  end.
Definition el_unsubscribe_script (spk : Script) (watch : OutPoint) : eop () :=
  known ← gets (fun e => ns_subscriptions (el_notifier e) !! spk);
  let release :=
    _ ← notify (fun n => {| n with ns_dirty := ns_dirty n ∖ {[spk]} |});
    modify (fun e => {| e with el_subscription_reset_pending := true |}) in
  match known with
  | None => release
  | Some sub =>
      let watchers := sub_watchers sub ∖ {[watch]} in
      _ ← notify (set_sub spk {| sub with sub_watchers := watchers |});
      if bool_decide (watchers = ∅) then
        _ ← notify (fun n => {| n with ns_subscriptions := delete spk (ns_subscriptions n) |});
        release
      else mret ()
  end.

(** ** Events.  An error is an early return. *)
Abbreviation poll := (stateful conn (option WatchEvent)).
Definition pop_pending : poll () := fun e =>
  match ns_pending (el_notifier e) with
  | ev :: rest => (Err (Some ev), with_notifier (fun n => {| n with ns_pending := rest |}) e)
  | [] => (Ok (), e)
  end.
Definition flag_rearm {E} : stateful conn E () := modify (fun e => {| e with el_needs_rearm := true |}).
Definition recycle : poll () :=
  reset ← gets el_subscription_reset_pending;
  _ ← modify (fun e => {| e with el_subscription_reset_pending := false |});
  if (reset : bool) then
    r ← attempt reconnect_client;
    match r with
    | inl _ => mret ()
    | inr _ => _ ← modify (fun e => {| e with el_subscription_reset_pending := true |}); lift (Err None)
    end
  else mret ().
Definition rearm_one (spk : Script) : poll () :=
  r ← attempt (arm_subscription spk);
  _ ← match r with inl _ => mret () | inr _ => flag_rearm end;
  notify (mark_dirty spk).
Definition rearm : poll () :=
  needed ← gets el_needs_rearm;
  _ ← modify (fun e => {| e with el_needs_rearm := false |});
  if (needed : bool) then
    armed ← gets (fun e => es_keys (ns_subscriptions (el_notifier e)));
    _ ← st_for_each rearm_one armed;
    r ← attempt (call es_headers_subscribe);
    match r with inl _ => mret () | inr _ => flag_rearm end
  else mret ().
Definition now : poll Z := fun e => let '(t, w) := es_now (el_world e) in (Ok t, {| e with el_world := w |}).
Definition ping : poll bool :=
  last_ping ← gets (fun e => ns_last_ping (el_notifier e));
  interval ← gets el_ping_interval;
  ping_due ← match last_ping with None => mret true | Some at_ => t ← now; mret (interval <=? t - at_) end;
  if (ping_due : bool) then
    t ← now;
    _ ← notify (fun n => {| n with ns_last_ping := Some t |});
    r ← attempt (call es_ping);
    match r with inl _ => mret true | inr _ => lift (Err None) end
  else mret false.
Definition read_history (spk : Script) : poll () :=
  r ← attempt (call (es_script_get_history spk));
  match r with
  | inr _ => notify (mark_dirty spk)
  | inl hist => st_for_each (note_entry spk) hist
  end.
Definition poll_script (ping_due : bool) (spk : Script) : poll () :=
  dirty ← gets (fun e => bool_decide (spk ∈ ns_dirty (el_notifier e)));
  if ping_due && dirty then
    _ ← notify (fun n => {| n with ns_dirty := ns_dirty n ∖ {[spk]} |});
    read_history spk
  else
    r ← attempt (call (es_script_pop spk));
    match r with
    | inl (Some _) => read_history spk
    | inl None => mret ()
    | inr _ => _ ← attempt (arm_subscription spk); notify (mark_dirty spk)
    end.
Definition pop_header : poll (option WatchEvent) :=
  r ← attempt (call es_headers_pop);
  match r with
  | inl (Some (height, header)) =>
      n ← gets el_notifier;
      if (height =? ns_last_height n) && bool_decide (ns_last_hash n = Some (hdr_hash header)) then mret None
      else
        _ ← notify (fun n => {| n with ns_last_height := height; ns_last_hash := Some (hdr_hash header) |});
        mret (Some (BlockConnected {| br_height := height; br_hash := hdr_hash header |}))
  | _ => mret None
  end.
Definition poll_steps : poll (option WatchEvent) :=
  _ ← pop_pending;
  _ ← recycle;
  _ ← rearm;
  ping_due ← ping;
  scripts ← gets (fun e => es_keys (ns_subscriptions (el_notifier e)));
  _ ← st_for_each (poll_script ping_due) scripts;
  _ ← pop_pending;
  pop_header.
Definition el_poll_event (e : conn) : option WatchEvent * conn :=
  match poll_steps e with (Ok ev, e) | (Err ev, e) => (ev, e) | (Panic, e) => (None, e) end.

Definition el_chain_name : stateful conn WalletError string :=
  network ← gets el_network;
  _ ← lift (validate_chain_name (chain_name_for network));
  mret (chain_name_for network).

(** What the watcher sees of this backend; Electrum has no mempool to list and no
    blocks to fetch. *)
Definition as_wallet {A} (m : eop A) : stateful conn WalletError A := fun e => let '(r, e) := m e in (map_err to_wallet r, e).
Definition electrum_backend (deserialize_block : bytes -> option (list Transaction)) : Backend conn := {|
  is_electrum := true;
  chain_name := el_chain_name;
  prime_subscription := mret ();
  get_raw_mempool := mret [];
  get_raw_transaction txid := as_wallet (el_get_raw_transaction txid);
  get_block_count := as_wallet el_get_block_count;
  block_at_height _ := lift unsupported;
  tx_block_height txid := as_wallet (el_tx_block_height txid);
  is_confirmed_spend o spk := as_wallet (el_is_confirmed_spend o spk);
  subscribe_script spk o := as_wallet (el_subscribe_script spk o);
  unsubscribe_script spk o := as_wallet (el_unsubscribe_script spk o);
  poll_event := el_poll_event;
  load_shutdown e := let '(b, w) := es_load_shutdown (el_world e) in (b, {| e with el_world := w |});
  store_shutdown e := {| e with el_world := es_store_shutdown (el_world e) |};
  deserialize_tx := es_deserialize_tx;
  deserialize_block := deserialize_block;
|}.
End electrum.
