(* ===== verification/ElectrumSafety.v ===== *)
(** The Electrum backend keeps what the watcher relies on: a watch once armed stays
    armed across reconnections, and no transaction of a watched script is lost
    between its history and the events. *)
From Stdlib Require Import Ascii String.
From S2P Require Import Prelude Float64 Bitcoin Errors WatchRegistry Watcher WatcherInvariant LegacyHandlers WalletStore WalletUtxo TakerSteps Electrum.
#[local] Open Scope string_scope.
#[local] Open Scope list_scope.
#[local] Open Scope Z_scope.

(** What is relied on of the client: [subscribed w spk] says that its connection has
    the script subscribed, which a subscription establishes, only the replacement
    of the connection undoes, and no call changes; and calls return. *)
Class ElectrumLaws {W} (server : ElectrumServer W) (subscribed : W -> Script -> Prop) : Prop := {
  keeps_subscribed {E A} (m : stateful W E A) : Prop :=
    forall w, (m w).1 <> Panic /\ forall spk, subscribed w spk -> subscribed (m w).2 spk;
  from_config_returns url cfg w : (es_from_config url cfg w).1 <> Panic;
  from_config_failed url cfg w e spk : (es_from_config url cfg w).1 = Err e -> subscribed w spk -> subscribed (es_from_config url cfg w).2 spk;
  subscribe_keeps spk : keeps_subscribed (es_script_subscribe spk);
  subscribe_Ok spk w : (es_script_subscribe spk w).1 = Ok () -> subscribed (es_script_subscribe spk w).2 spk;
  subscribe_already spk w : (es_script_subscribe spk w).1 = Err EE_AlreadySubscribed -> subscribed (es_script_subscribe spk w).2 spk;
  header_keeps h : keeps_subscribed (es_block_header h);
  headers_subscribe_keeps : keeps_subscribed es_headers_subscribe;
  headers_pop_keeps : keeps_subscribed es_headers_pop;
  script_pop_keeps spk : keeps_subscribed (es_script_pop spk);
  history_keeps spk : keeps_subscribed (es_script_get_history spk);
  transaction_keeps txid : keeps_subscribed (es_transaction_get txid);
  ping_keeps : keeps_subscribed es_ping;
  load_keeps w spk : subscribed w spk -> subscribed (es_load_shutdown w).2 spk;
  store_keeps w spk : subscribed w spk -> subscribed (es_store_shutdown w) spk;
  sleep_keeps n w spk : subscribed w spk -> subscribed (es_sleep n w) spk;
  now_keeps w spk : subscribed w spk -> subscribed (es_now w).2 spk;
  all_keys m spk : spk ∈ es_keys m <-> is_Some (m !! spk);
}.

Section armed.
Context {lib : BitcoinLib} {W : Type} {server : ElectrumServer W}.
Context (subscribed : W -> Script -> Prop) {laws : ElectrumLaws server subscribed}.
Implicit Types (e : Electrum W) (spk : Script) (o : OutPoint).

Abbreviation subs e := (ns_subscriptions (el_notifier e)).
(** Who watches which script. *)
Definition watching e : gmap Script (gset OutPoint) := sub_watchers <$> subs e.

(** A watch is armed when its outpoint holds a subscription that the connection has,
    or that is flagged to be made again. *)
Definition el_armed e o : Prop :=
  exists spk ws, watching e !! spk = Some ws /\ o ∈ ws /\ (el_needs_rearm e = true \/ subscribed (el_world e) spk).

(** The subscriptions of the connection stay, or are flagged to be made again. *)
Definition not_deafer e e' : Prop :=
  el_needs_rearm e' = true \/
  (el_needs_rearm e' = el_needs_rearm e /\ forall spk, subscribed (el_world e) spk -> subscribed (el_world e') spk).
Definition hears e e' : Prop := watching e' = watching e /\ not_deafer e e'.
(** A call leaves the notifier alone. *)
Definition call_hears e e' : Prop := el_notifier e' = el_notifier e /\ el_config e' = el_config e /\ not_deafer e e'.

Lemma not_deafer_trans e1 e2 e3 : not_deafer e1 e2 -> not_deafer e2 e3 -> not_deafer e1 e3.
Proof. intros [H1|[H1 H1']] [H2|[H2 H2']]; [by left..|left; congruence|by left|right; split; [congruence|eauto]]. Qed.
#[local] Instance hears_preorder : PreOrder hears.
Proof.
  split; [intros e; split; [done|by right]|]. intros e1 e2 e3 [H1 K1] [H2 K2]. split; [congruence|by eapply not_deafer_trans].
Qed.
#[local] Instance call_hears_preorder : PreOrder call_hears.
Proof.
  split; [intros e; split_and!; [done|done|by right]|]. intros e1 e2 e3 (H1 & C1 & K1) (H2 & C2 & K2).
  split_and!; [congruence|congruence|by eapply not_deafer_trans].
Qed.
Lemma call_hears_hears e e' : call_hears e e' -> hears e e'.
Proof. intros (H & _ & K). split; [|done]. unfold watching. by rewrite H. Qed.
Lemma hears_armed e e' o : hears e e' -> el_armed e o -> el_armed e' o.
Proof.
  intros [Hw Hd] (spk & ws & Hs & Ho & Ha). exists spk, ws. rewrite Hw. split_and!; [done..|].
  destruct Hd as [Hd|[Hr Hd]]; [by left|]. rewrite Hr. destruct Ha; [by left|right; by apply Hd].
Qed.
#[local] Hint Extern 1 (PreOrder call_hears) => apply call_hears_preorder : steps.
#[local] Hint Extern 1 (PreOrder hears) => apply hears_preorder : steps.

(** ** Calls *)
Lemma on_client_hears {E A} (m : stateful W E A) : keeps_subscribed m -> steps call_hears (on_client m).
Proof.
  intros Hm e. destruct (Hm (el_world e)) as [_ Hk]. unfold on_client. destruct (m (el_world e)) as [r w]. cbn in *.
  split_and!; [done|done|]. right. split; [done|]. exact Hk.
Qed.
Lemma load_stop_hears {E} : steps call_hears (load_stop (E := E)).
Proof.
  intros e. unfold load_stop. pose proof (load_keeps (el_world e)) as Hk. destruct (es_load_shutdown (el_world e)) as [b w].
  split_and!; [done|done|]. by right.
Qed.
Lemma reconnect_hears : steps call_hears reconnect_client.
Proof.
  intros e. unfold reconnect_client, gets, modify, mbind, stateful_bind, on_client.
  pose proof (from_config_failed (ec_url (el_config e)) (client_config (el_config e)) (el_world e)) as Hf.
  pose proof (from_config_returns (ec_url (el_config e)) (client_config (el_config e)) (el_world e)) as Hr.
  destruct (es_from_config _ _ (el_world e)) as [[[]|x|] w]; cbn in *; [by split_and!; [| |left]|split_and!; [done|done|]|done].
  right. split; [done|]. intros spk. by eapply Hf.
Qed.
#[local] Hint Resolve load_stop_hears reconnect_hears : steps.
Lemma back_off_hears n : steps call_hears (back_off n).
Proof.
  induction n as [|n IH]; cbn; take_steps. intros e. split_and!; [done|done|]. right. split; [done|]. intros spk. apply sleep_keeps.
Qed.
#[local] Hint Resolve back_off_hears : steps.
Lemma call_again_hears {A} (f : stateful W ElectrumError A) attempts : keeps_subscribed f ->
  forall last, steps call_hears (call_again f attempts last).
Proof.
  intros Hf. assert (steps call_hears (try_call f)) as Ht by by apply on_client_hears.
  induction attempts as [|a attempts IH]; intros last; cbn; take_steps.
Qed.
Lemma call_hears_steps {A} (f : stateful W ElectrumError A) : keeps_subscribed f -> steps call_hears (call f).
Proof.
  intros Hf. assert (steps call_hears (try_call f)) as Ht by by apply on_client_hears. unfold call. take_steps.
  by apply call_again_hears.
Qed.

(** A call returns, and what it returns is the client's last answer. *)
Definition answered {A} (f : stateful W ElectrumError A) (p : outcome CallError A * Electrum W) : Prop :=
  match p with
  | (Ok a, e') => exists w, f w = (Ok a, el_world e')
  | (Err (CE_Electrum x), e') => exists w, f w = (Err x, el_world e')
  | (Err _, _) => True
  | (Panic, _) => False
  end.
Lemma load_stop_run {E} e : exists b w, load_stop (E := E) e = (Ok b, {| e with el_world := w |}).
Proof. unfold load_stop. destruct (es_load_shutdown (el_world e)) as [b w]. by exists b, w. Qed.
Lemma back_off_ends n : forall e, (back_off n e).1 = Ok () \/ (back_off n e).1 = Err CE_Interrupted.
Proof.
  induction n as [|n IH]; intros e; cbn; unfold mbind, stateful_bind; destruct (load_stop_run (E := CallError) e) as (b & w & ->);
    (destruct b; [by right|]); [by left|apply IH].
Qed.
Lemma try_call_run {A} (f : stateful W ElectrumError A) e :
  try_call f e = ((f (el_world e)).1, {| e with el_world := (f (el_world e)).2 |}).
Proof. unfold try_call, on_client. by destruct (f (el_world e)). Qed.
Lemma reconnect_returns e : (reconnect_client e).1 <> Panic.
Proof.
  unfold reconnect_client, gets, modify, mbind, stateful_bind, on_client.
  pose proof (from_config_returns (ec_url (el_config e)) (client_config (el_config e)) (el_world e)) as Hr.
  by destruct (es_from_config _ _ (el_world e)) as [[[]|x|] w].
Qed.
Lemma call_again_answered {A} (f : stateful W ElectrumError A) attempts : (forall w, (f w).1 <> Panic) ->
  forall last e, answered f (call_again f attempts last e).
Proof.
  intros Hf. induction attempts as [|a attempts IH]; intros last e; [done|]. cbn [call_again]. unfold mbind at 1, stateful_bind.
  pose proof (back_off_ends (Z.to_nat (retry_backoff a)) e) as Hb.
  destruct (back_off (Z.to_nat (retry_backoff a)) e) as [[[]|x|] e1]; cbn in Hb; [|by destruct Hb as [|[= ->]]|by destruct Hb].
  unfold mbind at 1, stateful_bind, attempt at 1. pose proof (reconnect_returns e1) as Hr.
  destruct (reconnect_client e1) as [[[]|x|] e2]; cbn in Hr; [|apply IH|done].
  unfold mbind, stateful_bind, attempt. rewrite try_call_run. specialize (Hf (el_world e2)).
  destruct (f (el_world e2)) as [[v|x|] w] eqn:E; cbn in *; [by exists (el_world e2)| |done].
  destruct (is_terminal x); [by exists (el_world e2)|apply IH].
Qed.
Lemma call_answered {A} (f : stateful W ElectrumError A) e : (forall w, (f w).1 <> Panic) -> answered f (call f e).
Proof.
  intros Hf. unfold call. unfold mbind at 1, stateful_bind. destruct (load_stop_run (E := CallError) e) as (b & w & ->). destruct b; [done|].
  unfold mbind at 1, stateful_bind, attempt. rewrite try_call_run. cbn [el_world].
  pose proof (Hf w) as Hw. destruct (f w) as [[v|x|] w'] eqn:E; cbn in *; [by exists w| |done].
  destruct (is_terminal x); [by exists w|]. unfold mbind, stateful_bind, gets. by apply call_again_answered.
Qed.
Lemma call_returns {A} (f : stateful W ElectrumError A) e : keeps_subscribed f -> (call f e).1 <> Panic.
Proof. intros Hf H. pose proof (call_answered f e ltac:(intros w; apply Hf)) as Ha. by destruct (call f e) as [[]]; cbn in H; subst. Qed.

Lemma arm_subscription_hears spk : steps call_hears (arm_subscription spk).
Proof.
  unfold arm_subscription, call_failed. pose proof (call_hears_steps _ (subscribe_keeps spk)). take_steps.
Qed.
(** Arming that succeeds leaves the script subscribed. *)
Lemma arm_subscription_Ok spk e e' : arm_subscription spk e = (Ok (), e') -> subscribed (el_world e') spk.
Proof.
  unfold arm_subscription, call_failed, mbind, stateful_bind, attempt.
  pose proof (call_answered (es_script_subscribe spk) e ltac:(intros w; apply subscribe_keeps)) as Ha.
  destruct (call (es_script_subscribe spk) e) as [[[]|[x| |]|] e1]; cbn in Ha; try done.
  - intros [= <-]. destruct Ha as [w Ha]. pose proof (subscribe_Ok spk w) as Hs. rewrite Ha in Hs. by apply Hs.
  - destruct x; try done. intros [= <-]. destruct Ha as [w Ha]. pose proof (subscribe_already spk w) as Hs. rewrite Ha in Hs. by apply Hs.
Qed.
Lemma arm_subscription_returns spk e : (arm_subscription spk e).1 <> Panic.
Proof.
  unfold arm_subscription, call_failed, mbind, stateful_bind, attempt. pose proof (call_returns _ e (subscribe_keeps spk)) as Hc.
  destruct (call (es_script_subscribe spk) e) as [[[]|[x| |]|] e1]; cbn in *; try done. by destruct x.
Qed.

(** ** Operations *)
Lemma steps_hears {E A} (m : stateful (Electrum W) E A) : steps call_hears m -> steps hears m.
Proof. intros H e. apply call_hears_hears, H. Qed.
#[local] Hint Resolve call_hears_steps arm_subscription_hears header_keeps headers_subscribe_keeps headers_pop_keeps script_pop_keeps
  history_keeps transaction_keeps ping_keeps : steps.
Lemma height_in_histories_hears txid outputs : steps call_hears (height_in_histories txid outputs).
Proof. induction outputs; cbn; take_steps. Qed.
#[local] Hint Resolve height_in_histories_hears : steps.
Lemma mined_height_hears tx : steps call_hears (mined_height tx).
Proof. unfold mined_height. take_steps. Qed.
#[local] Hint Resolve mined_height_hears : steps.
Lemma tx_block_height_hears txid : steps call_hears (el_tx_block_height txid).
Proof. unfold el_tx_block_height, call_failed. take_steps. Qed.
Lemma confirmed_spend_in_hears o history : steps call_hears (confirmed_spend_in o history).
Proof. induction history; cbn; take_steps. Qed.
#[local] Hint Resolve confirmed_spend_in_hears : steps.
Lemma is_confirmed_spend_hears o spk : steps call_hears (el_is_confirmed_spend o spk).
Proof. unfold el_is_confirmed_spend. take_steps. Qed.
Lemma block_count_hears : steps call_hears el_get_block_count.
Proof. unfold el_get_block_count. take_steps. Qed.

Lemma same_watching_hears e e' : watching e' = watching e -> el_needs_rearm e' = el_needs_rearm e -> el_world e' = el_world e -> hears e e'.
Proof. intros Hw Hr Hd. split; [done|]. right. split; [done|]. by rewrite Hd. Qed.
Lemma notify_hears {E} f : (forall n, sub_watchers <$> ns_subscriptions (f n) = sub_watchers <$> ns_subscriptions n) -> steps hears (notify (E := E) f).
Proof. intros Hf e. by apply same_watching_hears; [apply Hf| |]. Qed.
Lemma set_sub_watchers spk sub n :
  (sub_watchers <$> ns_subscriptions n) !! spk = Some (sub_watchers sub) ->
  sub_watchers <$> ns_subscriptions (set_sub spk sub n) = sub_watchers <$> ns_subscriptions n.
Proof. intros H. cbn. rewrite fmap_insert. by apply insert_id. Qed.
Lemma mark_dirty_hears {E} spk : steps hears (notify (E := E) (mark_dirty spk)).
Proof. by apply notify_hears. Qed.
Lemma got_tx_hears {E} txid tx : steps hears (notify (E := E) (got_tx txid tx)).
Proof. by apply notify_hears. Qed.
Lemma missed_tx_hears {E} cap spk txid : steps hears (notify (E := E) (missed_tx cap spk txid)).
Proof.
  apply notify_hears. intros n. unfold missed_tx. destruct (retry_fetch _ _ _) as [again attempts]. destruct again; [|done].
  cbn. destruct (ns_subscriptions n !! spk) as [sub|] eqn:Es; [cbn|done]. rewrite fmap_insert. apply insert_id.
  by rewrite lookup_fmap, Es.
Qed.
#[local] Hint Resolve mark_dirty_hears got_tx_hears missed_tx_hears steps_hears : steps.
Lemma fetch_entry_hears {E} spk txid : steps hears (fetch_entry (E := E) spk txid).
Proof. unfold fetch_entry. take_steps; auto with steps. Qed.
Lemma note_entry_hears {E} spk h : steps hears (note_entry (E := E) spk h).
Proof.
  intros e. unfold note_entry, gets. unfold mbind at 1, stateful_bind. destruct (subs e !! spk) as [sub|] eqn:Es; [|reflexivity].
  case_bool_decide; [reflexivity|]. etrans; [|apply fetch_entry_hears].
  apply same_watching_hears; [|done|done]. apply set_sub_watchers. by rewrite lookup_fmap, Es.
Qed.

#[local] Hint Resolve note_entry_hears : steps.
Lemma flags_hears {E} f : (forall e, el_notifier (f e) = el_notifier e /\ el_world (f e) = el_world e /\
    (el_needs_rearm (f e) = true \/ el_needs_rearm (f e) = el_needs_rearm e)) -> steps hears (modify (S := Electrum W) (E := E) f).
Proof.
  intros Hf e. destruct (Hf e) as (Hn & Hw & Hr). cbn. split; [unfold watching; by rewrite Hn|].
  destruct Hr as [Hr|Hr]; [by left|right; split; [done|by rewrite Hw]].
Qed.
Lemma pop_pending_hears : steps hears (pop_pending (W := W)).
Proof. intros e. unfold pop_pending. destruct (ns_pending (el_notifier e)); [reflexivity|]. by apply same_watching_hears. Qed.
Lemma recycle_hears : steps hears recycle.
Proof. unfold recycle. take_steps; try (apply flags_hears; auto). Qed.
Lemma now_hears : steps hears now.
Proof.
  intros e. unfold now. pose proof (now_keeps (el_world e)) as Hk. destruct (es_now (el_world e)) as [t w]. split; [done|]. by right.
Qed.
#[local] Hint Resolve pop_pending_hears recycle_hears now_hears : steps.
Lemma ping_hears : steps hears ping.
Proof. unfold ping. take_steps; auto with steps. by apply notify_hears. Qed.
Lemma read_history_hears spk : steps hears (read_history spk).
Proof. unfold read_history. take_steps; auto with steps. Qed.
#[local] Hint Resolve ping_hears read_history_hears : steps.
Lemma poll_script_hears due spk : steps hears (poll_script due spk).
Proof. unfold poll_script. take_steps; auto with steps. by apply notify_hears. Qed.
Lemma pop_header_hears : steps hears pop_header.
Proof. unfold pop_header. take_steps; auto with steps. by apply notify_hears. Qed.
#[local] Hint Resolve poll_script_hears pop_header_hears : steps.

(** ** Arming again *)
(** Every script in [done_] is subscribed, or everything is flagged. *)
Definition armed_again (done_ : list Script) e : Prop :=
  el_needs_rearm e = true \/ forall spk, spk ∈ done_ -> subscribed (el_world e) spk.
Lemma armed_again_hears done_ e e' : hears e e' -> armed_again done_ e -> armed_again done_ e'.
Proof. intros [_ [Hr|[Hr Hs]]] [H|H]; [by left..|left; congruence|right; eauto]. Qed.
Lemma rearm_one_spec spk done_ e :
  armed_again done_ e -> (rearm_one spk e).1 = Ok () /\ watching (rearm_one spk e).2 = watching e /\ armed_again (spk :: done_) (rearm_one spk e).2.
Proof.
  intros Hd. unfold rearm_one, mbind, stateful_bind, attempt. pose proof (arm_subscription_returns spk e) as Hr.
  pose proof (call_hears_hears _ _ (arm_subscription_hears spk e)) as Hh.
  destruct (arm_subscription spk e) as [[[]|x|] e1] eqn:E1; cbn in Hr, Hh |- *; [| |done]; destruct Hh as [Hw Hh].
  - apply arm_subscription_Ok in E1. split_and!; [done|done|]. destruct (armed_again_hears _ _ _ (conj Hw Hh) Hd) as [H|H]; [by left|right].
    intros s [->|Hs]%elem_of_cons; [exact E1|by apply H].
  - split_and!; [done|done|by left].
Qed.
Lemma rearm_all scripts : forall done_ e, armed_again done_ e ->
  (st_for_each rearm_one scripts e).1 = Ok () /\ watching (st_for_each rearm_one scripts e).2 = watching e /\
  armed_again (scripts ++ done_) (st_for_each rearm_one scripts e).2.
Proof.
  induction scripts as [|spk scripts IH]; intros done_ e Hd; [done|]. cbn [st_for_each]. unfold mbind, stateful_bind.
  destruct (rearm_one_spec spk done_ e Hd) as (Hr & Hw & Ha). destruct (rearm_one spk e) as [r e1]. cbn in Hr, Hw, Ha. subst r.
  destruct (IH _ _ Ha) as (Hr & Hw2 & Ha2). split_and!; [done|congruence|]. destruct Ha2 as [|Ha2]; [by left|right].
  intros s Hs. apply Ha2. set_solver.
Qed.
Lemma rearm_armed e o : el_armed e o -> el_armed (rearm e).2 o.
Proof.
  intros (spk & ws & Hs & Ho & Ha). unfold rearm, gets, modify. unfold mbind at 1, stateful_bind. unfold mbind at 1, stateful_bind.
  destruct (el_needs_rearm e) eqn:Hn.
  - set (e0 := Build_Electrum _ _ _ _ _ _ _ _ _ _ _). unfold mbind at 1, stateful_bind. unfold mbind at 1, stateful_bind.
    destruct (rearm_all (es_keys (subs e0)) [] e0) as (Hr & Hw & Hd); [by right; intros ? ?%elem_of_nil|].
    destruct (st_for_each rearm_one (es_keys (subs e0)) e0) as [r e1]. cbn in Hr, Hw, Hd. subst r.
    eapply hears_armed; [|exists spk, ws; rewrite Hw; split_and!; [exact Hs|done|]].
    + match goal with |- hears _ (?m _).2 => assert (steps hears m) as Hm; [|apply Hm] end.
      take_steps; auto with steps. apply flags_hears. auto.
    + destruct Hd as [Hd|Hd]; [by left|right]. apply Hd. rewrite app_nil_r. apply all_keys.
      unfold watching in Hs. rewrite lookup_fmap in Hs. cbn. destruct (subs e !! spk); [eauto|done].
  - exists spk, ws. split_and!; [done..|]. destruct Ha; [done|by right].
Qed.

Definition stays_armed e e' : Prop := forall o, el_armed e o -> el_armed e' o.
#[local] Instance stays_armed_preorder : PreOrder stays_armed.
Proof. split; [by intros e o|]. intros e1 e2 e3 H1 H2 o Ho. auto. Qed.
#[local] Hint Extern 1 (PreOrder stays_armed) => apply stays_armed_preorder : steps.
Lemma steps_stays_armed {E A} (m : stateful (Electrum W) E A) : steps hears m -> steps stays_armed m.
Proof. intros H e o. by apply hears_armed. Qed.
#[local] Hint Resolve steps_stays_armed | 10 : steps.
Lemma rearm_stays_armed : steps stays_armed rearm.
Proof. intros e o. apply rearm_armed. Qed.
#[local] Hint Resolve rearm_stays_armed : steps.
Lemma poll_all_hears due scripts : steps hears (st_for_each (poll_script due) scripts).
Proof. take_steps. Qed.
#[local] Hint Resolve poll_all_hears : steps.
Lemma poll_stays_armed : steps stays_armed poll_steps.
Proof. unfold poll_steps. take_steps. Qed.
Lemma poll_event_armed e o : el_armed e o -> el_armed (el_poll_event e).2 o.
Proof. intros H. pose proof (poll_stays_armed e o H) as Hp. unfold el_poll_event. by destruct (poll_steps e) as [[]]. Qed.

(** ** Subscribing *)
Lemma watching_set_sub spk sub e : watching (with_notifier (set_sub spk sub) e) = <[spk := sub_watchers sub]> (watching e).
Proof. unfold watching. cbn. apply fmap_insert. Qed.
(** One more outpoint on a subscribed script. *)
Lemma add_watch_armed spk ws sub o e :
  watching e !! spk = ws -> default ∅ ws ⊆ sub_watchers sub -> o ∈ sub_watchers sub ->
  subscribed (el_world e) spk \/ el_needs_rearm e = true ->
  stays_armed e (with_notifier (set_sub spk sub) e) /\ el_armed (with_notifier (set_sub spk sub) e) o.
Proof.
  intros Hw Hsub Ho Hs. split.
  - intros o' (spk' & ws' & Hs' & Ho' & Ha). destruct (decide (spk' = spk)) as [->|Hne].
    + exists spk, (sub_watchers sub). rewrite watching_set_sub, lookup_insert_eq. split_and!; [done| |done].
      apply Hsub. rewrite <- Hw, Hs'. exact Ho'.
    + exists spk', ws'. rewrite watching_set_sub, lookup_insert_ne by done. done.
  - exists spk, (sub_watchers sub). rewrite watching_set_sub, lookup_insert_eq. split_and!; [done|done|]. destruct Hs; [by right|by left].
Qed.
Lemma hears_subscribed spk e e' : hears e e' ->
  subscribed (el_world e) spk \/ el_needs_rearm e = true -> subscribed (el_world e') spk \/ el_needs_rearm e' = true.
Proof. intros [_ [Hr|[Hr Hs]]] [H|H]; [by right..|left; auto|right; congruence]. Qed.
Lemma note_all_hears spk hist : steps hears (st_for_each (note_entry (E := CallError) spk) hist).
Proof. take_steps. Qed.
Lemma subscribe_armed spk o e r e' : el_subscribe_script spk o e = (r, e') -> stays_armed e e' /\ (r = Ok () -> el_armed e' o).
Proof.
  unfold el_subscribe_script, gets. unfold mbind at 1, stateful_bind.
  pose proof (call_hears_hears _ _ (arm_subscription_hears spk e)) as Hh. pose proof (arm_subscription_Ok spk e) as Hok.
  destruct (arm_subscription spk e) as [[[]|x|] e1]; cbn in Hh; [specialize (Hok e1 eq_refl)|intros [= <- <-]; split; [intros ?; by apply hears_armed|done]..].
  assert (stays_armed e e1) as K1 by (intros ?; by apply hears_armed). unfold mbind at 1, stateful_bind.
  destruct (subs e1 !! spk) as [sub|] eqn:Es.
  - intros [= <- <-]. destruct (add_watch_armed spk (Some (sub_watchers sub)) {| sub with sub_watchers := {[o]} ∪ sub_watchers sub |} o e1)
      as [Ha Hb]; [unfold watching; by rewrite lookup_fmap, Es|cbn; set_solver|cbn; set_solver|by left|]. split; [by etrans|done].
  - unfold mbind at 1, stateful_bind. pose proof (call_hears_hears _ _ (call_hears_steps _ (history_keeps spk) e1)) as H2.
    destruct (call (es_script_get_history spk) e1) as [[hist|x|] e2] eqn:E2; cbn in H2; cycle 1.
    { intros [= <- <-]. split; [|done]. etrans; [exact K1|]. intros ?. by apply hears_armed. }
    { intros [= <- <-]. split; [|done]. etrans; [exact K1|]. intros ?. by apply hears_armed. }
    assert (stays_armed e e2) as K2 by (etrans; [exact K1|intros ?; by apply hears_armed]).
    unfold mbind at 1, stateful_bind, notify, modify. intros E3.
    destruct (add_watch_armed spk None {| no_subscription with sub_watchers := {[o]} |} o e2) as [Ha Hb];
      [destruct H2 as [-> _]; unfold watching; by rewrite lookup_fmap, Es|cbn; set_solver|cbn; set_solver|by eapply hears_subscribed; [|left]|].
    pose proof (steps_run _ _ _ _ _ (note_all_hears spk hist) E3) as H3.
    split; [etrans; [exact K2|]; etrans; [exact Ha|]; intros ?; by apply hears_armed|]. intros _. by eapply hears_armed.
Qed.
Lemma unsubscribe_armed spk o e o' : o' <> o -> el_armed e o' -> el_armed (el_unsubscribe_script spk o e).2 o'.
Proof.
  intros Hne (spk' & ws & Hs & Ho & Ha). unfold el_unsubscribe_script, gets. unfold mbind at 1, stateful_bind.
  destruct (subs e !! spk) as [sub|] eqn:Es; [|by exists spk', ws]. unfold mbind at 1, stateful_bind, notify at 1, modify at 1.
  destruct (decide (spk' = spk)) as [->|Hspk].
  - unfold watching in Hs. rewrite lookup_fmap, Es in Hs. injection Hs as <-. rewrite bool_decide_eq_false_2 by set_solver.
    exists spk, (sub_watchers sub ∖ {[o]}). unfold watching. cbn. rewrite fmap_insert, lookup_insert_eq. split_and!; [done|set_solver|done].
  - case_bool_decide.
    + exists spk', ws. unfold watching, mbind, stateful_bind, notify, modify. cbn. rewrite fmap_delete, fmap_insert, lookup_delete_ne, lookup_insert_ne by done. done.
    + exists spk', ws. unfold watching. cbn. rewrite fmap_insert, lookup_insert_ne by done. done.
Qed.

(** The Electrum backend implements the interface of the watcher's invariant. *)
#[local] Instance electrum_armed_backend deserialize_block : @ArmedBackend _ (electrum_backend deserialize_block) el_armed.
Proof.
  assert (forall {A} (m : stateful (Electrum W) CallError A) e o, steps hears m -> el_armed e o -> el_armed (as_wallet m e).2 o) as Hw.
  { intros A m e o Hm Ha. pose proof (hears_armed _ _ o (Hm e) Ha) as H. unfold as_wallet. by destruct (m e). }
  split; cbn; intros.
  - unfold as_wallet in *. destruct (el_subscribe_script spk o w) as [[[]|x|] e'] eqn:E; try done. apply subscribe_armed in E as [_ E]. by apply E.
  - unfold as_wallet. destruct (el_subscribe_script spk o w) as [r e'] eqn:E. apply subscribe_armed in E as [E _]. by apply E.
  - unfold as_wallet. pose proof (unsubscribe_armed spk o w o' ltac:(done) ltac:(done)). by destruct (el_unsubscribe_script spk o w).
  - unfold el_chain_name, gets, lift, mbind, stateful_bind. by destruct (validate_chain_name _).
  - done.
  - done.
  - apply Hw; [|done]. by apply steps_hears, call_hears_steps, transaction_keeps.
  - apply Hw; [|done]. by apply steps_hears, block_count_hears.
  - done.
  - apply Hw; [|done]. by apply steps_hears, tx_block_height_hears.
  - apply Hw; [|done]. by apply steps_hears, is_confirmed_spend_hears.
  - by apply poll_event_armed.
  - pose proof (load_stop_hears (E := CallError) w) as Hl. unfold load_stop in Hl. destruct (es_load_shutdown (el_world w)).
    eapply hears_armed; [|done]. by apply call_hears_hears.
  - eapply hears_armed; [|done]. split; [done|]. right. split; [done|]. intros spk. apply store_keeps.
Qed.

(** C35: Over an Electrum server no watch goes deaf.  The backend is what the watcher's
    invariant asks for: a subscription that succeeds arms the outpoint, and no call,
    however often the connection dies under it and is replaced, disarms an outpoint
    but its own unsubscription, where armed means that the script is subscribed on the
    connection held, or flagged to be subscribed again by the next poll.  So in every
    reachable state of a running watcher each outpoint of its table is armed in this
    sense or queued for another attempt. *)
Theorem electrum_keeps_watches_armed deserialize_block :
  @ArmedBackend _ (electrum_backend deserialize_block) el_armed /\
  forall ord disc e (n : Node (Electrum W)) o, WatchOrder ord ->
    let _ := electrum_backend deserialize_block in
    rtc (step ord disc) (spawn ord e) n -> nd_pc n <> Stopped ->
    is_Some (watches (wt_registry (nd_watcher n)) !! o) ->
    el_armed (wt_blockchain (nd_watcher n)) o \/ exists spk, (o, spk) ∈ wt_pending_subscribes (nd_watcher n).
Proof.
  split; [apply electrum_armed_backend|]. intros ord disc e n o Hord be Hr Hpc Ho.
  destruct (reachable_inv el_armed ord disc e n Hr) as [Hs _]. by apply (Hs Hpc).
Qed.

(** ** Answers *)
(** A spend reported as confirmed is that of a transaction the server gave, at a
    height it mined it at. *)
Lemma confirmed_spend_in_sound o history : forall e e', confirmed_spend_in o history e = (Ok true, e') ->
  exists entry tx w w', entry ∈ history /\ he_tx_hash entry <> op_txid o /\ 0 < he_height entry /\
    es_transaction_get (he_tx_hash entry) w = (Ok tx, w') /\ tx_spends o tx = true.
Proof.
  induction history as [|entry history IH]; intros e e'; cbn; [done|].
  destruct (_ || _) eqn:Hskip.
  - intros (x & tx & w & w' & Hx & H)%IH. exists x, tx, w, w'. split; [by apply elem_of_cons; right|done].
  - to_prop. intros (tx & e1 & Hc & Hrest)%st_bind_Ok.
    pose proof (call_answered (es_transaction_get (he_tx_hash entry)) e ltac:(intros w; apply transaction_keeps)) as Ha. rewrite Hc in Ha.
    destruct Ha as [w Ha]. destruct (tx_spends o tx) eqn:Hsp.
    + exists entry, tx, w, (el_world e1). split_and!; [by apply elem_of_cons; left|done|done|done|done].
    + apply IH in Hrest as (x & tx' & w2 & w' & Hx & Hrest). exists x, tx', w2, w'. split; [by apply elem_of_cons; right|done].
Qed.
Lemma confirmations_in_range tip height c :
  0 < height -> in_width 32 (tip + 1) -> checked_confirmations tip height = Ok c -> c = tip + 1 - height /\ 1 <= c.
Proof.
  unfold checked_confirmations. intros Hh Ht H. inv_ok H. to_prop. rewrite wrap_small; unfold in_width in *; lia.
Qed.
End armed.

(** ** Transactions are not lost *)
Section accounted.
Context {lib : BitcoinLib} {W : Type} {server : ElectrumServer W}.
Context (subscribed : W -> Script -> Prop) {laws : ElectrumLaws server subscribed}.
Implicit Types (e : Electrum W) (spk : Script) (txid : Txid) (log : list WatchEvent).
Abbreviation subs e := (ns_subscriptions (el_notifier e)).

(** The server gave the transaction, and it is among the events. *)
Definition surfaced log txid : Prop :=
  exists tx w w', es_transaction_get txid w = (Ok tx, w') /\ TxSeen (es_serialize_tx tx) ∈ log.
(** What a script has seen was an event, or waits in the queue, or its fetches have
    failed so far and are counted, for whatever reason they failed. *)
Definition accounted log (n : NotifierState) : Prop :=
  forall spk sub txid, ns_subscriptions n !! spk = Some sub -> txid ∈ sub_seen sub ->
    surfaced (log ++ ns_pending n) txid \/ is_Some (ns_fetch_attempts n !! txid).
Definition stays_accounted e e' : Prop := forall log, accounted log (el_notifier e) -> accounted log (el_notifier e').
#[local] Instance stays_accounted_preorder : PreOrder stays_accounted.
Proof. split; [by intros e log|]. intros e1 e2 e3 H1 H2 log Ho. auto. Qed.
#[local] Hint Extern 1 (PreOrder stays_accounted) => apply stays_accounted_preorder : steps.

Lemma surfaced_mono log log' txid : log ⊆ log' -> surfaced log txid -> surfaced log' txid.
Proof. intros H (tx & w & w' & Ht & Hin). exists tx, w, w'. split; [done|]. by apply H. Qed.
Lemma accounted_more log l n : accounted log n -> accounted (log ++ l) n.
Proof.
  intros H spk sub txid Hs Ht. destruct (H spk sub txid Hs Ht) as [Hl|Hl]; [left|by right]. eapply surfaced_mono; [|exact Hl].
  intros ev. rewrite !elem_of_app. tauto.
Qed.
Lemma same_notifier_accounted {E A} (m : stateful (Electrum W) E A) :
  (forall e, el_notifier (m e).2 = el_notifier e) -> steps stays_accounted m.
Proof. intros H e log. by rewrite H. Qed.
Lemma notify_accounted {E} f :
  (forall n, ns_subscriptions (f n) = ns_subscriptions n /\ ns_fetch_attempts (f n) = ns_fetch_attempts n /\ ns_pending (f n) = ns_pending n) ->
  steps stays_accounted (notify (W := W) (E := E) f).
Proof. intros Hf e log H. destruct (Hf (el_notifier e)) as (Hs & Ha & Hp). unfold accounted. cbn. rewrite Hs, Ha, Hp. exact H. Qed.
Lemma call_accounted {A} (f : stateful W ElectrumError A) : keeps_subscribed f -> steps stays_accounted (call f).
Proof. intros Hf e log. by destruct (call_hears_steps _ f Hf e) as (-> & _). Qed.
Lemma arm_accounted spk : steps stays_accounted (arm_subscription spk).
Proof. intros e log. by destruct (arm_subscription_hears _ spk e) as (-> & _). Qed.
Lemma reconnect_accounted : steps stays_accounted reconnect_client.
Proof. intros e log. by destruct (reconnect_hears subscribed e) as (-> & _). Qed.

(** Fetching what was just marked as seen accounts for it. *)
Definition accounted_but log spk txid (n : NotifierState) : Prop :=
  forall spk' sub txid', ns_subscriptions n !! spk' = Some sub -> txid' ∈ sub_seen sub ->
    (spk' = spk /\ txid' = txid) \/ surfaced (log ++ ns_pending n) txid' \/ is_Some (ns_fetch_attempts n !! txid').
Lemma got_tx_accounts log spk txid tx w w' n :
  es_transaction_get txid w = (Ok tx, w') -> accounted_but log spk txid n -> accounted log (got_tx txid tx n).
Proof.
  intros Ht H spk' sub txid' Hs Hin. cbn in Hs |- *. rewrite app_assoc. destruct (decide (txid' = txid)) as [->|Hne].
  - left. exists tx, w, w'. split; [done|]. apply elem_of_app. right. by apply list_elem_of_singleton.
  - destruct (H spk' sub txid' Hs Hin) as [[_ ?]|[Hl|Hl]]; [done|left|right].
    + eapply surfaced_mono; [|exact Hl]. intros ev. rewrite !elem_of_app. tauto.
    + by rewrite lookup_delete_ne.
Qed.
Lemma missed_tx_accounts log cap spk txid n :
  accounted_but log spk txid n -> accounted log (missed_tx cap spk txid n).
Proof.
  intros H. unfold missed_tx, retry_fetch. set (tries := wrap 8 _).
  assert (forall spk' sub txid', ns_subscriptions n !! spk' = Some sub -> txid' ∈ sub_seen sub ->
    surfaced (log ++ ns_pending n) txid' \/ is_Some (<[txid := tries]> (ns_fetch_attempts n) !! txid')) as Ha.
  { intros spk' sub txid' Hs Hin. destruct (decide (txid' = txid)) as [->|Hne]; [right; rewrite lookup_insert_eq; eauto|].
    rewrite lookup_insert_ne by done. destruct (H spk' sub txid' Hs Hin) as [[_ ?]|]; done. }
  destruct (tries <=? cap); [|exact Ha]. cbn. destruct (ns_subscriptions n !! spk) as [sub|] eqn:Es; [|exact Ha].
  intros spk' sub' txid'. cbn. destruct (decide (spk' = spk)) as [->|Hne]; [|rewrite lookup_insert_ne by done; apply Ha].
  rewrite lookup_insert_eq. intros [= <-] Hin. apply (Ha spk sub); [done|]. cbn in Hin. set_solver.
Qed.
Lemma fetch_entry_accounts {E} spk txid log e :
  accounted_but log spk txid (el_notifier e) -> accounted log (el_notifier (fetch_entry (E := E) spk txid e).2).
Proof.
  intros H. unfold fetch_entry, mbind, stateful_bind, attempt.
  pose proof (call_answered _ (es_transaction_get txid) e ltac:(intros w; apply transaction_keeps)) as Ha.
  destruct (call_hears_steps _ _ (transaction_keeps txid) e) as (Hn & _).
  destruct (call (es_transaction_get txid) e) as [[tx|x|] e1]; cbn in Ha, Hn |- *; [| |done].
  - destruct Ha as [w Ha]. rewrite Hn. by eapply got_tx_accounts.
  - rewrite Hn. by apply missed_tx_accounts.
Qed.
Lemma note_entry_accounted {E} spk h : steps stays_accounted (note_entry (E := E) spk h).
Proof.
  intros e log H. unfold note_entry, gets. unfold mbind at 1, stateful_bind. destruct (subs e !! spk) as [sub|] eqn:Es; [|done].
  case_bool_decide as Hseen; [done|]. apply fetch_entry_accounts. intros spk' sub' txid' Hs Hin. cbn in Hs |- *.
  destruct (decide (spk' = spk)) as [->|Hne]; [|rewrite lookup_insert_ne in Hs by done; right; by eapply H].
  rewrite lookup_insert_eq in Hs. injection Hs as <-. cbn in Hin. apply elem_of_union in Hin as [->%elem_of_singleton|Hin]; [by left|].
  right. by eapply H.
Qed.

(** ** Polling *)
#[local] Hint Resolve note_entry_accounted call_accounted arm_accounted reconnect_accounted headers_subscribe_keeps headers_pop_keeps
  script_pop_keeps history_keeps ping_keeps : steps.
#[local] Hint Extern 2 (steps stays_accounted (modify _)) => by apply same_notifier_accounted : steps.
#[local] Hint Extern 2 (steps stays_accounted (notify _)) => by apply notify_accounted : steps.
#[local] Hint Extern 2 (steps stays_accounted flag_rearm) => by apply same_notifier_accounted : steps.
(** What a poll returns early is an event. *)
Definition polls {A} (m : stateful (Electrum W) (option WatchEvent) A) : Prop := forall e log, accounted log (el_notifier e) ->
  match m e with (Err ev, e') => accounted (log ++ option_list ev) (el_notifier e') | (_, e') => accounted log (el_notifier e') end.
Lemma polls_steps {A} (m : stateful (Electrum W) (option WatchEvent) A) : steps stays_accounted m -> polls m.
Proof. intros Hm e log H. specialize (Hm e log H). destruct (m e) as [[a|ev|] e']; [done|by apply accounted_more|done]. Qed.
Lemma polls_bind {A B} (m : stateful (Electrum W) (option WatchEvent) A) (f : A -> stateful (Electrum W) (option WatchEvent) B) :
  polls m -> (forall a, polls (f a)) -> polls (m ≫= f).
Proof.
  intros Hm Hf e log H. specialize (Hm e log H). unfold mbind, stateful_bind. destruct (m e) as [[a|ev|] e1]; [|done..]. by apply Hf.
Qed.
Lemma pop_pending_polls : polls (pop_pending (W := W)).
Proof.
  intros e log H. unfold pop_pending. destruct (ns_pending (el_notifier e)) as [|ev rest] eqn:Ep; [done|].
  intros spk sub txid Hs Hin. destruct (H spk sub txid Hs Hin) as [Hl|Hl]; [left|by right]. rewrite Ep in Hl. cbn. by rewrite <- app_assoc.
Qed.
Lemma recycle_accounted : steps stays_accounted recycle.
Proof. unfold recycle. take_steps. Qed.
Lemma rearm_one_accounted spk : steps stays_accounted (rearm_one spk).
Proof. unfold rearm_one. take_steps. Qed.
#[local] Hint Resolve rearm_one_accounted : steps.
Lemma rearm_accounted : steps stays_accounted rearm.
Proof. unfold rearm. take_steps. Qed.
Lemma now_accounted : steps stays_accounted now.
Proof. apply same_notifier_accounted. intros e. unfold now. by destruct (es_now (el_world e)). Qed.
#[local] Hint Resolve now_accounted : steps.
Lemma ping_accounted : steps stays_accounted ping.
Proof. unfold ping. take_steps. Qed.
Lemma read_history_accounted spk : steps stays_accounted (read_history spk).
Proof. unfold read_history. take_steps. Qed.
#[local] Hint Resolve read_history_accounted : steps.
Lemma poll_script_accounted due spk : steps stays_accounted (poll_script due spk).
Proof. unfold poll_script. take_steps. Qed.
#[local] Hint Resolve poll_script_accounted : steps.
Lemma pop_header_accounted : steps stays_accounted pop_header.
Proof. unfold pop_header. take_steps. Qed.
Lemma poll_steps_polls : polls poll_steps.
Proof.
  unfold poll_steps. apply polls_bind; [apply pop_pending_polls|intros _].
  apply polls_bind; [apply polls_steps, recycle_accounted|intros _]. apply polls_bind; [apply polls_steps, rearm_accounted|intros _].
  apply polls_bind; [apply polls_steps, ping_accounted|intros due]. apply polls_bind; [by apply polls_steps; take_steps|intros scripts].
  apply polls_bind; [by apply polls_steps; take_steps|intros _]. apply polls_bind; [apply pop_pending_polls|intros _].
  apply polls_steps, pop_header_accounted.
Qed.
Lemma poll_event_accounted log e ev e' :
  el_poll_event e = (ev, e') -> accounted log (el_notifier e) -> accounted (log ++ option_list ev) (el_notifier e').
Proof.
  unfold el_poll_event. intros E H. pose proof (poll_steps_polls e log H) as Hp.
  destruct (poll_steps e) as [[r|r|] e1]; injection E as <- <-; [by apply accounted_more|done|by apply accounted_more].
Qed.

(** ** Subscribing *)
Lemma subscribe_accounted spk o : steps stays_accounted (el_subscribe_script spk o).
Proof.
  unfold el_subscribe_script. apply steps_bind; [exact _|auto with steps|intros _].
  intros e. unfold gets, mbind at 1, stateful_bind. destruct (subs e !! spk) as [sub|] eqn:Es.
  - intros log H spk' sub' txid'. cbn. destruct (decide (spk' = spk)) as [->|Hne]; [|rewrite lookup_insert_ne by done; apply H].
    rewrite lookup_insert_eq. intros [= <-] Hin. by eapply H.
  - match goal with |- stays_accounted _ (?m _).2 => assert (steps stays_accounted m) as Hm; [|apply Hm] end. 
    apply steps_bind; [exact _|auto with steps|intros hist]. apply steps_bind; [exact _| |intros _; take_steps].
    intros e1 log H spk' sub' txid'. cbn. destruct (decide (spk' = spk)) as [->|Hne]; [|rewrite lookup_insert_ne by done; apply H].
    rewrite lookup_insert_eq. intros [= <-]. cbn. set_solver.
Qed.
Lemma unsubscribe_accounted spk o : steps stays_accounted (el_unsubscribe_script (W := W) spk o).
Proof.
  intros e log H. unfold el_unsubscribe_script, gets. unfold mbind at 1, stateful_bind. destruct (subs e !! spk) as [sub|] eqn:Es; [|done].
  unfold mbind at 1, stateful_bind, notify at 1, modify at 1. case_bool_decide.
  - intros spk' sub' txid'. unfold mbind, stateful_bind, notify, modify. cbn. rewrite lookup_delete_Some. intros [Hne Hs].
    rewrite lookup_insert_ne in Hs by done. by eapply H.
  - intros spk' sub' txid'. cbn. destruct (decide (spk' = spk)) as [->|Hne]; [|rewrite lookup_insert_ne by done; apply H].
    rewrite lookup_insert_eq. intros [= <-] Hin. by eapply H.
Qed.

(** ** Reading a history *)
(** An entry was seen by its script, or the script is to be read again. *)
Definition noted spk txid (n : NotifierState) : Prop :=
  (exists sub, ns_subscriptions n !! spk = Some sub /\ txid ∈ sub_seen sub) \/ spk ∈ ns_dirty n.
Lemma missed_tx_noted cap spk txid txid' n : noted spk txid' n -> noted spk txid' (missed_tx cap spk txid n).
Proof.
  intros H. unfold missed_tx. destruct (retry_fetch _ _ _) as [again attempts]. destruct again; [|done]. right. cbn. set_solver.
Qed.
Lemma fetch_entry_noted {E} spk txid txid' e :
  noted spk txid' (el_notifier e) -> (fetch_entry (E := E) spk txid e).1 = Ok () /\ noted spk txid' (el_notifier (fetch_entry (E := E) spk txid e).2).
Proof.
  intros H. unfold fetch_entry, mbind, stateful_bind, attempt. pose proof (call_returns _ _ e (transaction_keeps txid)) as Hr.
  destruct (call_hears_steps _ _ (transaction_keeps txid) e) as (Hn & _).
  destruct (call (es_transaction_get txid) e) as [[tx|x|] e1]; cbn in Hr, Hn |- *; [| |done]; rewrite Hn; split; [done|exact H|done|].
  by apply missed_tx_noted.
Qed.
Lemma note_entry_noted {E} spk h txid e :
  is_Some (subs e !! spk) -> noted spk txid (el_notifier e) \/ txid = he_tx_hash h ->
  (note_entry (E := E) spk h e).1 = Ok () /\ noted spk txid (el_notifier (note_entry (E := E) spk h e).2).
Proof.
  intros [sub Es] H. unfold note_entry, gets. unfold mbind, stateful_bind. rewrite Es. case_bool_decide as Hs.
  - split; [done|]. destruct H as [H| ->]; [done|left; eauto].
  - apply fetch_entry_noted. unfold notify, modify. cbn. destruct H as [[(sub' & Hs' & Hin)|Hd]| ->]; [left|by right|left].
    + rewrite Es in Hs'. injection Hs' as <-. eexists. cbn. rewrite lookup_insert_eq. split; [done|]. cbn. set_solver.
    + eexists. cbn. rewrite lookup_insert_eq. split; [done|]. cbn. set_solver.
Qed.
Lemma note_entry_keeps_sub {E} spk h e : is_Some (subs e !! spk) -> is_Some (subs (note_entry (E := E) spk h e).2 !! spk).
Proof.
  intros [sub Hs]. destruct (note_entry_hears subscribed (E := E) spk h e) as [Hw _]. unfold watching in Hw.
  apply (f_equal (fun m => m !! spk)) in Hw. rewrite !lookup_fmap, Hs in Hw.
  destruct (subs (note_entry (E := E) spk h e).2 !! spk); [eauto|done].
Qed.
Lemma note_all_noted {E} spk txid hist : forall e, is_Some (subs e !! spk) ->
  noted spk txid (el_notifier e) \/ txid ∈ map he_tx_hash hist ->
  (st_for_each (note_entry (E := E) spk) hist e).1 = Ok () /\ noted spk txid (el_notifier (st_for_each (note_entry (E := E) spk) hist e).2).
Proof.
  induction hist as [|h hist IH]; intros e Hs H; cbn.
  - split; [done|]. destruct H as [H|H]; [done|by apply elem_of_nil in H].
  - unfold mbind, stateful_bind. pose proof (note_entry_keeps_sub (E := E) spk h e Hs) as Hs'.
    assert ((note_entry (E := E) spk h e).1 = Ok ()) as Hr by (apply (note_entry_noted spk h (he_tx_hash h)); auto).
    assert (noted spk txid (el_notifier (note_entry (E := E) spk h e).2) \/ txid ∈ map he_tx_hash hist) as H'.
    { cbn in H. rewrite elem_of_cons in H. destruct H as [H|[H|H]]; [left..|by right]; apply note_entry_noted; auto. }
    destruct (note_entry (E := E) spk h e) as [r e1]. cbn in Hr, Hs', H'. subst r. by apply IH.
Qed.

(** What a read does to an entry.  [given_up]: the count of its failed fetches has
    passed the limit. *)
Definition seen_by spk (n : NotifierState) txid : Prop :=
  exists sub, ns_subscriptions n !! spk = Some sub /\ txid ∈ sub_seen sub.
Definition given_up (cap : Z) (n : NotifierState) txid : Prop :=
  exists tries, ns_fetch_attempts n !! txid = Some tries /\ cap < tries.
(** The entry had been seen before; or it is now, and its transaction is queued as an
    event or given up; or it is left unseen and its script flagged, so that the next
    read fetches it again. *)
Definition handled (cap : Z) (n n' : NotifierState) spk txid : Prop :=
  seen_by spk n txid \/
  (seen_by spk n' txid /\ (surfaced (ns_pending n') txid \/ given_up cap n' txid)) \/
  (~ seen_by spk n' txid /\ spk ∈ ns_dirty n').

(** What was seen since [n0] is queued or given up. *)
Definition fresh_settled (cap : Z) (n0 : NotifierState) spk (n : NotifierState) : Prop :=
  forall txid, seen_by spk n txid -> seen_by spk n0 txid \/ surfaced (ns_pending n) txid \/ given_up cap n txid.

Lemma fetch_entry_settles {E} cap n0 spk txid e :
  ec_max_retries (el_config e) = cap ->
  (forall txid', seen_by spk (el_notifier e) txid' -> txid' = txid \/ seen_by spk n0 txid' \/
     surfaced (ns_pending (el_notifier e)) txid' \/ given_up cap (el_notifier e) txid') ->
  fresh_settled cap n0 spk (el_notifier (fetch_entry (E := E) spk txid e).2) /\
  el_config (fetch_entry (E := E) spk txid e).2 = el_config e.
Proof.
  intros Hcap H. unfold fetch_entry, mbind, stateful_bind, attempt.
  pose proof (call_answered _ (es_transaction_get txid) e ltac:(intros w; apply transaction_keeps)) as Ha.
  destruct (call_hears_steps _ _ (transaction_keeps txid) e) as (Hn & Hcf & _).
  destruct (call (es_transaction_get txid) e) as [[tx|x|] e1]; cbn in Ha, Hn, Hcf |- *; [| |done]; (split; [|done]); rewrite Hn.
  - destruct Ha as [w Ha]. intros txid' Hs. destruct (decide (txid' = txid)) as [->|Hne].
    + right; left. exists tx, w, (el_world e1). split; [done|]. cbn. apply elem_of_app. right. by apply list_elem_of_singleton.
    + destruct (H txid' Hs) as [|[?|[Hl|(k & Hk & Hlt)]]]; [done|by left|right; left|right; right].
      * eapply surfaced_mono; [|exact Hl]. intros ev Hev. cbn. apply elem_of_app. by left.
      * exists k. cbn. by rewrite lookup_delete_ne.
  - rewrite Hcf, Hcap. unfold missed_tx, retry_fetch. set (tries := wrap 8 _).
    assert (forall txid', txid' <> txid -> seen_by spk (el_notifier e) txid' -> seen_by spk n0 txid' \/
      surfaced (ns_pending (el_notifier e)) txid' \/ exists k, <[txid := tries]> (ns_fetch_attempts (el_notifier e)) !! txid' = Some k /\ cap < k) as Ho.
    { intros txid' Hne Hs. destruct (H txid' Hs) as [|[?|[?|(k & Hk & Hlt)]]]; [done|by left|by right; left|right; right].
      exists k. by rewrite lookup_insert_ne. }
    destruct (Z.leb_spec tries cap) as [Hle|Hgt].
    + intros txid' (sub' & Hs' & Hin'). cbn in Hs' |- *. destruct (ns_subscriptions (el_notifier e) !! spk) as [sub|] eqn:Es; cbn in Hs'; [|congruence].
      rewrite lookup_insert_eq in Hs'. injection Hs' as <-. cbn in Hin'. apply Ho; [set_solver|]. exists sub. set_solver.
    + intros txid' Hs. destruct (decide (txid' = txid)) as [->|Hne]; [|by apply Ho].
      right; right. exists tries. cbn. rewrite lookup_insert_eq. split; [done|lia].
Qed.
Lemma note_entry_settles {E} cap n0 spk h e :
  ec_max_retries (el_config e) = cap -> fresh_settled cap n0 spk (el_notifier e) ->
  fresh_settled cap n0 spk (el_notifier (note_entry (E := E) spk h e).2) /\
  el_config (note_entry (E := E) spk h e).2 = el_config e.
Proof.
  intros Hcap H. unfold note_entry, gets. unfold mbind at 1 3, stateful_bind. destruct (subs e !! spk) as [sub|] eqn:Es; [|done].
  case_bool_decide as Hs; [done|].
  match goal with |- context [(_ ≫= _) e] => unfold mbind, stateful_bind, notify, modify end.
  set (e1 := with_notifier _ e). destruct (fetch_entry_settles (E := E) cap n0 spk (he_tx_hash h) e1 Hcap) as [H1 H2]; [|done].
  intros txid' (sub' & Hs' & Hin'). cbn in Hs' |- *. rewrite lookup_insert_eq in Hs'. injection Hs' as <-. cbn in Hin'.
  apply elem_of_union in Hin' as [->%elem_of_singleton|Hin']; [by left|right]. apply H. by exists sub.
Qed.
Lemma note_all_settles {E} cap n0 spk hist : forall e,
  is_Some (subs e !! spk) -> ec_max_retries (el_config e) = cap -> fresh_settled cap n0 spk (el_notifier e) ->
  fresh_settled cap n0 spk (el_notifier (st_for_each (note_entry (E := E) spk) hist e).2).
Proof.
  induction hist as [|h hist IH]; intros e Hsub Hcap H; cbn; [done|]. unfold mbind, stateful_bind.
  destruct (note_entry_settles (E := E) cap n0 spk h e Hcap H) as [H1 H2].
  pose proof (note_entry_keeps_sub (E := E) spk h e Hsub) as Hs1.
  assert ((note_entry (E := E) spk h e).1 = Ok ()) as Hr by (apply (note_entry_noted spk h (he_tx_hash h)); auto).
  destruct (note_entry (E := E) spk h e) as [r e1]. cbn in *. subst r. apply IH; [done|by rewrite H2|done].
Qed.
(** Every entry of a history that is read is handled. *)
Lemma note_all_handled {E} spk txid hist e :
  is_Some (subs e !! spk) -> txid ∈ map he_tx_hash hist ->
  handled (ec_max_retries (el_config e)) (el_notifier e) (el_notifier (st_for_each (note_entry (E := E) spk) hist e).2) spk txid.
Proof.
  intros Hs Ht. destruct (note_all_noted (E := E) spk txid hist e Hs (or_intror Ht)) as [_ Hn].
  pose proof (note_all_settles (E := E) (ec_max_retries (el_config e)) (el_notifier e) spk hist e Hs eq_refl) as Hf.
  specialize (Hf (fun txid H => or_introl H)). set (n' := el_notifier (st_for_each _ _ _).2) in *.
  assert (seen_by spk n' txid \/ (~ seen_by spk n' txid /\ spk ∈ ns_dirty n')) as [Hseen|Hd].
  { unfold seen_by. destruct (ns_subscriptions n' !! spk) as [sub|] eqn:Es.
    - destruct (decide (txid ∈ sub_seen sub)) as [Hin|Hin]; [left; eauto|right].
      destruct Hn as [(sub' & Es' & Hin')|Hd]; [simplify_eq; done|]. split; [|done]. intros (sub' & Es' & Hin'). simplify_eq; done.
    - right. destruct Hn as [(sub' & Es' & _)|Hd]; [congruence|]. split; [|done]. intros (sub' & Es' & _). congruence. }
  - destruct (Hf txid Hseen) as [?|?]; [by left|right; left; done].
  - by right; right.
Qed.

(** ** The turn of a script in a poll *)
Definition told_nothing spk : Prop := exists w w', es_script_pop spk w = (Ok None, w').
Definition told_history spk hist : Prop := exists w w', es_script_get_history spk w = (Ok hist, w').
(** Its history was read and every entry handled, or it is flagged to be read by a later
    poll with nothing newly marked as seen. *)
Definition read_or_flagged spk e e' : Prop :=
  (spk ∈ ns_dirty (el_notifier e') /\ subs e' = subs e) \/
  exists hist, told_history spk hist /\ forall txid, txid ∈ map he_tx_hash hist ->
    handled (ec_max_retries (el_config e)) (el_notifier e) (el_notifier e') spk txid.

Lemma read_history_turn spk e : is_Some (subs e !! spk) ->
  (read_history spk e).1 = Ok () /\ read_or_flagged spk e (read_history spk e).2.
Proof.
  intros Hs. unfold read_history, mbind, stateful_bind, attempt.
  pose proof (call_answered _ (es_script_get_history spk) e ltac:(intros w; apply history_keeps)) as Ha.
  destruct (call_hears_steps _ _ (history_keeps spk) e) as (Hn & Hcf & _).
  destruct (call (es_script_get_history spk) e) as [[hist|x|] e1]; cbn in Ha, Hn, Hcf |- *; [| |done].
  - destruct Ha as [w Ha]. rewrite <- Hn in Hs. split.
    + destruct hist as [|h hist]; [done|].
      by apply (note_all_noted (E := option WatchEvent) spk (he_tx_hash h) (h :: hist) e1 Hs); right; left.
    + right. exists hist. split; [by exists w, (el_world e1)|]. intros txid Ht. rewrite <- Hn, <- Hcf. by apply note_all_handled.
  - split; [done|]. left. cbn. rewrite Hn. set_solver.
Qed.

(** A script that is not due to be read again, and of which the connection has no
    news, is left as it was. *)
Definition quiet due spk e e' : Prop :=
  el_notifier e' = el_notifier e /\ told_nothing spk /\ ~ (due = true /\ spk ∈ ns_dirty (el_notifier e)).
Lemma poll_script_run due spk e :
  poll_script due spk e =
  if due && bool_decide (spk ∈ ns_dirty (el_notifier e)) then
    read_history spk (with_notifier (fun n => {| n with ns_dirty := ns_dirty n ∖ {[spk]} |}) e)
  else
    match call (es_script_pop spk) e with
    | (Ok (Some _), e1) => read_history spk e1
    | (Ok None, e1) => (Ok (), e1)
    | (Err _, e1) =>
        match arm_subscription spk e1 with
        | (Panic, e2) => (Panic, e2)
        | (_, e2) => (Ok (), with_notifier (mark_dirty spk) e2)
        end
    | (Panic, e1) => (Panic, e1)
    end.
Proof.
  unfold poll_script, gets, notify, modify, mbind, stateful_bind, attempt. destruct (due && _); [done|].
  destruct (call (es_script_pop spk) e) as [[[st|]|x|] e1]; try done. by destruct (arm_subscription spk e1) as [[]].
Qed.
Lemma poll_script_turn due spk e : is_Some (subs e !! spk) ->
  (poll_script due spk e).1 = Ok () /\
  (quiet due spk e (poll_script due spk e).2 \/ read_or_flagged spk e (poll_script due spk e).2).
Proof.
  intros Hs. rewrite poll_script_run. destruct (due && _) eqn:Ed.
  - set (e1 := with_notifier _ e). destruct (read_history_turn spk e1 Hs) as [H1 H2]. split; [done|]. right.
    destruct H2 as [[H2 H3]|H2]; [by left|by right].
  - pose proof (call_answered _ (es_script_pop spk) e ltac:(intros w; apply script_pop_keeps)) as Ha.
    destruct (call_hears_steps _ _ (script_pop_keeps spk) e) as (Hn & Hcf & _).
    destruct (call (es_script_pop spk) e) as [[[st|]|x|] e1]; cbn in Ha, Hn, Hcf |- *; [| | |done].
    + rewrite <- Hn in Hs. destruct (read_history_turn spk e1 Hs) as [H1 H2]. split; [done|]. right.
      unfold read_or_flagged in *. by rewrite Hn, Hcf in H2.
    + split; [done|]. left. destruct Ha as [w Ha]. split_and!; [done|by exists w, (el_world e1)|].
      intros [-> Hd]. by rewrite bool_decide_eq_true_2 in Ed.
    + pose proof (arm_subscription_returns subscribed spk e1) as Hr.
      destruct (arm_subscription_hears subscribed spk e1) as (Hn1 & _).
      destruct (arm_subscription spk e1) as [[u|y|] e2]; cbn in Hr, Hn1 |- *; [| |done];
        (split; [done|]); right; left; cbn; rewrite Hn1, Hn; set_solver.
Qed.

(** ** A whole poll *)
(** Nothing is forgotten of a script: its subscription is as it was, its flag and the
    queued events stay. *)
Definition alone spk e e' : Prop :=
  subs e' !! spk = subs e !! spk /\ el_config e' = el_config e /\
  (spk ∈ ns_dirty (el_notifier e) -> spk ∈ ns_dirty (el_notifier e')) /\ ns_pending (el_notifier e) ⊆ ns_pending (el_notifier e').
#[local] Instance alone_preorder spk : PreOrder (alone spk).
Proof.
  split; [intros e; by split_and!|]. intros e1 e2 e3 (A1 & B1 & C1 & D1) (A2 & B2 & C2 & D2).
  split_and!; [congruence|congruence|auto|by etrans].
Qed.
#[local] Hint Extern 1 (PreOrder (alone _)) => apply alone_preorder : steps.
Lemma steps_alone {E A} spk (m : stateful (Electrum W) E A) : steps (call_hears subscribed) m -> steps (alone spk) m.
Proof. intros H e. destruct (H e) as (Hn & Hc & _). unfold alone. rewrite Hn. by split_and!. Qed.
Lemma notify_alone {E} spk f :
  (forall n, ns_subscriptions (f n) !! spk = ns_subscriptions n !! spk /\ (spk ∈ ns_dirty n -> spk ∈ ns_dirty (f n)) /\ ns_pending n ⊆ ns_pending (f n)) ->
  steps (alone spk) (notify (W := W) (E := E) f).
Proof. intros H e. destruct (H (el_notifier e)) as (H1 & H2 & H3). by split_and!. Qed.
Lemma modify_alone {E} spk f : (forall e : Electrum W, el_notifier (f e) = el_notifier e /\ el_config (f e) = el_config e) ->
  steps (alone spk) (modify (E := E) f).
Proof. intros H e. destruct (H e) as [H1 H2]. unfold alone. cbn. by rewrite H1, H2. Qed.
Lemma call_alone {A} spk (f : stateful W ElectrumError A) : keeps_subscribed f -> steps (alone spk) (call f).
Proof. intros Hf. by apply steps_alone, (call_hears_steps subscribed). Qed.
Lemma arm_alone spk spk' : steps (alone spk) (arm_subscription spk').
Proof. apply steps_alone, (arm_subscription_hears subscribed). Qed.
Lemma reconnect_alone spk : steps (alone spk) reconnect_client.
Proof. apply steps_alone, (reconnect_hears subscribed). Qed.
#[local] Hint Resolve call_alone arm_alone reconnect_alone transaction_keeps : steps.
Lemma mark_alone {E} spk spk' : steps (alone spk) (notify (W := W) (E := E) (mark_dirty spk')).
Proof. apply notify_alone. intros n. cbn. split_and!; [done|set_solver|done]. Qed.
#[local] Hint Resolve mark_alone : steps.
#[local] Hint Extern 2 (steps (alone _) (modify _)) => by apply modify_alone : steps.
#[local] Hint Extern 2 (steps (alone _) flag_rearm) => by apply modify_alone : steps.

Lemma fetch_entry_alone {E} spk spk' txid : spk' <> spk -> steps (alone spk) (fetch_entry (E := E) spk' txid).
Proof.
  intros Hne. unfold fetch_entry. take_steps; [apply notify_alone; intros n; cbn; split_and!; [done|done|set_solver]|].
  apply notify_alone. intros n. unfold missed_tx. destruct (retry_fetch _ _ _) as [[] attempts]; [cbn|done].
  destruct (ns_subscriptions n !! spk'); cbn; split_and!; try done; try set_solver. by rewrite lookup_insert_ne.
Qed.
Lemma note_entry_alone {E} spk spk' h : spk' <> spk -> steps (alone spk) (note_entry (E := E) spk' h).
Proof.
  intros Hne. unfold note_entry. pose proof (fetch_entry_alone (E := E) spk spk' (he_tx_hash h) Hne). take_steps.
  apply notify_alone. intros n. split_and!; [cbn; by rewrite lookup_insert_ne|done|done].
Qed.
Lemma poll_script_alone due spk spk' : spk' <> spk -> steps (alone spk) (poll_script due spk').
Proof.
  intros Hne. unfold poll_script, read_history. pose proof (fun h => note_entry_alone (E := option WatchEvent) spk spk' h Hne). take_steps.
  apply notify_alone. intros n. split_and!; [done|set_solver|done].
Qed.
Lemma recycle_alone spk : steps (alone spk) recycle.
Proof. unfold recycle. take_steps. Qed.
Lemma rearm_alone spk : steps (alone spk) rearm.
Proof. unfold rearm, rearm_one. take_steps. Qed.
Lemma now_alone spk : steps (alone spk) now.
Proof. intros e. unfold now. by destruct (es_now (el_world e)). Qed.
#[local] Hint Resolve now_alone : steps.
Lemma ping_alone spk : steps (alone spk) ping.
Proof. unfold ping. take_steps. by apply notify_alone. Qed.
Lemma pop_header_alone spk : steps (alone spk) pop_header.
Proof. unfold pop_header. take_steps. by apply notify_alone. Qed.

(** The clock of the pings stays as it was. *)
Definition same_pace e e' : Prop :=
  el_ping_interval e' = el_ping_interval e /\ ns_last_ping (el_notifier e') = ns_last_ping (el_notifier e).
#[local] Instance same_pace_preorder : PreOrder same_pace.
Proof. split; [by intros e|]. intros e1 e2 e3 [A1 B1] [A2 B2]. split; congruence. Qed.
#[local] Hint Extern 1 (PreOrder same_pace) => apply same_pace_preorder : steps.
Lemma on_client_pace {E A} (m : stateful W E A) : steps same_pace (on_client m).
Proof. intros e. unfold on_client. by destruct (m (el_world e)). Qed.
Lemma load_stop_pace {E} : steps same_pace (load_stop (E := E)).
Proof. intros e. unfold load_stop. by destruct (es_load_shutdown (el_world e)). Qed.
#[local] Hint Resolve on_client_pace load_stop_pace : steps.
Lemma reconnect_pace : steps same_pace reconnect_client.
Proof. unfold reconnect_client. take_steps. by intros e. Qed.
#[local] Hint Resolve reconnect_pace : steps.
Lemma back_off_pace n : steps same_pace (back_off n).
Proof. induction n; cbn; take_steps. by intros e. Qed.
#[local] Hint Resolve back_off_pace : steps.
Lemma call_pace {A} (f : stateful W ElectrumError A) : steps same_pace (call f).
Proof.
  assert (forall attempts last, steps same_pace (call_again f attempts last)) as Ha.
  { intros attempts. unfold try_call. induction attempts; intros last; cbn; unfold try_call; take_steps. }
  unfold call, try_call. take_steps.
Qed.
#[local] Hint Resolve call_pace : steps.
Lemma recycle_pace : steps same_pace recycle.
Proof. unfold recycle. take_steps; by intros ?. Qed.
Lemma rearm_pace : steps same_pace rearm.
Proof. unfold rearm, rearm_one, arm_subscription, call_failed, flag_rearm, notify. take_steps; by intros ?. Qed.

(** ** How the steps of a poll end *)
Lemma recycle_ends e : (recycle e).1 = Ok () \/ ((recycle e).1 = Err None /\ exists e1 x, (reconnect_client e1).1 = Err x).
Proof.
  unfold recycle, gets, modify, mbind, stateful_bind, attempt. destruct (el_subscription_reset_pending e); [|by left].
  set (e1 := {| e with el_subscription_reset_pending := false |}). pose proof (reconnect_returns subscribed e1) as Hr.
  destruct (reconnect_client e1) as [[u|x|] e2] eqn:Er; [by left|right|done]. split; [done|]. exists e1, x. by rewrite Er.
Qed.
Lemma rearm_ends e : (rearm e).1 = Ok ().
Proof.
  unfold rearm, gets, modify, mbind, stateful_bind, attempt. destruct (el_needs_rearm e); [|done].
  set (e1 := {| e with el_needs_rearm := false |}). destruct (rearm_all subscribed (es_keys (subs e1)) [] e1) as [Hall _]; [by right; intros ? ?%elem_of_nil|].
  destruct (st_for_each rearm_one _ e1) as [r e2]. cbn in Hall. subst r. pose proof (call_returns subscribed _ e2 headers_subscribe_keeps) as Hr.
  by destruct (call es_headers_subscribe e2) as [[v|x|] e3].
Qed.
(** A ping was made within the interval. *)
Definition pinged_lately e : Prop :=
  exists at_ w, ns_last_ping (el_notifier e) = Some at_ /\ (es_now w).1 - at_ < el_ping_interval e.
Lemma pinged e : (exists u e', call es_ping e = (Ok u, e')) \/ (exists x e', call es_ping e = (Err x, e')).
Proof. pose proof (call_returns subscribed _ e ping_keeps) as Hr. destruct (call es_ping e) as [[u|x|] e']; [left|right|done]; eauto. Qed.
Lemma ping_ends e :
  (exists due, (ping e).1 = Ok due /\ (due = false -> pinged_lately e)) \/
  ((ping e).1 = Err None /\ exists e1 x, (call es_ping e1).1 = Err x).
Proof.
  unfold ping, gets, notify, modify, now, mbind, stateful_bind, attempt. destruct (ns_last_ping (el_notifier e)) as [at_|] eqn:El.
  - destruct (es_now (el_world e)) as [t w] eqn:En. cbn. destruct (Z.leb_spec (el_ping_interval e) (t - at_)) as [Hd|Hd].
    + cbn. destruct (es_now w) as [t2 w2].
      match goal with |- context [call es_ping ?s] => destruct (pinged s) as [(u & e2 & Ec)|(x & e2 & Ec)] end;
        rewrite Ec; [left; by exists true|right; split; [done|eexists _, x; by rewrite Ec]].
    + left. exists false. split; [done|]. intros _. exists at_, (el_world e). rewrite En. split; [done|cbn; lia].
  - cbn. destruct (es_now (el_world e)) as [t w].
    match goal with |- context [call es_ping ?s] => destruct (pinged s) as [(u & e2 & Ec)|(x & e2 & Ec)] end;
        rewrite Ec; [left; by exists true|right; split; [done|eexists _, x; by rewrite Ec]].
Qed.

(** ** Every subscribed script has its turn *)
Lemma hears_subs spk e e' : hears subscribed e e' -> is_Some (subs e !! spk) -> is_Some (subs e' !! spk).
Proof.
  intros [Hw _] [sub Hs]. unfold watching in Hw. apply (f_equal (fun m => m !! spk)) in Hw. rewrite !lookup_fmap, Hs in Hw.
  destruct (subs e' !! spk); [eauto|done].
Qed.
Lemma poll_all_end due scripts : forall e, (forall s, s ∈ scripts -> is_Some (subs e !! s)) ->
  (st_for_each (poll_script due) scripts e).1 = Ok ().
Proof.
  induction scripts as [|s scripts IH]; intros e Hs; [done|]. cbn. unfold mbind, stateful_bind.
  destruct (poll_script_turn due s e) as [H1 _]; [apply Hs; by left|]. pose proof (poll_script_hears subscribed due s e) as Hh.
  destruct (poll_script due s e) as [r e1]. cbn in H1, Hh. subst r. apply IH. intros s' Hin. eapply hears_subs; [exact Hh|]. apply Hs. by right.
Qed.
Lemma poll_rest_alone due spk scripts : forall e, spk ∉ scripts -> alone spk e (st_for_each (poll_script due) scripts e).2.
Proof.
  induction scripts as [|s scripts IH]; intros e Hni; [reflexivity|]. apply not_elem_of_cons in Hni as [Hne Hni].
  cbn. unfold mbind, stateful_bind. pose proof (poll_script_alone due spk s (not_eq_sym Hne) e) as Ha.
  destruct (poll_script due s e) as [[u|x|] e1]; [|exact Ha..]. etrans; [exact Ha|by apply IH].
Qed.
Lemma poll_all_turns due spk scripts : forall e, NoDup scripts -> spk ∈ scripts -> (forall s, s ∈ scripts -> is_Some (subs e !! s)) ->
  exists e1 e2, alone spk e e1 /\ poll_script due spk e1 = (Ok (), e2) /\ is_Some (subs e1 !! spk) /\
    alone spk e2 (st_for_each (poll_script due) scripts e).2.
Proof.
  induction scripts as [|s scripts IH]; intros e Hd Hin Hs; [by apply elem_of_nil in Hin|]. apply NoDup_cons in Hd as [Hni Hnd]. cbn. unfold mbind, stateful_bind.
  destruct (poll_script_turn due s e) as [H1 _]; [apply Hs; by left|]. pose proof (poll_script_hears subscribed due s e) as Hh.
  assert (s <> spk -> alone spk e (poll_script due s e).2) as Ha by (intros Hne; by apply poll_script_alone).
  destruct (poll_script due s e) as [r e1] eqn:Ep. cbn in H1, Hh, Ha. subst r. destruct (decide (s = spk)) as [->|Hne].
  - exists e, e1. split_and!; [reflexivity|done|apply Hs; by left|by apply poll_rest_alone].
  - apply elem_of_cons in Hin as [->|Hin]; [done|]. destruct (IH e1 Hnd Hin) as (e2 & e3 & A1 & A2 & A3 & A4).
    { intros s' Hin'. eapply hears_subs; [exact Hh|]. apply Hs. by right. }
    exists e2, e3. split_and!; [etrans; [by apply Ha|done]|done..].
Qed.

(** The poll hands out a queued event, or the connection cannot be used. *)
Definition cut_short spk e (ev : option WatchEvent) e' : Prop :=
  (exists event, ev = Some event /\ ns_pending (el_notifier e) = event :: ns_pending (el_notifier e') /\
     subs e' = subs e /\ ns_dirty (el_notifier e') = ns_dirty (el_notifier e)) \/
  (ev = None /\ alone spk e e' /\
     ((exists e1 x, (reconnect_client e1).1 = Err x) \/ (exists e1 x, (call es_ping e1).1 = Err x))).
(** The script had its turn, from [e1] to [e2]; around it nothing of it is forgotten,
    and what is queued is handed out or stays queued. *)
Definition had_its_turn spk e (ev : option WatchEvent) e' : Prop :=
  exists due e1 e2, (due = false -> pinged_lately e) /\ alone spk e e1 /\ poll_script due spk e1 = (Ok (), e2) /\
    (quiet due spk e1 e2 \/ read_or_flagged spk e1 e2) /\
    subs e' !! spk = subs e2 !! spk /\ (spk ∈ ns_dirty (el_notifier e2) -> spk ∈ ns_dirty (el_notifier e')) /\
    ns_pending (el_notifier e2) ⊆ option_list ev ++ ns_pending (el_notifier e').

(** The end of a poll. *)
Lemma hands_out spk e : let '(r, e') := (_ ← pop_pending; pop_header) e in
  exists ev, (r = Ok ev \/ r = Err ev) /\ subs e' !! spk = subs e !! spk /\
    (spk ∈ ns_dirty (el_notifier e) -> spk ∈ ns_dirty (el_notifier e')) /\
    ns_pending (el_notifier e) ⊆ option_list ev ++ ns_pending (el_notifier e').
Proof.
  unfold mbind, stateful_bind, pop_pending. destruct (ns_pending (el_notifier e)) as [|event rest] eqn:Ep.
  - pose proof (pop_header_alone spk e) as (A & _ & C & D). rewrite Ep in D.
    assert (exists ev, (pop_header e).1 = Ok ev) as [ev Hev].
    { unfold pop_header, attempt, gets, notify, modify, mbind, stateful_bind.
      pose proof (call_returns subscribed _ e headers_pop_keeps) as Hr. destruct (call es_headers_pop e) as [[[[h hd]|]|x|] e1]; cbn in Hr |- *; eauto; [|done].
      destruct (_ && _); eauto. }
    destruct (pop_header e) as [r e']. cbn in *. subst r. exists ev. split_and!; [by left|done|done|set_solver].
  - exists (Some event). split_and!; [by right|done|done|]. cbn. set_solver.
Qed.
Lemma poll_event_turns spk e ev e' : (forall m, NoDup (es_keys m)) -> is_Some (subs e !! spk) -> el_poll_event e = (ev, e') ->
  cut_short spk e ev e' \/ had_its_turn spk e ev e'.
Proof.
  intros Hk Hs. unfold el_poll_event, poll_steps. unfold mbind, stateful_bind. unfold pop_pending at 1.
  destruct (ns_pending (el_notifier e)) as [|event rest] eqn:Ep; cycle 1.
  { intros [= <- <-]. left; left. exists event. by rewrite Ep. }
  pose proof (recycle_ends e) as Hr. pose proof (recycle_alone spk e) as Ha. pose proof (recycle_pace e) as Hp.
  pose proof (recycle_hears subscribed e) as Hh.
  destruct (recycle e) as [r e1]. cbn in Hr, Ha, Hp, Hh. destruct Hr as [->|[-> Hr]]; cycle 1.
  { intros [= <- <-]. left; right. eauto. }
  pose proof (rearm_ends e1) as Hr. assert (alone spk e (rearm e1).2) as Ha1 by (etrans; [exact Ha|apply rearm_alone]).
  assert (same_pace e (rearm e1).2) as Hp1 by (etrans; [exact Hp|apply rearm_pace]).
  destruct (rearm e1) as [r e2]. cbn in Hr, Ha1, Hp1. subst r.
  pose proof (ping_ends e2) as Hr. assert (alone spk e (ping e2).2) as Ha2 by (etrans; [exact Ha1|apply ping_alone]).
  destruct (ping e2) as [r e3]. cbn in Hr, Ha2. destruct Hr as [(due & -> & Hdue)|[-> Hr]]; cycle 1.
  { intros [= <- <-]. left; right. eauto. }
  intros E. right. unfold gets in E.
  assert (forall s, s ∈ es_keys (subs e3) -> is_Some (subs e3 !! s)) as Hall by (intros s Hin; by apply all_keys in Hin).
  assert (spk ∈ es_keys (subs e3)) as Hin by (apply all_keys; destruct Ha2 as (-> & _); done).
  pose proof (poll_all_end due _ e3 Hall) as Hr. destruct (poll_all_turns due spk _ e3 (Hk _) Hin Hall) as (a & b & B1 & B2 & B3 & B4).
  destruct (st_for_each (poll_script due) _ e3) as [r e4]. cbn in Hr, B4. subst r.
  pose proof (hands_out spk e4) as Hh4. destruct ((_ ← pop_pending; pop_header) e4) as [r e5] eqn:El.
  unfold mbind, stateful_bind in El. rewrite El in E. destruct Hh4 as (ev' & Hr & C1 & C2 & C3).
  assert (ev' = ev /\ e5 = e') as [-> ->] by (destruct Hr as [->| ->]; by injection E as -> ->). destruct B4 as (D1 & _ & D2 & D3).
  pose proof (poll_script_turn due spk a B3) as [_ Ht]. rewrite B2 in Ht.
  exists due, a, b. split_and!; [|by etrans|done|exact Ht|congruence|auto|by etrans].
  intros Hd. destruct (Hdue Hd) as (at_ & w & F1 & F2). exists at_, w. destruct Hp1 as [G1 G2]. by rewrite <- G1, <- G2.
Qed.

(** ** Runs *)
(** What happens to a backend: polls, whose events are handed out, subscriptions and
    their release, and the calls of any other query. *)
Inductive el_reach : list WatchEvent -> Electrum W -> Prop :=
| er_start cfg w e w' : with_shutdown_flag cfg w = (Ok e, w') -> el_reach [] e
| er_poll log e ev e' : el_reach log e -> el_poll_event e = (ev, e') -> el_reach (log ++ option_list ev) e'
| er_subscribe log e spk o : el_reach log e -> el_reach log (el_subscribe_script spk o e).2
| er_unsubscribe log e spk o : el_reach log e -> el_reach log (el_unsubscribe_script spk o e).2
| er_call log e A (f : stateful W ElectrumError A) : el_reach log e -> keeps_subscribed f -> el_reach log (call f e).2
| er_watch log e spk hd : el_reach log e -> el_reach log (watch_script spk hd e).

Lemma fresh_backend cfg w e w' : with_shutdown_flag cfg w = (Ok e, w') -> subs e = ∅.
Proof.
  unfold with_shutdown_flag. destruct (_ && _); [done|]. destruct (connect cfg w) as [[[[g h] hash]|x|] w1]; try done.
  destruct (network_from_electrum_genesis g); [|done]. by intros [= <- <-].
Qed.

(** The first subscription of a script reads its history. *)
Lemma subscribe_reads spk o e e' : subs e !! spk = None -> el_subscribe_script spk o e = (Ok (), e') ->
  exists hist, told_history spk hist /\ forall txid, txid ∈ map he_tx_hash hist ->
    handled (ec_max_retries (el_config e)) (el_notifier e) (el_notifier e') spk txid.
Proof.
  intros Hs. unfold el_subscribe_script, gets, notify, modify. unfold mbind at 1, stateful_bind at 1.
  destruct (arm_subscription_hears subscribed spk e) as (Hn & Hc & _). destruct (arm_subscription spk e) as [[[]|x|] e1]; [|done..].
  cbn in Hn, Hc. unfold mbind at 1, stateful_bind at 1. rewrite Hn, Hs. unfold mbind at 1, stateful_bind at 1.
  pose proof (call_answered _ (es_script_get_history spk) e1 ltac:(intros w; apply history_keeps)) as Ha.
  destruct (call_hears_steps _ _ (history_keeps spk) e1) as (Hn2 & Hc2 & _).
  destruct (call (es_script_get_history spk) e1) as [[hist|x|] e2]; [|done..]. cbn in Ha, Hn2, Hc2. destruct Ha as [w Ha].
  unfold mbind, stateful_bind. set (e3 := with_notifier _ e2). intros E. exists hist. split; [by exists w, (el_world e2)|].
  intros txid Ht. assert (subs e3 !! spk = Some {| no_subscription with sub_watchers := {[o]} |}) as H3 by (cbn; apply lookup_insert_eq).
  destruct (note_all_handled (E := CallError) spk txid hist e3) as [(sub & H4 & H5)|H]; [by rewrite H3|done| |].
  - rewrite H3 in H4. injection H4 as <-. set_solver.
  - rewrite E in H. cbn in H. rewrite Hc2, Hc in H. by right.
Qed.

(** C36: Nothing of a watched script's history is lost between the Electrum server and
    the events, however calls fail and connections are replaced.  At any point of a
    run, a transaction a subscribed script has marked as seen was handed out as an
    event, or waits in the queue, or its fetches have failed, for whatever reason, a
    dead connection included, and are counted.  In a poll every subscribed script has
    its turn, unless the poll only hands out a queued event, or the connection could
    not be replaced or did not answer a ping; its flag and its subscription are kept
    then.  (The table's keys are walked in some order, each once.)  In its turn a
    script that is flagged when a ping is due, or of which the connection has news,
    has its history read, and is flagged for a later poll when a call fails; a script
    is left as it was only when the connection has no news of it.  A history that is
    read is settled entry by entry: the entry had been seen before; or it is now, and
    its transaction is queued, or given up because more fetches of it failed than the
    configuration retries; or it is left unseen and the script flagged, so that it is
    fetched again.  The first subscription of a script settles its history in the same
    way. *)
Theorem watched_transactions_are_not_lost log e :
  (forall m, NoDup (es_keys m)) -> el_reach log e ->
  (forall spk sub txid, subs e !! spk = Some sub -> txid ∈ sub_seen sub ->
     surfaced (log ++ ns_pending (el_notifier e)) txid \/ is_Some (ns_fetch_attempts (el_notifier e) !! txid)) /\
  (forall spk ev e', is_Some (subs e !! spk) -> el_poll_event e = (ev, e') -> cut_short spk e ev e' \/ had_its_turn spk e ev e') /\
  (forall spk o e', subs e !! spk = None -> el_subscribe_script spk o e = (Ok (), e') ->
     exists hist, told_history spk hist /\ forall txid, txid ∈ map he_tx_hash hist ->
       handled (ec_max_retries (el_config e)) (el_notifier e) (el_notifier e') spk txid).
Proof.
  intros Hk Hr. split_and!; [|intros spk ev e'; by apply poll_event_turns|intros spk o e'; by apply subscribe_reads].
  change (accounted log (el_notifier e)). induction Hr as [cfg w e w' H|log e ev e' _ IH H|log e spk o _ IH|log e spk o _ IH|log e A f _ IH Hf|log e spk hd _ IH].
  - intros spk sub txid. rewrite (fresh_backend _ _ _ _ H). by rewrite lookup_empty.
  - by eapply poll_event_accounted.
  - by apply subscribe_accounted.
  - by apply unsubscribe_accounted.
  - by apply call_accounted.
  - exact IH.
Qed.
End accounted.

(** ** A server *)
Module ElectrumSample.
Record Server := {
  sv_history : list HistoryEntry;
  sv_txs : list (Txid * Transaction);
  sv_subscribed : list Script;
  sv_news : bool;
  sv_drops : nat;
  sv_clock : Z;
}.
Definition timed_out {A} (w : Server) (r : outcome ElectrumError A) : outcome ElectrumError A * Server :=
  match sv_drops w with
  | S k => (Err (EE_Other "timed out"), {| w with sv_drops := k |})
  | O => (r, w)
  end.
Definition tx_of (w : Server) (txid : Txid) : outcome ElectrumError Transaction :=
  match list_find (fun p => p.1 = txid) (sv_txs w) with
  | Some (_, (_, tx)) => Ok tx
  | None => Err (EE_Protocol "No such mempool or blockchain transaction" None)
  end.
#[local] Instance sample_server : ElectrumServer Server := {|
  es_from_config _ _ w := (Ok (), {| w with sv_subscribed := [] |});
  es_server_features w := (Ok [4], w);
  es_block_header _ w := (Ok {| hdr_hash := []; hdr_time := 0 |}, w);
  es_headers_subscribe w := (Ok (100, {| hdr_hash := [7]; hdr_time := 0 |}), w);
  es_headers_pop w := (Ok None, w);
  es_script_subscribe spk w :=
    if bool_decide (spk ∈ sv_subscribed w) then (Err EE_AlreadySubscribed, w) else (Ok (), {| w with sv_subscribed := spk :: sv_subscribed w |});
  es_script_pop _ w := (Ok (if sv_news w then Some [1] else None), {| w with sv_news := false |});
  es_script_get_history _ w := timed_out w (Ok (sv_history w));
  es_batch_get_history _ w := (Ok [], w);
  es_list_unspent _ w := (Ok [], w);
  es_batch_list_unspent _ w := (Ok [], w);
  es_transaction_get txid w := timed_out w (tx_of w txid);
  es_transaction_broadcast _ w := (Ok 0, w);
  es_ping w := timed_out w (Ok ());
  es_load_shutdown w := (false, w);
  es_store_shutdown w := w;
  es_sleep n w := {| w with sv_clock := sv_clock w + n |};
  es_now w := (sv_clock w, w);
  es_keys m := (map_to_list m).*1;
  es_elements := elements;
  es_txid_leb := Z.leb;
  es_genesis net := match net with Net_Regtest => [4] | _ => [] end;
  es_serialize_tx tx := [lock_time tx];
  es_deserialize_tx _ := None;
|}.
Definition has_subscribed (w : Server) (spk : Script) : Prop := spk ∈ sv_subscribed w.
Lemma timed_out_keeps {A} (f : Server -> outcome ElectrumError A) :
  (forall w, f w <> Panic) -> forall w, (timed_out w (f w)).1 <> Panic /\ forall spk, has_subscribed w spk -> has_subscribed (timed_out w (f w)).2 spk.
Proof. intros Hf w. unfold timed_out. destruct (sv_drops w); [split; [apply Hf|done]|done]. Qed.
#[local] Instance sample_laws : ElectrumLaws sample_server has_subscribed.
Proof.
  split; try done.
  - intros spk w. cbn. case_bool_decide; [done|]. split; [done|]. intros s Hs. unfold has_subscribed. cbn. set_solver.
  - intros spk w. cbn. case_bool_decide; [done|]. intros _. unfold has_subscribed. cbn. set_solver.
  - intros spk w. cbn. by case_bool_decide.
  - intros spk w. by apply (timed_out_keeps (fun w => Ok (sv_history w))).
  - intros txid w. apply (timed_out_keeps (fun w => tx_of w txid)). intros w'. unfold tx_of. by destruct (list_find _ _) as [[? []]|].
  - intros w. by apply (timed_out_keeps (fun _ => Ok ())).
  - intros m spk. cbn. rewrite list_elem_of_fmap. split.
    + intros ([k v] & -> & H%elem_of_map_to_list). eauto.
    + intros [v Hv]. exists (spk, v). split; [done|]. by apply elem_of_map_to_list.
Qed.

Definition spend : Transaction :=
  {| version := 2; lock_time := 9; input := [{| previous_output := {| op_txid := 5; op_vout := 0 |}; script_sig := []; sequence := 0; witness := [] |}]; output := [] |}.
Definition watched_outpoint : OutPoint := {| op_txid := 5; op_vout := 0 |}.
Definition server_at (drops : nat) : Server :=
  {| sv_history := [{| he_tx_hash := 8; he_height := 0 |}]; sv_txs := [(8, spend)]; sv_subscribed := []; sv_news := false; sv_drops := drops; sv_clock := 0 |}.
Definition sample_config : ElectrumConfig := for_watcher {| ElectrumConfig_default with ec_url := "tcp://localhost:50001" |}.
Definition connected : Electrum Server :=
  Build_Electrum _ sample_config 1 false false 0 ∅ ∅ Net_Regtest (Build_NotifierState 100 (Some [7]) ∅ ∅ ∅ [] None) (server_at 0).
Lemma connects : with_shutdown_flag sample_config (server_at 0) = (Ok connected, server_at 0).
Proof. vm_compute. reflexivity. Qed.
Abbreviation subscribed_to_it := (el_subscribe_script [81] watched_outpoint connected).

(** The connection dies under a poll of a subscribed script. *)
Definition dropped : Electrum Server := {| (subscribed_to_it.2) with el_world := {| (el_world subscribed_to_it.2) with sv_drops := 1 |} |}.
Lemma electrum_keeps_watches_armed_witness :
  el_armed has_subscribed subscribed_to_it.2 watched_outpoint /\
  el_armed has_subscribed (el_poll_event dropped).2 watched_outpoint /\ el_reconnects (el_poll_event (el_poll_event dropped).2).2 = 1.
Proof.
  destruct (proj1 (electrum_keeps_watches_armed has_subscribed (lib := Reference.lib) (fun _ => None))) as [Hsub _ _ _ _ _ _ _ _ _ _ Hpoll _ _].
  split_and!; [| |vm_compute; reflexivity]; cycle 1.
  { apply Hpoll. exists [81], {[watched_outpoint]}. split_and!; [vm_compute; reflexivity|vm_compute; reflexivity|right].
    assert (sv_subscribed (el_world dropped) = [[81]]) as Hs by (vm_compute; reflexivity). unfold has_subscribed. rewrite Hs. by left. }
  pose proof (Hsub [81] watched_outpoint connected) as H. cbn in H. unfold as_wallet in H.
  assert ((el_subscribe_script [81] watched_outpoint connected).1 = Ok ()) as E by (vm_compute; reflexivity).
  destruct (el_subscribe_script [81] watched_outpoint connected) as [r e]. cbn in E. subst r. by apply H.
Defined.

(** A transaction of the script appears in its history before the server gives it out:
    the poll that is told of it leaves it unseen, and a later one hands it out. *)
Definition empty_server : Server := {| (server_at 0) with sv_history := []; sv_txs := [] |}.
Definition appears : stateful Server ElectrumError () := fun w =>
  (Ok (), {| w with sv_history := sv_history (server_at 0); sv_news := true |}).
Definition is_given_out : stateful Server ElectrumError () := fun w =>
  (Ok (), {| w with sv_txs := sv_txs (server_at 0); sv_clock := sv_clock w + 5 |}).
Definition idle : Electrum Server := {| connected with el_world := empty_server |}.
Definition told : Electrum Server := (call appears (el_subscribe_script [81] watched_outpoint idle).2).2.
Definition missed : Electrum Server := (call is_given_out (el_poll_event told).2).2.
Lemma missed_reached : el_reach has_subscribed [] missed.
Proof.
  apply er_call; [|done]. eapply (er_poll _ [] told None); [apply er_call; [|done]; apply er_subscribe|vm_compute; reflexivity].
  apply (er_start _ sample_config empty_server idle empty_server). vm_compute. reflexivity.
Qed.
Lemma watched_transactions_are_not_lost_witness :
  ns_fetch_attempts (el_notifier missed) !! 8 = Some 1 /\ ns_dirty (el_notifier missed) = {[ [81] ]} /\
  had_its_turn [81] missed (Some (TxSeen [9])) (el_poll_event missed).2 /\
  (surfaced (ns_pending (el_notifier subscribed_to_it.2)) 8 \/ is_Some (ns_fetch_attempts (el_notifier subscribed_to_it.2) !! 8)).
Proof.
  assert (forall m : gmap Script Subscription, NoDup (es_keys m)) as Hk by (intros m; apply NoDup_fst_map_to_list).
  split_and!; [vm_compute; reflexivity|vm_compute; reflexivity| |].
  - destruct (watched_transactions_are_not_lost has_subscribed [] missed Hk missed_reached) as (_ & H & _).
    destruct (H [81] (Some (TxSeen [9])) (el_poll_event missed).2) as [[(event & _ & Hp & _)|[? _]]|Ht]; [|vm_compute; reflexivity| |done|exact Ht].
    + eexists. vm_compute. reflexivity.
    + assert (ns_pending (el_notifier missed) = []) as E by (vm_compute; reflexivity). rewrite E in Hp. destruct (nil_cons Hp).
  - assert (el_reach has_subscribed [] subscribed_to_it.2) as Hr by (apply er_subscribe; eapply er_start; exact connects).
    eapply (proj1 (watched_transactions_are_not_lost has_subscribed [] subscribed_to_it.2 Hk Hr) [81] {| sub_watchers := {[watched_outpoint]}; sub_seen := {[8]} |});
      vm_compute; reflexivity.
Defined.
End ElectrumSample.
