(* ===== verification/Descriptor.v ===== *)
(** Descriptor checksums: [compute_checksum] of src/utill.rs, the checksum the
    wallet puts on the descriptors it hands to Bitcoin Core. *)
From Stdlib Require Import Ascii String.
From S2P Require Import Prelude Bitcoin Messages Errors.
#[local] Open Scope string_scope.
#[local] Open Scope list_scope.
#[local] Open Scope Z_scope.

Definition INPUT_CHARSET : string :=
  ("0123456789()[],'/*abcdefgh@:$%{}IJKLMNOPQRSTUVWXYZ&+-.;<=>?!^_|~ijklmnopqrstuvwxyzABCDEFGH`#" ++ String "034" "\ ")%string.
Definition CHECKSUM_CHARSET : string := "qpzry9x8gf2tvdw0s3jn54khce6mua7l".
Definition MASK_LOW_35_BITS : Z := 0x7ffffffff.
Definition SHIFT_FOR_C0 : Z := 35.
Definition CHECKSUM_FINAL_XOR_VALUE : Z := 1.
Definition FEEDBACK_TERMS : list (Z * Z) :=
  [(0x1, 0xf5dee51989); (0x2, 0xa9fdca3312); (0x4, 0x1bab10e32d); (0x8, 0x3706b1677a); (0x10, 0x644d626ffd)].

(** On 64 bits; the values stay below 2^40. *)
Definition polynomial_modulus (checksum v : Z) : Z :=
  let upper_bits := Z.shiftr checksum SHIFT_FOR_C0 in
  let checksum := Z.lxor (Z.shiftl (Z.land checksum MASK_LOW_35_BITS) 5) v in
  fold_left (fun c t => if Z.land upper_bits t.1 =? 0 then c else Z.lxor c t.2) FEEDBACK_TERMS checksum.

(** [str::find] of a character. *)
Fixpoint position_in (charset : string) (i : Z) (c : ascii) : option Z :=
  match charset with
  | EmptyString => None
  | String d charset => if Ascii.eqb d c then Some i else position_in charset (i + 1) c
  end.
Record ChecksumState := { cs_checksum : Z; cs_accumulated_value : Z; cs_group_count : Z }.
Definition feed (s : ChecksumState) (position : Z) : ChecksumState :=
  let checksum := polynomial_modulus (cs_checksum s) (Z.land position 31) in
  let accumulated_value := cs_accumulated_value s * 3 + Z.shiftr position 5 in
  let group_count := cs_group_count s + 1 in
  if group_count =? 3 then {| cs_checksum := polynomial_modulus checksum accumulated_value; cs_accumulated_value := 0; cs_group_count := 0 |}
  else {| cs_checksum := checksum; cs_accumulated_value := accumulated_value; cs_group_count := group_count |}.
Definition feed_character (s : ChecksumState) (character : ascii) : outcome WalletError ChecksumState :=
  position ← ok_or (position_in INPUT_CHARSET 0 character) (WE_Protocol (PE_General "Descriptor invalid"));
  Ok (feed s position).
Definition finish (s : ChecksumState) : Z :=
  let checksum := if 0 <? cs_group_count s then polynomial_modulus (cs_checksum s) (cs_accumulated_value s) else cs_checksum s in
  Z.lxor (Nat.iter 8 (fun c => polynomial_modulus c 0) checksum) CHECKSUM_FINAL_XOR_VALUE.
Definition checksum_char (checksum : Z) (i : nat) : outcome WalletError ascii :=
  expect (String.get (Z.to_nat (Z.land (Z.shiftr checksum (5 * (7 - Z.of_nat i))) 31)) CHECKSUM_CHARSET).
Definition compute_checksum (descriptor : list ascii) : outcome WalletError (list ascii) :=
  s ← try_fold feed_character {| cs_checksum := CHECKSUM_FINAL_XOR_VALUE; cs_accumulated_value := 0; cs_group_count := 0 |} descriptor;
  try_map (checksum_char (finish s)) (seq 0 8).

(** The test vector of BIP 380. *)
Example bip380_vector : compute_checksum (list_ascii_of_string "raw(deadbeef)") = Ok (list_ascii_of_string "89f8spxm").
Proof. vm_compute. reflexivity. Qed.

(** ** The checksum is linear *)
Definition bits (n a : Z) : Prop := 0 <= a < 2 ^ n.
Lemma bits_spec n a : 0 <= n -> 0 <= a -> (bits n a <-> forall i, n <= i -> Z.testbit a i = false).
Proof.
  intros Hn Ha. split.
  - intros [_ H] i Hi. destruct (decide (a = 0)) as [->|Hz]; [apply Z.bits_0|]. apply Z.bits_above_log2; [done|].
    apply Z.lt_le_trans with n; [|done]. apply Z.log2_lt_pow2; lia.
  - intros H. split; [done|]. destruct (Z.lt_ge_cases a (2 ^ n)) as [|Hge]; [done|]. exfalso.
    assert (0 < a) by (pose proof (Z.pow_pos_nonneg 2 n); lia). assert (n <= Z.log2 a) by (apply Z.log2_le_pow2; lia).
    specialize (H (Z.log2 a) ltac:(done)). rewrite Z.bit_log2 in H by lia. done.
Qed.
Lemma lxor_bits n a b : 0 <= n -> bits n a -> bits n b -> bits n (Z.lxor a b).
Proof.
  intros Hn Ha Hb. assert (0 <= Z.lxor a b) by (apply Z.lxor_nonneg; unfold bits in *; lia).
  apply bits_spec; [done..|]. intros i Hi. rewrite Z.lxor_spec.
  rewrite (proj1 (bits_spec n a Hn ltac:(unfold bits in *; lia)) Ha i Hi), (proj1 (bits_spec n b Hn ltac:(unfold bits in *; lia)) Hb i Hi). done.
Qed.

(** The feedback of the five bits that leave. *)
Definition feedback (u : Z) : Z := fold_left (fun c t => if Z.land u t.1 =? 0 then c else Z.lxor c t.2) FEEDBACK_TERMS 0.
Definition shifted (c : Z) : Z := Z.lxor (Z.shiftl (Z.land c MASK_LOW_35_BITS) 5) (feedback (Z.shiftr c SHIFT_FOR_C0)).
Lemma fold_lxor u terms : forall c d,
  fold_left (fun c t => if Z.land u t.1 =? 0 then c else Z.lxor c t.2) terms (Z.lxor c d) =
  Z.lxor c (fold_left (fun c t => if Z.land u t.1 =? 0 then c else Z.lxor c t.2) terms d).
Proof. induction terms as [|t terms IH]; intros c d; cbn; [done|]. destruct (_ =? 0); [apply IH|]. rewrite Z.lxor_assoc. apply IH. Qed.
Lemma polynomial_modulus_shifted c v : polynomial_modulus c v = Z.lxor (shifted c) v.
Proof.
  unfold polynomial_modulus, shifted, feedback. rewrite <- (Z.lxor_0_r (Z.lxor (Z.shiftl _ _) v)), fold_lxor.
  rewrite !Z.lxor_assoc. f_equal. apply Z.lxor_comm.
Qed.
Definition below (n : nat) : list Z := map Z.of_nat (seq 0 n).
Lemma in_below n z : 0 <= z < Z.of_nat n -> z ∈ below n.
Proof. intros H. unfold below. apply list_elem_of_fmap. exists (Z.to_nat z). split; [lia|]. apply elem_of_seq. lia. Qed.
Lemma feedback_table :
  forallb (fun u => forallb (fun v => feedback (Z.lxor u v) =? Z.lxor (feedback u) (feedback v)) (below 32)) (below 32) = true /\
  forallb (fun u => (feedback u <? 2 ^ 40) && (0 <=? feedback u) && ((u =? 0) || negb (Z.land (feedback u) 31 =? 0))) (below 32) = true.
Proof. split; vm_compute; reflexivity. Qed.
Lemma feedback_lxor u v : bits 5 u -> bits 5 v -> feedback (Z.lxor u v) = Z.lxor (feedback u) (feedback v).
Proof.
  intros Hu Hv. destruct feedback_table as [H _]. rewrite forallb_forall in H. specialize (H u ltac:(apply list_elem_of_In, in_below, Hu)).
  rewrite forallb_forall in H. specialize (H v ltac:(apply list_elem_of_In, in_below, Hv)). by apply Z.eqb_eq in H.
Qed.
Lemma feedback_low u : bits 5 u -> bits 40 (feedback u) /\ (Z.land (feedback u) 31 = 0 -> u = 0).
Proof.
  intros Hu. destruct feedback_table as [_ H]. rewrite forallb_forall in H. specialize (H u ltac:(apply list_elem_of_In, in_below, Hu)).
  to_prop. split; [done|]. intros Hl. destruct H0 as [H0|H0]; to_prop; lia.
Qed.
Lemma top_bits c : bits 40 c -> bits 5 (Z.shiftr c SHIFT_FOR_C0).
Proof. unfold bits, SHIFT_FOR_C0. intros H. rewrite Z.shiftr_div_pow2 by lia. split; [apply Z.div_pos; lia|apply Z.div_lt_upper_bound; lia]. Qed.
Lemma low_bits c : bits 40 c -> bits 35 (Z.land c MASK_LOW_35_BITS).
Proof. unfold MASK_LOW_35_BITS. intros H. change 0x7ffffffff with (Z.ones 35). rewrite Z.land_ones by lia. apply Z.mod_pos_bound. lia. Qed.
Lemma shifted_lxor c d : bits 40 c -> bits 40 d -> shifted (Z.lxor c d) = Z.lxor (shifted c) (shifted d).
Proof.
  intros Hc Hd. unfold shifted. rewrite Z.shiftr_lxor, feedback_lxor by by apply top_bits.
  replace (Z.land (Z.lxor c d) MASK_LOW_35_BITS) with (Z.lxor (Z.land c MASK_LOW_35_BITS) (Z.land d MASK_LOW_35_BITS))
    by (apply Z.bits_inj'; intros n _; rewrite !Z.lxor_spec, !Z.land_spec, Z.lxor_spec; by destruct (Z.testbit c n), (Z.testbit d n), (Z.testbit _ n)).
  rewrite Z.shiftl_lxor. rewrite !Z.lxor_assoc. f_equal. rewrite <- !Z.lxor_assoc. f_equal. apply Z.lxor_comm.
Qed.
Lemma shifted_bits c : bits 40 c -> bits 40 (shifted c).
Proof.
  intros Hc. apply lxor_bits; [lia| |by apply feedback_low, top_bits]. apply low_bits in Hc. rewrite Z.shiftl_mul_pow2 by lia. unfold bits in *. lia.
Qed.
Lemma shifted_0 c : bits 40 c -> shifted c = 0 -> c = 0.
Proof.
  intros Hc H. unfold shifted in H. apply Z.lxor_eq in H. pose proof (top_bits c Hc) as Ht. pose proof (low_bits c Hc) as Hl.
  assert (Z.shiftr c SHIFT_FOR_C0 = 0) as Hu.
  { apply (feedback_low _ Ht). rewrite <- H. apply Z.bits_inj'. intros n Hn. rewrite Z.land_spec, Z.bits_0.
    destruct (Z.lt_ge_cases n 5); [by rewrite Z.shiftl_spec_low|]. rewrite (Z.bits_above_log2 31); [apply andb_false_r|lia|cbn; lia]. }
  rewrite Hu in H. change (feedback 0) with 0 in H. rewrite Z.shiftl_mul_pow2 in H by lia.
  unfold SHIFT_FOR_C0, MASK_LOW_35_BITS in *. change 0x7ffffffff with (Z.ones 35) in *. rewrite Z.shiftr_div_pow2 in Hu by lia.
  rewrite Z.land_ones in H, Hl by lia. rewrite (Z.div_mod c (2 ^ 35)) by lia. lia.
Qed.

(** ** Two descriptors *)
Lemma modulus_lxor c1 c2 v1 v2 : bits 40 c1 -> bits 40 c2 ->
  Z.lxor (polynomial_modulus c1 v1) (polynomial_modulus c2 v2) = Z.lxor (shifted (Z.lxor c1 c2)) (Z.lxor v1 v2).
Proof.
  intros H1 H2. rewrite !polynomial_modulus_shifted, shifted_lxor by done. rewrite !Z.lxor_assoc. f_equal.
  rewrite <- !Z.lxor_assoc. f_equal. apply Z.lxor_comm.
Qed.
Lemma bits_mono n k a : n <= k -> bits n a -> bits k a.
Proof. unfold bits. intros Hn Ha. pose proof (Z.pow_le_mono_r 2 n k). lia. Qed.
Lemma modulus_bits c v : bits 40 c -> bits 5 v -> bits 40 (polynomial_modulus c v).
Proof.
  intros Hc Hv. rewrite polynomial_modulus_shifted. apply lxor_bits; [lia|by apply shifted_bits|by apply (bits_mono 5)].
Qed.
(** While nothing leaves at the top, the register only shifts. *)
Lemma shifted_small d : bits 35 d -> shifted d = d * 32.
Proof.
  intros Hd. unfold shifted, SHIFT_FOR_C0, MASK_LOW_35_BITS. change 0x7ffffffff with (Z.ones 35). rewrite Z.land_ones, Z.shiftr_div_pow2 by lia.
  unfold bits in Hd. rewrite Z.mod_small, Z.div_small by lia. change (feedback 0) with 0. rewrite Z.lxor_0_r, Z.shiftl_mul_pow2 by lia. lia.
Qed.
Lemma low_difference d v1 v2 : bits 15 d -> bits 5 v1 -> bits 5 v2 -> d <> 0 \/ v1 <> v2 -> Z.lxor (shifted d) (Z.lxor v1 v2) <> 0.
Proof.
  intros Hd H1 H2 Hne E. apply Z.lxor_eq in E. rewrite shifted_small in E by by apply (bits_mono 15).
  pose proof (lxor_bits 5 v1 v2 ltac:(lia) H1 H2) as Hx. unfold bits in *. assert (d = 0) as -> by lia.
  assert (Z.lxor v1 v2 = 0) as Hv by lia. apply Z.lxor_eq in Hv. lia.
Qed.

(** The register holds 40 bits, and a group of three positions less than five. *)
Definition state_wf (s : ChecksumState) : Prop :=
  bits 40 (cs_checksum s) /\ 0 <= cs_group_count s < 3 /\ 0 <= cs_accumulated_value s < 3 ^ cs_group_count s.
Definition is_position (p : Z) : Prop := 0 <= p < 96.
Lemma position_parts p : is_position p -> bits 5 (Z.land p 31) /\ 0 <= Z.shiftr p 5 < 3 /\ p = Z.shiftr p 5 * 32 + Z.land p 31.
Proof.
  intros Hp. unfold is_position in Hp. change 31 with (Z.ones 5). rewrite Z.land_ones, Z.shiftr_div_pow2 by lia. unfold bits.
  pose proof (Z.mod_pos_bound p (2 ^ 5) ltac:(lia)). pose proof (Z.div_mod p (2 ^ 5) ltac:(lia)). cbn in *. lia.
Qed.
Lemma three_powers n : 0 <= n -> 3 ^ (n + 1) = 3 * 3 ^ n.
Proof. intros Hn. by rewrite Z.pow_add_r, Z.mul_comm by lia. Qed.
(** The state before a group is folded in. *)
Definition fed (s : ChecksumState) (p : Z) : Z * Z := (polynomial_modulus (cs_checksum s) (Z.land p 31), cs_accumulated_value s * 3 + Z.shiftr p 5).
Lemma feed_fed s p :
  feed s p = if cs_group_count s + 1 =? 3 then Build_ChecksumState (polynomial_modulus (fed s p).1 (fed s p).2) 0 0
             else Build_ChecksumState (fed s p).1 (fed s p).2 (cs_group_count s + 1).
Proof. done. Qed.
Lemma fed_wf s p : state_wf s -> is_position p -> bits 40 (fed s p).1 /\ 0 <= (fed s p).2 < 3 ^ (cs_group_count s + 1).
Proof.
  intros (Hc & Hn & Ha) Hp. destruct (position_parts p Hp) as (Hl & Hh & _). cbn. split; [by apply modulus_bits|].
  rewrite three_powers by lia. lia.
Qed.
Lemma group_value_bits n a : 0 <= n <= 3 -> 0 <= a < 3 ^ n -> bits 5 a.
Proof. intros Hn Ha. pose proof (Z.pow_le_mono_r 3 n 3 ltac:(lia) ltac:(lia)). unfold bits. cbn in *. lia. Qed.
Lemma feed_wf s p : state_wf s -> is_position p -> state_wf (feed s p).
Proof.
  intros Hs Hp. destruct (fed_wf s p Hs Hp) as [Hb Ha]. destruct Hs as (Hc & Hn & _). rewrite feed_fed.
  destruct (Z.eqb_spec (cs_group_count s + 1) 3) as [He|He]; unfold state_wf; cbn [cs_checksum cs_group_count cs_accumulated_value].
  - split_and!; [|lia..]. apply modulus_bits; [done|]. rewrite He in Ha. by apply (group_value_bits 3).
  - split; [done|]. split; [lia|exact Ha].
Qed.

(** Two states the same number of characters into descriptors that differ: the
    registers differ with equal groups, or the difference is of the current group. *)
Definition differ (s1 s2 : ChecksumState) : Prop :=
  state_wf s1 /\ state_wf s2 /\ cs_group_count s1 = cs_group_count s2 /\
  let d := Z.lxor (cs_checksum s1) (cs_checksum s2) in
  (cs_accumulated_value s1 = cs_accumulated_value s2 /\ d <> 0) \/
  (1 <= cs_group_count s1 /\ bits (5 * cs_group_count s1) d /\ (d <> 0 \/ cs_accumulated_value s1 <> cs_accumulated_value s2)).
(** What follows once the characters are fed. *)
Lemma feed_differ s1 s2 p1 p2 :
  state_wf s1 -> state_wf s2 -> cs_group_count s1 = cs_group_count s2 -> is_position p1 -> is_position p2 ->
  let d := Z.lxor (fed s1 p1).1 (fed s2 p2).1 in
  ((fed s1 p1).2 = (fed s2 p2).2 /\ d <> 0) \/
  (bits (5 * (cs_group_count s1 + 1)) d /\ (d <> 0 \/ (fed s1 p1).2 <> (fed s2 p2).2)) ->
  differ (feed s1 p1) (feed s2 p2).
Proof.
  intros H1 H2 Hn Hp1 Hp2 d Hd. split_and!; [by apply feed_wf|by apply feed_wf|unfold feed; rewrite Hn; by destruct (_ =? 3)|].
  destruct (fed_wf s1 p1 H1 Hp1) as [Hb1 Ha1]. destruct (fed_wf s2 p2 H2 Hp2) as [Hb2 Ha2]. destruct H1 as (_ & Hr & _).
  rewrite !feed_fed, <- Hn. rewrite <- Hn in Ha2.
  destruct (Z.eqb_spec (cs_group_count s1 + 1) 3) as [He|He]; cbn [cs_checksum cs_group_count cs_accumulated_value].
  - left. split; [done|]. rewrite modulus_lxor by done. destruct Hd as [[-> Hd]|[Hd Hne]].
    + rewrite Z.lxor_nilpotent, Z.lxor_0_r. intros E%shifted_0; [done|]. by apply lxor_bits.
    + rewrite He in *. apply low_difference; [done|by apply (group_value_bits 3)..|done].
  - destruct Hd as [Hd|Hd]; [by left|right]. split; [lia|done].
Qed.

(** One more common character. *)
Lemma differ_step s1 s2 p : is_position p -> differ s1 s2 -> differ (feed s1 p) (feed s2 p).
Proof.
  intros Hp (H1 & H2 & Hn & Hd). apply feed_differ; [done..|]. destruct (position_parts p Hp) as (Hl & _ & _).
  unfold fed. cbn [fst snd]. rewrite modulus_lxor by (apply H1 || apply H2). rewrite Z.lxor_nilpotent, Z.lxor_0_r.
  pose proof (lxor_bits 40 _ _ ltac:(lia) (proj1 H1) (proj1 H2)) as Hb. destruct Hd as [[-> Hd]|(Hc & Hd & Hne)].
  - left. split; [done|]. intros E%shifted_0; done.
  - destruct H1 as (_ & Hr & _). right. rewrite shifted_small by (eapply bits_mono; [|exact Hd]; lia). split; [|lia].
    unfold bits in *. rewrite Z.mul_add_distr_l, Z.pow_add_r by lia. lia.
Qed.
(** The character in which they differ. *)
Lemma differ_start s p1 p2 : state_wf s -> is_position p1 -> is_position p2 -> p1 <> p2 -> differ (feed s p1) (feed s p2).
Proof.
  intros Hs Hp1 Hp2 Hne. apply feed_differ; [done..|]. destruct (position_parts p1 Hp1) as (Hl1 & Hh1 & E1). destruct (position_parts p2 Hp2) as (Hl2 & Hh2 & E2).
  right. unfold fed. cbn [fst snd]. rewrite modulus_lxor by apply Hs. rewrite Z.lxor_nilpotent. change (shifted 0) with 0. rewrite Z.lxor_0_l.
  destruct Hs as (_ & Hr & _). split.
  - apply (bits_mono 5); [lia|]. by apply lxor_bits.
  - destruct (decide (Z.land p1 31 = Z.land p2 31)) as [El|El]; [right; lia|left]. by intros ?%Z.lxor_eq.
Qed.
Lemma zeros_differ n : forall c1 c2, bits 40 c1 -> bits 40 c2 -> c1 <> c2 ->
  Nat.iter n (fun c => polynomial_modulus c 0) c1 <> Nat.iter n (fun c => polynomial_modulus c 0) c2 /\
  bits 40 (Nat.iter n (fun c => polynomial_modulus c 0) c1).
Proof.
  induction n as [|n IH]; intros c1 c2 H1 H2 Hne; [done|]. rewrite !Nat.iter_succ. destruct (IH c1 c2 H1 H2 Hne) as [Hd Hb1]. destruct (IH c2 c1 H2 H1 ltac:(done)) as [_ Hb2].
  split; [|by apply modulus_bits]. intros E. apply Hd. apply Z.lxor_eq. apply Z.lxor_eq_0_iff in E.
  rewrite modulus_lxor, Z.lxor_nilpotent, Z.lxor_0_r in E by done. apply shifted_0 in E; [done|]. by apply lxor_bits.
Qed.
Lemma finish_differ s1 s2 : differ s1 s2 -> finish s1 <> finish s2 /\ bits 40 (finish s1).
Proof.
  intros (H1 & H2 & Hn & Hd). unfold finish. rewrite <- Hn.
  set (last1 := if 0 <? cs_group_count s1 then _ else cs_checksum s1). set (last2 := if 0 <? cs_group_count s1 then _ else cs_checksum s2).
  assert (bits 40 last1 /\ bits 40 last2 /\ last1 <> last2) as (B1 & B2 & Hne).
  { destruct H1 as (Hc1 & Hr & Ha1), H2 as (Hc2 & _ & Ha2). rewrite <- Hn in Ha2. subst last1 last2.
    pose proof (group_value_bits (cs_group_count s1) _ ltac:(lia) Ha1) as V1. pose proof (group_value_bits (cs_group_count s1) _ ltac:(lia) Ha2) as V2.
    destruct (Z.ltb_spec 0 (cs_group_count s1)).
    - split_and!; [by apply modulus_bits..|]. intros E. apply Z.lxor_eq_0_iff in E. rewrite modulus_lxor in E by done. revert E.
      destruct Hd as [[-> Hd]|(_ & Hd & Hne)].
      + rewrite Z.lxor_nilpotent, Z.lxor_0_r. intros E%shifted_0; [done|]. by apply lxor_bits.
      + apply low_difference; [|done..]. eapply bits_mono; [|exact Hd]. lia.
    - split_and!; [done..|]. intros E. destruct Hd as [[_ Hd]|[Hd _]]; [|lia]. apply Hd. rewrite E. apply Z.lxor_nilpotent. }
  destruct (zeros_differ 8 last1 last2 B1 B2 Hne) as [Hz Hb]. split.
  - intros E. apply Hz. apply (f_equal (fun x => Z.lxor x CHECKSUM_FINAL_XOR_VALUE)) in E. by rewrite !Z.lxor_assoc, Z.lxor_nilpotent, !Z.lxor_0_r in E.
  - apply lxor_bits; [lia|done|unfold bits, CHECKSUM_FINAL_XOR_VALUE; lia].
Qed.

(** ** The text *)
Lemma charset_distinct : forall i j c, String.get i CHECKSUM_CHARSET = Some c -> String.get j CHECKSUM_CHARSET = Some c -> i = j.
Proof.
  assert (forallb (fun i => forallb (fun j => bool_decide (String.get i CHECKSUM_CHARSET = String.get j CHECKSUM_CHARSET -> i = j)) (seq 0 32)) (seq 0 32) = true) as H
    by (vm_compute; reflexivity).
  assert (forall k c, String.get k CHECKSUM_CHARSET = Some c -> (k < 32)%nat) as Hlt.
  { intros k c. do 32 (destruct k as [|k]; [lia|]). done. }
  intros i j c Hi Hj. rewrite forallb_forall in H. specialize (H i ltac:(apply in_seq; apply Hlt in Hi; lia)).
  rewrite forallb_forall in H. specialize (H j ltac:(apply in_seq; apply Hlt in Hj; lia)). apply bool_decide_eq_true in H. apply H. congruence.
Qed.
Lemma position_in_spec charset : forall i c p, position_in charset i c = Some p ->
  i <= p < i + Z.of_nat (String.length charset) /\ String.get (Z.to_nat (p - i)) charset = Some c.
Proof.
  induction charset as [|d charset IH]; intros i c p; cbn [position_in String.length]; [done|].
  destruct (Ascii.eqb_spec d c) as [->|Hne].
  - intros [= <-]. rewrite Z.sub_diag. split; [lia|done].
  - intros [Hr Hg]%IH. split; [lia|]. replace (Z.to_nat (p - i)) with (S (Z.to_nat (p - (i + 1)))) by lia. exact Hg.
Qed.
Lemma feed_character_Ok s c s' : feed_character s c = Ok s' ->
  exists p, position_in INPUT_CHARSET 0 c = Some p /\ is_position p /\ s' = feed s p.
Proof.
  unfold feed_character. intros H. inv_ok H. exists v. split; [done|]. split; [|done]. apply position_in_spec in Hs as [Hr _].
  change (String.length INPUT_CHARSET) with 95%nat in Hr. unfold is_position. lia.
Qed.
Lemma feed_all_wf d : forall s s', state_wf s -> try_fold feed_character s d = Ok s' -> state_wf s'.
Proof.
  induction d as [|c d IH]; intros s s' Hs; cbn; [by intros [= <-]|]. intros (s1 & (p & _ & Hp & ->)%feed_character_Ok & H)%bind_Ok.
  eapply IH; [|exact H]. by apply feed_wf.
Qed.
Lemma feed_all_differ d : forall s1 s2 t1 t2, differ s1 s2 ->
  try_fold feed_character s1 d = Ok t1 -> try_fold feed_character s2 d = Ok t2 -> differ t1 t2.
Proof.
  induction d as [|c d IH]; intros s1 s2 t1 t2 Hd; cbn; [by intros [= <-] [= <-]|].
  intros (u1 & (p & Hp & Hr & ->)%feed_character_Ok & H1)%bind_Ok (u2 & (q & Hq & _ & ->)%feed_character_Ok & H2)%bind_Ok.
  rewrite Hp in Hq. injection Hq as <-. eapply IH; [|done..]. by apply differ_step.
Qed.
Lemma try_fold_app_Ok {E A S} (f : S -> A -> outcome E S) xs ys : forall s r,
  try_fold f s (xs ++ ys) = Ok r <-> exists s', try_fold f s xs = Ok s' /\ try_fold f s' ys = Ok r.
Proof.
  induction xs as [|x xs IH]; intros s r; cbn; [naive_solver|]. rewrite bind_Ok. setoid_rewrite bind_Ok. setoid_rewrite IH. naive_solver.
Qed.

(** Eight characters of five bits are the whole register. *)
Definition quintet (c : Z) (i : nat) : Z := Z.land (Z.shiftr c (5 * (7 - Z.of_nat i))) 31.
Lemma quintet_bits c i : bits 5 (quintet c i).
Proof. unfold quintet. change 31 with (Z.ones 5). rewrite Z.land_ones by lia. apply Z.mod_pos_bound. lia. Qed.
Lemma quintets_determine c1 c2 : bits 40 c1 -> bits 40 c2 -> (forall i, (i < 8)%nat -> quintet c1 i = quintet c2 i) -> c1 = c2.
Proof.
  intros H1 H2 H. apply Z.bits_inj'. intros n Hn. destruct (Z.lt_ge_cases n 40) as [Hlt|Hge].
  - specialize (H (Z.to_nat (7 - n / 5)) ltac:(assert (0 <= n / 5) by (apply Z.div_pos; lia); lia)).
    assert (0 <= n / 5 <= 7) as Hq by (split; [apply Z.div_pos; lia|]; assert (n / 5 < 8) by (apply Z.div_lt_upper_bound; lia); lia).
    pose proof (Z.div_mod n 5 ltac:(lia)) as Hd. pose proof (Z.mod_pos_bound n 5 ltac:(lia)) as Hm.
    assert (forall c, Z.testbit (quintet c (Z.to_nat (7 - n / 5))) (n mod 5) = Z.testbit c n) as Ht.
    { intros c. unfold quintet. change 31 with (Z.ones 5). rewrite Z.land_spec, Z.shiftr_spec, Z.ones_spec_low, andb_true_r by lia. f_equal. lia. }
    by rewrite <- !Ht, H.
  - by rewrite (proj1 (bits_spec 40 c1 ltac:(lia) ltac:(unfold bits in *; lia)) H1), (proj1 (bits_spec 40 c2 ltac:(lia) ltac:(unfold bits in *; lia)) H2).
Qed.
Lemma checksum_text c1 c2 t : bits 40 c1 -> bits 40 c2 ->
  try_map (checksum_char c1) (seq 0 8) = Ok t -> try_map (checksum_char c2) (seq 0 8) = Ok t -> c1 = c2.
Proof.
  intros H1 H2 T1 T2. apply quintets_determine; [done..|]. intros i Hi.
  assert (forall c, try_map (checksum_char c) (seq 0 8) = Ok t -> exists ch, t !! i = Some ch /\ String.get (Z.to_nat (quintet c i)) CHECKSUM_CHARSET = Some ch) as Hg.
  { intros c T. apply try_map_Ok in T. assert (seq 0 8 !! i = Some i) as Hs by (by rewrite lookup_seq_lt).
    destruct (Forall2_lookup_l _ _ _ _ _ T Hs) as (ch & Ht & Hc). exists ch. split; [done|]. by apply expect_Ok in Hc. }
  destruct (Hg c1 T1) as (ch & Ht & G1). destruct (Hg c2 T2) as (ch' & Ht' & G2). rewrite Ht in Ht'. injection Ht' as <-.
  pose proof (charset_distinct _ _ _ G1 G2). pose proof (quintet_bits c1 i). pose proof (quintet_bits c2 i). unfold bits in *. lia.
Qed.

(** Every text over the character set has a checksum of eight characters. *)
Lemma checksum_char_total c i : exists ch, checksum_char c i = Ok ch.
Proof.
  unfold checksum_char. fold (quintet c i). pose proof (quintet_bits c i) as Hb.
  assert (forallb (fun k => bool_decide (is_Some (String.get k CHECKSUM_CHARSET))) (seq 0 32) = true) as H by (vm_compute; reflexivity).
  rewrite forallb_forall in H. specialize (H (Z.to_nat (quintet c i)) ltac:(apply in_seq; unfold bits in Hb; lia)).
  apply bool_decide_eq_true in H as [ch ->]. by exists ch.
Qed.
Lemma checksum_total d : Forall (fun c => is_Some (position_in INPUT_CHARSET 0 c)) d -> exists t, compute_checksum d = Ok t /\ length t = 8%nat.
Proof.
  intros Hd. unfold compute_checksum. set (s0 := Build_ChecksumState _ _ _). assert (exists s, try_fold feed_character s0 d = Ok s) as [s ->].
  { generalize s0. induction Hd as [|c d [p Hp] _ IH]; intros s; cbn [try_fold]; [eauto|]. assert (feed_character s c = Ok (feed s p)) as -> by (unfold feed_character; by rewrite Hp). apply IH. }
  cbn [mbind outcome_bind]. enough (forall l, exists t, try_map (checksum_char (finish s)) l = Ok t /\ length t = length l) as H by apply (H (seq 0 8)).
  induction l as [|i l (t & IH & Hl)]; [by exists []|]. destruct (checksum_char_total (finish s) i) as [ch Hc]. exists (ch :: t). cbn.
  rewrite Hc. cbn. rewrite IH. cbn. by rewrite Hl.
Qed.

(** A checksum catches every mistyped character: two descriptors that differ in
    exactly one character have different checksums. *)
Lemma checksum_detects_one_error before after c1 c2 t1 t2 :
  c1 <> c2 -> compute_checksum (before ++ c1 :: after) = Ok t1 -> compute_checksum (before ++ c2 :: after) = Ok t2 -> t1 <> t2.
Proof.
  intros Hne (s1 & F1 & T1)%bind_Ok (s2 & F2 & T2)%bind_Ok ->.
  apply try_fold_app_Ok in F1 as (s & F & F1). apply try_fold_app_Ok in F2 as (s' & F' & F2). rewrite F in F'. injection F' as <-.
  assert (state_wf s) as Hs by (eapply feed_all_wf; [|exact F]; unfold state_wf, bits, CHECKSUM_FINAL_XOR_VALUE; cbn; lia).
  cbn in F1, F2. apply bind_Ok in F1 as (u1 & (p1 & P1 & R1 & ->)%feed_character_Ok & F1).
  apply bind_Ok in F2 as (u2 & (p2 & P2 & R2 & ->)%feed_character_Ok & F2).
  assert (p1 <> p2) as Hp.
  { intros <-. apply Hne. apply position_in_spec in P1 as [_ G1], P2 as [_ G2]. congruence. }
  pose proof (feed_all_differ _ _ _ _ _ (differ_start s p1 p2 Hs R1 R2 Hp) F1 F2) as Hd.
  destruct (finish_differ _ _ Hd) as [Hf B1]. apply Hf. eapply checksum_text; [exact B1| |exact T1|exact T2].
  apply (finish_differ s2 s1). exact (feed_all_differ _ _ _ _ _ (differ_start s p2 p1 Hs R2 R1 (not_eq_sym Hp)) F2 F1).
Qed.
Lemma mistyped_descriptor :
  let word c := list_ascii_of_string "raw(de" ++ c :: list_ascii_of_string "dbeef)" in
  compute_checksum (word "a"%char) = Ok (list_ascii_of_string "89f8spxm") /\ compute_checksum (word "e"%char) = Ok (list_ascii_of_string "xj8ljs75") /\
  list_ascii_of_string "89f8spxm" <> list_ascii_of_string "xj8ljs75".
Proof.
  intros word. assert (compute_checksum (word "a"%char) = Ok (list_ascii_of_string "89f8spxm")) as E1 by (vm_compute; reflexivity).
  assert (compute_checksum (word "e"%char) = Ok (list_ascii_of_string "xj8ljs75")) as E2 by (vm_compute; reflexivity).
  split_and!; [exact E1|exact E2|]. refine (checksum_detects_one_error _ _ _ _ _ _ _ E1 E2). discriminate.
Defined.
