(* ===== verification/Config.v ===== *)
(** Configuration files: [parse_toml] and [parse_field] of src/utill.rs,
    src/taker/config.rs and [MakerServerConfig] of src/maker/api.rs.

    Text is ASCII, as bytes; the file system and the text of floats are the
    classes [ConfigDisk] and [FloatText]. *)
From Stdlib Require Import Ascii String.
From S2P Require Import Prelude Float64 Bitcoin Messages Contract Errors WatchRegistry Fidelity AtRest Electrum.
#[local] Open Scope string_scope.
#[local] Open Scope list_scope.
#[local] Open Scope Z_scope.

(** ** Reading *)
(** [str::lines]: a line ends with a newline, or a carriage return and one. *)
Fixpoint lines_from (cur : bytes) (bs : bytes) : list bytes :=
  match bs with
  | [] => match cur with [] => [] | _ => [rev cur] end
  | b :: bs =>
      if b =? 10 then rev (match cur with 13 :: cur => cur | _ => cur end) :: lines_from [] bs
      else lines_from (b :: cur) bs
  end.
Definition lines (bs : bytes) : list bytes := lines_from [] bs.
Definition is_whitespace_byte (b : Z) : bool := in_range 9 13 b || (b =? 32).
Fixpoint trim_start_bytes (bs : bytes) : bytes :=
  match bs with b :: rest => if is_whitespace_byte b then trim_start_bytes rest else bs | [] => [] end.
Definition trim_bytes (bs : bytes) : bytes := rev (trim_start_bytes (rev (trim_start_bytes bs))).
Definition strip_quotes (v : bytes) : bytes :=
  match v with
  | 34 :: rest => match rev rest with 34 :: inner => rev inner | _ => v end
  | _ => v
  end.
Definition read_line (m : gmap bytes bytes) (line : bytes) : gmap bytes bytes :=
  match split_once 61 line with
  | Some (key, v) => <[trim_bytes key := strip_quotes (trim_bytes v)]> m
  | None => m
  end.
Definition parse_toml (content : bytes) : gmap bytes bytes :=
  foldl read_line ∅ (filter (fun line => line <> []) (lines content)).

(** [str::parse] for an unsigned integer. *)
Fixpoint uint_digits (max acc : Z) (bs : bytes) : option Z :=
  match bs with
  | [] => Some acc
  | b :: rest =>
      if is_digit b then
        let acc := acc * 10 + (b - 48) in
        if acc <=? max then uint_digits max acc rest else None
      else None
  end.
Definition parse_uint (max : Z) (bs : bytes) : option Z :=
  match bs with
  | [] => None
  | 43 :: rest => match rest with [] => None | _ => uint_digits max 0 rest end
  | _ => uint_digits max 0 bs
  end.
Definition parse_field {A} (parse : bytes -> option A) (v : option bytes) (dflt : A) : A := default dflt (v ≫= parse).
Definition show_uint (n : Z) : bytes := rev (digits_rev 20 n).
Class FloatText := { f64_show : f64 -> bytes; f64_parse : bytes -> option f64 }.

Class ConfigDisk (D : Type) := {
  cd_home_dir : D -> outcome string Path;
  cd_exists : Path -> D -> bool;
  cd_len : Path -> D -> outcome string Z;
  cd_read : Path -> D -> outcome string bytes;
  cd_create_dir_all : Path -> stateful D string ();
  cd_write : Path -> bytes -> stateful D string ();
}.

Definition join_lines (ls : list bytes) : bytes := List.concat (map (fun l => l ++ [10]) ls).
Definition setting (key : string) (v : bytes) : bytes := text key ++ text " = " ++ v.

Section config.
Context {D : Type} {disk : ConfigDisk D}.
Definition write_config (path : Path) (toml_data : bytes) : stateful D string () :=
  parent ← lift (ok_or (path_parent path) "config path has no parent directory");
  _ ← cd_create_dir_all parent;
  cd_write path toml_data.
(** The file named or the default one, made first when it is missing or empty. *)
Definition role_dir (role : string) (d : D) : outcome string Path :=
  home ← cd_home_dir d;
  Ok (path_join (path_join home (path_of ".openswap")) (path_of role)).
Definition read_config (role : string) (config_path : option Path) (default_toml : bytes) : stateful D string (gmap bytes bytes) :=
  dir ← gets (role_dir role);
  dir ← lift dir;
  let path := default (path_join dir (path_of "config.toml")) config_path in
  here ← gets (cd_exists path);
  missing ← (if (here : bool) then (n ← gets (cd_len path); n ← lift n; mret (n =? 0)) else mret true);
  _ ← (if (missing : bool) then write_config path default_toml else mret ());
  content ← gets (cd_read path);
  content ← lift content;
  mret (parse_toml content).

(** ** The taker *)
Record TakerConfig := { tc_control_port : Z; tc_socks_port : Z; tc_tor_auth_password : bytes }.
Definition TakerConfig_default : TakerConfig := {| tc_control_port := 9051; tc_socks_port := 9050; tc_tor_auth_password := [] |}.
(** No newline ends the file. *)
Definition taker_toml (c : TakerConfig) : bytes :=
  join_lines [text "# Taker Configuration File";
              text "# Control port for Tor control interface";
              setting "control_port" (show_uint (tc_control_port c));
              text "# Socks port for Tor proxy";
              setting "socks_port" (show_uint (tc_socks_port c));
              text "# Authentication password for Tor control interface"] ++
  setting "tor_auth_password" (tc_tor_auth_password c).
Definition taker_config_of (m : gmap bytes bytes) : TakerConfig :=
  {| tc_control_port := parse_field (parse_uint U16_MAX) (m !! text "control_port") (tc_control_port TakerConfig_default);
     tc_socks_port := parse_field (parse_uint U16_MAX) (m !! text "socks_port") (tc_socks_port TakerConfig_default);
     tc_tor_auth_password := parse_field Some (m !! text "tor_auth_password") (tc_tor_auth_password TakerConfig_default) |}.
Definition TakerConfig_write_to_file (c : TakerConfig) (path : Path) : stateful D string () := write_config path (taker_toml c).
Definition TakerConfig_new (config_path : option Path) : stateful D string TakerConfig :=
  m ← read_config "taker" config_path (taker_toml TakerConfig_default);
  mret (taker_config_of m).

(** ** The maker: the settings the file holds *)
Context {ft : FloatText}.
Definition MIN_SWAP_AMOUNT : Z := 10000.
Definition MIN_RELAY_FEE_RATE : f64 := f64_of_Z 1.
Record MakerSettings := {
  ms_network_port : Z;
  ms_rpc_port : Z;
  ms_socks_port : Z;
  ms_control_port : Z;
  ms_tor_auth_password : bytes;
  ms_min_swap_amount : Z;
  ms_fidelity_amount : Z;
  ms_fidelity_timelock : Z;
  ms_fidelity_feerate : f64;
  ms_base_fee : Z;
  ms_amount_relative_fee_pct : f64;
  ms_time_relative_fee_pct : f64;
  ms_required_confirms : Z;
}.
Definition MakerSettings_default : MakerSettings :=
  {| ms_network_port := 6102; ms_rpc_port := 6103; ms_socks_port := 9050; ms_control_port := 9051; ms_tor_auth_password := [];
     ms_min_swap_amount := 10000; ms_fidelity_amount := 10000; ms_fidelity_timelock := 15000; ms_fidelity_feerate := f64_of_Z MIN_FEE_RATE;
     ms_base_fee := 500; ms_amount_relative_fee_pct := f64_lit 25 10000; ms_time_relative_fee_pct := f64_lit 1 10000; ms_required_confirms := 1 |}.
Definition maker_toml (c : MakerSettings) : bytes :=
  join_lines [text "# Maker Configuration File";
              [];
              text "# Network port for client connections";
              setting "network_port" (show_uint (ms_network_port c));
              text "# RPC port for maker-cli operations";
              setting "rpc_port" (show_uint (ms_rpc_port c));
              text "# Socks port for Tor proxy";
              setting "socks_port" (show_uint (ms_socks_port c));
              text "# Control port for Tor interface";
              setting "control_port" (show_uint (ms_control_port c));
              text "# Authentication password for Tor interface";
              setting "tor_auth_password" (ms_tor_auth_password c);
              text "# Minimum amount in satoshis that can be swapped";
              setting "min_swap_amount" (show_uint (ms_min_swap_amount c));
              text "# Fidelity Bond amount in satoshis";
              setting "fidelity_amount" (show_uint (ms_fidelity_amount c));
              text "# Fidelity Bond timelock in blocks (must be between " ++ show_uint MIN_FIDELITY_TIMELOCK ++ text " and " ++
                show_uint MAX_FIDELITY_TIMELOCK ++ text ")";
              setting "fidelity_timelock" (show_uint (ms_fidelity_timelock c));
              text "# Fee rate in sats/vB for the fidelity bond transaction (must be at least " ++ f64_show MIN_RELAY_FEE_RATE ++ text ")";
              setting "fidelity_feerate" (f64_show (ms_fidelity_feerate c));
              text "# A fixed base fee charged by the Maker for providing its services (in satoshis)";
              setting "base_fee" (show_uint (ms_base_fee c));
              text "# A percentage fee based on the swap amount";
              setting "amount_relative_fee_pct" (f64_show (ms_amount_relative_fee_pct c));
              text "# A percentage fee based on the swap duration";
              setting "time_relative_fee_pct" (f64_show (ms_time_relative_fee_pct c));
              text "# Required confirmations for funding transactions";
              setting "required_confirms" (show_uint (ms_required_confirms c))].
Definition maker_settings_of (m : gmap bytes bytes) : outcome WalletError MakerSettings :=
  let dflt := MakerSettings_default in
  let uint max key (get : MakerSettings -> Z) := parse_field (parse_uint max) (m !! text key) (get dflt) in
  let float key (get : MakerSettings -> f64) := parse_field f64_parse (m !! text key) (get dflt) in
  let fidelity_timelock := uint U32_MAX "fidelity_timelock" ms_fidelity_timelock in
  _ ← reject (negb ((MIN_FIDELITY_TIMELOCK <=? fidelity_timelock) && (fidelity_timelock <=? MAX_FIDELITY_TIMELOCK)))
        (WE_Fidelity FE_InvalidBondLocktime);
  let min_swap_amount := uint U64_MAX "min_swap_amount" ms_min_swap_amount in
  _ ← reject (min_swap_amount <? MIN_SWAP_AMOUNT) (WE_InsufficientFund min_swap_amount MIN_SWAP_AMOUNT);
  let fidelity_feerate := float "fidelity_feerate" ms_fidelity_feerate in
  let fidelity_feerate :=
    if negb (f64_is_nan fidelity_feerate || f64_is_infinite fidelity_feerate) && f64_leb MIN_RELAY_FEE_RATE fidelity_feerate
    then fidelity_feerate else MIN_RELAY_FEE_RATE in
  Ok {| ms_network_port := uint U16_MAX "network_port" ms_network_port;
        ms_rpc_port := uint U16_MAX "rpc_port" ms_rpc_port;
        ms_socks_port := uint U16_MAX "socks_port" ms_socks_port;
        ms_control_port := uint U16_MAX "control_port" ms_control_port;
        ms_tor_auth_password := parse_field Some (m !! text "tor_auth_password") (ms_tor_auth_password dflt);
        ms_min_swap_amount := min_swap_amount;
        ms_fidelity_amount := uint U64_MAX "fidelity_amount" ms_fidelity_amount;
        ms_fidelity_timelock := fidelity_timelock;
        ms_fidelity_feerate := fidelity_feerate;
        ms_base_fee := uint U64_MAX "base_fee" ms_base_fee;
        ms_amount_relative_fee_pct := float "amount_relative_fee_pct" ms_amount_relative_fee_pct;
        ms_time_relative_fee_pct := float "time_relative_fee_pct" ms_time_relative_fee_pct;
        ms_required_confirms := uint U32_MAX "required_confirms" ms_required_confirms |}.
Definition MakerSettings_write_to_file (c : MakerSettings) (path : Path) : stateful D string () := write_config path (maker_toml c).
Definition MakerSettings_new (config_path : option Path) : stateful D WalletError MakerSettings := fun d =>
  match read_config "maker" config_path (maker_toml MakerSettings_default) d with
  | (Ok m, d) => (maker_settings_of m, d)
  | (Err e, d) => (Err (WE_IO e), d)
  | (Panic, d) => (Panic, d)
  end.
End config.

(** ** Round trips *)
(** Values that survive a line of the file: no line break, no blanks around them and
    no quotes. *)
Definition plain (v : bytes) : Prop := 10 ∉ v /\ 13 ∉ v /\ trim_bytes v = v /\ strip_quotes v = v.
(** Words: no blank, quote or equals sign. *)
Definition word (v : bytes) : Prop := Forall (fun b => is_whitespace_byte b = false /\ b <> 34 /\ b <> 61) v.
Lemma trim_start_word v : Forall (fun b => is_whitespace_byte b = false) v -> trim_start_bytes v = v.
Proof. intros H. destruct H as [|b v Hb _]; [done|]. cbn. by rewrite Hb. Qed.
Lemma word_plain v : word v -> plain v.
Proof.
  intros H. assert (Forall (fun b => is_whitespace_byte b = false) v) as Hw by (eapply Forall_impl; [exact H|]; by intros b (? & _)).
  split_and!.
  - intros Hin. by apply (proj1 (list.Forall_forall _ _) Hw) in Hin.
  - intros Hin. by apply (proj1 (list.Forall_forall _ _) Hw) in Hin.
  - unfold trim_bytes. rewrite (trim_start_word v Hw), trim_start_word by by apply Forall_rev. apply rev_involutive.
  - destruct H as [|b v (_ & Hb & _) _]; [done|]. unfold strip_quotes. destruct (decide (b = 34)); [done|]. by repeat (case_match; try done).
Qed.

Lemma lines_from_line cur l rest : 10 ∉ l -> 13 ∉ l -> 13 ∉ cur -> lines_from cur (l ++ 10 :: rest) = (rev cur ++ l) :: lines_from [] rest.
Proof.
  revert cur. induction l as [|b l IH]; intros cur H10 H13 Hc; cbn.
  - rewrite app_nil_r. destruct cur as [|c cur]; [done|]. destruct (decide (c = 13)) as [->|Hne]; [set_solver|]. by repeat (case_match; try done).
  - destruct (Z.eqb_spec b 10); [set_solver|]. rewrite IH by set_solver. cbn. by rewrite <- app_assoc.
Qed.
Lemma lines_from_last cur l : 10 ∉ l -> lines_from cur l = match rev cur ++ l with [] => [] | x => [x] end.
Proof.
  revert cur. induction l as [|b l IH]; intros cur H10; cbn.
  - rewrite app_nil_r. destruct cur as [|c cur]; [done|]. cbn. by destruct (rev cur).
  - destruct (Z.eqb_spec b 10); [set_solver|]. rewrite IH by set_solver. cbn. by rewrite <- app_assoc.
Qed.
Lemma lines_join ls tail : Forall (fun l => 10 ∉ l /\ 13 ∉ l) ls -> 10 ∉ tail ->
  lines (join_lines ls ++ tail) = ls ++ match tail with [] => [] | x => [x] end.
Proof.
  intros Hl Ht. unfold lines. induction Hl as [|l ls [H10 H13] _ IH]; [cbn; rewrite lines_from_last by done; by destruct tail|].
  assert (join_lines (l :: ls) ++ tail = l ++ 10 :: (join_lines ls ++ tail)) as -> by (unfold join_lines; cbn; by rewrite <- !app_assoc).
  rewrite lines_from_line by (done || set_solver). cbn. by rewrite IH.
Qed.
Lemma fold_nonempty ls : forall m, foldl read_line m (filter (fun line => line <> []) ls) = foldl read_line m ls.
Proof.
  induction ls as [|l ls IH]; intros m; [done|]. destruct (decide (l <> [])) as [Hl|Hl].
  - rewrite filter_cons_True by done. cbn. apply IH.
  - rewrite filter_cons_False by done. destruct l; [|by destruct Hl]. cbn. apply IH.
Qed.
Lemma parse_lines ls tail : Forall (fun l => 10 ∉ l /\ 13 ∉ l) ls -> 10 ∉ tail ->
  parse_toml (join_lines ls ++ tail) = read_line (foldl read_line ∅ ls) tail.
Proof.
  intros Hl Ht. unfold parse_toml. rewrite lines_join, fold_nonempty, foldl_app by done. by destruct tail.
Qed.
Lemma read_setting m key v : 61 ∉ text key -> trim_bytes (text key ++ [32]) = text key -> plain v -> read_line m (setting key v) = <[text key := v]> m.
Proof.
  intros Hk Ht (_ & _ & Hv & Hq). unfold read_line, setting. change (text " = ") with ([32] ++ 61 :: [32]).
  rewrite <- (app_assoc [32]), app_assoc. cbn [app]. rewrite split_once_first by set_solver. change (trim_bytes (32 :: v)) with (trim_bytes v). by rewrite Ht, Hv, Hq.
Qed.

(** Numbers. *)
Lemma uint_digits_snoc max bs b n : forall acc,
  uint_digits max acc bs = Some n -> is_digit b = true -> n * 10 + (b - 48) <= max -> uint_digits max acc (bs ++ [b]) = Some (n * 10 + (b - 48)).
Proof.
  induction bs as [|x bs IH]; intros acc; cbn.
  - intros [= ->] -> Hm. by rewrite (proj2 (Z.leb_le _ _) Hm).
  - destruct (is_digit x); [|done]. destruct (_ <=? max); [|done]. apply IH.
Qed.
Lemma show_digits max fuel n : 0 <= n < 10 ^ Z.of_nat fuel -> n <= max -> (0 < fuel)%nat ->
  uint_digits max 0 (rev (digits_rev fuel n)) = Some n /\ rev (digits_rev fuel n) <> [] /\ Forall (fun b => is_digit b = true) (rev (digits_rev fuel n)).
Proof.
  revert n. induction fuel as [|fuel IH]; intros n Hn Hmax Hf; [lia|]. cbn [digits_rev].
  pose proof (Z.mod_pos_bound n 10 ltac:(lia)) as Hm. pose proof (Z.div_mod n 10 ltac:(lia)) as Hd.
  destruct (Z.ltb_spec n 10) as [Hlt|Hge].
  - cbn [rev app uint_digits]. rewrite digit_char by lia. replace (0 * 10 + (48 + n mod 10 - 48)) with n by (rewrite Z.mod_small; lia).
    rewrite (proj2 (Z.leb_le n max)) by lia. split_and!; [done|done|]. apply Forall_singleton, digit_char. lia.
  - destruct fuel as [|fuel]; [cbn in Hn; lia|]. cbn [rev].
    destruct (IH (n / 10)) as (Hp & _ & Hall); [|lia..|].
    { split; [apply Z.div_pos; lia|]. apply Z.div_lt_upper_bound; [lia|]. rewrite (Nat2Z.inj_succ (S fuel)), Z.pow_succ_r in Hn by lia. lia. }
    split_and!; [|intros E; by apply app_eq_nil in E as [_ [=]]|apply Forall_app; split; [done|apply Forall_singleton, digit_char; lia]].
    rewrite (uint_digits_snoc max _ _ (n / 10)); [f_equal; lia|done|by apply digit_char|lia].
Qed.
Lemma show_uint_word n : 0 <= n <= U64_MAX -> word (show_uint n).
Proof.
  intros Hn. destruct (show_digits U64_MAX 20 n) as (_ & _ & H); [unfold U64_MAX in *; cbn; lia|lia|lia|]. eapply Forall_impl; [exact H|].
  intros b. unfold is_digit, is_whitespace_byte, in_range. intros Hb. to_prop. split; [|lia].
  destruct (Z.leb_spec 9 b), (Z.leb_spec b 13), (Z.eqb_spec b 32); cbn; lia || done.
Qed.
Lemma parse_show_uint max n : 0 <= n <= max -> max <= U64_MAX -> parse_uint max (show_uint n) = Some n.
Proof.
  intros Hn Hm. destruct (show_digits max 20 n) as (Hp & Hne & Hd); [unfold U64_MAX in *; cbn; lia|lia|lia|]. fold (show_uint n) in *.
  unfold parse_uint. destruct (show_uint n) as [|b bs]; [done|]. destruct (decide (b = 43)) as [->|Hb]; [by apply Forall_cons in Hd as [? _]|].
  by repeat (case_match; try done).
Qed.

(** ** What is written is read *)
Lemma setting_unbroken key v : 10 ∉ text key /\ 13 ∉ text key -> plain v -> 10 ∉ setting key v /\ 13 ∉ setting key v.
Proof.
  intros [H10 H13] (V10 & V13 & _). unfold setting. rewrite !not_elem_of_app. change (text " = ") with [32; 61; 32].
  split_and!; try done; set_solver.
Qed.
Lemma read_comment m l : 61 ∉ l -> read_line m l = m.
Proof.
  intros H. unfold read_line. enough (split_once 61 l = None) as -> by done. induction l as [|b l IH]; [done|]. cbn.
  destruct (Z.eqb_spec b 61); [set_solver|]. by rewrite IH by set_solver.
Qed.
Ltac closed_notin := apply (bool_decide_eq_true_1 (_ ∉ _)); vm_compute; reflexivity.
Ltac unbroken :=
  repeat (apply Forall_cons; split; [first [by apply setting_unbroken; [split; closed_notin|auto] | split; closed_notin]|]); try apply Forall_nil_2.
Ltac read_settings := repeat first [rewrite read_setting; [|closed_notin|vm_compute; reflexivity|by auto]].
Ltac lookup_settings := repeat first [rewrite lookup_insert_eq | rewrite lookup_insert_ne by (vm_compute; discriminate)].
Definition is_u16_setting (z : Z) : Prop := 0 <= z <= U16_MAX.
Lemma u16_plain n : is_u16_setting n -> plain (show_uint n).
Proof. intros H. apply word_plain, show_uint_word. unfold is_u16_setting, U16_MAX, U64_MAX in *. lia. Qed.

(** A taker's configuration that is saved is loaded again, if its password is plain. *)
Lemma taker_config_round_trip c :
  is_u16_setting (tc_control_port c) -> is_u16_setting (tc_socks_port c) -> plain (tc_tor_auth_password c) ->
  taker_config_of (parse_toml (taker_toml c)) = c.
Proof.
  intros Hc Hs Hp. pose proof (u16_plain _ Hc) as Pc. pose proof (u16_plain _ Hs) as Ps. unfold taker_toml.
  rewrite parse_lines; [|unbroken|apply setting_unbroken; [split; closed_notin|done]].
  rewrite read_setting; [|closed_notin|vm_compute; reflexivity|done]. cbn [foldl].
  rewrite !(read_comment _ (text _)) by closed_notin. read_settings. unfold taker_config_of, parse_field. lookup_settings. cbn [mbind option_bind].
  rewrite !parse_show_uint by (unfold is_u16_setting, U16_MAX, U64_MAX in *; lia). by destruct c.
Qed.

(** Loading a file that holds it. *)
Lemma saved_taker_config_is_loaded {D} {disk : ConfigDisk D} c path home n d :
  is_u16_setting (tc_control_port c) -> is_u16_setting (tc_socks_port c) -> plain (tc_tor_auth_password c) ->
  cd_home_dir d = Ok home -> cd_exists path d = true -> cd_len path d = Ok n -> n <> 0 -> cd_read path d = Ok (taker_toml c) ->
  TakerConfig_new (Some path) d = (Ok c, d).
Proof.
  intros Hc Hs Hp Hh He Hl Hn Hr. unfold TakerConfig_new, read_config, role_dir, gets, lift, mbind, stateful_bind, mret, stateful_ret.
  rewrite Hh. cbn -[taker_toml parse_toml taker_config_of]. rewrite He, Hl. rewrite (proj2 (Z.eqb_neq n 0) Hn), Hr.
  by rewrite taker_config_round_trip.
Qed.

Class FloatTextLaws (ft : FloatText) : Prop := {
  f64_shows_word x : word (f64_show x);
  f64_round_trip x : f64_is_nan x = false -> f64_parse (f64_show x) = Some x;
}.
(** The settings a maker accepts. *)
Record settings_ok (c : MakerSettings) : Prop := {
  so_ports : Forall is_u16_setting [ms_network_port c; ms_rpc_port c; ms_socks_port c; ms_control_port c];
  so_password : plain (ms_tor_auth_password c);
  so_amounts : Forall (fun z => 0 <= z <= U64_MAX) [ms_min_swap_amount c; ms_fidelity_amount c; ms_base_fee c];
  so_min_swap : MIN_SWAP_AMOUNT <= ms_min_swap_amount c;
  so_timelock : MIN_FIDELITY_TIMELOCK <= ms_fidelity_timelock c <= MAX_FIDELITY_TIMELOCK;
  so_feerate : f64_is_nan (ms_fidelity_feerate c) = false /\ f64_is_infinite (ms_fidelity_feerate c) = false /\
    f64_leb MIN_RELAY_FEE_RATE (ms_fidelity_feerate c) = true;
  so_pcts : f64_is_nan (ms_amount_relative_fee_pct c) = false /\ f64_is_nan (ms_time_relative_fee_pct c) = false;
  so_confirms : 0 <= ms_required_confirms c <= U32_MAX;
}.
(** So is a maker's. *)
Lemma maker_config_round_trip {ft : FloatText} {fl : FloatTextLaws ft} c :
  settings_ok c -> maker_settings_of (parse_toml (maker_toml c)) = Ok c.
Proof.
  intros [Hports Hp Ham Hmin Htl Hfee Hpct Hconf]. apply Forall_cons in Hports as [P1 Hports]. apply Forall_cons in Hports as [P2 Hports].
  apply Forall_cons in Hports as [P3 Hports]. apply Forall_cons in Hports as [P4 _].
  apply Forall_cons in Ham as [A1 Ham]. apply Forall_cons in Ham as [A2 Ham]. apply Forall_cons in Ham as [A3 _].
  pose proof (u16_plain _ P1). pose proof (u16_plain _ P2). pose proof (u16_plain _ P3). pose proof (u16_plain _ P4).
  assert (forall z, 0 <= z <= U64_MAX -> plain (show_uint z)) as Hu by (intros; by apply word_plain, show_uint_word).
  pose proof (Hu _ A1). pose proof (Hu _ A2). pose proof (Hu _ A3).
  pose proof (Hu (ms_fidelity_timelock c) ltac:(unfold MIN_FIDELITY_TIMELOCK, MAX_FIDELITY_TIMELOCK, U64_MAX in *; lia)).
  pose proof (Hu (ms_required_confirms c) ltac:(unfold U32_MAX, U64_MAX in *; lia)).
  assert (forall x, plain (f64_show x)) as Hf by (intros; apply word_plain, f64_shows_word).
  pose proof (Hf (ms_fidelity_feerate c)). pose proof (Hf (ms_amount_relative_fee_pct c)). pose proof (Hf (ms_time_relative_fee_pct c)).
  unfold maker_toml. set (fee_line := text _ ++ f64_show MIN_RELAY_FEE_RATE ++ text ")").
  assert ((10 ∉ fee_line /\ 13 ∉ fee_line) /\ 61 ∉ fee_line) as [Hline Hequals].
  { subst fee_line. destruct (Hf MIN_RELAY_FEE_RATE) as (F10 & F13 & _). pose proof (f64_shows_word MIN_RELAY_FEE_RATE) as Fw. unfold word in Fw. rewrite list.Forall_forall in Fw.
    assert (61 ∉ f64_show MIN_RELAY_FEE_RATE) as F61 by (intros Hin; by destruct (Fw 61 Hin) as (_ & _ & ?)).
    rewrite !not_elem_of_app. split_and!; try done; closed_notin. }
  clearbody fee_line. rewrite <- (app_nil_r (join_lines _)), parse_lines; [|repeat (apply Forall_cons; split; [first [exact Hline|by apply setting_unbroken; [split; closed_notin|auto]|split; closed_notin]|]); apply Forall_nil_2|closed_notin].
  cbn [foldl]. rewrite !(read_comment _ (text _)) by closed_notin. rewrite !(read_comment _ (text _ ++ _)) by closed_notin.
  rewrite (read_comment _ fee_line) by done. rewrite !(read_comment _ []) by closed_notin. read_settings.
  unfold maker_settings_of, parse_field. lookup_settings. cbn [mbind option_bind].
  rewrite !parse_show_uint by (unfold is_u16_setting, MIN_FIDELITY_TIMELOCK, MAX_FIDELITY_TIMELOCK, U16_MAX, U32_MAX, U64_MAX in *; lia).
  rewrite !f64_round_trip by (apply Hfee || apply Hpct). cbn [default id]. unfold id.
  destruct Hfee as (N1 & N2 & N3). rewrite N1, N2, N3.
  rewrite (proj2 (Z.leb_le MIN_FIDELITY_TIMELOCK _)), (proj2 (Z.leb_le _ MAX_FIDELITY_TIMELOCK)), (proj2 (Z.ltb_ge _ MIN_SWAP_AMOUNT)) by lia.
  cbn. by destruct c.
Qed.

(** Whatever a file says, a maker that starts from it has a timelock, a least swap
    amount and a fee rate in range. *)
Lemma loaded_maker_settings_are_valid {ft : FloatText} m c :
  maker_settings_of m = Ok c ->
  MIN_FIDELITY_TIMELOCK <= ms_fidelity_timelock c <= MAX_FIDELITY_TIMELOCK /\ MIN_SWAP_AMOUNT <= ms_min_swap_amount c /\
  f64_is_nan (ms_fidelity_feerate c) = false /\ f64_is_infinite (ms_fidelity_feerate c) = false /\
  f64_leb MIN_RELAY_FEE_RATE (ms_fidelity_feerate c) = true.
Proof.
  unfold maker_settings_of. intros H. inv_ok H. to_prop. split_and!; try done; try lia; cbn;
    destruct (negb _ && _) eqn:E; try reflexivity; to_prop; done.
Qed.

(** The password is written as it is: one with a line break sets other fields, and
    one with a blank or quotes around it comes back changed. *)
Lemma password_is_not_escaped :
  let injected := {| TakerConfig_default with tc_tor_auth_password := text "x" ++ [10] ++ text "socks_port = 1" |} in
  let blank := {| TakerConfig_default with tc_tor_auth_password := text "pass " |} in
  tc_socks_port (taker_config_of (parse_toml (taker_toml injected))) = 1 /\
  tc_tor_auth_password (taker_config_of (parse_toml (taker_toml blank))) = text "pass".
Proof. split; vm_compute; reflexivity. Qed.
